(* ===== verification/_CoqProject ===== *)
-Q . S2P
Prelude.v
Stdio.v
Posix.v
Util.v
Sha1.v
PolicyFile.v
Ebitmap.v
Boot.v
Metadata.v
Pack.v
Patch.v
Hashtab.v
Avtab.v
Policydb.v
Sepol.v
Policyrw.v
Policysyms.v
Policymeaning.v
Policyimage.v
Policyread.v
Policyocon.v
Policytrans.v
Policyrules.v
Policyexpand.v
Policycond.v
Policyexpr.v
Policyconflict.v
Policyblock.v
Dtdata.v
Livetree.v
Flattree.v
Readahead.v
Window.v
Archiveentry.v
Archivewrite.v
Raw.v
Gzip.v
Newc.v
Cpioread.v
Cpioarchive.v
Cpiosafety.v
Cpio.v
Cpiounpack.v
Cpiopack.v
Property.v
Bxxt.v
Dtlex.v
Dtparse.v
Treesource.v
Dtscan.v
Dtsource.v
Dtgrammar.v
Dttyped.v
Dtcc.v
