(* ===== verification/Prelude.v ===== *)
(** * bxxt: a verification library

    bxxt is a tool for rooting Android devices: it takes boot images apart and
    puts them together again, edits SELinux policies, sets read-only properties
    and patches files.  This library models its own code and the parts of the
    three libraries in its tree that it runs: libsepol, libdtc and libarchive.
    This file is the prelude; what follows describes the whole.

    ** Parts, files and sources (under src/)

    Foundations.
    - Prelude: machine words, bytes, raw memory ([mread], [mwrite]), numbers as
      bytes, automation.  Stdio: the C string functions, [sprintf] and [sscanf].
      Posix: files as a state monad.  Util: util.c, growable buffers and files.

    Boot images.
    - Sha1: sha1.c.  Boot: boot.c, the header, the layout of the sections, the
      search for device trees, the signature.  Metadata: boot.c, the METADATA
      file.  Pack: boot.c, [bxxt_boot_pack_all] and [bxxt_boot_unpack_all] over
      the interface [Toolchain].  Patch: patch.c.

    SELinux policies.
    - PolicyFile, Ebitmap, Hashtab, Avtab, Policydb: the files of libsepol of
      the same names (services.c, ebitmap.c, hashtab.c and symtab.c, avtab.c with
      the writer of write.c, policydb.c).  Sepol: sepol.c, over [PolicyImage].
    - Policyrw: reading and writing in pieces, and the law [codec] of a reader
      that undoes a writer.  Policysyms: policydb.c, write.c and conditional.c,
      the eight kinds of symbols on disk.  Policyimage: the table of formats and
      the head of [policydb_read] and [policydb_write], up to the symbols.
      Policyocon: role rules, contexts of objects and of file systems.
      Policymeaning, Policyread: what the readers make of any bytes.
    - Policytrans: the tables of transitions by file name and by range.
      Policyrules, Policyblock: the rules of modules, their blocks, and the scopes
      of symbols.  Policycond: conditional.c and write.c, conditional rules on
      disk; Policyexpand: expand.c, those of old policies for the kernel, which are
      expanded before they are written; Policyconflict: what the reader makes of
      any bytes.  Policyexpr: conditional.c, evaluation, normal form and comparison
      of conditions.

    Device trees.
    - Dtdata, Livetree, Flattree: data.c, livetree.c and flattree.c of libdtc:
      buffers, trees, blobs.
    - Dtlex, Dtparse, Treesource: dtc-lexer.c with srcpos.c, dtc-parser.c, and
      treesource.c, with the tables flex and bison generated.  Dtcc: dtcc.c and
      the symbols of livetree.c.
    - Dtscan, Dtsource, Dtgrammar: proofs about the scanner and the parser on
      written sources.  Dttyped: the types of the parser.

    Archives.
    - Readahead, Archiveentry, Archivewrite, Newc, Cpioread: libarchive's
      archive_read.c with the memory client, archive_entry.c, archive_write.c
      with the memory client, the writer of SVR4 cpio archives, the reader of
      the five cpio formats.  Window: what the reader finds behind a pointer it
      has kept while it reads on.
    - Cpioarchive, Cpiosafety: the reader on what the writer wrote, and on
      anything.  Cpio, Cpiounpack, Cpiopack: cpio.c.
    - Raw: the raw format of libarchive, archive_read_data_into_fd.c, and boot.c,
      unpacking and packing a kernel.  Gzip: the two gzip filters, and the choice
      of filters in archive_read.c.

    Commands.
    - Property: prop.c.  Bxxt: bxxt.c and the option loops of boot.c and sepol.c.

    ** How the parts meet

    A definition has the name of the C function it models, and its branches in
    the order of the code.  Where a part calls another through a table of
    functions, or calls code that is not here, there is a class: [KeyOps] (hash
    and comparison of a table) and [TableKey] (their laws), [Toolchain] (archives,
    compression and the device tree compiler, for the boot drivers), [PolicyImage]
    (reading and writing whole policies), [emitter] (output of a tree), [Upstream]
    (what is below a read filter: its blocks, and whether they are [lasting], that
    is, stay in memory when the next one is read), [Format], [Sink] and [Chain]
    (formats and filters of an archive that is written), [pipeline], [OutputChain]
    and [Disk] (filters of a block of memory, both ways, and the files unpacking
    makes), [Deflate] and [Inflate] (zlib), [CharSign] (whether char is signed),
    [Arguments] (getopt, realpath) and [Bionic] (system properties).  A client is verified against
    the class, and the implementations in the tree are instances: the symbol
    tables of [TableKey], the binary emitter, the memory clients of [Upstream] and
    [Sink], the gzip filters of both, the SVR4 and the raw format of [Format].

    State is passed explicitly.  [None], or [Fault], is undefined behaviour: an
    access outside an object, a division by zero, a failed assertion.  [Die] is an
    exit through [die].  A loop takes fuel, and [Diverge] is running out of it; where
    the ways a loop can end matter they are values of a type of their own
    ([dtb_search]).  Memory that was released or never written is a function
    [junk], about which nothing is assumed.

    ** What is shown

    - Boot images: packing writes the sections in the order of the format, each
      padded to the page size, with the sizes in the header and the signature
      over them, for every toolchain; the layout read from an image; SHA-1 is
      FIPS 180-1 whatever the chunks; the METADATA file restores the header; the
      search for device trees ends, but writes behind its table when a tree
      claims no size.
    - Policies: bitmaps, tables and symbols refine sets and finite maps;
      allowing, and creating a domain, change exactly what they should, but for the
      memory a new rule is made of.
    - Policy files: the reader undoes the writer, for the header with all the
      symbols in every format of the table, and for the contexts; the conditions
      of the laws are what makes a policy writable.  What a reader accepts has a
      header of the table and symbols with names; expressions that were read are
      well formed, below the depth of the stack that evaluates them; the label of
      a file is that of the longest prefix; which categories are lost between a
      level and the ranges that denote it.
    - Rules in policy files: transitions, conditional rules, and the blocks and
      scopes of modules are read back as they were written; rules of a file that is
      accepted decide at most one type for each question, in every state of the
      booleans; the normal form of a condition means what the condition meant, and
      which conditions compare equal, some of another meaning among them.
    - Device trees: the layout of a blob; blob and tree undo each other, in memory
      and in files; reading an untrusted file never leaves its block, if that has room
      for a header; merging; a blob
      that is decompiled and compiled again is the same but for one word; the
      parser never meets a value of a wrong type; what the compiler refuses.
    - Archives: what was written is read back, entry by entry and byte by byte;
      packing a directory and unpacking the archive gives the directory, in
      whatever order the system lists names; on any bytes the reader ends and
      stays in its buffers; the look-ahead and the output blocks are invisible.
      The name of a link is compared with that of the trailer after its target was
      read, through a pointer to memory that may be used for something else by
      then ([hold], [lost]): the theorems hold for archives in one block of memory,
      or exclude symbolic links with names of ten bytes, the only ones concerned.
    - Kernels: packing and unpacking a kernel, for all chains of filters that undo
      each other and for gzip with any zlib; what remains of an older file, and
      what happens when the packed kernel does not fit.
    - Properties and patches: the bytes that change, and only those.
    - Errors: each finding of the manifest that has a theorem is proved of the
      same definitions (a path buffer that overflows while unpacking, labels that
      end the compiler, the length of a property).

    ** Bounds and fuel

    - A blob of a device tree is below [LIM] = 2^30 - 2^13 bytes, so that doubling
      an allocation stays in an int; [unflatten_fuel] counts the words left in
      the block, and each node takes one.
    - A value in a source is below 2^28 bytes: escaped, with its commas, it
      stays below 2^30.  The parser's stack holds [YYMAXDEPTH] = 10000 entries;
      [parser_need] is what a tree takes.  The fuel of the scanner and of the
      parser are existential: there is a number from which on the result is the
      same.
    - A search for a path takes one call for each component, a walk of a
      directory one for each level; the reader of an archive takes at least a
      header from the stream for each entry, which bounds its searches; a
      look-ahead asks for less than 2^62 bytes.
    - A condition fits on the evaluator's stack when its tree takes at most
      [COND_EXPR_MAXDEPTH] = 10 places; keys of transitions have values below 2^31,
      where the comparisons of their tables are orders.
    - A gzip file is read below 2^61 bytes; each round of the loops of its filters
      takes input or makes output, of which [deflate_left] and the block bound
      how much there is.  A pipeline has fewer than 25 filters, as in the code.
    - Images, buffers and files have the bounds their theorems state, below 2^31
      where the code has an int and below 2^63 where it has a size.

    ** What is not modelled, and why

    - The model is of a 64-bit little-endian machine, the targets of the build.
      [malloc] does not fail.  Messages and source positions are left out.
    - The rest of [policydb_read] and [policydb_write]: the order in which they
      call their parts, the contexts of Xen, the maps of types and attributes, the
      indexes made after reading.  The check of a context against the policy is an
      argument of its reader.  In kernel policies before
      [POLICYDB_VERSION_AVTAB] the conditional rules are expanded and written, with
      no round trip; the table of the other rules is read only.  Sepol sees whole policies through an interface.
    - [evaluate_conds], which switches rules on and off through the pointers of the
      lists into the table: the lists hold copies of the rules here.
    - The decisions of the security server (services.c, sidtab.c, mls.c), never
      asked for by the program.
    - zlib and liblzma, and the writer of files of libarchive: third party code
      and system calls, behind [Deflate], [Inflate], [OutputChain], [pipeline] and
      [Disk].  The chain for lzma and the pipelines of packed directories stay
      parameters with laws.  lz4 and the filters of other programs: never used.
      Several volumes and other formats: the program asks for neither.
    - The blocks flex moves through its buffer: the scanner sees a file as its
      bytes.  The checks and tools of dtc, the compiler and linker of policy
      modules: linked, never called. *)
From stdpp Require Export base tactics numbers option list sorting gmap strings.
From Stdlib Require Export ZArith Lia.

#[export] Set Default Goal Selector "!".

Declare Scope bxxt_scope.
Delimit Scope bxxt_scope with bxxt.
#[global] Open Scope Z_scope.

(** ** Machine words *)

(** Wrap-around of C's unsigned integer types. *)
Definition u8 (x : Z) : Z := x mod 2 ^ 8.
Definition u16 (x : Z) : Z := x mod 2 ^ 16.
Definition u32 (x : Z) : Z := x mod 2 ^ 32.
Definition u64 (x : Z) : Z := x mod 2 ^ 64.

(** Conversion to a 32-bit signed [int] (implementation defined, two's
    complement on every target of the build). *)
Definition s32 (x : Z) : Z :=
  let y := u32 x in if y <? 2 ^ 31 then y else y - 2 ^ 32.

Definition is_byte (b : Z) : Prop := 0 <= b < 256.
Definition is_u32 (x : Z) : Prop := 0 <= x < 2 ^ 32.
Definition is_u64 (x : Z) : Prop := 0 <= x < 2 ^ 64.
Abbreviation bytes := (list Z).

(** Length of a byte sequence, as an integer. *)
Definition blen {A} (l : list A) : Z := Z.of_nat (length l).

(** ** Arithmetic automation *)

(** [lia] with division and modulo. *)
Ltac zlia := Z.div_mod_to_equations; lia.

(** Numerals stay readable, and powers of two are constants for [lia]. *)
Ltac pow2 :=
  change (2 ^ 8) with 256 in *; change (2 ^ 16) with 65536 in *;
  change (2 ^ 31) with 2147483648 in *;
  change (2 ^ 32) with 4294967296 in *;
  change (2 ^ 64) with 18446744073709551616 in *.

(** Unfolds the word wrappers and solves. *)
Ltac word_solve :=
  unfold s32, u8, u16, u32, u64, is_byte, is_u32, is_u64, blen in *; pow2; zlia.

(** Runs the first operation of an option-monad goal [m ≫= k = Some _ -> P]. *)
Ltac opt_step :=
  let H := fresh in
  match goal with
  | |- (?o ≫= _) = Some _ -> _ =>
      destruct o; cbn [mbind option_bind]; [|intros H; discriminate H]
  end.

Create HintDb words.
Create Rewrite HintDb words.
Create HintDb bits.
Create Rewrite HintDb bits.

Lemma u8_range x : 0 <= u8 x < 256.
Proof. word_solve. Qed.
Lemma u32_range x : is_u32 (u32 x).
Proof. word_solve. Qed.
Lemma u64_range x : is_u64 (u64 x).
Proof. word_solve. Qed.
Lemma s32_range n : - 2 ^ 31 <= s32 n < 2 ^ 31.
Proof. unfold s32. pose proof (u32_range n) as [? ?]. destruct (Z.ltb_spec (u32 n) (2 ^ 31)); lia. Qed.

Lemma u32_bit x i : Z.testbit (u32 x) i = (i <? 32) && Z.testbit x i.
Proof.
  unfold u32. destruct (Z.ltb_spec i 32); [apply Z.mod_pow2_bits_low; lia|].
  apply Z.mod_pow2_bits_high. lia.
Qed.

Lemma u32_small x : is_u32 x -> u32 x = x.
Proof. intros. by apply Z.mod_small. Qed.
Lemma u64_small x : is_u64 x -> u64 x = x.
Proof. intros. by apply Z.mod_small. Qed.
Lemma u32_u32 x : u32 (u32 x) = u32 x.
Proof. apply u32_small, u32_range. Qed.
Lemma u32_add_l x y : u32 (u32 x + y) = u32 (x + y).
Proof. apply Zplus_mod_idemp_l. Qed.
Lemma u32_add_r x y : u32 (x + u32 y) = u32 (x + y).
Proof. apply Zplus_mod_idemp_r. Qed.
#[export] Hint Resolve u8_range u32_range u64_range : words.
#[export] Hint Rewrite u32_u32 u32_add_l u32_add_r : words.

(** ** Bits *)

Lemma testbit_high x n i : 0 <= x < 2 ^ n -> n <= i -> Z.testbit x i = false.
Proof.
  intros Hx Hi. destruct (decide (0 <= n)) as [Hn|Hn]; last first.
  { rewrite Z.pow_neg_r in Hx by lia. lia. }
  rewrite <- (Z.mod_small x (2 ^ n)) by done.
  by apply Z.mod_pow2_bits_high.
Qed.

Lemma testbit_range_lt x n :
  0 <= n -> 0 <= x -> (forall i, n <= i -> Z.testbit x i = false) -> x < 2 ^ n.
Proof.
  intros Hn Hx Hb. destruct (decide (x = 0)) as [->|Hne]; [lia|].
  apply Z.log2_lt_pow2; [lia|].
  destruct (decide (n <= Z.log2 x)) as [Hc|]; [|lia].
  specialize (Hb _ Hc). rewrite Z.bit_log2 in Hb by lia. done.
Qed.

Lemma u32_testbit x i :
  0 <= i -> Z.testbit (u32 x) i = if i <? 32 then Z.testbit x i else false.
Proof.
  intros Hi. unfold u32. destruct (Z.ltb_spec i 32).
  - by apply Z.mod_pow2_bits_low.
  - apply Z.mod_pow2_bits_high. lia.
Qed.

Lemma u64_testbit x i :
  0 <= i -> Z.testbit (u64 x) i = if i <? 64 then Z.testbit x i else false.
Proof.
  intros Hi. unfold u64. destruct (Z.ltb_spec i 64).
  - by apply Z.mod_pow2_bits_low.
  - apply Z.mod_pow2_bits_high. lia.
Qed.

Lemma shiftl_testbit x n i :
  0 <= i -> Z.testbit (Z.shiftl x n) i = if i <? n then false else Z.testbit x (i - n).
Proof.
  intros Hi. rewrite Z.shiftl_spec by done.
  destruct (Z.ltb_spec i n); [|done]. apply Z.testbit_neg_r. lia.
Qed.

#[export] Hint Rewrite
  Z.lxor_spec Z.land_spec Z.lor_spec Z.ldiff_spec Z.testbit_0_l : bits.
#[export] Hint Rewrite
  Z.lnot_spec Z.shiftr_spec shiftl_testbit u32_testbit u64_testbit
  Z.ones_spec_high Z.ones_spec_low using lia : bits.

(** Case analysis on the comparisons of a goal on bits. *)
Ltac bit_cases :=
  repeat match goal with
  | |- context [Z.ltb ?a ?b] => destruct (Z.ltb_spec a b)
  end.

(** Bit-by-bit equality: [apply Z.bits_inj'], specifications of every
    operator, case analysis on bit positions. *)
Ltac bitwise :=
  apply Z.bits_inj'; intros ? ?; autorewrite with bits; bit_cases;
  autorewrite with bits; bit_cases; try lia.

Lemma land_range x y n : 0 <= n -> 0 <= x -> 0 <= y < 2 ^ n -> 0 <= Z.land x y < 2 ^ n.
Proof.
  intros Hn Hx Hy.
  assert (0 <= Z.land x y) by (apply Z.land_nonneg; lia). split; [done|].
  apply testbit_range_lt; [done..|]. intros i Hi.
  rewrite Z.land_spec, (testbit_high y n) by done. apply andb_false_r.
Qed.

Lemma lor_range x y n :
  0 <= n -> 0 <= x < 2 ^ n -> 0 <= y < 2 ^ n -> 0 <= Z.lor x y < 2 ^ n.
Proof.
  intros Hn Hx Hy.
  assert (0 <= Z.lor x y) by (apply Z.lor_nonneg; lia). split; [done|].
  apply testbit_range_lt; [done..|]. intros i Hi.
  by rewrite Z.lor_spec, !(testbit_high _ n).
Qed.

Lemma lxor_range x y n :
  0 <= n -> 0 <= x < 2 ^ n -> 0 <= y < 2 ^ n -> 0 <= Z.lxor x y < 2 ^ n.
Proof.
  intros Hn Hx Hy.
  assert (0 <= Z.lxor x y) by (apply Z.lxor_nonneg; lia). split; [done|].
  apply testbit_range_lt; [done..|]. intros i Hi.
  by rewrite Z.lxor_spec, !(testbit_high _ n).
Qed.

(** Disjoint addition is a bitwise or. *)
Lemma lor_add x y n : 0 <= n -> 0 <= x < 2 ^ n -> x + 2 ^ n * y = Z.lor x (Z.shiftl y n).
Proof.
  intros Hn Hx. rewrite <- Z.add_nocarry_lor.
  - rewrite Z.shiftl_mul_pow2 by done. lia.
  - bitwise. rewrite (testbit_high x n) by lia. done.
Qed.

(** ** Byte sequences *)

(** Little-endian encoding on [n] bytes and its inverse. *)
Fixpoint le_bytes (n : nat) (z : Z) : bytes :=
  match n with
  | O => []
  | S n => z mod 256 :: le_bytes n (z / 256)
  end.

Fixpoint le_val (l : bytes) : Z :=
  match l with
  | [] => 0
  | b :: l => b + 256 * le_val l
  end.

Definition be_bytes (n : nat) (z : Z) : bytes := rev (le_bytes n z).
Definition be_val (l : bytes) : Z := le_val (rev l).

(** Raw memory: reads and writes fail outside the object. *)
Definition mread (m : bytes) (off len : Z) : option bytes :=
  if (0 <=? off) && (0 <=? len) && (off + len <=? blen m)
  then Some (take (Z.to_nat len) (drop (Z.to_nat off) m))
  else None.

Definition mwrite (m : bytes) (off : Z) (d : bytes) : option bytes :=
  if (0 <=? off) && (off + blen d <=? blen m)
  then Some (take (Z.to_nat off) m ++ d ++ drop (Z.to_nat off + length d) m)
  else None.

(** The C string in some bytes: those before the NUL, which may lie beyond. *)
Fixpoint before_nul (m : bytes) : bytes :=
  match m with
  | [] => []
  | b :: m => if b =? 0 then [] else b :: before_nul m
  end.

Definition zeros (n : Z) : bytes := replicate (Z.to_nat n) 0.

(** ASCII text as bytes. *)
Fixpoint str (s : string) : bytes :=
  match s with
  | EmptyString => []
  | String c s => Z.of_N (Ascii.N_of_ascii c) :: str s
  end.

Lemma blen_nonneg {A} (l : list A) : 0 <= blen l.
Proof. unfold blen. lia. Qed.
Lemma blen_app {A} (l k : list A) : blen (l ++ k) = blen l + blen k.
Proof. unfold blen. rewrite length_app. lia. Qed.
Lemma blen_cons {A} (x : A) l : blen (x :: l) = 1 + blen l.
Proof. unfold blen. simpl length. lia. Qed.
Lemma blen_nil {A} : blen (@nil A) = 0.
Proof. done. Qed.
Lemma blen_zeros n : 0 <= n -> blen (zeros n) = n.
Proof. intros. unfold blen, zeros. rewrite length_replicate. lia. Qed.

Lemma length_le_bytes n z : length (le_bytes n z) = n.
Proof. revert z. induction n as [|n IH]; intros z; simpl; [done|]. by rewrite IH. Qed.
Lemma length_be_bytes n z : length (be_bytes n z) = n.
Proof. unfold be_bytes. by rewrite length_rev, length_le_bytes. Qed.
Lemma blen_le_bytes n z : blen (le_bytes n z) = Z.of_nat n.
Proof. unfold blen. by rewrite length_le_bytes. Qed.
Lemma blen_be_bytes n z : blen (be_bytes n z) = Z.of_nat n.
Proof. unfold blen. by rewrite length_be_bytes. Qed.

Lemma le_val_le_bytes n z : le_val (le_bytes n z) = z mod 2 ^ (8 * Z.of_nat n).
Proof.
  revert z. induction n as [|n IH]; intros z; [by rewrite Z.mod_1_r|].
  simpl le_val. rewrite IH.
  replace (8 * Z.of_nat (S n)) with (8 + 8 * Z.of_nat n) by lia.
  rewrite Z.pow_add_r by lia. change (2 ^ 8) with 256.
  rewrite Z.rem_mul_r by lia. lia.
Qed.

Lemma be_val_be_bytes n z : be_val (be_bytes n z) = z mod 2 ^ (8 * Z.of_nat n).
Proof. unfold be_val, be_bytes. by rewrite rev_involutive, le_val_le_bytes. Qed.

Lemma le_val_range l : Forall is_byte l -> 0 <= le_val l < 2 ^ (8 * blen l).
Proof.
  induction 1 as [|b l Hb Hl IH]; [done|].
  rewrite blen_cons. simpl le_val.
  replace (8 * (1 + blen l)) with (8 + 8 * blen l) by lia.
  rewrite Z.pow_add_r by (pose proof (blen_nonneg l); lia).
  change (2 ^ 8) with 256. unfold is_byte in Hb. lia.
Qed.

Lemma le_bytes_le_val l : Forall is_byte l -> le_bytes (length l) (le_val l) = l.
Proof.
  induction 1 as [|b l Hb Hl IH]; [done|]. simpl.
  unfold is_byte in Hb. f_equal; [zlia|].
  replace ((b + 256 * le_val l) / 256) with (le_val l) by zlia. done.
Qed.

Lemma le_bytes_is_byte n z : Forall is_byte (le_bytes n z).
Proof.
  revert z. induction n as [|n IH]; intros z; simpl; constructor; [|done].
  unfold is_byte. zlia.
Qed.
Lemma be_bytes_is_byte n z : Forall is_byte (be_bytes n z).
Proof. apply Forall_rev, le_bytes_is_byte. Qed.

Lemma str_is_byte s : Forall is_byte (str s).
Proof.
  induction s as [|c s IH]; simpl; constructor; [|done].
  unfold is_byte. pose proof (Ascii.N_ascii_bounded c). lia.
Qed.

(** A decision procedure for concrete byte strings. *)
Lemma is_byte_check l : forallb (fun b => (0 <=? b) && (b <? 256)) l = true -> Forall is_byte l.
Proof.
  induction l as [|b l IH]; cbn [forallb]; intros H; [by apply Forall_nil_2|].
  apply andb_true_iff in H as [Hb Hl]. apply Forall_cons_2; [unfold is_byte; lia|by apply IH].
Qed.

Lemma zeros_is_byte n : Forall is_byte (zeros n).
Proof. apply Forall_replicate. unfold is_byte. lia. Qed.
#[export] Hint Resolve le_bytes_is_byte be_bytes_is_byte str_is_byte zeros_is_byte
  blen_nonneg Forall_app_2 : words.

Lemma before_nul_app s t : ~ In 0 s -> before_nul (s ++ 0 :: t) = s.
Proof.
  induction s as [|b s IH]; intros Hs; [done|]. cbn. destruct (Z.eqb_spec b 0) as [->|_].
  - exfalso. apply Hs. by left.
  - f_equal. apply IH. intros Hi. apply Hs. by right.
Qed.

Lemma before_nul_all s : ~ In 0 s -> before_nul s = s.
Proof.
  induction s as [|b s IH]; intros Hs; [done|]. cbn. destruct (Z.eqb_spec b 0) as [->|_].
  - exfalso. apply Hs. by left.
  - f_equal. apply IH. intros Hi. apply Hs. by right.
Qed.

Lemma mread_app_l m k off len d :
  mread m off len = Some d -> mread (m ++ k) off len = Some d.
Proof.
  unfold mread. intros H. case_match eqn:E; [|done]. simplify_eq.
  rewrite blen_app. pose proof (blen_nonneg k).
  apply andb_true_iff in E as [E E3]. apply andb_true_iff in E as [E1 E2].
  rewrite E1, E2. replace (off + len <=? blen m + blen k) with true by lia.
  simpl. f_equal. unfold blen in *.
  rewrite drop_app_le, take_app_le by (rewrite ?length_drop; lia). done.
Qed.

Lemma mread_app m d k : mread (m ++ d ++ k) (blen m) (blen d) = Some d.
Proof.
  unfold mread. rewrite !blen_app.
  pose proof (blen_nonneg m). pose proof (blen_nonneg d). pose proof (blen_nonneg k).
  replace (_ && _ && _) with true by lia. f_equal. unfold blen. rewrite !Nat2Z.id.
  by rewrite drop_app_length, take_app_length.
Qed.

Lemma mread_all d : mread d 0 (blen d) = Some d.
Proof.
  rewrite <- (app_nil_r d) at 1. apply (mread_app [] d []).
Qed.

Lemma mread_Some m off len :
  0 <= off -> 0 <= len -> off + len <= blen m ->
  mread m off len = Some (take (Z.to_nat len) (drop (Z.to_nat off) m)).
Proof. intros. unfold mread. by replace (_ && _ && _) with true by lia. Qed.

Lemma mread_blen m off len d : mread m off len = Some d -> blen d = len.
Proof.
  unfold mread. case_match eqn:E; [|done]. intros. simplify_eq.
  unfold blen in *. rewrite length_take, length_drop. lia.
Qed.

Lemma mwrite_Some m off d :
  0 <= off -> off + blen d <= blen m ->
  mwrite m off d = Some (take (Z.to_nat off) m ++ d ++ drop (Z.to_nat off + length d) m).
Proof. intros. unfold mwrite. by replace (_ && _) with true by lia. Qed.

Lemma mwrite_blen m off d m' : mwrite m off d = Some m' -> blen m' = blen m.
Proof.
  unfold mwrite. case_match eqn:E; [|done]. intros. simplify_eq.
  unfold blen in *. rewrite !length_app, length_take, length_drop. lia.
Qed.

Lemma mwrite_app m e d k :
  blen e = blen d -> mwrite (m ++ e ++ k) (blen m) d = Some (m ++ d ++ k).
Proof.
  intros He. rewrite mwrite_Some; rewrite ?blen_app.
  - f_equal. unfold blen in *. rewrite Nat2Z.id, take_app_length.
    by rewrite <- drop_drop, drop_app_length, drop_app_length' by lia.
  - apply blen_nonneg.
  - pose proof (blen_nonneg k). lia.
Qed.

Lemma le_bytes_app n k z :
  le_bytes (n + k) z = le_bytes n z ++ le_bytes k (z / 256 ^ Z.of_nat n).
Proof.
  revert z. induction n as [|n IH]; intros z; [by rewrite Z.div_1_r|].
  simpl. rewrite IH. do 3 f_equal.
  rewrite Z.div_div by (try apply Z.pow_pos_nonneg; lia).
  rewrite Nat2Z.inj_succ, Z.pow_succ_r by lia. done.
Qed.

Lemma le_bytes_mod n z : le_bytes n (z mod 256 ^ Z.of_nat n) = le_bytes n z.
Proof.
  revert z. induction n as [|n IH]; intros z; [done|].
  rewrite Nat2Z.inj_succ, Z.pow_succ_r by lia.
  assert (0 < 256 ^ Z.of_nat n) by (apply Z.pow_pos_nonneg; lia).
  rewrite Z.rem_mul_r by lia. simpl. f_equal.
  - rewrite Z.mul_comm, Z.mod_add by lia. by apply Z.mod_mod.
  - rewrite Z.mul_comm, Z.div_add by lia.
    rewrite (Z.div_small (z mod 256)) by zlia. apply IH.
Qed.

Lemma be_bytes_app n k z :
  be_bytes (n + k) z = be_bytes k (z / 256 ^ Z.of_nat n) ++ be_bytes n z.
Proof. unfold be_bytes. by rewrite le_bytes_app, rev_app_distr. Qed.

Lemma be_bytes_mod n z : be_bytes n (z mod 256 ^ Z.of_nat n) = be_bytes n z.
Proof. unfold be_bytes. by rewrite le_bytes_mod. Qed.
