(* ===== verification/Stdio.v ===== *)
(** C strings and the parts of <stdio.h> and <string.h> the program uses:
    [strlen], [strcmp], [strstr], [memmem], the conversions of [sprintf] and
    an interpreter of [sscanf] formats (literals, white space, [%x], [%lx],
    [%s] and scan sets).  The C library is not part of the repository; these
    definitions follow its documented behaviour. *)
From S2P Require Import Prelude.

(** ** Strings in memory *)

(** The bytes before the first NUL; [None] when the object has no NUL, where
    the C function would read past it. *)
Fixpoint cstring (m : bytes) : option bytes :=
  match m with
  | [] => None
  | b :: m => if b =? 0 then Some [] else s ← cstring m; Some (b :: s)
  end.

Definition cstr_at (m : bytes) (off : Z) : option bytes :=
  if (0 <=? off) && (off <=? blen m) then cstring (drop (Z.to_nat off) m) else None.

Fixpoint is_prefix (p s : bytes) : bool :=
  match p, s with
  | [], _ => true
  | a :: p, b :: s => (a =? b) && is_prefix p s
  | _ :: _, [] => false
  end.

(** Offset of the first occurrence. *)
Fixpoint find_bytes (n s : bytes) : option Z :=
  if is_prefix n s then Some 0
  else match s with [] => None | _ :: s => i ← find_bytes n s; Some (i + 1) end.

(** The result is relative to the start of the haystack. *)
Definition strstr (hay needle : bytes) : option Z := find_bytes needle hay.
Definition memmem (m : bytes) (off len : Z) (needle : bytes) : option (option Z) :=
  w ← mread m off len;
  Some (match find_bytes needle w with Some i => Some (off + i) | None => None end).

(** [strcmp], the sign of the first difference. *)
Fixpoint strcmp (a b : bytes) : Z :=
  match a, b with
  | [], [] => 0
  | [], _ :: _ => -1
  | _ :: _, [] => 1
  | x :: a, y :: b => if x <? y then -1 else if y <? x then 1 else strcmp a b
  end.

(** ** Output conversions *)

Definition digit_char (upper : bool) (d : Z) : Z :=
  if d <? 10 then 48 + d else (if upper then 65 else 97) + (d - 10).

(** Digits of a non-negative number, most significant first. *)
Fixpoint digits (fuel : nat) (upper : bool) (base n : Z) (acc : bytes) : bytes :=
  match fuel with
  | O => acc
  | S fuel =>
      let acc := digit_char upper (n mod base) :: acc in
      if n / base =? 0 then acc else digits fuel upper base (n / base) acc
  end.

Definition print_num (upper : bool) (base n : Z) : bytes := digits 64 upper base n [].
Definition zero_pad (w : Z) (s : bytes) : bytes := replicate (Z.to_nat (w - blen s)) 48 ++ s.

(** ["%x"] of an [unsigned], ["%lx"], ["%0wx"] and ["%d"]. *)
Definition fmt_x (n : Z) : bytes := print_num false 16 n.
Definition fmt_0x (w n : Z) : bytes := zero_pad w (print_num false 16 n).
Definition fmt_0X (w n : Z) : bytes := zero_pad w (print_num true 16 n).
Definition fmt_d (n : Z) : bytes :=
  if n <? 0 then 45 :: print_num false 10 (- n) else print_num false 10 n.
Definition fmt_0d (w n : Z) : bytes :=
  if n <? 0 then 45 :: zero_pad (w - 1) (print_num false 10 (- n))
  else zero_pad w (print_num false 10 n).

(** ** Input conversions *)

Definition isspace (c : Z) : bool := (c =? 32) || ((9 <=? c) && (c <=? 13)).

Definition hex_digit (c : Z) : option Z :=
  if (48 <=? c) && (c <=? 57) then Some (c - 48)
  else if (97 <=? c) && (c <=? 102) then Some (c - 87)
  else if (65 <=? c) && (c <=? 70) then Some (c - 55)
  else None.

Fixpoint skip_space (s : bytes) : bytes :=
  match s with
  | c :: s' => if isspace c then skip_space s' else s
  | [] => []
  end.

(** The longest run of characters that satisfy [p]. *)
Fixpoint span (p : Z -> bool) (s : bytes) : bytes * bytes :=
  match s with
  | c :: s' => if p c then let '(a, r) := span p s' in (c :: a, r) else ([], s)
  | [] => ([], [])
  end.

(** Value of a run of digits, saturating like [strtoul]. *)
Fixpoint hex_value (acc : Z) (s : bytes) : Z :=
  match s with
  | [] => acc
  | c :: s => hex_value (acc * 16 + default 0 (hex_digit c)) s
  end.

Definition is_hex (c : Z) : bool := bool_decide (is_Some (hex_digit c)).

Definition skip_sign (s : bytes) : bool * bytes :=
  match s with
  | c :: s' => if c =? 45 then (true, s') else if c =? 43 then (false, s') else (false, s)
  | [] => (false, s)
  end.

(** The prefix belongs to the number only before a digit. *)
Definition skip_0x (s : bytes) : bytes :=
  match s with
  | z :: x :: d :: s' =>
      if (z =? 48) && ((x =? 120) || (x =? 88)) && is_hex d then d :: s' else s
  | _ => s
  end.

(** [%x]: white space, an optional sign, an optional [0x], digits; the value
    is that of [strtoul]. *)
Definition scan_hex (s : bytes) : option (Z * bytes) :=
  let '(neg, s) := skip_sign (skip_space s) in
  let '(ds, rest) := span is_hex (skip_0x s) in
  match ds with
  | [] => None
  | _ =>
      let v := hex_value 0 ds in
      Some (if 2 ^ 64 <=? v then 2 ^ 64 - 1 else if neg : bool then u64 (- v) else v, rest)
  end.

(** A directive of a format. *)
Inductive directive :=
  | DLit (c : Z)
  | DSpace
  | DHex (bits : Z)             (* %x stores 32 bits, %lx 64 *)
  | DSet (neg : bool) (set : bytes)  (* %[...] *)
  | DWord.                      (* %s *)

(** The characters between [[] and []]; [a-z] is a range unless the minus is
    last or the range is empty. *)
Fixpoint parse_set (prev : option Z) (f : bytes) (acc : bytes) : option (bytes * bytes) :=
  match f with
  | [] => None
  | c :: f' =>
      if (c =? 93) then Some (acc, f')
      else
        match prev, f' with
        | Some p, n :: f'' =>
            if (c =? 45) && negb (n =? 93) && (p <=? n)
            then parse_set None f'' (acc ++ map (fun k => p + Z.of_nat k) (seq 0 (Z.to_nat (n - p + 1))))
            else parse_set (Some c) f' (acc ++ [c])
        | _, _ => parse_set (Some c) f' (acc ++ [c])
        end
  end.

Fixpoint parse_format (fuel : nat) (f : bytes) : option (list directive) :=
  match fuel with
  | O => None
  | S fuel =>
      match f with
      | [] => Some []
      | 37 :: f =>                                   (* % *)
          match f with
          | 120 :: f | 88 :: f => ds ← parse_format fuel f; Some (DHex 32 :: ds)
          | 108 :: 120 :: f | 108 :: 88 :: f => ds ← parse_format fuel f; Some (DHex 64 :: ds)
          | 115 :: f => ds ← parse_format fuel f; Some (DWord :: ds)
          | 91 :: 94 :: f =>
              '(set, f) ← parse_set None f [];
              ds ← parse_format fuel f; Some (DSet true set :: ds)
          | 91 :: f =>
              '(set, f) ← parse_set None f [];
              ds ← parse_format fuel f; Some (DSet false set :: ds)
          | _ => None
          end
      | c :: f =>
          ds ← parse_format fuel f;
          Some ((if isspace c then DSpace else DLit c) :: ds)
      end
  end.

(** A converted value. *)
Inductive sval := SInt (n : Z) | SStr (s : bytes).
#[export] Instance sval_eq_dec : EqDecision sval.
Proof. solve_decision. Defined.

Definition in_set (neg : bool) (set : bytes) (c : Z) : bool :=
  xorb neg (bool_decide (c ∈ set)).

(** Runs the directives; the values converted so far, and whether the input
    ended before the first conversion. *)
Fixpoint scan (ds : list directive) (s : bytes) (acc : list sval) : list sval * bool :=
  let stop := (acc, match s with [] => true | _ => false end) in
  match ds with
  | [] => (acc, false)
  | DSpace :: ds => scan ds (skip_space s) acc
  | DLit c :: ds =>
      match s with
      | b :: s' => if b =? c then scan ds s' acc else (acc, false)
      | [] => stop
      end
  | DHex w :: ds =>
      match scan_hex s with
      | Some (v, s') => scan ds s' (acc ++ [SInt (v mod 2 ^ w)])
      | None => (acc, match skip_space s with [] => true | _ => false end)
      end
  | DSet neg set :: ds =>
      let '(w, s') := span (in_set neg set) s in
      match w with
      | [] => stop
      | _ => scan ds s' (acc ++ [SStr w])
      end
  | DWord :: ds =>
      let '(w, s') := span (fun c => negb (isspace c)) (skip_space s) in
      match w with
      | [] => (acc, true)
      | _ => scan ds s' (acc ++ [SStr w])
      end
  end.

(** [sscanf]: the returned count ([EOF] is -1) and the values stored. *)
Definition sscanf (s fmt : bytes) : option (Z * list sval) :=
  ds ← parse_format (S (length fmt)) fmt;
  let '(vs, eof) := scan ds s [] in
  Some (if (blen vs =? 0) && eof then -1 else blen vs, vs).

(** ** Vocabulary of the proofs *)

(** Two strings that differ at a position both have. *)
Fixpoint mismatch (a b : bytes) : bool :=
  match a, b with
  | x :: a, y :: b => if x =? y then mismatch a b else true
  | _, _ => false
  end.

Definition is_digit_char (c : Z) : Prop := 48 <= c <= 57 \/ 97 <= c <= 102.

(** ** Searching *)

Lemma mismatch_prefix a b x y : mismatch a b = true -> is_prefix (a ++ x) (b ++ y) = false.
Proof.
  revert b. induction a as [|c a IH]; intros [|d b]; cbn; try done.
  destruct (c =? d); [|done]. apply IH.
Qed.

Lemma is_prefix_app_l p q s : is_prefix (p ++ q) s = true -> is_prefix p s = true.
Proof.
  revert s. induction p as [|c p IH]; intros [|d s]; cbn; try done.
  intros H. apply andb_true_iff in H as [-> H]. by apply IH.
Qed.

Lemma is_prefix_stop p u c r :
  c ∉ p -> is_prefix p (u ++ c :: r) = true -> is_prefix p u = true.
Proof.
  revert u. induction p as [|x p IH]; intros u Hc; [done|].
  apply not_elem_of_cons in Hc as [Hx Hc]. destruct u as [|d u]; cbn.
  - intros H. apply andb_true_iff in H as [H _]. by apply Z.eqb_eq in H.
  - intros H. apply andb_true_iff in H as [-> H]. by apply IH.
Qed.

Lemma find_none_prefix p s : find_bytes p s = None -> is_prefix p s = false.
Proof. destruct s; cbn; by destruct (is_prefix _ _). Qed.

Lemma find_none_tail p c s : find_bytes p (c :: s) = None -> find_bytes p s = None.
Proof. cbn. destruct (is_prefix _ _); [done|]. by destruct (find_bytes p s). Qed.

(** A text without [p], ended by a character [p] does not have, is skipped by
    the search of any needle that starts with [p]. *)
Lemma find_skip p q u c r :
  p <> [] -> c ∉ p -> find_bytes p u = None ->
  find_bytes (p ++ q) (u ++ c :: r) = (i ← find_bytes (p ++ q) r; Some (blen u + 1 + i)).
Proof.
  intros Hp Hc. induction u as [|d u IH]; intros Hu.
  - cbn [app find_bytes]. replace (is_prefix (p ++ q) (c :: r)) with false.
    + destruct (find_bytes (p ++ q) r); cbn [mbind option_bind]; [|done].
      rewrite blen_nil. f_equal. lia.
    + symmetry. apply not_true_is_false. intros H. apply is_prefix_app_l in H.
      apply (is_prefix_stop p []) in H; [by destruct p|done].
  - cbn [app find_bytes]. rewrite IH by (by apply find_none_tail in Hu).
    replace (is_prefix (p ++ q) (d :: u ++ c :: r)) with false.
    + destruct (find_bytes (p ++ q) r); cbn [mbind option_bind]; [|done].
      rewrite blen_cons. f_equal. lia.
    + symmetry. apply not_true_is_false. intros H. apply is_prefix_app_l in H.
      apply (is_prefix_stop p (d :: u)) in H; [|done].
      by rewrite (find_none_prefix _ _ Hu) in H.
Qed.

(** A string without the first character of the needle's second. *)
Lemma find_absent p c s : c ∈ p -> c ∉ s -> find_bytes p s = None.
Proof.
  intros Hc. induction s as [|d s IH]; intros Hs.
  - destruct p; [by apply not_elem_of_nil in Hc|done].
  - cbn [find_bytes]. rewrite IH by (by intros ?; apply Hs, elem_of_cons; right).
    replace (is_prefix p (d :: s)) with false; [done|].
    symmetry. apply not_true_is_false. intros H. apply Hs.
    clear IH Hs. revert Hc H. generalize (d :: s) as t. induction p as [|x p IH]; intros t Hc H.
    + by apply not_elem_of_nil in Hc.
    + destruct t as [|y t]; [done|]. cbn in H. apply andb_true_iff in H as [Hxy H].
      apply Z.eqb_eq in Hxy as ->. apply elem_of_cons in Hc as [->|Hc]; [by left|].
      right. by apply IH.
Qed.

(** ** Numbers *)

Lemma digit_char_hex d : 0 <= d < 16 -> is_digit_char (digit_char false d) /\
  hex_digit (digit_char false d) = Some d.
Proof.
  intros Hd. unfold is_digit_char, digit_char, hex_digit.
  destruct (Z.ltb_spec d 10).
  - replace ((48 <=? 48 + d) && (48 + d <=? 57)) with true by lia. split; [lia|f_equal; lia].
  - replace ((48 <=? 97 + (d - 10)) && (97 + (d - 10) <=? 57)) with false by lia.
    replace ((97 <=? 97 + (d - 10)) && (97 + (d - 10) <=? 102)) with true by lia.
    split; [lia|f_equal; lia].
Qed.

Lemma hex_value_app acc a b : hex_value acc (a ++ b) = hex_value (hex_value acc a) b.
Proof. revert acc. induction a as [|c a IH]; intros acc; [done|]. apply IH. Qed.

(** The printed digits: at least one, all hexadecimal, with the right value. *)
Lemma digits_spec fuel n acc :
  0 <= n < 16 ^ Z.of_nat fuel -> (0 < fuel)%nat ->
  exists ds, digits fuel false 16 n acc = ds ++ acc /\ ds <> [] /\
    Forall is_digit_char ds /\ hex_value 0 ds = n.
Proof.
  revert n acc. induction fuel as [|fuel IH]; intros n acc Hn Hf; [lia|].
  cbn [digits]. destruct (digit_char_hex (n mod 16)) as [Hd Hv]; [zlia|].
  destruct (Z.eqb_spec (n / 16) 0) as [E|E].
  - exists [digit_char false (n mod 16)]. split; [done|]. split; [done|].
    split; [by apply Forall_singleton|]. cbn [hex_value]. rewrite Hv. simpl default. zlia.
  - rewrite Nat2Z.inj_succ, Z.pow_succ_r in Hn by lia.
    assert (0 < fuel)%nat.
    { destruct fuel; [|lia]. change (16 * 16 ^ Z.of_nat 0) with 16 in Hn. zlia. }
    destruct (IH (n / 16) (digit_char false (n mod 16) :: acc)) as (ds & -> & Hne & Hds & Hval);
      [zlia|done|].
    exists (ds ++ [digit_char false (n mod 16)]). rewrite <- app_assoc. split; [done|].
    split; [by destruct ds|]. split; [by apply Forall_app_2; [|apply Forall_singleton]|].
    rewrite hex_value_app, Hval. cbn [hex_value]. rewrite Hv. simpl default. zlia.
Qed.

Lemma fmt_x_spec n :
  is_u64 n -> exists d ds, fmt_x n = d :: ds /\ Forall is_digit_char (d :: ds) /\
    hex_value 0 (d :: ds) = n.
Proof.
  intros Hn. destruct (digits_spec 64 n []) as (ds & E & Hne & Hd & Hv).
  { unfold is_u64 in Hn. change (16 ^ Z.of_nat 64) with (2 ^ 256). split; [lia|].
    apply Z.lt_trans with (2 ^ 64); [lia|by vm_compute]. }
  { lia. }
  rewrite app_nil_r in E. unfold fmt_x, print_num. rewrite E. destruct ds as [|d ds]; [done|].
  by exists d, ds.
Qed.

Lemma is_hex_digit_char c : is_digit_char c -> is_hex c = true.
Proof.
  unfold is_digit_char, is_hex, hex_digit. intros [H|H].
  - by replace ((48 <=? c) && (c <=? 57)) with true by lia.
  - replace ((48 <=? c) && (c <=? 57)) with false by lia.
    by replace ((97 <=? c) && (c <=? 102)) with true by lia.
Qed.

Lemma span_all p a c r : Forall (fun x => p x = true) a -> p c = false -> span p (a ++ c :: r) = (a, c :: r).
Proof.
  intros Ha Hc. induction Ha as [|x a Hx Ha IH]; cbn; [by rewrite Hc|]. by rewrite Hx, IH.
Qed.

(** Digits scan to their value, up to a character that is not part of it. *)
Lemma scan_hex_digits ds n c r :
  Forall is_digit_char ds -> ds <> [] -> hex_value 0 ds = n -> is_u64 n ->
  is_hex c = false -> c <> 120 -> c <> 88 -> scan_hex (ds ++ c :: r) = Some (n, c :: r).
Proof.
  intros Hds Hne Hv Hn Hc Hx HX. destruct ds as [|d ds]; [done|]. clear Hne.
  assert (Forall (fun x => is_hex x = true) (d :: ds)) as Hh.
  { eapply Forall_impl; [exact Hds|]. intros x. apply is_hex_digit_char. }
  apply Forall_cons in Hds as [Hd Hds]. unfold scan_hex. rewrite <- app_comm_cons.
  cbn [skip_space]. replace (isspace d) with false by (unfold isspace, is_digit_char in *; lia).
  unfold skip_sign. replace (d =? 45) with false by (unfold is_digit_char in Hd; lia).
  replace (d =? 43) with false by (unfold is_digit_char in Hd; lia).
  assert (skip_0x (d :: ds ++ c :: r) = (d :: ds) ++ c :: r) as ->.
  { unfold skip_0x. destruct ds as [|e ds]; cbn [app].
    - destruct r; [done|]. replace ((c =? 120) || (c =? 88)) with false by lia.
      by rewrite andb_false_r.
    - apply Forall_cons in Hds as [He _].
      destruct (ds ++ c :: r) eqn:E; [by destruct ds|].
      replace ((e =? 120) || (e =? 88)) with false by (unfold is_digit_char in He; lia).
      by rewrite andb_false_r. }
  rewrite span_all by done. rewrite Hv.
  unfold is_u64 in Hn. by replace (2 ^ 64 <=? n) with false by lia.
Qed.

(** Scanning back a printed number. *)
Lemma scan_hex_fmt n c r :
  is_u64 n -> is_hex c = false -> c <> 120 -> c <> 88 ->
  scan_hex (fmt_x n ++ c :: r) = Some (n, c :: r).
Proof.
  intros Hn Hc Hx HX. destruct (fmt_x_spec n Hn) as (d & ds & -> & Hds & Hv).
  by apply scan_hex_digits.
Qed.

(** The same with leading zeros. *)
Lemma scan_hex_fmt_0x w n c r :
  is_u64 n -> is_hex c = false -> c <> 120 -> c <> 88 ->
  scan_hex (fmt_0x w n ++ c :: r) = Some (n, c :: r).
Proof.
  intros Hn Hc Hx HX. destruct (fmt_x_spec n Hn) as (d & ds & E & Hds & Hv).
  unfold fmt_0x, zero_pad. fold (fmt_x n). rewrite E.
  set (k := Z.to_nat _). clearbody k.
  assert (hex_value 0 (replicate k 48 ++ d :: ds) = n) as Hz.
  { induction k as [|k IH]; [done|]. exact IH. }
  apply scan_hex_digits; [|by destruct k|done..].
  apply Forall_app_2; [|done]. apply Forall_replicate. unfold is_digit_char. lia.
Qed.

(** ** Formats *)

Lemma scan_lits l ds s acc : scan (map DLit l ++ ds) (l ++ s) acc = scan ds s acc.
Proof. induction l as [|c l IH]; [done|]. cbn. by rewrite Z.eqb_refl. Qed.

Lemma span_end p a : Forall (fun x => p x = true) a -> span p a = (a, []).
Proof. induction 1 as [|x a Hx Ha IH]; cbn; [done|]. by rewrite Hx, IH. Qed.

(** The same at the end of the input. *)
Lemma scan_hex_end n : is_u64 n -> scan_hex (fmt_x n) = Some (n, []).
Proof.
  intros Hn. destruct (fmt_x_spec n Hn) as (d & ds & -> & Hds & Hv).
  assert (Forall (fun x => is_hex x = true) (d :: ds)) as Hh.
  { eapply Forall_impl; [exact Hds|]. intros x. apply is_hex_digit_char. }
  apply Forall_cons in Hds as [Hd Hds]. unfold scan_hex.
  cbn [skip_space]. replace (isspace d) with false by (unfold isspace, is_digit_char in *; lia).
  unfold skip_sign. replace (d =? 45) with false by (unfold is_digit_char in Hd; lia).
  replace (d =? 43) with false by (unfold is_digit_char in Hd; lia).
  assert (skip_0x (d :: ds) = d :: ds) as ->.
  { unfold skip_0x. destruct ds as [|e ds]; [done|]. apply Forall_cons in Hds as [He _].
    destruct ds; [done|].
    replace ((e =? 120) || (e =? 88)) with false by (unfold is_digit_char in He; lia).
    by rewrite andb_false_r. }
  rewrite span_end by done. rewrite Hv.
  unfold is_u64 in Hn. by replace (2 ^ 64 <=? n) with false by lia.
Qed.

Lemma cstring_app s r : 0 ∉ s -> cstring (s ++ 0 :: r) = Some s.
Proof.
  induction s as [|c s IH]; intros Hs; [done|]. cbn [app cstring].
  apply not_elem_of_cons in Hs as [Hc Hs]. replace (c =? 0) with false by lia.
  by rewrite IH.
Qed.
