(* ===== verification/Posix.v ===== *)
(** The part of POSIX the program's file code runs on: regular files and
    directories behind [open], [fstat], [mmap], [write], [lseek], [close] and
    [stat], as a state-and-undefinedness monad.  Not part of the repository:
    these definitions follow the documented behaviour of the calls. *)
From S2P Require Import Prelude.

(** ** Files and descriptors *)

Abbreviation path := (list Z).

Inductive node :=
  | Regular (data : bytes)
  | Directory.

Record ofile := OFile { of_path : path; of_flags : Z; of_pos : Z }.

(** [w_permit] is the environment's answer to an [open] (access rights, a
    missing parent directory); [w_limit] is the largest size a file can reach
    (the file size limit, or the room left on the medium). *)
Record world := World {
  w_fs : gmap path node;
  w_fds : gmap Z ofile;
  w_permit : path -> Z -> bool;
  w_limit : Z
}.

(** [None] is undefined behaviour. *)
Definition M (A : Type) : Type := world -> option (A * world).
#[export] Instance M_ret : MRet M := fun A a w => Some (a, w).
#[export] Instance M_bind : MBind M := fun A B f m w =>
  match m w with Some (a, w) => f a w | None => None end.
Definition lift {A} (o : option A) : M A := fun w => a ← o; Some (a, w).
Definition get_world : M world := fun w => Some (w, w).

Definition O_RDONLY := 0.
Definition O_WRONLY := 1.
Definition O_RDWR := 2.
Definition O_CREAT := 64.
Definition O_EXCL := 128.
Definition O_TRUNC := 512.
Definition access_mode (flags : Z) : Z := Z.land flags 3.
Definition has_flag (flags f : Z) : bool := negb (Z.land flags f =? 0).

(** The lowest free descriptor. *)
Fixpoint lowest_free (fuel : nat) (fds : gmap Z ofile) (n : Z) : Z :=
  match fuel with
  | O => n
  | S fuel => match fds !! n with Some _ => lowest_free fuel fds (n + 1) | None => n end
  end.

Definition alloc_fd (fds : gmap Z ofile) : Z := lowest_free (base.size fds) fds 0.

Definition open (name : path) (flags mode : Z) : M Z := fun w =>
  let fail := Some (-1, w) in
  let new fs :=
    let fd := alloc_fd (w_fds w) in
    Some (fd, World fs (<[fd := OFile name flags 0]> (w_fds w)) (w_permit w) (w_limit w)) in
  if negb (w_permit w name flags) then fail
  else
    match w_fs w !! name with
    | Some (Regular d) =>
        if has_flag flags O_TRUNC && negb (access_mode flags =? O_RDONLY)
        then new (<[name := Regular []]> (w_fs w)) else new (w_fs w)
    | Some Directory =>
        if access_mode flags =? O_RDONLY then new (w_fs w) else fail
    | None =>
        if has_flag flags O_CREAT then new (<[name := Regular []]> (w_fs w)) else fail
    end.

Definition close (fd : Z) : M Z := fun w =>
  match w_fds w !! fd with
  | Some _ =>
      Some (0, World (w_fs w) (delete fd (w_fds w)) (w_permit w) (w_limit w))
  | None => Some (-1, w)
  end.

(** [fstat]: the file's size, when the descriptor is open. *)
Definition fstat_size (fd : Z) : M (option Z) := fun w =>
  Some (o ← w_fds w !! fd;
        n ← w_fs w !! of_path o;
        Some (match n with Regular d => blen d | Directory => 4096 end), w).

(** [stat]: is it a directory, and its size. *)
Definition stat (name : path) : M (option (bool * Z)) := fun w =>
  Some (match w_fs w !! name with
        | Some (Regular d) => Some (false, blen d)
        | Some Directory => Some (true, 4096)
        | None => None
        end, w).

(** [mkdir]: fails on an existing name or without permission. *)
Definition mkdir (name : path) (mode : Z) : M Z := fun w =>
  match w_fs w !! name with
  | Some _ => Some (-1, w)
  | None =>
      if w_permit w name O_CREAT
      then Some (0, World (<[name := Directory]> (w_fs w)) (w_fds w) (w_permit w) (w_limit w))
      else Some (-1, w)
  end.

(** The memory of a mapping: whole pages, zero after the end of the file. *)
Definition PAGE := 4096.
Definition map_pages (d : bytes) : bytes := d ++ zeros ((- blen d) mod PAGE).

Definition mmap (size fd : Z) : M (option bytes) := fun w =>
  Some (if size =? 0 then None
        else
          match w_fds w !! fd with
          | Some o =>
              match w_fs w !! of_path o with
              | Some (Regular d) =>
                  if access_mode (of_flags o) =? O_WRONLY then None else Some (map_pages d)
              | _ => None
              end
          | None => None
          end, w).

(** File contents after writing [d] at [pos] (a hole reads as zeros). *)
Definition overwrite (f : bytes) (pos : Z) (d : bytes) : bytes :=
  let f := f ++ zeros (pos - blen f) in
  take (Z.to_nat pos) f ++ d ++ drop (Z.to_nat pos + length d) f.

(** [write]: as many bytes as there is room for, -1 when there is no room. *)
Definition write (fd : Z) (d : bytes) : M Z := fun w =>
  match w_fds w !! fd with
  | Some o =>
      match w_fs w !! of_path o with
      | Some (Regular f) =>
          if access_mode (of_flags o) =? O_RDONLY then Some (-1, w)
          else
            let n := Z.min (blen d) (w_limit w - of_pos o) in
            if (n <=? 0) && negb (blen d =? 0) then Some (-1, w)
            else
              let d := take (Z.to_nat n) d in
              Some (blen d,
                World (<[of_path o := Regular (overwrite f (of_pos o) d)]> (w_fs w))
                  (<[fd := OFile (of_path o) (of_flags o) (of_pos o + blen d)]> (w_fds w))
                  (w_permit w) (w_limit w))
      | _ => Some (-1, w)
      end
  | None => Some (-1, w)
  end.

(** [lseek] from the start; an [off_t] is signed. *)
Definition lseek_set (fd off : Z) : M Z := fun w =>
  match w_fds w !! fd with
  | Some o =>
      if (off <? 0) || (2 ^ 63 <=? off) then Some (-1, w)
      else
        Some (off, World (w_fs w)
          (<[fd := OFile (of_path o) (of_flags o) off]> (w_fds w))
          (w_permit w) (w_limit w))
  | None => Some (-1, w)
  end.

(** [lseek] relative to the current position. *)
Definition lseek_cur (fd off : Z) : M Z := fun w =>
  match w_fds w !! fd with
  | Some o => lseek_set fd (of_pos o + off) w
  | None => Some (-1, w)
  end.

(** [fstat(fd, &st) == 0 && S_ISREG(st.st_mode)] *)
Definition fstat_reg (fd : Z) : M bool := fun w =>
  Some (match o ← w_fds w !! fd; w_fs w !! of_path o with
        | Some (Regular _) => true
        | _ => false
        end, w).

(** ** Lemmas *)

Lemma lowest_free_spec fuel fds n :
  0 <= n ->
  let r := lowest_free fuel fds n in
  n <= r <= n + Z.of_nat fuel /\
  (forall i, n <= i < r -> is_Some (fds !! i)) /\
  (fds !! r = None \/ r = n + Z.of_nat fuel).
Proof.
  revert n. induction fuel as [|fuel IH]; intros n Hn; cbn [lowest_free].
  { split; [lia|]. split; [lia|]. right. lia. }
  destruct (fds !! n) as [o|] eqn:E.
  - destruct (IH (n + 1)) as (H1 & H2 & H3); [lia|].
    split; [lia|]. split.
    + intros i Hi. destruct (decide (i = n)) as [->|]; [by rewrite E|]. apply H2. lia.
    + destruct H3 as [H3|H3]; [by left|]. right. rewrite H3. lia.
  - split; [lia|]. split; [lia|]. by left.
Qed.

(** [alloc_fd] finds a free descriptor: there are more candidates than open
    files. *)
Lemma alloc_fd_free fds : fds !! alloc_fd fds = None /\ 0 <= alloc_fd fds.
Proof.
  unfold alloc_fd.
  destruct (lowest_free_spec (base.size fds) fds 0) as (H1 & H2 & H3); [lia|].
  split; [|lia]. destruct H3 as [H3|H3]; [done|]. rewrite H3 in *.
  destruct (fds !! (0 + Z.of_nat (base.size fds))) eqn:E; [|done]. exfalso.
  set (n := base.size fds) in *.
  assert (list_to_set (seqZ 0 (Z.of_nat n + 1)) ⊆@{gset Z} dom fds) as Hsub.
  { intros i Hi. apply elem_of_list_to_set, elem_of_seqZ in Hi. apply elem_of_dom.
    destruct (decide (i = 0 + Z.of_nat n)) as [->|]; [by eexists|]. apply H2. lia. }
  apply subseteq_size in Hsub. rewrite size_dom in Hsub.
  rewrite size_list_to_set in Hsub by apply NoDup_seqZ.
  rewrite length_seqZ in Hsub. lia.
Qed.

Lemma overwrite_all f : overwrite [] 0 f = f.
Proof.
  unfold overwrite. change ([] ++ zeros (0 - blen [])) with (@nil Z).
  by rewrite drop_nil, app_nil_r, take_nil.
Qed.

(** Running the first operation of a sequence. *)
Lemma M_bind_ok {A B} (m : M A) (k : A -> M B) w a w' :
  m w = Some (a, w') -> (m ≫= k) w = k a w'.
Proof. intros H. unfold mbind, M_bind. by rewrite H. Qed.

Lemma M_lift_ok {A B} (o : option A) (k : A -> M B) w a :
  o = Some a -> (lift o ≫= k) w = k a w.
Proof. intros ->. done. Qed.

(** A file after a write: the data is read back at its place, other bytes are
    unchanged, and the file grows as far as needed. *)
Lemma overwrite_spec f pos d :
  0 <= pos ->
  mread (overwrite f pos d) pos (blen d) = Some d /\
  blen (overwrite f pos d) = Z.max (blen f) (pos + blen d) /\
  (forall i x, 0 <= i < pos \/ pos + blen d <= i ->
     mread f i 1 = Some x -> mread (overwrite f pos d) i 1 = Some x).
Proof.
  intros Hp. unfold overwrite. set (g := f ++ zeros (pos - blen f)).
  pose proof (blen_nonneg f). pose proof (blen_nonneg d).
  assert (blen g = Z.max (blen f) pos) as Hg.
  { unfold g. rewrite blen_app. unfold blen, zeros in *. rewrite length_replicate. lia. }
  assert (Ht : blen (take (Z.to_nat pos) g) = pos).
  { unfold blen in *. rewrite length_take. lia. }
  split.
  { pose proof (mread_app (take (Z.to_nat pos) g) d (drop (Z.to_nat pos + length d) g)) as Hr.
    by rewrite Ht in Hr. }
  split.
  { rewrite !blen_app, Ht. unfold blen in *. rewrite length_drop. lia. }
  intros i x Hi Hx.
  assert (mread g i 1 = Some x) as Hgx by by apply mread_app_l.
  pose proof (mread_blen _ _ _ _ Hx) as Hxl.
  unfold mread in Hx. case_match eqn:E; [|done]. clear Hx.
  destruct Hi as [Hi|Hi].
  - rewrite <- (take_drop (Z.to_nat pos) g) in Hgx.
    rewrite mread_Some in Hgx by (unfold blen in *; rewrite ?length_app; lia).
    rewrite mread_Some by (unfold blen in *; rewrite ?length_app; lia).
    rewrite <- Hgx. f_equal.
    assert (Z.to_nat i + 1 <= length (take (Z.to_nat pos) g))%nat by (unfold blen in Ht; lia).
    by rewrite !drop_app_le, !take_app_le by (rewrite ?length_drop; lia).
  - rewrite mread_Some in Hgx by lia. injection Hgx as <-.
    rewrite mread_Some by (rewrite ?blen_app, ?Ht; unfold blen in *; rewrite ?length_drop; lia).
    f_equal. f_equal. unfold blen in *.
    replace (Z.to_nat i) with (length (take (Z.to_nat pos) g) + (length d + (Z.to_nat i - Z.to_nat pos - length d)))%nat
      by (rewrite length_take; lia).
    rewrite <- drop_drop, drop_app_length, <- drop_drop, drop_app_length, drop_drop.
    f_equal. rewrite length_take. lia.
Qed.
