(* ===== verification/Util.v ===== *)
(** Growable buffers and files (util.c, util.h).

    A [bxxt_buffer] is its size and the bytes of its allocation; the two
    callbacks of the struct are never set by the program.  A buffer operation
    is [None] exactly where the C code reads or writes outside an object or
    divides by zero. *)
From S2P Require Import Prelude Posix.

(** ** Buffers *)

Record bxxt_buffer := Buffer { size : Z; ptr : bytes }.

(** The allocator: [malloc] succeeds, [realloc] keeps the common prefix, and
    fresh memory is indeterminate ([junk]). *)
Definition bxxt_malloc (n : Z) : bytes := zeros n.

Definition realloc (junk : Z -> Z) (m : bytes) (n : Z) : bytes :=
  take (Z.to_nat n) m ++
  map (fun i => junk (Z.of_nat i)) (seq (length m) (Z.to_nat n - length m)).

Definition bxxt_buffer_create (size : Z) : bxxt_buffer := Buffer size (bxxt_malloc size).

Definition memcpy (dst : bytes) (doff : Z) (src : bytes) (soff n : Z) : option bytes :=
  d ← mread src soff n; mwrite dst doff d.

Definition bxxt_buffer_create_from_data (data : bytes) (n : Z) : option bxxt_buffer :=
  let b := bxxt_buffer_create n in
  p ← memcpy (ptr b) 0 data 0 n;
  Some (Buffer (size b) p).

(** A [memset] of no bytes touches nothing, wherever it points. *)
Definition memset0 (m : bytes) (off n : Z) : option bytes :=
  if n =? 0 then Some m else mwrite m off (zeros n).

(** [adj_size] is an [int]; the sum is a [size_t]. *)
Definition bxxt_buffer_resize (junk : Z -> Z) (b : bxxt_buffer) (adj_size : Z)
    : option bxxt_buffer :=
  let n := u64 (size b + adj_size) in
  let p := realloc junk (ptr b) n in
  p ← memset0 p (size b) (if 0 <? adj_size then adj_size else 0);
  Some (Buffer n p).

(** The [size_t] argument is converted to [int] by the call of resize. *)
Definition bxxt_buffer_concat_from_data (junk : Z -> Z) (b : bxxt_buffer)
    (data : bytes) (n : Z) : option (Z * bxxt_buffer) :=
  let old_size := size b in
  b ← bxxt_buffer_resize junk b (s32 n);
  p ← memcpy (ptr b) old_size data 0 n;
  Some (n, Buffer (size b) p).

Definition bxxt_buffer_align (junk : Z -> Z) (b : bxxt_buffer) (page_size : Z)
    : option (Z * bxxt_buffer) :=
  if page_size =? 0 then None
  else
    let extra_size := u64 (page_size - size b mod page_size) in
    let extra_size := extra_size mod page_size in
    b ← bxxt_buffer_resize junk b (s32 extra_size);
    Some (extra_size, b).

(** ** Files *)

(** A mapping pointer: [NULL], [MAP_FAILED] or the mapped memory. *)
Inductive mapping := MNull | MFailed | MMapped (m : bytes).

Record bxxt_file := File {
  f_name : path; o_flags : Z; f_mode : Z; f_mm : bool;
  f_size : Z; f_fd : Z; f_ptr : mapping
}.

Definition PATH_MAX := 4096.

(** [strcpy] into [char name[PATH_MAX]]. *)
Definition bxxt_file_new (file : path) (flags mode : Z) : option bxxt_file :=
  if blen file <? PATH_MAX then Some (File file flags mode false 0 0 MNull) else None.

Definition bxxt_file_new_mm (file : path) (flags mode : Z) : option bxxt_file :=
  F ← bxxt_file_new file flags mode;
  Some (File (f_name F) (o_flags F) (f_mode F) true (f_size F) (f_fd F) (f_ptr F)).

(** Unmapping changes nothing the program can observe afterwards. *)
Definition bxxt_file_close_no_free (F : bxxt_file) : M unit :=
  if negb (f_fd F =? 0) && negb (f_fd F =? -1)
  then r ← close (f_fd F); mret () else mret ().

Definition bxxt_file_close (F : option bxxt_file) : M unit :=
  match F with None => mret () | Some F => bxxt_file_close_no_free F end.

Definition bxxt_file_open (F : bxxt_file) : M (Z * bxxt_file) :=
  fd ← open (f_name F) (o_flags F) (f_mode F);
  let F := File (f_name F) (o_flags F) (f_mode F) (f_mm F) (f_size F) fd (f_ptr F) in
  let err F := u ← bxxt_file_close_no_free F; mret (-1, F) in
  if fd =? -1 then err F
  else
    st ← fstat_size fd;
    match st with
    | None => err F
    | Some sz =>
        let F := File (f_name F) (o_flags F) (f_mode F) (f_mm F) sz fd (f_ptr F) in
        if f_mm F then
          m ← mmap sz fd;
          let F p := File (f_name F) (o_flags F) (f_mode F) (f_mm F) sz fd p in
          match m with
          | Some m => mret (0, F (MMapped m))
          | None => err (F MFailed)
          end
        else mret (0, F)
    end.

(** ** Vocabulary of the proofs *)

(** A buffer owns exactly [size] bytes. *)
Definition wf (b : bxxt_buffer) : Prop := size b = blen (ptr b) /\ blen (ptr b) < 2 ^ 63.

(** The zero bytes that complete [n] to a multiple of [page]. *)
Definition pad_to (page : Z) (m : bytes) : bytes := m ++ zeros ((- blen m) mod page).

(** ** Lemmas *)

Lemma buffer_eta b : wf b -> b = Buffer (blen (ptr b)) (ptr b).
Proof. intros [H _]. destruct b; simpl in *. by rewrite H. Qed.

Lemma realloc_grow junk m n :
  0 <= n -> exists t, blen t = n /\ realloc junk m (blen m + n) = m ++ t.
Proof.
  intros Hn. unfold realloc. eexists. split; last first.
  - f_equal. rewrite take_ge by (unfold blen; lia). done.
  - unfold blen. rewrite length_map, length_seq. lia.
Qed.

Lemma realloc_shrink junk m n : n <= blen m -> realloc junk m n = take (Z.to_nat n) m.
Proof.
  intros Hn. unfold realloc, blen in *.
  replace (Z.to_nat n - length m)%nat with O by lia. by rewrite app_nil_r.
Qed.

Lemma memset0_app m e n : blen e = n -> memset0 (m ++ e) (blen m) n = Some (m ++ zeros n).
Proof.
  intros He. unfold memset0. destruct (Z.eqb_spec n 0) as [->|].
  - destruct e; [done|]. rewrite blen_cons in He. pose proof (blen_nonneg e). lia.
  - pose proof (blen_nonneg e). pose proof (mwrite_app m e (zeros n) []) as H0.
    rewrite !app_nil_r in H0. apply H0. rewrite blen_zeros; lia.
Qed.

Lemma resize_grow junk b n :
  wf b -> 0 <= n < 2 ^ 31 ->
  bxxt_buffer_resize junk b n = Some (Buffer (size b + n) (ptr b ++ zeros n)).
Proof.
  intros [Hs Hb] Hn. unfold bxxt_buffer_resize. rewrite Hs.
  pose proof (blen_nonneg (ptr b)).
  rewrite u64_small by word_solve.
  destruct (realloc_grow junk (ptr b) n) as (t & Ht & ->); [lia|].
  replace (if 0 <? n then n else 0) with n by (destruct (Z.ltb_spec 0 n); lia).
  by rewrite memset0_app.
Qed.

Lemma resize_shrink junk b n :
  wf b -> 0 <= n <= size b ->
  bxxt_buffer_resize junk b (n - size b) = Some (Buffer n (take (Z.to_nat n) (ptr b))).
Proof.
  intros [Hs Hb] Hn. unfold bxxt_buffer_resize.
  replace (size b + (n - size b)) with n by lia.
  rewrite u64_small by (rewrite Hs in *; word_solve).
  rewrite realloc_shrink by lia.
  by replace (0 <? n - size b) with false by lia.
Qed.

Lemma create_wf n : 0 <= n < 2 ^ 63 -> wf (bxxt_buffer_create n).
Proof.
  intros. unfold wf, bxxt_buffer_create, bxxt_malloc; simpl.
  rewrite blen_zeros; lia.
Qed.

Lemma create_from_data data :
  bxxt_buffer_create_from_data data (blen data) = Some (Buffer (blen data) data).
Proof.
  unfold bxxt_buffer_create_from_data, memcpy, bxxt_buffer_create, bxxt_malloc.
  cbn [ptr size]. rewrite mread_all. cbn [mbind option_bind].
  pose proof (mwrite_app [] (zeros (blen data)) data []) as H.
  rewrite !app_nil_r in H. change (blen []) with 0 in H. simpl app in H.
  rewrite H; [done|]. apply blen_zeros, blen_nonneg.
Qed.

Lemma s32_small n : 0 <= n < 2 ^ 31 -> s32 n = n.
Proof.
  intros Hn. unfold s32. rewrite u32_small by word_solve.
  by replace (n <? 2 ^ 31) with true by lia.
Qed.

(** The source may be longer than what is appended. *)
Lemma concat_prefix junk b data k :
  wf b -> blen data < 2 ^ 31 ->
  bxxt_buffer_concat_from_data junk b (data ++ k) (blen data) =
    Some (blen data, Buffer (size b + blen data) (ptr b ++ data)).
Proof.
  intros Hb Hd. pose proof (blen_nonneg data).
  unfold bxxt_buffer_concat_from_data. rewrite s32_small by lia.
  rewrite resize_grow by (done || lia). cbn [mbind option_bind size ptr].
  unfold memcpy. pose proof (mread_app [] data k) as Hr.
  change (blen []) with 0 in Hr. simpl app in Hr. rewrite Hr. cbn [mbind option_bind].
  destruct Hb as [-> _]. pose proof (mwrite_app (ptr b) (zeros (blen data)) data []) as H1.
  rewrite !app_nil_r in H1. rewrite H1; [done|]. by apply blen_zeros.
Qed.

Lemma concat_spec junk b data :
  wf b -> blen data < 2 ^ 31 ->
  bxxt_buffer_concat_from_data junk b data (blen data) =
    Some (blen data, Buffer (size b + blen data) (ptr b ++ data)).
Proof. rewrite <- (app_nil_r data) at 2. apply concat_prefix. Qed.

Lemma s32_negative n : 2 ^ 31 <= n < 2 ^ 32 -> s32 n = n - 2 ^ 32.
Proof.
  intros Hn. unfold s32. rewrite u32_small by word_solve.
  by replace (n <? 2 ^ 31) with false by lia.
Qed.

(** Past 2 GiB the [int] argument of resize is negative: the copy is out of
    bounds. *)
Lemma resize_any junk b n :
  wf b -> - 2 ^ 31 <= n < 2 ^ 31 -> 0 <= size b + n ->
  exists m, bxxt_buffer_resize junk b n = Some (Buffer (size b + n) m) /\ blen m = size b + n /\
    take (Z.to_nat (size b + n)) (ptr b) = take (length (ptr b)) m.
Proof.
  intros Hb Hn Hs. pose proof Hb as [Hsz _]. destruct (Z.ltb_spec n 0).
  - exists (take (Z.to_nat (size b + n)) (ptr b)).
    assert (n = (size b + n) - size b) as E by lia. rewrite E at 1.
    rewrite resize_shrink by (done || lia). split; [done|]. split.
    + unfold blen in *. rewrite length_take. lia.
    + rewrite take_take. f_equal. unfold blen in *. lia.
  - exists (ptr b ++ zeros n). rewrite resize_grow by (done || lia). split; [done|].
    rewrite blen_app, blen_zeros, take_app_length by lia. split; [lia|]. apply take_ge. unfold blen in *. lia.
Qed.

Lemma concat_overflow junk b data :
  wf b -> 2 ^ 31 <= blen data -> 0 <= size b + s32 (blen data) ->
  bxxt_buffer_concat_from_data junk b data (blen data) = None.
Proof.
  intros Hb Hd Hs. unfold bxxt_buffer_concat_from_data. pose proof (s32_range (blen data)).
  destruct (resize_any junk b (s32 (blen data))) as (m & -> & Hm & _); [done|lia|done|].
  cbn [mbind option_bind size ptr]. unfold memcpy. rewrite mread_all. cbn [mbind option_bind].
  unfold mwrite. replace (size b + blen data <=? blen m) with false by lia. by rewrite andb_false_r.
Qed.

Lemma buffer_align_spec junk b page :
  wf b -> 0 < page < 2 ^ 31 ->
  bxxt_buffer_align junk b page =
    Some ((- size b) mod page, Buffer (blen (pad_to page (ptr b))) (pad_to page (ptr b))).
Proof.
  intros Hb Hp. unfold bxxt_buffer_align, pad_to.
  replace (page =? 0) with false by lia.
  assert (u64 (page - size b mod page) mod page = (- size b) mod page) as ->.
  { pose proof (Z.mod_pos_bound (size b) page).
    rewrite u64_small by word_solve.
    rewrite Zminus_mod_idemp_r. replace (page - size b) with (- size b + 1 * page) by lia.
    by rewrite Z.mod_add by lia. }
  pose proof (Z.mod_pos_bound (- size b) page) as Hm.
  rewrite s32_small by lia. rewrite resize_grow by (done || lia).
  cbn [mbind option_bind]. do 3 f_equal; [|by rewrite (proj1 Hb)].
  rewrite blen_app, blen_zeros, (proj1 Hb); [done|]. rewrite <- (proj1 Hb). lia.
Qed.

Lemma pad_to_blen page m : 0 < page -> blen (pad_to page m) = (blen m + page - 1) / page * page.
Proof.
  intros Hp. unfold pad_to. pose proof (Z.mod_pos_bound (- blen m) page).
  rewrite blen_app, blen_zeros by lia.
  pose proof (Z.div_mod (- blen m) page) as Hd.
  rewrite <- (Z.div_unique (blen m + page - 1) page (- (- blen m / page))
                (page - 1 - (- blen m) mod page)); lia.
Qed.

(** The C macro [B_ps] (boot.c) and the padding agree. *)
Lemma pad_to_ge page m : 0 < page -> blen m <= blen (pad_to page m) < blen m + page.
Proof.
  intros Hp. unfold pad_to. pose proof (Z.mod_pos_bound (- blen m) page).
  rewrite blen_app, blen_zeros; lia.
Qed.

(** *** Files *)

(** Reading a regular file through a mapping and closing it: the memory is the
    contents, and the world is unchanged. *)
Lemma open_mm w F d :
  f_mm F = true -> f_ptr F = MNull -> o_flags F = O_RDONLY ->
  w_permit w (f_name F) O_RDONLY = true ->
  w_fs w !! f_name F = Some (Regular d) -> d <> [] -> w_fds w !! 0 <> None ->
  exists fd, w_fds w !! fd = None /\ 0 < fd /\
    bxxt_file_open F w =
      Some ((0, File (f_name F) (o_flags F) (f_mode F) true (blen d) fd (MMapped (map_pages d))),
            World (w_fs w) (<[fd := OFile (f_name F) O_RDONLY 0]> (w_fds w))
                  (w_permit w) (w_limit w)).
Proof.
  intros Hmm Hp Hfl Hperm Hfs Hd H0.
  destruct (alloc_fd_free (w_fds w)) as [Hfree Hpos].
  set (fd := alloc_fd (w_fds w)) in *.
  assert (fd <> 0) by (intros E; rewrite E in Hfree; done).
  exists fd. split; [done|]. split; [lia|].
  unfold bxxt_file_open, mbind, M_bind, open. rewrite Hfl, Hperm, Hfs. cbn [negb].
  change (has_flag O_RDONLY O_TRUNC && _) with false. cbn iota beta zeta.
  fold fd. replace (fd =? -1) with false by lia.
  unfold fstat_size; cbn [w_fds w_fs]. rewrite lookup_insert_eq.
  cbn [mbind option_bind of_path]. rewrite Hfs. cbn [mbind option_bind].
  cbn [f_mm]. rewrite Hmm. unfold mmap; cbn [w_fds w_fs].
  assert ((blen d =? 0) = false) as ->.
  { destruct d; [done|]. rewrite blen_cons. pose proof (blen_nonneg d). lia. }
  rewrite lookup_insert_eq. cbn [of_path of_flags]. by rewrite Hfs.
Qed.

Lemma open_fails w F :
  0 < alloc_fd (w_fds w) ->
  open (f_name F) (o_flags F) (f_mode F) w = Some (-1, w) ->
  bxxt_file_open F w =
    Some ((-1, File (f_name F) (o_flags F) (f_mode F) (f_mm F) (f_size F) (-1) (f_ptr F)), w).
Proof.
  intros _ Ho. unfold bxxt_file_open, mbind, M_bind. rewrite Ho. cbn iota.
  done.
Qed.

Lemma close_restores w fd o :
  w_fds w !! fd = None ->
  close fd (World (w_fs w) (<[fd := o]> (w_fds w)) (w_permit w) (w_limit w)) = Some (0, w).
Proof.
  intros Hfd. unfold close; cbn [w_fds w_fs w_permit w_limit].
  rewrite lookup_insert_eq, delete_insert_id by done. by destruct w.
Qed.

(** ** Theorems *)

(** Buffers behave as growable byte strings: appending [data] extends the
    contents by exactly [data], aligning completes them with the fewest zero
    bytes to a multiple of the page size, shrinking keeps the prefix, and the
    size field always is the length of the allocation, whatever the
    allocator puts in fresh memory. *)
Theorem bxxt_buffer_spec junk b data page
    (Hb : wf b) (Hd : blen data < 2 ^ 31) (Hp : 0 < page < 2 ^ 31)
    (Hroom : size b + blen data + page < 2 ^ 63) :
  bxxt_buffer_create_from_data data (blen data) = Some (Buffer (blen data) data) /\
  (exists b1 b2 n,
    bxxt_buffer_concat_from_data junk b data (blen data) = Some (blen data, b1) /\ wf b1 /\
    ptr b1 = ptr b ++ data /\
    bxxt_buffer_align junk b1 page = Some (n, b2) /\ wf b2 /\
    ptr b2 = ptr b ++ data ++ zeros n /\ 0 <= n < page /\ (size b2) mod page = 0) /\
  (forall n, 0 <= n <= size b ->
    exists b', bxxt_buffer_resize junk b (n - size b) = Some b' /\ wf b' /\
      ptr b' = take (Z.to_nat n) (ptr b)).
Proof.
  split; [apply create_from_data|]. split.
  - assert (wf (Buffer (size b + blen data) (ptr b ++ data))) as Hb1.
    { destruct Hb as [Hs _]. split; simpl; rewrite blen_app; lia. }
    pose proof (pad_to_ge page (ptr b ++ data)) as Hge.
    pose proof (Z.mod_pos_bound (- (size b + blen data)) page) as Hm.
    eexists _, _, _. split; [by apply concat_spec|]. split; [done|]. split; [done|].
    rewrite buffer_align_spec by done. cbn [size ptr]. split; [reflexivity|].
    destruct Hb as [Hs Hlt]. rewrite blen_app, Hs in *.
    split; [split; [done|]; cbn; lia|]. cbn [size ptr].
    split; [unfold pad_to; by rewrite <- (assoc_L (++)), blen_app|].
    split; [lia|]. rewrite pad_to_blen by lia. apply Z.mod_mul. lia.
  - intros n Hn. eexists. split; [by apply resize_shrink|]. split; [|done].
    destruct Hb as [Hs Hlt]. split; cbn [size ptr]; unfold blen in *; rewrite length_take; lia.
Qed.

Lemma bxxt_buffer_spec_witness :
  wf (Buffer 3 [1; 2; 3]) /\
  exists b1 b2 n,
    bxxt_buffer_concat_from_data (fun _ => 7) (Buffer 3 [1; 2; 3]) [9] 1 = Some (1, b1) /\
    bxxt_buffer_align (fun _ => 7) b1 8 = Some (n, b2) /\ ptr b2 = [1; 2; 3; 9; 0; 0; 0; 0].
Proof.
  split; [by vm_compute|].
  destruct (bxxt_buffer_spec (fun _ => 7) (Buffer 3 [1; 2; 3]) [9] 8) as (_ & H & _);
    [by vm_compute..|].
  destruct H as (b1 & b2 & n & H1 & _ & _ & H2 & _ & H3 & _).
  exists b1, b2, n. split; [done|]. split; [done|].
  change (blen [9]) with 1 in H1. vm_compute in H1. simplify_eq.
  vm_compute in H2. by simplify_eq.
Defined.

(** C38. Appending two gibibytes or more goes wrong: the size is converted to
    the [int] argument of resize, which is less than the size and may be negative.
    Whenever the sum that resize then computes is not negative, it makes a buffer of
    that size (and keeps the bytes that fit), and the copy writes past its end
    (undefined behaviour). *)
Theorem bxxt_buffer_concat_overflow junk b data
    (Hb : wf b) (Hd : 2 ^ 31 <= blen data) (Hs : 0 <= size b + s32 (blen data)) :
  s32 (blen data) < blen data /\
  (exists m, bxxt_buffer_resize junk b (s32 (blen data)) = Some (Buffer (size b + s32 (blen data)) m) /\
     blen m = size b + s32 (blen data) /\
     take (Z.to_nat (size b + s32 (blen data))) (ptr b) = take (length (ptr b)) m) /\
  bxxt_buffer_concat_from_data junk b data (blen data) = None.
Proof.
  pose proof (s32_range (blen data)). split; [lia|]. split; [by apply resize_any|by apply concat_overflow].
Qed.

Lemma bxxt_buffer_concat_overflow_witness :
  let b := Buffer (2 ^ 31) (zeros (2 ^ 31)) in
  wf b /\ bxxt_buffer_concat_from_data (fun _ => 0) b (zeros (2 ^ 31)) (blen (zeros (2 ^ 31))) = None.
Proof.
  intros b.
  assert (blen (zeros (2 ^ 31)) = 2 ^ 31) as Hz by (apply blen_zeros; lia).
  assert (wf b) as Hb by (split; cbn [b size ptr]; rewrite Hz; lia).
  split; [done|].
  apply (bxxt_buffer_concat_overflow (fun _ => 0) b (zeros (2 ^ 31))); [done|lia|].
  cbn [b size]. rewrite Hz. by vm_compute.
Defined.
