(* ===== verification/Sha1.v ===== *)
(** * SHA-1 ([src/sha1.c], [src/sha1.h])

    The hash that signs a boot image.  [SHA1Transform] keeps the source's
    in-place sixteen-word schedule and its eighty macro calls with rotating
    variable names; [Spec] is the FIPS 180-1 description.  The theorems show
    that the two agree, for any chunking of the message. *)
From S2P Require Import Prelude.
From Stdlib Require Import Btauto.

(** ** The reference: FIPS PUB 180-1 *)
Module Spec.

(** Circular left shift of a 32-bit word. *)
Definition rotl (n v : Z) : Z := Z.lor (u32 (Z.shiftl v n)) (Z.shiftr v (32 - n)).

Definition Ch (x y z : Z) : Z := Z.lxor (Z.land x y) (Z.land (Z.lnot x) z).
Definition Parity (x y z : Z) : Z := Z.lxor (Z.lxor x y) z.
Definition Maj (x y z : Z) : Z :=
  Z.lxor (Z.lxor (Z.land x y) (Z.land x z)) (Z.land y z).

Definition f (t : nat) : Z -> Z -> Z -> Z :=
  if (t <? 20)%nat then Ch
  else if (t <? 40)%nat then Parity
  else if (t <? 60)%nat then Maj
  else Parity.

Definition K (t : nat) : Z :=
  if (t <? 20)%nat then 0x5A827999
  else if (t <? 40)%nat then 0x6ED9EBA1
  else if (t <? 60)%nat then 0x8F1BBCDC
  else 0xCA62C1D6.

(** The sixteen big-endian words of a block. *)
Fixpoint words (n : nat) (m : bytes) : list Z :=
  match n with
  | O => []
  | S n => be_val (take 4 m) :: words n (drop 4 m)
  end.

Definition extend (ws : list Z) : list Z :=
  let t := length ws in
  ws ++ [rotl 1 (Z.lxor (Z.lxor (Z.lxor (ws !!! (t - 3)%nat) (ws !!! (t - 8)%nat))
                                (ws !!! (t - 14)%nat)) (ws !!! (t - 16)%nat))].

(** The message schedule: the sixteen words of the block and [n] more. *)
Definition schedule (n : nat) (m : bytes) : list Z := Nat.iter n extend (words 16 m).
Definition W (m : bytes) (t : nat) : Z := schedule 64 m !!! t.

(** The five chaining words. *)
Record hash := Hash { h0 : Z; h1 : Z; h2 : Z; h3 : Z; h4 : Z }.

Definition H0 : hash :=
  Hash 0x67452301 0xEFCDAB89 0x98BADCFE 0x10325476 0xC3D2E1F0.

Definition round (m : bytes) (t : nat) (s : hash) : hash :=
  let '(Hash a b c d e) := s in
  Hash (u32 (rotl 5 a + f t b c d + e + K t + W m t)) a (rotl 30 b) c d.

Fixpoint rounds (m : bytes) (n : nat) (s : hash) : hash :=
  match n with
  | O => s
  | S n => round m n (rounds m n s)
  end.

Definition add (s r : hash) : hash :=
  Hash (u32 (h0 s + h0 r)) (u32 (h1 s + h1 r)) (u32 (h2 s + h2 r))
       (u32 (h3 s + h3 r)) (u32 (h4 s + h4 r)).

(** The compression of one 64-byte block. *)
Definition compress (s : hash) (m : bytes) : hash := add s (rounds m 80 s).

(** The first [n] blocks of a message. *)
Fixpoint process (n : nat) (s : hash) (m : bytes) : hash :=
  match n with
  | O => s
  | S n => process n (compress s (take 64 m)) (drop 64 m)
  end.

(** Padding: a one bit, zeros up to 56 bytes modulo 64, the bit length. *)
Definition pad (m : bytes) : bytes :=
  m ++ [0x80] ++ zeros ((55 - blen m) mod 64) ++ be_bytes 8 (8 * blen m).

Definition digest (s : hash) : bytes :=
  be_bytes 4 (h0 s) ++ be_bytes 4 (h1 s) ++ be_bytes 4 (h2 s)
    ++ be_bytes 4 (h3 s) ++ be_bytes 4 (h4 s).

Definition sha1 (m : bytes) : bytes :=
  digest (process (length (pad m) / 64) H0 (pad m)).

End Spec.

(** ** The program *)

(** [rol(value, bits)] on [uint32_t]. *)
Definition rol (value bits : Z) : Z :=
  Z.lor (u32 (Z.shiftl value bits)) (Z.shiftr value (32 - bits)).

(** The working variables of [SHA1Transform], as the macros name them. *)
Inductive var := VA | VB | VC | VD | VE.

Record work := Work {
  wa : Z; wb : Z; wc : Z; wd : Z; we : Z;
  block : list Z  (* block->l[0..15] *)
}.

Definition get (s : work) (v : var) : Z :=
  match v with VA => wa s | VB => wb s | VC => wc s | VD => wd s | VE => we s end.

Definition set (s : work) (v : var) (x : Z) : work :=
  let '(Work a b c d e l) := s in
  match v with
  | VA => Work x b c d e l
  | VB => Work a x c d e l
  | VC => Work a b x d e l
  | VD => Work a b c x e l
  | VE => Work a b c d x l
  end.

Definition set_block (s : work) (i : nat) (x : Z) : work :=
  let '(Work a b c d e l) := s in Work a b c d e (<[i:=x]> l).

(** [blk0(i)]: the byte swap of a little-endian host, stored back. *)
Definition blk0 (l : list Z) (i : Z) : nat * Z :=
  let n := Z.to_nat i in
  (n, Z.lor (Z.land (rol (l !!! n) 24) 0xFF00FF00)
            (Z.land (rol (l !!! n) 8) 0x00FF00FF)).

(** [blk(i)]: the rolling sixteen-word schedule. *)
Definition blk (l : list Z) (i : Z) : nat * Z :=
  let at_ k := l !!! Z.to_nat (Z.land k 15) in
  (Z.to_nat (Z.land i 15),
   rol (Z.lxor (Z.lxor (Z.lxor (at_ (i + 13)) (at_ (i + 8))) (at_ (i + 2))) (at_ i)) 1).

Inductive macro := R0 | R1 | R2 | R3 | R4.

Definition expand (r : macro) : list Z -> Z -> nat * Z :=
  match r with R0 => blk0 | _ => blk end.

Definition mix (r : macro) (w x y : Z) : Z :=
  match r with
  | R0 | R1 => Z.lxor (Z.land w (Z.lxor x y)) y
  | R2 | R4 => Z.lxor (Z.lxor w x) y
  | R3 => Z.lor (Z.land (Z.lor w x) y) (Z.land w x)
  end.

Definition const (r : macro) : Z :=
  match r with
  | R0 | R1 => 0x5A827999
  | R2 => 0x6ED9EBA1
  | R3 => 0x8F1BBCDC
  | R4 => 0xCA62C1D6
  end.

(** One macro call [Rk(v,w,x,y,z,i)]: the expansion word is stored, [z] is
    increased, [w] is rotated by thirty. *)
Definition exec (s : work) (c : macro * var * var * var * var * var * Z) : work :=
  let '(r, v, w, x, y, z, i) := c in
  let '(n, b) := expand r (block s) i in
  let s := set_block s n b in
  let s := set s z (u32 (get s z + (mix r (get s w) (get s x) (get s y) + b
                                     + const r + rol (get s v) 5))) in
  set s w (rol (get s w) 30).

(** The body of [SHA1Transform], call by call. *)
Definition calls : list (macro * var * var * var * var * var * Z) :=
  [ (R0, VA, VB, VC, VD, VE, 0);
    (R0, VE, VA, VB, VC, VD, 1);
    (R0, VD, VE, VA, VB, VC, 2);
    (R0, VC, VD, VE, VA, VB, 3);
    (R0, VB, VC, VD, VE, VA, 4);
    (R0, VA, VB, VC, VD, VE, 5);
    (R0, VE, VA, VB, VC, VD, 6);
    (R0, VD, VE, VA, VB, VC, 7);
    (R0, VC, VD, VE, VA, VB, 8);
    (R0, VB, VC, VD, VE, VA, 9);
    (R0, VA, VB, VC, VD, VE, 10);
    (R0, VE, VA, VB, VC, VD, 11);
    (R0, VD, VE, VA, VB, VC, 12);
    (R0, VC, VD, VE, VA, VB, 13);
    (R0, VB, VC, VD, VE, VA, 14);
    (R0, VA, VB, VC, VD, VE, 15);
    (R1, VE, VA, VB, VC, VD, 16);
    (R1, VD, VE, VA, VB, VC, 17);
    (R1, VC, VD, VE, VA, VB, 18);
    (R1, VB, VC, VD, VE, VA, 19);
    (R2, VA, VB, VC, VD, VE, 20);
    (R2, VE, VA, VB, VC, VD, 21);
    (R2, VD, VE, VA, VB, VC, 22);
    (R2, VC, VD, VE, VA, VB, 23);
    (R2, VB, VC, VD, VE, VA, 24);
    (R2, VA, VB, VC, VD, VE, 25);
    (R2, VE, VA, VB, VC, VD, 26);
    (R2, VD, VE, VA, VB, VC, 27);
    (R2, VC, VD, VE, VA, VB, 28);
    (R2, VB, VC, VD, VE, VA, 29);
    (R2, VA, VB, VC, VD, VE, 30);
    (R2, VE, VA, VB, VC, VD, 31);
    (R2, VD, VE, VA, VB, VC, 32);
    (R2, VC, VD, VE, VA, VB, 33);
    (R2, VB, VC, VD, VE, VA, 34);
    (R2, VA, VB, VC, VD, VE, 35);
    (R2, VE, VA, VB, VC, VD, 36);
    (R2, VD, VE, VA, VB, VC, 37);
    (R2, VC, VD, VE, VA, VB, 38);
    (R2, VB, VC, VD, VE, VA, 39);
    (R3, VA, VB, VC, VD, VE, 40);
    (R3, VE, VA, VB, VC, VD, 41);
    (R3, VD, VE, VA, VB, VC, 42);
    (R3, VC, VD, VE, VA, VB, 43);
    (R3, VB, VC, VD, VE, VA, 44);
    (R3, VA, VB, VC, VD, VE, 45);
    (R3, VE, VA, VB, VC, VD, 46);
    (R3, VD, VE, VA, VB, VC, 47);
    (R3, VC, VD, VE, VA, VB, 48);
    (R3, VB, VC, VD, VE, VA, 49);
    (R3, VA, VB, VC, VD, VE, 50);
    (R3, VE, VA, VB, VC, VD, 51);
    (R3, VD, VE, VA, VB, VC, 52);
    (R3, VC, VD, VE, VA, VB, 53);
    (R3, VB, VC, VD, VE, VA, 54);
    (R3, VA, VB, VC, VD, VE, 55);
    (R3, VE, VA, VB, VC, VD, 56);
    (R3, VD, VE, VA, VB, VC, 57);
    (R3, VC, VD, VE, VA, VB, 58);
    (R3, VB, VC, VD, VE, VA, 59);
    (R4, VA, VB, VC, VD, VE, 60);
    (R4, VE, VA, VB, VC, VD, 61);
    (R4, VD, VE, VA, VB, VC, 62);
    (R4, VC, VD, VE, VA, VB, 63);
    (R4, VB, VC, VD, VE, VA, 64);
    (R4, VA, VB, VC, VD, VE, 65);
    (R4, VE, VA, VB, VC, VD, 66);
    (R4, VD, VE, VA, VB, VC, 67);
    (R4, VC, VD, VE, VA, VB, 68);
    (R4, VB, VC, VD, VE, VA, 69);
    (R4, VA, VB, VC, VD, VE, 70);
    (R4, VE, VA, VB, VC, VD, 71);
    (R4, VD, VE, VA, VB, VC, 72);
    (R4, VC, VD, VE, VA, VB, 73);
    (R4, VB, VC, VD, VE, VA, 74);
    (R4, VA, VB, VC, VD, VE, 75);
    (R4, VE, VA, VB, VC, VD, 76);
    (R4, VD, VE, VA, VB, VC, 77);
    (R4, VC, VD, VE, VA, VB, 78);
    (R4, VB, VC, VD, VE, VA, 79) ].

(** [memcpy(block, buffer, 64)] seen through the union on a little-endian
    host. *)
Fixpoint load (n : nat) (b : bytes) : list Z :=
  match n with
  | O => []
  | S n => le_val (take 4 b) :: load n (drop 4 b)
  end.

(** [uint32_t state[5]]. *)
Record state5 := State { s0 : Z; s1 : Z; s2 : Z; s3 : Z; s4 : Z }.

Definition SHA1Transform (state : state5) (buffer : bytes) : state5 :=
  let w := Work (s0 state) (s1 state) (s2 state) (s3 state) (s4 state)
                (load 16 buffer) in
  let w := foldl exec w calls in
  State (u32 (s0 state + wa w)) (u32 (s1 state + wb w)) (u32 (s2 state + wc w))
        (u32 (s3 state + wd w)) (u32 (s4 state + we w)).

(** [SHA1_CTX]: [count] is a 64-bit bit count in two words. *)
Record SHA1_CTX := Ctx {
  state : state5;
  count0 : Z;
  count1 : Z;
  buffer : bytes  (* unsigned char buffer[64] *)
}.

(** [SHA1Init] leaves [buffer] as it was. *)
Definition SHA1Init (junk : bytes) : SHA1_CTX :=
  Ctx (State 0x67452301 0xEFCDAB89 0x98BADCFE 0x10325476 0xC3D2E1F0) 0 0 junk.

(** [for (; i + 63 < len; i += 64) SHA1Transform(state, &data[i]);] with
    [uint32_t] arithmetic; [None] is a read outside [data]. *)
Fixpoint transform_loop (fuel : nat) (data : bytes) (len i : Z) (st : state5)
  : option (Z * state5) :=
  match fuel with
  | O => None
  | S fuel =>
    if u32 (i + 63) <? len then
      d ← mread data i 64;
      transform_loop fuel data len (u32 (i + 64)) (SHA1Transform st d)
    else Some (i, st)
  end.

(** [SHA1Update(context, data, len)]; [None] is an access outside [data] or
    outside [context->buffer]. *)
Definition SHA1Update (ctx : SHA1_CTX) (data : bytes) (len : Z) : option SHA1_CTX :=
  let j := count0 ctx in
  let c0 := u32 (j + u32 (Z.shiftl len 3)) in
  let c1 := if c0 <? j then u32 (count1 ctx + 1) else count1 ctx in
  let c1 := u32 (c1 + Z.shiftr len 29) in
  let j := Z.land (Z.shiftr j 3) 63 in
  if 63 <? u32 (j + len) then
    let i := 64 - j in
    d ← mread data 0 i;
    buf ← mwrite (buffer ctx) j d;
    let st := SHA1Transform (state ctx) buf in
    '(i, st) ← transform_loop (Z.to_nat (len / 64 + 2)) data len i st;
    d ← mread data i (u32 (len - i));
    buf ← mwrite buf 0 d;
    Some (Ctx st c0 c1 buf)
  else
    d ← mread data 0 (u32 (len - 0));
    buf ← mwrite (buffer ctx) j d;
    Some (Ctx (state ctx) c0 c1 buf).

(** [while ((context->count[0] & 504) != 448) SHA1Update(context, "\0", 1);] *)
Fixpoint pad_loop (fuel : nat) (ctx : SHA1_CTX) : option SHA1_CTX :=
  match fuel with
  | O => None
  | S fuel =>
    if Z.land (count0 ctx) 504 =? 448 then Some ctx
    else ctx ← SHA1Update ctx [0] 1; pad_loop fuel ctx
  end.

Definition word_byte (w i : Z) : Z := Z.land (Z.shiftr w ((3 - Z.land i 3) * 8)) 255.

Definition finalcount (ctx : SHA1_CTX) : bytes :=
  map (fun i => word_byte (if 4 <=? i then count0 ctx else count1 ctx) i)
      [0; 1; 2; 3; 4; 5; 6; 7].

Definition state_word (st : state5) (k : Z) : Z :=
  match k with 0 => s0 st | 1 => s1 st | 2 => s2 st | 3 => s3 st | _ => s4 st end.

(** The twenty digest bytes [SHA1Final] stores. *)
Definition SHA1Final (ctx : SHA1_CTX) : option bytes :=
  let fc := finalcount ctx in
  ctx ← SHA1Update ctx [0x80] 1;
  ctx ← pad_loop 65 ctx;
  ctx ← SHA1Update ctx fc 8;
  Some (map (fun i => word_byte (state_word (state ctx) (Z.shiftr i 2)) i)
            (seqZ 0 20)).

(** [for (ii=0; ii<len; ii+=1) SHA1Update(&ctx, str + ii, 1);] *)
Fixpoint update_bytewise (ctx : SHA1_CTX) (m : bytes) : option SHA1_CTX :=
  match m with
  | [] => Some ctx
  | b :: m => ctx ← SHA1Update ctx [b] 1; update_bytewise ctx m
  end.

(** [SHA1(hash_out, str, len)]: the 21 bytes of [hash_out], with the final
    NUL; the stack [ctx] starts with arbitrary contents. *)
Definition SHA1 (junk : bytes) (m : bytes) : option bytes :=
  ctx ← update_bytewise (SHA1Init junk) m;
  h ← SHA1Final ctx;
  Some (h ++ [0]).

(** ** Vocabulary of the proofs *)

(** The byte swap is linear, so it is enough to check it on each byte. *)
Definition swap (x : Z) : Z :=
  Z.lor (Z.land (rol x 24) 0xFF00FF00) (Z.land (rol x 8) 0x00FF00FF).

(** The macro and the variables of call [t]: the names rotate by one. *)
Definition role (k : nat) : var :=
  match (k mod 5)%nat with
  | O => VA | 1%nat => VB | 2%nat => VC | 3%nat => VD | _ => VE
  end.

Definition macro_of (t : nat) : macro :=
  if (t <? 16)%nat then R0 else if (t <? 20)%nat then R1
  else if (t <? 40)%nat then R2 else if (t <? 60)%nat then R3 else R4.

Definition call (t : nat) : macro * var * var * var * var * var * Z :=
  (macro_of t, role (80 - t), role (81 - t), role (82 - t), role (83 - t),
   role (84 - t), Z.of_nat t).

(** What relates the working variables after [t] calls to the reference. *)
Record agrees (m : bytes) (t : nat) (w : work) (s : Spec.hash) : Prop := {
  ag_a : get w (role (80 - t)) = Spec.h0 s;
  ag_b : get w (role (81 - t)) = Spec.h1 s;
  ag_c : get w (role (82 - t)) = Spec.h2 s;
  ag_d : get w (role (83 - t)) = Spec.h3 s;
  ag_e : get w (role (84 - t)) = Spec.h4 s;
  ag_len : length (block w) = 16%nat;
  ag_old : forall k, (k < t)%nat -> (t <= k + 16)%nat ->
             block w !!! (k mod 16)%nat = Spec.W m k;
  ag_raw : forall k, (t <= k < 16)%nat -> block w !!! k = load 16 m !!! k;
}.

Definition hash_of (st : state5) : Spec.hash :=
  Spec.Hash (s0 st) (s1 st) (s2 st) (s3 st) (s4 st).

(** The abstraction: a context that has absorbed the message [m]. *)
Record repr (ctx : SHA1_CTX) (m : bytes) : Prop := {
  r_bytes : Forall is_byte m;
  r_state : hash_of (state ctx) = Spec.process (length m / 64) Spec.H0 m;
  r_count0 : count0 ctx = u32 (8 * blen m);
  r_count1 : count1 ctx = u32 (8 * blen m / 2 ^ 32);
  r_len : length (buffer ctx) = 64%nat;
  r_buf : take (length m mod 64) (buffer ctx) = drop (64 * (length m / 64)) m;
}.

(** A sequence of updates, one chunk after the other. *)
Fixpoint update_all (ctx : SHA1_CTX) (ds : list bytes) : option SHA1_CTX :=
  match ds with
  | [] => Some ctx
  | d :: ds => ctx ← SHA1Update ctx d (blen d); update_all ctx ds
  end.

(** ** Agreement of one block *)

Lemma Ch_code w x y :
  Z.lxor (Z.land w (Z.lxor x y)) y = Spec.Ch w x y.
Proof.
  unfold Spec.Ch. bitwise.
  by destruct (Z.testbit w n), (Z.testbit x n), (Z.testbit y n).
Qed.

Lemma Maj_code w x y :
  Z.lor (Z.land (Z.lor w x) y) (Z.land w x) = Spec.Maj w x y.
Proof.
  unfold Spec.Maj. bitwise.
  by destruct (Z.testbit w n), (Z.testbit x n), (Z.testbit y n).
Qed.

Lemma rol_rotl v n : rol v n = Spec.rotl n v.
Proof. done. Qed.

(** *** The byte swap *)

Lemma le4_lor a b c d :
  is_byte a -> is_byte b -> is_byte c -> is_byte d ->
  le_val [a; b; c; d] =
  Z.lor a (Z.lor (Z.shiftl b 8) (Z.lor (Z.shiftl c 16) (Z.shiftl d 24))).
Proof.
  unfold is_byte. intros Ha Hb Hc Hd.
  pose proof (lor_add c d 8 ltac:(lia) Hc) as E1.
  pose proof (lor_add b (c + 2 ^ 8 * d) 8 ltac:(lia) Hb) as E2.
  pose proof (lor_add a (b + 2 ^ 8 * (c + 2 ^ 8 * d)) 8 ltac:(lia) Ha) as E3.
  change (2 ^ 8) with 256 in *.
  replace (le_val [a; b; c; d]) with (a + 256 * (b + 256 * (c + 256 * d)))
    by (simpl; lia).
  rewrite E3, E2, E1, !Z.shiftl_lor, !Z.shiftl_shiftl by lia. done.
Qed.

Lemma rol_range v n : 0 <= n <= 32 -> is_u32 v -> is_u32 (rol v n).
Proof.
  intros Hn Hv. apply lor_range; [lia|apply u32_range|].
  unfold is_u32 in *. rewrite Z.shiftr_div_pow2 by lia. split.
  - apply Z.div_pos; lia.
  - apply Z.div_lt_upper_bound; [lia|].
    assert (1 <= 2 ^ (32 - n)) by (apply (Z.pow_le_mono_r 2 0); lia). nia.
Qed.

Lemma u32_lor x y : u32 (Z.lor x y) = Z.lor (u32 x) (u32 y).
Proof. bitwise; done. Qed.

Lemma swap_lor x y : swap (Z.lor x y) = Z.lor (swap x) (swap y).
Proof.
  unfold swap, rol. rewrite !Z.shiftl_lor, !Z.shiftr_lor, !u32_lor, !Z.land_lor_distr_l.
  apply Z.bits_inj'. intros i Hi. rewrite !Z.lor_spec. btauto.
Qed.

Lemma swap_byte k a :
  k ∈ [0; 8; 16; 24] -> is_byte a -> swap (Z.shiftl a k) = Z.shiftl a (24 - k).
Proof.
  intros Hk Ha.
  assert (H : forallb (fun k => forallb (fun a =>
    swap (Z.shiftl a k) =? Z.shiftl a (24 - k)) (seqZ 0 256)) [0; 8; 16; 24] = true)
    by (vm_compute; reflexivity).
  rewrite forallb_forall in H. specialize (H k ltac:(by apply list_elem_of_In)).
  rewrite forallb_forall in H. apply Z.eqb_eq, H, list_elem_of_In, elem_of_seqZ.
  unfold is_byte in Ha. lia.
Qed.

Lemma blk0_swap a b c d :
  is_byte a -> is_byte b -> is_byte c -> is_byte d ->
  swap (le_val [a; b; c; d]) = be_val [a; b; c; d].
Proof.
  intros Ha Hb Hc Hd. change (be_val [a; b; c; d]) with (le_val [d; c; b; a]).
  rewrite !le4_lor by done.
  rewrite !swap_lor, !swap_byte by (done || set_solver).
  rewrite <- (Z.shiftl_0_r a) at 1. rewrite swap_byte by (done || set_solver).
  rewrite !Z.shiftl_0_r.
  apply Z.bits_inj'. intros i Hi. rewrite !Z.lor_spec.
  change (24 - 16) with 8; change (24 - 8) with 16; change (24 - 0) with 24. btauto.
Qed.

(** *** The words of a block *)

Lemma load_lookup n b k :
  (k < n)%nat -> load n b !!! k = le_val (take 4 (drop (4 * k) b)).
Proof.
  revert b k. induction n as [|n IH]; intros b k Hk; [lia|].
  destruct k as [|k]; [by rewrite drop_0|]. simpl load.
  change ((?x :: ?l) !!! S k) with (l !!! k). rewrite IH by lia. rewrite drop_drop.
  do 3 f_equal. lia.
Qed.

Lemma words_lookup n b k :
  (k < n)%nat -> Spec.words n b !!! k = be_val (take 4 (drop (4 * k) b)).
Proof.
  revert b k. induction n as [|n IH]; intros b k Hk; [lia|].
  destruct k as [|k]; [by rewrite drop_0|]. simpl Spec.words.
  change ((?x :: ?l) !!! S k) with (l !!! k). rewrite IH by lia. rewrite drop_drop.
  do 3 f_equal. lia.
Qed.

Lemma length_load n b : length (load n b) = n.
Proof. revert b. induction n as [|n IH]; intros b; simpl; [done|]. by rewrite IH. Qed.
Lemma length_words n b : length (Spec.words n b) = n.
Proof. revert b. induction n as [|n IH]; intros b; simpl; [done|]. by rewrite IH. Qed.

Lemma swap_load b k :
  Forall is_byte b -> length b = 64%nat -> (k < 16)%nat ->
  swap (load 16 b !!! k) = Spec.words 16 b !!! k.
Proof.
  intros Hb Hlen Hk. rewrite load_lookup, words_lookup by done.
  assert (Hq : Forall is_byte (take 4 (drop (4 * k) b))) by by apply Forall_take, Forall_drop.
  assert (Hl : length (take 4 (drop (4 * k) b)) = 4%nat)
    by (rewrite length_take, length_drop; lia).
  destruct (take 4 (drop (4 * k) b)) as [|x0 [|x1 [|x2 [|x3 [|]]]]]; try done.
  inversion_clear Hq as [|?? Q0 Hq']. inversion_clear Hq' as [|?? Q1 Hq''].
  inversion_clear Hq'' as [|?? Q2 Hq']. inversion_clear Hq' as [|?? Q3 _].
  by apply blk0_swap.
Qed.

(** *** The schedule *)

Lemma length_schedule n m : length (Spec.schedule n m) = (16 + n)%nat.
Proof.
  induction n as [|n IH]; [apply length_words|].
  change (Spec.schedule (S n) m) with (Spec.extend (Spec.schedule n m)).
  unfold Spec.extend. rewrite length_app, IH. simpl. lia.
Qed.

Lemma schedule_step n k m :
  (k < 16 + n)%nat -> Spec.schedule (S n) m !!! k = Spec.schedule n m !!! k.
Proof.
  intros Hk. change (Spec.schedule (S n) m) with (Spec.extend (Spec.schedule n m)).
  unfold Spec.extend. apply lookup_total_app_l. by rewrite length_schedule.
Qed.

Lemma schedule_prefix n j k m :
  (k < 16 + n)%nat -> Spec.schedule (j + n) m !!! k = Spec.schedule n m !!! k.
Proof.
  intros Hk. induction j as [|j IH]; [done|].
  simpl Nat.add. rewrite schedule_step by lia. done.
Qed.

(** The recurrence of the standard, for the sixty-four later words. *)
Lemma W_rec m t :
  (16 <= t < 80)%nat ->
  Spec.W m t = Spec.rotl 1 (Z.lxor (Z.lxor (Z.lxor (Spec.W m (t - 3)) (Spec.W m (t - 8)))
                                      (Spec.W m (t - 14))) (Spec.W m (t - 16))).
Proof.
  intros Ht. unfold Spec.W.
  replace 64%nat with ((80 - t - 1) + S (t - 16))%nat at 1 by lia.
  rewrite schedule_prefix by lia.
  change (Spec.schedule (S (t - 16)) m) with (Spec.extend (Spec.schedule (t - 16) m)).
  unfold Spec.extend. rewrite lookup_total_app_r by (rewrite length_schedule; lia).
  rewrite length_schedule. replace (16 + (t - 16))%nat with t by lia.
  rewrite Nat.sub_diag. cbn [lookup_total list_lookup_total].
  replace 64%nat with ((80 - t) + (t - 16))%nat by lia.
  rewrite !schedule_prefix by lia. done.
Qed.

Lemma W_first m t :
  (t < 16)%nat -> Spec.W m t = Spec.words 16 m !!! t.
Proof.
  intros Ht. unfold Spec.W. rewrite (schedule_prefix 0 64) by lia. done.
Qed.

(** *** The eighty calls *)

Lemma calls_eq : calls = map call (seq 0 80).
Proof. reflexivity. Qed.

Lemma land15 k : Z.to_nat (Z.land (Z.of_nat k) 15) = (k mod 16)%nat.
Proof.
  change 15 with (Z.ones 4). rewrite Z.land_ones by lia. change (2 ^ 4) with (Z.of_nat 16).
  by rewrite <- Nat2Z.inj_mod, Nat2Z.id.
Qed.

Lemma mod16_shift j k : k = (j + 16)%nat -> (j mod 16 = k mod 16)%nat.
Proof.
  intros ->. replace (j + 16)%nat with (j + 1 * 16)%nat by lia.
  by rewrite Nat.Div0.mod_add.
Qed.

(** The expansion of call [t] computes [W t] in slot [t mod 16]. *)
Lemma expand_W m t w s :
  Forall is_byte m -> length m = 64%nat -> (t < 80)%nat -> agrees m t w s ->
  expand (macro_of t) (block w) (Z.of_nat t) = ((t mod 16)%nat, Spec.W m t).
Proof.
  intros Hm Hlen Ht H. unfold macro_of.
  destruct (Nat.ltb_spec t 16) as [Hlt|Hge].
  - unfold expand, blk0. rewrite Nat2Z.id, (Nat.mod_small t 16), (ag_raw _ _ _ _ H) by lia.
    rewrite W_first by done. f_equal. by apply swap_load.
  - assert (E : blk (block w) (Z.of_nat t) = ((t mod 16)%nat, Spec.W m t)).
    { unfold blk. rewrite land15.
      change (Z.of_nat t + 13) with (Z.of_nat t + Z.of_nat 13).
      change (Z.of_nat t + 8) with (Z.of_nat t + Z.of_nat 8).
      change (Z.of_nat t + 2) with (Z.of_nat t + Z.of_nat 2).
      rewrite <- !Nat2Z.inj_add, !land15, W_rec by lia.
      pose proof (ag_old _ _ _ _ H) as Hold.
      rewrite <- (Hold (t - 3)%nat), <- (Hold (t - 8)%nat), <- (Hold (t - 14)%nat),
        <- (Hold (t - 16)%nat) by lia.
      by rewrite (mod16_shift (t - 3) (t + 13)), (mod16_shift (t - 8) (t + 8)),
        (mod16_shift (t - 14) (t + 2)), (mod16_shift (t - 16) t) by lia. }
    by repeat case_match.
Qed.

Lemma mod_roles t :
  (t < 80)%nat ->
  exists r, (r < 5)%nat /\ ((80 - t) mod 5 = r)%nat /\ ((81 - t) mod 5 = (r + 1) mod 5)%nat /\
    ((82 - t) mod 5 = (r + 2) mod 5)%nat /\ ((83 - t) mod 5 = (r + 3) mod 5)%nat /\
    ((84 - t) mod 5 = (r + 4) mod 5)%nat /\ ((79 - t) mod 5 = (r + 4) mod 5)%nat.
Proof.
  intros Ht. exists ((80 - t) mod 5)%nat. split; [by apply Nat.mod_upper_bound|].
  split; [done|].
  replace (81 - t)%nat with (80 - t + 1)%nat by lia.
  replace (82 - t)%nat with (80 - t + 2)%nat by lia.
  replace (83 - t)%nat with (80 - t + 3)%nat by lia.
  replace (84 - t)%nat with (80 - t + 4)%nat by lia.
  rewrite !Nat.Div0.add_mod_idemp_l.
  do 4 (split; [done|]).
  replace (80 - t + 4)%nat with (79 - t + 1 * 5)%nat by lia.
  by rewrite Nat.Div0.mod_add.
Qed.

Lemma mix_f t x y z : (t < 80)%nat ->
  mix (macro_of t) x y z = Spec.f t x y z.
Proof.
  intros Ht. unfold macro_of, Spec.f.
  destruct (Nat.ltb_spec t 16), (Nat.ltb_spec t 20), (Nat.ltb_spec t 40),
    (Nat.ltb_spec t 60); try lia; simpl; auto using Ch_code, Maj_code.
Qed.

Lemma const_K t : (t < 80)%nat -> const (macro_of t) = Spec.K t.
Proof.
  intros Ht. unfold macro_of, Spec.K.
  destruct (Nat.ltb_spec t 16), (Nat.ltb_spec t 20), (Nat.ltb_spec t 40),
    (Nat.ltb_spec t 60); try lia; done.
Qed.

(** The registers after one macro call, for each of the five rotations. *)
Lemma exec_regs t i n b w s r :
  (t < 80)%nat -> expand (macro_of t) (block w) i = (n, b) -> (r < 5)%nat ->
  get w (role r) = Spec.h0 s -> get w (role (r + 1)) = Spec.h1 s ->
  get w (role (r + 2)) = Spec.h2 s -> get w (role (r + 3)) = Spec.h3 s ->
  get w (role (r + 4)) = Spec.h4 s ->
  let w' := exec w (macro_of t, role r, role (r + 1), role (r + 2), role (r + 3),
                    role (r + 4), i) in
  block w' = <[n:=b]> (block w) /\
  get w' (role (r + 4)) = u32 (Spec.rotl 5 (Spec.h0 s)
     + Spec.f t (Spec.h1 s) (Spec.h2 s) (Spec.h3 s) + Spec.h4 s + Spec.K t + b) /\
  get w' (role r) = Spec.h0 s /\ get w' (role (r + 1)) = Spec.rotl 30 (Spec.h1 s) /\
  get w' (role (r + 2)) = Spec.h2 s /\ get w' (role (r + 3)) = Spec.h3 s.
Proof.
  intros Ht HE Hr Ha Hb Hc Hd He w'. subst w'. unfold exec. rewrite HE.
  destruct w as [a0 b0 c0 d0 e0 l], s as [a b1 c d e].
  cbn [block Spec.h0 Spec.h1 Spec.h2 Spec.h3 Spec.h4] in *.
  do 5 (destruct r as [|r]; [
    cbn in Ha, Hb, Hc, Hd, He; subst; cbn [role Nat.add Nat.modulo Nat.divmod snd Nat.sub
      set_block set get block wa wb wc wd we]; rewrite mix_f, const_K, !rol_rotl by done;
    split_and!; try done; f_equal; lia|]).
  lia.
Qed.

Lemma role_mod j k : (j mod 5 = k mod 5)%nat -> role j = role k.
Proof. unfold role. by intros ->. Qed.

(** One macro call is one round of the standard. *)
Lemma exec_agrees m t w s :
  Forall is_byte m -> length m = 64%nat -> (t < 80)%nat ->
  agrees m t w s -> agrees m (S t) (exec w (call t)) (Spec.round m t s).
Proof.
  intros Hm Hlen Ht H. pose proof (expand_W m t w s Hm Hlen Ht H) as HE.
  assert (Hmod : (t mod 16 < 16)%nat) by by apply Nat.mod_upper_bound.
  destruct (mod_roles t Ht) as (r & Hr & E0 & E1 & E2 & E3 & E4 & E9).
  assert (R0' : role (80 - t) = role r) by (apply role_mod; rewrite E0; symmetry; by apply Nat.mod_small).
  apply role_mod in E1, E2, E3, E4, E9.
  destruct H as [Ha Hb Hc Hd He Hl Hold Hraw].
  rewrite R0', E1, E2, E3, E4 in *.
  destruct (exec_regs t (Z.of_nat t) _ _ w s r Ht HE Hr Ha Hb Hc Hd He)
    as (Bl & Ga & Gb & Gc & Gd & Ge).
  unfold call. rewrite R0', E1, E2, E3, E4. destruct s as [a b c d e].
  cbn [Spec.h0 Spec.h1 Spec.h2 Spec.h3 Spec.h4] in *.
  split; cbn [Spec.round Spec.h0 Spec.h1 Spec.h2 Spec.h3 Spec.h4 Nat.sub];
    rewrite ?E9, ?R0', ?E1, ?E2, ?E3; rewrite ?Bl; try done.
  - by rewrite length_insert.
  - intros k Hk1 Hk2. destruct (decide (k = t)) as [->|Hne].
    + by rewrite list_lookup_total_insert_eq by lia.
    + rewrite list_lookup_total_insert_ne; [apply Hold; lia|].
      intros Heq. pose proof (Nat.div_mod_eq k 16). pose proof (Nat.div_mod_eq t 16). lia.
  - intros k Hk. rewrite list_lookup_total_insert_ne; [apply Hraw; lia|].
    rewrite Nat.mod_small by lia. lia.
Qed.

Lemma rounds_agree m n w s :
  Forall is_byte m -> length m = 64%nat -> (n <= 80)%nat -> agrees m 0 w s ->
  agrees m n (foldl exec w (map call (seq 0 n))) (Spec.rounds m n s).
Proof.
  intros Hm Hlen Hn H. induction n as [|n IH]; [done|].
  rewrite seq_S, map_app, foldl_app. simpl. apply exec_agrees; try done.
  apply IH. lia.
Qed.

Lemma agrees_finish m st w h :
  agrees m 80 w h ->
  hash_of (State (u32 (s0 st + wa w)) (u32 (s1 st + wb w)) (u32 (s2 st + wc w))
                 (u32 (s3 st + wd w)) (u32 (s4 st + we w))) = Spec.add (hash_of st) h.
Proof.
  intros [Ha Hb Hc Hd He _ _ _]. destruct w, h; cbn in *. by subst.
Qed.

(** [SHA1Transform] is the compression function of the standard. *)
Lemma transform_compress st m :
  Forall is_byte m -> length m = 64%nat ->
  hash_of (SHA1Transform st m) = Spec.compress (hash_of st) m.
Proof.
  intros Hm Hlen. unfold SHA1Transform. apply agrees_finish with (m := m).
  rewrite calls_eq. apply rounds_agree; try done. split; try done. intros k. lia.
Qed.

(** ** Streaming *)

Lemma process_snoc n s m :
  Spec.process (S n) s m = Spec.compress (Spec.process n s m) (take 64 (drop (64 * n) m)).
Proof.
  revert s m. induction n as [|n IH]; intros s m; [done|].
  change (Spec.process (S (S n)) s m) with
    (Spec.process (S n) (Spec.compress s (take 64 m)) (drop 64 m)).
  rewrite IH, drop_drop. simpl Spec.process.
  by replace (64 * S n)%nat with (64 + 64 * n)%nat by lia.
Qed.

Lemma process_app n s m d :
  (64 * n <= length m)%nat -> Spec.process n s (m ++ d) = Spec.process n s m.
Proof.
  induction n as [|n IH]; intros H; [done|].
  rewrite !process_snoc, IH, drop_app_le, take_app_le by (rewrite ?length_drop; lia). done.
Qed.

Lemma repr_init junk : length junk = 64%nat -> repr (SHA1Init junk) [].
Proof. intros Hl. by split. Qed.

(** Carry of an addition into the quotient. *)
Lemma div_add_carry n k N : 0 < N ->
  (n + k) / N = n / N + k / N + (if (n + k) mod N <? n mod N then 1 else 0).
Proof.
  intros HN. pose proof (Z.div_mod n N). pose proof (Z.div_mod k N).
  pose proof (Z.mod_pos_bound n N HN). pose proof (Z.mod_pos_bound k N HN).
  destruct (Z.ltb_spec (n mod N + k mod N) N) as [Hc|Hc].
  - rewrite <- (Z.mod_unique (n + k) N (n / N + k / N) (n mod N + k mod N)) by lia.
    rewrite <- (Z.div_unique (n + k) N (n / N + k / N) (n mod N + k mod N)) by lia.
    destruct (Z.ltb_spec (n mod N + k mod N) (n mod N)); lia.
  - rewrite <- (Z.mod_unique (n + k) N (n / N + k / N + 1) (n mod N + k mod N - N)) by lia.
    rewrite <- (Z.div_unique (n + k) N (n / N + k / N + 1) (n mod N + k mod N - N)) by lia.
    destruct (Z.ltb_spec (n mod N + k mod N - N) (n mod N)); lia.
Qed.

(** The two-word bit count is exact modulo 2^64. *)
Lemma count_step n len :
  0 <= n -> 0 <= len < 2 ^ 32 ->
  let j := u32 (8 * n) in
  let c0 := u32 (j + u32 (Z.shiftl len 3)) in
  let c1 := if c0 <? j then u32 (u32 (8 * n / 2 ^ 32) + 1) else u32 (8 * n / 2 ^ 32) in
  c0 = u32 (8 * (n + len)) /\
  u32 (c1 + Z.shiftr len 29) = u32 (8 * (n + len) / 2 ^ 32).
Proof.
  intros Hn Hl j c0 c1.
  assert (E0 : c0 = u32 (8 * (n + len))).
  { subst c0 j. rewrite Z.shiftl_mul_pow2 by lia. change (2 ^ 3) with 8.
    rewrite u32_add_l, u32_add_r. f_equal. lia. }
  split; [done|].
  assert (Hq : 8 * (n + len) / 2 ^ 32 =
    8 * n / 2 ^ 32 + len / 2 ^ 29 + (if c0 <? j then 1 else 0)).
  { rewrite E0. subst j. unfold u32.
    change (2 ^ 32) with (8 * 536870912). change (2 ^ 29) with 536870912.
    rewrite !Z.div_mul_cancel_l, !Z.mul_mod_distr_l, div_add_carry by lia. f_equal.
    destruct (Z.ltb_spec ((n + len) mod 536870912) (n mod 536870912)),
      (Z.ltb_spec (8 * ((n + len) mod 536870912)) (8 * (n mod 536870912))); lia. }
  clearbody c0 j. rewrite Hq, Z.shiftr_div_pow2 by lia. subst c1. clear Hq E0.
  generalize (8 * n / 2 ^ 32) (len / 2 ^ 29); intros x y. destruct (c0 <? j).
  - rewrite u32_add_l, <- Z.add_assoc, u32_add_l.
    f_equal. lia.
  - rewrite u32_add_l. f_equal. lia.
Qed.

Lemma offset_in_block n : 0 <= n -> Z.land (Z.shiftr (u32 (8 * n)) 3) 63 = n mod 64.
Proof.
  intros Hn. change 63 with (Z.ones 6). rewrite Z.land_ones, Z.shiftr_div_pow2 by lia.
  unfold u32. change (2 ^ 32) with (8 * 536870912). change (2 ^ 3) with 8.
  rewrite Z.mul_mod_distr_l by lia. change (2 ^ 6) with 64. zlia.
Qed.

#[global] Opaque SHA1Transform Spec.compress.

Lemma take_take_drop (l : bytes) a b :
  take a l ++ take b (drop a l) = take (a + b) l.
Proof. revert a. induction l as [|x l IH]; intros [|a]; simpl; rewrite ?take_nil; auto. by rewrite IH. Qed.

Lemma mread_drop m d i n :
  (i + n <= length d)%nat ->
  mread d (Z.of_nat i) (Z.of_nat n) = Some (take n (drop (length m + i) (m ++ d))).
Proof.
  intros H. rewrite mread_Some by (unfold blen; lia). rewrite !Nat2Z.id.
  rewrite <- drop_drop, drop_app_length. done.
Qed.

Lemma mread_front d n :
  (n <= length d)%nat -> mread d 0 (Z.of_nat n) = Some (take n d).
Proof.
  intros H. rewrite mread_Some by (unfold blen; lia). by rewrite Nat2Z.id.
Qed.

(** The block loop consumes every complete block that is left. *)
Lemma transform_loop_spec m d fuel i st n :
  let M := m ++ d in
  Forall is_byte M -> blen d < 2 ^ 32 - 63 -> (i <= length d)%nat ->
  (length m + i = 64 * n)%nat -> (length d - i < 64 * fuel)%nat ->
  hash_of st = Spec.process n Spec.H0 M ->
  exists i' st' n', transform_loop fuel d (blen d) (Z.of_nat i) st
                    = Some (Z.of_nat i', st') /\
    (length m + i' = 64 * n')%nat /\ (i <= i')%nat /\ (i' <= length d < i' + 64)%nat /\
    hash_of st' = Spec.process n' Spec.H0 M.
Proof.
  intros M HM Hd. revert i st n.
  induction fuel as [|fuel IH]; intros i st n Hi Hn Hf Hst; [lia|].
  cbn [transform_loop]. unfold blen in *. pow2.
  rewrite (u32_small (_ + 63)) by (unfold is_u32; pow2; lia).
  destruct (Z.ltb_spec (Z.of_nat i + 63) (Z.of_nat (length d))).
  - change (mread d (Z.of_nat i) 64) with (mread d (Z.of_nat i) (Z.of_nat 64)).
    rewrite (mread_drop m d i 64) by lia.
    cbn [mbind option_bind].
    rewrite (u32_small (_ + 64)) by (unfold is_u32; pow2; lia).
    replace (Z.of_nat i + 64) with (Z.of_nat (i + 64)) by lia.
    destruct (IH (i + 64)%nat (SHA1Transform st (take 64 (drop (length m + i) (m ++ d)))) (S n))
      as (i' & st' & n' & -> & ? & ? & ? & ?); try lia.
    + rewrite process_snoc, transform_compress, Hst, Hn; try done.
      * by apply Forall_take, Forall_drop.
      * rewrite length_take, length_drop, length_app. lia.
    + exists i', st', n'. split_and!; try done; lia.
  - exists i, st, n. split_and!; try done; lia.
Qed.

(** The block and the rest in which a message of [n] bytes ends. *)
Lemma blocks_unique L i n : (L = 64 * n + i)%nat -> (i < 64)%nat ->
  (L / 64 = n)%nat /\ (L mod 64 = i)%nat.
Proof.
  intros -> Hi. split.
  - symmetry. by apply (Nat.div_unique _ 64 n i).
  - symmetry. by apply (Nat.mod_unique _ 64 n i).
Qed.

(** [SHA1Update] absorbs its data, whatever the split. *)
Lemma update_repr ctx m d :
  repr ctx m -> Forall is_byte d -> blen d < 2 ^ 32 - 63 ->
  exists ctx', SHA1Update ctx d (blen d) = Some ctx' /\ repr ctx' (m ++ d).
Proof.
  intros [Hm Hst H0 H1 Hlen Hbuf] Hd Hl.
  assert (HM : Forall is_byte (m ++ d)) by by apply Forall_app.
  pose proof (blen_nonneg m) as Hm0. pose proof (blen_nonneg d) as Hd0.
  destruct (count_step (blen m) (blen d)) as [HC0 HC1]; [lia..|].
  unfold SHA1Update. rewrite H0, H1. cbv zeta in HC0, HC1. rewrite HC1, HC0, offset_in_block by lia.
  pose proof (Nat.div_mod_eq (length m) 64) as Hdm.
  assert (Hj64 : (length m mod 64 < 64)%nat) by by apply Nat.mod_upper_bound.
  set (q := (length m / 64)%nat) in *. set (j := (length m mod 64)%nat) in *.
  replace (blen m mod 64) with (Z.of_nat j)
    by (unfold j, blen; by rewrite Nat2Z.inj_mod).
  rewrite <- blen_app.
  unfold blen in Hl. pow2. rewrite (u32_small (_ + _)) by (unfold is_u32, blen; pow2; lia).
  destruct (Z.ltb_spec 63 (Z.of_nat j + blen d)) as [Hb|Hb]; unfold blen in Hb.
  - set (i := (64 - j)%nat). replace (64 - Z.of_nat j) with (Z.of_nat i) by lia.
    rewrite (mread_front d i) by lia. set (d1 := take i d).
    assert (Hd1 : length d1 = i) by (subst d1; rewrite length_take; lia).
    assert (HB : take j (buffer ctx) ++ d1 = take 64 (drop (64 * q) (m ++ d))).
    { rewrite Hbuf. subst d1. rewrite drop_app_le by lia.
      rewrite take_app_ge by (rewrite length_drop; lia). do 2 f_equal.
      rewrite length_drop. lia. }
    cbn [mbind option_bind].
    rewrite mwrite_Some by (unfold blen; lia).
    rewrite !Nat2Z.id, drop_ge, app_nil_r, HB by lia. cbn [mbind option_bind].
    set (B := take 64 (drop (64 * q) (m ++ d))).
    assert (HlB : length B = 64%nat)
      by (subst B; rewrite length_take, length_drop, length_app; lia).
    destruct (transform_loop_spec m d (Z.to_nat (blen d / 64 + 2)) i
      (SHA1Transform (state ctx) B) (S q))
      as (i' & st' & n' & HE & Hn' & _ & Hi' & Hst');
      try done; try lia; try (unfold blen; zlia).
    + rewrite process_snoc, transform_compress, process_app, Hst; try done; [lia|].
      by apply Forall_take, Forall_drop.
    + rewrite HE. cbn [mbind option_bind].
      set (r := (length d - i')%nat).
      replace (u32 (blen d - Z.of_nat i')) with (Z.of_nat r)
        by (rewrite u32_small; unfold blen, is_u32; pow2; lia).
      rewrite (mread_drop m d i' r) by lia. cbn [mbind option_bind].
      set (d2 := take r (drop (length m + i') (m ++ d))).
      assert (Hd2 : length d2 = r)
        by (subst d2; rewrite length_take, length_drop, length_app; lia).
      rewrite mwrite_Some by (unfold blen; lia). cbn [mbind option_bind].
      eexists. split; [done|].
      destruct (blocks_unique (length (m ++ d)) r n') as [Eq Er];
        [rewrite length_app; lia|lia|].
      split; rewrite ?Eq, ?Er; try done; cbn [buffer state count0 count1];
        rewrite ?Z2Nat.inj_0, ?take_0, ?app_nil_l, ?Nat.add_0_l.
      * rewrite length_app, length_drop. lia.
      * rewrite <- Hd2 at 1. rewrite take_app_length. subst d2.
        rewrite Hn'. apply take_ge. rewrite length_drop, length_app. lia.
  - replace (u32 (blen d - 0)) with (Z.of_nat (length d))
      by (rewrite u32_small; unfold blen, is_u32; pow2; lia).
    rewrite (mread_front d (length d)), take_ge by lia.
    cbn [mbind option_bind].
    rewrite mwrite_Some by (unfold blen; lia). cbn [mbind option_bind].
    rewrite Nat2Z.id. eexists. split; [done|].
    destruct (blocks_unique (length (m ++ d)) (j + length d) q) as [Eq Er];
      [rewrite length_app; lia|lia|].
    split; rewrite ?Eq, ?Er; try done; cbn [buffer state count0 count1];
        rewrite ?Z2Nat.inj_0, ?take_0, ?app_nil_l, ?Nat.add_0_l.
    + rewrite process_app by lia. done.
    + rewrite !length_app, length_take, length_drop. lia.
    + rewrite app_assoc, take_app_le, take_ge, Hbuf, drop_app_le; try done.
      all: rewrite ?length_app, ?length_take; lia.
Qed.

(** *** Finalisation *)

Lemma word_byte_spec w i : 0 <= i < 4 -> word_byte w i = (w / 2 ^ (8 * (3 - i))) mod 256.
Proof.
  intros Hi. unfold word_byte. change 255 with (Z.ones 8).
  replace (Z.land i 3) with i
    by (change 3 with (Z.ones 2); rewrite Z.land_ones, Z.mod_small by (simpl; lia); done).
  rewrite Z.land_ones, Z.shiftr_div_pow2 by lia. by rewrite (Z.mul_comm 8).
Qed.

Lemma be_bytes_4 w : be_bytes 4 w = map (word_byte w) [0; 1; 2; 3].
Proof.
  unfold be_bytes. cbn [map rev le_bytes app].
  rewrite !word_byte_spec by lia. rewrite !Z.div_div by lia. cbn. rewrite Z.div_1_r. done.
Qed.

Lemma word_byte_mod w i : word_byte w (i + 4) = word_byte w i.
Proof.
  unfold word_byte. do 3 f_equal. change 3 with (Z.ones 2). rewrite !Z.land_ones by lia.
  simpl Z.pow. zlia.
Qed.

Lemma finalcount_repr ctx m :
  repr ctx m -> blen m < 2 ^ 61 -> finalcount ctx = be_bytes 8 (8 * blen m).
Proof.
  intros H Hm. pose proof (blen_nonneg m).
  rewrite (be_bytes_app 4 4). change (256 ^ Z.of_nat 4) with (2 ^ 32).
  rewrite <- (be_bytes_mod 4 (8 * blen m / 2 ^ 32)), <- (be_bytes_mod 4 (8 * blen m)).
  change (256 ^ Z.of_nat 4) with (2 ^ 32). fold (u32 (8 * blen m / 2 ^ 32)) (u32 (8 * blen m)).
  rewrite <- (r_count0 _ _ H), <- (r_count1 _ _ H), !be_bytes_4.
  unfold finalcount. cbn [map app Z.leb Z.compare Pos.compare Pos.compare_cont].
  by rewrite (word_byte_mod _ 0), (word_byte_mod _ 1), (word_byte_mod _ 2),
    (word_byte_mod _ 3).
Qed.

Lemma digest_of_state st :
  map (fun i => word_byte (state_word st (Z.shiftr i 2)) i) (seqZ 0 20)
  = Spec.digest (hash_of st).
Proof.
  unfold Spec.digest. rewrite !be_bytes_4. destruct st as [a b c d e]. cbn [hash_of Spec.h0
    Spec.h1 Spec.h2 Spec.h3 Spec.h4 s0 s1 s2 s3 s4]. reflexivity.
Qed.

Lemma pad_test n : 0 <= n -> (Z.land (u32 (8 * n)) 504 =? 448) = (n mod 64 =? 56).
Proof.
  intros Hn. replace (Z.land (u32 (8 * n)) 504) with (8 * (n mod 64)).
  - zlia.
  - rewrite <- (offset_in_block n) by done.
    change 504 with (Z.shiftl 63 3). unfold u32. change (2 ^ 32) with (8 * 2 ^ 29).
    rewrite Z.mul_mod_distr_l by lia.
    replace (8 * (n mod 2 ^ 29)) with (Z.shiftl (n mod 2 ^ 29) 3)
      by (rewrite Z.shiftl_mul_pow2 by lia; lia).
    rewrite <- Z.shiftl_land, Z.shiftr_shiftl_l, Z.sub_diag, Z.shiftl_0_r by lia.
    rewrite Z.shiftl_mul_pow2 by lia. lia.
Qed.

Lemma zeros_S n : 0 <= n -> zeros (1 + n) = 0 :: zeros n.
Proof. intros Hn. unfold zeros. by rewrite Z2Nat.inj_add. Qed.

Lemma pad_loop_repr fuel ctx m :
  repr ctx m -> ((56 - blen m) mod 64 < Z.of_nat fuel) ->
  exists ctx', pad_loop fuel ctx = Some ctx' /\
               repr ctx' (m ++ zeros ((56 - blen m) mod 64)).
Proof.
  revert ctx m. induction fuel as [|fuel IH]; intros ctx m H Hf; [zlia|].
  cbn [pad_loop]. pose proof (blen_nonneg m).
  rewrite (r_count0 _ _ H), pad_test by done.
  destruct (Z.eqb_spec (blen m mod 64) 56) as [E|E].
  - exists ctx. split; [done|]. replace ((56 - blen m) mod 64) with 0 by zlia.
    by rewrite app_nil_r.
  - destruct (update_repr ctx m [0] H) as (ctx1 & E1 & H1); [repeat constructor; done|done|].
    change (blen [0]) with 1 in E1. rewrite E1. cbn [mbind option_bind].
    replace ((56 - blen m) mod 64) with (1 + (56 - blen (m ++ [0])) mod 64) in *
      by (rewrite blen_app; change (blen [0]) with 1; zlia).
    destruct (IH ctx1 _ H1) as (ctx2 & E2 & H2); [lia|].
    exists ctx2. split; [done|]. rewrite zeros_S by zlia. by rewrite <- app_assoc in H2.
Qed.

Lemma final_spec ctx m :
  repr ctx m -> blen m < 2 ^ 61 -> SHA1Final ctx = Some (Spec.sha1 m).
Proof.
  intros H Hm. unfold SHA1Final. rewrite (finalcount_repr ctx m) by done.
  destruct (update_repr ctx m [0x80] H) as (c1 & E1 & H1); [repeat constructor; done|done|].
  change (blen [0x80]) with 1 in E1. rewrite E1. cbn [mbind option_bind].
  destruct (pad_loop_repr 65 c1 _ H1) as (c2 & E2 & H2); [zlia|].
  rewrite E2. cbn [mbind option_bind].
  destruct (update_repr c2 _ (be_bytes 8 (8 * blen m)) H2) as (c3 & E3 & H3);
    [auto with words|done|].
  rewrite blen_be_bytes in E3. change (Z.of_nat 8) with 8 in E3. rewrite E3. cbn [mbind option_bind].
  rewrite digest_of_state. unfold Spec.sha1. do 2 f_equal.
  rewrite (r_state _ _ H3).
  replace (_ ++ be_bytes 8 _) with (Spec.pad m); [done|].
  unfold Spec.pad. rewrite blen_app. change (blen [0x80]) with 1.
  replace (56 - (blen m + 1)) with (55 - blen m) by lia. by rewrite <- !app_assoc.
Qed.

Lemma bytewise_repr ctx m d :
  repr ctx m -> Forall is_byte d ->
  exists ctx', update_bytewise ctx d = Some ctx' /\ repr ctx' (m ++ d).
Proof.
  intros H Hd. revert ctx m H. induction Hd as [|b d Hb Hd IH]; intros ctx m H.
  - exists ctx. by rewrite app_nil_r.
  - destruct (update_repr ctx m [b] H) as (c1 & E1 & H1); [by apply Forall_singleton|done|].
    change (blen [b]) with 1 in E1. cbn [update_bytewise]. rewrite E1.
    cbn [mbind option_bind]. destruct (IH c1 _ H1) as (c2 & E2 & H2).
    exists c2. split; [done|]. by rewrite <- app_assoc in H2.
Qed.

Lemma update_all_repr ctx m ds :
  repr ctx m -> Forall (fun d => Forall is_byte d /\ blen d < 2 ^ 32 - 63) ds ->
  exists ctx', update_all ctx ds = Some ctx' /\ repr ctx' (m ++ concat ds).
Proof.
  intros H Hd. revert ctx m H. induction Hd as [|d ds [Hb Hl] Hd IH]; intros ctx m H.
  - exists ctx. by rewrite app_nil_r.
  - destruct (update_repr ctx m d H) as (c1 & E1 & H1); [done..|].
    cbn [update_all]. rewrite E1. cbn [mbind option_bind].
    destruct (IH c1 _ H1) as (c2 & E2 & H2).
    exists c2. split; [done|]. by rewrite <- app_assoc in H2.
Qed.

(** ** Properties *)

(** C4. Hashing a message in one call returns its FIPS 180-1 digest and a
    NUL, for every message whose length fits the [int] parameter. *)
Theorem SHA1_correct junk m :
  length junk = 64%nat -> Forall is_byte m -> blen m < 2 ^ 31 ->
  SHA1 junk m = Some (Spec.sha1 m ++ [0]).
Proof.
  intros Hj Hm Hl. unfold SHA1.
  destruct (bytewise_repr _ [] m (repr_init junk Hj) Hm) as (c & -> & H).
  cbn [mbind option_bind]. rewrite (final_spec c m) by (done || (pow2; lia)). done.
Qed.

Lemma SHA1_correct_witness :
  SHA1 (zeros 64) (str "abc") =
    Some ([0xA9; 0x99; 0x3E; 0x36; 0x47; 0x06; 0x81; 0x6A; 0xBA; 0x3E;
           0x25; 0x71; 0x78; 0x50; 0xC2; 0x6C; 0x9C; 0xD0; 0xD8; 0x9D] ++ [0]).
Proof.
  rewrite (SHA1_correct (zeros 64) (str "abc"));
    [vm_compute; reflexivity|reflexivity|apply str_is_byte|reflexivity].
Defined.

(** Streaming: any sequence of updates gives the digest of the
    concatenation; no access leaves the buffer or the data. *)
Theorem SHA1_streaming junk ds :
  length junk = 64%nat ->
  Forall (fun d => Forall is_byte d /\ blen d < 2 ^ 32 - 63) ds ->
  blen (concat ds) < 2 ^ 61 ->
  (ctx ← update_all (SHA1Init junk) ds; SHA1Final ctx) = Some (Spec.sha1 (concat ds)).
Proof.
  intros Hj Hd Hl.
  destruct (update_all_repr _ [] ds (repr_init junk Hj) Hd) as (c & -> & H).
  by apply final_spec.
Qed.

Lemma SHA1_streaming_witness :
  (ctx ← update_all (SHA1Init (zeros 64))
     [str "abcdbcdecdefdefgefghfghighijhijkijkljklmk"; str "lmnlmnomnopnopq"];
   SHA1Final ctx)
  = Some [0x84; 0x98; 0x3E; 0x44; 0x1C; 0x3B; 0xD2; 0x6E; 0xBA; 0xAE;
          0x4A; 0xA1; 0xF9; 0x51; 0x29; 0xE5; 0xE5; 0x46; 0x70; 0xF1].
Proof.
  rewrite (SHA1_streaming (zeros 64)); [vm_compute; reflexivity|reflexivity| |reflexivity].
  repeat (apply Forall_cons; split; [split; [apply str_is_byte|reflexivity]|]). apply Forall_nil_2.
Defined.
