(* ===== verification/PolicyFile.v ===== *)
(** * Policy files ([next_entry], [put_entry], [str_read] of
    [src/libsepol/services.c])

    A policy image in memory ([PF_USE_MEMORY]), the kind of file the program
    uses: reading consumes the bytes at [fp->data], writing stores them and
    consumes capacity; [PF_LEN] only counts. *)
From S2P Require Import Prelude.

(** [next_entry(buf, fp, bytes)]: the bytes read and the bytes that are left;
    [None] is the return value -1. *)
Definition next_entry (fp : bytes) (n : Z) : option (bytes * bytes) :=
  if blen fp <? n then None
  else Some (take (Z.to_nat n) fp, drop (Z.to_nat n) fp).

Inductive pf_type := PF_USE_MEMORY | PF_LEN.

(** A file being written: what was stored so far and [fp->len], the capacity
    that is left ([PF_USE_MEMORY]) or the size needed ([PF_LEN]). *)
Record policy_file := PolicyFile { type : pf_type; data : bytes; len : Z }.

(** [put_entry(ptr, size, n, fp)] with the source bytes at [ptr]: the number of
    items written. *)
Definition put_entry (ptr : bytes) (size n : Z) (fp : policy_file) : Z * policy_file :=
  let bytes := size * n in
  match type fp with
  | PF_USE_MEMORY =>
    if len fp <? bytes then (0, fp)
    else (n, PolicyFile PF_USE_MEMORY (data fp ++ ptr) (len fp - bytes))
  | PF_LEN => (n, PolicyFile PF_LEN (data fp) (len fp + bytes))
  end.

(** [str_read(strp, fp, len)]: [None] is a failure. *)
Definition str_read (fp : bytes) (n : Z) : option (bytes * bytes) :=
  if (n =? 0) || (n =? 2 ^ 64 - 1) then None else next_entry fp n.

Lemma next_entry_app d k n : blen d = n -> next_entry (d ++ k) n = Some (d, k).
Proof.
  intros <-. unfold next_entry. rewrite blen_app.
  pose proof (blen_nonneg k).
  replace (_ <? _) with false by lia. unfold blen.
  by rewrite Nat2Z.id, take_app_length, drop_app_length.
Qed.

Lemma next_entry_Some fp n d k :
  next_entry fp n = Some (d, k) -> 0 <= n -> fp = d ++ k /\ blen d = n.
Proof.
  unfold next_entry. case_match eqn:E; [done|]. intros H Hn. simplify_eq.
  split; [by rewrite take_drop|].
  unfold blen in *. rewrite length_take. lia.
Qed.

Lemma put_entry_memory ptr size n cap d :
  size * n <= cap ->
  put_entry ptr size n (PolicyFile PF_USE_MEMORY d cap)
  = (n, PolicyFile PF_USE_MEMORY (d ++ ptr) (cap - size * n)).
Proof. intros H. unfold put_entry. simpl. by replace (_ <? _) with false by lia. Qed.
