(* ===== verification/Ebitmap.v ===== *)
(** * Extensible bitmaps ([src/libsepol/ebitmap.c])

    The sets of types, roles and attributes of a policy.  A bitmap is a linked
    list of 64-bit nodes in increasing order; the model keeps the list, the
    [highbit] field and every branch of the C code, except the failures of
    [malloc].  [size_t] is 64 bits wide (arm64 and x86_64 builds).  The
    theorems refine the operations to finite sets of bit numbers. *)
From S2P Require Import Prelude PolicyFile.

(** ** Data *)

Definition MAPSIZE : Z := 64.
Definition EINVAL : Z := 22.

Record ebitmap_node := Node { startbit : Z; map_ : Z }.
Record ebitmap := Ebitmap { node : list ebitmap_node; highbit : Z }.

#[export] Instance ebitmap_node_eq_dec : EqDecision ebitmap_node.
Proof. solve_decision. Defined.
#[export] Instance ebitmap_eq_dec : EqDecision ebitmap.
Proof. solve_decision. Defined.

Definition ebitmap_init : ebitmap := Ebitmap [] 0.

Definition ebitmap_length (e : ebitmap) : Z := highbit e.
Definition ebitmap_startbit (e : ebitmap) : Z :=
  match node e with n :: _ => startbit n | [] => 0 end.

(** ** Single bits *)

Fixpoint get_loop (l : list ebitmap_node) (bit : Z) : Z :=
  match l with
  | [] => 0
  | n :: next =>
    if startbit n <=? bit then
      if bit <? startbit n + MAPSIZE then
        if Z.land (map_ n) (Z.shiftl 1 (bit - startbit n)) =? 0 then 0 else 1
      else get_loop next bit
    else 0
  end.

Definition ebitmap_get_bit (e : ebitmap) (bit : Z) : Z :=
  if highbit e <? bit then 0 else get_loop (node e) bit.

(** The list walk of [ebitmap_set_bit]: [prev] is the node before [l], the
    result is the new list and the new [highbit]. *)
Fixpoint set_loop (prev : option ebitmap_node) (l : list ebitmap_node)
    (hb bit : Z) (value : bool) : list ebitmap_node * Z :=
  let insert :=
    if value then
      let sb := u32 (Z.land bit (Z.lnot (MAPSIZE - 1))) in
      (Node sb (Z.shiftl 1 (bit - sb)) :: l,
       match l with [] => u32 (sb + MAPSIZE) | _ => hb end)
    else (l, hb) in
  match l with
  | [] => insert
  | n :: next =>
    if startbit n <=? bit then
      if bit <? startbit n + MAPSIZE then
        let m := Z.shiftl 1 (bit - startbit n) in
        if value then (Node (startbit n) (Z.lor (map_ n) m) :: next, hb)
        else
          let m := Z.land (map_ n) (Z.lnot m) in
          if m =? 0 then
            (next,
             match next with
             | [] => match prev with
                     | Some p => u32 (startbit p + MAPSIZE)
                     | None => 0
                     end
             | _ => hb
             end)
          else (Node (startbit n) m :: next, hb)
      else
        let '(l', hb') := set_loop (Some n) next hb bit value in (n :: l', hb')
    else insert
  end.

Definition ebitmap_set_bit (e : ebitmap) (bit : Z) (value : bool) : Z * ebitmap :=
  if u32 (u32 (Z.land bit (Z.lnot (MAPSIZE - 1))) + MAPSIZE) =? 0 then (- EINVAL, e)
  else
    let '(l, hb) := set_loop None (node e) (highbit e) bit value in
    (0, Ebitmap l hb).

(** ** Set operations *)

(** [for (i = ...; ...; i++) { rc = body; if (rc < 0) return rc; }] on the
    destination bitmap. *)
Fixpoint for_set (n : nat) (i : Z) (body : Z -> ebitmap -> Z * ebitmap)
    (dst : ebitmap) : Z * ebitmap :=
  match n with
  | O => (0, dst)
  | S n =>
    let '(rc, dst) := body i dst in
    if rc <? 0 then (rc, dst) else for_set n (i + 1) body dst
  end.

Fixpoint or_loop (n1 : list ebitmap_node) : list ebitmap_node -> list ebitmap_node :=
  fix inner (n2 : list ebitmap_node) : list ebitmap_node :=
    match n1, n2 with
    | [], [] => []
    | x1 :: r1, x2 :: r2 =>
      if startbit x1 =? startbit x2 then
        Node (startbit x1) (Z.lor (map_ x1) (map_ x2)) :: or_loop r1 r2
      else if startbit x1 <? startbit x2 then x1 :: or_loop r1 n2
      else x2 :: inner r2
    | x1 :: r1, [] => x1 :: or_loop r1 []
    | [], x2 :: r2 => x2 :: inner r2
    end.

Definition ebitmap_or (e1 e2 : ebitmap) : Z * ebitmap :=
  (0, Ebitmap (or_loop (node e1) (node e2))
        (if highbit e2 <? highbit e1 then highbit e1 else highbit e2)).

Definition ebitmap_union (dst e1 : ebitmap) : Z * ebitmap :=
  let '(rc, tmp) := ebitmap_or dst e1 in
  if rc =? 0 then (0, tmp) else (-1, dst).

Definition ebitmap_and (e1 e2 : ebitmap) : Z * ebitmap :=
  let length := Z.min (ebitmap_length e1) (ebitmap_length e2) in
  for_set (Z.to_nat length) 0 (fun i dst =>
    if (negb (ebitmap_get_bit e1 i =? 0)) && negb (ebitmap_get_bit e2 i =? 0)
    then ebitmap_set_bit dst i true else (0, dst)) ebitmap_init.

Definition ebitmap_xor (e1 e2 : ebitmap) : Z * ebitmap :=
  let length := Z.max (ebitmap_length e1) (ebitmap_length e2) in
  for_set (Z.to_nat length) 0 (fun i dst =>
    let val := Z.lxor (ebitmap_get_bit e1 i) (ebitmap_get_bit e2 i) in
    ebitmap_set_bit dst i (negb (val =? 0))) ebitmap_init.

Definition ebitmap_not (e1 : ebitmap) (maxbit : Z) : Z * ebitmap :=
  for_set (Z.to_nat maxbit) 0 (fun i dst =>
    ebitmap_set_bit dst i (ebitmap_get_bit e1 i =? 0)) ebitmap_init.

Definition ebitmap_andnot (e1 e2 : ebitmap) (maxbit : Z) : Z * ebitmap :=
  let '(rc, e3) := ebitmap_not e2 maxbit in
  if rc <? 0 then (rc, ebitmap_init)
  else
    let '(rc, dst) := ebitmap_and e1 e3 in
    if rc <? 0 then (rc, dst) else (0, dst).

Fixpoint card_loop (n : nat) (i : Z) (e : ebitmap) (count : Z) : Z :=
  match n with
  | O => count
  | S n => card_loop n (i + 1) e (if ebitmap_get_bit e i =? 0 then count else count + 1)
  end.

Definition ebitmap_cardinality (e1 : ebitmap) : Z :=
  card_loop (Z.to_nat (ebitmap_length e1 - ebitmap_startbit e1)) (ebitmap_startbit e1) e1 0.

Fixpoint cmp_loop (n1 n2 : list ebitmap_node) : Z :=
  match n1, n2 with
  | x1 :: r1, x2 :: r2 =>
    if (startbit x1 =? startbit x2) && (map_ x1 =? map_ x2) then cmp_loop r1 r2 else 0
  | [], [] => 1
  | _, _ => 0
  end.

Definition ebitmap_cmp (e1 e2 : ebitmap) : Z :=
  if highbit e1 =? highbit e2 then cmp_loop (node e1) (node e2) else 0.

Definition ebitmap_hamming_distance (e1 e2 : ebitmap) : Z :=
  if negb (ebitmap_cmp e1 e2 =? 0) then 0
  else
    let '(rc, tmp) := ebitmap_xor e1 e2 in
    if rc <? 0 then -1 else ebitmap_cardinality tmp.

Fixpoint cpy_loop (n : list ebitmap_node) : list ebitmap_node :=
  match n with
  | [] => []
  | x :: r => Node (startbit x) (map_ x) :: cpy_loop r
  end.

Definition ebitmap_cpy (src : ebitmap) : Z * ebitmap :=
  (0, Ebitmap (cpy_loop (node src)) (highbit src)).

Fixpoint contains_loop (n1 n2 : list ebitmap_node) : Z :=
  match n1, n2 with
  | x1 :: r1, x2 :: r2 =>
    if startbit x1 <=? startbit x2 then
      if startbit x1 <? startbit x2 then contains_loop r1 n2
      else if Z.land (map_ x1) (map_ x2) =? map_ x2 then contains_loop r1 r2
      else 0
    else 0
  | _, [] => 1
  | [], _ :: _ => 0
  end.

Definition ebitmap_contains (e1 e2 : ebitmap) : Z :=
  if highbit e1 <? highbit e2 then 0 else contains_loop (node e1) (node e2).

Fixpoint match_any_loop (n1 : list ebitmap_node) : list ebitmap_node -> Z :=
  fix inner (n2 : list ebitmap_node) : Z :=
    match n1, n2 with
    | x1 :: r1, x2 :: r2 =>
      if startbit x1 <? startbit x2 then match_any_loop r1 n2
      else if startbit x2 <? startbit x1 then inner r2
      else if Z.land (map_ x1) (map_ x2) =? 0 then match_any_loop r1 r2
      else 1
    | _, _ => 0
    end.

Definition ebitmap_match_any (e1 e2 : ebitmap) : Z := match_any_loop (node e1) (node e2).

Definition ebitmap_destroy (e : ebitmap) : ebitmap := Ebitmap [] 0.

(** ** Reading and writing *)

(** A four-byte and an eight-byte entry, as [le32_to_cpu] and [le64_to_cpu]
    read them. *)
Definition next_le (fp : bytes) (n : Z) : option (Z * bytes) :=
  '(d, fp) ← next_entry fp n; Some (le_val d, fp).

(** The node loop of [ebitmap_read]: [count] nodes, [l] the last one read.
    [inl rc] is the error exit with the value of [rc]. *)
Fixpoint read_loop (count : nat) (hb : Z) (l : option ebitmap_node) (fp : bytes)
  : Z + list ebitmap_node * option ebitmap_node * bytes :=
  match count with
  | O => inr ([], l, fp)
  | S count =>
    match next_le fp 4 with
    | None => inl (-1)
    | Some (sb, fp) =>
      if negb (Z.land sb (MAPSIZE - 1) =? 0) then inl (- EINVAL)
      else if hb - MAPSIZE <? sb then inl (- EINVAL)
      else
        match next_le fp 8 with
        | None => inl (-1)
        | Some (map, fp) =>
          if map =? 0 then inl (- EINVAL)
          else if match l with Some l => sb <=? startbit l | None => false end
          then inl (- EINVAL)
          else
            let n := Node sb map in
            match read_loop count hb (Some n) fp with
            | inl rc => inl rc
            | inr (ns, l, fp) => inr (n :: ns, l, fp)
            end
        end
    end
  end.

(** [ebitmap_read(e, fp)]: [inl rc] after [ebitmap_destroy(e)], or the bitmap
    and the rest of the file. *)
Definition ebitmap_read (fp : bytes) : Z + ebitmap * bytes :=
  match next_entry fp 12 with
  | None => inl (-1)
  | Some (buf, fp) =>
    let mapsize := le_val (take 4 buf) in
    let hb := le_val (take 4 (drop 4 buf)) in
    let count := le_val (drop 8 buf) in
    if negb (mapsize =? MAPSIZE) then inl (- EINVAL)
    else if hb =? 0 then inr (Ebitmap [] hb, fp)
    else if negb (Z.land hb (MAPSIZE - 1) =? 0) then inl (- EINVAL)
    else if count =? 0 then inl (- EINVAL)
    else
      match read_loop (Z.to_nat count) hb None fp with
      | inl rc => inl rc
      | inr (ns, l, fp) =>
        match l with
        | Some l =>
          if startbit l + MAPSIZE =? hb then inr (Ebitmap ns hb, fp)
          else inl (- EINVAL)
        | None => inr (Ebitmap ns hb, fp)
        end
      end
  end.

Definition POLICYDB_SUCCESS : Z := 0.
Definition POLICYDB_ERROR : Z := -1.

(** The node loop of [ebitmap_write]. *)
Fixpoint write_loop (l : list ebitmap_node) (fp : policy_file) : Z * policy_file :=
  match l with
  | [] => (POLICYDB_SUCCESS, fp)
  | n :: next =>
    let '(items, fp) := put_entry (le_bytes 4 (startbit n)) 4 1 fp in
    if negb (items =? 1) then (POLICYDB_ERROR, fp)
    else
      let '(items, fp) := put_entry (le_bytes 8 (map_ n)) 8 1 fp in
      if negb (items =? 1) then (POLICYDB_ERROR, fp) else write_loop next fp
  end.

(** [ebitmap_write] ([src/libsepol/write.c]). *)
Definition ebitmap_write (e : ebitmap) (fp : policy_file) : Z * policy_file :=
  let count := u32 (blen (node e)) in
  let buf := le_bytes 4 MAPSIZE ++ le_bytes 4 (highbit e) ++ le_bytes 4 count in
  let '(items, fp) := put_entry buf 4 3 fp in
  if negb (items =? 3) then (POLICYDB_ERROR, fp) else write_loop (node e) fp.

(** [ebitmap_next] and the positions [ebitmap_for_each_positive_bit] visits:
    the current node and its successors, a fuel of one per position. *)
Definition ebitmap_node_get_bit (n : ebitmap_node) (bit : Z) : bool :=
  negb (Z.land (map_ n) (Z.shiftl 1 (bit - startbit n)) =? 0).

Definition ebitmap_next (n : ebitmap_node) (next : list ebitmap_node) (bit : Z)
  : ebitmap_node * list ebitmap_node * Z :=
  if bit =? startbit n + MAPSIZE - 1 then
    match next with
    | m :: next => (m, next, startbit m)
    | [] => (n, next, bit + 1)
    end
  else (n, next, bit + 1).

Fixpoint positive_loop (fuel : nat) (length : Z) (n : ebitmap_node)
    (next : list ebitmap_node) (bit : Z) : option (list Z) :=
  if length <=? bit then Some []
  else
    match fuel with
    | O => None
    | S fuel =>
      let '(n', next', bit') := ebitmap_next n next bit in
      rest ← positive_loop fuel length n' next' bit';
      Some (if ebitmap_node_get_bit n bit then bit :: rest else rest)
    end.

Definition ebitmap_for_each_positive_bit (e : ebitmap) : option (list Z) :=
  match node e with
  | [] => if 0 <? ebitmap_length e then None (* null node *) else Some []
  | n :: next =>
    positive_loop (64 * length (node e)) (ebitmap_length e) n next (startbit n)
  end.

(** ** Vocabulary of the proofs *)

Definition node_ok (n : ebitmap_node) : Prop :=
  startbit n mod 64 = 0 /\ 0 <= startbit n <= 2 ^ 32 - 128 /\ 0 < map_ n < 2 ^ 64.

(** Well-formed node lists: aligned, non-empty, strictly increasing nodes that
    start at [lo] or later. *)
Fixpoint nodes_ok (lo : Z) (l : list ebitmap_node) : Prop :=
  match l with
  | [] => True
  | n :: l => lo <= startbit n /\ node_ok n /\ nodes_ok (startbit n + 64) l
  end.

(** The end of a list, [d] when it is empty. *)
Fixpoint top (d : Z) (l : list ebitmap_node) : Z :=
  match l with
  | [] => d
  | n :: l => top (startbit n + 64) l
  end.

(** The invariant of the type. *)
Definition wf (e : ebitmap) : Prop :=
  nodes_ok 0 (node e) /\ highbit e = top 0 (node e).

(** Bit [i] of a node list. *)
Definition in_node (n : ebitmap_node) (i : Z) : bool :=
  (startbit n <=? i) && (i <? startbit n + 64) && Z.testbit (map_ n) (i - startbit n).
Definition mem (l : list ebitmap_node) (i : Z) : bool := existsb (fun n => in_node n i) l.

(** The abstraction: the set of bits of a bitmap. *)
Definition bits (e : ebitmap) (i : Z) : bool := mem (node e) i.

Definition updated (l l' : list ebitmap_node) (b : Z) (v : bool) : Prop :=
  forall i, mem l' i = if i =? b then v else mem l i.

Definition prev_end (prev : option ebitmap_node) : Z :=
  match prev with Some p => startbit p + 64 | None => 0 end.

(** What a walk over a list must achieve. *)
Definition set_result (lo : Z) (l : list ebitmap_node) (r : list ebitmap_node * Z)
    (b : Z) (v : bool) : Prop :=
  nodes_ok lo (fst r) /\ snd r = top lo (fst r) /\ updated l (fst r) b v.

(** The bits of a bitmap in increasing order. *)
Definition elements_from (p : Z -> bool) (i n : Z) : list Z := List.filter p (seqZ i n).
Definition elements (e : ebitmap) : list Z := elements_from (bits e) 0 (highbit e).

Definition enc_node (n : ebitmap_node) : bytes := le_bytes 4 (startbit n) ++ le_bytes 8 (map_ n).
Definition enc (e : ebitmap) : bytes :=
  le_bytes 4 MAPSIZE ++ le_bytes 4 (highbit e) ++ le_bytes 4 (blen (node e))
    ++ concat (map enc_node (node e)).

Definition last_node (d : option ebitmap_node) (l : list ebitmap_node) : option ebitmap_node :=
  match last l with Some n => Some n | None => d end.

Definition sample : ebitmap := Ebitmap [Node 0 6; Node 128 1] 192.

(** ** Lemmas *)

Lemma mem_cons n l i : mem (n :: l) i = in_node n i || mem l i.
Proof. done. Qed.

Lemma nodes_ok_weaken lo lo' l : lo' <= lo -> nodes_ok lo l -> nodes_ok lo' l.
Proof. destruct l as [|n l]; simpl; intuition lia. Qed.

Lemma in_node_out n i : i < startbit n \/ startbit n + 64 <= i -> in_node n i = false.
Proof.
  unfold in_node. intros.
  by destruct (Z.leb_spec (startbit n) i), (Z.ltb_spec i (startbit n + 64)); try lia.
Qed.

Lemma in_node_in n i :
  startbit n <= i < startbit n + 64 -> in_node n i = Z.testbit (map_ n) (i - startbit n).
Proof.
  unfold in_node. intros.
  by replace ((startbit n <=? i) && (i <? startbit n + 64)) with true by lia.
Qed.

Lemma mem_below lo l i : nodes_ok lo l -> i < lo -> mem l i = false.
Proof.
  revert lo. induction l as [|n l IH]; intros lo H Hi; [done|].
  destruct H as (H1 & H2 & H3). rewrite mem_cons, in_node_out, (IH _ H3) by lia. done.
Qed.

Lemma top_ge lo d l : nodes_ok lo l -> d <= lo -> d <= top d l.
Proof.
  revert lo d. induction l as [|n l IH]; intros lo d H Hd; simpl; [lia|].
  destruct H as (H1 & H2 & H3). pose proof (IH _ _ H3 (Z.le_refl _)). lia.
Qed.

Lemma mem_above lo d l i : nodes_ok lo l -> d <= lo -> top d l <= i -> mem l i = false.
Proof.
  revert lo d. induction l as [|n l IH]; intros lo d H Hd Hi; [done|].
  destruct H as (H1 & H2 & H3). simpl in Hi.
  pose proof (top_ge _ _ _ H3 (Z.le_refl _)).
  by rewrite mem_cons, in_node_out, (IH _ _ H3 (Z.le_refl _)) by lia.
Qed.

Lemma bits_above e i : wf e -> highbit e <= i -> bits e i = false.
Proof. intros [H ->]. by apply mem_above with 0. Qed.

Lemma bits_neg e i : wf e -> i < 0 -> bits e i = false.
Proof. intros [H _]. by apply mem_below. Qed.

Lemma top_bound lo d l :
  nodes_ok lo l -> 0 <= d <= 2 ^ 32 - 64 -> 0 <= top d l <= 2 ^ 32 - 64.
Proof.
  revert lo d. induction l as [|n l IH]; intros lo d H Hd; [done|].
  destruct H as (_ & H2 & H3). apply (IH _ _ H3). destruct H2 as (_ & H2 & _). lia.
Qed.

Lemma highbit_bound e : wf e -> 0 <= highbit e <= 2 ^ 32 - 64.
Proof. intros [H ->]. by apply (top_bound 0). Qed.

(** *** One bit of a word *)

Lemma land_bit_zero x k : 0 <= k -> (Z.land x (Z.shiftl 1 k) =? 0) = negb (Z.testbit x k).
Proof.
  intros Hk. replace (Z.land x (Z.shiftl 1 k)) with (if Z.testbit x k then 2 ^ k else 0).
  - destruct (Z.testbit x k); [|done]. pose proof (Z.pow_pos_nonneg 2 k). lia.
  - rewrite Z.shiftl_1_l. apply Z.bits_inj'. intros i Hi. rewrite Z.land_spec.
    destruct (decide (i = k)) as [->|Hne].
    + rewrite Z.pow2_bits_true by done. destruct (Z.testbit x k) eqn:E; simpl.
      * by rewrite Z.pow2_bits_true.
      * by rewrite Z.testbit_0_l.
    + rewrite Z.pow2_bits_false, andb_false_r by done.
      destruct (Z.testbit x k); [by rewrite Z.pow2_bits_false|by rewrite Z.testbit_0_l].
Qed.

Lemma set_bit_spec x k i :
  0 <= k -> 0 <= i ->
  Z.testbit (Z.lor x (Z.shiftl 1 k)) i = if i =? k then true else Z.testbit x i.
Proof.
  intros Hk Hi. rewrite Z.lor_spec, Z.shiftl_1_l. destruct (Z.eqb_spec i k) as [->|Hne].
  - by rewrite Z.pow2_bits_true, orb_true_r.
  - by rewrite Z.pow2_bits_false, orb_false_r.
Qed.

Lemma clear_bit_spec x k i :
  0 <= k -> 0 <= i ->
  Z.testbit (Z.land x (Z.lnot (Z.shiftl 1 k))) i = if i =? k then false else Z.testbit x i.
Proof.
  intros Hk Hi. rewrite Z.land_spec, Z.lnot_spec, Z.shiftl_1_l by done.
  destruct (Z.eqb_spec i k) as [->|Hne].
  - by rewrite Z.pow2_bits_true, andb_false_r.
  - by rewrite Z.pow2_bits_false, andb_true_r.
Qed.

Lemma single_bit_spec k i :
  0 <= k -> 0 <= i -> Z.testbit (Z.shiftl 1 k) i = (i =? k).
Proof.
  intros Hk Hi. rewrite Z.shiftl_1_l. destruct (Z.eqb_spec i k) as [->|Hne].
  - by apply Z.pow2_bits_true.
  - by apply Z.pow2_bits_false.
Qed.

Lemma single_bit_range k : 0 <= k < 64 -> 0 < Z.shiftl 1 k < 2 ^ 64.
Proof.
  intros Hk. rewrite Z.shiftl_1_l. split; [apply Z.pow_pos_nonneg; lia|].
  apply Z.pow_lt_mono_r; lia.
Qed.

Lemma nonzero_has_bit x n :
  0 < x < 2 ^ n -> exists k, 0 <= k < n /\ Z.testbit x k = true.
Proof.
  intros Hx. exists (Z.log2 x). split; [|apply Z.bit_log2; lia].
  split; [apply Z.log2_nonneg|]. apply Z.log2_lt_pow2; lia.
Qed.

(** *** Reading a bit *)

Lemma get_loop_mem lo l i :
  nodes_ok lo l -> get_loop l i = if mem l i then 1 else 0.
Proof.
  revert lo. induction l as [|n l IH]; intros lo H; [done|].
  destruct H as (H1 & H2 & H3). cbn [get_loop]. rewrite mem_cons. unfold MAPSIZE.
  destruct (Z.leb_spec (startbit n) i).
  - destruct (Z.ltb_spec i (startbit n + 64)).
    + rewrite land_bit_zero, in_node_in, (mem_below _ _ _ H3), orb_false_r by lia.
      by destruct (Z.testbit _ _).
    + rewrite in_node_out by lia. apply (IH _ H3).
  - rewrite in_node_out, (mem_below _ _ _ H3) by lia. done.
Qed.

Lemma get_bit_bits e i : wf e -> ebitmap_get_bit e i = if bits e i then 1 else 0.
Proof.
  intros H. unfold ebitmap_get_bit. destruct (Z.ltb_spec (highbit e) i).
  - rewrite bits_above; [done|done|lia].
  - destruct H as [H _]. by apply (get_loop_mem 0).
Qed.

(** *** Writing a bit *)

Lemma align_spec i :
  0 <= i < 2 ^ 32 -> u32 (Z.land i (Z.lnot (MAPSIZE - 1))) = 64 * (i / 64).
Proof.
  intros Hi. unfold MAPSIZE. replace (Z.land i (Z.lnot (64 - 1))) with (64 * (i / 64)).
  - unfold u32. zlia.
  - change (64 - 1) with (Z.ones 6). rewrite <- Z.ldiff_land, Z.ldiff_ones_r by lia.
    rewrite Z.shiftl_mul_pow2, Z.shiftr_div_pow2 by lia. change (2 ^ 6) with 64. lia.
Qed.

Lemma in_node_map n m i :
  in_node (Node (startbit n) m) i =
  (startbit n <=? i) && (i <? startbit n + 64) && Z.testbit m (i - startbit n).
Proof. done. Qed.

Lemma updated_node n m l b v :
  nodes_ok (startbit n + 64) l -> startbit n <= b < startbit n + 64 ->
  (forall k, 0 <= k < 64 ->
     Z.testbit m k = if k =? b - startbit n then v else Z.testbit (map_ n) k) ->
  updated (n :: l) (Node (startbit n) m :: l) b v.
Proof.
  intros Hl Hb Hm i. rewrite !mem_cons.
  destruct (decide (startbit n <= i < startbit n + 64)) as [Hi|Hi].
  - rewrite !in_node_in by done. cbn [map_ startbit].
    rewrite Hm, (mem_below _ _ _ Hl), !orb_false_r by lia.
    destruct (Z.eqb_spec (i - startbit n) (b - startbit n)), (Z.eqb_spec i b); try lia; done.
  - rewrite !in_node_out by (cbn; lia). by destruct (Z.eqb_spec i b); [lia|].
Qed.

(** Dropping a node that becomes empty. *)
Lemma updated_drop n l b :
  nodes_ok (startbit n + 64) l -> startbit n <= b < startbit n + 64 ->
  Z.land (map_ n) (Z.lnot (Z.shiftl 1 (b - startbit n))) = 0 ->
  updated (n :: l) l b false.
Proof.
  intros Hl Hb Hm i. rewrite mem_cons.
  destruct (decide (startbit n <= i < startbit n + 64)) as [Hi|Hi].
  - rewrite in_node_in, (mem_below _ _ _ Hl), orb_false_r by lia.
    pose proof (clear_bit_spec (map_ n) (b - startbit n) (i - startbit n)) as Hc.
    rewrite Hm, Z.testbit_0_l in Hc.
    destruct (Z.eqb_spec i b) as [->|]; [done|].
    replace (i - startbit n =? b - startbit n) with false in Hc by lia.
    apply Hc; lia.
  - rewrite in_node_out by lia. by destruct (Z.eqb_spec i b); [lia|].
Qed.

Lemma updated_fresh lo l b :
  nodes_ok lo l -> 64 * (b / 64) + 64 <= lo ->
  updated l (Node (64 * (b / 64)) (Z.shiftl 1 (b - 64 * (b / 64))) :: l) b true.
Proof.
  intros Hl Hb i. rewrite mem_cons. unfold in_node; cbn [startbit map_].
  assert (64 * (b / 64) <= b < 64 * (b / 64) + 64) by zlia.
  destruct (Z.leb_spec (64 * (b / 64)) i), (Z.ltb_spec i (64 * (b / 64) + 64)); cbn.
  - rewrite single_bit_spec, (mem_below _ _ _ Hl), orb_false_r by lia.
    destruct (Z.eqb_spec i b), (Z.eqb_spec (i - 64 * (b / 64)) (b - 64 * (b / 64))); lia.
  - by destruct (Z.eqb_spec i b); [lia|].
  - by destruct (Z.eqb_spec i b); [lia|].
  - by destruct (Z.eqb_spec i b); [lia|].
Qed.

Lemma updated_same l b : mem l b = false -> updated l l b false.
Proof. intros H i. destruct (Z.eqb_spec i b) as [->|]; done. Qed.

Lemma updated_cons n l l' b v :
  updated l l' b v -> startbit n + 64 <= b -> updated (n :: l) (n :: l') b v.
Proof.
  intros H Hb i. rewrite !mem_cons, H. destruct (Z.eqb_spec i b) as [->|]; [|done].
  by rewrite in_node_out by lia.
Qed.

Lemma fresh_node_ok b :
  0 <= b < 2 ^ 32 - 64 -> node_ok (Node (64 * (b / 64)) (Z.shiftl 1 (b - 64 * (b / 64)))).
Proof.
  intros Hb. split; [|split]; cbn [startbit map_]; [zlia|zlia|].
  apply single_bit_range. zlia.
Qed.

Lemma node_ok_map n m : node_ok n -> 0 < m < 2 ^ 64 -> node_ok (Node (startbit n) m).
Proof. intros (? & ? & _) ?. split; [done|]. by split. Qed.

Lemma set_result_cons n lo l r b v :
  lo <= startbit n -> node_ok n -> startbit n + 64 <= b ->
  set_result (startbit n + 64) l r b v ->
  set_result lo (n :: l) (n :: fst r, snd r) b v.
Proof.
  intros Hlo Hn Hb (H1 & H2 & H3). split; [done|]. split; [done|]. by apply updated_cons.
Qed.

Lemma insert_result lo l b (v : bool) :
  nodes_ok lo l -> lo mod 64 = 0 -> 0 <= lo <= b -> b < 2 ^ 32 - 64 ->
  match l with n :: _ => b < startbit n | [] => True end ->
  set_result lo l
    (if v then
       (Node (64 * (b / 64)) (Z.shiftl 1 (b - 64 * (b / 64))) :: l,
        match l with [] => u32 (64 * (b / 64) + MAPSIZE) | _ => top lo l end)
     else (l, top lo l)) b v.
Proof.
  intros Hl Hlo Hb Hb' Hn.
  assert (Hsb : lo <= 64 * (b / 64)) by zlia.
  destruct v.
  - pose proof (fresh_node_ok b ltac:(lia)) as Hf.
    destruct l as [|n l]; (split; [|split]); cbn [fst snd nodes_ok top startbit]; try done.
    + apply u32_small. unfold is_u32, MAPSIZE. zlia.
    + apply (updated_fresh (64 * (b / 64) + 64)); [done|lia].
    + destruct Hl as (H1 & H2 & H3). pose proof H2 as (H2' & _ & _).
      split; [done|]. split; [done|]. split; [zlia|]. by split.
    + destruct Hl as (H1 & Hk & H3). pose proof Hk as (H2 & _ & _). apply (updated_fresh (startbit n)).
      * split; [lia|]. by split.
      * zlia.
  - split; [done|split; [done|]]. apply updated_same. cbn [fst].
    destruct l as [|n l]; [done|]. destruct Hl as (H1 & H2 & H3).
    rewrite mem_cons, in_node_out, (mem_below _ _ _ H3) by lia. done.
Qed.

Lemma update_result n lo l b (v : bool) :
  nodes_ok lo (n :: l) -> startbit n <= b < startbit n + 64 ->
  let m := Z.shiftl 1 (b - startbit n) in
  let m' := if v then Z.lor (map_ n) m else Z.land (map_ n) (Z.lnot m) in
  m' <> 0 ->
  set_result lo (n :: l) (Node (startbit n) m' :: l, top lo (n :: l)) b v.
Proof.
  intros (H1 & H2 & H3) Hb m m' Hm'.
  assert (Hspec : forall k, 0 <= k ->
     Z.testbit m' k = if k =? b - startbit n then v else Z.testbit (map_ n) k).
  { intros k Hk. subst m m'. destruct v; [apply set_bit_spec|apply clear_bit_spec]; lia. }
  split; [|split; [done|]]; cbn [fst snd nodes_ok top startbit].
  - split; [done|split; [|done]]. apply node_ok_map; [done|].
    destruct H2 as (_ & _ & Hmap).
    assert (0 <= m') by (subst m' m; destruct v;
      [apply Z.lor_nonneg; rewrite Z.shiftl_nonneg; lia|apply Z.land_nonneg; lia]).
    split; [lia|]. apply testbit_range_lt; try lia. intros k Hk.
    rewrite Hspec by lia. destruct (Z.eqb_spec k (b - startbit n)); [lia|].
    apply testbit_high with 64; lia.
  - apply updated_node; try done. intros k Hk. apply Hspec. lia.
Qed.

Lemma top_cons lo n l : top lo (n :: l) = top (startbit n + 64) l.
Proof. done. Qed.

Lemma drop_result prev n l b :
  let lo := prev_end prev in
  0 <= lo <= b -> b < 2 ^ 32 - 64 ->
  nodes_ok lo (n :: l) -> startbit n <= b < startbit n + 64 ->
  Z.land (map_ n) (Z.lnot (Z.shiftl 1 (b - startbit n))) = 0 ->
  set_result lo (n :: l)
    (l, match l with
        | [] => match prev with Some p => u32 (startbit p + MAPSIZE) | None => 0 end
        | _ => top lo (n :: l)
        end) b false.
Proof.
  intros lo Hlo Hb' (H1 & H2 & H3) Hb Hm. split; [|split]; cbn [fst snd].
  - apply (nodes_ok_weaken (startbit n + 64)); [lia|done].
  - destruct l; [|done]. subst lo. destruct prev as [p|]; [|done]. cbn in *.
    apply u32_small. unfold is_u32, MAPSIZE. lia.
  - by apply updated_drop.
Qed.

Lemma set_loop_spec prev l b v :
  let lo := prev_end prev in
  nodes_ok lo l -> lo mod 64 = 0 -> 0 <= lo <= b -> b < 2 ^ 32 - 64 ->
  set_result lo l (set_loop prev l (top lo l) b v) b v.
Proof.
  revert prev. induction l as [|n l IH]; intros prev lo Hl Hm Hlo Hb; cbn [set_loop].
  all: rewrite align_spec by lia.
  - by apply (insert_result lo []).
  - pose proof Hl as (H1 & H2 & H3).
    destruct (Z.leb_spec (startbit n) b); [|by apply (insert_result lo (n :: l))].
    unfold MAPSIZE at 1. destruct (Z.ltb_spec b (startbit n + 64)).
    + destruct v.
      * apply (update_result n lo l b true); try done.
        intros Hz. apply Z.lor_eq_0_iff in Hz as [Hz _]. destruct H2 as (_ & _ & ?). lia.
      * destruct (Z.eqb_spec (Z.land (map_ n) (Z.lnot (Z.shiftl 1 (b - startbit n)))) 0).
        -- by apply drop_result.
        -- by apply (update_result n lo l b false).
    + rewrite top_cons. destruct (set_loop (Some n) l _ b v) as [l' hb'] eqn:E.
      apply (set_result_cons n lo l (l', hb')); try done.
      rewrite <- E. apply (IH (Some n)); cbn; try done; destruct H2 as (? & ? & _); zlia.
Qed.

(** [ebitmap_set_bit] on a bit below the overflow bound. *)
Lemma set_bit_wf e b v :
  wf e -> 0 <= b < 2 ^ 32 - 64 ->
  exists e', ebitmap_set_bit e b v = (0, e') /\ wf e' /\
    forall i, bits e' i = if i =? b then v else bits e i.
Proof.
  intros [H Hhb] Hb. unfold ebitmap_set_bit. rewrite align_spec by lia.
  destruct (Z.eqb_spec (u32 (64 * (b / 64) + MAPSIZE)) 0) as [E|_].
  - rewrite u32_small in E; unfold is_u32, MAPSIZE in *; zlia.
  - rewrite Hhb.
    pose proof (set_loop_spec None (node e) b v H eq_refl
      ltac:(cbn [prev_end]; lia) ltac:(lia)) as Hs.
    cbn [prev_end] in Hs.
    destruct (set_loop _ _ _ _ _) as [l hb]. destruct Hs as (H1 & H2 & H3).
    exists (Ebitmap l hb). done.
Qed.

Lemma set_bit_overflow e b v :
  2 ^ 32 - 64 <= b < 2 ^ 32 -> ebitmap_set_bit e b v = (- EINVAL, e).
Proof.
  intros Hb. unfold ebitmap_set_bit. rewrite align_spec by lia.
  replace (64 * (b / 64)) with (2 ^ 32 - 64) by zlia. done.
Qed.

(** *** Canonical form *)

Lemma node_has_bit n :
  node_ok n -> exists i, startbit n <= i < startbit n + 64 /\ in_node n i = true.
Proof.
  intros (_ & _ & Hm). destruct (nonzero_has_bit _ _ Hm) as (k & Hk & Hb).
  exists (startbit n + k). split; [lia|]. rewrite in_node_in by lia.
  by replace (startbit n + k - startbit n) with k by lia.
Qed.

Lemma mem_lt_head lo n l i :
  nodes_ok lo (n :: l) -> i < startbit n -> mem (n :: l) i = false.
Proof.
  intros (H1 & H2 & H3) Hi. apply (mem_below (startbit n)); [|done].
  by split_and!.
Qed.

Lemma head_le lo lo' n1 l1 n2 l2 :
  nodes_ok lo (n1 :: l1) -> nodes_ok lo' (n2 :: l2) ->
  (forall i, mem (n1 :: l1) i = mem (n2 :: l2) i) -> startbit n2 <= startbit n1.
Proof.
  intros H1 H2 He. pose proof H1 as (_ & Hn1 & _).
  pose proof Hn1 as (A1 & _ & _). pose proof H2 as (_ & (A2 & _ & _) & _).
  destruct (node_has_bit n1 Hn1) as (i & Hi & Hb).
  destruct (decide (startbit n2 <= startbit n1)) as [|Hc]; [done|].
  specialize (He i). rewrite mem_cons, Hb in He.
  rewrite (mem_lt_head lo' n2 l2 i) in He by (done || zlia). done.
Qed.

Lemma mem_inj lo l1 l2 :
  nodes_ok lo l1 -> nodes_ok lo l2 -> (forall i, mem l1 i = mem l2 i) -> l1 = l2.
Proof.
  revert lo l2. induction l1 as [|n1 l1 IH]; intros lo [|n2 l2] H1 H2 He.
  - done.
  - destruct H2 as (_ & Hn & _). destruct (node_has_bit n2 Hn) as (i & _ & Hb).
    specialize (He i). by rewrite mem_cons, Hb in He.
  - destruct H1 as (_ & Hn & _). destruct (node_has_bit n1 Hn) as (i & _ & Hb).
    specialize (He i). by rewrite mem_cons, Hb in He.
  - assert (Hs : startbit n1 = startbit n2).
    { apply Z.le_antisymm; eapply head_le; eauto. }
    destruct H1 as (_ & O1 & H1), H2 as (_ & O2 & H2).
    assert (Hm : map_ n1 = map_ n2).
    { apply Z.bits_inj'. intros k Hk. destruct (Z.ltb_spec k 64).
      - specialize (He (startbit n1 + k)). rewrite !mem_cons, !in_node_in in He by lia.
        rewrite (mem_below _ _ _ H1), (mem_below _ _ _ H2), !orb_false_r in He by lia.
        by replace (startbit n1 + k - startbit n1) with k in He by lia;
           replace (startbit n1 + k - startbit n2) with k in He by lia.
      - destruct O1 as (_ & _ & ?), O2 as (_ & _ & ?).
        by rewrite !(testbit_high _ 64) by lia. }
    assert (Hn : n1 = n2) by (destruct n1, n2; cbn in *; congruence). subst n2. f_equal.
    apply (IH (startbit n1 + 64)); try done. intros i. specialize (He i).
    rewrite !mem_cons in He. destruct (decide (i < startbit n1 + 64)).
    + by rewrite (mem_below _ _ _ H1), (mem_below _ _ _ H2).
    + by rewrite in_node_out in He by lia.
Qed.

Lemma wf_ext e1 e2 : wf e1 -> wf e2 -> (forall i, bits e1 i = bits e2 i) -> e1 = e2.
Proof.
  intros [H1 T1] [H2 T2] He. destruct e1 as [l1 h1], e2 as [l2 h2]; cbn in *.
  assert (l1 = l2) by by apply (mem_inj 0). by subst.
Qed.

Lemma cmp_loop_eq l1 l2 : cmp_loop l1 l2 = if decide (l1 = l2) then 1 else 0.
Proof.
  revert l2. induction l1 as [|[s1 m1] l1 IH]; intros [|[s2 m2] l2]; try done. cbn.
  destruct (Z.eqb_spec s1 s2), (Z.eqb_spec m1 m2); cbn.
  - subst. rewrite IH. repeat case_decide; simplify_eq; done.
  - case_decide; simplify_eq; done.
  - case_decide; simplify_eq; done.
  - case_decide; simplify_eq; done.
Qed.

Lemma cmp_eq e1 e2 : ebitmap_cmp e1 e2 = if decide (e1 = e2) then 1 else 0.
Proof.
  unfold ebitmap_cmp. rewrite cmp_loop_eq. destruct e1 as [l1 h1], e2 as [l2 h2]; cbn.
  destruct (Z.eqb_spec h1 h2); repeat case_decide; simplify_eq; done.
Qed.

(** *** Union *)

Lemma or_loop_nil_l l : or_loop [] l = l.
Proof. induction l as [|x l IH]; [done|]. cbn in *. by rewrite IH. Qed.
Lemma or_loop_nil_r l : or_loop l [] = l.
Proof. induction l as [|x l IH]; [done|]. cbn in *. by rewrite IH. Qed.
Lemma or_loop_cons x1 r1 x2 r2 :
  or_loop (x1 :: r1) (x2 :: r2) =
    if startbit x1 =? startbit x2 then
      Node (startbit x1) (Z.lor (map_ x1) (map_ x2)) :: or_loop r1 r2
    else if startbit x1 <? startbit x2 then x1 :: or_loop r1 (x2 :: r2)
    else x2 :: or_loop (x1 :: r1) r2.
Proof. done. Qed.

Lemma aligned_lt n1 n2 :
  node_ok n1 -> node_ok n2 -> startbit n1 < startbit n2 -> startbit n1 + 64 <= startbit n2.
Proof. intros (H1 & _ & _) (H2 & _ & _) ?. zlia. Qed.

Lemma in_node_lor n1 n2 i :
  startbit n1 = startbit n2 ->
  in_node (Node (startbit n1) (Z.lor (map_ n1) (map_ n2))) i = in_node n1 i || in_node n2 i.
Proof.
  intros E. unfold in_node. cbn. rewrite Z.lor_spec, E.
  by destruct (startbit n2 <=? i), (i <? startbit n2 + 64).
Qed.

Lemma lor_map_ok n1 n2 : node_ok n1 -> node_ok n2 ->
  node_ok (Node (startbit n1) (Z.lor (map_ n1) (map_ n2))).
Proof.
  intros Hn (_ & _ & H2). apply node_ok_map; [done|]. destruct Hn as (_ & _ & H1).
  pose proof (lor_range (map_ n1) (map_ n2) 64). split; [|lia].
  assert (Z.lor (map_ n1) (map_ n2) <> 0); [|lia].
  intros [? _]%Z.lor_eq_0_iff. lia.
Qed.

Lemma or_loop_spec l1 l2 lo d :
  nodes_ok lo l1 -> nodes_ok lo l2 -> d <= lo ->
  nodes_ok lo (or_loop l1 l2) /\
  (forall i, mem (or_loop l1 l2) i = mem l1 i || mem l2 i) /\
  top d (or_loop l1 l2) = Z.max (top d l1) (top d l2).
Proof.
  revert l2 lo d. induction l1 as [|n1 r1 IH1]; intros l2 lo d H1 H2 Hd.
  { rewrite or_loop_nil_l. pose proof (top_ge _ _ _ H2 Hd). split_and!; try done. cbn. lia. }
  revert lo d H1 H2 Hd. induction l2 as [|n2 r2 IH2]; intros lo d H1 H2 Hd.
  { rewrite or_loop_nil_r. pose proof (top_ge _ _ _ H1 Hd).
    split_and!; try done; [|cbn [top] in *; lia]. intros i. by rewrite orb_false_r. }
  rewrite or_loop_cons. pose proof H1 as (L1 & O1 & T1). pose proof H2 as (L2 & O2 & T2).
  destruct (Z.eqb_spec (startbit n1) (startbit n2)) as [E|E].
  - destruct (IH1 r2 (startbit n1 + 64) (startbit n1 + 64)) as (A & B & C);
      [done|by rewrite E|done|].
    split; [|split].
    + split; [done|split; [by apply lor_map_ok|done]].
    + intros i. rewrite !mem_cons, B, in_node_lor by done.
      by destruct (in_node n1 i), (in_node n2 i), (mem r1 i).
    + cbn [top startbit]. by rewrite C, E.
  - destruct (Z.ltb_spec (startbit n1) (startbit n2)).
    + pose proof (aligned_lt n1 n2 O1 O2 ltac:(lia)).
      destruct (IH1 (n2 :: r2) (startbit n1 + 64) (startbit n1 + 64)) as (A & B & C);
        [done|by split|done|].
      split; [|split].
      * by split.
      * intros i. rewrite !(mem_cons n1), B. by destruct (in_node n1 i), (mem r1 i).
      * cbn [top startbit] in *. by rewrite C.
    + pose proof (aligned_lt n2 n1 O2 O1 ltac:(lia)).
      destruct (IH2 (startbit n2 + 64) (startbit n2 + 64)) as (A & B & C);
        [by split|done|done|].
      split; [|split].
      * by split.
      * intros i. rewrite !(mem_cons n2), B. by destruct (in_node n2 i), (mem (n1 :: r1) i).
      * cbn [top startbit] in *. by rewrite C.
Qed.

Lemma or_wf e1 e2 :
  wf e1 -> wf e2 ->
  exists e, ebitmap_or e1 e2 = (0, e) /\ wf e /\ forall i, bits e i = bits e1 i || bits e2 i.
Proof.
  intros [H1 T1] [H2 T2].
  destruct (or_loop_spec _ _ 0 0 H1 H2 (Z.le_refl _)) as (A & B & C).
  eexists. split; [done|]. split; [split; [done|]|done]. cbn [node highbit].
  rewrite C, T1, T2. destruct (Z.ltb_spec (top 0 (node e2)) (top 0 (node e1))); lia.
Qed.

(** *** The loops over bit numbers *)

Lemma init_wf : wf ebitmap_init.
Proof. done. Qed.

Lemma for_set_spec (f : Z -> bool) n i body dst :
  wf dst -> (forall j, i <= j -> bits dst j = false) ->
  (forall j d, i <= j < i + Z.of_nat n -> wf d -> bits d j = false ->
     exists d', body j d = (0, d') /\ wf d' /\
       forall k, bits d' k = if k =? j then f j else bits d k) ->
  exists d', for_set n i body dst = (0, d') /\ wf d' /\
    forall k, bits d' k = if (i <=? k) && (k <? i + Z.of_nat n) then f k else bits dst k.
Proof.
  revert i dst. induction n as [|n IH]; intros i dst Hw Hz Hb.
  - exists dst. split_and!; try done. intros k.
    destruct (Z.leb_spec i k), (Z.ltb_spec k (i + Z.of_nat 0)); try done. lia.
  - cbn [for_set]. destruct (Hb i dst) as (d1 & -> & W1 & B1); [lia|done|apply Hz; lia|].
    cbn [Z.ltb Z.compare].
    destruct (IH (i + 1) d1) as (d2 & -> & W2 & B2); [done| | |].
    + intros j Hj. rewrite B1. destruct (Z.eqb_spec j i); [lia|]. apply Hz. lia.
    + intros j d Hj. apply Hb. lia.
    + exists d2. split_and!; try done. intros k. rewrite B2, B1.
      destruct (Z.leb_spec (i + 1) k), (Z.ltb_spec k (i + 1 + Z.of_nat n)),
        (Z.leb_spec i k), (Z.ltb_spec k (i + Z.of_nat (S n))), (Z.eqb_spec k i);
        cbn; subst; try done; lia.
Qed.

(** The loops of [and], [xor] and [not] compute a bit function below a bound. *)
Lemma for_set_bits (f : Z -> bool) n body :
  Z.of_nat n <= 2 ^ 32 - 64 ->
  (forall j d, 0 <= j < Z.of_nat n ->
     body j d = ebitmap_set_bit d j (f j) \/ (f j = false /\ body j d = (0, d))) ->
  exists d', for_set n 0 body ebitmap_init = (0, d') /\ wf d' /\
    forall k, bits d' k = (0 <=? k) && (k <? Z.of_nat n) && f k.
Proof.
  intros Hn Hb. destruct (for_set_spec f n 0 body ebitmap_init init_wf) as (d & E & W & B).
  - done.
  - intros j d Hj Hw Hz. destruct (Hb j d) as [->|[Hf ->]]; [lia| |].
    + destruct (set_bit_wf d j (f j) Hw) as (d' & E & W & B); [lia|]. by exists d'.
    + exists d. split_and!; try done. intros k. destruct (Z.eqb_spec k j); congruence.
  - by exists d.
Qed.

Lemma get_bit_zero e i : wf e -> (ebitmap_get_bit e i =? 0) = negb (bits e i).
Proof. intros H. rewrite get_bit_bits by done. by destruct (bits e i). Qed.

Lemma and_wf e1 e2 :
  wf e1 -> wf e2 ->
  exists e, ebitmap_and e1 e2 = (0, e) /\ wf e /\ forall i, bits e i = bits e1 i && bits e2 i.
Proof.
  intros H1 H2. pose proof (highbit_bound _ H1). pose proof (highbit_bound _ H2).
  unfold ebitmap_and, ebitmap_length.
  destruct (for_set_bits (fun i => bits e1 i && bits e2 i)
    (Z.to_nat (Z.min (highbit e1) (highbit e2)))
    (fun i dst => if negb (ebitmap_get_bit e1 i =? 0) && negb (ebitmap_get_bit e2 i =? 0)
                  then ebitmap_set_bit dst i true else (0, dst))) as (e & E & W & B).
  - lia.
  - intros j d Hj. rewrite !get_bit_zero, !negb_involutive by done.
    destruct (bits e1 j && bits e2 j); auto.
  - exists e. split_and!; try done. intros i. rewrite B.
    destruct (Z.leb_spec 0 i), (Z.ltb_spec i (Z.of_nat (Z.to_nat
      (Z.min (highbit e1) (highbit e2))))); cbn; try done.
    + destruct (Z.le_gt_cases (highbit e1) i).
      * by rewrite (bits_above e1).
      * rewrite (bits_above e2), andb_false_r by (done || lia). done.
    + by rewrite bits_neg by (done || lia).
    + by rewrite bits_neg by (done || lia).
Qed.

Lemma xor_wf e1 e2 :
  wf e1 -> wf e2 ->
  exists e, ebitmap_xor e1 e2 = (0, e) /\ wf e /\
    forall i, bits e i = xorb (bits e1 i) (bits e2 i).
Proof.
  intros H1 H2. pose proof (highbit_bound _ H1). pose proof (highbit_bound _ H2).
  unfold ebitmap_xor, ebitmap_length.
  destruct (for_set_bits (fun i => xorb (bits e1 i) (bits e2 i))
    (Z.to_nat (Z.max (highbit e1) (highbit e2)))
    (fun i dst => ebitmap_set_bit dst i
       (negb (Z.lxor (ebitmap_get_bit e1 i) (ebitmap_get_bit e2 i) =? 0))))
    as (e & E & W & B).
  - lia.
  - intros j d Hj. left. f_equal. rewrite !get_bit_bits by done.
    by destruct (bits e1 j), (bits e2 j).
  - exists e. split_and!; try done. intros i. rewrite B.
    destruct (Z.leb_spec 0 i), (Z.ltb_spec i (Z.of_nat (Z.to_nat
      (Z.max (highbit e1) (highbit e2))))); cbn; try done.
    + rewrite !bits_above by (done || lia). done.
    + rewrite !bits_neg by (done || lia). done.
    + rewrite !bits_neg by (done || lia). done.
Qed.

Lemma not_wf e maxbit :
  wf e -> 0 <= maxbit <= 2 ^ 32 - 64 ->
  exists e', ebitmap_not e maxbit = (0, e') /\ wf e' /\
    forall i, bits e' i = (0 <=? i) && (i <? maxbit) && negb (bits e i).
Proof.
  intros H Hm.
  destruct (for_set_bits (fun i => negb (bits e i)) (Z.to_nat maxbit)
    (fun i dst => ebitmap_set_bit dst i (ebitmap_get_bit e i =? 0))) as (e' & E & W & B).
  - lia.
  - intros j d Hj. left. by rewrite get_bit_zero.
  - exists e'. rewrite Z2Nat.id in B by lia. done.
Qed.

Lemma andnot_wf e1 e2 maxbit :
  wf e1 -> wf e2 -> 0 <= maxbit <= 2 ^ 32 - 64 ->
  exists e, ebitmap_andnot e1 e2 maxbit = (0, e) /\ wf e /\
    forall i, bits e i = bits e1 i && (i <? maxbit) && negb (bits e2 i).
Proof.
  intros H1 H2 Hm. unfold ebitmap_andnot.
  destruct (not_wf e2 maxbit H2 Hm) as (e3 & -> & W3 & B3). cbn.
  destruct (and_wf e1 e3 H1 W3) as (e & -> & W & B). cbn.
  exists e. split_and!; try done. intros i. rewrite B, B3.
  destruct (Z.leb_spec 0 i); cbn; [by rewrite andb_assoc|].
  by rewrite (bits_neg e1) by (done || lia).
Qed.

(** *** Inclusion and intersection *)

Lemma land_eq_subset x y :
  (Z.land x y =? y) = true <-> (forall k, 0 <= k -> Z.testbit y k = true -> Z.testbit x k = true).
Proof.
  rewrite Z.eqb_eq. split.
  - intros E k Hk Hy. rewrite <- E, Z.land_spec in Hy. by apply andb_true_iff in Hy as [? _].
  - intros Hs. apply Z.bits_inj'. intros k Hk. rewrite Z.land_spec.
    destruct (Z.testbit y k) eqn:Ey; [by rewrite Hs|by rewrite andb_false_r].
Qed.

Lemma in_node_testbit n k : 0 <= k < 64 -> in_node n (startbit n + k) = Z.testbit (map_ n) k.
Proof. intros Hk. rewrite in_node_in by lia. f_equal. lia. Qed.

Lemma contains_loop_spec l1 l2 lo :
  nodes_ok lo l1 -> nodes_ok lo l2 ->
  contains_loop l1 l2 = 1 <-> (forall i, mem l2 i = true -> mem l1 i = true).
Proof.
  revert l2 lo. induction l1 as [|n1 r1 IH]; intros [|n2 r2] lo H1 H2.
  - done.
  - cbn [contains_loop]. split; [done|]. intros Hs. destruct H2 as (_ & O2 & _).
    destruct (node_has_bit n2 O2) as (i & _ & Hb). specialize (Hs i).
    rewrite mem_cons, Hb in Hs. by specialize (Hs eq_refl).
  - done.
  - cbn [contains_loop]. pose proof H1 as (L1 & O1 & T1). pose proof H2 as (L2 & O2 & T2).
    destruct (Z.leb_spec (startbit n1) (startbit n2)).
    + destruct (Z.ltb_spec (startbit n1) (startbit n2)).
      * pose proof (aligned_lt n1 n2 O1 O2 ltac:(lia)).
        rewrite (IH (n2 :: r2) (startbit n1 + 64)) by (done || by split).
        split; intros Hs i Hi; specialize (Hs i Hi); rewrite mem_cons in *.
        -- by rewrite Hs, orb_true_r.
        -- destruct (in_node n1 i) eqn:E; [|done].
           assert (Hout : i < startbit n2).
           { destruct (decide (i < startbit n1 + 64)); [lia|].
             by rewrite in_node_out in E by lia. }
           by rewrite in_node_out, (mem_below _ _ _ T2) in Hi by lia.
      * assert (Es : startbit n1 = startbit n2) by lia.
        destruct (Z.eqb_spec (Z.land (map_ n1) (map_ n2)) (map_ n2)) as [Em|Em].
        -- rewrite (IH r2 (startbit n1 + 64)) by (done || by rewrite Es).
           apply Z.eqb_eq in Em. rewrite land_eq_subset in Em.
           split; intros Hs i Hi.
           ++ rewrite mem_cons in Hi |- *. apply orb_true_iff in Hi as [Hi|Hi].
              ** unfold in_node in Hi |- *. rewrite Es. 
                 apply andb_true_iff in Hi as [Hr Hi]. rewrite Hr. cbn.
                 rewrite Em by (done || lia). done.
              ** by rewrite Hs, orb_true_r.
           ++ destruct (decide (i < startbit n1 + 64)).
              { by rewrite (mem_below (startbit n2 + 64)) in Hi by (done || lia). }
              specialize (Hs i). rewrite !mem_cons, Hi, orb_true_r in Hs.
              by rewrite in_node_out in Hs by lia; apply Hs.
        -- split; [done|]. intros Hs. destruct Em. apply Z.eqb_eq, land_eq_subset.
           intros k Hk Hb. destruct (decide (k < 64)) as [Hlt|].
           ++ specialize (Hs (startbit n2 + k)). rewrite !mem_cons in Hs.
              rewrite in_node_testbit, Hb in Hs by lia. specialize (Hs eq_refl).
              rewrite <- Es, in_node_testbit, (mem_below _ _ _ T1), orb_false_r in Hs by lia.
              done.
           ++ destruct O2 as (_ & _ & ?). by rewrite (testbit_high _ 64) in Hb by lia.
    + split; [done|]. intros Hs.
      pose proof (aligned_lt n2 n1 O2 O1 ltac:(lia)).
      destruct (node_has_bit n2 O2) as (i & Hi & Hb). specialize (Hs i).
      rewrite mem_cons, Hb in Hs. specialize (Hs eq_refl).
      by rewrite (mem_lt_head lo) in Hs by (done || lia).
Qed.

Lemma top_has_bit lo d l :
  nodes_ok lo l -> l <> [] -> exists i, mem l i = true /\ top d l - 64 <= i < top d l.
Proof.
  revert lo d. induction l as [|n l IH]; intros lo d H Hne; [done|].
  destruct H as (_ & O & H). destruct l as [|m l].
  - destruct (node_has_bit n O) as (i & Hi & Hb). exists i.
    rewrite mem_cons, Hb. cbn. split; [done|lia].
  - destruct (IH _ (startbit n + 64) H) as (i & Hi & Ht); [done|].
    exists i. rewrite mem_cons, Hi, orb_true_r. split; [done|]. exact Ht.
Qed.

Lemma top_aligned lo d l : nodes_ok lo l -> d mod 64 = 0 -> top d l mod 64 = 0.
Proof.
  revert lo d. induction l as [|n l IH]; intros lo d H Hd; [done|].
  destruct H as (_ & (O & _) & H). apply (IH _ _ H). zlia.
Qed.

Lemma contains_spec e1 e2 :
  wf e1 -> wf e2 ->
  ebitmap_contains e1 e2 = 1 <-> (forall i, bits e2 i = true -> bits e1 i = true).
Proof.
  intros W1 W2. pose proof W1 as [H1 T1]. pose proof W2 as [H2 T2]. unfold ebitmap_contains.
  destruct (Z.ltb_spec (highbit e1) (highbit e2)); [|by apply (contains_loop_spec _ _ 0)].
  split; [done|]. intros Hs.
  destruct (node e2) as [|n l] eqn:E2.
  { pose proof (highbit_bound _ W1). cbn in T2. lia. }
  destruct (top_has_bit 0 0 (n :: l) H2) as (i & Hi & Ht); [done|].
  pose proof (top_aligned _ 0 _ H1 eq_refl). pose proof (top_aligned _ 0 _ H2 eq_refl).
  assert (bits e1 i = true) as Hb by (apply Hs; unfold bits; by rewrite E2).
  rewrite bits_above in Hb by (done || zlia). done.
Qed.

Lemma contains_01 e1 e2 : ebitmap_contains e1 e2 = 0 \/ ebitmap_contains e1 e2 = 1.
Proof.
  unfold ebitmap_contains. destruct (_ <? _); [auto|].
  generalize (node e2). induction (node e1) as [|n1 r1 IH]; intros [|n2 r2]; cbn; auto.
  repeat case_match; auto.
Qed.

Lemma match_any_cons x1 r1 x2 r2 :
  match_any_loop (x1 :: r1) (x2 :: r2) =
    if startbit x1 <? startbit x2 then match_any_loop r1 (x2 :: r2)
    else if startbit x2 <? startbit x1 then match_any_loop (x1 :: r1) r2
    else if Z.land (map_ x1) (map_ x2) =? 0 then match_any_loop r1 r2
    else 1.
Proof. done. Qed.

Lemma match_any_loop_spec l1 l2 lo :
  nodes_ok lo l1 -> nodes_ok lo l2 ->
  match_any_loop l1 l2 = 1 <-> exists i, mem l1 i = true /\ mem l2 i = true.
Proof.
  revert l2 lo. induction l1 as [|n1 r1 IH1]; intros l2 lo H1 H2.
  { destruct l2; (split; [done|]); intros (i & ? & _); done. }
  revert lo H1 H2. induction l2 as [|n2 r2 IH2]; intros lo H1 H2.
  { split; [done|]. intros (i & _ & ?). done. }
  rewrite match_any_cons. pose proof H1 as (L1 & O1 & T1). pose proof H2 as (L2 & O2 & T2).
  destruct (Z.ltb_spec (startbit n1) (startbit n2)).
  - pose proof (aligned_lt n1 n2 O1 O2 ltac:(lia)).
    rewrite (IH1 (n2 :: r2) (startbit n1 + 64)) by (done || by split).
    split; intros (i & Ha & Hb); exists i; split; try done.
    + by rewrite mem_cons, Ha, orb_true_r.
    + rewrite mem_cons in Ha. apply orb_true_iff in Ha as [Ha|Ha]; [|done].
      destruct (decide (i < startbit n2)).
      * by rewrite (mem_lt_head lo) in Hb by done.
      * by rewrite in_node_out in Ha by lia.
  - destruct (Z.ltb_spec (startbit n2) (startbit n1)).
    + pose proof (aligned_lt n2 n1 O2 O1 ltac:(lia)).
      rewrite (IH2 (startbit n2 + 64)) by (done || by split).
      split; intros (i & Ha & Hb); exists i; split; try done.
      * by rewrite mem_cons, Hb, orb_true_r.
      * rewrite mem_cons in Hb. apply orb_true_iff in Hb as [Hb|Hb]; [|done].
        destruct (decide (i < startbit n1)).
        -- by rewrite (mem_lt_head lo) in Ha by done.
        -- by rewrite in_node_out in Hb by lia.
    + assert (Es : startbit n1 = startbit n2) by lia.
      assert (Hl : forall k, 0 <= k < 64 -> 
        mem (n1 :: r1) (startbit n1 + k) = Z.testbit (map_ n1) k /\
        mem (n2 :: r2) (startbit n1 + k) = Z.testbit (map_ n2) k).
      { intros k Hk. rewrite !mem_cons, (mem_below _ _ _ T1), (mem_below _ _ _ T2),
          !orb_false_r by lia. split; [by apply in_node_testbit|].
        rewrite Es. by apply in_node_testbit. }
      destruct (Z.eqb_spec (Z.land (map_ n1) (map_ n2)) 0) as [Em|Em].
      * rewrite (IH1 r2 (startbit n1 + 64)) by (done || by rewrite Es).
        split; intros (i & Ha & Hb); exists i.
        -- by rewrite !mem_cons, Ha, Hb, !orb_true_r.
        -- destruct (decide (i < startbit n1 + 64)).
           ++ destruct (decide (startbit n1 <= i)).
              ** destruct (Hl (i - startbit n1)) as [A B]; [lia|].
                 replace (startbit n1 + (i - startbit n1)) with i in A, B by lia.
                 pose proof (f_equal (fun z => Z.testbit z (i - startbit n1)) Em) as Hz.
                 cbn in Hz. rewrite Z.land_spec, <- A, <- B, Ha, Hb in Hz.
                 by rewrite Z.testbit_0_l in Hz.
              ** by rewrite (mem_lt_head lo) in Ha by (done || lia).
           ++ rewrite mem_cons, in_node_out in Ha by lia.
              by rewrite mem_cons, in_node_out in Hb by lia.
      * split; [|done]. intros _.
        pose proof (land_range (map_ n1) (map_ n2) 64) as Hr.
        destruct O1 as (_ & _ & ?), O2 as (_ & _ & ?).
        destruct (nonzero_has_bit (Z.land (map_ n1) (map_ n2)) 64) as (k & Hk & Hb); [lia|].
        rewrite Z.land_spec in Hb. apply andb_true_iff in Hb as [Ba Bb].
        exists (startbit n1 + k). destruct (Hl k Hk) as [-> ->]. done.
Qed.

(** *** Enumeration *)

Lemma elements_from_app p i n k :
  0 <= n -> 0 <= k -> elements_from p i (n + k) = elements_from p i n ++ elements_from p (i + n) k.
Proof. intros. unfold elements_from. by rewrite seqZ_app, List.filter_app. Qed.

Lemma elements_from_cons p i n :
  0 < n -> elements_from p i n =
    (if p i then [i] else []) ++ elements_from p (i + 1) (n - 1).
Proof.
  intros. unfold elements_from. rewrite seqZ_cons by done. simpl. 
  rewrite <- Z.add_1_r, <- Z.sub_1_r. by destruct (p i).
Qed.

Lemma elements_from_none p i n :
  (forall k, i <= k < i + n -> p k = false) -> elements_from p i n = [].
Proof.
  intros H. unfold elements_from.
  assert (Hf : Forall (fun k => p k = false) (seqZ i n)).
  { apply Forall_forall. intros k [??]%elem_of_seqZ. by apply H. }
  induction Hf as [|k l Hk _ IH]; [done|]. simpl. by rewrite Hk.
Qed.

Lemma elements_from_ext p q i n :
  (forall k, i <= k < i + n -> p k = q k) -> elements_from p i n = elements_from q i n.
Proof.
  intros H. unfold elements_from. apply filter_ext_in. intros k Hk.
  apply list_elem_of_In, elem_of_seqZ in Hk. by apply H.
Qed.

Lemma elem_of_elements e i :
  wf e -> In i (elements e) <-> bits e i = true.
Proof.
  intros H. unfold elements, elements_from. rewrite filter_In, <- list_elem_of_In, elem_of_seqZ.
  split; [by intros [_ ?]|]. intros Hb. split; [|done].
  destruct (Z.lt_ge_cases i 0); [by rewrite bits_neg in Hb|].
  destruct (Z.le_gt_cases (highbit e) i); [by rewrite bits_above in Hb|]. lia.
Qed.

Lemma card_loop_spec n i e c :
  wf e -> card_loop n i e c = c + blen (elements_from (bits e) i (Z.of_nat n)).
Proof.
  intros H. revert i c. induction n as [|n IH]; intros i c.
  - cbn. unfold blen. simpl. lia.
  - cbn [card_loop]. rewrite IH, (elements_from_cons _ _ (Z.of_nat (S n))), get_bit_zero by
      (done || lia). replace (Z.of_nat (S n) - 1) with (Z.of_nat n) by lia.
    rewrite blen_app. destruct (bits e i); cbn [negb]; [change (blen [i]) with 1|rewrite blen_nil]; lia.
Qed.

Lemma startbit_range e : wf e -> 0 <= ebitmap_startbit e <= highbit e.
Proof.
  intros [H T]. rewrite T. unfold ebitmap_startbit. destruct (node e) as [|n l]; [done|].
  destruct H as (L & O & H). pose proof (top_ge _ _ _ H (Z.le_refl _)). cbn [top]. lia.
Qed.

Lemma cardinality_spec e : wf e -> ebitmap_cardinality e = blen (elements e).
Proof.
  intros H. pose proof (startbit_range e H). unfold ebitmap_cardinality, ebitmap_length.
  rewrite card_loop_spec, Z2Nat.id by (done || lia). unfold elements.
  replace (highbit e) with (ebitmap_startbit e + (highbit e - ebitmap_startbit e)) at 2 by lia.
  rewrite elements_from_app by lia.
  rewrite (elements_from_none _ 0); [done|]. intros k Hk.
  unfold bits. unfold ebitmap_startbit in Hk. destruct H as [H _].
  destruct (node e) as [|n l]; [done|]. apply (mem_lt_head 0 n l); [done|lia].
Qed.

Lemma positive_loop_spec fuel len n next bit d :
  nodes_ok (startbit n) (n :: next) -> startbit n <= bit <= startbit n + 64 ->
  (bit = startbit n + 64 -> next = []) ->
  len = top d (n :: next) ->
  startbit n + 64 - bit + 64 * blen next <= Z.of_nat fuel ->
  positive_loop fuel len n next bit = Some (elements_from (mem (n :: next)) bit (len - bit)).
Proof.
  revert n next bit d. induction fuel as [|fuel IH]; intros n next bit d H Hb Hl Hlen Hf.
  { pose proof (blen_nonneg next). assert (bit = startbit n + 64) as E by lia.
    rewrite (Hl E) in Hlen |- *. cbn [top] in Hlen. subst len bit.
    unfold positive_loop. rewrite Z.leb_refl, Z.sub_diag. done. }
  pose proof H as (_ & O & H'). rewrite top_cons in Hlen.
  pose proof (top_ge _ _ _ H' (Z.le_refl _)) as Htop.
  cbn [positive_loop]. destruct (Z.leb_spec len bit).
  { assert (Htl : startbit n + 64 = bit) by lia. replace (len - bit) with 0 by lia. done. }
  assert (Hin : bit < startbit n + 64).
  { destruct (decide (bit < startbit n + 64)); [done|].
    assert (bit = startbit n + 64) as E by lia. rewrite (Hl E) in Hlen. cbn in Hlen. lia. }
  rewrite elements_from_cons by lia.
  assert (Hhead : mem (n :: next) bit = ebitmap_node_get_bit n bit).
  { rewrite mem_cons, in_node_in, (mem_below _ _ _ H'), orb_false_r by lia.
    unfold ebitmap_node_get_bit. by rewrite land_bit_zero, negb_involutive by lia. }
  rewrite Hhead. unfold ebitmap_next, MAPSIZE.
  destruct (Z.eqb_spec bit (startbit n + 64 - 1)) as [E|E]; [destruct next as [|m next]|].
  - rewrite (IH n [] (bit + 1) d); try done; [|lia..].
    cbn [mbind option_bind]. replace (len - (bit + 1)) with (len - bit - 1) by lia.
    by destruct (ebitmap_node_get_bit n bit).
  - pose proof H' as (L' & O' & H'').
    rewrite (IH m next (startbit m) (startbit n + 64)); [|by split|lia|lia|done|
      rewrite blen_cons in Hf; lia].
    cbn [mbind option_bind].
    replace (len - bit - 1) with ((startbit m - (bit + 1)) + (len - startbit m)) by lia.
    pose proof (top_ge _ _ _ H'' (Z.le_refl _)). rewrite top_cons in Hlen.
    rewrite elements_from_app by lia.
    rewrite (elements_from_none _ (bit + 1)).
    + replace (bit + 1 + (startbit m - (bit + 1))) with (startbit m) by lia.
      rewrite (elements_from_ext (mem (n :: m :: next)) (mem (m :: next))).
      * by destruct (ebitmap_node_get_bit n bit).
      * intros k Hk. by rewrite mem_cons, in_node_out by lia.
    + intros k Hk. rewrite mem_cons, in_node_out by lia. 
      by rewrite (mem_lt_head (startbit n + 64)) by (done || lia).
  - rewrite (IH n next (bit + 1) d); try done; [|lia..].
    cbn [mbind option_bind]. replace (len - (bit + 1)) with (len - bit - 1) by lia.
    by destruct (ebitmap_node_get_bit n bit).
Qed.

Lemma for_each_spec e : wf e -> ebitmap_for_each_positive_bit e = Some (elements e).
Proof.
  intros [H T]. unfold ebitmap_for_each_positive_bit, elements, ebitmap_length, bits.
  destruct (node e) as [|n next] eqn:E.
  { cbn in T. rewrite T. done. }
  pose proof H as (L & O & H').
  rewrite (positive_loop_spec _ _ _ _ _ 0).
  - pose proof (top_ge _ _ _ H' (Z.le_refl _)). rewrite top_cons in T.
    replace (highbit e) with (startbit n + (highbit e - startbit n)) at 2 by lia.
    rewrite elements_from_app by lia. rewrite (elements_from_none _ 0); [done|].
    intros k Hk. apply (mem_lt_head 0); [done|lia].
  - by split.
  - lia.
  - lia.
  - done.
  - unfold blen. cbn [length]. lia.
Qed.

(** *** The file format *)

Lemma blen_enc_node n : blen (enc_node n) = 12.
Proof. unfold enc_node. by rewrite blen_app, !blen_le_bytes. Qed.

Lemma write_loop_spec l d cap :
  12 * blen l <= cap ->
  write_loop l (PolicyFile PF_USE_MEMORY d cap) =
    (0, PolicyFile PF_USE_MEMORY (d ++ concat (map enc_node l)) (cap - 12 * blen l)).
Proof.
  revert d cap. induction l as [|n l IH]; intros d cap Hc.
  - cbn. unfold blen. simpl. by rewrite app_nil_r, Z.sub_0_r.
  - rewrite blen_cons in Hc. pose proof (blen_nonneg l). cbn [write_loop].
    rewrite put_entry_memory by lia. cbn [Z.eqb negb Pos.eqb].
    rewrite put_entry_memory by lia. cbn [Z.eqb negb Pos.eqb].
    rewrite IH by lia. do 2 f_equal.
    + cbn [map concat]. unfold enc_node. by rewrite <- !app_assoc.
    + rewrite blen_cons. lia.
Qed.

Lemma blen_enc_nodes l : blen (concat (map enc_node l)) = 12 * blen l.
Proof.
  induction l as [|n l IH]; [done|]. cbn [map concat].
  rewrite blen_app, blen_cons, blen_enc_node, IH. lia.
Qed.

Lemma blen_enc e : blen (enc e) = 12 + 12 * blen (node e).
Proof. unfold enc. rewrite !blen_app, !blen_le_bytes, blen_enc_nodes. lia. Qed.

(** The number of nodes of a well-formed list fits the count field. *)
Lemma count_bound lo d l :
  nodes_ok lo l -> d <= lo -> 64 * blen l <= top d l - d.
Proof.
  revert lo d. induction l as [|n l IH]; intros lo d H Hd; [cbn; unfold blen; simpl; lia|].
  destruct H as (L & O & H). rewrite blen_cons, top_cons.
  pose proof (IH _ _ H (Z.le_refl _)). lia.
Qed.

Lemma node_count e : wf e -> 0 <= blen (node e) < 2 ^ 26.
Proof.
  intros H. pose proof (highbit_bound _ H) as Hb. destruct H as [H T].
  pose proof (count_bound 0 0 _ H (Z.le_refl _)). pose proof (blen_nonneg (node e)).
  rewrite <- T in *. pow2. change (2 ^ 26) with 67108864. lia.
Qed.

Lemma write_spec e d cap :
  wf e -> blen (enc e) <= cap ->
  ebitmap_write e (PolicyFile PF_USE_MEMORY d cap) =
    (0, PolicyFile PF_USE_MEMORY (d ++ enc e) (cap - blen (enc e))).
Proof.
  intros H Hc. pose proof (node_count e H).
  pose proof (blen_enc e) as Hlen.
  unfold ebitmap_write. rewrite u32_small by (unfold is_u32; pow2; lia).
  rewrite put_entry_memory by lia. cbn [Z.eqb negb Pos.eqb].
  rewrite write_loop_spec by lia. do 2 f_equal.
  - unfold enc. by rewrite <- !app_assoc.
  - lia.
Qed.

Lemma next_le_spec n z k :
  0 <= z < 2 ^ (8 * Z.of_nat n) ->
  next_le (le_bytes n z ++ k) (Z.of_nat n) = Some (z, k).
Proof.
  intros Hz. unfold next_le. rewrite next_entry_app by apply blen_le_bytes.
  cbn [mbind option_bind]. rewrite le_val_le_bytes, Z.mod_small by done. done.
Qed.

Lemma aligned_land z : 0 <= z -> z mod 64 = 0 -> Z.land z (MAPSIZE - 1) = 0.
Proof. intros ? H. unfold MAPSIZE. change (64 - 1) with (Z.ones 6). by rewrite Z.land_ones. Qed.

Lemma read_loop_spec l hb lo prev rest :
  nodes_ok lo l -> match prev with Some p => startbit p + 64 <= lo | None => 0 <= lo end ->
  (forall d, top d l <= hb \/ l = []) -> hb < 2 ^ 32 ->
  read_loop (length l) hb prev (concat (map enc_node l) ++ rest) =
    inr (l, last_node prev l, rest).
Proof.
  revert lo prev. induction l as [|n l IH]; intros lo prev H Hp Hh Hb; [done|].
  destruct H as (L & O & H). pose proof O as (Oa & Or & Om).
  cbn [length read_loop map concat]. unfold enc_node at 1. rewrite <- !app_assoc.
  change 4 with (Z.of_nat 4) at 1. rewrite next_le_spec by (simpl; pow2; lia).
  rewrite aligned_land by lia. cbn [negb Z.eqb].
  assert (Hs : startbit n + 64 <= hb).
  { destruct (Hh 0) as [Ht|]; [|done]. rewrite top_cons in Ht.
    pose proof (top_ge _ _ _ H (Z.le_refl _)). lia. }
  unfold MAPSIZE. replace (hb - 64 <? startbit n) with false by lia.
  change 8 with (Z.of_nat 8). rewrite next_le_spec by (simpl; pow2; lia).
  replace (map_ n =? 0) with false by lia.
  replace (match prev with Some l0 => startbit n <=? startbit l0 | None => false end)
    with false by (destruct prev; lia).
  replace (Node (startbit n) (map_ n)) with n by by destruct n.
  rewrite (IH (startbit n + 64) (Some n)); try done.
  - unfold last_node. destruct l as [|m l]; [done|].
    rewrite (last_cons n). destruct (last (m :: l)) eqn:El; [done|].
    apply last_None in El. done.
  - intros d. destruct l; [by right|left]. destruct (Hh d) as [?|]; done.
Qed.

Lemma last_top d l : top d l = match last l with Some n => startbit n + 64 | None => d end.
Proof.
  revert d. induction l as [|n l IH]; intros d; [done|].
  rewrite top_cons, IH, last_cons. by destruct (last l).
Qed.

Lemma read_write_spec e rest : wf e -> ebitmap_read (enc e ++ rest) = inr (e, rest).
Proof.
  intros W. pose proof (node_count e W) as Hnc. pose proof (highbit_bound e W) as Hhb.
  pose proof W as [H T]. unfold ebitmap_read, enc. rewrite <- !app_assoc.
  rewrite (app_assoc (le_bytes 4 (highbit e))), (app_assoc (le_bytes 4 MAPSIZE)).
  rewrite next_entry_app by by rewrite !blen_app, !blen_le_bytes.
  change (take 4 (le_bytes 4 MAPSIZE ++ ?k)) with (le_bytes 4 MAPSIZE).
  change (drop 4 (le_bytes 4 MAPSIZE ++ ?k)) with k.
  change (drop 8 (le_bytes 4 MAPSIZE ++ le_bytes 4 (highbit e) ++ ?k)) with k.
  rewrite take_app_le, take_ge by by rewrite length_le_bytes.
  rewrite !le_val_le_bytes. change (8 * Z.of_nat 4) with 32.
  rewrite !Z.mod_small by (unfold MAPSIZE; pow2; change (2 ^ 26) with 67108864 in *; lia).
  change (negb (MAPSIZE =? MAPSIZE)) with false. cbv iota.
  destruct (Z.eqb_spec (highbit e) 0) as [E0|E0].
  { destruct (node e) as [|n l] eqn:En.
    - destruct e as [nl hb]. cbn in *. by subst.
    - destruct H as (L & O & H). rewrite top_cons in T.
      pose proof (top_ge _ _ _ H (Z.le_refl _)). destruct O as (_ & ? & _). lia. }
  pose proof (top_aligned 0 0 _ H eq_refl) as Ha. rewrite <- T in Ha.
  rewrite aligned_land by lia. cbn [negb Z.eqb].
  destruct (node e) as [|n l] eqn:En; [by cbn in T|]. rewrite <- En in *.
  assert (0 < blen (node e)) by (rewrite En, blen_cons; pose proof (blen_nonneg l); lia).
  replace (blen (node e) =? 0) with false by lia.
  replace (Z.to_nat (blen (node e))) with (length (node e)) by (unfold blen; lia).
  rewrite (read_loop_spec _ _ 0); [|done..| |pow2; lia].
  - unfold last_node. rewrite last_top in T. destruct (last (node e)) as [m|] eqn:El.
    + unfold MAPSIZE. rewrite T, Z.eqb_refl. by destruct e; cbn in *; subst.
    + by destruct e; cbn in *; subst.
  - intros d. left. rewrite T, En, !top_cons. lia.
Qed.

Lemma le_val_take_range n l :
  Forall is_byte l -> 0 <= le_val (take n l) < 2 ^ (8 * Z.of_nat n).
Proof.
  intros H. pose proof (le_val_range (take n l) (Forall_take _ _ _ H)) as Hr.
  assert (2 ^ (8 * blen (take n l)) <= 2 ^ (8 * Z.of_nat n)); [|lia].
  apply Z.pow_le_mono_r; [lia|]. unfold blen. rewrite length_take. lia.
Qed.

Lemma next_le_range fp n z k :
  Forall is_byte fp -> next_le fp (Z.of_nat n) = Some (z, k) ->
  0 <= z < 2 ^ (8 * Z.of_nat n) /\ Forall is_byte k.
Proof.
  unfold next_le, next_entry. intros H E. case_match; [done|]. cbn in E. simplify_eq.
  rewrite Nat2Z.id. split; [by apply le_val_take_range|by apply Forall_drop].
Qed.

Lemma land_aligned z : 0 <= z -> Z.land z (MAPSIZE - 1) = 0 -> z mod 64 = 0.
Proof. unfold MAPSIZE. change (64 - 1) with (Z.ones 6). intros ?. by rewrite Z.land_ones. Qed.

(** Every node that [ebitmap_read] accepts keeps the list well formed. *)
Lemma read_loop_wf count hb prev fp ns l rest :
  Forall is_byte fp -> 0 <= hb < 2 ^ 32 -> hb mod 64 = 0 ->
  match prev with Some p => startbit p mod 64 = 0 | None => True end ->
  read_loop count hb prev fp = inr (ns, l, rest) ->
  nodes_ok (prev_end prev) ns /\ l = last_node prev ns.
Proof.
  revert prev fp ns l rest. induction count as [|count IH]; intros prev fp ns l rest Hfp Hhb Ha Hp E.
  { cbn in E. by simplify_eq. }
  cbn [read_loop] in E.
  destruct (next_le fp 4) as [[sb fp1]|] eqn:E1; [|done].
  destruct (next_le_range fp 4 sb fp1 Hfp E1) as [Hsb Hfp1].
  destruct (Z.eqb_spec (Z.land sb (MAPSIZE - 1)) 0) as [Hal|]; [|done]. cbn [negb] in E.
  apply land_aligned in Hal; [|lia].
  destruct (Z.ltb_spec (hb - MAPSIZE) sb) as [|Hle]; [done|].
  destruct (next_le fp1 8) as [[map fp2]|] eqn:E2; [|done].
  destruct (next_le_range fp1 8 map fp2 Hfp1 E2) as [Hmap Hfp2].
  destruct (Z.eqb_spec map 0); [done|].
  destruct (match prev with Some l => sb <=? startbit l | None => false end) eqn:Eo; [done|].
  destruct (read_loop count hb (Some (Node sb map)) fp2) as [|[[ns' l'] k]] eqn:E3; [done|].
  simplify_eq. apply IH in E3 as [Hok ->]; try done.
  split.
  - split; [|split; [|done]].
    + destruct prev as [p|]; cbn [prev_end startbit]; zlia.
    + unfold MAPSIZE in *. split; [done|]. change (8 * Z.of_nat 4) with 32 in *.
      change (8 * Z.of_nat 8) with 64 in *. cbn [startbit map_]. zlia.
  - unfold last_node. rewrite last_cons. by destruct (last ns').
Qed.

Lemma read_wf fp e rest :
  Forall is_byte fp -> ebitmap_read fp = inr (e, rest) -> wf e.
Proof.
  intros Hfp E. unfold ebitmap_read in E.
  destruct (next_entry fp 12) as [[buf fp1]|] eqn:E1; [|done].
  apply next_entry_Some in E1 as [-> Hb]; [|lia].
  apply Forall_app in Hfp as [Hbuf Hfp1].
  pose proof (le_val_take_range 4 (drop 4 buf) ltac:(by apply Forall_drop)) as Hhb.
  change (8 * Z.of_nat 4) with 32 in Hhb.
  set (hb := le_val (take 4 (drop 4 buf))) in *.
  destruct (negb (le_val (take 4 buf) =? MAPSIZE)); [done|].
  destruct (Z.eqb_spec hb 0) as [Hz|]; [simplify_eq; by rewrite Hz|].
  destruct (Z.eqb_spec (Z.land hb (MAPSIZE - 1)) 0) as [Hal|]; [|done]. cbn [negb] in E.
  apply land_aligned in Hal; [|lia].
  destruct (Z.eqb_spec (le_val (drop 8 buf)) 0) as [|Hc]; [done|].
  destruct (read_loop _ hb None fp1) as [|[[ns l] k]] eqn:E2; [done|].
  pose proof E2 as E3. apply read_loop_wf in E2 as [Hok ->]; try done.
  unfold last_node in *. destruct (last ns) as [m|] eqn:El.
  - destruct (Z.eqb_spec (startbit m + MAPSIZE) hb) as [Ht|]; [|done]. simplify_eq.
    split; [done|]. cbn [highbit node]. by rewrite last_top, El.
  - exfalso. apply last_None in El as ->.
    destruct (Z.to_nat (le_val (drop 8 buf))) eqn:En.
    + pose proof (le_val_range (drop 8 buf) ltac:(by apply Forall_drop)). lia.
    + cbn [read_loop] in E3. repeat (case_match; try done).
Qed.

(** ** Properties *)

(** Setting a bit: below the overflow bound the call succeeds, keeps the
    bitmap well formed, and afterwards that bit reads as the value and every
    other bit as before; at or above the bound it returns [-EINVAL] and
    changes nothing. *)
Theorem ebitmap_set_bit_spec e b v :
  wf e -> 0 <= b < 2 ^ 32 ->
  (b < 2 ^ 32 - 64 /\ exists e', ebitmap_set_bit e b v = (0, e') /\ wf e' /\
     forall i, ebitmap_get_bit e' i =
       if i =? b then (if v then 1 else 0) else ebitmap_get_bit e i) \/
  (2 ^ 32 - 64 <= b /\ ebitmap_set_bit e b v = (- EINVAL, e)).
Proof.
  intros H Hb. destruct (Z.lt_ge_cases b (2 ^ 32 - 64)); [left|right].
  - split; [done|]. destruct (set_bit_wf e b v H) as (e' & E & W & B); [lia|].
    exists e'. split; [done|split; [done|]]. intros i. rewrite !get_bit_bits, B by done.
    by destruct (i =? b).
  - split; [done|]. apply set_bit_overflow. lia.
Qed.

Lemma sample_wf : wf sample.
Proof. by vm_compute. Qed.

Lemma ebitmap_set_bit_spec_witness :
  exists e', ebitmap_set_bit sample 70 true = (0, e') /\ wf e' /\
    forall i, ebitmap_get_bit e' i = if i =? 70 then 1 else ebitmap_get_bit sample i.
Proof.
  destruct (ebitmap_set_bit_spec sample 70 true) as [[_ H]|[H _]].
  - exact sample_wf.
  - split; reflexivity || discriminate.
  - exact H.
  - exfalso. vm_compute in H. by apply H.
Defined.

(** The set operations compute the set operations: union, copy,
    intersection, symmetric difference, complement below a bound and
    difference, each on well-formed bitmaps and with a well-formed result. *)
Theorem ebitmap_operations e1 e2 maxbit :
  wf e1 -> wf e2 -> 0 <= maxbit <= 2 ^ 32 - 64 ->
  (exists e, ebitmap_or e1 e2 = (0, e) /\ wf e /\
     forall i, bits e i = bits e1 i || bits e2 i) /\
  (exists e, ebitmap_union e1 e2 = (0, e) /\ wf e /\
     forall i, bits e i = bits e1 i || bits e2 i) /\
  ebitmap_cpy e1 = (0, e1) /\
  (exists e, ebitmap_and e1 e2 = (0, e) /\ wf e /\
     forall i, bits e i = bits e1 i && bits e2 i) /\
  (exists e, ebitmap_xor e1 e2 = (0, e) /\ wf e /\
     forall i, bits e i = xorb (bits e1 i) (bits e2 i)) /\
  (exists e, ebitmap_not e1 maxbit = (0, e) /\ wf e /\
     forall i, bits e i = (0 <=? i) && (i <? maxbit) && negb (bits e1 i)) /\
  (exists e, ebitmap_andnot e1 e2 maxbit = (0, e) /\ wf e /\
     forall i, bits e i = bits e1 i && (i <? maxbit) && negb (bits e2 i)).
Proof.
  intros H1 H2 Hm. pose proof (or_wf e1 e2 H1 H2) as (e & E & W & B).
  split; [by exists e|]. split; [|split; [|split; [by apply and_wf|split; [by apply xor_wf|
    split; [by apply not_wf|by apply andnot_wf]]]]].
  - exists e. unfold ebitmap_union. by rewrite E.
  - unfold ebitmap_cpy. replace (cpy_loop (node e1)) with (node e1); [by destruct e1|].
    induction (node e1) as [|[s m] l IH]; [done|]. cbn. by rewrite <- IH.
Qed.

Lemma ebitmap_operations_witness :
  exists e, ebitmap_xor sample (Ebitmap [Node 0 3] 64) = (0, e) /\ wf e /\
    forall i, bits e i = xorb (bits sample i) (bits (Ebitmap [Node 0 3] 64) i).
Proof.
  apply (ebitmap_operations sample (Ebitmap [Node 0 3] 64) 100);
    [exact sample_wf|vm_compute; intuition congruence|split; discriminate].
Defined.

(** A well-formed bitmap is a canonical form: [ebitmap_cmp] returns 1
    exactly when the two bitmaps have the same bits. *)
Theorem ebitmap_cmp_spec e1 e2 :
  wf e1 -> wf e2 ->
  ebitmap_cmp e1 e2 = 1 <-> (forall i, ebitmap_get_bit e1 i = ebitmap_get_bit e2 i).
Proof.
  intros H1 H2. rewrite cmp_eq. case_decide as He.
  - by subst.
  - split; [done|]. intros Hb. destruct He. apply wf_ext; try done. intros i.
    specialize (Hb i). rewrite !get_bit_bits in Hb by done.
    by destruct (bits e1 i), (bits e2 i).
Qed.

Lemma ebitmap_cmp_spec_witness :
  ebitmap_cmp sample sample = 1.
Proof. apply (ebitmap_cmp_spec sample sample sample_wf sample_wf). reflexivity. Defined.

(** [ebitmap_contains] decides inclusion and [ebitmap_match_any] decides
    whether two sets meet. *)
Theorem ebitmap_tests e1 e2 :
  wf e1 -> wf e2 ->
  (ebitmap_contains e1 e2 = 1 <-> (forall i, bits e2 i = true -> bits e1 i = true)) /\
  (ebitmap_match_any e1 e2 = 1 <-> (exists i, bits e1 i = true /\ bits e2 i = true)).
Proof.
  intros H1 H2. split; [by apply contains_spec|].
  destruct H1 as [H1 _], H2 as [H2 _]. by apply (match_any_loop_spec _ _ 0).
Qed.

Lemma ebitmap_tests_witness :
  ebitmap_match_any sample (Ebitmap [Node 128 5] 192) = 1.
Proof.
  apply (ebitmap_tests sample (Ebitmap [Node 128 5] 192));
    [exact sample_wf|vm_compute; intuition congruence|].
  exists 128. split; reflexivity.
Defined.

(** Enumeration and counting: the positive-bit loop terminates and visits
    the bits of the set in increasing order, [ebitmap_cardinality] is their
    number, and the Hamming distance is the size of the symmetric
    difference. *)
Theorem ebitmap_enumeration e1 e2 :
  wf e1 -> wf e2 ->
  ebitmap_for_each_positive_bit e1 = Some (elements e1) /\
  (forall i, In i (elements e1) <-> bits e1 i = true) /\
  ebitmap_cardinality e1 = blen (elements e1) /\
  exists e, (forall i, bits e i = xorb (bits e1 i) (bits e2 i)) /\ wf e /\
    ebitmap_hamming_distance e1 e2 = blen (elements e).
Proof.
  intros H1 H2. split; [by apply for_each_spec|]. split; [intros i; by apply elem_of_elements|].
  split; [by apply cardinality_spec|].
  destruct (xor_wf e1 e2 H1 H2) as (e & E & W & B). exists e. split; [done|]. split; [done|].
  unfold ebitmap_hamming_distance. rewrite cmp_eq. case_decide as He; cbn.
  - subst e2. replace e with ebitmap_init; [done|]. apply wf_ext; try done.
    intros i. rewrite B. by destruct (bits e1 i).
  - rewrite E. cbn. by apply cardinality_spec.
Qed.

Lemma ebitmap_enumeration_witness :
  ebitmap_for_each_positive_bit sample = Some [1; 2; 128] /\ ebitmap_cardinality sample = 3.
Proof.
  destruct (ebitmap_enumeration sample sample sample_wf sample_wf) as (E & _ & C & _).
  rewrite E, C. split; vm_compute; reflexivity.
Defined.

(** Round trip: what [ebitmap_write] stores, [ebitmap_read] returns, with
    the rest of the file untouched. *)
Theorem ebitmap_read_write e d cap rest :
  wf e -> 12 + 12 * blen (node e) <= cap ->
  exists w cap', ebitmap_write e (PolicyFile PF_USE_MEMORY d cap)
      = (POLICYDB_SUCCESS, PolicyFile PF_USE_MEMORY (d ++ w) cap') /\
    ebitmap_read (w ++ rest) = inr (e, rest).
Proof.
  intros H Hc. exists (enc e), (cap - blen (enc e)). split.
  - apply write_spec; [done|]. by rewrite blen_enc.
  - by apply read_write_spec.
Qed.

Lemma ebitmap_read_write_witness :
  exists w cap', ebitmap_write sample (PolicyFile PF_USE_MEMORY [] 64)
      = (POLICYDB_SUCCESS, PolicyFile PF_USE_MEMORY ([] ++ w) cap') /\
    ebitmap_read (w ++ [1; 2]) = inr (sample, [1; 2]).
Proof. apply (ebitmap_read_write sample [] 64 [1; 2] sample_wf). discriminate. Defined.

(** Whatever the bytes of the file, a bitmap that [ebitmap_read] accepts is
    well formed. *)
Theorem ebitmap_read_wf fp e rest :
  Forall is_byte fp -> ebitmap_read fp = inr (e, rest) -> wf e.
Proof. apply read_wf. Qed.

Lemma ebitmap_read_wf_witness : wf (Ebitmap [Node 64 1] 128).
Proof.
  apply (ebitmap_read_wf
    ([64; 0; 0; 0] ++ [128; 0; 0; 0] ++ [1; 0; 0; 0] ++ [64; 0; 0; 0]
       ++ [1; 0; 0; 0; 0; 0; 0; 0]) _ []).
  - repeat (apply Forall_cons; split; [split; [discriminate|reflexivity]|]). apply Forall_nil_2.
  - reflexivity.
Defined.
