(* ===== verification/Boot.v ===== *)
(** Android boot images (boot.c, boot.h): the packed header, the validity
    checks, the section layout computed by [bxxt_boot_init1], the search for
    appended device trees, and the SHA-1 signature.

    An image is the memory [mm] it is mapped in; the [void*] fields of the
    struct that point into it are offsets from its start.  A function is
    [None] where the C code divides by zero or touches memory outside the
    mapping or outside an array. *)
From S2P Require Import Prelude Stdio Posix Util Sha1.

Definition BXXT_SUCCESS := 0.
Definition BXXT_FAILED := -25.

(** ** The header *)

Definition BOOT_MAGIC := str "ANDROID!".
Definition BOOT_MAGIC_SIZE := 8.
Definition BOOT_NAME_SIZE := 16.
Definition BOOT_ARGS_SIZE := 512.
Definition BOOT_EXTRA_ARGS_SIZE := 1024.
Definition BOOT_MAX_DTB := 255.

Record boot_img_hdr := Hdr {
  magic : bytes;
  hdr_kernel_size : Z; kernel_addr : Z;
  hdr_ramdisk_size : Z; ramdisk_addr : Z;
  hdr_second_size : Z; second_addr : Z;
  tags_addr : Z; hdr_page_size : Z; header_version : Z; os_version : Z;
  name : bytes; cmdline : bytes; id : bytes; extra_cmdline : bytes;
  hdr_recovery_dtbo_size : Z; recovery_dtbo_offset : Z;
  header_size : Z; hdr_dtb_size : Z; dtb_addr : Z
}.

(** The struct is packed: its memory is the fields in order. *)
Definition hdr_fields (h : boot_img_hdr) : list bytes :=
  [ magic h;
    le_bytes 4 (hdr_kernel_size h); le_bytes 4 (kernel_addr h);
    le_bytes 4 (hdr_ramdisk_size h); le_bytes 4 (ramdisk_addr h);
    le_bytes 4 (hdr_second_size h); le_bytes 4 (second_addr h);
    le_bytes 4 (tags_addr h); le_bytes 4 (hdr_page_size h);
    le_bytes 4 (header_version h); le_bytes 4 (os_version h);
    name h; cmdline h; id h; extra_cmdline h;
    le_bytes 4 (hdr_recovery_dtbo_size h); le_bytes 8 (recovery_dtbo_offset h);
    le_bytes 4 (header_size h); le_bytes 4 (hdr_dtb_size h); le_bytes 8 (dtb_addr h) ].

Definition hdr_widths : list nat :=
  [8; 4; 4; 4; 4; 4; 4; 4; 4; 4; 4; 16; 512; 32; 1024; 4; 8; 4; 4; 8]%nat.

Definition hdr_bytes (h : boot_img_hdr) : bytes := concat (hdr_fields h).
Definition sizeof_hdr := 1660.

Fixpoint split_fields (ws : list nat) (m : bytes) : list bytes :=
  match ws with
  | [] => []
  | w :: ws => take w m :: split_fields ws (drop w m)
  end.

Definition hdr_of_fields (fs : list bytes) : option boot_img_hdr :=
  match fs with
  | [m; ks; ka; rs; ra; ss; sa; ta; ps; hv; ov; nm; cl; i; ec; ds; d_o; hs; dts; da] =>
      Some (Hdr m (le_val ks) (le_val ka) (le_val rs) (le_val ra) (le_val ss) (le_val sa)
              (le_val ta) (le_val ps) (le_val hv) (le_val ov) nm cl i ec
              (le_val ds) (le_val d_o) (le_val hs) (le_val dts) (le_val da))
  | _ => None
  end.

(** [memcpy(&b->hdr, ptr, sizeof(b->hdr))]. *)
Definition read_hdr (mm : bytes) : option boot_img_hdr :=
  d ← mread mm 0 sizeof_hdr; hdr_of_fields (split_fields hdr_widths d).

(** ** The image descriptor *)

Record bxxt_boot := Boot {
  hdr : boot_img_hdr;
  kernel_dtb : list (Z * Z);     (* offset and size of each entry *)
  dtb : list (Z * Z);
  mm : option bytes;
  version : Z; page_size : Z; kernel_compression : Z;
  kernel_size : Z; mm_kernel_ptr : Z;
  ramdisk_size : Z; mm_ramdisk_ptr : Z;
  second_size : Z; mm_second_ptr : Z;
  recovery_dtbo_size : Z; mm_recovery_dtbo_ptr : Z;
  dtb_size : Z; mm_dtb_ptr : Z;
  pad_size : Z; mm_pad_ptr : Z
}.

Definition hdr_zero : boot_img_hdr :=
  Hdr (zeros 8) 0 0 0 0 0 0 0 0 0 0 (zeros 16) (zeros 512) (zeros 32) (zeros 1024) 0 0 0 0 0.

Definition bxxt_boot_new : bxxt_boot :=
  Boot hdr_zero [] [] None 0 0 0 0 0 0 0 0 0 0 0 0 0 0 0.

Definition with_hdr (b : bxxt_boot) (h : boot_img_hdr) : bxxt_boot :=
  Boot h (kernel_dtb b) (dtb b) (mm b) (version b) (page_size b)
    (kernel_compression b) (kernel_size b) (mm_kernel_ptr b) (ramdisk_size b) (mm_ramdisk_ptr b)
    (second_size b) (mm_second_ptr b) (recovery_dtbo_size b) (mm_recovery_dtbo_ptr b)
    (dtb_size b) (mm_dtb_ptr b) (pad_size b) (mm_pad_ptr b).

Definition with_dtbs (b : bxxt_boot) (k d : list (Z * Z)) : bxxt_boot :=
  Boot (hdr b) k d (mm b) (version b) (page_size b)
    (kernel_compression b) (kernel_size b) (mm_kernel_ptr b) (ramdisk_size b) (mm_ramdisk_ptr b)
    (second_size b) (mm_second_ptr b) (recovery_dtbo_size b) (mm_recovery_dtbo_ptr b)
    (dtb_size b) (mm_dtb_ptr b) (pad_size b) (mm_pad_ptr b).

Definition bxxt_boot_img_version_check (h : boot_img_hdr) : Z :=
  if negb (bool_decide (magic h = BOOT_MAGIC)) then BXXT_FAILED
  else if header_version h <=? 2 then BXXT_SUCCESS else BXXT_FAILED.

Definition bxxt_boot_img_base_check (h : boot_img_hdr) : Z :=
  if hdr_page_size h =? 0 then BXXT_FAILED
  else if hdr_kernel_size h =? 0 then BXXT_FAILED
  else if 0x4000000 <? hdr_ramdisk_size h then BXXT_FAILED
  else if 0x4000000 <? hdr_kernel_size h then BXXT_FAILED
  else if 0xffff <? hdr_page_size h then BXXT_FAILED
  else BXXT_SUCCESS.

Definition KERNEL_COMPRESSION_NONE := 0.
Definition KERNEL_COMPRESSION_GZIP := 1.
Definition KERNEL_COMPRESSION_LZMA := 3.

Definition bxxt_boot_detect_kernel_compression (mm : bytes) (mm_kernel_ptr : Z) : option Z :=
  d ← mread mm mm_kernel_ptr 2;
  let v := le_val d in
  Some (if (v =? 0x8b1f) || (v =? 0x9e1f) then KERNEL_COMPRESSION_GZIP
        else if v =? 0x005d then KERNEL_COMPRESSION_LZMA
        else KERNEL_COMPRESSION_NONE).

(** ** Device trees appended to a section *)

Definition FDT_MAGIC_bytes : bytes := [0xd0; 0x0d; 0xfe; 0xed].

(** How far the search has come: it has returned; it reads outside the image; it
    writes behind the last entry of the table; or it is still going on after the
    rounds it was given. *)
Inductive dtb_search :=
  | DtbFound (dtb : list (Z * Z))
  | OutsideImage
  | TableFull (dtb : list (Z * Z))
  | Searching (dtb : list (Z * Z)).

(** [base] and [end] are pointers; [size] is a [uint32_t].  [dtb] has
    [BOOT_MAX_DTB] entries. *)
Fixpoint parse_dtb_loop (fuel : nat) (mm : bytes) (stop base : Z) (acc : list (Z * Z)) : dtb_search :=
  match fuel with
  | O => Searching acc
  | S fuel =>
      let size := u32 (stop - base) in
      if size =? 0 then DtbFound acc
      else
        match memmem mm base size FDT_MAGIC_bytes with
        | None => OutsideImage
        | Some None => DtbFound acc
        | Some (Some knldtb_ptr) =>
            match mread mm (knldtb_ptr + 4) 4, mread mm (knldtb_ptr + 20) 4 with
            | Some totalsize, Some ver =>
                let size := be_val totalsize in
                if BOOT_MAX_DTB <=? blen acc then TableFull acc
                else parse_dtb_loop fuel mm stop (knldtb_ptr + size) (acc ++ [(knldtb_ptr, size)])
            | _, _ => OutsideImage
            end
        end
  end.

(** Every round adds an entry, and the array has 255: 256 rounds are enough. *)
Definition bxxt_boot_parse_dtb_sections (mm : bytes) (ptr total : Z) : option (list (Z * Z)) :=
  match parse_dtb_loop 256 mm (ptr + total) ptr [] with DtbFound dtb => Some dtb | _ => None end.

(** ** The signature *)

Definition update_mem (ctx : SHA1_CTX) (mm : bytes) (off len : Z) : option SHA1_CTX :=
  d ← mread mm off len; SHA1Update ctx d len.

Definition update_word (ctx : SHA1_CTX) (n : Z) : option SHA1_CTX := SHA1Update ctx (le_bytes 4 n) 4.

Definition bxxt_boot_img_signature (junk : bytes) (b : bxxt_boot) : option bytes :=
  m ← mm b;
  let ctx := SHA1Init junk in
  ctx ← update_mem ctx m (mm_kernel_ptr b) (kernel_size b);
  ctx ← update_word ctx (kernel_size b);
  ctx ← update_mem ctx m (mm_ramdisk_ptr b) (ramdisk_size b);
  ctx ← update_word ctx (ramdisk_size b);
  ctx ← (if 0 <? second_size b then update_mem ctx m (mm_second_ptr b) (second_size b)
         else Some ctx);
  ctx ← update_word ctx (second_size b);
  ctx ← (if 0 <? version b then
           ctx ← (if 0 <? recovery_dtbo_size b
                  then update_mem ctx m (mm_recovery_dtbo_ptr b) (recovery_dtbo_size b)
                  else Some ctx);
           update_word ctx (recovery_dtbo_size b)
         else Some ctx);
  ctx ← (if 1 <? version b then
           ctx ← (if 0 <? dtb_size b then update_mem ctx m (mm_dtb_ptr b) (dtb_size b)
                  else Some ctx);
           update_word ctx (dtb_size b)
         else Some ctx);
  d ← SHA1Final ctx;
  Some (d ++ zeros 12).

(** The comparison reads one [uint64_t] of each. *)
Definition bxxt_boot_img_compat_check (junk : bytes) (force_no_compat_check : bool)
    (b : bxxt_boot) : option Z :=
  if force_no_compat_check then Some BXXT_SUCCESS
  else
    sha1sum ← bxxt_boot_img_signature junk b;
    Some (if bool_decide (take 8 sha1sum = take 8 (id (hdr b)))
          then BXXT_SUCCESS else BXXT_FAILED).

(** ** Layout *)

(** [((bs + ps - 1)/ps)*ps] on [uint32_t]; the division traps on zero. *)
Definition B_ps (ps bs : Z) : option Z :=
  if ps =? 0 then None else Some (u32 (u32 (bs + ps - 1) / ps * ps)).

(** [while (ts && pad[ts] == 0) ts -= 1]: a round per byte below [ts]. *)
Fixpoint trim_loop (fuel : nat) (mm : bytes) (pad : Z) (ts : Z) : option Z :=
  match fuel with
  | O => None
  | S fuel =>
      if ts =? 0 then Some 0
      else
        d ← mread mm (pad + ts) 1;
        if le_val d =? 0 then trim_loop fuel mm pad (ts - 1) else Some ts
  end.

(** The number of data bytes [pad_size] is set to. *)
Definition trim_pad (mm : bytes) (pad_ptr pad_size : Z) : option Z :=
  ts ← trim_loop (length mm + 2) mm pad_ptr (s32 (pad_size - 1));
  Some (if pad_size =? 0 then 0 else u32 ts).

Definition bxxt_boot_init1 (junk : bytes) (force_no_compat_check : bool) (b : bxxt_boot)
    (ptr : bytes) (size : Z) (check : bool) : option (Z * bxxt_boot) :=
  h ← read_hdr ptr;
  if bxxt_boot_img_version_check h =? BXXT_FAILED then Some (BXXT_FAILED, with_hdr b h)
  else
    let ps := hdr_page_size h in
    ke ← B_ps ps (hdr_kernel_size h);
    ra ← B_ps ps (hdr_ramdisk_size h);
    se ← B_ps ps (hdr_second_size h);
    re ← B_ps ps (hdr_recovery_dtbo_size h);
    dt ← B_ps ps (hdr_dtb_size h);
    let B_KE_o := ps in
    let B_RA_o := u32 (ps + ke) in
    let B_SE_o := u32 (ps + ke + ra) in
    let B_RE_o := u32 (ps + ke + ra + se) in
    let B_DT_o := u32 (ps + ke + ra + se + re) in
    let B_PAD_o := u32 (ps + ke + ra + se + re + dt) in
    compression ← bxxt_boot_detect_kernel_compression ptr B_KE_o;
    let pad_size := u32 (size - B_PAD_o) in
    pad_size ← trim_pad ptr B_PAD_o pad_size;
    let b := Boot h (kernel_dtb b) (dtb b) (Some ptr) (header_version h) ps compression
      (hdr_kernel_size h) B_KE_o (hdr_ramdisk_size h) B_RA_o (hdr_second_size h) B_SE_o
      (hdr_recovery_dtbo_size h) B_RE_o (hdr_dtb_size h) B_DT_o pad_size B_PAD_o in
    if bxxt_boot_img_base_check h =? BXXT_FAILED then Some (BXXT_FAILED, b)
    else
      c ← (if check then bxxt_boot_img_compat_check junk force_no_compat_check b
           else Some BXXT_SUCCESS);
      if c =? BXXT_FAILED then Some (BXXT_FAILED, b)
      else
        kdtb ← bxxt_boot_parse_dtb_sections ptr B_KE_o (hdr_kernel_size h);
        ddtb ← bxxt_boot_parse_dtb_sections ptr B_DT_o (hdr_dtb_size h);
        Some (BXXT_SUCCESS, with_dtbs b kdtb ddtb).

(** ** Names and version strings *)

Definition bxxt_boot_img_get_patchlevel_string (b : bxxt_boot) : bytes :=
  let i := os_version (hdr b) in
  fmt_0d 4 (2000 + Z.land (Z.shiftr i 4) 127) ++ str "-" ++
  fmt_0d 2 (Z.land (Z.shiftr i 0) 7) ++ str "-" ++ fmt_0d 2 0.

Definition bxxt_boot_img_get_osver_string (b : bxxt_boot) : bytes :=
  let i := os_version (hdr b) in
  let d := Z.land (Z.shiftr i (32 - 7 * 1)) 127 in
  let e := Z.land (Z.shiftr i (32 - 7 * 2)) 127 in
  let f := Z.land (Z.shiftr i (32 - 7 * 3)) 127 in
  fmt_d d ++ str "." ++ fmt_d e ++ str "." ++ fmt_d f.

Definition bxxt_boot_img_get_signature_string (b : bxxt_boot) : bytes :=
  concat (map (fmt_0X 2) (id (hdr b))).

(** ** Opening and writing files *)

Definition MODE_0644 := 420.

(** [bxxt_boot_open_file]: the file name is copied, the file is mapped, and
    the result says what the image descriptor is ([None] after an error). *)
Definition bxxt_boot_open_file (junk : bytes) (force_no_compat_check : bool)
    (b : bxxt_boot) (file : path) : M (Z * option bxxt_file * bxxt_boot) :=
  F ← lift (bxxt_file_new_mm file O_RDONLY MODE_0644);
  '(r, F) ← bxxt_file_open F;
  if negb (r =? 0) then
    u ← bxxt_file_close (Some F);
    mret (BXXT_FAILED, None, b)
  else
    p ← lift (match f_ptr F with MMapped m => Some m | _ => None end);
    '(r, b) ← lift (bxxt_boot_init1 junk force_no_compat_check b p (f_size F)
                      force_no_compat_check);
    if negb (r =? BXXT_SUCCESS) then
      u ← bxxt_file_close (Some F);
      mret (BXXT_FAILED, None, b)
    else mret (BXXT_SUCCESS, Some F, b).

(** A short write leaves the count as the result. *)
Definition bxxt_boot_write_to (m : bytes) (off size : Z) (file : path) : M Z :=
  df ← lift (bxxt_file_new file (Z.lor (Z.lor O_TRUNC O_WRONLY) O_CREAT) MODE_0644);
  '(r, df) ← bxxt_file_open df;
  if negb (r =? 0) then
    u ← bxxt_file_close (Some df);
    mret BXXT_FAILED
  else
    d ← lift (mread m off size);
    r ← write (f_fd df) d;
    let r := s32 r in
    u ← bxxt_file_close (Some df);
    mret (if u64 r =? size then BXXT_SUCCESS else r).

Definition bxxt_boot_read_from (junk : Z -> Z) (file : path) : M bxxt_buffer :=
  let buffer := bxxt_buffer_create 0 in
  sf ← lift (bxxt_file_new_mm file O_RDONLY MODE_0644);
  '(r, sf) ← bxxt_file_open sf;
  if negb (r =? 0) then
    u ← bxxt_file_close (Some sf);
    mret buffer
  else
    p ← lift (match f_ptr sf with MMapped m => Some m | _ => None end);
    '(n, buffer) ← lift (bxxt_buffer_concat_from_data junk buffer p (f_size sf));
    u ← bxxt_file_close (Some sf);
    mret buffer.

(** ** Vocabulary of the proofs *)

(** A header whose fields have their C types. *)
Record wf_hdr (h : boot_img_hdr) : Prop := {
  wf_widths : map length (hdr_fields h) = hdr_widths;
  wf_words : Forall is_u32
    [hdr_kernel_size h; kernel_addr h; hdr_ramdisk_size h; ramdisk_addr h; hdr_second_size h;
     second_addr h; tags_addr h; hdr_page_size h; header_version h; os_version h;
     hdr_recovery_dtbo_size h; header_size h; hdr_dtb_size h];
  wf_longs : Forall is_u64 [recovery_dtbo_offset h; dtb_addr h];
  wf_id : Forall is_byte (id h)
}.

(** The contents of the sections of an image. *)
Record sections := Sections {
  s_kernel : bytes; s_ramdisk : bytes; s_second : bytes;
  s_recovery : bytes; s_dtb : bytes; s_extra : bytes
}.

Definition section_list (s : sections) : list bytes :=
  [s_kernel s; s_ramdisk s; s_second s; s_recovery s; s_dtb s].

(** The image format: a header page, the sections padded to whole pages, and
    whatever follows. *)
Definition image (page : Z) (h : boot_img_hdr) (s : sections) : bytes :=
  pad_to page (hdr_bytes h) ++ concat (map (pad_to page) (section_list s)) ++ s_extra s.

(** The header describes the sections. *)
Record describes (h : boot_img_hdr) (s : sections) : Prop := {
  d_kernel : hdr_kernel_size h = blen (s_kernel s);
  d_ramdisk : hdr_ramdisk_size h = blen (s_ramdisk s);
  d_second : hdr_second_size h = blen (s_second s);
  d_recovery : hdr_recovery_dtbo_size h = blen (s_recovery s);
  d_dtb : hdr_dtb_size h = blen (s_dtb s)
}.

(** What the signature covers, by header version (AOSP's mkbootimg). *)
Definition signed (ver : Z) (s : sections) : bytes :=
  let part d := d ++ le_bytes 4 (blen d) in
  part (s_kernel s) ++ part (s_ramdisk s) ++ part (s_second s) ++
  (if 0 <? ver then part (s_recovery s) else []) ++
  (if 1 <? ver then part (s_dtb s) else []).

(** The index of the last non-zero byte, 0 if there is none. *)
Fixpoint last_nonzero (p : bytes) : Z :=
  match p with
  | [] => 0
  | b :: p =>
      let r := last_nonzero p in
      if existsb (fun b => negb (b =? 0)) p then 1 + r else 0
  end.

(** A device tree blob: the magic, its own size, and a complete header. *)
Definition is_dtb (d : bytes) : Prop :=
  take 4 d = FDT_MAGIC_bytes /\ 24 <= blen d < 2 ^ 32 /\
  be_val (take 4 (drop 4 d)) = blen d.

Fixpoint dtb_entries (off : Z) (ds : list bytes) : list (Z * Z) :=
  match ds with
  | [] => []
  | d :: ds => (off, blen d) :: dtb_entries (off + blen d) ds
  end.

(** Offset of section [n]. *)
Definition section_off (page : Z) (s : sections) (n : nat) : Z :=
  page + blen (concat (map (pad_to page) (take n (section_list s)))).

Record well_formed (h : boot_img_hdr) (s : sections) : Prop := {
  wfi_hdr : wf_hdr h;
  wfi_desc : describes h s;
  wfi_magic : magic h = BOOT_MAGIC;
  wfi_version : header_version h <= 2;
  wfi_page : sizeof_hdr <= hdr_page_size h <= 0xffff;
  wfi_kernel : 0 < blen (s_kernel s) <= 0x4000000;
  wfi_ramdisk : blen (s_ramdisk s) <= 0x4000000;
  wfi_size : blen (image (hdr_page_size h) h s) < 2 ^ 31
}.

Definition layout (b : bxxt_boot) (h : boot_img_hdr) (s : sections) (m : bytes) (compr : Z)
    : bxxt_boot :=
  let off := section_off (hdr_page_size h) s in
  Boot h (kernel_dtb b) (dtb b) (Some m) (header_version h) (hdr_page_size h) compr
    (blen (s_kernel s)) (off 0%nat) (blen (s_ramdisk s)) (off 1%nat)
    (blen (s_second s)) (off 2%nat) (blen (s_recovery s)) (off 3%nat)
    (blen (s_dtb s)) (off 4%nat) (last_nonzero (s_extra s)) (off 5%nat).

(** Reading the compression never fails, and depends on the kernel only. *)
Definition compression_of (page : Z) (kernel : bytes) : Z :=
  default 0 (bxxt_boot_detect_kernel_compression (pad_to page kernel) 0).

(** The end of [bxxt_boot_init1], from the checks on. *)
Definition finish_init1 (junk : bytes) (f check : bool) (b : bxxt_boot) (m : bytes)
    : option (Z * bxxt_boot) :=
  c ← (if check then bxxt_boot_img_compat_check junk f b else Some BXXT_SUCCESS);
  if c =? BXXT_FAILED then Some (BXXT_FAILED, b)
  else
    kdtb ← bxxt_boot_parse_dtb_sections m (mm_kernel_ptr b) (kernel_size b);
    ddtb ← bxxt_boot_parse_dtb_sections m (mm_dtb_ptr b) (dtb_size b);
    Some (BXXT_SUCCESS, with_dtbs b kdtb ddtb).

(** The descriptor's section fields point at the sections. *)
Record points_at (b : bxxt_boot) (m : bytes) (s : sections) : Prop := {
  p_mm : mm b = Some m;
  p_kernel : kernel_size b = blen (s_kernel s) /\
    mread m (mm_kernel_ptr b) (kernel_size b) = Some (s_kernel s);
  p_ramdisk : ramdisk_size b = blen (s_ramdisk s) /\
    mread m (mm_ramdisk_ptr b) (ramdisk_size b) = Some (s_ramdisk s);
  p_second : second_size b = blen (s_second s) /\
    mread m (mm_second_ptr b) (second_size b) = Some (s_second s);
  p_recovery : recovery_dtbo_size b = blen (s_recovery s) /\
    mread m (mm_recovery_dtbo_ptr b) (recovery_dtbo_size b) = Some (s_recovery s);
  p_dtb : dtb_size b = blen (s_dtb s) /\
    mread m (mm_dtb_ptr b) (dtb_size b) = Some (s_dtb s)
}.

(** Sections made of bytes, each below 2 GiB. *)
Definition section_ok (d : bytes) : Prop := Forall is_byte d /\ blen d < 2 ^ 31.

(** A section that is code followed by device tree blobs. *)
Record code_and_blobs (d : bytes) (code : bytes) (ds : list bytes) : Prop := {
  cb_split : d = code ++ concat ds;
  cb_first : find_bytes FDT_MAGIC_bytes d =
             match ds with [] => None | _ => Some (blen code) end;
  cb_blobs : Forall is_dtb ds;
  cb_count : blen ds <= BOOT_MAX_DTB
}.

(** A small image: a kernel with an appended device tree, a ramdisk, a dtb
    section and trailing data. *)
Definition sample_blob : bytes := FDT_MAGIC_bytes ++ be_bytes 4 28 ++ zeros 12 ++ be_bytes 4 17 ++ str "dtdt".
Definition sample_code : bytes := str "KERNEL".
Definition sample_sections : sections :=
  Sections (sample_code ++ sample_blob) (str "ramdisk") [] [] sample_blob [1; 2; 0; 3; 0; 0].
Definition sample_hdr : boot_img_hdr :=
  Hdr BOOT_MAGIC 34 0x8000 7 0x1000000 0 0 0x100 2048 2 0 (zeros 16) (zeros 512) (zeros 32)
    (zeros 1024) 0 0 1660 28 0.

(** ** The header *)

Lemma split_fields_concat fs rest :
  split_fields (map length fs) (concat fs ++ rest) = fs.
Proof.
  induction fs as [|f fs IH]; [done|]. cbn [map split_fields concat].
  by rewrite <- app_assoc, take_app_length, drop_app_length, IH.
Qed.

Lemma le_val_u32 n : is_u32 n -> le_val (le_bytes 4 n) = n.
Proof. intros H. rewrite le_val_le_bytes. by apply Z.mod_small. Qed.
Lemma le_val_u64 n : is_u64 n -> le_val (le_bytes 8 n) = n.
Proof. intros H. rewrite le_val_le_bytes. by apply Z.mod_small. Qed.

Lemma hdr_of_fields_ok h : wf_hdr h -> hdr_of_fields (hdr_fields h) = Some h.
Proof.
  intros [_ Hw Hl _]. unfold hdr_fields, hdr_of_fields.
  repeat (apply Forall_cons in Hw as [? Hw]). repeat (apply Forall_cons in Hl as [? Hl]).
  rewrite !le_val_u32, !le_val_u64 by done. by destruct h.
Qed.

Lemma length_concat_sum {A} (fs : list (list A)) : length (concat fs) = sum_list (map length fs).
Proof. induction fs as [|f fs IH]; [done|]. cbn. by rewrite length_app, IH. Qed.

Lemma hdr_bytes_len h : wf_hdr h -> blen (hdr_bytes h) = sizeof_hdr.
Proof.
  intros Hw. unfold blen, hdr_bytes. rewrite length_concat_sum, (wf_widths h Hw). done.
Qed.

(** The packed header decodes to itself, whatever follows. *)
Lemma read_hdr_bytes h rest : wf_hdr h -> read_hdr (hdr_bytes h ++ rest) = Some h.
Proof.
  intros Hw. unfold read_hdr. rewrite <- (hdr_bytes_len h Hw).
  pose proof (mread_app [] (hdr_bytes h) rest) as Hr. change (blen []) with 0 in Hr.
  simpl app in Hr. rewrite Hr. cbn [mbind option_bind].
  rewrite <- (wf_widths h Hw), <- (app_nil_r (hdr_bytes h)). unfold hdr_bytes.
  rewrite split_fields_concat. by apply hdr_of_fields_ok.
Qed.

(** ** Padding of sections *)

Lemma B_ps_pad page d :
  0 < page -> blen d + page < 2 ^ 32 -> B_ps page (blen d) = Some (blen (pad_to page d)).
Proof.
  intros Hp Hd. unfold B_ps. replace (page =? 0) with false by lia.
  pose proof (pad_to_ge page d Hp). pose proof (blen_nonneg d).
  rewrite (u32_small (_ - 1)) by word_solve.
  rewrite <- pad_to_blen by done. rewrite u32_small; [done|]. word_solve.
Qed.

Lemma pad_to_page page d : 0 < blen d <= page -> blen (pad_to page d) = page.
Proof.
  intros Hd. rewrite pad_to_blen by lia.
  rewrite <- (Z.div_unique (blen d + page - 1) page 1 (blen d - 1)); lia.
Qed.

Lemma mread_pad m page d k : mread (m ++ pad_to page d ++ k) (blen m) (blen d) = Some d.
Proof. unfold pad_to. rewrite <- app_assoc. apply mread_app. Qed.

(** ** The trailing data *)

Lemma last_nonzero_snoc p b :
  last_nonzero (p ++ [b]) = if b =? 0 then last_nonzero p else blen p.
Proof.
  induction p as [|a p IH]; cbn [app last_nonzero].
  { simpl. by destruct (b =? 0). }
  rewrite IH, existsb_app. cbn [existsb]. rewrite orb_false_r, blen_cons.
  destruct (b =? 0); cbn [negb]; [by rewrite orb_false_r|by rewrite orb_true_r].
Qed.

Lemma last_nonzero_range p : 0 <= last_nonzero p < blen p \/ p = [] /\ last_nonzero p = 0.
Proof.
  induction p as [|a p IH]; [by right|]. left. cbn [last_nonzero]. rewrite blen_cons.
  pose proof (blen_nonneg p).
  destruct (existsb _ p) eqn:E; [|lia]. destruct IH as [|[-> ->]]; [lia|done].
Qed.

Lemma mread_byte m b k : mread (m ++ b :: k) (blen m) 1 = Some [b].
Proof. apply (mread_app m [b] k). Qed.

(** The loop from the last byte of [p] down to its start. *)
Lemma trim_loop_spec fuel m p k :
  (length p < fuel)%nat -> p <> [] ->
  trim_loop fuel (m ++ p ++ k) (blen m) (blen p - 1) = Some (last_nonzero p).
Proof.
  revert fuel k. induction p as [|b p IH] using rev_ind; [done|]. intros fuel k Hf _.
  rewrite length_app in Hf. simpl length in Hf. destruct fuel as [|fuel]; [lia|].
  cbn [trim_loop]. rewrite blen_app. change (blen [b]) with 1.
  replace (blen p + 1 - 1) with (blen p) by lia. rewrite last_nonzero_snoc.
  destruct (Z.eqb_spec (blen p) 0) as [E|E].
  - destruct p as [|a p]; [|rewrite blen_cons in E; pose proof (blen_nonneg p); lia].
    simpl. by destruct (b =? 0).
  - rewrite <- (blen_app m p), <- (app_assoc p), (app_assoc m). cbn [app].
    rewrite mread_byte. cbn [mbind option_bind]. change (le_val [b]) with (b + 256 * 0).
    rewrite Z.add_0_r. destruct (b =? 0); [|done]. rewrite <- app_assoc. apply IH; [lia|].
    by intros ->.
Qed.

Lemma trim_pad_nonempty m p k :
  p <> [] -> blen p < 2 ^ 31 ->
  trim_pad (m ++ p ++ k) (blen m) (blen p) = Some (last_nonzero p).
Proof.
  intros Hp Hl. unfold trim_pad.
  assert (0 < blen p) by (destruct p; [done|]; rewrite blen_cons; pose proof (blen_nonneg p); lia).
  rewrite s32_small by lia. rewrite trim_loop_spec by (rewrite ?length_app; done || lia).
  cbn [mbind option_bind]. replace (blen p =? 0) with false by lia. f_equal.
  pose proof (last_nonzero_range p). apply u32_small. unfold is_u32. word_solve.
Qed.

(** With no data left the loop starts one byte before the end of the image and
    stops at its last non-zero byte: the magic stops it. *)
Lemma trim_loop_back fuel p k pad ts :
  (length p < fuel)%nat -> ts < 0 -> pad + ts = blen p - 1 ->
  existsb (fun b => negb (b =? 0)) p = true ->
  exists r, trim_loop fuel (p ++ k) pad ts = Some r.
Proof.
  revert fuel k ts. induction p as [|b p IH] using rev_ind; [done|].
  intros fuel k ts Hf Ht Hp He. rewrite length_app in Hf. simpl length in Hf.
  destruct fuel as [|fuel]; [lia|]. cbn [trim_loop].
  replace (ts =? 0) with false by lia. rewrite blen_app in Hp. change (blen [b]) with 1 in Hp.
  replace (pad + ts) with (blen p) by lia. rewrite <- app_assoc. cbn [app].
  rewrite mread_byte. cbn [mbind option_bind]. change (le_val [b]) with (b + 256 * 0).
  rewrite Z.add_0_r. rewrite existsb_app in He. cbn [existsb] in He.
  destruct (b =? 0); [|by eexists]. cbn [negb] in He. rewrite !orb_false_r in He.
  apply IH; [lia|lia|lia|done].
Qed.

Lemma trim_pad_empty p k :
  existsb (fun b => negb (b =? 0)) p = true -> trim_pad (p ++ k) (blen p) 0 = Some 0.
Proof.
  intros He. unfold trim_pad. change (s32 (0 - 1)) with (-1).
  destruct (trim_loop_back (length (p ++ k) + 2) p k (blen p) (-1)) as [r ->];
    [rewrite length_app; lia|lia|lia|done|]. done.
Qed.

Lemma trim_pad_spec m p k :
  existsb (fun b => negb (b =? 0)) m = true -> blen p < 2 ^ 31 ->
  trim_pad (m ++ p ++ k) (blen m) (blen p) = Some (last_nonzero p).
Proof.
  intros He Hl. destruct (decide (p = [])) as [->|Hp]; [|by apply trim_pad_nonempty].
  by apply trim_pad_empty.
Qed.

(** ** Device trees *)

(** The table bounds the rounds: the search is over, one way or another, and more
    rounds change nothing. *)
Lemma parse_dtb_over fuel mm stop base acc :
  (256 <= fuel + length acc)%nat -> (length acc <= 255)%nat ->
  (forall dtb, parse_dtb_loop fuel mm stop base acc <> Searching dtb) /\
  forall k, parse_dtb_loop (fuel + k) mm stop base acc = parse_dtb_loop fuel mm stop base acc.
Proof.
  revert base acc. induction fuel as [|fuel IH]; intros base acc Hf Ha; [lia|].
  cbn [parse_dtb_loop Nat.add].
  destruct (u32 (stop - base) =? 0); [done|].
  destruct (memmem _ _ _ _) as [[p|]|]; [|done|done].
  destruct (mread mm (p + 4) 4); [|done]. destruct (mread mm (p + 20) 4); [|done].
  destruct (Z.leb_spec BOOT_MAX_DTB (blen acc)) as [|Hlt]; [done|].
  unfold BOOT_MAX_DTB, blen in Hlt.
  apply IH; rewrite length_app; simpl; lia.
Qed.

(** The entries are blobs: each begins with the magic number and has the size it
    claims. *)
Definition dtb_entry (mm : bytes) (e : Z * Z) : Prop :=
  mread mm e.1 4 = Some FDT_MAGIC_bytes /\ exists w, mread mm (e.1 + 4) 4 = Some w /\ e.2 = be_val w.

Lemma is_prefix_split n s : is_prefix n s = true -> exists b, s = n ++ b.
Proof.
  revert s. induction n as [|x n IH]; intros s H; [by exists s|]. destruct s as [|y s]; [done|].
  cbn [is_prefix] in H. apply andb_prop in H as [Hx Hn]. apply Z.eqb_eq in Hx as <-.
  destruct (IH s Hn) as [b ->]. by exists b.
Qed.

Lemma find_bytes_split n s i : find_bytes n s = Some i -> exists a b, s = a ++ n ++ b /\ i = blen a.
Proof.
  revert i. induction s as [|x s IH]; intros i; cbn [find_bytes];
    destruct (is_prefix n _) eqn:E; try done.
  1,2: intros [= <-]; apply is_prefix_split in E as [b ->]; by exists [], b.
  destruct (find_bytes n s) as [j|]; [|done]. intros [= <-].
  destruct (IH j eq_refl) as (a & b & -> & ->). exists (x :: a), b. split; [done|].
  by rewrite blen_cons, Z.add_comm.
Qed.

Lemma mread_split m off len w : mread m off len = Some w -> exists a b, m = a ++ w ++ b /\ off = blen a.
Proof.
  unfold mread. case_match eqn:E; [|done]. intros [= <-].
  exists (take (Z.to_nat off) m), (drop (Z.to_nat len) (drop (Z.to_nat off) m)).
  split; [by rewrite !take_drop|]. unfold blen in *. rewrite length_take. lia.
Qed.

Lemma memmem_found m off len n p : memmem m off len n = Some (Some p) -> mread m p (blen n) = Some n.
Proof.
  unfold memmem. destruct (mread m off len) as [w|] eqn:Ew; [|done]. cbn [mbind option_bind].
  destruct (find_bytes n w) as [i|] eqn:Ei; [|done]. intros [= <-].
  apply mread_split in Ew as (a & b & -> & ->). apply find_bytes_split in Ei as (c & d & -> & ->).
  rewrite <- blen_app. replace (a ++ (c ++ n ++ d) ++ b) with ((a ++ c) ++ n ++ (d ++ b))
    by (by rewrite <- !app_assoc). apply mread_app.
Qed.

Lemma parse_dtb_entries fuel mm stop base acc dtb :
  Forall (dtb_entry mm) acc -> blen acc <= BOOT_MAX_DTB ->
  parse_dtb_loop fuel mm stop base acc = DtbFound dtb \/
    parse_dtb_loop fuel mm stop base acc = TableFull dtb ->
  Forall (dtb_entry mm) dtb /\ blen dtb <= BOOT_MAX_DTB.
Proof.
  revert base acc. induction fuel as [|fuel IH]; intros base acc Ha Hn; cbn [parse_dtb_loop].
  { by intros [H|H]. }
  destruct (u32 (stop - base) =? 0); [by intros [[= <-]|H]|].
  destruct (memmem _ _ _ _) as [[p|]|] eqn:Em; [|by intros [[= <-]|H]|by intros [H|H]].
  destruct (mread mm (p + 4) 4) as [w|] eqn:Ew; [|by intros [H|H]].
  destruct (mread mm (p + 20) 4); [|by intros [H|H]].
  destruct (Z.leb_spec BOOT_MAX_DTB (blen acc)); [by intros [H'|[= <-]]|].
  apply IH; [|rewrite blen_app; change (blen [_]) with 1; lia].
  apply Forall_app_2; [done|]. apply Forall_cons_2; [|by apply Forall_nil_2].
  split; [exact (memmem_found _ _ _ _ _ Em)|by exists w].
Qed.

Lemma is_prefix_app p s : is_prefix p (p ++ s) = true.
Proof. induction p as [|a p IH]; [done|]. cbn. by rewrite Z.eqb_refl, IH. Qed.

Lemma find_bytes_here p s : find_bytes p (p ++ s) = Some 0.
Proof. destruct p as [|a p]; [by destruct s|]. cbn [find_bytes app].
  change (a :: p ++ s) with ((a :: p) ++ s). by rewrite is_prefix_app. Qed.

Lemma memmem_app m w k n i :
  find_bytes n w = i ->
  memmem (m ++ w ++ k) (blen m) (blen w) n =
    Some (match i with Some i => Some (blen m + i) | None => None end).
Proof. intros <-. unfold memmem. rewrite mread_app. done. Qed.

Lemma mread_in m d k off len :
  0 <= off -> 0 <= len -> off + len <= blen d ->
  mread (m ++ d ++ k) (blen m + off) len = Some (take (Z.to_nat len) (drop (Z.to_nat off) d)).
Proof.
  intros H1 H2 H3. unfold blen in H3. pose proof (blen_nonneg m).
  rewrite mread_Some; rewrite ?blen_app; unfold blen in *; [|lia..].
  f_equal. replace (Z.to_nat (Z.of_nat (length m) + off)) with (length m + Z.to_nat off)%nat by lia.
  rewrite <- drop_drop, drop_app_length.
  rewrite drop_app_le by lia. rewrite take_app_le; [done|]. rewrite length_drop. lia.
Qed.

(** One round: code without the magic, then a blob. *)
Lemma parse_dtb_step fuel m code d rest k acc :
  find_bytes FDT_MAGIC_bytes (code ++ d ++ rest) = Some (blen code) -> is_dtb d ->
  blen (code ++ d ++ rest) < 2 ^ 32 -> blen acc < BOOT_MAX_DTB ->
  parse_dtb_loop (S fuel) (m ++ code ++ d ++ rest ++ k)
      (blen m + blen (code ++ d ++ rest)) (blen m) acc =
    parse_dtb_loop fuel (m ++ code ++ d ++ rest ++ k)
      (blen m + blen (code ++ d ++ rest)) (blen m + blen code + blen d)
      (acc ++ [(blen m + blen code, blen d)]).
Proof.
  intros Hfind (Hm & Hlen & Hsz) Hl Hc. cbn [parse_dtb_loop].
  replace (blen m + blen (code ++ d ++ rest) - blen m) with (blen (code ++ d ++ rest)) by lia.
  rewrite !blen_app in *. pose proof (blen_nonneg code). pose proof (blen_nonneg rest).
  rewrite u32_small by (unfold is_u32; lia). replace (_ =? 0) with false by lia.
  pose proof (memmem_app m (code ++ d ++ rest) k FDT_MAGIC_bytes (Some (blen code)) Hfind) as Hmm.
  rewrite !blen_app, <- !app_assoc in Hmm. rewrite Hmm.
  rewrite (app_assoc m code), <- !(blen_app m code).
  rewrite (mread_in (m ++ code) d) by lia. rewrite (mread_in (m ++ code) d) by lia.
  change (Z.to_nat 4) with 4%nat. rewrite Hsz.
  replace (BOOT_MAX_DTB <=? blen acc) with false by lia. done.
Qed.

Lemma find_dtb d rest : is_dtb d -> find_bytes FDT_MAGIC_bytes (d ++ rest) = Some 0.
Proof. intros (Hm & _). rewrite <- (take_drop 4 d), Hm, <- app_assoc. apply find_bytes_here. Qed.

Lemma parse_dtb_blobs fuel m ds k acc :
  Forall is_dtb ds -> blen (concat ds) < 2 ^ 32 ->
  (length ds < fuel)%nat -> blen acc + blen ds <= BOOT_MAX_DTB ->
  parse_dtb_loop fuel (m ++ concat ds ++ k) (blen m + blen (concat ds)) (blen m) acc =
    DtbFound (acc ++ dtb_entries (blen m) ds).
Proof.
  intros Hds. revert fuel m acc. induction Hds as [|d ds Hd Hds IH]; intros fuel m acc Hl Hf Hc;
    (destruct fuel as [|fuel]; [simpl in Hf; lia|]).
  - cbn [parse_dtb_loop concat].
    change (blen []) with 0. replace (blen m + 0 - blen m) with 0 by lia.
    change (u32 0 =? 0) with true. by rewrite app_nil_r.
  - cbn [concat]. rewrite blen_cons in Hc. pose proof (blen_nonneg ds).
    pose proof (parse_dtb_step fuel m [] d (concat ds) k acc) as Hs. cbn [app] in Hs.
    rewrite <- (app_assoc d), Hs; [|by apply find_dtb|done|done|lia]. clear Hs.
    change (blen (@nil Z)) with 0. rewrite Z.add_0_r.
    replace (blen m + blen (d ++ concat ds)) with (blen (m ++ d) + blen (concat ds))
      by (rewrite !blen_app; lia).
    cbn [dtb_entries]. rewrite <- (blen_app m d).
    specialize (IH fuel (m ++ d) (acc ++ [(blen m, blen d)])).
    rewrite <- !app_assoc in IH. cbn [app] in IH.
    cbn [concat] in Hl. rewrite blen_app in Hl. pose proof (blen_nonneg d).
    apply IH; [lia|simpl in Hf; lia|]. rewrite blen_app. change (blen [_]) with 1. lia.
Qed.

(** The kernel section: code with no magic in it, then the blobs. *)
Lemma parse_dtb_section m code ds k :
  find_bytes FDT_MAGIC_bytes (code ++ concat ds) =
    match ds with [] => None | _ => Some (blen code) end ->
  Forall is_dtb ds -> blen ds <= BOOT_MAX_DTB -> blen (code ++ concat ds) < 2 ^ 32 ->
  bxxt_boot_parse_dtb_sections (m ++ (code ++ concat ds) ++ k) (blen m) (blen (code ++ concat ds)) =
    Some (dtb_entries (blen m + blen code) ds).
Proof.
  intros Hfind Hds Hn Hl. unfold bxxt_boot_parse_dtb_sections.
  assert (exists f, 256%nat = S f /\ (255 <= f)%nat) as (f & -> & Hfuel) by (exists 255%nat; lia).
  pose proof (blen_nonneg code) as Hc0. destruct Hds as [|d ds Hd Hds].
  - cbn [concat] in *. rewrite app_nil_r in *.
    cbn [parse_dtb_loop]. replace (blen m + blen code - blen m) with (blen code) by lia.
    rewrite u32_small by (split; [done|lia]). destruct (blen code =? 0); [done|].
    by rewrite (memmem_app m code k FDT_MAGIC_bytes None).
  - cbn [concat] in *. rewrite <- !(app_assoc code), <- (app_assoc d).
    rewrite parse_dtb_step; [|done..].
    replace (blen m + blen (code ++ d ++ concat ds))
      with (blen (m ++ code ++ d) + blen (concat ds)) by (rewrite !blen_app; lia).
    replace (blen m + blen code + blen d) with (blen (m ++ code ++ d)) by (rewrite !blen_app; lia).
    replace (m ++ code ++ d ++ concat ds ++ k) with ((m ++ code ++ d) ++ concat ds ++ k)
      by (by rewrite <- !app_assoc).
    rewrite !blen_app in Hl. rewrite blen_cons in Hn. pose proof (blen_nonneg d).
    pose proof (blen_nonneg (concat ds)).
    unfold BOOT_MAX_DTB in Hn.
    rewrite parse_dtb_blobs; [|done|lia|unfold blen in Hn; lia|cbn [app]; rewrite blen_cons, blen_nil; unfold BOOT_MAX_DTB; lia].
    rewrite !blen_app. cbn [app dtb_entries]. do 3 f_equal. lia.
Qed.

(** A blob that claims no size is found again for ever: the table of 255
    entries overflows. *)
Lemma parse_dtb_stuck fuel m d k acc :
  find_bytes FDT_MAGIC_bytes d = Some 0 -> 24 <= blen d < 2 ^ 32 ->
  be_val (take 4 (drop 4 d)) = 0 -> (length acc + fuel >= 256)%nat ->
  (length acc <= 255)%nat ->
  parse_dtb_loop fuel (m ++ d ++ k) (blen m + blen d) (blen m) acc =
    TableFull (acc ++ replicate (255 - length acc) (blen m, 0)).
Proof.
  intros Hfind Hlen Hsz. revert acc. induction fuel as [|fuel IH]; intros acc Hf Ha; [lia|].
  cbn [parse_dtb_loop]. replace (blen m + blen d - blen m) with (blen d) by lia.
  rewrite u32_small by (unfold is_u32; lia). replace (blen d =? 0) with false by lia.
  rewrite (memmem_app m d k _ _ Hfind). cbn [mbind option_bind]. rewrite Z.add_0_r.
  rewrite (mread_in m d) by lia. rewrite (mread_in m d) by lia. cbn [mbind option_bind].
  change (Z.to_nat 4) with 4%nat. rewrite Hsz.
  unfold BOOT_MAX_DTB, blen. destruct (Z.leb_spec 255 (Z.of_nat (length acc))).
  { replace (255 - length acc)%nat with O by lia. by rewrite app_nil_r. }
  rewrite Z.add_0_r, IH by (rewrite length_app; simpl; lia). rewrite length_app, <- app_assoc. simpl.
  by replace (255 - length acc)%nat with (S (255 - (length acc + 1))) by lia.
Qed.

(** ** The layout of an image *)

Lemma image_section n page h s k d :
  wf_hdr h -> sizeof_hdr <= page -> section_list s !! n = Some d ->
  exists m r, image page h s ++ k = m ++ pad_to page d ++ r /\ blen m = section_off page s n.
Proof.
  intros Hw Hp Hn. exists (pad_to page (hdr_bytes h) ++ concat (map (pad_to page) (take n (section_list s)))).
  exists (concat (map (pad_to page) (drop (S n) (section_list s))) ++ s_extra s ++ k). split.
  - unfold image. rewrite <- (take_drop_middle _ _ _ Hn) at 1.
    rewrite map_app, concat_app. cbn [map concat]. by rewrite <- !app_assoc.
  - rewrite blen_app, pad_to_page; [done|]. rewrite hdr_bytes_len by done.
    unfold sizeof_hdr in *. lia.
Qed.

(** Each section is read back at its offset. *)
Lemma image_mread n page h s k d :
  wf_hdr h -> sizeof_hdr <= page -> section_list s !! n = Some d ->
  mread (image page h s ++ k) (section_off page s n) (blen d) = Some d.
Proof.
  intros Hw Hp Hn. destruct (image_section n page h s k d) as (m & r & -> & <-); [done..|].
  apply mread_pad.
Qed.

Lemma section_off_S n page s d :
  section_list s !! n = Some d ->
  section_off page s (S n) = section_off page s n + blen (pad_to page d).
Proof.
  intros Hn. unfold section_off. rewrite (take_S_r _ _ _ Hn), map_app, concat_app, blen_app.
  cbn [map concat]. rewrite app_nil_r. lia.
Qed.

Lemma section_off_0 page s : section_off page s 0 = page.
Proof. unfold section_off. change (page + 0 = page). lia. Qed.

Lemma image_blen page h s :
  wf_hdr h -> sizeof_hdr <= page -> blen (image page h s) = section_off page s 5 + blen (s_extra s).
Proof.
  intros Hw Hp. unfold image, section_off. rewrite !blen_app, pad_to_page;
    [|rewrite hdr_bytes_len by done; unfold sizeof_hdr in *; lia].
  rewrite (take_ge (section_list s)) by (simpl; lia). lia.
Qed.

Lemma image_compression page h s k :
  wf_hdr h -> sizeof_hdr <= page -> 0 < blen (s_kernel s) ->
  bxxt_boot_detect_kernel_compression (image page h s ++ k) page =
    Some (compression_of page (s_kernel s)).
Proof.
  intros Hw Hp Hk. unfold compression_of, bxxt_boot_detect_kernel_compression.
  destruct (image_section 0 page h s k (s_kernel s)) as (m & r & -> & Hm); [done..|].
  rewrite section_off_0 in Hm.
  assert (2 <= blen (pad_to page (s_kernel s))).
  { pose proof (pad_to_ge page (s_kernel s)). pose proof (pad_to_blen page (s_kernel s)).
    unfold sizeof_hdr in *. assert (1 <= (blen (s_kernel s) + page - 1) / page); [|nia].
    apply Z.div_le_lower_bound; lia. }
  pose proof (mread_in m (pad_to page (s_kernel s)) r 0 2) as Hr.
  rewrite Hm, Z.add_0_r in Hr. rewrite Hr by lia. by rewrite mread_Some by lia.
Qed.

Lemma image_nonzero page h s :
  magic h = BOOT_MAGIC -> existsb (fun b => negb (b =? 0)) (image page h s) = true.
Proof.
  intros Hm. unfold image, pad_to, hdr_bytes. cbn [hdr_fields concat].
  rewrite Hm. done.
Qed.

Lemma B_ps_section n page h s d :
  section_list s !! n = Some d -> blen (image page h s) < 2 ^ 31 -> sizeof_hdr <= page <= 0xffff ->
  wf_hdr h -> B_ps page (blen d) = Some (blen (pad_to page d)) /\
  0 <= section_off page s n /\ section_off page s (S n) <= blen (image page h s).
Proof.
  intros Hn Hl Hp Hw.
  destruct (image_section n page h s [] d) as (m & r & He & Hm); [lia || done..|].
  rewrite app_nil_r in He. rewrite (section_off_S n page s d Hn), <- Hm, He, !blen_app.
  rewrite He, !blen_app in Hl. pose proof (blen_nonneg m). pose proof (blen_nonneg r).
  pose proof (pad_to_ge page d). unfold sizeof_hdr in *.
  split; [|lia]. apply B_ps_pad; lia.
Qed.

Lemma checks_pass h s :
  well_formed h s ->
  (bxxt_boot_img_version_check h =? BXXT_FAILED) = false /\
  (bxxt_boot_img_base_check h =? BXXT_FAILED) = false.
Proof.
  intros [Hw [Hk Hr _ _ _] Hm Hv Hp Hks Hrs _].
  unfold bxxt_boot_img_version_check, bxxt_boot_img_base_check.
  rewrite bool_decide_true by done. cbn [negb].
  replace (header_version h <=? 2) with true by lia. rewrite Hk, Hr.
  unfold sizeof_hdr in *.
  replace (hdr_page_size h =? 0) with false by lia.
  replace (blen (s_kernel s) =? 0) with false by lia.
  replace (0x4000000 <? blen (s_ramdisk s)) with false by lia.
  replace (0x4000000 <? blen (s_kernel s)) with false by lia.
  by replace (0xffff <? hdr_page_size h) with false by lia.
Qed.

Lemma read_hdr_image page h s k : wf_hdr h -> read_hdr (image page h s ++ k) = Some h.
Proof.
  intros Hw. unfold image, pad_to at 1. rewrite <- !app_assoc. by apply read_hdr_bytes.
Qed.

Lemma trim_pad_image page h s k :
  wf_hdr h -> magic h = BOOT_MAGIC -> sizeof_hdr <= page -> blen (s_extra s) < 2 ^ 31 ->
  trim_pad (image page h s ++ k) (section_off page s 5) (blen (s_extra s)) =
    Some (last_nonzero (s_extra s)).
Proof.
  intros Hw Hm Hp Hl. pose proof (image_blen page h s Hw Hp) as Hb.
  assert (exists m, image page h s = m ++ s_extra s /\
            existsb (fun b => negb (b =? 0)) m = true) as (m & He & Hz).
  { eexists. split; [unfold image; by rewrite app_assoc|].
    pose proof (image_nonzero page h (Sections (s_kernel s) (s_ramdisk s) (s_second s)
      (s_recovery s) (s_dtb s) []) Hm) as Hz.
    unfold image in Hz. cbn [s_extra] in Hz. by rewrite app_nil_r in Hz. }
  rewrite He, blen_app in Hb. replace (section_off page s 5) with (blen m) by lia.
  rewrite He, <- app_assoc. by apply trim_pad_spec.
Qed.

Lemma init1_image junk f check b h s k :
  well_formed h s ->
  let m := image (hdr_page_size h) h s ++ k in
  bxxt_boot_init1 junk f b m (blen (image (hdr_page_size h) h s)) check =
    finish_init1 junk f check
      (layout b h s m (compression_of (hdr_page_size h) (s_kernel s))) m.
Proof.
  intros Hwf m. destruct (checks_pass h s Hwf) as [Hv Hb].
  destruct Hwf as [Hw [Hk Hr Hs Hre Hd] Hm _ Hp Hks Hrs Hsz].
  unfold bxxt_boot_init1, m. set (page := hdr_page_size h) in *.
  rewrite read_hdr_image by done. cbn [mbind option_bind]. rewrite Hv.
  rewrite Hk, Hr, Hs, Hre, Hd. fold page.
  pose proof (fun n d Hn => conj (B_ps_section n page h s d Hn Hsz Hp Hw)
                               (section_off_S n page s d Hn)) as Hsec.
  destruct (Hsec 0%nat _ eq_refl) as [[-> H0] E0].
  destruct (Hsec 1%nat _ eq_refl) as [[-> H1] E1].
  destruct (Hsec 2%nat _ eq_refl) as [[-> H2] E2].
  destruct (Hsec 3%nat _ eq_refl) as [[-> H3] E3].
  destruct (Hsec 4%nat _ eq_refl) as [[-> H4] E4].
  cbn [mbind option_bind]. clear Hsec.
  pose proof (section_off_0 page s) as Ep. rewrite Ep in E0. rewrite <- E0, <- E1, <- E2, <- E3, <- E4.
  pose proof (image_blen page h s Hw (proj1 Hp)) as Hlen.
  pose proof (blen_nonneg (s_extra s)). pose proof (blen_nonneg (pad_to page (s_dtb s))).
  rewrite !(u32_small (section_off _ _ _)) by word_solve.
  rewrite image_compression by (done || lia). cbn [mbind option_bind].
  replace (blen (image page h s) - section_off page s 5) with (blen (s_extra s)) by lia.
  rewrite (u32_small (blen _)) by word_solve.
  rewrite trim_pad_image by (done || lia). cbn [mbind option_bind]. rewrite Hb.
  unfold layout, finish_init1. fold page. rewrite Ep. done.
Qed.

(** ** The signature *)

Lemma update_mem_repr ctx x m off d :
  repr ctx x -> mread m off (blen d) = Some d -> Forall is_byte d -> blen d < 2 ^ 31 ->
  exists c, update_mem ctx m off (blen d) = Some c /\ repr c (x ++ d).
Proof.
  intros Hr Hm Hd Hl. unfold update_mem. rewrite Hm. cbn [mbind option_bind].
  apply update_repr; [done..|lia].
Qed.

Lemma update_word_repr ctx x n :
  repr ctx x -> exists c, update_word ctx n = Some c /\ repr c (x ++ le_bytes 4 n).
Proof.
  intros Hr. unfold update_word.
  destruct (update_repr ctx x (le_bytes 4 n) Hr) as (c & E & H); [auto with words|done|].
  exists c. by rewrite blen_le_bytes in E.
Qed.

(** The word after a section that is hashed only when it is not empty. *)
Lemma update_opt_repr ctx x m off d :
  repr ctx x -> mread m off (blen d) = Some d -> Forall is_byte d -> blen d < 2 ^ 31 ->
  exists c, (if 0 <? blen d then update_mem ctx m off (blen d) else Some ctx) = Some c /\
    repr c (x ++ d).
Proof.
  intros Hr Hm Hd Hl. destruct (Z.ltb_spec 0 (blen d)) as [|H]; [by apply update_mem_repr|].
  destruct d; [|rewrite blen_cons in H; pose proof (blen_nonneg d); lia].
  exists ctx. by rewrite app_nil_r.
Qed.

(** Runs the next update of a goal on the context that has absorbed [x]. *)
Ltac absorb :=
  match goal with
  | H : repr ?c ?x |- context [if 0 <? blen ?d then update_mem ?c ?m ?off _ else _] =>
      let c' := fresh "c" in let H' := fresh "R" in
      destruct (update_opt_repr c x m off d H) as (c' & -> & H'); [done..|clear H]
  | H : repr ?c ?x |- context [update_mem ?c ?m ?off (blen ?d)] =>
      let c' := fresh "c" in let H' := fresh "R" in
      destruct (update_mem_repr c x m off d H) as (c' & -> & H'); [done..|clear H]
  | H : repr ?c ?x |- context [update_word ?c ?n] =>
      let c' := fresh "c" in let H' := fresh "R" in
      destruct (update_word_repr c x n H) as (c' & -> & H'); clear H
  end; cbn [mbind option_bind].

Lemma signature_spec junk b m s :
  length junk = 64%nat -> points_at b m s -> Forall section_ok (section_list s) ->
  blen (signed (version b) s) < 2 ^ 61 ->
  bxxt_boot_img_signature junk b = Some (Spec.sha1 (signed (version b) s) ++ zeros 12).
Proof.
  intros Hj [Hmm [Ek Hk] [Er Hr] [Es Hs] [Ey Hy] [Ed Hd]] Hok Hl.
  unfold section_list in Hok.
  repeat (apply Forall_cons in Hok as [[? ?] Hok]). clear Hok.
  unfold bxxt_boot_img_signature. rewrite Hmm. cbn [mbind option_bind].
  rewrite Ek in *. rewrite Er in *. rewrite Es in *. rewrite Ey in *. rewrite Ed in *.
  pose proof (repr_init junk Hj) as R0. unfold signed in *.
  do 6 absorb.
  revert Hl. destruct (0 <? version b), (1 <? version b); intros Hl; cbn iota;
    [do 4 absorb|do 2 absorb|cbn [mbind option_bind]; do 2 absorb|cbn [mbind option_bind]];
    match goal with R : repr ?c ?x |- _ = Some (Spec.sha1 ?y ++ _) =>
      replace x with y in R by (cbn [app]; by rewrite ?app_nil_r, <- ?app_assoc);
      by rewrite (final_spec c y R Hl) end.
Qed.

(** Splitting and concatenating are inverse. *)
Lemma concat_split_fields ws m :
  (sum_list ws <= length m)%nat ->
  concat (split_fields ws m) ++ drop (sum_list ws) m = m /\
  map length (split_fields ws m) = ws.
Proof.
  revert m. induction ws as [|w ws IH]; intros m Hl; [done|].
  cbn [split_fields concat map].
  change (sum_list (w :: ws)) with (w + sum_list ws)%nat in *.
  destruct (IH (drop w m)) as [H1 H2]; [rewrite length_drop; lia|].
  rewrite drop_drop in H1. rewrite <- app_assoc, H1, take_drop, H2, length_take.
  split; [done|]. f_equal. lia.
Qed.

Lemma le_val_back n d : Forall is_byte d -> length d = n -> le_bytes n (le_val d) = d.
Proof. intros Hd <-. by apply le_bytes_le_val. Qed.

Lemma le_val_u32_range d : Forall is_byte d -> length d = 4%nat -> is_u32 (le_val d).
Proof. intros Hd Hl. pose proof (le_val_range d Hd) as H. unfold blen in H. by rewrite Hl in H. Qed.
Lemma le_val_u64_range d : Forall is_byte d -> length d = 8%nat -> is_u64 (le_val d).
Proof. intros Hd Hl. pose proof (le_val_range d Hd) as H. unfold blen in H. by rewrite Hl in H. Qed.

(** Computes the fields of a header. *)
Ltac hdr_cbn :=
  cbn [magic hdr_kernel_size kernel_addr hdr_ramdisk_size ramdisk_addr hdr_second_size
       second_addr tags_addr hdr_page_size header_version os_version name cmdline id
       extra_cmdline hdr_recovery_dtbo_size recovery_dtbo_offset header_size hdr_dtb_size
       dtb_addr].

(** Twenty fields of the right widths are a header. *)
Lemma hdr_of_fields_total fs :
  map length fs = hdr_widths -> Forall (Forall is_byte) fs ->
  exists h, hdr_of_fields fs = Some h /\ hdr_fields h = fs /\ wf_hdr h.
Proof.
  intros Hw Hb. unfold hdr_widths in Hw.
  do 20 (destruct fs as [|? fs]; [done|]; cbn [map] in Hw; injection Hw as ? Hw;
         apply Forall_cons in Hb as [? Hb]).
  destruct fs; [|done]. eexists. split; [reflexivity|].
  split.
  - unfold hdr_fields; hdr_cbn. by rewrite !le_val_back by done.
  - split; unfold hdr_fields; hdr_cbn.
    + cbn [map]. rewrite !length_le_bytes. unfold hdr_widths. congruence.
    + repeat constructor; by apply le_val_u32_range.
    + repeat constructor; by apply le_val_u64_range.
    + done.
Qed.

Lemma read_hdr_total m :
  Forall is_byte m -> sizeof_hdr <= blen m ->
  exists h, read_hdr m = Some h /\ hdr_bytes h ++ drop (Z.to_nat sizeof_hdr) m = m /\ wf_hdr h.
Proof.
  intros Hm Hl. unfold read_hdr. rewrite mread_Some by (unfold sizeof_hdr in *; lia).
  cbn [mbind option_bind]. rewrite drop_0.
  set (d := take (Z.to_nat sizeof_hdr) m).
  assert (length d = 1660%nat) as Hd.
  { unfold d, blen, sizeof_hdr in *. rewrite length_take. lia. }
  destruct (concat_split_fields hdr_widths d) as [H1 H2]; [rewrite Hd; by vm_compute|].
  change (sum_list hdr_widths) with 1660%nat in H1. rewrite drop_ge, app_nil_r in H1 by lia.
  destruct (hdr_of_fields_total (split_fields hdr_widths d)) as (h & E & Ef & Hw); [done| |].
  { assert (Forall is_byte d) as Hb by by apply Forall_take.
    rewrite <- H1 in Hb. by apply Forall_concat. }
  exists h. split; [done|]. split; [|done]. unfold hdr_bytes. rewrite Ef, H1. apply take_drop.
Qed.

Lemma sections_ok h s :
  well_formed h s -> Forall (Forall is_byte) (section_list s) -> Forall section_ok (section_list s).
Proof.
  intros [Hw _ _ _ Hp _ _ Hl] Hb. apply Forall_lookup. intros n d Hn.
  split; [by apply (Forall_lookup_1 _ _ n d Hb)|].
  destruct (B_ps_section n _ h s d Hn Hl Hp Hw) as [_ [H0 H1]].
  rewrite (section_off_S n _ s d Hn) in H1. unfold sizeof_hdr in Hp.
  pose proof (pad_to_ge (hdr_page_size h) d). lia.
Qed.

Lemma signed_short h s :
  well_formed h s -> blen (signed (header_version h) s) < 2 ^ 61.
Proof.
  intros Hwf.
  assert (forall d, d ∈ section_list s -> blen (d ++ le_bytes 4 (blen d)) < 2 ^ 32) as Hd.
  { intros d Hd. apply list_elem_of_lookup in Hd as [n Hn].
    destruct Hwf as [Hw _ _ _ Hp _ _ Hl].
    destruct (B_ps_section n _ h s d Hn Hl Hp Hw) as [_ [H0 H1]].
    rewrite (section_off_S n _ s d Hn) in H1. unfold sizeof_hdr in Hp.
    pose proof (pad_to_ge (hdr_page_size h) d). rewrite blen_app, blen_le_bytes. lia. }
  unfold signed. rewrite !blen_app.
  assert (forall c (d : bytes), blen d < 2 ^ 32 -> blen (if c : bool then d else []) < 2 ^ 32) as Hc
    by (intros [] ?; done).
  unfold section_list in Hd.
  pose proof (Hd (s_kernel s) ltac:(set_solver)) as H0.
  pose proof (Hd (s_ramdisk s) ltac:(set_solver)) as H1.
  pose proof (Hd (s_second s) ltac:(set_solver)) as H2.
  pose proof (Hd (s_recovery s) ltac:(set_solver)) as H3.
  pose proof (Hd (s_dtb s) ltac:(set_solver)) as H4.
  pose proof (Hc (0 <? header_version h) _ H3) as H5.
  pose proof (Hc (1 <? header_version h) _ H4) as H6.
  rewrite blen_app in H0, H1, H2. lia.
Qed.

Lemma sha1_length m : length (Spec.sha1 m) = 20%nat.
Proof. unfold Spec.sha1, Spec.digest. by rewrite !length_app, !length_be_bytes. Qed.

(** An accepted image's descriptor has the version of its header. *)
Lemma init1_version junk f b m size check b' :
  bxxt_boot_init1 junk f b m size check = Some (BXXT_SUCCESS, b') ->
  version b' = header_version (hdr b').
Proof.
  unfold bxxt_boot_init1. opt_step. destruct (_ =? BXXT_FAILED); [by intros [=]|].
  do 7 opt_step. destruct (_ =? BXXT_FAILED); [by intros [=]|].
  opt_step. destruct (_ =? BXXT_FAILED); [by intros [=]|].
  do 2 opt_step. by intros [= <-].
Qed.

Lemma init1_check_irrelevant junk f b m size :
  bxxt_boot_init1 junk f b m size f = bxxt_boot_init1 junk f b m size false.
Proof. by destruct f. Qed.

Lemma last_nonzero_zeros d x n : x <> 0 -> last_nonzero (d ++ [x] ++ zeros n) = blen d.
Proof.
  intros Hx. unfold zeros. induction (Z.to_nat n) as [|k IH].
  - cbn [replicate]. rewrite app_nil_r, last_nonzero_snoc.
    by replace (x =? 0) with false by lia.
  - rewrite replicate_S_end, !app_assoc, last_nonzero_snoc, <- !app_assoc. apply IH.
Qed.

Lemma image_extra page h s k d r :
  wf_hdr h -> sizeof_hdr <= page -> s_extra s = d ++ r ->
  mread (image page h s ++ k) (section_off page s 5) (blen d) = Some d.
Proof.
  intros Hw Hp He. pose proof (image_blen page h s Hw Hp) as Hb.
  unfold image in *. rewrite app_assoc in *. rewrite blen_app in Hb.
  replace (section_off page s 5) with
    (blen (pad_to page (hdr_bytes h) ++ concat (map (pad_to page) (section_list s)))) by lia.
  rewrite He, <- !(app_assoc _ (d ++ r)), <- (app_assoc d). apply mread_app.
Qed.

Lemma finish_unchecked_inv junk f b m r b' :
  finish_init1 junk f false b m = Some (r, b') -> exists k d, b' = with_dtbs b k d.
Proof.
  unfold finish_init1. cbn [mbind option_bind].
  change (BXXT_SUCCESS =? BXXT_FAILED) with false. cbn iota.
  generalize (bxxt_boot_parse_dtb_sections m (mm_kernel_ptr b) (kernel_size b)) as o1.
  generalize (bxxt_boot_parse_dtb_sections m (mm_dtb_ptr b) (dtb_size b)) as o2.
  intros [d|] [k|]; cbn [mbind option_bind]; intros Hi; try discriminate Hi.
  injection Hi as _ <-. by eexists _, _.
Qed.

Lemma init1_unchecked_inv junk f b h s k r b' :
  well_formed h s ->
  let m := image (hdr_page_size h) h s ++ k in
  bxxt_boot_init1 junk f b m (blen (image (hdr_page_size h) h s)) false = Some (r, b') ->
  exists kd dd, b' = with_dtbs
    (layout b h s m (compression_of (hdr_page_size h) (s_kernel s))) kd dd.
Proof.
  intros Hwf m Hi. unfold m in Hi. rewrite init1_image in Hi by done.
  exact (finish_unchecked_inv _ _ _ _ _ _ Hi).
Qed.

(** The descriptor [init1] computes for an image points at its sections. *)
Lemma layout_points b h s k c :
  well_formed h s ->
  let m := image (hdr_page_size h) h s ++ k in points_at (layout b h s m c) m s.
Proof.
  intros [Hw _ _ _ [Hp _] _ _ _] m.
  split; cbn [layout mm kernel_size mm_kernel_ptr ramdisk_size mm_ramdisk_ptr second_size
              mm_second_ptr recovery_dtbo_size mm_recovery_dtbo_ptr dtb_size mm_dtb_ptr];
    [done|..]; (split; [done|]).
  - exact (image_mread 0 _ h s k _ Hw Hp eq_refl).
  - exact (image_mread 1 _ h s k _ Hw Hp eq_refl).
  - exact (image_mread 2 _ h s k _ Hw Hp eq_refl).
  - exact (image_mread 3 _ h s k _ Hw Hp eq_refl).
  - exact (image_mread 4 _ h s k _ Hw Hp eq_refl).
Qed.

Lemma points_at_dtbs b m s kd dd : points_at b m s -> points_at (with_dtbs b kd dd) m s.
Proof. intros [H1 H2 H3 H4 H5 H6]. split; assumption. Qed.

Lemma image_dtbs n page h s k d code ds :
  wf_hdr h -> sizeof_hdr <= page -> section_list s !! n = Some d ->
  blen (image page h s) < 2 ^ 31 -> code_and_blobs d code ds ->
  bxxt_boot_parse_dtb_sections (image page h s ++ k) (section_off page s n) (blen d) =
    Some (dtb_entries (section_off page s n + blen code) ds).
Proof.
  intros Hw Hp Hn Hl [-> Hf Hb Hc].
  destruct (image_section n page h s k _ Hw Hp Hn) as (m & r & He & Hm).
  assert (blen (code ++ concat ds) < 2 ^ 31).
  { destruct (image_section n page h s [] _ Hw Hp Hn) as (m' & r' & He' & _).
    rewrite app_nil_r in He'. rewrite He', !blen_app in Hl.
    pose proof (pad_to_ge page (code ++ concat ds)). unfold sizeof_hdr in Hp.
    pose proof (blen_nonneg m'). pose proof (blen_nonneg r'). lia. }
  rewrite He, <- Hm. unfold pad_to. rewrite <- app_assoc.
  apply parse_dtb_section; [done..|lia].
Qed.

Lemma finish_unchecked junk f b m k d :
  bxxt_boot_parse_dtb_sections m (mm_kernel_ptr b) (kernel_size b) = Some k ->
  bxxt_boot_parse_dtb_sections m (mm_dtb_ptr b) (dtb_size b) = Some d ->
  finish_init1 junk f false b m = Some (BXXT_SUCCESS, with_dtbs b k d).
Proof. intros Hk Hd. 
  unfold finish_init1. cbn [mbind option_bind].
  change (BXXT_SUCCESS =? BXXT_FAILED) with false. cbn iota. by rewrite Hk, Hd.
Qed.

Lemma init1_layout junk f b h s k kcode kds dcode dds
    (Hwf : well_formed h s)
    (Hk : code_and_blobs (s_kernel s) kcode kds)
    (Hd : code_and_blobs (s_dtb s) dcode dds) :
  let page := hdr_page_size h in
  let m := image page h s ++ k in
  exists b', bxxt_boot_init1 junk f b m (blen (image page h s)) false = Some (BXXT_SUCCESS, b') /\
    hdr b' = h /\ points_at b' m s /\
    kernel_dtb b' = dtb_entries (page + blen kcode) kds /\
    dtb b' = dtb_entries (mm_dtb_ptr b' + blen dcode) dds /\
    pad_size b' = last_nonzero (s_extra s).
Proof.
  intros page m. pose proof Hwf as [Hw _ _ _ [Hp _] _ _ Hl].
  set (c := compression_of page (s_kernel s)).
  set (off := section_off page s).
  exists (with_dtbs (layout b h s m c) (dtb_entries (page + blen kcode) kds)
                    (dtb_entries (off 4%nat + blen dcode) dds)).
  split.
  { unfold m, page. rewrite init1_image by done. apply finish_unchecked.
    - pose proof (image_dtbs 0 page h s k _ kcode kds Hw Hp eq_refl Hl Hk) as H.
      rewrite section_off_0 in H. cbn [layout mm_kernel_ptr kernel_size].
      by rewrite section_off_0.
    - exact (image_dtbs 4 page h s k _ dcode dds Hw Hp eq_refl Hl Hd). }
  split; [done|]. split; [|done].
  apply points_at_dtbs, (layout_points b h s k c Hwf).
Qed.

Lemma sample_well_formed : well_formed sample_hdr sample_sections.
Proof.
  split; [|by split| | | | | |]; [|done|done|by vm_compute|by vm_compute|by vm_compute|by vm_compute].
  split; [reflexivity|repeat constructor; done..|apply zeros_is_byte].
Qed.

Lemma sample_is_dtb : is_dtb sample_blob.
Proof. split; [done|]. split; [by vm_compute|done]. Qed.

Lemma sample_kernel : code_and_blobs (s_kernel sample_sections) sample_code [sample_blob].
Proof. split; [reflexivity|reflexivity|apply Forall_singleton, sample_is_dtb|by vm_compute]. Qed.

Lemma sample_dtb : code_and_blobs (s_dtb sample_sections) [] [sample_blob].
Proof. split; [reflexivity|reflexivity|apply Forall_singleton, sample_is_dtb|by vm_compute]. Qed.

Lemma sample_bytes : Forall (Forall is_byte) (section_list sample_sections).
Proof.
  unfold section_list. do 5 (apply Forall_cons_2; [apply is_byte_check; by vm_compute|]).
  apply Forall_nil_2.
Qed.

(** ** Theorems *)

(** The packed header is a faithful encoding: a header whose fields have
    their C types is 1660 bytes that decode to it whatever follows them, and
    re-encoding a decoded header gives the bytes back. *)
Theorem boot_header_roundtrip :
  (forall h rest, wf_hdr h ->
     blen (hdr_bytes h) = sizeof_hdr /\ read_hdr (hdr_bytes h ++ rest) = Some h) /\
  (forall m, Forall is_byte m -> sizeof_hdr <= blen m ->
     exists h, read_hdr m = Some h /\ hdr_bytes h ++ drop (Z.to_nat sizeof_hdr) m = m /\ wf_hdr h).
Proof.
  split; [intros h rest Hw; split; [by apply hdr_bytes_len|by apply read_hdr_bytes]|].
  intros m Hm Hl. apply read_hdr_total; done.
Qed.

Lemma boot_header_roundtrip_witness :
  read_hdr (hdr_bytes hdr_zero ++ [1; 2]) = Some hdr_zero.
Proof.
  refine (proj2 (proj1 boot_header_roundtrip hdr_zero [1; 2] _)).
  split; [reflexivity|repeat constructor; done..|apply zeros_is_byte].
Defined.

(** C2. Parsing recovers a well-formed image: whatever follows it in memory,
    [bxxt_boot_init1] accepts it, its descriptor points at exactly the
    sections the header describes, and the device tree tables list the blobs
    appended to the kernel and those of the dtb section, in order. *)
Theorem boot_init1_layout junk f b h s k kcode kds dcode dds
    (Hwf : well_formed h s)
    (Hk : code_and_blobs (s_kernel s) kcode kds)
    (Hd : code_and_blobs (s_dtb s) dcode dds) :
  let page := hdr_page_size h in
  let m := image page h s ++ k in
  exists b', bxxt_boot_init1 junk f b m (blen (image page h s)) false = Some (BXXT_SUCCESS, b') /\
    hdr b' = h /\ points_at b' m s /\
    kernel_dtb b' = dtb_entries (page + blen kcode) kds /\
    dtb b' = dtb_entries (mm_dtb_ptr b' + blen dcode) dds /\
    pad_size b' = last_nonzero (s_extra s).
Proof. exact (init1_layout junk f b h s k kcode kds dcode dds Hwf Hk Hd). Qed.

Lemma boot_init1_layout_witness :
  let m := image 2048 sample_hdr sample_sections ++ zeros 100 in
  exists b', bxxt_boot_init1 (zeros 64) false bxxt_boot_new m
               (blen (image 2048 sample_hdr sample_sections)) false = Some (BXXT_SUCCESS, b') /\
    kernel_dtb b' = [(2054, 28)] /\ pad_size b' = 3.
Proof.
  intros m.
  destruct (boot_init1_layout (zeros 64) false bxxt_boot_new sample_hdr sample_sections (zeros 100)
    sample_code [sample_blob] [] [sample_blob] sample_well_formed sample_kernel sample_dtb)
    as (b' & H1 & _ & _ & H2 & _ & H3).
  exists b'. split; [exact H1|]. split; [rewrite H2; reflexivity|rewrite H3; reflexivity].
Defined.

(** C3. The signature is the SHA-1 (FIPS 180-1) of the sections, each followed
    by its length, with the recovery dtbo from header version 1 and the dtb
    from version 2, completed with zeros to the 32 bytes of the id field. *)
Theorem boot_signature_spec junk f b h s k
    (Hj : length junk = 64%nat) (Hwf : well_formed h s)
    (Hb : Forall (Forall is_byte) (section_list s)) :
  let m := image (hdr_page_size h) h s ++ k in
  forall b', bxxt_boot_init1 junk f b m (blen (image (hdr_page_size h) h s)) false =
               Some (BXXT_SUCCESS, b') ->
  bxxt_boot_img_signature junk b' = Some (Spec.sha1 (signed (header_version h) s) ++ zeros 12).
Proof.
  intros m b' Hi. apply init1_unchecked_inv in Hi as (kd & dd & ->); [|done].
  set (b' := with_dtbs _ kd dd).
  assert (version b' = header_version h) as <- by reflexivity.
  apply (signature_spec junk b' m s Hj).
  - apply points_at_dtbs, (layout_points b h s k _ Hwf).
  - exact (sections_ok h s Hwf Hb).
  - exact (signed_short h s Hwf).
Qed.

Lemma boot_signature_spec_witness :
  exists b', bxxt_boot_img_signature (zeros 64) b' =
    Some (Spec.sha1 (signed 2 sample_sections) ++ zeros 12).
Proof.
  destruct (init1_layout (zeros 64) false bxxt_boot_new sample_hdr sample_sections []
    sample_code [sample_blob] [] [sample_blob] sample_well_formed sample_kernel sample_dtb)
    as (b' & H1 & _).
  exists b'.
  exact (boot_signature_spec (zeros 64) false bxxt_boot_new sample_hdr sample_sections []
           eq_refl sample_well_formed sample_bytes b' H1).
Defined.

(** The compatibility check compares eight of the twenty digest bytes: it
    accepts exactly the images whose id starts with the first eight bytes of
    their signature, and everything once checks are disabled. *)
Theorem boot_compat_check_spec junk b m s
    (Hj : length junk = 64%nat) (Hp : points_at b m s)
    (Hok : Forall section_ok (section_list s)) (Hl : blen (signed (version b) s) < 2 ^ 61) :
  bxxt_boot_img_compat_check junk true b = Some BXXT_SUCCESS /\
  exists r, bxxt_boot_img_compat_check junk false b = Some r /\
    (r = BXXT_SUCCESS <-> take 8 (id (hdr b)) = take 8 (Spec.sha1 (signed (version b) s))) /\
    (r = BXXT_SUCCESS \/ r = BXXT_FAILED).
Proof.
  split; [done|]. unfold bxxt_boot_img_compat_check.
  rewrite (signature_spec junk b m s) by done. cbn [mbind option_bind].
  eexists. split; [reflexivity|]. rewrite take_app_le by (rewrite sha1_length; lia).
  split; [|by destruct (bool_decide _); [left|right]].
  destruct (decide (take 8 (Spec.sha1 (signed (version b) s)) = take 8 (id (hdr b)))) as [E|E].
  - rewrite bool_decide_true by done. by split.
  - rewrite bool_decide_false by done. split; [intros Hc; discriminate Hc|].
    intros Hc. by destruct E.
Qed.

Lemma boot_compat_check_spec_witness :
  exists r, bxxt_boot_img_compat_check (zeros 64) false
      (layout bxxt_boot_new sample_hdr sample_sections
         (image 2048 sample_hdr sample_sections) 0) = Some r /\ (r = BXXT_SUCCESS \/ r = BXXT_FAILED).
Proof.
  pose proof (layout_points bxxt_boot_new sample_hdr sample_sections [] 0 sample_well_formed) as Hp.
  cbv zeta in Hp. rewrite app_nil_r in Hp.
  destruct (boot_compat_check_spec (zeros 64)
    (layout bxxt_boot_new sample_hdr sample_sections (image 2048 sample_hdr sample_sections) 0)
    (image 2048 sample_hdr sample_sections) sample_sections eq_refl Hp
    (sections_ok _ _ sample_well_formed sample_bytes)
    (signed_short _ _ sample_well_formed)) as (_ & r & H1 & _ & H2).
  exists r. exact (conj H1 H2).
Defined.

(** Opening an image never verifies its signature: the flag that disables
    the check is also passed as the request to check, so the result is the
    same as without a check, whatever the flag and the id field. *)
Theorem boot_open_never_checks junk f b file w :
  bxxt_boot_open_file junk f b file w =
    (F ← lift (bxxt_file_new_mm file O_RDONLY MODE_0644);
     '(r, F) ← bxxt_file_open F;
     if negb (r =? 0) then
       u ← bxxt_file_close (Some F);
       mret (BXXT_FAILED, None, b)
     else
       p ← lift (match f_ptr F with MMapped m => Some m | _ => None end);
       '(r, b) ← lift (bxxt_boot_init1 junk f b p (f_size F) false);
       if negb (r =? BXXT_SUCCESS) then
         u ← bxxt_file_close (Some F);
         mret (BXXT_FAILED, None, b)
       else mret (BXXT_SUCCESS, Some F, b)) w.
Proof.
  unfold bxxt_boot_open_file. unfold mbind, M_bind, lift.
  destruct (bxxt_file_new_mm file O_RDONLY MODE_0644) as [F|]; cbn [mbind option_bind]; [|done].
  destruct (bxxt_file_open F w) as [[[r F'] w']|]; [|done].
  destruct (negb (r =? 0)); [done|].
  destruct (match f_ptr F' with MMapped m => Some m | _ => None end) as [p|];
    cbn [mbind option_bind]; [|done].
  by rewrite init1_check_irrelevant.
Qed.

(** A page size of zero is meant to be rejected by the base check, but the
    layout divides by it first: the program traps on every such image. *)
Theorem boot_page_size_zero junk f b m size check h
    (Hr : read_hdr m = Some h) (Hv : bxxt_boot_img_version_check h = BXXT_SUCCESS)
    (Hz : hdr_page_size h = 0) :
  bxxt_boot_img_base_check h = BXXT_FAILED /\ bxxt_boot_init1 junk f b m size check = None.
Proof.
  split; [unfold bxxt_boot_img_base_check; by rewrite Hz|].
  unfold bxxt_boot_init1. rewrite Hr. cbn [mbind option_bind]. rewrite Hv.
  change (BXXT_SUCCESS =? BXXT_FAILED) with false. cbn iota. by rewrite Hz.
Qed.

Lemma boot_page_size_zero_witness :
  let h := Hdr BOOT_MAGIC 1 0 0 0 0 0 0 0 1 0 (zeros 16) (zeros 512) (zeros 32) (zeros 1024) 0 0 0 0 0 in
  bxxt_boot_init1 (zeros 64) false bxxt_boot_new (hdr_bytes h) 1660 false = None.
Proof.
  intros h. apply (boot_page_size_zero (zeros 64) false bxxt_boot_new (hdr_bytes h) 1660 false h);
    vm_compute; reflexivity.
Defined.

(** Trailing data loses its last byte: for data that ends in [x <> 0]
    before the zero padding, the extra data the program extracts is everything
    but [x]. *)
Theorem boot_trailing_data_loses_a_byte junk f b h s k d x n b'
    (Hwf : well_formed h s) (He : s_extra s = d ++ [x] ++ zeros n) (Hx : x <> 0)
    (Hi : bxxt_boot_init1 junk f b (image (hdr_page_size h) h s ++ k)
            (blen (image (hdr_page_size h) h s)) false = Some (BXXT_SUCCESS, b')) :
  pad_size b' = blen d /\
  mread (image (hdr_page_size h) h s ++ k) (mm_pad_ptr b') (pad_size b') = Some d.
Proof.
  apply init1_unchecked_inv in Hi as (kd & dd & ->); [|done].
  cbn [with_dtbs layout pad_size mm_pad_ptr].
  rewrite He, last_nonzero_zeros by done. split; [done|].
  destruct Hwf as [Hw _ _ _ [Hp _] _ _ _]. by apply (image_extra _ h s k _ ([x] ++ zeros n)).
Qed.

Lemma boot_trailing_data_loses_a_byte_witness :
  exists b', pad_size b' = 3 /\
    mread (image 2048 sample_hdr sample_sections ++ []) (mm_pad_ptr b') (pad_size b') =
      Some [1; 2; 0].
Proof.
  destruct (init1_layout (zeros 64) false bxxt_boot_new sample_hdr sample_sections []
    sample_code [sample_blob] [] [sample_blob] sample_well_formed sample_kernel sample_dtb)
    as (b' & H1 & _).
  exists b'.
  exact (boot_trailing_data_loses_a_byte (zeros 64) false bxxt_boot_new sample_hdr sample_sections []
    [1; 2; 0] 3 2 b' sample_well_formed eq_refl ltac:(lia) H1).
Defined.

(** C39. The search for device trees ends on every input, whatever the blobs claim:
    after 256 rounds it has returned, read outside the image or written behind the
    table, and it would do no other in more rounds.  It returns at most 255 entries,
    each of a blob that begins with the magic number and claims the recorded size.
    On a blob that claims a size of zero it does not get any further: it fills all
    255 entries with it and writes behind the table (undefined behaviour). *)
Theorem boot_parse_dtb_termination :
  (forall m ptr total dtb, parse_dtb_loop 256 m (ptr + total) ptr [] <> Searching dtb) /\
  (forall k m ptr total,
     parse_dtb_loop (256 + k) m (ptr + total) ptr [] = parse_dtb_loop 256 m (ptr + total) ptr []) /\
  (forall m ptr total dtb, bxxt_boot_parse_dtb_sections m ptr total = Some dtb ->
     blen dtb <= BOOT_MAX_DTB /\ Forall (dtb_entry m) dtb) /\
  (forall m d k, find_bytes FDT_MAGIC_bytes d = Some 0 -> 24 <= blen d < 2 ^ 32 ->
     be_val (take 4 (drop 4 d)) = 0 ->
     parse_dtb_loop 256 (m ++ d ++ k) (blen m + blen d) (blen m) [] =
       TableFull (replicate 255 (blen m, 0))).
Proof.
  split_and!.
  - intros m ptr total dtb. apply parse_dtb_over; simpl; lia.
  - intros k m ptr total. apply parse_dtb_over; simpl; lia.
  - intros m ptr total dtb. unfold bxxt_boot_parse_dtb_sections.
    destruct (parse_dtb_loop 256 m (ptr + total) ptr []) eqn:E; [|done..]. intros [= <-].
    destruct (parse_dtb_entries 256 m (ptr + total) ptr [] dtb0) as [? ?]; [constructor|done|by left|done].
  - intros m d k H1 H2 H3. by rewrite parse_dtb_stuck by (done || (simpl; lia)).
Qed.

Lemma boot_parse_dtb_termination_witness :
  parse_dtb_loop 256 ([5] ++ (FDT_MAGIC_bytes ++ zeros 20) ++ []) 25 1 [] = TableFull (replicate 255 (1, 0)) /\
  bxxt_boot_parse_dtb_sections (FDT_MAGIC_bytes ++ [0; 0; 0; 24] ++ zeros 16) 0 24 = Some [(0, 24)] /\
  dtb_entry (FDT_MAGIC_bytes ++ [0; 0; 0; 24] ++ zeros 16) (0, 24).
Proof.
  destruct boot_parse_dtb_termination as (_ & _ & He & Hs). split; [|split].
  - apply (Hs [5] (FDT_MAGIC_bytes ++ zeros 20) []); [reflexivity|by vm_compute|reflexivity].
  - reflexivity.
  - assert (bxxt_boot_parse_dtb_sections (FDT_MAGIC_bytes ++ [0; 0; 0; 24] ++ zeros 16) 0 24 = Some [(0, 24)]) as E by reflexivity.
    destruct (He _ _ _ _ E) as [_ Hall]. by inversion Hall.
Defined.
