(* ===== verification/Metadata.v ===== *)
(** The METADATA file (boot.c): [bxxt_boot_print_meta_info_file] writes the
    header fields an image is rebuilt from as [bxxt.<field>=<value>] lines,
    [bxxt_boot_hdr_from_metadata] reads them back with [strstr] and [sscanf]
    into the 1660 bytes of a header. *)
From S2P Require Import Prelude Stdio Posix Util Sha1 Boot.

(** ** Writing *)

Definition p_meta (field : string) (value : bytes) : bytes :=
  str "bxxt." ++ str field ++ str "=" ++ value ++ [10].

(** Offsets of the fields of the packed header. *)
Definition off_kernel_addr := 12.
Definition off_ramdisk_addr := 20.
Definition off_second_addr := 28.
Definition off_tags_addr := 32.
Definition off_page_size := 36.
Definition off_header_version := 40.
Definition off_os_version := 44.
Definition off_name := 48.
Definition off_cmdline := 64.
Definition off_extra_cmdline := 608.
Definition off_recovery_dtbo_offset := 1636.
Definition off_header_size := 1644.
Definition off_dtb_addr := 1652.

(** The fields and their values, in the order they are printed.  A [%s] field
    is the C string at its place in the header. *)
Definition meta_fields (b : bxxt_boot) : option (list (string * bytes)) :=
  let h := hdr b in
  nm ← cstr_at (hdr_bytes h) off_name;
  cl ← cstr_at (hdr_bytes h) off_cmdline;
  ec ← cstr_at (hdr_bytes h) off_extra_cmdline;
  m ← mm b;
  kc ← bxxt_boot_detect_kernel_compression m (mm_kernel_ptr b);
  Some [ ("kernel_addr"%string, fmt_x (kernel_addr h));
         ("ramdisk_addr"%string, fmt_x (ramdisk_addr h));
         ("second_addr"%string, fmt_x (second_addr h));
         ("tags_addr"%string, fmt_x (tags_addr h));
         ("dtb_addr"%string, fmt_x (dtb_addr h));
         ("recovery_dtbo_offset"%string, fmt_x (recovery_dtbo_offset h));
         ("name"%string, nm);
         ("cmdline"%string, cl);
         ("extra_cmdline"%string, ec);
         ("kernel_compression"%string, fmt_x kc);
         ("header_version"%string, fmt_x (header_version h));
         ("os_version"%string, fmt_x (os_version h));
         ("header_size"%string, fmt_x (header_size h));
         ("page_size"%string, fmt_x (hdr_page_size h));
         ("kernel_size"%string, fmt_x (kernel_size b));
         ("ramdisk_size"%string, fmt_x (ramdisk_size b));
         ("second_size"%string, fmt_x (second_size b));
         ("recovery_dtbo_size"%string, fmt_x (recovery_dtbo_size b));
         ("dtb_size"%string, fmt_x (dtb_size b)) ].

Definition print_fields (fs : list (string * bytes)) : bytes :=
  concat (map (fun '(k, v) => p_meta k v) fs).

Definition bxxt_boot_print_meta_info_file (b : bxxt_boot) : option bytes :=
  fs ← meta_fields b; Some (print_fields fs).

(** ** Reading *)

(** The result of [sscanf] on the line, and the values it stores.  The mapped
    file is searched as a C string. *)
Definition scan_text (text : bytes) (name fmt : bytes) : option (Z * list sval) :=
  s ← cstring text;
  match strstr s (name ++ str "=") with
  | None => Some (BXXT_FAILED, [])
  | Some p => sscanf (drop (Z.to_nat p) s) (name ++ str "=" ++ fmt)
  end.

Definition bxxt_boot_scan_metadata (file : path) (name fmt : bytes) : M (Z * list sval) :=
  config ← lift (bxxt_file_new_mm file O_RDONLY MODE_0644);
  '(r, config) ← bxxt_file_open config;
  if negb (r =? 0) then
    u ← bxxt_file_close (Some config);
    mret (BXXT_FAILED, [])
  else
    p ← lift (match f_ptr config with MMapped m => Some m | _ => None end);
    res ← lift (scan_text p name fmt);
    u ← bxxt_file_close (Some config);
    mret res.

(** The store of the single conversion through [out], at offset [off] of the
    header: four bytes for [%x], the string and its NUL for a scan set. *)
Definition store_at (m : bytes) (off : Z) (vs : list sval) : option bytes :=
  match vs with
  | [SInt v] => mwrite m off (le_bytes 4 v)
  | [SStr s] => mwrite m off (s ++ [0])
  | _ => Some m
  end.

Definition config_xint (file : path) (n : string) (off : Z) (m : bytes) : M (Z * bytes) :=
  '(r, vs) ← bxxt_boot_scan_metadata file (str "bxxt." ++ str n) (str "%x");
  m ← lift (store_at m off vs);
  mret (r, m).

Definition config_string (file : path) (n : string) (off : Z) (m : bytes) : M (Z * bytes) :=
  '(r, vs) ← bxxt_boot_scan_metadata file (str "bxxt." ++ str n) (str "%[^" ++ [10] ++ str "]");
  m ← lift (store_at m off vs);
  mret (r, m).

(** A string field, and [RETIF(strlen(field) >= size)]. *)
Definition string_field (file : path) (n : string) (off max : Z) (m : bytes)
    (k : bytes -> M (Z * bytes)) : M (Z * bytes) :=
  '(r, m) ← config_string file n off m;
  s ← lift (cstr_at m off);
  if max <=? blen s then mret (BXXT_FAILED, m) else k m.

(** An integer field, and [RETIF(r != 1)]. *)
Definition xint_field (file : path) (n : string) (off : Z) (m : bytes)
    (k : bytes -> M (Z * bytes)) : M (Z * bytes) :=
  '(r, m) ← config_xint file n off m;
  if negb (r =? 1) then mret (BXXT_FAILED, m) else k m.

(** The result and the bytes of [hdr].  The final copy takes the magic and its
    NUL. *)
Definition bxxt_boot_hdr_from_metadata (file : path) : M (Z * bytes) :=
  let m := zeros sizeof_hdr in
  string_field file "cmdline" off_cmdline BOOT_ARGS_SIZE m (fun m =>
  string_field file "extra_cmdline" off_extra_cmdline BOOT_EXTRA_ARGS_SIZE m (fun m =>
  string_field file "name" off_name BOOT_NAME_SIZE m (fun m =>
  xint_field file "header_size" off_header_size m (fun m =>
  xint_field file "kernel_addr" off_kernel_addr m (fun m =>
  xint_field file "ramdisk_addr" off_ramdisk_addr m (fun m =>
  xint_field file "second_addr" off_second_addr m (fun m =>
  xint_field file "tags_addr" off_tags_addr m (fun m =>
  xint_field file "page_size" off_page_size m (fun m =>
  xint_field file "header_version" off_header_version m (fun m =>
  xint_field file "header_size" off_header_size m (fun m =>
  xint_field file "os_version" off_os_version m (fun m =>
  xint_field file "recovery_dtbo_offset" off_recovery_dtbo_offset m (fun m =>
  xint_field file "dtb_addr" off_dtb_addr m (fun m =>
    m ← lift (mwrite m 0 (BOOT_MAGIC ++ [0]));
    mret (BXXT_SUCCESS, m))))))))))))))).

(** ** Vocabulary of the proofs *)

Definition bxxt_dot : bytes := str "bxxt.".

Definition xxt_dot : bytes := str "xxt.".

(** Values that cannot be mistaken for a field: no ["bxxt."], no newline and
    no NUL inside. *)
Definition clean (v : bytes) : Prop :=
  find_bytes bxxt_dot v = None /\ (10 ∉ v) /\ (0 ∉ v).

Definition field_names : list string :=
  ["kernel_addr"; "ramdisk_addr"; "second_addr"; "tags_addr"; "dtb_addr";
   "recovery_dtbo_offset"; "name"; "cmdline"; "extra_cmdline"; "kernel_compression";
   "header_version"; "os_version"; "header_size"; "page_size"; "kernel_size"; "ramdisk_size";
   "second_size"; "recovery_dtbo_size"; "dtb_size"]%string.

(** What a name must satisfy for its line to be found: it hides no field
    marker and ends before the equals sign. *)
Definition good_name (k : string) : bool :=
  bool_decide (find_bytes bxxt_dot (xxt_dot ++ str k) = None) &&
  bool_decide (61 ∉ str k) && bool_decide (0 ∉ str k).

Definition distinct (k k' : string) : bool := mismatch (str k ++ [61]) (str k' ++ [61]).

Definition meta_name (k : string) : bytes := str "bxxt." ++ str k.

(** The two formats of a field parse to its name, the equals sign and the
    conversion. *)
Definition formats_ok (k : string) : Prop :=
  let p fmt := parse_format (S (length (meta_name k ++ str "=" ++ fmt)))
                 (meta_name k ++ str "=" ++ fmt) in
  let lits := map DLit (meta_name k ++ str "=") in
  p (str "%x") = Some (lits ++ [DHex 32]) /\
  p (str "%[^" ++ [10] ++ str "]") = Some (lits ++ [DSet true [10]]).

(** The header METADATA can restore: the sizes and the id are computed when
    the image is rebuilt, and the two 64-bit fields keep 32 bits. *)
Definition restored (h : boot_img_hdr) (nm cl ec : bytes) : boot_img_hdr :=
  Hdr BOOT_MAGIC 0 (kernel_addr h) 0 (ramdisk_addr h) 0 (second_addr h) (tags_addr h)
    (hdr_page_size h) (header_version h) (os_version h)
    (nm ++ zeros (BOOT_NAME_SIZE - blen nm)) (cl ++ zeros (BOOT_ARGS_SIZE - blen cl)) (zeros 32)
    (ec ++ zeros (BOOT_EXTRA_ARGS_SIZE - blen ec)) 0 (u32 (recovery_dtbo_offset h))
    (header_size h) 0 (u32 (dtb_addr h)).

(** The descriptor's numbers have their C types, and its strings fit their
    fields and can be told from the file's syntax. *)
Record printable (b : bxxt_boot) (nm cl ec : bytes) : Prop := {
  pr_hdr : wf_hdr (hdr b);
  pr_sizes : Forall is_u32 [kernel_size b; ramdisk_size b; second_size b;
                            recovery_dtbo_size b; dtb_size b];
  pr_name : cstr_at (hdr_bytes (hdr b)) off_name = Some nm;
  pr_cmdline : cstr_at (hdr_bytes (hdr b)) off_cmdline = Some cl;
  pr_extra : cstr_at (hdr_bytes (hdr b)) off_extra_cmdline = Some ec;
  pr_clean : clean nm /\ clean cl /\ clean ec;
  pr_fit : blen nm < BOOT_NAME_SIZE /\ blen cl < BOOT_ARGS_SIZE /\ blen ec < BOOT_EXTRA_ARGS_SIZE
}.

(** The zeroed header as fields. *)
Definition zero_fields : list bytes :=
  [zeros 8; zeros 4; zeros 4; zeros 4; zeros 4; zeros 4; zeros 4; zeros 4; zeros 4; zeros 4;
   zeros 4; zeros 16; zeros 512; zeros 32; zeros 1024; zeros 4; zeros 8; zeros 4; zeros 4; zeros 8].

(** A world with one readable file. *)
Definition one_file (file : path) (d : bytes) : world :=
  World {[ file := Regular d ]} {[ 0 := OFile (str "tty") O_RDWR 0 ]} (fun _ _ => true) (2 ^ 31).

Definition sample_boot : bxxt_boot :=
  layout bxxt_boot_new sample_hdr sample_sections (image 2048 sample_hdr sample_sections) 0.

Definition sample_text : bytes := default [] (bxxt_boot_print_meta_info_file sample_boot).

(** ** Lines *)

Lemma p_meta_shape k v : p_meta k v = 98 :: xxt_dot ++ str k ++ 61 :: v ++ [10].
Proof. reflexivity. Qed.

Lemma needle_shape k : bxxt_dot ++ str k ++ [61] = 98 :: xxt_dot ++ str k ++ [61].
Proof. reflexivity. Qed.

Lemma bxxt_dot_not_in c : c ∈ [61; 10; 0] -> c ∉ bxxt_dot.
Proof. rewrite !elem_of_cons, elem_of_nil. intros [->|[->|[->|[]]]];
    apply (bool_decide_unpack _); by vm_compute. Qed.

Lemma is_prefix_common p a b : is_prefix (p ++ a) (p ++ b) = is_prefix a b.
Proof. induction p as [|c p IH]; [done|]. cbn. by rewrite Z.eqb_refl, IH. Qed.

(** The search for a field skips the lines of other fields. *)
Lemma find_other k k' v r :
  distinct k k' = true -> good_name k' = true -> clean v ->
  find_bytes (bxxt_dot ++ str k ++ [61]) (p_meta k' v ++ r) =
    (i ← find_bytes (bxxt_dot ++ str k ++ [61]) r; Some (blen (p_meta k' v) + i)).
Proof.
  intros Hd Hg [Hv _]. unfold good_name in Hg.
  apply andb_true_iff in Hg as [Hg _]. apply andb_true_iff in Hg as [Hg _].
  apply bool_decide_eq_true in Hg.
  assert (Hpre : is_prefix (bxxt_dot ++ str k ++ [61]) (p_meta k' v ++ r) = false).
  { pose proof (mismatch_prefix _ _ [] (v ++ [10] ++ r) Hd) as H.
    rewrite app_nil_r, <- app_assoc in H. rewrite needle_shape, p_meta_shape.
    cbn [app is_prefix]. rewrite Z.eqb_refl. cbn [andb].
    rewrite <- !app_assoc. cbn [app]. rewrite is_prefix_common, <- app_assoc. exact H. }
  rewrite p_meta_shape in *. rewrite <- app_comm_cons in *.
  cbn [find_bytes]. rewrite Hpre.
  replace ((xxt_dot ++ str k' ++ 61 :: v ++ [10]) ++ r)
    with ((xxt_dot ++ str k') ++ 61 :: v ++ 10 :: r)
    by (rewrite <- !app_assoc; cbn [app]; by rewrite <- app_assoc).
  rewrite find_skip; [|done|apply bxxt_dot_not_in; set_solver|done].
  rewrite (find_skip bxxt_dot _ v 10 r); [|done|apply bxxt_dot_not_in; set_solver|done].
  destruct (find_bytes _ r); cbn [mbind option_bind]; [|done]. f_equal.
  rewrite !blen_cons, !blen_app, !blen_cons, !blen_app, blen_cons, blen_nil. lia.
Qed.

Lemma find_this k v r : find_bytes (bxxt_dot ++ str k ++ [61]) (p_meta k v ++ r) = Some 0.
Proof.
  replace (p_meta k v ++ r) with ((bxxt_dot ++ str k ++ [61]) ++ v ++ 10 :: r).
  - apply find_bytes_here.
  - rewrite p_meta_shape, needle_shape. cbn [app]. f_equal.
    rewrite <- !app_assoc. cbn [app]. by rewrite <- app_assoc.
Qed.

(** Where a field is found among the lines. *)
Lemma find_field fs1 k v fs2 :
  Forall (fun kv => distinct k kv.1 = true /\ good_name kv.1 = true /\ clean kv.2) fs1 ->
  strstr (print_fields (fs1 ++ (k, v) :: fs2)) (bxxt_dot ++ str k ++ [61]) =
    Some (blen (print_fields fs1)).
Proof.
  unfold strstr, print_fields. induction 1 as [|[k' v'] fs1 (Hd & Hg & Hv) Hfs IH].
  - cbn [app map concat]. apply find_this.
  - cbn [app map concat]. rewrite find_other, IH by done. cbn [mbind option_bind].
    by rewrite blen_app.
Qed.

(** ** Scanning a field *)

Lemma field_names_ok : Forall formats_ok field_names.
Proof. repeat (apply Forall_cons_2; [split; reflexivity|]). apply Forall_nil_2. Qed.

(** The mapping of a text that does not fill its last page is a C string. *)
Lemma map_pages_cstring s :
  0 ∉ s -> blen s mod PAGE <> 0 -> cstring (map_pages s) = Some s.
Proof.
  intros Hs Hl. unfold map_pages. pose proof (Z.mod_pos_bound (- blen s) PAGE eq_refl).
  assert ((- blen s) mod PAGE <> 0) as H0 by (unfold PAGE in *; zlia).
  replace ((- blen s) mod PAGE) with (1 + ((- blen s) mod PAGE - 1)) by lia.
  rewrite zeros_S by lia. by apply cstring_app.
Qed.

Lemma print_fields_app a b : print_fields (a ++ b) = print_fields a ++ print_fields b.
Proof. unfold print_fields. by rewrite map_app, concat_app. Qed.

Lemma scan_at fs1 k v fs2 m conv ds :
  cstring m = Some (print_fields (fs1 ++ (k, v) :: fs2)) ->
  Forall (fun kv => distinct k kv.1 = true /\ good_name kv.1 = true /\ clean kv.2) fs1 ->
  parse_format (S (length (meta_name k ++ str "=" ++ conv))) (meta_name k ++ str "=" ++ conv) =
    Some (map DLit (meta_name k ++ str "=") ++ ds) ->
  scan_text m (meta_name k) conv =
    let '(vs, eof) := scan ds (v ++ 10 :: print_fields fs2) [] in
    Some (if (blen vs =? 0) && eof then -1 else blen vs, vs).
Proof.
  intros Hm Hfs Hfmt. unfold scan_text. rewrite Hm. cbn [mbind option_bind].
  pose proof (find_field fs1 k v fs2 Hfs) as Hf.
  replace (meta_name k ++ str "=") with (bxxt_dot ++ str k ++ [61])
    by (unfold meta_name; by rewrite <- app_assoc).
  rewrite Hf. unfold sscanf. rewrite Hfmt. cbn [mbind option_bind].
  rewrite print_fields_app. unfold blen at 1. rewrite Nat2Z.id, drop_app_length.
  change (print_fields ((k, v) :: fs2)) with (p_meta k v ++ print_fields fs2).
  replace (p_meta k v ++ print_fields fs2)
    with ((meta_name k ++ str "=") ++ v ++ 10 :: print_fields fs2).
  - by rewrite scan_lits.
  - unfold p_meta, meta_name. rewrite <- !app_assoc. done.
Qed.

Lemma scan_xint fs1 k n fs2 m :
  cstring m = Some (print_fields (fs1 ++ (k, fmt_x n) :: fs2)) -> is_u64 n -> formats_ok k ->
  Forall (fun kv => distinct k kv.1 = true /\ good_name kv.1 = true /\ clean kv.2) fs1 ->
  scan_text m (meta_name k) (str "%x") = Some (1, [SInt (n mod 2 ^ 32)]).
Proof.
  intros Hm Hn [Hx _] Hfs. rewrite (scan_at fs1 k (fmt_x n) fs2 m _ [DHex 32]) by done.
  cbn [scan]. by rewrite scan_hex_fmt.
Qed.

Lemma scan_string fs1 k v fs2 m :
  cstring m = Some (print_fields (fs1 ++ (k, v) :: fs2)) -> clean v -> formats_ok k ->
  Forall (fun kv => distinct k kv.1 = true /\ good_name kv.1 = true /\ clean kv.2) fs1 ->
  scan_text m (meta_name k) (str "%[^" ++ [10] ++ str "]") =
    match v with [] => Some (0, []) | _ => Some (1, [SStr v]) end.
Proof.
  intros Hm [_ [Hv _]] [_ Hx] Hfs. rewrite (scan_at fs1 k v fs2 m _ [DSet true [10]]) by done.
  cbn [scan]. rewrite span_all; [by destruct v| |done].
  apply Forall_forall. intros x Hx'. unfold in_set. rewrite bool_decide_false; [done|].
  intros ->%list_elem_of_singleton. done.
Qed.

(** Printed numbers are clean. *)
Lemma fmt_x_clean n : is_u64 n -> clean (fmt_x n).
Proof.
  intros Hn. destruct (fmt_x_spec n Hn) as (d & ds & -> & Hd & _).
  assert (forall c, ~ is_digit_char c -> c ∉ d :: ds) as Hno.
  { intros c Hc Hin. rewrite Forall_forall in Hd. by apply Hc, Hd. }
  split; [|split].
  - apply (find_absent _ 120); [apply (bool_decide_unpack _); by vm_compute|].
    apply Hno. unfold is_digit_char. lia.
  - apply Hno. unfold is_digit_char. lia.
  - apply Hno. unfold is_digit_char. lia.
Qed.

(** ** Fields of the header in memory *)

Lemma mwrite_field i fs (e t d : bytes) :
  fs !! i = Some (e ++ t) -> blen d = blen e ->
  mwrite (concat fs) (blen (concat (take i fs))) d = Some (concat (<[i := d ++ t]> fs)).
Proof.
  intros Hi Hd. rewrite <- (take_drop_middle _ _ _ Hi) at 1.
  rewrite insert_take_drop by (apply lookup_lt_is_Some; by eexists).
  rewrite !concat_app. cbn [concat]. rewrite <- !app_assoc. by apply mwrite_app.
Qed.

Lemma cstr_field i fs s r :
  fs !! i = Some (s ++ 0 :: r) -> 0 ∉ s ->
  cstr_at (concat fs) (blen (concat (take i fs))) = Some s.
Proof.
  intros Hi Hs. rewrite <- (take_drop_middle _ _ _ Hi) at 1.
  rewrite concat_app. cbn [concat]. unfold cstr_at. rewrite blen_app.
  pose proof (blen_nonneg (concat (take i fs))).
  pose proof (blen_nonneg ((s ++ 0 :: r) ++ concat (drop (S i) fs))).
  replace (_ && _) with true by lia. unfold blen at 1. rewrite Nat2Z.id, drop_app_length.
  rewrite <- app_assoc. cbn [app]. by apply cstring_app.
Qed.

Lemma distinct_names j k :
  field_names !! j = Some k -> Forall (fun k' => distinct k k' = true) (take j field_names).
Proof.
  do 19 (destruct j as [|j]; [intros [= <-]; cbn [take field_names];
    repeat (apply Forall_cons_2; [reflexivity|]); apply Forall_nil_2|]).
  done.
Qed.

Lemma good_names : Forall (fun k => good_name k = true) field_names.
Proof. repeat (apply Forall_cons_2; [reflexivity|]). apply Forall_nil_2. Qed.

Lemma no_nul F :
  Forall (fun kv => (0 ∉ str kv.1) /\ (0 ∉ kv.2)) F -> 0 ∉ print_fields F.
Proof.
  induction 1 as [|[k v] F [Hk Hv] HF IH]; [apply not_elem_of_nil|].
  change (print_fields ((k, v) :: F)) with (p_meta k v ++ print_fields F).
  unfold p_meta. cbn [fst snd] in *. rewrite !elem_of_app.
  intros [[H|[H|[H|[H|H]]]]|H]; [|done| |done| |done]; revert H;
    apply (bool_decide_unpack _); by vm_compute.
Qed.

Section ReadBack.
(** A METADATA file with the nineteen fields, and a world in which it can be
    opened. *)
Context (F : list (string * bytes)) (HF : map fst F = field_names)
  (HC : Forall (fun kv => clean kv.2) F) (Hpage : blen (print_fields F) mod PAGE <> 0)
  (w : world) (file : path) (Hname : blen file < PATH_MAX)
  (Hperm : w_permit w file O_RDONLY = true)
  (Hfile : w_fs w !! file = Some (Regular (print_fields F))) (H0 : w_fds w !! 0 <> None).

Lemma lookup_name j k v : F !! j = Some (k, v) -> field_names !! j = Some k.
Proof. intros Hj. rewrite <- HF. by rewrite list_lookup_fmap, Hj. Qed.

Lemma fields_before j k v :
  F !! j = Some (k, v) ->
  Forall (fun kv => distinct k kv.1 = true /\ good_name kv.1 = true /\ clean kv.2) (take j F).
Proof.
  intros Hj. pose proof (distinct_names j k (lookup_name j k v Hj)) as Hd.
  pose proof (Forall_take _ j _ good_names) as Hg. pose proof (Forall_take _ j _ HC) as Hc.
  rewrite <- HF in Hd, Hg. rewrite <- fmap_take in Hd, Hg.
  change fmap with (@map (string * bytes) string) in Hd, Hg.
  rewrite Forall_map in Hd, Hg. rewrite Forall_forall in *. naive_solver.
Qed.

Lemma names_formats j k v : F !! j = Some (k, v) -> formats_ok k.
Proof.
  intros Hj%lookup_name. pose proof field_names_ok as H. rewrite Forall_lookup in H.
  by apply (H j).
Qed.

Lemma text_no_nul : 0 ∉ print_fields F.
Proof.
  pose proof good_names as Hg. rewrite <- HF in Hg. rewrite Forall_map in Hg.
  apply no_nul. rewrite Forall_forall in *. intros kv Hkv.
  specialize (Hg kv Hkv). cbn in Hg. unfold good_name in Hg.
  apply andb_true_iff in Hg as [_ Hk%bool_decide_eq_true].
  split; [done|]. by apply HC.
Qed.

Lemma text_mapped : cstring (map_pages (print_fields F)) = Some (print_fields F).
Proof. apply map_pages_cstring; [apply text_no_nul|done]. Qed.

Lemma scan_metadata_ok name fmt res :
  scan_text (map_pages (print_fields F)) name fmt = Some res ->
  bxxt_boot_scan_metadata file name fmt w = Some (res, w).
Proof.
  intros Hs.
  assert (print_fields F <> []) as Hne by (intros E; by rewrite E in Hpage).
  assert (bxxt_file_new_mm file O_RDONLY MODE_0644 =
            Some (File file O_RDONLY MODE_0644 true 0 0 MNull)) as Hnew.
  { unfold bxxt_file_new_mm, bxxt_file_new. by replace (blen file <? PATH_MAX) with true by lia. }
  destruct (open_mm w (File file O_RDONLY MODE_0644 true 0 0 MNull) (print_fields F))
    as (fd & Hfd & Hpos & Ho); [done..|].
  unfold bxxt_boot_scan_metadata. rewrite Hnew.
  unfold mbind, M_bind, lift. cbn [mbind option_bind]. rewrite Ho.
  change (negb (0 =? 0)) with false. cbn [f_ptr mbind option_bind]. rewrite Hs.
  cbn [mbind option_bind]. unfold bxxt_file_close, bxxt_file_close_no_free. cbn [f_fd].
  replace (negb (fd =? 0) && negb (fd =? -1)) with true by lia.
  unfold mbind, M_bind. by rewrite close_restores.
Qed.

(** Memory made of the twenty fields. *)
Lemma field_off i (fs : list bytes) :
  map length fs = hdr_widths -> blen (concat (take i fs)) = Z.of_nat (sum_list (take i hdr_widths)).
Proof.
  intros Hw. unfold blen. rewrite length_concat_sum, <- Hw.
  change (@map bytes nat) with (@fmap list _ bytes nat). by rewrite fmap_take.
Qed.

Lemma xint_field_ok j k n i fs off e t cont :
  map length fs = hdr_widths -> F !! j = Some (k, fmt_x n) -> is_u64 n ->
  off = Z.of_nat (sum_list (take i hdr_widths)) ->
  fs !! i = Some (e ++ t) -> blen e = 4 ->
  xint_field file k off (concat fs) cont w = cont (concat (<[i := le_bytes 4 n ++ t]> fs)) w.
Proof.
  intros Hw Hj Hn -> Hi He. rewrite <- (field_off i fs Hw).
  unfold xint_field, config_xint, mbind, M_bind.
  rewrite (scan_metadata_ok _ _ (1, [SInt (n mod 2 ^ 32)])).
  - cbn [store_at lift]. rewrite (mwrite_field i fs e t); [|done|by rewrite blen_le_bytes].
    cbn [mbind option_bind].
    change (2 ^ 32) with (256 ^ Z.of_nat 4). by rewrite le_bytes_mod.
  - apply (scan_xint (take j F) k n (drop (S j) F));
      [|done|by apply (names_formats j k (fmt_x n))|by apply (fields_before j k (fmt_x n))].
    rewrite take_drop_middle by done. apply text_mapped.
Qed.

Lemma xint_field_ok32 j k n i fs off e cont :
  map length fs = hdr_widths -> F !! j = Some (k, fmt_x n) -> is_u64 n ->
  off = Z.of_nat (sum_list (take i hdr_widths)) -> fs !! i = Some e -> blen e = 4 ->
  xint_field file k off (concat fs) cont w = cont (concat (<[i := le_bytes 4 n]> fs)) w.
Proof.
  intros Hw Hj Hn Ho Hi He. rewrite <- (app_nil_r (le_bytes 4 n)).
  apply (xint_field_ok j k n i fs off e []); rewrite ?app_nil_r; done.
Qed.

Lemma string_field_ok j k v i fs off max n cont :
  map length fs = hdr_widths -> F !! j = Some (k, v) ->
  off = Z.of_nat (sum_list (take i hdr_widths)) ->
  fs !! i = Some (zeros n) -> blen v < max <= n ->
  string_field file k off max (concat fs) cont w =
    cont (concat (<[i := v ++ zeros (n - blen v)]> fs)) w.
Proof.
  intros Hw Hj -> Hi Hv. rewrite <- (field_off i fs Hw). pose proof (blen_nonneg v).
  assert (clean v) as Hc.
  { rewrite Forall_lookup in HC. apply (HC j _ Hj). }
  assert (0 ∉ v) as H0v by apply Hc.
  assert (Hcs : cstr_at (concat (<[i := v ++ zeros (n - blen v)]> fs))
                  (blen (concat (take i fs))) = Some v).
  { replace (blen (concat (take i fs)))
      with (blen (concat (take i (<[i := v ++ zeros (n - blen v)]> fs))))
      by (by rewrite take_insert_ge).
    replace (n - blen v) with (1 + (n - blen v - 1)) by lia. rewrite zeros_S by lia.
    apply cstr_field with (r := zeros (n - blen v - 1)); [|done].
    rewrite list_lookup_insert_eq; [done|]. apply lookup_lt_is_Some. by eexists. }
  assert (scan_text (map_pages (print_fields F)) (meta_name k) (str "%[^" ++ [10] ++ str "]") =
            match v with [] => Some (0, []) | _ => Some (1, [SStr v]) end) as Hs.
  { apply (scan_string (take j F) k v (drop (S j) F));
      [|done|by apply (names_formats j k v)|by apply (fields_before j k v)].
    rewrite take_drop_middle by done. apply text_mapped. }
  unfold string_field, config_string, mbind, M_bind, mret, M_ret, lift. fold (meta_name k).
  destruct v as [|c v].
  - rewrite (scan_metadata_ok _ _ _ Hs). cbn [store_at lift mbind option_bind].
    cbn [app] in Hcs. change (blen []) with 0 in *. rewrite Z.sub_0_r in *.
    rewrite list_insert_id in Hcs by done. cbn [app]. rewrite list_insert_id by done.
    rewrite Hcs. cbn [mbind option_bind]. by replace (max <=? blen (@nil Z)) with false by (rewrite blen_nil; lia).
  - rewrite (scan_metadata_ok _ _ _ Hs). cbn [store_at lift].
    rewrite (mwrite_field i fs (zeros (blen (c :: v) + 1)) (zeros (n - blen (c :: v) - 1)));
      [|rewrite Hi; f_equal; unfold zeros; rewrite <- replicate_add; f_equal; lia
       |rewrite blen_zeros, blen_app by lia; done].
    cbn [mbind option_bind]. rewrite <- (app_assoc (c :: v)).
    replace ([0] ++ zeros (n - blen (c :: v) - 1)) with (zeros (n - blen (c :: v))); last first.
    { cbn [app]. rewrite <- zeros_S by lia. f_equal. lia. }
    rewrite Hcs. cbn [mbind option_bind]. by replace (max <=? blen (c :: v)) with false by lia.
Qed.
End ReadBack.

Lemma is_u32_u64 n : is_u32 n -> is_u64 n.
Proof. unfold is_u32, is_u64. lia. Qed.

Lemma compression_range m o c : bxxt_boot_detect_kernel_compression m o = Some c -> is_u64 c.
Proof.
  unfold bxxt_boot_detect_kernel_compression. destruct (mread m o 2) as [d|]; [|done].
  cbn [mbind option_bind]. intros [= <-]. by repeat case_match.
Qed.

Lemma meta_fields_clean b nm cl ec F :
  printable b nm cl ec -> meta_fields b = Some F ->
  map fst F = field_names /\ Forall (fun kv => clean kv.2) F.
Proof.
  intros [[_ Hw Hl _] Hs Hn Hc He (Cn & Cc & Ce) _] HF. unfold meta_fields in HF.
  rewrite Hn, Hc, He in HF. cbn [mbind option_bind] in HF.
  destruct (mm b) as [m|]; [|discriminate HF]. cbn [mbind option_bind] in HF.
  destruct (bxxt_boot_detect_kernel_compression m (mm_kernel_ptr b)) as [kc|] eqn:Hkc;
    [|discriminate HF]. cbn [mbind option_bind] in HF.
  apply compression_range in Hkc. injection HF as <-. split; [reflexivity|].
  repeat (apply Forall_cons in Hw as [?%is_u32_u64 Hw]).
  repeat (apply Forall_cons in Hl as [? Hl]).
  repeat (apply Forall_cons in Hs as [?%is_u32_u64 Hs]).
  repeat (apply Forall_cons_2; [first [by apply fmt_x_clean|assumption]|]).
  apply Forall_nil_2.
Qed.

Lemma widths_insert i fs (x : bytes) ws :
  map length fs = ws -> ws !! i = Some (length x) -> map length (<[i := x]> fs) = ws.
Proof.
  intros Hw Hi. change (@map bytes nat) with (@fmap list _ bytes nat) in *.
  rewrite list_fmap_insert, Hw. by apply list_insert_id.
Qed.

Lemma le_bytes_4_8 n : le_bytes 4 n ++ zeros 4 = le_bytes 8 (u32 n).
Proof.
  change 8%nat with (4 + 4)%nat. rewrite le_bytes_app.
  change (u32 n) with (n mod 256 ^ Z.of_nat 4) at 1. rewrite le_bytes_mod. f_equal.
  replace (u32 n / 256 ^ Z.of_nat 4) with 0; [done|].
  symmetry. apply Z.div_small. apply (u32_range n).
Qed.

(** The lines the reader looks for. *)
Lemma meta_fields_lines b nm cl ec F :
  printable b nm cl ec -> meta_fields b = Some F ->
  let h := hdr b in
  Forall (fun '(j, k, v) => F !! j = Some (k, v))
    [(7%nat, "cmdline"%string, cl); (8%nat, "extra_cmdline"%string, ec); (6%nat, "name"%string, nm);
     (12%nat, "header_size"%string, fmt_x (header_size h));
     (0%nat, "kernel_addr"%string, fmt_x (kernel_addr h));
     (1%nat, "ramdisk_addr"%string, fmt_x (ramdisk_addr h));
     (2%nat, "second_addr"%string, fmt_x (second_addr h));
     (3%nat, "tags_addr"%string, fmt_x (tags_addr h));
     (13%nat, "page_size"%string, fmt_x (hdr_page_size h));
     (10%nat, "header_version"%string, fmt_x (header_version h));
     (11%nat, "os_version"%string, fmt_x (os_version h));
     (5%nat, "recovery_dtbo_offset"%string, fmt_x (recovery_dtbo_offset h));
     (4%nat, "dtb_addr"%string, fmt_x (dtb_addr h))].
Proof.
  intros [_ _ Hn Hc He _ _] HF h. unfold meta_fields in HF.
  rewrite Hn, Hc, He in HF. cbn [mbind option_bind] in HF.
  destruct (mm b) as [m|]; [|discriminate HF]. cbn [mbind option_bind] in HF.
  destruct (bxxt_boot_detect_kernel_compression m (mm_kernel_ptr b)) as [kc|]; [|discriminate HF].
  cbn [mbind option_bind] in HF. injection HF as <-.
  repeat (apply Forall_cons_2; [reflexivity|]). apply Forall_nil_2.
Qed.

(** The fields after all lines are read. *)
Lemma restored_bytes h nm cl ec :
  mwrite (concat [zeros 8; zeros 4; le_bytes 4 (kernel_addr h); zeros 4; le_bytes 4 (ramdisk_addr h);
     zeros 4; le_bytes 4 (second_addr h); le_bytes 4 (tags_addr h); le_bytes 4 (hdr_page_size h);
     le_bytes 4 (header_version h); le_bytes 4 (os_version h);
     nm ++ zeros (BOOT_NAME_SIZE - blen nm); cl ++ zeros (BOOT_ARGS_SIZE - blen cl); zeros 32;
     ec ++ zeros (BOOT_EXTRA_ARGS_SIZE - blen ec); zeros 4;
     le_bytes 4 (recovery_dtbo_offset h) ++ zeros 4; le_bytes 4 (header_size h); zeros 4;
     le_bytes 4 (dtb_addr h) ++ zeros 4]) 0 (BOOT_MAGIC ++ [0]) =
    Some (hdr_bytes (restored h nm cl ec)).
Proof.
  rewrite !le_bytes_4_8. unfold hdr_bytes, hdr_fields, restored. hdr_cbn. cbn [concat].
  change (zeros 8 ++ zeros 4 ++ ?r) with ([] ++ zeros 9 ++ zeros 3 ++ r).
  change 0 with (blen (@nil Z)) at 1. rewrite mwrite_app by done. done.
Qed.

(** The lengths of the fields after one is replaced by [x]. *)
Ltac widths_step Hw i x :=
  let Hi := fresh in let Hw' := fresh "Hw" in
  assert (hdr_widths !! i = Some (length x)) as Hi
    by (cbn [hdr_widths lookup list_lookup]; f_equal;
        rewrite ?length_app, ?length_le_bytes; unfold zeros, blen in *;
        rewrite ?length_replicate;
        unfold BOOT_NAME_SIZE, BOOT_ARGS_SIZE, BOOT_EXTRA_ARGS_SIZE in *; lia);
  pose proof (widths_insert i _ x _ Hw Hi) as Hw'; clear Hw Hi;
  cbn [insert list_insert] in Hw' |- *; cbv beta.

(** Executes the next field of the goal against line [j] of the file: field
    [i] of the header, with value [v], or [n] followed by the bytes [t]. *)
Ltac str_step H j v i n :=
  lazymatch goal with
  | Hw : map length ?fs = hdr_widths |- string_field _ ?k _ _ _ _ _ = _ =>
      erewrite (H j k v i fs _ _ n); [|exact Hw|match goal with HL : _ !! j = Some (k, _) |- _ => exact HL end|reflexivity|reflexivity|
        pose proof (blen_nonneg v);
        unfold BOOT_NAME_SIZE, BOOT_ARGS_SIZE, BOOT_EXTRA_ARGS_SIZE in *; lia];
      widths_step Hw i (v ++ zeros (n - blen v))
  end.
Ltac int_step H j n i e t :=
  lazymatch goal with
  | Hw : map length ?fs = hdr_widths |- xint_field _ ?k _ _ _ _ = _ =>
      rewrite (H j k n i fs _ e t);
        [|exact Hw|match goal with HL : _ !! j = Some (k, _) |- _ => exact HL end
         |match goal with HL : is_u64 n |- _ => exact HL end|reflexivity|reflexivity|reflexivity];
      widths_step Hw i (le_bytes 4 n ++ t)
  end.
Ltac int_step32 H j n i e :=
  lazymatch goal with
  | Hw : map length ?fs = hdr_widths |- xint_field _ ?k _ _ _ _ = _ =>
      rewrite (H j k n i fs _ e);
        [|exact Hw|match goal with HL : _ !! j = Some (k, _) |- _ => exact HL end
         |match goal with HL : is_u64 n |- _ => exact HL end|reflexivity|reflexivity|reflexivity];
      widths_step Hw i (le_bytes 4 n)
  end.

Section Restore.
Context (b : bxxt_boot) (nm cl ec : bytes) (F : list (string * bytes))
  (Hb : printable b nm cl ec) (HF : meta_fields b = Some F)
  (Hpage : blen (print_fields F) mod PAGE <> 0)
  (w : world) (file : path) (Hname : blen file < PATH_MAX)
  (Hperm : w_permit w file O_RDONLY = true)
  (Hfile : w_fs w !! file = Some (Regular (print_fields F))) (H0 : w_fds w !! 0 <> None).

Lemma restore_ok :
  bxxt_boot_hdr_from_metadata file w = Some ((BXXT_SUCCESS, hdr_bytes (restored (hdr b) nm cl ec)), w).
Proof.
  destruct (meta_fields_clean b nm cl ec F Hb HF) as [Hk HC].
  pose proof (meta_fields_lines b nm cl ec F Hb HF) as HL. cbv zeta in HL.
  destruct Hb as [[_ Hw32 Hw64 _] _ _ _ _ _ (Fn & Fc & Fe)].
  repeat (apply Forall_cons in Hw32 as [?%is_u32_u64 Hw32]).
  repeat (apply Forall_cons in Hw64 as [? Hw64]).
  repeat (apply Forall_cons in HL as [? HL]). clear HL Hw32 Hw64.
  pose proof (fun j k v i fs off max n cont =>
    string_field_ok F Hk HC Hpage w file Hname Hperm Hfile H0 j k v i fs off max n cont) as Hstr.
  pose proof (fun j k n i fs off e t cont =>
    xint_field_ok F Hk HC Hpage w file Hname Hperm Hfile H0 j k n i fs off e t cont) as Hint.
  pose proof (fun j k n i fs off e cont =>
    xint_field_ok32 F Hk HC Hpage w file Hname Hperm Hfile H0 j k n i fs off e cont) as Hint32.
  unfold bxxt_boot_hdr_from_metadata.
  replace (zeros sizeof_hdr) with (concat zero_fields) by (by vm_compute).
  assert (map length zero_fields = hdr_widths) as Hw0 by reflexivity.
  unfold zero_fields in *. set (h := hdr b) in *.
  str_step Hstr 7%nat cl 12%nat 512.
  str_step Hstr 8%nat ec 14%nat 1024.
  str_step Hstr 6%nat nm 11%nat 16.
  int_step32 Hint32 12%nat (header_size h) 17%nat (zeros 4).
  int_step32 Hint32 0%nat (kernel_addr h) 2%nat (zeros 4).
  int_step32 Hint32 1%nat (ramdisk_addr h) 4%nat (zeros 4).
  int_step32 Hint32 2%nat (second_addr h) 6%nat (zeros 4).
  int_step32 Hint32 3%nat (tags_addr h) 7%nat (zeros 4).
  int_step32 Hint32 13%nat (hdr_page_size h) 8%nat (zeros 4).
  int_step32 Hint32 10%nat (header_version h) 9%nat (zeros 4).
  int_step32 Hint32 12%nat (header_size h) 17%nat (le_bytes 4 (header_size h)).
  int_step32 Hint32 11%nat (os_version h) 10%nat (zeros 4).
  int_step Hint 5%nat (recovery_dtbo_offset h) 16%nat (zeros 4) (zeros 4).
  int_step Hint 4%nat (dtb_addr h) 19%nat (zeros 4) (zeros 4).
  unfold mbind, M_bind, lift. by rewrite restored_bytes.
Qed.
End Restore.

(** A text that ends with its last page is not a C string in memory. *)
Lemma cstring_none s : 0 ∉ s -> cstring s = None.
Proof.
  induction s as [|c s IH]; intros Hs; [done|].
  apply not_elem_of_cons in Hs as [Hc Hs]. cbn [cstring].
  replace (c =? 0) with false by lia. by rewrite IH.
Qed.

Lemma map_pages_full s : 0 ∉ s -> blen s mod PAGE = 0 -> cstring (map_pages s) = None.
Proof.
  intros Hs Hl. unfold map_pages. replace ((- blen s) mod PAGE) with 0 by (unfold PAGE in *; zlia).
  change (zeros 0) with (@nil Z). rewrite app_nil_r. by apply cstring_none.
Qed.

Lemma sample_printable : printable sample_boot [] [] [].
Proof.
  split; [exact (wfi_hdr _ _ sample_well_formed)| |reflexivity|reflexivity|reflexivity| |done].
  - repeat constructor; by vm_compute.
  - assert (clean []) by (split; [done|split; apply not_elem_of_nil]). done.
Qed.

(** ** Theorems *)

(** What is written to METADATA is read back: for printable descriptors,
    parsing the printed file restores the magic, the addresses, the page size,
    the versions, the header size and the three strings, and returns the world
    unchanged.  The two 64-bit fields keep their low 32 bits only: an address
    of 4 GiB or more is not restored. *)
Theorem metadata_roundtrip b nm cl ec text w file
    (Hb : printable b nm cl ec) (Ht : bxxt_boot_print_meta_info_file b = Some text)
    (Hpage : blen text mod PAGE <> 0) (Hname : blen file < PATH_MAX)
    (Hperm : w_permit w file O_RDONLY = true)
    (Hfile : w_fs w !! file = Some (Regular text)) (H0 : w_fds w !! 0 <> None) :
  let h' := restored (hdr b) nm cl ec in
  bxxt_boot_hdr_from_metadata file w = Some ((BXXT_SUCCESS, hdr_bytes h'), w) /\
  (dtb_addr h' = dtb_addr (hdr b) <-> dtb_addr (hdr b) < 2 ^ 32) /\
  (recovery_dtbo_offset h' = recovery_dtbo_offset (hdr b) <->
   recovery_dtbo_offset (hdr b) < 2 ^ 32).
Proof.
  unfold bxxt_boot_print_meta_info_file in Ht.
  destruct (meta_fields b) as [F|] eqn:HF; [|discriminate Ht]. injection Ht as <-.
  split; [by apply (restore_ok b nm cl ec F)|].
  pose proof (wf_longs _ (pr_hdr _ _ _ _ Hb)) as Hl.
  apply Forall_cons in Hl as [H1 Hl]. apply Forall_cons in Hl as [H2 _].
  cbn [restored dtb_addr recovery_dtbo_offset].
  split; split; intros H; unfold u32, is_u64 in *; pow2; zlia.
Qed.

Lemma metadata_roundtrip_witness :
  bxxt_boot_hdr_from_metadata (str "m") (one_file (str "m") sample_text) =
    Some ((BXXT_SUCCESS, hdr_bytes (restored sample_hdr [] [] [])), one_file (str "m") sample_text).
Proof.
  refine (proj1 (metadata_roundtrip sample_boot [] [] [] sample_text
    (one_file (str "m") sample_text) (str "m") sample_printable _ _ _ _ _ _)).
  - vm_compute. reflexivity.
  - vm_compute. discriminate.
  - reflexivity.
  - reflexivity.
  - vm_compute. reflexivity.
  - vm_compute. discriminate.
Defined.

(** A METADATA file without NUL whose size is a multiple of the page size
    is mapped without a terminator: looking up any field in it reads past the
    mapping (undefined behaviour). *)
Theorem metadata_overread text w file nm fmt
    (Hne : text <> []) (Hz : 0 ∉ text) (Hpage : blen text mod PAGE = 0)
    (Hname : blen file < PATH_MAX) (Hperm : w_permit w file O_RDONLY = true)
    (Hfile : w_fs w !! file = Some (Regular text)) (H0 : w_fds w !! 0 <> None) :
  bxxt_boot_scan_metadata file nm fmt w = None.
Proof.
  assert (bxxt_file_new_mm file O_RDONLY MODE_0644 =
            Some (File file O_RDONLY MODE_0644 true 0 0 MNull)) as Hnew.
  { unfold bxxt_file_new_mm, bxxt_file_new. by replace (blen file <? PATH_MAX) with true by lia. }
  destruct (open_mm w (File file O_RDONLY MODE_0644 true 0 0 MNull) text)
    as (fd & Hfd & Hpos & Ho); [done..|].
  unfold bxxt_boot_scan_metadata. rewrite Hnew.
  unfold mbind, M_bind, lift. cbn [mbind option_bind]. rewrite Ho.
  change (negb (0 =? 0)) with false. cbn [f_ptr mbind option_bind].
  unfold scan_text. by rewrite map_pages_full.
Qed.

Lemma metadata_overread_witness :
  bxxt_boot_scan_metadata (str "m") (str "bxxt.name") (str "%x")
    (one_file (str "m") (replicate 4096 65)) = None.
Proof.
  apply (metadata_overread (replicate 4096 65)).
  - discriminate.
  - rewrite elem_of_replicate. lia.
  - reflexivity.
  - reflexivity.
  - reflexivity.
  - vm_compute. reflexivity.
  - vm_compute. discriminate.
Defined.
