(* ===== verification/Pack.v ===== *)
(** The drivers of [bxxt boot] (boot.c): [bxxt_boot_pack_all] rebuilds an
    image from an extracted tree, [bxxt_boot_unpack_all] extracts one.

    The archive and device tree code they call is behind an interface, the
    class [Toolchain]: the files cpio.c and dtcc.c and the libraries under
    libarchive/ and libdtc/ provide it.  The drivers are defined, and their
    theorems proved, for every implementation. *)
From S2P Require Import Prelude Stdio Posix Util Sha1 Boot Metadata.

(** ** What the drivers call *)

Class Toolchain := {
  (* [bxxt_boot_compress_from_file]: [None] when the file cannot be read *)
  compress_from_file : path -> Z -> M (option bxxt_buffer);
  (* [bxxt_boot_decompress_to_file] *)
  decompress_to_file : bytes -> Z -> path -> M Z;
  (* [bxxt_cpio_archive_out], [bxxt_cpio_archive_in] *)
  cpio_archive_out : path -> M (Z * bxxt_buffer);
  cpio_archive_in : bxxt_buffer -> path -> M Z;
  (* [bxxt_dtcc_dtb_from_source], [bxxt_dtcc_dtb_to_source] *)
  dtb_from_source : path -> M bxxt_buffer;
  dtb_to_source : bytes -> path -> M Z
}.

Section Drivers.
Context `{Toolchain}.
(** Fresh heap memory, and the stack memory a SHA-1 context starts with. *)
Context (junk : Z -> Z) (sjunk : bytes).

(** [sprintf(path, "%s/%s", ...)] into [char path[PATH_MAX]]. *)
Definition sprintf_path (abspath : path) (name : bytes) : option path :=
  let p := abspath ++ str "/" ++ name in
  if blen p <? PATH_MAX then Some p else None.

Definition is_reg (st : option (bool * Z)) : bool :=
  match st with Some (dir, _) => negb dir | None => false end.
Definition is_dir (st : option (bool * Z)) : bool :=
  match st with Some (dir, _) => dir | None => false end.
(** [stat(path, &st) == 0 && st.st_size > 0] *)
Definition has_data (st : option (bool * Z)) : bool :=
  match st with Some (_, sz) => 0 <? sz | None => false end.

(** [for (ctr = 0; ctr < 0xff; ctr++)] over the numbered source files. *)
Fixpoint compile_loop (fuel : nat) (ctr : Z) (abspath : path) (prefix : string)
    (blob : bxxt_buffer) : M bxxt_buffer :=
  match fuel with
  | O => mret blob
  | S fuel =>
      p ← lift (sprintf_path abspath (str prefix ++ fmt_0x 2 ctr));
      st ← stat p;
      if negb (is_reg st) then mret blob
      else
        dt ← dtb_from_source p;
        '(_, blob) ← lift (bxxt_buffer_concat_from_data junk blob (ptr dt) (size dt));
        compile_loop fuel (ctr + 1) abspath prefix blob
  end.

Definition bxxt_boot_compile_fs2blob (abspath : path) (prefix : string) : M bxxt_buffer :=
  compile_loop 255 0 abspath prefix (bxxt_buffer_create 0).

(** The macro [pad_data]; [page_size] is an [int]. *)
Definition pad_data (img buffer : bxxt_buffer) (page_size : Z) : option bxxt_buffer :=
  '(_, img) ← bxxt_buffer_concat_from_data junk img (ptr buffer) (size buffer);
  '(_, img) ← bxxt_buffer_align junk img (u64 page_size);
  Some img.

(** A field of the header at the start of the image is assigned. *)
Definition set_field (off : Z) (img : bxxt_buffer) (value : Z) : option bxxt_buffer :=
  p ← mwrite (ptr img) off (le_bytes 4 value); Some (Buffer (size img) p).

Definition off_kernel_size := 8.
Definition off_ramdisk_size := 16.
Definition off_second_size := 24.
Definition off_id := 576.
Definition off_recovery_dtbo_size := 1632.
Definition off_dtb_size := 1648.

(** An optional section: a file that exists and is not empty. *)
Definition optional_section (abspath : path) (name : string) (off page_size : Z)
    (img : bxxt_buffer) : M bxxt_buffer :=
  p ← lift (sprintf_path abspath (str name));
  st ← stat p;
  if has_data st then
    tmp ← bxxt_boot_read_from junk p;
    img ← lift (set_field off img (size tmp));
    lift (pad_data img tmp page_size)
  else mret img.

(** The last steps: parse the image, sign it, write it. *)
Definition sign_and_write (img : bxxt_buffer) (name : path) : M Z :=
  '(_, boot) ← lift (bxxt_boot_init1 sjunk false bxxt_boot_new (ptr img) (size img) false);
  sha1 ← lift (bxxt_boot_img_signature sjunk boot);
  _ ← lift (mm boot);
  p ← lift (mwrite (ptr img) off_id sha1);
  bxxt_boot_write_to p 0 (size img) name.

Definition bxxt_boot_pack_all (skip_unknown_data : bool) (abspath name : path) : M Z :=
  meta ← lift (sprintf_path abspath (str "METADATA"));
  '(r, hdr) ← bxxt_boot_hdr_from_metadata meta;
  if negb (r =? BXXT_SUCCESS) then mret r
  else
    '(_, vs) ← bxxt_boot_scan_metadata meta (str "bxxt.kernel_compression") (str "%x");
    let compression := match vs with [SInt v] => s32 v | _ => KERNEL_COMPRESSION_GZIP end in
    img ← lift (bxxt_buffer_create_from_data hdr sizeof_hdr);
    ps ← lift (mread (ptr img) off_page_size 4);
    let page_size := s32 (le_val ps) in
    '(_, img) ← lift (bxxt_buffer_align junk img (u64 page_size));
    p ← lift (sprintf_path abspath (str "kernel"));
    tmp ← compress_from_file p compression;
    match tmp with
    | None => mret BXXT_FAILED
    | Some tmp =>
        dt ← bxxt_boot_compile_fs2blob abspath "kernel.dts-";
        '(_, tmp) ← lift (bxxt_buffer_concat_from_data junk tmp (ptr dt) (size dt));
        img ← lift (set_field off_kernel_size img (size tmp));
        img ← lift (pad_data img tmp page_size);
        p ← lift (sprintf_path abspath (str "ramdisk"));
        st ← stat p;
        if negb (is_dir st) then mret BXXT_FAILED
        else
          '(r, tmp) ← cpio_archive_out p;
          if negb (r =? BXXT_SUCCESS) then mret r
          else
            img ← lift (set_field off_ramdisk_size img (size tmp));
            img ← lift (pad_data img tmp page_size);
            img ← optional_section abspath "second" off_second_size page_size img;
            img ← optional_section abspath "recovery_dtbo" off_recovery_dtbo_size page_size img;
            tmp ← bxxt_boot_compile_fs2blob abspath "dt.dts-";
            img ← lift (set_field off_dtb_size img (size tmp));
            img ← lift (pad_data img tmp page_size);
            p ← lift (sprintf_path abspath (str "extra.data"));
            st ← stat p;
            img ← (if negb skip_unknown_data && has_data st then
                     tmp ← bxxt_boot_read_from junk p;
                     lift (pad_data img tmp page_size)
                   else mret img);
            sign_and_write img name
    end.

(** ** Extraction *)

Fixpoint decompile_loop (ctr : Z) (dtb : list (Z * Z)) (m : bytes) (abspath : path)
    (prefix : string) : M unit :=
  match dtb with
  | [] => mret ()
  | (off, sz) :: dtb =>
      p ← lift (sprintf_path abspath (str prefix ++ fmt_0x 2 ctr));
      d ← lift (mread m off sz);
      _ ← dtb_to_source d p;
      decompile_loop (ctr + 1) dtb m abspath prefix
  end.

Definition bxxt_boot_decompile_dt2fs (dtb : list (Z * Z)) (m : bytes) (abspath : path)
    (prefix : string) : M unit :=
  decompile_loop 0 dtb m abspath prefix.

(** A section written to a file of its own when it is not empty. *)
Definition extract_section (m : bytes) (off sz : Z) (abspath : path) (name : string) : M unit :=
  p ← lift (sprintf_path abspath (str name));
  if sz =? 0 then mret () else _ ← bxxt_boot_write_to m off sz p; mret ().

(** [fopen(path, "wb")]; the buffered text reaches the file at [fclose]. *)
Definition fopen_wb (p : path) : M Z := open p (Z.lor (Z.lor O_WRONLY O_CREAT) O_TRUNC) 438.
Definition fclose_text (fd : Z) (text : bytes) : M unit :=
  _ ← write fd text; _ ← close fd; mret ().

Definition bxxt_boot_unpack_all (force_no_compat_check : bool) (name abspath : path) : M Z :=
  p ← lift (sprintf_path abspath (str "METADATA"));
  meta ← fopen_wb p;
  if meta =? -1 then mret BXXT_FAILED
  else
    '(r, image, b) ← bxxt_boot_open_file sjunk force_no_compat_check bxxt_boot_new name;
    if negb (r =? BXXT_SUCCESS) then
      _ ← fclose_text meta [];
      mret r
    else
      m ← lift (mm b);
      k ← lift (mread m (mm_kernel_ptr b) (kernel_size b));
      p ← lift (sprintf_path abspath (str "kernel"));
      _ ← decompress_to_file k (kernel_compression b) p;
      _ ← extract_section m (mm_recovery_dtbo_ptr b) (recovery_dtbo_size b) abspath "recovery_dtbo";
      _ ← extract_section m (mm_second_ptr b) (second_size b) abspath "second";
      _ ← extract_section m (mm_pad_ptr b) (pad_size b) abspath "extra.data";
      _ ← bxxt_boot_decompile_dt2fs (kernel_dtb b) m abspath "kernel.dts-";
      _ ← bxxt_boot_decompile_dt2fs (dtb b) m abspath "dt.dts-";
      p ← lift (sprintf_path abspath (str "ramdisk"));
      d ← lift (mread m (mm_ramdisk_ptr b) (ramdisk_size b));
      fs ← lift (bxxt_buffer_create_from_data d (ramdisk_size b));
      _ ← mkdir p 493;
      _ ← (if 0 <? ramdisk_size b then cpio_archive_in fs p else mret 0);
      text ← lift (bxxt_boot_print_meta_info_file b);
      _ ← fclose_text meta text;
      _ ← bxxt_file_close image;
      mret BXXT_SUCCESS.
End Drivers.

(** ** Vocabulary of the proofs *)

(** The header with the fields the packer computes. *)
Definition sized (h : boot_img_hdr) (k r s y d : Z) (i : bytes) : boot_img_hdr :=
  Hdr (magic h) k (kernel_addr h) r (ramdisk_addr h) s (second_addr h) (tags_addr h)
    (hdr_page_size h) (header_version h) (os_version h) (name h) (cmdline h) i
    (extra_cmdline h) y (recovery_dtbo_offset h) (header_size h) d (dtb_addr h).

(** A buffer that holds exactly [m]. *)
Definition buf (m : bytes) : bxxt_buffer := Buffer (blen m) m.

(** An optional input file holds [d], or is missing or empty. *)
Definition opt_file (w : world) (p : path) (d : bytes) : Prop :=
  (d = [] /\ forall x, w_fs w !! p = Some x -> x = Regular []) \/
  (d <> [] /\ w_fs w !! p = Some (Regular d) /\ w_permit w p O_RDONLY = true).

(** A section appended to an image under construction: the size field is set
    and the padded data appended. *)
Definition adds_section (page off : Z) (d m m' : bytes) : Prop :=
  mwrite m off (le_bytes 4 (blen d)) = Some m' /\ blen m' mod page = 0 /\
  blen m' + blen d < 2 ^ 31.

(** The sections of the finished image: the trailing data is padded. *)
Definition padded_extra (page : Z) (s : sections) : sections :=
  Sections (s_kernel s) (s_ramdisk s) (s_second s) (s_recovery s) (s_dtb s)
    (pad_to page (s_extra s)).

(** The packed header: the sizes of the sections, and [i] as id. *)
Definition hdr_for (h : boot_img_hdr) (s : sections) (i : bytes) : boot_img_hdr :=
  sized h (blen (s_kernel s)) (blen (s_ramdisk s)) (blen (s_second s)) (blen (s_recovery s))
    (blen (s_dtb s)) i.

(** Everything [bxxt_boot_pack_all] reads from the tree: the header METADATA
    describes, the compressed kernel and its device trees, the ramdisk
    archive, the optional files and the device trees of the dtb section. *)
Record pack_inputs `{Toolchain} (junk : Z -> Z) (w : world) (abspath : path) (h : boot_img_hdr)
    (compr : Z) (kraw : bytes) (kds dds : list bytes) (s : sections) : Prop := {
  in_meta : exists p, sprintf_path abspath (str "METADATA") = Some p /\
    bxxt_boot_hdr_from_metadata p w =
      Some ((BXXT_SUCCESS, hdr_bytes (sized h 0 0 0 0 0 (zeros 32))), w) /\
    bxxt_boot_scan_metadata p (str "bxxt.kernel_compression") (str "%x") w =
      Some ((1, [SInt compr]), w);
  in_kernel : exists p, sprintf_path abspath (str "kernel") = Some p /\
    compress_from_file p (s32 compr) w = Some (Some (buf kraw), w);
  in_kernel_dts : bxxt_boot_compile_fs2blob junk abspath "kernel.dts-" w =
    Some (buf (concat kds), w);
  in_kernel_section : s_kernel s = kraw ++ concat kds;
  in_ramdisk : exists p, sprintf_path abspath (str "ramdisk") = Some p /\
    w_fs w !! p = Some Directory /\
    cpio_archive_out p w = Some ((BXXT_SUCCESS, buf (s_ramdisk s)), w);
  in_second : exists p, sprintf_path abspath (str "second") = Some p /\ opt_file w p (s_second s);
  in_recovery : exists p, sprintf_path abspath (str "recovery_dtbo") = Some p /\
    opt_file w p (s_recovery s);
  in_dts : bxxt_boot_compile_fs2blob junk abspath "dt.dts-" w = Some (buf (concat dds), w);
  in_dtb_section : s_dtb s = concat dds;
  in_extra : exists p, sprintf_path abspath (str "extra.data") = Some p /\
    opt_file w p (s_extra s);
  in_stdin : w_fds w !! 0 <> None
}.

(** The header page of an image in progress. *)
Definition hdr_page (page : Z) (h : boot_img_hdr) (rest : bytes) : bytes :=
  hdr_bytes h ++ zeros (page - sizeof_hdr) ++ rest.

(** The id field of a packed image. *)
Definition signature_of (h : boot_img_hdr) (s : sections) : bytes :=
  Spec.sha1 (signed (header_version h) s) ++ zeros 12.

Definition W_FLAGS : Z := Z.lor (Z.lor O_TRUNC O_WRONLY) O_CREAT.

(** A small tree: METADATA, a kernel and a ramdisk directory. *)
Definition sample_tree : world :=
  World (<[str "d/METADATA" := Regular sample_text]> {[ str "d/ramdisk" := Directory ]})
    {[ 0 := OFile (str "tty") O_RDWR 0 ]} (fun _ _ => true) (2 ^ 31).
Definition sample_tools : Toolchain := {|
  compress_from_file _ _ := mret (Some (buf sample_code));
  decompress_to_file _ _ _ := mret 0;
  cpio_archive_out _ := mret (BXXT_SUCCESS, buf (str "ramdisk"));
  cpio_archive_in _ _ := mret 0;
  dtb_from_source _ := mret (buf sample_blob);
  dtb_to_source _ _ := mret 0 |}.
Definition sample_packed : sections := Sections sample_code (str "ramdisk") [] [] [] [].

(** ** Lemmas *)

Lemma pad_to_app page m d : 0 < page -> blen m mod page = 0 -> pad_to page (m ++ d) = m ++ pad_to page d.
Proof.
  intros Hp Hm. unfold pad_to. rewrite <- app_assoc. do 3 f_equal. rewrite blen_app.
  rewrite Z.opp_add_distr, Zplus_mod, (Z.mod_opp_l_z (blen m)) by lia. rewrite Z.add_0_l.
  apply Zmod_mod.
Qed.

Lemma pad_to_mod page m : 0 < page -> blen (pad_to page m) mod page = 0.
Proof. intros Hp. rewrite pad_to_blen by done. apply Z.mod_mul. lia. Qed.

Lemma pad_to_id page m : 0 < page -> blen m mod page = 0 -> pad_to page m = m.
Proof.
  intros Hp Hm. unfold pad_to. rewrite Z.mod_opp_l_z by lia. apply app_nil_r.
Qed.

Lemma mwrite_hdr_field i h (d : bytes) rest off :
  off = blen (concat (take i (hdr_fields h))) -> (i < 20)%nat ->
  blen d = blen (default [] (hdr_fields h !! i)) ->
  mwrite (hdr_bytes h ++ rest) off d = Some (concat (<[i := d]> (hdr_fields h)) ++ rest).
Proof.
  intros -> Hi Hd.
  destruct (hdr_fields h !! i) as [e|] eqn:E.
  2: { apply lookup_ge_None in E. change (length (hdr_fields h)) with 20%nat in E. lia. }
  simpl in Hd. pose proof (mwrite_field i (hdr_fields h ++ [rest]) e [] d) as Hf.
  rewrite app_nil_r in Hf.
  assert (i < length (hdr_fields h))%nat as Hlt by done.
  rewrite lookup_app_l in Hf by exact Hlt. rewrite take_app_le in Hf by (apply Nat.lt_le_incl, Hlt).
  rewrite insert_app_l in Hf by exact Hlt. rewrite concat_app in Hf. rewrite concat_app in Hf.
  cbn [concat] in Hf. rewrite !app_nil_r in Hf. apply Hf; [done|lia].
Qed.

Section Fields.
Context (h : boot_img_hdr) (Hw : wf_hdr h) (k r s y d : Z) (i rest : bytes) (Hi : blen i = 32).

Lemma sized_widths : map length (hdr_fields (sized h k r s y d i)) = hdr_widths.
Proof.
  pose proof (wf_widths h Hw) as H. unfold hdr_fields, sized, hdr_widths in *. hdr_cbn.
  cbn [map] in *. rewrite !length_le_bytes in *.
  assert (length i = 32%nat) as -> by (unfold blen in Hi; lia). congruence.
Qed.

Lemma sized_off n :
  blen (concat (take n (hdr_fields (sized h k r s y d i)))) =
    Z.of_nat (sum_list (take n hdr_widths)).
Proof. apply field_off, sized_widths. Qed.

Lemma set_kernel v :
  mwrite (hdr_bytes (sized h k r s y d i) ++ rest) off_kernel_size (le_bytes 4 v) =
    Some (hdr_bytes (sized h v r s y d i) ++ rest).
Proof. by rewrite (mwrite_hdr_field 1) by (lia || (rewrite ?sized_off; reflexivity)). Qed.
Lemma set_ramdisk v :
  mwrite (hdr_bytes (sized h k r s y d i) ++ rest) off_ramdisk_size (le_bytes 4 v) =
    Some (hdr_bytes (sized h k v s y d i) ++ rest).
Proof. by rewrite (mwrite_hdr_field 3) by (lia || (rewrite ?sized_off; reflexivity)). Qed.
Lemma set_second v :
  mwrite (hdr_bytes (sized h k r s y d i) ++ rest) off_second_size (le_bytes 4 v) =
    Some (hdr_bytes (sized h k r v y d i) ++ rest).
Proof. by rewrite (mwrite_hdr_field 5) by (lia || (rewrite ?sized_off; reflexivity)). Qed.
Lemma set_recovery v :
  mwrite (hdr_bytes (sized h k r s y d i) ++ rest) off_recovery_dtbo_size (le_bytes 4 v) =
    Some (hdr_bytes (sized h k r s v d i) ++ rest).
Proof. by rewrite (mwrite_hdr_field 15) by (lia || (rewrite ?sized_off; reflexivity)). Qed.
Lemma set_dtb v :
  mwrite (hdr_bytes (sized h k r s y d i) ++ rest) off_dtb_size (le_bytes 4 v) =
    Some (hdr_bytes (sized h k r s y v i) ++ rest).
Proof. by rewrite (mwrite_hdr_field 18) by (lia || (rewrite ?sized_off; reflexivity)). Qed.
Lemma set_id x :
  blen x = 32 ->
  mwrite (hdr_bytes (sized h k r s y d i) ++ rest) off_id x =
    Some (hdr_bytes (sized h k r s y d x) ++ rest).
Proof.
  intros Hx. rewrite (mwrite_hdr_field 13); [done|by rewrite sized_off|lia|].
  cbn [hdr_fields lookup list_lookup default sized id]. unfold hdr_fields. cbn. by rewrite Hi.
Qed.
End Fields.

(** *** Buffers *)

Lemma buf_wf m : blen m < 2 ^ 63 -> wf (buf m).
Proof. intros Hm. by split. Qed.

Lemma buf_concat junk m d :
  blen m < 2 ^ 31 -> blen d < 2 ^ 31 ->
  bxxt_buffer_concat_from_data junk (buf m) d (blen d) = Some (blen d, buf (m ++ d)).
Proof.
  intros Hm Hd. rewrite concat_spec by (done || (apply buf_wf; lia)).
  unfold buf. cbn [size ptr]. by rewrite blen_app.
Qed.

Lemma buf_align junk m page :
  0 < page < 2 ^ 31 -> blen m < 2 ^ 31 ->
  exists n, bxxt_buffer_align junk (buf m) page = Some (n, buf (pad_to page m)).
Proof. intros Hp Hm. eexists. apply buffer_align_spec; [apply buf_wf; lia|done]. Qed.

Lemma pad_data_ok junk page m d :
  0 < page <= 0xffff -> blen m mod page = 0 -> blen m + blen d < 2 ^ 31 ->
  pad_data junk (buf m) (buf d) page = Some (buf (m ++ pad_to page d)).
Proof.
  intros Hp Hm Hl. pose proof (blen_nonneg m). pose proof (blen_nonneg d).
  unfold pad_data. cbn [size ptr buf]. rewrite buf_concat by lia. cbn [mbind option_bind].
  rewrite u64_small by word_solve.
  destruct (buf_align junk (m ++ d) page) as [n ->]; [lia|rewrite blen_app; lia|].
  cbn [mbind option_bind]. by rewrite pad_to_app by (done || lia).
Qed.

(** Reading an input file that exists and is not empty. *)
Lemma read_from_ok junk w p d :
  blen p < PATH_MAX -> w_fds w !! 0 <> None -> d <> [] -> blen d < 2 ^ 31 ->
  w_fs w !! p = Some (Regular d) -> w_permit w p O_RDONLY = true ->
  bxxt_boot_read_from junk p w = Some (buf d, w).
Proof.
  intros Hp H0 Hd Hl Hf Hperm.
  assert (bxxt_file_new_mm p O_RDONLY MODE_0644 =
            Some (File p O_RDONLY MODE_0644 true 0 0 MNull)) as Hnew.
  { unfold bxxt_file_new_mm, bxxt_file_new. by replace (blen p <? PATH_MAX) with true by lia. }
  destruct (open_mm w (File p O_RDONLY MODE_0644 true 0 0 MNull) d)
    as (fd & Hfd & Hpos & Ho); [done..|].
  unfold bxxt_boot_read_from. rewrite Hnew.
  unfold mbind, M_bind, lift, mret, M_ret. cbn [mbind option_bind]. rewrite Ho.
  change (negb (0 =? 0)) with false. cbn [f_ptr f_size mbind option_bind].
  unfold map_pages. rewrite concat_prefix by (done || (apply create_wf; lia)).
  cbn [mbind option_bind]. unfold bxxt_file_close, bxxt_file_close_no_free. cbn [f_fd].
  replace (negb (fd =? 0) && negb (fd =? -1)) with true by lia.
  unfold mbind, M_bind. rewrite close_restores by done. done.
Qed.

Lemma set_and_pad junk page off d m m' :
  0 < page <= 0xffff -> adds_section page off d m m' ->
  (img ← set_field off (buf m) (blen d); pad_data junk img (buf d) page) =
    Some (buf (m' ++ pad_to page d)).
Proof.
  intros Hp (Hm & Hmod & Hl). unfold set_field. cbn [size ptr buf]. rewrite Hm.
  cbn [mbind option_bind]. rewrite <- (mwrite_blen _ _ _ _ Hm).
  by apply pad_data_ok.
Qed.

Lemma sprintf_path_short abspath nm p : sprintf_path abspath nm = Some p -> blen p < PATH_MAX.
Proof.
  unfold sprintf_path. case_match eqn:E; [|done]. intros [= <-]. by apply Z.ltb_lt in E.
Qed.

Lemma optional_section_ok junk w abspath nm p page off d m m' :
  0 < page <= 0xffff -> sprintf_path abspath (str nm) = Some p ->
  opt_file w p d -> w_fds w !! 0 <> None -> adds_section page off d m m' ->
  (d = [] -> m' = m) ->
  optional_section junk abspath nm off page (buf m) w = Some (buf (m' ++ pad_to page d), w).
Proof.
  intros Hp Hpath Hd H0 Hadd Hnil.
  assert (blen p < PATH_MAX) as Hlen.
  { by apply (sprintf_path_short abspath (str nm)). }
  unfold optional_section. rewrite Hpath. unfold mbind, M_bind, lift, stat, mret, M_ret.
  cbn [mbind option_bind].
  destruct Hd as [[-> Hd]|(Hd & Hf & Hperm)].
  - assert (has_data match w_fs w !! p with
              | Some (Regular d) => Some (false, blen d) | Some Directory => Some (true, 4096)
              | None => None end = false) as ->.
    { destruct (w_fs w !! p) as [x|] eqn:E; [|done]. by rewrite (Hd x eq_refl). }
    rewrite (Hnil eq_refl). unfold pad_to. change (zeros (- blen [] mod page)) with (@nil Z).
    cbn [app]. change (zeros ((- blen (@nil Z)) mod page)) with (@nil Z). by rewrite app_nil_r.
  - rewrite Hf. cbn [has_data].
    assert (0 < blen d) by (destruct d; [done|]; rewrite blen_cons; pose proof (blen_nonneg d); lia).
    replace (0 <? blen d) with true by lia.
    destruct Hadd as (Hm & Hmod & Hl). pose proof (blen_nonneg m').
    rewrite (read_from_ok junk w p d) by (done || lia).
    pose proof (set_and_pad junk page off d m m' Hp (conj Hm (conj Hmod Hl))) as Hs.
    unfold set_field in *. cbn [size ptr buf] in *. rewrite Hm in *.
    cbn [mbind option_bind] in *. by rewrite Hs.
Qed.

(** *** The image under construction *)

Lemma aligned_pad page m d :
  0 < page -> blen m mod page = 0 -> blen (m ++ pad_to page d) mod page = 0.
Proof.
  intros Hp Hm. rewrite blen_app, Zplus_mod, Hm, pad_to_mod by done. by apply Z.mod_0_l; lia.
Qed.

Lemma sized_blen h k r s y d i :
  wf_hdr h -> blen i = 32 -> blen (hdr_bytes (sized h k r s y d i)) = sizeof_hdr.
Proof.
  intros Hw Hi. unfold blen, hdr_bytes. rewrite length_concat_sum, sized_widths by done. done.
Qed.

Lemma hdr_page_start page h k r s y d i :
  wf_hdr h -> blen i = 32 -> sizeof_hdr <= page ->
  pad_to page (hdr_bytes (sized h k r s y d i)) = hdr_page page (sized h k r s y d i) [].
Proof.
  intros Hw Hi Hp. unfold pad_to, hdr_page. rewrite app_nil_r, sized_blen by done. do 2 f_equal.
  rewrite <- (Z.mod_unique (- sizeof_hdr) page (-1) (page - sizeof_hdr));
    unfold sizeof_hdr in *; lia.
Qed.

Lemma hdr_page_blen page h k r s y d i rest :
  wf_hdr h -> blen i = 32 -> sizeof_hdr <= page ->
  blen (hdr_page page (sized h k r s y d i) rest) = page + blen rest.
Proof.
  intros Hw Hi Hp. unfold hdr_page. rewrite !blen_app, sized_blen, blen_zeros by (done || lia). lia.
Qed.

Lemma hdr_page_app page h rest d : hdr_page page h rest ++ d = hdr_page page h (rest ++ d).
Proof. unfold hdr_page. by rewrite <- !app_assoc. Qed.

(** Each size field is set on the page, whatever follows. *)
Lemma adds_section_ok page off h k r s y d i k' r' s' y' d' x rest :
  wf_hdr h -> blen i = 32 -> sizeof_hdr <= page ->
  (forall rest, mwrite (hdr_bytes (sized h k r s y d i) ++ rest) off (le_bytes 4 (blen x)) =
     Some (hdr_bytes (sized h k' r' s' y' d' i) ++ rest)) ->
  blen rest mod page = 0 -> page + blen rest + blen x < 2 ^ 31 ->
  adds_section page off x (hdr_page page (sized h k r s y d i) rest)
    (hdr_page page (sized h k' r' s' y' d' i) rest).
Proof.
  intros Hw Hi Hp Hset Hmod Hl. unfold adds_section.
  split; [apply Hset|]. rewrite hdr_page_blen by done. split; [|done].
  rewrite Zplus_mod, Z.mod_same, Hmod by (unfold sizeof_hdr in *; lia). by apply Z.mod_0_l; unfold sizeof_hdr in *; lia.
Qed.

Lemma image_pages h s i :
  wf_hdr h -> blen i = 32 -> sizeof_hdr <= hdr_page_size h ->
  image (hdr_page_size h) (hdr_for h s i) s =
    hdr_page (hdr_page_size h) (hdr_for h s i)
      (concat (map (pad_to (hdr_page_size h)) (section_list s)) ++ s_extra s).
Proof.
  intros Hw Hi Hp. unfold image, hdr_for at 1. rewrite hdr_page_start by done.
  by rewrite hdr_page_app.
Qed.

Lemma signature_len h s : blen (signature_of h s) = 32.
Proof. unfold signature_of. rewrite blen_app, blen_zeros by lia. unfold blen. by rewrite sha1_length. Qed.

Lemma signature_bytes h s : Forall is_byte (signature_of h s).
Proof.
  unfold signature_of, Spec.sha1, Spec.digest. rewrite !Forall_app. auto 10 with words.
Qed.

(** The id does not matter for well-formedness. *)
Lemma well_formed_id h s i i' :
  wf_hdr h -> well_formed (hdr_for h s i) s -> blen i = 32 -> blen i' = 32 -> Forall is_byte i' ->
  well_formed (hdr_for h s i') s.
Proof.
  intros Hw [Hw0 [D1 D2 D3 D4 D5] Hm Hv Hp Hk Hr Hl] Hi Hi' Hb.
  assert (wf_hdr (hdr_for h s i')) as Hw'.
  { destruct Hw0 as [_ H2 H3 _]. split; [by apply sized_widths|exact H2|exact H3|exact Hb]. }
  split; [exact Hw'|by split|exact Hm|exact Hv|exact Hp|exact Hk|exact Hr|].
  rewrite image_blen in Hl by (exact Hw0 || apply Hp).
  rewrite image_blen by (exact Hw' || apply Hp). exact Hl.
Qed.

Lemma set_id_image h s i x :
  wf_hdr h -> blen i = 32 -> blen x = 32 -> sizeof_hdr <= hdr_page_size h ->
  mwrite (image (hdr_page_size h) (hdr_for h s i) s) off_id x =
    Some (image (hdr_page_size h) (hdr_for h s x) s).
Proof.
  intros Hw Hi Hx Hp. rewrite !image_pages by done. unfold hdr_page, hdr_for.
  by apply set_id.
Qed.

(** The finished image is parsed, signed and written. *)
Lemma sign_and_write_ok sjunk h s kcode kds dcode dds name w :
  length sjunk = 64%nat -> wf_hdr h -> well_formed (hdr_for h s (zeros 32)) s ->
  Forall (Forall is_byte) (section_list s) ->
  code_and_blobs (s_kernel s) kcode kds -> code_and_blobs (s_dtb s) dcode dds ->
  sign_and_write sjunk (buf (image (hdr_page_size h) (hdr_for h s (zeros 32)) s)) name w =
    bxxt_boot_write_to (image (hdr_page_size h) (hdr_for h s (signature_of h s)) s) 0
      (blen (image (hdr_page_size h) (hdr_for h s (signature_of h s)) s)) name w.
Proof.
  intros Hj Hw Hwf Hb Hk Hd.
  destruct (init1_layout sjunk false bxxt_boot_new _ s [] kcode kds dcode dds Hwf Hk Hd)
    as (b' & Hi & Hh & Hp & _).
  rewrite app_nil_r in Hi, Hp. pose proof (p_mm _ _ _ Hp) as Hmm.
  assert (bxxt_boot_img_signature sjunk b' = Some (signature_of h s)) as Hsig.
  { assert (version b' = header_version h) as Hver.
    { change (header_version h) with (header_version (hdr_for h s (zeros 32))).
      rewrite <- Hh. exact (init1_version _ _ _ _ _ _ _ Hi). }
    unfold signature_of. rewrite <- Hver. apply (signature_spec _ _ _ _ Hj Hp).
    - exact (sections_ok _ _ Hwf Hb).
    - rewrite Hver. exact (signed_short _ _ Hwf). }
  unfold sign_and_write, mbind, M_bind, lift. cbn [ptr size buf].
  change (hdr_page_size (hdr_for h s (zeros 32))) with (hdr_page_size h) in *.
  rewrite Hi. cbn [mbind option_bind]. rewrite Hsig. cbn [mbind option_bind]. rewrite Hmm.
  cbn [mbind option_bind].
  assert (sizeof_hdr <= hdr_page_size h) as Hpage by apply (wfi_page _ _ Hwf).
  rewrite set_id_image by (done || apply signature_len). cbn [mbind option_bind].
  f_equal. rewrite !image_pages by (done || apply signature_len). unfold hdr_for.
  by rewrite !hdr_page_blen by (done || apply signature_len).
Qed.

(** Sizes of the sections appended so far. *)
Ltac stage_bound :=
  cbn [map concat app]; rewrite ?blen_app; change (blen (@nil Z)) with 0; lia.

Section Build.
Context `{Toolchain} (junk : Z -> Z) (w : world) (abspath : path) (h : boot_img_hdr)
  (compr : Z) (kraw : bytes) (kds dds : list bytes) (s : sections)
  (Hin : pack_inputs junk w abspath h compr kraw kds dds s)
  (Hw : wf_hdr h) (Hpage : sizeof_hdr <= hdr_page_size h <= 0xffff).
Let page := hdr_page_size h.
Let sz a b c d e := sized h a b c d e (zeros 32).
Let K := s_kernel s.
Let R := s_ramdisk s.
Let S := s_second s.
Let Y := s_recovery s.
Let D := s_dtb s.
Let E := s_extra s.
Let P := pad_to page.
Context (Hl : page + blen (P K) + blen (P R) + blen (P S) + blen (P Y) + blen (P D) + blen (P E)
              < 2 ^ 31).

(** Each stage of the construction: the sizes so far, the sections so far. *)
Definition stage (a b c d e : Z) (l : list bytes) : bxxt_buffer :=
  buf (hdr_page page (sz a b c d e) (concat (map P l))).

(** The second half: from the ramdisk on. *)
Definition pack_rest (sjunk : bytes) (name : path) (img : bxxt_buffer) : M Z :=
  img ← optional_section junk abspath "second" off_second_size page img;
  img ← optional_section junk abspath "recovery_dtbo" off_recovery_dtbo_size page img;
  tmp ← bxxt_boot_compile_fs2blob junk abspath "dt.dts-";
  img ← lift (set_field off_dtb_size img (size tmp));
  img ← lift (pad_data junk img tmp page);
  p ← lift (sprintf_path abspath (str "extra.data"));
  st ← stat p;
  img ← (if negb false && has_data st then
           tmp ← bxxt_boot_read_from junk p;
           lift (pad_data junk img tmp page)
         else mret img);
  sign_and_write sjunk img name.

Lemma page_pos : 0 < page <= 0xffff.
Proof. unfold page, sizeof_hdr in *. lia. Qed.

Lemma P_ge d : 0 <= blen d <= blen (P d).
Proof. pose proof (pad_to_ge page d (proj1 page_pos)). pose proof (blen_nonneg d). unfold P. lia. Qed.

Lemma P_mod (l : list bytes) : blen (concat (map P l)) mod page = 0.
Proof.
  pose proof page_pos. induction l as [|d l IH]; [by apply Z.mod_0_l; lia|].
  cbn [map concat]. rewrite blen_app, Zplus_mod, IH. unfold P at 1.
  rewrite pad_to_mod by lia. by apply Z.mod_0_l; lia.
Qed.

Lemma stage_snoc a b c d e l x :
  buf (hdr_page page (sz a b c d e) (concat (map P l)) ++ P x) = stage a b c d e (l ++ [x]).
Proof.
  unfold stage. rewrite hdr_page_app, map_app, concat_app. cbn [map concat].
  by rewrite app_nil_r.
Qed.

(** Setting a size and appending the section goes to the next stage. *)
Lemma next_stage off a b c d e a' b' c' d' e' l x :
  (forall rest, mwrite (hdr_bytes (sz a b c d e) ++ rest) off (le_bytes 4 (blen x)) =
     Some (hdr_bytes (sz a' b' c' d' e') ++ rest)) ->
  page + blen (concat (map P l)) + blen x < 2 ^ 31 ->
  adds_section page off x (hdr_page page (sz a b c d e) (concat (map P l)))
    (hdr_page page (sz a' b' c' d' e') (concat (map P l))).
Proof.
  intros Hs Hb. apply adds_section_ok; [done|reflexivity|apply Hpage|exact Hs|apply P_mod|done].
Qed.

Lemma compulsory_stage off a b c d e a' b' c' d' e' l x :
  (forall rest, mwrite (hdr_bytes (sz a b c d e) ++ rest) off (le_bytes 4 (blen x)) =
     Some (hdr_bytes (sz a' b' c' d' e') ++ rest)) ->
  page + blen (concat (map P l)) + blen x < 2 ^ 31 ->
  exists img, set_field off (stage a b c d e l) (blen x) = Some img /\
    pad_data junk img (buf x) page = Some (stage a' b' c' d' e' (l ++ [x])).
Proof.
  intros Hs Hb. pose proof (next_stage off _ _ _ _ _ _ _ _ _ _ l x Hs Hb) as Ha.
  pose proof (set_and_pad junk page off x _ _ page_pos Ha) as Hp.
  unfold stage at 1. unfold set_field in *. cbn [ptr size buf] in *.
  destruct Ha as (Hm & _). rewrite Hm in *. cbn [mbind option_bind] in *.
  eexists. split; [reflexivity|]. rewrite Hp. fold P. by rewrite stage_snoc.
Qed.

Lemma optional_stage nm p off a b c d e a' b' c' d' e' l x :
  sprintf_path abspath (str nm) = Some p -> opt_file w p x ->
  (forall rest, mwrite (hdr_bytes (sz a b c d e) ++ rest) off (le_bytes 4 (blen x)) =
     Some (hdr_bytes (sz a' b' c' d' e') ++ rest)) ->
  page + blen (concat (map P l)) + blen x < 2 ^ 31 ->
  (x = [] -> sz a' b' c' d' e' = sz a b c d e) ->
  optional_section junk abspath nm off page (stage a b c d e l) w =
    Some (stage a' b' c' d' e' (l ++ [x]), w).
Proof.
  intros Hp Hf Hs Hb Hn. pose proof (next_stage off _ _ _ _ _ _ _ _ _ _ l x Hs Hb) as Ha.
  unfold stage at 1.
  rewrite (optional_section_ok junk w abspath nm p page off x _ _ page_pos Hp Hf (in_stdin _ _ _ _ _ _ _ _ _ Hin) Ha).
  - fold P. by rewrite stage_snoc.
  - intros Hx. by rewrite (Hn Hx).
Qed.

(** The trailing data, with its own padding and no size field. *)
Lemma extra_stage p a b c d e l :
  sprintf_path abspath (str "extra.data") = Some p -> opt_file w p E ->
  page + blen (concat (map P l)) + blen E < 2 ^ 31 ->
  forall st, stat p w = Some (st, w) ->
  (if negb false && has_data st
   then tmp ← bxxt_boot_read_from junk p;
        lift (pad_data junk (stage a b c d e l) tmp page)
   else mret (stage a b c d e l)) w = Some (stage a b c d e (l ++ [E]), w).
Proof.
  intros Hp Hf Hb st Hst. unfold stat in Hst. injection Hst as <-. cbn [negb andb].
  destruct Hf as [[He Hd]|(Hd & Hf & Hperm)].
  - assert (has_data match w_fs w !! p with
              | Some (Regular d) => Some (false, blen d) | Some Directory => Some (true, 4096)
              | None => None end = false) as ->.
    { destruct (w_fs w !! p) as [x|] eqn:Ex; [|done]. by rewrite (Hd x eq_refl). }
    unfold mret, M_ret, stage. rewrite map_app, concat_app, He. cbn [map concat].
    unfold P at 3. rewrite pad_to_id by (apply page_pos || by apply Z.mod_0_l; pose proof page_pos; lia).
    by rewrite !app_nil_r.
  - rewrite Hf. cbn [has_data].
    pose proof (P_ge E). assert (0 < blen E).
    { destruct E as [|z t]; [done|]. rewrite blen_cons. pose proof (blen_nonneg t). lia. }
    replace (0 <? blen E) with true by lia.
    pose proof (blen_nonneg (concat (map P l))). pose proof page_pos.
    unfold mbind, M_bind, lift.
    rewrite (read_from_ok junk w p E);
      [|by apply (sprintf_path_short abspath (str "extra.data"))|apply (in_stdin _ _ _ _ _ _ _ _ _ Hin)
       |done|lia|done|done].
    unfold stage at 1. rewrite pad_data_ok; [|done| |].
    + cbn [mbind option_bind]. fold P. by rewrite stage_snoc.
    + unfold sz. rewrite hdr_page_blen by (done || apply Hpage).
      rewrite Zplus_mod, Z.mod_same, P_mod by lia. by apply Z.mod_0_l; lia.
    + unfold sz. rewrite hdr_page_blen by (done || apply Hpage). lia.
Qed.

Lemma final_stage :
  stage (blen K) (blen R) (blen S) (blen Y) (blen D) [K; R; S; Y; D; E] =
    buf (image page (hdr_for h (padded_extra page s) (zeros 32)) (padded_extra page s)).
Proof.
  unfold stage, page. rewrite image_pages by (done || apply Hpage). do 2 f_equal.
  cbn [map concat section_list padded_extra s_kernel s_ramdisk s_second s_recovery s_dtb s_extra].
  rewrite <- !app_assoc. by rewrite app_nil_r.
Qed.

Lemma create_hdr :
  bxxt_buffer_create_from_data (hdr_bytes (sz 0 0 0 0 0)) sizeof_hdr =
    Some (buf (hdr_bytes (sz 0 0 0 0 0))).
Proof. unfold sz. rewrite <- (sized_blen h 0 0 0 0 0 (zeros 32) Hw eq_refl). apply create_from_data. Qed.

Lemma read_page_size :
  exists bs, mread (hdr_bytes (sz 0 0 0 0 0)) off_page_size 4 = Some bs /\ s32 (le_val bs) = page.
Proof.
  exists (le_bytes 4 page). pose proof page_pos.
  rewrite le_val_u32 by (unfold is_u32; lia). rewrite s32_small by lia. split; [|done].
  assert (hdr_bytes (sz 0 0 0 0 0) =
    concat (take 8 (hdr_fields (sz 0 0 0 0 0))) ++ le_bytes 4 page ++
    concat (drop 9 (hdr_fields (sz 0 0 0 0 0)))) as ->.
  { unfold hdr_bytes. rewrite <- (take_drop_middle (hdr_fields (sz 0 0 0 0 0)) 8 (le_bytes 4 page)) at 1
      by reflexivity. by rewrite concat_app. }
  assert (off_page_size = blen (concat (take 8 (hdr_fields (sz 0 0 0 0 0))))) as ->.
  { unfold sz. by rewrite sized_off. }
  exact (mread_app _ (le_bytes 4 page) _).
Qed.

Lemma align_hdr :
  exists n, bxxt_buffer_align junk (buf (hdr_bytes (sz 0 0 0 0 0))) (u64 page) =
    Some (n, stage 0 0 0 0 0 []).
Proof.
  pose proof page_pos. rewrite u64_small by (unfold is_u64; lia).
  destruct (buf_align junk (hdr_bytes (sz 0 0 0 0 0)) page) as [n Hn]; [lia| |].
  - unfold sz. by rewrite sized_blen.
  - exists n. rewrite Hn. unfold sz. by rewrite hdr_page_start by (done || apply Hpage).
Qed.

(** The device trees appended to the kernel fit. *)
Lemma kernel_concat :
  bxxt_buffer_concat_from_data junk (buf kraw) (concat kds) (blen (concat kds)) =
    Some (blen (concat kds), buf K).
Proof.
  pose proof (P_ge K). pose proof (in_kernel_section _ _ _ _ _ _ _ _ _ Hin) as Hks. fold K in Hks.
  pose proof (f_equal blen Hks) as Hkl. rewrite blen_app in Hkl.
  pose proof (blen_nonneg kraw). pose proof (blen_nonneg (concat kds)).
  pose proof (P_ge R). pose proof (P_ge S). pose proof (P_ge Y). pose proof (P_ge D).
  pose proof (P_ge E). pose proof page_pos.
  rewrite buf_concat by lia. by rewrite Hks.
Qed.

Lemma pack_rest_ok sjunk name :
  pack_rest sjunk name (stage (blen K) (blen R) 0 0 0 [K; R]) w =
    sign_and_write sjunk
      (buf (image page (hdr_for h (padded_extra page s) (zeros 32)) (padded_extra page s))) name w.
Proof.
  pose proof (P_ge K). pose proof (P_ge R). pose proof (P_ge S). pose proof (P_ge Y).
  pose proof (P_ge D). pose proof (P_ge E). pose proof page_pos.
  destruct Hin as [_ _ _ _ _ (ps & Hps & Hs) (py & Hpy & Hy) Hdd Hds (pe & Hpe & He) _].
  unfold pack_rest.
  erewrite (M_bind_ok _ _ w _ w) by
    (apply (optional_stage "second" ps off_second_size (blen K) (blen R) 0 0 0
       (blen K) (blen R) (blen S) 0 0 [K; R] S Hps Hs);
     [intros rest; by apply set_second|stage_bound|by intros ->]).
  erewrite (M_bind_ok _ _ w _ w) by
    (apply (optional_stage "recovery_dtbo" py off_recovery_dtbo_size (blen K) (blen R) (blen S) 0 0
       (blen K) (blen R) (blen S) (blen Y) 0 [K; R; S] Y Hpy Hy);
     [intros rest; by apply set_recovery|stage_bound|by intros ->]).
  rewrite (M_bind_ok _ _ _ _ _ Hdd), <- Hds. fold D. cbn [app size].
  destruct (compulsory_stage off_dtb_size (blen K) (blen R) (blen S) (blen Y) 0
    (blen K) (blen R) (blen S) (blen Y) (blen D) [K; R; S; Y] D)
    as (img & Hs5 & Hp5); [intros rest; by apply set_dtb|stage_bound|].
  rewrite (M_lift_ok _ _ _ _ Hs5), (M_lift_ok _ _ _ _ Hp5), (M_lift_ok _ _ _ _ Hpe).
  erewrite (M_bind_ok (stat pe) _ w _ w) by reflexivity.
  erewrite (M_bind_ok _ _ w _ w) by
    (apply (extra_stage pe (blen K) (blen R) (blen S) (blen Y) (blen D) [K; R; S; Y; D] Hpe He);
     [stage_bound|reflexivity]).
  cbn [app]. by rewrite final_stage.
Qed.

(** The whole construction. *)
Lemma pack_builds sjunk name :
  bxxt_boot_pack_all junk sjunk false abspath name w =
    sign_and_write sjunk
      (buf (image page (hdr_for h (padded_extra page s) (zeros 32)) (padded_extra page s))) name w.
Proof.
  pose proof (P_ge K). pose proof (P_ge R). pose proof (P_ge S). pose proof (P_ge Y).
  pose proof (P_ge D). pose proof (P_ge E). pose proof page_pos.
  destruct Hin as [(pm & Hpm & Hmeta & Hcompr) (pk & Hpk & Hk) Hkd _ (pr & Hpr & Hrd & Hr)
    _ _ _ _ _ _].
  destruct read_page_size as (bs & Hbs & Hps32). destruct align_hdr as [n0 Hal].
  destruct (compulsory_stage off_kernel_size 0 0 0 0 0 (blen K) 0 0 0 0 [] K)
    as (i1 & Hs1 & Hp1); [intros rest; by apply set_kernel|stage_bound|].
  destruct (compulsory_stage off_ramdisk_size (blen K) 0 0 0 0 (blen K) (blen R) 0 0 0 [K] R)
    as (i2 & Hs2 & Hp2); [intros rest; by apply set_ramdisk|stage_bound|].
  unfold bxxt_boot_pack_all.
  rewrite (M_lift_ok _ _ _ _ Hpm), (M_bind_ok _ _ _ _ _ Hmeta).
  change (negb (BXXT_SUCCESS =? BXXT_SUCCESS)) with false. cbn iota.
  rewrite (M_bind_ok _ _ _ _ _ Hcompr), (M_lift_ok _ _ _ _ create_hdr).
  cbn [ptr buf]. rewrite (M_lift_ok _ _ _ _ Hbs), Hps32. fold (buf (hdr_bytes (sz 0 0 0 0 0))).
  rewrite (M_lift_ok _ _ _ _ Hal), (M_lift_ok _ _ _ _ Hpk), (M_bind_ok _ _ _ _ _ Hk).
  rewrite (M_bind_ok _ _ _ _ _ Hkd). cbn [ptr size buf]. fold (buf kraw).
  rewrite (M_lift_ok _ _ _ _ kernel_concat). cbn [size buf]. fold (buf K).
  rewrite (M_lift_ok _ _ _ _ Hs1), (M_lift_ok _ _ _ _ Hp1), (M_lift_ok _ _ _ _ Hpr).
  rewrite (M_bind_ok (stat pr) _ w _ w eq_refl), Hrd. cbn [is_dir negb]. cbn iota.
  rewrite (M_bind_ok _ _ _ _ _ Hr). change (negb (BXXT_SUCCESS =? BXXT_SUCCESS)) with false.
  cbn iota. cbn [size buf]. fold R. fold (buf R). cbn [app] in *.
  rewrite (M_lift_ok _ _ _ _ Hs2), (M_lift_ok _ _ _ _ Hp2).
  apply pack_rest_ok.
Qed.
End Build.

(** ** Writing the result *)

Lemma open_write w name :
  w_permit w name W_FLAGS = true -> w_fs w !! name <> Some Directory ->
  open name W_FLAGS MODE_0644 w =
    Some (alloc_fd (w_fds w),
      World (<[name := Regular []]> (w_fs w))
        (<[alloc_fd (w_fds w) := OFile name W_FLAGS 0]> (w_fds w)) (w_permit w) (w_limit w)).
Proof.
  intros Hp Hd. unfold open. rewrite Hp. cbn [negb].
  destruct (w_fs w !! name) as [[d|]|]; [|done|]; done.
Qed.

(** Writing a whole file succeeds when there is room, and leaves the file with
    exactly the data. *)
Lemma write_to_ok w m name :
  blen name < PATH_MAX -> w_permit w name W_FLAGS = true -> w_fs w !! name <> Some Directory ->
  0 < blen m < 2 ^ 31 -> blen m <= w_limit w -> w_fds w !! 0 <> None ->
  bxxt_boot_write_to m 0 (blen m) name w =
    Some (BXXT_SUCCESS, World (<[name := Regular m]> (w_fs w)) (w_fds w) (w_permit w) (w_limit w)).
Proof.
  intros Hn Hp Hd Hm Hlim H0. destruct (alloc_fd_free (w_fds w)) as [Hfree Hpos].
  set (fd := alloc_fd (w_fds w)) in *.
  assert (fd <> 0) by (intros E; rewrite E in Hfree; done).
  unfold bxxt_boot_write_to. fold W_FLAGS.
  assert (bxxt_file_new name W_FLAGS MODE_0644 = Some (File name W_FLAGS MODE_0644 false 0 0 MNull)) as Hnew.
  { unfold bxxt_file_new. by replace (blen name <? PATH_MAX) with true by lia. }
  rewrite (M_lift_ok _ _ _ _ Hnew).
  set (w1 := World (<[name := Regular []]> (w_fs w)) (<[fd := OFile name W_FLAGS 0]> (w_fds w))
               (w_permit w) (w_limit w)).
  assert (bxxt_file_open (File name W_FLAGS MODE_0644 false 0 0 MNull) w =
            Some ((0, File name W_FLAGS MODE_0644 false 0 fd MNull), w1)) as Hopen.
  { unfold bxxt_file_open. rewrite (M_bind_ok _ _ _ _ _ (open_write w name Hp Hd)). fold fd.
    replace (fd =? -1) with false by lia. fold w1.
    erewrite (M_bind_ok (fstat_size fd) _ w1 (Some 0) w1); [done|].
    unfold fstat_size. cbn [w1 w_fds w_fs]. rewrite lookup_insert_eq. cbn [mbind option_bind of_path].
    by rewrite lookup_insert_eq. }
  rewrite (M_bind_ok _ _ _ _ _ Hopen). change (negb (0 =? 0)) with false. cbn iota.
  rewrite (M_lift_ok _ _ _ _ (mread_all m)). cbn [f_fd].
  set (w2 := World (<[name := Regular m]> (w_fs w))
               (<[fd := OFile name W_FLAGS (blen m)]> (w_fds w)) (w_permit w) (w_limit w)).
  assert (write fd m w1 = Some (blen m, w2)) as Hwr.
  { unfold write. cbn [w1 w_fds w_fs w_limit w_permit]. rewrite lookup_insert_eq. cbn [of_path of_flags of_pos].
    rewrite lookup_insert_eq. change (access_mode W_FLAGS =? O_RDONLY) with false. cbn iota.
    rewrite Z.sub_0_r, Z.min_l by lia. replace (blen m <=? 0) with false by lia. cbn [andb].
    rewrite (take_ge m) by (unfold blen; lia). rewrite overwrite_all.
    by rewrite !insert_insert_eq. }
  rewrite (M_bind_ok _ _ _ _ _ Hwr). rewrite s32_small by lia.
  unfold bxxt_file_close, bxxt_file_close_no_free. cbn [f_fd].
  replace (negb (fd =? 0) && negb (fd =? -1)) with true by lia.
  rewrite (u64_small (blen m)) by (unfold is_u64; lia). rewrite Z.eqb_refl.
  unfold mbind, M_bind, mret, M_ret, close. cbn [w2 w_fds w_fs w_permit w_limit].
  rewrite lookup_insert_eq, delete_insert_id by done. done.
Qed.

(** *** The packed image is accepted *)

Lemma finish_accepts junk f b m :
  bxxt_boot_img_compat_check junk f b = Some BXXT_SUCCESS ->
  finish_init1 junk f true b m = finish_init1 junk f false b m.
Proof. intros Hc. unfold finish_init1. by rewrite Hc. Qed.

(** With the signature stored in its id, an image passes the check that
    [bxxt_boot_init1] makes on request. *)
Lemma signed_accepted sjunk b h s kcode kds dcode dds :
  length sjunk = 64%nat -> wf_hdr h -> well_formed (hdr_for h s (zeros 32)) s ->
  Forall (Forall is_byte) (section_list s) ->
  code_and_blobs (s_kernel s) kcode kds -> code_and_blobs (s_dtb s) dcode dds ->
  let m := image (hdr_page_size h) (hdr_for h s (signature_of h s)) s in
  exists b', bxxt_boot_init1 sjunk false b m (blen m) true = Some (BXXT_SUCCESS, b') /\
    hdr b' = hdr_for h s (signature_of h s) /\ points_at b' m s.
Proof.
  intros Hj Hw Hwf Hb Hk Hd m. set (hs := hdr_for h s (signature_of h s)).
  assert (well_formed hs s) as Hwf'.
  { apply (well_formed_id h s (zeros 32)); [done|done|reflexivity|apply signature_len|apply signature_bytes]. }
  destruct (init1_layout sjunk false b hs s [] kcode kds dcode dds Hwf' Hk Hd)
    as (b' & Hi & Hh & Hp & _).
  exists b'. change (hdr_page_size hs) with (hdr_page_size h) in *.
  pose proof (init1_image sjunk false false b hs s [] Hwf') as E0.
  pose proof (init1_image sjunk false true b hs s [] Hwf') as E1. cbv zeta in E0, E1.
  pose proof (layout_points b hs s [] (compression_of (hdr_page_size hs) (s_kernel s)) Hwf') as Hl.
  change (hdr_page_size hs) with (hdr_page_size h) in *. cbv zeta in Hl.
  rewrite app_nil_r in *. change (image (hdr_page_size h) hs s) with m in *.
  split; [|by split]. rewrite E1, finish_accepts; [by rewrite <- E0|].
  unfold bxxt_boot_img_compat_check.
  rewrite (signature_spec _ _ _ _ Hj Hl (sections_ok _ _ Hwf' Hb) (signed_short _ _ Hwf')).
  cbn [mbind option_bind]. by rewrite bool_decide_true.
Qed.

Lemma sample_inputs :
  @pack_inputs sample_tools (fun _ => 0) sample_tree (str "d") (restored sample_hdr [] [] [])
    0 sample_code [] [] sample_packed.
Proof.
  split.
  - exists (str "d/METADATA"). split; [reflexivity|]. split; vm_compute; reflexivity.
  - exists (str "d/kernel"). by split.
  - vm_compute. reflexivity.
  - reflexivity.
  - exists (str "d/ramdisk"). split; [reflexivity|]. split; [vm_compute; reflexivity|reflexivity].
  - exists (str "d/second"). split; [reflexivity|]. left. split; [done|].
    intros x Hx. vm_compute in Hx. discriminate Hx.
  - exists (str "d/recovery_dtbo"). split; [reflexivity|]. left. split; [done|].
    intros x Hx. vm_compute in Hx. discriminate Hx.
  - vm_compute. reflexivity.
  - reflexivity.
  - exists (str "d/extra.data"). split; [reflexivity|]. left. split; [done|].
    intros x Hx. vm_compute in Hx. discriminate Hx.
  - vm_compute. discriminate.
Qed.

Lemma sample_restored_wf : wf_hdr (restored sample_hdr [] [] []).
Proof.
  split; [reflexivity|repeat constructor; by vm_compute..|apply zeros_is_byte].
Qed.

Lemma sample_packed_wf :
  well_formed (hdr_for (restored sample_hdr [] [] []) (padded_extra 2048 sample_packed) (zeros 32))
    (padded_extra 2048 sample_packed).
Proof.
  split; [|by split|reflexivity|by vm_compute|by vm_compute|by vm_compute|by vm_compute|by vm_compute].
  split; [reflexivity|repeat constructor; by vm_compute..|apply zeros_is_byte].
Qed.

Lemma sample_packed_bytes : Forall (Forall is_byte) (section_list (padded_extra 2048 sample_packed)).
Proof.
  unfold section_list. do 5 (apply Forall_cons_2; [apply is_byte_check; by vm_compute|]).
  apply Forall_nil_2.
Qed.

Lemma no_blobs d : find_bytes FDT_MAGIC_bytes d = None -> code_and_blobs d d [].
Proof. intros Hd. split; [by rewrite app_nil_r|done|apply Forall_nil_2|by vm_compute]. Qed.

(** ** Theorems *)

(** C1. Packing is correct for every archive and device tree toolchain: from
    the inputs of a tree it writes exactly the image of those sections, each
    padded to whole pages, behind the header METADATA describes with the
    section sizes and the SHA-1 signature filled in, and reports success; and
    parsing that image with the signature check requested accepts it and finds
    exactly those sections. *)
Theorem pack_all_correct (T : Toolchain) junk sjunk w abspath h compr kraw kds dds s
    kcode kds' dcode dds' name
    (Hin : pack_inputs junk w abspath h compr kraw kds dds s)
    (Hj : length sjunk = 64%nat) (Hw : wf_hdr h)
    (Hwf : well_formed (hdr_for h (padded_extra (hdr_page_size h) s) (zeros 32))
             (padded_extra (hdr_page_size h) s))
    (Hb : Forall (Forall is_byte) (section_list s))
    (Hk : code_and_blobs (s_kernel s) kcode kds') (Hd : code_and_blobs (s_dtb s) dcode dds')
    (Hname : blen name < PATH_MAX) (Hperm : w_permit w name W_FLAGS = true)
    (Hdir : w_fs w !! name <> Some Directory) :
  let s' := padded_extra (hdr_page_size h) s in
  let m := image (hdr_page_size h) (hdr_for h s' (signature_of h s')) s' in
  (blen m <= w_limit w ->
   bxxt_boot_pack_all junk sjunk false abspath name w =
     Some (BXXT_SUCCESS, World (<[name := Regular m]> (w_fs w)) (w_fds w) (w_permit w) (w_limit w))) /\
  (forall b, exists b', bxxt_boot_init1 sjunk false b m (blen m) true = Some (BXXT_SUCCESS, b') /\
     hdr b' = hdr_for h s' (signature_of h s') /\ points_at b' m s').
Proof.
  intros s' m. split; [|intros b; by apply (signed_accepted sjunk b h s' kcode kds' dcode dds')].
  intros Hlim.
  pose proof (well_formed_id h s' (zeros 32) (signature_of h s') Hw Hwf eq_refl
    (signature_len h s') (signature_bytes h s')) as Hwf'.
  pose proof (wfi_size _ _ Hwf') as Hsz. pose proof (wfi_page _ _ Hwf') as Hpg.
  change (hdr_page_size (hdr_for h s' (signature_of h s'))) with (hdr_page_size h) in *.
  fold m in Hsz.
  assert (blen m = hdr_page_size h + blen (concat (map (pad_to (hdr_page_size h)) (section_list s')))
                   + blen (s_extra s')) as Hm.
  { unfold m. rewrite image_pages by (done || apply signature_len || apply Hpg).
    unfold hdr_for. rewrite hdr_page_blen by (done || apply signature_len || apply Hpg).
    rewrite blen_app. lia. }
  cbn [s' section_list padded_extra s_kernel s_ramdisk s_second s_recovery s_dtb s_extra map concat] in Hm.
  rewrite !blen_app, blen_nil in Hm.
  rewrite (pack_builds junk w abspath h compr kraw kds dds s Hin Hw Hpg) by lia. fold s'.
  rewrite (sign_and_write_ok sjunk h s' kcode kds' dcode dds') by done. fold m.
  apply write_to_ok; try done; [|apply (in_stdin _ _ _ _ _ _ _ _ _ Hin)].
  pose proof (blen_nonneg (concat (map (pad_to (hdr_page_size h)) (section_list s')))).
  unfold sizeof_hdr in Hpg.
  pose proof (P_ge h Hpg (s_kernel s)). pose proof (P_ge h Hpg (s_ramdisk s)).
  pose proof (P_ge h Hpg (s_second s)). pose proof (P_ge h Hpg (s_recovery s)).
  pose proof (P_ge h Hpg (s_dtb s)). pose proof (P_ge h Hpg (s_extra s)). lia.
Qed.

Lemma pack_all_correct_witness :
  exists m, @bxxt_boot_pack_all sample_tools (fun _ => 0) (zeros 64) false (str "d") (str "out") sample_tree =
    Some (BXXT_SUCCESS, World (<[str "out" := Regular m]> (w_fs sample_tree)) (w_fds sample_tree)
                          (w_permit sample_tree) (w_limit sample_tree)).
Proof.
  eexists.
  apply (pack_all_correct sample_tools (fun _ => 0) (zeros 64) sample_tree (str "d")
    (restored sample_hdr [] [] []) 0 sample_code [] [] sample_packed
    sample_code [] [] [] (str "out") sample_inputs eq_refl sample_restored_wf sample_packed_wf
    sample_packed_bytes (no_blobs sample_code eq_refl) (no_blobs [] eq_refl));
    vm_compute; (reflexivity || discriminate).
Defined.
