(* ===== verification/Patch.v ===== *)
(** The binary patcher (patch.c): [patch] writes up to eight bytes of a number
    at an offset of a file, [patch_main] parses [@offset:size=bytes]. *)
From S2P Require Import Prelude Stdio Posix Util Sha1 Boot Metadata Pack.

(** [bswap_64] *)
Definition bswap_64 (x : Z) : Z := le_val (rev (le_bytes 8 x)).

(** A shift of a [uint64_t]; by 64 or more it is undefined. *)
Definition shr_64 (x k : Z) : option Z := if k <? 64 then Some (Z.shiftr x k) else None.

(** The messages are left out; [n] is the number they print.  [offset] is passed
    to [lseek] as an [off_t] and its result compared as a [uint64_t]; the count
    [write] returns is ignored. *)
Definition patch (offset repl size : Z) (fname : path) : M Z :=
  let repl := bswap_64 repl in
  if 8 <? size then mret BXXT_FAILED
  else
    F ← lift (bxxt_file_new fname O_WRONLY MODE_0644);
    '(r, F) ← bxxt_file_open F;
    if negb (r =? 0) then
      _ ← bxxt_file_close (Some F);
      mret BXXT_FAILED
    else
      r ← lseek_set (f_fd F) offset;
      if negb (u64 r =? offset) then
        _ ← bxxt_file_close (Some F);
        mret BXXT_FAILED
      else
        d ← lift (mread (le_bytes 8 repl) (8 - size) size);
        let n := le_val (d ++ zeros (8 - size)) in
        _ ← lift (shr_64 (bswap_64 n) ((8 - size) * 8));
        _ ← write (f_fd F) d;
        _ ← bxxt_file_close (Some F);
        mret BXXT_SUCCESS.

(** [argv] without the program name. *)
Definition patch_main (argv : list bytes) : M Z :=
  match argv with
  | [spec; fname] =>
      res ← lift (sscanf spec (str "@%lX:%lX=%lX"));
      match res with
      | (3, [SInt offset; SInt size; SInt repl]) => patch offset repl size fname
      | _ => mret BXXT_FAILED
      end
  | _ => mret BXXT_FAILED
  end.

(** ** Vocabulary of the proofs *)

(** The command line [@offset:size=bytes], in hexadecimal. *)
Definition patch_arg (offset n repl : Z) : bytes :=
  str "@" ++ fmt_x offset ++ str ":" ++ fmt_x n ++ str "=" ++ fmt_x repl.

(** ** Lemmas *)

Lemma bswap_bytes x : le_bytes 8 (bswap_64 x) = be_bytes 8 x.
Proof.
  unfold bswap_64. change (rev (le_bytes 8 x)) with (be_bytes 8 x).
  pose proof (le_bytes_le_val (be_bytes 8 x) (be_bytes_is_byte 8 x)) as H.
  by rewrite length_be_bytes in H.
Qed.

(** The bytes written: the low [n] bytes of the number, big end first. *)
Lemma patch_bytes x n :
  0 <= n <= 8 -> mread (le_bytes 8 (bswap_64 x)) (8 - n) n = Some (be_bytes (Z.to_nat n) x).
Proof.
  intros Hn. rewrite bswap_bytes.
  pose proof (be_bytes_app (Z.to_nat n) (8 - Z.to_nat n) x) as Hb.
  replace (Z.to_nat n + (8 - Z.to_nat n))%nat with 8%nat in Hb by lia. rewrite Hb.
  pose proof (mread_app (be_bytes (8 - Z.to_nat n) (x / 256 ^ Z.of_nat (Z.to_nat n)))
    (be_bytes (Z.to_nat n) x) []) as Hr.
  rewrite app_nil_r, !blen_be_bytes in Hr.
  replace (Z.of_nat (8 - Z.to_nat n)) with (8 - n) in Hr by lia.
  rewrite Z2Nat.id in * by lia. exact Hr.
Qed.

(** An existing file opened for writing. *)
Lemma open_wronly w name f :
  blen name < PATH_MAX -> w_permit w name O_WRONLY = true ->
  w_fs w !! name = Some (Regular f) -> w_fds w !! 0 <> None ->
  exists fd, w_fds w !! fd = None /\ 0 < fd /\
    bxxt_file_new name O_WRONLY MODE_0644 = Some (File name O_WRONLY MODE_0644 false 0 0 MNull) /\
    bxxt_file_open (File name O_WRONLY MODE_0644 false 0 0 MNull) w =
      Some ((0, File name O_WRONLY MODE_0644 false (blen f) fd MNull),
            World (w_fs w) (<[fd := OFile name O_WRONLY 0]> (w_fds w)) (w_permit w) (w_limit w)).
Proof.
  intros Hn Hp Hf H0. destruct (alloc_fd_free (w_fds w)) as [Hfree Hpos].
  set (fd := alloc_fd (w_fds w)) in *. exists fd.
  assert (fd <> 0) by (intros E; rewrite E in Hfree; done).
  split; [done|]. split; [lia|]. split.
  { unfold bxxt_file_new. by replace (blen name <? PATH_MAX) with true by lia. }
  unfold bxxt_file_open. cbn [f_name o_flags f_mode].
  erewrite M_bind_ok by (unfold open; rewrite Hp, Hf; cbn [negb]; fold fd; reflexivity).
  replace (fd =? -1) with false by lia.
  erewrite M_bind_ok; [|unfold fstat_size; cbn [w_fds w_fs]; rewrite lookup_insert_eq;
    cbn [mbind option_bind of_path]; rewrite Hf; reflexivity].
  done.
Qed.

(** Writing at a position and closing. *)
Lemma write_close w fd name f pos d :
  w_fds w !! fd = None -> 0 < fd -> w_fs w !! name = Some (Regular f) ->
  pos + blen d <= w_limit w ->
  let w1 := World (w_fs w) (<[fd := OFile name O_WRONLY pos]> (w_fds w)) (w_permit w) (w_limit w) in
  exists w2, write fd d w1 = Some (blen d, w2) /\
    close fd w2 = Some (0, World (<[name := Regular (overwrite f pos d)]> (w_fs w))
                             (w_fds w) (w_permit w) (w_limit w)).
Proof.
  intros Hfd Hpos Hf Hl w1. unfold write. cbn [w1 w_fds w_fs w_limit w_permit].
  rewrite lookup_insert_eq. cbn [of_path of_flags of_pos]. rewrite Hf.
  change (access_mode O_WRONLY =? O_RDONLY) with false. cbn iota.
  rewrite Z.min_l by lia.
  replace ((blen d <=? 0) && negb (blen d =? 0)) with false by (pose proof (blen_nonneg d); lia).
  rewrite take_ge by (unfold blen; lia). eexists. split; [reflexivity|].
  unfold close. cbn [w_fds w_fs w_limit w_permit]. rewrite lookup_insert_eq.
  by rewrite insert_insert_eq, delete_insert_id.
Qed.

Lemma lseek_ok w fd name pos off :
  0 <= off < 2 ^ 63 ->
  lseek_set fd off (World (w_fs w) (<[fd := OFile name O_WRONLY pos]> (w_fds w)) (w_permit w) (w_limit w)) =
    Some (off, World (w_fs w) (<[fd := OFile name O_WRONLY off]> (w_fds w)) (w_permit w) (w_limit w)).
Proof.
  intros Ho. unfold lseek_set. cbn [w_fds w_fs w_limit w_permit]. rewrite lookup_insert_eq.
  replace ((off <? 0) || (2 ^ 63 <=? off)) with false by lia.
  by rewrite insert_insert_eq.
Qed.

Lemma close_file fd w w' : 0 < fd -> close fd w = Some (0, w') ->
  forall name sz, bxxt_file_close (Some (File name O_WRONLY MODE_0644 false sz fd MNull)) w = Some ((), w').
Proof.
  intros Hfd Hc name sz. unfold bxxt_file_close, bxxt_file_close_no_free. cbn [f_fd].
  replace (negb (fd =? 0) && negb (fd =? -1)) with true by lia.
  by rewrite (M_bind_ok _ _ _ _ _ Hc).
Qed.

(** The run of [patch] once [lseek] has answered. *)
Lemma patch_runs w name f offset repl n pos :
  blen name < PATH_MAX -> w_permit w name O_WRONLY = true ->
  w_fs w !! name = Some (Regular f) -> w_fds w !! 0 <> None ->
  1 <= n <= 8 -> pos + n <= w_limit w ->
  (0 <= offset < 2 ^ 63 /\ pos = offset) \/ (offset = 2 ^ 64 - 1 /\ pos = 0) ->
  patch offset repl n name w =
    Some (BXXT_SUCCESS,
          World (<[name := Regular (overwrite f pos (be_bytes (Z.to_nat n) repl))]> (w_fs w))
            (w_fds w) (w_permit w) (w_limit w)).
Proof.
  intros Hn Hp Hf H0 Hr Hl Hoff.
  destruct (open_wronly w name f Hn Hp Hf H0) as (fd & Hfd & Hpos & Hnew & Hopen).
  destruct (write_close w fd name f pos (be_bytes (Z.to_nat n) repl) Hfd Hpos Hf)
    as (w2 & Hwr & Hcl); [rewrite blen_be_bytes; lia|].
  unfold patch. replace (8 <? n) with false by lia.
  rewrite (M_lift_ok _ _ _ _ Hnew), (M_bind_ok _ _ _ _ _ Hopen).
  change (negb (0 =? 0)) with false. cbn iota. cbn [f_fd].
  set (w0 := World (w_fs w) (<[fd := OFile name O_WRONLY 0]> (w_fds w)) (w_permit w) (w_limit w)).
  set (w1 := World (w_fs w) (<[fd := OFile name O_WRONLY pos]> (w_fds w)) (w_permit w) (w_limit w)) in *.
  assert (exists r, lseek_set fd offset w0 = Some (r, w1) /\ u64 r = offset) as (r & Hseek & Hu).
  { destruct Hoff as [[Ho ->]|[-> ->]].
    - exists offset. split; [by apply lseek_ok|]. apply u64_small. unfold is_u64. lia.
    - exists (-1). split; [|done]. unfold lseek_set. cbn [w0 w_fds]. rewrite lookup_insert_eq. done. }
  rewrite (M_bind_ok _ _ _ _ _ Hseek), Hu, Z.eqb_refl. cbn [negb]. cbn iota.
  rewrite (M_lift_ok _ _ _ _ (patch_bytes repl n ltac:(lia))).
  assert (exists m, shr_64 (bswap_64 (le_val (be_bytes (Z.to_nat n) repl ++ zeros (8 - n)))) ((8 - n) * 8) = Some m)
    as [m Hm] by (unfold shr_64; replace ((8 - n) * 8 <? 64) with true by lia; by eexists).
  rewrite (M_lift_ok _ _ _ _ Hm), (M_bind_ok _ _ _ _ _ Hwr).
  by rewrite (M_bind_ok _ _ _ _ _ (close_file fd w2 _ Hpos Hcl name (blen f))).
Qed.

(** An offset that is no position: the file is closed again. *)
Lemma patch_seek_refused w name f offset repl n :
  blen name < PATH_MAX -> w_permit w name O_WRONLY = true ->
  w_fs w !! name = Some (Regular f) -> w_fds w !! 0 <> None ->
  n <= 8 -> 2 ^ 63 <= offset < 2 ^ 64 - 1 ->
  patch offset repl n name w = Some (BXXT_FAILED, w).
Proof.
  intros Hn Hp Hf H0 Hr Hoff. destruct (open_wronly w name f Hn Hp Hf H0) as (fd & Hfd & Hpos & Hnew & Hopen).
  unfold patch. replace (8 <? n) with false by lia.
  rewrite (M_lift_ok _ _ _ _ Hnew), (M_bind_ok _ _ _ _ _ Hopen).
  change (negb (0 =? 0)) with false. cbn iota. cbn [f_fd].
  set (w0 := World (w_fs w) (<[fd := OFile name O_WRONLY 0]> (w_fds w)) (w_permit w) (w_limit w)).
  assert (lseek_set fd offset w0 = Some (-1, w0)) as Hseek.
  { unfold lseek_set. cbn [w0 w_fds]. rewrite lookup_insert_eq. by replace (2 ^ 63 <=? offset) with true by lia; rewrite orb_true_r. }
  assert (close fd w0 = Some (0, w)) as Hcl.
  { unfold close. cbn [w0 w_fds w_fs w_limit w_permit]. rewrite lookup_insert_eq, delete_insert_id by done. by destruct w. }
  rewrite (M_bind_ok _ _ _ _ _ Hseek). change (u64 (-1)) with (2 ^ 64 - 1).
  destruct (Z.eqb_spec (2 ^ 64 - 1) offset); [lia|]. cbn [negb].
  by rewrite (M_bind_ok _ _ _ _ _ (close_file fd w0 _ Hpos Hcl name (blen f))).
Qed.

(** A size of zero, once the file is open and at its position. *)
Lemma patch_size_zero w name f offset repl :
  blen name < PATH_MAX -> w_permit w name O_WRONLY = true ->
  w_fs w !! name = Some (Regular f) -> w_fds w !! 0 <> None -> 0 <= offset < 2 ^ 63 ->
  patch offset repl 0 name w = None.
Proof.
  intros Hn Hp Hf H0 Hoff. destruct (open_wronly w name f Hn Hp Hf H0) as (fd & Hfd & Hpos & Hnew & Hopen).
  unfold patch. change (8 <? 0) with false. cbn iota.
  rewrite (M_lift_ok _ _ _ _ Hnew), (M_bind_ok _ _ _ _ _ Hopen).
  change (negb (0 =? 0)) with false. cbn iota. cbn [f_fd].
  rewrite (M_bind_ok _ _ _ _ _ (lseek_ok w fd name 0 offset Hoff)), u64_small, Z.eqb_refl by (unfold is_u64; lia).
  cbn [negb]. rewrite (M_lift_ok _ _ _ _ (patch_bytes repl 0 ltac:(lia))). reflexivity.
Qed.

Lemma patch_main_parses offset n repl fname :
  is_u64 offset -> is_u64 n -> is_u64 repl ->
  forall w, patch_main [patch_arg offset n repl; fname] w = patch offset repl n fname w.
Proof.
  intros Ho Hn Hr w. unfold patch_main, sscanf.
  change (parse_format _ _) with
    (Some [DLit 64; DHex 64; DLit 58; DHex 64; DLit 61; DHex 64]).
  cbn [mbind option_bind]. unfold patch_arg. cbn [str app].
  cbn [scan]. change (Z.of_N (Ascii.N_of_ascii _) =? 64) with true. cbn iota.
  change (Z.of_N (Ascii.N_of_ascii (Ascii.Ascii false true false true true true false false))) with 58.
  change (Z.of_N (Ascii.N_of_ascii (Ascii.Ascii true false true true true true false false))) with 61.
  rewrite scan_hex_fmt by (done || lia). cbn [app]. change (58 =? 58) with true. cbn iota.
  rewrite scan_hex_fmt by (done || lia). change (61 =? 61) with true. cbn iota.
  rewrite scan_hex_end by done. cbn [scan app].
  rewrite !Z.mod_small by done. done.
Qed.

(** ** Theorems *)

(** C37. The command [@offset:size=bytes], in hexadecimal, runs the patch it
    spells.  For an offset below 2^63, patching one to eight bytes writes the low
    bytes of the number, most significant byte first (as typed), at the offset, and
    nothing else: every other byte of the file, every other file and the open
    descriptors are unchanged.  More than eight bytes are refused, and so is an
    offset from 2^63 on that [lseek] does not take for a position; the one that it
    does, 2^64 - 1, is not covered ([patch_offset_minus_one]).  A size of zero is
    not refused: it shifts by 64, which is undefined. *)
Theorem patch_spec w name f offset repl n
    (Hn : blen name < PATH_MAX) (Hp : w_permit w name O_WRONLY = true)
    (Hf : w_fs w !! name = Some (Regular f)) (H0 : w_fds w !! 0 <> None)
    (Hr : is_u64 n) (Ho : is_u64 offset) (Hrepl : is_u64 repl) :
  patch_main [patch_arg offset n repl; name] w = patch offset repl n name w /\
  (1 <= n <= 8 -> offset < 2 ^ 63 -> offset + n <= w_limit w -> exists f',
    patch offset repl n name w =
      Some (BXXT_SUCCESS, World (<[name := Regular f']> (w_fs w)) (w_fds w) (w_permit w) (w_limit w)) /\
    mread f' offset n = Some (be_bytes (Z.to_nat n) repl) /\
    blen f' = Z.max (blen f) (offset + n) /\
    (forall i d, 0 <= i < offset \/ offset + n <= i -> mread f i 1 = Some d -> mread f' i 1 = Some d)) /\
  (8 < n -> patch offset repl n name w = Some (BXXT_FAILED, w)) /\
  (n <= 8 -> 2 ^ 63 <= offset < 2 ^ 64 - 1 -> patch offset repl n name w = Some (BXXT_FAILED, w)) /\
  (n = 0 -> offset < 2 ^ 63 -> patch offset repl n name w = None).
Proof.
  split; [by apply patch_main_parses|]. unfold is_u64 in *. split_and!.
  - intros Hn8 Ho' Hl. exists (overwrite f offset (be_bytes (Z.to_nat n) repl)).
    split; [apply patch_runs; auto; lia|]. set (d := be_bytes (Z.to_nat n) repl).
    assert (blen d = n) as Hd by (unfold d; rewrite blen_be_bytes; lia).
    rewrite <- Hd. apply overwrite_spec. lia.
  - intros H8. unfold patch. by replace (8 <? n) with true by lia.
  - intros H8 Hoff. by apply (patch_seek_refused w name f).
  - intros -> Hoff. apply (patch_size_zero w name f); (done || lia).
Qed.

Lemma patch_spec_witness :
  exists f', patch 1 0xABCD 2 (str "f") (one_file (str "f") [1; 2; 3; 4]) =
    Some (BXXT_SUCCESS, World (<[str "f" := Regular f']> (w_fs (one_file (str "f") [1; 2; 3; 4])))
      {[ 0 := OFile (str "tty") O_RDWR 0 ]} (fun _ _ => true) (2 ^ 31)) /\
    mread f' 1 2 = Some [0xAB; 0xCD] /\ blen f' = 4.
Proof.
  destruct (patch_spec (one_file (str "f") [1; 2; 3; 4]) (str "f") [1; 2; 3; 4] 1 0xABCD 2)
    as (_ & Hw & _); [reflexivity|reflexivity|reflexivity|discriminate|by vm_compute..|].
  destruct Hw as (f' & H & H1 & H2 & _); [lia|lia|cbn; lia|].
  exists f'. split; [exact H|]. split; [exact H1|exact H2].
Defined.

(** An offset of 2^64 - 1 passes the seek check: [lseek] rejects the
    negative [off_t] with -1, which the comparison converts to that very
    offset, and the bytes overwrite the start of the file. *)
Theorem patch_offset_minus_one w name f repl n
    (Hn : blen name < PATH_MAX) (Hp : w_permit w name O_WRONLY = true)
    (Hf : w_fs w !! name = Some (Regular f)) (H0 : w_fds w !! 0 <> None)
    (Hr : 1 <= n <= 8) (Hl : n <= w_limit w) :
  patch (2 ^ 64 - 1) repl n name w =
    Some (BXXT_SUCCESS,
          World (<[name := Regular (overwrite f 0 (be_bytes (Z.to_nat n) repl))]> (w_fs w))
            (w_fds w) (w_permit w) (w_limit w)).
Proof. apply patch_runs; auto. Qed.

Lemma patch_offset_minus_one_witness :
  exists w, patch (2 ^ 64 - 1) 0xABCD 2 (str "f") (one_file (str "f") [1; 2; 3; 4]) = Some (BXXT_SUCCESS, w) /\
    w_fs w !! str "f" = Some (Regular [0xAB; 0xCD; 3; 4]).
Proof.
  eexists. split; [apply (patch_offset_minus_one (one_file (str "f") [1; 2; 3; 4]) (str "f") [1; 2; 3; 4]);
    [reflexivity|reflexivity|reflexivity|discriminate|lia|cbn; lia]|].
  vm_compute. reflexivity.
Defined.
