(* ===== verification/Hashtab.v ===== *)
(** Hash tables and symbol tables of libsepol (hashtab.c, symtab.c).

    A table is an array of chains kept sorted by the key comparison.  The
    table's two function pointers are an interface: the class [TableKey] gives
    the hash and the comparison with the laws every table relies on, and the
    symbol tables implement it ([symhash], [symcmp]).  The operations are
    verified once, for every implementation of the interface, against finite
    maps. *)
From S2P Require Import Prelude Stdio.

Definition SEPOL_OK := 0.
Definition SEPOL_ENOMEM := -12.
Definition SEPOL_ENOENT := -2.
Definition SEPOL_EEXIST := -17.

(** ** The interface of keys *)

(** The two function pointers, and what a table relies on. *)
Class KeyOps (K : Type) := {
  hash_value : Z -> K -> Z;    (* the table's size, the key *)
  keycmp : K -> K -> Z
}.

Class TableKey (K : Type) `{Countable K} := {
  key_ops :: KeyOps K;
  hash_range : forall size k, 0 < size < 2 ^ 32 -> 0 <= hash_value size k < size;
  keycmp_eq : forall a b, keycmp a b = 0 <-> a = b;
  keycmp_opp : forall a b, keycmp a b < 0 <-> 0 < keycmp b a;
  keycmp_trans : forall a b c, keycmp a b < 0 -> keycmp b c < 0 -> keycmp a c < 0
}.

(** ** Tables *)

Record hashtab (K D : Type) := Hashtab { htable : list (list (K * D)); size : Z; nel : Z }.
Arguments Hashtab {K D} _ _ _.
Arguments htable {K D} _.
Arguments size {K D} _.
Arguments nel {K D} _.

Section Operations.
Context {K D : Type} `{KeyOps K}.

(** [None] is the NULL table. *)
Definition hashtab_create (sz : Z) : option (hashtab K D) :=
  Some (Hashtab (replicate (Z.to_nat sz) []) sz 0).

(** The common search loop: the nodes before the position of [key], and the
    rest of the chain. *)
Fixpoint walk (key : K) (c : list (K * D)) : list (K * D) * list (K * D) :=
  match c with
  | (k, d) :: c' =>
      if 0 <? keycmp key k then let '(prev, cur) := walk key c' in ((k, d) :: prev, cur)
      else ([], c)
  | [] => ([], [])
  end.

(** Does the walk stop at [key]? *)
Definition found (key : K) (cur : list (K * D)) : bool :=
  match cur with (k, _) :: _ => keycmp key k =? 0 | [] => false end.

Definition chain (h : hashtab K D) (key : K) : list (K * D) :=
  default [] (htable h !! Z.to_nat (hash_value (size h) key)).

Definition set_chain (h : hashtab K D) (key : K) (c : list (K * D)) (n : Z) : hashtab K D :=
  Hashtab (<[Z.to_nat (hash_value (size h) key) := c]> (htable h)) (size h) n.

Definition hashtab_insert (h : option (hashtab K D)) (key : K) (datum : D)
    : Z * option (hashtab K D) :=
  match h with
  | None => (SEPOL_ENOMEM, h)
  | Some t =>
      let '(prev, cur) := walk key (chain t key) in
      if found key cur then (SEPOL_EEXIST, h)
      else (SEPOL_OK, Some (set_chain t key (prev ++ (key, datum) :: cur) (u32 (nel t + 1))))
  end.

(** The pair handed to [destroy] is returned. *)
Definition hashtab_remove (h : option (hashtab K D)) (key : K)
    : Z * option (K * D) * option (hashtab K D) :=
  match h with
  | None => (SEPOL_ENOENT, None, h)
  | Some t =>
      let '(last, cur) := walk key (chain t key) in
      match cur with
      | (k, d) :: next =>
          if keycmp key k =? 0
          then (SEPOL_OK, Some (k, d), Some (set_chain t key (last ++ next) (u32 (nel t - 1))))
          else (SEPOL_ENOENT, None, h)
      | [] => (SEPOL_ENOENT, None, h)
      end
  end.

(** A new node is not counted in [nel]. *)
Definition hashtab_replace (h : option (hashtab K D)) (key : K) (datum : D)
    : Z * option (K * D) * option (hashtab K D) :=
  match h with
  | None => (SEPOL_ENOMEM, None, h)
  | Some t =>
      let '(prev, cur) := walk key (chain t key) in
      match cur with
      | (k, d) :: next =>
          if keycmp key k =? 0
          then (SEPOL_OK, Some (k, d), Some (set_chain t key (prev ++ (key, datum) :: next) (nel t)))
          else (SEPOL_OK, None, Some (set_chain t key (prev ++ (key, datum) :: cur) (nel t)))
      | [] => (SEPOL_OK, None, Some (set_chain t key (prev ++ [(key, datum)]) (nel t)))
      end
  end.

Definition hashtab_search (h : option (hashtab K D)) (key : K) : option D :=
  match h with
  | None => None
  | Some t =>
      let '(_, cur) := walk key (chain t key) in
      match cur with
      | (k, d) :: _ => if keycmp key k =? 0 then Some d else None
      | [] => None
      end
  end.

Definition hashtab_destroy (h : option (hashtab K D)) : option (hashtab K D) := None.

(** [apply] updates the caller's [args] and returns a status. *)
Fixpoint map_chain {A} (apply : K -> D -> A -> Z * A) (c : list (K * D)) (args : A) : Z * A :=
  match c with
  | [] => (SEPOL_OK, args)
  | (k, d) :: c =>
      let '(ret, args) := apply k d args in
      if u32 ret =? 0 then map_chain apply c args else (s32 ret, args)
  end.

Fixpoint map_chains {A} (apply : K -> D -> A -> Z * A) (t : list (list (K * D))) (args : A) : Z * A :=
  match t with
  | [] => (SEPOL_OK, args)
  | c :: t =>
      let '(ret, args) := map_chain apply c args in
      if ret =? 0 then map_chains apply t args else (ret, args)
  end.

Definition hashtab_map {A} (h : option (hashtab K D)) (apply : K -> D -> A -> Z * A) (args : A)
    : Z * A :=
  match h with None => (SEPOL_OK, args) | Some t => map_chains apply (htable t) args end.

(** [destroy] and [apply] both see [args]; the removed nodes are counted. *)
Fixpoint prune_chain {A} (apply : K -> D -> A -> Z * A) (destroy : K -> D -> A -> A)
    (c : list (K * D)) (args : A) (n : Z) : list (K * D) * A * Z :=
  match c with
  | [] => ([], args, n)
  | (k, d) :: c =>
      let '(ret, args) := apply k d args in
      if ret =? 0 then
        let '(c, args, n) := prune_chain apply destroy c args n in ((k, d) :: c, args, n)
      else prune_chain apply destroy c (destroy k d args) (u32 (n - 1))
  end.

Fixpoint prune_chains {A} (apply : K -> D -> A -> Z * A) (destroy : K -> D -> A -> A)
    (t : list (list (K * D))) (args : A) (n : Z) : list (list (K * D)) * A * Z :=
  match t with
  | [] => ([], args, n)
  | c :: t =>
      let '(c, args, n) := prune_chain apply destroy c args n in
      let '(t, args, n) := prune_chains apply destroy t args n in
      (c :: t, args, n)
  end.

Definition hashtab_map_remove_on_error {A} (h : option (hashtab K D))
    (apply : K -> D -> A -> Z * A) (destroy : K -> D -> A -> A) (args : A)
    : option (hashtab K D) * A :=
  match h with
  | None => (None, args)
  | Some t =>
      let '(c, args, n) := prune_chains apply destroy (htable t) args (nel t) in
      (Some (Hashtab c (size t) n), args)
  end.

(** The numbers [hashtab_hash_eval] prints: used slots and longest chain. *)
Fixpoint eval_chains (t : list (list (K * D))) (used longest : Z) : Z * Z :=
  match t with
  | [] => (used, longest)
  | [] :: t => eval_chains t used longest
  | c :: t => eval_chains t (used + 1) (if longest <? blen c then blen c else longest)
  end.

Definition hashtab_hash_eval (h : hashtab K D) : Z * Z := eval_chains (htable h) 0 0.
End Operations.

(** ** Symbol tables *)

(** Plain [char] is signed or unsigned, depending on the target. *)
Class CharSign := char_signed : bool.
Definition char_value `{CharSign} (c : Z) : Z := if char_signed && (127 <? c) then c - 256 else c.

(** [val << 4 | val >> 28] *)
Fixpoint symhash_loop `{CharSign} (p : bytes) (val : Z) : Z :=
  match p with
  | [] => val
  | c :: p =>
      symhash_loop p (Z.lxor (Z.lor (u32 (Z.shiftl val 4)) (Z.shiftr val 28)) (u32 (char_value c)))
  end.

Definition symhash `{CharSign} (size : Z) (key : bytes) : Z :=
  Z.land (symhash_loop key 0) (u32 (size - 1)).

Definition symcmp (key1 key2 : bytes) : Z := strcmp key1 key2.

Record symtab (D : Type) := Symtab { table : option (hashtab bytes D); nprim : Z }.
Arguments Symtab {D} _ _.
Arguments table {D} _.
Arguments nprim {D} _.

(** ** Vocabulary of the proofs *)

Definition symtab_init {D} (size : Z) : Z * symtab D := (0, Symtab (hashtab_create size) 0).
Definition symtab_destroy {D} (s : symtab D) : symtab D :=
  Symtab (hashtab_destroy (table s)) (nprim s).

(** The first entry of a chain with a key: the meaning of a chain. *)
Fixpoint assoc {K D} `{EqDecision K} (k : K) (c : list (K * D)) : option D :=
  match c with
  | [] => None
  | (k', d) :: c => if decide (k = k') then Some d else assoc k c
  end.

(** The entries of a table, in the order of the array and of the chains. *)
Definition entries {K D} (h : hashtab K D) : list (K * D) := concat (htable h).

(** A table as a finite map. *)
Definition as_map {K D} `{Countable K} (h : hashtab K D) : gmap K D := list_to_map (entries h).

Definition sorted {K D} `{TableKey K} (c : list (K * D)) : Prop :=
  StronglySorted (fun a b => keycmp a.1 b.1 < 0) c.

(** Every chain is sorted and holds the keys of its slot. *)
Record wf {K D} `{TableKey K} (h : hashtab K D) : Prop := {
  wf_size : 0 < size h < 2 ^ 31;
  wf_slots : length (htable h) = Z.to_nat (size h);
  wf_sorted : Forall sorted (htable h);
  wf_hash : forall i c, htable h !! i = Some c ->
    Forall (fun x => hash_value (size h) x.1 = Z.of_nat i) c
}.

(** The abstract machine: the calls of a client and a finite map. *)
Inductive call (K D : Type) := Insert (k : K) (d : D) | Remove (k : K) | Replace (k : K) (d : D) | Search (k : K).
Arguments Insert {K D} _ _.
Arguments Remove {K D} _.
Arguments Replace {K D} _ _.
Arguments Search {K D} _.

(** What a call reports: its status, and the datum it found or gave up. *)
Definition spec_call {K D} `{Countable K} (m : gmap K D) (c : call K D) : (Z * option D) * gmap K D :=
  match c with
  | Insert k d => match m !! k with
                  | Some _ => (SEPOL_EEXIST, None, m)
                  | None => (SEPOL_OK, None, <[k := d]> m) end
  | Remove k => match m !! k with
                | Some d => (SEPOL_OK, Some d, delete k m)
                | None => (SEPOL_ENOENT, None, m) end
  | Replace k d => (SEPOL_OK, m !! k, <[k := d]> m)
  | Search k => (0, m !! k, m)
  end.

Definition table_call {K D} `{TableKey K} (h : option (hashtab K D)) (c : call K D)
    : (Z * option D) * option (hashtab K D) :=
  match c with
  | Insert k d => let '(r, h) := hashtab_insert h k d in (r, None, h)
  | Remove k => let '(r, x, h) := hashtab_remove h k in (r, snd <$> x, h)
  | Replace k d => let '(r, x, h) := hashtab_replace h k d in (r, snd <$> x, h)
  | Search k => (0, hashtab_search h k, h)
  end.

Fixpoint run {S C R} (f : S -> C -> R * S) (s : S) (cs : list C) : list R * S :=
  match cs with
  | [] => ([], s)
  | c :: cs => let '(r, s) := f s c in let '(rs, s) := run f s cs in (r :: rs, s)
  end.

(** How a call changes the count of entries: not at all for [Replace]. *)
Definition nel_call {K D} `{Countable K} (n : Z) (m : gmap K D) (c : call K D) : Z :=
  match c with
  | Insert k _ => if decide (m !! k = None) then u32 (n + 1) else n
  | Remove k => if decide (m !! k = None) then n else u32 (n - 1)
  | _ => n
  end.

(** A table that stands for a map. *)
Definition refines {K D} `{TableKey K} (h : option (hashtab K D)) (m : gmap K D) : Prop :=
  exists t, h = Some t /\ wf t /\ as_map t = m.

(** The entries [apply] refuses are dropped from the list; the others stay. *)
Fixpoint keep {K D A} (apply : K -> D -> A -> Z * A) (destroy : K -> D -> A -> A)
    (l : list (K * D)) (args : A) : list (K * D) * A :=
  match l with
  | [] => ([], args)
  | (k, d) :: l =>
      let '(ret, args) := apply k d args in
      if ret =? 0 then let '(l, args) := keep apply destroy l args in ((k, d) :: l, args)
      else keep apply destroy l (destroy k d args)
  end.

(** The entries in order, up to the first that makes [apply] fail. *)
Fixpoint visit {K D A} (apply : K -> D -> A -> Z * A) (l : list (K * D)) (args : A) : Z * A :=
  match l with
  | [] => (SEPOL_OK, args)
  | (k, d) :: l =>
      let '(ret, args) := apply k d args in
      if ret =? 0 then visit apply l args else (ret, args)
  end.

(** ** Chains *)

Section Chains.
Context {K D : Type} `{TableKey K}.
Implicit Types (k : K) (d : D) (c : list (K * D)).

Lemma keycmp_refl k : keycmp k k = 0.
Proof. by apply keycmp_eq. Qed.

Lemma keycmp_pos a b : 0 < keycmp a b <-> keycmp b a < 0.
Proof. symmetry. apply keycmp_opp. Qed.

(** The walk splits the chain at the key's place. *)
Lemma walk_spec k c (p q : list (K * D)) :
  walk k c = (p, q) ->
  c = p ++ q /\ Forall (fun x => keycmp x.1 k < 0) p /\
  match q with [] => True | x :: _ => keycmp k x.1 <= 0 end.
Proof.
  revert p q. induction c as [|[k' d] c IH]; cbn [walk]; intros p q Hw.
  - injection Hw as <- <-. by split.
  - destruct (Z.ltb_spec 0 (keycmp k k')) as [Hlt|Hle].
    + destruct (walk k c) as [p' q'] eqn:E. injection Hw as <- <-.
      destruct (IH p' q' eq_refl) as (-> & Hp & Hq). split; [done|]. split; [|done].
      apply Forall_cons_2; [by apply keycmp_pos|done].
    + injection Hw as <- <-. by split.
Qed.

Lemma assoc_app k (p q : list (K * D)) :
  assoc k (p ++ q) = match assoc k p with Some d => Some d | None => assoc k q end.
Proof. induction p as [|[k' d] p IH]; [done|]. cbn. by destruct (decide _). Qed.

Lemma assoc_none k c : Forall (fun x => x.1 <> k) c -> assoc k c = None.
Proof.
  induction 1 as [|[k' d] c Hk Hc IH]; [done|]. cbn in *. by rewrite decide_False.
Qed.

Lemma below_ne k p : Forall (fun x : K * D => keycmp x.1 k < 0) p -> Forall (fun x => x.1 <> k) p.
Proof.
  intros Hp. eapply Forall_impl; [exact Hp|]. intros x Hx Hk. cbn in Hx.
  rewrite Hk, keycmp_refl in Hx. lia.
Qed.

Lemma above_ne k (x : K * D) q :
  keycmp k x.1 <= 0 -> sorted (x :: q) -> Forall (fun y => y.1 <> k) q.
Proof.
  intros Hk Hs. apply StronglySorted_cons in Hs as [Hs _].
  eapply Forall_impl; [exact Hs|]. intros y Hy Hyk. cbn in Hy. rewrite Hyk in Hy.
  apply keycmp_opp in Hy. lia.
Qed.

(** What a walk finds is the entry of the key. *)
Lemma walk_assoc k c (p q : list (K * D)) :
  sorted c -> walk k c = (p, q) ->
  assoc k c = match q with
              | (k', d) :: _ => if keycmp k k' =? 0 then Some d else None
              | [] => None end.
Proof.
  intros Hs Hw. destruct (walk_spec k c p q Hw) as (-> & Hp & Hq).
  apply StronglySorted_app_1_r in Hs. rewrite assoc_app, (assoc_none k p (below_ne k p Hp)).
  destruct q as [|[k' d] q]; [done|]. cbn [assoc fst] in *.
  destruct (Z.eqb_spec (keycmp k k') 0) as [E|E].
  - apply keycmp_eq in E. by rewrite decide_True.
  - rewrite decide_False by (intros ->; by rewrite keycmp_refl in E).
    apply assoc_none. by apply (above_ne k (k', d) q).
Qed.

Lemma sorted_app (p q : list (K * D)) :
  sorted (p ++ q) <->
  (forall x y, x ∈ p -> y ∈ q -> keycmp x.1 y.1 < 0) /\ sorted p /\ sorted q.
Proof. apply StronglySorted_app. Qed.
End Chains.

(** ** Tables as finite maps *)

Section Tables.
Context {K D : Type} `{TableKey K}.
Implicit Types (k : K) (d : D) (c : list (K * D)) (h : hashtab K D).

Lemma assoc_concat k (t : list (list (K * D))) i :
  (forall j c, j <> i -> t !! j = Some c -> Forall (fun x => x.1 <> k) c) ->
  assoc k (concat t) = assoc k (default [] (t !! i)).
Proof.
  revert i. induction t as [|c t IH]; intros i Hne; [done|]. cbn [concat].
  rewrite assoc_app. destruct i as [|i].
  - change ((c :: t) !! 0%nat) with (Some c). cbn [default].
    destruct (assoc k c) eqn:E; [done|]. rewrite (IH (length t)).
    + by rewrite lookup_ge_None_2.
    + intros j c' _ Hj. by apply (Hne (S j)).
  - rewrite (assoc_none k c) by (by apply (Hne 0%nat)). apply IH.
    intros j c' Hji Hj. apply (Hne (S j)); [lia|done].
Qed.

Lemma list_to_map_assoc k (l : list (K * D)) : (list_to_map l : gmap K D) !! k = assoc k l.
Proof.
  induction l as [|[k' d] l IH]; [apply lookup_empty|].
  cbn [list_to_map foldr assoc uncurry fst snd].
  destruct (decide (k = k')) as [->|Hne].
  - by rewrite lookup_insert_eq.
  - by rewrite lookup_insert_ne.
Qed.

Lemma wf_range h k : wf h -> 0 <= hash_value (size h) k < size h.
Proof. intros Hw. apply hash_range. pose proof (wf_size h Hw). lia. Qed.

(** A key is looked up in its own chain. *)
Lemma as_map_lookup h k : wf h -> as_map h !! k = assoc k (chain h k).
Proof.
  intros Hw. unfold as_map. rewrite list_to_map_assoc. unfold entries, chain.
  apply assoc_concat. intros j c Hj Hc. pose proof (wf_range h k Hw) as Hr.
  eapply Forall_impl; [by apply (wf_hash h Hw j)|]. intros x Hx Hk. cbn in Hx.
  rewrite Hk in Hx. lia.
Qed.

Lemma chain_ok h k :
  wf h -> htable h !! Z.to_nat (hash_value (size h) k) = Some (chain h k) /\
  sorted (chain h k) /\
  Forall (fun x => hash_value (size h) x.1 = hash_value (size h) k) (chain h k).
Proof.
  intros Hw. pose proof (wf_range h k Hw) as Hr. unfold chain.
  destruct (lookup_lt_is_Some_2 (htable h) (Z.to_nat (hash_value (size h) k))) as [c Hc].
  { rewrite (wf_slots h Hw). lia. }
  rewrite Hc. cbn. split; [done|]. split.
  - exact (proj1 (Forall_lookup sorted _) (wf_sorted h Hw) _ _ Hc).
  - eapply Forall_impl; [by apply (wf_hash h Hw _ _ Hc)|]. cbn. intros x. lia.
Qed.

(** Replacing a key's chain by another sorted chain of the same slot. *)
Lemma set_chain_ok h k c n :
  wf h -> sorted c ->
  Forall (fun x => hash_value (size h) x.1 = hash_value (size h) k) c ->
  wf (set_chain h k c n) /\
  forall k', as_map (set_chain h k c n) !! k' =
    if decide (hash_value (size h) k' = hash_value (size h) k) then assoc k' c
    else as_map h !! k'.
Proof.
  intros Hw Hs Hh. pose proof (wf_range h k Hw) as Hr. pose proof (wf_slots h Hw) as Hl.
  assert (Hw' : wf (set_chain h k c n)).
  { split; cbn [set_chain htable size].
    - apply (wf_size h Hw).
    - by rewrite length_insert.
    - by apply Forall_insert; [apply (wf_sorted h Hw)|].
    - intros i c' Hi. apply list_lookup_insert_Some in Hi as [(<- & -> & _)|[_ Hi]].
      + eapply Forall_impl; [exact Hh|]. cbn. intros x. lia.
      + by apply (wf_hash h Hw). }
  split; [exact Hw'|]. intros k'. rewrite !as_map_lookup by assumption.
  unfold chain at 1. cbn [set_chain htable size].
  destruct (decide _) as [->|Hne].
  - rewrite list_lookup_insert_eq by lia. done.
  - rewrite list_lookup_insert_ne; [done|]. pose proof (wf_range h k' Hw). lia.
Qed.

Lemma sorted_keys_NoDup c : sorted c -> NoDup c.*1.
Proof.
  induction 1 as [|x c Hs IH Hx]; [constructor|]. cbn. constructor; [|done].
  intros (y & Hy & Hin)%list_elem_of_fmap. 
  rewrite Forall_forall in Hx. specialize (Hx y Hin). cbn in Hx. rewrite Hy, keycmp_refl in Hx. lia.
Qed.

Lemma concat_keys_NoDup (t : list (list (K * D))) (f : K -> Z) (b : Z) :
  Forall sorted t ->
  (forall i c, t !! i = Some c -> Forall (fun x => f x.1 = b + Z.of_nat i) c) ->
  NoDup (concat t).*1.
Proof.
  revert b. induction t as [|c t IH]; intros b Hs Hf; [constructor|].
  cbn [concat]. rewrite fmap_app. apply Forall_cons in Hs as [Hc Hs].
  apply NoDup_app. split; [by apply sorted_keys_NoDup|]. split.
  - intros k (x & -> & Hx)%list_elem_of_fmap (y & Hxy & Hy)%list_elem_of_fmap.
    specialize (Hf 0%nat c eq_refl) as Hf0. rewrite Forall_forall in Hf0.
    specialize (Hf0 x Hx). cbn in Hf0.
    apply list_elem_of_In, in_concat in Hy as (c' & Hc' & Hy).
    apply list_elem_of_In, list_elem_of_lookup in Hc' as [j Hj].
    specialize (Hf (S j) c' Hj). rewrite Forall_forall in Hf.
    apply list_elem_of_In in Hy. specialize (Hf y Hy). cbn in Hf. rewrite <- Hxy in Hf. lia.
  - apply (IH (b + 1)); [done|]. intros i c' Hi. specialize (Hf (S i) c' Hi).
    eapply Forall_impl; [exact Hf|]. cbn. intros x. lia.
Qed.

Lemma entries_NoDup h : wf h -> NoDup (entries h).*1.
Proof.
  intros Hw. apply (concat_keys_NoDup _ (hash_value (size h)) 0); [apply (wf_sorted h Hw)|].
  intros i c Hi. exact (wf_hash h Hw i c Hi).
Qed.

Lemma entries_map h : wf h -> entries h ≡ₚ map_to_list (as_map h).
Proof. intros Hw. symmetry. by apply map_to_list_to_map, entries_NoDup. Qed.

Lemma table_create_wf sz : 0 < sz < 2 ^ 31 ->
  exists h : hashtab K D, hashtab_create sz = Some h /\ wf h /\ as_map h = ∅ /\ nel h = 0.
Proof.
  intros Hsz. exists (Hashtab (replicate (Z.to_nat sz) []) sz 0). split; [done|]. split.
  - split; cbn [htable size]; [done|by rewrite length_replicate| |].
    + apply Forall_replicate. constructor.
    + intros i c [-> _]%lookup_replicate. constructor.
  - split; [|done]. apply map_empty. intros k. unfold as_map, entries. cbn [htable].
    rewrite list_to_map_assoc. by induction (Z.to_nat sz).
Qed.

Lemma assoc_mid k k' d (p q : list (K * D)) :
  sorted (p ++ (k, d) :: q) ->
  assoc k' (p ++ (k, d) :: q) = if decide (k' = k) then Some d else assoc k' (p ++ q).
Proof.
  intros (Hpq & _ & _)%sorted_app. rewrite !assoc_app. cbn [assoc].
  destruct (decide (k' = k)) as [->|]; [|done].
  rewrite (assoc_none k p); [done|]. apply below_ne, Forall_forall. intros x Hx.
  apply (Hpq x (k, d) Hx). by left.
Qed.

(** Putting a node at the place the walk found. *)
Lemma sorted_put k d (p q : list (K * D)) :
  sorted (p ++ q) -> Forall (fun x => keycmp x.1 k < 0) p ->
  match q with [] => True | x :: _ => keycmp k x.1 < 0 end ->
  sorted (p ++ (k, d) :: q).
Proof.
  intros (Hpq & Hp & Hq)%sorted_app Hpk Hk. rewrite Forall_forall in Hpk.
  apply sorted_app. split; [|split; [done|]].
  - intros x y Hx [->|Hy]%elem_of_cons; [by apply Hpk|by apply Hpq].
  - constructor; [done|]. apply Forall_forall. cbn. intros y Hy.
    destruct q as [|z q]; [by apply elem_of_nil in Hy|].
    apply elem_of_cons in Hy as [->|Hy]; [done|].
    apply keycmp_trans with z.1; [done|]. apply StronglySorted_cons in Hq as [Hq _].
    rewrite Forall_forall in Hq. by apply Hq.
Qed.

(** The chain of a key around the place the walk found. *)
Lemma walk_chain h k (p q : list (K * D)) :
  wf h -> walk k (chain h k) = (p, q) ->
  sorted (p ++ q) /\ Forall (fun x => keycmp x.1 k < 0) p /\
  match q with [] => True | x :: _ => keycmp k x.1 <= 0 end /\
  Forall (fun x => hash_value (size h) x.1 = hash_value (size h) k) (p ++ q) /\
  chain h k = p ++ q /\
  as_map h !! k = match q with
                  | (k', d) :: _ => if keycmp k k' =? 0 then Some d else None
                  | [] => None end.
Proof.
  intros Hw Hk. destruct (chain_ok h k Hw) as (_ & Hs & Hh).
  pose proof (walk_assoc k _ p q Hs Hk) as Ha. rewrite <- as_map_lookup in Ha by done.
  destruct (walk_spec k _ p q Hk) as (E & Hp & Hq). rewrite E in Hs, Hh. done.
Qed.

(** The three updates of a chain. *)
Lemma put_new h k d n (p q : list (K * D)) :
  wf h -> walk k (chain h k) = (p, q) -> as_map h !! k = None ->
  wf (set_chain h k (p ++ (k, d) :: q) n) /\
  as_map (set_chain h k (p ++ (k, d) :: q) n) = <[k := d]> (as_map h).
Proof.
  intros Hw Hk Hn. destruct (walk_chain h k p q Hw Hk) as (Hs & Hp & Hq & Hh & Hc & Ha).
  assert (Hs' : sorted (p ++ (k, d) :: q)).
  { apply sorted_put; [done..|]. rewrite Hn in Ha. destruct q as [|[k' d'] q]; [done|].
    cbn in *. destruct (Z.eqb_spec (keycmp k k') 0); [done|lia]. }
  destruct (set_chain_ok h k (p ++ (k, d) :: q) n Hw Hs') as [Hw' Hm].
  { apply Forall_app in Hh as [H1 H2]. apply Forall_app. split; [done|by constructor]. }
  split; [exact Hw'|]. apply map_eq. intros k'. rewrite Hm, (assoc_mid k k' d p q Hs').
  destruct (decide (k' = k)) as [->|Hne].
  - by rewrite decide_True, lookup_insert_eq.
  - rewrite lookup_insert_ne by done. destruct (decide _) as [E|E]; [|done].
    rewrite as_map_lookup by done. unfold chain. rewrite E. fold (chain h k). by rewrite Hc.
Qed.

Lemma assoc_del k k' d (p q : list (K * D)) :
  sorted (p ++ (k, d) :: q) ->
  assoc k' (p ++ q) = if decide (k' = k) then None else assoc k' (p ++ (k, d) :: q).
Proof.
  intros Hs. rewrite (assoc_mid k k' d p q Hs). destruct (decide (k' = k)) as [->|]; [|done].
  apply sorted_app in Hs as (Hpq & _ & [Hq _]%StronglySorted_cons).
  apply assoc_none, Forall_app. split.
  - apply below_ne, Forall_forall. intros x Hx. apply (Hpq x (k, d) Hx). by left.
  - eapply Forall_impl; [exact Hq|]. cbn. intros x Hx E. rewrite E, keycmp_refl in Hx. lia.
Qed.

Lemma sorted_del (x : K * D) (p q : list (K * D)) : sorted (p ++ x :: q) -> sorted (p ++ q).
Proof.
  intros (Hpq & Hp & [_ Hq]%StronglySorted_cons)%sorted_app. apply sorted_app.
  split; [|done]. intros a b Ha Hb. apply Hpq; [done|by right].
Qed.

Lemma delete_node h k d n (p q : list (K * D)) :
  wf h -> walk k (chain h k) = (p, (k, d) :: q) ->
  wf (set_chain h k (p ++ q) n) /\ as_map (set_chain h k (p ++ q) n) = delete k (as_map h).
Proof.
  intros Hw Hk. destruct (walk_chain h k p _ Hw Hk) as (Hs & _ & _ & Hh & Hc & _).
  destruct (set_chain_ok h k (p ++ q) n Hw (sorted_del _ _ _ Hs)) as [Hw' Hm].
  { apply Forall_app in Hh as [H1 [_ H2]%Forall_cons]. by apply Forall_app. }
  split; [exact Hw'|]. apply map_eq. intros k'. rewrite Hm, (assoc_del k k' d p q Hs).
  destruct (decide (k' = k)) as [->|Hne].
  - by rewrite decide_True, lookup_delete_eq.
  - rewrite lookup_delete_ne by done. destruct (decide _) as [E|E]; [|done].
    rewrite as_map_lookup by done. unfold chain. rewrite E. fold (chain h k). by rewrite Hc.
Qed.

Lemma put_over h k d' d n (p q : list (K * D)) :
  wf h -> walk k (chain h k) = (p, (k, d') :: q) ->
  wf (set_chain h k (p ++ (k, d) :: q) n) /\
  as_map (set_chain h k (p ++ (k, d) :: q) n) = <[k := d]> (as_map h).
Proof.
  intros Hw Hk. destruct (walk_chain h k p _ Hw Hk) as (Hs & _ & _ & Hh & Hc & _).
  assert (Hs' : sorted (p ++ (k, d) :: q)).
  { apply sorted_app in Hs as (Hpq & Hp & Hq). apply StronglySorted_cons in Hq as [Hq1 Hq2].
    apply sorted_app. split; [|split; [done|by apply StronglySorted_cons]].
    intros x y Hx [->|Hy]%elem_of_cons;
      [apply (Hpq x (k, d') Hx); by left|apply Hpq; [done|by right]]. }
  destruct (set_chain_ok h k (p ++ (k, d) :: q) n Hw Hs') as [Hw' Hm].
  { apply Forall_app in Hh as [H1 [_ H2]%Forall_cons]. apply Forall_app.
    split; [done|by constructor]. }
  split; [exact Hw'|]. apply map_eq. intros k'. rewrite Hm, (assoc_mid k k' d p q Hs').
  destruct (decide (k' = k)) as [->|Hne].
  - by rewrite decide_True, lookup_insert_eq.
  - rewrite lookup_insert_ne by done. destruct (decide _) as [E|E]; [|done].
    rewrite as_map_lookup by done. unfold chain. rewrite E. fold (chain h k). rewrite Hc.
    rewrite (assoc_mid k k' d' p q Hs). by rewrite decide_False.
Qed.
End Tables.

(** ** What the operations do *)

Section Refinement.
Context {K D : Type} `{TableKey K}.
Implicit Types (k : K) (d : D) (c : list (K * D)) (h : hashtab K D).

Lemma found_at k k' d (p q : list (K * D)) h :
  wf h -> walk k (chain h k) = (p, (k', d) :: q) -> keycmp k k' = 0 ->
  k' = k /\ as_map h !! k = Some d.
Proof.
  intros Hw Hk E. destruct (walk_chain h k p _ Hw Hk) as (_ & _ & _ & _ & _ & Ha).
  rewrite E in Ha. apply keycmp_eq in E. split; [congruence|exact Ha].
Qed.

Lemma absent_at k (p q : list (K * D)) h :
  wf h -> walk k (chain h k) = (p, q) -> found k q = false -> as_map h !! k = None.
Proof.
  intros Hw Hk Hf. destruct (walk_chain h k p _ Hw Hk) as (_ & _ & _ & _ & _ & ->).
  destruct q as [|[k' d] q]; [done|]. cbn in Hf. by rewrite Hf.
Qed.

(** One call of the table is one call of the abstract machine. *)
Lemma table_call_ok h (cl : call K D) :
  wf h ->
  exists t, table_call (Some h) cl = (fst (spec_call (as_map h) cl), Some t) /\
    wf t /\ as_map t = snd (spec_call (as_map h) cl) /\ size t = size h /\
    nel t = nel_call (nel h) (as_map h) cl.
Proof.
  intros Hw. unfold nel_call. destruct cl as [k d|k|k d|k];
    cbn [table_call hashtab_insert hashtab_remove hashtab_replace hashtab_search spec_call nel_call];
    destruct (walk k (chain h k)) as [p q] eqn:Hk.
  - destruct (found k q) eqn:Hf.
    + destruct q as [|[k' d'] q]; [done|]. cbn in Hf. apply Z.eqb_eq in Hf.
      destruct (found_at k k' d' p q h Hw Hk Hf) as [-> ->]. exists h. rewrite decide_False by done. done.
    + pose proof (absent_at k p q h Hw Hk Hf) as Hn. rewrite Hn.
      destruct (put_new h k d (u32 (nel h + 1)) p q Hw Hk Hn) as [Hw' Hm]. by eexists.
  - destruct (found k q) eqn:Hf; destruct q as [|[k' d'] q]; cbn in Hf; try done; try rewrite Hf.
    + apply Z.eqb_eq in Hf. destruct (found_at k k' d' p q h Hw Hk Hf) as [-> ->].
      destruct (delete_node h k d' (u32 (nel h - 1)) p q Hw Hk) as [Hw' Hm]. by eexists.
    + rewrite (absent_at k p [] h Hw Hk Hf). by eexists.
    + rewrite (absent_at k p _ h Hw Hk Hf). by eexists.
  - destruct (found k q) eqn:Hf; destruct q as [|[k' d'] q]; cbn in Hf; try done; try rewrite Hf.
    + apply Z.eqb_eq in Hf. destruct (found_at k k' d' p q h Hw Hk Hf) as [-> ->].
      destruct (put_over h k d' d (nel h) p q Hw Hk) as [Hw' Hm]. by eexists.
    + pose proof (absent_at k p [] h Hw Hk Hf) as Hn. rewrite Hn.
      destruct (put_new h k d (nel h) p [] Hw Hk Hn) as [Hw' Hm]. by eexists.
    + pose proof (absent_at k p _ h Hw Hk Hf) as Hn. rewrite Hn.
      destruct (put_new h k d (nel h) p _ Hw Hk Hn) as [Hw' Hm]. by eexists.
  - destruct (walk_chain h k p q Hw Hk) as (_ & _ & _ & _ & _ & Ha). rewrite Ha.
    exists h. split; [|done]. by destruct q as [|[k' d'] q]; [|destruct (_ =? _)].
Qed.

Lemma run_ok (h : option (hashtab K D)) (m : gmap K D) (cs : list (call K D)) :
  refines h m ->
  fst (run table_call h cs) = fst (run spec_call m cs) /\
  refines (snd (run table_call h cs)) (snd (run spec_call m cs)).
Proof.
  revert h m. induction cs as [|cl cs IH]; intros h m Hr; [done|].
  destruct Hr as (t & -> & Hw & <-). cbn [run].
  destruct (table_call_ok t cl Hw) as (t' & -> & Hw' & Hm & _).
  destruct (spec_call (as_map t) cl) as [r m']. cbn in *. subst m'.
  destruct (IH (Some t') (as_map t')) as [H1 H2]; [by exists t'|].
  destruct (run table_call _ cs), (run spec_call _ cs). cbn in *. by subst.
Qed.

Lemma map_chain_app {A} (apply : K -> D -> A -> Z * A) c1 c2 args :
  map_chain apply (c1 ++ c2) args =
  let '(ret, args') := map_chain apply c1 args in
  if ret =? 0 then map_chain apply c2 args' else (ret, args').
Proof.
  revert args. induction c1 as [|[k d] c1 IH]; intros args; [done|]. cbn.
  destruct (apply k d args) as [ret args']. destruct (Z.eqb_spec (u32 ret) 0) as [E|E].
  - apply IH.
  - destruct (Z.eqb_spec (s32 ret) 0) as [E'|]; [|done]. exfalso. apply E.
    revert E'. unfold s32. pose proof (u32_range ret) as Hr. unfold is_u32 in Hr.
      destruct (Z.ltb_spec (u32 ret) (2 ^ 31)); lia.
Qed.

Lemma map_chains_concat {A} (apply : K -> D -> A -> Z * A) t args :
  map_chains apply t args = map_chain apply (concat t) args.
Proof.
  revert args. induction t as [|c t IH]; intros args; [done|]. cbn [map_chains concat].
  rewrite map_chain_app. destruct (map_chain apply c args) as [ret args']. by rewrite IH.
Qed.

Lemma map_chain_stops {A} (apply : K -> D -> A -> Z * A) c args :
  (forall k d a, - 2 ^ 31 <= fst (apply k d a) < 2 ^ 31) ->
  map_chain apply c args =
  match c with
  | [] => (SEPOL_OK, args)
  | (k, d) :: c => if fst (apply k d args) =? 0 then map_chain apply c (snd (apply k d args))
                   else apply k d args
  end.
Proof.
  intros Hint. destruct c as [|[k d] c]; [done|]. cbn. specialize (Hint k d args).
  destruct (apply k d args) as [ret args']. cbn in Hint |- *.
  assert (Hz : (u32 ret =? 0) = (ret =? 0)).
  { unfold u32. destruct (Z.eqb_spec ret 0); destruct (Z.eqb_spec (ret mod 2 ^ 32) 0); pow2; zlia. }
  rewrite Hz. destruct (ret =? 0); [done|]. f_equal. unfold s32, u32.
  destruct (Z.ltb_spec (ret mod 2 ^ 32) (2 ^ 31)); pow2; zlia.
Qed.

Lemma prune_chain_keep {A} (apply : K -> D -> A -> Z * A) (destroy : K -> D -> A -> A) c args n :
  0 <= n < 2 ^ 32 ->
  let '(l, a) := keep apply destroy c args in
  prune_chain apply destroy c args n = (l, a, u32 (n - (blen c - blen l))) /\
  sublist l c /\ blen l <= blen c.
Proof.
  revert args n. induction c as [|[k d] c IH]; intros args n Hn; cbn [keep prune_chain].
  - split; [|done]. f_equal. unfold u32. rewrite Z.mod_small; unfold blen; lia.
  - destruct (apply k d args) as [ret args']. destruct (ret =? 0).
    + specialize (IH args' n Hn). destruct (keep apply destroy c args') as [l a].
      destruct IH as (-> & Hs & Hl). split; [|split; [by constructor|]].
      * f_equal. f_equal. unfold blen. cbn. lia.
      * unfold blen in *. cbn. lia.
    + assert (Hn' : 0 <= u32 (n - 1) < 2 ^ 32) by apply u32_range.
      specialize (IH (destroy k d args') _ Hn').
      destruct (keep apply destroy c (destroy k d args')) as [l a].
      destruct IH as (-> & Hs & Hl). split; [|split; [by constructor|]].
      * f_equal. unfold blen, u32 in *. cbn [length]. rewrite Zminus_mod_idemp_l. f_equal. lia.
      * unfold blen in *. cbn. lia.
Qed.

Lemma keep_app {A} (apply : K -> D -> A -> Z * A) (destroy : K -> D -> A -> A) c1 c2 args :
  keep apply destroy (c1 ++ c2) args =
  let '(l1, a) := keep apply destroy c1 args in
  let '(l2, a) := keep apply destroy c2 a in (l1 ++ l2, a).
Proof.
  revert args. induction c1 as [|[k d] c1 IH]; intros args; cbn [app keep].
  - by destruct (keep _ _ c2 args).
  - destruct (apply k d args) as [ret args']. destruct (ret =? 0); rewrite IH.
    + destruct (keep _ _ c1 args') as [l1 a]. by destruct (keep _ _ c2 a).
    + done.
Qed.

Lemma prune_chains_keep {A} (apply : K -> D -> A -> Z * A) (destroy : K -> D -> A -> A) t args n :
  0 <= n < 2 ^ 32 ->
  let '(l, a) := keep apply destroy (concat t) args in
  exists t', prune_chains apply destroy t args n = (t', a, u32 (n - (blen (concat t) - blen l))) /\
    concat t' = l /\ Forall2 sublist t' t.
Proof.
  revert args n. induction t as [|c t IH]; intros args n Hn; cbn [concat keep prune_chains].
  - exists []. split; [|by split]. f_equal. unfold u32. rewrite Z.mod_small; unfold blen; lia.
  - rewrite keep_app. pose proof (prune_chain_keep apply destroy c args n Hn) as Hc.
    destruct (keep apply destroy c args) as [l1 a]. destruct Hc as (-> & Hs & _).
    specialize (IH a (u32 (n - (blen c - blen l1))) (u32_range _)).
    destruct (keep apply destroy (concat t) a) as [l2 a'].
    destruct IH as (t' & -> & <- & Ht). exists (l1 :: t').
    split; [|split; [done|by constructor]]. f_equal.
    unfold blen, u32. rewrite !length_app. rewrite Zminus_mod_idemp_l. f_equal. lia.
Qed.

Lemma sorted_sublist c c' : sublist c' c -> sorted c -> sorted c'.
Proof.
  intros Hs Hc. induction Hs as [|x l1 l2 Hs IH|x l1 l2 Hs IH]; [done|..];
    apply StronglySorted_cons in Hc as [Hx Hc].
  - apply StronglySorted_cons. split; [|by apply IH].
    rewrite Forall_forall in Hx |- *. intros y Hy. apply Hx. by apply (elem_of_sublist l1 l2).
  - by apply IH.
Qed.

Lemma wf_sublists h t n : wf h -> Forall2 sublist t (htable h) -> wf (Hashtab t (size h) n).
Proof.
  intros Hw Ht. split; cbn [htable size].
  - apply (wf_size h Hw).
  - by rewrite (Forall2_length _ _ _ Ht), (wf_slots h Hw).
  - pose proof (wf_sorted h Hw) as Hs. induction Ht as [|c' c t' t Hc Ht IH]; [constructor|].
    apply Forall_cons in Hs as [H1 H2]. constructor; [by apply (sorted_sublist c)|by apply IH].
  - intros i c' Hi. destruct (Forall2_lookup_l _ _ _ _ _ Ht Hi) as (c & Hc & Hs).
    pose proof (wf_hash h Hw i c Hc) as Hh. rewrite Forall_forall in Hh |- *.
    intros y Hy. apply Hh. by apply (elem_of_sublist c' c).
Qed.
End Refinement.

(** ** The implementation of the interface by strings *)

Lemma strcmp_eq a b : strcmp a b = 0 <-> a = b.
Proof.
  revert b. induction a as [|x a IH]; intros [|y b]; cbn [strcmp]; [done|split; done..|].
  destruct (Z.ltb_spec x y); [split; [done|intros [=]; lia]|].
  destruct (Z.ltb_spec y x); [split; [done|intros [=]; lia]|].
  rewrite IH. replace y with x by lia. split; [congruence|by intros [=]].
Qed.

Lemma strcmp_opp a b : strcmp a b < 0 <-> 0 < strcmp b a.
Proof.
  revert b. induction a as [|x a IH]; intros [|y b]; cbn [strcmp]; [done|done|done|].
  destruct (Z.ltb_spec x y), (Z.ltb_spec y x); try done; lia.
Qed.

Lemma strcmp_trans a b c : strcmp a b < 0 -> strcmp b c < 0 -> strcmp a c < 0.
Proof.
  revert b c. induction a as [|x a IH]; intros [|y b] [|z c]; cbn [strcmp]; try done.
  destruct (Z.ltb_spec x y), (Z.ltb_spec y x), (Z.ltb_spec y z), (Z.ltb_spec z y),
    (Z.ltb_spec x z), (Z.ltb_spec z x); try done; try lia. apply IH.
Qed.

Lemma land_le_r a b : 0 <= b -> Z.land a b <= b.
Proof.
  intros Hb. assert (E : b - Z.land a b = Z.ldiff b (Z.land a b)).
  { apply Z.sub_nocarry_ldiff. apply Z.bits_inj'. intros n Hn.
    rewrite Z.ldiff_spec, Z.land_spec, Z.bits_0. by destruct (Z.testbit a n), (Z.testbit b n). }
  assert (0 <= Z.ldiff b (Z.land a b)) by (apply Z.ldiff_nonneg; by left). lia.
Qed.

Lemma symhash_range `{CharSign} size key : 0 < size < 2 ^ 32 -> 0 <= symhash size key < size.
Proof.
  intros Hs. unfold symhash. assert (E : u32 (size - 1) = size - 1).
  { apply u32_small. unfold is_u32. lia. }
  rewrite E. split; [apply Z.land_nonneg; right; lia|].
  pose proof (land_le_r (symhash_loop key 0) (size - 1)). lia.
Qed.

#[export] Instance symbols `{CharSign} : TableKey bytes := {|
  key_ops := {| hash_value := symhash; keycmp := symcmp |};
  hash_range := symhash_range; keycmp_eq := strcmp_eq; keycmp_opp := strcmp_opp;
  keycmp_trans := strcmp_trans |}.

(** ** Properties *)

Section Properties.
Context {K D : Type} `{TableKey K}.

(** C21. Refinement: a table created by [hashtab_create] behaves as a finite
    map under every sequence of calls.  The statuses and the data returned by
    [hashtab_insert], [hashtab_remove], [hashtab_replace] and
    [hashtab_search], one after the other, are those of the abstract machine
    on [gmap] that starts empty, for every implementation of the hash and of
    the comparison; the table the calls leave is well formed (its chains
    sorted, each key in its slot) and stands for the machine's map. *)
Theorem hashtab_refines_map (sz : Z) (calls : list (call K D)) :
  0 < sz < 2 ^ 31 ->
  let '(answers, h) := run table_call (hashtab_create sz) calls in
  let '(answers', m) := run spec_call ∅ calls in
  answers = answers' /\ refines h m.
Proof.
  intros Hsz. destruct (table_create_wf (K := K) (D := D) sz Hsz) as (t & -> & Hw & Hm & _).
  destruct (run_ok (Some t) ∅ calls) as [H1 H2]; [by exists t|].
  destruct (run table_call _ calls), (run spec_call _ calls). by split.
Qed.

(** The entry count of a table: [hashtab_insert] of a new key and
    [hashtab_remove] of a present one move [nel] by one modulo 2^32, so that
    it stays the number of entries while that fits; the call that adds an
    entry and leaves the count as it was is [hashtab_replace] of a key that
    is not in the table. *)
Theorem hashtab_nel (h : hashtab K D) (c : call K D) :
  wf h -> nel h = Z.of_nat (base.size (as_map h)) -> nel h < 2 ^ 32 - 1 ->
  exists h', snd (table_call (Some h) c) = Some h' /\
  nel h' = Z.of_nat (base.size (as_map h')) -
    match c with Replace k _ => if decide (as_map h !! k = None) then 1 else 0 | _ => 0 end.
Proof.
  intros Hw Hn Hlt. destruct (table_call_ok h c Hw) as (h' & -> & _ & Hm & _ & Hc).
  exists h'. split; [done|]. rewrite Hc, Hm, Hn. rewrite Hn in Hlt.
  destruct c as [k d|k|k d|k]; cbn [nel_call spec_call snd].
  - destruct (as_map h !! k) eqn:E; cbn [snd].
    + rewrite decide_False by done. lia.
    + rewrite decide_True by done. rewrite map_size_insert_None by done.
      rewrite u32_small by (unfold is_u32; lia). lia.
  - destruct (as_map h !! k) eqn:E; cbn [snd].
    + rewrite decide_False by done. rewrite map_size_delete, E.
      assert (base.size (as_map h) <> 0%nat).
      { intros Hz. apply map_size_empty_iff in Hz. by rewrite Hz, lookup_empty in E. }
      rewrite u32_small by (unfold is_u32; lia). lia.
    + rewrite decide_True by done. lia.
  - rewrite map_size_insert. destruct (as_map h !! k) eqn:E; cbn.
    + rewrite decide_False by done. lia.
    + rewrite decide_True by done. lia.
  - lia.
Qed.

(** A table is visited in the order of its entries. *)
Lemma map_visits {A} (h : hashtab K D) (apply : K -> D -> A -> Z * A) args :
  (forall k d a, - 2 ^ 31 <= fst (apply k d a) < 2 ^ 31) ->
  hashtab_map (Some h) apply args = visit apply (entries h) args.
Proof.
  intros Hint. cbn [hashtab_map]. rewrite map_chains_concat. unfold entries.
  revert args. induction (concat (htable h)) as [|[k d] l IH]; intros args; [done|].
  rewrite map_chain_stops by done. cbn [visit]. destruct (apply k d args) as [ret args'].
  cbn. by rewrite IH.
Qed.

(** Iteration: [hashtab_map] applies its function to every entry of the
    map the table stands for, each exactly once, in one order for all
    functions, and stops at the first non-zero status, which it returns. *)
Theorem hashtab_map_visits (h : hashtab K D) :
  wf h ->
  exists l, l ≡ₚ map_to_list (as_map h) /\
    forall A (apply : K -> D -> A -> Z * A) args,
      (forall k d a, - 2 ^ 31 <= fst (apply k d a) < 2 ^ 31) ->
      hashtab_map (Some h) apply args = visit apply l args.
Proof.
  intros Hw. exists (entries h). split; [by apply entries_map|]. intros A apply args Hint.
  by apply map_visits.
Qed.

(** Pruning: [hashtab_map_remove_on_error] applies its function to every
    entry once, in one order, removes the entries for which it fails, handing
    each to [destroy], and keeps the others; the table stays well formed and
    the entry count exact. *)
Theorem hashtab_prune {A} (h : hashtab K D) (apply : K -> D -> A -> Z * A)
    (destroy : K -> D -> A -> A) (args : A) :
  wf h -> nel h = Z.of_nat (base.size (as_map h)) -> nel h < 2 ^ 32 ->
  exists l kept h' args', l ≡ₚ map_to_list (as_map h) /\
    keep apply destroy l args = (kept, args') /\
    hashtab_map_remove_on_error (Some h) apply destroy args = (Some h', args') /\
    wf h' /\ as_map h' = list_to_map kept /\ nel h' = Z.of_nat (base.size (as_map h')).
Proof.
  intros Hw Hn Hlt. assert (Hr : 0 <= nel h < 2 ^ 32) by lia.
  pose proof (prune_chains_keep apply destroy (htable h) args (nel h) Hr) as Hp.
  destruct (keep apply destroy (concat (htable h)) args) as [kept args'] eqn:Hk.
  destruct Hp as (t' & E & Hkept & Hs).
  exists (entries h), kept. eexists (Hashtab t' (size h) _), args'.
  split; [by apply entries_map|]. split; [exact Hk|]. cbn [hashtab_map_remove_on_error].
  rewrite E. split; [reflexivity|]. pose proof (wf_sublists h t' (nel h) Hw Hs) as Hw'.
  assert (Hsz : forall g : hashtab K D, wf g -> Z.of_nat (base.size (as_map g)) = blen (entries g)).
  { intros g Hg. unfold blen. rewrite (entries_map g Hg). by rewrite length_map_to_list. }
  split; [by apply (wf_sublists h)|]. split; [unfold as_map, entries; cbn; by rewrite Hkept|].
  cbn [nel]. rewrite Hn, (Hsz h Hw).
  transitivity (blen kept).
  - unfold entries. replace (blen _ - _) with (blen kept) by lia. apply u32_small.
    assert (blen kept <= blen (entries h)).
    { rewrite <- Hkept. unfold entries. clear -Hs. induction Hs as [|c' c t' t Hc Hs IH]; [done|].
      apply sublist_length in Hc. unfold blen in *. cbn [concat]. rewrite !length_app. lia. }
    rewrite <- (Hsz h Hw), <- Hn in *. unfold is_u32, blen in *. lia.
  - rewrite <- Hkept. symmetry. exact (Hsz _ Hw').
Qed.
End Properties.

(** ** Tables whose comparison is an order on some keys only *)

Section Embedding.
Context {K K' D : Type} `{TableKey K} `{KeyOps K'} (f : K -> K').
Context (f_hash : forall sz k, hash_value sz (f k) = hash_value sz k).
Context (f_cmp : forall a b, keycmp (f a) (f b) = keycmp a b).

Definition with_key (x : K * D) : K' * D := (f x.1, x.2).

Definition map_keys (h : hashtab K D) : hashtab K' D :=
  Hashtab (map (map with_key) (htable h)) (size h) (nel h).

Lemma map_keys_entries h : entries (map_keys h) = map with_key (entries h).
Proof. unfold entries, map_keys. cbn [htable]. by rewrite concat_map. Qed.

Lemma map_keys_create sz : hashtab_create sz = map_keys <$> hashtab_create sz.
Proof.
  unfold hashtab_create, map_keys. cbn [fmap option_fmap option_map htable size nel]. do 2 f_equal.
  symmetry. apply (fmap_replicate (map with_key)).
Qed.

Lemma map_keys_chain h k : chain (map_keys h) (f k) = map with_key (chain h k).
Proof.
  unfold chain, map_keys. cbn [htable size]. rewrite f_hash.
  change (map (map with_key) (htable h)) with (map with_key <$> htable h). rewrite list_lookup_fmap.
  by destruct (htable h !! _).
Qed.

Lemma map_keys_walk k c :
  walk (f k) (map with_key c) = (map with_key (fst (walk k c)), map with_key (snd (walk k c))).
Proof.
  induction c as [|[k' d] c IH]; [done|]. cbn [map walk with_key fst snd]. rewrite f_cmp.
  destruct (0 <? keycmp k k'); [|done]. rewrite IH. by destruct (walk k c).
Qed.

(** Inserting commutes with the embedding. *)
Lemma map_keys_insert h k d :
  hashtab_insert (map_keys <$> h) (f k) d = (fst (hashtab_insert h k d), map_keys <$> snd (hashtab_insert h k d)).
Proof.
  destruct h as [t|]; [|done]. cbn [fmap option_fmap option_map hashtab_insert].
  rewrite map_keys_chain, map_keys_walk. destruct (walk k (chain t k)) as [prev cur]. cbn [fst snd].
  replace (found (f k) (map with_key cur)) with (found k cur) by (destruct cur as [|[k' d'] cur]; [done|by cbn; rewrite f_cmp]).
  destruct (found k cur); [done|]. cbn [fst snd fmap option_fmap option_map]. do 2 f_equal.
  unfold set_chain, map_keys. cbn [htable size nel]. rewrite f_hash. f_equal.
  change (f k, d) with (with_key (k, d)). rewrite <- map_cons, <- map_app.
  symmetry. apply (list_fmap_insert (map with_key)).
Qed.
End Embedding.

(** ** The properties at a symbol table of types *)

#[local] Instance signed_char : CharSign := true.

(** Five names put in a table of four slots, one of them twice. *)
Definition sample_calls : list (call bytes Z) :=
  [Insert [97; 100; 98] 1; Insert [115; 117] 2; Insert [105; 110; 105; 116] 3;
   Insert [115; 117] 4; Remove [97; 100; 98]; Insert [115; 104] 5; Search [115; 104]].

Definition sample_table : hashtab bytes Z :=
  default (Hashtab [] 0 0) (snd (run table_call (hashtab_create 4) sample_calls)).

Lemma sample_table_wf : wf sample_table.
Proof.
  destruct (table_create_wf (K := bytes) (D := Z) 4) as (t & E & Hw & Hm & _); [lia|].
  destruct (run_ok (Some t) ∅ sample_calls) as [_ H2]; [by exists t|].
  rewrite <- E in H2. destruct H2 as (t' & E' & Hw' & _). unfold sample_table. by rewrite E'.
Qed.

Lemma hashtab_refines_map_witness :
  fst (run table_call (hashtab_create 4) sample_calls) =
    [(0, None); (0, None); (0, None); (-17, None); (0, Some 1); (0, None); (0, Some 5)].
Proof.
  pose proof (hashtab_refines_map 4 sample_calls ltac:(lia)) as Hr.
  destruct (run table_call _ _) as [answers h].
  set (s := run spec_call ∅ sample_calls) in Hr.
  vm_compute in s. subst s. destruct Hr as [-> _]. reflexivity.
Defined.

Lemma hashtab_nel_witness :
  exists h', snd (table_call (Some sample_table) (Insert [97] 7)) = Some h' /\
  nel h' = Z.of_nat (base.size (as_map h')) - 0.
Proof.
  exact (hashtab_nel sample_table (Insert [97] 7) sample_table_wf ltac:(by vm_compute) ltac:(by vm_compute)).
Defined.

Lemma hashtab_map_visits_witness :
  exists l, l ≡ₚ map_to_list (as_map sample_table) /\
    hashtab_map (Some sample_table) (fun _ d a => (0, a + d)) 0 = visit (fun _ d a => (0, a + d)) l 0.
Proof.
  destruct (hashtab_map_visits sample_table sample_table_wf) as (l & Hl & Hv).
  exists l. split; [exact Hl|]. apply Hv. intros k d a. cbn. lia.
Defined.

Lemma hashtab_prune_witness :
  exists l kept h' args', l ≡ₚ map_to_list (as_map sample_table) /\
    keep (fun _ d (a : Z) => (if d <? 3 then -1 else 0, a)) (fun _ _ a => a + 1) l 0 = (kept, args') /\
    hashtab_map_remove_on_error (Some sample_table)
      (fun _ d (a : Z) => (if d <? 3 then -1 else 0, a)) (fun _ _ a => a + 1) 0 = (Some h', args') /\
    wf h' /\ as_map h' = list_to_map kept /\ nel h' = Z.of_nat (base.size (as_map h')).
Proof.
  exact (hashtab_prune sample_table (fun _ d (a : Z) => (if d <? 3 then -1 else 0, a))
    (fun _ _ a => a + 1) 0 sample_table_wf ltac:(by vm_compute) ltac:(by vm_compute)).
Defined.
