(* ===== verification/Avtab.v ===== *)
(** Access vector tables of libsepol (avtab.c and the writer of write.c).

    An access vector table is an array of chains ordered by source type, target
    type and class.  Several nodes may carry the same three numbers: they differ
    by the kind of rule in [specified].  The reader takes its insertion function
    as a parameter, as the C code does. *)
From S2P Require Import Prelude PolicyFile Hashtab.

Definition AVTAB_ALLOWED := 0x1.
Definition AVTAB_AUDITALLOW := 0x2.
Definition AVTAB_AUDITDENY := 0x4.
Definition AVTAB_AV := 0x7.
Definition AVTAB_TRANSITION := 0x10.
Definition AVTAB_MEMBER := 0x20.
Definition AVTAB_CHANGE := 0x40.
Definition AVTAB_TYPE := 0x70.
Definition AVTAB_XPERMS_ALLOWED := 0x100.
Definition AVTAB_XPERMS_AUDITALLOW := 0x200.
Definition AVTAB_XPERMS_DONTAUDIT := 0x400.
Definition AVTAB_XPERMS := 0x700.
Definition AVTAB_ENABLED_OLD := 0x80000000.
Definition AVTAB_ENABLED := 0x8000.
Definition AVTAB_XPERMS_IOCTLFUNCTION := 1.
Definition AVTAB_XPERMS_IOCTLDRIVER := 2.
Definition AVTAB_OPTYPE := 0x7000.
Definition AVTAB_XPERMS_OPTYPE := 4.
Definition avtab_xperms_to_optype (x : Z) : Z := Z.shiftl x AVTAB_XPERMS_OPTYPE.
Definition avtab_optype_to_xperms (x : Z) : Z := Z.shiftr x AVTAB_XPERMS_OPTYPE.
Definition MAX_AVTAB_HASH_BUCKETS := 2 ^ 20.
Definition POLICYDB_VERSION_AVTAB := 20.
Definition POLICYDB_VERSION_XPERMS_IOCTL := 30.

Record avtab_key := AvtabKey {
  source_type : Z; target_type : Z; target_class : Z; specified : Z }.

Record avtab_extended_perms := Xperms { x_specified : Z; driver : Z; perms : list Z }.

Record avtab_datum := AvtabDatum { data : Z; xperms : option avtab_extended_perms }.

Record avtab_node := AvtabNode { key : avtab_key; datum : avtab_datum }.

(** [None] is the NULL array. *)
Record avtab := Avtab { htable : option (list (list avtab_node)); nel : Z; nslot : Z; mask : Z }.

#[export] Instance avtab_key_eq_dec : EqDecision avtab_key.
Proof. solve_decision. Defined.
#[export] Instance xperms_eq_dec : EqDecision avtab_extended_perms.
Proof. solve_decision. Defined.
#[export] Instance avtab_datum_eq_dec : EqDecision avtab_datum.
Proof. solve_decision. Defined.
#[export] Instance avtab_node_eq_dec : EqDecision avtab_node.
Proof. solve_decision. Defined.

(** ** Hashing *)

Definition mix (input hash : Z) : Z :=
  let v := u32 (input * 0xcc9e2d51) in
  let v := Z.lor (u32 (Z.shiftl v 15)) (Z.shiftr v (32 - 15)) in
  let v := u32 (v * 0x1b873593) in
  let hash := Z.lxor hash v in
  let hash := Z.lor (u32 (Z.shiftl hash 13)) (Z.shiftr hash (32 - 13)) in
  u32 (hash * 5 + 0xe6546b64).

Definition avtab_hash (keyp : avtab_key) (mask : Z) : Z :=
  let hash := mix (source_type keyp) (mix (target_type keyp) (mix (target_class keyp) 0)) in
  let hash := Z.lxor hash (Z.shiftr hash 16) in
  let hash := u32 (hash * 0x85ebca6b) in
  let hash := Z.lxor hash (Z.shiftr hash 13) in
  let hash := u32 (hash * 0xc2b2ae35) in
  let hash := Z.lxor hash (Z.shiftr hash 16) in
  Z.land hash mask.

(** ** Chains *)

Definition same (k c : avtab_key) : bool :=
  (source_type k =? source_type c) && (target_type k =? target_type c)
  && (target_class k =? target_class c).

(** The three tests that leave a search loop. *)
Definition before (k c : avtab_key) : bool :=
  (source_type k <? source_type c)
  || ((source_type k =? source_type c) && (target_type k <? target_type c))
  || ((source_type k =? source_type c) && (target_type k =? target_type c)
      && (target_class k <? target_class c)).

(** [x & y] as a condition. *)
Definition bits (x y : Z) : bool := negb (Z.land x y =? 0).

(** [key->specified & ~(AVTAB_ENABLED | AVTAB_ENABLED_OLD)] *)
Definition strip_enabled (s : Z) : Z := Z.land s (Z.lnot (Z.lor AVTAB_ENABLED AVTAB_ENABLED_OLD)).

(** The search loop: the chain from the node found. *)
Fixpoint search_chain (k : avtab_key) (spec : Z) (c : list avtab_node) : option (list avtab_node) :=
  match c with
  | [] => None
  | cur :: next =>
      if same k (key cur) && bits spec (specified (key cur)) then Some c
      else if before k (key cur) then None
      else search_chain k spec next
  end.

(** The insertion loops: the nodes up to [prev], and the rest; [None] when the
    entry exists. *)
Fixpoint insert_walk (k : avtab_key) (spec : Z) (c : list avtab_node)
    : option (list avtab_node * list avtab_node) :=
  match c with
  | [] => Some ([], [])
  | cur :: next =>
      if same k (key cur) && bits spec (specified (key cur)) then
        if bits spec AVTAB_XPERMS then Some ([], c) else None
      else if before k (key cur) then Some ([], c)
      else '(prev, rest) ← insert_walk k spec next; Some (cur :: prev, rest)
  end.

Fixpoint nonunique_walk (k : avtab_key) (spec : Z) (c : list avtab_node)
    : list avtab_node * list avtab_node :=
  match c with
  | [] => ([], [])
  | cur :: next =>
      if same k (key cur) && bits spec (specified (key cur)) then ([], c)
      else if before k (key cur) then ([], c)
      else let '(prev, rest) := nonunique_walk k spec next in (cur :: prev, rest)
  end.

(** ** Operations *)

Definition zero_xperms : avtab_extended_perms := Xperms 0 0 (replicate 8 0).

(** The node [avtab_insert_node] makes. *)
Definition new_node (k : avtab_key) (d : avtab_datum) : avtab_node :=
  if bits (specified k) AVTAB_XPERMS
  then AvtabNode k (AvtabDatum (data d) (Some (default zero_xperms (xperms d))))
  else AvtabNode k d.

(** [prev] and what follows it stand for the place in the chain [hvalue]. *)
Definition avtab_insert_node (h : avtab) (t : list (list avtab_node)) (hvalue : Z)
    (prev rest : list avtab_node) (k : avtab_key) (d : avtab_datum) : avtab :=
  Avtab (Some (<[Z.to_nat hvalue := prev ++ new_node k d :: rest]> t))
    (u32 (nel h + 1)) (nslot h) (mask h).

Definition slot (t : list (list avtab_node)) (hvalue : Z) : list avtab_node :=
  default [] (t !! Z.to_nat hvalue).

Definition avtab_insert (h : avtab) (k : avtab_key) (d : avtab_datum) : Z * avtab :=
  let spec := strip_enabled (specified k) in
  match htable h with
  | None => (SEPOL_ENOMEM, h)
  | Some t =>
      let hvalue := avtab_hash k (mask h) in
      match insert_walk k spec (slot t hvalue) with
      | None => (SEPOL_EEXIST, h)
      | Some (prev, rest) => (0, avtab_insert_node h t hvalue prev rest k d)
      end
  end.

(** The node inserted is returned. *)
Definition avtab_insert_nonunique (h : avtab) (k : avtab_key) (d : avtab_datum)
    : option avtab_node * avtab :=
  let spec := strip_enabled (specified k) in
  match htable h with
  | None => (None, h)
  | Some t =>
      let hvalue := avtab_hash k (mask h) in
      let '(prev, rest) := nonunique_walk k spec (slot t hvalue) in
      (Some (new_node k d), avtab_insert_node h t hvalue prev rest k d)
  end.

(** A node pointer is the chain from that node on. *)
Definition avtab_search_node (h : avtab) (k : avtab_key) : option (list avtab_node) :=
  let spec := strip_enabled (specified k) in
  t ← htable h; search_chain k spec (slot t (avtab_hash k (mask h))).

Definition avtab_search (h : avtab) (k : avtab_key) : option avtab_datum :=
  let spec := strip_enabled (specified k) in
  t ← htable h;
  match search_chain k spec (slot t (avtab_hash k (mask h))) with
  | Some (cur :: _) => Some (datum cur)
  | _ => None
  end.

Definition avtab_search_node_next (node : list avtab_node) (specified : Z) : option (list avtab_node) :=
  match node with
  | [] => None
  | n :: next => search_chain (key n) (strip_enabled specified) next
  end.

(** The node a search stops at, with its datum changed. *)
Fixpoint poke_chain (k : avtab_key) (spec : Z) (f : avtab_datum -> avtab_datum) (c : list avtab_node)
    : list avtab_node :=
  match c with
  | [] => []
  | cur :: next =>
      if same k (key cur) && bits spec (specified (key cur))
      then AvtabNode (key cur) (f (datum cur)) :: next
      else if before k (key cur) then c
      else cur :: poke_chain k spec f next
  end.

Definition avtab_poke (h : avtab) (k : avtab_key) (f : avtab_datum -> avtab_datum) : avtab :=
  match htable h with
  | None => h
  | Some t =>
      let hvalue := avtab_hash k (mask h) in
      Avtab (Some (<[Z.to_nat hvalue := poke_chain k (strip_enabled (specified k)) f (slot t hvalue)]> t))
        (nel h) (nslot h) (mask h)
  end.

Definition avtab_destroy (h : avtab) : avtab :=
  match htable h with None => h | Some _ => Avtab None (nel h) 0 0 end.

Definition avtab_init (h : avtab) : Z * avtab := (0, Avtab None 0 (nslot h) (mask h)).

(** [while (work) { work = work >> 1; shift++; }], a [uint32_t] needs at most
    32 rounds. *)
Fixpoint shift_loop (fuel : nat) (work shift : Z) : Z :=
  match fuel with
  | O => shift
  | S fuel => if work =? 0 then shift else shift_loop fuel (Z.shiftr work 1) (shift + 1)
  end.

Definition avtab_alloc (h : avtab) (nrules : Z) : Z * avtab :=
  if nrules =? 0 then (0, Avtab (htable h) 0 0 0)
  else
    let shift := shift_loop 32 nrules 0 in
    let shift := if 2 <? shift then shift - 2 else shift in
    let nslot := Z.shiftl 1 shift in
    let nslot := if MAX_AVTAB_HASH_BUCKETS <? nslot then MAX_AVTAB_HASH_BUCKETS else nslot in
    let mask := nslot - 1 in
    (0, Avtab (Some (replicate (Z.to_nat nslot) [])) 0 nslot mask).

(** [apply] sees the key and the datum, which it may change. *)
Fixpoint amap_chain {A} (apply : avtab_key -> avtab_datum -> A -> Z * avtab_datum * A)
    (c : list avtab_node) (args : A) : Z * list avtab_node * A :=
  match c with
  | [] => (0, [], args)
  | cur :: next =>
      let '(ret, d, args) := apply (key cur) (datum cur) args in
      let cur := AvtabNode (key cur) d in
      if negb (ret =? 0) then (ret, cur :: next, args)
      else let '(ret, next, args) := amap_chain apply next args in (ret, cur :: next, args)
  end.

Fixpoint amap_slots {A} (apply : avtab_key -> avtab_datum -> A -> Z * avtab_datum * A)
    (t : list (list avtab_node)) (args : A) : Z * list (list avtab_node) * A :=
  match t with
  | [] => (0, [], args)
  | c :: t =>
      let '(ret, c, args) := amap_chain apply c args in
      if negb (ret =? 0) then (ret, c :: t, args)
      else let '(ret, t, args) := amap_slots apply t args in (ret, c :: t, args)
  end.

(** The array has [nslot] slots; a table without one has none. *)
Definition avtab_map {A} (h : avtab) (apply : avtab_key -> avtab_datum -> A -> Z * avtab_datum * A)
    (args : A) : Z * avtab * A :=
  match htable h with
  | None => (0, h, args)
  | Some t =>
      let '(ret, t, args) := amap_slots apply t args in
      (ret, Avtab (Some t) (nel h) (nslot h) (mask h), args)
  end.

(** The numbers [avtab_hash_eval] prints: used slots and longest chain. *)
Fixpoint aeval_slots (t : list (list avtab_node)) (slots_used max_chain_len : Z) : Z * Z :=
  match t with
  | [] => (slots_used, max_chain_len)
  | [] :: t => aeval_slots t slots_used max_chain_len
  | c :: t => aeval_slots t (slots_used + 1)
                (if max_chain_len <? blen c then blen c else max_chain_len)
  end.

Definition avtab_hash_eval (h : avtab) : Z * Z := aeval_slots (default [] (htable h)) 0 0.

(** ** Reading *)

(** Ordering of datums in the original avtab format in the policy file. *)
Definition spec_order : list Z :=
  [AVTAB_ALLOWED; AVTAB_AUDITDENY; AVTAB_AUDITALLOW; AVTAB_TRANSITION; AVTAB_CHANGE; AVTAB_MEMBER;
   AVTAB_XPERMS_ALLOWED; AVTAB_XPERMS_AUDITALLOW; AVTAB_XPERMS_DONTAUDIT].

(** [n] little-endian numbers of [w] bytes. *)
Fixpoint le_array (w n : nat) (b : bytes) : list Z :=
  match n with O => [] | S n => le_val (take w b) :: le_array w n (drop w b) end.

Section Reader.
Context {A : Type} (insertf : A -> avtab_key -> avtab_datum -> Z * A).

(** The loop over [spec_order] of the original format: [rc], and [items] when
    it is 0.  [None]: the program reads past the end of [buf32]. *)
Fixpoint old_items (order : list Z) (val enabled : Z) (buf32 : list Z) (items : Z)
    (k : avtab_key) (a : A) : option (Z * Z * A) :=
  match order with
  | [] => Some (0, items, a)
  | s :: order =>
      if bits val s then
        d ← buf32 !! Z.to_nat items;
        let k := AvtabKey (source_type k) (target_type k) (target_class k) (Z.lor s enabled) in
        let '(rc, a) := insertf a k (AvtabDatum d None) in
        if negb (rc =? 0) then Some (rc, items + 1, a)
        else old_items order val enabled buf32 (items + 1) k a
      else old_items order val enabled buf32 items k a
  end.

(** The original format; [junk] is what [buf32] held before the call.  The
    status, the rest of the file and the client's state. *)
Definition read_old (junk : list Z) (fp : bytes) (a : A) : option (Z * bytes * A) :=
  match next_entry fp 4 with
  | None => Some (-1, fp, a)
  | Some (b, fp) =>
      let items2 := le_val b in
      if (items2 <? 5) || (8 <? items2) then Some (-1, fp, a)
      else
        match next_entry fp (4 * items2) with
        | None => Some (-1, fp, a)
        | Some (b, fp) =>
            let buf32 := le_array 4 (Z.to_nat items2) b ++ drop (Z.to_nat items2) junk in
            let val i := default 0 (buf32 !! i) in
            if negb (u16 (val 0%nat) =? val 0%nat) then Some (-1, fp, a)
            else if negb (u16 (val 1%nat) =? val 1%nat) then Some (-1, fp, a)
            else if negb (u16 (val 2%nat) =? val 2%nat) then Some (-1, fp, a)
            else
              let k := AvtabKey (val 0%nat) (val 1%nat) (val 2%nat) 0 in
              let v := val 3%nat in
              let enabled := if bits v AVTAB_ENABLED_OLD then AVTAB_ENABLED else 0 in
              if negb (bits v (Z.lor AVTAB_AV AVTAB_TYPE)) then Some (-1, fp, a)
              else if bits v AVTAB_AV && bits v AVTAB_TYPE then Some (-1, fp, a)
              else
                '(rc, items, a) ← old_items spec_order v enabled buf32 4 k a;
                if negb (rc =? 0) then Some (rc, fp, a)
                else if negb (items =? items2) then Some (-1, fp, a)
                else Some (0, fp, a)
        end
  end.

(** The extended permissions of a rule and the new value of
    [avtab_android_m_compat]. *)
Definition read_xperms (compat optype : bool) (fp : bytes) (vers : Z)
    : option avtab_extended_perms * bytes * bool :=
  match next_entry fp 1 with
  | None => (None, fp, compat)
  | Some (b, fp) =>
      let sp := le_val b in
      let finish (x_specified driver : Z) (fp : bytes) (compat : bool) :=
        match next_entry fp (4 * 8) with
        | None => (None, fp, compat)
        | Some (b, fp) => (Some (Xperms x_specified driver (le_array 4 8 b)), fp, compat)
        end in
      if compat || (negb (sp =? AVTAB_XPERMS_IOCTLFUNCTION) && negb (sp =? AVTAB_XPERMS_IOCTLDRIVER)
                    && (vers =? POLICYDB_VERSION_XPERMS_IOCTL))
      then finish (if optype then AVTAB_XPERMS_IOCTLDRIVER else AVTAB_XPERMS_IOCTLFUNCTION) sp fp true
      else
        match next_entry fp 1 with
        | None => (None, fp, compat)
        | Some (b, fp) => finish sp (le_val b) fp compat
        end
  end.

(** The current format. *)
Definition read_new (compat : bool) (fp : bytes) (vers : Z) (a : A) : Z * bool * bytes * A :=
  match next_entry fp (2 * 4) with
  | None => (-1, compat, fp, a)
  | Some (b, fp) =>
      let buf16 := le_array 2 4 b in
      let val i := default 0 (buf16 !! i) in
      let optype := bits (val 3%nat) AVTAB_OPTYPE && (vers =? POLICYDB_VERSION_XPERMS_IOCTL) in
      let sp := if optype then avtab_optype_to_xperms (val 3%nat) else val 3%nat in
      let compat := optype || compat in
      let k := AvtabKey (val 0%nat) (val 1%nat) (val 2%nat) sp in
      let set := length (filter (fun s => bits sp s = true) spec_order) in
      if negb (set =? 1)%nat then (-1, compat, fp, a)
      else if (vers <? POLICYDB_VERSION_XPERMS_IOCTL) && bits sp AVTAB_XPERMS
      then (-1, compat, fp, a)
      else if bits sp AVTAB_XPERMS then
        match read_xperms compat optype fp vers with
        | (None, fp, compat) => (-1, compat, fp, a)
        | (Some x, fp, compat) =>
            let '(rc, a) := insertf a k (AvtabDatum 0 (Some x)) in (rc, compat, fp, a)
        end
      else
        match next_entry fp 4 with
        | None => (-1, compat, fp, a)
        | Some (b, fp) =>
            let '(rc, a) := insertf a k (AvtabDatum (le_val b) None) in (rc, compat, fp, a)
        end
  end.

(** The status, [avtab_android_m_compat], the rest of the file, the client's
    state. *)
Definition avtab_read_item (compat : bool) (junk : list Z) (fp : bytes) (vers : Z) (a : A)
    : option (Z * bool * bytes * A) :=
  if vers <? POLICYDB_VERSION_AVTAB then
    '(rc, fp, a) ← read_old junk fp a; Some (rc, compat, fp, a)
  else Some (read_new compat fp vers a).
End Reader.

Definition avtab_insertf (a : avtab) (k : avtab_key) (d : avtab_datum) : Z * avtab :=
  avtab_insert a k d.

(** Up to [nel] items, until one fails. *)
Fixpoint read_items (nel : nat) (compat : bool) (junk : list Z) (fp : bytes) (vers : Z) (a : avtab)
    : option (Z * bool * bytes * avtab) :=
  match nel with
  | O => Some (0, compat, fp, a)
  | S nel =>
      '(rc, compat, fp, a) ← avtab_read_item avtab_insertf compat junk fp vers a;
      if negb (rc =? 0) then Some (-1, compat, fp, avtab_destroy a)
      else read_items nel compat junk fp vers a
  end.

Definition avtab_read (compat : bool) (junk : list Z) (a : avtab) (fp : bytes) (vers : Z)
    : option (Z * bool * bytes * avtab) :=
  match next_entry fp 4 with
  | None => Some (-1, compat, fp, avtab_destroy a)
  | Some (b, fp) =>
      let nel := le_val b in
      if nel =? 0 then Some (-1, compat, fp, avtab_destroy a)
      else
        let '(rc, a) := avtab_alloc a nel in
        if negb (rc =? 0) then Some (-1, compat, fp, avtab_destroy a)
        else read_items (Z.to_nat nel) compat junk fp vers a
  end.

(** ** Writing, in the current format *)

(** [items = put_entry(ptr, size, n, fp); if (items != n) return POLICYDB_ERROR;] *)
Definition put (ptr : bytes) (size n : Z) (fp : policy_file)
    (k : policy_file -> option (Z * policy_file)) : option (Z * policy_file) :=
  let '(items, fp) := put_entry ptr size n fp in
  if items =? n then k fp else Some (-1, fp).

(** [selinux]: the target platform is SEPOL_TARGET_SELINUX.  [None]: the
    program follows a NULL [xperms]. *)
Definition avtab_write_item (policyvers : Z) (selinux compat : bool) (cur : avtab_node)
    (fp : policy_file) : option (Z * policy_file) :=
  let k := key cur in
  let isx := bits (specified k) AVTAB_XPERMS in
  sp ← (if compat && isx then
          x ← xperms (datum cur);
          Some (if x_specified x =? AVTAB_XPERMS_IOCTLDRIVER
                then avtab_xperms_to_optype (specified k) else specified k)
        else Some (specified k));
  put (le_bytes 2 (source_type k) ++ le_bytes 2 (target_type k) ++ le_bytes 2 (target_class k)
       ++ le_bytes 2 sp) 2 4 fp (fun fp =>
  if (policyvers <? POLICYDB_VERSION_XPERMS_IOCTL) && isx then Some (-1, fp)
  else if negb selinux && isx then Some (-1, fp)
  else if isx then
    x ← xperms (datum cur);
    let put_driver fp :=
      put (le_bytes 1 (driver x)) 1 1 fp (fun fp =>
      put (concat (map (le_bytes 4) (perms x))) 4 8 fp (fun fp => Some (0, fp))) in
    if compat then put_driver fp else put (le_bytes 1 (x_specified x)) 1 1 fp put_driver
  else put (le_bytes 4 (data (datum cur))) 4 1 fp (fun fp => Some (0, fp))).

Fixpoint write_items (policyvers : Z) (selinux compat : bool) (l : list avtab_node)
    (fp : policy_file) : option (Z * policy_file) :=
  match l with
  | [] => Some (0, fp)
  | cur :: l =>
      '(rc, fp) ← avtab_write_item policyvers selinux compat cur fp;
      if negb (rc =? 0) then Some (-1, fp) else write_items policyvers selinux compat l fp
  end.

Definition avtab_write (policyvers : Z) (selinux compat : bool) (a : avtab) (fp : policy_file)
    : option (Z * policy_file) :=
  put (le_bytes 4 (nel a)) 4 1 fp (fun fp =>
  write_items policyvers selinux compat (concat (default [] (htable a))) fp).

(** ** Vocabulary of the proofs *)

(** A node the search of [k] with the rule kinds [spec] stops at. *)
Definition hit (k : avtab_key) (spec : Z) (n : avtab_node) : bool :=
  same k (key n) && bits spec (specified (key n)).

Definition hits (k : avtab_key) (spec : Z) (l : list avtab_node) : list avtab_node :=
  filter (fun n => hit k spec n = true) l.

(** The entries of a table, in the order of the array and of the chains. *)
Definition aentries (h : avtab) : list avtab_node := concat (default [] (htable h)).

(** No node is followed by one with a smaller key. *)
Definition asorted (c : list avtab_node) : Prop :=
  StronglySorted (fun a b => before (key b) (key a) = false) c.

(** The array has a power of two of slots, at most the maximum; every chain is
    ordered and holds the keys of its slot. *)
Record awf (h : avtab) (t : list (list avtab_node)) : Prop := {
  awf_table : htable h = Some t;
  awf_nslot : exists j, 0 <= j <= 20 /\ nslot h = 2 ^ j;
  awf_mask : mask h = nslot h - 1;
  awf_length : length t = Z.to_nat (nslot h);
  awf_sorted : Forall asorted t;
  awf_hash : forall i c, t !! i = Some c ->
    Forall (fun n => avtab_hash (key n) (mask h) = Z.of_nat i) c
}.

(** The nodes a client meets that follows [avtab_search_node_next]. *)
Fixpoint follow (fuel : nat) (spec : Z) (p : option (list avtab_node)) : list avtab_node :=
  match fuel, p with
  | S fuel, Some (n :: next) => n :: follow fuel spec (avtab_search_node_next (n :: next) spec)
  | _, _ => []
  end.

(** The rule kinds of [s] are one of [spec_order], perhaps enabled. *)
Definition one_kind (s : Z) : bool :=
  bool_decide (s ∈ spec_order ++ map (Z.lor AVTAB_ENABLED) spec_order).

(** [b] keeps [avtab_insert] from inserting [a]. *)
Definition clash (a b : avtab_node) : bool :=
  hit (key a) (strip_enabled (specified (key a))) b
  && negb (bits (strip_enabled (specified (key a))) AVTAB_XPERMS).

(** Every two elements at different places are related both ways. *)
Fixpoint pairwise {A} (R : A -> A -> Prop) (l : list A) : Prop :=
  match l with
  | [] => True
  | x :: l => Forall (fun y => R x y /\ R y x) l /\ pairwise R l
  end.

Definition exclusive (l : list avtab_node) : Prop := pairwise (fun a b => clash a b = false) l.

(** The image of a node in the current format, without the Android M changes. *)
Definition enc_node (n : avtab_node) : bytes :=
  le_bytes 2 (source_type (key n)) ++ le_bytes 2 (target_type (key n))
  ++ le_bytes 2 (target_class (key n)) ++ le_bytes 2 (specified (key n))
  ++ (if bits (specified (key n)) AVTAB_XPERMS then
        match xperms (datum n) with
        | Some x => le_bytes 1 (x_specified x) ++ le_bytes 1 (driver x)
                    ++ concat (map (le_bytes 4) (perms x))
        | None => [] end
      else le_bytes 4 (data (datum n))).

Definition is_u16 (x : Z) : Prop := 0 <= x < 2 ^ 16.

(** A node the current format at version [vers] can hold. *)
Record writable (vers : Z) (n : avtab_node) : Prop := {
  w_source : is_u16 (source_type (key n));
  w_target : is_u16 (target_type (key n));
  w_class : is_u16 (target_class (key n));
  w_kind : one_kind (specified (key n)) = true;
  w_datum : if bits (specified (key n)) AVTAB_XPERMS then
      POLICYDB_VERSION_XPERMS_IOCTL <= vers /\ data (datum n) = 0 /\
      exists x, xperms (datum n) = Some x /\ is_byte (x_specified x) /\ is_byte (driver x) /\
        length (perms x) = 8%nat /\ Forall is_u32 (perms x) /\
        (vers = POLICYDB_VERSION_XPERMS_IOCTL ->
         x_specified x = AVTAB_XPERMS_IOCTLFUNCTION \/ x_specified x = AVTAB_XPERMS_IOCTLDRIVER)
    else is_u32 (data (datum n)) /\ xperms (datum n) = None }.

(** The image of a table. *)
Definition enc_table (l : list avtab_node) : bytes :=
  le_bytes 4 (blen l) ++ concat (map enc_node l).

(** The insertions of an item of the original format: one for each kind, until
    one fails. *)
Fixpoint insert_kinds {A} (insertf : A -> avtab_key -> avtab_datum -> Z * A) (kinds ds : list Z)
    (enabled : Z) (k : avtab_key) (a : A) : Z * A :=
  match kinds, ds with
  | s :: kinds, d :: ds =>
      let '(rc, a) := insertf a (AvtabKey (source_type k) (target_type k) (target_class k)
                                   (Z.lor s enabled)) (AvtabDatum d None) in
      if negb (rc =? 0) then (rc, a) else insert_kinds insertf kinds ds enabled k a
  | _, _ => (0, a)
  end.

Definition kinds_of (v : Z) (order : list Z) : list Z := filter (fun s => bits v s = true) order.

(** The image of an item in the original format: its words after their number. *)
Definition enc_old (src tgt cls v : Z) (ds : list Z) : bytes :=
  le_bytes 4 (4 + blen ds) ++ concat (map (le_bytes 4) ([src; tgt; cls; v] ++ ds)).

Definition insert_all (h : avtab) (l : list (avtab_key * avtab_datum)) : avtab :=
  fold_left (fun h x => snd (avtab_insert h x.1 x.2)) l h.

(** Three rules: allow 5 7:2, an extended permission for the same types, and a
    type transition. *)
Definition sample_rules : list (avtab_key * avtab_datum) :=
  [(AvtabKey 5 7 2 AVTAB_ALLOWED, AvtabDatum 0x13 None);
   (AvtabKey 5 7 2 AVTAB_XPERMS_ALLOWED,
    AvtabDatum 0 (Some (Xperms AVTAB_XPERMS_IOCTLDRIVER 0x89 [1; 2; 3; 4; 5; 6; 7; 8])));
   (AvtabKey 3 7 2 AVTAB_TRANSITION, AvtabDatum 12 None)].

Definition sample_avtab : avtab := insert_all (snd (avtab_alloc (Avtab None 0 0 0) 5)) sample_rules.

Definition old_v : Z := Z.lor AVTAB_ALLOWED AVTAB_AUDITDENY.

(** A client that keeps what it is given. *)
Definition keep_insertf (a : list avtab_node) (k : avtab_key) (d : avtab_datum) : Z * list avtab_node :=
  (0, a ++ [AvtabNode k d]).

(** ** The order of keys *)

Lemma same_true k c : same k c = true <->
  source_type k = source_type c /\ target_type k = target_type c /\ target_class k = target_class c.
Proof. unfold same. lia. Qed.

Lemma same_refl k : same k k = true.
Proof. apply same_true. done. Qed.

Lemma same_sym a b : same a b = same b a.
Proof. unfold same. lia. Qed.

Lemma same_trans a b c : same a b = true -> same b c = same a c.
Proof. unfold same. lia. Qed.

Lemma before_same a b c : same a b = true -> before a c = before b c /\ before c a = before c b.
Proof. unfold same, before. lia. Qed.

Lemma before_not_same a b : before a b = true -> same a b = false /\ same b a = false.
Proof. unfold same, before. lia. Qed.

Lemma before_total a b : before a b = false -> same a b = false -> before b a = true.
Proof. unfold same, before. lia. Qed.

(** [a < b <= c] *)
Lemma before_le a b c : before a b = true -> before c b = false -> before a c = true.
Proof. unfold before. lia. Qed.

(** [a <= b <= c] *)
Lemma notbefore_trans a b c : before b a = false -> before c b = false -> before c a = false.
Proof. unfold before. lia. Qed.

Lemma before_asym a b : before a b = true -> before b a = false.
Proof. unfold before. lia. Qed.

(** The hash does not look at the rule kind. *)
Lemma hash_same a b m : same a b = true -> avtab_hash a m = avtab_hash b m.
Proof. intros (E1 & E2 & E3)%same_true. unfold avtab_hash. by rewrite E1, E2, E3. Qed.

(** ** Chains *)

Lemma hits_none k spec (l : list avtab_node) :
  Forall (fun n => same k (key n) = false) l -> hits k spec l = [].
Proof.
  induction 1 as [|n l Hn Hl IH]; [done|]. unfold hits. rewrite filter_cons_False; [exact IH|].
  unfold hit. rewrite Hn. done.
Qed.

Lemma hits_app k spec l1 l2 : hits k spec (l1 ++ l2) = hits k spec l1 ++ hits k spec l2.
Proof. apply filter_app. Qed.

Lemma hits_cons k spec n l : hits k spec (n :: l) = (if hit k spec n then [n] else []) ++ hits k spec l.
Proof. unfold hits. rewrite filter_cons. by destruct (hit k spec n). Qed.

Lemma beyond k n (c : list avtab_node) :
  asorted (n :: c) -> before k (key n) = true -> Forall (fun n => same k (key n) = false) (n :: c).
Proof.
  intros [Hc _]%StronglySorted_cons Hb. apply Forall_cons_2; [exact (proj1 (before_not_same _ _ Hb))|].
  eapply Forall_impl; [exact Hc|]. intros x Hx.
  exact (proj1 (before_not_same _ _ (before_le _ _ _ Hb Hx))).
Qed.

Lemma asorted_tail n c : asorted (n :: c) -> asorted c.
Proof. by intros [_ Hc]%StronglySorted_cons. Qed.

Lemma ahead_same k n (c : list avtab_node) :
  asorted (n :: c) -> same k (key n) = true -> Forall (fun n => before (key n) k = false) (n :: c).
Proof.
  intros [Hs _]%StronglySorted_cons Ek. apply Forall_cons_2; [unfold same, before in *; lia|].
  eapply Forall_impl; [exact Hs|]. intros x Hx. change (before (key x) (key n) = false) in Hx.
  unfold same, before in *. lia.
Qed.

Lemma ahead_before k n (c : list avtab_node) :
  asorted (n :: c) -> before k (key n) = true -> Forall (fun n => before (key n) k = false) (n :: c).
Proof.
  intros [Hs _]%StronglySorted_cons Eb. apply Forall_cons_2; [by apply before_asym|].
  eapply Forall_impl; [exact Hs|]. intros x Hx. change (before (key x) (key n) = false) in Hx.
  eapply before_asym, before_le; [exact Eb|exact Hx].
Qed.

(** The search loop finds the first hit, if there is one. *)
Lemma search_chain_spec k spec (c : list avtab_node) :
  asorted c ->
  match search_chain k spec c with
  | Some r => exists p n q, c = p ++ r /\ r = n :: q /\ hit k spec n = true /\ hits k spec p = []
  | None => hits k spec c = []
  end.
Proof.
  induction c as [|n c IH]; intros Hs; [done|]. cbn [search_chain].
  destruct (same k (key n) && bits spec (specified (key n))) eqn:E.
  - exists [], n, c. done.
  - destruct (before k (key n)) eqn:Eb; [by apply hits_none, beyond|].
    specialize (IH (asorted_tail _ _ Hs)). destruct (search_chain k spec c) as [r|].
    + destruct IH as (p & n' & q & -> & -> & Hn' & Hp). exists (n :: p), n', q.
      rewrite hits_cons. unfold hit at 2. rewrite E. done.
    + rewrite hits_cons. unfold hit. by rewrite E.
Qed.

Lemma insert_walk_spec k spec (c : list avtab_node) :
  asorted c ->
  match insert_walk k spec c with
  | None => hits k spec c <> [] /\ bits spec AVTAB_XPERMS = false
  | Some (p, q) => c = p ++ q /\ Forall (fun n => before k (key n) = false) p /\
      Forall (fun n => before (key n) k = false) q /\
      (bits spec AVTAB_XPERMS = true \/ hits k spec c = [])
  end.
Proof.
  induction c as [|n c IH]; intros Hs; [by cbn; auto|]. cbn [insert_walk].
  destruct (same k (key n) && bits spec (specified (key n))) eqn:E.
  - destruct (bits spec AVTAB_XPERMS) eqn:Ex.
    + split; [done|]. split; [done|]. split; [|by left]. apply andb_prop in E as [Ek _]. by apply ahead_same.
    + split; [|done]. rewrite hits_cons. unfold hit. by rewrite E.
  - destruct (before k (key n)) eqn:Eb.
    + split; [done|]. split; [done|]. split; [|right; by apply hits_none, beyond].
      by apply ahead_before.
    + specialize (IH (asorted_tail _ _ Hs)).
      assert (Eh : hits k spec (n :: c) = hits k spec c).
      { rewrite hits_cons. unfold hit. by rewrite E. }
      rewrite Eh. destruct (insert_walk k spec c) as [[p q]|]; [|exact IH]. cbn.
      destruct IH as (-> & Hp & Hq & Hx). split; [done|]. split; [by constructor|]. done.
Qed.

Lemma nonunique_walk_spec k spec (c p q : list avtab_node) :
  asorted c -> nonunique_walk k spec c = (p, q) ->
  c = p ++ q /\ Forall (fun n => before k (key n) = false) p /\
  Forall (fun n => before (key n) k = false) q.
Proof.
  revert p q. induction c as [|n c IH]; intros p q Hs; cbn [nonunique_walk].
  - intros [= <- <-]. done.
  - destruct (same k (key n) && bits spec (specified (key n))) eqn:E.
    + intros [= <- <-]. split; [done|]. split; [done|]. apply andb_prop in E as [Ek _]. by apply ahead_same.
    + destruct (before k (key n)) eqn:Eb.
      * intros [= <- <-]. split; [done|]. split; [done|]. by apply ahead_before.
      * destruct (nonunique_walk k spec c) as [p' q'] eqn:Ew. intros [= <- <-].
        destruct (IH p' q' (asorted_tail _ _ Hs) eq_refl) as (-> & Hp & Hq).
        split; [done|]. split; [by constructor|done].
Qed.

Lemma key_new_node k d : key (new_node k d) = k.
Proof. unfold new_node. by destruct (bits _ _). Qed.

(** A node put where a walk stopped. *)
Lemma asorted_put k d (p q : list avtab_node) :
  asorted (p ++ q) -> Forall (fun n => before k (key n) = false) p ->
  Forall (fun n => before (key n) k = false) q ->
  asorted (p ++ new_node k d :: q).
Proof.
  intros Hs Hp Hq. unfold asorted in *. rewrite StronglySorted_app in Hs |- *.
  rewrite !Forall_forall in *. destruct Hs as (Hpq & Hsp & Hsq).
  split; [|split; [done|]].
  - intros a b Ha [->|Hb]%elem_of_cons; [rewrite key_new_node; by apply Hp|by apply Hpq].
  - apply StronglySorted_cons. split; [|done]. rewrite key_new_node. apply Forall_forall. exact Hq.
Qed.

(** ** Tables *)

Lemma avtab_hash_range k j : 0 <= j -> 0 <= avtab_hash k (2 ^ j - 1) < 2 ^ j.
Proof.
  intros Hj. unfold avtab_hash. cbv zeta. generalize (mix (source_type k) (mix (target_type k) (mix (target_class k) 0))).
  intros m. match goal with |- context [Z.land ?y _] => generalize y end. intros x.
  replace (2 ^ j - 1) with (Z.ones j) by (rewrite Z.ones_equiv; lia).
  rewrite Z.land_ones by done. apply Z.mod_pos_bound. lia.
Qed.

Lemma awf_hash_range h t k : awf h t -> 0 <= avtab_hash k (mask h) < nslot h.
Proof.
  intros Hw. destruct (awf_nslot h t Hw) as (j & Hj & E). rewrite (awf_mask h t Hw), E.
  apply avtab_hash_range. lia.
Qed.

Lemma awf_slot h t k :
  awf h t -> t !! Z.to_nat (avtab_hash k (mask h)) = Some (slot t (avtab_hash k (mask h))).
Proof.
  intros Hw. pose proof (awf_hash_range h t k Hw) as Hr. unfold slot.
  destruct (lookup_lt_is_Some_2 t (Z.to_nat (avtab_hash k (mask h)))) as [c ->]; [|done].
  rewrite (awf_length h t Hw). lia.
Qed.

Lemma awf_slot_sorted h t k : awf h t -> asorted (slot t (avtab_hash k (mask h))).
Proof.
  intros Hw. exact (proj1 (Forall_lookup asorted t) (awf_sorted h t Hw) _ _ (awf_slot h t k Hw)).
Qed.

Lemma hits_concat k spec (t : list (list avtab_node)) i :
  (forall j c, j <> i -> t !! j = Some c -> Forall (fun n => same k (key n) = false) c) ->
  hits k spec (concat t) = hits k spec (default [] (t !! i)).
Proof.
  revert i. induction t as [|c t IH]; intros i Hne; [done|]. cbn [concat]. rewrite hits_app.
  destruct i as [|i].
  - change ((c :: t) !! 0%nat) with (Some c). cbn [default].
    rewrite (IH (length t)), lookup_ge_None_2 by
      (done || (intros j c' _ Hj; by apply (Hne (S j)))).
    apply app_nil_r.
  - rewrite (hits_none k spec c) by (by apply (Hne 0%nat)). apply IH.
    intros j c' Hji Hj. apply (Hne (S j)); [lia|done].
Qed.

(** The hits of a key are in its slot. *)
Lemma hits_slot h t k spec :
  awf h t -> hits k spec (aentries h) = hits k spec (slot t (avtab_hash k (mask h))).
Proof.
  intros Hw. unfold aentries, slot. rewrite (awf_table h t Hw). apply hits_concat.
  intros j c Hj Hc. pose proof (awf_hash_range h t k Hw).
  eapply Forall_impl; [exact (awf_hash h t Hw j c Hc)|]. intros n Hn. cbn in Hn.
  destruct (same k (key n)) eqn:E; [|done]. rewrite <- (hash_same _ _ _ E) in Hn. lia.
Qed.

Lemma concat_insert (t : list (list avtab_node)) i p q x :
  t !! i = Some (p ++ q) -> concat (<[i := p ++ x :: q]> t) ≡ₚ x :: concat t.
Proof.
  revert i. induction t as [|c t IH]; intros [|i] Ht; [done..| |].
  - injection Ht as ->. cbn. rewrite <- !app_assoc. cbn. by rewrite <- Permutation_middle.
  - cbn. rewrite (IH i Ht). by rewrite <- Permutation_middle.
Qed.

(** Putting a node where a walk stopped keeps the table well formed. *)
Lemma insert_node_ok h t k d p q :
  awf h t -> slot t (avtab_hash k (mask h)) = p ++ q ->
  Forall (fun n => before k (key n) = false) p -> Forall (fun n => before (key n) k = false) q ->
  let h' := avtab_insert_node h t (avtab_hash k (mask h)) p q k d in
  (exists t', awf h' t') /\ aentries h' ≡ₚ new_node k d :: aentries h /\
  nel h' = u32 (nel h + 1) /\ nslot h' = nslot h.
Proof.
  intros Hw Hpq Hp Hq h'. pose proof (awf_slot h t k Hw) as Hs. rewrite Hpq in Hs.
  pose proof (awf_slot_sorted h t k Hw) as Ho. rewrite Hpq in Ho.
  pose proof (awf_hash_range h t k Hw) as Hr. split; [|split; [|done]].
  - eexists. split; [reflexivity|exact (awf_nslot h t Hw)|exact (awf_mask h t Hw)|..];
      cbn [nslot mask h' avtab_insert_node].
    + by rewrite length_insert, (awf_length h t Hw).
    + apply Forall_insert; [apply (awf_sorted h t Hw)|by apply asorted_put].
    + intros i c [(<- & <- & _)|[_ Hi]]%list_lookup_insert_Some; [|by apply (awf_hash h t Hw)].
      pose proof (awf_hash h t Hw _ _ Hs) as Hh. apply Forall_app in Hh as [H1 H2].
      apply Forall_app. split; [exact H1|]. constructor; [|exact H2]. rewrite key_new_node. lia.
  - unfold aentries. rewrite (awf_table h t Hw). cbn [htable h' avtab_insert_node default].
    by apply concat_insert.
Qed.

Lemma hits_head k spec p n q :
  hit k spec n = true -> hits k spec p = [] -> hits k spec (p ++ n :: q) = n :: hits k spec q.
Proof. intros Hn Hp. rewrite hits_app, Hp, hits_cons, Hn. done. Qed.

(** What the searches return, in a well-formed table. *)
Lemma search_node_ok h t k spec :
  awf h t ->
  match search_chain k spec (slot t (avtab_hash k (mask h))) with
  | Some r => exists n q, r = n :: q /\ hit k spec n = true /\ asorted r /\
      hits k spec (aentries h) = n :: hits k spec q
  | None => hits k spec (aentries h) = []
  end.
Proof.
  intros Hw. pose proof (awf_slot_sorted h t k Hw) as Hs. rewrite (hits_slot h t k spec Hw).
  pose proof (search_chain_spec k spec _ Hs) as Hc.
  destruct (search_chain k spec _) as [r|]; [|done].
  destruct Hc as (p & n & q & E & -> & Hn & Hp). exists n, q. rewrite E in Hs |- *.
  split; [done|]. split; [done|]. split; [|by apply hits_head].
  unfold asorted in Hs. by apply StronglySorted_app in Hs as (_ & _ & Hs).
Qed.

Lemma hits_same a b spec l : same a b = true -> hits a spec l = hits b spec l.
Proof.
  intros E. unfold hits, hit. apply list_filter_iff. intros n.
  rewrite same_sym in E. by rewrite (same_trans b a (key n) E).
Qed.

(** Following the nodes from a hit gives all the hits. *)
Lemma follow_hits k spec fuel (c : list avtab_node) n q :
  c = n :: q -> asorted c -> same k (key n) = true -> (length c <= fuel)%nat ->
  follow fuel spec (Some c) = n :: hits k (strip_enabled spec) q.
Proof.
  revert c n q. induction fuel as [|fuel IH]; intros c n q -> Hs Hk Hf; [cbn in Hf; lia|].
  cbn [follow avtab_search_node_next]. f_equal.
  pose proof (search_chain_spec (key n) (strip_enabled spec) q (asorted_tail _ _ Hs)) as Hc.
  rewrite (hits_same k (key n)) by done.
  destruct (search_chain _ _ q) as [r|].
  - destruct Hc as (p & n' & q' & -> & -> & Hn' & Hp). rewrite hits_head by done.
    pose proof Hn' as Hk'. unfold hit in Hk'. apply andb_prop in Hk' as [Hk' _].
    rewrite (IH (n' :: q') n' q'); [..|cbn in Hf |- *; rewrite length_app in Hf; cbn in Hf; lia].
    + f_equal. by apply hits_same.
    + done.
    + apply asorted_tail in Hs. unfold asorted in Hs. by apply StronglySorted_app in Hs as (_ & _ & Hs).
    + by rewrite <- (same_trans k (key n) (key n') Hk).
  - by destruct fuel.
Qed.

Lemma shift_loop_spec fuel work shift :
  0 < work < 2 ^ Z.of_nat fuel -> shift_loop fuel work shift = shift + Z.log2 work + 1.
Proof.
  revert work shift. induction fuel as [|fuel IH]; intros work shift Hw; [change (2 ^ Z.of_nat 0) with 1 in Hw; lia|].
  cbn [shift_loop]. replace (work =? 0) with false by lia.
  rewrite Nat2Z.inj_succ, Z.pow_succ_r in Hw by lia.
  assert (E : Z.shiftr work 1 = work / 2) by (rewrite Z.shiftr_div_pow2; [done|lia]).
  rewrite E. destruct (Z.eq_dec work 1) as [->|Hne].
  - change (1 / 2) with 0. change (Z.log2 1) with 0. destruct fuel; cbn [shift_loop Z.eqb]; lia.
  - rewrite IH by zlia. rewrite <- E, Z.log2_shiftr by lia.
    pose proof (Z.log2_le_mono 2 work ltac:(lia)) as Hl. change (Z.log2 2) with 1 in Hl. lia.
Qed.

(** The slots [avtab_alloc] makes: a power of two. *)
Lemma alloc_ok h nrules :
  0 < nrules < 2 ^ 32 ->
  exists h' t j, avtab_alloc h nrules = (0, h') /\ awf h' t /\ aentries h' = [] /\ nel h' = 0 /\
    nslot h' = 2 ^ j /\ 1 <= j <= 20 /\
    j = Z.min 20 (if nrules <? 4 then Z.log2 nrules + 1 else Z.log2 nrules - 1).
Proof.
  intros Hn. unfold avtab_alloc. replace (nrules =? 0) with false by lia.
  rewrite shift_loop_spec by (change (Z.of_nat 32) with 32; lia).
  set (s := if 2 <? 0 + Z.log2 nrules + 1 then 0 + Z.log2 nrules + 1 - 2 else 0 + Z.log2 nrules + 1).
  assert (Hs : s = if nrules <? 4 then Z.log2 nrules + 1 else Z.log2 nrules - 1).
  { unfold s. destruct (Z.ltb_spec nrules 4) as [Hlt|Hge].
    - assert (Z.log2 nrules < 2) by (apply Z.log2_lt_pow2; lia).
      replace (2 <? _) with false by lia. lia.
    - assert (2 <= Z.log2 nrules) by (apply Z.log2_le_pow2; lia).
      replace (2 <? _) with true by lia. lia. }
  assert (Hr : 1 <= s).
  { rewrite Hs. pose proof (Z.log2_nonneg nrules). destruct (Z.ltb_spec nrules 4); [lia|].
    assert (2 <= Z.log2 nrules) by (apply Z.log2_le_pow2; lia). lia. }
  clearbody s. set (j := Z.min 20 s).
  assert (Hj : (if MAX_AVTAB_HASH_BUCKETS <? Z.shiftl 1 s then MAX_AVTAB_HASH_BUCKETS
                else Z.shiftl 1 s) = 2 ^ j).
  { rewrite Z.shiftl_1_l. unfold MAX_AVTAB_HASH_BUCKETS, j.
    destruct (Z.le_gt_cases s 20) as [Hle|Hgt].
    - rewrite Z.min_r by lia. pose proof (Z.pow_le_mono_r 2 s 20). 
      destruct (Z.ltb_spec (2 ^ 20) (2 ^ s)); [lia|done].
    - rewrite Z.min_l by lia. pose proof (Z.pow_lt_mono_r 2 20 s ltac:(lia) ltac:(lia) Hgt).
      destruct (Z.ltb_spec (2 ^ 20) (2 ^ s)); [done|lia]. }
  cbv zeta. rewrite Hj. eexists _, (replicate (Z.to_nat (2 ^ j)) []), j. split; [reflexivity|].
  split; [|split; [|split; [done|split; [done|split; [lia|unfold j; by rewrite Hs]]]]].
  - split; cbn [htable nslot mask]; [done|exists j; split; [lia|done]|done| | |].
    + by rewrite length_replicate.
    + apply Forall_replicate. constructor.
    + intros i c [-> _]%lookup_replicate. constructor.
  - unfold aentries. cbn [htable default]. by induction (Z.to_nat (2 ^ j)).
Qed.

(** ** Entries that exclude each other *)

Lemma pairwise_perm {A} (R : A -> A -> Prop) (l1 l2 : list A) :
  l1 ≡ₚ l2 -> pairwise R l1 -> pairwise R l2.
Proof.
  induction 1 as [|x l1 l2 Hp IH|x y l|l1 l2 l3 H1 IH1 H2 IH2]; cbn [pairwise].
  - done.
  - intros [Hx Hl]. split; [|by apply IH]. by rewrite <- Hp.
  - rewrite !Forall_cons. tauto.
  - tauto.
Qed.

Lemma pairwise_app_cons {A} (R : A -> A -> Prop) (l1 : list A) x l2 :
  pairwise R (l1 ++ x :: l2) -> Forall (fun y => R x y) l1.
Proof.
  induction l1 as [|y l1 IH]; cbn [app pairwise]; [constructor|].
  intros [Hy Hl]. constructor; [|by apply IH].
  apply Forall_app in Hy as [_ Hy]. apply Forall_cons in Hy as [Hy _]. apply Hy.
Qed.

Lemma one_kind_in s : one_kind s = true -> s ∈ spec_order ++ map (Z.lor AVTAB_ENABLED) spec_order.
Proof. apply bool_decide_eq_true. Qed.

(** Two one-kind rules overlap when they are of the same kind. *)
Lemma one_kind_overlap a b :
  one_kind a = true -> one_kind b = true ->
  bits (strip_enabled a) b = bits (strip_enabled b) a /\
  (bits (strip_enabled a) b = true ->
   bits (strip_enabled a) AVTAB_XPERMS = bits (strip_enabled b) AVTAB_XPERMS).
Proof.
  intros Ha%one_kind_in Hb%one_kind_in.
  set (kinds := spec_order ++ map (Z.lor AVTAB_ENABLED) spec_order) in *.
  assert (Hall : forallb (fun a => forallb (fun b =>
      eqb (bits (strip_enabled a) b) (bits (strip_enabled b) a) &&
      (negb (bits (strip_enabled a) b) ||
       eqb (bits (strip_enabled a) AVTAB_XPERMS) (bits (strip_enabled b) AVTAB_XPERMS))) kinds) kinds = true)
    by (vm_compute; reflexivity).
  rewrite forallb_forall in Hall. specialize (Hall a ltac:(by apply list_elem_of_In)).
  cbv beta in Hall. rewrite forallb_forall in Hall. specialize (Hall b ltac:(by apply list_elem_of_In)).
  apply andb_prop in Hall as [H1 H2]. apply eqb_prop in H1. split; [done|].
  intros E. rewrite E in H2. cbn [negb orb] in H2. by apply eqb_prop.
Qed.

Lemma clash_sym a b :
  one_kind (specified (key a)) = true -> one_kind (specified (key b)) = true -> clash a b = clash b a.
Proof.
  intros Ha Hb. destruct (one_kind_overlap _ _ Ha Hb) as [H1 H2]. unfold clash, hit.
  rewrite (same_sym (key b) (key a)), <- H1. destruct (same (key a) (key b)); [|done]. cbn [andb].
  destruct (bits (strip_enabled (specified (key a))) (specified (key b))); [|done].
  by rewrite H2.
Qed.

Lemma hits_nil k spec l : hits k spec l = [] -> Forall (fun n => hit k spec n = false) l.
Proof.
  intros E. apply Forall_forall. intros n Hn. destruct (hit k spec n) eqn:Eh; [|done].
  assert (Hin : n ∈ hits k spec l) by (apply list_elem_of_filter; done).
  rewrite E in Hin. by apply elem_of_nil in Hin.
Qed.

Lemma exclusive_cons n l :
  one_kind (specified (key n)) = true -> Forall (fun m => one_kind (specified (key m)) = true) l ->
  exclusive l ->
  bits (strip_enabled (specified (key n))) AVTAB_XPERMS = true \/
    hits (key n) (strip_enabled (specified (key n))) l = [] ->
  exclusive (n :: l).
Proof.
  intros Hn Hl He Hx. split; [|exact He].
  assert (Hc : Forall (fun m => clash n m = false) l).
  { destruct Hx as [Hx|Hx].
    - apply Forall_true. intros m. unfold clash. rewrite Hx. apply andb_false_r.
    - eapply Forall_impl; [exact (hits_nil _ _ _ Hx)|]. intros m Hm. cbn in Hm.
      unfold clash. by rewrite Hm. }
  rewrite Forall_forall in Hl, Hc |- *. intros m Hm. rewrite (clash_sym m n); [|by apply Hl|done].
  split; by apply Hc.
Qed.

(** ** Insertion *)

(** What [avtab_insert] does to the entries. *)
Lemma insert_ok h t k d :
  awf h t ->
  let spec := strip_enabled (specified k) in
  if negb (bool_decide (hits k spec (aentries h) = [])) && negb (bits spec AVTAB_XPERMS)
  then avtab_insert h k d = (SEPOL_EEXIST, h)
  else exists h', avtab_insert h k d = (0, h') /\ (exists t', awf h' t') /\
    aentries h' ≡ₚ new_node k d :: aentries h /\ nel h' = u32 (nel h + 1) /\ nslot h' = nslot h.
Proof.
  intros Hw spec. unfold avtab_insert. rewrite (awf_table h t Hw). fold spec.
  pose proof (insert_walk_spec k spec _ (awf_slot_sorted h t k Hw)) as Hs.
  rewrite (hits_slot h t k spec Hw).
  destruct (insert_walk k spec _) as [[p q]|].
  - destruct Hs as (E & Hp & Hq & Hx).
    replace (negb _ && negb _) with false.
    + eexists. split; [reflexivity|]. by apply insert_node_ok.
    + destruct Hx as [->| ->]; [by rewrite andb_false_r|by rewrite bool_decide_true].
  - destruct Hs as [H1 ->]. by rewrite bool_decide_false.
Qed.

(** ** The format of the items *)

Lemma le_array_concat w n (xs : list Z) :
  length xs = n -> Forall (fun x => 0 <= x < 2 ^ (8 * Z.of_nat w)) xs ->
  le_array w n (concat (map (le_bytes w) xs)) = xs.
Proof.
  intros <-. induction 1 as [|x xs Hx Hxs IH]; [done|]. cbn [length map concat le_array].
  rewrite take_app_length', drop_app_length' by (by rewrite length_le_bytes).
  rewrite le_val_le_bytes, Z.mod_small by done. by rewrite IH.
Qed.

Lemma put_memory ptr size n d cap k :
  0 <= size * n <= cap ->
  put ptr size n (PolicyFile PF_USE_MEMORY d cap) k = k (PolicyFile PF_USE_MEMORY (d ++ ptr) (cap - size * n)).
Proof.
  intros Hc. unfold put. rewrite put_entry_memory by lia. by rewrite Z.eqb_refl.
Qed.

Lemma concat_words (xs : list Z) (w : nat) :
  blen (concat (map (le_bytes w) xs)) = Z.of_nat w * blen xs.
Proof.
  induction xs as [|x xs IH]; cbn [map concat]; [unfold blen; cbn; lia|].
  rewrite blen_app, blen_cons, IH, blen_le_bytes. lia.
Qed.

Lemma blen_enc_avnode vers n : writable vers n ->
  blen (enc_node n) = if bits (specified (key n)) AVTAB_XPERMS then 42 else 12.
Proof.
  intros Hw. pose proof (w_datum vers n Hw) as Hd. unfold enc_node.
  rewrite !blen_app, !blen_le_bytes. destruct (bits _ AVTAB_XPERMS).
  - destruct Hd as (_ & _ & x & -> & _ & _ & Hl & _). rewrite !blen_app, concat_words, !blen_le_bytes.
    unfold blen. rewrite Hl. lia.
  - rewrite blen_le_bytes. lia.
Qed.

Lemma write_item_ok vers n d cap :
  writable vers n -> blen (enc_node n) <= cap ->
  avtab_write_item vers true false n (PolicyFile PF_USE_MEMORY d cap) =
    Some (0, PolicyFile PF_USE_MEMORY (d ++ enc_node n) (cap - blen (enc_node n))).
Proof.
  intros Hw Hc. pose proof (w_datum vers n Hw) as Hd. unfold avtab_write_item. cbn [andb negb].
  cbn [option_bind mbind]. pose proof (blen_enc_avnode vers n Hw) as Hb. unfold enc_node in *.
  destruct (bits (specified (key n)) AVTAB_XPERMS) eqn:Ex.
  - destruct Hd as (Hv & _ & x & E & _). rewrite E in *. rewrite Hb in *. cbn [option_bind mbind].
    replace (vers <? POLICYDB_VERSION_XPERMS_IOCTL) with false by lia. cbn [andb].
    rewrite !put_memory by lia. do 3 f_equal; [|lia]. by rewrite <- !app_assoc.
  - rewrite Hb in *. rewrite andb_false_r. rewrite !put_memory by lia.
    do 3 f_equal; [|lia]. by rewrite <- !app_assoc.
Qed.

Lemma one_kind_count s :
  one_kind s = true ->
  length (filter (fun k => bits s k = true) spec_order) = 1%nat /\ bits s AVTAB_OPTYPE = false /\
  is_u16 s.
Proof.
  intros Hs%one_kind_in. set (kinds := spec_order ++ map (Z.lor AVTAB_ENABLED) spec_order) in *.
  assert (Hall : forallb (fun s => (length (filter (fun k => bits s k = true) spec_order) =? 1)%nat
      && negb (bits s AVTAB_OPTYPE) && (0 <=? s) && (s <? 2 ^ 16)) kinds = true)
    by (vm_compute; reflexivity).
  rewrite forallb_forall in Hall. specialize (Hall s ltac:(by apply list_elem_of_In)).
  apply andb_prop in Hall as [[[H1 H2]%andb_prop H3]%andb_prop H4].
  apply Nat.eqb_eq in H1. apply negb_true_iff in H2. unfold is_u16.
  split; [exact H1|]. split; [exact H2|]. lia.
Qed.

Lemma next_entry_le w x rest :
  next_entry (le_bytes w x ++ rest) (Z.of_nat w) = Some (le_bytes w x, rest).
Proof. apply next_entry_app. by rewrite blen_le_bytes. Qed.

(** What a client of the reader gets for an item. *)
Lemma read_new_ok {A} (insertf : A -> avtab_key -> avtab_datum -> Z * A) vers n rest a :
  writable vers n ->
  read_new insertf false (enc_node n ++ rest) vers a =
    let '(rc, a) := insertf a (key n) (datum n) in (rc, false, rest, a).
Proof.
  intros Hw. pose proof (w_datum vers n Hw) as Hd. destruct (one_kind_count _ (w_kind _ _ Hw)) as (Hc & Ho & Hs).
  unfold read_new, enc_node.
  set (hd := [source_type (key n); target_type (key n); target_class (key n); specified (key n)]).
  match goal with |- context [if bits _ _ then ?x else ?y] => set (body := if bits _ _ then x else y) end.
  replace (le_bytes 2 (source_type (key n)) ++ _) with (concat (map (le_bytes 2) hd) ++ body)
    by (cbn [hd map concat]; by rewrite app_nil_r, <- !app_assoc).
  rewrite <- app_assoc, next_entry_app by (rewrite concat_words; done).
  rewrite le_array_concat; [|done|].
  2: { change (2 ^ _) with (2 ^ 16). pose proof (w_source _ _ Hw). pose proof (w_target _ _ Hw).
       pose proof (w_class _ _ Hw). unfold is_u16 in *. repeat constructor; lia. }
  cbv zeta. change (default 0 (hd !! 0%nat)) with (source_type (key n)).
  change (default 0 (hd !! 1%nat)) with (target_type (key n)).
  change (default 0 (hd !! 2%nat)) with (target_class (key n)).
  change (default 0 (hd !! 3%nat)) with (specified (key n)).
  rewrite Ho. cbn [andb orb]. rewrite Hc. cbn [negb Nat.eqb].
  destruct n as [[src tgt cls sp] [dat xp]]. cbn [key datum source_type target_type target_class specified data xperms] in *.
  unfold body. destruct (bits sp AVTAB_XPERMS) eqn:Ex.
  - destruct Hd as (Hv & -> & x & -> & H1 & H2 & H3 & H4 & H5).
    replace (vers <? POLICYDB_VERSION_XPERMS_IOCTL) with false by lia. cbn [andb].
    unfold read_xperms. rewrite <- !app_assoc. change 1 with (Z.of_nat 1) at 1 2. 
    rewrite next_entry_le. rewrite le_val_le_bytes, Z.mod_small by exact H1. cbn [orb].
    replace (negb _ && negb _ && _) with false.
    2: { destruct (Z.eqb_spec vers POLICYDB_VERSION_XPERMS_IOCTL) as [Ev|]; [|by rewrite andb_false_r].
         destruct (H5 Ev) as [-> | ->]; reflexivity. }
    rewrite next_entry_le, le_val_le_bytes, Z.mod_small by exact H2.
    rewrite next_entry_app by (rewrite concat_words; unfold blen; rewrite H3; done).
    rewrite le_array_concat by done. by destruct x.
  - destruct Hd as [H1 ->]. rewrite andb_false_r. change 4 with (Z.of_nat 4).
    rewrite next_entry_le, le_val_le_bytes, Z.mod_small by exact H1. done.
Qed.

(** ** Images of tables *)

Lemma writable_node vers n : writable vers n -> new_node (key n) (datum n) = n.
Proof.
  intros Hw. pose proof (w_datum vers n Hw) as Hd. unfold new_node.
  destruct n as [k [dat xp]]. cbn in *. destruct (bits (specified k) AVTAB_XPERMS); [|done].
  destruct Hd as (_ & -> & x & -> & _). done.
Qed.

Lemma write_items_ok vers l d cap :
  Forall (writable vers) l -> blen (concat (map enc_node l)) <= cap ->
  write_items vers true false l (PolicyFile PF_USE_MEMORY d cap) =
    Some (0, PolicyFile PF_USE_MEMORY (d ++ concat (map enc_node l)) (cap - blen (concat (map enc_node l)))).
Proof.
  intros Hl. revert d cap. induction Hl as [|n l Hn Hl IH]; intros d cap Hc.
  - cbn. unfold blen. cbn. by rewrite app_nil_r, Z.sub_0_r.
  - cbn [map concat] in *. rewrite blen_app in *. cbn [write_items].
    pose proof (blen_nonneg (concat (map enc_node l))). pose proof (blen_nonneg (enc_node n)).
    rewrite (write_item_ok vers n d cap Hn) by lia. cbn [option_bind mbind negb Z.eqb].
    rewrite IH by lia. do 3 f_equal; [by rewrite <- app_assoc|lia].
Qed.

Lemma clash_hits n l :
  bits (strip_enabled (specified (key n))) AVTAB_XPERMS = false ->
  Forall (fun y => clash n y = false /\ clash y n = false) l ->
  hits (key n) (strip_enabled (specified (key n))) l = [].
Proof.
  intros Hx. induction 1 as [|m l [Hm _] Hl IH]; [done|]. rewrite hits_cons, IH.
  unfold clash in Hm. rewrite Hx in Hm. cbn [negb] in Hm. rewrite andb_true_r in Hm. by rewrite Hm.
Qed.

(** Reading the items of exclusive entries puts them all in the table. *)
Lemma read_items_ok vers l junk rest h t :
  POLICYDB_VERSION_AVTAB <= vers -> Forall (writable vers) l -> awf h t ->
  exclusive (l ++ aentries h) -> Forall (fun m => one_kind (specified (key m)) = true) (aentries h) ->
  exists h', read_items (length l) false junk (concat (map enc_node l) ++ rest) vers h =
      Some (0, false, rest, h') /\ (exists t', awf h' t') /\
    aentries h' ≡ₚ l ++ aentries h /\ nslot h' = nslot h /\
    nel h' = match l with [] => nel h | _ => u32 (nel h + blen l) end.
Proof.
  intros Hv Hl. revert h t. induction Hl as [|n l Hn Hl IH]; intros h t Hw He Hk.
  - exists h. split; [done|]. split; [by exists t|]. done.
  - cbn [length read_items map concat]. rewrite <- app_assoc. unfold avtab_read_item.
    replace (vers <? POLICYDB_VERSION_AVTAB) with false by lia.
    rewrite (read_new_ok avtab_insertf vers n _ h Hn). unfold avtab_insertf.
    pose proof (insert_ok h t (key n) (datum n) Hw) as Hi. cbv zeta in Hi.
    set (spec := strip_enabled (specified (key n))) in Hi.
    replace (negb (bool_decide _) && _) with false in Hi.
    2: { symmetry. destruct (bits spec AVTAB_XPERMS) eqn:Ex; [apply andb_false_r|].
         rewrite bool_decide_true; [done|]. destruct He as [He _].
         apply Forall_app in He as [_ He]. by apply clash_hits. }
    destruct Hi as (h1 & -> & (t1 & Hw1) & Hp1 & Hn1 & Hs1). cbn [option_bind mbind negb Z.eqb].
    rewrite (writable_node vers n Hn) in Hp1.
    destruct (IH h1 t1) as (h' & E & Hw' & Hp' & Hs' & Hn').
    { done. }
    { eapply pairwise_perm; [|exact He]. rewrite Hp1. by rewrite <- Permutation_middle. }
    { rewrite Hp1. constructor; [apply (w_kind vers n Hn)|done]. }
    exists h'. split; [exact E|]. split; [exact Hw'|]. split.
    { rewrite Hp', Hp1. by rewrite <- Permutation_middle. }
    split; [congruence|]. rewrite Hn'. destruct l as [|m l]; rewrite Hn1.
    + by rewrite blen_cons, blen_nil.
    + rewrite u32_add_l. f_equal. rewrite (blen_cons n). lia.
Qed.

Lemma table_round_trip vers h t cap junk a rest :
  POLICYDB_VERSION_AVTAB <= vers -> awf h t -> Forall (writable vers) (aentries h) ->
  exclusive (aentries h) -> nel h = blen (aentries h) -> 0 < nel h < 2 ^ 32 ->
  blen (enc_table (aentries h)) <= cap ->
  avtab_write vers true false h (PolicyFile PF_USE_MEMORY [] cap) =
    Some (0, PolicyFile PF_USE_MEMORY (enc_table (aentries h)) (cap - blen (enc_table (aentries h)))) /\
  exists h', avtab_read false junk a (enc_table (aentries h) ++ rest) vers = Some (0, false, rest, h') /\
    (exists t', awf h' t') /\ aentries h' ≡ₚ aentries h /\ nel h' = nel h.
Proof.
  intros Hv Hw Hl He Hn Hr Hc. unfold enc_table in *. rewrite blen_app, blen_le_bytes in *.
  pose proof (blen_nonneg (concat (map enc_node (aentries h)))). split.
  - unfold avtab_write. rewrite put_memory by lia. fold (aentries h).
    rewrite write_items_ok by (done || lia). rewrite Hn. do 3 f_equal. lia.
  - unfold avtab_read. change 4 with (Z.of_nat 4). rewrite <- app_assoc, next_entry_le.
    rewrite le_val_le_bytes, Z.mod_small by (rewrite <- Hn; exact (conj (Z.lt_le_incl _ _ (proj1 Hr)) (proj2 Hr))).
    replace (blen (aentries h) =? 0) with false by lia.
    destruct (alloc_ok a (blen (aentries h))) as (h0 & t0 & j & -> & Hw0 & E0 & En0 & _); [lia|].
    cbn [negb Z.eqb]. unfold blen at 1. rewrite Nat2Z.id.
    destruct (read_items_ok vers (aentries h) junk rest h0 t0) as (h' & E & Hw' & Hp & _ & Hn');
      [done..|rewrite E0, app_nil_r; exact He|rewrite E0; constructor|].
    exists h'. split; [exact E|]. split; [exact Hw'|]. rewrite E0, app_nil_r in Hp.
    split; [exact Hp|]. rewrite Hn', En0, Hn.
    destruct (aentries h) as [|n l] eqn:El; [done|]. apply u32_small. unfold is_u32. lia.
Qed.

(** ** The original format *)

Lemma kinds_cons v s order :
  kinds_of v (s :: order) = (if bits v s then [s] else []) ++ kinds_of v order.
Proof. unfold kinds_of. rewrite filter_cons. by destruct (bits v s). Qed.

Lemma old_items_ok {A} (insertf : A -> avtab_key -> avtab_datum -> Z * A) order v enabled buf items k a ds j
    src tgt cls sp :
  0 <= items -> drop (Z.to_nat items) buf = ds ++ j -> length ds = length (kinds_of v order) ->
  k = AvtabKey src tgt cls sp ->
  let '(rc, a') := insert_kinds insertf (kinds_of v order) ds enabled k a in
  exists items', old_items insertf order v enabled buf items k a = Some (rc, items', a') /\
    (rc = 0 -> items' = items + blen ds).
Proof.
  revert items a ds sp k. induction order as [|s order IH]; intros items a ds sp k Hi Hb Hl Hk.
  - destruct ds; [|done]. cbn. exists items. split; [done|]. unfold blen. cbn. lia.
  - rewrite kinds_cons in *. cbn [old_items]. destruct (bits v s).
    + destruct ds as [|d ds]; [done|]. cbn [app insert_kinds].
      assert (E : buf !! Z.to_nat items = Some d).
      { rewrite <- (Nat.add_0_r (Z.to_nat items)), <- lookup_drop, Hb. done. }
      rewrite E. cbn [option_bind mbind]. destruct (insertf a _ _) as [rc a'].
      destruct (Z.eqb_spec rc 0) as [->|Hrc]; cbn [negb]; [|by exists (items + 1)].
      assert (Hb' : drop (Z.to_nat (items + 1)) buf = ds ++ j).
      { replace (Z.to_nat (items + 1)) with (Z.to_nat items + 1)%nat by lia.
        by rewrite <- drop_drop, Hb. }
      injection Hl as Hl.
      specialize (IH (items + 1) a' ds (Z.lor s enabled) _ ltac:(lia) Hb' Hl eq_refl).
      subst k. cbn [source_type target_type target_class] in *.
      assert (Ek : insert_kinds insertf (kinds_of v order) ds enabled (AvtabKey src tgt cls sp) a' =
                   insert_kinds insertf (kinds_of v order) ds enabled (AvtabKey src tgt cls (Z.lor s enabled)) a').
      { clear. revert ds a'. induction (kinds_of v order) as [|s' o IH]; intros [|d ds] a'; [done..|].
        cbn. destruct (insertf a' _ _) as [rc a'']. destruct (negb _); [done|]. apply IH. }
      rewrite Ek. destruct (insert_kinds _ _ ds _ _ a') as [rc a''].
      destruct IH as (items' & E' & Hi'). exists items'. split; [exact E'|].
      intros Hz. rewrite blen_cons, Hi' by done. lia.
    + by apply (IH items a ds sp k).
Qed.

(** The loop runs past an array that is too short for the kinds. *)
Lemma old_items_overread {A} (insertf : A -> avtab_key -> avtab_datum -> Z * A) order v enabled buf items k a :
  (forall a k d, fst (insertf a k d) = 0) -> 0 <= items ->
  blen buf < items + blen (kinds_of v order) ->  items <= blen buf ->
  old_items insertf order v enabled buf items k a = None.
Proof.
  intros Hok. revert items a k. induction order as [|s order IH]; intros items a k Hi Hlt Hle.
  - unfold blen in *. cbn in Hlt. lia.
  - rewrite kinds_cons in Hlt. cbn [old_items]. destruct (bits v s); [|by apply IH].
    rewrite blen_app in Hlt. change (blen [s]) with 1 in Hlt.
    destruct (buf !! Z.to_nat items) as [d|] eqn:E; [|done]. cbn [option_bind mbind].
    apply lookup_lt_Some in E. specialize (Hok a (AvtabKey (source_type k) (target_type k)
      (target_class k) (Z.lor s enabled)) (AvtabDatum d None)).
    destruct (insertf a _ _) as [rc a']. cbn in Hok. subst rc. cbn [negb Z.eqb].
    apply IH; unfold blen in *; lia.
Qed.

Lemma bits_lor v a b : bits v (Z.lor a b) = bits v a || bits v b.
Proof.
  unfold bits. rewrite Z.land_lor_distr_r.
  destruct (Z.eqb_spec (Z.lor (Z.land v a) (Z.land v b)) 0) as [E|E].
  - apply Z.lor_eq_0_iff in E as [-> ->]. done.
  - destruct (Z.eqb_spec (Z.land v a) 0) as [Ea|]; [|done].
    destruct (Z.eqb_spec (Z.land v b) 0) as [Eb|]; [|done]. by rewrite Ea, Eb in E.
Qed.

(** The words of an item reach the loop. *)
Lemma read_old_words {A} (insertf : A -> avtab_key -> avtab_datum -> Z * A) junk src tgt cls v ds rest a :
  is_u16 src -> is_u16 tgt -> is_u16 cls -> is_u32 v -> Forall is_u32 ds ->
  1 <= blen ds <= 4 -> bits v AVTAB_AV <> bits v AVTAB_TYPE ->
  read_old insertf junk (enc_old src tgt cls v ds ++ rest) a =
    '(rc, items, a) ← old_items insertf spec_order v
        (if bits v AVTAB_ENABLED_OLD then AVTAB_ENABLED else 0)
        (([src; tgt; cls; v] ++ ds) ++ drop (4 + length ds) junk) 4 (AvtabKey src tgt cls 0) a;
    if negb (rc =? 0) then Some (rc, rest, a)
    else if negb (items =? 4 + blen ds) then Some (-1, rest, a) else Some (0, rest, a).
Proof.
  intros H1 H2 H3 H4 H5 Hd Hav. unfold read_old, enc_old.
  rewrite <- app_assoc, next_entry_app by (by rewrite blen_le_bytes).
  rewrite le_val_le_bytes, Z.mod_small by (change (2 ^ _) with (2 ^ 32); lia).
  replace ((4 + blen ds <? 5) || (8 <? 4 + blen ds)) with false by lia.
  rewrite next_entry_app.
  2: { rewrite concat_words, blen_app. unfold blen at 1. cbn [length]. lia. }
  rewrite le_array_concat.
  2: { rewrite length_app. unfold blen. cbn [length]. lia. }
  2: { change (2 ^ _) with (2 ^ 32). unfold is_u16, is_u32 in *. apply Forall_app. split; [|done].
       repeat constructor; lia. }
  replace (Z.to_nat (4 + blen ds)) with (4 + length ds)%nat by (unfold blen; lia).
  cbv zeta. set (buf := ([src; tgt; cls; v] ++ ds) ++ _).
  change (default 0 (buf !! 0%nat)) with src. change (default 0 (buf !! 1%nat)) with tgt.
  change (default 0 (buf !! 2%nat)) with cls. change (default 0 (buf !! 3%nat)) with v.
  unfold u16, is_u16 in *. rewrite !Z.mod_small, !Z.eqb_refl by done. cbn [negb].
  rewrite bits_lor. by destruct (bits v AVTAB_AV), (bits v AVTAB_TYPE).
Qed.

(** ** Properties *)

(** C35. Insertion: in a well-formed table, [avtab_insert] refuses a key with
    SEPOL_EEXIST exactly when an entry with the same types and class already
    has one of its rule kinds and none of them is an extended permission; then
    the table is as it was.  Otherwise exactly one entry is added, the table
    stays well formed, the count goes up by one modulo 2^32, and if no two
    entries excluded each other before, none do after, provided every rule has
    one kind. *)
Theorem avtab_insert_spec (h : avtab) t (k : avtab_key) (d : avtab_datum) :
  awf h t ->
  let spec := strip_enabled (specified k) in
  let clashing := hits k spec (aentries h) in
  (clashing <> [] /\ bits spec AVTAB_XPERMS = false -> avtab_insert h k d = (SEPOL_EEXIST, h)) /\
  (clashing = [] \/ bits spec AVTAB_XPERMS = true ->
   exists h', avtab_insert h k d = (0, h') /\ (exists t', awf h' t') /\
     aentries h' ≡ₚ new_node k d :: aentries h /\ nel h' = u32 (nel h + 1) /\
     (Forall (fun n => one_kind (specified (key n)) = true) (new_node k d :: aentries h) ->
      exclusive (aentries h) -> exclusive (aentries h'))).
Proof.
  intros Hw spec clashing. pose proof (insert_ok h t k d Hw) as Hi. cbv zeta in Hi.
  fold spec clashing in Hi. split.
  - intros [H1 H2]. rewrite bool_decide_false, H2 in Hi by done. exact Hi.
  - intros Hc. replace (negb (bool_decide (clashing = [])) && negb (bits spec AVTAB_XPERMS)) with false in Hi.
    + destruct Hi as (h' & E & Hw' & Hp & Hn & _). exists h'. split; [exact E|].
      split; [exact Hw'|]. split; [exact Hp|]. split; [exact Hn|].
      intros [Ho Hos]%Forall_cons He. unfold exclusive. eapply pairwise_perm; [symmetry; exact Hp|].
      apply exclusive_cons; [done..|]. rewrite key_new_node. fold spec clashing. tauto.
    + destruct Hc as [-> | ->]; [by rewrite bool_decide_true|by rewrite andb_false_r].
Qed.

(** Search: in a well-formed table [avtab_search] gives the datum of the
    first entry, in table order, that has the key's types and class and one of
    its rule kinds, and NULL only if there is none; starting at
    [avtab_search_node] and following [avtab_search_node_next] meets exactly
    the entries that match, each once. *)
Theorem avtab_search_spec (h : avtab) t (k : avtab_key) :
  awf h t ->
  let matching := hits k (strip_enabled (specified k)) (aentries h) in
  avtab_search h k = datum <$> head matching /\
  follow (S (length (aentries h))) (specified k) (avtab_search_node h k) = matching.
Proof.
  intros Hw matching. unfold avtab_search, avtab_search_node. rewrite (awf_table h t Hw).
  cbn [option_bind mbind].
  pose proof (search_node_ok h t k (strip_enabled (specified k)) Hw) as Hs. fold matching in Hs.
  pose proof (hits_slot h t k (strip_enabled (specified k)) Hw) as Hh. fold matching in Hh.
  assert (Hlen : forall r, search_chain k (strip_enabled (specified k))
      (slot t (avtab_hash k (mask h))) = Some r -> (length r <= length (aentries h))%nat).
  { intros r Hr. pose proof (search_chain_spec k (strip_enabled (specified k)) _ (awf_slot_sorted h t k Hw)) as Hc.
    rewrite Hr in Hc. destruct Hc as (p & _ & _ & Ep & _). 
    unfold aentries. rewrite (awf_table h t Hw). change (default [] (Some t)) with t.
    pose proof (awf_slot h t k Hw) as Hl. rewrite Ep in Hl.
    apply take_drop_middle in Hl. rewrite <- Hl.
    rewrite List.concat_app. cbn [concat]. rewrite !length_app. lia. }
  destruct (search_chain k _ _) as [r|]; [|by rewrite Hs].
  destruct Hs as (n & q & E & Hn & Ho & ->). specialize (Hlen r eq_refl). split; [by rewrite E|].
  apply andb_prop in Hn as [Hk _]. rewrite (follow_hits k (specified k) _ r n q); [done..|lia].
Qed.

(** [avtab_insert_nonunique] always adds the entry and returns its node,
    keeping the table well formed; a search for the key it was given then
    succeeds. *)
Theorem avtab_insert_nonunique_spec (h : avtab) t (k : avtab_key) (d : avtab_datum) :
  awf h t ->
  exists h', avtab_insert_nonunique h k d = (Some (new_node k d), h') /\ (exists t', awf h' t') /\
    aentries h' ≡ₚ new_node k d :: aentries h /\ nel h' = u32 (nel h + 1) /\
    (bits (strip_enabled (specified k)) (specified k) = true -> avtab_search h' k <> None).
Proof.
  intros Hw. unfold avtab_insert_nonunique. rewrite (awf_table h t Hw).
  destruct (nonunique_walk k _ _) as [p q] eqn:E.
  destruct (nonunique_walk_spec _ _ _ _ _ (awf_slot_sorted h t k Hw) E) as (Hs & Hp & Hq).
  destruct (insert_node_ok h t k d p q Hw Hs Hp Hq) as ((t' & Hw') & Hperm & Hn & _).
  eexists. split; [reflexivity|]. split; [by exists t'|]. split; [exact Hperm|]. split; [exact Hn|].
  intros Hb Hsr. set (h' := avtab_insert_node _ _ _ _ _ _ _) in *.
  unfold avtab_search in Hsr. rewrite (awf_table h' t' Hw') in Hsr. cbn [option_bind mbind] in Hsr.
  pose proof (search_node_ok h' t' k (strip_enabled (specified k)) Hw') as Hnode.
  destruct (search_chain k _ _) as [r|].
  - destruct Hnode as (n & r' & -> & _). done.
  - assert (Hin : new_node k d ∈ hits k (strip_enabled (specified k)) (aentries h')).
    { apply list_elem_of_filter. rewrite Hperm. split; [|by left].
      unfold hit. by rewrite key_new_node, same_refl, Hb. }
    rewrite Hnode in Hin. by apply elem_of_nil in Hin.
Qed.

(** *** Changing the datum a search finds *)

Lemma concat_place {A} (t : list (list A)) i c c' :
  t !! i = Some c -> concat t = concat (take i t) ++ c ++ concat (drop (S i) t) /\
  concat (<[i := c']> t) = concat (take i t) ++ c' ++ concat (drop (S i) t).
Proof.
  intros Hi. pose proof (lookup_lt_Some _ _ _ Hi) as Hl. split.
  - rewrite <- (take_drop_middle t i c Hi) at 1. by rewrite List.concat_app.
  - rewrite insert_take_drop by done. by rewrite List.concat_app.
Qed.

(** The entries before a key's slot are none of its hits. *)
Lemma hits_before_slot h t k spec :
  awf h t -> hits k spec (concat (take (Z.to_nat (avtab_hash k (mask h))) t)) = [].
Proof.
  intros Hw. apply hits_none. apply Forall_concat, Forall_forall. intros c Hc.
  apply list_elem_of_lookup in Hc as [j Hj]. apply lookup_take_Some in Hj as [Hj Hlt].
  eapply Forall_impl; [exact (awf_hash h t Hw j c Hj)|]. intros n Hn. cbn in Hn.
  destruct (same k (key n)) eqn:E; [|done]. rewrite <- (hash_same _ _ _ E) in Hn. lia.
Qed.

Lemma poke_chain_spec k spec f (c : list avtab_node) :
  match search_chain k spec c with
  | Some r => exists p n q, r = n :: q /\ c = p ++ r /\ hits k spec p = [] /\ hit k spec n = true /\
      poke_chain k spec f c = p ++ AvtabNode (key n) (f (datum n)) :: q
  | None => poke_chain k spec f c = c
  end.
Proof.
  induction c as [|n c IH]; [done|]. cbn [search_chain poke_chain].
  destruct (same k (key n) && bits spec (specified (key n))) eqn:E.
  - exists [], n, c. done.
  - destruct (before k (key n)); [done|]. destruct (search_chain k spec c) as [r|].
    + destruct IH as (p & n' & q & -> & -> & Hp & Hn & ->). exists (n :: p), n', q.
      split; [done|]. split; [done|]. split; [|done]. rewrite hits_cons. unfold hit. by rewrite E.
    + by rewrite IH.
Qed.

Lemma asorted_keys (c c' : list avtab_node) : map key c = map key c' -> asorted c -> asorted c'.
Proof.
  revert c'. induction c as [|n c IH]; intros [|n' c'] E Hs; try done.
  injection E as En Ec. apply StronglySorted_cons in Hs as [Hn Hs].
  apply StronglySorted_cons. split; [|by apply IH]. rewrite <- En. clear IH Hs En.
  revert c' Ec. induction Hn as [|x c Hx Hn IH]; intros [|x' c'] E; try done.
  injection E as Ex Ec. constructor; [by rewrite <- Ex|by apply IH].
Qed.

(** Changing the datum a search finds, seen from the list of entries. *)
Lemma avtab_poke_ok h t k f :
  awf h t -> avtab_search h k <> None ->
  exists l1 n l2, aentries h = l1 ++ n :: l2 /\
    hits k (strip_enabled (specified k)) l1 = [] /\ hit k (strip_enabled (specified k)) n = true /\
    (exists t', awf (avtab_poke h k f) t') /\
    aentries (avtab_poke h k f) = l1 ++ AvtabNode (key n) (f (datum n)) :: l2 /\
    nel (avtab_poke h k f) = nel h.
Proof.
  intros Hw Hs. set (spec := strip_enabled (specified k)).
  pose proof (awf_slot h t k Hw) as Hl. set (i := Z.to_nat (avtab_hash k (mask h))) in *.
  unfold avtab_search in Hs. rewrite (awf_table h t Hw) in Hs. cbn [option_bind mbind] in Hs. fold spec in Hs.
  pose proof (poke_chain_spec k spec f (slot t (avtab_hash k (mask h)))) as Hp.
  destruct (search_chain k spec _) as [r|]; [|done].
  destruct Hp as (p & n & q & -> & Ec & Hp & Hn & Ep). clear Hs.
  destruct (concat_place t i _ (p ++ AvtabNode (key n) (f (datum n)) :: q) Hl) as [E1 E2].
  exists (concat (take i t) ++ p), n, (q ++ concat (drop (S i) t)).
  assert (Eh : avtab_poke h k f = Avtab (Some (<[i := p ++ AvtabNode (key n) (f (datum n)) :: q]> t))
      (nel h) (nslot h) (mask h)).
  { unfold avtab_poke. rewrite (awf_table h t Hw). fold spec i. by rewrite Ep. }
  rewrite Ec in *. split; [|split; [|split; [done|split; [|split]]]].
  - unfold aentries. rewrite (awf_table h t Hw). change (default [] (Some t)) with t. rewrite E1.
    by rewrite <- !app_assoc.
  - rewrite hits_app, Hp, app_nil_r. by apply hits_before_slot.
  - assert (Ek : map key (p ++ n :: q) = map key (p ++ AvtabNode (key n) (f (datum n)) :: q))
      by (by rewrite !map_app).
    rewrite Eh. eexists. split; [reflexivity|exact (awf_nslot h t Hw)|exact (awf_mask h t Hw)|..];
      cbn [nslot mask].
    + by rewrite length_insert, (awf_length h t Hw).
    + apply Forall_insert; [apply (awf_sorted h t Hw)|]. apply (asorted_keys _ _ Ek).
      rewrite <- Ec. by apply awf_slot_sorted.
    + intros j c [(<- & <- & _)|[_ Hj]]%list_lookup_insert_Some; [|by apply (awf_hash h t Hw)].
      pose proof (awf_hash h t Hw _ _ Hl) as Hh. apply Forall_app in Hh as [H1 H2].
      apply Forall_cons in H2 as [H2 H3]. apply Forall_app. split; [done|]. by constructor.
  - rewrite Eh. unfold aentries. cbn [htable]. 
    match goal with |- context [default [] (Some ?x)] => change (default [] (Some x)) with x end.
    rewrite E2. by rewrite <- !app_assoc.
  - by rewrite Eh.
Qed.

(** Allocation: for a number of rules from 1 to 2^32 - 1 [avtab_alloc] makes
    an empty well-formed table whose number of slots is a power of two between
    2 and MAX_AVTAB_HASH_BUCKETS, with two to four rules for each slot from
    four rules on until that maximum is reached; so every hash is an index of
    the array and fits an [int]. *)
Theorem avtab_alloc_spec (h : avtab) (nrules : Z) :
  0 < nrules < 2 ^ 32 ->
  exists h' t, avtab_alloc h nrules = (0, h') /\ awf h' t /\ aentries h' = [] /\ nel h' = 0 /\
    (forall k, 0 <= avtab_hash k (mask h') < nslot h') /\
    2 <= nslot h' <= MAX_AVTAB_HASH_BUCKETS /\
    (4 <= nrules -> 2 * nslot h' <= nrules /\
       (nrules < 4 * nslot h' \/ nslot h' = MAX_AVTAB_HASH_BUCKETS)).
Proof.
  intros Hn. destruct (alloc_ok h nrules Hn) as (h' & t & j & E & Hw & He & Hz & Hs & Hj & Ej).
  exists h', t. split; [exact E|]. split; [exact Hw|]. split; [exact He|]. split; [exact Hz|].
  split; [intros k; by apply (awf_hash_range h' t)|]. unfold MAX_AVTAB_HASH_BUCKETS. rewrite Hs.
  split.
  { pose proof (Z.pow_le_mono_r 2 1 j). pose proof (Z.pow_le_mono_r 2 j 20). lia. }
  intros H4. replace (nrules <? 4) with false in Ej by lia.
  destruct (Z.log2_spec nrules) as [Hlo Hhi]; [lia|].
  pose proof (Z.log2_le_mono 4 nrules H4) as Hl. change (Z.log2 4) with 2 in Hl. split.
  - pose proof (Z.pow_le_mono_r 2 (1 + j) (Z.log2 nrules)) as Hp.
    rewrite Z.pow_add_r in Hp by lia. lia.
  - destruct (Z.le_gt_cases (Z.log2 nrules - 1) 20) as [Hle|Hgt].
    + left. rewrite Z.min_r in Ej by lia. replace (Z.succ (Z.log2 nrules)) with (2 + j) in Hhi by lia.
      rewrite Z.pow_add_r in Hhi by lia. lia.
    + right. by rewrite Z.min_l in Ej by lia; rewrite Ej.
Qed.

(** Round trip: a table of rules the current format can hold, no two of
    which exclude each other, is written by [avtab_write] as its count followed
    by its entries, and [avtab_read] makes of that image, whatever follows it,
    a well-formed table with the same entries. *)
Theorem avtab_read_write (vers : Z) (h : avtab) t (cap : Z) (junk : list Z) (a : avtab) (rest : bytes) :
  POLICYDB_VERSION_AVTAB <= vers -> awf h t -> Forall (writable vers) (aentries h) ->
  exclusive (aentries h) -> nel h = blen (aentries h) -> 0 < nel h < 2 ^ 32 ->
  blen (enc_table (aentries h)) <= cap ->
  exists img, avtab_write vers true false h (PolicyFile PF_USE_MEMORY [] cap) =
      Some (0, PolicyFile PF_USE_MEMORY img (cap - blen img)) /\
    exists h', avtab_read false junk a (img ++ rest) vers = Some (0, false, rest, h') /\
      (exists t', awf h' t') /\ aentries h' ≡ₚ aentries h /\ nel h' = nel h.
Proof.
  intros Hv Hw Hl He Hn Hr Hc. exists (enc_table (aentries h)). by apply table_round_trip with (t := t).
Qed.

(** The original format: an item with up to four words of data is read as
    one insertion for each rule kind of its fourth word, in the order of
    [spec_order], until one fails, whose status is returned. *)
Theorem avtab_read_old_spec {A} (insertf : A -> avtab_key -> avtab_datum -> Z * A) compat junk
    (vers src tgt cls v : Z) (ds : list Z) (rest : bytes) (a : A) :
  vers < POLICYDB_VERSION_AVTAB ->
  is_u16 src -> is_u16 tgt -> is_u16 cls -> is_u32 v -> Forall is_u32 ds ->
  bits v AVTAB_AV <> bits v AVTAB_TYPE ->
  blen ds = blen (kinds_of v spec_order) -> 1 <= blen ds <= 4 ->
  avtab_read_item insertf compat junk (enc_old src tgt cls v ds ++ rest) vers a =
    let '(rc, a) := insert_kinds insertf (kinds_of v spec_order) ds
      (if bits v AVTAB_ENABLED_OLD then AVTAB_ENABLED else 0) (AvtabKey src tgt cls 0) a in
    Some (rc, compat, rest, a).
Proof.
  intros Hv H1 H2 H3 H4 H5 Hav Hk Hd. unfold avtab_read_item.
  replace (vers <? POLICYDB_VERSION_AVTAB) with true by lia.
  rewrite (read_old_words insertf junk src tgt cls v ds rest a) by done.
  set (en := if bits v AVTAB_ENABLED_OLD then AVTAB_ENABLED else 0).
  pose proof (old_items_ok insertf spec_order v en (([src; tgt; cls; v] ++ ds) ++ drop (4 + length ds) junk)
    4 (AvtabKey src tgt cls 0) a ds (drop (4 + length ds) junk) src tgt cls 0) as Ho.
  assert (Hl : length ds = length (kinds_of v spec_order)) by (unfold blen in Hk; lia).
  specialize (Ho ltac:(lia) eq_refl Hl eq_refl).
  destruct (insert_kinds insertf _ ds en _ a) as [rc a']. destruct Ho as (items & -> & Hi).
  cbn [option_bind mbind]. destruct (Z.eqb_spec rc 0) as [->|Hrc]; [|done]. cbn [negb].
  by rewrite Hi, Z.eqb_refl.
Qed.

(** Out of bounds: an item of the original format whose fourth word has
    more rule kinds than the array of eight words has room for makes the
    reader fetch the datum of the fifth from behind the array ([None]),
    whatever count the item declares and whatever the client's insertions do,
    as long as they succeed; the item passes every check before that. *)
Theorem avtab_read_old_overread {A} (insertf : A -> avtab_key -> avtab_datum -> Z * A) compat junk
    (vers src tgt cls v : Z) (ds : list Z) (rest : bytes) (a : A) :
  vers < POLICYDB_VERSION_AVTAB -> (forall a k d, fst (insertf a k d) = 0) -> length junk = 8%nat ->
  is_u16 src -> is_u16 tgt -> is_u16 cls -> is_u32 v -> Forall is_u32 ds ->
  bits v AVTAB_AV <> bits v AVTAB_TYPE ->
  4 < blen (kinds_of v spec_order) -> 1 <= blen ds <= 4 ->
  avtab_read_item insertf compat junk (enc_old src tgt cls v ds ++ rest) vers a = None.
Proof.
  intros Hv Hok Hj H1 H2 H3 H4 H5 Hav Hk Hd. unfold avtab_read_item.
  replace (vers <? POLICYDB_VERSION_AVTAB) with true by lia.
  rewrite (read_old_words insertf junk src tgt cls v ds rest a) by done.
  assert (Hb : blen (([src; tgt; cls; v] ++ ds) ++ drop (4 + length ds) junk) = 8).
  { rewrite !blen_app. unfold blen in *. rewrite length_drop, Hj. cbn [length]. lia. }
  by rewrite (old_items_overread insertf spec_order v) by (done || lia).
Qed.

(** ** The properties at small tables *)

Lemma insert_all_wf h l : (exists t, awf h t) -> exists t, awf (insert_all h l) t.
Proof.
  revert h. induction l as [|[k d] l IH]; intros h [t Hw]; [by exists t|]. apply IH. cbn [fst snd].
  pose proof (insert_ok h t k d Hw) as Hi. cbv zeta in Hi. destruct (_ && _).
  - rewrite Hi. by exists t.
  - destruct Hi as (h' & -> & Hw' & _). exact Hw'.
Qed.

Lemma sample_avtab_wf : exists t, awf sample_avtab t.
Proof.
  apply insert_all_wf. destruct (alloc_ok (Avtab None 0 0 0) 5) as (h & t & j & -> & Hw & _); [lia|].
  by exists t.
Qed.

Lemma sample_entries :
  aentries sample_avtab =
  [AvtabNode (AvtabKey 3 7 2 AVTAB_TRANSITION) (AvtabDatum 12 None);
   AvtabNode (AvtabKey 5 7 2 AVTAB_ALLOWED) (AvtabDatum 0x13 None);
   AvtabNode (AvtabKey 5 7 2 AVTAB_XPERMS_ALLOWED)
     (AvtabDatum 0 (Some (Xperms AVTAB_XPERMS_IOCTLDRIVER 0x89 [1; 2; 3; 4; 5; 6; 7; 8])))].
Proof. vm_compute. reflexivity. Qed.

Lemma Forall_u32_check l : forallb (fun x => (0 <=? x) && (x <? 2 ^ 32)) l = true -> Forall is_u32 l.
Proof.
  rewrite forallb_forall, Forall_forall. intros Hl x Hx%list_elem_of_In. specialize (Hl x Hx).
  unfold is_u32. lia.
Qed.

Lemma sample_writable : Forall (writable POLICYDB_VERSION_XPERMS_IOCTL) (aentries sample_avtab).
Proof.
  rewrite sample_entries.
  assert (Hu : forall x y, (0 <=? x) && (x <? y) = true -> 0 <= x < y) by (intros; lia).
  repeat (apply Forall_cons_2); [..|constructor].
  - split; [exact (Hu 3 (2 ^ 16) eq_refl)|exact (Hu 7 (2 ^ 16) eq_refl)|exact (Hu 2 (2 ^ 16) eq_refl)|reflexivity|].
    split; [exact (Hu 12 (2 ^ 32) eq_refl)|reflexivity].
  - split; [exact (Hu 5 (2 ^ 16) eq_refl)|exact (Hu 7 (2 ^ 16) eq_refl)|exact (Hu 2 (2 ^ 16) eq_refl)|reflexivity|].
    split; [exact (Hu 0x13 (2 ^ 32) eq_refl)|reflexivity].
  - split; [exact (Hu 5 (2 ^ 16) eq_refl)|exact (Hu 7 (2 ^ 16) eq_refl)|exact (Hu 2 (2 ^ 16) eq_refl)|reflexivity|].
    split; [discriminate|]. split; [reflexivity|]. eexists. split; [reflexivity|].
    cbn [x_specified driver perms]. split; [exact (Hu 2 256 eq_refl)|].
    split; [exact (Hu 0x89 256 eq_refl)|]. split; [reflexivity|]. split; [|by right].
    by apply Forall_u32_check.
Qed.

Lemma sample_exclusive : exclusive (aentries sample_avtab).
Proof. rewrite sample_entries. repeat (constructor || split); reflexivity. Qed.

Lemma avtab_insert_spec_witness :
  avtab_insert sample_avtab (AvtabKey 5 7 2 AVTAB_ALLOWED) (AvtabDatum 4 None) =
    (SEPOL_EEXIST, sample_avtab) /\
  exists h', avtab_insert sample_avtab (AvtabKey 5 7 2 AVTAB_XPERMS_ALLOWED) (AvtabDatum 4 None) =
    (0, h') /\ nel h' = 4.
Proof.
  destruct sample_avtab_wf as [t Hw]. split.
  - refine (proj1 (avtab_insert_spec sample_avtab t _ (AvtabDatum 4 None) Hw) _).
    split; [vm_compute; discriminate|reflexivity].
  - destruct (proj2 (avtab_insert_spec sample_avtab t (AvtabKey 5 7 2 AVTAB_XPERMS_ALLOWED)
      (AvtabDatum 4 None) Hw)) as (h' & E & _ & _ & Hn & _); [by right|].
    exists h'. split; [exact E|]. rewrite Hn. vm_compute. reflexivity.
Defined.

Lemma avtab_search_spec_witness :
  avtab_search sample_avtab (AvtabKey 5 7 2 (Z.lor AVTAB_ALLOWED AVTAB_XPERMS_ALLOWED)) =
    Some (AvtabDatum 0x13 None) /\
  length (follow 4 (Z.lor AVTAB_ALLOWED AVTAB_XPERMS_ALLOWED) (avtab_search_node sample_avtab
    (AvtabKey 5 7 2 (Z.lor AVTAB_ALLOWED AVTAB_XPERMS_ALLOWED)))) = 2%nat.
Proof.
  destruct sample_avtab_wf as [t Hw].
  destruct (avtab_search_spec sample_avtab t
    (AvtabKey 5 7 2 (Z.lor AVTAB_ALLOWED AVTAB_XPERMS_ALLOWED)) Hw) as [H1 H2].
  split.
  - rewrite H1. vm_compute. reflexivity.
  - change 4%nat with (S (length (aentries sample_avtab))). cbn [specified] in H2. rewrite H2.
    vm_compute. reflexivity.
Defined.

Lemma avtab_insert_nonunique_spec_witness :
  exists h', avtab_insert_nonunique sample_avtab (AvtabKey 5 7 2 AVTAB_ALLOWED) (AvtabDatum 4 None) =
    (Some (new_node (AvtabKey 5 7 2 AVTAB_ALLOWED) (AvtabDatum 4 None)), h') /\ nel h' = 4.
Proof.
  destruct sample_avtab_wf as [t Hw].
  destruct (avtab_insert_nonunique_spec sample_avtab t (AvtabKey 5 7 2 AVTAB_ALLOWED)
    (AvtabDatum 4 None) Hw) as (h' & E & _ & _ & Hn & _).
  exists h'. split; [exact E|]. rewrite Hn. vm_compute. reflexivity.
Defined.

Lemma avtab_alloc_spec_witness :
  exists h' t, avtab_alloc (Avtab None 0 0 0) 100 = (0, h') /\ awf h' t /\ 25 < nslot h' <= 50.
Proof.
  destruct (avtab_alloc_spec (Avtab None 0 0 0) 100) as (h' & t & E & Hw & _ & _ & _ & _ & Hs); [lia|].
  exists h', t. split; [exact E|]. split; [exact Hw|].
  destruct (Hs ltac:(lia)) as [H1 [H2|H2]]; [lia|]. unfold MAX_AVTAB_HASH_BUCKETS in H2. lia.
Defined.

Lemma avtab_read_write_witness :
  exists img, avtab_write 30 true false sample_avtab (PolicyFile PF_USE_MEMORY [] 100) =
      Some (0, PolicyFile PF_USE_MEMORY img (100 - blen img)) /\
    exists h', avtab_read false [] (Avtab None 0 0 0) (img ++ [1; 2]) 30 = Some (0, false, [1; 2], h') /\
      (exists t', awf h' t') /\ aentries h' ≡ₚ aentries sample_avtab /\ nel h' = nel sample_avtab.
Proof.
  destruct sample_avtab_wf as [t Hw].
  refine (avtab_read_write 30 sample_avtab t 100 [] (Avtab None 0 0 0) [1; 2] _ Hw sample_writable
    sample_exclusive _ _ _).
  - vm_compute. congruence.
  - vm_compute. reflexivity.
  - vm_compute. split; congruence.
  - vm_compute. congruence.
Defined.

Lemma avtab_read_old_spec_witness :
  avtab_read_item keep_insertf false [] (enc_old 5 7 2 old_v [0x13; 0xff] ++ [9]) 19 [] =
    Some (0, false, [9], [AvtabNode (AvtabKey 5 7 2 AVTAB_ALLOWED) (AvtabDatum 0x13 None);
                          AvtabNode (AvtabKey 5 7 2 AVTAB_AUDITDENY) (AvtabDatum 0xff None)]).
Proof.
  rewrite (avtab_read_old_spec keep_insertf false [] 19 5 7 2 old_v [0x13; 0xff] [9] []).
  - reflexivity.
  - vm_compute. reflexivity.
  - vm_compute. split; congruence.
  - vm_compute. split; congruence.
  - vm_compute. split; congruence.
  - vm_compute. split; congruence.
  - by apply Forall_u32_check.
  - vm_compute. discriminate.
  - reflexivity.
  - vm_compute. split; congruence.
Defined.

Lemma avtab_read_old_overread_witness :
  avtab_read_item keep_insertf false (replicate 8 0)
    (enc_old 5 7 2 (Z.lor AVTAB_AV AVTAB_XPERMS) [1; 2; 3; 4] ++ []) 19 [] = None.
Proof.
  apply (avtab_read_old_overread keep_insertf false (replicate 8 0) 19 5 7 2
    (Z.lor AVTAB_AV AVTAB_XPERMS) [1; 2; 3; 4] [] []).
  - vm_compute. reflexivity.
  - reflexivity.
  - reflexivity.
  - vm_compute. split; congruence.
  - vm_compute. split; congruence.
  - vm_compute. split; congruence.
  - vm_compute. split; congruence.
  - by apply Forall_u32_check.
  - vm_compute. discriminate.
  - vm_compute. reflexivity.
  - vm_compute. split; congruence.
Defined.
