(* ===== verification/Policydb.v ===== *)
(** The symbols of a policy database (policydb.c): declaring a symbol in a
    symbol table and its scope table, and the arrays that index roles and types
    by value.

    The record [policydb] holds what the policy editor of sepol.c reads and
    changes; an index array holds the key of the node it points to. *)
From S2P Require Import Prelude Stdio Ebitmap Hashtab Avtab.

Definition SYM_ROLES := 2.
Definition SYM_TYPES := 3.
Definition SYM_USERS := 4.
Definition SCOPE_REQ := 1.
Definition SCOPE_DECL := 2.
Definition ROLE_ROLE := 0.
Definition TYPE_TYPE := 0.
Definition TYPE_ATTRIB := 1.

Record scope_datum := ScopeDatum { scope : Z; decl_ids : list Z }.

Definition perm_datum := Z.    (* s.value *)

Record common_datum := CommonDatum { com_value : Z; com_permissions : symtab perm_datum }.

Record type_set := TypeSet { ts_types : ebitmap; negset : ebitmap; ts_flags : Z }.

Record constraint_expr := ConstraintExpr {
  e_expr_type : Z; e_attr : Z; e_op : Z; e_names : ebitmap; e_type_names : type_set }.

Record constraint_node := ConstraintNode { c_permissions : Z; c_expr : list constraint_expr }.

Record class_datum := ClassDatum {
  cls_value : Z; comkey : option bytes; comdatum : option common_datum; permissions : symtab perm_datum;
  constraints : list constraint_node; validatetrans : list constraint_node;
  default_user : Z; default_role : Z; default_type : Z; default_range : Z }.

Record role_datum := RoleDatum {
  role_value : Z; dominates : ebitmap; role_types : type_set; role_bounds : Z; role_flavor : Z;
  role_roles : ebitmap }.

Record type_datum := TypeDatum {
  type_value : Z; primary : Z; flavor : Z; type_types : ebitmap; type_flags : Z; bounds : Z }.

Definition type_datum_init : type_datum := TypeDatum 0 0 0 ebitmap_init 0 0.

#[export] Instance scope_datum_eq_dec : EqDecision scope_datum.
Proof. solve_decision. Defined.

(** ** Declaring a symbol *)

(** [add_i_to_a] *)
Definition add_i_to_a (i : Z) (a : list Z) : list Z := a ++ [i].

(** Exchanging the last two elements. *)
Definition swap_last (ids : list Z) : list Z :=
  let len := length ids in
  let tmp := default 0 (ids !! (len - 2)%nat) in
  <[(len - 1)%nat := tmp]> (<[(len - 2)%nat := default 0 (ids !! (len - 1)%nat)]> ids).

Section Symtab.
Context `{CharSign} {D : Type} (flavor_of : D -> Z).

(** Writing through the pointer [hashtab_search] returned. *)
Definition poke {E} (h : option (hashtab bytes E)) (key : bytes) (d : E) : option (hashtab bytes E) :=
  snd (hashtab_replace h key d).

(** The end of [symtab_insert]: the identifier of the block is added to the
    scope unless it is there, before the last one for a declared symbol that is
    required.  [sd] is the scope the pointer leads to. *)
Definition add_decl (retval : Z) (sc : option (hashtab bytes scope_datum)) (key : bytes)
    (sd : scope_datum) (scope_ avrule_decl_id : Z) : Z * option (hashtab bytes scope_datum) :=
  if bool_decide (avrule_decl_id ∈ decl_ids sd) then (retval, poke sc key sd)
  else
    let ids := add_i_to_a avrule_decl_id (decl_ids sd) in
    if (scope sd =? SCOPE_DECL) && (scope_ =? SCOPE_REQ) then
      if (length ids <? 2)%nat then (-1, poke sc key (ScopeDatum (scope sd) ids))
      else (retval, poke sc key (ScopeDatum (scope sd) (swap_last ids)))
    else (retval, poke sc key (ScopeDatum (scope sd) ids)).

(** The status, the value stored through [value], the two tables; [None]: the
    assertion fails.  [value]: the caller passes a pointer. *)
Definition symtab_insert (sym : Z) (st : symtab D) (sc : option (hashtab bytes scope_datum))
    (key : bytes) (datum : D) (scope_ : Z) (avrule_decl_id : Z) (value : bool)
    : option (Z * option Z * symtab D * option (hashtab bytes scope_datum)) :=
  let '(rc, t) := hashtab_insert (table st) key datum in
  let inserted := rc =? SEPOL_OK in
  if negb inserted && negb (rc =? SEPOL_EEXIST) then Some (rc, None, Symtab t (nprim st), sc)
  else
    let st := Symtab t (if inserted && value then u32 (nprim st + 1) else nprim st) in
    let val := if inserted && value then Some (nprim st) else None in
    let retval := if inserted then 0 else 1 in
    let finish (sc : option (hashtab bytes scope_datum)) (sd : scope_datum) :=
      let '(rc, sc) := add_decl retval sc key sd scope_ avrule_decl_id in Some (rc, val, st, sc) in
    match hashtab_search sc key with
    | None =>
        let '(rc, sc) := hashtab_insert sc key (ScopeDatum scope_ []) in
        if negb (rc =? 0) then Some (rc, val, st, sc) else finish sc (ScopeDatum scope_ [])
    | Some sd =>
        if (scope sd =? SCOPE_DECL) && (scope_ =? SCOPE_DECL) then
          if negb (sym =? SYM_ROLES) && negb (sym =? SYM_USERS) then Some (-2, val, st, sc)
          else if sym =? SYM_ROLES then
            base ← hashtab_search (table st) key;
            if negb ((flavor_of base =? ROLE_ROLE) && (flavor_of datum =? ROLE_ROLE))
            then Some (-2, val, st, sc) else finish sc sd
          else finish sc sd
        else if (scope sd =? SCOPE_REQ) && (scope_ =? SCOPE_DECL)
        then finish sc (ScopeDatum SCOPE_DECL (decl_ids sd))
        else finish sc sd
    end.
End Symtab.

(** ** Index arrays *)

Record policydb := Policydb {
  p_classes : symtab class_datum;
  p_roles : symtab role_datum;
  p_types : symtab type_datum;
  p_types_scope : option (hashtab bytes scope_datum);
  te_avtab : avtab;
  permissive_map : ebitmap;
  declared_types : ebitmap;    (* global->branch_list->declared.scope[SYM_TYPES] *)
  type_attr_map : list (option ebitmap);    (* None: not initialised *)
  attr_type_map : list (option ebitmap);
  role_val_to_name : list (option bytes);    (* None: NULL *)
  role_val_to_struct : list (option bytes);
  type_val_to_name : list (option bytes);
  type_val_to_struct : list (option bytes)
}.

(** [val_to_name[value - 1]] and [val_to_struct[value - 1]], refusing a value
    that is out of range or taken. *)
Definition index_entry (nprim : Z) (key : bytes) (value : Z)
    (a : list (option bytes) * list (option bytes)) : Z * (list (option bytes) * list (option bytes)) :=
  let '(names, structs) := a in
  let i := Z.to_nat (value - 1) in
  if (value =? 0) || (nprim <? value) then (- EINVAL, a)
  else match default None (names !! i) with
       | Some _ => (- EINVAL, a)
       | None => (0, (<[i := Some key]> names, <[i := Some key]> structs))
       end.

Definition role_index (nprim : Z) (key : bytes) (role : role_datum)
    (a : list (option bytes) * list (option bytes)) : Z * (list (option bytes) * list (option bytes)) :=
  index_entry nprim key (role_value role) a.

Definition type_index (nprim : Z) (key : bytes) (typdatum : type_datum)
    (a : list (option bytes) * list (option bytes)) : Z * (list (option bytes) * list (option bytes)) :=
  if negb (primary typdatum =? 0) then index_entry nprim key (type_value typdatum) a else (0, a).

Definition calloc (n : Z) : list (option bytes) := replicate (Z.to_nat n) None.

(** One round of the loop over the symbol tables: the status of the function
    if it returns, and the arrays. *)
Definition index_symtab `{CharSign} {D} (index_f : Z -> bytes -> D ->
      list (option bytes) * list (option bytes) -> Z * (list (option bytes) * list (option bytes)))
    (s : symtab D) (structs : list (option bytes)) : Z * (list (option bytes) * list (option bytes)) :=
  if nprim s =? 0 then (0, ([], structs))
  else
    let '(rc, a) := hashtab_map (table s) (index_f (nprim s)) (calloc (nprim s), structs) in
    if negb (rc =? 0) then (-1, a) else (0, a).

(** The part of [policydb_index_others] that concerns roles and types; what
    comes after them does not change what is modelled. *)
Definition policydb_index_others `{CharSign} (p : policydb) : Z * policydb :=
  let set rn rs tn ts := Policydb (p_classes p) (p_roles p) (p_types p) (p_types_scope p) (te_avtab p)
    (permissive_map p) (declared_types p) (type_attr_map p) (attr_type_map p) rn rs tn ts in
  let rs := calloc (nprim (p_roles p)) in
  let ts := calloc (nprim (p_types p)) in
  let '(rc, (rn, rs)) := index_symtab role_index (p_roles p) rs in
  if negb (rc =? 0) then (-1, set rn rs (type_val_to_name p) ts)
  else
    let '(rc, (tn, ts)) := index_symtab type_index (p_types p) ts in
    if negb (rc =? 0) then (-1, set rn rs tn ts) else (0, set rn rs tn ts).

(** ** Vocabulary of the proofs *)

(** The scope after the identifier of a block is added, and the status. *)
Definition spec_add_decl (retval : Z) (sd : scope_datum) (scope_ decl : Z) : Z * scope_datum :=
  if bool_decide (decl ∈ decl_ids sd) then (retval, sd)
  else if (scope sd =? SCOPE_DECL) && (scope_ =? SCOPE_REQ) then
    match last (decl_ids sd) with
    | None => (-1, ScopeDatum (scope sd) [decl])
    | Some d => (retval, ScopeDatum (scope sd) (removelast (decl_ids sd) ++ [decl; d]))
    end
  else (retval, ScopeDatum (scope sd) (decl_ids sd ++ [decl])).

(** Declaring a symbol, on maps: symbols, the number of values, scopes. *)
Definition spec_symtab_insert {D} (flavor_of : D -> Z) (sym : Z) (m : gmap bytes D) (n : Z)
    (s : gmap bytes scope_datum) (key : bytes) (datum : D) (scope_ decl : Z) (value : bool)
    : (Z * option Z) * (gmap bytes D * Z) * gmap bytes scope_datum :=
  let new := bool_decide (m !! key = None) in
  let m' := if new then <[key := datum]> m else m in
  let n' := if new && value then u32 (n + 1) else n in
  let val := if new && value then Some n' else None in
  let known := default (ScopeDatum scope_ []) (s !! key) in
  let second := bool_decide (s !! key <> None) && (scope known =? SCOPE_DECL) && (scope_ =? SCOPE_DECL) in
  let regular := (flavor_of (default datum (m !! key)) =? ROLE_ROLE) && (flavor_of datum =? ROLE_ROLE) in
  if second && negb (if sym =? SYM_ROLES then regular else sym =? SYM_USERS)
  then (-2, val, (m', n'), s)
  else
    let sc := if (scope known =? SCOPE_REQ) && (scope_ =? SCOPE_DECL) then SCOPE_DECL else scope known in
    let '(rc, sd) := spec_add_decl (if new then 0 else 1) (ScopeDatum sc (decl_ids known)) scope_ decl in
    (rc, val, (m', n'), <[key := sd]> s).

(** A symbol table that stands for a map. *)
Definition refines_symtab `{CharSign} {D} (st : symtab D) (m : gmap bytes D) (n : Z) : Prop :=
  refines (table st) m /\ nprim st = n.

(** ** Tables behind their maps *)

Section Refinement.
Context `{CharSign} {D : Type} (flavor_of : D -> Z).
Implicit Types (m : gmap bytes D).

Lemma insert_refines (h : option (hashtab bytes D)) m key d :
  refines h m ->
  hashtab_insert h key d =
    (if bool_decide (m !! key = None) then SEPOL_OK else SEPOL_EEXIST, snd (hashtab_insert h key d)) /\
  refines (snd (hashtab_insert h key d)) (if bool_decide (m !! key = None) then <[key := d]> m else m).
Proof.
  intros (t & -> & Hw & <-). destruct (table_call_ok t (Insert key d) Hw) as (t' & E & Hw' & Hm & _).
  cbn [table_call spec_call] in E, Hm. destruct (hashtab_insert (Some t) key d) as [r h'] eqn:Ei.
  cbn [snd]. destruct (as_map t !! key) eqn:Ek; cbn [fst snd] in E, Hm; injection E as -> ->.
  - rewrite bool_decide_false by done. split; [done|]. by exists t'.
  - rewrite bool_decide_true by done. split; [done|]. by exists t'.
Qed.

Lemma search_refines (h : option (hashtab bytes D)) m key :
  refines h m -> hashtab_search h key = m !! key.
Proof.
  intros (t & -> & Hw & <-). destruct (table_call_ok t (Search key) Hw) as (t' & E & _).
  cbn [table_call spec_call fst] in E. by injection E as E _.
Qed.

Lemma poke_refines (h : option (hashtab bytes D)) m key d :
  refines h m -> refines (poke h key d) (<[key := d]> m).
Proof.
  intros (t & -> & Hw & <-). destruct (table_call_ok t (Replace key d) Hw) as (t' & E & Hw' & Hm & _).
  cbn [table_call spec_call fst snd] in E, Hm. unfold poke.
  destruct (hashtab_replace (Some t) key d) as [[r x] h']. injection E as _ _ ->. by exists t'.
Qed.
End Refinement.

Lemma swap_last_snoc (l : list Z) a x : swap_last (l ++ [a; x]) = l ++ [x; a].
Proof.
  unfold swap_last. rewrite length_app. cbn [length].
  replace (length l + 2 - 2)%nat with (length l + 0)%nat by lia.
  replace (length l + 2 - 1)%nat with (length l + 1)%nat by lia.
  rewrite !lookup_app_r by lia. replace (length l + 0 - length l)%nat with 0%nat by lia.
  replace (length l + 1 - length l)%nat with 1%nat by lia.
  rewrite !insert_app_r. done.
Qed.

(** The scope table after the identifier is added. *)
Lemma add_decl_ok `{CharSign} retval (sc : option (hashtab bytes scope_datum)) s key sd scope_ decl :
  refines sc s ->
  let '(rc, sd') := spec_add_decl retval sd scope_ decl in
  exists sc', add_decl retval sc key sd scope_ decl = (rc, sc') /\ refines sc' (<[key := sd']> s).
Proof.
  intros Hs. unfold spec_add_decl, add_decl, add_i_to_a.
  destruct (bool_decide (decl ∈ decl_ids sd)).
  { eexists. split; [reflexivity|]. by apply poke_refines. }
  destruct ((scope sd =? SCOPE_DECL) && (scope_ =? SCOPE_REQ)).
  2: { eexists. split; [reflexivity|]. by apply poke_refines. }
  destruct sd as [sc0 ids]. cbn [decl_ids scope]. destruct ids as [|d ids _] using rev_ind.
  - eexists. split; [reflexivity|]. by apply poke_refines.
  - rewrite last_snoc, removelast_last, <- app_assoc, length_app. cbn [app length].
    replace (length ids + 2 <? 2)%nat with false by (symmetry; apply Nat.ltb_ge; lia).
    rewrite swap_last_snoc. eexists. split; [reflexivity|]. by apply poke_refines.
Qed.

(** ** Declaring a symbol *)

(** The declaration on the tables is the declaration on the maps. *)
Lemma symtab_insert_ok `{CharSign} {D} (flavor_of : D -> Z) (sym : Z) (st : symtab D) m n
    (sc : option (hashtab bytes scope_datum)) s (key : bytes) (datum : D) (scope_ decl : Z) (value : bool) :
  refines_symtab st m n -> refines sc s ->
  let '(answer, (m', n'), s') := spec_symtab_insert flavor_of sym m n s key datum scope_ decl value in
  exists st' sc', symtab_insert flavor_of sym st sc key datum scope_ decl value =
      Some (answer, st', sc') /\ refines_symtab st' m' n' /\ refines sc' s'.
Proof.
  intros [Hm Hn] Hs. unfold symtab_insert, spec_symtab_insert.
  destruct (insert_refines (table st) m key datum Hm) as [E Ht].
  destruct (hashtab_insert (table st) key datum) as [r t]. cbn [snd] in *. injection E as ->.
  set (new := bool_decide (m !! key = None)) in *.
  replace ((if new then SEPOL_OK else SEPOL_EEXIST) =? SEPOL_OK) with new by (by destruct new).
  replace (negb new && _) with false by (by destruct new). rewrite Hn.
  set (n' := if new && value then u32 (n + 1) else n).
  set (st' := Symtab t n'). change (nprim st') with n'.
  assert (Hst : refines_symtab st' (if new then <[key := datum]> m else m) n') by done.
  rewrite (search_refines sc s key Hs).
  destruct (s !! key) as [sd|] eqn:Es; cbn [default].
  - rewrite bool_decide_true by done. cbn [andb].
    (* The base role. *)
    assert (Hb : hashtab_search (table st') key = Some (default datum (m !! key))).
    { rewrite (search_refines _ _ key (proj1 Hst)). unfold new.
      destruct (m !! key) as [d|] eqn:Em; [by rewrite bool_decide_false|].
      rewrite bool_decide_true by done. by rewrite lookup_insert_eq. }
    rewrite Hb. cbn [option_bind mbind].
    set (regular := (flavor_of _ =? ROLE_ROLE) && _).
    set (val := if new && value then Some n' else None). set (m' := if new then _ else m) in *.
    assert (Hfin : forall sd',
      let '(answer, (m'', n''), s') :=
        let '(rc, sd0) := spec_add_decl (if new then 0 else 1) sd' scope_ decl in
        (rc, val, (m', n'), <[key := sd0]> s) in
      exists st'' sc', (let '(rc, sc) := add_decl (if new then 0 else 1) sc key sd' scope_ decl in
                        Some (rc, val, st', sc)) = Some (answer, st'', sc') /\
        refines_symtab st'' m'' n'' /\ refines sc' s').
    { intros sd'. pose proof (add_decl_ok (if new then 0 else 1) sc s key sd' scope_ decl Hs) as Ha.
      destruct (spec_add_decl _ sd' _ _) as [rc sd'']. destruct Ha as (sc' & -> & Ha).
      exists st', sc'. done. }
    change (id sd) with sd. assert (Eeta : sd = ScopeDatum (scope sd) (decl_ids sd)) by (by destruct sd).
    destruct ((scope sd =? SCOPE_DECL) && (scope_ =? SCOPE_DECL)) eqn:Edd; cbn [andb].
    + assert (Er : (scope sd =? SCOPE_REQ) && (scope_ =? SCOPE_DECL) = false)
        by (unfold SCOPE_DECL, SCOPE_REQ in *; lia).
      rewrite Er, <- Eeta. unfold SYM_ROLES, SYM_USERS.
      destruct (Z.eqb_spec sym 2) as [->|_]; [destruct regular|destruct (sym =? 4)];
        cbn [negb andb]; first [exact (Hfin sd)|by exists st', sc].
    + destruct ((scope sd =? SCOPE_REQ) && (scope_ =? SCOPE_DECL)); [apply Hfin|].
      rewrite <- Eeta. apply Hfin.
  - rewrite bool_decide_false by (intros Hc; by apply Hc). cbn [andb scope decl_ids].
    destruct (insert_refines sc s key (ScopeDatum scope_ []) Hs) as [E Hsc].
    destruct (hashtab_insert sc key (ScopeDatum scope_ [])) as [r' sc1].
    rewrite bool_decide_true in E, Hsc by done. cbn [snd] in E, Hsc. injection E as ->.
    cbn [negb Z.eqb SEPOL_OK]. replace (if _ && _ then SCOPE_DECL else scope_) with scope_
      by (unfold SCOPE_DECL, SCOPE_REQ; destruct ((scope_ =? 1) && (scope_ =? 2)) eqn:E; lia).
    pose proof (add_decl_ok (if new then 0 else 1) sc1 _ key (ScopeDatum scope_ []) scope_ decl Hsc) as Ha.
    destruct (spec_add_decl _ _ _ _) as [rc sd]. destruct Ha as (sc' & -> & Ha).
    rewrite insert_insert_eq in Ha. by exists st', sc'.
Qed.

(** The value an index function uses; [None]: the entry is passed over. *)
Definition role_key (r : role_datum) : option Z := Some (role_value r).
Definition type_key (t : type_datum) : option Z :=
  if negb (primary t =? 0) then Some (type_value t) else None.

(** Every value is in range and belongs to one key. *)
Record indexable {D} (val : D -> option Z) (n : Z) (m : gmap bytes D) : Prop := {
  ix_range : forall k d v, m !! k = Some d -> val d = Some v -> 1 <= v <= n;
  ix_inj : forall k k' d d' v, m !! k = Some d -> m !! k' = Some d' ->
    val d = Some v -> val d' = Some v -> k = k'
}.

(** Each entry that has a value is at its place of both arrays. *)
Definition indexed {D} (val : D -> option Z) (n : Z) (m : gmap bytes D)
    (names structs : list (option bytes)) : Prop :=
  (forall k d v, m !! k = Some d -> val d = Some v ->
     names !! Z.to_nat (v - 1) = Some (Some k) /\ structs !! Z.to_nat (v - 1) = Some (Some k)) /\
  length names = Z.to_nat n /\ length structs = Z.to_nat n.

(** ** Index arrays *)

Section Index.
Context `{CharSign} {D : Type} (val : D -> option Z) (n : Z)
  (f : bytes -> D -> list (option bytes) * list (option bytes) ->
       Z * (list (option bytes) * list (option bytes))).
Hypothesis f_spec : forall k d a,
  f k d a = match val d with Some v => index_entry n k v a | None => (0, a) end.

Lemma index_int k d a : - 2 ^ 31 <= fst (f k d a) < 2 ^ 31.
Proof.
  rewrite f_spec. destruct (val d); [|cbn; lia]. unfold index_entry, EINVAL. destruct a as [names structs].
  destruct (_ || _); [cbn; lia|]. destruct (default None _); cbn; lia.
Qed.

Lemma visit_index (l : list (bytes * D)) names structs :
  length names = length structs -> NoDup l.*1 ->
  (forall k d v, (k, d) ∈ l -> val d = Some v -> 1 <= v <= n /\ names !! Z.to_nat (v - 1) = Some None) ->
  (forall k k' d d' v, (k, d) ∈ l -> (k', d') ∈ l -> val d = Some v -> val d' = Some v -> k = k') ->
  exists names' structs', visit f l (names, structs) = (0, (names', structs')) /\
    length names' = length names /\ length structs' = length structs /\
    (forall k d v, (k, d) ∈ l -> val d = Some v ->
       names' !! Z.to_nat (v - 1) = Some (Some k) /\ structs' !! Z.to_nat (v - 1) = Some (Some k)) /\
    (forall i, (forall k d v, (k, d) ∈ l -> val d = Some v -> Z.to_nat (v - 1) <> i) ->
       names' !! i = names !! i /\ structs' !! i = structs !! i).
Proof.
  revert names structs. induction l as [|[k d] l IH]; intros names structs Hlen Hnd Hfree Hinj.
  { exists names, structs. split; [done|]. split; [done|]. split; [done|].
    split; [intros k d v Hk; by apply elem_of_nil in Hk|done]. }
  apply NoDup_cons in Hnd as [Hk Hnd]. cbn [visit]. rewrite f_spec.
  assert (Hinj' : forall k k' d d' v, (k, d) ∈ l -> (k', d') ∈ l -> val d = Some v -> val d' = Some v -> k = k').
  { intros k1 k2 d1 d2 v H1 H2. apply Hinj; by right. }
  destruct (val d) as [v|] eqn:Ev.
  - destruct (Hfree k d v ltac:(by left) Ev) as [Hv Hn].
    unfold index_entry. replace ((v =? 0) || (n <? v)) with false by lia. rewrite Hn.
    cbn [default Z.eqb]. change (default None (Some (@None bytes))) with (@None bytes). cbn iota beta zeta.
    set (i := Z.to_nat (v - 1)) in *. pose proof (lookup_lt_Some _ _ _ Hn) as Hi.
    assert (Hne : forall k' d' v', (k', d') ∈ l -> val d' = Some v' -> Z.to_nat (v' - 1) <> i).
    { intros k' d' v' Hin Ev' E. destruct (Hfree k' d' v' ltac:(by right) Ev') as [Hv' _].
      assert (v' = v) as -> by (unfold i in E; lia). apply Hk.
      rewrite (Hinj k k' d d' v ltac:(by left) ltac:(by right) Ev Ev').
      apply list_elem_of_fmap. by exists (k', d'). }
    destruct (IH (<[i := Some k]> names) (<[i := Some k]> structs)) as
      (names' & structs' & E & L1 & L2 & Hin & Hout); [by rewrite !length_insert|done| |done|].
    { intros k' d' v' Hin Ev'. destruct (Hfree k' d' v' ltac:(by right) Ev') as [Hv' Hn'].
      split; [done|]. rewrite list_lookup_insert_ne; [done|]. intros E. by apply (Hne k' d' v' Hin Ev'). }
    exists names', structs'. rewrite length_insert in L1, L2. split; [exact E|].
    split; [exact L1|]. split; [exact L2|]. split.
    + intros k' d' v' [E'|Hin']%elem_of_cons Ev'; [|by apply (Hin k' d')].
      injection E' as -> ->. rewrite Ev in Ev'. injection Ev' as <-. fold i.
      destruct (Hout i Hne) as [-> ->]. rewrite !list_lookup_insert_eq by lia. done.
    + intros j Hj. destruct (Hout j) as [-> ->].
      { intros k' d' v' Hin' Ev'. apply (Hj k' d' v'); [by right|done]. }
      rewrite !list_lookup_insert_ne by (apply (Hj k d v); [by left|done]). done.
  - destruct (IH names structs Hlen Hnd) as (names' & structs' & E & L1 & L2 & Hin & Hout);
      [intros k' d' v' Hin; apply (Hfree k' d' v'); by right|done|].
    exists names', structs'. split; [exact E|]. split; [done|]. split; [done|]. split.
    + intros k' d' v' [E'|Hin']%elem_of_cons Ev'; [|by apply (Hin k' d')].
      injection E' as -> ->. by rewrite Ev in Ev'.
    + intros j Hj. apply Hout. intros k' d' v' Hin' Ev'. apply (Hj k' d' v'); [by right|done].
Qed.

(** Indexing a table fills both arrays. *)
Lemma map_index (h : option (hashtab bytes D)) m :
  refines h m -> indexable val n m -> 0 <= n ->
  exists names structs, hashtab_map h f (calloc n, calloc n) = (0, (names, structs)) /\
    indexed val n m names structs.
Proof.
  intros (t & -> & Hw & <-) Hix Hn. rewrite (map_visits t f) by apply index_int.
  assert (Hin : forall k d, (k, d) ∈ entries t <-> as_map t !! k = Some d).
  { intros k d. rewrite (entries_map t Hw). apply elem_of_map_to_list. }
  destruct (visit_index (entries t) (calloc n) (calloc n)) as (names & structs & E & L1 & L2 & H1 & _).
  - done.
  - by apply entries_NoDup.
  - intros k d v Hk Hv. apply Hin in Hk. pose proof (ix_range val n _ Hix k d v Hk Hv) as Hr.
    split; [done|]. unfold calloc. apply lookup_replicate_2. lia.
  - intros k k' d d' v Hk Hk'. apply Hin in Hk, Hk'. by apply (ix_inj val n _ Hix).
  - exists names, structs. split; [exact E|]. split.
    + intros k d v Hk. apply (H1 k d v). by apply Hin.
    + unfold calloc in *. by rewrite length_replicate in L1, L2.
Qed.
End Index.

(** ** Tables made from nothing *)

Section Made.
Context `{CharSign}.

Lemma create_refines {D} sz : 0 < sz < 2 ^ 31 -> refines (hashtab_create (K := bytes) (D := D) sz) ∅.
Proof. intros Hsz. destruct (table_create_wf (K := bytes) (D := D) sz Hsz) as (h & -> & Hw & Hm & _). by exists h. Qed.

Lemma insert_new {D} (h : option (hashtab bytes D)) m k d :
  refines h m -> m !! k = None -> refines (snd (hashtab_insert h k d)) (<[k := d]> m).
Proof.
  intros Hr Hk. destruct (insert_refines h m k d Hr) as [_ Hi].
  by rewrite bool_decide_true in Hi.
Qed.
End Made.

(** ** Properties *)

(** C36. Refinement: [symtab_insert] on a symbol table and a scope table is the
    declaration of a symbol on the maps they stand for, on every branch: a new
    symbol gets the next value, a known one is left and reported by 1, a second
    declaration is refused with -2 except for users and for regular roles, a
    requirement becomes a declaration, the identifier of the block is recorded
    once, and before the last one when a declared symbol is required.  The
    assertion on the base role never fails. *)
Theorem symtab_insert_refines `{CharSign} {D} (flavor_of : D -> Z) (sym : Z) (st : symtab D) m n
    (sc : option (hashtab bytes scope_datum)) s (key : bytes) (datum : D) (scope_ decl : Z) (value : bool) :
  refines_symtab st m n -> refines sc s ->
  let '(answer, (m', n'), s') := spec_symtab_insert flavor_of sym m n s key datum scope_ decl value in
  exists st' sc', symtab_insert flavor_of sym st sc key datum scope_ decl value =
      Some (answer, st', sc') /\ refines_symtab st' m' n' /\ refines sc' s'.
Proof. exact (symtab_insert_ok flavor_of sym st m n sc s key datum scope_ decl value). Qed.

#[local] Instance signed_char : CharSign := true.

Lemma symtab_insert_refines_witness :
  let init := TypeDatum 1 1 TYPE_TYPE ebitmap_init 0 0 in
  let shell := TypeDatum 0 1 TYPE_TYPE ebitmap_init 0 0 in
  let m := <[str "init" := init]> (∅ : gmap bytes type_datum) in
  let s := <[str "init" := ScopeDatum SCOPE_DECL [1]]> (∅ : gmap bytes scope_datum) in
  let st := Symtab (snd (hashtab_insert (hashtab_create 4) (str "init") init)) 1 in
  let sc := snd (hashtab_insert (hashtab_create 4) (str "init") (ScopeDatum SCOPE_DECL [1])) in
  (exists st' sc', symtab_insert flavor SYM_TYPES st sc (str "shell") shell SCOPE_DECL 1 true =
      Some ((0, Some 2), st', sc') /\
    refines_symtab st' (<[str "shell" := shell]> m) 2 /\
    refines sc' (<[str "shell" := ScopeDatum SCOPE_DECL [1]]> s)) /\
  (exists st' sc', symtab_insert flavor SYM_TYPES st sc (str "init") init SCOPE_REQ 2 false =
      Some ((1, None), st', sc') /\ refines_symtab st' m 1 /\
    refines sc' (<[str "init" := ScopeDatum SCOPE_DECL [2; 1]]> s)).
Proof.
  intros init shell m s st sc.
  assert (Hst : refines_symtab st m 1)
    by (split; [apply insert_new; [by apply create_refines|done]|done]).
  assert (Hsc : refines sc s) by (apply insert_new; [by apply create_refines|done]).
  split.
  - exact (symtab_insert_refines flavor SYM_TYPES st m 1 sc s (str "shell") shell SCOPE_DECL 1 true Hst Hsc).
  - exact (symtab_insert_refines flavor SYM_TYPES st m 1 sc s (str "init") init SCOPE_REQ 2 false Hst Hsc).
Defined.
