(* ===== verification/Sepol.v ===== *)
(** The policy editor (sepol.c): parsing a statement, allowing and disallowing a
    permission, creating a domain, making a domain permissive, and loading and
    storing the policy.

    Reading and writing policy images is an interface ([PolicyImage]): the
    statements do not depend on it. *)
From S2P Require Import Prelude Stdio Posix Util Ebitmap Hashtab Avtab Policydb.
From S2P Require Boot.

Definition BXXT_SUCCESS := 0.
Definition BXXT_FAILED := -25.

(** [policydb_from_image] and [policydb_to_image] (policydb_public.c), and the
    database [policydb_init] makes.  [None]: the call fails and stores nothing. *)
Class PolicyImage := {
  policydb_init : policydb;
  policydb_from_image : bytes -> policydb -> Z * policydb;
  policydb_to_image : policydb -> option bytes
}.

Section Sepol.
Context `{CharSign}.

(** ** Writing through pointers into the database *)

Definition with_avtab (p : policydb) (a : avtab) : policydb :=
  Policydb (p_classes p) (p_roles p) (p_types p) (p_types_scope p) a (permissive_map p)
    (declared_types p) (type_attr_map p) (attr_type_map p) (role_val_to_name p)
    (role_val_to_struct p) (type_val_to_name p) (type_val_to_struct p).

Definition with_permissive (p : policydb) (e : ebitmap) : policydb :=
  Policydb (p_classes p) (p_roles p) (p_types p) (p_types_scope p) (te_avtab p) e
    (declared_types p) (type_attr_map p) (attr_type_map p) (role_val_to_name p)
    (role_val_to_struct p) (type_val_to_name p) (type_val_to_struct p).

Definition with_types (p : policydb) (st : symtab type_datum) (sc : option (hashtab bytes scope_datum)) : policydb :=
  Policydb (p_classes p) (p_roles p) st sc (te_avtab p) (permissive_map p)
    (declared_types p) (type_attr_map p) (attr_type_map p) (role_val_to_name p)
    (role_val_to_struct p) (type_val_to_name p) (type_val_to_struct p).

Definition with_maps (p : policydb) (declared : ebitmap) (tam atm : list (option ebitmap)) : policydb :=
  Policydb (p_classes p) (p_roles p) (p_types p) (p_types_scope p) (te_avtab p) (permissive_map p)
    declared tam atm (role_val_to_name p) (role_val_to_struct p) (type_val_to_name p) (type_val_to_struct p).

Definition with_roles (p : policydb) (st : symtab role_datum) : policydb :=
  Policydb (p_classes p) st (p_types p) (p_types_scope p) (te_avtab p) (permissive_map p)
    (declared_types p) (type_attr_map p) (attr_type_map p) (role_val_to_name p)
    (role_val_to_struct p) (type_val_to_name p) (type_val_to_struct p).

(** ** Rules *)

(** The mask of a permission name; [None]: a shift by 32 or more.  The inner
    [None] is a permission the class does not have. *)
Definition perm_mask (c : class_datum) (perm : bytes) : option (option Z) :=
  if match perm with b :: _ => b =? 42 | [] => false end then Some (Some (2 ^ 32 - 1))
  else
    let p := hashtab_search (table (permissions c)) perm in
    let p := match p, comdatum c with
             | None, Some com => hashtab_search (table (com_permissions com)) perm
             | _, _ => p end in
    match p with
    | None => Some None
    | Some v => let sh := u32 (v - 1) in if sh <? 32 then Some (Some (Z.shiftl 1 sh)) else None
    end.

(** [junk] is what [malloc] returned for the datum of a new rule.  [None]: the
    program writes through a NULL pointer or shifts too far. *)
Definition bxxt_sepol_allow_ext (junk : avtab_datum) (p : policydb) (src tgt cls perm : bytes)
    (disallow : bool) : option (Z * policydb) :=
  match hashtab_search (table (p_classes p)) cls, hashtab_search (table (p_types p)) src,
        hashtab_search (table (p_types p)) tgt with
  | Some c, Some s, Some t =>
      m ← perm_mask c perm;
      match m with
      | None => Some (BXXT_FAILED, p)
      | Some mask =>
          let k := AvtabKey (u16 (type_value s)) (u16 (type_value t)) (u16 (cls_value c)) AVTAB_ALLOWED in
          let '(r, a) :=
            match avtab_search (te_avtab p) k with
            | None => avtab_insert (te_avtab p) k junk
            | Some _ => (0, te_avtab p)
            end in
          if negb (r =? 0) then Some (BXXT_FAILED, with_avtab p a)
          else
            _ ← avtab_search a k;
            let f d := AvtabDatum (if disallow then Z.land (data d) (u32 (Z.lnot mask))
                                   else Z.lor (data d) mask) (xperms d) in
            Some (BXXT_SUCCESS, with_avtab p (avtab_poke a k f))
      end
  | _, _, _ => Some (BXXT_FAILED, p)
  end.

(** ** Domains *)

(** [array[i] = x]; [None] past the end. *)
Definition store {A} (l : list A) (i : Z) (x : A) : option (list A) :=
  if (0 <=? i) && (i <? blen l) then Some (<[Z.to_nat i := x]> l) else None.

Definition realloc_map (n : Z) (l : list (option ebitmap)) : list (option ebitmap) :=
  take (Z.to_nat n) l ++ replicate (Z.to_nat n - length l) None.

(** The loop over the roles. *)
Fixpoint role_loop (n : nat) (i : nat) (structs : list (option bytes)) (bit : Z)
    (st : symtab role_datum) : option (symtab role_datum) :=
  match n with
  | O => Some st
  | S n =>
      name ← mjoin (structs !! i);
      role ← hashtab_search (table st) name;
      let ts := role_types role in
      let ts := TypeSet (snd (ebitmap_set_bit (ts_types ts) bit true))
                        (snd (ebitmap_set_bit (negset ts) bit false)) (ts_flags ts) in
      let role := RoleDatum (role_value role) (dominates role) ts (role_bounds role) (role_flavor role)
                    (role_roles role) in
      role_loop n (S i) structs bit (Symtab (poke (table st) name role) (nprim st))
  end.

(** The end of the function: an attribute is linked with the new value. *)
Definition link_attribute (p : policydb) (attr : type_datum) (value : Z) : option policydb :=
  if negb (flavor attr =? TYPE_ATTRIB) then Some p
  else
    e ← mjoin (type_attr_map p !! Z.to_nat (value - 1));
    let '(r, e) := ebitmap_set_bit e (u32 (type_value attr - 1)) true in
    tam ← store (type_attr_map p) (value - 1) (Some e);
    let p := with_maps p (declared_types p) tam (attr_type_map p) in
    if negb (r =? 0) then Some p
    else
      e ← mjoin (attr_type_map p !! Z.to_nat (u32 (type_value attr - 1)));
      let '(_, e) := ebitmap_set_bit e (value - 1) true in
      atm ← store (attr_type_map p) (u32 (type_value attr - 1)) (Some e);
      Some (with_maps p (declared_types p) (type_attr_map p) atm).

(** The value of the domain, made if it is not there, as an [int]. *)
Definition bxxt_sepol_create_domain (p : policydb) (domain : bytes) : option (Z * policydb) :=
  match hashtab_search (table (p_types p)) domain with
  | Some sd => Some (s32 (type_value sd), p)
  | None =>
      let td := TypeDatum 0 1 TYPE_TYPE ebitmap_init 0 0 in
      '(r, val, st, sc) ← symtab_insert flavor SYM_TYPES (p_types p) (p_types_scope p) domain td SCOPE_DECL 1 true;
      if negb (r =? 0) then Some (BXXT_FAILED, with_types p st sc)
      else
        let value := default 0 val in
        let td := TypeDatum value 1 TYPE_TYPE ebitmap_init 0 0 in
        let p := with_types p (Symtab (poke (table st) domain td) (nprim st)) sc in
        let '(r, declared) := ebitmap_set_bit (declared_types p) (u32 (value - 1)) true in
        let p := with_maps p declared (type_attr_map p) (attr_type_map p) in
        if negb (r =? 0) then Some (BXXT_FAILED, p)
        else
          let i := u32 (value - 1) in
          tam ← store (realloc_map (nprim (p_types p)) (type_attr_map p)) i
                  (Some (snd (ebitmap_set_bit ebitmap_init i true)));
          atm ← store (realloc_map (nprim (p_types p)) (attr_type_map p)) i (Some ebitmap_init);
          let p := with_maps p declared tam atm in
          roles ← role_loop (Z.to_nat (nprim (p_roles p))) 0 (role_val_to_struct p) i (p_roles p);
          let p := with_roles p roles in
          match hashtab_search (table (p_types p)) domain with
          | None => Some (BXXT_FAILED, p)
          | Some _ =>
              let '(_, p) := policydb_index_others p in
              match hashtab_search (table (p_types p)) domain with
              | None => Some (BXXT_FAILED, p)
              | Some attr => p ← link_attribute p attr value; Some (s32 value, p)
              end
          end
  end.

Definition bxxt_sepol_set_permissive (p : policydb) (domain : bytes) (permissive : bool)
    : option (Z * policydb) :=
  '(v, p) ← match hashtab_search (table (p_types p)) domain with
            | Some sd => Some (type_value sd, p)
            | None => bxxt_sepol_create_domain p domain
            end;
  let '(r, e) := ebitmap_set_bit (permissive_map p) (u32 v) permissive in
  Some (r, with_permissive p e).

(** ** Statements *)

(** [sscanf] into arrays of 256 bytes; [None]: a name does not fit. *)
Definition scan_names (stmt fmt : bytes) : option (Z * list bytes) :=
  '(n, vs) ← sscanf stmt fmt;
  let names := map (fun v => match v with SStr s => s | SInt _ => [] end) vs in
  if forallb (fun s => blen s <? 256) names then Some (n, names) else None.

Definition fmt_allow : bytes :=
  str "allow %[1-9,a-z,_,-] %[1-9,a-z,_,-]:%[1-9,a-z,_,-] %[1-9,a-z,_,-,*];".
Definition fmt_disallow : bytes :=
  str "disallow %[1-9,a-z,_,-] %[1-9,a-z,_,-]:%[1-9,a-z,_,-] %[1-9,a-z,_,-,*];".
Definition fmt_permissive : bytes := str "permissive %[1-9,a-z,_,-];".
Definition fmt_enforce : bytes := str "enforce %[1-9,a-z,_,-];".
Definition fmt_create : bytes := str "create %[1-9,a-z,_,-];".

(** The arrays after a [sscanf] that returned 4, or 1. *)
Definition four (r : Z * list bytes) : option (bytes * bytes * bytes * bytes) :=
  match r.2 with [a; b; c; d] => if r.1 =? 4 then Some (a, b, c, d) else None | _ => None end.
Definition one (r : Z * list bytes) : option bytes :=
  match r.2 with [a] => if r.1 =? 1 then Some a else None | _ => None end.

Definition bxxt_sepol_execute_stmt (junk : avtab_datum) (p : policydb) (stmt : bytes)
    : option (Z * policydb) :=
  r ← scan_names stmt fmt_allow;
  match four r with
  | Some (src, tgt, cls, perm) => bxxt_sepol_allow_ext junk p src tgt cls perm false
  | None =>
  r ← scan_names stmt fmt_disallow;
  match four r with
  | Some (src, tgt, cls, perm) => bxxt_sepol_allow_ext junk p src tgt cls perm true
  | None =>
  r ← scan_names stmt fmt_permissive;
  match one r with
  | Some src => bxxt_sepol_set_permissive p src true
  | None =>
  r ← scan_names stmt fmt_enforce;
  match one r with
  | Some src => bxxt_sepol_set_permissive p src false
  | None =>
  r ← scan_names stmt fmt_create;
  match one r with
  | Some src =>
      '(r, p) ← bxxt_sepol_create_domain p src;
      Some (if r <? 0 then 1 else 0, p)
  | None => Some (-1, p)
  end end end end end.

(** ** Loading and storing *)

Section Images.
Context `{PolicyImage}.

Definition bxxt_sepol_load_policy_file (p : policydb) (file : path) : M (Z * policydb) :=
  F ← lift (bxxt_file_new_mm file O_RDONLY Boot.MODE_0644);
  '(r, F) ← bxxt_file_open F;
  if negb (r =? 0) then
    _ ← bxxt_file_close (Some F);
    mret (BXXT_FAILED, p)
  else
    m ← lift (match f_ptr F with MMapped m => Some m | _ => None end);
    d ← lift (mread m 0 (f_size F));
    let '(r, p) := policydb_from_image d p in
    _ ← bxxt_file_close (Some F);
    mret (if negb (r =? 0) then BXXT_FAILED else BXXT_SUCCESS, p).

(** The count [write] returns is ignored; the size is returned as an [int]. *)
Definition bxxt_sepol_save_policy_file (p : policydb) (file : path) : M Z :=
  match policydb_to_image p with
  | None => mret BXXT_FAILED
  | Some image =>
      F ← lift (bxxt_file_new file (Z.lor O_RDWR O_CREAT) Boot.MODE_0644);
      '(r, F) ← bxxt_file_open F;
      if negb (r =? 0) then
        _ ← bxxt_file_close (Some F);
        mret BXXT_FAILED
      else
        _ ← write (f_fd F) image;
        _ ← bxxt_file_close (Some F);
        mret (s32 (blen image))
  end.

Definition selinux_load : path := str "/sys/fs/selinux/load".
Definition selinux_policy : path := str "/sys/fs/selinux/policy".

(** When there is no image, [data] is NULL and [datalen] is 0. *)
Definition bxxt_sepol_reload_kernel_policy (p : policydb) : M Z :=
  let image := default [] (policydb_to_image p) in
  F ← lift (bxxt_file_new selinux_load O_WRONLY 384);
  '(r, F) ← bxxt_file_open F;
  if negb (r =? 0) then
    _ ← bxxt_file_close (Some F);
    mret BXXT_FAILED
  else
    n ← write (f_fd F) image;
    _ ← bxxt_file_close (Some F);
    mret (if u64 n =? blen image then BXXT_SUCCESS else BXXT_FAILED).

(** The status of loading is ignored here and in the two entry points below. *)
Definition bxxt_sepol_reload_kernel_policy_from_file (file : path) : M unit :=
  '(_, p) ← bxxt_sepol_load_policy_file policydb_init file;
  _ ← bxxt_sepol_reload_kernel_policy p;
  mret tt.

(** [sepol_main] after its options: the [i], [o] and [s] arguments, and [l]. *)
Definition sepol_run (junk : avtab_datum) (input output : path) (stmt : bytes) (reload : bool) : M Z :=
  '(_, p) ← bxxt_sepol_load_policy_file policydb_init input;
  '(_, p) ← lift (bxxt_sepol_execute_stmt junk p stmt);
  _ ← (if negb (blen output =? 0) then bxxt_sepol_save_policy_file p output else mret 0);
  _ ← (if reload then bxxt_sepol_reload_kernel_policy p else mret 0);
  mret 0.

(** The options of [getopt(argc, argv, "s:i:o:l")], copied in turn into arrays
    of PATH_MAX and 4096 bytes. *)
Inductive sepol_option := OptI (arg : bytes) | OptO (arg : bytes) | OptS (arg : bytes) | OptL | OptOther.

Fixpoint sepol_options (opts : list sepol_option) (input output stmt : bytes) (reload : bool)
    : option (bytes * bytes * bytes * bool) :=
  match opts with
  | [] => Some (input, output, stmt, reload)
  | OptI a :: opts => if blen a <? PATH_MAX then sepol_options opts a output stmt reload else None
  | OptO a :: opts => if blen a <? PATH_MAX then sepol_options opts input a stmt reload else None
  | OptS a :: opts => if blen a <? 4096 then sepol_options opts input output a reload else None
  | OptL :: opts => sepol_options opts input output stmt true
  | OptOther :: opts => sepol_options opts input output stmt reload
  end.

Definition sepol_main (junk : avtab_datum) (opts : list sepol_option) : M Z :=
  '(input, output, stmt, reload) ← lift (sepol_options opts selinux_policy [] [] false);
  sepol_run junk input output stmt reload.

Definition sepol_rtexec (junk : avtab_datum) (stmt : bytes) : M Z :=
  '(_, p) ← bxxt_sepol_load_policy_file policydb_init selinux_policy;
  '(r, p) ← lift (bxxt_sepol_execute_stmt junk p stmt);
  if negb (r =? 0) then mret BXXT_FAILED
  else
    _ ← bxxt_sepol_reload_kernel_policy p;
    mret BXXT_SUCCESS.
End Images.
End Sepol.

(** ** Vocabulary of the proofs *)

(** The characters of the scan sets [[1-9,a-z,_,-]] and [[1-9,a-z,_,-,*]]: zero
    and capitals are in neither, the minus only in the first. *)
Definition name_char (c : Z) : bool :=
  ((49 <=? c) && (c <=? 57)) || ((97 <=? c) && (c <=? 122)) || (c =? 95) || (c =? 44) || (c =? 45).
Definition perm_char (c : Z) : bool :=
  ((49 <=? c) && (c <=? 57)) || ((97 <=? c) && (c <=? 122)) || (c =? 95) || (c =? 44) || (c =? 42).

(** A name of a scan set that fits the arrays. *)
Definition name_of (p : Z -> bool) (s : bytes) : Prop :=
  s <> [] /\ Forall (fun c => p c = true) s /\ blen s < 256.

(** The text after a name: it does not go on with a character of the set. *)
Definition stops (p : Z -> bool) (rest : bytes) : Prop :=
  match rest with [] => True | c :: _ => p c = false end.

Definition rule_text (verb src tgt cls perm rest : bytes) : bytes :=
  verb ++ str " " ++ src ++ str " " ++ tgt ++ str ":" ++ cls ++ str " " ++ perm ++ rest.
Definition domain_text (verb domain rest : bytes) : bytes := verb ++ str " " ++ domain ++ rest.

Definition char_range (a b : Z) : bytes := map (fun k => a + Z.of_nat k) (seq 0 (Z.to_nat (b - a + 1))).
Definition name_set : bytes :=
  [49] ++ char_range 49 57 ++ [44; 97] ++ char_range 97 122 ++ [44; 95; 44; 45].
Definition perm_set : bytes :=
  [49] ++ char_range 49 57 ++ [44; 97] ++ char_range 97 122 ++ [44; 95; 44] ++ char_range 44 44 ++ [42].

Definition rule_directives (verb : bytes) : list directive :=
  map DLit verb ++ [DSpace; DSet false name_set; DSpace; DSet false name_set; DLit 58;
                    DSet false name_set; DSpace; DSet false perm_set; DLit 59].
Definition domain_directives (verb : bytes) : list directive :=
  map DLit verb ++ [DSpace; DSet false name_set; DLit 59].

(** The key of the rule that allows a type a permission of a class. *)
Definition rule_key (s t : type_datum) (c : class_datum) : avtab_key :=
  AvtabKey (u16 (type_value s)) (u16 (type_value t)) (u16 (cls_value c)) AVTAB_ALLOWED.

(** Does a search for [k'] look at the rules of [k], an allow rule? *)
Definition concerns (k' k : avtab_key) : bool :=
  same k' k && Avtab.bits (strip_enabled (specified k')) AVTAB_ALLOWED.

Definition allow_datum (m : Z) (disallow : bool) (d : avtab_datum) : avtab_datum :=
  AvtabDatum (if disallow then Z.land (data d) (u32 (Z.lnot m)) else Z.lor (data d) m) (xperms d).

Definition one_kinds (h : avtab) : Prop :=
  Forall (fun n => one_kind (specified (key n)) = true) (aentries h).

(** A role after a type is added to those it may have. *)
Definition authorise (bit : Z) (r : role_datum) : role_datum :=
  RoleDatum (role_value r) (dominates r)
    (TypeSet (snd (ebitmap_set_bit (ts_types (role_types r)) bit true))
       (snd (ebitmap_set_bit (negset (role_types r)) bit false)) (ts_flags (role_types r)))
    (role_bounds r) (role_flavor r) (role_roles r).

(** A database whose tables stand for the maps [mt], [ms] and [mr], with room
    for another type, distinct values and the roles indexed by value. *)
Record good_policy `{CharSign} (p : policydb) (mt : gmap bytes type_datum)
    (ms : gmap bytes scope_datum) (mr : gmap bytes role_datum) : Prop := {
  gp_types : refines_symtab (p_types p) mt (nprim (p_types p));
  gp_scope : refines (p_types_scope p) ms;
  gp_roles : refines_symtab (p_roles p) mr (nprim (p_roles p));
  gp_type_ix : indexable type_key (nprim (p_types p)) mt;
  gp_role_ix : indexable role_key (nprim (p_roles p)) mr;
  gp_room : 0 <= nprim (p_types p) < 2 ^ 31 - 1;
  gp_nroles : 0 <= nprim (p_roles p);
  gp_structs : forall i, (i < Z.to_nat (nprim (p_roles p)))%nat -> exists k r,
    role_val_to_struct p !! i = Some (Some k) /\ mr !! k = Some r /\ role_value r = Z.of_nat i + 1;
  gp_bitmaps : forall k r, mr !! k = Some r ->
    Ebitmap.wf (ts_types (role_types r)) /\ Ebitmap.wf (negset (role_types r));
  gp_declared : Ebitmap.wf (declared_types p)
}.

Definition new_type (v : Z) : type_datum := TypeDatum v 1 TYPE_TYPE ebitmap_init 0 0.

#[local] Instance signed_char : CharSign := true.

Definition init_type := TypeDatum 1 1 TYPE_TYPE ebitmap_init 0 0.
Definition shell_type := TypeDatum 2 1 TYPE_TYPE ebitmap_init 0 0.
Definition object_role := RoleDatum 1 ebitmap_init (TypeSet ebitmap_init ebitmap_init 0) 0 ROLE_ROLE ebitmap_init.

(** Tables built by insertion, in order. *)
Definition build {D} (sz : Z) (l : list (bytes * D)) : option (hashtab bytes D) :=
  fold_left (fun h x => snd (hashtab_insert h x.1 x.2)) l (hashtab_create sz).

Definition sample_file_class : class_datum :=
  ClassDatum 3 (Some (str "rw")) (Some (CommonDatum 1 (Symtab (build 8 [(str "read", 2); (str "write", 3)]) 2)))
    (Symtab (build 8 [(str "execute", 5)]) 1) [] [] 0 0 0 0.

Definition zero_datum : avtab_datum := AvtabDatum 0 None.

Definition sample_policy : policydb :=
  Policydb (Symtab (build 8 [(str "file", sample_file_class)]) 3)
    (Symtab (build 8 [(str "object_r", object_role)]) 1)
    (Symtab (build 16 [(str "init", init_type); (str "shell", shell_type)]) 2)
    (build 16 [(str "init", ScopeDatum SCOPE_DECL [1]); (str "shell", ScopeDatum SCOPE_DECL [1])])
    sample_avtab ebitmap_init ebitmap_init [None; None] [None; None]
    [Some (str "object_r")] [Some (str "object_r")]
    [Some (str "init"); Some (str "shell")] [Some (str "init"); Some (str "shell")].

Definition sample_mt : gmap bytes type_datum := <[str "shell" := shell_type]> (<[str "init" := init_type]> ∅).
Definition sample_ms : gmap bytes scope_datum :=
  <[str "shell" := ScopeDatum SCOPE_DECL [1]]> (<[str "init" := ScopeDatum SCOPE_DECL [1]]> ∅).
Definition sample_mr : gmap bytes role_datum := <[str "object_r" := object_role]> ∅.

(** ** Statements *)

Lemma formats :
  parse_format (S (length fmt_allow)) fmt_allow = Some (rule_directives (str "allow")) /\
  parse_format (S (length fmt_disallow)) fmt_disallow = Some (rule_directives (str "disallow")) /\
  parse_format (S (length fmt_permissive)) fmt_permissive = Some (domain_directives (str "permissive")) /\
  parse_format (S (length fmt_enforce)) fmt_enforce = Some (domain_directives (str "enforce")) /\
  parse_format (S (length fmt_create)) fmt_create = Some (domain_directives (str "create")).
Proof. vm_compute. repeat split. Qed.

Lemma in_set_bytes (set : bytes) (p : Z -> bool) c :
  forallb (fun c => (0 <=? c) && (c <? 256)) set = true ->
  forallb (fun c => eqb (bool_decide (c ∈ set)) (p c)) (seqZ 0 256) = true ->
  (p c = true -> 0 <= c < 256) ->
  in_set false set c = p c.
Proof.
  rewrite !forallb_forall. intros Hs Hp Hr. unfold in_set. rewrite xorb_false_l.
  destruct (decide (0 <= c < 256)) as [Hc|Hc].
  - specialize (Hp c ltac:(apply list_elem_of_In, elem_of_seqZ; lia)). by apply eqb_prop.
  - destruct (p c); [exfalso; auto|]. apply bool_decide_eq_false. intros Hin%list_elem_of_In.
    specialize (Hs c Hin). lia.
Qed.

Lemma name_set_char c : in_set false name_set c = name_char c.
Proof.
  apply in_set_bytes; [vm_compute; reflexivity..|]. unfold name_char. lia.
Qed.

Lemma perm_set_char c : in_set false perm_set c = perm_char c.
Proof.
  apply in_set_bytes; [vm_compute; reflexivity..|]. unfold perm_char. lia.
Qed.

Lemma span_stops p q a rest :
  (forall c, p c = q c) -> Forall (fun c => q c = true) a -> stops q rest -> span p (a ++ rest) = (a, rest).
Proof.
  intros Hpq Ha Hr. assert (Ha' : Forall (fun c => p c = true) a).
  { eapply Forall_impl; [exact Ha|]. intros c. by rewrite Hpq. }
  destruct rest as [|c rest]; [rewrite app_nil_r; by apply span_end|].
  apply span_all; [exact Ha'|]. by rewrite Hpq.
Qed.

Lemma name_not_space p a rest :
  name_of p a -> (forall c, p c = true -> isspace c = false) -> skip_space (32 :: a ++ rest) = a ++ rest.
Proof.
  intros (Hne & Ha & _) Hp. destruct a as [|c a]; [done|]. apply Forall_cons in Ha as [Hc _].
  cbn [app skip_space isspace Z.eqb Pos.eqb orb]. by rewrite (Hp c Hc).
Qed.

Lemma name_char_space c : name_char c = true -> isspace c = false.
Proof. unfold name_char, isspace. lia. Qed.
Lemma perm_char_space c : perm_char c = true -> isspace c = false.
Proof. unfold perm_char, isspace. lia. Qed.

(** A conversion of a name after white space. *)
Lemma scan_name p set a rest ds acc :
  name_of p a -> (forall c, in_set false set c = p c) -> (forall c, p c = true -> isspace c = false) ->
  stops p rest ->
  scan (DSpace :: DSet false set :: ds) (32 :: a ++ rest) acc = scan ds rest (acc ++ [SStr a]).
Proof.
  intros Ha Hp Hs Hr. cbn [scan]. rewrite (name_not_space p) by done.
  rewrite (span_stops _ p a rest Hp (proj1 (proj2 Ha)) Hr). by destruct a; [destruct Ha|].
Qed.

Lemma scan_name_here p set a rest ds acc :
  name_of p a -> (forall c, in_set false set c = p c) -> stops p rest ->
  scan (DSet false set :: ds) (a ++ rest) acc = scan ds rest (acc ++ [SStr a]).
Proof.
  intros Ha Hp Hr. cbn [scan]. rewrite (span_stops _ p a rest Hp (proj1 (proj2 Ha)) Hr).
  by destruct a; [destruct Ha|].
Qed.

(** A last literal converts nothing. *)
Lemma scan_last_literal c s acc : fst (scan [DLit c] s acc) = acc.
Proof. destruct s as [|b s]; [done|]. cbn. by destruct (b =? c). Qed.

Lemma scan_rule verb src tgt cls perm rest :
  name_of name_char src -> name_of name_char tgt -> name_of name_char cls -> name_of perm_char perm ->
  stops perm_char rest ->
  fst (scan (rule_directives verb) (rule_text verb src tgt cls perm rest) []) =
    [SStr src; SStr tgt; SStr cls; SStr perm].
Proof.
  intros H1 H2 H3 H4 Hr. unfold rule_directives, rule_text. rewrite scan_lits.
  change (str " ") with [32]. change (str ":") with [58]. cbn [app].
  rewrite (scan_name name_char); [|done|exact name_set_char|exact name_char_space|done].
  rewrite (scan_name name_char); [|done|exact name_set_char|exact name_char_space|done].
  cbn [scan Z.eqb Pos.eqb].
  change (fst (scan (DSet false name_set :: [DSpace; DSet false perm_set; DLit 59])
    (cls ++ 32 :: perm ++ rest) [SStr src; SStr tgt]) = [SStr src; SStr tgt; SStr cls; SStr perm]).
  rewrite (scan_name_here name_char); [|done|exact name_set_char|done].
  rewrite (scan_name perm_char); [|done|exact perm_set_char|exact perm_char_space|done].
  apply scan_last_literal.
Qed.

Lemma scan_domain verb domain rest :
  name_of name_char domain -> stops name_char rest ->
  fst (scan (domain_directives verb) (domain_text verb domain rest) []) = [SStr domain].
Proof.
  intros H1 Hr. unfold domain_directives, domain_text. rewrite scan_lits. cbn [app].
  change (str " " ++ domain ++ rest) with (32 :: domain ++ rest).
  rewrite (scan_name name_char); [|done|exact name_set_char|exact name_char_space|done].
  apply scan_last_literal.
Qed.

(** Another verb: nothing is converted. *)
Lemma scan_other verb verb' ds s :
  mismatch verb verb' = true -> fst (scan (map DLit verb ++ ds) (verb' ++ s) []) = [].
Proof.
  revert verb'. induction verb as [|c verb IH]; intros [|b verb'] Hm; cbn in Hm |- *; try done.
  rewrite Z.eqb_sym in Hm. destruct (b =? c); [by apply IH|done].
Qed.

Lemma scan_names_done stmt fmt ds vs :
  parse_format (S (length fmt)) fmt = Some ds -> fst (scan ds stmt []) = map SStr vs -> vs <> [] ->
  Forall (fun s => blen s < 256) vs -> scan_names stmt fmt = Some (blen vs, vs).
Proof.
  intros Hf Hs Hne Hl. unfold scan_names, sscanf. rewrite Hf. cbn [option_bind mbind].
  destruct (scan ds stmt []) as [vs' eof]. cbn [fst] in Hs. subst vs'.
  assert (E : blen (map SStr vs) = blen vs) by (unfold blen; by rewrite length_map).
  rewrite E. replace (blen vs =? 0) with false by (destruct vs; [done|rewrite blen_cons; pose proof (blen_nonneg vs); lia]).
  cbn [andb option_bind mbind]. rewrite map_map, map_id.
  replace (forallb _ vs) with true; [done|]. symmetry. apply forallb_forall.
  intros x Hx%list_elem_of_In. rewrite Forall_forall in Hl. specialize (Hl x Hx). lia.
Qed.

Lemma scan_names_none stmt fmt ds :
  parse_format (S (length fmt)) fmt = Some ds -> fst (scan ds stmt []) = [] ->
  exists n, scan_names stmt fmt = Some (n, []).
Proof.
  intros Hf Hs. unfold scan_names, sscanf. rewrite Hf. cbn [option_bind mbind].
  destruct (scan ds stmt []) as [vs' eof]. cbn [fst] in Hs. subst vs'. by eexists.
Qed.

(** ** The rule a permission is in *)

(** Where an insertion puts its node. *)
Lemma avtab_insert_place h t k d h' :
  awf h t -> avtab_insert h k d = (0, h') ->
  exists l1 l2, aentries h = l1 ++ l2 /\ aentries h' = l1 ++ new_node k d :: l2.
Proof.
  intros Hw. unfold avtab_insert. rewrite (awf_table h t Hw).
  pose proof (insert_walk_spec k (strip_enabled (specified k)) _ (awf_slot_sorted h t k Hw)) as Hi.
  destruct (insert_walk k _ _) as [[p q]|]; [|intros [=]].
  destruct Hi as (Ec & _). intros [= <-]. pose proof (awf_slot h t k Hw) as Hl.
  destruct (concat_place t _ _ (p ++ new_node k d :: q) Hl) as [E1 E2]. rewrite Ec in E1.
  exists (concat (take (Z.to_nat (avtab_hash k (mask h))) t) ++ p),
    (q ++ concat (drop (S (Z.to_nat (avtab_hash k (mask h)))) t)).
  unfold aentries at 1. rewrite (awf_table h t Hw). change (default [] (Some t)) with t.
  rewrite E1. split; [by rewrite <- !app_assoc|]. unfold aentries, avtab_insert_node.
  cbn [Avtab.htable].
  match goal with |- context [default [] (Some ?x)] => change (default [] (Some x)) with x end.
  rewrite E2. by rewrite <- !app_assoc.
Qed.

Lemma search_hits h t k :
  awf h t -> avtab_search h k = datum <$> head (hits k (strip_enabled (specified k)) (aentries h)).
Proof.
  intros Hw. unfold avtab_search. rewrite (awf_table h t Hw). cbn [option_bind mbind].
  pose proof (search_node_ok h t k (strip_enabled (specified k)) Hw) as Hs.
  destruct (search_chain k _ _) as [r|]; [|by rewrite Hs].
  by destruct Hs as (n & q & -> & _ & _ & ->).
Qed.

(** ** Allowing *)

(** An allow rule is found by its kind alone, whether it is enabled or not. *)
Lemma one_kind_allowed s x :
  one_kind s = true -> Avtab.bits (strip_enabled AVTAB_ALLOWED) s = true ->
  Avtab.bits (strip_enabled x) s = Avtab.bits (strip_enabled x) AVTAB_ALLOWED.
Proof.
  intros Hs%one_kind_in Hb. assert (E : s = 1 \/ s = 0x8001).
  { set (kinds := spec_order ++ map (Z.lor AVTAB_ENABLED) spec_order) in *.
    assert (Hall : forallb (fun s => negb (Avtab.bits (strip_enabled AVTAB_ALLOWED) s)
        || (s =? 1) || (s =? 0x8001)) kinds = true) by (vm_compute; reflexivity).
    rewrite forallb_forall in Hall. specialize (Hall s ltac:(by apply list_elem_of_In)).
    rewrite Hb in Hall. cbn [negb orb] in Hall. lia. }
  destruct E as [-> | ->]; [done|]. unfold Avtab.bits, strip_enabled.
  by rewrite <- !Z.land_assoc.
Qed.

Lemma not_concerned k' k n :
  one_kind (specified (key n)) = true -> specified k = AVTAB_ALLOWED ->
  hit k (strip_enabled (specified k)) n = true -> concerns k' k = false ->
  hit k' (strip_enabled (specified k')) n = false.
Proof.
  intros Ho Ek Hn Hc. unfold hit, concerns in *. rewrite Ek in Hn. apply andb_prop in Hn as [Hs Hb].
  rewrite (one_kind_allowed _ _ Ho Hb).
  assert (E : same k' (key n) = same k' k).
  { rewrite (same_sym k' (key n)), (same_sym k' k). exact (same_trans k (key n) k' Hs). }
  by rewrite E.
Qed.

Lemma hits_skip k spec l1 n l2 : hit k spec n = false -> Avtab.hits k spec (l1 ++ n :: l2) = Avtab.hits k spec (l1 ++ l2).
Proof. intros Hn. by rewrite !hits_app, hits_cons, Hn. Qed.

(** Changing the datum of an allow rule that is there. *)
Lemma allow_there h t k f d :
  awf h t -> one_kinds h -> specified k = AVTAB_ALLOWED -> avtab_search h k = Some d ->
  (exists t', awf (avtab_poke h k f) t') /\ one_kinds (avtab_poke h k f) /\
  avtab_search (avtab_poke h k f) k = Some (f d) /\
  forall k', concerns k' k = false -> avtab_search (avtab_poke h k f) k' = avtab_search h k'.
Proof.
  intros Hw Ho Ek Hs.
  destruct (avtab_poke_ok h t k f Hw) as (l1 & n & l2 & E & Hl1 & Hn & (t' & Hw') & E' & _);
    [by rewrite Hs|].
  assert (Hk : one_kind (specified (key n)) = true).
  { unfold one_kinds in Ho. rewrite E in Ho. apply Forall_app in Ho as [_ Ho].
    by apply Forall_cons in Ho as [Ho _]. }
  assert (Hn' : hit k (strip_enabled (specified k)) (AvtabNode (key n) (f (datum n))) = true) by exact Hn.
  split; [by exists t'|]. split; [|split].
  - unfold one_kinds in *. rewrite E in Ho. rewrite E'. apply Forall_app in Ho as [H1 H2].
    apply Forall_cons in H2 as [_ H2]. apply Forall_app. split; [done|]. by constructor.
  - rewrite (search_hits _ t' k Hw'), E', hits_head by done.
    rewrite (search_hits h t k Hw), E, hits_head in Hs by done. cbn in Hs |- *. by injection Hs as ->.
  - intros k' Hc. pose proof (not_concerned k' k n Hk Ek Hn Hc) as Hno.
    rewrite (search_hits _ t' k' Hw'), (search_hits h t k' Hw), E, E', !hits_skip; done.
Qed.

(** Adding an allow rule that is not there. *)
Lemma allow_new h t k d :
  awf h t -> one_kinds h -> specified k = AVTAB_ALLOWED -> avtab_search h k = None ->
  exists h', avtab_insert h k d = (0, h') /\ (exists t', awf h' t') /\ one_kinds h' /\
    avtab_search h' k = Some d /\
    forall k', concerns k' k = false -> avtab_search h' k' = avtab_search h k'.
Proof.
  intros Hw Ho Ek Hs. rewrite (search_hits h t k Hw) in Hs.
  assert (Hh : hits k (strip_enabled (specified k)) (aentries h) = []) by (by destruct (hits _ _ _)).
  pose proof (insert_ok h t k d Hw) as Hi. cbv zeta in Hi. rewrite bool_decide_true in Hi by done.
  cbn [negb andb] in Hi. destruct Hi as (h' & E & (t' & Hw') & Hp & _).
  destruct (avtab_insert_place h t k d h' Hw E) as (l1 & l2 & E1 & E2).
  assert (En : new_node k d = AvtabNode k d) by (unfold new_node; by rewrite Ek).
  rewrite En in *. exists h'. split; [exact E|]. split; [by exists t'|]. split; [|split].
  - unfold one_kinds in *. rewrite Hp. constructor; [|done]. cbn [key]. rewrite Ek. vm_compute. reflexivity.
  - rewrite (search_hits h' t' k Hw'), E2, hits_head; [done| |].
    + unfold hit. cbn [key]. by rewrite same_refl, Ek.
    + rewrite E1, hits_app in Hh. by apply app_eq_nil in Hh as [Hh _].
  - intros k' Hc. rewrite (search_hits h' t' k' Hw'), (search_hits h t k' Hw), E1, E2, hits_skip; [done|].
    unfold hit. cbn [key]. by rewrite Ek.
Qed.

(** ** Domains *)

Section Domains.
Context `{CharSign}.

(** The loop authorises the roles one by one. *)
Lemma role_loop_ok (n i : nat) (structs : list (option bytes)) (bit : Z) (st : symtab role_datum)
    (mr : gmap bytes role_datum) (N : Z) :
  refines (table st)
    ((fun r => if role_value r <=? Z.of_nat i then authorise bit r else r) <$> mr) ->
  indexable role_key N mr -> Z.of_nat (i + n) = N ->
  (forall j, (i <= j < i + n)%nat -> exists k r,
     structs !! j = Some (Some k) /\ mr !! k = Some r /\ role_value r = Z.of_nat j + 1) ->
  exists st', role_loop n i structs bit st = Some st' /\ nprim st' = nprim st /\
    refines (table st') (authorise bit <$> mr).
Proof.
  revert i st. induction n as [|n IH]; intros i st Hr Hix HN Hs.
  - exists st. split; [done|]. split; [done|].
    replace (authorise bit <$> mr) with
      ((fun r => if role_value r <=? Z.of_nat i then authorise bit r else r) <$> mr); [done|].
    apply map_fmap_ext. intros k r Hk. pose proof (ix_range _ _ _ Hix k r _ Hk eq_refl).
    by replace (role_value r <=? Z.of_nat i) with true by lia.
  - destruct (Hs i ltac:(lia)) as (k & r & Hi & Hk & Hv). cbn [role_loop]. rewrite Hi.
    cbn [mjoin option_join option_bind mbind]. rewrite (search_refines _ _ k Hr), lookup_fmap, Hk.
    cbn [fmap option_fmap option_map option_bind mbind].
    replace (role_value r <=? Z.of_nat i) with false by lia.
    change (RoleDatum (role_value r) (dominates r) _ (role_bounds r) (role_flavor r) (role_roles r)) with (authorise bit r).
    destruct (IH (S i) (Symtab (poke (table st) k (authorise bit r)) (nprim st))) as (st' & E & Hn & Hr').
    + cbn [table]. replace (_ <$> mr) with (<[k := authorise bit r]>
        ((fun r => if role_value r <=? Z.of_nat i then authorise bit r else r) <$> mr)).
      { by apply poke_refines. }
      apply map_eq. intros k'. rewrite lookup_fmap. destruct (decide (k' = k)) as [->|Hne].
      * rewrite lookup_insert_eq, Hk. cbn [fmap option_fmap option_map].
        by rewrite (proj2 (Z.leb_le (role_value r) (Z.of_nat (S i))) ltac:(lia)).
      * rewrite lookup_insert_ne, lookup_fmap by done. destruct (mr !! k') as [r'|] eqn:Hk'; [|done].
        cbn [fmap option_fmap option_map]. assert (role_value r' <> role_value r).
        { intros E. apply Hne. symmetry. apply (ix_inj _ _ _ Hix k k' r r' (role_value r) Hk Hk'); [done|].
          unfold role_key. by rewrite E. }
        destruct (Z.leb_spec (role_value r') (Z.of_nat i)), (Z.leb_spec (role_value r') (Z.of_nat (S i)));
          done || lia.
    + done.
    + lia.
    + intros j Hj. apply Hs. lia.
    + by exists st'.
Qed.

Lemma role_index_spec n k (r : role_datum) a :
  role_index n k r a = match role_key r with Some v => index_entry n k v a | None => (0, a) end.
Proof. done. Qed.

Lemma type_index_spec n k (t : type_datum) a :
  type_index n k t a = match type_key t with Some v => index_entry n k v a | None => (0, a) end.
Proof. unfold type_index, type_key. by destruct (negb _). Qed.

Lemma index_symtab_ok {D} (val : D -> option Z) f (s : symtab D) m :
  (forall n k d a, f n k d a = match val d with Some v => index_entry n k v a | None => (0, a) end) ->
  refines (table s) m -> indexable val (nprim s) m -> 0 <= nprim s ->
  exists names structs, index_symtab f s (calloc (nprim s)) = (0, (names, structs)) /\
    indexed val (nprim s) m names structs.
Proof.
  intros Hf Hr Hix Hn. unfold index_symtab.
  destruct (map_index val (nprim s) (f (nprim s)) (Hf (nprim s)) (table s) m Hr Hix Hn) as (names & structs & E & Hi).
  destruct (Z.eqb_spec (nprim s) 0) as [Hz|Hz].
  - exists [], (calloc (nprim s)). split; [done|]. rewrite Hz in *. split; [|done].
    intros k d v Hk Hv. pose proof (ix_range _ _ _ Hix k d v Hk Hv). lia.
  - rewrite E. by exists names, structs.
Qed.

(** The arrays after [policydb_index_others]. *)
Lemma index_others_ok (p : policydb) mt mr :
  refines (table (p_types p)) mt -> refines (table (p_roles p)) mr ->
  indexable type_key (nprim (p_types p)) mt -> indexable role_key (nprim (p_roles p)) mr ->
  0 <= nprim (p_types p) -> 0 <= nprim (p_roles p) ->
  exists rn rs tn ts, policydb_index_others p =
      (0, Policydb (p_classes p) (p_roles p) (p_types p) (p_types_scope p) (te_avtab p) (permissive_map p)
            (declared_types p) (type_attr_map p) (attr_type_map p) rn rs tn ts) /\
    indexed role_key (nprim (p_roles p)) mr rn rs /\ indexed type_key (nprim (p_types p)) mt tn ts.
Proof.
  intros Ht Hr Hti Hri Hnt Hnr. unfold policydb_index_others.
  destruct (index_symtab_ok role_key role_index (p_roles p) mr role_index_spec Hr Hri Hnr) as (rn & rs & -> & H1).
  destruct (index_symtab_ok type_key type_index (p_types p) mt type_index_spec Ht Hti Hnt) as (tn & ts & -> & H2).
  by exists rn, rs, tn, ts.
Qed.

Lemma realloc_length n (l : list (option ebitmap)) : length (realloc_map n l) = Z.to_nat n.
Proof. unfold realloc_map. rewrite length_app, length_take, length_replicate. lia. Qed.

Lemma store_ok {A} (l : list A) i x :
  0 <= i < blen l -> store l i x = Some (<[Z.to_nat i := x]> l).
Proof. intros Hi. unfold store. by replace ((0 <=? i) && (i <? blen l)) with true by lia. Qed.
End Domains.

(** ** Properties *)

Section Properties.
Context `{CharSign}.

(** The permissions of a class: its own and those it shares, at most 32 values. *)
Definition class_permissions (c : class_datum) (mc : gmap bytes perm_datum) (mcom : option (gmap bytes perm_datum)) : Prop :=
  refines (table (permissions c)) mc /\ map_Forall (fun _ v => 1 <= v <= 32) mc /\
  match comdatum c, mcom with
  | None, None => True
  | Some com, Some m => refines (table (com_permissions com)) m /\ map_Forall (fun _ v => 1 <= v <= 32) m
  | _, _ => False
  end.

(** The value of a permission: the class's own comes first. *)
Definition permission_value (mc : gmap bytes perm_datum) (mcom : option (gmap bytes perm_datum)) (perm : bytes) : option Z :=
  match mc !! perm with
  | Some v => Some v
  | None => m ← mcom; m !! perm
  end.

(** The bits a name stands for. *)
Definition named_bits (mc : gmap bytes perm_datum) (mcom : option (gmap bytes perm_datum)) (perm : bytes) : option (Z -> bool) :=
  if bool_decide (head perm = Some 42) then Some (fun _ => true)
  else v ← permission_value mc mcom perm; Some (fun i => i =? v - 1).

(** The mask of a permission has the bits its name stands for. *)
Lemma perm_mask_ok c perm mc mcom : class_permissions c mc mcom ->
  match named_bits mc mcom perm with
  | None => perm_mask c perm = Some None
  | Some named => exists m, perm_mask c perm = Some (Some m) /\
      forall i, 0 <= i < 32 -> Z.testbit m i = named i
  end.
Proof.
  intros (Hmc & Hv & Hcom). unfold named_bits, perm_mask, permission_value.
  assert (match perm with b :: _ => b =? 42 | [] => false end = bool_decide (head perm = Some 42)) as ->.
  { destruct perm as [|b perm]; [done|]. cbn [head]. destruct (Z.eqb_spec b 42) as [->|Hne]; [done|].
    symmetry. apply bool_decide_eq_false. congruence. }
  case_bool_decide as Estar.
  { eexists. split; [done|]. intros i Hi.
    change (2 ^ 32 - 1) with (Z.ones 32). by apply Z.ones_spec_low. }
  rewrite (search_refines _ _ perm Hmc).
  assert (match mc !! perm, comdatum c with
          | None, Some com => hashtab_search (table (com_permissions com)) perm
          | _, _ => mc !! perm end = match mc !! perm with Some v => Some v | None => m ← mcom; m !! perm end /\
    forall v, match mc !! perm with Some v => Some v | None => m ← mcom; m !! perm end = Some v -> 1 <= v <= 32)
    as [-> Hrange].
  { destruct (mc !! perm) as [v|] eqn:E; [split; [done|]; intros v' [= <-]; by apply (Hv perm)|].
    destruct (comdatum c) as [com|], mcom as [m|]; try done. destruct Hcom as [Hm Hvm]. cbn [mbind option_bind].
    split; [by apply search_refines|]. apply (Hvm perm). }
  destruct (match mc !! perm with Some v => Some v | None => m ← mcom; m !! perm end) as [v|]; [|done].
  specialize (Hrange v eq_refl). cbn [mbind option_bind]. rewrite u32_small by (unfold is_u32; lia).
  destruct (Z.ltb_spec (v - 1) 32); [|lia]. eexists. split; [done|]. intros i Hi. rewrite Z.shiftl_1_l.
  destruct (Z.eqb_spec i (v - 1)) as [->|]; [by apply Z.pow2_bits_true; lia|by apply Z.pow2_bits_false; lia].
Qed.

Lemma allow_datum_bit m disallow d named i : (forall i, 0 <= i < 32 -> Z.testbit m i = named i) -> 0 <= i < 32 ->
  Z.testbit (data (allow_datum m disallow d)) i = if named i then negb disallow else Z.testbit (data d) i.
Proof.
  intros Hm Hi. rewrite <- Hm by done. unfold allow_datum. cbn [data]. destruct disallow.
  - rewrite Z.land_spec, u32_bit, Z.lnot_spec by lia. replace (i <? 32) with true by lia.
    destruct (Z.testbit m i), (Z.testbit (data d) i); done.
  - rewrite Z.lor_spec. destruct (Z.testbit m i), (Z.testbit (data d) i); done.
Qed.

(** C33. Allowing a permission.  For a class with the permissions [mc], which may
    share those of [mcom], two types and a permission name,
    [bxxt_sepol_allow_ext] does to the allow rule of the three what the name says:
    a name of the class, or one of the shared permissions that the class does not
    have itself, stands for the bit below its value; a name that begins with a star
    for all bits; any other name is refused and the database stays as it is.  The
    call succeeds, the rule table stays well formed, the named bits are set (to
    disallow, cleared), and nothing changes that a search for another key finds.
    The other bits are those of the rule that was there; of a new rule, they are
    what [malloc] returned ([junk]), not zero. *)
Theorem sepol_allow_spec (junk : avtab_datum) (p : policydb) (src tgt cls perm : bytes) (disallow : bool)
    c s t mc mcom tab :
  hashtab_search (table (p_classes p)) cls = Some c ->
  hashtab_search (table (p_types p)) src = Some s ->
  hashtab_search (table (p_types p)) tgt = Some t ->
  class_permissions c mc mcom ->
  awf (te_avtab p) tab -> one_kinds (te_avtab p) ->
  let k := rule_key s t c in
  let old := default junk (avtab_search (te_avtab p) k) in
  match named_bits mc mcom perm with
  | None => bxxt_sepol_allow_ext junk p src tgt cls perm disallow = Some (BXXT_FAILED, p)
  | Some named =>
      exists a new, bxxt_sepol_allow_ext junk p src tgt cls perm disallow = Some (BXXT_SUCCESS, with_avtab p a) /\
        (exists tab', awf a tab') /\ one_kinds a /\ avtab_search a k = Some new /\
        (forall i, 0 <= i < 32 ->
           Z.testbit (data new) i = if named i then negb disallow else Z.testbit (data old) i) /\
        xperms new = xperms old /\
        forall k', concerns k' k = false -> avtab_search a k' = avtab_search (te_avtab p) k'
  end.
Proof.
  intros Hc Hs Ht Hcp Hw Ho k old. pose proof (perm_mask_ok c perm mc mcom Hcp) as Hm.
  unfold bxxt_sepol_allow_ext. rewrite Hc, Hs, Ht. destruct (named_bits mc mcom perm) as [named|]; [|by rewrite Hm].
  destruct Hm as (m & -> & Hbits). cbn [option_bind mbind]. change (AvtabKey _ _ _ AVTAB_ALLOWED) with k.
  change (fun d => AvtabDatum (if disallow then _ else _) (xperms d)) with (allow_datum m disallow).
  assert (forall d i, 0 <= i < 32 -> Z.testbit (data (allow_datum m disallow d)) i =
    if named i then negb disallow else Z.testbit (data d) i) as Hd by (intros; by apply allow_datum_bit).
  unfold old. destruct (avtab_search (te_avtab p) k) as [d|] eqn:E.
  - cbn [Z.eqb negb]. rewrite E. cbn [option_bind mbind].
    destruct (allow_there (te_avtab p) tab k (allow_datum m disallow) d Hw Ho eq_refl E) as (H1 & H2 & H3 & H4).
    eexists _, _. split; [reflexivity|]. split_and!; [done|done|exact H3|by apply Hd|done|done].
  - destruct (allow_new (te_avtab p) tab k junk Hw Ho eq_refl E) as (h' & -> & (t' & Hw') & Ho' & E' & H4).
    cbn [Z.eqb negb]. rewrite E'. cbn [option_bind mbind].
    destruct (allow_there h' t' k (allow_datum m disallow) junk Hw' Ho' eq_refl E') as (H1 & H2 & H3 & H5).
    eexists _, _. split; [reflexivity|]. split_and!; [exact H1|exact H2|exact H3|by apply Hd|done|].
    intros k' Hk. by rewrite H5, H4.
Qed.

(** Statements: a rule statement whose names are made of the characters of
    the scan sets runs [bxxt_sepol_allow_ext] on them, and a domain statement
    runs its operation on the domain, whatever follows the last name.  As zero
    and capitals are not in the sets, they end a name: [create app_10] creates
    [app_1], with success. *)
Theorem sepol_execute_stmt_spec (junk : avtab_datum) (p : policydb) (src tgt cls perm rest : bytes) :
  name_of name_char src -> name_of name_char tgt -> name_of name_char cls -> name_of perm_char perm ->
  (stops perm_char rest ->
   bxxt_sepol_execute_stmt junk p (rule_text (str "allow") src tgt cls perm rest) =
     bxxt_sepol_allow_ext junk p src tgt cls perm false /\
   bxxt_sepol_execute_stmt junk p (rule_text (str "disallow") src tgt cls perm rest) =
     bxxt_sepol_allow_ext junk p src tgt cls perm true) /\
  (stops name_char rest ->
   bxxt_sepol_execute_stmt junk p (domain_text (str "permissive") src rest) =
     bxxt_sepol_set_permissive p src true /\
   bxxt_sepol_execute_stmt junk p (domain_text (str "enforce") src rest) =
     bxxt_sepol_set_permissive p src false /\
   bxxt_sepol_execute_stmt junk p (domain_text (str "create") src rest) =
     '(r, p) ← bxxt_sepol_create_domain p src; Some (if r <? 0 then 1 else 0, p)).
Proof.
  intros H1 H2 H3 H4. destruct formats as (F1 & F2 & F3 & F4 & F5).
  assert (L : Forall (fun s => blen s < 256) [src; tgt; cls; perm])
    by (repeat constructor; by match goal with Hn : name_of _ ?s |- blen ?s < _ => apply Hn end).
  assert (L1 : Forall (fun s => blen s < 256) [src]) by (constructor; [apply H1|constructor]).
  unfold bxxt_sepol_execute_stmt. split; intros Hr.
  - split.
    + rewrite (scan_names_done _ fmt_allow _ [src; tgt; cls; perm] F1 (scan_rule _ _ _ _ _ _ H1 H2 H3 H4 Hr)) by done. done.
    + destruct (scan_names_none (rule_text (str "disallow") src tgt cls perm rest) fmt_allow _ F1) as [n ->];
        [by apply scan_other|].
      rewrite (scan_names_done _ fmt_disallow _ [src; tgt; cls; perm] F2 (scan_rule _ _ _ _ _ _ H1 H2 H3 H4 Hr)) by done. done.
  - assert (Hno : forall verb fmt v ds, parse_format (S (length fmt)) fmt = Some (map DLit v ++ ds) ->
      mismatch v verb = true -> exists n, scan_names (domain_text verb src rest) fmt = Some (n, [])).
    { intros verb fmt v ds Hf Hm. apply (scan_names_none _ _ _ Hf). by apply scan_other. }
    split; [|split].
    + destruct (Hno (str "permissive") _ _ _ F1 eq_refl) as [n1 ->].
      destruct (Hno (str "permissive") _ _ _ F2 eq_refl) as [n2 ->].
      rewrite (scan_names_done _ fmt_permissive _ [src] F3 (scan_domain _ _ _ H1 Hr)) by done. done.
    + destruct (Hno (str "enforce") _ _ _ F1 eq_refl) as [n1 ->].
      destruct (Hno (str "enforce") _ _ _ F2 eq_refl) as [n2 ->].
      destruct (Hno (str "enforce") _ _ _ F3 eq_refl) as [n3 ->].
      rewrite (scan_names_done _ fmt_enforce _ [src] F4 (scan_domain _ _ _ H1 Hr)) by done. done.
    + destruct (Hno (str "create") _ _ _ F1 eq_refl) as [n1 ->].
      destruct (Hno (str "create") _ _ _ F2 eq_refl) as [n2 ->].
      destruct (Hno (str "create") _ _ _ F3 eq_refl) as [n3 ->].
      destruct (Hno (str "create") _ _ _ F4 eq_refl) as [n4 ->].
      rewrite (scan_names_done _ fmt_create _ [src] F5 (scan_domain _ _ _ H1 Hr)) by done. done.
Qed.
End Properties.

(** ** A new domain *)

Section NewDomain.
Context `{CharSign}.

Lemma set_bit_fst e b v : Ebitmap.wf e -> 0 <= b < 2 ^ 32 - 64 ->
  fst (ebitmap_set_bit e b v) = 0 /\ Ebitmap.wf (snd (ebitmap_set_bit e b v)) /\
  forall i, Ebitmap.bits (snd (ebitmap_set_bit e b v)) i = if i =? b then v else Ebitmap.bits e i.
Proof. intros Hw Hb. destruct (set_bit_wf e b v Hw Hb) as (e' & -> & H1 & H2). done. Qed.

Lemma declare_new (st : symtab type_datum) mt n (sc : option (hashtab bytes scope_datum)) ms domain td :
  refines_symtab st mt n -> refines sc ms -> mt !! domain = None -> ms !! domain = None ->
  0 <= n < 2 ^ 32 - 1 ->
  exists st' sc', symtab_insert flavor SYM_TYPES st sc domain td SCOPE_DECL 1 true =
      Some (0, Some (n + 1), st', sc') /\
    refines_symtab st' (<[domain := td]> mt) (n + 1) /\
    refines sc' (<[domain := ScopeDatum SCOPE_DECL [1]]> ms).
Proof.
  intros Hst Hsc Hmt Hms Hn.
  pose proof (symtab_insert_ok flavor SYM_TYPES st mt n sc ms domain td SCOPE_DECL 1 true Hst Hsc) as Hi.
  unfold spec_symtab_insert in Hi. rewrite Hmt, Hms in Hi. rewrite (bool_decide_eq_true_2 (@None type_datum = None) eq_refl) in Hi.
  rewrite (bool_decide_eq_false_2 (@None scope_datum <> None)) in Hi by (intros Hc; by apply Hc).
  cbn [andb] in Hi. rewrite (u32_small (n + 1)) in Hi by (unfold is_u32; lia). exact Hi.
Qed.

Lemma indexable_fmap {D} (val : D -> option Z) (n : Z) (m : gmap bytes D) (f : D -> D) :
  (forall d, val (f d) = val d) -> indexable val n m -> indexable val n (f <$> m).
Proof.
  intros Hf [Hr Hi]. split.
  - intros k d v (d' & <- & Hk)%lookup_fmap_Some. rewrite Hf. by apply (Hr k).
  - intros k k' d d' v (d1 & <- & Hk)%lookup_fmap_Some (d2 & <- & Hk')%lookup_fmap_Some.
    rewrite !Hf. by apply Hi.
Qed.

Lemma indexable_new (mt : gmap bytes type_datum) (n : Z) (domain : bytes) :
  indexable type_key n mt -> 0 <= n -> indexable type_key (n + 1) (<[domain := new_type (n + 1)]> mt).
Proof.
  intros [Hr Hi] Hn. assert (Hkey : forall k d v, <[domain := new_type (n + 1)]> mt !! k = Some d ->
    type_key d = Some v -> k = domain /\ v = n + 1 \/ mt !! k = Some d /\ 1 <= v <= n).
  { intros k d v [[<- <-]|[Hne Hk]]%lookup_insert_Some Hv; [left|right; split; [done|by apply (Hr k d v)]].
    split; [done|]. by injection Hv. }
  split.
  - intros k d v Hk Hv. destruct (Hkey k d v Hk Hv) as [[_ ->]|[_ Hv']]; lia.
  - intros k k' d d' v Hk Hk' Hv Hv'. destruct (Hkey k d v Hk Hv) as [[-> E]|[Hk1 E]],
      (Hkey k' d' v Hk' Hv') as [[-> E']|[Hk2 E']]; try done; try lia. by apply (Hi k k' d d' v).
Qed.

Lemma role_structs_indexed (n : Z) (mr : gmap bytes role_datum) (rn rs : list (option bytes)) (f : role_datum -> role_datum) :
  (forall r, role_value (f r) = role_value r) ->
  (forall i, (i < Z.to_nat n)%nat -> exists k r, mr !! k = Some r /\ role_value r = Z.of_nat i + 1) ->
  indexed role_key n (f <$> mr) rn rs ->
  forall i, (i < Z.to_nat n)%nat -> exists k r,
    rs !! i = Some (Some k) /\ (f <$> mr) !! k = Some r /\ role_value r = Z.of_nat i + 1.
Proof.
  intros Hf Hex (Hix & _) i Hi. destruct (Hex i Hi) as (k & r & Hk & Hv). exists k, (f r).
  assert (Hk' : (f <$> mr) !! k = Some (f r)) by (by rewrite lookup_fmap, Hk).
  destruct (Hix k (f r) (role_value r) Hk') as [_ Hs]; [unfold role_key; by rewrite Hf|].
  rewrite Hv in Hs. replace (Z.to_nat (Z.of_nat i + 1 - 1)) with i in Hs by lia.
  split; [done|]. split; [done|]. by rewrite Hf.
Qed.

(** What a new domain is after [bxxt_sepol_create_domain]. *)
Record domain_made (p p' : policydb) (mt : gmap bytes type_datum) (ms : gmap bytes scope_datum)
    (mr : gmap bytes role_datum) (domain : bytes) (v : Z) : Prop := {
  dm_good : good_policy p' (<[domain := new_type v]> mt)
    (<[domain := ScopeDatum SCOPE_DECL [1]]> ms) (authorise (v - 1) <$> mr);
  dm_nprim : nprim (p_types p') = v;
  dm_names : indexed type_key v (<[domain := new_type v]> mt) (type_val_to_name p') (type_val_to_struct p');
  dm_declared : forall i, Ebitmap.bits (declared_types p') i = (i =? v - 1) || Ebitmap.bits (declared_types p) i;
  dm_type_attr : exists e, type_attr_map p' !! Z.to_nat (v - 1) = Some (Some e) /\
    forall i, Ebitmap.bits e i = (i =? v - 1);
  dm_attr_type : attr_type_map p' !! Z.to_nat (v - 1) = Some (Some ebitmap_init);
  dm_maps : forall i, (i < Z.to_nat (v - 1))%nat -> (i < length (type_attr_map p))%nat ->
    type_attr_map p' !! i = type_attr_map p !! i;
  dm_rules : te_avtab p' = te_avtab p /\ permissive_map p' = permissive_map p /\ p_classes p' = p_classes p;
  dm_roles : forall k r, mr !! k = Some r -> forall i,
    Ebitmap.bits (ts_types (role_types (authorise (v - 1) r))) i =
      (i =? v - 1) || Ebitmap.bits (ts_types (role_types r)) i /\
    Ebitmap.bits (negset (role_types (authorise (v - 1) r))) i =
      negb (i =? v - 1) && Ebitmap.bits (negset (role_types r)) i
}.

Lemma authorise_bits b r :
  0 <= b < 2 ^ 32 - 64 -> Ebitmap.wf (ts_types (role_types r)) -> Ebitmap.wf (negset (role_types r)) ->
  Ebitmap.wf (ts_types (role_types (authorise b r))) /\ Ebitmap.wf (negset (role_types (authorise b r))) /\
  forall i, Ebitmap.bits (ts_types (role_types (authorise b r))) i =
      (i =? b) || Ebitmap.bits (ts_types (role_types r)) i /\
    Ebitmap.bits (negset (role_types (authorise b r))) i =
      negb (i =? b) && Ebitmap.bits (negset (role_types r)) i.
Proof.
  intros Hb H1 H2. destruct (set_bit_fst _ b true H1 Hb) as (_ & Hw1 & Hb1).
  destruct (set_bit_fst _ b false H2 Hb) as (_ & Hw2 & Hb2). cbn [authorise role_types ts_types negset].
  split; [done|]. split; [done|]. intros i. rewrite Hb1, Hb2. by destruct (i =? b).
Qed.

(** The database the function leaves. *)
Definition made (p : policydb) (roles : symtab role_datum) (tab : option (hashtab bytes type_datum))
    (sc : option (hashtab bytes scope_datum)) (ed : ebitmap) (v : Z) (rn rs tn ts : list (option bytes))
    : policydb :=
  Policydb (p_classes p) roles (Symtab tab v) sc (te_avtab p) (permissive_map p) ed
    (<[Z.to_nat (v - 1) := Some (snd (ebitmap_set_bit ebitmap_init (v - 1) true))]> (realloc_map v (type_attr_map p)))
    (<[Z.to_nat (v - 1) := Some ebitmap_init]> (realloc_map v (attr_type_map p))) rn rs tn ts.

Lemma create_domain_run (p : policydb) mt ms mr domain :
  good_policy p mt ms mr -> mt !! domain = None -> ms !! domain = None ->
  nprim (p_types p) + 1 < 2 ^ 31 - 1 ->
  let v := nprim (p_types p) + 1 in
  exists roles tab sc ed rn rs tn ts,
    bxxt_sepol_create_domain p domain = Some (v, made p roles tab sc ed v rn rs tn ts) /\
    refines tab (<[domain := new_type v]> mt) /\
    refines sc (<[domain := ScopeDatum SCOPE_DECL [1]]> ms) /\
    nprim roles = nprim (p_roles p) /\ refines (table roles) (authorise (v - 1) <$> mr) /\
    indexed role_key (nprim roles) (authorise (v - 1) <$> mr) rn rs /\
    indexed type_key v (<[domain := new_type v]> mt) tn ts /\ Ebitmap.wf ed /\
    (forall i, Ebitmap.bits ed i = if i =? v - 1 then true else Ebitmap.bits (declared_types p) i).
Proof.
  intros G Hmt Hms Hroom v. pose proof (gp_room _ _ _ _ G) as Hn. set (n := nprim (p_types p)) in *.
  assert (Hb : 0 <= v - 1 < 2 ^ 32 - 64) by lia.
  unfold bxxt_sepol_create_domain. rewrite (search_refines _ _ domain (proj1 (gp_types _ _ _ _ G))), Hmt.
  destruct (declare_new (p_types p) mt n (p_types_scope p) ms domain (TypeDatum 0 1 TYPE_TYPE ebitmap_init 0 0)
    (gp_types _ _ _ _ G) (gp_scope _ _ _ _ G) Hmt Hms) as (st' & sc' & -> & [Hst Hnp] & Hsc); [lia|].
  cbn [option_bind mbind Z.eqb negb]. fold v. fold v in Hnp. change (default 0 (Some v)) with v.
  change (TypeDatum v 1 TYPE_TYPE ebitmap_init 0 0) with (new_type v).
  rewrite (u32_small (v - 1)) by (unfold is_u32; lia).
  set (tab := poke (table st') domain (new_type v)).
  assert (Htab : refines tab (<[domain := new_type v]> mt)).
  { rewrite <- (insert_insert_eq mt domain (new_type v) (TypeDatum 0 1 TYPE_TYPE ebitmap_init 0 0)).
    by apply poke_refines. }
  destruct (set_bit_fst (declared_types p) (v - 1) true (gp_declared _ _ _ _ G) Hb) as (Ed & Hdw & Hdb).
  cbn [with_types declared_types]. destruct (ebitmap_set_bit (declared_types p) (v - 1) true) as [rd ed].
  cbn [fst snd] in Ed, Hdw, Hdb. subst rd. cbn [Z.eqb negb].
  cbn [with_maps with_types p_types nprim type_attr_map attr_type_map]. rewrite Hnp.
  assert (Hlen : forall l, 0 <= v - 1 < blen (realloc_map v l)) by (intros l; unfold blen; rewrite realloc_length; lia).
  rewrite !store_ok by apply Hlen. cbn [option_bind mbind].
  cbn [with_maps with_types with_roles p_types p_roles p_types_scope p_classes te_avtab permissive_map declared_types
       type_attr_map attr_type_map role_val_to_name role_val_to_struct type_val_to_name type_val_to_struct].
  assert (Hr0 : refines (table (p_roles p))
      ((fun r => if role_value r <=? Z.of_nat 0 then authorise (v - 1) r else r) <$> mr)).
  { replace (_ <$> mr) with mr; [apply (gp_roles _ _ _ _ G)|]. symmetry. rewrite <- (map_fmap_id mr) at 2.
    apply map_fmap_ext. intros k r Hk. pose proof (ix_range _ _ _ (gp_role_ix _ _ _ _ G) k r _ Hk eq_refl).
    by rewrite (proj2 (Z.leb_gt (role_value r) (Z.of_nat 0)) ltac:(lia)). }
  pose proof (gp_nroles _ _ _ _ G) as Hnr.
  destruct (role_loop_ok (Z.to_nat (nprim (p_roles p))) 0 (role_val_to_struct p) (v - 1) (p_roles p) mr
    (nprim (p_roles p)) Hr0 (gp_role_ix _ _ _ _ G)) as (roles & -> & Hrn & Hroles);
    [lia|intros j Hj; apply (gp_structs _ _ _ _ G); lia|].
  cbn [option_bind mbind p_types table]. rewrite (search_refines tab _ domain Htab), lookup_insert_eq.
  match goal with |- context [policydb_index_others ?q] => set (p1 := q) end.
  assert (Hix : indexable type_key v (<[domain := new_type v]> mt))
    by (apply indexable_new; [apply (gp_type_ix _ _ _ _ G)|lia]).
  assert (Hrix : indexable role_key (nprim roles) (authorise (v - 1) <$> mr))
    by (rewrite Hrn; apply indexable_fmap; [done|apply (gp_role_ix _ _ _ _ G)]).
  destruct (index_others_ok p1 (<[domain := new_type v]> mt) (authorise (v - 1) <$> mr))
    as (rn & rs & tn & ts & -> & Hir & Hit); [done|done|done|done|cbn; lia|cbn; lia|].
  subst p1. cbn [with_roles with_maps with_types p_types table p_roles nprim p_types_scope p_classes te_avtab permissive_map declared_types
       type_attr_map attr_type_map] in *. rewrite (search_refines tab _ domain Htab), lookup_insert_eq.
  unfold link_attribute. cbn [new_type flavor]. change (negb (TYPE_TYPE =? TYPE_ATTRIB)) with true.
  cbn [option_bind mbind].
  assert (Es : s32 v = v) by (apply s32_small; lia). rewrite Es.
  exists roles, tab, sc', ed, rn, rs, tn, ts. done.
Qed.

Lemma create_domain_new (p : policydb) mt ms mr domain :
  good_policy p mt ms mr -> mt !! domain = None -> ms !! domain = None ->
  nprim (p_types p) + 1 < 2 ^ 31 - 1 ->
  let v := nprim (p_types p) + 1 in
  exists p', bxxt_sepol_create_domain p domain = Some (v, p') /\ domain_made p p' mt ms mr domain v.
Proof.
  intros G Hmt Hms Hroom v. pose proof (gp_room _ _ _ _ G) as Hn.
  assert (Hb : 0 <= v - 1 < 2 ^ 32 - 64) by lia.
  destruct (create_domain_run p mt ms mr domain G Hmt Hms Hroom) as
    (roles & tab & sc & ed & rn & rs & tn & ts & E & Htab & Hsc & Hrn & Hroles & Hir & Hit & Hdw & Hdb).
  fold v in E, Htab, Hroles, Hir, Hit, Hdb. eexists. split; [exact E|].
  assert (Hbm : forall k r, mr !! k = Some r -> _) by (intros k r Hk;
    exact (authorise_bits (v - 1) r Hb (proj1 (gp_bitmaps _ _ _ _ G k r Hk)) (proj2 (gp_bitmaps _ _ _ _ G k r Hk)))).
  assert (Hlen : forall l, (Z.to_nat (v - 1) < length (realloc_map v l))%nat) by (intros l; rewrite realloc_length; lia).
  unfold made. split; cbn [p_types p_roles p_types_scope p_classes te_avtab permissive_map declared_types nprim table
       type_attr_map attr_type_map role_val_to_name role_val_to_struct type_val_to_name type_val_to_struct].
  - split; cbn [p_types p_roles p_types_scope declared_types nprim table role_val_to_struct].
    + done.
    + exact Hsc.
    + done.
    + apply indexable_new; [apply (gp_type_ix _ _ _ _ G)|lia].
    + rewrite Hrn. apply indexable_fmap; [done|apply (gp_role_ix _ _ _ _ G)].
    + lia.
    + rewrite Hrn. apply (gp_nroles _ _ _ _ G).
    + apply (role_structs_indexed _ mr rn rs (authorise (v - 1))); [done| |exact Hir].
      intros i Hi. rewrite Hrn in Hi. destruct (gp_structs _ _ _ _ G i Hi) as (k & r & _ & Hk & Hv). by exists k, r.
    + intros k r' (r & <- & Hk)%lookup_fmap_Some. destruct (Hbm k r Hk) as (H1 & H2 & _). done.
    + exact Hdw.
  - done.
  - exact Hit.
  - intros i. rewrite Hdb. by destruct (i =? v - 1).
  - rewrite list_lookup_insert_eq by apply Hlen. eexists. split; [reflexivity|].
    destruct (set_bit_fst ebitmap_init (v - 1) true init_wf Hb) as (_ & _ & Hbits). intros i.
    rewrite Hbits. by destruct (i =? v - 1).
  - by rewrite list_lookup_insert_eq by apply Hlen.
  - intros i Hi Hil. rewrite list_lookup_insert_ne by lia. unfold realloc_map.
    rewrite lookup_app_l by (rewrite length_take; lia). apply lookup_take_lt. lia.
  - done.
  - intros k r Hk. apply (Hbm k r Hk).
Qed.
End NewDomain.

Section DomainProperties.
Context `{CharSign}.

(** C34. Domains: [bxxt_sepol_create_domain] of a known type gives its value and
    changes nothing; of a new one it gives the next value and makes a primary
    type of that value, declares it in the first block and its scope, gives it
    an attribute map that holds itself alone and an empty one for its
    attributes, lets every role have it, rebuilds the index arrays so that
    every value finds its name, and leaves the rules alone.  The database is as
    well formed as before, so that the next domain can be made. *)
Theorem sepol_create_domain_spec (p : policydb) mt ms mr (domain : bytes) :
  good_policy p mt ms mr ->
  (forall d, mt !! domain = Some d -> bxxt_sepol_create_domain p domain = Some (s32 (type_value d), p)) /\
  (mt !! domain = None -> ms !! domain = None -> nprim (p_types p) + 1 < 2 ^ 31 - 1 ->
   let v := nprim (p_types p) + 1 in
   exists p', bxxt_sepol_create_domain p domain = Some (v, p') /\ domain_made p p' mt ms mr domain v).
Proof.
  intros G. split.
  - intros d Hd. unfold bxxt_sepol_create_domain.
    by rewrite (search_refines _ _ domain (proj1 (gp_types _ _ _ _ G))), Hd.
  - intros Hmt Hms Hroom. exact (create_domain_new p mt ms mr domain G Hmt Hms Hroom).
Qed.

(** [bxxt_sepol_set_permissive] sets or clears exactly the bit of the
    domain's value in the permissive map, making the domain when it is new, and
    refuses a value beyond the largest bitmap. *)
Theorem sepol_set_permissive_spec (p : policydb) mt ms mr (domain : bytes) (permissive : bool) :
  good_policy p mt ms mr -> Ebitmap.wf (permissive_map p) ->
  (forall d, mt !! domain = Some d -> 0 <= type_value d < 2 ^ 32 ->
   if 2 ^ 32 - 64 <=? type_value d
   then bxxt_sepol_set_permissive p domain permissive = Some (- EINVAL, with_permissive p (permissive_map p))
   else exists e, bxxt_sepol_set_permissive p domain permissive = Some (0, with_permissive p e) /\
     forall i, Ebitmap.bits e i = if i =? type_value d then permissive else Ebitmap.bits (permissive_map p) i) /\
  (mt !! domain = None -> ms !! domain = None -> nprim (p_types p) + 1 < 2 ^ 31 - 1 ->
   let v := nprim (p_types p) + 1 in
   exists p' e, bxxt_sepol_set_permissive p domain permissive = Some (0, with_permissive p' e) /\
     domain_made p p' mt ms mr domain v /\
     forall i, Ebitmap.bits e i = if i =? v then permissive else Ebitmap.bits (permissive_map p) i).
Proof.
  intros G Hw. pose proof (search_refines _ _ domain (proj1 (gp_types _ _ _ _ G))) as Hs.
  split.
  - intros d Hd Hv. unfold bxxt_sepol_set_permissive. rewrite Hs, Hd. cbn [option_bind mbind]. rewrite u32_small by exact Hv.
    destruct (Z.leb_spec (2 ^ 32 - 64) (type_value d)).
    + by rewrite set_bit_overflow by lia.
    + destruct (set_bit_wf (permissive_map p) (type_value d) permissive Hw) as (e & -> & _ & Hb); [lia|].
      by exists e.
  - intros Hmt Hms Hroom v. unfold bxxt_sepol_set_permissive. rewrite Hs, Hmt.
    destruct (create_domain_new p mt ms mr domain G Hmt Hms Hroom) as (p' & -> & Hm). fold v in Hm |- *.
    cbn [option_bind mbind]. pose proof (gp_room _ _ _ _ G).
    rewrite u32_small by (unfold is_u32; lia). destruct (dm_rules _ _ _ _ _ _ _ Hm) as (_ & -> & _).
    destruct (set_bit_wf (permissive_map p) v permissive Hw) as (e & -> & _ & Hb); [lia|].
    by exists p', e.
Qed.
End DomainProperties.

(** ** The properties on a small database *)

Lemma sample_good : good_policy sample_policy sample_mt sample_ms sample_mr.
Proof.
  unfold sample_mt, sample_ms, sample_mr.
  split; cbn [sample_policy p_types p_roles p_types_scope declared_types nprim role_val_to_struct].
  - split; [|done]. apply insert_new; [apply insert_new; [by apply create_refines|done]|done].
  - apply insert_new; [apply insert_new; [by apply create_refines|done]|done].
  - split; [|done]. apply insert_new; [by apply create_refines|done].
  - split.
    + intros k d v [[_ <-]|[_ [[_ <-]|[_ Hk]]%lookup_insert_Some]]%lookup_insert_Some Hv;
        [by injection Hv as <-|by injection Hv as <-|by rewrite lookup_empty in Hk].
    + intros k k' d d' v [[<- <-]|[_ [[<- <-]|[_ Hk]]%lookup_insert_Some]]%lookup_insert_Some
        [[<- <-]|[_ [[<- <-]|[_ Hk']]%lookup_insert_Some]]%lookup_insert_Some Hv Hv';
        try done; first [by rewrite lookup_empty in Hk|by rewrite lookup_empty in Hk'
                        |injection Hv as <-; by injection Hv'].
  - split.
    + intros k d v [[_ <-]|[_ Hk]]%lookup_insert_Some Hv; [by injection Hv as <-|by rewrite lookup_empty in Hk].
    + intros k k' d d' v [[<- <-]|[_ Hk]]%lookup_insert_Some [[<- <-]|[_ Hk']]%lookup_insert_Some _ _;
        try done; first [by rewrite lookup_empty in Hk|by rewrite lookup_empty in Hk'].
  - done.
  - done.
  - intros i Hi. change (Z.to_nat 1) with 1%nat in Hi. assert (i = 0%nat) as -> by lia.
    by exists (str "object_r"), object_role.
  - intros k r [[_ <-]|[_ Hk]]%lookup_insert_Some; [split; apply init_wf|by rewrite lookup_empty in Hk].
  - apply init_wf.
Qed.

Lemma name_of_check p s :
  negb (bool_decide (s = [])) && forallb p s && (blen s <? 256) = true -> name_of p s.
Proof.
  intros [[H1 H2]%andb_prop H3]%andb_prop. apply negb_true_iff, bool_decide_eq_false in H1.
  split; [exact H1|]. split; [|lia]. apply Forall_forall. intros c Hc%list_elem_of_In.
  by apply (proj1 (forallb_forall p s) H2).
Qed.

Definition sample_permissions : gmap bytes perm_datum := <[str "execute" := 5]> ∅.
Definition sample_shared : gmap bytes perm_datum := <[str "write" := 3]> (<[str "read" := 2]> ∅).

Lemma sample_class_permissions : class_permissions sample_file_class sample_permissions (Some sample_shared).
Proof.
  split; [apply insert_new; [by apply create_refines|done]|]. split; [by apply map_Forall_insert_2; [|apply map_Forall_empty]|].
  split; [apply insert_new; [apply insert_new; [by apply create_refines|done]|done]|].
  by do 2 (apply map_Forall_insert_2; [done|]); apply map_Forall_empty.
Qed.

Lemma sepol_allow_spec_witness :
  exists a new, bxxt_sepol_allow_ext (AvtabDatum 0xdead0000 None) sample_policy (str "init") (str "shell")
      (str "file") (str "read") false = Some (BXXT_SUCCESS, with_avtab sample_policy a) /\
    avtab_search a (AvtabKey 1 2 3 AVTAB_ALLOWED) = Some new /\
    (forall i, 0 <= i < 32 -> Z.testbit (data new) i = if i =? 1 then true else Z.testbit 0xdead0000 i) /\
    avtab_search a (AvtabKey 5 7 2 AVTAB_ALLOWED) = Some (AvtabDatum 0x13 None).
Proof.
  destruct sample_avtab_wf as [tab Hw].
  destruct (sepol_allow_spec (AvtabDatum 0xdead0000 None) sample_policy (str "init") (str "shell")
    (str "file") (str "read") false sample_file_class init_type shell_type sample_permissions (Some sample_shared) tab)
    as (a & new & E & _ & _ & Hs & Hb & _ & Ho).
  - vm_compute. reflexivity.
  - vm_compute. reflexivity.
  - vm_compute. reflexivity.
  - exact sample_class_permissions.
  - exact Hw.
  - unfold one_kinds. change (te_avtab sample_policy) with sample_avtab. rewrite sample_entries.
    repeat (constructor; [reflexivity|]). constructor.
  - exists a, new. split; [exact E|]. split; [exact Hs|]. split.
    + intros i Hi. refine (eq_trans (Hb i Hi) _). reflexivity.
    + rewrite Ho; vm_compute; reflexivity.
Defined.

Lemma sepol_execute_stmt_spec_witness :
  bxxt_sepol_execute_stmt zero_datum sample_policy (str "disallow init shell:file write;") =
    bxxt_sepol_allow_ext zero_datum sample_policy (str "init") (str "shell") (str "file") (str "write") true /\
  bxxt_sepol_execute_stmt zero_datum sample_policy (str "create app_10;") =
    '(r, p) ← bxxt_sepol_create_domain sample_policy (str "app_1"); Some (if r <? 0 then 1 else 0, p).
Proof.
  split.
  - refine (proj2 (proj1 (sepol_execute_stmt_spec zero_datum sample_policy (str "init") (str "shell")
      (str "file") (str "write") (str ";") _ _ _ _) _));
      first [apply name_of_check; vm_compute; reflexivity|vm_compute; reflexivity].
  - refine (proj2 (proj2 (proj2 (sepol_execute_stmt_spec zero_datum sample_policy (str "app_1") (str "shell")
      (str "file") (str "write") (str "0;") _ _ _ _) _)));
      first [apply name_of_check; vm_compute; reflexivity|vm_compute; reflexivity].
Defined.

Lemma sepol_create_domain_spec_witness :
  bxxt_sepol_create_domain sample_policy (str "shell") = Some (2, sample_policy) /\
  exists p', bxxt_sepol_create_domain sample_policy (str "adbd") = Some (3, p') /\
    domain_made sample_policy p' sample_mt sample_ms sample_mr (str "adbd") 3.
Proof.
  destruct (sepol_create_domain_spec sample_policy sample_mt sample_ms sample_mr (str "shell") sample_good) as [H1 _].
  destruct (sepol_create_domain_spec sample_policy sample_mt sample_ms sample_mr (str "adbd") sample_good) as [_ H2].
  split.
  - apply (H1 shell_type). vm_compute. reflexivity.
  - apply H2; vm_compute; reflexivity.
Defined.

Lemma sepol_set_permissive_spec_witness :
  exists p' e, bxxt_sepol_set_permissive sample_policy (str "adbd") true = Some (0, with_permissive p' e) /\
    Ebitmap.bits e 3 = true.
Proof.
  destruct (proj2 (sepol_set_permissive_spec sample_policy sample_mt sample_ms sample_mr (str "adbd") true
    sample_good init_wf)) as (p' & e & E & _ & Hb); [vm_compute; reflexivity..|].
  exists p', e. split; [exact E|]. rewrite Hb. reflexivity.
Defined.
