(* ===== verification/Policyrw.v ===== *)
(** Reading and writing in pieces: the way policydb.c and write.c of libsepol go
    through a policy file.

    A reader takes a piece off the front of the file or fails; what it has read
    when it fails is freed by its caller.  A writer puts a piece behind the others
    and returns a status.  The laws say what a reader makes of a piece and what a
    writer puts, when there is room and when there is none. *)
From S2P Require Import Prelude PolicyFile Ebitmap Hashtab Avtab.

(** ** Readers *)

Definition reader (A : Type) : Type := bytes -> option (A * bytes).

#[export] Instance reader_ret : MRet reader := fun A x fp => Some (x, fp).
#[export] Instance reader_bind : MBind reader := fun A B f r fp =>
  match r fp with Some (x, fp) => f x fp | None => None end.

Definition failure {A} : reader A := fun _ => None.
Definition ensure (b : bool) : reader unit := if b then mret tt else failure.

(** [next_entry(buf, fp, sizeof(uint32_t) * n)], and [le32_to_cpu] of each item. *)
Definition words (n : Z) : reader (list Z) := fun fp =>
  '(b, fp) ← next_entry fp (4 * n);
  Some (le_array 4 (Z.to_nat n) b, fp).

Definition buf (ws : list Z) (i : nat) : Z := default 0 (ws !! i).

(** [next_entry(key, fp, len); key[len] = 0], as a C string. *)
Definition string_of (n : Z) : reader bytes := fun fp =>
  '(b, fp) ← next_entry fp n;
  Some (before_nul b, fp).

Definition bitmap : reader ebitmap := fun fp =>
  match ebitmap_read fp with inl _ => None | inr x => Some x end.

Fixpoint times {A} (n : nat) (f : A -> reader A) (a : A) : reader A :=
  match n with O => mret a | S n => a ← f a; times n f a end.

(** Inserting what was read; an entry that is there already is a failure. *)
Definition insert_entry `{KeyOps K} {D} (h : option (hashtab K D)) (key : K) (d : D)
    : reader (option (hashtab K D)) :=
  let '(rc, h) := hashtab_insert h key d in
  if rc =? 0 then mret h else failure.

(** ** Writers *)

Definition writer : Type := policy_file -> Z * policy_file.

Definition put_words (ws : list Z) : writer := fun fp =>
  let '(items, fp) := put_entry (concat (map (le_bytes 4) ws)) 4 (blen ws) fp in
  (if items =? blen ws then POLICYDB_SUCCESS else POLICYDB_ERROR, fp).

Definition put_string (s : bytes) : writer := fun fp =>
  let '(items, fp) := put_entry s 1 (blen s) fp in
  (if items =? blen s then POLICYDB_SUCCESS else POLICYDB_ERROR, fp).

Definition skip : writer := fun fp => (POLICYDB_SUCCESS, fp).

Definition andthen (w1 w2 : writer) : writer := fun fp =>
  let '(rc, fp) := w1 fp in
  if rc =? 0 then w2 fp else (POLICYDB_ERROR, fp).

Declare Scope policy_scope.
Delimit Scope policy_scope with policy.
Infix ";;" := andthen (at level 100, right associativity) : policy_scope.
Open Scope policy_scope.

Fixpoint each {A} (f : A -> writer) (l : list A) : writer :=
  match l with [] => skip | x :: l => f x ;; each f l end.

(** ** What they do *)

(** The reader makes [a] of the piece [e]. *)
Definition decodes {A} (r : reader A) (e : bytes) (a : A) : Prop :=
  forall rest, r (e ++ rest) = Some (a, rest).

(** Is there room for a piece, and the file with it. *)
Definition fits (e : bytes) (fp : policy_file) : bool :=
  match PolicyFile.type fp with PF_USE_MEMORY => blen e <=? PolicyFile.len fp | PF_LEN => true end.

Definition wrote (e : bytes) (fp : policy_file) : policy_file :=
  match PolicyFile.type fp with
  | PF_USE_MEMORY => PolicyFile PF_USE_MEMORY (PolicyFile.data fp ++ e) (PolicyFile.len fp - blen e)
  | PF_LEN => PolicyFile PF_LEN (PolicyFile.data fp) (PolicyFile.len fp + blen e)
  end.

(** The writer puts the piece [e], or reports that there is no room for it. *)
Definition writes (w : writer) (e : bytes) : Prop :=
  forall fp, 0 <= PolicyFile.len fp -> if fits e fp then w fp = (POLICYDB_SUCCESS, wrote e fp) else fst (w fp) = POLICYDB_ERROR.

(** ** Laws of readers *)

Lemma decodes_ret {A} (a : A) : decodes (mret a) [] a.
Proof. by intros rest. Qed.

Lemma decodes_bind {A B} (r : reader A) (f : A -> reader B) e e' a b :
  decodes r e a -> decodes (f a) e' b -> decodes (r ≫= f) (e ++ e') b.
Proof. intros Hr Hf rest. unfold mbind, reader_bind. rewrite <- app_assoc, Hr. apply Hf. Qed.

Lemma decodes_ensure {B} (b : bool) (f : unit -> reader B) e x :
  b = true -> decodes (f tt) e x -> decodes (ensure b ≫= f) e x.
Proof. intros -> Hf rest. apply Hf. Qed.

Lemma decodes_words n ws : blen ws = n -> Forall is_u32 ws -> decodes (words n) (concat (map (le_bytes 4) ws)) ws.
Proof.
  intros <- Hw rest. unfold words. rewrite next_entry_app by (rewrite concat_words; lia).
  cbn [mbind option_bind]. unfold blen. rewrite Nat2Z.id. by rewrite le_array_concat.
Qed.

Lemma decodes_string n s : blen s = n -> ~ In 0 s -> decodes (string_of n) s s.
Proof.
  intros Hn Hs rest. unfold string_of. rewrite next_entry_app by done. cbn [mbind option_bind].
  by rewrite before_nul_all.
Qed.

Lemma decodes_bitmap e : Ebitmap.wf e -> decodes bitmap (Ebitmap.enc e) e.
Proof. intros He rest. unfold bitmap. by rewrite read_write_spec. Qed.

(** ** Readers that succeed *)

Lemma bind_reads {A B} (r : reader A) (f : A -> reader B) fp b rest :
  (r ≫= f) fp = Some (b, rest) -> exists a fp', r fp = Some (a, fp') /\ f a fp' = Some (b, rest).
Proof. unfold mbind, reader_bind. destruct (r fp) as [[a fp']|]; [|done]. intros E. by exists a, fp'. Qed.

Lemma ensure_reads {B} b (f : unit -> reader B) fp x rest :
  (ensure b ≫= f) fp = Some (x, rest) -> b = true /\ f tt fp = Some (x, rest).
Proof. destruct b; [done|intros Hf; by destruct (bind_reads _ _ _ _ _ Hf) as (? & ? & ? & ?)]. Qed.

Lemma ret_reads {A} (a b : A) fp rest : (mret a : reader A) fp = Some (b, rest) -> a = b /\ fp = rest.
Proof. intros E. by injection E as <- <-. Qed.

(** Rounds that keep an invariant; [n] of them are done. *)
Lemma times_reads {A} (r : A -> reader A) (P : nat -> A -> Prop) n k a fp b rest :
  (forall k a fp b rest, P k a -> r a fp = Some (b, rest) -> P (S k) b) ->
  P k a -> times n r a fp = Some (b, rest) -> P (k + n)%nat b.
Proof.
  intros Hr. revert k a fp. induction n as [|n IH]; intros k a fp Ha E; cbn [times] in E.
  { apply ret_reads in E as [-> _]. by rewrite Nat.add_0_r. }
  apply bind_reads in E as (a' & fp' & E1 & E2). replace (k + S n)%nat with (S k + n)%nat by lia.
  eapply IH; [|exact E2]. by eapply Hr.
Qed.

(** ** Laws of writers *)

Lemma fits_app e e' fp : fits (e ++ e') fp = fits e fp && fits e' (wrote e fp).
Proof.
  unfold fits, wrote. destruct fp as [[] d n]; cbn; [|done]. rewrite blen_app.
  pose proof (blen_nonneg e). pose proof (blen_nonneg e').
  destruct (Z.leb_spec (blen e) n), (Z.leb_spec (blen e') (n - blen e)),
    (Z.leb_spec (blen e + blen e') n); cbn; try done; lia.
Qed.

Lemma wrote_app e e' fp : wrote (e ++ e') fp = wrote e' (wrote e fp).
Proof.
  unfold wrote. destruct fp as [[] d n]; cbn; rewrite blen_app; f_equal; [by rewrite app_assoc|lia..].
Qed.

Lemma wrote_len e fp : 0 <= PolicyFile.len fp -> fits e fp = true -> 0 <= PolicyFile.len (wrote e fp).
Proof.
  unfold fits, wrote. pose proof (blen_nonneg e). destruct fp as [[] d n]; cbn; lia.
Qed.

Lemma put_entry_cases d size n fp : blen d = size * n ->
  put_entry d size n fp = if fits d fp then (n, wrote d fp) else (0, fp).
Proof.
  intros Hd. unfold put_entry, fits, wrote. rewrite <- Hd. destruct fp as [[] x l]; cbn; [|done].
  destruct (Z.ltb_spec l (blen d)), (Z.leb_spec (blen d) l); try done; lia.
Qed.

Lemma writes_skip : writes skip [].
Proof.
  intros [[] d n] Hn; unfold fits, wrote; cbn in *; change (blen []) with 0.
  - replace (0 <=? n) with true by lia. by rewrite app_nil_r, Z.sub_0_r.
  - by rewrite Z.add_0_r.
Qed.

Lemma fits_nil fp : 0 <= PolicyFile.len fp -> fits [] fp = true.
Proof. intros Hn. unfold fits. destruct fp as [[] d n]; cbn in *; [|done]. change (blen []) with 0. lia. Qed.

Lemma writes_words ws : writes (put_words ws) (concat (map (le_bytes 4) ws)).
Proof.
  intros fp Hn. unfold put_words. rewrite put_entry_cases by (rewrite concat_words; lia).
  destruct (fits _ fp) eqn:E; [by rewrite Z.eqb_refl|]. destruct ws as [|w ws]; [by rewrite fits_nil in E|].
  rewrite blen_cons. pose proof (blen_nonneg ws). by replace (0 =? 1 + blen ws) with false by lia.
Qed.

Lemma writes_string s : writes (put_string s) s.
Proof.
  intros fp Hn. unfold put_string. rewrite put_entry_cases by lia.
  destruct (fits _ fp) eqn:E; [by rewrite Z.eqb_refl|]. destruct s as [|w s]; [by rewrite fits_nil in E|].
  rewrite blen_cons. pose proof (blen_nonneg s). by replace (0 =? 1 + blen s) with false by lia.
Qed.

Lemma writes_andthen w1 w2 e1 e2 : writes w1 e1 -> writes w2 e2 -> writes (w1 ;; w2) (e1 ++ e2).
Proof.
  intros H1 H2 fp Hn. specialize (H1 fp Hn). unfold andthen. rewrite fits_app, wrote_app.
  destruct (fits e1 fp) eqn:E.
  - rewrite H1. change (POLICYDB_SUCCESS =? 0) with true. cbn [andb].
    exact (H2 (wrote e1 fp) (wrote_len e1 fp Hn E)).
  - cbn [andb]. destruct (w1 fp) as [rc fp']. cbn [fst] in H1. subst rc. done.
Qed.

Lemma writes_nodes l : writes (write_loop l) (concat (map Ebitmap.enc_node l)).
Proof.
  induction l as [|n l IH]; [apply writes_skip|]. intros fp Hn. cbn [write_loop map concat].
  unfold Ebitmap.enc_node. rewrite <- app_assoc, fits_app, wrote_app.
  rewrite put_entry_cases by by rewrite blen_le_bytes.
  destruct (fits (le_bytes 4 (startbit n)) fp) eqn:E; [|done]. cbn [andb].
  change (negb (1 =? 1)) with false. cbn iota.
  apply wrote_len in E; [|done]. set (fp1 := wrote (le_bytes 4 (startbit n)) fp) in *.
  rewrite fits_app, wrote_app. rewrite put_entry_cases by by rewrite blen_le_bytes.
  destruct (fits (le_bytes 8 (map_ n)) fp1) eqn:E1; [|done]. cbn [andb].
  change (negb (1 =? 1)) with false. cbn iota. apply IH. by apply wrote_len.
Qed.

Lemma writes_bitmap e : Ebitmap.wf e -> writes (ebitmap_write e) (Ebitmap.enc e).
Proof.
  intros He fp Hn. unfold ebitmap_write, Ebitmap.enc. pose proof (node_count e He).
  rewrite u32_small by (unfold is_u32; pow2; lia).
  set (b := le_bytes 4 MAPSIZE ++ le_bytes 4 (highbit e) ++ le_bytes 4 (blen (node e))).
  replace (le_bytes 4 MAPSIZE ++ le_bytes 4 (highbit e) ++ le_bytes 4 (blen (node e)) ++ concat (map Ebitmap.enc_node (node e)))
    with (b ++ concat (map Ebitmap.enc_node (node e))) by (unfold b; by rewrite <- !app_assoc).
  rewrite fits_app, wrote_app, put_entry_cases by (unfold b; by rewrite !blen_app, !blen_le_bytes).
  destruct (fits b fp) eqn:E; [|done]. cbn [andb]. change (negb (3 =? 3)) with false. cbn iota.
  apply writes_nodes. by apply wrote_len.
Qed.

(** ** Both at once *)

(** What the writer puts the reader makes [a] of. *)
Definition codec {A} (w : writer) (r : reader A) (a : A) : Prop := exists e, writes w e /\ decodes r e a.

Lemma codec_skip {A} (a : A) : codec skip (mret a) a.
Proof. exists []. split; [apply writes_skip|apply decodes_ret]. Qed.

Lemma codec_words n ws : blen ws = n -> Forall is_u32 ws -> codec (put_words ws) (words n) ws.
Proof. intros Hn Hw. eexists. split; [apply writes_words|by apply decodes_words]. Qed.

Lemma codec_string n s : blen s = n -> ~ In 0 s -> codec (put_string s) (string_of n) s.
Proof. intros Hn Hs. eexists. split; [apply writes_string|by apply decodes_string]. Qed.

Lemma codec_bitmap e : Ebitmap.wf e -> codec (ebitmap_write e) bitmap e.
Proof. intros He. eexists. split; [by apply writes_bitmap|by apply decodes_bitmap]. Qed.

Lemma codec_bind {A B} w1 w2 (r : reader A) (f : A -> reader B) a b :
  codec w1 r a -> codec w2 (f a) b -> codec (w1 ;; w2) (r ≫= f) b.
Proof.
  intros (e1 & H1 & H1') (e2 & H2 & H2'). exists (e1 ++ e2).
  split; [by apply writes_andthen|by eapply decodes_bind].
Qed.

Lemma codec_ext {A} (w0 w1 : writer) (r : reader A) a : (forall fp, w1 fp = w0 fp) -> codec w0 r a -> codec w1 r a.
Proof. intros Hw (e & H1 & H2). exists e. split; [|done]. intros fp. rewrite Hw. apply H1. Qed.

Lemma andthen_assoc w1 w2 w3 fp : (w1 ;; w2 ;; w3) fp = ((w1 ;; w2) ;; w3) fp.
Proof.
  unfold andthen. destruct (w1 fp) as [rc fp1]. destruct (rc =? 0); [|done].
  by destruct (w2 fp1).
Qed.

Lemma codec_assoc {A} w1 w2 w3 (r : reader A) a : codec ((w1 ;; w2) ;; w3) r a -> codec (w1 ;; w2 ;; w3) r a.
Proof. apply codec_ext. intros fp. apply andthen_assoc. Qed.

Lemma codec_pure {A B} w (r : reader A) x (f : A -> reader B) b : r = mret x -> codec w (f x) b -> codec w (r ≫= f) b.
Proof. by intros ->. Qed.

(** The last piece, when the reader goes on without the file. *)
Lemma codec_last {A B} w (r : reader A) (f : A -> reader B) a b :
  codec w r a -> decodes (f a) [] b -> codec w (r ≫= f) b.
Proof.
  intros (e & H1 & H1') H2. exists e. split; [done|]. rewrite <- (app_nil_r e). by eapply decodes_bind.
Qed.

Lemma codec_ensure {B} (b : bool) w (f : unit -> reader B) x :
  b = true -> codec w (f tt) x -> codec w (ensure b ≫= f) x.
Proof. intros Hb (e & H1 & H2). exists e. split; [done|by apply decodes_ensure]. Qed.

Lemma codec_times {A X} (w : X -> writer) (r : A -> reader A) (step : A -> X -> A) (l : list X) a n :
  length l = n ->
  (forall l1 x l2, l = l1 ++ x :: l2 ->
     codec (w x) (r (fold_left step l1 a)) (step (fold_left step l1 a) x)) ->
  codec (each w l) (times n r a) (fold_left step l a).
Proof.
  intros <-. revert a. induction l as [|x l IH]; intros a Hf; [apply codec_skip|].
  cbn [length times each fold_left]. apply (codec_bind _ _ _ _ (step a x)).
  - exact (Hf [] x l eq_refl).
  - apply IH. intros l1 y l2 ->. exact (Hf (x :: l1) y l2 eq_refl).
Qed.

Lemma fold_snoc {A B} (f : A -> B) (l : list A) k : fold_left (fun l x => l ++ [f x]) l k = k ++ map f l.
Proof. revert k. induction l as [|x l IH]; intros k; cbn; [by rewrite app_nil_r|]. by rewrite IH, <- app_assoc. Qed.

(** ** Tables *)

(** [table->nel]; the tables of symbols exist. *)
Definition table_nel {K D} (h : option (hashtab K D)) : Z := match h with Some t => Hashtab.nel t | None => 0 end.

(** A table of [sz] chains that stands for [m], with the number of its entries. *)
Definition counted `{TableKey K} {D} (h : option (hashtab K D)) (sz : Z) (m : gmap K D) : Prop :=
  exists t, h = Some t /\ Hashtab.wf t /\ as_map t = m /\ Hashtab.size t = sz /\
            Hashtab.nel t = Z.of_nat (base.size m).

Section Tables.
Context `{TableKey K} {D : Type}.

Lemma writes_map_chain (w : K -> D -> writer) k d l e e' :
  writes (w k d) e -> writes (map_chain w l) e' -> writes (map_chain w ((k, d) :: l)) (e ++ e').
Proof.
  intros H1 H2 fp Hn. cbn [map_chain]. rewrite fits_app, wrote_app. specialize (H1 fp Hn).
  destruct (fits e fp) eqn:E.
  - rewrite H1. change (u32 POLICYDB_SUCCESS =? 0) with true. cbn [andb]. apply H2. by apply wrote_len.
  - cbn [andb]. destruct (w k d fp) as [ret fp']. cbn [fst] in H1. subst ret. done.
Qed.

Lemma hashtab_map_chain (t : hashtab K D) (w : K -> D -> writer) fp :
  hashtab_map (Some t) w fp = map_chain w (entries t) fp.
Proof. cbn [hashtab_map]. by rewrite map_chains_concat. Qed.

Implicit Types (h : option (hashtab K D)) (m : gmap K D).

Lemma counted_refines h sz m : counted h sz m -> refines h m.
Proof. intros (t & -> & Hw & Hm & _). by exists t. Qed.

Lemma counted_create sz : 0 < sz < 2 ^ 31 -> counted (hashtab_create (K := K) (D := D) sz) sz ∅.
Proof.
  intros Hsz. destruct (table_create_wf (K := K) (D := D) sz Hsz) as (h & Hc & Hw & Hm & Hn).
  exists h. split; [done|]. split; [done|]. split; [done|]. rewrite map_size_empty. split; [|done].
  injection Hc as <-. done.
Qed.

Lemma counted_insert h sz m k d :
  counted h sz m -> m !! k = None -> Z.of_nat (base.size m) + 1 < 2 ^ 32 ->
  fst (hashtab_insert h k d) = SEPOL_OK /\ counted (snd (hashtab_insert h k d)) sz (<[k := d]> m).
Proof.
  intros (t & -> & Hw & Hm & Hs & Hn) Hk Hsz. destruct (table_call_ok t (Insert k d) Hw) as (t' & E & Hw' & Hm' & Hs' & Hn').
  cbn [table_call spec_call nel_call] in *. rewrite Hm, Hk in *. cbn [fst snd] in *.
  destruct (hashtab_insert (Some t) k d) as [r h']. cbn [fst snd]. injection E as -> ->. split; [done|].
  exists t'. split; [done|]. split; [done|]. split; [done|]. split; [congruence|].
  rewrite Hn', decide_True, Hn, map_size_insert_None by done. rewrite u32_small; [lia|unfold is_u32; lia].
Qed.

Lemma sorted_unique (c c' : list (K * D)) : sorted c -> sorted c' -> c ≡ₚ c' -> c = c'.
Proof.
  unfold sorted. set (R := fun a b : K * D => _).
  assert (AntiSymm (=) R). { intros a b Ha Hb. unfold R in *. apply keycmp_opp in Ha. lia. }
  apply (StronglySorted_unique R).
Qed.

(** A table is determined by its size, its map and its count. *)
Lemma counted_unique h h' sz m : counted h sz m -> counted h' sz m -> h = h'.
Proof.
  intros (t & -> & Hw & Hm & Hs & Hn) (t' & -> & Hw' & Hm' & Hs' & Hn'). f_equal.
  assert (Hashtab.htable t = Hashtab.htable t') as Ht.
  { pose proof (wf_slots t Hw) as Hl. pose proof (wf_slots t' Hw') as Hl'.
    apply list_eq. intros i. destruct (Hashtab.htable t !! i) as [c|] eqn:Ei.
    2: { apply lookup_ge_None in Ei. symmetry. apply lookup_ge_None. lia. }
    destruct (lookup_lt_is_Some_2 (Hashtab.htable t') i) as [c' Ei'].
    { apply lookup_lt_Some in Ei. lia. }
    rewrite Ei'. f_equal.
    assert (forall (u : hashtab K D) v w, Hashtab.wf u -> Hashtab.htable u !! i = Some v ->
      w ∈ v <-> as_map u !! w.1 = Some w.2 /\ hash_value (Hashtab.size u) w.1 = Z.of_nat i) as Hin.
    { intros u v w Hu Hi. rewrite <- elem_of_map_to_list, <- (entries_map u Hu).
      destruct w as [k d]. cbn [fst snd]. pose proof (wf_hash u Hu) as Hh. split.
      - intros Hv. split.
        + unfold entries. apply list_elem_of_In, in_concat. exists v. split; [|by apply list_elem_of_In].
          apply list_elem_of_In. by eapply list_elem_of_lookup_2.
        + specialize (Hh i v Hi). rewrite Forall_forall in Hh. exact (Hh _ Hv).
      - intros [He Hk]. unfold entries in He.
        apply list_elem_of_In, in_concat in He as (v' & Hv' & He).
        apply list_elem_of_In, list_elem_of_lookup in Hv' as [j Hj]. apply list_elem_of_In in He.
        pose proof (Hh j v' Hj) as Hh'. rewrite Forall_forall in Hh'. specialize (Hh' _ He). cbn [fst] in Hh'.
        assert (j = i) as -> by lia. rewrite Hi in Hj. by injection Hj as ->. }
    pose proof (wf_sorted t Hw) as Hst. pose proof (wf_sorted t' Hw') as Hst'. rewrite Forall_lookup in Hst, Hst'.
    apply sorted_unique; [exact (Hst i c Ei)|exact (Hst' i c' Ei')|].
    apply NoDup_Permutation.
    - apply (NoDup_fmap_1 fst). apply sorted_keys_NoDup. exact (Hst i c Ei).
    - apply (NoDup_fmap_1 fst). apply sorted_keys_NoDup. exact (Hst' i c' Ei').
    - intros x. rewrite (Hin t c x Hw Ei), (Hin t' c' x Hw' Ei'). by rewrite Hm, Hm', Hs, Hs'. }
  destruct t, t'. cbn in *. congruence.
Qed.

Lemma decodes_insert h sz m k d : counted h sz m -> m !! k = None -> Z.of_nat (base.size m) + 1 < 2 ^ 32 ->
  decodes (insert_entry h k d) [] (snd (hashtab_insert h k d)).
Proof.
  intros Hc Hk Hs rest. destruct (counted_insert h sz m k d Hc Hk Hs) as [Hr _]. unfold insert_entry.
  destruct (hashtab_insert h k d) as [rc h']. cbn [fst snd] in *. by subst rc.
Qed.

(** Entries read one after the other; [g] says what is stored of each, if anything. *)
Definition stored_entries (g : K -> D -> option D) (l : list (K * D)) (m : gmap K D) : gmap K D :=
  fold_left (fun m x => match g x.1 x.2 with Some d => <[x.1 := d]> m | None => m end) l m.

(** The entries of a table are written in order, and inserted one after the other. *)
Lemma codec_entries (g : K -> D -> option D) (w : K -> D -> writer)
    (f : option (hashtab K D) -> reader (option (hashtab K D))) (l : list (K * D)) sz h m :
  counted h sz m -> Z.of_nat (base.size m + length l) < 2 ^ 32 -> NoDup l.*1 ->
  (forall k d, (k, d) ∈ l -> g k d <> None -> m !! k = None) ->
  (forall k d h' m', (k, d) ∈ l -> counted h' sz m' -> Z.of_nat (base.size m') + 1 < 2 ^ 32 ->
     (g k d <> None -> m' !! k = None) ->
     codec (w k d) (f h') (match g k d with Some d' => snd (hashtab_insert h' k d') | None => h' end)) ->
  exists h', codec (map_chain w l) (times (length l) f h) h' /\ counted h' sz (stored_entries g l m).
Proof.
  revert h m. induction l as [|[k d] l IH]; intros h m Hc Hs Hnd Hm Hf.
  { exists h. split; [exact (codec_skip h)|done]. }
  cbn [length] in Hs. apply NoDup_cons in Hnd as [Hk Hnd].
  set (h1 := match g k d with Some d' => snd (hashtab_insert h k d') | None => h end).
  set (m1 := match g k d with Some d' => <[k := d']> m | None => m end).
  assert (counted h1 sz m1 /\ (base.size m1 <= base.size m + 1)%nat) as [Hc1 Hs1].
  { unfold h1, m1. destruct (g k d) as [d'|] eqn:Eg; [|split; [done|lia]].
    assert (m !! k = None) as Hmk by (apply (Hm k d); [by left|congruence]).
    split; [apply counted_insert; [done..|lia]|]. rewrite map_size_insert_None by done. lia. }
  destruct (IH h1 m1 Hc1) as (h' & (e' & Hw' & Hd) & Hc'); [lia|done| | |].
  - intros k' d' Hin Hg. unfold m1. assert (k' <> k) as Hne.
    { intros ->. apply Hk. by apply (list_elem_of_fmap_2 fst _ (k, d')). }
    assert (m !! k' = None) by (apply (Hm k' d'); [by right|done]).
    destruct (g k d); [by rewrite lookup_insert_ne|done].
  - intros k' d' h0 m0 Hin. apply Hf. by right.
  - exists h'. split; [|exact Hc']. destruct (Hf k d h m) as (e & Hw & He); [by left|done|lia| |].
    { apply (Hm k d). by left. }
    exists (e ++ e'). split; [by apply writes_map_chain|]. cbn [length times]. by eapply decodes_bind.
Qed.

Definition keep_all (_ : K) (d : D) : option D := Some d.

Lemma stored_all l m : NoDup l.*1 -> stored_entries keep_all l m = list_to_map l ∪ m.
Proof.
  revert m. induction l as [|[k d] l IH]; intros m Hnd; [symmetry; apply (map_empty_union m)|].
  apply NoDup_cons in Hnd as [Hk Hnd].
  change (stored_entries keep_all l (<[k := d]> m) = <[k := d]> (list_to_map l) ∪ m).
  rewrite IH by done. rewrite <- insert_union_l, <- insert_union_r; [done|]. by apply not_elem_of_list_to_map_1.
Qed.

(** A table with some entries. *)
Definition table_of (sz : Z) (l : list (K * D)) : option (hashtab K D) :=
  fold_left (fun h x => snd (hashtab_insert h x.1 x.2)) l (hashtab_create sz).

Lemma table_of_counted sz l : 0 < sz < 2 ^ 31 -> NoDup l.*1 -> Z.of_nat (length l) < 2 ^ 32 ->
  counted (table_of sz l) sz (list_to_map l).
Proof.
  intros Hsz Hnd Hl. rewrite <- (map_union_empty (list_to_map l)). unfold table_of.
  assert (forall m h, counted h sz m -> (forall k, k ∈ l.*1 -> m !! k = None) ->
    Z.of_nat (base.size m + length l) < 2 ^ 32 ->
    counted (fold_left (fun h x => snd (hashtab_insert h x.1 x.2)) l h) sz (list_to_map l ∪ m)) as Hf.
  { clear Hl. induction l as [|[k d] l IH]; intros m h Hc Hm Hs; cbn [fold_left list_to_map foldr fst snd length] in *.
    { by rewrite map_empty_union. }
    cbn [fmap list_fmap fst] in Hnd, Hm. apply NoDup_cons in Hnd as [Hk Hnd].
    assert (m !! k = None) as Hmk by (apply Hm; by left).
    rewrite <- insert_union_l, insert_union_r by by apply not_elem_of_list_to_map_1.
    apply (IH Hnd); [apply counted_insert; [done..|lia]| |rewrite map_size_insert_None by done; lia].
    intros k' Hk'. rewrite lookup_insert_ne by congruence. apply Hm. by right. }
  apply Hf; [by apply counted_create|done|rewrite map_size_empty; lia].
Qed.

(** What reading an entry does to a table of its kind. *)
Definition put_entry_of (g : K -> D -> option D) (h : option (hashtab K D)) (k : K) (d : D) : option (hashtab K D) :=
  match g k d with Some d' => snd (hashtab_insert h k d') | None => h end.

(** The writer and the reader of a kind of symbol, which keep [g] of an entry. *)
Definition symbol_codec (ok : K -> D -> Prop) (w : K -> D -> writer)
    (r : option (hashtab K D) -> reader (option (hashtab K D))) (g : K -> D -> option D) : Prop :=
  forall k d h sz m, ok k d -> counted h sz m -> Z.of_nat (base.size m) + 1 < 2 ^ 32 ->
    (g k d <> None -> m !! k = None) -> codec (w k d) (r h) (put_entry_of g h k d).

(** A table whose entries satisfy [ok]. *)
Definition table_ok (ok : K -> D -> Prop) (h : option (hashtab K D)) (sz : Z) : Prop :=
  exists m, counted h sz m /\ Z.of_nat (base.size m) < 2 ^ 32 - 1 /\ map_Forall ok m.

Lemma entries_elem (t : hashtab K D) k d : Hashtab.wf t -> (k, d) ∈ entries t <-> as_map t !! k = Some d.
Proof. intros Hw. rewrite (entries_map t Hw). apply elem_of_map_to_list. Qed.

Lemma entries_length (t : hashtab K D) : Hashtab.wf t -> length (entries t) = base.size (as_map t).
Proof. intros Hw. rewrite (entries_map t Hw). apply length_map_to_list. Qed.

Lemma map_of_entries (t : hashtab K D) : Hashtab.wf t -> list_to_map (entries t) = as_map t.
Proof. done. Qed.

(** A whole table of symbols that are kept as they are, into an empty one of the
    same size, gives the table. *)
Lemma codec_table ok w r (h : option (hashtab K D)) sz :
  symbol_codec ok w r keep_all -> 0 < sz < 2 ^ 31 -> table_ok ok h sz ->
  codec (hashtab_map h w) (times (Z.to_nat (table_nel h)) r (hashtab_create sz)) h.
Proof.
  intros Hs Hsz (m & Hc & Hm & Hok). pose proof Hc as (t & -> & Hw & Hmt & Ht & Hn). subst m.
  cbn [table_nel]. rewrite Hn, Nat2Z.id, <- (entries_length t Hw).
  destruct (codec_entries keep_all w r (entries t) sz (hashtab_create sz) ∅) as (h' & Hd & Hc').
  - by apply counted_create.
  - rewrite map_size_empty, (entries_length t Hw). lia.
  - by apply entries_NoDup.
  - done.
  - intros k d h' m' Hin Hc' Hs' Hg. apply (Hs k d h' sz m'); [|done..].
    apply Hok. by apply entries_elem.
  - rewrite stored_all, map_of_entries, map_union_empty in Hc' by (done || by apply entries_NoDup).
    rewrite (counted_unique _ _ _ _ Hc Hc').
    destruct Hd as (e & He & Hd). exists e. split; [|exact Hd]. intros fp. rewrite <- (counted_unique _ _ _ _ Hc Hc').
    rewrite hashtab_map_chain. apply He.
Qed.

Lemma codec_insert (h : option (hashtab K D)) sz m k d g :
  counted h sz m -> Z.of_nat (base.size m) + 1 < 2 ^ 32 -> (g k d <> None -> m !! k = None) ->
  forall d', g k d = Some d' -> decodes (insert_entry h k d') [] (put_entry_of g h k d).
Proof.
  intros Hc Hs Hg d' Hd. unfold put_entry_of. rewrite Hd. eapply decodes_insert; [done| |done].
  apply Hg. by rewrite Hd.
Qed.

End Tables.
