(* ===== verification/Policysyms.v ===== *)
(** The symbols of a policy on disk: the readers of policydb.c and conditional.c
    and the writers of write.c for the eight kinds of symbols, with the levels and
    ranges of MLS, constraints, and sets of types and roles, for kernel policies
    and modules of every version.

    A reader of a symbol inserts it into the table of its kind; the entries a
    writer sees are those of the table. *)
From S2P Require Import Prelude PolicyFile Ebitmap Hashtab Avtab Policydb Policyrw.

Definition POLICY_KERN := 0.
Definition POLICY_BASE := 1.
Definition POLICY_MOD := 2.

Definition POLICYDB_VERSION_BOOL := 16.
Definition POLICYDB_VERSION_VALIDATETRANS := 19.
Definition POLICYDB_VERSION_MLS := 19.
Definition POLICYDB_VERSION_BOUNDARY := 24.
Definition POLICYDB_VERSION_ROLETRANS := 26.
Definition POLICYDB_VERSION_NEW_OBJECT_DEFAULTS := 27.
Definition POLICYDB_VERSION_DEFAULT_TYPE := 28.
Definition POLICYDB_VERSION_CONSTRAINT_NAMES := 29.
Definition POLICYDB_VERSION_GLBLUB := 32.

Definition MOD_POLICYDB_VERSION_VALIDATETRANS := 5.
Definition MOD_POLICYDB_VERSION_MLS := 5.
Definition MOD_POLICYDB_VERSION_MLS_USERS := 6.
Definition MOD_POLICYDB_VERSION_PERMISSIVE := 8.
Definition MOD_POLICYDB_VERSION_BOUNDARY := 9.
Definition MOD_POLICYDB_VERSION_BOUNDARY_ALIAS := 10.
Definition MOD_POLICYDB_VERSION_ROLEATTRIB := 13.
Definition MOD_POLICYDB_VERSION_TUNABLE_SEP := 14.
Definition MOD_POLICYDB_VERSION_NEW_OBJECT_DEFAULTS := 15.
Definition MOD_POLICYDB_VERSION_DEFAULT_TYPE := 16.
Definition MOD_POLICYDB_VERSION_GLBLUB := 20.

Definition ROLE_ATTRIB := 1.
Definition TYPE_ALIAS := 2.
Definition TYPE_FLAGS_PERMISSIVE := 1.
Definition TYPEDATUM_PROPERTY_PRIMARY := 1.
Definition TYPEDATUM_PROPERTY_ATTRIBUTE := 2.
Definition TYPEDATUM_PROPERTY_ALIAS := 4.
Definition TYPEDATUM_PROPERTY_PERMISSIVE := 8.
Definition CEXPR_MAXDEPTH := 5.
Definition CEXPR_NOT := 1.
Definition CEXPR_AND := 2.
Definition CEXPR_OR := 3.
Definition CEXPR_ATTR := 4.
Definition CEXPR_NAMES := 5.
Definition CEXPR_XTARGET := 16.
Definition PERM_SYMTAB_SIZE := 32.
Definition DEFAULT_GLBLUB := 7.
Definition OBJECT_R : bytes := str "object_r".
Definition OBJECT_R_VAL := 1.

(** ** Data *)

Record role_set := RoleSet { rs_roles : ebitmap; rs_flags : Z }.

Record mls_level := MlsLevel { l_sens : Z; l_cat : ebitmap }.
Record mls_range := MlsRange { r_low : mls_level; r_high : mls_level }.

(** The categories of a semantic level are runs from [low] to [high]. *)
Record mls_semantic_level := SemanticLevel { s_sens : Z; s_cat : list (Z * Z) }.
Record mls_semantic_range := SemanticRange { s_low : mls_semantic_level; s_high : mls_semantic_level }.

Record user_datum := UserDatum {
  user_value : Z; user_roles : role_set; user_range : mls_semantic_range;
  dfltlevel : mls_semantic_level; exp_range : mls_range; exp_dfltlevel : mls_level; user_bounds : Z }.

Record cond_bool_datum := BoolDatum { bool_value : Z; bool_state : Z; bool_flags : Z }.
Record level_datum := LevelDatum { lev_level : mls_level; lev_isalias : Z }.
Record cat_datum := CatDatum { cat_value : Z; cat_isalias : Z }.

Definition type_set_init : type_set := TypeSet ebitmap_init ebitmap_init 0.
Definition role_set_init : role_set := RoleSet ebitmap_init 0.
Definition mls_level_init : mls_level := MlsLevel 0 ebitmap_init.
Definition mls_range_init : mls_range := MlsRange mls_level_init mls_level_init.
Definition mls_semantic_level_init : mls_semantic_level := SemanticLevel 0 [].
Definition mls_semantic_range_init : mls_semantic_range :=
  SemanticRange mls_semantic_level_init mls_semantic_level_init.

(** What a policy is: the kind of policy and its version. *)
Record policy_format := PolicyFormat { policy_type : Z; policyvers : Z }.

Definition kern_at_least (p : policy_format) (v : Z) : bool := (policy_type p =? POLICY_KERN) && (v <=? policyvers p).
Definition base_at_least (p : policy_format) (v : Z) : bool := (policy_type p =? POLICY_BASE) && (v <=? policyvers p).
Definition mod_at_least (p : policy_format) (v : Z) : bool := (policy_type p =? POLICY_MOD) && (v <=? policyvers p).
Definition module_at_least (p : policy_format) (v : Z) : bool :=
  negb (policy_type p =? POLICY_KERN) && (v <=? policyvers p).

Definition policydb_has_boundary_feature (p : policy_format) : bool :=
  kern_at_least p POLICYDB_VERSION_BOUNDARY || module_at_least p MOD_POLICYDB_VERSION_BOUNDARY.

(** Whether users carry expanded ranges, or semantic ones. *)
Definition has_exp_range (p : policy_format) : bool :=
  kern_at_least p POLICYDB_VERSION_MLS ||
  mod_at_least p MOD_POLICYDB_VERSION_MLS && (policyvers p <? MOD_POLICYDB_VERSION_MLS_USERS) ||
  base_at_least p MOD_POLICYDB_VERSION_MLS && (policyvers p <? MOD_POLICYDB_VERSION_MLS_USERS).
Definition has_semantic_range (p : policy_format) : bool :=
  mod_at_least p MOD_POLICYDB_VERSION_MLS_USERS || base_at_least p MOD_POLICYDB_VERSION_MLS_USERS.

Definition has_validatetrans (p : policy_format) : bool :=
  kern_at_least p POLICYDB_VERSION_VALIDATETRANS || base_at_least p MOD_POLICYDB_VERSION_VALIDATETRANS.
Definition has_object_defaults (p : policy_format) : bool :=
  kern_at_least p POLICYDB_VERSION_NEW_OBJECT_DEFAULTS || base_at_least p MOD_POLICYDB_VERSION_NEW_OBJECT_DEFAULTS.
Definition has_default_type (p : policy_format) : bool :=
  kern_at_least p POLICYDB_VERSION_DEFAULT_TYPE || base_at_least p MOD_POLICYDB_VERSION_DEFAULT_TYPE.
Definition glblub_version (p : policy_format) : bool :=
  kern_at_least p POLICYDB_VERSION_GLBLUB || base_at_least p MOD_POLICYDB_VERSION_GLBLUB.
Definition is_kern (p : policy_format) : bool := policy_type p =? POLICY_KERN.

(** [w] is the width of the variable. *)
Definition zero_or_saturated (w x : Z) : bool := (x =? 0) || (x =? 2 ^ w - 1).
Definition unless_zero_or_saturated (w x : Z) : reader unit := ensure (negb (zero_or_saturated w x)).

Definition bit_set (x b : Z) : bool := negb (Z.land x b =? 0).

(** ** Sets, levels and ranges *)

Definition role_set_read : reader role_set :=
  r ← bitmap;
  ws ← words 1;
  mret (RoleSet r (buf ws 0)).

Definition type_set_read : reader type_set :=
  t ← bitmap;
  n ← bitmap;
  ws ← words 1;
  mret (TypeSet t n (buf ws 0)).

Definition mls_read_level : reader mls_level :=
  ws ← words 1;
  c ← bitmap;
  mret (MlsLevel (buf ws 0) c).

(** Without items the level is what the buffer holds, the number of items. *)
Definition mls_read_range_helper : reader mls_range :=
  ws ← words 1;
  let items := buf ws 0 in
  _ ← ensure (negb (2 <? items));
  b ← words items;
  let low := if items =? 0 then items else buf b 0 in
  let high := if 1 <? items then buf b 1 else low in
  c0 ← bitmap;
  c1 ← (if 1 <? items then bitmap else mret c0);
  mret (MlsRange (MlsLevel low c0) (MlsLevel high c1)).

(** A category that is read becomes the first of the list. *)
Definition read_semantic_cat (cats : list (Z * Z)) : reader (list (Z * Z)) :=
  ws ← words 2;
  mret ((buf ws 0, buf ws 1) :: cats).

Definition mls_read_semantic_level_helper : reader mls_semantic_level :=
  ws ← words 2;
  cats ← times (Z.to_nat (buf ws 1)) read_semantic_cat [];
  mret (SemanticLevel (buf ws 0) cats).

Definition mls_read_semantic_range_helper : reader mls_semantic_range :=
  l0 ← mls_read_semantic_level_helper;
  l1 ← mls_read_semantic_level_helper;
  mret (SemanticRange l0 l1).

(** [ebitmap_for_each_bit]: the body for each position [i], and [i] at the end. *)
Fixpoint for_each_bit {A} (fuel : nat) (length : Z) (n : ebitmap_node) (next : list ebitmap_node) (i : Z)
    (body : ebitmap_node -> Z -> A -> A) (a : A) : option (A * Z) :=
  match fuel with
  | O => None
  | S fuel =>
      if i <? length then
        let a := body n i a in
        let '(n, next, i) := ebitmap_next n next i in
        for_each_bit fuel length n next i body a
      else Some (a, i)
  end.

(** Is the first category of the list open?  [high] is set when it is closed. *)
Definition semantic_bit (n : ebitmap_node) (i : Z) (a : bool * list (Z * Z)) : bool * list (Z * Z) :=
  let '(open, cats) := a in
  if ebitmap_node_get_bit n i then
    if open then a else (true, (i + 1, 0) :: cats)
  else
    if negb open then a
    else (false, match cats with c :: cats => (c.1, i) :: cats | [] => [] end).

(** [None]: the bitmap has a length and no node. *)
Definition semantic_cats (e : ebitmap) : option ((bool * list (Z * Z)) * Z) :=
  match node e with
  | [] => if 0 <? ebitmap_length e then None else Some ((false, []), 0)
  | n :: next =>
      for_each_bit (64 * length (node e) + 1) (ebitmap_length e) n next (startbit n) semantic_bit (false, [])
  end.

Definition mls_level_to_semantic (l : mls_level) : option mls_semantic_level :=
  '(a, i) ← semantic_cats (l_cat l);
  Some (SemanticLevel (l_sens l)
          (match a with (true, c :: cats) => (c.1, i) :: cats | (_, cats) => cats end)).

Definition mls_range_to_semantic (r : mls_range) : option mls_semantic_range :=
  l0 ← mls_level_to_semantic (r_low r);
  l1 ← mls_level_to_semantic (r_high r);
  Some (SemanticRange l0 l1).

Definition of_option {A} (o : option A) : reader A := match o with Some a => mret a | None => failure end.

(** ** Writing them *)

Definition role_set_write (x : role_set) : writer :=
  ebitmap_write (rs_roles x) ;;
  put_words [rs_flags x].

Definition type_set_write (x : type_set) : writer :=
  ebitmap_write (ts_types x) ;;
  ebitmap_write (negset x) ;;
  put_words [ts_flags x].

Definition mls_write_level (l : mls_level) : writer :=
  put_words [l_sens l] ;;
  ebitmap_write (l_cat l).

Definition mls_level_eq (l1 l2 : mls_level) : bool :=
  (l_sens l1 =? l_sens l2) && negb (ebitmap_cmp (l_cat l1) (l_cat l2) =? 0).

Definition when (b : bool) (w : writer) : writer := if b then w else skip.

Definition mls_write_range_helper (r : mls_range) : writer :=
  let eq := mls_level_eq (r_high r) (r_low r) in
  let items := [l_sens (r_low r)] ++ (if eq then [] else [l_sens (r_high r)]) in
  put_words (blen items :: items) ;;
  ebitmap_write (l_cat (r_low r)) ;;
  when (negb eq) (ebitmap_write (l_cat (r_high r))).

Definition mls_write_semantic_level_helper (l : mls_semantic_level) : writer :=
  put_words [s_sens l; blen (s_cat l)] ;;
  each (fun c => put_words [c.1; c.2]) (s_cat l).

Definition mls_write_semantic_range_helper (r : mls_semantic_range) : writer :=
  mls_write_semantic_level_helper (s_low r) ;;
  mls_write_semantic_level_helper (s_high r).

(** ** Reading symbols *)

(** The word and the string after it; the string goes into a table as its key. *)
Definition read_key (w len : Z) : reader bytes :=
  _ ← unless_zero_or_saturated w len;
  string_of len.

Section Symbols.
Context `{CharSign} (p : policy_format).
Abbreviation tab D := (option (hashtab bytes D)).

Definition perm_read (h : tab perm_datum) : reader (tab perm_datum) :=
  ws ← words 2;
  key ← read_key 64 (buf ws 0);
  insert_entry h key (buf ws 1).

Definition common_read (h : tab common_datum) : reader (tab common_datum) :=
  ws ← words 4;
  key ← read_key 64 (buf ws 0);
  t ← times (Z.to_nat (buf ws 3)) perm_read (hashtab_create PERM_SYMTAB_SIZE);
  insert_entry h key (CommonDatum (buf ws 1) (Symtab t (buf ws 2))).

(** One expression of a constraint in postfix order: [depth] is the height of the
    stack it is evaluated on, less one. *)
Definition read_expr (allowxtarget : bool) (st : Z * list constraint_expr)
    : reader (Z * list constraint_expr) :=
  let '(depth, es) := st in
  ws ← words 3;
  let ty := buf ws 0 in
  let e names ts := ConstraintExpr ty (buf ws 1) (buf ws 2) names ts in
  if ty =? CEXPR_NOT then
    _ ← ensure (negb (depth <? 0));
    mret (depth, es ++ [e ebitmap_init type_set_init])
  else if (ty =? CEXPR_AND) || (ty =? CEXPR_OR) then
    _ ← ensure (negb (depth <? 1));
    mret (depth - 1, es ++ [e ebitmap_init type_set_init])
  else if ty =? CEXPR_ATTR then
    _ ← ensure (negb (depth =? CEXPR_MAXDEPTH - 1));
    mret (depth + 1, es ++ [e ebitmap_init type_set_init])
  else if ty =? CEXPR_NAMES then
    _ ← ensure (negb (negb allowxtarget && bit_set (buf ws 1) CEXPR_XTARGET));
    _ ← ensure (negb (depth =? CEXPR_MAXDEPTH - 1));
    names ← bitmap;
    ts ← (if negb (is_kern p) || kern_at_least p POLICYDB_VERSION_CONSTRAINT_NAMES
          then type_set_read else mret type_set_init);
    mret (depth + 1, es ++ [e names ts])
  else failure.

Definition read_constraint (allowxtarget : bool) (l : list constraint_node) : reader (list constraint_node) :=
  ws ← words 2;
  r ← times (Z.to_nat (buf ws 1)) (read_expr allowxtarget) (-1, []);
  _ ← ensure (fst r =? 0);
  mret (l ++ [ConstraintNode (buf ws 0) (snd r)]).

Definition read_cons_helper (ncons : Z) (allowxtarget : bool) : reader (list constraint_node) :=
  times (Z.to_nat ncons) (read_constraint allowxtarget) [].

(** A word as a [char]. *)
Definition to_char (x : Z) : Z := char_value (u8 x).

(** The name of a common and the common, which must be known. *)
Definition read_common_name (commons : tab common_datum) (len2 : Z)
    : reader (option bytes * option common_datum) :=
  if negb (len2 =? 0) then
    k ← string_of len2;
    match hashtab_search commons k with
    | None => failure
    | Some c => mret (Some k, Some c)
    end
  else mret (None, None).

Definition class_read (commons : tab common_datum) (h : tab class_datum) : reader (tab class_datum) :=
  ws ← words 6;
  key ← read_key 64 (buf ws 0);
  com ← read_common_name commons (buf ws 1);
  t ← times (Z.to_nat (buf ws 4)) perm_read (hashtab_create PERM_SYMTAB_SIZE);
  cons ← read_cons_helper (buf ws 5) false;
  vt ← (if has_validatetrans p then
          ws ← words 1; read_cons_helper (buf ws 0) true
        else mret []);
  ds ← (if has_object_defaults p then words 3 else mret [0; 0; 0]);
  dt ← (if has_default_type p then words 1 else mret [0]);
  insert_entry h key
    (ClassDatum (buf ws 2) (fst com) (snd com) (Symtab t (buf ws 3)) cons vt
       (to_char (buf ds 0)) (to_char (buf ds 1)) (to_char (buf dt 0)) (to_char (buf ds 2))).

(** The role [object_r] is in the table from the beginning. *)
Definition role_read (h : tab role_datum) : reader (tab role_datum) :=
  ws ← words (if policydb_has_boundary_feature p then 3 else 2);
  key ← read_key 64 (buf ws 0);
  dom ← bitmap;
  types ← (if is_kern p then t ← bitmap; mret (TypeSet t ebitmap_init 0) else type_set_read);
  fr ← (if module_at_least p MOD_POLICYDB_VERSION_ROLEATTRIB then
          f ← words 1; r ← bitmap; mret (buf f 0, r)
        else mret (0, ebitmap_init));
  if bool_decide (key = OBJECT_R) then
    _ ← ensure (buf ws 1 =? OBJECT_R_VAL);
    mret h
  else
    insert_entry h key
      (RoleDatum (buf ws 1) dom types (if policydb_has_boundary_feature p then buf ws 2 else 0)
         (fst fr) (snd fr)).

(** The words of a type, without its name's length. *)
Definition type_fields (ws : list Z) : type_datum :=
  if policydb_has_boundary_feature p then
    let alias := module_at_least p MOD_POLICYDB_VERSION_BOUNDARY_ALIAS in
    let properties := buf ws (if alias then 3 else 2) in
    let primary := if alias then buf ws 2
                   else if bit_set properties TYPEDATUM_PROPERTY_PRIMARY then 1 else 0 in
    let flavor := if bit_set properties TYPEDATUM_PROPERTY_ATTRIBUTE then TYPE_ATTRIB else 0 in
    let flavor := if bit_set properties TYPEDATUM_PROPERTY_ALIAS && negb (is_kern p) then TYPE_ALIAS else flavor in
    let flags := if bit_set properties TYPEDATUM_PROPERTY_PERMISSIVE && negb (is_kern p)
                 then TYPE_FLAGS_PERMISSIVE else 0 in
    TypeDatum (buf ws 1) primary flavor ebitmap_init flags (buf ws (if alias then 4 else 3))
  else
    let flavor := if negb (is_kern p) then buf ws 3 else 0 in
    let flags := if module_at_least p MOD_POLICYDB_VERSION_PERMISSIVE then buf ws 4 else 0 in
    TypeDatum (buf ws 1) (buf ws 2) flavor ebitmap_init flags 0.

Definition type_to_read : Z :=
  if policydb_has_boundary_feature p then
    if module_at_least p MOD_POLICYDB_VERSION_BOUNDARY_ALIAS then 5 else 4
  else if is_kern p then 3
  else if MOD_POLICYDB_VERSION_PERMISSIVE <=? policyvers p then 5 else 4.

Definition with_type_types (t : type_datum) (e : ebitmap) : type_datum :=
  TypeDatum (type_value t) (primary t) (flavor t) e (type_flags t) (bounds t).

Definition type_read (h : tab type_datum) : reader (tab type_datum) :=
  ws ← words type_to_read;
  _ ← unless_zero_or_saturated 64 (buf ws 0);
  types ← (if negb (is_kern p) then bitmap else mret ebitmap_init);
  key ← string_of (buf ws 0);
  insert_entry h key (with_type_types (type_fields ws) types).

(** The ranges and the level of a user: expanded, and semantic. *)
Definition read_user_mls : reader (mls_range * mls_level * mls_semantic_range * mls_semantic_level) :=
  if has_exp_range p then
    r ← mls_read_range_helper;
    l ← mls_read_level;
    if negb (is_kern p) then
      sr ← of_option (mls_range_to_semantic r);
      sl ← of_option (mls_level_to_semantic l);
      mret (r, l, sr, sl)
    else mret (r, l, mls_semantic_range_init, mls_semantic_level_init)
  else if has_semantic_range p then
    sr ← mls_read_semantic_range_helper;
    sl ← mls_read_semantic_level_helper;
    mret (mls_range_init, mls_level_init, sr, sl)
  else mret (mls_range_init, mls_level_init, mls_semantic_range_init, mls_semantic_level_init).

Definition user_read (h : tab user_datum) : reader (tab user_datum) :=
  ws ← words (if policydb_has_boundary_feature p then 3 else 2);
  key ← read_key 64 (buf ws 0);
  roles ← (if is_kern p then r ← bitmap; mret (RoleSet r 0) else role_set_read);
  '(r, l, sr, sl) ← read_user_mls;
  insert_entry h key
    (UserDatum (buf ws 1) roles sr sl r l (if policydb_has_boundary_feature p then buf ws 2 else 0)).

Definition bool_isvalid (state : Z) : bool := (state =? 0) || (state =? 1).

Definition cond_read_bool (h : tab cond_bool_datum) : reader (tab cond_bool_datum) :=
  ws ← words 3;
  _ ← ensure (bool_isvalid (s32 (buf ws 1)));
  key ← read_key 64 (buf ws 2);
  fl ← (if module_at_least p MOD_POLICYDB_VERSION_TUNABLE_SEP then words 1 else mret [0]);
  insert_entry h key (BoolDatum (buf ws 0) (s32 (buf ws 1)) (buf fl 0)).

Definition sens_read (h : tab level_datum) : reader (tab level_datum) :=
  ws ← words 2;
  key ← read_key 32 (buf ws 0);
  l ← mls_read_level;
  insert_entry h key (LevelDatum l (u8 (buf ws 1))).

Definition cat_read (h : tab cat_datum) : reader (tab cat_datum) :=
  ws ← words 3;
  key ← read_key 32 (buf ws 0);
  insert_entry h key (CatDatum (buf ws 1) (u8 (buf ws 2))).

(** ** Writing symbols *)

Definition perm_write (key : bytes) (d : perm_datum) : writer :=
  put_words [blen key; d] ;;
  put_string key.

Definition common_write (key : bytes) (d : common_datum) : writer :=
  put_words [blen key; com_value d; nprim (com_permissions d); table_nel (table (com_permissions d))] ;;
  put_string key ;;
  hashtab_map (table (com_permissions d)) perm_write.

Definition write_expr (allowxtarget : bool) (e : constraint_expr) : writer :=
  put_words [e_expr_type e; e_attr e; e_op e] ;;
  when (e_expr_type e =? CEXPR_NAMES)
    (if negb allowxtarget && bit_set (e_attr e) CEXPR_XTARGET then fun fp => (POLICYDB_ERROR, fp)
     else
       ebitmap_write (e_names e) ;;
       when (negb (is_kern p) || kern_at_least p POLICYDB_VERSION_CONSTRAINT_NAMES)
         (type_set_write (e_type_names e))).

Definition write_cons_helper (allowxtarget : bool) (l : list constraint_node) : writer :=
  each (fun c => put_words [c_permissions c; blen (c_expr c)] ;; each (write_expr allowxtarget) (c_expr c)) l.

(** [default_range] is also cleared in the table when the version has no GLBLUB. *)
Definition kept_default_range (d : class_datum) : Z :=
  if negb (glblub_version p) && (default_range d =? DEFAULT_GLBLUB) then 0 else default_range d.

Definition class_write (key : bytes) (d : class_datum) : writer :=
  put_words [blen key; match comkey d with Some k => blen k | None => 0 end; cls_value d;
             nprim (permissions d); table_nel (table (permissions d)); blen (constraints d)] ;;
  put_string key ;;
  match comkey d with Some k => put_string k | None => skip end ;;
  hashtab_map (table (permissions d)) perm_write ;;
  write_cons_helper false (constraints d) ;;
  when (has_validatetrans p)
    (put_words [blen (validatetrans d)] ;; write_cons_helper true (validatetrans d)) ;;
  when (has_object_defaults p) (put_words [u32 (default_user d); u32 (default_role d); u32 (kept_default_range d)]) ;;
  when (has_default_type p) (put_words [u32 (default_type d)]).

(** Role attributes are left out of kernel policies and old modules. *)
Definition omits_role (d : role_datum) : bool :=
  (role_flavor d =? ROLE_ATTRIB) &&
  (is_kern p || negb (is_kern p) && (policyvers p <? MOD_POLICYDB_VERSION_ROLEATTRIB)).

Definition role_write (key : bytes) (d : role_datum) : writer :=
  if omits_role d then skip
  else
    put_words ([blen key; role_value d] ++ if policydb_has_boundary_feature p then [role_bounds d] else []) ;;
    put_string key ;;
    ebitmap_write (dominates d) ;;
    (if is_kern p then
       ebitmap_write (if role_value d =? OBJECT_R_VAL then ebitmap_init else ts_types (role_types d))
     else type_set_write (role_types d)) ;;
    when (module_at_least p MOD_POLICYDB_VERSION_ROLEATTRIB)
      (put_words [role_flavor d] ;; ebitmap_write (role_roles d)).

(** Attributes are left out of old kernel policies. *)
Definition omits_type (d : type_datum) : bool :=
  is_kern p && (policyvers p <? POLICYDB_VERSION_BOUNDARY) && (flavor d =? TYPE_ATTRIB).

Definition type_properties (d : type_datum) : Z :=
  let f (b : bool) (x : Z) := if b then x else 0 in
  Z.lor (f (negb (primary d =? 0)) TYPEDATUM_PROPERTY_PRIMARY)
    (Z.lor (if flavor d =? TYPE_ATTRIB then TYPEDATUM_PROPERTY_ATTRIBUTE
            else f ((flavor d =? TYPE_ALIAS) && negb (is_kern p)) TYPEDATUM_PROPERTY_ALIAS)
       (f (bit_set (type_flags d) TYPE_FLAGS_PERMISSIVE && negb (is_kern p)) TYPEDATUM_PROPERTY_PERMISSIVE)).

Definition type_words (d : type_datum) : list Z :=
  if policydb_has_boundary_feature p then
    (if module_at_least p MOD_POLICYDB_VERSION_BOUNDARY_ALIAS then [primary d] else []) ++
    [type_properties d; bounds d]
  else
    primary d :: if negb (is_kern p) then
                   flavor d :: if MOD_POLICYDB_VERSION_PERMISSIVE <=? policyvers p then [type_flags d] else []
                 else [].

Definition type_write (key : bytes) (d : type_datum) : writer :=
  if omits_type d then skip
  else
    put_words ([blen key; type_value d] ++ type_words d) ;;
    when (negb (is_kern p)) (ebitmap_write (type_types d)) ;;
    put_string key.

Definition user_write (key : bytes) (d : user_datum) : writer :=
  put_words ([blen key; user_value d] ++ if policydb_has_boundary_feature p then [user_bounds d] else []) ;;
  put_string key ;;
  (if is_kern p then ebitmap_write (rs_roles (user_roles d)) else role_set_write (user_roles d)) ;;
  (if has_exp_range p then
     mls_write_range_helper (exp_range d) ;;
     mls_write_level (exp_dfltlevel d)
   else
     when (has_semantic_range p)
       (mls_write_semantic_range_helper (user_range d) ;;
        mls_write_semantic_level_helper (dfltlevel d))).

Definition cond_write_bool (key : bytes) (d : cond_bool_datum) : writer :=
  put_words [bool_value d; bool_state d; blen key] ;;
  put_string key ;;
  when (module_at_least p MOD_POLICYDB_VERSION_TUNABLE_SEP) (put_words [bool_flags d]).

Definition sens_write (key : bytes) (d : level_datum) : writer :=
  put_words [blen key; lev_isalias d] ;;
  put_string key ;;
  mls_write_level (lev_level d).

Definition cat_write (key : bytes) (d : cat_datum) : writer :=
  put_words [blen key; cat_value d; cat_isalias d] ;;
  put_string key.

End Symbols.

(** ** What a policy keeps of a symbol *)

Definition name_ok (s : bytes) : Prop := 0 < blen s < 2 ^ 32 - 1 /\ ~ In 0 s.

Definition type_set_ok (t : type_set) : Prop :=
  Ebitmap.wf (ts_types t) /\ Ebitmap.wf (negset t) /\ is_u32 (ts_flags t).
Definition role_set_ok (r : role_set) : Prop := Ebitmap.wf (rs_roles r) /\ is_u32 (rs_flags r).
Definition level_ok (l : mls_level) : Prop := is_u32 (l_sens l) /\ Ebitmap.wf (l_cat l).
Definition range_ok (r : mls_range) : Prop := level_ok (r_low r) /\ level_ok (r_high r).
Definition semantic_ok (l : mls_semantic_level) : Prop :=
  is_u32 (s_sens l) /\ blen (s_cat l) < 2 ^ 32 /\ Forall (fun c => is_u32 c.1 /\ is_u32 c.2) (s_cat l).

(** A list of categories is read in the opposite order. *)
Definition stored_semantic (l : mls_semantic_level) : mls_semantic_level := SemanticLevel (s_sens l) (rev (s_cat l)).
Definition stored_semantic_range (r : mls_semantic_range) : mls_semantic_range :=
  SemanticRange (stored_semantic (s_low r)) (stored_semantic (s_high r)).

(** ** Round trips of the parts *)

Lemma is_u32_blen {A} (l : list A) : blen l < 2 ^ 32 -> is_u32 (blen l).
Proof. intros Hl. pose proof (blen_nonneg l). unfold is_u32. lia. Qed.

(** Each word of a list is in range. *)
Ltac u32s := repeat first [apply Forall_nil_2 | apply Forall_cons_2];
  first [assumption | by apply is_u32_blen | done | unfold is_u32; pow2; lia].

Lemma codec_when {A} (b : bool) w (r : reader A) a d :
  (b = true -> codec w r a) -> codec (when b w) (if b then r else mret d) (if b then a else d).
Proof. intros Hw. destruct b; [by apply Hw|apply codec_skip]. Qed.

Lemma codec_key w s : w = 32 \/ w = 64 -> name_ok s -> codec (put_string s) (read_key w (blen s)) s.
Proof.
  intros Hw [Hl Hn]. unfold read_key, unless_zero_or_saturated. apply codec_ensure.
  - unfold zero_or_saturated. destruct Hw as [-> | ->];
      rewrite !(proj2 (Z.eqb_neq _ _)) by (pow2; lia); done.
  - by apply codec_string.
Qed.

Lemma codec_type_set t : type_set_ok t -> codec (type_set_write t) type_set_read t.
Proof.
  intros (Ht & Hn & Hf). eapply codec_bind; [by apply codec_bitmap|].
  eapply codec_bind; [by apply codec_bitmap|].
  eapply codec_last; [apply (codec_words 1); [done|u32s]|]. by destruct t.
Qed.

Lemma codec_role_set r : role_set_ok r -> codec (role_set_write r) role_set_read r.
Proof.
  intros (Ht & Hf). eapply codec_bind; [by apply codec_bitmap|].
  eapply codec_last; [apply (codec_words 1); [done|u32s]|]. by destruct r.
Qed.

Lemma codec_level l : level_ok l -> codec (mls_write_level l) mls_read_level l.
Proof.
  intros (Hs & Hc). eapply codec_bind; [apply (codec_words 1); [done|u32s]|].
  eapply codec_last; [by apply codec_bitmap|]. by destruct l.
Qed.

(** The words of a range are read in two parts. *)
Lemma codec_words_split {A} ws1 ws2 w2 n1 n2 (g f : list Z -> reader A) a :
  blen ws1 = n1 -> blen ws2 = n2 -> Forall is_u32 ws1 -> Forall is_u32 ws2 ->
  (forall e b, decodes (words n2 ≫= f) e b -> decodes (g ws1) e b) -> codec w2 (f ws2) a ->
  codec (put_words (ws1 ++ ws2) ;; w2) (words n1 ≫= g) a.
Proof.
  intros H1 H2 Hu1 Hu2 Hg (e & Hw & Hd).
  exists ((concat (map (le_bytes 4) ws1) ++ concat (map (le_bytes 4) ws2)) ++ e). split.
  - apply writes_andthen; [|done]. rewrite <- concat_app, <- map_app. apply writes_words.
  - rewrite <- app_assoc. eapply decodes_bind; [by apply decodes_words|].
    apply Hg. by eapply decodes_bind; [by apply decodes_words|].
Qed.

Lemma codec_range r : range_ok r -> codec (mls_write_range_helper r) mls_read_range_helper r.
Proof.
  destruct r as [[s0 c0] [s1 c1]]. intros [[Hs0 Hc0] [Hs1 Hc1]]. cbn [l_sens l_cat r_low r_high] in *.
  assert (Forall is_u32 [s0; s1]) by u32s.
  unfold mls_write_range_helper, mls_read_range_helper, mls_level_eq. cbn [l_sens l_cat r_low r_high].
  assert (s1 = s0 /\ c1 = c0 \/ (s1 =? s0) && negb (ebitmap_cmp c1 c0 =? 0) = false) as [[-> ->]|Hne].
  { rewrite cmp_eq. destruct (Z.eqb_spec s1 s0) as [->|]; [|by right]. case_decide; [by left|by right]. }
  - rewrite Z.eqb_refl, cmp_eq, decide_True by done.
    apply (codec_words_split [1] [s0] _ 1 1 _ (fun b =>
      c0 ← bitmap; mret (MlsRange (MlsLevel (buf b 0) c0) (MlsLevel (buf b 0) c0))));
      [done|done|u32s|u32s| |].
    + intros e b Hd. by apply decodes_ensure.
    + eapply codec_bind; [by apply codec_bitmap|]. apply codec_skip.
  - rewrite Hne. cbn [negb when].
    apply (codec_words_split [2] [s0; s1] _ 1 2 _ (fun b =>
      c0 ← bitmap; c1 ← bitmap; mret (MlsRange (MlsLevel (buf b 0) c0) (MlsLevel (buf b 1) c1))));
      [done|done|u32s|done| |].
    + intros e b Hd. by apply decodes_ensure.
    + eapply codec_bind; [by apply codec_bitmap|]. eapply codec_last; [by apply codec_bitmap|]. apply decodes_ret.
Qed.

Lemma codec_semantic l : semantic_ok l ->
  codec (mls_write_semantic_level_helper l) mls_read_semantic_level_helper (stored_semantic l).
Proof.
  intros (Hs & Hl & Hc). eapply codec_bind.
  { apply (codec_words 2); [done|]. u32s. }
  cbn [buf lookup list_lookup default]. eapply codec_last.
  - apply (codec_times (fun c : Z * Z => put_words [c.1; c.2]) _ (fun l c => c :: l)); [unfold blen; cbn; lia|].
    intros l1 c l2 E. rewrite E in Hc. apply Forall_app in Hc as [_ [[Hc1 Hc2] _]%Forall_cons].
    eapply codec_last; [apply (codec_words 2); [done|u32s]|]. by destruct c.
  - assert (forall l k : list (Z * Z), fold_left (fun l c => c :: l) l k = rev l ++ k) as Hrev.
    { intros l'. induction l' as [|x l' IH]; intros k; [done|]. cbn. by rewrite IH, <- app_assoc. }
    rewrite Hrev, app_nil_r. apply decodes_ret.
Qed.

Lemma codec_semantic_range r : semantic_ok (s_low r) -> semantic_ok (s_high r) ->
  codec (mls_write_semantic_range_helper r) mls_read_semantic_range_helper (stored_semantic_range r).
Proof.
  intros H0 H1. eapply codec_bind; [by apply codec_semantic|].
  eapply codec_last; [by apply codec_semantic|]. apply decodes_ret.
Qed.

(** Every level of a policy has a semantic one. *)
Lemma for_each_bit_total {A} fuel len n next i (body : ebitmap_node -> Z -> A -> A) a d :
  nodes_ok (startbit n) (n :: next) -> startbit n <= i <= startbit n + 64 ->
  (i = startbit n + 64 -> next = []) -> len = top d (n :: next) ->
  startbit n + 64 - i + 64 * blen next < Z.of_nat fuel ->
  is_Some (for_each_bit fuel len n next i body a).
Proof.
  revert n next i a d. induction fuel as [|fuel IH]; intros n next i a d H Hi Hl Hlen Hf.
  { pose proof (blen_nonneg next). lia. }
  pose proof H as (_ & O & H'). rewrite top_cons in Hlen.
  pose proof (top_ge _ _ _ H' (Z.le_refl _)) as Htop. cbn [for_each_bit].
  destruct (Z.ltb_spec i len) as [Hlt|]; [|by eexists].
  assert (Hin : i < startbit n + 64).
  { destruct (decide (i < startbit n + 64)); [done|].
    assert (i = startbit n + 64) as E by lia. rewrite (Hl E) in Hlen. cbn in Hlen. lia. }
  unfold ebitmap_next, MAPSIZE. destruct (Z.eqb_spec i (startbit n + 64 - 1)) as [E|E]; [destruct next as [|m next]|].
  - apply (IH _ _ _ _ d); [done|lia|done|by rewrite top_cons|lia].
  - rewrite blen_cons in Hf. pose proof H' as (? & ? & ?).
    apply (IH _ _ _ _ (startbit n + 64)); [by split|lia|lia|done|lia].
  - apply (IH _ _ _ _ d); [done|lia|lia|by rewrite top_cons|lia].
Qed.

Lemma semantic_total l : Ebitmap.wf (l_cat l) -> exists sl, mls_level_to_semantic l = Some sl.
Proof.
  intros [Hn Hh]. unfold mls_level_to_semantic, semantic_cats, ebitmap_length. rewrite Hh.
  destruct (node (l_cat l)) as [|n next]; [by eexists|].
  destruct (for_each_bit_total (64 * length (n :: next) + 1) (top 0 (n :: next)) n next (startbit n)
    semantic_bit (false, []) 0) as [[a i] E]; try done.
  - destruct Hn as (_ & ? & ?). by split.
  - lia.
  - lia.
  - unfold blen. cbn [length]. lia.
  - rewrite E. by eexists.
Qed.

(** ** Round trips of symbols *)

Section Codecs.
Context `{CharSign} (p : policy_format).

(** What is asked of a name: that it can be written, at least. *)
Context (named : bytes -> Prop) (named_ok : forall s, named s -> name_ok s).
Abbreviation tab D := (option (hashtab bytes D)).

Definition perm_ok (k : bytes) (d : perm_datum) : Prop := named k /\ is_u32 d.

Lemma named_u32 k : named k -> is_u32 (blen k).
Proof using named_ok. intros [Hl _]%named_ok. unfold is_u32. lia. Qed.

Lemma codec_named w k : w = 32 \/ w = 64 -> named k -> codec (put_string k) (read_key w (blen k)) k.
Proof using named_ok. intros Hw Hk. by apply codec_key, named_ok. Qed.

Lemma perm_codec : symbol_codec perm_ok perm_write perm_read keep_all.
Proof.
  intros k d h sz m [Hk Hd] Hc Hs Hg. eapply codec_bind; [apply (codec_words 2); [done|]|].
  { apply Forall_cons_2; [by apply named_u32|u32s]. }
  eapply codec_last; [apply codec_named; [by right|done]|]. by eapply codec_insert.
Qed.

Definition perms_ok (s : symtab perm_datum) : Prop :=
  table_ok perm_ok (table s) PERM_SYMTAB_SIZE /\ is_u32 (nprim s).

Lemma table_nel_u32 {D} ok (h : tab D) sz : table_ok ok h sz -> is_u32 (table_nel h).
Proof. intros (m & (t & -> & _ & _ & _ & Hn) & Hm & _). cbn. unfold is_u32. lia. Qed.

Definition common_ok (k : bytes) (d : common_datum) : Prop :=
  named k /\ is_u32 (com_value d) /\ perms_ok (com_permissions d).

Lemma common_codec : symbol_codec common_ok common_write common_read keep_all.
Proof.
  intros k d h sz m (Hk & Hv & Hp & Hn) Hc Hs Hg. pose proof (table_nel_u32 _ _ _ Hp) as Hnel.
  eapply codec_bind; [apply (codec_words 4); [done|]|].
  { apply Forall_cons_2; [by apply named_u32|u32s]. }
  eapply codec_bind; [apply codec_named; [by right|done]|].
  eapply codec_last; [apply (codec_table perm_ok); [apply perm_codec|done|exact Hp]|].
  eapply codec_insert; [done..|]. destruct d as [v [t n]]. done.
Qed.

(** *** Constraints *)

(** The height of the stack less one after an expression; [None]: refused. *)
Definition expr_depth (allowxtarget : bool) (e : constraint_expr) (depth : Z) : option Z :=
  let ty := e_expr_type e in
  if ty =? CEXPR_NOT then if depth <? 0 then None else Some depth
  else if (ty =? CEXPR_AND) || (ty =? CEXPR_OR) then if depth <? 1 then None else Some (depth - 1)
  else if ty =? CEXPR_ATTR then if depth =? CEXPR_MAXDEPTH - 1 then None else Some (depth + 1)
  else if ty =? CEXPR_NAMES then
    if negb allowxtarget && bit_set (e_attr e) CEXPR_XTARGET then None
    else if depth =? CEXPR_MAXDEPTH - 1 then None else Some (depth + 1)
  else None.

Fixpoint exprs_depth (allowxtarget : bool) (l : list constraint_expr) (depth : Z) : option Z :=
  match l with
  | [] => Some depth
  | e :: l => d ← expr_depth allowxtarget e depth; exprs_depth allowxtarget l d
  end.

Definition has_type_names : bool := negb (is_kern p) || kern_at_least p POLICYDB_VERSION_CONSTRAINT_NAMES.

Definition stored_expr (e : constraint_expr) : constraint_expr :=
  if e_expr_type e =? CEXPR_NAMES then
    ConstraintExpr (e_expr_type e) (e_attr e) (e_op e) (e_names e)
      (if has_type_names then e_type_names e else type_set_init)
  else ConstraintExpr (e_expr_type e) (e_attr e) (e_op e) ebitmap_init type_set_init.

Definition expr_ok (e : constraint_expr) : Prop :=
  is_u32 (e_expr_type e) /\ is_u32 (e_attr e) /\ is_u32 (e_op e) /\ Ebitmap.wf (e_names e) /\
  type_set_ok (e_type_names e).

Definition stored_constraint (c : constraint_node) : constraint_node :=
  ConstraintNode (c_permissions c) (map stored_expr (c_expr c)).

Definition constraint_ok (allowxtarget : bool) (c : constraint_node) : Prop :=
  is_u32 (c_permissions c) /\ blen (c_expr c) < 2 ^ 32 /\ Forall expr_ok (c_expr c) /\
  exprs_depth allowxtarget (c_expr c) (-1) = Some 0.

Lemma codec_expr x e depth d es : expr_ok e -> expr_depth x e depth = Some d ->
  codec (write_expr p x e) (read_expr p x (depth, es)) (d, es ++ [stored_expr e]).
Proof.
  intros (Ht & Ha & Ho & Hn & Hts) Hd. unfold write_expr, read_expr, stored_expr, expr_depth in *.
  eapply codec_bind; [apply (codec_words 3); [done|u32s]|]. cbn [buf lookup list_lookup default]. unfold id.
  destruct (Z.eqb_spec (e_expr_type e) CEXPR_NOT) as [->|_].
  { destruct (depth <? 0) eqn:E; [done|]. injection Hd as <-. apply codec_ensure; [done|]. apply codec_skip. }
  destruct ((e_expr_type e =? CEXPR_AND) || (e_expr_type e =? CEXPR_OR)) eqn:E2.
  { destruct (depth <? 1) eqn:E; [done|]. injection Hd as <-. apply codec_ensure; [done|].
    apply orb_true_iff in E2 as [->%Z.eqb_eq| ->%Z.eqb_eq]; apply codec_skip. }
  destruct (Z.eqb_spec (e_expr_type e) CEXPR_ATTR) as [->|_].
  { destruct (depth =? CEXPR_MAXDEPTH - 1) eqn:E; [done|]. injection Hd as <-. apply codec_ensure; [done|].
    apply codec_skip. }
  destruct (Z.eqb_spec (e_expr_type e) CEXPR_NAMES) as [->|_]; [|done].
  destruct (negb x && bit_set (e_attr e) CEXPR_XTARGET) eqn:E3; [done|].
  destruct (depth =? CEXPR_MAXDEPTH - 1) eqn:E; [done|]. injection Hd as <-. cbn [when].
  apply codec_ensure; [done|]. apply codec_ensure; [done|].
  eapply codec_bind; [by apply codec_bitmap|]. fold has_type_names.
  eapply codec_last; [apply codec_when; intros _; by apply codec_type_set|]. apply decodes_ret.
Qed.

Lemma codec_exprs x l depth d es : Forall expr_ok l -> exprs_depth x l depth = Some d ->
  codec (each (write_expr p x) l) (times (length l) (read_expr p x) (depth, es)) (d, es ++ map stored_expr l).
Proof.
  revert depth es. induction l as [|e l IH]; intros depth es Hl Hd; cbn [exprs_depth] in Hd.
  { injection Hd as <-. rewrite app_nil_r. apply codec_skip. }
  apply Forall_cons in Hl as [He Hl]. destruct (expr_depth x e depth) as [d1|] eqn:E; [|done].
  cbn [each times length map]. eapply codec_bind; [by eapply codec_expr|].
  specialize (IH d1 (es ++ [stored_expr e]) Hl Hd). by rewrite <- app_assoc in IH.
Qed.

Lemma codec_cons x l : Forall (constraint_ok x) l ->
  codec (write_cons_helper p x l) (read_cons_helper p (blen l) x) (map stored_constraint l).
Proof.
  intros Hl. unfold write_cons_helper, read_cons_helper.
  rewrite <- (app_nil_l (map _ l)), <- (fold_snoc stored_constraint l []).
  apply codec_times; [unfold blen; lia|]. intros l1 c l2 E. rewrite E in Hl.
  apply Forall_app in Hl as [_ [(Hp & Hb & He & Hd) _]%Forall_cons].
  eapply codec_bind; [apply (codec_words 2); [done|u32s]|]. cbn [buf lookup list_lookup default]. unfold id.
  eapply codec_last.
  - replace (Z.to_nat (blen (c_expr c))) with (length (c_expr c)) by (unfold blen; lia).
    by apply (codec_exprs x _ (-1) 0 []).
  - apply decodes_ensure; [done|]. apply decodes_ret.
Qed.

(** *** Classes *)

(** A value of type [char]. *)
Definition char_ok (x : Z) : Prop := to_char (u32 x) = x.

Definition class_ok (commons : tab common_datum) (k : bytes) (d : class_datum) : Prop :=
  named k /\ is_u32 (cls_value d) /\ perms_ok (permissions d) /\
  match comkey d with
  | Some c => named c /\ comdatum d <> None /\ hashtab_search commons c = comdatum d
  | None => comdatum d = None
  end /\
  (blen (constraints d) < 2 ^ 32 /\ Forall (constraint_ok false) (constraints d)) /\
  (blen (validatetrans d) < 2 ^ 32 /\ Forall (constraint_ok true) (validatetrans d)) /\
  char_ok (default_user d) /\ char_ok (default_role d) /\ char_ok (default_type d) /\ char_ok (default_range d).

Definition stored_class (d : class_datum) : class_datum :=
  let f (b : bool) (x : Z) := if b then x else 0 in
  ClassDatum (cls_value d) (comkey d) (comdatum d) (permissions d)
    (map stored_constraint (constraints d))
    (if has_validatetrans p then map stored_constraint (validatetrans d) else [])
    (f (has_object_defaults p) (default_user d)) (f (has_object_defaults p) (default_role d))
    (f (has_default_type p) (default_type d)) (f (has_object_defaults p) (kept_default_range p d)).

Lemma zero_char : char_ok 0.
Proof. unfold char_ok, to_char, char_value. by rewrite andb_false_r. Qed.

Lemma codec_common_name commons (ck : option bytes) (cd : option common_datum) :
  match ck with
  | Some c => named c /\ cd <> None /\ hashtab_search commons c = cd
  | None => cd = None
  end ->
  codec (match ck with Some k => put_string k | None => skip end)
    (read_common_name commons (match ck with Some k => blen k | None => 0 end)) (ck, cd).
Proof.
  unfold read_common_name. destruct ck as [c|]; [|intros ->; apply codec_skip]. intros (Hc & Hd & Hs).
  destruct (named_ok _ Hc) as [Hl Hn]. replace (blen c =? 0) with false by lia. cbn [negb].
  eapply codec_last; [by apply codec_string|]. rewrite Hs. destruct cd; [apply decodes_ret|done].
Qed.

Lemma kept_range_ok d : char_ok (default_range d) -> char_ok (kept_default_range p d).
Proof. unfold kept_default_range. case_match; [by intros; apply zero_char|done]. Qed.

Lemma class_codec commons :
  symbol_codec (class_ok commons) (class_write p) (class_read p commons) (fun _ d => Some (stored_class d)).
Proof.
  intros k d h sz m (Hk & Hv & [Hp Hn] & Hcom & [Hc1 Hc2] & [Hv1 Hv2] & Hdu & Hdr & Hdt & Hdg) Hc Hs Hg.
  pose proof (table_nel_u32 _ _ _ Hp) as Hnel. pose proof (named_u32 k Hk).
  assert (is_u32 (match comkey d with Some c => blen c | None => 0 end)).
  { destruct (comkey d) as [c|]; [|u32s]. apply named_u32. by destruct Hcom. }
  pose proof (kept_range_ok d Hdg) as Hkr.
  pose proof u32_range as Hu.
  eapply codec_bind; [apply (codec_words 6); [done|u32s]|]. cbn [buf lookup list_lookup default]. unfold id.
  eapply codec_bind; [apply codec_named; [by right|done]|].
  eapply codec_bind; [by apply codec_common_name|].
  eapply codec_bind; [apply (codec_table perm_ok); [apply perm_codec|done|exact Hp]|].
  eapply codec_bind; [by apply codec_cons|].
  eapply codec_bind.
  { apply codec_when. intros _. eapply codec_bind; [apply (codec_words 1); [done|u32s]|].
    cbn [buf lookup list_lookup default]. unfold id. by apply codec_cons. }
  eapply codec_bind.
  { apply codec_when. intros _. apply (codec_words 3); [done|u32s]. }
  eapply codec_last.
  { apply codec_when. intros _. apply (codec_words 1); [done|u32s]. }
  eapply codec_insert; [done..|]. unfold stored_class. f_equal.
  destruct (permissions d) as [t n]. cbn [fst snd nprim table].
  destruct (has_object_defaults p), (has_default_type p); cbn [buf lookup list_lookup default]; unfold id;
    rewrite ?(zero_char : to_char 0 = 0), ?Hdu, ?Hdr, ?Hdt, ?Hkr; reflexivity.
Qed.

(** *** Roles *)

Definition role_ok (k : bytes) (d : role_datum) : Prop :=
  named k /\ is_u32 (role_value d) /\ is_u32 (role_bounds d) /\ is_u32 (role_flavor d) /\
  Ebitmap.wf (dominates d) /\ type_set_ok (role_types d) /\ Ebitmap.wf (role_roles d) /\
  (k = OBJECT_R -> role_value d = OBJECT_R_VAL).

Definition stored_role (d : role_datum) : role_datum :=
  let attrs := module_at_least p MOD_POLICYDB_VERSION_ROLEATTRIB in
  RoleDatum (role_value d) (dominates d)
    (if is_kern p then
       TypeSet (if role_value d =? OBJECT_R_VAL then ebitmap_init else ts_types (role_types d)) ebitmap_init 0
     else role_types d)
    (if policydb_has_boundary_feature p then role_bounds d else 0)
    (if attrs then role_flavor d else 0) (if attrs then role_roles d else ebitmap_init).

(** [object_r] itself stays the one that is in the table. *)
Definition keep_role (k : bytes) (d : role_datum) : option role_datum :=
  if bool_decide (k = OBJECT_R) then None else Some (stored_role d).

Definition written_role (k : bytes) (d : role_datum) : Prop := role_ok k d /\ omits_role p d = false.

(** The words at the start of users and roles. *)
Lemma codec_bounded a b c : is_u32 a -> is_u32 b -> is_u32 c ->
  codec (put_words ([a; b] ++ (if policydb_has_boundary_feature p then [c] else [])))
    (words (if policydb_has_boundary_feature p then 3 else 2))
    ([a; b] ++ (if policydb_has_boundary_feature p then [c] else [])).
Proof.
  intros Ha Hb Hc. destruct (policydb_has_boundary_feature p); apply codec_words; done || (cbn [app]; u32s).
Qed.

Lemma role_codec : symbol_codec written_role (role_write p) (role_read p) keep_role.
Proof.
  intros k d h sz m [(Hk & Hv & Hb & Hf & Hd & Ht & Hr & Ho) Hom] Hc Hs Hg. pose proof (named_u32 k Hk).
  unfold role_write, role_read. rewrite Hom.
  eapply codec_bind; [by apply codec_bounded|]. cbn [app buf lookup list_lookup default]. unfold id.
  eapply codec_bind; [apply codec_named; [by right|done]|].
  eapply codec_bind; [by apply codec_bitmap|].
  apply (codec_bind _ _ _ _ (role_types (stored_role d))).
  { unfold stored_role. cbn [role_types]. destruct (is_kern p); [|by apply codec_type_set].
    eapply codec_last; [apply codec_bitmap; case_match; [apply init_wf|apply Ht]|apply decodes_ret]. }
  apply (codec_last _ _ _ (role_flavor (stored_role d), role_roles (stored_role d))).
  { unfold stored_role. cbn [role_flavor role_roles].
    destruct (module_at_least p MOD_POLICYDB_VERSION_ROLEATTRIB); [|apply codec_skip]. cbn [when].
    eapply codec_bind; [apply (codec_words 1); [done|u32s]|].
    eapply codec_last; [by apply codec_bitmap|]. apply decodes_ret. }
  cbn [fst snd]. case_bool_decide as E.
  - apply decodes_ensure; [by rewrite Ho|]. unfold put_entry_of, keep_role. rewrite bool_decide_true by done. apply decodes_ret.
  - assert (keep_role k d = Some (stored_role d)) as Hkeep by (unfold keep_role; by rewrite bool_decide_false).
    eapply codec_insert; [exact Hc|exact Hs|exact Hg|]. rewrite Hkeep. unfold stored_role.
    cbn [role_types fst snd role_flavor role_roles]. by destruct (policydb_has_boundary_feature p).
Qed.

(** *** Types *)

Definition type_ok (k : bytes) (d : type_datum) : Prop :=
  named k /\ is_u32 (type_value d) /\ is_u32 (primary d) /\ is_u32 (flavor d) /\ is_u32 (type_flags d) /\
  is_u32 (bounds d) /\ Ebitmap.wf (type_types d).

Definition stored_type (d : type_datum) : type_datum :=
  let alias := module_at_least p MOD_POLICYDB_VERSION_BOUNDARY_ALIAS in
  if policydb_has_boundary_feature p then
    TypeDatum (type_value d)
      (if alias then primary d else if primary d =? 0 then 0 else 1)
      (if flavor d =? TYPE_ATTRIB then TYPE_ATTRIB
       else if (flavor d =? TYPE_ALIAS) && negb (is_kern p) then TYPE_ALIAS else 0)
      (if is_kern p then ebitmap_init else type_types d)
      (if bit_set (type_flags d) TYPE_FLAGS_PERMISSIVE && negb (is_kern p) then TYPE_FLAGS_PERMISSIVE else 0)
      (bounds d)
  else
    TypeDatum (type_value d) (primary d) (if is_kern p then 0 else flavor d)
      (if is_kern p then ebitmap_init else type_types d)
      (if module_at_least p MOD_POLICYDB_VERSION_PERMISSIVE then type_flags d else 0) 0.

Definition written_type (k : bytes) (d : type_datum) : Prop := type_ok k d /\ omits_type p d = false.

(** The four bits of the properties are independent. *)
Lemma type_properties_spec d : let q := type_properties p d in
  is_u32 q /\
  bit_set q TYPEDATUM_PROPERTY_PRIMARY = negb (primary d =? 0) /\
  bit_set q TYPEDATUM_PROPERTY_ATTRIBUTE = (flavor d =? TYPE_ATTRIB) /\
  bit_set q TYPEDATUM_PROPERTY_ALIAS = (negb (flavor d =? TYPE_ATTRIB) && ((flavor d =? TYPE_ALIAS) && negb (is_kern p))) /\
  bit_set q TYPEDATUM_PROPERTY_PERMISSIVE = (bit_set (type_flags d) TYPE_FLAGS_PERMISSIVE && negb (is_kern p)).
Proof.
  cbn zeta. unfold type_properties.
  destruct (negb (primary d =? 0)), (flavor d =? TYPE_ATTRIB), ((flavor d =? TYPE_ALIAS) && negb (is_kern p)),
    (bit_set (type_flags d) TYPE_FLAGS_PERMISSIVE && negb (is_kern p)); by vm_compute.
Qed.

Lemma type_words_ok k d : type_ok k d ->
  blen ([blen k; type_value d] ++ type_words p d) = type_to_read p /\
  Forall is_u32 ([blen k; type_value d] ++ type_words p d) /\
  with_type_types (type_fields p ([blen k; type_value d] ++ type_words p d))
    (if is_kern p then ebitmap_init else type_types d) = stored_type d.
Proof.
  intros (Hk & Hv & Hp & Hf & Hg & Hb & _). pose proof (named_u32 k Hk).
  destruct (type_properties_spec d) as (Hq & H1 & H2 & H3 & H4).
  unfold type_words, type_to_read, type_fields, stored_type, with_type_types.
  destruct (policydb_has_boundary_feature p); [destruct (module_at_least p MOD_POLICYDB_VERSION_BOUNDARY_ALIAS)|].
  - cbn [app buf lookup list_lookup default]. unfold id. split; [done|]. split; [u32s|]. cbn [type_value primary flavor type_flags bounds].
    rewrite H2, H3, H4. by destruct (flavor d =? TYPE_ATTRIB), (flavor d =? TYPE_ALIAS), (is_kern p), (bit_set (type_flags d) TYPE_FLAGS_PERMISSIVE).
  - cbn [app buf lookup list_lookup default]. unfold id. split; [done|]. split; [u32s|]. cbn [type_value primary flavor type_flags bounds].
    rewrite H1, H2, H3, H4.
    by destruct (primary d =? 0), (flavor d =? TYPE_ATTRIB), (flavor d =? TYPE_ALIAS), (is_kern p),
      (bit_set (type_flags d) TYPE_FLAGS_PERMISSIVE).
  - unfold module_at_least. fold (is_kern p). destruct (is_kern p); cbn [negb andb].
    { cbn [app buf lookup list_lookup default]. unfold id. split; [done|]. split; [u32s|done]. }
    destruct (MOD_POLICYDB_VERSION_PERMISSIVE <=? policyvers p);
      cbn [app buf lookup list_lookup default]; unfold id; (split; [done|]; split; [u32s|done]).
Qed.

Lemma type_codec : symbol_codec written_type (type_write p) (type_read p) (fun _ d => Some (stored_type d)).
Proof.
  intros k d h sz m [Hok Hom] Hc Hs Hg. destruct (type_words_ok k d Hok) as (H1 & H2 & H3).
  destruct Hok as (Hk & _ & _ & _ & _ & _ & Ht). destruct (named_ok _ Hk) as [Hl Hn].
  unfold type_write, type_read. rewrite Hom.
  eapply codec_bind; [by apply codec_words|]. cbn [app buf lookup list_lookup default]. unfold id at 1 2.
  apply codec_ensure; [unfold zero_or_saturated; rewrite !(proj2 (Z.eqb_neq _ _)) by (pow2; lia); done|].
  eapply codec_bind; [apply codec_when; intros _; by apply codec_bitmap|].
  eapply codec_last; [by apply codec_string|].
  eapply codec_insert; [done..|]. rewrite <- H3. by destruct (is_kern p).
Qed.

(** *** Users *)

Definition user_ok (k : bytes) (d : user_datum) : Prop :=
  named k /\ is_u32 (user_value d) /\ is_u32 (user_bounds d) /\ role_set_ok (user_roles d) /\
  (has_exp_range p = true -> range_ok (exp_range d) /\ level_ok (exp_dfltlevel d)) /\
  (has_semantic_range p = true ->
     semantic_ok (s_low (user_range d)) /\ semantic_ok (s_high (user_range d)) /\ semantic_ok (dfltlevel d)).

Definition semantic_of (l : mls_level) : mls_semantic_level :=
  default mls_semantic_level_init (mls_level_to_semantic l).

(** What is kept of the ranges of a user; a module of an old version gets its
    semantic ranges from the expanded ones. *)
Definition stored_mls (d : user_datum) : mls_range * mls_level * mls_semantic_range * mls_semantic_level :=
  if has_exp_range p then
    (exp_range d, exp_dfltlevel d,
     if is_kern p then mls_semantic_range_init
     else SemanticRange (semantic_of (r_low (exp_range d))) (semantic_of (r_high (exp_range d))),
     if is_kern p then mls_semantic_level_init else semantic_of (exp_dfltlevel d))
  else if has_semantic_range p then
    (mls_range_init, mls_level_init, stored_semantic_range (user_range d), stored_semantic (dfltlevel d))
  else (mls_range_init, mls_level_init, mls_semantic_range_init, mls_semantic_level_init).

Definition stored_user (d : user_datum) : user_datum :=
  let '(r, l, sr, sl) := stored_mls d in
  UserDatum (user_value d) (if is_kern p then RoleSet (rs_roles (user_roles d)) 0 else user_roles d)
    sr sl r l (if policydb_has_boundary_feature p then user_bounds d else 0).

Lemma semantic_of_spec l : level_ok l -> mls_level_to_semantic l = Some (semantic_of l).
Proof. intros [_ Hc]. unfold semantic_of. by destruct (semantic_total l Hc) as [sl ->]. Qed.

Lemma codec_user_mls d :
  (has_exp_range p = true -> range_ok (exp_range d) /\ level_ok (exp_dfltlevel d)) ->
  (has_semantic_range p = true ->
     semantic_ok (s_low (user_range d)) /\ semantic_ok (s_high (user_range d)) /\ semantic_ok (dfltlevel d)) ->
  codec
    (if has_exp_range p then mls_write_range_helper (exp_range d) ;; mls_write_level (exp_dfltlevel d)
     else when (has_semantic_range p)
       (mls_write_semantic_range_helper (user_range d) ;; mls_write_semantic_level_helper (dfltlevel d)))
    (read_user_mls p) (stored_mls d).
Proof.
  intros He Hs. unfold read_user_mls, stored_mls. destruct (has_exp_range p).
  - destruct (He eq_refl) as [Hr Hl]. eapply codec_bind; [by apply codec_range|].
    eapply codec_last; [by apply codec_level|]. destruct Hr as [Hr0 Hr1].
    destruct (is_kern p); [apply decodes_ret|]. cbn [negb]. unfold mls_range_to_semantic.
    rewrite !semantic_of_spec by done. cbn [mbind option_bind of_option]. apply decodes_ret.
  - destruct (has_semantic_range p); [|apply codec_skip]. destruct (Hs eq_refl) as (H0 & H1 & H2).
    eapply codec_bind; [by apply codec_semantic_range|].
    eapply codec_last; [by apply codec_semantic|]. apply decodes_ret.
Qed.

Lemma user_codec : symbol_codec user_ok (user_write p) (user_read p) (fun _ d => Some (stored_user d)).
Proof.
  intros k d h sz m (Hk & Hv & Hb & Hr & He & Hse) Hc Hs Hg. pose proof (named_u32 k Hk).
  eapply codec_bind; [by apply codec_bounded|]. cbn [app buf lookup list_lookup default]. unfold id.
  eapply codec_bind; [apply codec_named; [by right|done]|].
  apply (codec_bind _ _ _ _ (if is_kern p then RoleSet (rs_roles (user_roles d)) 0 else user_roles d)).
  { destruct (is_kern p); [|by apply codec_role_set]. eapply codec_last; [apply codec_bitmap; apply Hr|].
    apply decodes_ret. }
  eapply codec_last; [by apply codec_user_mls|].
  destruct (stored_mls d) as [[[r l] sr] sl] eqn:Em.
  eapply codec_insert; [exact Hc|exact Hs|exact Hg|]. unfold stored_user. rewrite Em.
  by destruct (policydb_has_boundary_feature p).
Qed.

(** *** Booleans, sensitivities and categories *)

Definition bool_ok (k : bytes) (d : cond_bool_datum) : Prop :=
  named k /\ is_u32 (bool_value d) /\ (bool_state d = 0 \/ bool_state d = 1) /\ is_u32 (bool_flags d).

Definition stored_bool (d : cond_bool_datum) : cond_bool_datum :=
  BoolDatum (bool_value d) (bool_state d)
    (if module_at_least p MOD_POLICYDB_VERSION_TUNABLE_SEP then bool_flags d else 0).

Lemma bool_codec : symbol_codec bool_ok (cond_write_bool p) (cond_read_bool p) (fun _ d => Some (stored_bool d)).
Proof.
  intros k d h sz m (Hk & Hv & Hst & Hf) Hc Hs Hg. pose proof (named_u32 k Hk).
  assert (is_u32 (bool_state d) /\ s32 (bool_state d) = bool_state d /\ bool_isvalid (bool_state d) = true)
    as (? & Es & Ev) by (destruct Hst as [-> | ->]; by vm_compute).
  eapply codec_bind; [apply (codec_words 3); [done|u32s]|]. cbn [buf lookup list_lookup default]. unfold id.
  rewrite Es. apply codec_ensure; [done|].
  eapply codec_bind; [apply codec_named; [by right|done]|].
  eapply codec_last; [apply codec_when; intros _; apply (codec_words 1); [done|u32s]|].
  eapply codec_insert; [exact Hc|exact Hs|exact Hg|]. unfold stored_bool.
  by destruct (module_at_least p MOD_POLICYDB_VERSION_TUNABLE_SEP).
Qed.

Definition sens_ok (k : bytes) (d : level_datum) : Prop :=
  named k /\ level_ok (lev_level d) /\ 0 <= lev_isalias d < 256.

Lemma u8_word x : 0 <= x < 256 -> is_u32 x /\ u8 x = x.
Proof. intros Hx. unfold is_u32, u8. split; [lia|]. apply Z.mod_small. lia. Qed.

Lemma sens_codec : symbol_codec sens_ok sens_write sens_read keep_all.
Proof.
  intros k d h sz m (Hk & Hl & [? Ha]%u8_word) Hc Hs Hg. pose proof (named_u32 k Hk).
  eapply codec_bind; [apply (codec_words 2); [done|u32s]|]. cbn [buf lookup list_lookup default]. unfold id.
  eapply codec_bind; [apply codec_named; [by left|done]|].
  eapply codec_last; [by apply codec_level|].
  eapply codec_insert; [exact Hc|exact Hs|exact Hg|]. rewrite Ha. by destruct d.
Qed.

Definition cat_ok (k : bytes) (d : cat_datum) : Prop :=
  named k /\ is_u32 (cat_value d) /\ 0 <= cat_isalias d < 256.

Lemma cat_codec : symbol_codec cat_ok cat_write cat_read keep_all.
Proof.
  intros k d h sz m (Hk & Hv & [? Ha]%u8_word) Hc Hs Hg. pose proof (named_u32 k Hk).
  eapply codec_bind; [apply (codec_words 3); [done|u32s]|]. cbn [buf lookup list_lookup default]. unfold id.
  eapply codec_last; [apply codec_named; [by left|done]|].
  eapply codec_insert; [exact Hc|exact Hs|exact Hg|]. rewrite Ha. by destruct d.
Qed.

End Codecs.
