(* ===== verification/Policymeaning.v ===== *)
(** What the symbols of a policy mean: the categories of the semantic level a
    level is turned into, and the constraints as expressions. *)
From S2P Require Import Prelude PolicyFile Ebitmap Hashtab Avtab Policydb Policyrw Policysyms.

(** ** The semantic level of a level *)

(** Category [x + 1] is in one of the runs. *)
Definition covered (cats : list (Z * Z)) (x : Z) : Prop := Exists (fun c => c.1 <= x + 1 <= c.2) cats.

(** [x] is between two words of the bitmap, the first of which has its last bit. *)
Fixpoint filled (l : list ebitmap_node) (x : Z) : Prop :=
  match l with
  | n :: (m :: _) as next =>
      startbit n + 64 <= x < startbit m /\ in_node n (startbit n + 63) = true \/ filled next x
  | _ => False
  end.

(** The runs when the walk ends at [i]. *)
Definition close_at (a : bool * list (Z * Z)) (i : Z) : list (Z * Z) :=
  match a with (true, c :: cats) => (c.1, i) :: cats | (_, cats) => cats end.

Lemma covered_cons c cats x : covered (c :: cats) x <-> c.1 <= x + 1 <= c.2 \/ covered cats x.
Proof. apply Exists_cons. Qed.

Lemma node_get_bit_in n i : startbit n <= i < startbit n + 64 -> ebitmap_node_get_bit n i = in_node n i.
Proof.
  intros Hi. rewrite in_node_in by done. unfold ebitmap_node_get_bit. by rewrite land_bit_zero, negb_involutive by lia.
Qed.

(** One position of the walk: the runs, ended after it, have the position if its
    bit is set. *)
Lemma semantic_bit_covered n i a j x : startbit n <= i < startbit n + 64 -> i < j ->
  (fst a = true -> exists c cats, snd a = c :: cats /\ c.1 <= i) ->
  let a' := semantic_bit n i a in
  (fst a' = true -> in_node n i = true /\ exists c cats, snd a' = c :: cats /\ c.1 <= i + 1) /\
  (covered (close_at a' j) x <-> covered (close_at a i) x \/ (in_node n i = true /\ i <= x < j)).
Proof.
  intros Hi Hj Ha. destruct a as [open cats]. unfold semantic_bit. cbn [fst snd] in Ha.
  rewrite node_get_bit_in by done. destruct (in_node n i) eqn:E, open; cbn zeta; cbn [fst snd negb close_at].
  - destruct (Ha eq_refl) as (c & l & -> & Hc). split; [intros _; split; [done|]; exists c, l; split; [done|lia]|].
    rewrite !covered_cons. cbn [fst snd]. split; [intros [?|?]|intros [[?|?]|[_ ?]]]; try (right; tauto || lia); try lia; auto.
  - split; [intros _; split; [done|]; by eexists _, _|]. rewrite covered_cons. cbn [fst snd].
    split; [intros [?|?]; [right; split; [done|lia]|by left]|intros [?|[_ ?]]; [by right|left; lia]].
  - destruct (Ha eq_refl) as (c & l & -> & Hc). split; [done|]. split; [by left|by intros [?|[? _]]].
  - split; [done|]. split; [by left|by intros [?|[? _]]].
Qed.

(** What the walk still has to cover from position [i] on. *)
Definition ahead (l : list ebitmap_node) (i x : Z) : Prop := i <= x /\ (mem l x = true \/ filled l x).

Lemma filled_above lo l x : nodes_ok lo l -> filled l x -> lo + 64 <= x.
Proof.
  revert lo. induction l as [|n l IH]; [done|]. intros lo (B1 & _ & B2) F. destruct l as [|m l]; [done|].
  destruct F as [[F _]|F]; [lia|]. specialize (IH _ B2 F). lia.
Qed.

Lemma ahead_step n next i x : nodes_ok (startbit n) (n :: next) -> startbit n <= i < startbit n + 64 ->
  ahead (n :: next) i x <-> (in_node n i = true /\ i <= x < i + 1) \/ ahead (n :: next) (i + 1) x.
Proof.
  intros H Hi. pose proof (proj2 (proj2 H)) as H'. unfold ahead. destruct (decide (x = i)) as [->|Hne].
  - assert (~ filled (n :: next) i) as Hf by (intros F; apply (filled_above _ _ _ H) in F; lia).
    rewrite mem_cons, (mem_below _ _ _ H'), orb_false_r by lia.
    split; [intros [_ [E|E]]; [left; split; [done|lia]|done]|intros [[E _]|[? _]]; [split; [lia|by left]|lia]].
  - split; [intros [? E]; right; split; [lia|done]|intros [[_ ?]|[? E]]; [lia|split; [lia|done]]].
Qed.

Lemma ahead_jump n m next x : nodes_ok (startbit n) (n :: m :: next) ->
  ahead (n :: m :: next) (startbit n + 63) x <->
  (in_node n (startbit n + 63) = true /\ startbit n + 63 <= x < startbit m) \/ ahead (m :: next) (startbit m) x.
Proof.
  intros (_ & _ & H'). pose proof H' as (B1 & B2 & B3). unfold ahead. rewrite mem_cons. cbn [filled].
  destruct (decide (x < startbit m)) as [Hlt|Hge].
  - assert (mem (m :: next) x = false) as -> by (rewrite mem_cons, in_node_out, (mem_below _ _ _ B3) by lia; done).
    assert (~ filled (m :: next) x) as Hf.
    { intros F. apply (filled_above (startbit m)) in F; [lia|by split]. }
    rewrite orb_false_r. split.
    + intros [Hx [E|[[? E]|F]]]; [|left; split; [done|lia]|done]. left.
      destruct (decide (x < startbit n + 64)); [|by rewrite in_node_out in E by lia].
      assert (x = startbit n + 63) as -> by lia. split; [done|lia].
    + intros [[E Hx]|[? _]]; [|lia]. split; [lia|]. destruct (decide (x = startbit n + 63)) as [->|]; [by left|].
      right. left. split; [lia|done].
  - rewrite in_node_out by lia. cbn [orb]. split.
    + intros [_ [E|[[? _]|F]]]; [right; split; [lia|by left]|lia|right; split; [lia|by right]].
    + intros [[_ ?]|[_ [E|F]]]; [lia|split; [lia|by left]|split; [lia|right; by right]].
Qed.

Lemma for_each_bit_covered fuel len n next i a d r x :
  nodes_ok (startbit n) (n :: next) -> startbit n <= i <= startbit n + 64 ->
  (i = startbit n + 64 -> next = []) -> len = top d (n :: next) ->
  (fst a = true -> exists c cats, snd a = c :: cats /\ c.1 <= i) ->
  for_each_bit fuel len n next i semantic_bit a = Some r ->
  covered (close_at (fst r) (snd r)) x <-> covered (close_at a i) x \/ ahead (n :: next) i x.
Proof.
  revert n next i a d. induction fuel as [|fuel IH]; [done|]. intros n next i a d H Hi Hl Hlen Ha Hr.
  pose proof H as (_ & O & H'). pose proof Hlen as Hlen'. rewrite top_cons in Hlen'.
  pose proof (top_ge _ _ _ H' (Z.le_refl _)) as Htop. cbn [for_each_bit] in Hr.
  destruct (Z.ltb_spec i len) as [Hlt|Hge].
  2: { injection Hr as <-. cbn [fst snd]. split; [by left|]. intros [?|(Hx & Hm)]; [done|].
       assert (i = startbit n + 64) as -> by lia. rewrite (Hl eq_refl) in Hm. destruct Hm as [Hm|[]].
       rewrite mem_cons, in_node_out in Hm by lia. done. }
  assert (Hin : startbit n <= i < startbit n + 64).
  { destruct (decide (i < startbit n + 64)); [lia|].
    assert (i = startbit n + 64) as E by lia. rewrite (Hl E) in Hlen'. cbn in Hlen'. lia. }
  assert (forall j, i < j -> (fst (semantic_bit n i a) = true -> exists c cats, snd (semantic_bit n i a) = c :: cats /\ c.1 <= j) /\
    (covered (close_at (semantic_bit n i a) j) x <-> covered (close_at a i) x \/ (in_node n i = true /\ i <= x < j))) as Hb.
  { intros j Hj. destruct (semantic_bit_covered n i a j x Hin Hj Ha) as [H1 H2]. split; [|exact H2].
    intros Hf. destruct (H1 Hf) as (_ & c & cats & E & Hc). exists c, cats. split; [done|lia]. }
  unfold ebitmap_next, MAPSIZE in Hr. destruct (Z.eqb_spec i (startbit n + 64 - 1)) as [E|E]; [destruct next as [|m next]|].
  2: { pose proof H' as (B1 & B2 & B3). assert (i < startbit m) as Hm by lia. destruct (Hb _ Hm) as [Hb1 Hb2].
       assert (i = startbit n + 63) as -> by lia. rewrite (ahead_jump n m next x H).
       rewrite (IH m next (startbit m) (semantic_bit n (startbit n + 63) a) (startbit n + 64)), Hb2;
         [tauto|by split|lia|lia|done|exact Hb1|exact Hr]. }
  all: destruct (Hb (i + 1)) as [Hb1 Hb2]; [lia|]; rewrite (ahead_step n _ i x H Hin);
    (etransitivity; [eapply (IH _ _ (i + 1)); [exact H|lia|done || lia|exact Hlen|exact Hb1|exact Hr]|rewrite Hb2; tauto]).
Qed.

(** The semantic level a module of an old version gets for a level has its
    sensitivity, and its runs hold the categories of the level, and besides
    them every category between two words of the bitmap the first of which has
    its last category: the walk goes from one word to the next without looking at
    what is between them. *)
Theorem semantic_categories (l : mls_level) : Ebitmap.wf (l_cat l) ->
  exists sl, mls_level_to_semantic l = Some sl /\ s_sens sl = l_sens l /\
    forall x, covered (s_cat sl) x <-> Ebitmap.bits (l_cat l) x = true \/ filled (node (l_cat l)) x.
Proof.
  intros Hwf. destruct (semantic_total l Hwf) as [sl E]. exists sl. split; [exact E|].
  unfold mls_level_to_semantic, semantic_cats in E. destruct Hwf as [Hn Hh]. unfold Ebitmap.bits.
  destruct (node (l_cat l)) as [|n next] eqn:El.
  { unfold ebitmap_length in E. rewrite Hh in E. cbn in E. injection E as <-. split; [done|]. intros x.
    split; [intros Hc; by apply Exists_nil in Hc|intros [?|[]]; done]. }
  destruct (for_each_bit _ _ _ _ _ _ _) as [r|] eqn:Er; [|done]. cbn [mbind option_bind] in E.
  destruct r as [a i]. injection E as <-. split; [done|]. intros x. cbn [s_cat].
  destruct Hn as (H1 & H2 & H3). assert (nodes_ok (startbit n) (n :: next)) as Hok by (by split).
  apply (for_each_bit_covered _ _ _ _ _ _ 0 _ x Hok) in Er; [|lia|lia|exact Hh|done].
  change (match a with (true, c :: cats) => _ | _ => _ end) with (close_at a i).
  cbn [fst snd] in Er. rewrite Er. cbn [close_at]. split.
  - intros [Hc|[_ Hm]]; [by apply Exists_nil in Hc|done].
  - intros Hm. right. split; [|done]. destruct Hm as [Hm|F].
    + destruct (decide (x < startbit n)); [|lia]. by rewrite (mem_lt_head _ _ _ _ Hok) in Hm.
    + apply (filled_above _ _ _ Hok) in F. lia.
Qed.

(** ** Constraints are expressions *)

Inductive expr_tree :=
  | Leaf (e : constraint_expr)
  | Negated (o : constraint_expr) (t : expr_tree)
  | Joined (o : constraint_expr) (l r : expr_tree).

Fixpoint postfix (t : expr_tree) : list constraint_expr :=
  match t with
  | Leaf e => [e]
  | Negated o t => postfix t ++ [o]
  | Joined o l r => postfix l ++ postfix r ++ [o]
  end.

(** The height of the stack on which an expression is evaluated. *)
Fixpoint stack_height (t : expr_tree) : Z :=
  match t with
  | Leaf _ => 1
  | Negated _ t => stack_height t
  | Joined _ l r => Z.max (stack_height l) (1 + stack_height r)
  end.

(** The types of the nodes; [x]: the names of the target of a transition are allowed. *)
Fixpoint typed (x : bool) (t : expr_tree) : Prop :=
  match t with
  | Leaf e => e_expr_type e = CEXPR_ATTR \/
              e_expr_type e = CEXPR_NAMES /\ (x = true \/ bit_set (e_attr e) CEXPR_XTARGET = false)
  | Negated o t => e_expr_type o = CEXPR_NOT /\ typed x t
  | Joined o l r => (e_expr_type o = CEXPR_AND \/ e_expr_type o = CEXPR_OR) /\ typed x l /\ typed x r
  end.

Definition is_expression (x : bool) (l : list constraint_expr) : Prop :=
  exists t, l = postfix t /\ typed x t /\ stack_height t <= CEXPR_MAXDEPTH.

(** The trees on the stack. *)
Definition stacked (x : bool) (ts : list expr_tree) : Prop :=
  forall i t, ts !! i = Some t -> typed x t /\ Z.of_nat i + stack_height t <= CEXPR_MAXDEPTH.

Lemma height_pos t : 1 <= stack_height t.
Proof. induction t; cbn; lia. Qed.

Lemma stacked_length x ts : stacked x ts -> Z.of_nat (length ts) <= CEXPR_MAXDEPTH.
Proof.
  intros Hs. destruct ts as [|t ts _] using rev_ind; [done|]. rewrite length_app. cbn [length].
  destruct (Hs (length ts) t) as [_ Hh]; [by rewrite lookup_app_r, Nat.sub_diag by lia|]. pose proof (height_pos t). lia.
Qed.

Lemma stacked_snoc x ts t : stacked x (ts ++ [t]) <->
  stacked x ts /\ typed x t /\ Z.of_nat (length ts) + stack_height t <= CEXPR_MAXDEPTH.
Proof.
  split.
  - intros Hs. split; [intros i u Hi; apply Hs; by apply lookup_app_l_Some|].
    apply (Hs (length ts)). by rewrite lookup_app_r, Nat.sub_diag by lia.
  - intros [Hs Ht] i u [Hi|[Hi E]]%lookup_app_Some; [by apply Hs|].
    apply list_lookup_singleton_Some in E as [E <-]. by replace i with (length ts) by lia.
Qed.

Lemma expr_depth_stacked x e ts d : stacked x ts -> expr_depth x e (Z.of_nat (length ts) - 1) = Some d ->
  exists ts', stacked x ts' /\ d = Z.of_nat (length ts') - 1 /\
    concat (map postfix ts') = concat (map postfix ts) ++ [e].
Proof.
  intros Hs He. unfold expr_depth in He. pose proof (stacked_length x ts Hs) as Hl.
  assert (forall t, typed x t -> postfix t = [e] -> stack_height t = 1 -> Z.of_nat (length ts) - 1 <> CEXPR_MAXDEPTH - 1 ->
    exists ts', stacked x ts' /\ Z.of_nat (length ts) - 1 + 1 = Z.of_nat (length ts') - 1 /\
      concat (map postfix ts') = concat (map postfix ts) ++ [e]) as Hpush.
  { intros t Ht Hp Hh Hne. exists (ts ++ [t]). rewrite stacked_snoc, length_app, map_app, concat_app. cbn [map concat length].
    rewrite Hp, Hh. split; [split; [done|split; [done|lia]]|]. split; [lia|done]. }
  destruct (Z.eqb_spec (e_expr_type e) CEXPR_NOT) as [E|_].
  { destruct (Z.ltb_spec (Z.of_nat (length ts) - 1) 0); [done|]. injection He as <-.
    destruct ts as [|t ts _] using rev_ind; [cbn in *; lia|]. apply stacked_snoc in Hs as (Hs & Ht & Hh).
    exists (ts ++ [Negated e t]). rewrite stacked_snoc, !length_app, !map_app, !concat_app. cbn [map concat postfix].
    rewrite !app_nil_r. split; [done|]. split; [done|by rewrite app_assoc]. }
  destruct ((e_expr_type e =? CEXPR_AND) || (e_expr_type e =? CEXPR_OR)) eqn:E.
  { destruct (Z.ltb_spec (Z.of_nat (length ts) - 1) 1); [done|]. injection He as <-.
    destruct ts as [|r ts _] using rev_ind; [cbn in *; lia|]. rewrite length_app in *. cbn [length] in *.
    destruct ts as [|l ts _] using rev_ind; [cbn in *; lia|]. rewrite length_app in *. cbn [length] in *.
    apply stacked_snoc in Hs as (Hs & Hr & Hh). apply stacked_snoc in Hs as (Hs & Hlt & Hlh). rewrite length_app in Hh. cbn [length] in Hh.
    exists (ts ++ [Joined e l r]). rewrite stacked_snoc, !length_app, !map_app, !concat_app. cbn [map concat postfix length typed stack_height].
    rewrite !app_nil_r. split; [|split; [lia|by rewrite <- !app_assoc]]. split; [done|]. split; [|lia].
    split; [|done]. apply orb_true_iff in E as [->%Z.eqb_eq| ->%Z.eqb_eq]; auto. }
  destruct (Z.eqb_spec (e_expr_type e) CEXPR_ATTR) as [E1|_].
  { case_match eqn:E2; [done|]. injection He as <-. apply (Hpush (Leaf e)); [by left|done|done|by apply Z.eqb_neq]. }
  destruct (Z.eqb_spec (e_expr_type e) CEXPR_NAMES) as [E1|_]; [|done].
  destruct (negb x && bit_set (e_attr e) CEXPR_XTARGET) eqn:E3; [done|].
  case_match eqn:E2; [done|]. injection He as <-. apply (Hpush (Leaf e)); [|done|done|by apply Z.eqb_neq].
  right. split; [done|]. apply andb_false_iff in E3 as [E3|E3]; [left; by apply negb_false_iff|by right].
Qed.

Lemma exprs_depth_stacked x l ts d : stacked x ts -> exprs_depth x l (Z.of_nat (length ts) - 1) = Some d ->
  exists ts', stacked x ts' /\ d = Z.of_nat (length ts') - 1 /\
    concat (map postfix ts') = concat (map postfix ts) ++ l.
Proof.
  revert ts. induction l as [|e l IH]; intros ts Hs Hd; cbn [exprs_depth] in Hd.
  { injection Hd as <-. exists ts. by rewrite app_nil_r. }
  destruct (expr_depth x e _) as [d1|] eqn:E; [|done]. cbn [mbind option_bind] in Hd.
  destruct (expr_depth_stacked x e ts d1 Hs E) as (ts1 & Hs1 & -> & E1).
  destruct (IH ts1 Hs1 Hd) as (ts2 & Hs2 & Hd2 & E2). exists ts2. split; [done|]. split; [done|].
  by rewrite E2, E1, <- app_assoc.
Qed.

(** An expression takes the stack one higher. *)
Lemma exprs_depth_tree x t l d : typed x t -> -1 <= d -> d + 1 + stack_height t <= CEXPR_MAXDEPTH ->
  exprs_depth x (postfix t ++ l) d = exprs_depth x l (d + 1).
Proof.
  revert l d. induction t as [e|o t IH|o t1 IH1 t2 IH2]; intros l d Ht Hd Hh; cbn [postfix typed stack_height] in *.
  - cbn [app exprs_depth]. unfold expr_depth. replace (d =? CEXPR_MAXDEPTH - 1) with false by lia.
    destruct Ht as [->|[-> Hx]]; [done|]. cbn [orb Z.eqb].
    replace (negb x && _) with false; [done|]. destruct Hx as [-> | ->]; [done|by rewrite andb_false_r].
  - destruct Ht as [Ho Ht]. rewrite <- app_assoc, IH by (done || lia). cbn [app exprs_depth]. unfold expr_depth.
    rewrite Ho. by replace (d + 1 <? 0) with false by lia.
  - destruct Ht as (Ho & H1 & H2). pose proof (height_pos t2). pose proof (height_pos t1).
    rewrite <- !app_assoc, IH1, IH2 by (done || lia). cbn [app exprs_depth]. unfold expr_depth.
    replace (d + 1 + 1 <? 1) with false by lia. destruct Ho as [-> | ->]; cbn [Z.eqb orb mbind option_bind];
      replace (d + 1 + 1 - 1) with (d + 1) by lia; done.
Qed.

(** The lists that are accepted are the expressions. *)
Lemma exprs_depth_spec x l : exprs_depth x l (-1) = Some 0 <-> is_expression x l.
Proof.
  split.
  - intros Hd. destruct (exprs_depth_stacked x l [] 0) as (ts & Hs & Hl & E); [done|exact Hd|].
    destruct ts as [|t [|u ts]]; [done| |cbn [length] in Hl; lia]. exists t. cbn in E. rewrite app_nil_r in E.
    split; [by symmetry|]. destruct (Hs 0%nat t eq_refl). split; [done|lia].
  - intros (t & -> & Ht & Hh). rewrite <- (app_nil_r (postfix t)). by rewrite exprs_depth_tree by (done || lia).
Qed.

Section Constraints.
Context (p : policy_format) (x : bool).

Lemma read_expr_reads depth es fp d es' rest : read_expr p x (depth, es) fp = Some ((d, es'), rest) ->
  exists e, es' = es ++ [e] /\ expr_depth x e depth = Some d.
Proof.
  unfold read_expr, expr_depth. intros (ws & fp1 & _ & E)%bind_reads.
  destruct (buf ws 0 =? CEXPR_NOT) eqn:E1.
  { apply ensure_reads in E as [Hd [E _]%ret_reads]. simplify_eq. eexists. split; [done|]. cbn. rewrite E1.
    apply negb_true_iff in Hd. by rewrite Hd. }
  destruct ((buf ws 0 =? CEXPR_AND) || (buf ws 0 =? CEXPR_OR)) eqn:E2.
  { apply ensure_reads in E as [Hd [E _]%ret_reads]. simplify_eq. eexists. split; [done|]. cbn. rewrite E1, E2.
    apply negb_true_iff in Hd. by rewrite Hd. }
  destruct (buf ws 0 =? CEXPR_ATTR) eqn:E3.
  { apply ensure_reads in E as [Hd [E _]%ret_reads]. simplify_eq. eexists. split; [done|]. cbn. rewrite E1, E2, E3.
    apply negb_true_iff in Hd. by rewrite Hd. }
  destruct (buf ws 0 =? CEXPR_NAMES) eqn:E4; [|done].
  apply ensure_reads in E as [Hx E]. apply ensure_reads in E as [Hd E].
  apply bind_reads in E as (names & fp2 & _ & E). apply bind_reads in E as (ts & fp3 & _ & E).
  apply ret_reads in E as [E _]. simplify_eq. eexists. split; [done|]. cbn. rewrite E1, E2, E3, E4.
  apply negb_true_iff in Hd, Hx. by rewrite Hd, Hx.
Qed.

Lemma exprs_depth_snoc l e d : exprs_depth x (l ++ [e]) d = exprs_depth x l d ≫= expr_depth x e.
Proof.
  revert d. induction l as [|e' l IH]; intros d; cbn [app exprs_depth mbind option_bind].
  - by destruct (expr_depth x e d).
  - destruct (expr_depth x e' d); [apply IH|done].
Qed.

Lemma read_constraint_reads l fp l' rest : read_constraint p x l fp = Some (l', rest) ->
  exists c, l' = l ++ [c] /\ is_expression x (c_expr c).
Proof.
  unfold read_constraint. intros (ws & fp1 & _ & E)%bind_reads.
  apply bind_reads in E as ([d es] & fp2 & Er & E). apply ensure_reads in E as [Hd%Z.eqb_eq E].
  apply ret_reads in E as [<- _]. cbn [fst snd] in *. eexists. split; [done|]. cbn [c_expr]. apply exprs_depth_spec.
  apply (times_reads _ (fun _ st => exprs_depth x (snd st) (-1) = Some (fst st)) _ 0%nat) in Er; [by subst|..|done].
  intros _ [d1 es1] fp3 [d2 es2] rest2 Hk H2. cbn [fst snd] in *.
  apply read_expr_reads in H2 as (e & -> & He). by rewrite exprs_depth_snoc, Hk.
Qed.

(** C32. Constraints are read as expressions: from any file, the reader of [n]
    constraints gives [n] or fails, and each has the operators and operands of one
    expression in postfix order, which is evaluated on a stack of the
    [CEXPR_MAXDEPTH] places there are, with names of the target of a transition
    only where they are allowed; and every list of such expressions is written
    and read back, without the names of types in old versions. *)
Theorem constraints_are_expressions :
  (forall n fp l rest, read_cons_helper p n x fp = Some (l, rest) ->
     length l = Z.to_nat n /\ Forall (fun c => is_expression x (c_expr c)) l) /\
  (forall l, Forall (fun c => is_u32 (c_permissions c) /\ blen (c_expr c) < 2 ^ 32 /\ Forall expr_ok (c_expr c) /\
                              is_expression x (c_expr c)) l ->
     codec (write_cons_helper p x l) (read_cons_helper p (blen l) x) (map (stored_constraint p) l)).
Proof.
  split.
  - intros n fp l rest E. unfold read_cons_helper in E.
    apply (times_reads _ (fun k l => length l = k /\ Forall (fun c => is_expression x (c_expr c)) l) _ 0%nat) in E;
      [exact E|..|done].
    intros k l1 fp1 l2 rest1 [Hk Hl] H2. apply read_constraint_reads in H2 as (c & -> & Hc).
    rewrite length_app, Forall_app, Forall_singleton. cbn. split; [lia|done].
  - intros l Hl. apply codec_cons. eapply Forall_impl; [exact Hl|]. intros c (H1 & H2 & H3 & H4).
    split; [done|]. split; [done|]. split; [done|by apply exprs_depth_spec].
Qed.
End Constraints.

(** ** Examples *)

(** Categories 64 and 131, in two words. *)
Definition gap_level : mls_level := MlsLevel 1 (Ebitmap [Node 0 (2 ^ 63); Node 128 4] 192).

Lemma semantic_categories_witness :
  exists sl, mls_level_to_semantic gap_level = Some sl /\ s_cat sl = [(131, 131); (64, 128)] /\
    covered (s_cat sl) 63 /\ covered (s_cat sl) 100 /\ Ebitmap.bits (l_cat gap_level) 100 = false.
Proof.
  destruct (semantic_categories gap_level) as (sl & E & _ & Hc).
  { split; [|done]. split; [done|]. split; [done|]. split; [done|]. split; [done|]. done. }
  exists sl. split; [exact E|]. split; [vm_compute in E; by injection E as <-|].
  split; [apply Hc; left; by vm_compute|]. split; [apply Hc; right; left; split; [cbn; lia|by vm_compute]|by vm_compute].
Defined.

(** [u1 == u2 and not (r1 dom r2)] in a module. *)
Definition sample_expression : expr_tree :=
  let e ty attr op := ConstraintExpr ty attr op ebitmap_init type_set_init in
  Joined (e CEXPR_AND 0 0) (Leaf (e CEXPR_ATTR 1 1)) (Negated (e CEXPR_NOT 0 0) (Leaf (e CEXPR_ATTR 2 3))).

Lemma constraints_are_expressions_witness :
  let l := [ConstraintNode 3 (postfix sample_expression)] in
  codec (write_cons_helper (PolicyFormat POLICY_BASE 20) false l) (read_cons_helper (PolicyFormat POLICY_BASE 20) 1 false) l.
Proof.
  refine (proj2 (constraints_are_expressions (PolicyFormat POLICY_BASE 20) false) [ConstraintNode 3 (postfix sample_expression)] _).
  pose proof init_wf as Hi. apply Forall_singleton. split; [done|]. split; [done|]. split.
  - repeat apply Forall_cons_2; [..|apply Forall_nil_2]; (do 4 (split; [done|]); split; [done|split; [done|done]]).
  - exists sample_expression. split; [done|]. split; [|done]. split; [by left|]. split; [by left|]. split; [done|]. by left.
Defined.
