(* ===== verification/Policyimage.v ===== *)
(** The policy file as far as the rules (policydb.c, write.c): the header, the
    name of a module, the bitmaps of capabilities and of permissive types, and
    the symbol tables, the part of [policydb_read] and of [policydb_write] up to there.

    A file is written for the kernel or as a module, in a version and for a
    platform; [policydb_lookup_compat] says how many kinds of symbols it has.
    The theorem is that what is written is read back, and what is left out on
    the way. *)
From S2P Require Import Prelude PolicyFile Ebitmap Hashtab Avtab Policydb Policyrw Policysyms.

Definition POLICYDB_UNSUPPORTED : Z := -2.
Definition POLICYDB_MAGIC := 0xf97cff8c.
Definition POLICYDB_MOD_MAGIC := 0xf97cff8d.
Definition POLICYDB_STRING : bytes := str "SE Linux".
Definition POLICYDB_XEN_STRING : bytes := str "XenFlask".
Definition POLICYDB_MOD_STRING : bytes := str "SE Linux Module".
Definition POLICYDB_STRING_MAX_LENGTH := 32.
Definition SEPOL_TARGET_SELINUX := 0.
Definition SEPOL_TARGET_XEN := 1.
Definition policydb_target_strings : list bytes := [POLICYDB_STRING; POLICYDB_XEN_STRING].
Definition POLICYDB_CONFIG_MLS := 1.
Definition POLICYDB_CONFIG_UNKNOWN_MASK := 6.    (* DENY_UNKNOWN | REJECT_UNKNOWN | ALLOW_UNKNOWN *)
Definition POLICYDB_CONFIG_ANDROID_NETLINK_ROUTE := 2 ^ 31.

Definition POLICYDB_VERSION_BASE := 15.
Definition POLICYDB_VERSION_IPV6 := 17.
Definition POLICYDB_VERSION_NLCLASS := 18.
Definition POLICYDB_VERSION_RANGETRANS := 21.
Definition POLICYDB_VERSION_POLCAP := 22.
Definition POLICYDB_VERSION_PERMISSIVE := 23.
Definition POLICYDB_VERSION_FILENAME_TRANS := 25.
Definition POLICYDB_VERSION_XEN_DEVICETREE := 30.
Definition POLICYDB_VERSION_INFINIBAND := 31.
Definition POLICYDB_VERSION_MIN := POLICYDB_VERSION_BASE.
Definition POLICYDB_VERSION_MAX := POLICYDB_VERSION_GLBLUB.
Definition MOD_POLICYDB_VERSION_BASE := 4.
Definition MOD_POLICYDB_VERSION_RANGETRANS := 6.
Definition MOD_POLICYDB_VERSION_POLCAP := 7.
Definition MOD_POLICYDB_VERSION_FILENAME_TRANS := 11.
Definition MOD_POLICYDB_VERSION_ROLETRANS := 12.
Definition MOD_POLICYDB_VERSION_CONSTRAINT_NAMES := 17.
Definition MOD_POLICYDB_VERSION_XPERMS_IOCTL := 18.
Definition MOD_POLICYDB_VERSION_INFINIBAND := 19.
Definition MOD_POLICYDB_VERSION_MIN := MOD_POLICYDB_VERSION_BASE.
Definition MOD_POLICYDB_VERSION_MAX := MOD_POLICYDB_VERSION_GLBLUB.

Definition SYM_COMMONS := 0.
Definition SYM_CLASSES := 1.
Definition SYM_BOOLS := 5.
Definition SYM_LEVELS := 6.
Definition SYM_CATS := 7.
Definition SYM_NUM := 8.
Definition OCON_FSUSE := 5.
Definition OCON_NODE6 := 6.
Definition OCON_IBENDPORT := 8.
Definition OCON_XEN_PCIDEVICE := 4.
Definition OCON_XEN_DEVICETREE := 5.

(** ** The table of versions *)

Record compat_info := CompatInfo { type : Z; version : Z; sym_num : Z; ocon_num : Z; target_platform : Z }.

Definition policydb_compat : list compat_info := [
  CompatInfo POLICY_KERN POLICYDB_VERSION_BOUNDARY SYM_NUM (OCON_XEN_PCIDEVICE + 1) SEPOL_TARGET_XEN;
  CompatInfo POLICY_KERN POLICYDB_VERSION_XEN_DEVICETREE SYM_NUM (OCON_XEN_DEVICETREE + 1) SEPOL_TARGET_XEN;
  CompatInfo POLICY_KERN POLICYDB_VERSION_BASE (SYM_NUM - 3) (OCON_FSUSE + 1) SEPOL_TARGET_SELINUX;
  CompatInfo POLICY_KERN POLICYDB_VERSION_BOOL (SYM_NUM - 2) (OCON_FSUSE + 1) SEPOL_TARGET_SELINUX;
  CompatInfo POLICY_KERN POLICYDB_VERSION_IPV6 (SYM_NUM - 2) (OCON_NODE6 + 1) SEPOL_TARGET_SELINUX;
  CompatInfo POLICY_KERN POLICYDB_VERSION_NLCLASS (SYM_NUM - 2) (OCON_NODE6 + 1) SEPOL_TARGET_SELINUX;
  CompatInfo POLICY_KERN POLICYDB_VERSION_MLS SYM_NUM (OCON_NODE6 + 1) SEPOL_TARGET_SELINUX;
  CompatInfo POLICY_KERN POLICYDB_VERSION_AVTAB SYM_NUM (OCON_NODE6 + 1) SEPOL_TARGET_SELINUX;
  CompatInfo POLICY_KERN POLICYDB_VERSION_RANGETRANS SYM_NUM (OCON_NODE6 + 1) SEPOL_TARGET_SELINUX;
  CompatInfo POLICY_KERN POLICYDB_VERSION_POLCAP SYM_NUM (OCON_NODE6 + 1) SEPOL_TARGET_SELINUX;
  CompatInfo POLICY_KERN POLICYDB_VERSION_PERMISSIVE SYM_NUM (OCON_NODE6 + 1) SEPOL_TARGET_SELINUX;
  CompatInfo POLICY_KERN POLICYDB_VERSION_BOUNDARY SYM_NUM (OCON_NODE6 + 1) SEPOL_TARGET_SELINUX;
  CompatInfo POLICY_KERN POLICYDB_VERSION_FILENAME_TRANS SYM_NUM (OCON_NODE6 + 1) SEPOL_TARGET_SELINUX;
  CompatInfo POLICY_KERN POLICYDB_VERSION_ROLETRANS SYM_NUM (OCON_NODE6 + 1) SEPOL_TARGET_SELINUX;
  CompatInfo POLICY_KERN POLICYDB_VERSION_NEW_OBJECT_DEFAULTS SYM_NUM (OCON_NODE6 + 1) SEPOL_TARGET_SELINUX;
  CompatInfo POLICY_KERN POLICYDB_VERSION_DEFAULT_TYPE SYM_NUM (OCON_NODE6 + 1) SEPOL_TARGET_SELINUX;
  CompatInfo POLICY_KERN POLICYDB_VERSION_CONSTRAINT_NAMES SYM_NUM (OCON_NODE6 + 1) SEPOL_TARGET_SELINUX;
  CompatInfo POLICY_KERN POLICYDB_VERSION_XPERMS_IOCTL SYM_NUM (OCON_NODE6 + 1) SEPOL_TARGET_SELINUX;
  CompatInfo POLICY_KERN POLICYDB_VERSION_INFINIBAND SYM_NUM (OCON_IBENDPORT + 1) SEPOL_TARGET_SELINUX;
  CompatInfo POLICY_KERN POLICYDB_VERSION_GLBLUB SYM_NUM (OCON_IBENDPORT + 1) SEPOL_TARGET_SELINUX;
  CompatInfo POLICY_BASE MOD_POLICYDB_VERSION_BASE SYM_NUM (OCON_NODE6 + 1) SEPOL_TARGET_SELINUX;
  CompatInfo POLICY_BASE MOD_POLICYDB_VERSION_MLS SYM_NUM (OCON_NODE6 + 1) SEPOL_TARGET_SELINUX;
  CompatInfo POLICY_BASE MOD_POLICYDB_VERSION_MLS_USERS SYM_NUM (OCON_NODE6 + 1) SEPOL_TARGET_SELINUX;
  CompatInfo POLICY_BASE MOD_POLICYDB_VERSION_POLCAP SYM_NUM (OCON_NODE6 + 1) SEPOL_TARGET_SELINUX;
  CompatInfo POLICY_BASE MOD_POLICYDB_VERSION_PERMISSIVE SYM_NUM (OCON_NODE6 + 1) SEPOL_TARGET_SELINUX;
  CompatInfo POLICY_BASE MOD_POLICYDB_VERSION_BOUNDARY SYM_NUM (OCON_NODE6 + 1) SEPOL_TARGET_SELINUX;
  CompatInfo POLICY_BASE MOD_POLICYDB_VERSION_BOUNDARY_ALIAS SYM_NUM (OCON_NODE6 + 1) SEPOL_TARGET_SELINUX;
  CompatInfo POLICY_BASE MOD_POLICYDB_VERSION_FILENAME_TRANS SYM_NUM (OCON_NODE6 + 1) SEPOL_TARGET_SELINUX;
  CompatInfo POLICY_BASE MOD_POLICYDB_VERSION_ROLETRANS SYM_NUM (OCON_NODE6 + 1) SEPOL_TARGET_SELINUX;
  CompatInfo POLICY_BASE MOD_POLICYDB_VERSION_ROLEATTRIB SYM_NUM (OCON_NODE6 + 1) SEPOL_TARGET_SELINUX;
  CompatInfo POLICY_BASE MOD_POLICYDB_VERSION_TUNABLE_SEP SYM_NUM (OCON_NODE6 + 1) SEPOL_TARGET_SELINUX;
  CompatInfo POLICY_BASE MOD_POLICYDB_VERSION_NEW_OBJECT_DEFAULTS SYM_NUM (OCON_NODE6 + 1) SEPOL_TARGET_SELINUX;
  CompatInfo POLICY_BASE MOD_POLICYDB_VERSION_DEFAULT_TYPE SYM_NUM (OCON_NODE6 + 1) SEPOL_TARGET_SELINUX;
  CompatInfo POLICY_BASE MOD_POLICYDB_VERSION_CONSTRAINT_NAMES SYM_NUM (OCON_NODE6 + 1) SEPOL_TARGET_SELINUX;
  CompatInfo POLICY_BASE MOD_POLICYDB_VERSION_XPERMS_IOCTL SYM_NUM (OCON_NODE6 + 1) SEPOL_TARGET_SELINUX;
  CompatInfo POLICY_BASE MOD_POLICYDB_VERSION_INFINIBAND SYM_NUM (OCON_IBENDPORT + 1) SEPOL_TARGET_SELINUX;
  CompatInfo POLICY_BASE MOD_POLICYDB_VERSION_GLBLUB SYM_NUM (OCON_IBENDPORT + 1) SEPOL_TARGET_SELINUX;
  CompatInfo POLICY_MOD MOD_POLICYDB_VERSION_BASE SYM_NUM 0 SEPOL_TARGET_SELINUX;
  CompatInfo POLICY_MOD MOD_POLICYDB_VERSION_MLS SYM_NUM 0 SEPOL_TARGET_SELINUX;
  CompatInfo POLICY_MOD MOD_POLICYDB_VERSION_MLS_USERS SYM_NUM 0 SEPOL_TARGET_SELINUX;
  CompatInfo POLICY_MOD MOD_POLICYDB_VERSION_POLCAP SYM_NUM 0 SEPOL_TARGET_SELINUX;
  CompatInfo POLICY_MOD MOD_POLICYDB_VERSION_PERMISSIVE SYM_NUM 0 SEPOL_TARGET_SELINUX;
  CompatInfo POLICY_MOD MOD_POLICYDB_VERSION_BOUNDARY SYM_NUM 0 SEPOL_TARGET_SELINUX;
  CompatInfo POLICY_MOD MOD_POLICYDB_VERSION_BOUNDARY_ALIAS SYM_NUM 0 SEPOL_TARGET_SELINUX;
  CompatInfo POLICY_MOD MOD_POLICYDB_VERSION_FILENAME_TRANS SYM_NUM 0 SEPOL_TARGET_SELINUX;
  CompatInfo POLICY_MOD MOD_POLICYDB_VERSION_ROLETRANS SYM_NUM 0 SEPOL_TARGET_SELINUX;
  CompatInfo POLICY_MOD MOD_POLICYDB_VERSION_ROLEATTRIB SYM_NUM 0 SEPOL_TARGET_SELINUX;
  CompatInfo POLICY_MOD MOD_POLICYDB_VERSION_TUNABLE_SEP SYM_NUM 0 SEPOL_TARGET_SELINUX;
  CompatInfo POLICY_MOD MOD_POLICYDB_VERSION_NEW_OBJECT_DEFAULTS SYM_NUM 0 SEPOL_TARGET_SELINUX;
  CompatInfo POLICY_MOD MOD_POLICYDB_VERSION_DEFAULT_TYPE SYM_NUM 0 SEPOL_TARGET_SELINUX;
  CompatInfo POLICY_MOD MOD_POLICYDB_VERSION_CONSTRAINT_NAMES SYM_NUM 0 SEPOL_TARGET_SELINUX;
  CompatInfo POLICY_MOD MOD_POLICYDB_VERSION_XPERMS_IOCTL SYM_NUM 0 SEPOL_TARGET_SELINUX;
  CompatInfo POLICY_MOD MOD_POLICYDB_VERSION_INFINIBAND SYM_NUM 0 SEPOL_TARGET_SELINUX;
  CompatInfo POLICY_MOD MOD_POLICYDB_VERSION_GLBLUB SYM_NUM 0 SEPOL_TARGET_SELINUX].

Definition policydb_lookup_compat (version_ type_ target_platform_ : Z) : option compat_info :=
  snd <$> list_find (fun info => version info = version_ /\ type info = type_ /\ target_platform info = target_platform_)
    policydb_compat.

(** ** The tables *)

Record symbols := Symbols {
  commons : symtab common_datum; classes : symtab class_datum; roles : symtab role_datum;
  types : symtab type_datum; users : symtab user_datum; bools : symtab cond_bool_datum;
  levels : symtab level_datum; cats : symtab cat_datum }.

(** What comes before the rules. *)
Record policy_head := PolicyHead {
  format : policy_format;
  platform : Z;
  unsupported_format : bool;
  mls : Z;
  handle_unknown : Z;
  mod_name : bytes;         (* name *)
  mod_version : bytes;      (* version *)
  policycaps : ebitmap;
  permissive_types : ebitmap;    (* permissive_map *)
  symbol_tables : symbols }.    (* symtab *)

Section Image.
Context `{CharSign}.

(** [symtab_sizes] *)
Definition symtab_sizes : list Z := [2; 32; 16; 512; 128; 16; 16; 16].

Definition symtab_of {D} (i : nat) : symtab D := snd (symtab_init (default 0 (symtab_sizes !! i))).

Definition role_datum_init : role_datum := RoleDatum 0 ebitmap_init type_set_init 0 0 ebitmap_init.

Definition with_role_value (r : role_datum) (v : Z) : role_datum :=
  RoleDatum v (dominates r) (role_types r) (role_bounds r) (role_flavor r) (role_roles r).

(** The role [object_r]; the value is stored into the role that is in the table. *)
Definition roles_init (policy_type : Z) (st : symtab role_datum) (sc : option (hashtab bytes scope_datum))
    : option (Z * symtab role_datum * option (hashtab bytes scope_datum)) :=
  let role := role_datum_init in
  '(rc, val, st, sc) ← symtab_insert role_flavor SYM_ROLES st sc OBJECT_R role
    (if policy_type =? POLICY_MOD then SCOPE_REQ else SCOPE_DECL) 1 true;
  let role := with_role_value role (default 0 val) in
  let st := if bool_decide (val = None) then st else Symtab (poke (table st) OBJECT_R role) (nprim st) in
  if negb (rc =? 0) then Some (rc, st, sc)
  else if negb (role_value role =? OBJECT_R_VAL) then Some (- EINVAL, st, sc)
  else Some (rc, st, sc).

(** The part of [policydb_init] that concerns the head; [calloc]ed, a database is
    one for the kernel. *)
Definition policydb_init : option (Z * policy_head) :=
  '(rc, rs, sc) ← roles_init POLICY_KERN (symtab_of 2) (table (symtab_of 2));
  Some (rc, PolicyHead (PolicyFormat 0 0) 0 false 0 0 [] [] ebitmap_init ebitmap_init
              (Symbols (symtab_of 0) (symtab_of 1) rs (symtab_of 3) (symtab_of 4) (symtab_of 5) (symtab_of 6)
                 (symtab_of 7))).

(** ** Reading *)

(** One round of the loop over the kinds of symbols. *)
Definition read_symtab {D} (sym sym_num : Z)
    (read_f : option (hashtab bytes D) -> reader (option (hashtab bytes D))) (s : symtab D) : reader (symtab D) :=
  if sym <? sym_num then
    ws ← words 2;
    let nprim := buf ws 0 in
    let nel := buf ws 1 in
    _ ← ensure (negb (negb (nel =? 0) && (nprim =? 0)));
    t ← times (Z.to_nat nel) read_f (table s);
    mret (Symtab t nprim)
  else mret s.

Definition read_symbols (p : policy_format) (sym_num : Z) (s : symbols) : reader symbols :=
  co ← read_symtab SYM_COMMONS sym_num common_read (commons s);
  cl ← read_symtab SYM_CLASSES sym_num (class_read p (table co)) (classes s);
  ro ← read_symtab SYM_ROLES sym_num (role_read p) (roles s);
  ty ← read_symtab SYM_TYPES sym_num (type_read p) (types s);
  us ← read_symtab SYM_USERS sym_num (user_read p) (users s);
  bo ← read_symtab SYM_BOOLS sym_num (cond_read_bool p) (bools s);
  le ← read_symtab SYM_LEVELS sym_num sens_read (levels s);
  ca ← read_symtab SYM_CATS sym_num cat_read (cats s);
  mret (Symbols co cl ro ty us bo le ca).

(** The kind of policy and the platform, from the magic number and the string. *)
Definition read_magic (p : policy_head) : reader (Z * Z) :=
  ws ← words 2;
  policy_type ← (if buf ws 0 =? POLICYDB_MAGIC then mret POLICY_KERN
                 else if buf ws 0 =? POLICYDB_MOD_MAGIC then mret POLICY_MOD
                 else failure);
  let len := buf ws 1 in
  _ ← ensure (negb ((len =? 0) || (POLICYDB_STRING_MAX_LENGTH <? len)));
  s ← string_of len;
  if policy_type =? POLICY_KERN then
    match list_find (fun t => s = t) policydb_target_strings with
    | Some (i, _) => mret (policy_type, Z.of_nat i)
    | None => failure
    end
  else
    _ ← ensure (bool_decide (s = POLICYDB_MOD_STRING));
    mret (policy_type, platform p).

(** The kind of policy, the version, and the words after them. *)
Definition read_version (policy_type : Z) : reader (policy_format * list Z) :=
  ws ← words (if policy_type =? POLICY_KERN then 4 else 5);
  '(policy_type, ws) ←
    (if policy_type =? POLICY_MOD then
       _ ← ensure (negb (negb (buf ws 0 =? POLICY_MOD) && negb (buf ws 0 =? POLICY_BASE)));
       mret (buf ws 0, drop 1 ws)
     else mret (policy_type, ws));
  let r_policyvers := buf ws 0 in
  _ ← ensure (negb (
    if policy_type =? POLICY_KERN
    then (r_policyvers <? POLICYDB_VERSION_MIN) || (POLICYDB_VERSION_MAX <? r_policyvers)
    else (r_policyvers <? MOD_POLICYDB_VERSION_MIN) || (MOD_POLICYDB_VERSION_MAX <? r_policyvers)));
  mret (PolicyFormat policy_type r_policyvers, drop 1 ws).

Definition read_name : reader bytes :=
  ws ← words 1;
  read_key 64 (buf ws 0).

Definition has_policycaps (p : policy_format) : bool :=
  kern_at_least p POLICYDB_VERSION_POLCAP || base_at_least p MOD_POLICYDB_VERSION_POLCAP ||
  mod_at_least p MOD_POLICYDB_VERSION_POLCAP.

Definition has_permissive_map (p : policy_format) : bool := kern_at_least p POLICYDB_VERSION_PERMISSIVE.

Definition policydb_read_head (p : policy_head) : reader policy_head :=
  '(policy_type_, plat) ← read_magic p;
  '(f, ws) ← read_version policy_type_;
  let mls := if bit_set (buf ws 0) POLICYDB_CONFIG_MLS then 1 else 0 in
  let unknown := Z.land (buf ws 0) POLICYDB_CONFIG_UNKNOWN_MASK in
  match policydb_lookup_compat (policyvers f) (policy_type f) plat with
  | None => failure
  | Some info =>
      _ ← ensure (negb (negb (buf ws 1 =? sym_num info) || negb (buf ws 2 =? ocon_num info)));
      '(n, v) ← (if policy_type f =? POLICY_MOD
                 then n ← read_name; v ← read_name; mret (n, v)
                 else mret (mod_name p, mod_version p));
      caps ← (if has_policycaps f then bitmap else mret (policycaps p));
      perm ← (if has_permissive_map f then bitmap else mret (permissive_types p));
      s ← read_symbols f (sym_num info) (symbol_tables p);
      mret (PolicyHead f plat (unsupported_format p) mls unknown n v caps perm s)
  end.

(** ** Writing *)

(** [type_attr_uncount] and [role_attr_uncount]: take one entry off the number. *)
Definition attr_uncount {D} (is_attr : D -> bool) (_ : bytes) (d : D) (n : Z) : Z * Z :=
  (0, if is_attr d then u32 (n - 1) else n).

(** One round of the loop over the kinds of symbols; [uncounted] of the entries
    of a kind are not written. *)
Definition write_symtab {D} (sym sym_num : Z) (uncount : bool) (is_attr : D -> bool)
    (write_f : bytes -> D -> writer) (s : symtab D) : writer :=
  when (sym <? sym_num)
    (let nel := table_nel (table s) in
     let nel := if uncount then snd (hashtab_map (table s) (attr_uncount is_attr) nel) else nel in
     put_words [nprim s; nel] ;;
     hashtab_map (table s) write_f).

Definition write_symbols (p : policy_format) (sym_num : Z) (s : symbols) : writer :=
  write_symtab SYM_COMMONS sym_num false (fun _ => false) common_write (commons s) ;;
  write_symtab SYM_CLASSES sym_num false (fun _ => false) (class_write p) (classes s) ;;
  write_symtab SYM_ROLES sym_num
    (is_kern p || negb (is_kern p) && (policyvers p <? MOD_POLICYDB_VERSION_ROLEATTRIB))
    (fun d => role_flavor d =? ROLE_ATTRIB) (role_write p) (roles s) ;;
  write_symtab SYM_TYPES sym_num ((policyvers p <? POLICYDB_VERSION_BOUNDARY) && is_kern p)
    (fun d => flavor d =? TYPE_ATTRIB) (type_write p) (types s) ;;
  write_symtab SYM_USERS sym_num false (fun _ => false) (user_write p) (users s) ;;
  write_symtab SYM_BOOLS sym_num false (fun _ => false) (cond_write_bool p) (bools s) ;;
  write_symtab SYM_LEVELS sym_num false (fun _ => false) sens_write (levels s) ;;
  write_symtab SYM_CATS sym_num false (fun _ => false) cat_write (cats s).

Definition old_for_mls (p : policy_format) : bool :=
  (policyvers p <? POLICYDB_VERSION_MLS) && is_kern p ||
  (policyvers p <? MOD_POLICYDB_VERSION_MLS) && (policy_type p =? POLICY_BASE) ||
  (policyvers p <? MOD_POLICYDB_VERSION_MLS) && (policy_type p =? POLICY_MOD).

Definition config (p : policy_head) : Z :=
  Z.lor (if negb (mls p =? 0) then POLICYDB_CONFIG_MLS else 0)
    (Z.lor (Z.land POLICYDB_CONFIG_UNKNOWN_MASK (handle_unknown p)) POLICYDB_CONFIG_ANDROID_NETLINK_ROUTE).

(** The string of the kind of policy; a platform beyond the table is not looked up. *)
Definition policydb_str (p : policy_head) : bytes :=
  if is_kern (format p) then default [] (policydb_target_strings !! Z.to_nat (platform p))
  else POLICYDB_MOD_STRING.

Definition write_name (s : bytes) : writer := put_words [blen s] ;; put_string s.

Definition policydb_write_head (p : policy_head) : writer :=
  let f := format p in
  if unsupported_format p then fun fp => (POLICYDB_UNSUPPORTED, fp)
  else if negb (mls p =? 0) && old_for_mls f then fun fp => (POLICYDB_ERROR, fp)
  else
    put_words [if is_kern f then POLICYDB_MAGIC else POLICYDB_MOD_MAGIC; blen (policydb_str p)] ;;
    put_string (policydb_str p) ;;
    match policydb_lookup_compat (policyvers f) (policy_type f) (platform p) with
    | None => fun fp => (POLICYDB_ERROR, fp)
    | Some info =>
        put_words ((if negb (is_kern f) then [policy_type f] else []) ++
                   [policyvers f; config p; sym_num info; ocon_num info]) ;;
        when (policy_type f =? POLICY_MOD) (write_name (mod_name p) ;; write_name (mod_version p)) ;;
        when (has_policycaps f) (ebitmap_write (policycaps p)) ;;
        when (has_permissive_map f) (ebitmap_write (permissive_types p)) ;;
        write_symbols f (sym_num info) (symbol_tables p)
    end.

End Image.

(** ** What a file keeps of a table *)

(** A table that stands for [m], counted. *)
Definition holds `{CharSign} {D} (s : symtab D) (m : gmap bytes D) : Prop := exists sz, counted (table s) sz m.

(** The entries that are written, as they are read. *)
Definition saved {D} (omit : D -> bool) (g : bytes -> D -> option D) (m : gmap bytes D) : gmap bytes D :=
  map_imap (fun k d => if omit d then None else g k d) m.

Section Tables.
Context `{CharSign} {D : Type}.
Abbreviation tab := (option (hashtab bytes D)).
Implicit Types (omit : D -> bool) (g : bytes -> D -> option D) (m : gmap bytes D) (w : bytes -> D -> writer).

Lemma stored_entries_lookup g (l : list (bytes * D)) m k : NoDup l.*1 ->
  stored_entries g l m !! k =
  match (list_to_map l : gmap bytes D) !! k ≫= g k with Some d => Some d | None => m !! k end.
Proof.
  revert m. induction l as [|[k' d] l IH]; intros m Hnd; [cbn [list_to_map foldr]; by rewrite lookup_empty|].
  cbn [fmap list_fmap fst] in Hnd. apply NoDup_cons in Hnd as [Hk Hnd].
  change (stored_entries g ((k', d) :: l) m) with
    (stored_entries g l (match g k' d with Some d => <[k' := d]> m | None => m end)).
  rewrite IH by done. cbn [list_to_map foldr]. destruct (decide (k = k')) as [->|Hne].
  - rewrite lookup_insert_eq, not_elem_of_list_to_map_1 by done. cbn [mbind option_bind snd].
    destruct (g k' d); [by rewrite lookup_insert_eq|done].
  - rewrite lookup_insert_ne by done. destruct (g k' d); [by rewrite lookup_insert_ne|done].
Qed.

(** The entries that are not left out. *)
Definition kept omit (l : list (bytes * D)) : list (bytes * D) := filter (fun x => omit x.2 = false) l.

Lemma kept_NoDup omit (l : list (bytes * D)) : NoDup l.*1 -> NoDup (kept omit l).*1.
Proof. intros Hl. eapply sublist_NoDup; [exact Hl|]. apply fmap_sublist, sublist_filter. Qed.

Lemma stored_kept omit g t m : Hashtab.wf t ->
  stored_entries g (kept omit (entries t)) m = saved omit g (as_map t) ∪ m.
Proof.
  intros Hw. pose proof (entries_NoDup t Hw) as Hnd. apply map_eq. intros k.
  rewrite stored_entries_lookup by by apply kept_NoDup. rewrite lookup_union. unfold saved.
  rewrite map_lookup_imap. unfold as_map.
  destruct ((list_to_map (kept omit (entries t)) : gmap bytes D) !! k) as [d|] eqn:E.
  - apply elem_of_list_to_map_2 in E. apply list_elem_of_filter in E as [Ho Hin]. cbn [snd] in Ho.
    apply (elem_of_list_to_map_1 (M := gmap bytes)) in Hin; [|done]. rewrite Hin. cbn [mbind option_bind].
    rewrite Ho. destruct (g k d), (m !! k); done.
  - destruct ((list_to_map (entries t) : gmap bytes D) !! k) as [d|] eqn:E'; cbn [mbind option_bind].
    2: by destruct (m !! k).
    destruct (omit d) eqn:Ho; [by destruct (m !! k)|]. exfalso.
    apply elem_of_list_to_map_2 in E'. apply not_elem_of_list_to_map in E. apply E.
    apply (list_elem_of_fmap_2 fst _ (k, d)). apply list_elem_of_filter. done.
Qed.

Lemma kept_all (l : list (bytes * D)) : kept (fun _ => false) l = l.
Proof. unfold kept. induction l as [|x l IH]; [done|]. rewrite filter_cons_True by done. by rewrite IH. Qed.

(** Writing passes over the entries that are left out. *)
Lemma map_chain_kept omit w (l : list (bytes * D)) fp :
  (forall k d, omit d = true -> w k d = skip) -> map_chain w l fp = map_chain w (kept omit l) fp.
Proof.
  intros Hs. revert fp. induction l as [|[k d] l IH]; intros fp; [done|]. unfold kept. rewrite filter_cons.
  cbn [map_chain snd]. case_decide as E.
  - cbn [map_chain]. destruct (w k d fp) as [ret fp']. case_match; [|done]. apply IH.
  - apply not_false_iff_true in E. rewrite (Hs k d E). unfold skip. change (u32 POLICYDB_SUCCESS =? 0) with true.
    apply IH.
Qed.

Lemma uncount_chain (f : D -> bool) (l : list (bytes * D)) n : Z.of_nat (length l) <= n < 2 ^ 32 ->
  snd (map_chain (attr_uncount f) l n) = n - Z.of_nat (length l) + Z.of_nat (length (kept f l)).
Proof.
  revert n. induction l as [|[k d] l IH]; intros n Hn; [cbn; lia|]. cbn [length] in Hn.
  unfold kept. rewrite filter_cons. cbn [map_chain attr_uncount snd]. change (u32 0 =? 0) with true. cbn iota.
  case_decide as E.
  - rewrite E, IH by lia. cbn [length]. unfold kept. lia.
  - apply not_false_iff_true in E. rewrite E, u32_small by (unfold is_u32; lia). rewrite IH by lia.
    cbn [length]. unfold kept. lia.
Qed.

(** One round of the loop over the kinds of symbols. *)
Lemma codec_symtab sym n (b : bool) (f : D -> bool) ok w r g (s : symtab D) m (h0 : tab) sz0 m0 n0 :
  let omit d := b && f d in
  symbol_codec ok w r g -> (forall k d, omit d = true -> w k d = skip) ->
  holds s m -> counted h0 sz0 m0 ->
  (sym < n -> is_u32 (nprim s) /\ Z.of_nat (base.size m0 + base.size m) < 2 ^ 32 /\
     forall k d, m !! k = Some d -> omit d = false ->
       ok k d /\ nprim s <> 0 /\ (g k d <> None -> m0 !! k = None)) ->
  exists h', codec (write_symtab sym n b f w s) (read_symtab sym n r (Symtab h0 n0))
      (if sym <? n then Symtab h' (nprim s) else Symtab h0 n0) /\
    counted h' sz0 (if sym <? n then saved omit g m ∪ m0 else m0).
Proof.
  intros omit Hcod Hskip (sz & t & Et & Hw & Hm & Hsz & Hnel) Hc0 Hok. subst m.
  unfold write_symtab, read_symtab. destruct (Z.ltb_spec sym n) as [Hlt|Hge].
  2: { exists h0. split; [apply codec_skip|done]. }
  destruct (Hok Hlt) as (Hnp & Hs & Hks). rewrite Et. cbn [table_nel when].
  pose proof (entries_length t Hw) as Hlen.
  assert ((if b then snd (hashtab_map (Some t) (attr_uncount f) (Hashtab.nel t)) else Hashtab.nel t) =
    Z.of_nat (length (kept omit (entries t)))) as ->.
  { unfold omit. destruct b; cbn [andb].
    - cbn [hashtab_map]. rewrite map_chains_concat. change (concat _) with (entries t). rewrite uncount_chain by lia. change (fun d : D => f d) with f. lia.
    - change (kept _ (entries t)) with (kept (fun _ => false) (entries t)). rewrite kept_all, Hlen. exact Hnel. }
  assert (length (kept omit (entries t)) <= base.size (as_map t))%nat as Hle.
  { rewrite <- Hlen. apply sublist_length, sublist_filter. }
  destruct (codec_entries g w r (kept omit (entries t)) sz0 h0 m0) as (h' & Hd & Hc'); [done|lia| | | |].
  - by apply kept_NoDup, entries_NoDup.
  - intros k d [Ho Hin]%list_elem_of_filter. apply entries_elem in Hin; [|done]. by apply (Hks k d Hin Ho).
  - intros k d h1 m1 [Ho Hin]%list_elem_of_filter Hc1 Hs1 Hg. apply entries_elem in Hin; [|done].
    apply (Hcod k d h1 sz0 m1); [by apply (Hks k d Hin Ho)|done..].
  - exists h'. rewrite (stored_kept omit g t m0 Hw) in Hc'. split; [|exact Hc'].
    eapply codec_bind; [apply (codec_words 2); [done|]|].
    { repeat apply Forall_cons_2; [exact Hnp|unfold is_u32; lia|apply Forall_nil_2]. }
    cbn [buf lookup list_lookup default]. unfold id. apply codec_ensure.
    { destruct (kept omit (entries t)) as [|[k d] l] eqn:El; [done|].
      assert ((k, d) ∈ kept omit (entries t)) as [Ho Hin]%list_elem_of_filter by (rewrite El; by left).
      apply entries_elem in Hin; [|done]. destruct (Hks k d Hin Ho) as (_ & Hz & _).
      by rewrite (proj2 (Z.eqb_neq _ _) Hz), andb_false_r. }
    rewrite Nat2Z.id. eapply codec_last; [|apply decodes_ret].
    eapply codec_ext; [|exact Hd]. intros fp. rewrite hashtab_map_chain. by apply map_chain_kept.
Qed.
End Tables.

(** ** What a file keeps of a policy *)

Record symbol_maps := SymbolMaps {
  m_commons : gmap bytes common_datum; m_classes : gmap bytes class_datum; m_roles : gmap bytes role_datum;
  m_types : gmap bytes type_datum; m_users : gmap bytes user_datum; m_bools : gmap bytes cond_bool_datum;
  m_levels : gmap bytes level_datum; m_cats : gmap bytes cat_datum }.

Definition none_omitted {D} (_ : D) : bool := false.

Section Heads.
Context `{CharSign} (named : bytes -> Prop) (named_ok : forall s, named s -> name_ok s).

(** A table that can be written: if its kind is, its entries are in range, and
    there are none when the table counts no symbols. *)
Definition kind_ok {D} (sym n : Z) (omit : D -> bool) (ok : bytes -> D -> Prop) (s : symtab D) (m : gmap bytes D) : Prop :=
  holds s m /\
  (sym < n -> is_u32 (nprim s) /\ Z.of_nat (base.size m) < 2 ^ 32 - 1 /\
     forall k d, m !! k = Some d -> omit d = false -> ok k d /\ nprim s <> 0).

Record symbols_ok (p : policy_format) (n : Z) (s : symbols) (ms : symbol_maps) : Prop := {
  ok_commons : kind_ok SYM_COMMONS n none_omitted (common_ok named) (commons s) (m_commons ms);
  ok_classes : kind_ok SYM_CLASSES n none_omitted (class_ok named (table (commons s))) (classes s) (m_classes ms);
  ok_roles : kind_ok SYM_ROLES n (omits_role p) (role_ok named) (roles s) (m_roles ms);
  ok_types : kind_ok SYM_TYPES n (omits_type p) (type_ok named) (types s) (m_types ms);
  ok_users : kind_ok SYM_USERS n none_omitted (user_ok p named) (users s) (m_users ms);
  ok_bools : kind_ok SYM_BOOLS n none_omitted (bool_ok named) (bools s) (m_bools ms);
  ok_levels : kind_ok SYM_LEVELS n none_omitted (sens_ok named) (levels s) (m_levels ms);
  ok_cats : kind_ok SYM_CATS n none_omitted (cat_ok named) (cats s) (m_cats ms);
  ok_num : SYM_CLASSES < n
}.

(** The table after reading: what was saved, over what was there. *)
Definition kind_saved {D} (sym n : Z) (omit : D -> bool) (g : bytes -> D -> option D) (s0 s s' : symtab D)
    (m0 m : gmap bytes D) : Prop :=
  holds s' (if sym <? n then saved omit g m ∪ m0 else m0) /\
  nprim s' = if sym <? n then nprim s else nprim s0.

Definition object_r : role_datum := with_role_value role_datum_init OBJECT_R_VAL.

Definition symbols_saved (p : policy_format) (n : Z) (s0 s s' : symbols) (ms : symbol_maps) : Prop :=
  kind_saved SYM_COMMONS n none_omitted keep_all (commons s0) (commons s) (commons s') ∅ (m_commons ms) /\
  kind_saved SYM_CLASSES n none_omitted (fun _ d => Some (stored_class p d)) (classes s0) (classes s) (classes s') ∅ (m_classes ms) /\
  kind_saved SYM_ROLES n (omits_role p) (keep_role p) (roles s0) (roles s) (roles s') {[OBJECT_R := object_r]} (m_roles ms) /\
  kind_saved SYM_TYPES n (omits_type p) (fun _ d => Some (stored_type p d)) (types s0) (types s) (types s') ∅ (m_types ms) /\
  kind_saved SYM_USERS n none_omitted (fun _ d => Some (stored_user p d)) (users s0) (users s) (users s') ∅ (m_users ms) /\
  kind_saved SYM_BOOLS n none_omitted (fun _ d => Some (stored_bool p d)) (bools s0) (bools s) (bools s') ∅ (m_bools ms) /\
  kind_saved SYM_LEVELS n none_omitted keep_all (levels s0) (levels s) (levels s') ∅ (m_levels ms) /\
  kind_saved SYM_CATS n none_omitted keep_all (cats s0) (cats s) (cats s') ∅ (m_cats ms).

(** A kind of symbols whose table is empty, or holds one entry that is not read. *)
Lemma codec_kind {D} sym n b (f : D -> bool) ok w r g (s s0 : symtab D) m m0 (omit : D -> bool) :
  symbol_codec (fun k d => ok k d /\ omit d = false) w r g -> (forall d, omit d = b && f d) ->
  (forall k d, omit d = true -> w k d = skip) ->
  kind_ok sym n omit ok s m -> holds s0 m0 -> (base.size m0 <= 1)%nat ->
  (forall k d, g k d <> None -> m0 !! k = None) ->
  exists s', codec (write_symtab sym n b f w s) (read_symtab sym n r s0) s' /\ kind_saved sym n omit g s0 s s' m0 m.
Proof.
  intros Hcod Ho Hskip [Hh Hok] [sz0 Hc0] Hm0 Hg. destruct s0 as [h0 n0]. cbn [table] in Hc0.
  destruct (codec_symtab sym n b f (fun k d => ok k d /\ omit d = false) w r g s m h0 sz0 m0 n0) as (h' & Hd & Hc);
    [done|intros k d E; apply Hskip; by rewrite Ho|done|done| |].
  - intros Hlt. destruct (Hok Hlt) as (Hn & Hs & Hk). split; [done|]. split; [lia|].
    intros k d Hkd Hod. rewrite <- Ho in Hod. destruct (Hk k d Hkd Hod). split; [done|]. split; [done|apply Hg].
  - eexists. split; [exact Hd|]. unfold kind_saved, holds.
    replace (saved omit g m) with (saved (fun d => b && f d) g m)
      by (unfold saved; apply map_eq; intros k; rewrite !map_lookup_imap; by destruct (m !! k); cbn; rewrite ?Ho).
    destruct (sym <? n); split; first [by exists sz0|done].
Qed.

(** Kinds of which nothing is left out. *)
Lemma codec_whole {D} sym n ok w r g (s s0 : symtab D) m :
  symbol_codec ok w r g -> kind_ok sym n none_omitted ok s m -> holds s0 ∅ ->
  exists s', codec (write_symtab sym n false (fun _ => false) w s) (read_symtab sym n r s0) s' /\
    kind_saved sym n none_omitted g s0 s s' ∅ m.
Proof.
  intros Hcod Hok H0. apply (codec_kind sym n false (fun _ => false) ok w r g s s0 m ∅ none_omitted); try done.
  - intros k d h sz m' [Hk _]. by apply Hcod.
  - rewrite map_size_empty. lia.
Qed.

Lemma created {D} i : (i < 8)%nat -> holds (symtab_of (D := D) i) ∅.
Proof.
  intros Hi. eexists. apply counted_create. do 8 (destruct i as [|i]; [by vm_compute|]). lia.
Qed.

Lemma counted_poke {D} (h : option (hashtab bytes D)) sz m k d d' :
  counted h sz m -> m !! k = Some d' -> counted (poke h k d) sz (<[k := d]> m).
Proof.
  intros (t & -> & Hw & Hm & Hs & Hn) Hk. destruct (table_call_ok t (Replace k d) Hw) as (t' & E & Hw' & Hm' & Hs' & Hn').
  cbn [table_call spec_call nel_call fst snd] in *. unfold poke.
  destruct (hashtab_replace (Some t) k d) as [[r x] h']. injection E as _ _ ->. cbn [snd].
  exists t'. split; [done|]. split; [done|]. split; [congruence|]. split; [congruence|].
  rewrite Hn', Hn, map_size_insert_Some by by rewrite Hk. done.
Qed.

(** The database [policydb_init] makes has the role [object_r] and nothing else. *)
Lemma init_holds : exists p0, policydb_init = Some (0, p0) /\
  policydb_init = Some (0, PolicyHead (PolicyFormat 0 0) 0 false 0 0 [] [] ebitmap_init ebitmap_init (symbol_tables p0)) /\
  holds (commons (symbol_tables p0)) ∅ /\ holds (classes (symbol_tables p0)) ∅ /\
  holds (roles (symbol_tables p0)) {[OBJECT_R := object_r]} /\ holds (types (symbol_tables p0)) ∅ /\
  holds (users (symbol_tables p0)) ∅ /\ holds (bools (symbol_tables p0)) ∅ /\
  holds (levels (symbol_tables p0)) ∅ /\ holds (cats (symbol_tables p0)) ∅.
Proof.
  assert (exists sc, roles_init POLICY_KERN (symtab_of 2) (table (symtab_of 2)) =
    Some (0, Symtab (poke (snd (hashtab_insert (hashtab_create 16) OBJECT_R role_datum_init)) OBJECT_R object_r) 1, sc))
    as [sc E].
  { unfold CharSign in *. destruct H; eexists; vm_compute; reflexivity. }
  unfold policydb_init. rewrite E. cbn [mbind option_bind]. eexists. split; [reflexivity|].
  cbn [symbol_tables commons classes roles types users bools levels cats].
  split; [reflexivity|]. split; [by apply created; lia|]. split; [by apply created; lia|]. split.
  { exists 16. cbn [table]. rewrite <- insert_empty, <- (insert_insert_eq ∅ OBJECT_R object_r role_datum_init).
    apply (counted_poke _ _ _ _ _ role_datum_init); [|by rewrite lookup_insert_eq].
    apply counted_insert; [by apply counted_create|done|done]. }
  repeat split; apply created; lia.
Qed.

(** ** Symbols *)

Lemma class_codec_over p cs cs' m : holds cs m -> holds cs' m ->
  symbol_codec (class_ok named (table cs)) (class_write p) (class_read p (table cs')) (fun _ d => Some (stored_class p d)).
Proof.
  intros [sz Hc] [sz' Hc'] k d h sz0 m0 Hk. apply (class_codec _ named named_ok).
  destruct Hk as (H1 & H2 & H3 & H4 & H5). split; [done|]. split; [done|]. split; [done|]. split; [|done].
  destruct (comkey d); [|done]. destruct H4 as (H4 & H6 & H7). split; [done|]. split; [done|].
  rewrite (search_refines _ _ _ (counted_refines _ _ _ Hc')). by rewrite <- (search_refines _ _ _ (counted_refines _ _ _ Hc)).
Qed.

Lemma saved_whole {D} (m : gmap bytes D) : saved none_omitted keep_all m = m.
Proof. unfold saved. apply map_eq. intros k. rewrite map_lookup_imap. by destruct (m !! k). Qed.

Lemma codec_symbols p n s ms p0 : policydb_init = Some (0, p0) -> symbols_ok p n s ms ->
  exists s', codec (write_symbols p n s) (read_symbols p n (symbol_tables p0)) s' /\
    symbols_saved p n (symbol_tables p0) s s' ms.
Proof.
  intros Hp0 Hok. destruct init_holds as (p1 & E & _ & I0 & I1 & I2 & I3 & I4 & I5 & I6 & I7).
  rewrite Hp0 in E. injection E as <-. set (s0 := symbol_tables p0) in *. unfold write_symbols, read_symbols.
  destruct (codec_whole SYM_COMMONS n _ _ _ _ _ _ _ (common_codec named named_ok) (ok_commons _ _ _ _ Hok) I0) as (co & C0 & K0).
  assert (holds co (m_commons ms)) as Hco.
  { destruct K0 as [K0 _]. rewrite saved_whole in K0. pose proof (ok_num _ _ _ _ Hok).
    destruct (Z.ltb_spec SYM_COMMONS n); [|unfold SYM_COMMONS, SYM_CLASSES in *; lia]. by rewrite map_union_empty in K0. }
  destruct (codec_whole SYM_CLASSES n _ _ _ _ _ _ _ (class_codec_over p _ _ _ (proj1 (ok_commons _ _ _ _ Hok)) Hco)
    (ok_classes _ _ _ _ Hok) I1) as (cl & C1 & K1).
  destruct (codec_kind SYM_ROLES n (is_kern p || negb (is_kern p) && (policyvers p <? MOD_POLICYDB_VERSION_ROLEATTRIB))
    (fun d => role_flavor d =? ROLE_ATTRIB) (role_ok named) (role_write p) (role_read p) (keep_role p) (roles s) (roles s0)
    (m_roles ms) {[OBJECT_R := object_r]} (omits_role p)) as (ro & C2 & K2).
  { by apply role_codec. }
  { intros d. apply andb_comm. }
  { intros k d E. unfold role_write. by rewrite E. }
  { apply (ok_roles _ _ _ _ Hok). }
  { done. }
  { by rewrite map_size_singleton. }
  { intros k d. unfold keep_role. case_bool_decide; [done|]. intros _. by apply lookup_singleton_ne. }
  destruct (codec_kind SYM_TYPES n ((policyvers p <? POLICYDB_VERSION_BOUNDARY) && is_kern p)
    (fun d => flavor d =? TYPE_ATTRIB) (type_ok named) (type_write p) (type_read p) (fun _ d => Some (stored_type p d))
    (types s) (types s0) (m_types ms) ∅ (omits_type p)) as (ty & C3 & K3).
  { by apply type_codec. }
  { intros d. unfold omits_type. by rewrite (andb_comm (is_kern p)). }
  { intros k d E. unfold type_write. by rewrite E. }
  { apply (ok_types _ _ _ _ Hok). }
  { done. }
  { rewrite map_size_empty. lia. }
  { done. }
  destruct (codec_whole SYM_USERS n _ _ _ _ _ _ _ (user_codec p named named_ok) (ok_users _ _ _ _ Hok) I4) as (us & C4 & K4).
  destruct (codec_whole SYM_BOOLS n _ _ _ _ _ _ _ (bool_codec p named named_ok) (ok_bools _ _ _ _ Hok) I5) as (bo & C5 & K5).
  destruct (codec_whole SYM_LEVELS n _ _ _ _ _ _ _ (sens_codec named named_ok) (ok_levels _ _ _ _ Hok) I6) as (le & C6 & K6).
  destruct (codec_whole SYM_CATS n _ _ _ _ _ _ _ (cat_codec named named_ok) (ok_cats _ _ _ _ Hok) I7) as (ca & C7 & K7).
  exists (Symbols co cl ro ty us bo le ca). split; [|done].
  do 7 (eapply codec_bind; [eassumption|]). eapply codec_last; [eassumption|]. apply decodes_ret.
Qed.

(** ** The header *)

Definition compat_valid (info : compat_info) : bool :=
  (if type info =? POLICY_KERN
   then (POLICYDB_VERSION_MIN <=? version info) && (version info <=? POLICYDB_VERSION_MAX) &&
        ((target_platform info =? SEPOL_TARGET_SELINUX) || (target_platform info =? SEPOL_TARGET_XEN))
   else (MOD_POLICYDB_VERSION_MIN <=? version info) && (version info <=? MOD_POLICYDB_VERSION_MAX) &&
        ((type info =? POLICY_BASE) || (type info =? POLICY_MOD)) && (target_platform info =? SEPOL_TARGET_SELINUX)) &&
  (4 <? sym_num info) && (sym_num info <=? SYM_NUM) && (0 <=? ocon_num info) && (ocon_num info <=? 9).

(** Every version that is in the table is one that is accepted. *)
Lemma compat_lookup v t pl info : policydb_lookup_compat v t pl = Some info ->
  version info = v /\ type info = t /\ target_platform info = pl /\ compat_valid info = true.
Proof.
  unfold policydb_lookup_compat. intros ([i x] & (Hi & (Hv & Ht & Hp) & _)%list_find_Some & ->)%fmap_Some_1.
  cbn [snd]. split; [done|]. split; [done|]. split; [done|].
  assert (forallb compat_valid policydb_compat = true) as Hall by reflexivity.
  apply (proj1 (forallb_forall _ _) Hall). apply list_elem_of_In. by eapply list_elem_of_lookup_2.
Qed.

Lemma unknown_cases h : exists u, Z.land POLICYDB_CONFIG_UNKNOWN_MASK h = u /\ (u = 0 \/ u = 2 \/ u = 4 \/ u = 6).
Proof.
  change POLICYDB_CONFIG_UNKNOWN_MASK with (Z.land 6 (Z.ones 3)).
  rewrite <- Z.land_assoc, (Z.land_comm (Z.ones 3)), Z.land_ones by lia.
  pose proof (Z.mod_pos_bound h (2 ^ 3) ltac:(lia)) as Hb. change (2 ^ 3) with 8 in *. exists (Z.land 6 (h mod 8)). split; [done|]. revert Hb. generalize (h mod 8). intros x Hb.
  assert (x = 0 \/ x = 1 \/ x = 2 \/ x = 3 \/ x = 4 \/ x = 5 \/ x = 6 \/ x = 7)
    as [-> |[-> |[-> |[-> |[-> |[-> |[-> | ->]]]]]]] by lia; vm_compute; tauto.
Qed.

(** What is read of the configuration that is written. *)
Lemma config_spec p : is_u32 (config p) /\ bit_set (config p) POLICYDB_CONFIG_MLS = negb (mls p =? 0) /\
  Z.land (config p) POLICYDB_CONFIG_UNKNOWN_MASK = Z.land POLICYDB_CONFIG_UNKNOWN_MASK (handle_unknown p).
Proof.
  unfold config. destruct (unknown_cases (handle_unknown p)) as (u & -> & Hu).
  destruct (mls p =? 0); destruct Hu as [-> |[-> |[-> | ->]]]; by vm_compute.
Qed.

Lemma codec_magic p p0 info : platform p0 = 0 ->
  policydb_lookup_compat (policyvers (format p)) (policy_type (format p)) (platform p) = Some info ->
  codec (put_words [if is_kern (format p) then POLICYDB_MAGIC else POLICYDB_MOD_MAGIC; blen (policydb_str p)] ;;
         put_string (policydb_str p))
    (read_magic p0) (if is_kern (format p) then POLICY_KERN else POLICY_MOD, platform p).
Proof.
  intros H0 Hl. apply compat_lookup in Hl as (_ & Ht & Hp & Hv). unfold compat_valid in Hv.
  apply andb_true_iff in Hv as [Hv _]. do 3 apply andb_true_iff in Hv as [Hv _].
  unfold is_kern, policydb_str, is_kern. rewrite <- Ht, <- Hp.
  destruct (Z.eqb_spec (type info) POLICY_KERN) as [E|E].
  - apply andb_true_iff in Hv as [_ Hv]. apply orb_true_iff in Hv as [->%Z.eqb_eq| ->%Z.eqb_eq].
    + eapply codec_bind; [apply (codec_words 2); [done|by repeat constructor]|].
      apply (codec_pure _ _ POLICY_KERN); [done|]. apply codec_ensure; [done|].
      eapply codec_last; [apply codec_string; [done|]|apply decodes_ret]. cbv. lia.
    + eapply codec_bind; [apply (codec_words 2); [done|by repeat constructor]|].
      apply (codec_pure _ _ POLICY_KERN); [done|]. apply codec_ensure; [done|].
      eapply codec_last; [apply codec_string; [done|]|apply decodes_ret]. cbv. lia.
  - apply andb_true_iff in Hv as [_ ->%Z.eqb_eq].
    eapply codec_bind; [apply (codec_words 2); [done|by repeat constructor]|].
    apply (codec_pure _ _ POLICY_MOD); [done|]. apply codec_ensure; [done|].
    eapply codec_last; [apply codec_string; [done|]|]. 1: cbv; lia.
    unfold SEPOL_TARGET_SELINUX. rewrite <- H0. apply decodes_ret.
Qed.

Lemma codec_version p info :
  policydb_lookup_compat (policyvers (format p)) (policy_type (format p)) (platform p) = Some info ->
  codec (put_words ((if negb (is_kern (format p)) then [policy_type (format p)] else []) ++
                    [policyvers (format p); config p; sym_num info; ocon_num info]))
    (read_version (if is_kern (format p) then POLICY_KERN else POLICY_MOD))
    (format p, [config p; sym_num info; ocon_num info]).
Proof.
  intros Hl. apply compat_lookup in Hl as (Hv & Ht & _ & Hok). unfold compat_valid in Hok.
  repeat rewrite ?andb_true_iff, ?Z.leb_le, ?Z.ltb_lt in Hok. destruct Hok as [[[[Hok H1] H2] H3] H4].
  rewrite Ht, Hv in Hok. destruct (config_spec p) as [Hc _].
  destruct (format p) as [t v] eqn:Ef. cbn [policy_type policyvers] in *. unfold is_kern. cbn [policy_type].
  assert (is_u32 (sym_num info) /\ is_u32 (ocon_num info)) as [Hs Ho] by (unfold is_u32, SYM_NUM in *; lia).
  destruct (Z.eqb_spec t POLICY_KERN) as [->|E].
  - apply andb_true_iff in Hok as [[?%Z.leb_le ?%Z.leb_le]%andb_true_iff _].
    assert (is_u32 v) by (unfold is_u32, POLICYDB_VERSION_MIN, POLICYDB_VERSION_MAX,
      POLICYDB_VERSION_BASE, POLICYDB_VERSION_GLBLUB in *; lia).
    eapply codec_last; [apply codec_words; [done|cbn [negb app]; u32s]|].
    intros rest. apply decodes_ensure; [|apply decodes_ret]. cbn [negb app buf lookup list_lookup default]. unfold id.
    change (POLICY_KERN =? POLICY_KERN) with true. cbn iota. lia.
  - apply andb_true_iff in Hok as [[[?%Z.leb_le ?%Z.leb_le]%andb_true_iff Hm]%andb_true_iff _].
    assert (is_u32 v) by (unfold is_u32, MOD_POLICYDB_VERSION_MIN, MOD_POLICYDB_VERSION_MAX,
      MOD_POLICYDB_VERSION_BASE, MOD_POLICYDB_VERSION_GLBLUB in *; lia).
    assert (is_u32 t) by (unfold is_u32, POLICY_BASE, POLICY_MOD in *; lia).
    eapply codec_last; [apply codec_words; [done|cbn [negb app]; u32s]|].
    cbn [negb app buf lookup list_lookup default]. unfold id.
    change (POLICY_MOD =? POLICY_MOD) with true. cbn iota.
    rewrite <- (app_nil_r []). eapply (decodes_bind _ _ [] [] (t, [v; config p; sym_num info; ocon_num info])).
    + apply decodes_ensure; [|apply decodes_ret]. unfold POLICY_BASE, POLICY_MOD in *. lia.
    + apply decodes_ensure; [|apply decodes_ret]. cbn [negb app buf lookup list_lookup default]. unfold id.
      rewrite (proj2 (Z.eqb_neq _ _) E). lia.
Qed.

Lemma codec_name s : named s -> codec (write_name s) read_name s.
Proof.
  intros Hs. pose proof (named_u32 named named_ok s Hs). eapply codec_bind; [apply (codec_words 1); [done|u32s]|].
  apply (codec_named named named_ok); [by right|done].
Qed.

(** A policy that can be written. *)
Record head_ok (p : policy_head) (info : compat_info) (ms : symbol_maps) : Prop := {
  ok_supported : unsupported_format p = false;
  ok_mls : mls p = 0 \/ old_for_mls (format p) = false;
  ok_compat : policydb_lookup_compat (policyvers (format p)) (policy_type (format p)) (platform p) = Some info;
  ok_name : policy_type (format p) = POLICY_MOD -> named (mod_name p) /\ named (mod_version p);
  ok_policycaps : Ebitmap.wf (policycaps p);
  ok_permissive : Ebitmap.wf (permissive_types p);
  ok_symbols : symbols_ok (format p) (sym_num info) (symbol_tables p) ms
}.

(** The head that is read, with the tables [s]. *)
Definition stored_head (p : policy_head) (s : symbols) : policy_head :=
  let f := format p in
  let module := policy_type f =? POLICY_MOD in
  PolicyHead f (platform p) false (if mls p =? 0 then 0 else 1)
    (Z.land POLICYDB_CONFIG_UNKNOWN_MASK (handle_unknown p))
    (if module then mod_name p else []) (if module then mod_version p else [])
    (if has_policycaps f then policycaps p else ebitmap_init)
    (if has_permissive_map f then permissive_types p else ebitmap_init) s.

Lemma codec_head p info ms p0 : policydb_init = Some (0, p0) -> head_ok p info ms ->
  exists s', codec (policydb_write_head p) (policydb_read_head p0) (stored_head p s') /\
    symbols_saved (format p) (sym_num info) (symbol_tables p0) (symbol_tables p) s' ms.
Proof.
  intros Hp0 Hok. destruct (codec_symbols _ _ _ _ p0 Hp0 (ok_symbols _ _ _ Hok)) as (s' & Hs & Hsv).
  exists s'. split; [|exact Hsv]. clear Hsv. pose proof (ok_compat _ _ _ Hok) as Hl.
  destruct init_holds as (p1 & E1 & E2 & _). rewrite Hp0 in E1. injection E1 as <-. rewrite Hp0 in E2. injection E2 as Ep.
  assert (platform p0 = 0) as Hpl by by rewrite Ep.
  unfold policydb_write_head, policydb_read_head. rewrite (ok_supported _ _ _ Hok).
  replace (negb (mls p =? 0) && old_for_mls (format p)) with false
    by (destruct (ok_mls _ _ _ Hok) as [-> | ->]; [done|by rewrite andb_false_r]).
  cbn iota. apply codec_assoc. eapply codec_bind; [by apply (codec_magic p p0 info)|]. rewrite Hl.
  eapply codec_bind; [by apply codec_version|]. cbn iota. rewrite Hl.
  cbn [buf lookup list_lookup default]. unfold id. rewrite !Z.eqb_refl. apply codec_ensure; [done|].
  destruct (config_spec p) as (_ & -> & ->).
  eapply codec_bind.
  { apply codec_when. intros Hm%Z.eqb_eq. destruct (ok_name _ _ _ Hok Hm) as [Hn Hv].
    eapply codec_bind; [by apply codec_name|]. eapply codec_last; [by apply codec_name|]. apply decodes_ret. }
  assert (mod_name p0 = [] /\ mod_version p0 = [] /\ policycaps p0 = ebitmap_init /\ permissive_types p0 = ebitmap_init /\
    unsupported_format p0 = false) as (E3 & E4 & E5 & E6 & E7) by (by rewrite Ep).
  rewrite E3, E4, E5, E6, E7.
  unfold stored_head. destruct (policy_type (format p) =? POLICY_MOD);
    (eapply codec_bind; [apply codec_when; intros _; apply codec_bitmap, Hok|]);
    (eapply codec_bind; [apply codec_when; intros _; apply codec_bitmap, Hok|]);
    (eapply codec_last; [exact Hs|]); by destruct (mls p =? 0).
Qed.

End Heads.

(** C22. A policy file as far as its rules: of a policy for the kernel or a
    module, of any version and platform of the table, whose names, numbers and
    bitmaps are in range and whose constraints are well formed, [policydb_write]
    makes one image, or reports an error if there is no room for it (and counts
    its length if that is what is asked); and from that image, whatever
    follows, a database just initialised reads the same header and tables
    with the same number of values, in which every name that was written stands for
    what its version keeps of the symbol: attributes are left out of the kinds
    of policy that have none, and [object_r] stays as it was. *)
Theorem policy_head_roundtrip `{CharSign} (p : policy_head) (info : compat_info) (ms : symbol_maps) :
  head_ok name_ok p info ms ->
  exists p0 img s', policydb_init = Some (0, p0) /\
    writes (policydb_write_head p) img /\
    decodes (policydb_read_head p0) img (stored_head p s') /\
    symbols_saved (format p) (sym_num info) (symbol_tables p0) (symbol_tables p) s' ms.
Proof.
  intros Hok. destruct init_holds as (p0 & E & _). destruct (codec_head name_ok (fun _ => id) p info ms p0 E Hok) as (s' & (img & Hw & Hd) & Hs).
  by exists p0, img, s'.
Qed.

(** ** A policy *)

#[local] Instance signed_char : CharSign := true.

Definition sample_perms (l : list (bytes * perm_datum)) : symtab perm_datum := Symtab (table_of PERM_SYMTAB_SIZE l) (blen l).

Definition sample_common : common_datum := CommonDatum 1 (sample_perms [(str "read", 1)]).

(** [u1 == u2 and r1 dom r2] *)
Definition sample_constraint : constraint_node :=
  ConstraintNode 3 [ConstraintExpr CEXPR_ATTR 1 1 ebitmap_init type_set_init;
                    ConstraintExpr CEXPR_ATTR 2 3 ebitmap_init type_set_init;
                    ConstraintExpr CEXPR_AND 0 0 ebitmap_init type_set_init].

Definition sample_class : class_datum :=
  ClassDatum 1 (Some (str "file")) (Some sample_common) (sample_perms [(str "search", 2)]) [sample_constraint] [] 0 0 0 0.

Definition one_bit : ebitmap := Ebitmap [Node 0 1] 64.

Definition sample_role : role_datum := RoleDatum 2 one_bit (TypeSet one_bit ebitmap_init 0) 0 0 ebitmap_init.
Definition sample_attribute : type_datum := TypeDatum 2 1 TYPE_ATTRIB one_bit 0 0.
Definition sample_type : type_datum := TypeDatum 1 1 TYPE_TYPE ebitmap_init 0 0.
Definition sample_level : mls_level := MlsLevel 1 one_bit.
Definition sample_user : user_datum :=
  UserDatum 1 (RoleSet one_bit 0) mls_semantic_range_init mls_semantic_level_init (MlsRange sample_level sample_level)
    sample_level 0.

Definition l_commons := [(str "file", sample_common)].
Definition l_classes := [(str "dir", sample_class)].
Definition l_roles := [(OBJECT_R, object_r); (str "staff", sample_role)].
Definition l_types := [(str "shell", sample_type); (str "domain", sample_attribute)].
Definition l_users := [(str "u", sample_user)].
Definition l_bools := [(str "secure", BoolDatum 1 1 0)].
Definition l_levels := [(str "s0", LevelDatum sample_level 0)].
Definition l_cats := [(str "c0", CatDatum 1 0)].

Definition sample_symbols : symbols :=
  Symbols (Symtab (table_of 2 l_commons) 1) (Symtab (table_of 32 l_classes) 1) (Symtab (table_of 16 l_roles) 2)
    (Symtab (table_of 512 l_types) 2) (Symtab (table_of 128 l_users) 1) (Symtab (table_of 16 l_bools) 1)
    (Symtab (table_of 16 l_levels) 1) (Symtab (table_of 16 l_cats) 1).

(** A policy for a kernel that knows permissive types, and no attributes. *)
Definition sample_head : policy_head :=
  PolicyHead (PolicyFormat POLICY_KERN 23) SEPOL_TARGET_SELINUX false 1 2 [] [] one_bit one_bit sample_symbols.

Definition sample_info : compat_info :=
  CompatInfo POLICY_KERN POLICYDB_VERSION_PERMISSIVE SYM_NUM (OCON_NODE6 + 1) SEPOL_TARGET_SELINUX.

Definition sample_maps : symbol_maps :=
  SymbolMaps (list_to_map l_commons) (list_to_map l_classes) (list_to_map l_roles) (list_to_map l_types)
    (list_to_map l_users) (list_to_map l_bools) (list_to_map l_levels) (list_to_map l_cats).

Lemma kind_build {D} sym n (omit : D -> bool) ok sz (l : list (bytes * D)) np :
  0 < sz < 2 ^ 31 -> NoDup l.*1 -> Z.of_nat (length l) < 2 ^ 32 - 1 -> is_u32 np -> np <> 0 ->
  Forall (fun x => ok x.1 x.2) l -> kind_ok sym n omit ok (Symtab (table_of sz l) np) (list_to_map l).
Proof.
  intros Hsz Hnd Hl Hu Hnp Hok. split; [exists sz; apply table_of_counted; [done..|lia]|]. intros _.
  split; [exact Hu|]. split; [by rewrite map_size_list_to_map|].
  intros k d E%elem_of_list_to_map_2 _. rewrite Forall_forall in Hok. split; [exact (Hok _ E)|exact Hnp].
Qed.

Lemma one_bit_wf : Ebitmap.wf one_bit.
Proof. split; [|done]. split; [done|]. split; [|done]. split; [done|]. done. Qed.

Lemma sample_name (s : bytes) : (0 <? blen s) && (blen s <? 2 ^ 32 - 1) && forallb (fun c => negb (c =? 0)) s = true -> name_ok s.
Proof.
  intros H. apply andb_true_iff in H as [H Hn]. split; [lia|]. intros H0. rewrite forallb_forall in Hn. by apply Hn in H0.
Qed.

Lemma sample_perms_ok (l : list (bytes * perm_datum)) : NoDup l.*1 -> Z.of_nat (length l) < 2 ^ 32 - 1 ->
  Forall (fun x => name_ok x.1 /\ is_u32 x.2) l -> perms_ok name_ok (sample_perms l).
Proof.
  intros Hnd Hl Hok. split; [|change (is_u32 (blen l)); unfold is_u32, blen; lia]. exists (list_to_map l).
  split; [apply table_of_counted; [done|done|lia]|]. split; [by rewrite map_size_list_to_map|].
  intros k d E%elem_of_list_to_map_2. rewrite Forall_forall in Hok. exact (Hok _ E).
Qed.

Lemma sample_ok : head_ok name_ok sample_head sample_info sample_maps.
Proof.
  pose proof one_bit_wf as Hb. pose proof init_wf as Hi. pose proof zero_char as Hz.
  assert (common_ok name_ok (str "file") sample_common) as Hc.
  { split; [by apply sample_name|]. split; [done|].
    apply sample_perms_ok; [apply NoDup_singleton|done|apply Forall_singleton; split; [by apply sample_name|done]]. }
  assert (level_ok sample_level) as Hl by done.
  split; [done|by right|reflexivity|done|done|done|].
  split.
  - apply kind_build; [done|apply NoDup_singleton|done..|by apply Forall_singleton].
  - apply kind_build; [done|apply NoDup_singleton|done..|apply Forall_singleton]. split; [by apply sample_name|]. split; [done|].
    split; [apply sample_perms_ok; [apply NoDup_singleton|done|apply Forall_singleton; split; [by apply sample_name|done]]|].
    split; [split; [by apply sample_name|by vm_compute]|].
    split; [split; [done|]|split; [split; [done|apply Forall_nil_2]|done]].
    apply Forall_singleton. split; [done|]. split; [done|]. split; [|reflexivity].
    by repeat apply Forall_cons_2; [..|apply Forall_nil_2].
  - apply kind_build; [done|apply (bool_decide_eq_true_1 _); by vm_compute|done..|].
    repeat apply Forall_cons_2; [..|apply Forall_nil_2].
    + by repeat split; try apply sample_name.
    + by repeat split; try apply sample_name.
  - apply kind_build; [done|apply (bool_decide_eq_true_1 _); by vm_compute|done..|].
    repeat apply Forall_cons_2; [..|apply Forall_nil_2]; by repeat split; try apply sample_name.
  - apply kind_build; [done|apply NoDup_singleton|done..|apply Forall_singleton]. 
    by repeat split; try apply sample_name.
  - apply kind_build; [done|apply NoDup_singleton|done..|apply Forall_singleton].
    split; [by apply sample_name|]. split; [done|]. split; [by right|done].
  - apply kind_build; [done|apply NoDup_singleton|done..|apply Forall_singleton].
    split; [by apply sample_name|]. done.
  - apply kind_build; [done|apply NoDup_singleton|done..|apply Forall_singleton].
    split; [by apply sample_name|]. done.
  - done.
Qed.

Lemma policy_head_roundtrip_witness :
  exists p0 img s', policydb_init = Some (0, p0) /\
    writes (policydb_write_head sample_head) img /\
    decodes (policydb_read_head p0) img (stored_head sample_head s') /\
    symbols_saved (PolicyFormat POLICY_KERN 23) SYM_NUM (symbol_tables p0) sample_symbols s' sample_maps.
Proof. exact (policy_head_roundtrip sample_head sample_info sample_maps sample_ok). Defined.
