(* ===== verification/Policyread.v ===== *)
(** What a policy file gives, whatever its bytes: the tables that are read are in
    order, and hold what the writer asks of them. *)
From S2P Require Import Prelude PolicyFile Ebitmap Hashtab Avtab Policydb Policyrw Policysyms Policymeaning Policyimage.

(** ** Readers on any file *)

(** On success the reader has taken [k] bytes or more, and its result is in [P]. *)
Definition reads {A} (r : reader A) (k : Z) (P : A -> Prop) : Prop :=
  forall fp a rest, Forall is_byte fp -> blen fp < 2 ^ 32 - 1 -> r fp = Some (a, rest) ->
    P a /\ Forall is_byte rest /\ blen rest + k <= blen fp.

Lemma reads_ret {A} (a : A) (P : A -> Prop) : P a -> reads (mret a) 0 P.
Proof. intros Hp fp b rest Hb Hl [-> ->]%ret_reads. split; [done|]. split; [done|lia]. Qed.

Lemma reads_weaken {A} (r : reader A) k k' (P Q : A -> Prop) :
  reads r k P -> k' <= k -> (forall a, P a -> Q a) -> reads r k' Q.
Proof. intros Hr Hk Hq fp a rest Hb Hl E. destruct (Hr fp a rest Hb Hl E) as (? & ? & ?). split; [auto|]. split; [done|lia]. Qed.

(** The first piece counts. *)
Lemma reads_bind {A B} (r : reader A) (f : A -> reader B) k (P : A -> Prop) (Q : B -> Prop) :
  reads r k P -> 0 <= k -> (forall a, P a -> reads (f a) 0 Q) -> reads (r ≫= f) k Q.
Proof.
  intros Hr Hk Hf fp b rest Hb Hl (a & fp' & E1 & E2)%bind_reads.
  destruct (Hr fp a fp' Hb Hl E1) as (Ha & Hb' & Hl').
  destruct (Hf a Ha fp' b rest Hb' ltac:(lia) E2) as (? & ? & ?). split; [done|]. split; [done|lia].
Qed.

Lemma reads_ensure {B} (b : bool) (f : unit -> reader B) k (Q : B -> Prop) :
  (b = true -> reads (f tt) k Q) -> reads (ensure b ≫= f) k Q.
Proof. intros Hf fp x rest Hb Hl [E1 E2]%ensure_reads. by apply (Hf E1 fp). Qed.

Lemma reads_failure {A} k (P : A -> Prop) : reads failure k P.
Proof. done. Qed.

Lemma take4_u32 (b : bytes) : Forall is_byte b -> is_u32 (le_val (take 4 b)).
Proof. intros Hb. pose proof (le_val_take_range 4 b Hb) as Hr. unfold is_u32. exact Hr. Qed.

Lemma le_array_u32 n (b : bytes) : Forall is_byte b -> Forall is_u32 (le_array 4 n b).
Proof.
  revert b. induction n as [|n IH]; intros b Hb; [done|]. cbn [le_array]. apply Forall_cons_2; [by apply take4_u32|].
  apply IH. by apply Forall_drop.
Qed.

Lemma reads_words n : 0 <= n -> reads (words n) (4 * n) (fun ws => Forall is_u32 ws).
Proof.
  intros Hn fp a rest Hb Hl E. unfold words in E. destruct (next_entry fp (4 * n)) as [[b fp']|] eqn:En; [|done].
  cbn [mbind option_bind] in E. injection E as <- <-. apply next_entry_Some in En as [-> Hbl]; [|lia].
  apply Forall_app in Hb as [Hb1 Hb2]. rewrite blen_app. split; [by apply le_array_u32|]. split; [done|lia].
Qed.

Lemma buf_u32 ws i : Forall is_u32 ws -> is_u32 (buf ws i).
Proof.
  intros Hw. unfold buf. destruct (ws !! i) as [w|] eqn:E; [|done]. cbn. rewrite Forall_lookup in Hw. by apply (Hw i).
Qed.

(** A name that was read. *)
Definition readable_name (s : bytes) : Prop := blen s < 2 ^ 32 - 1 /\ ~ In 0 s.

Lemma before_nul_ok s : ~ In 0 (before_nul s) /\ blen (before_nul s) <= blen s.
Proof.
  induction s as [|c s [IH1 IH2]]; [split; [by intros []|done]|]. cbn [before_nul]. pose proof (blen_nonneg s).
  destruct (Z.eqb_spec c 0); [split; [by intros []|rewrite blen_cons; change (blen []) with 0; lia]|].
  split; [intros [?|?]; done|]. rewrite !blen_cons. lia.
Qed.

Lemma reads_string n : 0 <= n -> reads (string_of n) n readable_name.
Proof.
  intros Hn fp a rest Hb Hl E. unfold string_of in E. destruct (next_entry fp n) as [[b fp']|] eqn:En; [|done].
  cbn [mbind option_bind] in E. injection E as <- <-. apply next_entry_Some in En as [-> Hbl]; [|lia].
  apply Forall_app in Hb as [Hb1 Hb2]. rewrite blen_app in *. destruct (before_nul_ok b) as [H1 H2].
  pose proof (blen_nonneg fp'). split; [split; [lia|done]|]. split; [done|lia].
Qed.

Lemma next_le_suffix fp n v rest : next_le fp n = Some (v, rest) -> 0 <= n -> exists b, fp = b ++ rest.
Proof.
  unfold next_le. intros E Hn. destruct (next_entry fp n) as [[b fp']|] eqn:En; [|done]. cbn in E. injection E as _ <-.
  apply next_entry_Some in En as [-> _]; [|done]. by eexists.
Qed.

Lemma read_loop_suffix count hb prev fp ns l rest :
  read_loop count hb prev fp = inr (ns, l, rest) -> exists b, fp = b ++ rest.
Proof.
  revert prev fp ns l rest. induction count as [|count IH]; intros prev fp ns l rest E; cbn [read_loop] in E.
  { simplify_eq. by exists []. }
  destruct (next_le fp 4) as [[sb fp1]|] eqn:E1; [|done]. apply next_le_suffix in E1 as [b1 ->]; [|lia].
  case_match; [done|]. case_match; [done|]. destruct (next_le fp1 8) as [[map fp2]|] eqn:E2; [|done].
  apply next_le_suffix in E2 as [b2 ->]; [|lia]. case_match; [done|]. case_match; [done|].
  destruct (read_loop count hb _ fp2) as [|[[ns' l'] k]] eqn:E3; [done|]. simplify_eq.
  apply IH in E3 as [b3 ->]. exists (b1 ++ b2 ++ b3). by rewrite <- !app_assoc.
Qed.

Lemma read_suffix fp e rest : ebitmap_read fp = inr (e, rest) -> exists b, fp = b ++ rest.
Proof.
  intros E. unfold ebitmap_read in E. destruct (next_entry fp 12) as [[b fp1]|] eqn:E1; [|done].
  apply next_entry_Some in E1 as [-> _]; [|lia]. repeat (case_match; try done); simplify_eq.
  - by exists b.
  - match goal with H : read_loop _ _ _ _ = inr _ |- _ => apply read_loop_suffix in H as [b' ->] end.
    exists (b ++ b'). by rewrite <- app_assoc.
  - match goal with H : read_loop _ _ _ _ = inr _ |- _ => apply read_loop_suffix in H as [b' ->] end.
    exists (b ++ b'). by rewrite <- app_assoc.
Qed.

Lemma reads_bitmap : reads bitmap 0 Ebitmap.wf.
Proof.
  intros fp e rest Hb Hl E. unfold bitmap in E. destruct (ebitmap_read fp) as [|[e' fp']] eqn:Er; [done|].
  injection E as <- <-. split; [by eapply read_wf|]. apply read_suffix in Er as [b ->].
  apply Forall_app in Hb as [_ Hb]. rewrite blen_app. pose proof (blen_nonneg b). split; [done|lia].
Qed.

(** Rounds that take [k] bytes each keep an invariant, and are not many. *)
Lemma reads_times {A} (r : A -> reader A) (P : nat -> A -> Prop) k n a :
  0 <= k -> (forall i a, (i < n)%nat -> Z.of_nat i * k < 2 ^ 32 - 1 -> P i a -> reads (r a) k (P (S i))) -> P 0%nat a ->
  reads (times n r a) 0 (fun b => P n b /\ Z.of_nat n * k < 2 ^ 32 - 1).
Proof.
  intros Hk Hr Ha.
  assert (forall m i a fp b rest, (i + m = n)%nat -> P i a -> Forall is_byte fp -> Z.of_nat i * k + blen fp < 2 ^ 32 - 1 ->
    times m r a fp = Some (b, rest) -> P n b /\ Forall is_byte rest /\ blen rest + Z.of_nat m * k <= blen fp) as Hm.
  { intros m. induction m as [|m IH]; intros i a0 fp b rest Hi Hp Hb Hl E; cbn [times] in E.
    { apply ret_reads in E as [-> ->]. rewrite Nat.add_0_r in Hi. subst i. split; [done|]. split; [done|lia]. }
    apply bind_reads in E as (a1 & fp1 & E1 & E2). pose proof (blen_nonneg fp).
    assert (0 <= Z.of_nat i * k) by nia.
    destruct (Hr i a0 ltac:(lia) ltac:(lia) Hp fp a1 fp1 Hb ltac:(lia) E1) as (Hp1 & Hb1 & Hl1).
    destruct (IH (S i) a1 fp1 b rest ltac:(lia) Hp1 Hb1 ltac:(nia) E2) as (? & ? & ?). split; [done|]. split; [done|nia]. }
  intros fp b rest Hb Hl E. destruct (Hm n 0%nat a fp b rest eq_refl Ha Hb ltac:(lia) E) as (Hp & Hb' & Hl').
  pose proof (blen_nonneg rest). split; [split; [done|lia]|]. split; [done|nia].
Qed.

Lemma reads_option {A} (o : option A) : reads (of_option o) 0 (fun a => o = Some a).
Proof. destruct o; [by apply reads_ret|apply reads_failure]. Qed.

(** ** The parts *)

Lemma reads_key w n : is_u32 n -> reads (read_key w n) 0 readable_name.
Proof.
  intros Hn. apply reads_ensure. intros _. eapply reads_weaken; [apply reads_string|..]; try done; unfold is_u32 in Hn; lia.
Qed.

(** The pieces one after the other. *)
Ltac words_piece := eapply reads_bind; [apply reads_words; try lia|lia|intros ws Hws; cbn beta].
Ltac piece lem := eapply reads_bind; [apply lem|lia|cbn beta].

Lemma reads_type_set : reads type_set_read 0 type_set_ok.
Proof.
  piece reads_bitmap. intros t Ht. piece reads_bitmap. intros n Hn.
  eapply reads_weaken; [words_piece; apply reads_ret|lia|intros a Ha; exact Ha].
  split; [done|]. split; [done|]. by apply buf_u32.
Qed.

Lemma reads_role_set : reads role_set_read 0 role_set_ok.
Proof.
  piece reads_bitmap. intros t Ht. eapply reads_weaken; [words_piece; apply reads_ret|lia|intros a Ha; exact Ha].
  split; [done|]. by apply buf_u32.
Qed.

Lemma reads_level : reads mls_read_level 0 level_ok.
Proof.
  eapply reads_weaken; [words_piece|lia|intros a Ha; exact Ha]. piece reads_bitmap. intros c Hc. apply reads_ret.
  split; [by apply buf_u32|done].
Qed.

Lemma reads_range : reads mls_read_range_helper 0 range_ok.
Proof.
  eapply reads_weaken; [words_piece|lia|intros a Ha; exact Ha]. apply reads_ensure. intros _.
  pose proof (buf_u32 ws 0 Hws) as Hi. eapply reads_bind with (k := 0).
  { eapply reads_weaken; [apply reads_words; unfold is_u32 in Hi; lia|unfold is_u32 in Hi; lia|intros a Ha; exact Ha]. }
  { lia. }
  intros b Hb. cbn beta. piece reads_bitmap. intros c0 H0.
  eapply reads_bind with (P := Ebitmap.wf); [destruct (1 <? buf ws 0); [apply reads_bitmap|by apply reads_ret]|lia|].
  intros c1 H1. apply reads_ret. pose proof (buf_u32 b 0 Hb). pose proof (buf_u32 b 1 Hb).
  split; (split; [|done]); cbn [r_low r_high l_sens]; repeat case_match; done.
Qed.

Lemma reads_semantic : reads mls_read_semantic_level_helper 0 semantic_ok.
Proof.
  eapply reads_weaken; [words_piece|lia|intros a Ha; exact Ha]. pose proof (buf_u32 ws 1 Hws) as Hn.
  eapply reads_bind.
  { apply (reads_times _ (fun i cats => length cats = i /\ Forall (fun c : Z * Z => is_u32 c.1 /\ is_u32 c.2) cats) 8); [lia|..|done].
    intros i cats _ _ [Hi Hc]. apply (reads_bind _ _ 8 (fun ws => Forall is_u32 ws)); [by apply reads_words|lia|]. intros ws1 Hw1.
    apply reads_ret. split; [cbn; lia|]. apply Forall_cons_2; [|done]. split; by apply buf_u32. }
  { lia. }
  cbn beta. intros cats [[Hl Hc] _]. apply reads_ret. split; [by apply buf_u32|]. split; [|done].
  cbn [s_cat]. unfold blen. rewrite Hl. unfold is_u32 in Hn. lia.
Qed.

(** ** Tables *)

Section Tables.
Context `{CharSign}.
Abbreviation tab D := (option (hashtab bytes D)).

Lemma reads_insert {D} (h : tab D) sz m k d : counted h sz m -> Z.of_nat (base.size m) + 1 < 2 ^ 32 ->
  reads (insert_entry h k d) 0 (fun h' => m !! k = None /\ counted h' sz (<[k := d]> m)).
Proof.
  intros Hc Hs fp h' rest Hb Hl E. destruct (m !! k) as [d'|] eqn:Ek.
  - exfalso. destruct Hc as (t & -> & Hw & <- & _). unfold insert_entry in E.
    destruct (table_call_ok t (Insert k d) Hw) as (t' & Et & _). cbn [table_call spec_call fst] in Et. rewrite Ek in Et.
    destruct (hashtab_insert (Some t) k d) as [rc h1]. cbn [fst] in Et. injection Et as -> _. done.
  - destruct (counted_insert h sz m k d Hc Ek Hs) as [Hr Hc']. unfold insert_entry in E.
    destruct (hashtab_insert h k d) as [rc h1]. cbn [fst snd] in *. subst rc. cbn in E.
    injection E as <- <-. split; [done|]. split; [done|lia].
Qed.

(** A reader of symbols adds an entry that is [ok], or none. *)
Definition symbol_reads {D} (ok : bytes -> D -> Prop) (r : tab D -> reader (tab D)) : Prop :=
  forall h sz m, counted h sz m -> Z.of_nat (base.size m) + 1 < 2 ^ 32 ->
    reads (r h) 8 (fun h' => exists m', counted h' sz m' /\ (base.size m' <= base.size m + 1)%nat /\
      forall k d, m' !! k = Some d -> m !! k = Some d \/ ok k d).

Lemma reads_added {D} (ok : bytes -> D -> Prop) (h : tab D) sz m k d :
  counted h sz m -> Z.of_nat (base.size m) + 1 < 2 ^ 32 -> ok k d ->
  reads (insert_entry h k d) 0 (fun h' => exists m', counted h' sz m' /\ (base.size m' <= base.size m + 1)%nat /\
    forall k d, m' !! k = Some d -> m !! k = Some d \/ ok k d).
Proof.
  intros Hc Hs Hok. eapply reads_weaken; [by eapply reads_insert|done|]. intros h' [Hk Hc']. cbn beta.
  exists (<[k := d]> m). split; [done|]. split; [rewrite map_size_insert_None by done; lia|].
  intros k' d' [[<- <-]|[_ ?]]%lookup_insert_Some; [by right|by left].
Qed.

(** Entries read one after the other. *)
Lemma reads_entries {D} (ok : bytes -> D -> Prop) r n (h : tab D) sz m : symbol_reads ok r -> counted h sz m ->
  (base.size m <= 1)%nat ->
  reads (times n r h) 0 (fun h' => exists m', counted h' sz m' /\ Z.of_nat (base.size m') < 2 ^ 32 - 1 /\
    forall k d, m' !! k = Some d -> m !! k = Some d \/ ok k d /\ (0 < n)%nat).
Proof.
  intros Hr Hc Hm. eapply reads_weaken.
  - apply (reads_times r (fun i h' => exists m', counted h' sz m' /\ (base.size m' <= base.size m + i)%nat /\
      forall k d, m' !! k = Some d -> m !! k = Some d \/ ok k d /\ (0 < i)%nat) 8); [lia|..].
    + intros i h1 Hi Hi8 (m1 & Hc1 & Hs1 & Hk1). eapply reads_weaken; [apply (Hr h1 sz m1 Hc1); lia|lia|].
      intros h2 (m2 & Hc2 & Hs2 & Hk2). cbn beta. exists m2. split; [done|]. split; [lia|].
      intros k d [?|?]%Hk2; [|right; split; [done|lia]]. destruct (Hk1 k d) as [?|[? _]]; [done|by left|right; split; [done|lia]].
    + exists m. split; [done|]. split; [lia|by left].
  - done.
  - intros h' [(m' & Hc' & Hs' & Hk') Hn]. cbn beta. exists m'. split; [done|]. split; [lia|done].
Qed.

Lemma reads_table {D} (ok : bytes -> D -> Prop) r n sz : symbol_reads ok r -> 0 < sz < 2 ^ 31 ->
  reads (times n r (hashtab_create sz)) 0 (fun h => table_ok ok h sz).
Proof.
  intros Hr Hsz. eapply reads_weaken; [apply (reads_entries ok r n _ sz ∅ Hr)|done|].
  - by apply counted_create.
  - rewrite map_size_empty. lia.
  - intros h (m & Hc & Hs & Hk). exists m. split; [done|]. split; [done|].
    intros k d [E|[? _]]%Hk; [by rewrite lookup_empty in E|done].
Qed.

(** ** Symbols *)

Lemma perm_reads : symbol_reads (perm_ok readable_name) perm_read.
Proof.
  intros h sz m Hc Hs. apply (reads_bind _ _ 8 (fun ws => Forall is_u32 ws)); [by apply reads_words|lia|]. intros ws Hws.
  piece reads_key; [by apply buf_u32|]. intros key Hk. apply reads_added; [done..|]. split; [done|by apply buf_u32].
Qed.

Lemma reads_perms n : is_u32 n -> forall v, is_u32 v ->
  reads (times (Z.to_nat n) perm_read (hashtab_create PERM_SYMTAB_SIZE)) 0
    (fun t => perms_ok readable_name (Symtab t v)).
Proof.
  intros Hn v Hv. eapply reads_weaken; [by apply (reads_table _ _ _ _ perm_reads)|done|]. intros t Ht. by split.
Qed.

(** The words before a symbol, [k] bytes of them and more. *)
Lemma reads_start {B} n (f : list Z -> reader B) (Q : B -> Prop) : 2 <= n ->
  (forall ws, Forall is_u32 ws -> reads (f ws) 0 Q) -> reads (words n ≫= f) 8 Q.
Proof.
  intros Hn Hf. eapply reads_weaken; [eapply reads_bind; [apply reads_words; lia|lia|exact Hf]|lia|done].
Qed.

(** Words on the way. *)
Lemma reads_some n : 0 <= n -> reads (words n) 0 (fun ws => Forall is_u32 ws).
Proof. intros Hn. eapply reads_weaken; [by apply reads_words|lia|done]. Qed.

Lemma common_reads : symbol_reads (common_ok readable_name) common_read.
Proof.
  intros h sz m Hc Hs. apply reads_start; [lia|]. intros ws Hws.
  piece reads_key; [by apply buf_u32|]. intros key Hk.
  eapply reads_bind; [apply reads_perms; apply buf_u32; exact Hws|lia|]. intros t Ht.
  apply reads_added; [done..|]. split; [done|]. split; [by apply buf_u32|exact Ht].
Qed.

(** *** Constraints *)

Lemma init_sets : Ebitmap.wf ebitmap_init /\ type_set_ok type_set_init /\ role_set_ok role_set_init /\
  level_ok mls_level_init /\ range_ok mls_range_init.
Proof. pose proof init_wf. repeat split; done. Qed.

Lemma reads_expr_fields p x depth es :
  reads (read_expr p x (depth, es)) 0 (fun st => exists e, snd st = es ++ [e] /\ expr_ok e).
Proof.
  destruct init_sets as (Hi & Hti & _). unfold read_expr. eapply reads_weaken; [words_piece|lia|intros a Ha; exact Ha].
  pose proof (fun i => buf_u32 ws i Hws) as Hu.
  assert (forall names ts, Ebitmap.wf names -> type_set_ok ts ->
    expr_ok (ConstraintExpr (buf ws 0) (buf ws 1) (buf ws 2) names ts)) as He.
  { intros names ts Hn Ht. do 3 (split; [apply Hu|]). by split. }
  repeat case_match; try apply reads_failure;
    try (apply reads_ensure; intros _; apply reads_ret; eexists; split; [reflexivity|by apply He]);
    (apply reads_ensure; intros _; apply reads_ensure; intros _; piece reads_bitmap; intros names Hn;
     eapply reads_bind; [first [apply reads_type_set|by apply (reads_ret type_set_init type_set_ok)]|lia|];
     intros ts Ht; apply reads_ret; eexists; split; [reflexivity|by apply He]).
Qed.

Lemma reads_expr p x depth es :
  reads (read_expr p x (depth, es)) 0
    (fun st => exists e, snd st = es ++ [e] /\ expr_ok e /\ expr_depth x e depth = Some (fst st)).
Proof.
  intros fp [d es'] rest Hb Hl E. destruct (reads_expr_fields p x depth es fp _ rest Hb Hl E) as ((e & He & Hok) & Hr).
  split; [|exact Hr]. apply read_expr_reads in E as (e' & E & Hd). cbn [fst snd] in *. rewrite He in E.
  apply app_inv_head in E. injection E as <-. by exists e.
Qed.

Lemma reads_constraint p x l :
  reads (read_constraint p x l) 0 (fun l' => exists c, l' = l ++ [c] /\ constraint_ok x c).
Proof.
  eapply reads_weaken; [words_piece|lia|intros a Ha; exact Ha]. pose proof (buf_u32 ws 1 Hws) as Hn.
  eapply reads_bind.
  { apply (reads_times (read_expr p x) (fun i st => length (snd st) = i /\ Forall expr_ok (snd st) /\
      exprs_depth x (snd st) (-1) = Some (fst st)) 0); [lia|..|done].
    intros i [depth es] _ _ (Hl & He & Hd). cbn [fst snd] in *.
    eapply reads_weaken; [apply reads_expr|done|]. intros [d2 es2] (e & E & He1 & Hd2). cbn [fst snd] in *. subst es2.
    rewrite length_app, Forall_app, Forall_singleton, exprs_depth_snoc, Hd. cbn. split; [lia|done]. }
  { lia. }
  cbn beta. intros [d es] [(Hl & He & Hd) _]. cbn [fst snd] in *. apply reads_ensure. intros ->%Z.eqb_eq. apply reads_ret.
  eexists. split; [reflexivity|]. split; [by apply buf_u32|]. cbn [c_expr]. split; [|done].
  unfold blen. rewrite Hl. unfold is_u32 in Hn. lia.
Qed.

Lemma reads_cons p n x : is_u32 n ->
  reads (read_cons_helper p n x) 0 (fun l => blen l < 2 ^ 32 /\ Forall (constraint_ok x) l).
Proof.
  intros Hn. eapply reads_weaken.
  - apply (reads_times _ (fun i l => length l = i /\ Forall (constraint_ok x) l) 0); [lia|..|done].
    intros i l _ _ [Hl Hc]. eapply reads_weaken; [apply reads_constraint|done|]. intros l' (c & -> & Hc'). cbn beta.
    rewrite length_app, Forall_app, Forall_singleton. cbn. split; [lia|done].
  - done.
  - intros l [[Hl Hc] _]. cbn beta. split; [|done]. unfold blen. rewrite Hl. unfold is_u32 in Hn. lia.
Qed.

(** *** Classes, roles and types *)

Lemma to_char_ok x : char_ok (to_char x).
Proof.
  unfold char_ok, to_char, char_value. set (c := u8 x).
  assert (0 <= c < 256) by (apply Z.mod_pos_bound; lia).
  assert (u8 (u32 (if char_signed && (127 <? c) then c - 256 else c)) = c) as ->; [|done].
  unfold u8, u32. rewrite Z.mod_mod_divide by (by exists (2 ^ 24)).
  destruct (char_signed && (127 <? c)); [|apply Z.mod_small; lia].
  symmetry. apply (Z.mod_unique _ _ (-1)); lia.
Qed.

Lemma reads_common_name commons n : is_u32 n ->
  reads (read_common_name commons n) 0 (fun c =>
    match fst c with
    | Some k => readable_name k /\ snd c <> None /\ hashtab_search commons k = snd c
    | None => snd c = None
    end).
Proof.
  intros Hn. unfold read_common_name. destruct (negb (n =? 0)); [|by apply reads_ret].
  eapply reads_bind with (k := 0) (P := readable_name).
  { unfold is_u32 in Hn. eapply reads_weaken; [apply reads_string; lia|lia|done]. }
  { lia. }
  intros k Hk. destruct (hashtab_search commons k) eqn:E; [|apply reads_failure]. apply reads_ret. cbn [fst snd]. by rewrite E.
Qed.

Lemma class_reads p commons : symbol_reads (class_ok readable_name commons) (class_read p commons).
Proof.
  intros h sz m Hc Hs. apply reads_start; [lia|]. intros ws Hws. pose proof (fun i => buf_u32 ws i Hws) as Hu.
  piece reads_key; [apply Hu|]. intros key Hk.
  piece reads_common_name; [apply Hu|]. intros com Hcom.
  eapply reads_bind; [apply reads_perms; apply Hu|lia|]. intros t Ht.
  piece reads_cons; [apply Hu|]. intros cons Hcons.
  eapply reads_bind with (P := fun l => blen l < 2 ^ 32 /\ Forall (constraint_ok true) l).
  { destruct (has_validatetrans p); [|by apply reads_ret]. piece reads_some; [done|]. intros ws1 Hw1.
    apply reads_cons. by apply buf_u32. }
  { lia. }
  intros vt Hvt. eapply reads_bind with (P := fun _ => True).
  { destruct (has_object_defaults p); [|by apply reads_ret]. eapply reads_weaken; [by apply reads_some|done|done]. }
  { lia. }
  intros ds _. eapply reads_bind with (P := fun _ => True).
  { destruct (has_default_type p); [|by apply reads_ret]. eapply reads_weaken; [by apply reads_some|done|done]. }
  { lia. }
  intros dt _. apply reads_added; [done..|]. split; [done|]. split; [apply Hu|]. split; [exact Ht|]. split; [exact Hcom|].
  split; [done|]. split; [done|]. do 3 (split; [apply to_char_ok|]). apply to_char_ok.
Qed.

Lemma role_reads p : symbol_reads (role_ok readable_name) (role_read p).
Proof.
  destruct init_sets as (Hi & Hti & _).
  intros h sz m Hc Hs. apply reads_start; [by destruct (policydb_has_boundary_feature p)|].
  intros ws Hws. pose proof (fun i => buf_u32 ws i Hws) as Hu.
  piece reads_key; [apply Hu|]. intros key Hk. piece reads_bitmap. intros dom Hdom.
  eapply reads_bind with (P := type_set_ok).
  { destruct (is_kern p); [|apply reads_type_set]. piece reads_bitmap. intros t Ht. apply reads_ret. split; [done|]. by split. }
  { lia. }
  intros types Htypes. eapply reads_bind with (P := fun fr => is_u32 (fst fr) /\ Ebitmap.wf (snd fr)).
  { destruct (module_at_least p MOD_POLICYDB_VERSION_ROLEATTRIB); [|by apply reads_ret].
    piece reads_some; [done|]. intros f Hf. piece reads_bitmap. intros r Hr. apply reads_ret. split; [by apply buf_u32|done]. }
  { lia. }
  intros fr [Hf Hr]. case_bool_decide as E.
  - apply reads_ensure. intros _. apply reads_ret. exists m. split; [done|]. split; [lia|by left].
  - apply reads_added; [done..|]. split; [done|]. split; [apply Hu|]. cbn [role_bounds role_value].
    split; [by destruct (policydb_has_boundary_feature p)|]. by do 4 (split; [done|]).
Qed.

Lemma type_fields_ok p ws : Forall is_u32 ws ->
  is_u32 (type_value (type_fields p ws)) /\ is_u32 (primary (type_fields p ws)) /\ is_u32 (flavor (type_fields p ws)) /\
  is_u32 (type_flags (type_fields p ws)) /\ is_u32 (bounds (type_fields p ws)).
Proof.
  intros Hws. pose proof (fun i => buf_u32 ws i Hws) as Hu. unfold type_fields.
  destruct (policydb_has_boundary_feature p); cbn [type_value primary flavor type_flags bounds];
    repeat split; repeat case_match; apply Hu || done.
Qed.

Lemma type_reads p : symbol_reads (type_ok readable_name) (type_read p).
Proof.
  intros h sz m Hc Hs. apply reads_start; [unfold type_to_read; by repeat case_match|].
  intros ws Hws. pose proof (fun i => buf_u32 ws i Hws) as Hu. apply reads_ensure. intros _.
  eapply reads_bind with (P := Ebitmap.wf).
  { destruct (negb (is_kern p)); [apply reads_bitmap|by apply reads_ret, init_wf]. }
  { lia. }
  intros types Htypes. eapply reads_bind with (k := 0) (P := readable_name).
  { pose proof (Hu 0%nat) as H0. unfold is_u32 in H0. eapply reads_weaken; [apply reads_string; lia|lia|done]. }
  { lia. }
  intros key Hk. apply reads_added; [done..|]. destruct (type_fields_ok p ws Hws) as (? & ? & ? & ? & ?). by do 6 (split; [done|]).
Qed.

(** *** Users *)

Lemma has_ranges p : has_exp_range p = true -> has_semantic_range p = true -> False.
Proof.
  unfold has_exp_range, has_semantic_range, kern_at_least, mod_at_least, base_at_least.
  unfold POLICY_KERN, POLICY_MOD, POLICY_BASE, MOD_POLICYDB_VERSION_MLS_USERS. lia.
Qed.

Lemma reads_user_mls p :
  reads (read_user_mls p) 0 (fun '(r, l, sr, sl) =>
    (has_exp_range p = true -> range_ok r /\ level_ok l) /\
    (has_semantic_range p = true -> semantic_ok (s_low sr) /\ semantic_ok (s_high sr) /\ semantic_ok sl)).
Proof.
  unfold read_user_mls. destruct (has_exp_range p) eqn:E1.
  - assert (has_semantic_range p = true -> False) as E2 by (by apply has_ranges).
    piece reads_range. intros r Hr. piece reads_level. intros l Hl.
    destruct (negb (is_kern p)); [|by apply reads_ret].
    piece @reads_option. intros sr _. piece @reads_option. intros sl _. by apply reads_ret.
  - destruct (has_semantic_range p) eqn:E2; [|by apply reads_ret].
    eapply reads_bind with (k := 0) (P := fun sr => semantic_ok (s_low sr) /\ semantic_ok (s_high sr)).
    { piece reads_semantic. intros l0 H0. piece reads_semantic. intros l1 H1. by apply reads_ret. }
    { lia. }
    intros sr [Hs1 Hs2]. piece reads_semantic. intros sl Hsl. by apply reads_ret.
Qed.

Lemma user_reads p : symbol_reads (user_ok p readable_name) (user_read p).
Proof.
  intros h sz m Hc Hs. apply reads_start; [by destruct (policydb_has_boundary_feature p)|].
  intros ws Hws. pose proof (fun i => buf_u32 ws i Hws) as Hu.
  piece reads_key; [apply Hu|]. intros key Hk. eapply reads_bind with (P := role_set_ok).
  { destruct (is_kern p); [|apply reads_role_set]. piece reads_bitmap. intros r Hr. by apply reads_ret. }
  { lia. }
  intros roles Hroles. piece reads_user_mls. intros [[[r l] sr] sl] [He Hse].
  apply reads_added; [done..|]. split; [done|]. split; [apply Hu|]. cbn [user_bounds].
  split; [by destruct (policydb_has_boundary_feature p)|]. by split.
Qed.

(** *** Booleans, sensitivities and categories *)

Lemma bool_reads p : symbol_reads (bool_ok readable_name) (cond_read_bool p).
Proof.
  intros h sz m Hc Hs. apply reads_start; [done|]. intros ws Hws. pose proof (fun i => buf_u32 ws i Hws) as Hu.
  apply reads_ensure. intros Hst. piece reads_key; [apply Hu|]. intros key Hk.
  eapply reads_bind with (P := fun ws => Forall is_u32 ws).
  { destruct (module_at_least p MOD_POLICYDB_VERSION_TUNABLE_SEP); [by apply reads_some|by apply reads_ret; repeat constructor]. }
  { lia. }
  intros fl Hfl. apply reads_added; [done..|]. split; [done|]. split; [apply Hu|]. split; [|by apply buf_u32].
  cbn [bool_state]. unfold bool_isvalid in Hst. lia.
Qed.

Lemma u8_bounds x : 0 <= u8 x < 256.
Proof. apply Z.mod_pos_bound. lia. Qed.

Lemma sens_reads : symbol_reads (sens_ok readable_name) sens_read.
Proof.
  intros h sz m Hc Hs. apply reads_start; [done|]. intros ws Hws. pose proof (fun i => buf_u32 ws i Hws) as Hu.
  piece reads_key; [apply Hu|]. intros key Hk. piece reads_level. intros l Hl.
  apply reads_added; [done..|]. split; [done|]. split; [done|]. apply u8_bounds.
Qed.

Lemma cat_reads : symbol_reads (cat_ok readable_name) cat_read.
Proof.
  intros h sz m Hc Hs. apply reads_start; [done|]. intros ws Hws. pose proof (fun i => buf_u32 ws i Hws) as Hu.
  piece reads_key; [apply Hu|]. intros key Hk.
  apply reads_added; [done..|]. split; [done|]. split; [apply Hu|]. apply u8_bounds.
Qed.

(** ** The tables *)

Lemma reads_symtab {D} sym n (ok : bytes -> D -> Prop) r (s0 : symtab D) m0 :
  symbol_reads ok r -> holds s0 m0 -> (base.size m0 <= 1)%nat ->
  reads (read_symtab sym n r s0) 0 (fun s' => exists m, holds s' m /\
    (sym < n -> is_u32 (nprim s') /\ Z.of_nat (base.size m) < 2 ^ 32 - 1 /\
       forall k d, m !! k = Some d -> m0 !! k = Some d \/ ok k d /\ nprim s' <> 0)).
Proof.
  intros Hr [sz Hc] Hm. unfold read_symtab. destruct (Z.ltb_spec sym n) as [Hlt|Hge].
  2: { apply reads_ret. exists m0. split; [by exists sz|lia]. }
  eapply reads_weaken; [words_piece|lia|intros a Ha; exact Ha]. pose proof (fun i => buf_u32 ws i Hws) as Hu.
  apply reads_ensure. intros Hn. piece @reads_entries; [exact Hr|exact Hc|exact Hm|].
  intros t (m & Hcm & Hs & Hk). apply reads_ret. exists m. split; [by exists sz|]. intros _. cbn [nprim].
  split; [apply Hu|]. split; [done|]. intros k d [?|[? Hpos]]%Hk; [by left|]. right. split; [done|].
  intros E. rewrite E in Hn. cbn in Hn. rewrite andb_true_r, negb_involutive in Hn. apply Z.eqb_eq in Hn.
  rewrite Hn in Hpos. cbn in Hpos. lia.
Qed.

(** A kind whose table is empty before. *)
Lemma reads_kind {D} sym n (ok : bytes -> D -> Prop) omit r (s0 : symtab D) :
  symbol_reads ok r -> holds s0 ∅ ->
  reads (read_symtab sym n r s0) 0 (fun s' => exists m, kind_ok sym n omit ok s' m).
Proof.
  intros Hr H0. eapply reads_weaken; [apply (reads_symtab sym n ok r s0 ∅ Hr H0); rewrite map_size_empty; lia|done|].
  intros s' (m & Hm & Hk). exists m. split; [done|]. intros Hlt. destruct (Hk Hlt) as (? & ? & Hkd).
  split; [done|]. split; [done|]. intros k d [E|?]%Hkd _; [by rewrite lookup_empty in E|done].
Qed.

Lemma object_r_ok : role_ok readable_name OBJECT_R object_r.
Proof.
  split; [split; [done|cbv; lia]|]. pose proof init_wf. do 5 (split; [done|]). done.
Qed.

Lemma reads_symbols f n p0 : policydb_init = Some (0, p0) -> SYM_CLASSES < n ->
  reads (read_symbols f n (symbol_tables p0)) 0 (fun s => exists ms, nprim (roles s) <> 0 ->
    symbols_ok readable_name f n s ms).
Proof.
  intros Hp0 Hn. destruct init_holds as (p1 & E & _ & I0 & I1 & I2 & I3 & I4 & I5 & I6 & I7).
  rewrite Hp0 in E. injection E as <-. unfold read_symbols.
  piece (reads_kind SYM_COMMONS n (common_ok readable_name) none_omitted); [apply common_reads|exact I0|]. intros co [m0 H0].
  piece (reads_kind SYM_CLASSES n (class_ok readable_name (table co)) none_omitted); [apply class_reads|exact I1|]. intros cl [m1 H1].
  eapply reads_bind; [apply (reads_symtab SYM_ROLES n (role_ok readable_name) _ _ {[OBJECT_R := object_r]}); [apply role_reads|exact I2|by rewrite map_size_singleton]|lia|].
  intros ro (m2 & H2 & K2).
  piece (reads_kind SYM_TYPES n (type_ok readable_name) (omits_type f)); [apply type_reads|exact I3|]. intros ty [m3 H3].
  piece (reads_kind SYM_USERS n (user_ok f readable_name) none_omitted); [apply user_reads|exact I4|]. intros us [m4 H4].
  piece (reads_kind SYM_BOOLS n (bool_ok readable_name) none_omitted); [apply bool_reads|exact I5|]. intros bo [m5 H5].
  piece (reads_kind SYM_LEVELS n (sens_ok readable_name) none_omitted); [apply sens_reads|exact I6|]. intros le [m6 H6].
  piece (reads_kind SYM_CATS n (cat_ok readable_name) none_omitted); [apply cat_reads|exact I7|]. intros ca [m7 H7].
  apply reads_ret. exists (SymbolMaps m0 m1 m2 m3 m4 m5 m6 m7). cbn [roles]. intros Hnp. split; try done.
  split; [done|]. intros Hlt. destruct (K2 Hlt) as (? & ? & Hk). split; [done|]. split; [done|].
  intros k d [[<- <-]%lookup_singleton_Some|?]%Hk _; [split; [apply object_r_ok|done]|done].
Qed.

(** ** The head *)

Lemma reads_magic p0 : reads (read_magic p0) 0 (fun _ => True).
Proof.
  eapply reads_weaken; [words_piece|lia|intros a Ha; exact Ha]. pose proof (buf_u32 ws 1 Hws) as Hn.
  eapply reads_bind with (P := fun _ => True).
  { repeat case_match; apply reads_failure || by apply reads_ret. }
  { lia. }
  intros t _. apply reads_ensure. intros _. eapply reads_bind with (k := 0) (P := fun _ => True).
  { unfold is_u32 in Hn. eapply reads_weaken; [apply reads_string; lia|lia|done]. }
  { lia. }
  intros s _. repeat case_match; try apply reads_failure; try by apply reads_ret.
  apply reads_ensure. intros _. by apply reads_ret.
Qed.

Lemma reads_version t : reads (read_version t) 0 (fun '(f, ws) => Forall is_u32 ws).
Proof.
  piece reads_some; [by case_match|]. intros ws Hws.
  eapply reads_bind with (k := 0) (P := fun x : Z * list Z => Forall is_u32 x.2).
  { destruct (t =? POLICY_MOD); [apply reads_ensure; intros _|]; apply reads_ret; [by apply Forall_drop|done]. }
  { lia. }
  intros [t' ws'] Hws'. apply reads_ensure. intros _. apply reads_ret. by apply Forall_drop.
Qed.

Lemma reads_name : reads read_name 0 readable_name.
Proof. piece reads_some; [done|]. intros ws Hws. apply reads_key. by apply buf_u32. Qed.

Lemma reads_head p0 : policydb_init = Some (0, p0) ->
  reads (policydb_read_head p0) 0 (fun p => (mls p = 0 \/ mls p = 1) /\ exists info ms,
    policydb_lookup_compat (policyvers (format p)) (policy_type (format p)) (platform p) = Some info /\
    (mls p = 0 \/ old_for_mls (format p) = false -> nprim (roles (symbol_tables p)) <> 0 ->
     head_ok readable_name p info ms)).
Proof.
  intros Hp0. destruct init_holds as (p1 & E1 & E2 & _). rewrite Hp0 in E1. injection E1 as <-. rewrite Hp0 in E2. injection E2 as Ep.
  assert (unsupported_format p0 = false /\ policycaps p0 = ebitmap_init /\ permissive_types p0 = ebitmap_init) as (E3 & E4 & E5)
    by (by rewrite Ep).
  unfold policydb_read_head. piece reads_magic. intros [t plat] _. piece reads_version. intros [f ws] Hws.
  destruct (policydb_lookup_compat _ _ plat) as [info|] eqn:El; [|apply reads_failure].
  apply reads_ensure. intros _.
  eapply reads_bind with (P := fun nv => policy_type f = POLICY_MOD -> readable_name (fst nv) /\ readable_name (snd nv)).
  { destruct (Z.eqb_spec (policy_type f) POLICY_MOD) as [E|E]; [|by apply reads_ret].
    piece reads_name. intros n Hn. piece reads_name. intros v Hv. by apply reads_ret. }
  { lia. }
  intros [n v] Hnv. eapply reads_bind with (P := Ebitmap.wf).
  { destruct (has_policycaps f); [apply reads_bitmap|apply reads_ret; rewrite E4; apply init_wf]. }
  { lia. }
  intros caps Hcaps. eapply reads_bind with (P := Ebitmap.wf).
  { destruct (has_permissive_map f); [apply reads_bitmap|apply reads_ret; rewrite E5; apply init_wf]. }
  { lia. }
  intros perm Hperm. pose proof (compat_lookup _ _ _ _ El) as (_ & _ & _ & Hv).
  unfold compat_valid in Hv. repeat rewrite ?andb_true_iff, ?Z.ltb_lt in Hv. destruct Hv as [[[[_ Hv] _] _] _].
  eapply reads_bind; [apply (reads_symbols f (sym_num info) p0 Hp0); unfold SYM_CLASSES; lia|lia|].
  intros s [ms Hs]. apply reads_ret. cbn [mls format platform symbol_tables]. split; [case_match; auto|].
  exists info, ms. split; [exact El|]. intros Hm Hnp. split; try done. exact (Hs Hnp).
Qed.
End Tables.

(** C23. What is accepted can be written: whatever the bytes of the file, when a
    database just initialised reads the header and the symbols of a policy from it,
    the version is in the table, and everything the writer asks of a policy
    holds - tables in order with as many entries as they count, numbers and
    bitmaps in range, constraints that are expressions, commons that are known,
    booleans that are 0 or 1, the value of [object_r] - except that names may be
    empty, that an old version may say it has MLS, and that no role may be
    counted. *)
Theorem policy_head_accepts `{CharSign} (fp : bytes) (p0 p : policy_head) (rest : bytes) :
  policydb_init = Some (0, p0) -> Forall is_byte fp -> blen fp < 2 ^ 32 - 1 ->
  policydb_read_head p0 fp = Some (p, rest) ->
  (mls p = 0 \/ mls p = 1) /\ exists info ms,
    policydb_lookup_compat (policyvers (format p)) (policy_type (format p)) (platform p) = Some info /\
    (mls p = 0 \/ old_for_mls (format p) = false -> nprim (roles (symbol_tables p)) <> 0 ->
     head_ok readable_name p info ms).
Proof. intros Hp0 Hb Hl E. exact (proj1 (reads_head p0 Hp0 fp p rest Hb Hl E)). Qed.

(** The image of the policy of Policyimage.v. *)
#[local] Instance signed_char : CharSign := true.

Definition sample_image : bytes :=
  PolicyFile.data (snd (policydb_write_head sample_head (PolicyFile PF_USE_MEMORY [] 4096))).

(** Does a reader make of what it starts from a policy with MLS and two roles? *)
Definition sample_check (i : option (Z * policy_head)) (r : policy_head -> option (policy_head * bytes)) : bool :=
  match i with
  | Some (0, p0) =>
      match r p0 with
      | Some (p, []) => (mls p =? 1) && negb (old_for_mls (format p)) && (nprim (roles (symbol_tables p)) =? 2)
      | _ => false
      end
  | _ => false
  end.

Lemma sample_check_spec i r : sample_check i r = true -> exists p0 p, i = Some (0, p0) /\ r p0 = Some (p, []) /\
  old_for_mls (format p) = false /\ nprim (roles (symbol_tables p)) <> 0.
Proof.
  unfold sample_check. destruct i as [[[| |] p0]|]; try done. destruct (r p0) as [[p [|c rest]]|] eqn:Er; try done.
  intros [[Hm Ho]%andb_true_iff Hn]%andb_true_iff. exists p0, p. split; [done|]. split; [done|].
  split; [by apply negb_true_iff|lia].
Qed.

Lemma sample_image_bytes : Forall is_byte sample_image /\ blen sample_image < 2 ^ 32 - 1.
Proof.
  assert (forallb (fun c => (0 <=? c) && (c <? 256)) sample_image && (blen sample_image <? 4096) = true) as H
    by (vm_compute; reflexivity).
  apply andb_true_iff in H as [Hb Hl]. split; [|lia]. rewrite forallb_forall in Hb. apply Forall_forall.
  intros c Hc%list_elem_of_In%Hb. unfold is_byte. lia.
Qed.

Lemma policy_head_accepts_witness : exists p0 p, policydb_init = Some (0, p0) /\
  policydb_read_head p0 sample_image = Some (p, []) /\ exists info ms, head_ok readable_name p info ms.
Proof.
  destruct (sample_check_spec policydb_init (fun p0 => policydb_read_head p0 sample_image)) as (p0 & p & E & Er & Ho & Hn);
    [vm_compute; reflexivity|].
  destruct (policy_head_accepts sample_image p0 p [] E (proj1 sample_image_bytes) (proj2 sample_image_bytes) Er)
    as (_ & info & ms & _ & Hok).
  exists p0, p. split; [exact E|]. split; [exact Er|]. exists info, ms. apply Hok; [by right|exact Hn].
Defined.
