(* ===== verification/Policyocon.v ===== *)
(** Roles rules, object contexts and file system labels of a policy on disk
    (policydb.c, write.c): [role_trans_read], [role_allow_read], [ocontext_read]
    for SELinux, [genfs_read], and the writers.

    A context is checked when it is read; the check, which looks at the symbols of
    the policy, is an argument of the readers. *)
From S2P Require Import Prelude Stdio PolicyFile Ebitmap Hashtab Avtab Policydb Policyrw Policysyms Policyread.

Definition SECCLASS_PROCESS := 2.
Definition IB_DEVICE_NAME_MAX := 64.
Definition UINT8_MAX := 255.
Definition UINT16_MAX := 65535.

(** ** Data *)

Record role_trans := RoleTrans { tr_role : Z; tr_type : Z; tr_class : Z; tr_new_role : Z }.
Record role_allow := RoleAllow { ra_role : Z; ra_new_role : Z }.

Record context_struct := Context { c_user : Z; c_role : Z; c_type : Z; c_range : mls_range }.

(** The objects that have a context, by kind.  Addresses and subnets are kept in
    network order, as the bytes they are. *)
Record sid_context := SidContext { sid : Z; sid_context0 : context_struct }.
Record named_context := NamedContext { oc_name : bytes; oc_context0 : context_struct; oc_context1 : context_struct }.
Record port_context := PortContext { protocol : Z; low_port : Z; high_port : Z; port_context0 : context_struct }.
Record node_context := NodeContext { addr : bytes; mask : bytes; node_context0 : context_struct }.
Record fsuse_context := FsuseContext { behavior : Z; fsuse_name : bytes; fsuse_context0 : context_struct }.
Record ibpkey_context := IbpkeyContext {
  subnet_prefix : bytes; low_pkey : Z; high_pkey : Z; ibpkey_context0 : context_struct }.
Record ibendport_context := IbendportContext { dev_name : bytes; ibendport : Z; ibendport_context0 : context_struct }.

Record ocontexts := Ocontexts {
  oc_isid : list sid_context; oc_fs : list named_context; oc_port : list port_context; oc_netif : list named_context;
  oc_node : list node_context; oc_fsuse : list fsuse_context; oc_node6 : list node_context;
  oc_ibpkey : list ibpkey_context; oc_ibendport : list ibendport_context }.

Record genfs_entry := GenfsEntry { g_name : bytes; sclass : Z; g_context : context_struct }.
Record genfs := Genfs { fstype : bytes; head : list genfs_entry }.

Section Contexts.
Context (p : policy_format) (isvalid : context_struct -> bool).

(** ** Role rules *)

Definition new_roletr : bool := kern_at_least p POLICYDB_VERSION_ROLETRANS.

(** A list of [nel] items that are read one after the other. *)
Definition read_list {A} (n : Z) (r : reader A) : reader (list A) :=
  times (Z.to_nat n) (fun l => a ← r; mret (l ++ [a])) [].

Definition read_role_trans : reader role_trans :=
  ws ← words 3;
  c ← (if new_roletr then words 1 else mret [SECCLASS_PROCESS]);
  mret (RoleTrans (buf ws 0) (buf ws 1) (buf c 0) (buf ws 2)).

Definition role_trans_read : reader (list role_trans) :=
  ws ← words 1;
  read_list (buf ws 0) read_role_trans.

Definition role_allow_read : reader (list role_allow) :=
  ws ← words 1;
  read_list (buf ws 0) (ws ← words 2; mret (RoleAllow (buf ws 0) (buf ws 1))).

(** Transitions of other classes are left out in old versions. *)
Definition written_trans (tr : role_trans) : bool := new_roletr || (tr_class tr =? SECCLASS_PROCESS).

Definition write_role_trans (tr : role_trans) : writer :=
  if negb new_roletr && negb (tr_class tr =? SECCLASS_PROCESS) then skip
  else
    put_words [tr_role tr; tr_type tr; tr_new_role tr] ;;
    when new_roletr (put_words [tr_class tr]).

Definition role_trans_write (l : list role_trans) : writer :=
  put_words [blen (List.filter written_trans l)] ;;
  each write_role_trans l.

Definition role_allow_write (l : list role_allow) : writer :=
  put_words [blen l] ;;
  each (fun ra => put_words [ra_role ra; ra_new_role ra]) l.

(** ** Contexts *)

Definition has_context_range : bool := kern_at_least p POLICYDB_VERSION_MLS || base_at_least p MOD_POLICYDB_VERSION_MLS.

Definition context_read_and_validate : reader context_struct :=
  ws ← words 3;
  r ← (if has_context_range then mls_read_range_helper else mret mls_range_init);
  let c := Context (buf ws 0) (buf ws 1) (buf ws 2) r in
  _ ← ensure (isvalid c);
  mret c.

Definition context_write (c : context_struct) : writer :=
  put_words [c_user c; c_role c; c_type c] ;;
  when has_context_range (mls_write_range_helper (c_range c)).

(** ** Object contexts *)

(** [next_entry(buf, fp, n)] without a conversion. *)
Definition raw (n : Z) : reader bytes := fun fp => next_entry fp n.

Definition read_isid : reader sid_context :=
  ws ← words 1;
  c ← context_read_and_validate;
  mret (SidContext (buf ws 0) c).

Definition read_named : reader named_context :=
  ws ← words 1;
  _ ← ensure (negb (zero_or_saturated 64 (buf ws 0) || (63 <? buf ws 0)));
  name ← string_of (buf ws 0);
  c0 ← context_read_and_validate;
  c1 ← context_read_and_validate;
  mret (NamedContext name c0 c1).

(** The words are cut to the widths of the fields. *)
Definition read_port : reader port_context :=
  ws ← words 3;
  c ← context_read_and_validate;
  mret (PortContext (u8 (buf ws 0)) (u16 (buf ws 1)) (u16 (buf ws 2)) c).

(** [n] is the length of an address. *)
Definition read_node (n : Z) : reader node_context :=
  b ← raw (2 * n);
  c ← context_read_and_validate;
  mret (NodeContext (take (Z.to_nat n) b) (drop (Z.to_nat n) b) c).

Definition read_fsuse : reader fsuse_context :=
  ws ← words 2;
  name ← read_key 64 (buf ws 1);
  c ← context_read_and_validate;
  mret (FsuseContext (buf ws 0) name c).

Definition read_ibpkey : reader ibpkey_context :=
  b ← raw 16;
  let ws := le_array 4 2 (drop 8 b) in
  _ ← ensure (negb ((UINT16_MAX <? buf ws 0) || (UINT16_MAX <? buf ws 1)));
  c ← context_read_and_validate;
  mret (IbpkeyContext (take 8 b) (buf ws 0) (buf ws 1) c).

Definition read_ibendport : reader ibendport_context :=
  ws ← words 2;
  _ ← ensure (negb ((buf ws 0 =? 0) || (IB_DEVICE_NAME_MAX - 1 <? buf ws 0)));
  _ ← ensure (negb ((UINT8_MAX <? buf ws 1) || (buf ws 1 =? 0)));
  name ← string_of (buf ws 0);
  c ← context_read_and_validate;
  mret (IbendportContext name (buf ws 1) c).

(** One round of the loop over the kinds. *)
Definition read_kind {A} (i ocon_num : Z) (r : reader A) : reader (list A) :=
  if i <? ocon_num then
    ws ← words 1;
    read_list (buf ws 0) r
  else mret [].

Definition ocontext_read_selinux (ocon_num : Z) : reader ocontexts :=
  i ← read_kind 0 ocon_num read_isid;
  f ← read_kind 1 ocon_num read_named;
  o ← read_kind 2 ocon_num read_port;
  n ← read_kind 3 ocon_num read_named;
  d ← read_kind 4 ocon_num (read_node 4);
  u ← read_kind 5 ocon_num read_fsuse;
  e ← read_kind 6 ocon_num (read_node 16);
  k ← read_kind 7 ocon_num read_ibpkey;
  b ← read_kind 8 ocon_num read_ibendport;
  mret (Ocontexts i f o n d u e k b).

Definition write_kind {A} (i ocon_num : Z) (omit : A -> bool) (w : A -> writer) (l : list A) : writer :=
  when (i <? ocon_num)
    (put_words [blen (List.filter (fun a => negb (omit a)) l)] ;; each (fun a => if omit a then skip else w a) l).

Definition all_written {A} (_ : A) : bool := false.

(** A SID without a context. *)
Definition omits_sid (o : sid_context) : bool := c_user (sid_context0 o) =? 0.

Definition write_isid (o : sid_context) : writer :=
  put_words [sid o] ;;
  context_write (sid_context0 o).

Definition write_named (o : named_context) : writer :=
  put_words [blen (oc_name o)] ;;
  put_string (oc_name o) ;;
  context_write (oc_context0 o) ;;
  context_write (oc_context1 o).

Definition write_port (o : port_context) : writer :=
  put_words [protocol o; low_port o; high_port o] ;;
  context_write (port_context0 o).

Definition write_node (o : node_context) : writer :=
  put_string (addr o ++ mask o) ;;
  context_write (node_context0 o).

Definition write_fsuse (o : fsuse_context) : writer :=
  put_words [behavior o; blen (fsuse_name o)] ;;
  put_string (fsuse_name o) ;;
  context_write (fsuse_context0 o).

Definition write_ibpkey (o : ibpkey_context) : writer :=
  put_string (subnet_prefix o ++ concat (map (le_bytes 4) [low_pkey o; high_pkey o])) ;;
  context_write (ibpkey_context0 o).

Definition write_ibendport (o : ibendport_context) : writer :=
  put_words [blen (dev_name o); ibendport o] ;;
  put_string (dev_name o) ;;
  context_write (ibendport_context0 o).

Definition ocontext_write_selinux (ocon_num : Z) (o : ocontexts) : writer :=
  write_kind 0 ocon_num omits_sid write_isid (oc_isid o) ;;
  write_kind 1 ocon_num all_written write_named (oc_fs o) ;;
  write_kind 2 ocon_num all_written write_port (oc_port o) ;;
  write_kind 3 ocon_num all_written write_named (oc_netif o) ;;
  write_kind 4 ocon_num all_written write_node (oc_node o) ;;
  write_kind 5 ocon_num all_written write_fsuse (oc_fsuse o) ;;
  write_kind 6 ocon_num all_written write_node (oc_node6 o) ;;
  write_kind 7 ocon_num all_written write_ibpkey (oc_ibpkey o) ;;
  write_kind 8 ocon_num all_written write_ibendport (oc_ibendport o).

(** ** File systems *)

(** Where a file system goes: before the first with a greater name; [None] when
    its name is met on the way. *)
Fixpoint genfs_place (name : bytes) (l : list genfs) : option (list genfs * list genfs) :=
  match l with
  | [] => Some ([], [])
  | g :: l' =>
      if strcmp name (fstype g) =? 0 then None
      else if strcmp name (fstype g) <? 0 then Some ([], l)
      else '(l1, l2) ← genfs_place name l'; Some (g :: l1, l2)
  end.

(** Where a path goes: before the first that is shorter; [None] when an entry for
    the same path and class is met on the way. *)
Fixpoint entry_place (e : genfs_entry) (l : list genfs_entry) : option (list genfs_entry * list genfs_entry) :=
  match l with
  | [] => Some ([], [])
  | c :: l' =>
      if (strcmp (g_name e) (g_name c) =? 0) &&
         ((sclass c =? 0) || (sclass e =? 0) || (sclass e =? sclass c)) then None
      else if blen (g_name c) <? blen (g_name e) then Some ([], l)
      else '(l1, l2) ← entry_place e l'; Some (c :: l1, l2)
  end.

Definition read_genfs_entry (l : list genfs_entry) : reader (list genfs_entry) :=
  ws ← words 1;
  name ← read_key 64 (buf ws 0);
  cl ← words 1;
  c ← context_read_and_validate;
  let e := GenfsEntry name (buf cl 0) c in
  match entry_place e l with
  | None => failure
  | Some (l1, l2) => mret (l1 ++ e :: l2)
  end.

Definition read_genfs (l : list genfs) : reader (list genfs) :=
  ws ← words 1;
  name ← read_key 64 (buf ws 0);
  match genfs_place name l with
  | None => failure
  | Some (l1, l2) =>
      n ← words 1;
      es ← times (Z.to_nat (buf n 0)) read_genfs_entry [];
      mret (l1 ++ Genfs name es :: l2)
  end.

Definition genfs_read : reader (list genfs) :=
  ws ← words 1;
  times (Z.to_nat (buf ws 0)) read_genfs [].

Definition write_genfs_entry (e : genfs_entry) : writer :=
  put_words [blen (g_name e)] ;;
  put_string (g_name e) ;;
  put_words [sclass e] ;;
  context_write (g_context e).

Definition write_genfs (g : genfs) : writer :=
  put_words [blen (fstype g)] ;;
  put_string (fstype g) ;;
  put_words [blen (head g)] ;;
  each write_genfs_entry (head g).

Definition genfs_write (l : list genfs) : writer :=
  put_words [blen l] ;;
  each write_genfs l.

End Contexts.

(** ** Finding the label of a file *)

(** [strncmp(s, t, strlen(s)) == 0] *)
Fixpoint starts (s t : bytes) : bool :=
  match s, t with
  | [], _ => true
  | _ :: _, [] => false
  | a :: s, b :: t => (a =? b) && starts s t
  end.

(** The searches of [sepol_genfs_sid]: the entry whose context it returns, unless
    it returns [-ENOENT]. *)
Fixpoint find_fstype (name : bytes) (l : list genfs) : option genfs :=
  match l with
  | [] => None
  | g :: l =>
      let cmp := strcmp name (fstype g) in
      if cmp <=? 0 then if negb (cmp =? 0) then None else Some g else find_fstype name l
  end.

Definition labels (e : genfs_entry) (path : bytes) (cl : Z) : bool :=
  ((sclass e =? 0) || (cl =? sclass e)) && starts (g_name e) path.

Fixpoint find_entry (path : bytes) (cl : Z) (l : list genfs_entry) : option genfs_entry :=
  match l with
  | [] => None
  | e :: l => if labels e path cl then Some e else find_entry path cl l
  end.

Definition genfs_find (l : list genfs) (name path : bytes) (cl : Z) : option genfs_entry :=
  g ← find_fstype name l; find_entry path cl (head g).

(** ** What is kept *)

Definition stored_trans (p : policy_format) (tr : role_trans) : role_trans :=
  RoleTrans (tr_role tr) (tr_type tr) (if new_roletr p then tr_class tr else SECCLASS_PROCESS) (tr_new_role tr).

Definition stored_context (p : policy_format) (c : context_struct) : context_struct :=
  Context (c_user c) (c_role c) (c_type c) (if has_context_range p then c_range c else mls_range_init).

Definition stored_entry (p : policy_format) (e : genfs_entry) : genfs_entry :=
  GenfsEntry (g_name e) (sclass e) (stored_context p (g_context e)).
Definition stored_genfs (p : policy_format) (g : genfs) : genfs := Genfs (fstype g) (map (stored_entry p) (head g)).

Section Ok.
Context (p : policy_format) (isvalid : context_struct -> bool).

Definition context_ok (c : context_struct) : Prop :=
  is_u32 (c_user c) /\ is_u32 (c_role c) /\ is_u32 (c_type c) /\ range_ok (c_range c) /\
  isvalid (stored_context p c) = true.

Definition trans_ok (tr : role_trans) : Prop :=
  is_u32 (tr_role tr) /\ is_u32 (tr_type tr) /\ is_u32 (tr_class tr) /\ is_u32 (tr_new_role tr).
Definition allow_ok (ra : role_allow) : Prop := is_u32 (ra_role ra) /\ is_u32 (ra_new_role ra).

Definition isid_ok (o : sid_context) : Prop := is_u32 (sid o) /\ context_ok (sid_context0 o).
Definition named_ok (o : named_context) : Prop :=
  (0 < blen (oc_name o) <= 63 /\ ~ In 0 (oc_name o)) /\ context_ok (oc_context0 o) /\ context_ok (oc_context1 o).
Definition port_ok (o : port_context) : Prop :=
  0 <= protocol o < 2 ^ 8 /\ 0 <= low_port o < 2 ^ 16 /\ 0 <= high_port o < 2 ^ 16 /\ context_ok (port_context0 o).
Definition node_ok (n : Z) (o : node_context) : Prop :=
  blen (addr o) = n /\ blen (mask o) = n /\ context_ok (node_context0 o).
Definition fsuse_ok (o : fsuse_context) : Prop :=
  is_u32 (behavior o) /\ name_ok (fsuse_name o) /\ context_ok (fsuse_context0 o).
Definition ibpkey_ok (o : ibpkey_context) : Prop :=
  blen (subnet_prefix o) = 8 /\ 0 <= low_pkey o < 2 ^ 16 /\ 0 <= high_pkey o < 2 ^ 16 /\ context_ok (ibpkey_context0 o).
Definition ibendport_ok (o : ibendport_context) : Prop :=
  (0 < blen (dev_name o) < IB_DEVICE_NAME_MAX /\ ~ In 0 (dev_name o)) /\ 0 < ibendport o < 2 ^ 8 /\
  context_ok (ibendport_context0 o).

(** The objects of a kind can be written and counted. *)
Definition objects_ok {A} (ok : A -> Prop) (omit : A -> bool) (l : list A) : Prop :=
  blen l < 2 ^ 32 /\ Forall (fun o => omit o = false -> ok o) l.

Record ocontexts_ok (o : ocontexts) : Prop := {
  ok_isid : objects_ok isid_ok omits_sid (oc_isid o);
  ok_fs : objects_ok named_ok all_written (oc_fs o);
  ok_port : objects_ok port_ok all_written (oc_port o);
  ok_netif : objects_ok named_ok all_written (oc_netif o);
  ok_node : objects_ok (node_ok 4) all_written (oc_node o);
  ok_fsuse : objects_ok fsuse_ok all_written (oc_fsuse o);
  ok_node6 : objects_ok (node_ok 16) all_written (oc_node6 o);
  ok_ibpkey : objects_ok ibpkey_ok all_written (oc_ibpkey o);
  ok_ibendport : objects_ok ibendport_ok all_written (oc_ibendport o)
}.

(** What a file with [n] kinds keeps of the object contexts. *)
Definition stored_ocontexts (n : Z) (o : ocontexts) : ocontexts :=
  let c := stored_context p in
  let f {A} (i : Z) (g : A -> A) (l : list A) := if i <? n then map g l else [] in
  Ocontexts
    (f 0 (fun o => SidContext (sid o) (c (sid_context0 o))) (List.filter (fun o => negb (omits_sid o)) (oc_isid o)))
    (f 1 (fun o => NamedContext (oc_name o) (c (oc_context0 o)) (c (oc_context1 o))) (oc_fs o))
    (f 2 (fun o => PortContext (protocol o) (low_port o) (high_port o) (c (port_context0 o))) (oc_port o))
    (f 3 (fun o => NamedContext (oc_name o) (c (oc_context0 o)) (c (oc_context1 o))) (oc_netif o))
    (f 4 (fun o => NodeContext (addr o) (mask o) (c (node_context0 o))) (oc_node o))
    (f 5 (fun o => FsuseContext (behavior o) (fsuse_name o) (c (fsuse_context0 o))) (oc_fsuse o))
    (f 6 (fun o => NodeContext (addr o) (mask o) (c (node_context0 o))) (oc_node6 o))
    (f 7 (fun o => IbpkeyContext (subnet_prefix o) (low_pkey o) (high_pkey o) (c (ibpkey_context0 o))) (oc_ibpkey o))
    (f 8 (fun o => IbendportContext (dev_name o) (ibendport o) (c (ibendport_context0 o))) (oc_ibendport o)).

(** Two entries for the same path and class. *)
Definition clash (a b : genfs_entry) : bool :=
  (strcmp (g_name a) (g_name b) =? 0) && ((sclass b =? 0) || (sclass a =? 0) || (sclass a =? sclass b)).

(** Longer paths come first. *)
Definition before (a b : genfs_entry) : Prop := blen (g_name b) <= blen (g_name a) /\ clash b a = false.

(** File systems in the order of their names, their entries from long to short. *)
Definition genfs_sorted (l : list genfs) : Prop :=
  StronglySorted (fun a b => strcmp (fstype a) (fstype b) < 0) l /\
  Forall (fun g => StronglySorted before (head g)) l.

Definition genfs_ok (l : list genfs) : Prop :=
  blen l < 2 ^ 32 /\ genfs_sorted l /\
  Forall (fun g => name_ok (fstype g) /\ blen (head g) < 2 ^ 32 /\
    Forall (fun e => name_ok (g_name e) /\ is_u32 (sclass e) /\ context_ok (g_context e)) (head g)) l.

(** ** Round trips *)

Lemma codec_list {A} (w : A -> writer) (r : reader A) (f : A -> A) (l : list A) :
  Forall (fun a => codec (w a) r (f a)) l -> codec (each w l) (read_list (blen l) r) (map f l).
Proof.
  intros Hl. unfold read_list. rewrite <- (app_nil_l (map f l)), <- (fold_snoc f l []).
  apply codec_times; [unfold blen; lia|]. intros l1 a l2 E. rewrite E in Hl.
  apply Forall_app in Hl as [_ [Ha _]%Forall_cons]. eapply codec_last; [exact Ha|apply decodes_ret].
Qed.

Lemma each_ext {A} (w w' : A -> writer) l fp : (forall a fp, w a fp = w' a fp) -> each w l fp = each w' l fp.
Proof.
  intros Hw. revert fp. induction l as [|a l IH]; intros fp; [done|]. cbn [each]. unfold andthen. rewrite Hw.
  destruct (w' a fp) as [rc fp']. case_match; [apply IH|done].
Qed.

(** Items that are skipped. *)
Lemma each_kept {A} (keep : A -> bool) (w : A -> writer) l fp :
  each (fun a => if keep a then w a else skip) l fp = each w (List.filter keep l) fp.
Proof.
  revert fp. induction l as [|a l IH]; intros fp; [done|]. cbn [each List.filter]. destruct (keep a).
  - cbn [each]. unfold andthen. destruct (w a fp) as [rc fp']. case_match; [apply IH|done].
  - unfold andthen, skip. change (POLICYDB_SUCCESS =? 0) with true. apply IH.
Qed.

Lemma blen_filter {A} (f : A -> bool) l : blen (List.filter f l) <= blen l.
Proof. unfold blen. pose proof (List.filter_length_le f l). lia. Qed.

(** A counted list of which some are left out. *)
Lemma codec_counted {A} (keep : A -> bool) (w w' : A -> writer) (r : reader A) (f : A -> A) (l : list A) :
  (forall a fp, w' a fp = (if keep a then w a else skip) fp) -> blen l < 2 ^ 32 ->
  Forall (fun a => keep a = true -> codec (w a) r (f a)) l ->
  codec (put_words [blen (List.filter keep l)] ;; each w' l) (ws ← words 1; read_list (buf ws 0) r)
    (map f (List.filter keep l)).
Proof.
  intros Hw Hl Hc. pose proof (blen_filter keep l). eapply codec_bind; [apply (codec_words 1); [done|]|].
  { apply Forall_cons_2; [|done]. apply is_u32_blen. lia. }
  cbn [buf lookup list_lookup default]. unfold id. apply (codec_ext (each w (List.filter keep l))).
  - intros fp. rewrite <- each_kept. apply each_ext. exact Hw.
  - apply codec_list. apply Forall_forall. intros a [Ha Hk]%list_elem_of_In%filter_In.
    rewrite Forall_forall in Hc. apply Hc; [by apply list_elem_of_In|done].
Qed.

Lemma filter_all {A} (l : list A) : List.filter (fun _ => true) l = l.
Proof. induction l as [|a l IH]; [done|]. cbn. by rewrite IH. Qed.

Lemma codec_role_trans l : blen l < 2 ^ 32 -> Forall trans_ok l ->
  codec (role_trans_write p l) (role_trans_read p) (map (stored_trans p) (List.filter (written_trans p) l)).
Proof.
  intros Hl Hok. apply (codec_counted (written_trans p)
    (fun tr => put_words [tr_role tr; tr_type tr; tr_new_role tr] ;; when (new_roletr p) (put_words [tr_class tr])));
    [|done|].
  - intros tr fp. unfold write_role_trans, written_trans. by destruct (new_roletr p), (tr_class tr =? SECCLASS_PROCESS).
  - eapply Forall_impl; [exact Hok|]. intros tr (H1 & H2 & H3 & H4) _.
    eapply codec_bind; [apply (codec_words 3); [done|u32s]|].
    eapply codec_last; [apply codec_when; intros _; apply (codec_words 1); [done|u32s]|].
    unfold stored_trans. by destruct (new_roletr p).
Qed.

Lemma codec_role_allow l : blen l < 2 ^ 32 -> Forall allow_ok l -> codec (role_allow_write l) role_allow_read l.
Proof.
  intros Hl Hok. rewrite <- (map_id l) at 2. rewrite <- (filter_all l) at 2. unfold role_allow_write.
  rewrite <- (filter_all l) at 1. apply (codec_counted (fun _ => true) (fun ra => put_words [ra_role ra; ra_new_role ra])); [done|done|].
  eapply Forall_impl; [exact Hok|]. intros ra [H1 H2] _. eapply codec_last; [apply (codec_words 2); [done|u32s]|].
  by destruct ra.
Qed.

Lemma codec_context c : context_ok c -> codec (context_write p c) (context_read_and_validate p isvalid) (stored_context p c).
Proof.
  intros (H1 & H2 & H3 & H4 & H5). eapply codec_bind; [apply (codec_words 3); [done|u32s]|].
  eapply codec_last; [apply codec_when; intros _; by apply codec_range|].
  apply decodes_ensure; [exact H5|]. apply decodes_ret.
Qed.

Lemma codec_raw n b : blen b = n -> codec (put_string b) (raw n) b.
Proof. intros Hb. exists b. split; [apply writes_string|]. intros rest. unfold raw. by apply next_entry_app. Qed.

Lemma codec_objects {A} i n (omit : A -> bool) (ok : A -> Prop) (w : A -> writer) (r : reader A) (f : A -> A) (l : list A) :
  (forall a, ok a -> codec (w a) r (f a)) -> objects_ok ok omit l ->
  codec (write_kind i n omit w l) (read_kind i n r)
    (if i <? n then map f (List.filter (fun a => negb (omit a)) l) else []).
Proof.
  intros Hw [Hl Hok]. unfold write_kind, read_kind. apply codec_when. intros _.
  apply (codec_counted (fun a => negb (omit a)) w); [by intros a fp; destruct (omit a)|done|].
  eapply Forall_impl; [exact Hok|]. intros a Ha Ho. apply Hw, Ha. by apply negb_true_iff.
Qed.

Lemma u16_word x : 0 <= x < 2 ^ 16 -> is_u32 x /\ u16 x = x.
Proof. intros Hx. unfold is_u32, u16. split; [lia|]. apply Z.mod_small. lia. Qed.

Lemma codec_isid o : isid_ok o ->
  codec (write_isid p o) (read_isid p isvalid) (SidContext (sid o) (stored_context p (sid_context0 o))).
Proof.
  intros [H1 H2]. eapply codec_bind; [apply (codec_words 1); [done|u32s]|].
  eapply codec_last; [by apply codec_context|]. apply decodes_ret.
Qed.

Lemma codec_oc_named o : named_ok o ->
  codec (write_named p o) (read_named p isvalid)
    (NamedContext (oc_name o) (stored_context p (oc_context0 o)) (stored_context p (oc_context1 o))).
Proof.
  intros ([Hl Hn] & H1 & H2). eapply codec_bind; [apply (codec_words 1); [done|u32s]|].
  cbn [buf lookup list_lookup default]. unfold id. apply codec_ensure.
  { unfold zero_or_saturated. rewrite !(proj2 (Z.eqb_neq _ _)) by (pow2; lia). cbn. lia. }
  eapply codec_bind; [by apply codec_string|]. eapply codec_bind; [by apply codec_context|].
  eapply codec_last; [by apply codec_context|]. apply decodes_ret.
Qed.

Lemma codec_port o : port_ok o ->
  codec (write_port p o) (read_port p isvalid)
    (PortContext (protocol o) (low_port o) (high_port o) (stored_context p (port_context0 o))).
Proof.
  intros ([? E0]%u8_word & [? E1]%u16_word & [? E2]%u16_word & Hc). eapply codec_bind; [apply (codec_words 3); [done|u32s]|].
  eapply codec_last; [by apply codec_context|]. cbn [buf lookup list_lookup default]. unfold id. rewrite E0, E1, E2. apply decodes_ret.
Qed.

Lemma codec_node n o : node_ok n o ->
  codec (write_node p o) (read_node p isvalid n) (NodeContext (addr o) (mask o) (stored_context p (node_context0 o))).
Proof.
  intros (Ha & Hm & Hc). eapply codec_bind; [apply codec_raw; rewrite blen_app; lia|].
  eapply codec_last; [by apply codec_context|]. rewrite <- Ha. unfold blen at 1 2. rewrite Nat2Z.id.
  rewrite take_app_length, drop_app_length. apply decodes_ret.
Qed.

Lemma codec_fsuse o : fsuse_ok o ->
  codec (write_fsuse p o) (read_fsuse p isvalid)
    (FsuseContext (behavior o) (fsuse_name o) (stored_context p (fsuse_context0 o))).
Proof.
  intros (Hb & Hn & Hc). assert (is_u32 (blen (fsuse_name o))) by (destruct Hn; unfold is_u32; lia).
  eapply codec_bind; [apply (codec_words 2); [done|u32s]|].
  eapply codec_bind; [apply codec_key; [by right|done]|].
  eapply codec_last; [by apply codec_context|]. apply decodes_ret.
Qed.

Lemma codec_ibpkey o : ibpkey_ok o ->
  codec (write_ibpkey p o) (read_ibpkey p isvalid)
    (IbpkeyContext (subnet_prefix o) (low_pkey o) (high_pkey o) (stored_context p (ibpkey_context0 o))).
Proof.
  intros (Hs & Hlo & Hhi & Hc). pose proof (proj1 (u16_word _ Hlo)). pose proof (proj1 (u16_word _ Hhi)).
  eapply codec_bind; [apply codec_raw; rewrite blen_app, concat_words, Hs; done|].
  assert (length (subnet_prefix o) = 8%nat) as Hs8 by (unfold blen in Hs; lia).
  rewrite <- Hs8, take_app_length, drop_app_length.
  rewrite (le_array_concat 4 2 [low_pkey o; high_pkey o]) by (done || (u32s)).
  cbn [buf lookup list_lookup default]. unfold id. apply codec_ensure; [unfold UINT16_MAX; lia|].
  eapply codec_last; [by apply codec_context|]. apply decodes_ret.
Qed.

Lemma codec_ibendport o : ibendport_ok o ->
  codec (write_ibendport p o) (read_ibendport p isvalid)
    (IbendportContext (dev_name o) (ibendport o) (stored_context p (ibendport_context0 o))).
Proof.
  intros ([Hl Hn] & Hp & Hc). unfold IB_DEVICE_NAME_MAX in Hl. eapply codec_bind; [apply (codec_words 2); [done|u32s]|].
  cbn [buf lookup list_lookup default]. unfold id.
  apply codec_ensure; [unfold IB_DEVICE_NAME_MAX; lia|]. apply codec_ensure; [unfold UINT8_MAX; lia|].
  eapply codec_bind; [by apply codec_string|]. eapply codec_last; [by apply codec_context|]. apply decodes_ret.
Qed.

Lemma codec_ocontexts n o : ocontexts_ok o ->
  codec (ocontext_write_selinux p n o) (ocontext_read_selinux p isvalid n) (stored_ocontexts n o).
Proof.
  intros Hok.
  assert (forall A i (ok : A -> Prop) w (r : reader A) f l, (forall a, ok a -> codec (w a) r (f a)) -> objects_ok ok all_written l ->
    codec (write_kind i n all_written w l) (read_kind i n r) (if i <? n then map f l else [])) as Hall.
  { intros A i ok w r f l Hw Hl. pose proof (codec_objects i n all_written ok w r f l Hw Hl) as Hc.
    change (fun a : A => negb (all_written a)) with (fun _ : A => true) in Hc. by rewrite filter_all in Hc. }
  eapply codec_bind; [apply (codec_objects 0 n omits_sid isid_ok _ _ _ _ codec_isid), Hok|].
  eapply codec_bind; [apply (Hall _ 1 _ _ _ _ _ codec_oc_named), Hok|].
  eapply codec_bind; [apply (Hall _ 2 _ _ _ _ _ codec_port), Hok|].
  eapply codec_bind; [apply (Hall _ 3 _ _ _ _ _ codec_oc_named), Hok|].
  eapply codec_bind; [apply (Hall _ 4 _ _ _ _ _ (codec_node 4)), Hok|].
  eapply codec_bind; [apply (Hall _ 5 _ _ _ _ _ codec_fsuse), Hok|].
  eapply codec_bind; [apply (Hall _ 6 _ _ _ _ _ (codec_node 16)), Hok|].
  eapply codec_bind; [apply (Hall _ 7 _ _ _ _ _ codec_ibpkey), Hok|].
  eapply codec_last; [apply (Hall _ 8 _ _ _ _ _ codec_ibendport), Hok|]. apply decodes_ret.
Qed.

(** ** Places *)

Lemma strcmp_refl s : strcmp s s = 0.
Proof. by apply strcmp_eq. Qed.

Lemma genfs_place_spec name l : StronglySorted (fun a b => strcmp (fstype a) (fstype b) < 0) l ->
  match genfs_place name l with
  | Some (l1, l2) => l = l1 ++ l2 /\ Forall (fun g => strcmp (fstype g) name < 0) l1 /\
                     Forall (fun g => strcmp name (fstype g) < 0) l2
  | None => exists g, g ∈ l /\ fstype g = name
  end.
Proof.
  induction l as [|g l IH]; intros Hs; [by repeat split|]. apply StronglySorted_cons in Hs as [Hg Hs].
  specialize (IH Hs). cbn [genfs_place]. destruct (Z.eqb_spec (strcmp name (fstype g)) 0) as [E|Hne].
  { exists g. split; [by left|]. symmetry. by apply strcmp_eq. }
  destruct (Z.ltb_spec (strcmp name (fstype g)) 0) as [Hlt|Hge].
  - split; [done|]. split; [done|]. apply Forall_cons_2; [done|]. eapply Forall_impl; [exact Hg|].
    intros h Hh. cbn beta in *. by eapply strcmp_trans.
  - assert (strcmp (fstype g) name < 0) by (apply strcmp_opp; lia).
    destruct (genfs_place name l) as [[l1 l2]|]; cbn [mbind option_bind].
    + destruct IH as (-> & H1 & H2). split; [done|]. split; [by apply Forall_cons_2|done].
    + destruct IH as (h & Hh & E). exists h. split; [by right|done].
Qed.

Lemma clash_length a b : clash a b = true -> blen (g_name a) = blen (g_name b).
Proof. intros [E%Z.eqb_eq _]%andb_true_iff. apply strcmp_eq in E. by rewrite E. Qed.

Lemma entry_place_spec e l : StronglySorted before l ->
  match entry_place e l with
  | Some (l1, l2) => l = l1 ++ l2 /\ Forall (fun c => before c e) l1 /\ Forall (fun c => before e c) l2
  | None => exists c, c ∈ l /\ clash e c = true
  end.
Proof.
  induction l as [|c l IH]; intros Hs; [by repeat split|]. apply StronglySorted_cons in Hs as [Hc Hs].
  specialize (IH Hs). cbn [entry_place]. fold (clash e c). destruct (clash e c) eqn:E.
  { exists c. split; [by left|done]. }
  destruct (Z.ltb_spec (blen (g_name c)) (blen (g_name e))) as [Hlt|Hge].
  - split; [done|]. split; [done|].
    assert (forall d, blen (g_name d) <= blen (g_name c) -> before e d) as Hb.
    { intros d Hd. split; [lia|]. destruct (clash d e) eqn:E'; [|done]. apply clash_length in E'. lia. }
    apply Forall_cons_2; [by apply Hb|]. eapply Forall_impl; [exact Hc|]. intros d [Hd _]. by apply Hb.
  - destruct (entry_place e l) as [[l1 l2]|]; cbn [mbind option_bind].
    + destruct IH as (-> & H1 & H2). split; [done|]. split; [|done]. by apply Forall_cons_2; [split|].
    + destruct IH as (d & Hd & E'). exists d. split; [by right|done].
Qed.

(** The next item of a sorted list goes to the end of those before it. *)
Lemma genfs_place_end l1 g l2 :
  StronglySorted (fun a b => strcmp (fstype a) (fstype b) < 0) (l1 ++ g :: l2) ->
  genfs_place (fstype g) (map (stored_genfs p) l1) = Some (map (stored_genfs p) l1, []).
Proof.
  induction l1 as [|h l1 IH]; intros Hs; [done|]. cbn [app] in Hs. apply StronglySorted_cons in Hs as [Hh Hs].
  apply Forall_app in Hh as [_ [Hg _]%Forall_cons]. cbn [map genfs_place stored_genfs fstype].
  apply strcmp_opp in Hg. rewrite (proj2 (Z.eqb_neq _ _)), (proj2 (Z.ltb_ge _ _)) by lia. by rewrite IH.
Qed.

Lemma entry_place_end l1 e l2 : StronglySorted before (l1 ++ e :: l2) ->
  entry_place (stored_entry p e) (map (stored_entry p) l1) = Some (map (stored_entry p) l1, []).
Proof.
  induction l1 as [|c l1 IH]; intros Hs; [done|]. cbn [app] in Hs. apply StronglySorted_cons in Hs as [Hc Hs].
  apply Forall_app in Hc as [_ [[Hl Hcl] _]%Forall_cons]. cbn [map entry_place].
  change (_ && _) with (clash e c). rewrite Hcl. cbn [stored_entry g_name].
  rewrite (proj2 (Z.ltb_ge _ _)) by done. by rewrite IH.
Qed.

Lemma codec_genfs_entries l : StronglySorted before l ->
  Forall (fun e => name_ok (g_name e) /\ is_u32 (sclass e) /\ context_ok (g_context e)) l ->
  codec (each (write_genfs_entry p) l) (times (length l) (read_genfs_entry p isvalid) []) (map (stored_entry p) l).
Proof.
  intros Hs Hok. rewrite <- (app_nil_l (map _ l)), <- (fold_snoc (stored_entry p) l []). apply codec_times; [done|].
  intros l1 e l2 ->. rewrite fold_snoc. cbn [app]. apply Forall_app in Hok as [_ [(Hn & Hc & Hx) _]%Forall_cons].
  assert (is_u32 (blen (g_name e))) by (destruct Hn; unfold is_u32; lia).
  eapply codec_bind; [apply (codec_words 1); [done|u32s]|]. eapply codec_bind; [apply codec_key; [by right|done]|].
  eapply codec_bind; [apply (codec_words 1); [done|u32s]|]. eapply codec_last; [by apply codec_context|].
  pose proof (entry_place_end l1 e l2 Hs) as E. unfold stored_entry at 1 in E.
  cbn [buf lookup list_lookup default]. unfold id. rewrite E. apply decodes_ret.
Qed.

Lemma codec_genfs l : genfs_ok l -> codec (genfs_write p l) (genfs_read p isvalid) (map (stored_genfs p) l).
Proof.
  intros (Hl & [Hs Hh] & Hok). eapply codec_bind; [apply (codec_words 1); [done|u32s]|].
  cbn [buf lookup list_lookup default]. unfold id.
  rewrite <- (app_nil_l (map _ l)), <- (fold_snoc (stored_genfs p) l []). apply codec_times; [unfold blen; lia|].
  intros l1 g l2 ->. rewrite fold_snoc. cbn [app].
  apply Forall_app in Hok as [_ [(Hn & Hlen & He) _]%Forall_cons]. apply Forall_app in Hh as [_ [Hsh _]%Forall_cons].
  assert (is_u32 (blen (fstype g))) by (destruct Hn; unfold is_u32; lia).
  eapply codec_bind; [apply (codec_words 1); [done|u32s]|]. eapply codec_bind; [apply codec_key; [by right|done]|].
  rewrite (genfs_place_end l1 g l2 Hs). eapply codec_bind; [apply (codec_words 1); [done|u32s]|].
  cbn [buf lookup list_lookup default]. unfold id. replace (Z.to_nat (blen (head g))) with (length (head g)) by (unfold blen; lia).
  eapply codec_last; [by apply codec_genfs_entries|]. apply decodes_ret.
Qed.

(** C25. The rules of roles, the labels of objects and those of file systems of a
    kernel policy or a base module round-trip, in every version: what is written,
    if there is room, is read back with the contexts of the version, the
    transitions of processes alone in versions without classes, and the
    SIDs that have a context. *)
Theorem contexts_roundtrip (trs : list role_trans) (ras : list role_allow) (n : Z) (o : ocontexts) (gs : list genfs) :
  blen trs < 2 ^ 32 -> Forall trans_ok trs -> blen ras < 2 ^ 32 -> Forall allow_ok ras ->
  ocontexts_ok o -> genfs_ok gs ->
  codec (role_trans_write p trs ;; role_allow_write ras ;; ocontext_write_selinux p n o ;; genfs_write p gs)
    (t ← role_trans_read p;
     a ← role_allow_read;
     c ← ocontext_read_selinux p isvalid n;
     g ← genfs_read p isvalid;
     mret (t, a, c, g))
    (map (stored_trans p) (List.filter (written_trans p) trs), ras, stored_ocontexts n o, map (stored_genfs p) gs).
Proof.
  intros H1 H2 H3 H4 H5 H6. eapply codec_bind; [by apply codec_role_trans|].
  eapply codec_bind; [by apply codec_role_allow|]. eapply codec_bind; [by apply codec_ocontexts|].
  eapply codec_last; [by apply codec_genfs|]. apply decodes_ret.
Qed.

(** ** Any file *)

Lemma read_entry_sorted l fp l' rest : StronglySorted before l ->
  read_genfs_entry p isvalid l fp = Some (l', rest) -> StronglySorted before l'.
Proof.
  intros Hs E. unfold read_genfs_entry in E. apply bind_reads in E as (ws & fp1 & _ & E).
  apply bind_reads in E as (name & fp2 & _ & E). apply bind_reads in E as (cl & fp3 & _ & E).
  apply bind_reads in E as (c & fp4 & _ & E). set (e := GenfsEntry name (buf cl 0) c) in *.
  pose proof (entry_place_spec e l Hs) as Hp. destruct (entry_place e l) as [[l1 l2]|]; [|done].
  apply ret_reads in E as [<- _]. destruct Hp as (-> & H1 & H2). apply StronglySorted_app in Hs as (H3 & H4 & H5).
  apply StronglySorted_app. split; [|split; [done|by apply StronglySorted_cons]].
  intros a b Ha [->|Hb]%elem_of_cons; [|by apply H3]. rewrite Forall_forall in H1. by apply H1.
Qed.

Lemma read_genfs_sorted l fp l' rest : genfs_sorted l -> read_genfs p isvalid l fp = Some (l', rest) -> genfs_sorted l'.
Proof.
  intros [Hs Hh] E. unfold read_genfs in E. apply bind_reads in E as (ws & fp1 & _ & E).
  apply bind_reads in E as (name & fp2 & _ & E). pose proof (genfs_place_spec name l Hs) as Hp.
  destruct (genfs_place name l) as [[l1 l2]|]; [|done]. apply bind_reads in E as (n & fp3 & _ & E).
  apply bind_reads in E as (es & fp4 & Ee & E). apply ret_reads in E as [<- _]. destruct Hp as (-> & H1 & H2).
  apply (times_reads _ (fun _ es => StronglySorted before es) _ 0%nat) in Ee; [|intros _ a fp5 b rest5; apply read_entry_sorted|constructor].
  apply StronglySorted_app in Hs as (H3 & H4 & H5). apply Forall_app in Hh as [H6 H7]. split.
  - apply StronglySorted_app. split; [|split; [done|by apply StronglySorted_cons]].
    rewrite Forall_forall in H1. intros a b Ha [->|Hb]%elem_of_cons; [by apply H1|by apply H3].
  - apply Forall_app. split; [done|by apply Forall_cons_2].
Qed.

Lemma genfs_read_sorted fp l rest : genfs_read p isvalid fp = Some (l, rest) -> genfs_sorted l.
Proof.
  unfold genfs_read. intros E. apply bind_reads in E as (ws & fp1 & _ & E).
  apply (times_reads _ (fun _ l => genfs_sorted l) _ 0%nat) in E; [done|intros _ a fp2 b rest2; apply read_genfs_sorted|].
  split; [constructor|done].
Qed.

Lemma find_fstype_spec name l : genfs_sorted l ->
  match find_fstype name l with
  | Some g => g ∈ l /\ fstype g = name
  | None => forall g, g ∈ l -> fstype g <> name
  end /\ (forall g h, g ∈ l -> h ∈ l -> fstype g = name -> fstype h = name -> g = h).
Proof.
  intros [Hs _]. induction l as [|g l IH].
  { split; [intros g Hg; by apply elem_of_nil in Hg|intros g h Hg; by apply elem_of_nil in Hg]. }
  apply StronglySorted_cons in Hs as [Hg Hs]. destruct (IH Hs) as [H1 H2]. clear IH.
  assert (forall h, h ∈ l -> strcmp (fstype g) (fstype h) < 0) as Hlt by (rewrite Forall_forall in Hg; exact Hg).
  assert (forall h, h ∈ l -> fstype g = name -> fstype h <> name) as Hne.
  { intros h Hh E1 E2. specialize (Hlt h Hh). rewrite E1, E2, strcmp_refl in Hlt. done. }
  split.
  - cbn [find_fstype]. destruct (Z.leb_spec (strcmp name (fstype g)) 0) as [Hle|Hgt].
    + destruct (Z.eqb_spec (strcmp name (fstype g)) 0) as [E|E]; cbn [negb].
      * split; [by left|]. symmetry. by apply strcmp_eq.
      * intros h [->|Hh]%elem_of_cons E'; [by rewrite E', strcmp_refl in E|]. specialize (Hlt h Hh). rewrite E' in Hlt.
        apply strcmp_opp in Hlt. lia.
    + destruct (find_fstype name l); [by destruct H1; split; [by right|]|].
      intros h [->|Hh]%elem_of_cons E; [by rewrite E, strcmp_refl in Hgt|by apply (H1 h)].
  - intros h k [->|Hh]%elem_of_cons [->|Hk]%elem_of_cons E1 E2; [done|by destruct (Hne k)|by destruct (Hne h)|by apply H2].
Qed.

Lemma starts_same a b s : starts a s = true -> starts b s = true -> blen a = blen b -> a = b.
Proof.
  revert b s. induction a as [|x a IH]; intros [|y b] s Ha Hb E.
  - done.
  - rewrite blen_cons in E. pose proof (blen_nonneg b). change (blen []) with 0 in E. lia.
  - rewrite blen_cons in E. pose proof (blen_nonneg a). change (blen []) with 0 in E. lia.
  - destruct s as [|c s]; [done|]. cbn [starts] in *. apply andb_true_iff in Ha as [->%Z.eqb_eq Ha].
    apply andb_true_iff in Hb as [->%Z.eqb_eq Hb]. rewrite !blen_cons in E. f_equal. apply (IH b s Ha Hb). lia.
Qed.

(** Two entries that label the same file and are as long clash. *)
Lemma labels_clash a b path cl : labels a path cl = true -> labels b path cl = true ->
  blen (g_name a) = blen (g_name b) -> clash a b = true.
Proof.
  unfold labels, clash. intros [Ha Ha']%andb_true_iff [Hb Hb']%andb_true_iff E.
  rewrite (starts_same _ _ _ Ha' Hb' E), strcmp_refl. cbn. lia.
Qed.

Lemma find_entry_spec path cl l : StronglySorted before l ->
  match find_entry path cl l with
  | Some e => e ∈ l /\ labels e path cl = true /\
      forall e', e' ∈ l -> labels e' path cl = true -> e' = e \/ blen (g_name e') < blen (g_name e)
  | None => forall e, e ∈ l -> labels e path cl = false
  end.
Proof.
  induction l as [|e l IH]; intros Hs; [intros e He; by apply elem_of_nil in He|].
  apply StronglySorted_cons in Hs as [He Hs]. specialize (IH Hs). cbn [find_entry]. destruct (labels e path cl) eqn:El.
  - split; [by left|]. split; [done|]. intros e' [->|Hin]%elem_of_cons Hl'; [by left|]. right.
    rewrite Forall_forall in He. destruct (He e' Hin) as [Hle Hc].
    destruct (decide (blen (g_name e') = blen (g_name e))) as [E|]; [|lia].
    by rewrite (labels_clash e' e path cl Hl' El E) in Hc.
  - destruct (find_entry path cl l) as [e1|].
    + destruct IH as (H1 & H2 & H3). split; [by right|]. split; [done|].
      intros e' [->|Hin]%elem_of_cons Hl'; [by rewrite El in Hl'|by apply H3].
    + intros e' [->|Hin]%elem_of_cons; [done|by apply IH].
Qed.

(** C24. The label of a file is the most precise one: in the labels read from any
    file at all, looking up a file system, a path and a class finds the entry of that
    file system for that class whose path is the longest that the path starts with,
    and reports that there is none only if there is none.  The searches stop early, and
    rest on the order in which the reader inserts what it reads. *)
Theorem genfs_most_precise (fp : bytes) (l : list genfs) (rest : bytes) (name path : bytes) (cl : Z) :
  genfs_read p isvalid fp = Some (l, rest) ->
  match genfs_find l name path cl with
  | Some e => exists g, g ∈ l /\ fstype g = name /\ e ∈ head g /\ labels e path cl = true /\
      forall g' e', g' ∈ l -> fstype g' = name -> e' ∈ head g' -> labels e' path cl = true ->
        e' = e \/ blen (g_name e') < blen (g_name e)
  | None => forall g e, g ∈ l -> fstype g = name -> e ∈ head g -> labels e path cl = false
  end.
Proof.
  intros Hs%genfs_read_sorted. unfold genfs_find. destruct (find_fstype_spec name l Hs) as [Hf Hu].
  destruct (find_fstype name l) as [g|]; cbn [mbind option_bind]; [|intros g e Hg E; by destruct (Hf g Hg)].
  destruct Hf as [Hg Hn]. pose proof (proj2 Hs) as Hh. rewrite Forall_forall in Hh.
  pose proof (find_entry_spec path cl (head g) (Hh g Hg)) as He. destruct (find_entry path cl (head g)) as [e|].
  - destruct He as (H1 & H2 & H3). exists g. do 4 (split; [done|]). intros g' e' Hg' Hn' He'.
    rewrite (Hu g' g Hg' Hg Hn' Hn) in He'. by apply H3.
  - intros g' e' Hg' Hn' He'. rewrite (Hu g' g Hg' Hg Hn' Hn) in He'. by apply He.
Qed.

End Ok.

(** ** Examples *)

Definition sample_format : policy_format := PolicyFormat POLICY_KERN 30.
Definition has_user (c : context_struct) : bool := negb (c_user c =? 0).

Definition sample_context : context_struct := Context 1 1 7 (MlsRange (MlsLevel 1 ebitmap_init) (MlsLevel 2 ebitmap_init)).

Definition sample_entry (name : bytes) : genfs_entry := GenfsEntry name 0 sample_context.

(** [proc], with a label for everything and one for [/sys]. *)
Definition sample_genfs : list genfs :=
  [Genfs (str "proc") [sample_entry (str "/sys"); sample_entry (str "/")]; Genfs (str "sysfs") [sample_entry (str "/")]].

Definition sample_ocontexts : ocontexts :=
  Ocontexts [SidContext 1 sample_context; SidContext 2 (Context 0 0 0 mls_range_init)]
    [NamedContext (str "ext4") sample_context sample_context] [PortContext 6 80 443 sample_context] []
    [NodeContext [127; 0; 0; 1] [255; 0; 0; 0] sample_context] [FsuseContext 1 (str "tmpfs") sample_context] []
    [IbpkeyContext [254; 128; 0; 0; 0; 0; 0; 0] 0 65535 sample_context] [IbendportContext (str "mlx5") 1 sample_context].

Lemma sample_context_ok : context_ok sample_format has_user sample_context.
Proof. pose proof init_wf as Hi. do 3 (split; [done|]). split; [done|reflexivity]. Qed.

Lemma sample_path (s : bytes) : (0 <? blen s) && (blen s <? 2 ^ 32 - 1) && forallb (fun c => negb (c =? 0)) s = true -> name_ok s.
Proof.
  intros H. apply andb_true_iff in H as [H Hn]. split; [lia|]. intros H0. rewrite forallb_forall in Hn. by apply Hn in H0.
Qed.

Lemma sample_genfs_ok : genfs_ok sample_format has_user sample_genfs.
Proof.
  pose proof sample_context_ok as Hc. split; [done|]. split.
  - split; [by repeat constructor|]. by repeat constructor.
  - repeat apply Forall_cons_2; try apply Forall_nil_2; (split; [by apply sample_path|]; split; [done|]);
      repeat apply Forall_cons_2; try apply Forall_nil_2; (split; [by apply sample_path|]; split; done).
Qed.

Lemma sample_ocontexts_ok : ocontexts_ok sample_format has_user sample_ocontexts.
Proof.
  pose proof sample_context_ok as Hc.
  split; (split; [done|]); repeat apply Forall_cons_2; try apply Forall_nil_2; intros Ho; try done.
  - split; [split; [done|cbv; lia]|]. done.
  - split; [done|]. split; [by apply sample_path|done].
  - split; [split; [done|cbv; lia]|]. done.
Qed.

Lemma contexts_roundtrip_witness :
  codec (role_trans_write sample_format [RoleTrans 2 5 7 3] ;; role_allow_write [RoleAllow 2 3] ;;
         ocontext_write_selinux sample_format 9 sample_ocontexts ;; genfs_write sample_format sample_genfs)
    (t ← role_trans_read sample_format;
     a ← role_allow_read;
     c ← ocontext_read_selinux sample_format has_user 9;
     g ← genfs_read sample_format has_user;
     mret (t, a, c, g))
    ([RoleTrans 2 5 7 3], [RoleAllow 2 3], stored_ocontexts sample_format 9 sample_ocontexts, sample_genfs).
Proof.
  apply (contexts_roundtrip sample_format has_user [RoleTrans 2 5 7 3] [RoleAllow 2 3] 9 sample_ocontexts sample_genfs).
  - done.
  - apply Forall_singleton. by vm_compute.
  - done.
  - apply Forall_singleton. by vm_compute.
  - exact sample_ocontexts_ok.
  - exact sample_genfs_ok.
Defined.

(** The image of the labels, written to memory. *)
Definition genfs_image : bytes :=
  PolicyFile.data (snd (genfs_write sample_format sample_genfs (PolicyFile PF_USE_MEMORY [] 4096))).

Lemma genfs_most_precise_witness :
  genfs_find sample_genfs (str "proc") (str "/sys/kernel") 3 = Some (sample_entry (str "/sys")) /\
  exists g, g ∈ sample_genfs /\ fstype g = str "proc" /\ sample_entry (str "/sys") ∈ head g /\
    labels (sample_entry (str "/sys")) (str "/sys/kernel") 3 = true /\
    forall g' e', g' ∈ sample_genfs -> fstype g' = str "proc" -> e' ∈ head g' -> labels e' (str "/sys/kernel") 3 = true ->
      e' = sample_entry (str "/sys") \/ blen (g_name e') < blen (str "/sys").
Proof.
  split; [by vm_compute|].
  assert (genfs_read sample_format has_user genfs_image = Some (sample_genfs, [])) as E by (vm_compute; reflexivity).
  exact (genfs_most_precise sample_format has_user genfs_image sample_genfs [] (str "proc") (str "/sys/kernel") 3 E).
Defined.
