(* ===== verification/Policytrans.v ===== *)
(** Transitions by file name and by range (policydb.c, write.c): two hash tables
    whose keys are structures, their readers and writers.

    The comparisons of these tables subtract unsigned numbers into an [int], and
    are an order only on numbers below 2^31; the values of types and classes are. *)
From S2P Require Import Prelude Stdio PolicyFile Ebitmap Hashtab Avtab Policydb Policyrw Policysyms Policyimage Policyread Policyocon.

Record filename_trans := FilenameTrans { stype : Z; ttype : Z; tclass : Z; ft_name : bytes }.
Record range_trans := RangeTrans { rt_source : Z; rt_target : Z; rt_class : Z }.

(** A range transition of a base policy. *)
Record range_trans_rule := RangeTransRule {
  rtr_stypes : type_set; rtr_ttypes : type_set; rtr_tclasses : ebitmap; trange : mls_semantic_range }.

#[export] Instance filename_trans_eq_dec : EqDecision filename_trans.
Proof. solve_decision. Defined.
#[export] Instance range_trans_eq_dec : EqDecision range_trans.
Proof. solve_decision. Defined.

#[export] Instance filename_trans_countable : Countable filename_trans.
Proof.
  refine (inj_countable' (fun k => (stype k, ttype k, tclass k, ft_name k))
    (fun x => FilenameTrans x.1.1.1 x.1.1.2 x.1.2 x.2) _). by intros [].
Defined.
#[export] Instance range_trans_countable : Countable range_trans.
Proof.
  refine (inj_countable' (fun k => (rt_source k, rt_target k, rt_class k)) (fun x => RangeTrans x.1.1 x.1.2 x.2) _).
  by intros [].
Defined.

(** ** Hashing and comparison *)

Definition partial_name_hash (c prevhash : Z) : Z := u64 (u64 (prevhash + Z.shiftl c 4 + Z.shiftr c 4) * 11).

Definition filenametr_hash (size : Z) (ft : filename_trans) : Z :=
  let hash := Z.lxor (Z.lxor (stype ft) (ttype ft)) (tclass ft) in
  Z.land (fold_left (fun hash focus => partial_name_hash focus hash) (ft_name ft) hash) (u32 (size - 1)).

Definition filenametr_cmp (ft1 ft2 : filename_trans) : Z :=
  let v := s32 (stype ft1 - stype ft2) in
  if negb (v =? 0) then v
  else let v := s32 (ttype ft1 - ttype ft2) in
  if negb (v =? 0) then v
  else let v := s32 (tclass ft1 - tclass ft2) in
  if negb (v =? 0) then v
  else strcmp (ft_name ft1) (ft_name ft2).

Definition rangetr_hash (size : Z) (key : range_trans) : Z :=
  Z.land (u32 (rt_source key + u32 (Z.shiftl (rt_target key) 3) + u32 (Z.shiftl (rt_class key) 5))) (u32 (size - 1)).

Definition rangetr_cmp (key1 key2 : range_trans) : Z :=
  let v := s32 (rt_source key1 - rt_source key2) in
  if negb (v =? 0) then v
  else let v := s32 (rt_target key1 - rt_target key2) in
  if negb (v =? 0) then v
  else s32 (rt_class key1 - rt_class key2).

#[export] Instance filenametr_ops : KeyOps filename_trans := {| hash_value := filenametr_hash; keycmp := filenametr_cmp |}.
#[export] Instance rangetr_ops : KeyOps range_trans := {| hash_value := rangetr_hash; keycmp := rangetr_cmp |}.

Abbreviation filename_table := (option (hashtab filename_trans Z)).
Abbreviation range_table := (option (hashtab range_trans mls_range)).

Definition FILENAME_TRANS_SIZE := 2 ^ 10.
Definition RANGE_TR_SIZE := 256.

(** ** Reading *)

Definition read_filename_trans : reader (filename_trans * Z) :=
  ws ← words 1;
  name ← read_key 32 (buf ws 0);
  ws ← words 4;
  mret (FilenameTrans (buf ws 0) (buf ws 1) (buf ws 2) name, buf ws 3).

(** A rule that is there already is ignored, with a warning that names its types
    and its class; the rules warned of are kept with the table. *)
Definition insert_filename_trans (s : filename_table * list filename_trans)
    : reader (filename_table * list filename_trans) :=
  '(ft, otype) ← read_filename_trans;
  let '(rc, h) := hashtab_insert s.1 ft otype in
  if rc =? 0 then mret (h, s.2)
  else if negb (rc =? SEPOL_EEXIST) then failure
  else mret (h, s.2 ++ [ft]).

Definition filename_trans_read (h : filename_table) : reader (filename_table * list filename_trans) :=
  ws ← words 1;
  times (Z.to_nat (buf ws 0)) insert_filename_trans (h, []).

Section Format.
Context (p : policy_format).

Definition new_rangetr : bool := kern_at_least p POLICYDB_VERSION_RANGETRANS.

Definition read_range_trans : reader (range_trans * mls_range) :=
  ws ← words 2;
  c ← (if new_rangetr then words 1 else mret [SECCLASS_PROCESS]);
  r ← mls_read_range_helper;
  mret (RangeTrans (buf ws 0) (buf ws 1) (buf c 0), r).

(** The transitions of a policy for the kernel. *)
Definition range_read_kern (h : range_table) : reader range_table :=
  ws ← words 1;
  times (Z.to_nat (buf ws 0)) (fun h => '(rt, r) ← read_range_trans; insert_entry h rt r) h.

(** The rule a transition of a base policy is converted to. *)
Definition range_rule (rt : range_trans) (r : mls_range) : option range_trans_rule :=
  let '(e0, stypes) := ebitmap_set_bit ebitmap_init (u32 (rt_source rt - 1)) true in
  if negb (e0 =? 0) then None else
  let '(e1, ttypes) := ebitmap_set_bit ebitmap_init (u32 (rt_target rt - 1)) true in
  if negb (e1 =? 0) then None else
  let '(e2, tclasses) := ebitmap_set_bit ebitmap_init (u32 (rt_class rt - 1)) true in
  if negb (e2 =? 0) then None else
  sr ← mls_range_to_semantic r;
  Some (RangeTransRule (TypeSet stypes ebitmap_init 0) (TypeSet ttypes ebitmap_init 0) tclasses sr).

Definition range_read_base : reader (list range_trans_rule) :=
  ws ← words 1;
  read_list (buf ws 0) ('(rt, r) ← read_range_trans; of_option (range_rule rt r)).

(** ** Writing *)

Definition filename_write_helper (ft : filename_trans) (otype : Z) : writer :=
  put_words [blen (ft_name ft)] ;;
  put_string (ft_name ft) ;;
  put_words [stype ft; ttype ft; tclass ft; otype].

Definition filename_trans_write (h : filename_table) : writer :=
  if policyvers p <? POLICYDB_VERSION_FILENAME_TRANS then skip
  else
    put_words [table_nel h] ;;
    hashtab_map h filename_write_helper.

(** The old format has transitions of processes only. *)
Definition written_range (rt : range_trans) : bool := new_rangetr || (rt_class rt =? SECCLASS_PROCESS).

Definition rangetrans_count (rt : range_trans) (_ : mls_range) (nel : Z) : Z * Z :=
  (0, if written_range rt then u64 (nel + 1) else nel).

Definition range_write_helper (rt : range_trans) (r : mls_range) : writer :=
  if negb new_rangetr && negb (rt_class rt =? SECCLASS_PROCESS) then skip
  else
    put_words [rt_source rt; rt_target rt] ;;
    when new_rangetr (put_words [rt_class rt]) ;;
    mls_write_range_helper r.

Definition range_write (h : range_table) : writer :=
  put_words [u32 (snd (hashtab_map h rangetrans_count 0))] ;;
  hashtab_map h range_write_helper.

End Format.

(** ** Keys on which the comparisons are orders *)

Definition is_small (x : Z) : bool := (0 <=? x) && (x <? 2 ^ 31).

Definition small_filename (ft : filename_trans) : bool := is_small (stype ft) && is_small (ttype ft) && is_small (tclass ft).
Definition small_range (rt : range_trans) : bool := is_small (rt_source rt) && is_small (rt_target rt) && is_small (rt_class rt).

Definition filename_key : Type := { ft : filename_trans | small_filename ft = true }.
Definition range_key : Type := { rt : range_trans | small_range rt = true }.

Definition of_filename_key (k : filename_key) : filename_trans := `k.
Definition of_range_key (k : range_key) : range_trans := `k.

#[export] Instance filename_key_eq_dec : EqDecision filename_key := sig_eq_dec _.
#[export] Instance range_key_eq_dec : EqDecision range_key := sig_eq_dec _.
#[export] Instance filename_key_countable : Countable filename_key := sig_countable _.
#[export] Instance range_key_countable : Countable range_key := sig_countable _.

Definition filename_key_ops : KeyOps filename_key := {|
  hash_value size k := filenametr_hash size (`k); keycmp a b := filenametr_cmp (`a) (`b) |}.
Definition range_key_ops : KeyOps range_key := {|
  hash_value size k := rangetr_hash size (`k); keycmp a b := rangetr_cmp (`a) (`b) |}.

Lemma s32_diff a b : is_small a = true -> is_small b = true -> s32 (a - b) = a - b.
Proof.
  unfold is_small, s32. intros Ha Hb. destruct (Z.ltb_spec (u32 (a - b)) (2 ^ 31)); unfold u32 in *; pow2; zlia.
Qed.

Lemma small_filename_spec ft : small_filename ft = true ->
  is_small (stype ft) = true /\ is_small (ttype ft) = true /\ is_small (tclass ft) = true.
Proof. intros [[? ?]%andb_true_iff ?]%andb_true_iff. done. Qed.

Lemma small_range_spec rt : small_range rt = true ->
  is_small (rt_source rt) = true /\ is_small (rt_target rt) = true /\ is_small (rt_class rt) = true.
Proof. intros [[? ?]%andb_true_iff ?]%andb_true_iff. done. Qed.

(** The comparison as an order of the numbers, one after the other. *)
Definition lex (v w : Z) : Z := if negb (v =? 0) then v else w.

Lemma filenametr_cmp_lex (a b : filename_key) :
  filenametr_cmp (`a) (`b) = lex (stype (`a) - stype (`b)) (lex (ttype (`a) - ttype (`b))
    (lex (tclass (`a) - tclass (`b)) (strcmp (ft_name (`a)) (ft_name (`b))))).
Proof.
  destruct (small_filename_spec _ (proj2_sig a)) as (? & ? & ?), (small_filename_spec _ (proj2_sig b)) as (? & ? & ?).
  unfold filenametr_cmp. by rewrite !s32_diff.
Qed.

Lemma rangetr_cmp_lex (a b : range_key) :
  rangetr_cmp (`a) (`b) = lex (rt_source (`a) - rt_source (`b)) (lex (rt_target (`a) - rt_target (`b))
    (rt_class (`a) - rt_class (`b))).
Proof.
  destruct (small_range_spec _ (proj2_sig a)) as (? & ? & ?), (small_range_spec _ (proj2_sig b)) as (? & ? & ?).
  unfold rangetr_cmp. by rewrite !s32_diff.
Qed.

Ltac lex_cases := unfold lex; repeat case_match; rewrite ?negb_true_iff, ?negb_false_iff, ?Z.eqb_eq, ?Z.eqb_neq in *; try lia.

Lemma filename_key_eq (a b : filename_key) : filenametr_cmp (`a) (`b) = 0 <-> a = b.
Proof.
  rewrite filenametr_cmp_lex. split.
  - intros E. apply (sig_eq_pi (fun ft => small_filename ft = true)).
    destruct (`a) as [s t c n], (`b) as [s' t' c' n']. cbn [stype ttype tclass ft_name] in E.
    unfold lex in E. repeat case_match; try (rewrite negb_true_iff, Z.eqb_neq in *; lia).
    rewrite !negb_false_iff, !Z.eqb_eq in *. apply strcmp_eq in E. subst. f_equal; lia.
  - intros ->. unfold lex. rewrite !Z.sub_diag. cbn. by apply strcmp_eq.
Qed.

Lemma filename_key_opp (a b : filename_key) : filenametr_cmp (`a) (`b) < 0 <-> 0 < filenametr_cmp (`b) (`a).
Proof.
  rewrite !filenametr_cmp_lex. pose proof (strcmp_opp (ft_name (`a)) (ft_name (`b))). lex_cases.
Qed.

Lemma filename_key_trans (a b c : filename_key) :
  filenametr_cmp (`a) (`b) < 0 -> filenametr_cmp (`b) (`c) < 0 -> filenametr_cmp (`a) (`c) < 0.
Proof.
  rewrite !filenametr_cmp_lex. pose proof (strcmp_trans (ft_name (`a)) (ft_name (`b)) (ft_name (`c))). lex_cases.
Qed.

Lemma range_key_eq (a b : range_key) : rangetr_cmp (`a) (`b) = 0 <-> a = b.
Proof.
  rewrite rangetr_cmp_lex. split.
  - intros E. apply (sig_eq_pi (fun rt => small_range rt = true)).
    destruct (`a) as [s t c], (`b) as [s' t' c']. cbn [rt_source rt_target rt_class] in E.
    unfold lex in E. repeat case_match; try (rewrite negb_true_iff, Z.eqb_neq in *; lia).
    rewrite !negb_false_iff, !Z.eqb_eq in *. f_equal; lia.
  - intros ->. unfold lex. by rewrite !Z.sub_diag.
Qed.

Lemma range_key_opp (a b : range_key) : rangetr_cmp (`a) (`b) < 0 <-> 0 < rangetr_cmp (`b) (`a).
Proof. rewrite !rangetr_cmp_lex. lex_cases. Qed.

Lemma range_key_trans (a b c : range_key) :
  rangetr_cmp (`a) (`b) < 0 -> rangetr_cmp (`b) (`c) < 0 -> rangetr_cmp (`a) (`c) < 0.
Proof. rewrite !rangetr_cmp_lex. lex_cases. Qed.

(** A number cut to the size of a table. *)
Lemma land_size x size : 0 < size < 2 ^ 32 -> 0 <= Z.land x (u32 (size - 1)) < size.
Proof.
  intros Hs. assert (u32 (size - 1) = size - 1) as -> by (apply u32_small; unfold is_u32; lia).
  split; [apply Z.land_nonneg; right; lia|]. pose proof (land_le_r x (size - 1)). lia.
Qed.

#[export] Instance filename_table_key : TableKey filename_key := {|
  key_ops := filename_key_ops; hash_range size k := land_size _ size;
  keycmp_eq := filename_key_eq; keycmp_opp := filename_key_opp; keycmp_trans := filename_key_trans |}.
#[export] Instance range_table_key : TableKey range_key := {|
  key_ops := range_key_ops; hash_range size k := land_size _ size;
  keycmp_eq := range_key_eq; keycmp_opp := range_key_opp; keycmp_trans := range_key_trans |}.

(** ** Round trips *)

(** The entries of a table in order, into a table of other keys that is part of
    the state of the reader. *)
Section Entries.
Context {K K' D St : Type} `{TableKey K} `{KeyOps K'} (f : K -> K').
Context (inj : option (hashtab K D) -> St) (w : K' -> D -> writer) (r : St -> reader St).

Lemma codec_state (l : list (K * D)) sz h m :
  counted h sz m -> Z.of_nat (base.size m + length l) < 2 ^ 32 -> NoDup l.*1 ->
  (forall k, k ∈ l.*1 -> m !! k = None) ->
  (forall k d h' m', (k, d) ∈ l -> counted h' sz m' -> m' !! k = None -> Z.of_nat (base.size m') + 1 < 2 ^ 32 ->
     codec (w (f k) d) (r (inj h')) (inj (snd (hashtab_insert h' k d)))) ->
  exists h', codec (map_chain w (map (with_key f) l)) (times (length l) r (inj h)) (inj h') /\
    counted h' sz (list_to_map l ∪ m).
Proof.
  revert h m. induction l as [|[k d] l IH]; intros h m Hc Hs Hnd Hm Hf.
  { exists h. cbn [list_to_map foldr]. rewrite map_empty_union. split; [exact (codec_skip _)|done]. }
  cbn [length] in Hs. cbn [fmap list_fmap fst] in Hnd, Hm. apply NoDup_cons in Hnd as [Hk Hnd].
  assert (m !! k = None) as Hmk by (apply Hm; by left).
  destruct (IH (snd (hashtab_insert h k d)) (<[k := d]> m)) as (h' & Hd & Hc').
  - apply counted_insert; [done..|lia].
  - rewrite map_size_insert_None by done. lia.
  - done.
  - intros k' Hk'. rewrite lookup_insert_ne by congruence. apply Hm. by right.
  - intros k' d' h' m' Hin. apply Hf. by right.
  - exists h'. cbn [list_to_map foldr fst snd].
    assert (list_to_map l ∪ <[k := d]> m = <[k := d]> (list_to_map l) ∪ m) as <-.
    { rewrite <- insert_union_l, insert_union_r; [done|]. by apply not_elem_of_list_to_map_1. }
    split; [|exact Hc']. destruct Hd as (e' & Hw' & Hd).
    destruct (Hf k d h m) as (e & Hw & He); [by left|done|done|lia|].
    exists (e ++ e'). split; [by apply writes_map_chain|]. cbn [length times]. by eapply decodes_bind.
Qed.

End Entries.

(** Passing over entries. *)
Lemma map_chain_skipped {K D} (keep : K * D -> bool) (w : K -> D -> writer) l fp :
  (forall x, keep x = false -> w x.1 x.2 = skip) -> map_chain w l fp = map_chain w (List.filter keep l) fp.
Proof.
  intros Hs. revert fp. induction l as [|[k d] l IH]; intros fp; [done|]. cbn [List.filter map_chain].
  destruct (keep (k, d)) eqn:E.
  - cbn [map_chain]. destruct (w k d fp) as [ret fp']. case_match; [apply IH|done].
  - specialize (Hs _ E). cbn [fst snd] in Hs. rewrite Hs. unfold skip. change (u32 POLICYDB_SUCCESS =? 0) with true. apply IH.
Qed.

Lemma filter_map {A B} (g : A -> B) (keep : B -> bool) l :
  List.filter keep (map g l) = map g (List.filter (fun x => keep (g x)) l).
Proof. induction l as [|x l IH]; [done|]. cbn. destruct (keep (g x)); cbn; by rewrite IH. Qed.

Lemma filter_entries {K D} `{TableKey K} (t : hashtab K D) (keep : K * D -> bool) : Hashtab.wf t ->
  NoDup (List.filter keep (entries t)).*1 /\
  list_to_map (List.filter keep (entries t)) = filter (fun x => keep x = true) (as_map t).
Proof.
  intros Hw. pose proof (entries_NoDup t Hw) as Hnd.
  assert (List.filter keep (entries t) = filter (fun x => keep x = true) (entries t)) as ->.
  { clear. induction (entries t) as [|x l IH]; [done|]. rewrite filter_cons. cbn [List.filter].
    destruct (keep x) eqn:E; [by rewrite decide_True, IH|]. by rewrite decide_False, IH. }
  assert (NoDup (filter (fun x => keep x = true) (entries t)).*1) as Hf.
  { eapply sublist_NoDup; [exact Hnd|]. apply fmap_sublist, sublist_filter. }
  split; [exact Hf|]. apply map_eq. intros k. apply option_eq. intros d.
  rewrite <- elem_of_list_to_map by done. rewrite list_elem_of_filter, map_lookup_filter_Some.
  rewrite entries_elem by done. tauto.
Qed.

(** A table of filename transitions that can be written. *)
Definition filename_ok (k : filename_key) (otype : Z) : Prop := name_ok (ft_name (of_filename_key k)) /\ is_u32 otype.

Definition filename_table_ok (h : filename_table) : Prop :=
  exists t : hashtab filename_key Z, h = Some (map_keys of_filename_key t) /\ table_ok filename_ok (Some t) FILENAME_TRANS_SIZE.

Lemma small_u32 x : is_small x = true -> is_u32 x.
Proof. unfold is_small, is_u32. lia. Qed.

Lemma codec_filename_entry (h : option (hashtab filename_key Z)) sz m k d :
  filename_ok k d -> counted h sz m -> m !! k = None -> Z.of_nat (base.size m) + 1 < 2 ^ 32 ->
  codec (filename_write_helper (of_filename_key k) d) (insert_filename_trans (map_keys of_filename_key <$> h, []))
    (map_keys of_filename_key <$> snd (hashtab_insert h k d), []).
Proof.
  intros [Hn Hd] Hc Hk Hs. destruct (counted_insert h sz m k d Hc Hk Hs) as [Hr _].
  destruct (small_filename_spec (of_filename_key k) (proj2_sig k)) as (?%small_u32 & ?%small_u32 & ?%small_u32).
  unfold filename_write_helper, insert_filename_trans, read_filename_trans.
  assert (is_u32 (blen (ft_name (of_filename_key k)))) by (destruct Hn; unfold is_u32; lia).
  apply (codec_last _ _ _ (of_filename_key k, d)).
  - eapply codec_bind; [apply (codec_words 1); [done|u32s]|]. eapply codec_bind; [apply codec_key; [by left|done]|].
    eapply codec_last; [apply (codec_words 4); [done|u32s]|]. cbn [buf lookup list_lookup default]. unfold id.
    destruct (of_filename_key k). apply decodes_ret.
  - pose proof (map_keys_insert (K := filename_key) of_filename_key (fun _ _ => eq_refl) (fun _ _ => eq_refl) h k d) as E. rewrite Hr in E.
    cbn [fst snd]. rewrite E. apply decodes_ret.
Qed.

(** The entries of a whole table, some left out. *)
Lemma codec_kept {K K' D St} `{TableKey K} `{KeyOps K'} (f : K -> K') (inj : option (hashtab K D) -> St)
    (w : K' -> D -> writer) (r : St -> reader St) (keep : K' * D -> bool) (t : hashtab K D) (ok : K -> D -> Prop) sz :
  0 < sz < 2 ^ 31 -> table_ok ok (Some t) sz ->
  (forall x, keep x = false -> w x.1 x.2 = skip) ->
  (forall k d h m, ok k d -> keep (f k, d) = true -> counted h sz m -> m !! k = None -> Z.of_nat (base.size m) + 1 < 2 ^ 32 ->
     codec (w (f k) d) (r (inj h)) (inj (snd (hashtab_insert h k d)))) ->
  exists h', codec (hashtab_map (Some (map_keys f t)) w)
      (times (length (List.filter (fun x => keep (with_key f x)) (entries t))) r (inj (hashtab_create sz))) (inj h') /\
    counted h' sz (filter (fun x => keep (with_key f x) = true) (as_map t)).
Proof.
  intros Hsz (m & Hc & Hm & Hok) Hskip Hf. pose proof Hc as (t' & Et & Hw & <- & Ht & Hn). injection Et as <-.
  destruct (filter_entries t (fun x => keep (with_key f x)) Hw) as [Hnd Hmap].
  set (l := List.filter _ _) in *.
  assert (length l <= base.size (as_map t))%nat as Hl.
  { rewrite <- (entries_length t Hw). unfold l. apply List.filter_length_le. }
  destruct (codec_state f inj w r l sz (hashtab_create sz) ∅) as (h' & Hd & Hc').
  - by apply counted_create.
  - rewrite map_size_empty. lia.
  - exact Hnd.
  - intros k _. apply lookup_empty.
  - intros k d h m' [Hin Hkd]%list_elem_of_In%List.filter_In. apply Hf; [|exact Hkd].
    apply list_elem_of_In, (entries_elem t k d Hw) in Hin. exact (Hok k d Hin).
  - exists h'. rewrite Hmap, map_union_empty in Hc'. split; [|exact Hc'].
    eapply codec_ext; [|exact Hd]. intros fp. cbn [hashtab_map]. rewrite map_chains_concat.
    change (concat _) with (entries (map_keys f t)). rewrite map_keys_entries, (map_chain_skipped keep) by done.
    by rewrite filter_map.
Qed.

Lemma filter_true {A} (f : A -> bool) l : (forall x, f x = true) -> List.filter f l = l.
Proof. intros Hf. induction l as [|x l IH]; [done|]. cbn. by rewrite Hf, IH. Qed.

Lemma count_kept {K D} (keep : K * D -> bool) (l : list (K * D)) n : 0 <= n -> n + blen l < 2 ^ 64 ->
  snd (map_chain (fun k d n => (0, if keep (k, d) then u64 (n + 1) else n)) l n) = n + blen (List.filter keep l).
Proof.
  revert n. induction l as [|[k d] l IH]; intros n Hn Hs; [cbn; unfold blen; cbn; lia|].
  rewrite blen_cons in Hs. pose proof (blen_nonneg l). cbn [map_chain]. change (u32 0 =? 0) with true. cbn iota. cbn [List.filter].
  destruct (keep (k, d)); rewrite IH; rewrite ?u64_small by (unfold is_u64; lia); rewrite ?blen_cons; lia.
Qed.

(** A table of filename transitions is read back whole. *)
Lemma codec_filename_trans p h : filename_table_ok h ->
  codec (filename_trans_write p h)
    (if policyvers p <? POLICYDB_VERSION_FILENAME_TRANS then mret (hashtab_create FILENAME_TRANS_SIZE, [])
     else filename_trans_read (hashtab_create FILENAME_TRANS_SIZE))
    (if policyvers p <? POLICYDB_VERSION_FILENAME_TRANS then hashtab_create FILENAME_TRANS_SIZE else h, []).
Proof.
  intros (t & -> & Hok). unfold filename_trans_write. destruct (_ <? _); [apply codec_skip|].
  pose proof Hok as (m & (t' & Et & Hw & <- & Ht & Hn) & Hm & _). injection Et as <-.
  eapply codec_bind; [apply (codec_words 1); [done|]|].
  { apply Forall_cons_2; [|done]. cbn [table_nel]. change (Hashtab.nel (map_keys of_filename_key t)) with (Hashtab.nel t).
    rewrite Hn. unfold is_u32. lia. }
  cbn [buf lookup list_lookup default table_nel]. unfold id. change (Hashtab.nel (map_keys _ t)) with (Hashtab.nel t).
  destruct (codec_kept of_filename_key (fun h => (map_keys of_filename_key <$> h, [])) filename_write_helper
    insert_filename_trans (fun _ => true) t filename_ok FILENAME_TRANS_SIZE) as (h' & Hd & Hc'); [done|done|done| |].
  { intros k d h0 m0 Hk _ Hc0 Hk0 Hs0. by eapply codec_filename_entry. }
  rewrite filter_true, entries_length in Hd by done. rewrite Hn, Nat2Z.id.
  rewrite map_filter_id in Hc' by done.
  assert (Some t = h') as <-. { eapply counted_unique; [|exact Hc']. by exists t. }
  rewrite (map_keys_create (K := filename_key) of_filename_key). exact Hd.
Qed.

(** A table of range transitions that can be written. *)
Definition range_table_ok (h : range_table) : Prop :=
  exists t : hashtab range_key mls_range,
    h = Some (map_keys of_range_key t) /\ table_ok (fun _ r => range_ok r) (Some t) RANGE_TR_SIZE.

(** The table that is read: of a policy of the old format, the transitions of processes. *)
Definition range_saved (p : policy_format) (h h' : range_table) : Prop :=
  exists t t' : hashtab range_key mls_range,
    h = Some (map_keys of_range_key t) /\ h' = Some (map_keys of_range_key t') /\ Hashtab.wf t' /\
    Hashtab.size t' = RANGE_TR_SIZE /\
    as_map t' = filter (fun x => written_range p (of_range_key x.1) = true) (as_map t).

Lemma codec_range_entry p (h : option (hashtab range_key mls_range)) sz m k r :
  range_ok r -> written_range p (of_range_key k) = true ->
  counted h sz m -> m !! k = None -> Z.of_nat (base.size m) + 1 < 2 ^ 32 ->
  codec (range_write_helper p (of_range_key k) r)
    ('(rt, r) ← read_range_trans p; insert_entry (map_keys of_range_key <$> h) rt r)
    (map_keys of_range_key <$> snd (hashtab_insert h k r)).
Proof.
  intros Hr Hk Hc Hkm Hs. destruct (counted_insert h sz m k r Hc Hkm Hs) as [Hi _].
  destruct (small_range_spec (of_range_key k) (proj2_sig k)) as (?%small_u32 & ?%small_u32 & ?%small_u32).
  pose proof (map_keys_insert (K := range_key) of_range_key (fun _ _ => eq_refl) (fun _ _ => eq_refl) h k r) as E.
  rewrite Hi in E. unfold range_write_helper, read_range_trans, written_range in *.
  replace (negb (new_rangetr p) && negb (rt_class (of_range_key k) =? SECCLASS_PROCESS)) with false
    by (by destruct (new_rangetr p), (rt_class (of_range_key k) =? SECCLASS_PROCESS)).
  apply (codec_last _ _ _ (of_range_key k, r)).
  - eapply codec_bind; [apply (codec_words 2); [done|u32s]|].
    eapply codec_bind; [apply codec_when; intros _; apply (codec_words 1); [done|u32s]|].
    eapply codec_last; [by apply codec_range|]. destruct (of_range_key k) as [s t c]. cbn [rt_class] in *.
    destruct (new_rangetr p); cbn in *; [apply decodes_ret|]. apply Z.eqb_eq in Hk as ->. apply decodes_ret.
  - unfold insert_entry. rewrite E. apply decodes_ret.
Qed.

Lemma codec_range_trans p h : range_table_ok h ->
  exists h', codec (range_write p h) (range_read_kern p (hashtab_create RANGE_TR_SIZE)) h' /\
    range_saved p h h' /\ (new_rangetr p = true -> h' = h).
Proof.
  intros (t & -> & Hok). pose proof Hok as (m & (t' & Et & Hw & <- & Ht & Hn) & Hm & _). injection Et as <-.
  destruct (codec_kept of_range_key (fun h => map_keys of_range_key <$> h) (range_write_helper p)
    (fun h => '(rt, r) ← read_range_trans p; insert_entry h rt r) (fun x => written_range p x.1) t
    (fun _ r => range_ok r) RANGE_TR_SIZE) as (h' & Hd & Hc'); [done|done| | |].
  - intros [rt r]. cbn [fst snd]. unfold range_write_helper, written_range.
    by destruct (new_rangetr p), (rt_class rt =? SECCLASS_PROCESS).
  - intros k r h m Hr Hk. by apply codec_range_entry.
  - pose proof (entries_length t Hw) as Hlen.
    pose proof (List.filter_length_le (fun x => written_range p (with_key of_range_key x).1) (entries t)) as Hle.
    pose proof Hc' as (u & -> & Hu & Hum & Hus & Hun).
    exists (Some (map_keys of_range_key u)). split; [|split].
    + unfold range_write, range_read_kern. eapply codec_bind; [apply (codec_words 1); [done|]|].
      { apply Forall_cons_2; [apply u32_range|done]. }
      cbn [buf lookup list_lookup default hashtab_map]. unfold id. rewrite map_chains_concat.
      change (concat _) with (entries (map_keys of_range_key t)). rewrite map_keys_entries.
      unfold rangetrans_count. rewrite (count_kept (fun x => written_range p x.1)).
      2: lia.
      2: { unfold blen. rewrite length_map. lia. }
      rewrite filter_map. unfold blen. rewrite length_map, Z.add_0_l, u32_small by (unfold is_u32; lia). rewrite Nat2Z.id.
      rewrite (map_keys_create (K := range_key) of_range_key). exact Hd.
    + by exists t, u.
    + intros Hnew. rewrite map_filter_id in Hc' by (intros ? ? ?; unfold written_range; by rewrite Hnew).
      do 2 f_equal. assert (Some u = Some t) as [=]; [|done]. eapply counted_unique; [exact Hc'|]. by exists t.
Qed.

(** C29. Transitions.  The tables of the transitions by file name and by range, whose
    keys have values below 2^31, are written and read back: no file name transition
    is met twice, the tables are the same but for the versions that have none by file
    name, and for those that have range transitions of processes only. *)
Theorem transition_tables_roundtrip (p : policy_format) (h : filename_table) (r : range_table) :
  filename_table_ok h -> range_table_ok r ->
  exists r', codec (filename_trans_write p h ;; range_write p r)
      (f ← (if policyvers p <? POLICYDB_VERSION_FILENAME_TRANS then mret (hashtab_create FILENAME_TRANS_SIZE, [])
            else filename_trans_read (hashtab_create FILENAME_TRANS_SIZE));
       r ← range_read_kern p (hashtab_create RANGE_TR_SIZE);
       mret (f, r))
      (if policyvers p <? POLICYDB_VERSION_FILENAME_TRANS then hashtab_create FILENAME_TRANS_SIZE else h, [], r') /\
    range_saved p r r' /\ (new_rangetr p = true -> r' = r).
Proof.
  intros Hh Hr. destruct (codec_range_trans p r Hr) as (r' & Hd & Hs). exists r'. split; [|exact Hs].
  eapply codec_bind; [by apply codec_filename_trans|]. eapply codec_last; [exact Hd|]. apply decodes_ret.
Qed.

(** *** A file "log" that a process makes, and the range of a process. *)

Definition sample_filename : filename_key := FilenameTrans 5 9 7 (str "log") ↾ eq_refl.
Definition sample_range_key : range_key := RangeTrans 5 9 2 ↾ eq_refl.
Definition sample_mls_range : mls_range := MlsRange (MlsLevel 1 ebitmap_init) (MlsLevel 1 ebitmap_init).

Definition sample_filenames : filename_table :=
  map_keys of_filename_key <$> snd (hashtab_insert (hashtab_create FILENAME_TRANS_SIZE) sample_filename 12).
Definition sample_ranges : range_table :=
  map_keys of_range_key <$> snd (hashtab_insert (hashtab_create RANGE_TR_SIZE) sample_range_key sample_mls_range).

(** A table with one entry. *)
Lemma one_entry_ok {K D} `{TableKey K} (ok : K -> D -> Prop) sz k d : 0 < sz < 2 ^ 31 -> ok k d ->
  exists t, snd (hashtab_insert (hashtab_create sz) k d) = Some t /\ table_ok ok (Some t) sz.
Proof.
  intros Hsz Hok. destruct (counted_insert (hashtab_create sz) sz ∅ k d) as [_ Hc].
  { by apply counted_create. }
  { apply lookup_empty. }
  { rewrite map_size_empty. lia. }
  pose proof Hc as (t & Et & _). exists t. split; [exact Et|]. exists (<[k := d]> ∅). rewrite <- Et. split; [exact Hc|]. split.
  - rewrite map_size_insert_None, map_size_empty by apply lookup_empty. lia.
  - apply map_Forall_insert_2; [done|apply map_Forall_empty].
Qed.

Lemma sample_filenames_ok : filename_table_ok sample_filenames.
Proof.
  destruct (one_entry_ok filename_ok FILENAME_TRANS_SIZE sample_filename 12) as (t & Et & Ht); [by vm_compute| |].
  { split; [split; [by vm_compute|by intros [?|[?|[?|[]]]]]|by vm_compute]. }
  exists t. unfold sample_filenames. by rewrite Et.
Qed.

Lemma sample_ranges_ok : range_table_ok sample_ranges.
Proof.
  destruct (one_entry_ok (fun _ r => range_ok r) RANGE_TR_SIZE sample_range_key sample_mls_range) as (t & Et & Ht);
    [by vm_compute|by vm_compute|]. exists t. unfold sample_ranges. by rewrite Et.
Qed.

Lemma transition_tables_roundtrip_witness :
  exists r', codec (filename_trans_write sample_format sample_filenames ;; range_write sample_format sample_ranges)
      (f ← filename_trans_read (hashtab_create FILENAME_TRANS_SIZE);
       r ← range_read_kern sample_format (hashtab_create RANGE_TR_SIZE);
       mret (f, r)) (sample_filenames, [], r') /\
    range_saved sample_format sample_ranges r' /\ (new_rangetr sample_format = true -> r' = sample_ranges).
Proof. exact (transition_tables_roundtrip sample_format sample_filenames sample_ranges sample_filenames_ok sample_ranges_ok). Defined.
