(* ===== verification/Policyrules.v ===== *)
(** The rules of modules on disk (policydb.c, write.c): access vector rules over
    sets of types, transitions and allow rules of roles, transitions by file name
    and by range, and the index of the symbols a block needs or declares. *)
From S2P Require Import Prelude Stdio PolicyFile Ebitmap Hashtab Avtab.
From S2P Require Import Policydb Policyrw Policysyms Policyimage Policyread Policyocon Policytrans.

Definition AVRULE_XPERMS := 0xf00.
Definition EXTENDED_PERMS_LEN := 8.

Record class_perm_node := ClassPerm { cp_class : Z; cp_data : Z }.

(** [av_extended_perms_t] has the fields of [avtab_extended_perms]; where a rule
    stands in its source is not in the file. *)
Record avrule := Avrule {
  av_specified : Z; av_flags : Z; av_stypes : type_set; av_ttypes : type_set;
  av_perms : list class_perm_node; av_xperms : option avtab_extended_perms }.

Record role_trans_rule := RoleTransRule {
  trr_roles : role_set; trr_types : type_set; trr_classes : ebitmap; trr_new_role : Z }.
Record role_allow_rule := RoleAllowRule { rar_roles : role_set; rar_new_roles : role_set }.
Record filename_trans_rule := FilenameTransRule {
  ftr_stypes : type_set; ftr_ttypes : type_set; ftr_tclass : Z; ftr_name : bytes; ftr_otype : Z }.

(** The bitmaps of [scope], one for each kind of symbol, and [class_perms_map]. *)
Record scope_index := ScopeIndex { si_scope : list ebitmap; class_perms_map : list ebitmap }.

Section Rules.
Context (p : policy_format) (target_platform_ : Z).

(** ** Reading *)

Definition read_class_perm : reader class_perm_node :=
  ws ← words 2;
  mret (ClassPerm (buf ws 0) (buf ws 1)).

Definition read_av_xperms : reader avtab_extended_perms :=
  _ ← ensure (negb (policyvers p <? MOD_POLICYDB_VERSION_XPERMS_IOCTL));
  _ ← ensure (target_platform_ =? SEPOL_TARGET_SELINUX);
  s ← raw 1;
  d ← raw 1;
  xs ← words EXTENDED_PERMS_LEN;
  mret (Xperms (le_val s) (le_val d) xs).

Definition avrule_read : reader avrule :=
  ws ← words 2;
  stypes ← type_set_read;
  ttypes ← type_set_read;
  n ← words 1;
  ps ← read_list (buf n 0) read_class_perm;
  x ← (if bits (buf ws 0) AVRULE_XPERMS then x ← read_av_xperms; mret (Some x) else mret None);
  mret (Avrule (buf ws 0) (buf ws 1) stypes ttypes ps x).

Definition avrule_read_list : reader (list avrule) :=
  ws ← words 1;
  read_list (buf ws 0) avrule_read.

(** The bitmap of the class [process], for the versions that have no other. *)
Definition process_class : ebitmap := snd (ebitmap_set_bit ebitmap_init (SECCLASS_PROCESS - 1) true).

Definition new_role_trans : bool := MOD_POLICYDB_VERSION_ROLETRANS <=? policyvers p.

Definition read_role_trans_rule : reader role_trans_rule :=
  roles ← role_set_read;
  types ← type_set_read;
  classes ← (if new_role_trans then bitmap else mret process_class);
  ws ← words 1;
  mret (RoleTransRule roles types classes (buf ws 0)).

Definition role_trans_rule_read : reader (list role_trans_rule) :=
  ws ← words 1;
  read_list (buf ws 0) read_role_trans_rule.

Definition role_allow_rule_read : reader (list role_allow_rule) :=
  ws ← words 1;
  read_list (buf ws 0) (r ← role_set_read; n ← role_set_read; mret (RoleAllowRule r n)).

Definition read_filename_trans_rule : reader filename_trans_rule :=
  ws ← words 1;
  name ← read_key 32 (buf ws 0);
  stypes ← type_set_read;
  ttypes ← type_set_read;
  ws ← words 2;
  mret (FilenameTransRule stypes ttypes (buf ws 0) name (buf ws 1)).

Definition filename_trans_rule_read : reader (list filename_trans_rule) :=
  ws ← words 1;
  read_list (buf ws 0) read_filename_trans_rule.

Definition read_range_trans_rule : reader range_trans_rule :=
  stypes ← type_set_read;
  ttypes ← type_set_read;
  tclasses ← bitmap;
  r ← mls_read_semantic_range_helper;
  mret (RangeTransRule stypes ttypes tclasses r).

Definition range_trans_rule_read : reader (list range_trans_rule) :=
  ws ← words 1;
  read_list (buf ws 0) read_range_trans_rule.

(** The index of a new block has empty bitmaps; the first [num_scope_syms] are read. *)
Definition scope_index_read (num_scope_syms : Z) : reader scope_index :=
  s ← read_list num_scope_syms bitmap;
  ws ← words 1;
  m ← read_list (buf ws 0) bitmap;
  mret (ScopeIndex (s ++ drop (Z.to_nat num_scope_syms) (replicate (Z.to_nat SYM_NUM) ebitmap_init)) m).

(** ** Writing *)

Definition write_class_perm (c : class_perm_node) : writer := put_words [cp_class c; cp_data c].

(** A NULL pointer is followed. *)
Definition stuck : writer := fun fp => (POLICYDB_ERROR, fp).

Definition write_av_xperms (x : option avtab_extended_perms) : writer :=
  if policyvers p <? MOD_POLICYDB_VERSION_XPERMS_IOCTL then fun fp => (POLICYDB_ERROR, fp)
  else if negb (target_platform_ =? SEPOL_TARGET_SELINUX) then fun fp => (POLICYDB_ERROR, fp)
  else match x with
       | None => stuck
       | Some x =>
           put_string [u8 (x_specified x)] ;;
           put_string [u8 (driver x)] ;;
           put_words (perms x)
       end.

Definition avrule_write (r : avrule) : writer :=
  put_words [av_specified r; av_flags r] ;;
  type_set_write (av_stypes r) ;;
  type_set_write (av_ttypes r) ;;
  put_words [blen (av_perms r)] ;;
  each write_class_perm (av_perms r) ;;
  when (bits (av_specified r) AVRULE_XPERMS) (write_av_xperms (av_xperms r)).

Definition avrule_write_list (l : list avrule) : writer :=
  put_words [blen l] ;;
  each avrule_write l.

Definition only_process (e : ebitmap) : bool :=
  forallb (fun i => i =? SECCLASS_PROCESS - 1) (default [] (ebitmap_for_each_positive_bit e)).

Definition written_role_trans (tr : role_trans_rule) : bool := new_role_trans || only_process (trr_classes tr).

Definition write_role_trans_rule (tr : role_trans_rule) : writer :=
  if negb new_role_trans && negb (only_process (trr_classes tr)) then skip
  else
    role_set_write (trr_roles tr) ;;
    type_set_write (trr_types tr) ;;
    when new_role_trans (ebitmap_write (trr_classes tr)) ;;
    put_words [trr_new_role tr].

Definition role_trans_rule_write (l : list role_trans_rule) : writer :=
  put_words [blen (List.filter written_role_trans l)] ;;
  each write_role_trans_rule l.

Definition role_allow_rule_write (l : list role_allow_rule) : writer :=
  put_words [blen l] ;;
  each (fun ra => role_set_write (rar_roles ra) ;; role_set_write (rar_new_roles ra)) l.

Definition write_filename_trans_rule (ftr : filename_trans_rule) : writer :=
  put_words [blen (ftr_name ftr)] ;;
  put_string (ftr_name ftr) ;;
  type_set_write (ftr_stypes ftr) ;;
  type_set_write (ftr_ttypes ftr) ;;
  put_words [ftr_tclass ftr; ftr_otype ftr].

Definition filename_trans_rule_write (l : list filename_trans_rule) : writer :=
  put_words [blen l] ;;
  each write_filename_trans_rule l.

Definition write_range_trans_rule (rt : range_trans_rule) : writer :=
  type_set_write (rtr_stypes rt) ;;
  type_set_write (rtr_ttypes rt) ;;
  ebitmap_write (rtr_tclasses rt) ;;
  mls_write_semantic_range_helper (trange rt).

Definition range_trans_rule_write (l : list range_trans_rule) : writer :=
  put_words [blen l] ;;
  each write_range_trans_rule l.

Definition scope_index_write (num_scope_syms : Z) (s : scope_index) : writer :=
  each ebitmap_write (take (Z.to_nat num_scope_syms) (si_scope s)) ;;
  put_words [blen (class_perms_map s)] ;;
  each ebitmap_write (class_perms_map s).

(** ** Rules that can be written *)

Definition xperms_ok (x : avtab_extended_perms) : Prop :=
  is_byte (x_specified x) /\ is_byte (driver x) /\ blen (perms x) = EXTENDED_PERMS_LEN /\ Forall is_u32 (perms x).

(** Extended permissions are there when the rule says so, and only then, in a
    version that has them. *)
Definition avrule_ok (r : avrule) : Prop :=
  is_u32 (av_specified r) /\ is_u32 (av_flags r) /\ type_set_ok (av_stypes r) /\ type_set_ok (av_ttypes r) /\
  blen (av_perms r) < 2 ^ 32 /\ Forall (fun c => is_u32 (cp_class c) /\ is_u32 (cp_data c)) (av_perms r) /\
  match av_xperms r with
  | Some x => bits (av_specified r) AVRULE_XPERMS = true /\ MOD_POLICYDB_VERSION_XPERMS_IOCTL <= policyvers p /\
              target_platform_ = SEPOL_TARGET_SELINUX /\ xperms_ok x
  | None => bits (av_specified r) AVRULE_XPERMS = false
  end.

Definition listed {A} (ok : A -> Prop) (l : list A) : Prop := blen l < 2 ^ 32 /\ Forall ok l.

Definition role_trans_rule_ok (tr : role_trans_rule) : Prop :=
  role_set_ok (trr_roles tr) /\ type_set_ok (trr_types tr) /\ Ebitmap.wf (trr_classes tr) /\ is_u32 (trr_new_role tr).

Definition role_allow_rule_ok (ra : role_allow_rule) : Prop := role_set_ok (rar_roles ra) /\ role_set_ok (rar_new_roles ra).

Definition filename_trans_rule_ok (ftr : filename_trans_rule) : Prop :=
  name_ok (ftr_name ftr) /\ type_set_ok (ftr_stypes ftr) /\ type_set_ok (ftr_ttypes ftr) /\
  is_u32 (ftr_tclass ftr) /\ is_u32 (ftr_otype ftr).

Definition range_trans_rule_ok (rt : range_trans_rule) : Prop :=
  type_set_ok (rtr_stypes rt) /\ type_set_ok (rtr_ttypes rt) /\ Ebitmap.wf (rtr_tclasses rt) /\
  semantic_ok (s_low (trange rt)) /\ semantic_ok (s_high (trange rt)).

Definition scope_index_ok (n : Z) (s : scope_index) : Prop :=
  Z.of_nat (length (si_scope s)) = SYM_NUM /\ 0 <= n <= SYM_NUM /\
  Forall Ebitmap.wf (si_scope s) /\ listed Ebitmap.wf (class_perms_map s).

(** What is kept of them: an old version has transitions of processes only, and
    the categories of a level change their order. *)
Definition stored_role_trans (tr : role_trans_rule) : role_trans_rule :=
  RoleTransRule (trr_roles tr) (trr_types tr) (if new_role_trans then trr_classes tr else process_class) (trr_new_role tr).

Definition stored_range_rule (rt : range_trans_rule) : range_trans_rule :=
  RangeTransRule (rtr_stypes rt) (rtr_ttypes rt) (rtr_tclasses rt) (stored_semantic_range (trange rt)).

Definition stored_index (n : Z) (s : scope_index) : scope_index :=
  ScopeIndex (take (Z.to_nat n) (si_scope s) ++ drop (Z.to_nat n) (replicate (Z.to_nat SYM_NUM) ebitmap_init))
    (class_perms_map s).

(** ** Round trips *)

(** A counted list that is written whole. *)
Lemma codec_listed {A} (ok : A -> Prop) (w : A -> writer) (r : reader A) (f : A -> A) (l : list A) :
  (forall a, ok a -> codec (w a) r (f a)) -> listed ok l ->
  codec (put_words [blen l] ;; each w l) (ws ← words 1; read_list (buf ws 0) r) (map f l).
Proof.
  intros Hw [Hl Hok]. rewrite <- (filter_all l) at 1 3. apply (codec_counted (fun _ => true) w); [done|done|].
  eapply Forall_impl; [exact Hok|]. intros a Ha _. by apply Hw.
Qed.

Lemma codec_same {A} (ok : A -> Prop) (w : A -> writer) (r : reader A) (l : list A) :
  (forall a, ok a -> codec (w a) r a) -> listed ok l ->
  codec (put_words [blen l] ;; each w l) (ws ← words 1; read_list (buf ws 0) r) l.
Proof. intros Hw Hl. rewrite <- (map_id l) at 3. by eapply (codec_listed ok w r (fun a => a)). Qed.

Lemma codec_byte x : is_byte x -> codec (put_string [u8 x]) (raw 1) [x].
Proof.
  intros Hx. assert (u8 x = x) as -> by (unfold u8, is_byte in *; apply Z.mod_small; lia). by apply codec_raw.
Qed.

Lemma codec_av_xperms x : MOD_POLICYDB_VERSION_XPERMS_IOCTL <= policyvers p ->
  target_platform_ = SEPOL_TARGET_SELINUX -> xperms_ok x -> codec (write_av_xperms (Some x)) read_av_xperms x.
Proof.
  intros Hv Ht (Hs & Hd & Hl & Hp). unfold write_av_xperms, read_av_xperms.
  replace (policyvers p <? _) with false by lia. rewrite Ht. apply codec_ensure; [done|]. apply codec_ensure; [done|].
  eapply codec_bind; [by apply codec_byte|]. eapply codec_bind; [by apply codec_byte|].
  eapply codec_last; [by apply (codec_words EXTENDED_PERMS_LEN)|]. unfold is_byte in *.
  replace (le_val [x_specified x]) with (x_specified x) by (cbn; lia).
  replace (le_val [driver x]) with (driver x) by (cbn; lia). destruct x. apply decodes_ret.
Qed.

Lemma codec_avrule r : avrule_ok r -> codec (avrule_write r) avrule_read r.
Proof.
  intros (H1 & H2 & H3 & H4 & H5 & H6 & H7). unfold avrule_write, avrule_read.
  eapply codec_bind; [apply (codec_words 2); [done|u32s]|].
  eapply codec_bind; [by apply codec_type_set|]. eapply codec_bind; [by apply codec_type_set|].
  eapply codec_bind; [apply (codec_words 1); [done|u32s]|]. cbn [buf lookup list_lookup default]. unfold id.
  eapply codec_bind.
  { apply (codec_list _ _ (fun c => c)). eapply Forall_impl; [exact H6|]. intros c [? ?].
    eapply codec_last; [apply (codec_words 2); [done|u32s]|]. destruct c. apply decodes_ret. }
  rewrite map_id. destruct r as [s f st tt ps [x|]]; cbn [av_xperms av_specified av_flags av_stypes av_ttypes av_perms] in *.
  - destruct H7 as (-> & ? & ? & ?). cbn [when].
    eapply codec_last; [eapply codec_last; [by apply codec_av_xperms|]|]; apply decodes_ret.
  - rewrite H7. cbn [when]. eapply codec_last; [apply codec_skip|]. apply decodes_ret.
Qed.

Lemma codec_avrules l : listed avrule_ok l -> codec (avrule_write_list l) avrule_read_list l.
Proof. apply codec_same, codec_avrule. Qed.

Lemma codec_role_trans_rules l : listed role_trans_rule_ok l ->
  codec (role_trans_rule_write l) role_trans_rule_read (map stored_role_trans (List.filter written_role_trans l)).
Proof.
  intros [Hl Hok]. apply (codec_counted written_role_trans
    (fun tr => role_set_write (trr_roles tr) ;; type_set_write (trr_types tr) ;;
       when new_role_trans (ebitmap_write (trr_classes tr)) ;; put_words [trr_new_role tr])); [|done|].
  - intros tr fp. unfold write_role_trans_rule, written_role_trans. by destruct new_role_trans, (only_process _).
  - eapply Forall_impl; [exact Hok|]. intros tr (H1 & H2 & H3 & H4) _.
    eapply codec_bind; [by apply codec_role_set|]. eapply codec_bind; [by apply codec_type_set|].
    eapply codec_bind; [apply codec_when; intros _; by apply codec_bitmap|].
    eapply codec_last; [apply (codec_words 1); [done|u32s]|]. apply decodes_ret.
Qed.

Lemma codec_role_allow_rules l : listed role_allow_rule_ok l -> codec (role_allow_rule_write l) role_allow_rule_read l.
Proof.
  apply codec_same. intros [r n] [H1 H2]. eapply codec_bind; [by apply codec_role_set|].
  eapply codec_last; [by apply codec_role_set|]. apply decodes_ret.
Qed.

Lemma codec_filename_trans_rules l : listed filename_trans_rule_ok l ->
  codec (filename_trans_rule_write l) filename_trans_rule_read l.
Proof.
  apply codec_same. intros [st tt tc n ot] (H1 & H2 & H3 & H4 & H5).
  cbn [ftr_name ftr_stypes ftr_ttypes ftr_tclass ftr_otype] in *.
  assert (is_u32 (blen n)) by (destruct H1; unfold is_u32; lia).
  eapply codec_bind; [apply (codec_words 1); [done|u32s]|]. eapply codec_bind; [apply codec_key; [by left|done]|].
  eapply codec_bind; [by apply codec_type_set|]. eapply codec_bind; [by apply codec_type_set|].
  eapply codec_last; [apply (codec_words 2); [done|u32s]|]. apply decodes_ret.
Qed.

Lemma codec_range_trans_rules l : listed range_trans_rule_ok l ->
  codec (range_trans_rule_write l) range_trans_rule_read (map stored_range_rule l).
Proof.
  apply codec_listed. intros rt (H1 & H2 & H3 & H4 & H5).
  eapply codec_bind; [by apply codec_type_set|]. eapply codec_bind; [by apply codec_type_set|].
  eapply codec_bind; [by apply codec_bitmap|]. eapply codec_last; [by apply codec_semantic_range|]. apply decodes_ret.
Qed.

Lemma codec_bitmaps l : Forall Ebitmap.wf l -> codec (each ebitmap_write l) (read_list (blen l) bitmap) l.
Proof.
  intros Hl. rewrite <- (map_id l) at 3. apply codec_list. eapply Forall_impl; [exact Hl|]. intros e. apply codec_bitmap.
Qed.

Lemma codec_scope_index n s : scope_index_ok n s ->
  codec (scope_index_write n s) (scope_index_read n) (stored_index n s).
Proof.
  intros (Hl & Hn & Hs & Hc & Hm). unfold scope_index_write, scope_index_read.
  assert (blen (take (Z.to_nat n) (si_scope s)) = n) as En by (unfold blen; rewrite length_take; lia).
  eapply codec_bind; [rewrite <- En at 2; apply codec_bitmaps; by apply Forall_take|].
  eapply codec_bind; [apply (codec_words 1); [done|u32s]|]. eapply codec_last; [by apply codec_bitmaps|]. apply decodes_ret.
Qed.

End Rules.
