(* ===== verification/Policyexpand.v ===== *)
(** Expansion of conditional rules (expand.c), and their format before
    [POLICYDB_VERSION_AVTAB] (write.c): in such a policy for the kernel a rule of an
    attribute is replaced by rules of its types, which are merged in a table of
    their own, before the list is written.

    The elements of the new list point to the nodes of the table, so that a rule that
    is merged changes in both.  Here the elements hold copies: the list and the table
    have the newest node of a rule first, and [poke_list] changes the copy of the
    node that the table's search found; [expand_cond_av_list_holds] shows that they
    stay the same nodes. *)
From S2P Require Import Prelude PolicyFile Ebitmap Hashtab Avtab Policydb Policyrw Policysyms Policyimage.

Definition MAX_AVTAB_SIZE := Z.shiftl MAX_AVTAB_HASH_BUCKETS 1.

(** An element of a list of rules points to a node of the table: it holds a copy of
    the node; [parse_context] is a field of the node. *)
Record cond_av := CondAv { cav_node : avtab_node; parse_context : bool }.

(** [type_val_to_struct] and [attr_type_map], by the value less 1. *)
Record type_arrays := TypeArrays { val_to_struct : list (option type_datum); attr_map : list ebitmap }.

(** The list and the table. *)
Abbreviation expansion := (list cond_av * avtab)%type.

(** The copy of [node] in the list, with its datum changed. *)
Fixpoint poke_list (node : avtab_node) (f : avtab_datum -> avtab_datum) (l : list cond_av) : list cond_av :=
  match l with
  | [] => []
  | nl :: l =>
      if bool_decide (cav_node nl = node)
      then CondAv (AvtabNode (key node) (f (datum node))) (parse_context nl) :: l
      else nl :: poke_list node f l
  end.

Definition expand_cond_insert (s : expansion) (k : avtab_key) (d : avtab_datum) : Z * expansion :=
  let '(l, expa) := s in
  let insert :=
    match avtab_insert_nonunique expa k d with
    | (None, expa) => (-1, (l, expa))
    | (Some node, expa) => (0, (CondAv node true :: l, expa))
    end in
  match avtab_search_node expa k with
  | Some (node :: _) =>
      if negb (Z.land (specified k) AVTAB_ENABLED =? Z.land (specified (key node)) AVTAB_ENABLED) then insert
      else
        let merge op :=
          let f avd := AvtabDatum (op (data avd) (data d)) (xperms avd) in
          (0, (poke_list node f l, avtab_poke expa k f)) in
        let kind := Z.land (specified k) (Z.lnot AVTAB_ENABLED) in
        if (kind =? AVTAB_ALLOWED) || (kind =? AVTAB_AUDITALLOW) then merge Z.lor
        else if kind =? AVTAB_AUDITDENY then merge Z.land
        else (-1, s)
  | _ => insert
  end.

Fixpoint insert_keys (ks : list avtab_key) (d : avtab_datum) (s : expansion) : Z * expansion :=
  match ks with
  | [] => (0, s)
  | k :: ks =>
      let '(rc, s) := expand_cond_insert s k d in
      if negb (rc =? 0) then (-1, s) else insert_keys ks d s
  end.

Section Expand.
Context (ta : type_arrays).

(** [a[v - 1]]; [None] is out of range. *)
Definition of_value {A} (a : list A) (v : Z) : option A :=
  if 1 <=? v then a !! Z.to_nat (v - 1) else None.

(** [t && t->flavor != TYPE_ATTRIB] *)
Definition individual (t : option type_datum) : bool :=
  match t with Some t => negb (flavor t =? TYPE_ATTRIB) | None => false end.

(** The values of the types of an attribute. *)
Definition types_of (v : Z) : option (list Z) :=
  e ← of_value (attr_map ta) v;
  js ← ebitmap_for_each_positive_bit e;
  Some (map (fun j => u16 (j + 1)) js).

(** The keys that take the place of [k]. *)
Definition expanded_keys (k : avtab_key) : option (list avtab_key) :=
  stype ← of_value (val_to_struct ta) (source_type k);
  ttype ← of_value (val_to_struct ta) (target_type k);
  let newkey src tgt := AvtabKey src tgt (target_class k) (specified k) in
  if individual stype && individual ttype then Some [k]
  else if individual stype then
    tattr ← types_of (target_type k);
    Some (map (newkey (source_type k)) tattr)
  else if individual ttype then
    sattr ← types_of (source_type k);
    Some (map (fun i => newkey i (target_type k)) sattr)
  else
    sattr ← types_of (source_type k);
    match sattr with
    | [] => Some []
    | _ => tattr ← types_of (target_type k); Some (concat (map (fun i => map (newkey i) tattr) sattr))
    end.

Definition expand_cond_av_node (node : avtab_node) (s : expansion) : option (Z * expansion) :=
  ks ← expanded_keys (key node);
  Some (insert_keys ks (datum node) s).

Fixpoint expand_nodes (l : list cond_av) (s : expansion) : option (Z * expansion) :=
  match l with
  | [] => Some (0, s)
  | cur :: l =>
      '(rc, s) ← expand_cond_av_node (cav_node cur) s;
      if negb (rc =? 0) then Some (rc, s) else expand_nodes l s
  end.

(** [expa] was just initialised. *)
Definition expand_cond_av_list (l : list cond_av) (expa : avtab) : option (Z * expansion) :=
  let '(rc, expa) := avtab_alloc expa MAX_AVTAB_SIZE in
  if negb (rc =? 0) then Some (-1, ([], expa)) else expand_nodes l ([], expa).

End Expand.

(** [avtab_write_item] in the original format, without merging: six words, the
    first of which counts the others. *)
Definition avtab_write_old_item (cur : avtab_node) : writer :=
  let k := key cur in
  let val := Z.lor (Z.land (specified k) (Z.lnot AVTAB_ENABLED))
                   (if bits (specified k) AVTAB_ENABLED then AVTAB_ENABLED_OLD else 0) in
  if negb (bits val (Z.lor AVTAB_AV AVTAB_TYPE)) then fun fp => (POLICYDB_ERROR, fp)
  else if bits val AVTAB_AV && bits val AVTAB_TYPE then fun fp => (POLICYDB_ERROR, fp)
  else put_words [5; source_type k; target_type k; target_class k; val; data (datum cur)].

(** ** The list and the table hold the same nodes *)

Definition expansion_holds (s : expansion) : Prop :=
  (exists t, awf s.2 t) /\ aentries s.2 ≡ₚ map cav_node s.1 /\ Forall (fun c => parse_context c = true) s.1.

Lemma poke_list_nodes n f l : n ∈ map cav_node l ->
  exists q, map cav_node l ≡ₚ n :: q /\ map cav_node (poke_list n f l) ≡ₚ AvtabNode (key n) (f (datum n)) :: q.
Proof.
  induction l as [|c l IH]; intros Hn; [by apply elem_of_nil in Hn|]. cbn [poke_list map].
  destruct (bool_decide_reflect (cav_node c = n)) as [<-|Hne]; [by exists (map cav_node l)|].
  cbn [map] in Hn. apply elem_of_cons in Hn as [->|Hn]; [done|]. destruct (IH Hn) as (q & H1 & H2).
  exists (cav_node c :: q). cbn [map]. by rewrite H1, H2, !(Permutation_swap (cav_node c)).
Qed.

Lemma poke_list_context n f l : Forall (fun c => parse_context c = true) l ->
  Forall (fun c => parse_context c = true) (poke_list n f l).
Proof.
  induction 1 as [|c l Hc Hl IH]; [done|]. cbn [poke_list]. case_bool_decide; by apply Forall_cons_2.
Qed.

(** The node a search finds is the one that is changed. *)
Lemma poke_found h t k f n q : awf h t -> avtab_search_node h k = Some (n :: q) ->
  exists r, aentries h ≡ₚ n :: r /\ aentries (avtab_poke h k f) ≡ₚ AvtabNode (key n) (f (datum n)) :: r /\
    exists t', awf (avtab_poke h k f) t'.
Proof.
  intros Hw Hs. assert (Hs' : avtab_search h k <> None).
  { unfold avtab_search, avtab_search_node in *. rewrite (awf_table h t Hw) in *. cbn [mbind option_bind] in *. by rewrite Hs. }
  destruct (avtab_poke_ok h t k f Hw Hs') as (l1 & n' & l2 & E & Hl1 & Hn' & Hw' & E' & _).
  pose proof (search_node_ok h t k (strip_enabled (specified k)) Hw) as Hh.
  unfold avtab_search_node in Hs. rewrite (awf_table h t Hw) in Hs. cbn [mbind option_bind] in Hs. rewrite Hs in Hh.
  destruct Hh as (n0 & q0 & [= <- <-] & _ & _ & Hh). rewrite E, (hits_head _ _ l1 n' l2) in Hh by done.
  injection Hh as -> _. exists (l1 ++ l2). rewrite E, E', <- !Permutation_middle. done.
Qed.

Lemma expand_cond_insert_holds s k d : expansion_holds s -> expansion_holds (snd (expand_cond_insert s k d)).
Proof.
  destruct s as [l expa]. intros ((t & Hw) & Hp & Hc). cbn [fst snd] in *.
  assert (Hnew : expansion_holds (snd (match avtab_insert_nonunique expa k d with
       | (None, expa) => (-1, (l, expa)) | (Some node, expa) => (0, (CondAv node true :: l, expa)) end))).
  { destruct (avtab_insert_nonunique_spec expa t k d Hw) as (h' & -> & Hw' & Hp' & _).
    split; [exact Hw'|]. cbn [fst snd map cav_node]. split; [by rewrite Hp', Hp|by apply Forall_cons_2]. }
  unfold expand_cond_insert. destruct (avtab_search_node expa k) as [[|n q]|] eqn:Es; [exact Hnew| |exact Hnew].
  destruct (negb _); [exact Hnew|].
  assert (Hm : forall f, expansion_holds (poke_list n f l, avtab_poke expa k f)).
  { intros f. destruct (poke_found expa t k f n q Hw Es) as (r & H1 & H2 & H3). split; [exact H3|]. cbn [fst snd].
    split; [|by apply poke_list_context].
    destruct (poke_list_nodes n f l) as (q' & H4 & H5).
    { rewrite <- Hp, H1. by left. }
    rewrite H2, H5. apply Permutation_cons; [done|]. apply (Permutation_cons_inv (a := n)). by rewrite <- H1, Hp, H4. }
  destruct (_ || _); [apply Hm|]. destruct (_ =? _); [apply Hm|]. by split; [exists t|].
Qed.

Lemma insert_keys_holds ks d s : expansion_holds s -> expansion_holds (snd (insert_keys ks d s)).
Proof.
  revert s. induction ks as [|k ks IH]; intros s Hs; [done|]. cbn [insert_keys].
  pose proof (expand_cond_insert_holds s k d Hs) as Hk. destruct (expand_cond_insert s k d) as [rc s'].
  destruct (negb (rc =? 0)); [done|]. by apply IH.
Qed.

(** The new list holds the rules of the table it was expanded into, each of which is
    to be written. *)
Lemma expand_cond_av_list_holds ta l expa rc s :
  expand_cond_av_list ta l expa = Some (rc, s) -> expansion_holds s.
Proof.
  unfold expand_cond_av_list.
  destruct (alloc_ok expa MAX_AVTAB_SIZE) as (h & t & j & Ea & Hw & He & _); [by vm_compute|]. rewrite Ea. cbn [negb].
  change (negb (0 =? 0)) with false. cbn iota.
  assert (Hs : expansion_holds ([], h)) by (split; [by exists t|cbn [fst snd]; by rewrite He]). revert Hs.
  generalize ([] : list cond_av, h). induction l as [|c l IH]; intros s0 Hs; cbn [expand_nodes]; [by intros [= _ <-]|].
  unfold expand_cond_av_node. destruct (expanded_keys ta (key (cav_node c))) as [ks|]; [|done]. cbn [mbind option_bind].
  pose proof (insert_keys_holds ks (datum (cav_node c)) s0 Hs) as Hk.
  destruct (insert_keys ks _ s0) as [rc' s']. destruct (negb (rc' =? 0)); [by intros [= _ <-]|]. by apply IH.
Qed.

(** *** An attribute of the types 2 and 3 *)

Definition sample_arrays : type_arrays :=
  TypeArrays [Some (TypeDatum 1 1 TYPE_ATTRIB ebitmap_init 0 0); Some (TypeDatum 2 1 0 ebitmap_init 0 0);
              Some (TypeDatum 3 1 0 ebitmap_init 0 0)]
    [Ebitmap [Ebitmap.Node 0 6] 64; Ebitmap [Ebitmap.Node 0 2] 64; Ebitmap [Ebitmap.Node 0 4] 64].

(** Two rules of the attribute, and one of type 3, which is merged with that of the
    attribute. *)
Example expand_merges :
  let node src kind d := CondAv (AvtabNode (AvtabKey src 2 7 kind) (AvtabDatum d None)) true in
  option_map (fun r => (r.1, r.2.1))
    (expand_nodes sample_arrays [node 1 AVTAB_ALLOWED 1; node 1 AVTAB_AUDITALLOW 8; node 3 AVTAB_ALLOWED 2]
       ([], snd (avtab_alloc (Avtab None 0 0 0) 4))) =
  Some (0, [node 3 AVTAB_AUDITALLOW 8; node 2 AVTAB_AUDITALLOW 8; node 3 AVTAB_ALLOWED 3; node 2 AVTAB_ALLOWED 1]).
Proof. vm_compute. reflexivity. Qed.
