(* ===== verification/Policycond.v ===== *)
(** Conditional rules on disk (conditional.c, write.c): the nodes of a policy for
    the kernel, whose rules go into a table of their own that is checked for
    conflicts while it is read, and those of modules.  The rules of old policies for
    the kernel are expanded (Policyexpand) before they are written. *)
From S2P Require Import Prelude PolicyFile Ebitmap Hashtab Avtab Policydb Policyrw Policysyms Policyimage Policyocon Policyrules Policyexpand.

Definition COND_LAST := 7.

Record cond_expr := CondExpr { ce_type : Z; ce_bool : Z }.

Record cond_node := CondNode {
  cur_state : Z; c_exprs : list cond_expr; true_list : list cond_av; false_list : list cond_av;
  avtrue_list : list avrule; avfalse_list : list avrule; cond_flags : Z }.

(** [avtab_android_m_compat] and [te_cond_avtab] *)
Abbreviation cond_state := (bool * avtab)%type.

(** [ta]: the arrays by which the rules of old policies are expanded. *)
Section Conditionals.
Context (p : policy_format) (target_platform_ : Z) (ta : type_arrays).

(** ** Reading *)

(** What [avtab_read_item] makes of the file, with [avtab_android_m_compat] and the
    data of [insertf]; [junk] is what its buffer held. *)
Definition av_item {A} (insertf : A -> avtab_key -> avtab_datum -> Z * A) (junk : list Z) (s : bool * A) : reader (bool * A) :=
  fun fp =>
    '(rc, compat, fp, a) ← avtab_read_item insertf s.1 junk fp (policyvers p) s.2;
    if rc =? 0 then Some ((compat, a), fp) else None.

(** Is a type rule in conflict with the others?  [other] is the list of the other
    branch, NULL when it has no rules. *)
Definition type_conflict (te te_cond : avtab) (other : list avtab_node) (k : avtab_key) : bool :=
  if bool_decide (avtab_search te k <> None) then true
  else
    match other with
    | [] => bool_decide (avtab_search te_cond k <> None)
    | _ =>
        match avtab_search_node te_cond k with
        | None => false
        | Some node_ptr =>
            if bool_decide (avtab_search_node_next node_ptr (specified k) <> None) then true
            else negb (match node_ptr with n :: _ => bool_decide (n ∈ other) | [] => false end)
        end
    end.

(** The table and the list, up to its tail. *)
Definition cond_insertf (te : avtab) (other : list avtab_node) (s : avtab * list avtab_node) (k : avtab_key) (d : avtab_datum)
    : Z * (avtab * list avtab_node) :=
  let '(te_cond, head) := s in
  if bits (specified k) AVTAB_TYPE && type_conflict te te_cond other k then (-1, (te_cond, []))
  else
    match avtab_insert_nonunique te_cond k d with
    | (None, te_cond) => (-1, (te_cond, []))
    | (Some node_ptr, te_cond) => (0, (te_cond, head ++ [node_ptr]))
    end.

Definition cond_read_av_list (junk : list Z) (te : avtab) (other : list cond_av) (st : cond_state)
    : reader (list cond_av * cond_state) :=
  ws ← words 1;
  if buf ws 0 =? 0 then mret ([], st)
  else
    '(compat, (te_cond, head)) ←
      times (Z.to_nat (buf ws 0)) (av_item (cond_insertf te (map cav_node other)) junk) (st.1, (st.2, []));
    mret (map (fun n => CondAv n true) head, (compat, te_cond)).

Definition expr_isvalid (nbools : Z) (e : cond_expr) : bool :=
  negb ((ce_type e <=? 0) || (COND_LAST <? ce_type e)) && negb (nbools <? ce_bool e).

Definition read_cond_expr (nbools : Z) : reader cond_expr :=
  ws ← words 2;
  let e := CondExpr (buf ws 0) (buf ws 1) in
  _ ← ensure (expr_isvalid nbools e);
  mret e.

(** The number of expressions is an [int]. *)
Definition cond_read_node (junk : list Z) (nbools : Z) (te : avtab) (st : cond_state) : reader (cond_node * cond_state) :=
  ws ← words 1;
  let state := s32 (buf ws 0) in
  ws ← words 1;
  es ← read_list (s32 (buf ws 0)) (read_cond_expr nbools);
  '(tl, fl, avt, avf, st) ←
    (if is_kern p then
       '(tl, st) ← cond_read_av_list junk te [] st;
       '(fl, st) ← cond_read_av_list junk te tl st;
       mret (tl, fl, [], [], st)
     else
       avt ← avrule_read_list p target_platform_;
       avf ← avrule_read_list p target_platform_;
       mret ([], [], avt, avf, st));
  fl_ ← (if module_at_least p MOD_POLICYDB_VERSION_TUNABLE_SEP then words 1 else mret [0]);
  mret (CondNode state es tl fl avt avf (buf fl_ 0), st).

Definition cond_read_list (junk : list Z) (nbools : Z) (te : avtab) (st : cond_state) : reader (list cond_node * cond_state) :=
  ws ← words 1;
  let '(rc, te_cond) := avtab_alloc st.2 (nel te) in
  _ ← ensure (rc =? 0);
  times (Z.to_nat (s32 (buf ws 0)))
    (fun s => '(n, st) ← cond_read_node junk nbools te s.2; mret (s.1 ++ [n], st)) ([], (st.1, te_cond)).

(** ** Writing *)

Definition oldvers : bool := is_kern p && (policyvers p <? POLICYDB_VERSION_AVTAB).

(** [avtab_write_item], without merging. *)
Definition write_av (compat : bool) (cur : avtab_node) : writer :=
  if oldvers then avtab_write_old_item cur
  else fun fp =>
    match avtab_write_item (policyvers p) (target_platform_ =? SEPOL_TARGET_SELINUX) compat cur fp with
    | Some r => r
    | None => stuck fp
    end.

Definition write_av_list (compat : bool) (l : list cond_av) : writer :=
  let len := blen (List.filter parse_context l) in
  put_words [len] ;;
  when (negb (len =? 0)) (each (fun c => if parse_context c then write_av compat (cav_node c) else skip) l).

Definition cond_write_av_list (compat : bool) (l : list cond_av) : writer :=
  if oldvers then
    let expa := snd (avtab_init (Avtab None 0 0 0)) in
    match expand_cond_av_list ta l expa with
    | None => stuck
    | Some (rc, (new_list, _)) =>
        if negb (rc =? 0) then fun fp => (POLICYDB_ERROR, fp) else write_av_list compat new_list
    end
  else write_av_list compat l.

Definition cond_write_node (compat : bool) (n : cond_node) : writer :=
  put_words [u32 (cur_state n)] ;;
  put_words [blen (c_exprs n)] ;;
  each (fun e => put_words [ce_type e; ce_bool e]) (c_exprs n) ;;
  (if is_kern p then
     cond_write_av_list compat (true_list n) ;;
     cond_write_av_list compat (false_list n)
   else
     avrule_write_list p target_platform_ (avtrue_list n) ;;
     avrule_write_list p target_platform_ (avfalse_list n)) ;;
  when (module_at_least p MOD_POLICYDB_VERSION_TUNABLE_SEP) (put_words [cond_flags n]).

Definition cond_write_list (compat : bool) (l : list cond_node) : writer :=
  put_words [blen l] ;;
  each (cond_write_node compat) l.

(** ** Rules without conflicts *)

(** The rules of a list that are written. *)
Definition written_rules (l : list cond_av) : list avtab_node := map cav_node (List.filter parse_context l).

(** May a rule follow the rules [seen]?  A type rule must be the only one of its
    kind for its key, but for one of the true branch when it is in the false one. *)
Definition compatible (te : list avtab_node) (other seen : list avtab_node) (n : avtab_node) : Prop :=
  let same_rules := hits (key n) (strip_enabled (specified (key n))) in
  bits (specified (key n)) AVTAB_TYPE = true ->
  same_rules te = [] /\ (same_rules seen = [] \/ exists m, same_rules seen = [m] /\ m ∈ other).

Fixpoint rules_compatible (te other seen l : list avtab_node) : Prop :=
  match l with
  | [] => True
  | n :: l => compatible te other seen n /\ rules_compatible te other (n :: seen) l
  end.

Fixpoint conds_compatible (te seen : list avtab_node) (l : list cond_node) : Prop :=
  match l with
  | [] => True
  | c :: l =>
      let t := written_rules (true_list c) in
      let f := written_rules (false_list c) in
      rules_compatible te [] seen t /\ rules_compatible te t (rev t ++ seen) f /\
      conds_compatible te (rev f ++ rev t ++ seen) l
  end.

End Conditionals.

(** ** The checks against conflicts *)

Lemma avtab_search_hits h t k : awf h t ->
  bool_decide (avtab_search h k <> None) = negb (bool_decide (hits k (strip_enabled (specified k)) (aentries h) = [])).
Proof.
  intros Hw. unfold avtab_search. rewrite (awf_table h t Hw). cbn [mbind option_bind].
  pose proof (search_node_ok h t k (strip_enabled (specified k)) Hw) as Hs.
  destruct (search_chain k _ _) as [r|].
  - destruct Hs as (n & q & -> & _ & _ & ->). by rewrite bool_decide_true, bool_decide_false.
  - by rewrite Hs, bool_decide_false, bool_decide_true by naive_solver.
Qed.

Lemma hits_perm k spec l l' : l ≡ₚ l' -> hits k spec l ≡ₚ hits k spec l'.
Proof. intros Hp. unfold hits. by rewrite Hp. Qed.

Lemma hits_perm_nil k spec l l' : l ≡ₚ l' -> hits k spec l = [] -> hits k spec l' = [].
Proof. intros Hp E. apply (hits_perm k spec) in Hp. rewrite E in Hp. by apply Permutation_nil_l in Hp. Qed.

(** A rule that may follow the others is not in conflict with them. *)
Lemma no_conflict te t te_cond tc other seen n :
  awf te t -> awf te_cond tc -> aentries te_cond ≡ₚ seen -> compatible (aentries te) other seen n ->
  bits (specified (key n)) AVTAB_TYPE && type_conflict te te_cond other (key n) = false.
Proof.
  intros Hw Hwc Hp Hc. destruct (bits (specified (key n)) AVTAB_TYPE) eqn:Eb; [|done]. cbn [andb].
  destruct (Hc Eb) as [Hte Hseen]. unfold type_conflict.
  rewrite (avtab_search_hits te t) by done. rewrite (bool_decide_true _ Hte). cbn [negb].
  pose proof (search_node_ok te_cond tc (key n) (strip_enabled (specified (key n))) Hwc) as Hs.
  unfold avtab_search_node. rewrite (awf_table te_cond tc Hwc). cbn [mbind option_bind].
  destruct other as [|o other].
  - rewrite (avtab_search_hits te_cond tc) by done. destruct Hseen as [E|(m & _ & Hm)]; [|by apply elem_of_nil in Hm].
    rewrite bool_decide_true; [done|]. eapply hits_perm_nil; [|exact E]. by symmetry.
  - destruct (search_chain (key n) _ _) as [r|]; [|done]. destruct Hs as (n0 & q & -> & Hn0 & Hq & Hh).
    apply (hits_perm (key n) (strip_enabled (specified (key n)))) in Hp. rewrite Hh in Hp.
    destruct Hseen as [E|(m & E & Hm)]; rewrite E in Hp; [by apply Permutation_nil_r in Hp|].
    symmetry in Hp. apply Permutation_length_1_inv in Hp. injection Hp as -> Hq0. cbn [avtab_search_node_next].
    unfold hit in Hn0. apply andb_prop in Hn0 as [Hsame _].
    pose proof (search_chain_spec (key m) (strip_enabled (specified (key n))) q (asorted_tail _ _ Hq)) as Hs2.
    destruct (search_chain (key m) _ q) as [r|].
    + destruct Hs2 as (p1 & n1 & q1 & -> & -> & Hn1 & Hp1). exfalso.
      rewrite (hits_same (key n) (key m)) in Hq0 by done. by rewrite hits_head in Hq0.
    + rewrite bool_decide_false by naive_solver. by rewrite (bool_decide_true _ Hm).
Qed.

(** ** Round trips *)

(** [put], in any file. *)
Lemma put_cases d size n fp k : blen d = size * n -> 0 < n ->
  put d size n fp k = if fits d fp then k (wrote d fp) else Some (-1, fp).
Proof.
  intros Hd Hn. unfold put. rewrite put_entry_cases by done. destruct (fits d fp); [by rewrite Z.eqb_refl|].
  by replace (0 =? n) with false by lia.
Qed.

(** A writer of pieces: the piece [e], and what comes after it. *)
Definition continues (w : policy_file -> option (Z * policy_file)) (e : bytes) : Prop :=
  forall fp, 0 <= PolicyFile.len fp ->
    if fits e fp then w fp = Some (POLICYDB_SUCCESS, wrote e fp) else exists fp', w fp = Some (POLICYDB_ERROR, fp').

Lemma continues_put d size n k e : blen d = size * n -> 0 < n -> continues k e -> continues (fun fp => put d size n fp k) (d ++ e).
Proof.
  intros Hd Hn Hk fp Hfp. rewrite put_cases by done. rewrite fits_app, wrote_app. destruct (fits d fp) eqn:E; [|by eexists].
  cbn [andb]. apply Hk. by apply wrote_len.
Qed.

Lemma continues_done : continues (fun fp => Some (0, fp)) [].
Proof.
  intros fp Hn. rewrite (fits_nil fp Hn). do 2 f_equal. pose proof (writes_skip fp Hn) as Hs. rewrite (fits_nil fp Hn) in Hs.
  unfold skip in Hs. congruence.
Qed.

Lemma continues_last d size n : blen d = size * n -> 0 < n -> continues (fun fp => put d size n fp (fun fp => Some (0, fp))) d.
Proof.
  intros Hd Hn. pose proof (continues_put d size n _ _ Hd Hn continues_done) as Hc. by rewrite app_nil_r in Hc.
Qed.

Lemma writes_continues w e : continues w e -> writes (fun fp => match w fp with Some r => r | None => stuck fp end) e.
Proof. intros Hw fp Hn. specialize (Hw fp Hn). destruct (fits e fp); [by rewrite Hw|]. by destruct Hw as [fp' ->]. Qed.

Section Codec.
Context (p : policy_format) (target_platform_ : Z) (ta : type_arrays).

Lemma app_head (a b c d e : bytes) : a ++ b ++ c ++ d ++ e = (a ++ b ++ c ++ d) ++ e.
Proof. by rewrite <- !app_assoc. Qed.

Lemma current_format : POLICYDB_VERSION_AVTAB <= policyvers p -> oldvers p = false.
Proof. intros Hv. unfold oldvers. replace (policyvers p <? _) with false by lia. apply andb_false_r. Qed.

Lemma writes_av n : POLICYDB_VERSION_AVTAB <= policyvers p -> target_platform_ = SEPOL_TARGET_SELINUX ->
  writable (policyvers p) n -> writes (write_av p target_platform_ false n) (enc_node n).
Proof.
  intros Hnew -> Hw. unfold write_av. rewrite (current_format Hnew). apply writes_continues. pose proof (w_datum _ _ Hw) as Hd.
  unfold avtab_write_item, enc_node. rewrite app_head. cbn [andb negb mbind option_bind].
  change (SEPOL_TARGET_SELINUX =? SEPOL_TARGET_SELINUX) with true. cbn [negb andb].
  apply continues_put; [by rewrite !blen_app, !blen_le_bytes|lia|].
  destruct (bits (specified (key n)) AVTAB_XPERMS) eqn:Ex.
  - destruct Hd as (Hv & _ & x & E & _ & _ & Hl & _). rewrite E. cbn [mbind option_bind].
    replace (policyvers p <? POLICYDB_VERSION_XPERMS_IOCTL) with false by lia. cbn [andb].
    apply continues_put; [by rewrite blen_le_bytes|lia|]. apply continues_put; [by rewrite blen_le_bytes|lia|].
    apply continues_last; [rewrite concat_words; unfold blen; rewrite Hl; lia|lia].
  - rewrite andb_false_r. apply continues_last; [by rewrite blen_le_bytes|lia].
Qed.

(** The rules of a policy for the kernel. *)
Section Kernel.
Context (te : avtab) (te_wf : exists t, awf te t) (junk : list Z).
Context (new_format : POLICYDB_VERSION_AVTAB <= policyvers p) (selinux : target_platform_ = SEPOL_TARGET_SELINUX).

(** A table of conditional rules that holds the rules [seen]. *)
Definition cond_holds (h : avtab) (seen : list avtab_node) : Prop := (exists t, awf h t) /\ aentries h ≡ₚ seen.

Lemma codec_av_item other n seen te_cond head :
  writable (policyvers p) n -> cond_holds te_cond seen -> compatible (aentries te) other seen n ->
  exists te_cond', codec (write_av p target_platform_ false n)
      (av_item p (cond_insertf te other) junk (false, (te_cond, head))) (false, (te_cond', head ++ [n])) /\
    cond_holds te_cond' (n :: seen).
Proof using te_wf new_format selinux.
  intros Hn [[tc Hwc] Hp] Hc. destruct te_wf as [t Hw].
  destruct (avtab_insert_nonunique_spec te_cond tc (key n) (datum n) Hwc) as (te_cond' & Ei & Hw' & Hp' & _).
  rewrite (writable_node _ n Hn) in Ei, Hp'. exists te_cond'. split.
  - exists (enc_node n). split; [by apply writes_av|]. intros rest. unfold av_item, avtab_read_item.
    replace (policyvers p <? POLICYDB_VERSION_AVTAB) with false by lia.
    cbn [fst snd]. rewrite (read_new_ok _ _ n) by done. unfold cond_insertf.
    rewrite (no_conflict te t te_cond tc other seen n), Ei by done. done.
  - split; [done|]. by rewrite Hp', Hp.
Qed.

Lemma codec_av_items other l seen te_cond head :
  Forall (writable (policyvers p)) l -> cond_holds te_cond seen -> rules_compatible (aentries te) other seen l ->
  exists te_cond', codec (each (write_av p target_platform_ false) l)
      (times (length l) (av_item p (cond_insertf te other) junk) (false, (te_cond, head))) (false, (te_cond', head ++ l)) /\
    cond_holds te_cond' (rev l ++ seen).
Proof using te_wf new_format selinux.
  intros Hl. revert seen te_cond head. induction Hl as [|n l Hn Hl IH]; intros seen te_cond head Hh Hc.
  { exists te_cond. rewrite app_nil_r. split; [exact (codec_skip _)|done]. }
  destruct Hc as [Hc Hcs]. destruct (codec_av_item other n seen te_cond head Hn Hh Hc) as (h1 & Hd1 & Hh1).
  destruct (IH (n :: seen) h1 (head ++ [n]) Hh1 Hcs) as (h2 & Hd2 & Hh2). exists h2.
  rewrite <- app_assoc in Hd2. cbn [rev]. rewrite <- app_assoc. split; [|exact Hh2].
  cbn [each length times]. by eapply codec_bind.
Qed.

Lemma codec_av_list other l seen te_cond :
  listed (writable (policyvers p)) (written_rules l) -> cond_holds te_cond seen ->
  rules_compatible (aentries te) (map cav_node other) seen (written_rules l) ->
  exists te_cond', codec (cond_write_av_list p target_platform_ ta false l) (cond_read_av_list p junk te other (false, te_cond))
      (map (fun n => CondAv n true) (written_rules l), (false, te_cond')) /\
    cond_holds te_cond' (rev (written_rules l) ++ seen).
Proof using te_wf new_format selinux.
  intros [Hl Hw] Hh Hc. unfold cond_write_av_list, write_av_list, cond_read_av_list.
  rewrite (current_format new_format).
  assert (blen (List.filter parse_context l) = blen (written_rules l)) as -> by (unfold written_rules, blen; by rewrite length_map).
  destruct (codec_av_items _ _ _ _ [] Hw Hh Hc) as (te' & Hd & Hh').
  destruct (Z.eqb_spec (blen (written_rules l)) 0) as [E|E].
  - assert (written_rules l = []) as -> by (destruct (written_rules l); [done|unfold blen in E; cbn in E; lia]).
    exists te_cond. split; [|done]. eapply codec_bind; [apply (codec_words 1); [done|u32s]|]. cbn. apply codec_skip.
  - exists te'. split; [|done]. eapply codec_bind; [apply (codec_words 1); [done|u32s]|].
    cbn [buf lookup list_lookup default]. unfold id. rewrite (proj2 (Z.eqb_neq _ _) E). cbn [negb when].
    unfold blen. rewrite Nat2Z.id. apply (codec_last _ _ _ (false, (te', [] ++ written_rules l))); [|apply decodes_ret].
    eapply codec_ext; [|exact Hd]. intros fp. rewrite each_kept. unfold written_rules.
    clear. revert fp. induction (List.filter parse_context l) as [|c k IH]; intros fp; [done|]. cbn [each map].
    unfold andthen. destruct (write_av _ _ _ _ fp) as [rc fp']. case_match; [apply IH|done].
Qed.

End Kernel.

(** A node that can be written. *)
Definition cond_expr_ok (nbools : Z) (e : cond_expr) : Prop :=
  is_u32 (ce_type e) /\ is_u32 (ce_bool e) /\ expr_isvalid nbools e = true.

Definition cond_node_ok (nbools : Z) (n : cond_node) : Prop :=
  - 2 ^ 31 <= cur_state n < 2 ^ 31 /\ blen (c_exprs n) < 2 ^ 31 /\ Forall (cond_expr_ok nbools) (c_exprs n) /\
  is_u32 (cond_flags n) /\
  if is_kern p then listed (writable (policyvers p)) (written_rules (true_list n)) /\
                    listed (writable (policyvers p)) (written_rules (false_list n))
  else listed (avrule_ok p target_platform_) (avtrue_list n) /\ listed (avrule_ok p target_platform_) (avfalse_list n).

(** What is read of it. *)
Definition stored_av (l : list cond_av) : list cond_av := map (fun n => CondAv n true) (written_rules l).

Definition stored_cond (n : cond_node) : cond_node :=
  CondNode (cur_state n) (c_exprs n)
    (if is_kern p then stored_av (true_list n) else []) (if is_kern p then stored_av (false_list n) else [])
    (if is_kern p then [] else avtrue_list n) (if is_kern p then [] else avfalse_list n)
    (if module_at_least p MOD_POLICYDB_VERSION_TUNABLE_SEP then cond_flags n else 0).

(** All the rules of a list of nodes. *)
Definition cond_rules (l : list cond_node) : list avtab_node :=
  concat (map (fun c => written_rules (true_list c) ++ written_rules (false_list c)) l).

Lemma s32_u32 x : - 2 ^ 31 <= x < 2 ^ 31 -> is_u32 (u32 x) /\ s32 (u32 x) = x.
Proof.
  intros Hx. split; [apply u32_range|]. unfold s32. rewrite u32_u32.
  destruct (Z.ltb_spec (u32 x) (2 ^ 31)); unfold u32 in *; pow2; zlia.
Qed.

Lemma s32_blen {A} (l : list A) : blen l < 2 ^ 31 -> s32 (blen l) = blen l /\ is_u32 (blen l).
Proof.
  intros Hl. pose proof (blen_nonneg l). split; [|unfold is_u32; lia]. unfold s32.
  rewrite u32_small by (unfold is_u32; lia). by replace (blen l <? 2 ^ 31) with true by lia.
Qed.

Lemma codec_cond_exprs nbools l : blen l < 2 ^ 31 -> Forall (cond_expr_ok nbools) l ->
  codec (each (fun e => put_words [ce_type e; ce_bool e]) l) (read_list (blen l) (read_cond_expr nbools)) l.
Proof.
  intros Hl Hok. rewrite <- (map_id l) at 3. apply codec_list. eapply Forall_impl; [exact Hok|].
  intros [t b] (H1 & H2 & H3). eapply codec_last; [apply (codec_words 2); [done|u32s]|].
  apply decodes_ensure; [exact H3|]. apply decodes_ret.
Qed.

(** The head and the flags of a node, around its rules. *)
Lemma codec_cond_node nbools te junk n st st' w :
  cond_node_ok nbools n ->
  codec w
    (if is_kern p then
       '(tl, st) ← cond_read_av_list p junk te [] st;
       '(fl, st) ← cond_read_av_list p junk te tl st;
       mret (tl, fl, [], [], st)
     else
       avt ← avrule_read_list p target_platform_;
       avf ← avrule_read_list p target_platform_;
       mret ([], [], avt, avf, st))
    (true_list (stored_cond n), false_list (stored_cond n), avtrue_list (stored_cond n), avfalse_list (stored_cond n), st') ->
  codec
    (put_words [u32 (cur_state n)] ;;
     put_words [blen (c_exprs n)] ;;
     each (fun e => put_words [ce_type e; ce_bool e]) (c_exprs n) ;;
     w ;;
     when (module_at_least p MOD_POLICYDB_VERSION_TUNABLE_SEP) (put_words [cond_flags n]))
    (cond_read_node p target_platform_ junk nbools te st) (stored_cond n, st').
Proof.
  intros (H1 & H2 & H3 & H4 & _) Hw. destruct (s32_u32 _ H1) as [Hu Es]. destruct (s32_blen _ H2) as [El Hl].
  eapply codec_bind; [apply (codec_words 1); [done|u32s]|]. eapply codec_bind; [apply (codec_words 1); [done|u32s]|].
  cbn [buf lookup list_lookup default]. unfold id. rewrite Es, El.
  eapply codec_bind; [by apply codec_cond_exprs|]. eapply codec_bind; [exact Hw|]. cbn iota.
  eapply codec_last; [apply codec_when; intros _; apply (codec_words 1); [done|u32s]|].
  unfold stored_cond. cbn [true_list false_list avtrue_list avfalse_list].
  destruct (module_at_least p MOD_POLICYDB_VERSION_TUNABLE_SEP); apply decodes_ret.
Qed.

Lemma perm_rules {A} (c f t s : list A) : c ++ f ++ t ++ s ≡ₚ ((t ++ f) ++ c) ++ s.
Proof.
  rewrite !app_assoc. apply Permutation_app_tail.
  by rewrite (Permutation_app_comm (c ++ f) t), (Permutation_app_comm c f), app_assoc.
Qed.

Section KernelNodes.
Context (te : avtab) (te_wf : exists t, awf te t) (junk : list Z) (nbools : Z) (kern : is_kern p = true).
Context (new_format : POLICYDB_VERSION_AVTAB <= policyvers p) (selinux : target_platform_ = SEPOL_TARGET_SELINUX).

Lemma codec_kern_nodes l seen te_cond acc :
  Forall (cond_node_ok nbools) l -> cond_holds te_cond seen -> conds_compatible (aentries te) seen l ->
  exists te_cond', codec (each (cond_write_node p target_platform_ ta false) l)
      (times (length l) (fun s => '(n, st) ← cond_read_node p target_platform_ junk nbools te s.2; mret (s.1 ++ [n], st))
         (acc, (false, te_cond))) (acc ++ map stored_cond l, (false, te_cond')) /\
    cond_holds te_cond' (cond_rules l ++ seen).
Proof using te_wf kern new_format selinux.
  intros Hl. revert seen te_cond acc. induction Hl as [|n l Hn Hl IH]; intros seen te_cond acc Hh Hc.
  { exists te_cond. cbn [map]. rewrite app_nil_r. split; [exact (codec_skip _)|done]. }
  destruct Hc as (Ht & Hf & Hc). pose proof Hn as (_ & _ & _ & _ & Hr). rewrite kern in Hr. destruct Hr as [Hrt Hrf].
  destruct (codec_av_list te te_wf junk new_format selinux [] _ seen te_cond Hrt Hh Ht) as (h1 & Hd1 & Hh1).
  destruct (codec_av_list te te_wf junk new_format selinux (stored_av (true_list n)) _ _ h1 Hrf Hh1) as (h2 & Hd2 & Hh2).
  { unfold stored_av. rewrite map_map. cbn [cav_node]. rewrite map_id. exact Hf. }
  destruct (IH _ h2 (acc ++ [stored_cond n]) Hh2 Hc) as (h3 & Hd3 & Hh3). exists h3. split.
  - cbn [each length times map]. rewrite <- app_assoc in Hd3. apply (codec_bind _ _ _ _ (acc ++ [stored_cond n], (false, h2))); [|exact Hd3].
    cbn [fst snd]. apply (codec_last _ _ _ (stored_cond n, (false, h2))); [|apply decodes_ret].
    apply codec_cond_node; [exact Hn|]. unfold stored_cond. rewrite kern. cbn [true_list false_list avtrue_list avfalse_list].
    eapply codec_bind; [exact Hd1|]. cbn iota. eapply codec_last; [exact Hd2|]. apply decodes_ret.
  - destruct Hh3 as [Hw3 Hp3]. split; [done|]. rewrite Hp3. unfold cond_rules. cbn [map concat].
    rewrite <- (Permutation_rev (written_rules (true_list n))), <- (Permutation_rev (written_rules (false_list n))).
    apply perm_rules.
Qed.
End KernelNodes.

Lemma alloc_status h n : fst (avtab_alloc h n) = 0.
Proof. unfold avtab_alloc. by destruct (n =? 0). Qed.

(** The conditional rules of a policy for the kernel: the nodes, and the table of
    their rules. *)
Lemma codec_cond_list te junk nbools l h0 :
  is_kern p = true -> POLICYDB_VERSION_AVTAB <= policyvers p -> target_platform_ = SEPOL_TARGET_SELINUX ->
  (exists t, awf te t) -> 0 < nel te < 2 ^ 32 ->
  blen l < 2 ^ 31 -> Forall (cond_node_ok nbools) l -> conds_compatible (aentries te) [] l ->
  exists te_cond, codec (cond_write_list p target_platform_ ta false l)
      (cond_read_list p target_platform_ junk nbools te (false, h0)) (map stored_cond l, (false, te_cond)) /\
    cond_holds te_cond (cond_rules l).
Proof.
  intros Hk Hv Hs Hw Hn Hl Hok Hc. destruct (s32_blen _ Hl) as [El Hu].
  destruct (alloc_ok h0 (nel te) Hn) as (h1 & t1 & j & Ea & Hw1 & He1 & _).
  destruct (codec_kern_nodes te Hw junk nbools Hk Hv Hs l [] h1 [] Hok) as (te_cond & Hd & Hh); [|exact Hc|].
  { split; [by exists t1|by rewrite He1]. }
  rewrite app_nil_r in Hh. exists te_cond. split; [|exact Hh].
  eapply codec_bind; [apply (codec_words 1); [done|u32s]|]. cbn [buf lookup list_lookup default snd]. unfold id.
  rewrite Ea, El. apply codec_ensure; [done|]. unfold blen. by rewrite Nat2Z.id.
Qed.

(** Those of a block of a module. *)
Lemma codec_cond_list_mod te junk nbools l st :
  is_kern p = false -> blen l < 2 ^ 31 -> Forall (cond_node_ok nbools) l ->
  codec (cond_write_list p target_platform_ ta false l) (cond_read_list p target_platform_ junk nbools te st)
    (map stored_cond l, (st.1, snd (avtab_alloc st.2 (nel te)))).
Proof.
  intros Hk Hl Hok. destruct (s32_blen _ Hl) as [El Hu].
  eapply codec_bind; [apply (codec_words 1); [done|u32s]|]. cbn [buf lookup list_lookup default]. unfold id. rewrite El.
  pose proof (alloc_status st.2 (nel te)) as Ha. destruct (avtab_alloc st.2 (nel te)) as [rc h]. cbn [fst snd] in *. subst rc.
  apply codec_ensure; [done|]. set (s := (st.1, h)). unfold blen. rewrite Nat2Z.id.
  enough (forall acc, codec (each (cond_write_node p target_platform_ ta false) l)
    (times (length l) (fun s => '(n, st) ← cond_read_node p target_platform_ junk nbools te s.2; mret (s.1 ++ [n], st)) (acc, s))
    (acc ++ map stored_cond l, s)) as Hc by exact (Hc []).
  clear Hl El Hu. induction Hok as [|n l Hn Hl IH]; intros acc; cbn [map each length times].
  { rewrite app_nil_r. apply codec_skip. }
  specialize (IH (acc ++ [stored_cond n])). rewrite <- app_assoc in IH.
  apply (codec_bind _ _ _ _ (acc ++ [stored_cond n], s)); [|exact IH]. cbn [fst snd].
  apply (codec_last _ _ _ (stored_cond n, s)); [|apply decodes_ret].
  apply codec_cond_node; [exact Hn|]. destruct Hn as (_ & _ & _ & _ & Hr). rewrite Hk in *. destruct Hr as [H1 H2].
  unfold stored_cond. rewrite Hk. cbn [true_list false_list avtrue_list avfalse_list].
  eapply codec_bind; [by apply codec_avrules|]. eapply codec_last; [by apply codec_avrules|]. apply decodes_ret.
Qed.

End Codec.

(** C26. Conditional rules.  In a policy for the kernel, conditions with their rules,
    none in conflict with a rule of the table or of another condition, are written
    and read back: the same states, expressions and rules, and a table that holds
    exactly the rules of the lists. *)
Theorem conditional_rules_roundtrip (p : policy_format) (target_platform_ nbools : Z) (ta : type_arrays) (te : avtab) (junk : list Z)
    (l : list cond_node) (h0 : avtab) :
  is_kern p = true -> POLICYDB_VERSION_AVTAB <= policyvers p -> target_platform_ = SEPOL_TARGET_SELINUX ->
  (exists t, awf te t) -> 0 < nel te < 2 ^ 32 ->
  blen l < 2 ^ 31 -> Forall (cond_node_ok p target_platform_ nbools) l -> conds_compatible (aentries te) [] l ->
  exists te_cond, codec (cond_write_list p target_platform_ ta false l)
      (cond_read_list p target_platform_ junk nbools te (false, h0)) (map (stored_cond p) l, (false, te_cond)) /\
    (exists t, awf te_cond t) /\ aentries te_cond ≡ₚ cond_rules l.
Proof. intros. by apply codec_cond_list. Qed.

(** *** Two conditions: the type of a process is 12 under the first, 13 otherwise. *)

Definition sample_kern : policy_format := PolicyFormat POLICY_KERN 30.

Definition sample_rule (src tgt kind d : Z) : cond_av := CondAv (AvtabNode (AvtabKey src tgt 7 kind) (AvtabDatum d None)) true.

Definition sample_conds : list cond_node :=
  [CondNode 1 [CondExpr 1 1] [sample_rule 5 9 AVTAB_TRANSITION 12; sample_rule 5 9 AVTAB_ALLOWED 3]
     [sample_rule 5 9 AVTAB_TRANSITION 13] [] [] 0;
   CondNode 0 [CondExpr 1 2] [sample_rule 5 9 AVTAB_ALLOWED 4] [] [] [] 0].

Lemma sample_rule_writable src tgt kind d : is_u16 src -> is_u16 tgt -> one_kind kind = true ->
  bits kind AVTAB_XPERMS = false -> is_u32 d -> writable 30 (cav_node (sample_rule src tgt kind d)).
Proof.
  intros. split; cbn [sample_rule cav_node key datum source_type target_type target_class specified]; [done..|by vm_compute|done|].
  replace (bits kind AVTAB_XPERMS) with false. done.
Qed.

Lemma sample_conds_ok : Forall (cond_node_ok sample_kern SEPOL_TARGET_SELINUX 2) sample_conds.
Proof.
  repeat apply Forall_cons_2; [..|apply Forall_nil_2]; (split; [by vm_compute|]; split; [by vm_compute|]; split;
    [by repeat constructor|]; split; [by vm_compute|]; split; (split; [by vm_compute|]));
    repeat apply Forall_cons_2; try apply Forall_nil_2; apply (sample_rule_writable 5 9); by vm_compute.
Qed.

Lemma sample_conds_compatible : conds_compatible (aentries sample_avtab) [] sample_conds.
Proof.
  repeat split; try match goal with H : bits _ _ = true |- _ => solve [vm_compute in H; discriminate H] end;
    first [vm_compute; reflexivity | left; vm_compute; reflexivity
    | right; exists (cav_node (sample_rule 5 9 AVTAB_TRANSITION 12)); split; [vm_compute; reflexivity|vm_compute; by left]].
Qed.

Lemma conditional_rules_roundtrip_witness :
  exists te_cond, codec (cond_write_list sample_kern SEPOL_TARGET_SELINUX sample_arrays false sample_conds)
      (cond_read_list sample_kern SEPOL_TARGET_SELINUX [] 2 sample_avtab (false, Avtab None 0 0 0)) (sample_conds, (false, te_cond)) /\
    (exists t, awf te_cond t) /\ aentries te_cond ≡ₚ cond_rules sample_conds.
Proof.
  apply (conditional_rules_roundtrip sample_kern SEPOL_TARGET_SELINUX 2 sample_arrays sample_avtab [] sample_conds (Avtab None 0 0 0)).
  - done.
  - by vm_compute.
  - done.
  - exact sample_avtab_wf.
  - by vm_compute.
  - by vm_compute.
  - exact sample_conds_ok.
  - exact sample_conds_compatible.
Defined.
