(* ===== verification/Policyexpr.v ===== *)
(** Conditional expressions (conditional.c): their evaluation on a stack, their
    normal form with its table of values, their comparison and search, and the
    order of the rules of a node. *)
From S2P Require Import Prelude Ebitmap Hashtab Avtab Policyrw Policysyms Policyrules Policyexpand Policycond.

Definition COND_EXPR_MAXDEPTH := 10.
Definition COND_MAX_BOOLS := 5.
Definition COND_BOOL := 1.
Definition COND_NOT := 2.
Definition COND_OR := 3.
Definition COND_AND := 4.
Definition COND_XOR := 5.
Definition COND_EQ := 6.
Definition COND_NEQ := 7.

(** ** Evaluation *)

(** The states of the booleans in [bool_val_to_struct], by value; no state where
    the array holds no boolean. *)
Abbreviation boolean_states := (list (option Z)).

(** [p->bool_val_to_struct[id - 1]->state] *)
Definition bool_state (bools : boolean_states) (id : Z) : option Z := mjoin (bools !! Z.to_nat (u32 (id - 1))).

Definition set_bool_state (bools : boolean_states) (id v : Z) : option boolean_states :=
  _ ← bool_state bools id;
  Some (<[Z.to_nat (u32 (id - 1)) := Some v]> bools).

Definition binary_operator (ty : Z) : option (Z -> Z -> Z) :=
  if ty =? COND_OR then Some Z.lor
  else if ty =? COND_AND then Some Z.land
  else if ty =? COND_XOR then Some Z.lxor
  else if ty =? COND_EQ then Some (fun x y => Z.b2z (x =? y))
  else if ty =? COND_NEQ then Some (fun x y => Z.b2z (negb (x =? y)))
  else None.

(** The stack, its top first: [sp] is one less than its length, and [s[0]] its last
    element, -1 until something is put there. *)
Fixpoint evaluate_loop (bools : boolean_states) (s : list Z) (expr : list cond_expr) : option Z :=
  match expr with
  | [] => Some (List.last s (-1))
  | cur :: next =>
      if ce_type cur =? COND_BOOL then
        if blen s - 1 =? COND_EXPR_MAXDEPTH - 1 then Some (-1)
        else
          state ← bool_state bools (ce_bool cur);
          evaluate_loop bools (state :: s) next
      else if ce_type cur =? COND_NOT then
        match s with
        | [] => Some (-1)
        | x :: s => evaluate_loop bools (Z.b2z (x =? 0) :: s) next
        end
      else
        match binary_operator (ce_type cur), s with
        | Some op, y :: x :: s => evaluate_loop bools (op x y :: s) next
        | _, _ => Some (-1)
        end
  end.

Definition cond_evaluate_expr (bools : boolean_states) (expr : list cond_expr) : option Z := evaluate_loop bools [] expr.

(** ** Normal form *)

(** A node with the fields that are not written: how many booleans its expression
    has, the first of them, and its values. *)
Record cond_full := CondFull { f_node : cond_node; nbools : Z; bool_ids : list Z; expr_pre_comp : Z }.

Definition bool_present (target : Z) (bools : list Z) (num_bools : Z) : bool :=
  if COND_MAX_BOOLS <? num_bools then false
  else existsb (Z.eqb target) (take (Z.to_nat num_bools) bools).

(** One round of the loop that finds the booleans. *)
Definition count_bool (s : Z * list Z) (e : cond_expr) : Z * list Z :=
  if ce_type e =? COND_BOOL then
    if bool_present (ce_bool e) s.2 s.1 then s
    else if s.1 <? COND_MAX_BOOLS then (s.1 + 1, <[Z.to_nat s.1 := ce_bool e]> s.2)
    else (u32 (s.1 + 1), s.2)
  else s.

Definition test_bit (test : Z) (j : nat) : Z := if Z.land test (Z.shiftl 1 (Z.of_nat j)) =? 0 then 0 else 1.

(** The booleans take the bits of [test], from the [j]th on. *)
Fixpoint set_bools (bools : boolean_states) (ids : list Z) (test : Z) (j : nat) : option boolean_states :=
  match ids with
  | [] => Some bools
  | id :: ids =>
      bools ← set_bool_state bools id (test_bit test j);
      set_bools bools ids test (S j)
  end.

(** The values from [test] on, [n] of them; -1 and the booleans as they are when a
    value is undefined. *)
Fixpoint precompute (n : nat) (test : Z) (bools : boolean_states) (ids : list Z) (expr : list cond_expr) (pre : Z)
    : option (Z * boolean_states * Z) :=
  match n with
  | O => Some (0, bools, pre)
  | S n =>
      bools ← set_bools bools ids test 0;
      k ← cond_evaluate_expr bools expr;
      if k =? -1 then Some (-1, bools, pre)
      else precompute n (test + 1) bools ids expr (if negb (k =? 0) then u32 (Z.lor pre (Z.shiftl 1 test)) else pre)
  end.

Fixpoint restore_bools (bools : boolean_states) (ids orig_value : list Z) : option boolean_states :=
  match ids, orig_value with
  | id :: ids, v :: orig_value =>
      bools ← set_bool_state bools id v;
      restore_bools bools ids orig_value
  | _, _ => Some bools
  end.

(** An expression that ends with a negation loses it, and the lists are swapped;
    [None] when there is nothing but the negation. *)
Definition strip_not (n : cond_node) : option cond_node :=
  match rev (c_exprs n) with
  | e :: front =>
      if ce_type e =? COND_NOT then
        match front with
        | [] => None
        | _ => Some (CondNode (cur_state n) (rev front) (false_list n) (true_list n) (avfalse_list n) (avtrue_list n) (cond_flags n))
        end
      else Some n
  | [] => Some n
  end.

(** The status, the states of the booleans, and the node.  An empty list of
    expressions is a NULL pointer that is followed. *)
Definition cond_normalize_expr (bools : boolean_states) (cn : cond_full) : option (Z * boolean_states * cond_full) :=
  match c_exprs (f_node cn) with
  | [] => None
  | _ =>
      match strip_not (f_node cn) with
      | None => Some (-1, bools, CondFull (f_node cn) 0 (replicate (Z.to_nat COND_MAX_BOOLS) 0) 0)
      | Some n =>
          let '(k, ids) := fold_left count_bool (c_exprs n) (0, replicate (Z.to_nat COND_MAX_BOOLS) 0) in
          if k <=? COND_MAX_BOOLS then
            let vars := take (Z.to_nat k) ids in
            orig_value ← mapM (bool_state bools) vars;
            '(rc, bools, pre) ← precompute (Z.to_nat (Z.shiftl 1 k)) 0 bools vars (c_exprs n) 0;
            if rc =? 0 then
              bools ← restore_bools bools vars orig_value;
              Some (0, bools, CondFull n k ids pre)
            else Some (-1, bools, CondFull n k ids pre)
          else Some (0, bools, CondFull n k ids 0)
      end
  end.

(** ** Comparison and search *)

Definition same_bools (a b : cond_full) : bool :=
  if negb (nbools a =? nbools b) then false
  else forallb (fun id => bool_present id (bool_ids b) (nbools a)) (take (Z.to_nat (nbools a)) (bool_ids a)).

Fixpoint same_exprs (a b : list cond_expr) : bool :=
  match a, b with
  | [], [] => true
  | x :: a, y :: b =>
      if negb (ce_type x =? ce_type y) then false
      else if (ce_type x =? COND_BOOL) && negb (ce_bool x =? ce_bool y) then false
      else same_exprs a b
  | _, _ => false
  end.

Definition cond_expr_equal (a b : option cond_full) : bool :=
  match a, b with
  | Some a, Some b =>
      if negb (nbools a =? nbools b) then false
      else if (nbools a <=? COND_MAX_BOOLS) && (nbools b <=? COND_MAX_BOOLS) then
        if negb (same_bools a b) then false else expr_pre_comp a =? expr_pre_comp b
      else same_exprs (c_exprs (f_node a)) (c_exprs (f_node b))
  | _, _ => false
  end.

(** The copy of an expression is NULL when the expression is. *)
Definition cond_copy_expr (expr : list cond_expr) : list cond_expr := map (fun e => CondExpr (ce_type e) (ce_bool e)) expr.

Definition cond_node_zero : cond_full := CondFull (CondNode 0 [] [] [] [] [] 0) 0 (replicate (Z.to_nat COND_MAX_BOOLS) 0) 0.

(** A node, or NULL. *)
Definition cond_node_create (bools : boolean_states) (node : option cond_full) : option (option cond_full) :=
  match node with
  | None => Some (Some cond_node_zero)
  | Some node =>
      match cond_copy_expr (c_exprs (f_node node)) with
      | [] => Some None
      | expr =>
          state ← cond_evaluate_expr bools expr;
          let k := Z.to_nat (Z.min (nbools node) COND_MAX_BOOLS) in
          Some (Some (CondFull (CondNode state expr [] [] [] [] (cond_flags (f_node node))) (nbools node)
            (take k (bool_ids node) ++ drop k (bool_ids cond_node_zero)) (expr_pre_comp node)))
      end
  end.

(** The node that is found, by its place, or the node that was created. *)
Definition cond_node_find (bools : boolean_states) (needle : cond_full) (haystack : list cond_full)
    : option (nat + option cond_full) :=
  match list_find (fun n => cond_expr_equal (Some needle) (Some n) = true) haystack with
  | Some (i, _) => Some (inl i)
  | None => n ← cond_node_create bools (Some needle); Some (inr n)
  end.

(** The search in the list of the policy: a new node is put in front of it. *)
Definition cond_node_search (bools : boolean_states) (cond_list : list cond_full) (cn : cond_full)
    : option (option nat * list cond_full) :=
  r ← cond_node_find bools cn cond_list;
  Some (match r with
        | inl i => (Some i, cond_list)
        | inr (Some result) => (Some O, result :: cond_list)
        | inr None => (None, cond_list)
        end).

(** ** The order of rules *)

Definition is_type_rule (n : avtab_node) : bool := bits (specified (key n)) AVTAB_TYPE.

(** The list from [top] to [p], and the rest of it from [cur] on. *)
Fixpoint optimize_loop (top cur : list cond_av) : list cond_av :=
  match cur with
  | [] => top
  | c :: cur =>
      if is_type_rule (cav_node c) && negb (bool_decide (top = [])) then optimize_loop (c :: top) cur
      else optimize_loop (top ++ [c]) cur
  end.

Definition cond_optimize (l : list cond_av) : list cond_av := optimize_loop [] l.

Definition cond_optimize_lists (cl : list cond_node) : list cond_node :=
  map (fun n => CondNode (cur_state n) (c_exprs n) (cond_optimize (true_list n)) (cond_optimize (false_list n))
                  (avtrue_list n) (avfalse_list n) (cond_flags n)) cl.

(** ** Expressions as trees *)

Inductive bool_op := Or | And | Xor | Eq | Neq.

Inductive bexpr :=
| Bool (id : Z)
| Not (e : bexpr)
| Binary (op : bool_op) (a b : bexpr).

Definition op_type (op : bool_op) : Z :=
  match op with Or => COND_OR | And => COND_AND | Xor => COND_XOR | Eq => COND_EQ | Neq => COND_NEQ end.

Definition op_value (op : bool_op) : bool -> bool -> bool :=
  match op with Or => orb | And => andb | Xor => xorb | Eq => Bool.eqb | Neq => xorb end.

(** A tree and its listing in postfix order; the boolean of an operator is not used. *)
Inductive listing : bexpr -> list cond_expr -> Prop :=
| listing_bool id : listing (Bool id) [CondExpr COND_BOOL id]
| listing_not e l b : listing e l -> listing (Not e) (l ++ [CondExpr COND_NOT b])
| listing_binary op e1 e2 l1 l2 b : listing e1 l1 -> listing e2 l2 ->
    listing (Binary op e1 e2) (l1 ++ l2 ++ [CondExpr (op_type op) b]).

(** The places of the stack its evaluation takes. *)
Fixpoint need (e : bexpr) : Z :=
  match e with
  | Bool _ => 1
  | Not e => need e
  | Binary _ a b => Z.max (need a) (1 + need b)
  end.

(** Its booleans, in the order of the listing, and its value. *)
Fixpoint ids (e : bexpr) : list Z :=
  match e with
  | Bool id => [id]
  | Not e => ids e
  | Binary _ a b => ids a ++ ids b
  end.

Fixpoint value (env : Z -> bool) (e : bexpr) : bool :=
  match e with
  | Bool id => env id
  | Not e => negb (value env e)
  | Binary op a b => op_value op (value env a) (value env b)
  end.

(** The booleans [l] have the values of [env]. *)
Definition bools_are (bools : boolean_states) (env : Z -> bool) (l : list Z) : Prop :=
  Forall (fun id => bool_state bools id = Some (Z.b2z (env id))) l.

Lemma need_pos e : 1 <= need e.
Proof. induction e as [|e IH|op a IHa b IHb]; cbn; lia. Qed.

Lemma op_correct op x y : exists f, binary_operator (op_type op) = Some f /\ f (Z.b2z x) (Z.b2z y) = Z.b2z (op_value op x y).
Proof. destruct op; (eexists; split; [reflexivity|]); by destruct x, y. Qed.

Lemma op_type_other op : (op_type op =? COND_BOOL) = false /\ (op_type op =? COND_NOT) = false.
Proof. by destruct op. Qed.

Lemma bools_are_app bools env l1 l2 : bools_are bools env (l1 ++ l2) <-> bools_are bools env l1 /\ bools_are bools env l2.
Proof. apply Forall_app. Qed.

Lemma bools_are_one bools env id : bools_are bools env [id] <-> bool_state bools id = Some (Z.b2z (env id)).
Proof. apply (Forall_singleton (fun id => bool_state bools id = Some (Z.b2z (env id)))). Qed.

(** A listing puts the value of its tree on the stack, if there is room for it. *)
Lemma evaluate_listing bools env e l : listing e l -> bools_are bools env (ids e) ->
  forall s next, blen s + need e <= COND_EXPR_MAXDEPTH ->
    evaluate_loop bools s (l ++ next) = evaluate_loop bools (Z.b2z (value env e) :: s) next.
Proof.
  induction 1 as [id|e l b Hl IH|op e1 e2 l1 l2 b H1 IH1 H2 IH2]; intros Hb s next Hn; cbn [need ids] in *.
  - apply bools_are_one in Hb. cbn [app evaluate_loop ce_type ce_bool]. change (COND_BOOL =? COND_BOOL) with true. cbn iota.
    unfold COND_EXPR_MAXDEPTH in *. replace (_ =? _) with false by lia. by rewrite Hb.
  - rewrite <- app_assoc, IH by done. cbn [app evaluate_loop ce_type]. change (COND_NOT =? COND_BOOL) with false.
    change (COND_NOT =? COND_NOT) with true. cbn iota. cbn [value]. by destruct (value env e).
  - apply bools_are_app in Hb as [Hb1 Hb2]. rewrite <- !app_assoc, IH1, IH2 by (rewrite ?blen_cons; done || lia).
    destruct (op_type_other op) as [E1 E2]. cbn [app evaluate_loop ce_type]. rewrite E1, E2.
    destruct (op_correct op (value env e1) (value env e2)) as (f & Ef & Ev). by rewrite Ef, Ev.
Qed.

(** Too deep a tree has no value. *)
Lemma evaluate_deep bools env e l : listing e l -> bools_are bools env (ids e) ->
  forall s next, blen s <= COND_EXPR_MAXDEPTH < blen s + need e -> evaluate_loop bools s (l ++ next) = Some (-1).
Proof.
  induction 1 as [id|e l b Hl IH|op e1 e2 l1 l2 b H1 IH1 H2 IH2]; intros Hb s next Hn; cbn [need ids] in *.
  - cbn [app evaluate_loop ce_type]. change (COND_BOOL =? COND_BOOL) with true. cbn iota.
    unfold COND_EXPR_MAXDEPTH in *. by replace (_ =? _) with true by lia.
  - rewrite <- app_assoc. by apply IH.
  - apply bools_are_app in Hb as [Hb1 Hb2]. rewrite <- !app_assoc.
    destruct (Z.le_gt_cases (blen s + need e1) COND_EXPR_MAXDEPTH).
    + rewrite (evaluate_listing bools env e1) by done. apply IH2; [done|]. rewrite blen_cons. pose proof (need_pos e1). lia.
    + apply IH1; [done|lia].
Qed.

Lemma evaluate_tree bools env e l : listing e l -> bools_are bools env (ids e) ->
  cond_evaluate_expr bools l = Some (if need e <=? COND_EXPR_MAXDEPTH then Z.b2z (value env e) else -1).
Proof.
  intros Hl Hb. unfold cond_evaluate_expr. rewrite <- (app_nil_r l). destruct (Z.leb_spec (need e) COND_EXPR_MAXDEPTH).
  - by rewrite (evaluate_listing bools env e l Hl Hb) by (unfold blen; cbn; lia).
  - apply (evaluate_deep bools env e l Hl Hb). unfold blen, COND_EXPR_MAXDEPTH in *. cbn. lia.
Qed.

(** ** The order of rules *)

Definition type_av (c : cond_av) : bool := is_type_rule (cav_node c).

Lemma optimize_loop_spec top cur :
  optimize_loop top cur = rev (List.filter type_av cur) ++ top ++ List.filter (fun c => negb (type_av c)) cur.
Proof.
  revert top. induction cur as [|c cur IH]; intros top; cbn [optimize_loop List.filter rev app]; [by rewrite app_nil_r|].
  change (is_type_rule (cav_node c)) with (type_av c). destruct (type_av c); cbn [andb negb rev].
  - case_bool_decide as Ht; cbn [negb]; rewrite IH; [rewrite Ht|]; cbn [app]; by rewrite <- app_assoc.
  - by rewrite IH, <- app_assoc.
Qed.

(** The rules about types come first, the others keep their order. *)
Lemma cond_optimize_spec l :
  cond_optimize l = rev (List.filter type_av l) ++ List.filter (fun c => negb (type_av c)) l.
Proof. apply optimize_loop_spec. Qed.

(** ** The booleans of an expression *)

(** Booleans that take values, one after the other. *)
Definition index_of (id : Z) : nat := Z.to_nat (u32 (id - 1)).

Lemma index_of_inj a b : is_u32 a -> is_u32 b -> index_of a = index_of b -> a = b.
Proof. unfold is_u32, index_of, u32. intros Ha Hb E. apply Z2Nat.inj in E; pow2; zlia. Qed.

Lemma NoDup_index vars : Forall is_u32 vars -> NoDup vars -> NoDup (map index_of vars).
Proof.
  intros Hu Hn. rewrite Forall_forall in Hu. apply NoDup_fmap_2_strong; [|done]. intros a b Ha Hb.
  apply index_of_inj; by apply Hu.
Qed.

(** Lists of states that differ at the booleans [vars] only. *)
Definition off (vars : list Z) (b b' : boolean_states) : Prop := forall i, i ∉ map index_of vars -> b' !! i = b !! i.
Definition all_states (vars : list Z) (b : boolean_states) : Prop := Forall (fun id => exists v, b !! index_of id = Some (Some v)) vars.

Lemma bool_state_lookup b id v : bool_state b id = Some v <-> b !! index_of id = Some (Some v).
Proof. unfold bool_state, index_of. destruct (b !! _) as [[x|]|]; cbn; split; congruence. Qed.

Lemma restore_spec vars vals b : NoDup (map index_of vars) -> length vals = length vars -> all_states vars b ->
  exists b', restore_bools b vars vals = Some b' /\ off vars b b' /\
    Forall2 (fun id v => b' !! index_of id = Some (Some v)) vars vals.
Proof.
  revert vals b. induction vars as [|id vars IH]; intros [|v vals] b Hn Hl Hs; try done; [by exists b|].
  cbn [map] in Hn. apply NoDup_cons in Hn as [Hid Hn]. apply Forall_cons in Hs as [[x Hx] Hs].
  pose proof (lookup_lt_Some _ _ _ Hx) as Hlt. cbn [restore_bools]. unfold set_bool_state.
  rewrite (proj2 (bool_state_lookup b id x) Hx). cbn [mbind option_bind].
  destruct (IH vals (<[index_of id := Some v]> b)) as (b' & E & Ho & Hf); [done|by injection Hl| |].
  - eapply Forall_impl; [exact Hs|]. intros id' [y Hy]. destruct (decide (index_of id' = index_of id)) as [->|].
    + exists v. by apply list_lookup_insert_eq.
    + exists y. by rewrite list_lookup_insert_ne.
  - exists b'. split; [exact E|]. split.
    + intros i Hi. apply not_elem_of_cons in Hi as [Hi Hi']. rewrite Ho by done. by apply list_lookup_insert_ne.
    + apply Forall2_cons. split; [|done]. rewrite Ho by done. by apply list_lookup_insert_eq.
Qed.

Lemma set_bools_restore b vars test j : set_bools b vars test j = restore_bools b vars (map (test_bit test) (seq j (length vars))).
Proof.
  revert b j. induction vars as [|id vars IH]; intros b j; [done|]. cbn [set_bools restore_bools length seq map].
  destruct (set_bool_state b id _); [|done]. cbn [mbind option_bind]. apply IH.
Qed.

Lemma off_trans vars a b c : off vars a b -> off vars b c -> off vars a c.
Proof. intros H1 H2 i Hi. by rewrite H2, H1. Qed.

Lemma all_states_Forall2 vars vals b : Forall2 (fun id v => b !! index_of id = Some (Some v)) vars vals -> all_states vars b.
Proof. induction 1 as [|id v vars vals Hv Hf IH]; constructor; [by exists v|exact IH]. Qed.

(** Set back to what they were, the booleans are as before. *)
Lemma restore_same vars vals b b' : NoDup (map index_of vars) -> Forall2 (fun id v => b !! index_of id = Some (Some v)) vars vals ->
  off vars b b' -> all_states vars b' -> restore_bools b' vars vals = Some b.
Proof.
  intros Hn Hv Ho Hs. pose proof (Forall2_length _ _ _ Hv) as Hl.
  destruct (restore_spec vars vals b' Hn (eq_sym Hl) Hs) as (c & -> & Hc & Hf). f_equal. apply list_eq. intros i.
  destruct (decide (i ∈ map index_of vars)) as [Hi|Hi].
  - apply list_elem_of_fmap in Hi as (id & -> & [k Hk]%list_elem_of_lookup).
    destruct (Forall2_lookup_l _ _ _ _ _ Hv Hk) as (v & Hvk & ->).
    destruct (Forall2_lookup_l _ _ _ _ _ Hf Hk) as (v' & Hvk' & ->). congruence.
  - rewrite Hc by done. by apply Ho.
Qed.

(** The number whose bits are the values of the booleans. *)
Fixpoint number (env : Z -> bool) (vars : list Z) : Z :=
  match vars with
  | [] => 0
  | id :: vars => Z.b2z (env id) + 2 * number env vars
  end.

Lemma number_range env vars : 0 <= number env vars < 2 ^ blen vars.
Proof.
  induction vars as [|id vars IH]; [done|]. rewrite blen_cons, Z.pow_add_r by (pose proof (blen_nonneg vars); lia).
  cbn [number]. destruct (env id); cbn [Z.b2z]; lia.
Qed.

Lemma number_bit env vars j id : vars !! j = Some id -> Z.testbit (number env vars) (Z.of_nat j) = env id.
Proof.
  revert j. induction vars as [|x vars IH]; intros j; [done|]. cbn [number]. rewrite Z.add_comm. destruct j as [|j]; cbn [lookup list_lookup].
  - intros [= ->]. apply Z.testbit_0_r.
  - intros Hj. rewrite Nat2Z.inj_succ, Z.testbit_succ_r by lia. by apply IH.
Qed.

Lemma test_bit_spec test j : test_bit test j = Z.b2z (Z.testbit test (Z.of_nat j)).
Proof.
  unfold test_bit. rewrite Z.shiftl_1_l. destruct (Z.testbit test (Z.of_nat j)) eqn:E.
  - case_match eqn:Ez; [|done]. apply Z.eqb_eq in Ez. apply (f_equal (fun x => Z.testbit x (Z.of_nat j))) in Ez.
    rewrite Z.land_spec, E, Z.pow2_bits_true, Z.bits_0 in Ez by lia. done.
  - case_match eqn:Ez; [done|]. apply Z.eqb_neq in Ez. destruct Ez. apply Z.bits_inj_0. intros k.
    rewrite Z.land_spec. destruct (Z.eq_dec k (Z.of_nat j)) as [->|]; [by rewrite E|].
    rewrite Z.pow2_bits_false by lia. apply andb_false_r.
Qed.

(** The values of the booleans in the bits of a number. *)
Definition bits_env (vars : list Z) (test : Z) (id : Z) : bool :=
  match list_find (fun x => x = id) vars with
  | Some (j, _) => Z.testbit test (Z.of_nat j)
  | None => false
  end.

Lemma bits_env_lookup vars test j id : NoDup vars -> vars !! j = Some id -> bits_env vars test id = Z.testbit test (Z.of_nat j).
Proof.
  intros Hn Hj. unfold bits_env. destruct (list_find _ vars) as [[k x]|] eqn:E.
  - apply list_find_Some in E as (Hk & -> & _). by rewrite (NoDup_lookup _ _ _ _ Hn Hk Hj).
  - apply list_find_None in E. rewrite Forall_lookup in E. by destruct (E _ _ Hj).
Qed.

Lemma bits_env_number env vars id : NoDup vars -> id ∈ vars -> bits_env vars (number env vars) id = env id.
Proof.
  intros Hn [j Hj]%list_elem_of_lookup. rewrite (bits_env_lookup vars _ j) by done. by apply number_bit.
Qed.

Lemma value_ext env env' e : (forall id, id ∈ ids e -> env id = env' id) -> value env e = value env' e.
Proof.
  induction e as [id|e IH|op a IHa b IHb]; intros He; cbn [value ids] in *.
  - apply He. by left.
  - by rewrite IH.
  - rewrite IHa, IHb; [done|intros id Hid; apply He, elem_of_app; tauto..].
Qed.

Lemma bools_are_elem b env l : bools_are b env l <-> forall id, id ∈ l -> bool_state b id = Some (Z.b2z (env id)).
Proof. apply Forall_forall. Qed.

(** With the booleans set to the bits of a number. *)
Lemma set_bools_spec b vars test : NoDup vars -> Forall is_u32 vars -> all_states vars b ->
  exists b', set_bools b vars test 0 = Some b' /\ off vars b b' /\ all_states vars b' /\
    forall l, l ⊆ vars -> bools_are b' (bits_env vars test) l.
Proof.
  intros Hn Hu Hs. rewrite set_bools_restore. pose proof (NoDup_index vars Hu Hn) as Hi.
  destruct (restore_spec vars (map (test_bit test) (seq 0 (length vars))) b Hi) as (b' & E & Ho & Hf);
    [by rewrite length_map, length_seq|done|].
  exists b'. split; [exact E|]. split; [exact Ho|]. split; [by eapply all_states_Forall2|].
  intros l Hl. apply bools_are_elem. intros id Hid. apply Hl, list_elem_of_lookup in Hid as [j Hj].
  destruct (Forall2_lookup_l _ _ _ _ _ Hf Hj) as (v & Hv & Hb). apply bool_state_lookup. rewrite Hb.
  rewrite (bits_env_lookup vars test j) by done. rewrite list_lookup_fmap in Hv.
  rewrite lookup_seq_lt in Hv by (by eapply lookup_lt_Some). cbn in Hv. injection Hv as <-. by rewrite test_bit_spec.
Qed.

Lemma record_bit pre test : is_u32 pre -> 0 <= test < 32 ->
  is_u32 (u32 (Z.lor pre (Z.shiftl 1 test))) /\
  forall i, Z.testbit (u32 (Z.lor pre (Z.shiftl 1 test))) i = if i =? test then true else Z.testbit pre i.
Proof.
  intros Hp Ht. split; [apply u32_range|]. intros i. rewrite u32_bit, Z.lor_spec, Z.shiftl_1_l.
  rewrite <- (u32_small pre Hp) at 2. rewrite u32_bit. destruct (Z.eqb_spec i test) as [->|Hne].
  - rewrite Z.pow2_bits_true, orb_true_r by lia. by replace (test <? 32) with true by lia.
  - rewrite Z.pow2_bits_false by lia. by rewrite orb_false_r.
Qed.

(** The table of values of an expression; a bit is not yet set before its turn. *)
Lemma precompute_spec vars e l n test b pre : listing e l -> need e <= COND_EXPR_MAXDEPTH -> ids e ⊆ vars ->
  NoDup vars -> Forall is_u32 vars -> all_states vars b -> is_u32 pre -> 0 <= test -> test + Z.of_nat n <= 32 ->
  (forall i, test <= i -> Z.testbit pre i = false) ->
  exists b' pre', precompute n test b vars l pre = Some (0, b', pre') /\ off vars b b' /\ all_states vars b' /\ is_u32 pre' /\
    forall i, Z.testbit pre' i = if (test <=? i) && (i <? test + Z.of_nat n) then value (bits_env vars i) e else Z.testbit pre i.
Proof.
  intros Hl Hd Hi Hn Hu. revert test b pre. induction n as [|n IH]; intros test b pre Hs Hp Ht Hb Hz.
  { exists b, pre. do 4 (split; [done|]). intros i.
    destruct (Z.leb_spec test i), (Z.ltb_spec i (test + Z.of_nat 0)); done || lia. }
  destruct (set_bools_spec b vars test Hn Hu Hs) as (b1 & E1 & Ho1 & Hs1 & Hv). cbn [precompute]. rewrite E1. cbn [mbind option_bind].
  rewrite (evaluate_tree b1 _ e l Hl (Hv _ Hi)), (proj2 (Z.leb_le _ _) Hd). cbn [mbind option_bind].
  set (v := value (bits_env vars test) e).
  replace (Z.b2z v =? -1) with false by (by destruct v).
  set (pre1 := if negb (Z.b2z v =? 0) then _ else _).
  assert (is_u32 pre1 /\ forall i, Z.testbit pre1 i = if i =? test then v else Z.testbit pre i) as [Hp1 Ht1].
  { unfold pre1. destruct v; cbn [Z.b2z Z.eqb negb]; [by apply record_bit; [|lia]|]. split; [done|]. intros i.
    destruct (Z.eqb_spec i test) as [->|]; [|done]. by apply Hz. }
  assert (forall i, test + 1 <= i -> Z.testbit pre1 i = false) as Hz1.
  { intros i Hi1. rewrite Ht1. replace (i =? test) with false by lia. apply Hz. lia. }
  destruct (IH (test + 1) b1 pre1 Hs1 Hp1 ltac:(lia) ltac:(lia) Hz1) as (b' & pre' & E' & Ho' & Hs' & Hp' & Ht').
  exists b', pre'. split; [exact E'|]. split; [by eapply off_trans|]. do 2 (split; [done|]). intros i. rewrite Ht', Ht1.
  destruct (Z.eqb_spec i test), (Z.leb_spec (test + 1) i), (Z.leb_spec test i), (Z.ltb_spec i (test + 1 + Z.of_nat n)),
    (Z.ltb_spec i (test + Z.of_nat (S n))); subst; done || lia.
Qed.

(** ** Finding the booleans *)

Definition exprs_bools (l : list cond_expr) : list Z := map ce_bool (List.filter (fun e => ce_type e =? COND_BOOL) l).

Lemma listing_bools e l : listing e l -> exprs_bools l = ids e.
Proof.
  unfold exprs_bools. induction 1 as [id|e l b Hl IH|op e1 e2 l1 l2 b H1 IH1 H2 IH2]; [done| |].
  - rewrite List.filter_app, map_app, IH. cbn. apply app_nil_r.
  - rewrite !List.filter_app, !map_app, IH1, IH2. cbn [List.filter ce_type ids]. destruct (op_type_other op) as [-> _].
    cbn. by rewrite app_nil_r.
Qed.

Lemma listing_nonempty e l : listing e l -> l <> [].
Proof. destruct 1; [done|by destruct l|by destruct l1, l2]. Qed.

(** The booleans [seen] so far, or there are too many of them. *)
Definition found (seen : list Z) (s : Z * list Z) : Prop :=
  length s.2 = 5%nat /\
  (0 <= s.1 <= COND_MAX_BOOLS /\ NoDup (take (Z.to_nat s.1) s.2) /\ (forall id, id ∈ take (Z.to_nat s.1) s.2 <-> id ∈ seen) \/
   COND_MAX_BOOLS < s.1 <= blen seen).

Lemma bool_present_spec id l n : n <= COND_MAX_BOOLS -> bool_present id l n = bool_decide (id ∈ take (Z.to_nat n) l).
Proof.
  intros Hn. unfold bool_present. replace (COND_MAX_BOOLS <? n) with false by lia.
  apply eq_true_iff_eq. rewrite bool_decide_eq_true, existsb_exists. split.
  - intros (x & Hx & ->%Z.eqb_eq). by apply list_elem_of_In.
  - intros Hin. exists id. split; [by apply list_elem_of_In|apply Z.eqb_refl].
Qed.

Lemma found_step seen s e : ce_type e = COND_BOOL -> blen seen + 1 < 2 ^ 32 -> found seen s -> found (seen ++ [ce_bool e]) (count_bool s e).
Proof.
  intros Et Hs [Hl Hf]. destruct s as [k arr]. cbn [fst snd] in *. unfold count_bool. rewrite Et. change (COND_BOOL =? COND_BOOL) with true.
  cbn iota. cbn [fst snd]. set (id := ce_bool e). destruct Hf as [(Hk & Hn & Hin)|Hk].
  - rewrite bool_present_spec by lia. unfold COND_MAX_BOOLS in *. case_bool_decide as Hid.
    { split; [done|]. left. do 2 (split; [done|]). intros x. cbn [fst snd]. rewrite Hin, elem_of_app, list_elem_of_singleton.
      apply Hin in Hid. split; [by left|]. by intros [?| ->]. }
    destruct (Z.ltb_spec k 5).
    + split; cbn [fst snd]; [by rewrite length_insert|]. left. unfold COND_MAX_BOOLS. split; [lia|].
      replace (Z.to_nat (k + 1)) with (S (Z.to_nat k)) by lia.
      rewrite (take_S_r _ _ id) by (apply list_lookup_insert_eq; lia). rewrite take_insert_ge by lia. split.
      * apply NoDup_app. split; [done|]. split; [|apply NoDup_singleton]. intros x Hx ->%list_elem_of_singleton. done.
      * intros x. rewrite !elem_of_app, Hin. done.
    + split; [done|]. right. cbn [fst snd]. rewrite blen_app. change (blen [id]) with 1.
      assert (k = 5) as -> by lia. split; [by vm_compute|]. change (u32 (5 + 1)) with 6.
      assert (length (take (Z.to_nat 5) arr) <= length seen)%nat as Hle.
      { apply submseteq_length, NoDup_submseteq; [done|]. intros x. apply Hin. }
      rewrite length_take, Hl in Hle. unfold blen. cbn in Hle. lia.
  - unfold bool_present. replace (COND_MAX_BOOLS <? k) with true by lia. replace (k <? COND_MAX_BOOLS) with false by lia.
    split; [done|]. right. cbn [fst snd]. rewrite blen_app. change (blen [id]) with 1.
    rewrite u32_small by (unfold is_u32, COND_MAX_BOOLS in *; lia). lia.
Qed.

Lemma count_bools l seen s : blen seen + blen l < 2 ^ 32 -> found seen s -> found (seen ++ exprs_bools l) (fold_left count_bool l s).
Proof.
  revert seen s. induction l as [|e l IH]; intros seen s Hs Hf; [by rewrite app_nil_r|]. rewrite blen_cons in Hs.
  pose proof (blen_nonneg l). cbn [fold_left]. unfold exprs_bools. cbn [List.filter].
  destruct (Z.eqb_spec (ce_type e) COND_BOOL) as [Et|Et].
  - cbn [map]. change (?a ++ ?b :: ?c) with (a ++ [b] ++ c). rewrite app_assoc. apply (IH (seen ++ [ce_bool e])).
    + rewrite blen_app. change (blen [ce_bool e]) with 1. lia.
    + apply found_step; [done|lia|done].
  - unfold count_bool at 2. rewrite (proj2 (Z.eqb_neq _ _) Et). apply IH; [lia|done].
Qed.

(** ** The normal form *)

Definition body (e : bexpr) : bexpr := match e with Not e => e | _ => e end.

(** The rules that apply in a state of the booleans. *)
Definition applied (env : Z -> bool) (e : bexpr) (n : cond_node) : list cond_av * list avrule :=
  if value env e then (true_list n, avtrue_list n) else (false_list n, avfalse_list n).

Lemma strip_not_spec e n : listing e (c_exprs n) ->
  exists n', strip_not n = Some n' /\ listing (body e) (c_exprs n') /\
    blen (c_exprs n') <= blen (c_exprs n) /\ forall env, applied env (body e) n' = applied env e n.
Proof.
  unfold strip_not. intros Hl. inversion Hl as [id E1 E2|e' l b Hl' E1 E2|op e1 e2 l1 l2 b H1 H2 E1 E2]; subst e.
  - exists n. rewrite <- E2. cbn [rev app body]. split; [done|]. split; [constructor|done].
  - rewrite rev_unit. cbn [ce_type]. change (COND_NOT =? COND_NOT) with true. cbn iota.
    pose proof (listing_nonempty _ _ Hl') as Hne. destruct (rev l) as [|x r] eqn:Er.
    { apply (f_equal (@rev _)) in Er. rewrite rev_involutive in Er. done. }
    eexists. split; [reflexivity|]. rewrite <- Er, rev_involutive. cbn [c_exprs body]. split; [done|]. split.
    { rewrite blen_app. pose proof (blen_nonneg [CondExpr COND_NOT b]). lia. }
    intros env. unfold applied. cbn [value true_list false_list avtrue_list avfalse_list]. by destruct (value env e').
  - exists n. rewrite <- E2. rewrite app_assoc, rev_unit. cbn [ce_type]. destruct (op_type_other op) as [_ ->].
    split; [done|]. rewrite <- app_assoc, E2. split; [by rewrite <- E2; constructor|]. done.
Qed.

Lemma body_facts e : ids (body e) = ids e /\ need (body e) <= need e.
Proof. by destruct e. Qed.

(** The first booleans of a node, and a node in normal form: up to five booleans,
    its table has the values of its expression. *)
Definition vars (cn : cond_full) : list Z := take (Z.to_nat (nbools cn)) (bool_ids cn).

Definition normal (cn : cond_full) (e : bexpr) : Prop :=
  listing e (c_exprs (f_node cn)) /\
  (nbools cn <= COND_MAX_BOOLS ->
     blen (vars cn) = nbools cn /\ NoDup (vars cn) /\ (forall id, id ∈ vars cn <-> id ∈ ids e) /\ 0 <= expr_pre_comp cn < 2 ^ (2 ^ blen (vars cn)) /\
     forall env, value env e = Z.testbit (expr_pre_comp cn) (number env (vars cn))).

Lemma states_of vars b : all_states vars b ->
  exists l, mapM (bool_state b) vars = Some l /\ Forall2 (fun id v => b !! index_of id = Some (Some v)) vars l.
Proof.
  induction 1 as [|id vars [v Hv] Hs (l & El & Hl)]; [by exists []|]. exists (v :: l). cbn [mapM mbind].
  rewrite (proj2 (bool_state_lookup b id v) Hv). cbn [mbind option_bind]. rewrite El. split; [done|by constructor].
Qed.

Lemma table_bound x n : 0 <= n -> is_u32 x -> (forall i, n <= i -> Z.testbit x i = false) -> 0 <= x < 2 ^ n.
Proof.
  intros Hn Hx Hb. split; [apply Hx|]. destruct (Z.eq_dec x 0) as [->|Hne]; [lia|].
  apply Z.log2_lt_pow2; [destruct Hx; lia|]. destruct (Z.lt_ge_cases (Z.log2 x) n) as [|Hge]; [done|].
  specialize (Hb _ Hge). rewrite Z.bit_log2 in Hb; [done|]. destruct Hx; lia.
Qed.

Lemma blen_take {A} n (l : list A) : blen (take n l) <= Z.of_nat n.
Proof. unfold blen. rewrite length_take. lia. Qed.

Lemma cond_normalize_ok (bools : boolean_states) (cn : cond_full) (e : bexpr) :
  listing e (c_exprs (f_node cn)) -> need e <= COND_EXPR_MAXDEPTH ->
  blen (c_exprs (f_node cn)) < 2 ^ 32 -> Forall is_u32 (ids e) -> all_states (ids e) bools ->
  exists cn', cond_normalize_expr bools cn = Some (0, bools, cn') /\ normal cn' (body e) /\
    forall env, applied env (body e) (f_node cn') = applied env e (f_node cn).
Proof.
  intros Hl Hd Hlen Hu Hs. unfold cond_normalize_expr. pose proof (listing_nonempty _ _ Hl) as Hne.
  destruct (c_exprs (f_node cn)) as [|x xs] eqn:Ex; [done|]. rewrite <- Ex in *. clear Hne.
  destruct (strip_not_spec e (f_node cn) Hl) as (n & -> & Hl' & Hle & Happ). destruct (body_facts e) as [Ei Hd'].
  set (arr := replicate (Z.to_nat COND_MAX_BOOLS) 0).
  assert (found [] (0, arr)) as H0 by (split; [done|left; split; [done|split; [constructor|done]]]).
  pose proof (count_bools (c_exprs n) [] (0, arr) ltac:(rewrite blen_nil; lia) H0) as [Hla Hf]. cbn [app] in Hf.
  rewrite (listing_bools _ _ Hl'), Ei in Hf. destruct (fold_left count_bool (c_exprs n) (0, arr)) as [k ids_]. cbn [fst snd] in *.
  destruct (Z.leb_spec k COND_MAX_BOOLS) as [Hk|Hk].
  2: { eexists. split; [reflexivity|]. split; [|exact Happ]. split; [exact Hl'|]. cbn [nbools]. lia. }
  destruct Hf as [(Hk0 & Hn & Hin)|]; [|lia]. set (vs := take (Z.to_nat k) ids_) in *.
  assert (forall P : Z -> Prop, Forall P (ids e) -> Forall P vs) as Hall.
  { intros P. rewrite !Forall_forall. intros HP id Hid. by apply HP, Hin. }
  destruct (states_of vs bools (Hall _ Hs)) as (orig & -> & Ho). cbn [mbind option_bind].
  assert (blen vs = k) as Evs by (unfold vs, blen; rewrite length_take, Hla; unfold COND_MAX_BOOLS in *; lia).
  assert (0 < 2 ^ k <= 32) as Hpk.
  { split; [by apply Z.pow_pos_nonneg; lia|]. change 32 with (2 ^ COND_MAX_BOOLS). apply Z.pow_le_mono_r; lia. }
  rewrite Z.shiftl_1_l.
  destruct (precompute_spec vs (body e) (c_exprs n) (Z.to_nat (2 ^ k)) 0 bools 0) as (b' & pre & -> & Hoff & Hs' & Hp & Hbit);
    [done|lia|rewrite Ei; intros id Hid; by apply Hin|done|by apply Hall|by apply Hall|done|done|lia|intros; apply Z.bits_0|].
  rewrite Z.add_0_l, Z2Nat.id in Hbit by lia. cbn [mbind option_bind]. change (0 =? 0) with true. cbn iota.
  rewrite (restore_same vs orig bools b') by (done || by apply NoDup_index, Hn; apply Hall). cbn [mbind option_bind].
  eexists. split; [reflexivity|]. split; [|exact Happ]. split; [exact Hl'|]. intros _. unfold vars. cbn [nbools bool_ids expr_pre_comp].
  fold vs. split; [exact Evs|]. split; [done|]. rewrite Ei. split; [exact Hin|]. rewrite Evs. split.
  - apply table_bound; [lia|done|]. intros i Hi. rewrite Hbit, (proj2 (Z.ltb_ge i (2 ^ k)) Hi).
    by rewrite andb_false_r, Z.bits_0.
  - intros env. pose proof (number_range env vs) as Hr. rewrite Evs in Hr. rewrite Hbit.
    replace (0 <=? number env vs) with true by lia. replace (number env vs <? 2 ^ k) with true by lia.
    cbn [andb]. apply value_ext. intros id Hid. symmetry. apply bits_env_number; [done|]. apply Hin. by rewrite <- Ei.
Qed.

(** C30. Conditional expressions.  An expression that is the listing of a tree that
    fits on the stack of [COND_EXPR_MAXDEPTH] places is put into normal form without
    a change to the booleans: in every state of them the same rules apply as before;
    and if it has at most five booleans, they are listed once each and the bit of
    the table at the number they form is the value of the expression. *)
Theorem conditions_normalize (bools : boolean_states) (cn : cond_full) (e : bexpr) :
  listing e (c_exprs (f_node cn)) -> need e <= COND_EXPR_MAXDEPTH ->
  blen (c_exprs (f_node cn)) < 2 ^ 32 -> Forall is_u32 (ids e) -> all_states (ids e) bools ->
  exists cn', cond_normalize_expr bools cn = Some (0, bools, cn') /\ normal cn' (body e) /\
    forall env, applied env (body e) (f_node cn') = applied env e (f_node cn).
Proof. apply cond_normalize_ok. Qed.

(** ** Comparison *)

Lemma testbits_eq x y n : 0 <= n -> 0 <= x < 2 ^ n -> 0 <= y < 2 ^ n ->
  (forall i, 0 <= i < n -> Z.testbit x i = Z.testbit y i) -> x = y.
Proof.
  intros Hn Hx Hy Hb. apply Z.bits_inj'. intros i Hi. destruct (Z.lt_ge_cases i n); [by apply Hb|].
  rewrite <- (Z.mod_small x (2 ^ n)), <- (Z.mod_small y (2 ^ n)) by lia. by rewrite !Z.mod_pow2_bits_high by lia.
Qed.

(** Every number of the right size is the number of a state of the booleans. *)
Lemma number_bits_env vs i : NoDup vs -> 0 <= i < 2 ^ blen vs -> number (bits_env vs i) vs = i.
Proof.
  intros Hn Hi. pose proof (blen_nonneg vs). pose proof (number_range (bits_env vs i) vs).
  apply (testbits_eq _ _ (blen vs)); [done..|]. intros j Hj. replace j with (Z.of_nat (Z.to_nat j)) by lia.
  destruct (lookup_lt_is_Some_2 vs (Z.to_nat j)) as [id Hid]; [unfold blen in *; lia|].
  rewrite (number_bit _ _ _ id) by done. by apply bits_env_lookup.
Qed.

(** Two nodes in normal form with up to five booleans, the same ones: when the nodes
    list them in the same order, they are equal if and only if their expressions
    have the same value in every state of the booleans. *)
Lemma cond_expr_equal_spec a b ea eb : normal a ea -> normal b eb ->
  0 <= nbools a <= COND_MAX_BOOLS -> nbools b = nbools a -> vars a = vars b ->
  cond_expr_equal (Some a) (Some b) = true <-> forall env, value env ea = value env eb.
Proof.
  intros [_ Ha] [_ Hb] Hk En Ev. destruct (Ha ltac:(lia)) as (_ & Hn & Hia & Hra & Hta).
  destruct (Hb ltac:(lia)) as (_ & _ & Hib & Hrb & Htb). rewrite <- Ev in *.
  unfold cond_expr_equal. rewrite En, Z.eqb_refl. cbn [negb]. rewrite (proj2 (Z.leb_le _ _)) by lia. cbn [andb].
  assert (same_bools a b = true) as ->.
  { unfold same_bools. rewrite En, Z.eqb_refl. cbn [negb]. apply forallb_forall. intros id Hid%list_elem_of_In.
    rewrite bool_present_spec by lia. apply bool_decide_eq_true. rewrite <- En. change (id ∈ vars b). by rewrite <- Ev. }
  cbn [negb]. rewrite Z.eqb_eq. split; [intros E env; by rewrite Hta, Htb, E|]. intros He.
  apply (testbits_eq _ _ (2 ^ blen (vars a))); [lia|done|done|]. intros i Hi.
  rewrite <- (number_bits_env (vars a) i), <- Hta, <- Htb by done. apply He.
Qed.

(** The values of as many booleans give the same number when they are the same in
    this order. *)
Lemma number_map env env' l l' : length l = length l' ->
  number env l = number env' l' <-> map env l = map env' l'.
Proof.
  revert l'. induction l as [|x l IH]; intros [|y l'] Hl; [done..|]. cbn [number map]. injection Hl as Hl.
  specialize (IH l' Hl). split.
  - intros E. assert (env x = env' y /\ number env l = number env' l') as [-> E'].
    { destruct (env x), (env' y); cbn [Z.b2z] in E; (split; [done || lia|lia]). }
    f_equal. by apply IH.
  - intros E. injection E as -> E. by rewrite (proj2 IH E).
Qed.

Lemma bits_env_ext vs l i : NoDup vs -> length l = length vs -> NoDup l ->
  map (bits_env l i) l = map (bits_env vs i) vs.
Proof.
  intros Hn Hl Hn'. apply list_eq. intros j. rewrite !list_lookup_fmap.
  destruct (vs !! j) as [y|] eqn:Ey, (l !! j) as [x|] eqn:Ex; cbn [fmap option_fmap option_map]; [|exfalso..|done].
  - by rewrite (bits_env_lookup vs i j y), (bits_env_lookup l i j x).
  - apply lookup_lt_Some in Ey. apply lookup_ge_None in Ex. lia.
  - apply lookup_lt_Some in Ex. apply lookup_ge_None in Ey. lia.
Qed.

(** All of as many different booleans are present: the lists are the same up to
    the order. *)
Lemma same_bools_spec a b ea eb : normal a ea -> normal b eb -> nbools a <= COND_MAX_BOOLS ->
  nbools b = nbools a -> same_bools a b = true <-> vars a ≡ₚ vars b.
Proof.
  intros [_ Ha] [_ Hb] Hk En. destruct (Ha Hk) as (La & Hna & _). destruct (Hb ltac:(lia)) as (Lb & Hnb & _).
  unfold same_bools. rewrite En, Z.eqb_refl. cbn [negb]. fold (vars a). rewrite forallb_forall.
  assert (forall id, bool_present id (bool_ids b) (nbools a) = bool_decide (id ∈ vars b)) as Hp.
  { intros id. rewrite bool_present_spec by done. unfold vars. by rewrite En. }
  split.
  - intros Hall. apply submseteq_length_Permutation; [|unfold blen in *; lia].
    apply NoDup_submseteq; [done|]. intros id Hid. specialize (Hall id (proj1 (list_elem_of_In _ _) Hid)).
    by rewrite Hp, bool_decide_eq_true in Hall.
  - intros Hpm id Hid%list_elem_of_In. rewrite Hp. apply bool_decide_eq_true. by rewrite <- Hpm.
Qed.

Lemma cond_expr_equal_places a b ea eb : normal a ea -> normal b eb ->
  nbools a <= COND_MAX_BOOLS -> nbools b <= COND_MAX_BOOLS ->
  cond_expr_equal (Some a) (Some b) = true <-> vars a ≡ₚ vars b /\
    forall env env', map env (vars a) = map env' (vars b) -> value env ea = value env' eb.
Proof.
  intros Ha Hb Hka Hkb. destruct (proj2 Ha Hka) as (La & Hna & _ & Hra & Hta).
  destruct (proj2 Hb Hkb) as (Lb & Hnb & _ & Hrb & Htb). unfold cond_expr_equal.
  destruct (Z.eqb_spec (nbools a) (nbools b)) as [En|En]; cbn [negb]; last first.
  { split; [done|]. intros [Hpm _]. apply Permutation_length in Hpm. unfold blen in *. lia. }
  replace ((nbools a <=? COND_MAX_BOOLS) && (nbools b <=? COND_MAX_BOOLS)) with true by lia.
  assert (length (vars a) = length (vars b)) as Hlen by (unfold blen in *; lia).
  pose proof (same_bools_spec a b ea eb Ha Hb Hka (eq_sym En)) as Hsame.
  destruct (same_bools a b); cbn [negb]; last first.
  { split; [done|]. intros [Hpm _]. by apply Hsame in Hpm. }
  assert (vars a ≡ₚ vars b) as Hpm by by apply Hsame. rewrite Z.eqb_eq. split.
  - intros E. split; [done|]. intros env env' Hm. by rewrite Hta, Htb, E, (proj2 (number_map _ _ _ _ Hlen) Hm).
  - intros [_ He]. pose proof (blen_nonneg (vars a)).
    apply (testbits_eq _ _ (2 ^ blen (vars a))); [lia|done|unfold blen in *; by rewrite Hlen|].
    intros i Hi. assert (blen (vars b) = blen (vars a)) as Eb by (unfold blen; by rewrite Hlen).
    pose proof (Hta (bits_env (vars a) i)) as A. pose proof (Htb (bits_env (vars b) i)) as B.
    rewrite number_bits_env in A, B by (rewrite ?Eb; done). rewrite <- A, <- B. apply He. by apply bits_env_ext.
Qed.

(** *** Nodes that are taken for equal *)

(** Rules under the booleans 1 and not 2, and under 2 and not 1. *)
Definition sample_bools : boolean_states := [Some 1; Some 0].
Definition one_and_not (x y : Z) : bexpr := Binary And (Bool x) (Not (Bool y)).
Definition one_and_not_exprs (x y : Z) : list cond_expr :=
  [CondExpr COND_BOOL x; CondExpr COND_BOOL y; CondExpr COND_NOT 0; CondExpr COND_AND 0].

Definition sample_full (x y : Z) : cond_full :=
  CondFull (CondNode 0 (one_and_not_exprs x y) [] [] [Avrule 1 0 type_set_init type_set_init [] None] [] 0) 0 [0; 0; 0; 0; 0] 0.

Lemma sample_listing x y : listing (one_and_not x y) (one_and_not_exprs x y).
Proof. exact (listing_binary And (Bool x) (Not (Bool y)) _ _ 0 (listing_bool x) (listing_not _ _ 0 (listing_bool y))). Qed.

(** C31. What a search takes for the same condition.  Two nodes in normal form with
    up to five booleans are equal if and only if they have the same booleans, in any
    order, and their expressions have the same value whenever the booleans have the
    same values place by place: the table of values goes by the places, in which the
    expressions list the booleans.  For the same order this means that the
    conditions are the same; for another one it does not: "x and not y" is equal to
    "y and not x" for all x and y, although they differ in the states in which x
    and y do. *)
Theorem conditions_compared (a b : cond_full) (ea eb : bexpr) :
  normal a ea -> normal b eb -> nbools a <= COND_MAX_BOOLS -> nbools b <= COND_MAX_BOOLS ->
  (cond_expr_equal (Some a) (Some b) = true <->
     vars a ≡ₚ vars b /\
     forall env env', map env (vars a) = map env' (vars b) -> value env ea = value env' eb) /\
  (vars a = vars b ->
     cond_expr_equal (Some a) (Some b) = true <-> forall env, value env ea = value env eb) /\
  (forall x y, x <> y -> ea = one_and_not x y -> eb = one_and_not y x ->
     vars a = [x; y] -> vars b = [y; x] ->
     cond_expr_equal (Some a) (Some b) = true /\ exists env, value env ea <> value env eb).
Proof.
  intros Ha Hb Hka Hkb.
  assert (cond_expr_equal (Some a) (Some b) = true <-> vars a ≡ₚ vars b /\
     forall env env', map env (vars a) = map env' (vars b) -> value env ea = value env' eb) as Hspec
    by by apply cond_expr_equal_places.
  split; [exact Hspec|]. split.
  - intros Ev. destruct (proj2 Ha Hka) as (La & _). destruct (proj2 Hb Hkb) as (Lb & _).
    pose proof (blen_nonneg (vars a)). rewrite <- Ev in Lb. exact (cond_expr_equal_spec a b ea eb Ha Hb ltac:(lia) ltac:(lia) Ev).
  - intros x y Hne -> -> Va Vb. split.
    + apply Hspec. rewrite Va, Vb. split; [apply Permutation_swap|]. intros env env' E. injection E as E1 E2.
      cbn. by rewrite E1, E2.
    + exists (Z.eqb x). cbn. rewrite Z.eqb_refl. by rewrite (proj2 (Z.eqb_neq x y) Hne).
Qed.

(** The search finds "1 and not 2" for "2 and not 1". *)
Lemma conditions_confused :
  exists a b, cond_normalize_expr sample_bools (sample_full 1 2) = Some (0, sample_bools, a) /\
    cond_normalize_expr sample_bools (sample_full 2 1) = Some (0, sample_bools, b) /\
    cond_node_search sample_bools [a] b = Some (Some 0%nat, [a]) /\
    cond_evaluate_expr sample_bools (c_exprs (f_node a)) = Some 1 /\
    cond_evaluate_expr sample_bools (c_exprs (f_node b)) = Some 0.
Proof.
  eexists _, _. do 4 (split; [vm_compute; reflexivity|]). vm_compute; reflexivity.
Qed.

Lemma sample_normalizes x y : is_u32 x -> is_u32 y -> all_states [x; y] sample_bools ->
  exists cn', cond_normalize_expr sample_bools (sample_full x y) = Some (0, sample_bools, cn') /\ normal cn' (one_and_not x y).
Proof.
  intros Hx Hy Hs. destruct (cond_normalize_ok sample_bools (sample_full x y) (one_and_not x y)) as (cn' & E & Hn & _).
  - exact (sample_listing x y).
  - by vm_compute.
  - by vm_compute.
  - exact (Forall_cons_2 _ _ _ Hx (Forall_cons_2 _ _ _ Hy (Forall_nil_2 _))).
  - exact Hs.
  - by exists cn'.
Qed.

Definition sample_normal (x y : Z) : cond_full :=
  match cond_normalize_expr sample_bools (sample_full x y) with Some (_, cn) => cn | None => sample_full x y end.

Lemma sample_normal_ok x y : is_u32 x -> is_u32 y -> all_states [x; y] sample_bools -> normal (sample_normal x y) (one_and_not x y).
Proof.
  intros Hx Hy Hs. destruct (sample_normalizes x y Hx Hy Hs) as (cn' & E & Hn). unfold sample_normal. by rewrite E.
Qed.

Lemma conditions_compared_witness :
  cond_expr_equal (Some (sample_normal 1 2)) (Some (sample_normal 2 1)) = true /\
  exists env, value env (one_and_not 1 2) <> value env (one_and_not 2 1).
Proof.
  destruct (conditions_compared (sample_normal 1 2) (sample_normal 2 1) (one_and_not 1 2) (one_and_not 2 1)) as (_ & _ & H).
  - apply sample_normal_ok; [done..|]. repeat constructor; by eexists.
  - apply sample_normal_ok; [done..|]. repeat constructor; by eexists.
  - by vm_compute.
  - by vm_compute.
  - apply (H 1 2); [done|done|done|reflexivity|reflexivity].
Defined.

Lemma conditions_normalize_witness :
  exists cn', cond_normalize_expr sample_bools (sample_full 1 2) = Some (0, sample_bools, cn') /\
    normal cn' (one_and_not 1 2) /\
    forall env, applied env (one_and_not 1 2) (f_node cn') = applied env (one_and_not 1 2) (f_node (sample_full 1 2)).
Proof.
  apply (conditions_normalize sample_bools (sample_full 1 2) (one_and_not 1 2)).
  - exact (sample_listing 1 2).
  - by vm_compute.
  - by vm_compute.
  - by repeat constructor.
  - repeat constructor; by eexists.
Defined.
