(* ===== verification/Policyconflict.v ===== *)
(** What the reader of conditional rules makes of any file (conditional.c): the
    rules that pass its checks decide at most one type for each question, in every
    state of the booleans. *)
From S2P Require Import Prelude PolicyFile Hashtab Avtab Policyrw Policysyms Policyimage Policyrules Policyexpand Policycond.

(** ** One rule *)

(** The converse of [no_conflict]. *)
Lemma conflict_compatible te t te_cond tc other seen n :
  awf te t -> awf te_cond tc -> aentries te_cond ≡ₚ seen ->
  bits (specified (key n)) AVTAB_TYPE && type_conflict te te_cond other (key n) = false ->
  compatible (aentries te) other seen n.
Proof.
  intros Hw Hwc Hp Hc Eb. rewrite Eb in Hc. cbn [andb] in Hc. unfold type_conflict in Hc.
  rewrite (avtab_search_hits te t) in Hc by done. case_bool_decide as Hte; cbn [negb] in Hc; [|done]. split; [done|].
  pose proof (search_node_ok te_cond tc (key n) (strip_enabled (specified (key n))) Hwc) as Hs.
  apply (hits_perm (key n) (strip_enabled (specified (key n)))) in Hp.
  destruct other as [|o other].
  - rewrite (avtab_search_hits te_cond tc) in Hc by done. case_bool_decide as Hn; [|done]. left.
    rewrite Hn in Hp. by apply Permutation_nil_l in Hp.
  - unfold avtab_search_node in Hc. rewrite (awf_table te_cond tc Hwc) in Hc. cbn [mbind option_bind] in Hc.
    destruct (search_chain (key n) _ _) as [r|].
    2: { left. rewrite Hs in Hp. by apply Permutation_nil_l in Hp. }
    right. destruct Hs as (m & q & -> & Hm & Hq & Hh). cbn [avtab_search_node_next] in Hc.
    case_bool_decide as Hnext; [done|]. apply negb_false_iff, bool_decide_eq_true in Hc. exists m. split; [|done].
    rewrite Hh in Hp. apply Permutation_length_1_inv. rewrite <- Hp.
    pose proof (search_chain_spec (key m) (strip_enabled (specified (key n))) q (asorted_tail _ _ Hq)) as Hs2.
    destruct (search_chain (key m) _ q) as [r|]; [done|].
    unfold hit in Hm. apply andb_prop in Hm as [Hsame _]. by rewrite (hits_same (key n) (key m)), Hs2.
Qed.

(** ** Any file *)

(** What every insertion keeps, an item of the file keeps. *)
Section Items.
Context {A : Type} (insertf : A -> avtab_key -> avtab_datum -> Z * A) (P : A -> Prop).
Context (insertf_keeps : forall a k d a', P a -> insertf a k d = (0, a') -> P a').

Lemma old_items_keep order v enabled buf items k a items' a' :
  P a -> old_items insertf order v enabled buf items k a = Some (0, items', a') -> P a'.
Proof using insertf_keeps.
  revert items k a. induction order as [|s order IH]; intros items k a Ha E; cbn [old_items] in E; [by injection E as _ <-|].
  destruct (bits v s); [|by eapply IH]. destruct (buf !! _) as [d|]; [|done]. cbn [mbind option_bind] in E.
  destruct (insertf a _ _) as [rc a1] eqn:Ei. destruct (Z.eqb_spec rc 0) as [->|Hrc]; cbn [negb] in E.
  - eapply IH; [|exact E]. by eapply insertf_keeps.
  - by injection E as -> _ _.
Qed.

Lemma read_item_keeps compat junk fp vers a compat' fp' a' :
  P a -> avtab_read_item insertf compat junk fp vers a = Some (0, compat', fp', a') -> P a'.
Proof using insertf_keeps.
  intros Ha. unfold avtab_read_item. destruct (vers <? POLICYDB_VERSION_AVTAB).
  - unfold read_old. intros E.
    repeat (case_match; try discriminate; cbn [mbind option_bind] in E; simplify_eq).
    all: try (destruct (old_items _ _ _ _ _ _ _) as [[[rc items] a1]|] eqn:Eo; [|done]; cbn [mbind option_bind] in E).
    all: repeat case_match; cbn [mbind option_bind] in E; simplify_eq; try discriminate.
    all: rewrite negb_false_iff, Z.eqb_eq in *; subst; by eapply old_items_keep.
  - intros [= E]. unfold read_new in E. repeat (case_match; simplify_eq); by eapply insertf_keeps.
Qed.
End Items.

Lemma rules_compatible_snoc te other seen l n :
  rules_compatible te other seen (l ++ [n]) <-> rules_compatible te other seen l /\ compatible te other (rev l ++ seen) n.
Proof.
  revert seen. induction l as [|m l IH]; intros seen; cbn [app rules_compatible rev]; [cbn; tauto|].
  rewrite IH, <- app_assoc. cbn [app]. tauto.
Qed.

Lemma conds_compatible_snoc te seen l c :
  conds_compatible te seen (l ++ [c]) <-> conds_compatible te seen l /\ conds_compatible te (rev (cond_rules l) ++ seen) [c].
Proof.
  revert seen. induction l as [|d l IH]; intros seen; cbn [app conds_compatible]; [cbn; tauto|].
  rewrite IH. unfold cond_rules. cbn [map concat]. rewrite !rev_app_distr, <- !app_assoc. cbn [conds_compatible]. tauto.
Qed.

Section Kernel.
Context (p : policy_format) (target_platform_ : Z) (kern : is_kern p = true).
Context (te : avtab) (te_wf : exists t, awf te t) (junk : list Z) (nbools : Z).

Definition rules_so_far (other seen : list avtab_node) (s : avtab * list avtab_node) : Prop :=
  cond_holds s.1 (rev s.2 ++ seen) /\ rules_compatible (aentries te) other seen s.2.

Lemma insertf_keeps other seen s k d s' :
  rules_so_far other seen s -> cond_insertf te other s k d = (0, s') -> rules_so_far other seen s'.
Proof using te_wf.
  destruct s as [te_cond head]. intros [[[tc Hwc] Hp] Hr] E. destruct te_wf as [t Hw]. unfold cond_insertf in E.
  destruct (bits (specified k) AVTAB_TYPE && type_conflict te te_cond other k) eqn:Ec; [done|].
  destruct (avtab_insert_nonunique_spec te_cond tc k d Hwc) as (te' & Ei & Hw' & Hp' & _).
  rewrite Ei in E. injection E as <-. cbn [fst snd] in *. split; cbn [fst snd].
  - split; [done|]. rewrite Hp', Hp, rev_app_distr. done.
  - apply rules_compatible_snoc. split; [done|]. apply (conflict_compatible te t te_cond tc); [done..|].
    by rewrite key_new_node.
Qed.

(** The rules of a list that was read are all written. *)
Lemma written_all l : written_rules (map (fun n => CondAv n true) l) = l.
Proof. unfold written_rules. induction l as [|n l IH]; [done|]. cbn. by rewrite IH. Qed.

Lemma read_av_list_reads other seen st fp l st' rest :
  cond_holds st.2 seen -> cond_read_av_list p junk te other st fp = Some ((l, st'), rest) ->
  cond_holds st'.2 (rev (written_rules l) ++ seen) /\
  rules_compatible (aentries te) (map cav_node other) seen (written_rules l) /\ l = stored_av l.
Proof using te_wf.
  intros Hh E. unfold cond_read_av_list in E. apply bind_reads in E as (ws & fp1 & _ & E).
  destruct (buf ws 0 =? 0).
  { apply ret_reads in E as [[= <- <-] _]. done. }
  apply bind_reads in E as ([compat [te_cond head]] & fp2 & E1 & E).
  apply ret_reads in E as [[= <- <-] _]. unfold stored_av. rewrite written_all. cbn [snd].
  apply (times_reads _ (fun _ (s : bool * _) => rules_so_far (map cav_node other) seen s.2) _ 0%nat) in E1.
  - by destruct E1.
  - intros _ [c s] fp3 [c' s'] rest3 Hs. unfold av_item. cbn [fst snd] in *. intros E3.
    destruct (avtab_read_item _ _ _ _ _ _) as [[[[rc c3] fp4] s3]|] eqn:Er; [|done]. cbn [mbind option_bind] in E3.
    destruct (Z.eqb_spec rc 0) as [->|]; [|done]. injection E3 as <- <- <-.
    eapply read_item_keeps; [|exact Hs|exact Er]. intros a k d a'. apply insertf_keeps.
  - by split.
Qed.

(** A node: its rules in the table, and its expressions. *)
Lemma read_node_reads seen st fp n st' rest :
  cond_holds st.2 seen -> cond_read_node p target_platform_ junk nbools te st fp = Some ((n, st'), rest) ->
  cond_holds st'.2 (rev (cond_rules [n]) ++ seen) /\ conds_compatible (aentries te) seen [n].
Proof using te_wf kern.
  intros Hh E. unfold cond_read_node in E. apply bind_reads in E as (ws & fp1 & _ & E). apply bind_reads in E as (ws' & fp2 & _ & E).
  apply bind_reads in E as (es & fp3 & _ & E). rewrite kern in E.
  apply bind_reads in E as ([[[[tl fl] avt] avf] st1] & fp4 & Er & E).
  apply bind_reads in Er as ([tl1 st2] & fp5 & Et & Er). apply bind_reads in Er as ([fl1 st3] & fp6 & Ef & Er).
  apply ret_reads in Er as [[= <- <- <- <- <-] _]. apply bind_reads in E as (flags & fp7 & _ & E).
  apply ret_reads in E as [[= <- <-] _].
  destruct (read_av_list_reads _ _ _ _ _ _ _ Hh Et) as (Hht & Hrt & Et').
  destruct (read_av_list_reads _ _ _ _ _ _ _ Hht Ef) as (Hhf & Hrf & _).
  assert (map cav_node tl1 = written_rules tl1) as Ew.
  { rewrite Et' at 1. unfold stored_av. rewrite map_map. apply map_id. }
  unfold cond_rules. cbn [map concat true_list false_list conds_compatible]. rewrite app_nil_r, rev_app_distr, <- app_assoc.
  split; [exact Hhf|]. rewrite Ew in Hrf. done.
Qed.

Lemma read_list_reads h0 compat fp l compat' te_cond rest :
  0 < nel te < 2 ^ 32 ->
  cond_read_list p target_platform_ junk nbools te (compat, h0) fp = Some ((l, (compat', te_cond)), rest) ->
  cond_holds te_cond (rev (cond_rules l)) /\ conds_compatible (aentries te) [] l.
Proof using te_wf kern.
  intros Hn E. unfold cond_read_list in E. apply bind_reads in E as (ws & fp1 & _ & E). cbn [fst snd] in E.
  destruct (alloc_ok h0 (nel te) Hn) as (h1 & t1 & j & Ea & Hw1 & He1 & _). rewrite Ea in E.
  apply ensure_reads in E as [_ E].
  apply (times_reads _ (fun _ (s : list cond_node * cond_state) =>
    cond_holds s.2.2 (rev (cond_rules s.1)) /\ conds_compatible (aentries te) [] s.1) _ 0%nat) in E; [done| |].
  - intros _ [acc st] fp2 [acc' st'] rest2 [Hh Hc]. cbn [fst snd] in *. intros E2.
    apply bind_reads in E2 as ([n st2] & fp3 & En & E2). apply ret_reads in E2 as [[= <- <-] _].
    destruct (read_node_reads _ _ _ _ _ _ Hh En) as [Hh' Hc']. rewrite conds_compatible_snoc, app_nil_r.
    split; [|done]. unfold cond_rules in *. by rewrite map_app, concat_app, rev_app_distr.
  - split; [|done]. cbn [fst snd]. split; [by exists t1|by rewrite He1].
Qed.

End Kernel.

(** ** One type for each question *)

(** The rules that are in force when each expression has the value [state]:
    those of the true list for 1, those of the false list for 0, none for -1. *)
Definition in_force (state : cond_node -> Z) (l : list cond_node) : list avtab_node :=
  concat (map (fun c => if state c =? 1 then written_rules (true_list c)
                        else if state c =? 0 then written_rules (false_list c) else []) l).

(** The rules of [l] that answer the question of [n]. *)
Definition answers (n : avtab_node) (l : list avtab_node) : list avtab_node :=
  hits (key n) (strip_enabled (specified (key n))) l.

Lemma answers_app n l1 l2 : answers n (l1 ++ l2) = answers n l1 ++ answers n l2.
Proof. apply hits_app. Qed.

(** Rules none of which is answered by the rules before it. *)
Fixpoint fresh (before l : list avtab_node) : Prop :=
  match l with
  | [] => True
  | n :: l => (bits (specified (key n)) AVTAB_TYPE = true -> answers n before = []) /\ fresh (before ++ [n]) l
  end.

Lemma fresh_app before l1 l2 : fresh before (l1 ++ l2) <-> fresh before l1 /\ fresh (before ++ l1) l2.
Proof.
  revert before. induction l1 as [|n l1 IH]; intros before; cbn [app fresh]; [rewrite app_nil_r; tauto|].
  rewrite IH, <- app_assoc. cbn [app]. tauto.
Qed.

Lemma answers_within n l l' : l ⊆ l' -> answers n l' = [] -> answers n l = [].
Proof.
  intros Hs E. destruct (answers n l) as [|m r] eqn:Em; [done|]. assert (m ∈ answers n l) as Hm by (rewrite Em; by left).
  unfold answers, hits in *. apply list_elem_of_filter in Hm as [H1 H2].
  assert (m ∈ filter (fun x => hit (key n) (strip_enabled (specified (key n))) x = true) l') as Hin
    by (apply list_elem_of_filter; auto).
  rewrite E in Hin. by apply elem_of_nil in Hin.
Qed.

Lemma elem_of_rev {A} (x : A) l : x ∈ rev l <-> x ∈ l.
Proof. by rewrite <- Permutation_rev. Qed.

(** The rules of a branch, after rules of the table and of other conditionals, but
    without those of the other branch [t]. *)
Lemma branch_fresh te t pre seen l before :
  rules_compatible te t (pre ++ rev t ++ seen) l -> before ⊆ te ++ pre ++ seen -> fresh before l.
Proof.
  revert pre before. induction l as [|n l IH]; intros pre before; [done|]. intros [Hn Hl] Hb. split.
  - intros Ht. destruct (Hn Ht) as [Hte Hs]. apply (answers_within n _ _ Hb). rewrite answers_app. unfold answers at 1.
    rewrite Hte. cbn [app]. destruct Hs as [Hs|(m & Hs & Hm)]; rewrite !hits_app in Hs.
    + apply app_eq_nil in Hs as [H1 [_ H2]%app_eq_nil]. rewrite answers_app. unfold answers. by rewrite H1, H2.
    + assert (m ∈ hits (key n) (strip_enabled (specified (key n))) (rev t)) as Hin.
      { apply list_elem_of_filter. split; [|by apply elem_of_rev].
        assert (m ∈ [m]) as Hmm by by left. rewrite <- Hs, <- !hits_app in Hmm. by apply list_elem_of_filter in Hmm as [? _]. }
      rewrite answers_app. unfold answers. set (h := hits _ _ (rev t)) in *. destruct h as [|x h]; [by apply elem_of_nil in Hin|].
      set (a := hits _ _ pre) in *. set (b := hits _ _ seen) in *. apply (f_equal length) in Hs. rewrite !length_app in Hs. cbn in Hs.
      destruct a, b; cbn in Hs; done || lia.
  - apply (IH (n :: pre)); [exact Hl|]. intros x [Hx|Hx]%elem_of_app.
    + apply Hb in Hx. apply elem_of_app in Hx as [Hx|Hx]; apply elem_of_app; [by left|right; by right].
    + apply elem_of_app. right. apply list_elem_of_singleton in Hx as ->. by left.
Qed.

Lemma conds_fresh state te seen l before :
  conds_compatible te seen l -> before ⊆ te ++ seen -> fresh before (in_force state l).
Proof.
  revert seen before. induction l as [|c l IH]; intros seen before; [done|]. intros (Ht & Hf & Hl) Hb.
  unfold in_force. cbn [map concat]. apply fresh_app. split.
  - case_match; [apply (branch_fresh te [] [] seen); [exact Ht|exact Hb]|].
    case_match; [apply (branch_fresh te (written_rules (true_list c)) [] seen); [exact Hf|exact Hb]|done].
  - apply (IH _ _ Hl). intros x [Hx|Hx]%elem_of_app.
    + apply Hb in Hx. rewrite !elem_of_app in *. tauto.
    + rewrite !elem_of_app, !elem_of_rev. repeat case_match; try tauto. by apply elem_of_nil in Hx.
Qed.

(** C28. One type for each question.  Whatever the file, when the conditional rules of
    a policy for the kernel are accepted, the table holds exactly the rules of the
    lists that were read; and whatever the values of the conditions, a rule in force
    that decides a type finds no rule for the same types, class and kind in the
    table of the policy or among the rules in force before it. *)
Theorem type_rules_decide (p : policy_format) (target_platform_ nbools : Z) (te : avtab) (junk : list Z)
    (compat : bool) (h0 : avtab) (fp : bytes) (l : list cond_node) (compat' : bool) (te_cond : avtab) (rest : bytes) :
  is_kern p = true -> (exists t, awf te t) -> 0 < nel te < 2 ^ 32 ->
  cond_read_list p target_platform_ junk nbools te (compat, h0) fp = Some ((l, (compat', te_cond)), rest) ->
  (exists t, awf te_cond t) /\ aentries te_cond ≡ₚ cond_rules l /\
  forall state l1 n l2, in_force state l = l1 ++ n :: l2 -> bits (specified (key n)) AVTAB_TYPE = true ->
    answers n (aentries te ++ l1) = [].
Proof.
  intros Hk Hw Hn E. destruct (read_list_reads p target_platform_ Hk te Hw junk nbools _ _ _ _ _ _ _ Hn E) as [[Hwc Hp] Hc].
  split; [done|]. split; [by rewrite Hp, <- Permutation_rev|]. intros state l1 n l2 El Ht.
  pose proof (conds_fresh state _ _ l (aentries te) Hc ltac:(by rewrite app_nil_r)) as Hf. rewrite El in Hf.
  apply fresh_app in Hf as [_ [Hf _]]. by apply Hf.
Qed.

(** The sample conditions as a file. *)
Definition conds_image : bytes :=
  PolicyFile.data (snd (cond_write_list sample_kern SEPOL_TARGET_SELINUX sample_arrays false sample_conds (PolicyFile PF_USE_MEMORY [] 4096))).

Definition conds_table : avtab :=
  match cond_read_list sample_kern SEPOL_TARGET_SELINUX [] 2 sample_avtab (false, Avtab None 0 0 0) conds_image with
  | Some ((_, (_, h)), _) => h
  | None => Avtab None 0 0 0
  end.

(** The process may be 12 or 13, but not both. *)
Lemma type_rules_decide_witness :
  (exists t, awf conds_table t) /\ aentries conds_table ≡ₚ cond_rules sample_conds /\
  forall state l1 n l2, in_force state sample_conds = l1 ++ n :: l2 -> bits (specified (key n)) AVTAB_TYPE = true ->
    answers n (aentries sample_avtab ++ l1) = [].
Proof.
  assert (cond_read_list sample_kern SEPOL_TARGET_SELINUX [] 2 sample_avtab (false, Avtab None 0 0 0) conds_image =
    Some ((sample_conds, (false, conds_table)), [])) as E by (vm_compute; reflexivity).
  refine (type_rules_decide sample_kern SEPOL_TARGET_SELINUX 2 sample_avtab [] false (Avtab None 0 0 0) conds_image
    sample_conds false conds_table [] _ sample_avtab_wf _ E).
  - reflexivity.
  - vm_compute. split; reflexivity.
Defined.
