(* ===== verification/Policyblock.v ===== *)
(** The blocks of a module on disk (policydb.c, write.c): their rules, the symbols
    they add, the symbols in their scope, and the scopes of the symbols of the policy. *)
From S2P Require Import Prelude PolicyFile Ebitmap Hashtab Avtab Policydb Policyrw.
From S2P Require Import Policysyms Policyimage Policyread Policyocon Policytrans Policyrules Policyexpand Policycond.

Definition AVRULE_OPTIONAL := 1.

Record avrule_decl := AvruleDecl {
  decl_id : Z; enabled : Z; d_cond_list : list cond_node; d_avrules : list avrule;
  d_role_tr_rules : list role_trans_rule; d_role_allow_rules : list role_allow_rule;
  d_filename_trans_rules : list filename_trans_rule; d_range_tr_rules : list range_trans_rule;
  d_required : scope_index; d_declared : scope_index; d_symtab : symbols }.

(** [b_enabled]: the place of the enabled branch in the list. *)
Record avrule_block := AvruleBlock { b_flags : Z; branch_list : list avrule_decl; b_enabled : option nat }.

Section Blocks.
Context `{CharSign} (p : policy_format) (target_platform_ : Z) (ta : type_arrays).

(** ** Reading *)

Definition scope_index_init : scope_index := ScopeIndex (replicate (Z.to_nat SYM_NUM) ebitmap_init) [].

(** [symtab_sizes] of avrule_block.c *)
Definition decl_symtab_sizes : list Z := [2; 4; 8; 32; 16; 4; 2; 2].

Definition decl_symtab_of {D} (i : nat) : symtab D := snd (symtab_init (default 0 (decl_symtab_sizes !! i))).

Definition decl_symbols_init : symbols :=
  Symbols (decl_symtab_of 0) (decl_symtab_of 1) (decl_symtab_of 2) (decl_symtab_of 3) (decl_symtab_of 4) (decl_symtab_of 5)
    (decl_symtab_of 6) (decl_symtab_of 7).

Definition avrule_decl_create (decl_id : Z) : avrule_decl :=
  AvruleDecl decl_id 0 [] [] [] [] [] [] scope_index_init scope_index_init decl_symbols_init.

Definition avrule_block_create : avrule_block := AvruleBlock 0 [] None.

(** One round of the loop over the kinds of symbols. *)
Definition read_decl_symtab {D} (sym num_scope_syms : Z)
    (read_f : option (hashtab bytes D) -> reader (option (hashtab bytes D))) (s : symtab D) : reader (symtab D) :=
  if sym <? num_scope_syms then
    ws ← words 2;
    t ← times (Z.to_nat (buf ws 1)) read_f (table s);
    mret (Symtab t (buf ws 0))
  else mret s.

(** [commons] are those of the policy. *)
Definition read_decl_symbols (num_scope_syms : Z) (pcommons : option (hashtab bytes common_datum)) (s : symbols) : reader symbols :=
  co ← read_decl_symtab SYM_COMMONS num_scope_syms common_read (commons s);
  cl ← read_decl_symtab SYM_CLASSES num_scope_syms (class_read p pcommons) (classes s);
  ro ← read_decl_symtab SYM_ROLES num_scope_syms (role_read p) (roles s);
  ty ← read_decl_symtab SYM_TYPES num_scope_syms (type_read p) (types s);
  us ← read_decl_symtab SYM_USERS num_scope_syms (user_read p) (users s);
  bo ← read_decl_symtab SYM_BOOLS num_scope_syms (cond_read_bool p) (bools s);
  le ← read_decl_symtab SYM_LEVELS num_scope_syms sens_read (levels s);
  ca ← read_decl_symtab SYM_CATS num_scope_syms cat_read (cats s);
  mret (Symbols co cl ro ty us bo le ca).

Section Policy.
Context (junk : list Z) (nbools : Z) (te : avtab) (pcommons : option (hashtab bytes common_datum)).

Definition avrule_decl_read (num_scope_syms : Z) (decl : avrule_decl) (st : cond_state) : reader (avrule_decl * cond_state) :=
  ws ← words 2;
  '(cl, st) ← cond_read_list p target_platform_ junk nbools te st;
  av ← avrule_read_list p target_platform_;
  rt ← role_trans_rule_read p;
  ra ← role_allow_rule_read;
  ft ← (if MOD_POLICYDB_VERSION_FILENAME_TRANS <=? policyvers p then filename_trans_rule_read else mret []);
  rg ← (if MOD_POLICYDB_VERSION_RANGETRANS <=? policyvers p then range_trans_rule_read else mret []);
  req ← scope_index_read num_scope_syms;
  dec ← scope_index_read num_scope_syms;
  s ← read_decl_symbols num_scope_syms pcommons (d_symtab decl);
  mret (AvruleDecl (buf ws 0) (buf ws 1) cl av rt ra ft rg req dec s, st).

(** A branch is added at the end; two enabled ones are a failure. *)
Definition add_branch (b : avrule_block) (d : avrule_decl) : option avrule_block :=
  if negb (enabled d =? 0) then
    if bool_decide (b_enabled b <> None) then None
    else Some (AvruleBlock (b_flags b) (branch_list b ++ [d]) (Some (length (branch_list b))))
  else Some (AvruleBlock (b_flags b) (branch_list b ++ [d]) (b_enabled b)).

Definition read_branch (num_scope_syms : Z) (s : avrule_block * cond_state) : reader (avrule_block * cond_state) :=
  '(d, st) ← avrule_decl_read num_scope_syms (avrule_decl_create 0) s.2;
  b ← of_option (add_branch s.1 d);
  mret (b, st).

(** The first block is not optional. *)
Definition read_one_block (num_scope_syms : Z) (s : list avrule_block * cond_state) : reader (list avrule_block * cond_state) :=
  ws ← words 1;
  let b := avrule_block_create in
  let b := match s.1 with [] => b | _ => AvruleBlock (Z.lor (b_flags b) AVRULE_OPTIONAL) (branch_list b) (b_enabled b) end in
  '(b, st) ← times (Z.to_nat (buf ws 0)) (read_branch num_scope_syms) (b, s.2);
  mret (s.1 ++ [b], st).

Definition avrule_block_read (num_scope_syms : Z) (st : cond_state) : reader (list avrule_block * cond_state) :=
  ws ← words 1;
  times (Z.to_nat (buf ws 0)) (read_one_block num_scope_syms) ([], st).

End Policy.

(** ** Writing *)

Definition write_decl_symtab {D} (sym num_scope_syms : Z) (write_f : bytes -> D -> writer) (s : symtab D) : writer :=
  when (sym <? num_scope_syms)
    (put_words [nprim s; table_nel (table s)] ;;
     hashtab_map (table s) write_f).

Definition write_decl_symbols (num_scope_syms : Z) (s : symbols) : writer :=
  write_decl_symtab SYM_COMMONS num_scope_syms common_write (commons s) ;;
  write_decl_symtab SYM_CLASSES num_scope_syms (class_write p) (classes s) ;;
  write_decl_symtab SYM_ROLES num_scope_syms (role_write p) (roles s) ;;
  write_decl_symtab SYM_TYPES num_scope_syms (type_write p) (types s) ;;
  write_decl_symtab SYM_USERS num_scope_syms (user_write p) (users s) ;;
  write_decl_symtab SYM_BOOLS num_scope_syms (cond_write_bool p) (bools s) ;;
  write_decl_symtab SYM_LEVELS num_scope_syms sens_write (levels s) ;;
  write_decl_symtab SYM_CATS num_scope_syms cat_write (cats s).

Definition avrule_decl_write (compat : bool) (num_scope_syms : Z) (d : avrule_decl) : writer :=
  put_words [decl_id d; enabled d] ;;
  cond_write_list p target_platform_ ta compat (d_cond_list d) ;;
  avrule_write_list p target_platform_ (d_avrules d) ;;
  role_trans_rule_write p (d_role_tr_rules d) ;;
  role_allow_rule_write (d_role_allow_rules d) ;;
  when (MOD_POLICYDB_VERSION_FILENAME_TRANS <=? policyvers p) (filename_trans_rule_write (d_filename_trans_rules d)) ;;
  when (MOD_POLICYDB_VERSION_RANGETRANS <=? policyvers p) (range_trans_rule_write (d_range_tr_rules d)) ;;
  scope_index_write num_scope_syms (d_required d) ;;
  scope_index_write num_scope_syms (d_declared d) ;;
  write_decl_symbols num_scope_syms (d_symtab d).

Definition write_one_block (compat : bool) (num_scope_syms : Z) (b : avrule_block) : writer :=
  put_words [blen (branch_list b)] ;;
  each (avrule_decl_write compat num_scope_syms) (branch_list b).

Definition avrule_block_write (compat : bool) (num_scope_syms : Z) (l : list avrule_block) : writer :=
  put_words [blen l] ;;
  each (write_one_block compat num_scope_syms) l.

(** ** Scopes *)

(** [present]: is there a symbol with this name?  [object_r] is in the table of roles. *)
Definition scope_read (is_roles : bool) (present : bytes -> bool) (h : option (hashtab bytes scope_datum))
    : reader (option (hashtab bytes scope_datum)) :=
  ws ← words 1;
  key ← read_key 64 (buf ws 0);
  _ ← ensure (present key);
  ws ← words 2;
  _ ← ensure (negb (buf ws 1 =? 0));
  ids ← words (buf ws 1);
  if bool_decide (key = OBJECT_R) && is_roles then mret h
  else insert_entry h key (ScopeDatum (buf ws 0) ids).

Definition scope_write (key : bytes) (d : scope_datum) : writer :=
  put_words [blen key] ;;
  put_string key ;;
  put_words ([scope d; blen (decl_ids d)] ++ decl_ids d).

(** The tables of scopes, by kind: [present i] tells which symbols of kind [i] there are. *)
Definition read_scope_table (present : Z -> bytes -> bool) (i : Z) (s : symtab scope_datum) : reader (symtab scope_datum) :=
  ws ← words 1;
  t ← times (Z.to_nat (buf ws 0)) (scope_read (i =? SYM_ROLES) (present i)) (table s);
  mret (Symtab t (nprim s)).

Fixpoint read_scopes (present : Z -> bytes -> bool) (num_syms i : Z) (l : list (symtab scope_datum))
    : reader (list (symtab scope_datum)) :=
  match l with
  | [] => mret []
  | s :: l =>
      s ← (if i <? num_syms then read_scope_table present i s else mret s);
      l ← read_scopes present num_syms (i + 1) l;
      mret (s :: l)
  end.

Fixpoint write_scopes (num_syms i : Z) (l : list (symtab scope_datum)) : writer :=
  match l with
  | [] => skip
  | s :: l =>
      when (i <? num_syms) (put_words [table_nel (table s)] ;; hashtab_map (table s) scope_write) ;;
      write_scopes num_syms (i + 1) l
  end.

End Blocks.

(** ** Round trips *)

Section Codec.
Context `{CharSign} (p : policy_format) (target_platform_ : Z) (ta : type_arrays).
Context (named : bytes -> Prop) (named_ok : forall s, named s -> name_ok s).

(** A table of a block that can be written: every entry is, and is counted. *)
Definition decl_kind_ok {D} (sym n : Z) (ok : bytes -> D -> Prop) (s : symtab D) (m : gmap bytes D) : Prop :=
  holds s m /\ (sym < n -> is_u32 (nprim s) /\ Z.of_nat (base.size m) < 2 ^ 32 - 1 /\ map_Forall ok m).

Lemma codec_decl_kind {D} sym n ok w r g (s s0 : symtab D) m :
  symbol_codec ok w r g -> decl_kind_ok sym n ok s m -> holds s0 ∅ ->
  exists s', codec (write_decl_symtab sym n w s) (read_decl_symtab sym n r s0) s' /\
    kind_saved sym n none_omitted g s0 s s' ∅ m.
Proof.
  intros Hcod [(sz & t & Et & Hw & <- & Hsz & Hnel) Hok] [sz0 Hc0]. destruct s0 as [h0 n0]. cbn [table] in Hc0.
  unfold write_decl_symtab, read_decl_symtab, kind_saved. destruct (Z.ltb_spec sym n) as [Hlt|Hge].
  2: { exists (Symtab h0 n0). split; [apply codec_skip|]. split; [by exists sz0|done]. }
  destruct (Hok Hlt) as (Hnp & Hs & Hks). rewrite Et. cbn [table_nel when]. pose proof (entries_length t Hw) as Hlen.
  destruct (codec_entries g w r (entries t) sz0 h0 ∅) as (h' & Hd & Hc'); [done| | | | |].
  - rewrite map_size_empty. lia.
  - by apply entries_NoDup.
  - intros k d _ _. apply lookup_empty.
  - intros k d h1 m1 Hin Hc1 Hs1 Hg. apply entries_elem in Hin; [|done]. apply (Hcod k d h1 sz0 m1); [exact (Hks k d Hin)|done..].
  - exists (Symtab h' (nprim s)). split.
    + eapply codec_bind; [apply (codec_words 2); [done|]|].
      { repeat apply Forall_cons_2; [exact Hnp|rewrite Hnel; unfold is_u32; lia|apply Forall_nil_2]. }
      cbn [buf lookup list_lookup default]. unfold id. rewrite Hnel, Nat2Z.id, <- Hlen.
      eapply codec_last; [|apply decodes_ret]. eapply codec_ext; [|exact Hd]. intros fp. by rewrite hashtab_map_chain.
    + split; [|done]. exists sz0. cbn [table]. rewrite <- (kept_all (entries t)) in Hc'. by rewrite (stored_kept _ g t ∅ Hw) in Hc'.
Qed.

(** The symbols of a block.  No role of it is an attribute in a version that has
    none: the attributes would be counted and left out. *)
Record decl_symbols_ok (n : Z) (pcommons : option (hashtab bytes common_datum)) (s : symbols) (ms : symbol_maps) : Prop := {
  dok_commons : decl_kind_ok SYM_COMMONS n (common_ok named) (commons s) (m_commons ms);
  dok_classes : decl_kind_ok SYM_CLASSES n (class_ok named pcommons) (classes s) (m_classes ms);
  dok_roles : decl_kind_ok SYM_ROLES n (written_role p named) (roles s) (m_roles ms);
  dok_types : decl_kind_ok SYM_TYPES n (written_type p named) (types s) (m_types ms);
  dok_users : decl_kind_ok SYM_USERS n (user_ok p named) (users s) (m_users ms);
  dok_bools : decl_kind_ok SYM_BOOLS n (bool_ok named) (bools s) (m_bools ms);
  dok_levels : decl_kind_ok SYM_LEVELS n (sens_ok named) (levels s) (m_levels ms);
  dok_cats : decl_kind_ok SYM_CATS n (cat_ok named) (cats s) (m_cats ms)
}.

Definition decl_symbols_saved (n : Z) (s s' : symbols) (ms : symbol_maps) : Prop :=
  let s0 := decl_symbols_init in
  kind_saved SYM_COMMONS n none_omitted keep_all (commons s0) (commons s) (commons s') ∅ (m_commons ms) /\
  kind_saved SYM_CLASSES n none_omitted (fun _ d => Some (stored_class p d)) (classes s0) (classes s) (classes s') ∅ (m_classes ms) /\
  kind_saved SYM_ROLES n none_omitted (keep_role p) (roles s0) (roles s) (roles s') ∅ (m_roles ms) /\
  kind_saved SYM_TYPES n none_omitted (fun _ d => Some (stored_type p d)) (types s0) (types s) (types s') ∅ (m_types ms) /\
  kind_saved SYM_USERS n none_omitted (fun _ d => Some (stored_user p d)) (users s0) (users s) (users s') ∅ (m_users ms) /\
  kind_saved SYM_BOOLS n none_omitted (fun _ d => Some (stored_bool p d)) (bools s0) (bools s) (bools s') ∅ (m_bools ms) /\
  kind_saved SYM_LEVELS n none_omitted keep_all (levels s0) (levels s) (levels s') ∅ (m_levels ms) /\
  kind_saved SYM_CATS n none_omitted keep_all (cats s0) (cats s) (cats s') ∅ (m_cats ms).

Lemma decl_created {D} i : (i < 8)%nat -> holds (decl_symtab_of (D := D) i) ∅.
Proof.
  intros Hi. eexists. apply counted_create. do 8 (destruct i as [|i]; [by vm_compute|]). lia.
Qed.

Lemma codec_decl_symbols n pcommons pcommons' mc s ms :
  (exists sz, counted pcommons sz mc) -> (exists sz, counted pcommons' sz mc) -> decl_symbols_ok n pcommons s ms ->
  exists s', codec (write_decl_symbols p n s) (read_decl_symbols p n pcommons' decl_symbols_init) s' /\
    decl_symbols_saved n s s' ms.
Proof using named_ok.
  intros Hpc Hpc' Hok. unfold write_decl_symbols, read_decl_symbols. set (s0 := decl_symbols_init).
  destruct (codec_decl_kind SYM_COMMONS n _ _ _ _ _ (commons s0) _ (common_codec named named_ok) (dok_commons _ _ _ _ Hok))
    as (co & C0 & K0); [apply decl_created; lia|].
  destruct (codec_decl_kind SYM_CLASSES n _ _ _ _ _ (classes s0) _
    (class_codec_over named named_ok p (Symtab pcommons 0) (Symtab pcommons' 0) mc Hpc Hpc') (dok_classes _ _ _ _ Hok))
    as (cl & C1 & K1); [apply decl_created; lia|].
  destruct (codec_decl_kind SYM_ROLES n _ _ _ _ _ (roles s0) _ (role_codec p named named_ok) (dok_roles _ _ _ _ Hok))
    as (ro & C2 & K2); [apply decl_created; lia|].
  destruct (codec_decl_kind SYM_TYPES n _ _ _ _ _ (types s0) _ (type_codec p named named_ok) (dok_types _ _ _ _ Hok))
    as (ty & C3 & K3); [apply decl_created; lia|].
  destruct (codec_decl_kind SYM_USERS n _ _ _ _ _ (users s0) _ (user_codec p named named_ok) (dok_users _ _ _ _ Hok))
    as (us & C4 & K4); [apply decl_created; lia|].
  destruct (codec_decl_kind SYM_BOOLS n _ _ _ _ _ (bools s0) _ (bool_codec p named named_ok) (dok_bools _ _ _ _ Hok))
    as (bo & C5 & K5); [apply decl_created; lia|].
  destruct (codec_decl_kind SYM_LEVELS n _ _ _ _ _ (levels s0) _ (sens_codec named named_ok) (dok_levels _ _ _ _ Hok))
    as (le & C6 & K6); [apply decl_created; lia|].
  destruct (codec_decl_kind SYM_CATS n _ _ _ _ _ (cats s0) _ (cat_codec named named_ok) (dok_cats _ _ _ _ Hok))
    as (ca & C7 & K7); [apply decl_created; lia|].
  exists (Symbols co cl ro ty us bo le ca). split; [|done].
  do 7 (eapply codec_bind; [eassumption|]). eapply codec_last; [eassumption|]. apply decodes_ret.
Qed.

(** A branch that can be written, in the policy with these common permissions. *)
Definition decl_ok (nbools n : Z) (pcommons : option (hashtab bytes common_datum)) (d : avrule_decl) : Prop :=
  is_u32 (decl_id d) /\ is_u32 (enabled d) /\
  (blen (d_cond_list d) < 2 ^ 31 /\ Forall (cond_node_ok p target_platform_ nbools) (d_cond_list d)) /\
  listed (avrule_ok p target_platform_) (d_avrules d) /\ listed role_trans_rule_ok (d_role_tr_rules d) /\
  listed role_allow_rule_ok (d_role_allow_rules d) /\ listed filename_trans_rule_ok (d_filename_trans_rules d) /\
  listed range_trans_rule_ok (d_range_tr_rules d) /\ scope_index_ok n (d_required d) /\ scope_index_ok n (d_declared d) /\
  exists ms, decl_symbols_ok n pcommons (d_symtab d) ms.

(** The branch that is read. *)
Definition decl_saved (n : Z) (pcommons : option (hashtab bytes common_datum)) (d d' : avrule_decl) : Prop :=
  (exists ms, decl_symbols_ok n pcommons (d_symtab d) ms /\ decl_symbols_saved n (d_symtab d) (d_symtab d') ms) /\
  d' = AvruleDecl (decl_id d) (enabled d) (map (stored_cond p) (d_cond_list d)) (d_avrules d)
    (map (stored_role_trans p) (List.filter (written_role_trans p) (d_role_tr_rules d))) (d_role_allow_rules d)
    (if MOD_POLICYDB_VERSION_FILENAME_TRANS <=? policyvers p then d_filename_trans_rules d else [])
    (if MOD_POLICYDB_VERSION_RANGETRANS <=? policyvers p then map stored_range_rule (d_range_tr_rules d) else [])
    (stored_index n (d_required d)) (stored_index n (d_declared d)) (d_symtab d').

Section Policy.
Context (module : is_kern p = false) (nbools n : Z) (te : avtab) (junk : list Z).
Context (pcommons pcommons' : option (hashtab bytes common_datum)) (mc : gmap bytes common_datum).
Context (commons_hold : exists sz, counted pcommons sz mc) (commons_hold' : exists sz, counted pcommons' sz mc).
Abbreviation decl_read := (avrule_decl_read p target_platform_ junk nbools te pcommons' n).

Lemma codec_decl d st : decl_ok nbools n pcommons d ->
  exists d' st', codec (avrule_decl_write p target_platform_ ta false n d) (decl_read (avrule_decl_create 0) st) (d', st') /\
    decl_saved n pcommons d d'.
Proof using module commons_hold commons_hold' named_ok.
  intros (H1 & H2 & (H3 & H3') & H4 & H5 & H6 & H7 & H8 & H9 & H10 & ms & Hms).
  destruct (codec_decl_symbols n pcommons pcommons' mc (d_symtab d) ms commons_hold commons_hold' Hms) as (s' & Hd & Hs).
  eexists (AvruleDecl _ _ _ _ _ _ _ _ _ _ s'), _. split; [|split; [exists ms; split; [exact Hms|exact Hs]|reflexivity]].
  eapply codec_bind; [apply (codec_words 2); [done|u32s]|].
  eapply codec_bind; [by apply codec_cond_list_mod|]. cbn iota.
  eapply codec_bind; [by apply codec_avrules|]. eapply codec_bind; [by apply codec_role_trans_rules|].
  eapply codec_bind; [by apply codec_role_allow_rules|].
  eapply codec_bind; [apply codec_when; intros _; by apply codec_filename_trans_rules|].
  eapply codec_bind; [apply codec_when; intros _; by apply codec_range_trans_rules|].
  eapply codec_bind; [by apply codec_scope_index|]. eapply codec_bind; [by apply codec_scope_index|].
  eapply codec_last; [exact Hd|]. apply decodes_ret.
Qed.

(** The place of the first enabled branch, and the branches that are enabled. *)
Definition first_enabled (l : list avrule_decl) : option nat := fst <$> list_find (fun d => enabled d <> 0) l.
Definition enabled_branches (l : list avrule_decl) : list avrule_decl := filter (fun d => enabled d <> 0) l.

Abbreviation branch_read := (read_branch p target_platform_ junk nbools te pcommons' n).

Lemma codec_branches l fl bs (en : option nat) st :
  Forall (decl_ok nbools n pcommons) l ->
  (length (enabled_branches l) + (match en with Some _ => 1 | None => 0 end) <= 1)%nat ->
  exists l' st', codec (each (avrule_decl_write p target_platform_ ta false n) l)
      (times (length l) branch_read (AvruleBlock fl bs en, st))
      (AvruleBlock fl (bs ++ l')
         (match en with Some i => Some i | None => (fun i => length bs + i)%nat <$> first_enabled l end), st') /\
    Forall2 (decl_saved n pcommons) l l'.
Proof using module commons_hold commons_hold' named_ok.
  intros Hl. revert bs en st. induction Hl as [|d l Hd Hl IH]; intros bs en st Hen.
  { exists [], st. rewrite app_nil_r. split; [|done]. destruct en; apply codec_skip. }
  destruct (codec_decl d st Hd) as (d' & st1 & Hc & Hs). pose proof Hs as (_ & Ed). assert (enabled d' = enabled d) as En by by rewrite Ed.
  unfold enabled_branches in Hen. rewrite filter_cons in Hen. cbn [length times each].
  set (en1 := if negb (enabled d =? 0) then Some (length bs) else en).
  assert (add_branch (AvruleBlock fl bs en) d' = Some (AvruleBlock fl (bs ++ [d']) en1)) as Ea.
  { unfold add_branch, en1. rewrite En. cbn [b_flags branch_list b_enabled]. case_decide as E.
    - rewrite (proj2 (Z.eqb_neq _ _) E). cbn [negb]. destruct en; [cbn [length] in Hen; lia|done].
    - replace (enabled d =? 0) with true by lia. done. }
  destruct (IH (bs ++ [d']) en1 st1) as (l' & st' & Hc' & Hs').
  { unfold en1, enabled_branches. case_decide as E; [rewrite (proj2 (Z.eqb_neq _ _) E)|replace (enabled d =? 0) with true by lia];
      cbn [negb length] in *; [destruct en; lia|done]. }
  exists (d' :: l'), st'. split; [|by apply Forall2_cons_2].
  apply (codec_bind _ _ _ _ (AvruleBlock fl (bs ++ [d']) en1, st1)).
  - unfold read_branch. cbn [fst snd]. eapply codec_last; [exact Hc|]. cbn iota. rewrite Ea. apply decodes_ret.
  - rewrite <- app_assoc in Hc'. cbn [app] in Hc'.
    replace (match en with Some i => Some i | None => (fun i => (length bs + i)%nat) <$> first_enabled (d :: l) end)
      with (match en1 with Some i => Some i | None => (fun i => (length (bs ++ [d']) + i)%nat) <$> first_enabled l end); [exact Hc'|].
    unfold en1, first_enabled. cbn [list_find]. case_decide as E.
    + rewrite (proj2 (Z.eqb_neq _ _) E) in *. cbn [negb length] in *. destruct en; [lia|]. cbn. f_equal. lia.
    + replace (enabled d =? 0) with true by lia. cbn [negb]. destruct en; [done|]. rewrite length_app. cbn [length].
      destruct (list_find _ l) as [[i x]|]; [|done]. cbn. f_equal. lia.
Qed.

(** A block that can be written, and the block that is read. *)
Definition block_ok (b : avrule_block) : Prop :=
  listed (decl_ok nbools n pcommons) (branch_list b) /\ (length (enabled_branches (branch_list b)) <= 1)%nat.

Definition block_saved (b b' : avrule_block) : Prop :=
  Forall2 (decl_saved n pcommons) (branch_list b) (branch_list b') /\ b_enabled b' = first_enabled (branch_list b).

(** All blocks but the first are optional. *)
Definition blocks_flagged (l : list avrule_block) : Prop :=
  match l with
  | [] => True
  | b :: l => b_flags b = 0 /\ Forall (fun b => b_flags b = AVRULE_OPTIONAL) l
  end.

Abbreviation block_read := (read_one_block p target_platform_ junk nbools te pcommons' n).

Lemma codec_blocks l acc st : Forall block_ok l -> blocks_flagged acc ->
  exists l' st', codec (each (write_one_block p target_platform_ ta false n) l) (times (length l) block_read (acc, st)) (acc ++ l', st') /\
    Forall2 block_saved l l' /\ blocks_flagged (acc ++ l').
Proof using module commons_hold commons_hold' named_ok.
  intros Hl. revert acc st. induction Hl as [|b l [[Hlen Hb] He] Hl IH]; intros acc st Ha.
  { exists [], st. rewrite app_nil_r. split; [apply codec_skip|done]. }
  set (fl := match acc with [] => 0 | _ => AVRULE_OPTIONAL end).
  destruct (codec_branches (branch_list b) fl [] None st Hb ltac:(cbn; lia)) as (bs & st1 & Hc & Hs).
  set (b' := AvruleBlock fl bs (first_enabled (branch_list b))).
  destruct (IH (acc ++ [b']) st1) as (l' & st' & Hc' & Hs' & Hf').
  { unfold b', fl. destruct acc as [|a acc]; [done|]. destruct Ha as [H1 H2]. split; [done|].
    apply Forall_app. split; [done|]. by apply Forall_singleton. }
  rewrite <- app_assoc in Hc', Hf'. exists (b' :: l'), st'. split; [|split; [by apply Forall2_cons_2|done]].
  cbn [each length times]. apply (codec_bind _ _ _ _ (acc ++ [b'], st1)); [|exact Hc'].
  eapply codec_bind; [apply (codec_words 1); [done|u32s]|]. cbn [buf lookup list_lookup default fst snd]. unfold id.
  apply (codec_last _ _ _ (b', st1)); [|apply decodes_ret].
  replace ((fun i => (length (@nil avrule_decl) + i)%nat) <$> first_enabled (branch_list b)) with (first_enabled (branch_list b)) in Hc
    by by destruct (first_enabled (branch_list b)).
  unfold blen. rewrite Nat2Z.id. unfold fl in Hc. by destruct acc.
Qed.

(** The blocks of a module. *)
Lemma codec_avrule_blocks l st : listed block_ok l ->
  exists l' st', codec (avrule_block_write p target_platform_ ta false n l)
      (avrule_block_read p target_platform_ junk nbools te pcommons' n st) (l', st') /\
    Forall2 block_saved l l' /\ blocks_flagged l'.
Proof using module commons_hold commons_hold' named_ok.
  intros [Hl Hok]. destruct (codec_blocks l [] st Hok I) as (l' & st' & Hc & Hs & Hf). exists l', st'. split; [|done].
  eapply codec_bind; [apply (codec_words 1); [done|u32s]|]. cbn [buf lookup list_lookup default]. unfold id.
  unfold blen. by rewrite Nat2Z.id.
Qed.

End Policy.

(** ** Scopes *)

(** The scope of a symbol that is there, declared or needed somewhere. *)
Definition scope_ok (present : bytes -> bool) (k : bytes) (d : scope_datum) : Prop :=
  named k /\ present k = true /\ is_u32 (scope d) /\ 0 < blen (decl_ids d) < 2 ^ 32 /\ Forall is_u32 (decl_ids d).

Definition keep_scope (is_roles : bool) (k : bytes) (d : scope_datum) : option scope_datum :=
  if bool_decide (k = OBJECT_R) && is_roles then None else Some d.

Lemma scope_codec is_roles present :
  symbol_codec (scope_ok present) scope_write (scope_read is_roles present) (keep_scope is_roles).
Proof using named_ok.
  intros k d h sz m (Hk & Hp & Hs & Hl & Hi) Hc Hsz Hg. unfold scope_write, scope_read.
  pose proof (named_u32 named named_ok k Hk). assert (is_u32 (blen (decl_ids d))) by (unfold is_u32; lia).
  eapply codec_bind; [apply (codec_words 1); [done|u32s]|]. cbn [buf lookup list_lookup default]. unfold id.
  eapply codec_bind; [apply (codec_named named named_ok); [by right|done]|]. apply codec_ensure; [done|].
  eexists. split; [apply writes_words|]. rewrite map_app, concat_app.
  eapply decodes_bind; [by apply decodes_words; [|u32s]|]. rewrite <- (app_nil_l (concat _)).
  rewrite app_nil_l. apply decodes_ensure; [cbn; lia|]. cbn [buf lookup list_lookup default]. unfold id.
  rewrite <- (app_nil_r (concat _)). eapply decodes_bind; [by apply decodes_words|].
  pose proof (codec_insert h sz m k d (keep_scope is_roles) Hc Hsz Hg) as Hi'. unfold put_entry_of, keep_scope in *.
  destruct (bool_decide (k = OBJECT_R) && is_roles); [apply decodes_ret|]. destruct d. by apply Hi'.
Qed.

(** One table of scopes: over what was there before, of the roles the scope of [object_r]. *)
Definition scope_table_ok (present : Z -> bytes -> bool) (i : Z) (s0 s : symtab scope_datum) : Prop :=
  exists m0 m, holds s0 m0 /\ holds s m /\ Z.of_nat (base.size m0 + base.size m) < 2 ^ 32 /\
    map_Forall (scope_ok (present i)) m /\
    forall k d, m !! k = Some d -> keep_scope (i =? SYM_ROLES) k d <> None -> m0 !! k = None.

Definition scope_table_saved (i : Z) (s0 s s' : symtab scope_datum) : Prop :=
  forall m0 m, holds s0 m0 -> holds s m ->
    holds s' (saved none_omitted (keep_scope (i =? SYM_ROLES)) m ∪ m0) /\ nprim s' = nprim s0.

Lemma codec_scope_table present i s0 s : scope_table_ok present i s0 s ->
  exists s', codec (put_words [table_nel (table s)] ;; hashtab_map (table s) scope_write) (read_scope_table present i s0) s' /\
    scope_table_saved i s0 s s'.
Proof using named_ok.
  intros (m0 & m & [sz0 Hc0] & (sz & t & Et & Hw & <- & Hsz & Hnel) & Hs & Hok & Hne). destruct s0 as [h0 n0]. cbn [table] in Hc0.
  unfold read_scope_table. rewrite Et. cbn [table_nel table]. pose proof (entries_length t Hw) as Hlen.
  destruct (codec_entries (keep_scope (i =? SYM_ROLES)) scope_write (scope_read (i =? SYM_ROLES) (present i)) (entries t) sz0 h0 m0)
    as (h' & Hd & Hc'); [done|lia|by apply entries_NoDup| | |].
  - intros k d Hin. apply entries_elem in Hin; [|done]. by apply Hne.
  - intros k d h1 m1 Hin Hc1 Hs1 Hg. apply entries_elem in Hin; [|done].
    apply (scope_codec (i =? SYM_ROLES) (present i) k d h1 sz0 m1); [exact (Hok k d Hin)|done..].
  - exists (Symtab h' n0). split.
    + eapply codec_bind; [apply (codec_words 1); [done|]|].
      { apply Forall_cons_2; [rewrite Hnel; unfold is_u32; lia|apply Forall_nil_2]. }
      cbn [buf lookup list_lookup default]. unfold id. rewrite Hnel, Nat2Z.id, <- Hlen.
      eapply codec_last; [|apply decodes_ret]. eapply codec_ext; [|exact Hd]. intros fp. by rewrite hashtab_map_chain.
    + intros m1 m2 [sz1 H1] [sz2 (t2 & Et2 & _ & <- & _)]. cbn [table] in H1.
      assert (t2 = t) as -> by congruence. split; [|done]. exists sz0. cbn [table].
      assert (m1 = m0) as ->.
      { destruct H1 as (u1 & Eu1 & _ & <- & _). destruct Hc0 as (u0 & Eu0 & _ & <- & _). congruence. }
      rewrite <- (kept_all (entries t)) in Hc'. by rewrite (stored_kept _ _ t m0 Hw) in Hc'.
Qed.

Lemma codec_scopes present n i l0 l :
  (forall j s0 s, l0 !! j = Some s0 -> l !! j = Some s -> i + Z.of_nat j < n -> scope_table_ok present (i + Z.of_nat j) s0 s) ->
  length l = length l0 ->
  exists l', codec (write_scopes n i l) (read_scopes present n i l0) l' /\ length l' = length l0 /\
    forall j s0 s s', l0 !! j = Some s0 -> l !! j = Some s -> l' !! j = Some s' ->
      if i + Z.of_nat j <? n then scope_table_saved (i + Z.of_nat j) s0 s s' else s' = s0.
Proof using named_ok.
  revert i l. induction l0 as [|s0 l0 IH]; intros i [|s l] Hok Hl; try done.
  { exists []. split; [apply codec_skip|done]. }
  destruct (IH (i + 1) l) as (l' & Hd & Hl' & Hs'); [|by injection Hl|].
  { intros j a b Ha Hb Hj. replace (i + 1 + Z.of_nat j) with (i + Z.of_nat (S j)) in * by lia. by apply Hok. }
  assert (exists s', codec (when (i <? n) (put_words [table_nel (table s)] ;; hashtab_map (table s) scope_write))
      (if i <? n then read_scope_table present i s0 else mret s0) s' /\
    if i <? n then scope_table_saved i s0 s s' else s' = s0) as (s' & Hd0 & Hs0).
  { destruct (Z.ltb_spec i n) as [Hi|Hi]; [|exists s0; split; [apply codec_skip|done]].
    apply codec_scope_table. specialize (Hok 0%nat s0 s eq_refl eq_refl). rewrite Z.add_0_r in Hok. by apply Hok. }
  exists (s' :: l'). split; [|split; [cbn; by rewrite Hl'|]].
  - cbn [write_scopes read_scopes]. eapply codec_bind; [exact Hd0|]. eapply codec_last; [exact Hd|]. apply decodes_ret.
  - intros [|j] a b c; cbn [lookup list_lookup].
    + intros [= <-] [= <-] [= <-]. by rewrite Z.add_0_r.
    + replace (i + Z.of_nat (S j)) with (i + 1 + Z.of_nat j) by lia. apply Hs'.
Qed.

(** C27. Modules.  The blocks of a base policy or a module, of every version, with the
    rules, the symbols and the scopes of all their branches, and the scopes of the
    symbols of the policy, are written and read back: what is read is what the
    version has room for ([decl_saved] says what that is), the first enabled branch
    of a block is the one in use, all blocks but the first are optional.  A version
    before [MOD_POLICYDB_VERSION_ROLEATTRIB] has one condition ([dok_roles]): no role
    that a block declares is an attribute.  The writer leaves such a role out but
    counts it, and what it has written is not what the reader expects. *)
Theorem module_blocks_roundtrip nbools n te junk pcommons pcommons' mc st l present l0 sc :
  is_kern p = false -> (exists sz, counted pcommons sz mc) -> (exists sz, counted pcommons' sz mc) ->
  listed (block_ok nbools n pcommons) l -> length sc = length l0 ->
  (forall j s0 s, l0 !! j = Some s0 -> sc !! j = Some s -> Z.of_nat j < n -> scope_table_ok present (Z.of_nat j) s0 s) ->
  exists l' st' sc', codec (avrule_block_write p target_platform_ ta false n l ;; write_scopes n 0 sc)
      ('(b, st) ← avrule_block_read p target_platform_ junk nbools te pcommons' n st;
       s ← read_scopes present n 0 l0;
       mret (b, st, s)) (l', st', sc') /\
    Forall2 (block_saved n pcommons) l l' /\ blocks_flagged l' /\
    forall j s0 s s', l0 !! j = Some s0 -> sc !! j = Some s -> sc' !! j = Some s' ->
      if Z.of_nat j <? n then scope_table_saved (Z.of_nat j) s0 s s' else s' = s0.
Proof using named_ok.
  intros Hk Hc Hc' Hl Hsc Hs. destruct (codec_avrule_blocks Hk nbools n te junk pcommons pcommons' mc Hc Hc' l st Hl)
    as (l' & st' & Hd & Hb & Hf).
  destruct (codec_scopes present n 0 l0 sc) as (sc' & Hd' & _ & Hs'); [|done|].
  { intros j s0 s H0 Hj Hn. rewrite Z.add_0_l in *. by apply Hs. }
  exists l', st', sc'. split; [|done]. eapply codec_bind; [exact Hd|]. cbn iota. eapply codec_last; [exact Hd'|]. apply decodes_ret.
Qed.

End Codec.

(** *** A module with a rule, that declares the type of it *)

Definition sample_module : policy_format := PolicyFormat POLICY_MOD 17.

Definition sample_types : type_set := TypeSet (snd (ebitmap_set_bit ebitmap_init 0 true)) ebitmap_init 0.

Definition sample_branch : avrule_decl :=
  AvruleDecl 1 1 [] [Avrule AVTAB_ALLOWED 0 sample_types sample_types [ClassPerm 2 1] None] []
    [RoleAllowRule (RoleSet ebitmap_init 1) role_set_init] [] [] scope_index_init scope_index_init decl_symbols_init.

Definition sample_blocks : list avrule_block := [AvruleBlock 0 [sample_branch] None].

Section Witness.
Context `{CharSign}.

(** The scopes of a new policy, and with the type "log" that is declared. *)
Definition new_scopes : list (symtab scope_datum) := map symtab_of (seq 0 8).
Definition sample_scopes : list (symtab scope_datum) :=
  <[3%nat := Symtab (snd (hashtab_insert (hashtab_create 64) (str "log") (ScopeDatum SCOPE_DECL [1]))) 0]> new_scopes.

Lemma decl_symbols_empty p n pcommons : decl_symbols_ok p name_ok n pcommons decl_symbols_init
  (SymbolMaps ∅ ∅ ∅ ∅ ∅ ∅ ∅ ∅).
Proof.
  split; (split; [apply decl_created; lia|]); intros _; (split; [by vm_compute|]); (split; [by vm_compute|]);
    apply map_Forall_empty.
Qed.

Lemma sample_type_set_ok : type_set_ok sample_types.
Proof. split; [by vm_compute|]. split; by vm_compute. Qed.

Lemma empty_index_ok : scope_index_ok 8 scope_index_init.
Proof. split; [done|]. split; [done|]. split; [by repeat constructor|]. split; [done|constructor]. Qed.

Lemma listed_nil {A} (ok : A -> Prop) : listed ok [].
Proof. split; [done|constructor]. Qed.

Lemma listed_one {A} (ok : A -> Prop) a : ok a -> listed ok [a].
Proof. intros Ha. split; [done|by apply Forall_singleton]. Qed.

Lemma sample_avrule_ok p target : avrule_ok p target (Avrule AVTAB_ALLOWED 0 sample_types sample_types [ClassPerm 2 1] None).
Proof.
  pose proof sample_type_set_ok. split; [done|]. split; [done|]. do 2 (split; [done|]). split; [done|].
  split; [by apply Forall_singleton|done].
Qed.

Lemma sample_blocks_ok pcommons : listed (block_ok sample_module SEPOL_TARGET_SELINUX name_ok 0 8 pcommons) sample_blocks.
Proof.
  apply listed_one. split; [|done]. apply listed_one. do 2 (split; [done|]). split; [split; [done|constructor]|].
  split; [apply listed_one, sample_avrule_ok|]. split; [apply listed_nil|].
  split; [apply listed_one; by repeat split|]. do 2 (split; [apply listed_nil|]). do 2 (split; [exact empty_index_ok|]).
  eexists. apply decl_symbols_empty.
Qed.

(** The table of scopes with one entry. *)
Lemma one_scope_holds : holds (Symtab (snd (hashtab_insert (hashtab_create 64) (str "log") (ScopeDatum SCOPE_DECL [1]))) 0)
  {[str "log" := ScopeDatum SCOPE_DECL [1]]}.
Proof.
  exists 64. destruct (counted_insert (hashtab_create 64) 64 ∅ (str "log") (ScopeDatum SCOPE_DECL [1])) as [_ Hc].
  - by apply counted_create.
  - apply lookup_empty.
  - by vm_compute.
  - exact Hc.
Qed.

Lemma sample_scopes_ok j s0 s : new_scopes !! j = Some s0 -> sample_scopes !! j = Some s -> Z.of_nat j < 8 ->
  scope_table_ok name_ok (fun _ _ => true) (Z.of_nat j) s0 s.
Proof.
  intros H0 Hs Hj. unfold sample_scopes in Hs. assert (j < 8)%nat as Hj8 by lia.
  assert (s0 = symtab_of j) as ->.
  { unfold new_scopes in H0. rewrite list_lookup_fmap, lookup_seq_lt in H0 by done. by injection H0. }
  pose proof (created (D := scope_datum) j Hj8) as Hc. destruct (decide (j = 3%nat)) as [->|Hne].
  - rewrite list_lookup_insert_eq in Hs by (cbn; lia). injection Hs as <-.
    exists ∅, {[str "log" := ScopeDatum SCOPE_DECL [1]]}. split; [done|]. split; [exact one_scope_holds|].
    split; [by vm_compute|]. split; [|done]. apply map_Forall_singleton. split; [by apply sample_path|].
    split; [done|]. split; [done|]. split; [done|by repeat constructor].
  - rewrite list_lookup_insert_ne in Hs by done. rewrite H0 in Hs. injection Hs as <-.
    exists ∅, ∅. do 2 (split; [done|]). split; [by vm_compute|]. split; [apply map_Forall_empty|done].
Qed.
End Witness.

#[local] Instance signed_char : CharSign := true.

Lemma module_blocks_roundtrip_witness :
  exists l' st' sc', codec (avrule_block_write sample_module SEPOL_TARGET_SELINUX sample_arrays false 8 sample_blocks ;; write_scopes 8 0 sample_scopes)
      ('(b, st) ← avrule_block_read sample_module SEPOL_TARGET_SELINUX [] 0 sample_avtab (hashtab_create 8) 8 (false, sample_avtab);
       s ← read_scopes (fun _ _ => true) 8 0 new_scopes;
       mret (b, st, s)) (l', st', sc') /\
    Forall2 (block_saved sample_module name_ok 8 (hashtab_create 8)) sample_blocks l' /\ blocks_flagged l' /\
    forall j s0 s s', new_scopes !! j = Some s0 -> sample_scopes !! j = Some s -> sc' !! j = Some s' ->
      if Z.of_nat j <? 8 then scope_table_saved (Z.of_nat j) s0 s s' else s' = s0.
Proof.
  assert (exists sz, counted (hashtab_create (K := bytes) (D := common_datum) 8) sz ∅) as Hc by (exists 8; by apply counted_create).
  apply (module_blocks_roundtrip sample_module SEPOL_TARGET_SELINUX sample_arrays name_ok (fun _ H => H) 0 8 sample_avtab []
    (hashtab_create 8) (hashtab_create 8) ∅ (false, sample_avtab) sample_blocks (fun _ _ => true) new_scopes sample_scopes).
  - done.
  - exact Hc.
  - exact Hc.
  - apply sample_blocks_ok.
  - done.
  - intros j s0 s H0 Hs Hj. exact (sample_scopes_ok j s0 s H0 Hs Hj).
Defined.
