(* ===== verification/Dtdata.v ===== *)
(** The byte buffers of the device tree compiler (libdtc/data.c): growing,
    appending integers and bytes, aligning, merging, markers, and the property
    that a buffer is one string.

    A buffer keeps its whole allocation; [junk] is what fresh memory holds.  A
    call that ends the program through [die] is [Die]; an access outside an
    object, a signed overflow or a failed assertion is [Fault]; [Diverge] is a
    loop that runs out of the rounds it is given, and no function gives it. *)
From S2P Require Import Prelude Stdio.
From S2P Require Util.

(** ** Outcomes *)

Inductive outcome (A : Type) := Done (a : A) | Die | Fault | Diverge.
Arguments Done {A} a.
Arguments Die {A}.
Arguments Fault {A}.
Arguments Diverge {A}.

#[export] Instance outcome_ret : MRet outcome := fun _ a => Done a.
#[export] Instance outcome_bind : MBind outcome := fun _ _ k m =>
  match m with Done a => k a | Die => Die | Fault => Fault | Diverge => Diverge end.

(** A step that is undefined when there is no value. *)
Definition defined {A} (o : option A) : outcome A :=
  match o with Some a => Done a | None => Fault end.

(** ** Buffers *)

Inductive markertype := REF_PHANDLE | REF_PATH | LABEL.
Record marker := Marker { m_type : markertype; m_offset : Z; m_ref : bytes }.

Record data := Data { d_len : Z; d_val : bytes; d_markers : list marker }.

Definition empty_data : data := Data 0 [] [].

Definition INT_MAX := 2 ^ 31 - 1.

(** A result of [int] arithmetic. *)
Definition int (x : Z) : outcome Z :=
  if (- INT_MAX - 1 <=? x) && (x <=? INT_MAX) then Done x else Fault.

(** [ALIGN(x, a)] on [int]. *)
Definition ALIGN (x a : Z) : outcome Z :=
  y ← int (x + a); Done (Z.land (y - 1) (Z.lnot (a - 1))).

Section Data.
Context (junk : Z -> Z).

(** [while ((d.len + xlen) > newsize) newsize *= 2]. *)
Fixpoint grow_loop (fuel : nat) (need newsize : Z) : outcome Z :=
  match fuel with
  | O => Diverge
  | S fuel =>
      if newsize <? need then n ← int (newsize * 2); grow_loop fuel need n else Done newsize
  end.

(** [xrealloc]: a negative size is a request no machine can satisfy. *)
Definition xrealloc (p : bytes) (newsize : Z) : outcome bytes :=
  if newsize <? 0 then Die else Done (Util.realloc junk p newsize).

Definition data_grow_for (d : data) (xlen : Z) : outcome data :=
  if xlen =? 0 then Done d
  else
    need ← int (d_len d + xlen);
    newsize ← grow_loop 33 need xlen;
    v ← xrealloc (d_val d) newsize;
    Done (Data (d_len d) v (d_markers d)).

(** [memcpy(d.val + off, p, len)]. *)
Definition copy_in (v : bytes) (off : Z) (p : bytes) (len : Z) : outcome bytes :=
  s ← defined (mread p 0 len);
  defined (mwrite v off s).

Definition data_copy_mem (mem : bytes) (len : Z) : outcome data :=
  d ← data_grow_for empty_data len;
  v ← copy_in (d_val d) 0 mem len;
  Done (Data len v (d_markers d)).

Definition data_append_data (d : data) (p : bytes) (len : Z) : outcome data :=
  d ← data_grow_for d len;
  v ← copy_in (d_val d) (d_len d) p len;
  n ← int (d_len d + len);
  Done (Data n v (d_markers d)).

(** [m] is the index of the marker in the list of [d]. *)
Definition data_insert_at_marker (d : data) (m : nat) (p : bytes) (len : Z) : outcome data :=
  d ← data_grow_for d len;
  mk ← defined (d_markers d !! m);
  tail ← defined (mread (d_val d) (m_offset mk) (d_len d - m_offset mk));
  v ← defined (mwrite (d_val d) (m_offset mk + len) tail);
  v ← copy_in v (m_offset mk) p len;
  n ← int (d_len d + len);
  let later := map (fun k => Marker (m_type k) (m_offset k + len) (m_ref k)) (drop (S m) (d_markers d)) in
  Done (Data n v (take (S m) (d_markers d) ++ later)).

Definition data_append_markers (d : data) (m : list marker) : data :=
  Data (d_len d) (d_val d) (d_markers d ++ m).

Definition data_merge (d1 d2 : data) : outcome data :=
  d ← data_append_data d1 (d_val d2) (d_len d2);
  let m2 := map (fun k => Marker (m_type k) (m_offset k + d_len d1) (m_ref k)) (d_markers d2) in
  Done (data_append_markers d m2).

Definition data_append_integer (d : data) (value bits : Z) : outcome data :=
  if bits =? 8 then data_append_data d (be_bytes 1 value) 1
  else if bits =? 16 then data_append_data d (be_bytes 2 value) 2
  else if bits =? 32 then data_append_data d (be_bytes 4 value) 4
  else if bits =? 64 then data_append_data d (be_bytes 8 value) 8
  else Die.

Definition data_append_re (d : data) (address size : Z) : outcome data :=
  data_append_data d (be_bytes 8 address ++ be_bytes 8 size) 16.

Definition data_append_cell (d : data) (word : Z) : outcome data := data_append_integer d word 32.
Definition data_append_addr (d : data) (addr : Z) : outcome data := data_append_integer d addr 64.
Definition data_append_byte (d : data) (byte : Z) : outcome data := data_append_data d [u8 byte] 1.

Definition data_append_zeroes (d : data) (len : Z) : outcome data :=
  d ← data_grow_for d len;
  v ← (if len <? 0 then Fault else defined (mwrite (d_val d) (d_len d) (zeros len)));
  n ← int (d_len d + len);
  Done (Data n v (d_markers d)).

Definition data_append_align (d : data) (align : Z) : outcome data :=
  newlen ← ALIGN (d_len d) align;
  data_append_zeroes d (newlen - d_len d).

Definition data_add_marker (d : data) (type : markertype) (ref : bytes) : data :=
  data_append_markers d [Marker type (d_len d) ref].

End Data.

(** The loop of [data_is_one_string] over the bytes before the last. *)
Definition data_is_one_string (d : data) : outcome bool :=
  if d_len d =? 0 then Done false
  else
    s ← defined (mread (d_val d) 0 (d_len d - 1));
    if bool_decide (0 ∈ s) then Done false
    else
      c ← defined (mread (d_val d) (d_len d - 1) 1);
      Done (bool_decide (c = [0])).

(** ** Vocabulary of the proofs *)

(** What a buffer holds. *)
Definition contents (d : data) : bytes := take (Z.to_nat (d_len d)) (d_val d).

(** The length is within the allocation. *)
Definition wf (d : data) : Prop := 0 <= d_len d <= blen (d_val d).

(** Every append is this: well formed, and the new contents. *)
Definition appended (d d' : data) (s : bytes) : Prop :=
  wf d' /\ contents d' = contents d ++ s /\ d_len d' = d_len d + blen s /\ d_markers d' = d_markers d.
(** ** Growing *)

Lemma int_ok x : - 2 ^ 31 <= x < 2 ^ 31 -> int x = Done x.
Proof. intros. unfold int, INT_MAX. by rewrite (proj2 (Z.leb_le _ _)), (proj2 (Z.leb_le x _)) by lia. Qed.

Lemma grow_loop_ok fuel need n :
  need < 2 ^ 30 -> 0 < n < 2 ^ 31 -> need <= n * 2 ^ (Z.of_nat fuel - 1) -> (0 < fuel)%nat ->
  exists n', grow_loop fuel need n = Done n' /\ need <= n' /\ n <= n' /\ n' <= Z.max n (2 * need).
Proof.
  revert n. induction fuel as [|fuel IH]; intros n Hneed Hn Hf Hpos; [lia|]. cbn [grow_loop].
  destruct (Z.ltb_spec n need) as [Hlt|Hge]; [|exists n; split; [done|lia]].
  rewrite int_ok by lia. cbn [mbind outcome_bind].
  destruct (IH (n * 2)) as (n' & E & H1 & H2 & H3); [lia|lia| | |].
  - destruct fuel as [|fuel]; [cbn in Hf; lia|].
    replace (Z.of_nat (S (S fuel)) - 1) with (1 + (Z.of_nat (S fuel) - 1)) in Hf by lia.
    rewrite Z.pow_add_r in Hf by lia. lia.
  - destruct fuel as [|fuel]; [cbn in Hf; lia|lia].
  - exists n'. split; [done|]. lia.
Qed.

Section Append.
Context (junk : Z -> Z).

Lemma realloc_blen p n : 0 <= n -> blen (Util.realloc junk p n) = n.
Proof.
  intros. unfold Util.realloc, blen. rewrite length_app, length_take, length_map, length_seq. lia.
Qed.

Lemma realloc_keeps p n k : 0 <= k <= n -> k <= blen p ->
  take (Z.to_nat k) (Util.realloc junk p n) = take (Z.to_nat k) p.
Proof.
  intros. unfold Util.realloc, blen in *. rewrite take_app_le by (rewrite length_take; lia).
  rewrite take_take. f_equal. lia.
Qed.

Lemma grow_for_ok d n : wf d -> 0 <= n -> d_len d + n < 2 ^ 30 ->
  exists d', data_grow_for junk d n = Done d' /\ d_len d' = d_len d /\ contents d' = contents d /\
    d_markers d' = d_markers d /\ d_len d + n <= blen (d_val d') /\
    (blen (d_val d') <= Z.max (blen (d_val d)) (2 * (d_len d + n))).
Proof.
  intros [Hl Hv] Hn Hs. unfold data_grow_for. destruct (Z.eqb_spec n 0) as [->|Hz].
  - exists d. split; [done|]. repeat (split; [done|]). lia.
  - rewrite int_ok by lia. cbn [mbind outcome_bind].
    destruct (grow_loop_ok 33 (d_len d + n) n) as (n' & -> & H1 & H2 & H3); [lia|lia| |lia|].
    { change (Z.of_nat 33 - 1) with 32. pow2. lia. }
    cbn [mbind outcome_bind]. unfold xrealloc. rewrite (proj2 (Z.ltb_ge n' 0)) by lia. cbn [mbind outcome_bind].
    eexists. split; [reflexivity|]. cbn [d_len d_val d_markers]. unfold contents. cbn [d_len d_val].
    rewrite realloc_blen, realloc_keeps by lia. repeat (split; [done|]). lia.
Qed.

Lemma copy_in_ok d s :
  wf d -> d_len d + blen s <= blen (d_val d) ->
  exists v, copy_in (d_val d) (d_len d) s (blen s) = Done v /\ blen v = blen (d_val d) /\
    take (Z.to_nat (d_len d + blen s)) v = contents d ++ s.
Proof.
  intros [Hl Hv] Hs. unfold copy_in. rewrite mread_all. cbn [defined mbind outcome_bind].
  rewrite mwrite_Some by lia. eexists. split; [reflexivity|]. unfold contents. split.
  - unfold blen in *. rewrite !length_app, length_take, length_drop. lia.
  - unfold blen in *. rewrite app_assoc, take_app_le.
    + rewrite take_ge; [done|]. rewrite length_app, length_take. lia.
    + rewrite length_app, length_take. lia.
Qed.

Lemma append_data_ok d s : wf d -> d_len d + blen s < 2 ^ 30 ->
  exists d', data_append_data junk d s (blen s) = Done d' /\ appended d d' s.
Proof.
  intros Hw Hs. pose proof (blen_nonneg s). unfold data_append_data.
  destruct (grow_for_ok d (blen s) Hw) as (d1 & -> & H1 & H2 & H3 & H4 & _); [done..|].
  cbn [mbind outcome_bind]. destruct Hw as [Hl Hv].
  destruct (copy_in_ok d1 s) as (v & -> & Hb & Hc); [split; lia|lia|].
  cbn [mbind outcome_bind]. rewrite int_ok by lia. cbn [mbind outcome_bind].
  eexists. split; [reflexivity|]. unfold appended, wf, contents. cbn [d_len d_val d_markers].
  rewrite Hc, H2, H1, H3. split; [lia|]. done.
Qed.

Lemma append_integer_ok d v (n : nat) : wf d -> d_len d + 8 < 2 ^ 30 ->
  n = 1%nat \/ n = 2%nat \/ n = 4%nat \/ n = 8%nat ->
  exists d', data_append_integer junk d v (8 * Z.of_nat n) = Done d' /\ appended d d' (be_bytes n v).
Proof.
  intros Hw Hs Hn.
  assert (E : data_append_integer junk d v (8 * Z.of_nat n) = data_append_data junk d (be_bytes n v) (blen (be_bytes n v)))
    by (rewrite blen_be_bytes; by destruct Hn as [->|[->|[->| ->]]]).
  rewrite E. apply append_data_ok; [done|]. rewrite blen_be_bytes. lia.
Qed.

Lemma append_cell_ok d v : wf d -> d_len d + 8 < 2 ^ 30 ->
  exists d', data_append_cell junk d v = Done d' /\ appended d d' (be_bytes 4 v).
Proof. intros. apply (append_integer_ok d v 4); [done..|]. by right; right; left. Qed.

Lemma append_re_ok d a s : wf d -> d_len d + 16 < 2 ^ 30 ->
  exists d', data_append_re junk d a s = Done d' /\ appended d d' (be_bytes 8 a ++ be_bytes 8 s).
Proof.
  intros. unfold data_append_re.
  assert (E : blen (be_bytes 8 a ++ be_bytes 8 s) = 16) by (by rewrite blen_app, !blen_be_bytes).
  rewrite <- E. apply append_data_ok; [done|]. rewrite E. lia.
Qed.

Lemma append_zeroes_ok d n : wf d -> 0 <= n -> d_len d + n < 2 ^ 30 ->
  exists d', data_append_zeroes junk d n = Done d' /\ appended d d' (zeros n).
Proof.
  intros Hw Hn Hs. unfold data_append_zeroes.
  destruct (grow_for_ok d n Hw) as (d1 & -> & H1 & H2 & H3 & H4 & _); [done..|].
  cbn [mbind outcome_bind]. rewrite (proj2 (Z.ltb_ge n 0)) by lia. destruct Hw as [Hl Hv].
  destruct (copy_in_ok d1 (zeros n)) as (v & Hc & Hb & Ht); [split; lia|rewrite blen_zeros; lia|].
  unfold copy_in in Hc. rewrite mread_all in Hc. cbn [defined mbind outcome_bind] in Hc.
  rewrite Hc. cbn [mbind outcome_bind]. rewrite int_ok by lia. cbn [mbind outcome_bind].
  eexists. split; [reflexivity|]. unfold appended, wf, contents. cbn [d_len d_val d_markers].
  rewrite blen_zeros in * by done. rewrite Ht, H2, H1, H3. split; [lia|]. done.
Qed.

(** Aligning to a power of two appends the zeros to the next multiple. *)
Lemma align_pow2 x k : 0 <= k -> Z.land x (Z.lnot (2 ^ k - 1)) = 2 ^ k * (x / 2 ^ k).
Proof.
  intros Hk. replace (2 ^ k - 1) with (Z.ones k) by (rewrite Z.ones_equiv; lia).
  rewrite <- Z.ldiff_land, Z.ldiff_ones_r by done. rewrite Z.shiftr_div_pow2, Z.shiftl_mul_pow2 by done. lia.
Qed.

Lemma ALIGN_ok x k : 0 <= x < 2 ^ 30 -> 0 <= k <= 12 ->
  ALIGN x (2 ^ k) = Done (x + (- x) mod 2 ^ k).
Proof.
  intros Hx Hk. unfold ALIGN.
  assert (2 ^ k <= 2 ^ 12) by (apply Z.pow_le_mono_r; lia). change (2 ^ 12) with 4096 in *.
  assert (0 < 2 ^ k) by (apply Z.pow_pos_nonneg; lia).
  rewrite int_ok by lia. cbn [mbind outcome_bind]. rewrite align_pow2 by lia. f_equal.
  rewrite <- (Z.mod_unique (- x) (2 ^ k) (- ((x + 2 ^ k - 1) / 2 ^ k)) (2 ^ k * ((x + 2 ^ k - 1) / 2 ^ k) - x)).
  - lia.
  - left. pose proof (Z.div_mod (x + 2 ^ k - 1) (2 ^ k)). pose proof (Z.mod_pos_bound (x + 2 ^ k - 1) (2 ^ k)). lia.
  - lia.
Qed.

Lemma append_align_ok d k : wf d -> d_len d + 2 ^ 12 < 2 ^ 30 -> 0 <= k <= 12 ->
  exists d', data_append_align junk d (2 ^ k) = Done d' /\ appended d d' (zeros ((- d_len d) mod 2 ^ k)).
Proof.
  intros Hw Hs Hk. unfold data_append_align. destruct Hw as [Hl Hv].
  rewrite ALIGN_ok by lia. cbn [mbind outcome_bind].
  replace (d_len d + (- d_len d) mod 2 ^ k - d_len d) with ((- d_len d) mod 2 ^ k) by lia.
  assert (2 ^ k <= 2 ^ 12) by (apply Z.pow_le_mono_r; lia).
  assert (0 < 2 ^ k) by (apply Z.pow_pos_nonneg; lia).
  pose proof (Z.mod_pos_bound (- d_len d) (2 ^ k)). apply append_zeroes_ok; [by split|lia|lia].
Qed.

Lemma merge_ok d1 d2 : wf d1 -> wf d2 -> d_len d1 + d_len d2 < 2 ^ 30 ->
  exists d', data_merge junk d1 d2 = Done d' /\ wf d' /\ contents d' = contents d1 ++ contents d2 /\
    d_len d' = d_len d1 + d_len d2 /\
    d_markers d' = d_markers d1 ++ map (fun k => Marker (m_type k) (m_offset k + d_len d1) (m_ref k)) (d_markers d2).
Proof.
  intros Hw1 [Hl2 Hv2] Hs. unfold data_merge.
  assert (Hc : blen (contents d2) = d_len d2) by (unfold contents, blen in *; rewrite length_take; lia).
  destruct (append_data_ok d1 (contents d2)) as (d' & E & Hw' & Hc' & Hn & Hm); [done|lia|].
  rewrite Hc in E, Hn.
  assert (E' : data_append_data junk d1 (d_val d2) (d_len d2) = Done d').
  { rewrite <- E. unfold data_append_data, copy_in.
    rewrite !mread_Some by lia. change (Z.to_nat 0) with 0%nat. rewrite !drop_0.
    unfold contents. rewrite take_take, Nat.min_id. done. }
  rewrite E'. cbn [mbind outcome_bind]. eexists. split; [reflexivity|].
  unfold wf, contents in *. cbn [data_append_markers d_len d_val d_markers]. by rewrite Hm.
Qed.
End Append.
