(* ===== verification/Livetree.v ===== *)
(** Live device trees (libdtc/livetree.c): properties, nodes, labels and memory
    reservations; building, naming, chaining, deleting and merging them; the
    accessors by name, path, label and phandle.

    A linked list is a list, a child holds no pointer to its parent, and a
    function that changes the object a pointer leads to returns it.  A field
    that is NULL until it is set is an [option]. *)
From S2P Require Import Prelude Stdio Dtdata.

Record label := Label { l_deleted : bool; l_label : bytes }.

Record property := Property {
  p_deleted : bool; p_name : bytes; p_val : data; p_labels : list label }.

#[local] Unset Elimination Schemes.
Inductive node := Node {
  n_deleted : bool;
  n_name : option bytes;
  proplist : list property;
  children : list node;
  fullpath : option bytes;
  basenamelen : Z;
  phandle : Z;
  n_labels : list label }.
#[local] Set Elimination Schemes.

Record reserve_info := Reserve { re_address : Z; re_size : Z; re_labels : list label }.

Record dt_info := DtInfo {
  dtsflags : Z; reservelist : list reserve_info; boot_cpuid_phys : Z; dt : node }.

Definition DTSF_V1 := 1.

Definition streq (a b : bytes) : bool := strcmp a b =? 0.

(** [for_each_label], [for_each_property] and [for_each_child] skip what is
    deleted. *)
Definition live_labels (l : list label) : list label := List.filter (fun x => negb (l_deleted x)) l.
Definition live_properties (n : node) : list property := List.filter (fun x => negb (p_deleted x)) (proplist n).
Definition live_children (n : node) : list node := List.filter (fun x => negb (n_deleted x)) (children n).

(** ** Labels *)

(** A known label is revived where it is; a new one comes first. *)
Fixpoint revive (name : bytes) (l : list label) : option (list label) :=
  match l with
  | [] => None
  | x :: l =>
      if streq (l_label x) name then Some (Label false (l_label x) :: l)
      else l ← revive name l; Some (x :: l)
  end.

Definition add_label (labels : list label) (name : bytes) : list label :=
  match revive name labels with Some l => l | None => Label false name :: labels end.

Definition delete_labels (labels : list label) : list label :=
  map (fun l => Label true (l_label l)) labels.

(** ** Building *)

Definition build_property (name : bytes) (val : data) : property := Property false name val [].
Definition build_property_delete (name : bytes) : property := Property true name empty_data [].

Definition chain_property (first : property) (list_ : list property) : list property := first :: list_.
Definition reverse_properties (first : list property) : list property := rev first.

Definition build_node (props : list property) (kids : list node) : node :=
  Node false None (reverse_properties props) kids None 0 0 [].
Definition build_node_delete : node := Node true None [] [] None 0 0 [].

(** [None]: the assertion fails. *)
Definition name_node (n : node) (name : bytes) : option node :=
  match n_name n with
  | Some _ => None
  | None => Some (Node (n_deleted n) (Some name) (proplist n) (children n) (fullpath n)
                    (basenamelen n) (phandle n) (n_labels n))
  end.

Definition chain_node (first : node) (list_ : list node) : list node := first :: list_.

Definition with_props (n : node) (ps : list property) : node :=
  Node (n_deleted n) (n_name n) ps (children n) (fullpath n) (basenamelen n) (phandle n) (n_labels n).
Definition with_children (n : node) (cs : list node) : node :=
  Node (n_deleted n) (n_name n) (proplist n) cs (fullpath n) (basenamelen n) (phandle n) (n_labels n).

Definition add_property (n : node) (prop : property) : node := with_props n (proplist n ++ [prop]).
Definition add_child (parent child : node) : node := with_children parent (children parent ++ [child]).

(** ** Deleting *)

Definition delete_property (p : property) : property :=
  Property true (p_name p) (p_val p) (delete_labels (p_labels p)).

Fixpoint delete_first_property (name : bytes) (l : list property) : list property :=
  match l with
  | [] => []
  | p :: l => if streq (p_name p) name then delete_property p :: l else p :: delete_first_property name l
  end.

Definition delete_property_by_name (n : node) (name : bytes) : node :=
  with_props n (delete_first_property name (proplist n)).

(** Only what is not deleted yet is visited, and the labels of a node always. *)
Fixpoint delete_node (n : node) : node :=
  Node true (n_name n)
    (map (fun p => if p_deleted p then p else delete_property p) (proplist n))
    (map (fun c => if n_deleted c then c else delete_node c) (children n))
    (fullpath n) (basenamelen n) (phandle n) (delete_labels (n_labels n)).

(** [strcmp] of two names; [None]: one of them is NULL. *)
Definition same_name (a b : option bytes) : option bool := a ← a; b ← b; Some (streq a b).

Fixpoint delete_first_node (name : option bytes) (l : list node) : option (list node) :=
  match l with
  | [] => Some []
  | c :: l =>
      eq ← same_name (n_name c) name;
      if (eq : bool) then Some (delete_node c :: l)
      else l ← delete_first_node name l; Some (c :: l)
  end.

Definition delete_node_by_name (parent : node) (name : option bytes) : option node :=
  cs ← delete_first_node name (children parent); Some (with_children parent cs).

(** ** Merging *)

(** The labels of [new] added one by one. *)
Definition add_labels (old new : list label) : list label :=
  fold_left (fun ls l => add_label ls (l_label l)) new old.

(** The first property of the same name, deleted or not, takes the new value. *)
Fixpoint collide_property (new : property) (l : list property) : option (list property) :=
  match l with
  | [] => None
  | p :: l =>
      if streq (p_name p) (p_name new)
      then Some (Property false (p_name p) (p_val new) (add_labels (p_labels p) (p_labels new)) :: l)
      else l ← collide_property new l; Some (p :: l)
  end.

Definition merge_property (old : node) (new : property) : node :=
  if p_deleted new then delete_property_by_name old (p_name new)
  else match collide_property new (proplist old) with
       | Some ps => with_props old ps
       | None => add_property old new
       end.

Definition undelete (n : node) (ls : list label) : node :=
  Node false (n_name n) (proplist n) (children n) (fullpath n) (basenamelen n) (phandle n) ls.

(** The first child of the same name is merged with [merge]; the outer [None]
    is [strcmp] of NULL, the inner one no such child. *)
Fixpoint collide_child (merge : node -> option node) (name : option bytes) (l : list node)
    : option (option (list node)) :=
  match l with
  | [] => Some None
  | c :: l =>
      eq ← same_name (n_name c) name;
      if (eq : bool) then c ← merge c; Some (Some (c :: l))
      else r ← collide_child merge name l;
           Some (match r with Some l => Some (c :: l) | None => None end)
  end.

Fixpoint merge_nodes (new_node old_node : node) {struct new_node} : option node :=
  let old := undelete old_node (add_labels (n_labels old_node) (n_labels new_node)) in
  let old := fold_left merge_property (proplist new_node) old in
  (fix merge_children (l : list node) (old : node) : option node :=
     match l with
     | [] => Some old
     | c :: l =>
         if n_deleted c then old ← delete_node_by_name old (n_name c); merge_children l old
         else
           r ← collide_child (merge_nodes c) (n_name c) (children old);
           merge_children l (match r with Some cs => with_children old cs | None => add_child old c end)
     end) (children new_node) old.

(** ** Reservations *)

Definition build_reserve_entry (address size : Z) : reserve_info := Reserve address size [].
Definition chain_reserve_entry (first : reserve_info) (list_ : list reserve_info) : list reserve_info :=
  first :: list_.
Definition add_reserve_entry (list_ : list reserve_info) (new : reserve_info) : list reserve_info :=
  list_ ++ [new].

Definition build_dt_info (flags : Z) (reserve : list reserve_info) (tree : node) (boot_cpuid : Z) : dt_info :=
  DtInfo flags reserve boot_cpuid tree.

(** ** Accessors *)

Definition get_property (n : node) (propname : bytes) : option property :=
  List.find (fun p => streq (p_name p) propname) (live_properties n).

(** [None]: the assertion on the length, or a value without storage. *)
Definition propval_cell (p : property) : option Z :=
  if d_len (p_val p) =? 4 then v ← mread (d_val (p_val p)) 0 4; Some (be_val v) else None.

Section Append.
Context (junk : Z -> Z).

(** The first live property of the name takes the longer value. *)
Fixpoint set_live_value (name : bytes) (d : data) (l : list property) : list property :=
  match l with
  | [] => []
  | p :: l =>
      if negb (p_deleted p) && streq (p_name p) name
      then Property (p_deleted p) (p_name p) d (p_labels p) :: l
      else p :: set_live_value name d l
  end.

Definition append_to_property (n : node) (name : bytes) (value : bytes) (len : Z) : outcome node :=
  match get_property n name with
  | Some p =>
      d ← data_append_data junk (p_val p) value len;
      Done (with_props n (set_live_value name d (proplist n)))
  | None =>
      d ← data_append_data junk empty_data value len;
      Done (add_property n (build_property name d))
  end.
End Append.

(** The name after the unit separator; reads one byte at [basenamelen]. *)
Definition get_unitname (n : node) : option bytes :=
  name ← n_name n;
  c ← mread (name ++ [0]) (basenamelen n) 1;
  if bool_decide (c = [0]) then Some [] else cstr_at (name ++ [0]) (basenamelen n + 1).

(** [None]: [strcmp] of a child without a name. *)
Fixpoint find_child (f : bytes -> bool) (l : list node) : option (option node) :=
  match l with
  | [] => Some None
  | c :: l => cn ← n_name c; if f cn then Some (Some c) else find_child f l
  end.

Definition get_subnode (n : node) (nodename : bytes) : option (option node) :=
  find_child (fun cn => streq cn nodename) (live_children n).

Fixpoint skip_slashes (path : bytes) : bytes :=
  match path with
  | c :: path' => if c =? 47 then skip_slashes path' else path
  | [] => []
  end.

(** The component before the next slash, and what follows it if there is one. *)
Fixpoint split_slash (path : bytes) : bytes * option bytes :=
  match path with
  | [] => ([], None)
  | c :: path =>
      if c =? 47 then ([], Some path)
      else let '(a, r) := split_slash path in (c :: a, r)
  end.

(** A call for each component of [path]. *)
Fixpoint search_path (fuel : nat) (tree : node) (path : bytes) : option (option node) :=
  match fuel with
  | O => None
  | S fuel =>
      match path with
      | [] => Some (if n_deleted tree then None else Some tree)
      | _ =>
          let '(comp, rest) := split_slash (skip_slashes path) in
          c ← find_child (fun cn => bool_decide (cn = comp)) (live_children tree);
          match c, rest with
          | Some c, Some rest => search_path fuel c rest
          | _, _ => Some c
          end
      end
  end.

Definition get_node_by_path (tree : node) (path : bytes) : option (option node) :=
  search_path (S (length path)) tree path.

(** The calls of [get_node_by_label] after its assertion on the label. *)
Fixpoint search_label (tree : node) (name : bytes) : option node :=
  if existsb (fun l => streq (l_label l) name) (live_labels (n_labels tree)) then Some tree
  else
    (fix first (l : list node) : option node :=
       match l with
       | [] => None
       | c :: l =>
           if n_deleted c then first l
           else match search_label c name with Some n => Some n | None => first l end
       end) (children tree).

(** [None]: the assertion fails. *)
Definition get_node_by_label (tree : node) (name : bytes) : option (option node) :=
  match name with [] => None | _ => Some (search_label tree name) end.

Fixpoint search_phandle (tree : node) (ph : Z) : option node :=
  if phandle tree =? ph then (if n_deleted tree then None else Some tree)
  else
    (fix first (l : list node) : option node :=
       match l with
       | [] => None
       | c :: l =>
           if n_deleted c then first l
           else match search_phandle c ph with Some n => Some n | None => first l end
       end) (children tree).

Definition get_node_by_phandle (tree : node) (ph : Z) : option (option node) :=
  if (ph =? 0) || (ph =? 2 ^ 32 - 1) then None else Some (search_phandle tree ph).

Definition get_node_by_ref (tree : node) (ref : bytes) : option (option node) :=
  if streq ref [47] then Some (Some tree)
  else match ref with
       | c :: _ => if c =? 47 then get_node_by_path tree ref else get_node_by_label tree ref
       | [] => get_node_by_label tree ref
       end.

(** ** Vocabulary of the proofs *)

(** The first property, or child, of a name, deleted or not. *)
Definition prop_of (n : node) (k : bytes) : option property := List.find (fun p => streq (p_name p) k) (proplist n).
Definition named (k : bytes) (c : node) : bool := match n_name c with Some s => streq s k | None => false end.
Definition child_of (n : node) (k : bytes) : option node := List.find (named k) (children n).

(** Every node has a name. *)
Fixpoint all_named (n : node) : bool :=
  match n_name n with Some _ => true | None => false end && forallb all_named (children n).

(** What merging makes of the property, and of the child, of a name. *)
Definition merged_property (new old : option property) : option property :=
  match new with
  | None => old
  | Some p =>
      if p_deleted p then delete_property <$> old
      else Some (match old with
                 | Some q => Property false (p_name q) (p_val p) (add_labels (p_labels q) (p_labels p))
                 | None => p
                 end)
  end.

Definition merged_child (new old : option node) : option node :=
  match new with
  | None => old
  | Some c =>
      if n_deleted c then delete_node <$> old
      else match old with Some d => merge_nodes c d | None => Some c end
  end.

(** The loop over the children, by itself. *)
Fixpoint merge_children (l : list node) (old : node) : option node :=
  match l with
  | [] => Some old
  | c :: l =>
      if n_deleted c then old ← delete_node_by_name old (n_name c); merge_children l old
      else
        r ← collide_child (merge_nodes c) (n_name c) (children old);
        merge_children l (match r with Some cs => with_children old cs | None => add_child old c end)
  end.

(** What [merge] must do for the child that is merged. *)
Definition merges (merge : node -> option node) (d : node) : Prop :=
  exists d', merge d = Some d' /\ all_named d' = true /\ n_name d' = n_name d.

Definition merge_total (c : node) : Prop :=
  all_named c = true -> forall d, all_named d = true -> merges (merge_nodes c) d.

(** ** Trees *)

Lemma node_induction (P : node -> Prop) :
  (forall n, Forall P (children n) -> P n) -> forall n, P n.
Proof.
  intros H. fix IH 1. intros n. apply H. destruct n as [d nm ps cs fp bl ph ls]. cbn [children].
  induction cs as [|c cs IHcs]; constructor; [apply IH|apply IHcs].
Qed.

Lemma streq_spec a b : streq a b = true <-> a = b.
Proof.
  unfold streq. rewrite Z.eqb_eq. revert b. induction a as [|x a IH]; intros [|y b]; cbn [strcmp]; try done.
  destruct (Z.ltb_spec x y); [split; [done|intros E; injection E as E1 E2; lia]|].
  destruct (Z.ltb_spec y x); [split; [done|intros E; injection E as E1 E2; lia]|].
  rewrite IH. split; [intros ->; f_equal; lia|by intros [= _ ->]].
Qed.

Lemma streq_refl a : streq a a = true.
Proof. by apply streq_spec. Qed.

Lemma streq_neq a b : a <> b -> streq a b = false.
Proof. intros H. destruct (streq a b) eqn:E; [|done]. by apply streq_spec in E. Qed.

Lemma named_spec k c : named k c = true <-> n_name c = Some k.
Proof.
  unfold named. destruct (n_name c) as [s|]; [rewrite streq_spec|]; split; try done; [by intros ->|by intros [= ->]].
Qed.

Lemma delete_node_name c : n_name (delete_node c) = n_name c.
Proof. by destruct c. Qed.

Lemma find_app {A} (f : A -> bool) l k :
  List.find f (l ++ k) = match List.find f l with Some x => Some x | None => List.find f k end.
Proof. induction l as [|x l IH]; [done|]. cbn [app List.find]. by destruct (f x). Qed.

(** ** Paths *)

Lemma skip_slashes_length path : (length (skip_slashes path) <= length path)%nat.
Proof. induction path as [|c path IH]; [done|]. cbn [skip_slashes]. destruct (c =? 47); cbn [length]; lia. Qed.

Lemma split_slash_length path rest : (split_slash path).2 = Some rest -> (length rest < length path)%nat.
Proof.
  induction path as [|c path IH]; [done|]. cbn [split_slash length]. destruct (c =? 47); [intros [= ->]; lia|].
  destruct (split_slash path) as [a [r|]]; cbn [snd] in *; [|done]. intros [= ->]. specialize (IH eq_refl). lia.
Qed.

(** The rounds [get_node_by_path] gives the search are enough. *)
Lemma search_path_enough fuel tree path : (length path < fuel)%nat -> search_path fuel tree path = get_node_by_path tree path.
Proof.
  unfold get_node_by_path. intros Hf. assert (Hg : (length path < S (length path))%nat) by lia.
  revert Hf Hg. generalize (S (length path)). intros fuel'. revert fuel' tree path.
  induction fuel as [|fuel IH]; intros [|fuel'] tree path Hf Hg; [lia..|]. cbn [search_path]. destruct path as [|c path]; [done|].
  pose proof (split_slash_length (skip_slashes (c :: path))) as Hs. pose proof (skip_slashes_length (c :: path)) as Hk.
  destruct (split_slash (skip_slashes (c :: path))) as [comp rest]. cbn [snd] in Hs.
  destruct (find_child _ _) as [[d|]|]; cbn [mbind option_bind]; [|done..]. destruct rest as [rest|]; [|done].
  specialize (Hs rest eq_refl). apply IH; lia.
Qed.

(** ** Merging properties *)

Lemma prop_of_delete n name k :
  prop_of (delete_property_by_name n name) k =
    if streq name k then delete_property <$> prop_of n k else prop_of n k.
Proof.
  unfold prop_of, delete_property_by_name. cbn [with_props proplist].
  induction (proplist n) as [|p l IH]; cbn [delete_first_property List.find]; [by destruct (streq name k)|].
  destruct (streq (p_name p) name) eqn:E1; cbn [List.find].
  - apply streq_spec in E1 as <-. cbn [delete_property p_name]. by destruct (streq (p_name p) k).
  - destruct (streq (p_name p) k) eqn:E2; [|exact IH]. apply streq_spec in E2 as <-.
    rewrite (streq_neq name (p_name p)); [done|]. intros ->. by rewrite streq_refl in E1.
Qed.

Lemma collide_property_spec new l :
  match collide_property new l with
  | Some l' => forall k, List.find (fun p => streq (p_name p) k) l' =
      if streq (p_name new) k then merged_property (Some new) (List.find (fun p => streq (p_name p) k) l)
      else List.find (fun p => streq (p_name p) k) l
  | None => List.find (fun p => streq (p_name p) (p_name new)) l = None
  end \/ p_deleted new = true.
Proof.
  destruct (p_deleted new) eqn:Hd; [by right|]. left.
  induction l as [|p l IH]; cbn [collide_property List.find]; [done|].
  destruct (streq (p_name p) (p_name new)) eqn:E.
  - apply streq_spec in E. intros k. cbn [List.find p_name]. rewrite E. unfold merged_property. rewrite Hd.
    destruct (streq (p_name new) k); [by rewrite E|done].
  - destruct (collide_property new l) as [l'|]; cbn [mbind option_bind]; [|exact IH].
    intros k. cbn [List.find]. destruct (streq (p_name p) k) eqn:Ek; [|apply IH].
    apply streq_spec in Ek as <-. rewrite streq_neq; [done|]. intros H. rewrite H in E. by rewrite streq_refl in E.
Qed.

Lemma prop_of_merge n new k :
  prop_of (merge_property n new) k =
    if streq (p_name new) k then merged_property (Some new) (prop_of n k) else prop_of n k.
Proof.
  unfold merge_property. destruct (p_deleted new) eqn:Hd.
  - rewrite prop_of_delete. unfold merged_property. by rewrite Hd.
  - destruct (collide_property_spec new (proplist n)) as [H|]; [|by rewrite Hd in *].
    destruct (collide_property new (proplist n)) as [l|]; [exact (H k)|].
    unfold prop_of, add_property. cbn [with_props proplist]. rewrite find_app.
    unfold merged_property. rewrite Hd. cbn [List.find].
    destruct (streq (p_name new) k) eqn:Ek.
    + apply streq_spec in Ek as <-. by rewrite H.
    + destruct (List.find (fun p => streq (p_name p) k) (proplist n)); reflexivity.
Qed.

Lemma merge_property_rest n p : children (merge_property n p) = children n /\ n_name (merge_property n p) = n_name n /\
  n_deleted (merge_property n p) = n_deleted n /\ n_labels (merge_property n p) = n_labels n.
Proof. unfold merge_property. destruct (p_deleted p); [done|]. by destruct (collide_property p (proplist n)). Qed.

Lemma merge_properties_spec ps n k : NoDup (map p_name ps) ->
  prop_of (fold_left merge_property ps n) k =
    merged_property (List.find (fun p => streq (p_name p) k) ps) (prop_of n k).
Proof.
  revert n. induction ps as [|p ps IH]; intros n Hnd; [done|]. cbn [fold_left List.find map] in *.
  apply NoDup_cons in Hnd as [Hp Hnd]. rewrite IH, prop_of_merge by done. destruct (streq (p_name p) k) eqn:E; [|done].
  apply streq_spec in E as <-. replace (List.find (fun p' => streq (p_name p') (p_name p)) ps) with (@None property); [done|].
  symmetry. destruct (List.find _ ps) as [q|] eqn:Ef; [|done]. apply List.find_some in Ef as [Hin Hq].
  apply streq_spec in Hq. exfalso. apply Hp. rewrite <- Hq. apply list_elem_of_fmap. exists q. split; [done|].
  by apply list_elem_of_In.
Qed.

Lemma merge_properties_rest ps n : children (fold_left merge_property ps n) = children n /\
  n_name (fold_left merge_property ps n) = n_name n /\ n_deleted (fold_left merge_property ps n) = n_deleted n /\
  n_labels (fold_left merge_property ps n) = n_labels n.
Proof.
  revert n. induction ps as [|p ps IH]; intros n; [done|]. cbn [fold_left].
  destruct (IH (merge_property n p)) as (-> & -> & -> & ->). apply merge_property_rest.
Qed.

(** ** Merging children *)

Lemma merge_nodes_unfold new old :
  merge_nodes new old =
    merge_children (children new)
      (fold_left merge_property (proplist new) (undelete old (add_labels (n_labels old) (n_labels new)))).
Proof.
  destruct new as [d nm ps cs fp bl ph ls]. cbn [merge_nodes children proplist n_labels].
  generalize (fold_left merge_property ps (undelete old (add_labels (n_labels old) ls))). clear.
  induction cs as [|c cs IH]; intros o; [done|]. cbn [merge_children]. destruct (n_deleted c).
  - destruct (delete_node_by_name o (n_name c)); cbn [mbind option_bind]; [apply IH|done].
  - destruct (collide_child _ _ _) as [r|]; cbn [mbind option_bind]; [apply IH|done].
Qed.

Lemma all_named_inv n : all_named n = true -> is_Some (n_name n) /\ Forall (fun c => all_named c = true) (children n).
Proof.
  destruct n as [d nm ps cs fp bl ph ls]. cbn [all_named n_name children]. intros [H1 H2]%andb_prop.
  split; [by destruct nm|]. apply Forall_forall. intros c Hc%list_elem_of_In. by apply (proj1 (forallb_forall _ _) H2).
Qed.

Lemma all_named_intro n : is_Some (n_name n) -> Forall (fun c => all_named c = true) (children n) -> all_named n = true.
Proof.
  destruct n as [d nm ps cs fp bl ph ls]. cbn [all_named n_name children]. intros [s ->] H.
  apply forallb_forall. intros c Hc%list_elem_of_In. by apply (proj1 (Forall_forall _ _) H).
Qed.

Lemma delete_node_named n : all_named n = true -> all_named (delete_node n) = true.
Proof.
  induction n as [n IH] using node_induction. intros Hn. apply all_named_inv in Hn as [H1 H2].
  apply all_named_intro; [by rewrite delete_node_name|]. destruct n as [d nm ps cs fp bl ph ls]. cbn [delete_node children] in *.
  clear H1. induction H2 as [|c cs Hc H2 IHc]; [done|]. apply Forall_cons in IH as [IHn IH]. cbn [map].
  constructor; [destruct (n_deleted c); auto|by apply IHc].
Qed.

Lemma delete_first_spec k l : Forall (fun c => all_named c = true) l ->
  exists l', delete_first_node (Some k) l = Some l' /\ Forall (fun c => all_named c = true) l' /\
    forall j, List.find (named j) l' =
      if streq k j then delete_node <$> List.find (named j) l else List.find (named j) l.
Proof.
  induction 1 as [|c l Hc Hl IH]; cbn [delete_first_node].
  { exists []. split; [done|]. split; [done|]. intros j. by destruct (streq k j). }
  destruct (all_named_inv c Hc) as [[s Hs] _]. unfold same_name. rewrite Hs. cbn [mbind option_bind].
  destruct (streq s k) eqn:E.
  - apply streq_spec in E as ->. eexists. split; [reflexivity|].
    split; [constructor; [by apply delete_node_named|done]|]. intros j. cbn [List.find]. unfold named.
    rewrite delete_node_name, Hs. by destruct (streq k j).
  - destruct IH as (l' & -> & Hn & IH). cbn [mbind option_bind]. exists (c :: l').
    split; [done|]. split; [by constructor|]. intros j. cbn [List.find]. unfold named at 1 3 5. rewrite Hs.
    destruct (streq s j) eqn:Ej; [|apply IH]. apply streq_spec in Ej as <-. rewrite streq_neq; [done|].
    intros ->. by rewrite streq_refl in E.
Qed.

Lemma collide_child_spec merge k l : Forall (fun c => all_named c = true) l ->
  (forall d, all_named d = true -> merges merge d) ->
  exists r, collide_child merge (Some k) l = Some r /\
    match r with
    | None => List.find (named k) l = None
    | Some l' => List.find (named k) l <> None /\ Forall (fun c => all_named c = true) l' /\
        forall j, List.find (named j) l' =
          if streq k j then d ← List.find (named j) l; merge d else List.find (named j) l
    end.
Proof.
  intros Hl Hm. induction Hl as [|c l Hc Hl IH]; cbn [collide_child]; [by exists None|].
  destruct (all_named_inv c Hc) as [[s Hs] _]. unfold same_name. rewrite Hs. cbn [mbind option_bind].
  destruct (streq s k) eqn:E.
  - apply streq_spec in E as ->. destruct (Hm c Hc) as (d & Ed & Hd & Hdn). rewrite Ed. cbn [mbind option_bind].
    eexists. split; [reflexivity|]. cbn beta iota.
    split; [cbn [List.find]; unfold named at 1; by rewrite Hs, streq_refl|].
    split; [by constructor|]. intros j. cbn [List.find].
    unfold named at 1 3 5. rewrite Hdn, Hs. destruct (streq k j) eqn:Ej; [|done]. cbn [mbind option_bind]. done.
  - destruct IH as (r & -> & IH). cbn [mbind option_bind].
    destruct r as [l'|]; (eexists; split; [reflexivity|]); cbn beta iota.
    + destruct IH as (Hk & Hn & IH). split; [cbn [List.find]; unfold named at 1; by rewrite Hs, E|].
      split; [by constructor|]. intros j. cbn [List.find]. unfold named at 1 3 5. rewrite Hs.
      destruct (streq s j) eqn:Ej; [|apply IH]. apply streq_spec in Ej as <-. rewrite streq_neq; [done|].
      intros ->. by rewrite streq_refl in E.
    + cbn [List.find]. unfold named at 1. rewrite Hs, E. exact IH.
Qed.

Lemma merge_children_spec cs o : Forall merge_total cs -> Forall (fun c => all_named c = true) cs ->
  all_named o = true ->
  exists r, merge_children cs o = Some r /\ all_named r = true /\ n_name r = n_name o /\
    n_deleted r = n_deleted o /\ proplist r = proplist o /\ n_labels r = n_labels o /\
    (NoDup (map n_name cs) -> forall k, child_of r k = merged_child (List.find (named k) cs) (child_of o k)).
Proof.
  revert o. induction cs as [|c cs IH]; intros o Ht Hn Ho; cbn [merge_children].
  { exists o. repeat (split; [done|]). done. }
  apply Forall_cons in Ht as [Htc Ht]. apply Forall_cons in Hn as [Hnc Hn].
  destruct (all_named_inv c Hnc) as [[s Hs] _]. destruct (all_named_inv o Ho) as [Hos Hoc].
  assert (Hgo : forall cs', Forall (fun c => all_named c = true) cs' ->
    (forall j, List.find (named j) cs' = if streq s j then merged_child (Some c) (child_of o j) else child_of o j) ->
    exists r, merge_children cs (with_children o cs') = Some r /\ all_named r = true /\ n_name r = n_name o /\
      n_deleted r = n_deleted o /\ proplist r = proplist o /\ n_labels r = n_labels o /\
      (NoDup (map n_name (c :: cs)) -> forall k, child_of r k = merged_child (List.find (named k) (c :: cs)) (child_of o k))).
  { intros cs' Hcs' Hj. destruct (IH (with_children o cs') Ht Hn) as (r & E & H1 & H2 & H3 & H4 & H5 & H6).
    { by apply all_named_intro. }
    exists r. repeat (split; [done|]). cbn [map]. intros [Hfresh Hnd]%NoDup_cons k. rewrite H6 by done.
    unfold child_of at 1. cbn [with_children children List.find].
    rewrite Hj. unfold named at 2. rewrite Hs. destruct (streq s k) eqn:Ek; [|done]. apply streq_spec in Ek as <-.
    destruct (List.find (named s) cs) as [d|] eqn:Ef; [|done]. exfalso. apply Hfresh.
    apply List.find_some in Ef as [Hin Hd]. apply named_spec in Hd. rewrite Hs, <- Hd. apply list_elem_of_fmap.
    exists d. split; [done|]. by apply list_elem_of_In. }
  destruct (n_deleted c) eqn:Hd.
  - unfold delete_node_by_name. rewrite Hs. destruct (delete_first_spec s (children o) Hoc) as (l' & -> & Hl' & Hj).
    cbn [mbind option_bind]. apply Hgo; [done|]. intros j. rewrite Hj. unfold merged_child. by rewrite Hd.
  - rewrite Hs. destruct (collide_child_spec (merge_nodes c) s (children o) Hoc (Htc Hnc)) as (r & -> & Hr).
    cbn [mbind option_bind]. destruct r as [l'|].
    + destruct Hr as (Hk & Hl' & Hj). apply Hgo; [done|]. intros j. rewrite Hj. unfold merged_child. rewrite Hd.
      destruct (streq s j) eqn:Ej; [|done]. apply streq_spec in Ej as <-. unfold child_of.
      by destruct (List.find (named s) (children o)).
    + apply Hgo; [apply Forall_app; split; [done|by constructor]|]. intros j. rewrite find_app. cbn [List.find].
      unfold named at 2. rewrite Hs. unfold merged_child. rewrite Hd. destruct (streq s j) eqn:Ej.
      * apply streq_spec in Ej as <-. unfold child_of. by rewrite Hr.
      * unfold child_of. by destruct (List.find (named j) (children o)).
Qed.

Lemma undelete_named n ls : all_named n = true -> all_named (undelete n ls) = true.
Proof. by destruct n. Qed.

Lemma fold_named ps n : all_named n = true -> all_named (fold_left merge_property ps n) = true.
Proof.
  intros Hn. destruct (all_named_inv n Hn) as [H1 H2]. destruct (merge_properties_rest ps n) as (E1 & E2 & _).
  apply all_named_intro; [by rewrite E2|by rewrite E1].
Qed.

Lemma merge_nodes_total c : merge_total c.
Proof.
  induction c as [c IH] using node_induction. intros Hc d Hd. destruct (all_named_inv c Hc) as [_ Hcs].
  unfold merges. rewrite merge_nodes_unfold.
  destruct (merge_children_spec (children c)
    (fold_left merge_property (proplist c) (undelete d (add_labels (n_labels d) (n_labels c)))) IH Hcs)
    as (r & E & H1 & H2 & _); [by apply fold_named, undelete_named|].
  exists r. split; [done|]. split; [done|]. rewrite H2.
  destruct (merge_properties_rest (proplist c) (undelete d (add_labels (n_labels d) (n_labels c)))) as (_ & -> & _). done.
Qed.

(** ** Properties *)

(** Merging: [merge_nodes] of trees whose nodes all have names ends without
    a NULL dereference and undeletes the node.  When the new node gives each name
    once, every property and every child of the result is the one the merge of
    that name alone makes: a deletion deletes, a new value replaces the old one
    and keeps the labels of both, a child of the same name is merged in turn, and
    what only one of the two nodes has is kept. *)
Theorem merge_nodes_spec (new old : node) :
  all_named new = true -> all_named old = true ->
  NoDup (map p_name (proplist new)) -> NoDup (map n_name (children new)) ->
  exists r, merge_nodes new old = Some r /\ all_named r = true /\ n_name r = n_name old /\ n_deleted r = false /\
    n_labels r = add_labels (n_labels old) (n_labels new) /\
    (forall k, prop_of r k = merged_property (prop_of new k) (prop_of old k)) /\
    (forall k, child_of r k = merged_child (child_of new k) (child_of old k)).
Proof.
  intros Hn Ho Hp Hc. destruct (all_named_inv new Hn) as [_ Hcs]. rewrite merge_nodes_unfold.
  set (o := undelete old (add_labels (n_labels old) (n_labels new))).
  destruct (merge_properties_rest (proplist new) o) as (E1 & E2 & E3 & E4).
  assert (Ht : Forall merge_total (children new)) by (apply Forall_forall; intros c _; apply merge_nodes_total).
  destruct (merge_children_spec (children new) (fold_left merge_property (proplist new) o) Ht Hcs)
    as (r & E & H1 & H2 & H3 & H4 & H5 & H6); [by apply fold_named, undelete_named|].
  exists r. split; [done|]. split; [done|]. split; [by rewrite H2, E2|]. split; [by rewrite H3, E3|].
  split; [by rewrite H5, E4|]. split; intros k.
  - unfold prop_of at 1. rewrite H4. exact (merge_properties_spec (proplist new) o k Hp).
  - rewrite H6 by done. unfold child_of. by rewrite E1.
Qed.

Lemma merge_nodes_spec_witness :
  let p k v := Property false (str k) (Data (blen v) v []) [] in
  let leaf k ps := Node false (Some (str k)) ps [] None 0 0 [] in
  let old := Node false (Some []) [p "a" [1]; p "b" [2]] [leaf "c" [p "x" [3]]; leaf "d" []] None 0 0 [] in
  let new := Node false (Some []) [p "b" [9]; Property true (str "a") empty_data []]
               [leaf "c" [p "x" [4]]; Node true (Some (str "d")) [] [] None 0 0 []] None 0 0 [] in
  exists r, merge_nodes new old = Some r /\ all_named r = true /\ n_name r = n_name old /\ n_deleted r = false /\
    n_labels r = add_labels (n_labels old) (n_labels new) /\
    (forall k, prop_of r k = merged_property (prop_of new k) (prop_of old k)) /\
    (forall k, child_of r k = merged_child (child_of new k) (child_of old k)).
Proof.
  intros p leaf old new.
  apply (merge_nodes_spec new old); [reflexivity|reflexivity| |]; apply (bool_decide_unpack _); vm_compute; reflexivity.
Defined.
