(* ===== verification/Flattree.v ===== *)
(** Flattened device trees (libdtc/flattree.c): writing a live tree as a blob
    ([dt_to_mem], [dt_to_blob]) and reading one back ([dt_from_mem],
    [dt_from_blob]).

    The emitter is the interface [emitter]; the binary one appends to a buffer.
    A reader works on the memory [mem] its pointers lead into: a read outside it
    is [Fault], what the code detects itself is [Die].  Warnings are left out. *)
From S2P Require Import Prelude Stdio Dtdata Livetree.

Definition FTF_FULLPATH := 0x1.
Definition FTF_VARALIGN := 0x2.
Definition FTF_NAMEPROPS := 0x4.
Definition FTF_BOOTCPUID := 0x8.
Definition FTF_STRTABSIZE := 0x10.
Definition FTF_STRUCTSIZE := 0x20.
Definition FTF_NOPS := 0x40.

Definition FDT_MAGIC := 0xd00dfeed.
Definition FDT_BEGIN_NODE := 1.
Definition FDT_END_NODE := 2.
Definition FDT_PROP := 3.
Definition FDT_NOP := 4.
Definition FDT_END := 9.

Definition FDT_V1_SIZE := 28.
Definition FDT_V2_SIZE := FDT_V1_SIZE + 4.
Definition FDT_V3_SIZE := FDT_V2_SIZE + 4.
Definition FDT_V17_SIZE := FDT_V3_SIZE + 4.

Definition DEFAULT_FDT_VERSION := 17.

Record version_info := Version {
  vi_version : Z; last_comp_version : Z; hdr_size : Z; vi_flags : Z }.

Definition flags_of (fs : list Z) : Z := fold_right Z.lor 0 fs.

Definition version_table : list version_info :=
  [ Version 1 1 FDT_V1_SIZE (flags_of [FTF_FULLPATH; FTF_VARALIGN; FTF_NAMEPROPS]);
    Version 2 1 FDT_V2_SIZE (flags_of [FTF_FULLPATH; FTF_VARALIGN; FTF_NAMEPROPS; FTF_BOOTCPUID]);
    Version 3 1 FDT_V3_SIZE
      (flags_of [FTF_FULLPATH; FTF_VARALIGN; FTF_NAMEPROPS; FTF_BOOTCPUID; FTF_STRTABSIZE]);
    Version 16 16 FDT_V3_SIZE (flags_of [FTF_BOOTCPUID; FTF_STRTABSIZE; FTF_NOPS]);
    Version 17 16 FDT_V17_SIZE (flags_of [FTF_BOOTCPUID; FTF_STRTABSIZE; FTF_STRUCTSIZE; FTF_NOPS]) ].

Definition flag (flags f : Z) : bool := negb (Z.land flags f =? 0).

(** The last entry of the version. *)
Definition find_version (version : Z) : option version_info :=
  fold_left (fun vi v => if vi_version v =? version then Some v else vi) version_table None.

(** ** Emitters *)

Class emitter (T : Type) := {
  emit_cell : T -> Z -> outcome T;
  emit_string : T -> option bytes -> Z -> outcome T;
  emit_align : T -> Z -> outcome T;
  emit_data : T -> data -> outcome T;
  emit_beginnode : T -> list label -> outcome T;
  emit_endnode : T -> list label -> outcome T;
  emit_property : T -> list label -> outcome T
}.

(** The options of the compiler, which the program sets to 0. *)
Record options := Options { reservenum : Z; minsize : Z; padsize : Z; alignsize : Z }.

Section Writer.
Context (junk : Z -> Z).

Definition bin_emit_cell (dtbuf : data) (val : Z) : outcome data := data_append_cell junk dtbuf val.

(** [None] is a NULL string. *)
Definition bin_emit_string (dtbuf : data) (s : option bytes) (len : Z) : outcome data :=
  s ← defined s;
  let len := if len =? 0 then blen s else len in
  d ← data_append_data junk dtbuf (s ++ [0]) len;
  data_append_byte junk d 0.

Definition bin_emit_align (dtbuf : data) (a : Z) : outcome data := data_append_align junk dtbuf a.

Definition bin_emit_data (dtbuf : data) (d : data) : outcome data :=
  data_append_data junk dtbuf (d_val d) (d_len d).

Definition bin_emit_beginnode (dtbuf : data) (labels : list label) : outcome data :=
  bin_emit_cell dtbuf FDT_BEGIN_NODE.
Definition bin_emit_endnode (dtbuf : data) (labels : list label) : outcome data :=
  bin_emit_cell dtbuf FDT_END_NODE.
Definition bin_emit_property (dtbuf : data) (labels : list label) : outcome data :=
  bin_emit_cell dtbuf FDT_PROP.

#[local] Instance bin_emitter : emitter data := {
  emit_cell := bin_emit_cell;
  emit_string := bin_emit_string;
  emit_align := bin_emit_align;
  emit_data := bin_emit_data;
  emit_beginnode := bin_emit_beginnode;
  emit_endnode := bin_emit_endnode;
  emit_property := bin_emit_property
}.

(** [for (i = 0; i < d->len; i++) if (streq(str, d->val + i)) return i;] *)
Fixpoint find_string (fuel : nat) (d : data) (s : bytes) (i : Z) : outcome (option Z) :=
  match fuel with
  | O => Done None
  | S fuel =>
      t ← defined (cstr_at (d_val d) i);
      if streq s t then Done (Some i) else find_string fuel d s (i + 1)
  end.

Definition stringtable_insert (d : data) (s : bytes) : outcome (Z * data) :=
  r ← find_string (Z.to_nat (d_len d)) d s 0;
  match r with
  | Some i => Done (i, d)
  | None => d' ← data_append_data junk d (s ++ [0]) (blen s + 1); Done (d_len d, d')
  end.

Section Flatten.
Context {T : Type} `{emitter T} (vi : version_info).

(** One round of the loop over the properties; the buffers and whether a
    property is called "name". *)
Definition flatten_property (prop : property) (st : T * data * bool) : outcome (T * data * bool) :=
  let '(e, strbuf, seen) := st in
  let seen := seen || streq (p_name prop) (str "name") in
  '(nameoff, strbuf) ← stringtable_insert strbuf (p_name prop);
  e ← emit_property e (p_labels prop);
  e ← emit_cell e (d_len (p_val prop));
  e ← emit_cell e nameoff;
  e ← (if flag (vi_flags vi) FTF_VARALIGN && (8 <=? d_len (p_val prop)) then emit_align e 8 else Done e);
  e ← emit_data e (p_val prop);
  e ← emit_align e 4;
  Done (e, strbuf, seen).

Fixpoint flatten_properties (ps : list property) (st : T * data * bool) : outcome (T * data * bool) :=
  match ps with
  | [] => Done st
  | p :: ps => st ← flatten_property p st; flatten_properties ps st
  end.

(** The property "name" of the old versions. *)
Definition flatten_name (tree : node) (e : T) (strbuf : data) : outcome (T * data) :=
  e ← emit_property e [];
  n1 ← int (basenamelen tree + 1);
  e ← emit_cell e n1;
  '(nameoff, strbuf) ← stringtable_insert strbuf (str "name");
  e ← emit_cell e nameoff;
  e ← (if flag (vi_flags vi) FTF_VARALIGN && (8 <=? n1) then emit_align e 8 else Done e);
  e ← emit_string e (n_name tree) (basenamelen tree);
  e ← emit_align e 4;
  Done (e, strbuf).

Fixpoint flatten_tree (tree : node) (e : T) (strbuf : data) : outcome (T * data) :=
  if n_deleted tree then Done (e, strbuf)
  else
    e ← emit_beginnode e (n_labels tree);
    e ← emit_string e (if flag (vi_flags vi) FTF_FULLPATH then fullpath tree else n_name tree) 0;
    e ← emit_align e 4;
    '(e, strbuf, seen_name_prop) ← flatten_properties (live_properties tree) (e, strbuf, false);
    '(e, strbuf) ← (if flag (vi_flags vi) FTF_NAMEPROPS && negb seen_name_prop
                    then flatten_name tree e strbuf else Done (e, strbuf));
    '(e, strbuf) ←
      (fix flatten_children (l : list node) (e : T) (strbuf : data) : outcome (T * data) :=
         match l with
         | [] => Done (e, strbuf)
         | c :: l =>
             if n_deleted c then flatten_children l e strbuf
             else '(e, strbuf) ← flatten_tree c e strbuf; flatten_children l e strbuf
         end) (children tree) e strbuf;
    e ← emit_endnode e (n_labels tree);
    Done (e, strbuf).
End Flatten.

Fixpoint append_entries (l : list reserve_info) (d : data) : outcome data :=
  match l with
  | [] => Done d
  | re :: l => d ← data_append_re junk d (re_address re) (re_size re); append_entries l d
  end.

Definition flatten_reserve_list (o : options) (l : list reserve_info) : outcome data :=
  d ← append_entries l empty_data;
  append_entries (replicate (Z.to_nat (reservenum o)) (Reserve 0 0 [])) d.

(** The header: ten words, 0xffffffff where the version sets nothing.  The
    offsets are sums of [int]s. *)
Definition make_fdt_header (vi : version_info) (reservesize dtsize strsize boot_cpuid_phys : Z)
    : outcome (list Z) :=
  reservesize ← int (reservesize + 16);
  reserve_off ← ALIGN (hdr_size vi) 8;
  off_dt ← int (reserve_off + reservesize);
  off_str ← int (off_dt + dtsize);
  total ← int (off_str + strsize);
  let unset := 0xffffffff in
  Done [FDT_MAGIC; total; off_dt; off_str; reserve_off; vi_version vi; last_comp_version vi;
        (if flag (vi_flags vi) FTF_BOOTCPUID then boot_cpuid_phys else unset);
        (if flag (vi_flags vi) FTF_STRTABSIZE then strsize else unset);
        (if flag (vi_flags vi) FTF_STRUCTSIZE then dtsize else unset)].

Definition header_bytes (ws : list Z) : bytes := concat (map (be_bytes 4) ws).

(** [minsize > 0] subtracts an unsigned word and converts the result to [int]. *)
Definition padding (o : options) (total : Z) : outcome Z :=
  let padlen := if 0 <? minsize o then Z.max 0 (s32 (minsize o - total)) else 0 in
  let padlen := if 0 <? padsize o then padsize o else padlen in
  if 0 <? alignsize o then
    Done (s32 (u32 (Z.land (u32 (u32 (total + padlen) + alignsize o - 1)) (Z.lnot (alignsize o - 1)) - total)))
  else Done padlen.

(** The whole blob. *)
Definition make_blob (o : options) (dti : dt_info) (version : Z) : outcome data :=
  match find_version version with
  | None => Die
  | Some vi =>
      '(dtbuf, strbuf) ← flatten_tree vi (dt dti) empty_data empty_data;
      dtbuf ← bin_emit_cell dtbuf FDT_END;
      reservebuf ← flatten_reserve_list o (reservelist dti);
      fdt ← make_fdt_header vi (d_len reservebuf) (d_len dtbuf) (d_len strbuf) (boot_cpuid_phys dti);
      let total := default 0 (fdt !! 1%nat) in
      padlen ← padding o total;
      fdt ← (if 0 <? padlen then tsize ← int (total + padlen); Done (<[1%nat := tsize]> fdt) else Done fdt);
      blob ← data_append_data junk empty_data (header_bytes fdt) (hdr_size vi);
      blob ← data_append_align junk blob 8;
      blob ← data_merge junk blob reservebuf;
      blob ← data_append_zeroes junk blob 16;
      blob ← data_merge junk blob dtbuf;
      blob ← data_merge junk blob strbuf;
      if 0 <? padlen then data_append_zeroes junk blob padlen else Done blob
  end.

(** The block [malloc] returns holds the blob; its size is stored in [size]. *)
Definition dt_to_mem (o : options) (dti : dt_info) (version : Z) : outcome (bytes * Z) :=
  blob ← make_blob o dti version;
  p ← defined (mread (d_val blob) 0 (d_len blob));
  Done (p, d_len blob).

(** What [fwrite] appends to the file. *)
Definition dt_to_blob (o : options) (dti : dt_info) (version : Z) : outcome bytes :=
  blob ← make_blob o dti version;
  defined (mread (d_val blob) 0 (d_len blob)).
End Writer.

(** ** Reading *)

(** Pointers into [mem], as offsets. *)
Record inbuf := Inbuf { base : Z; limit : Z; pos : Z }.

Definition inbuf_init (b l : Z) : inbuf := Inbuf b l b.
Definition at_pos (inb : inbuf) (p : Z) : inbuf := Inbuf (base inb) (limit inb) p.

Definition strneq (a b : bytes) (n : Z) : bool := strcmp (take (Z.to_nat n) a) (take (Z.to_nat n) b) =? 0.

Section Reader.
Context (junk : Z -> Z) (mem : bytes).

Definition byte_at (p : Z) : outcome Z :=
  c ← defined (mread mem p 1);
  defined (head c).

Definition flat_read_chunk (inb : inbuf) (len : Z) : outcome (bytes * inbuf) :=
  if limit inb <? pos inb + len then Die
  else d ← defined (mread mem (pos inb) len); Done (d, at_pos inb (pos inb + len)).

Definition flat_read_word (inb : inbuf) : outcome (Z * inbuf) :=
  if negb ((pos inb - base inb) mod 4 =? 0) then Fault
  else '(d, inb) ← flat_read_chunk inb 4; Done (be_val d, inb).

Definition flat_realign (inb : inbuf) (align : Z) : outcome inbuf :=
  let off := s32 (pos inb - base inb) in
  a ← ALIGN off align;
  let p := base inb + a in
  if limit inb <? p then Die else Done (at_pos inb p).

(** The bytes up to the first NUL from [p], a round for each byte. *)
Fixpoint string_loop (fuel : nat) (lim p : Z) : outcome bytes :=
  match fuel with
  | O => Diverge
  | S fuel =>
      if lim <=? p then Die
      else
        c ← byte_at p;
        if c =? 0 then Done [] else s ← string_loop fuel lim (p + 1); Done (c :: s)
  end.

Definition flat_read_string (inb : inbuf) : outcome (bytes * inbuf) :=
  s ← string_loop (S (Z.to_nat (limit inb - pos inb))) (limit inb) (pos inb);
  inb ← flat_realign (at_pos inb (pos inb + blen s + 1)) 4;
  Done (s, inb).

Definition flat_read_data (inb : inbuf) (len : Z) : outcome (data * inbuf) :=
  if len =? 0 then Done (empty_data, inb)
  else
    d ← data_grow_for junk empty_data len;
    '(s, inb) ← flat_read_chunk inb len;
    v ← defined (mwrite (d_val d) 0 s);
    inb ← flat_realign inb 4;
    Done (Data len v (d_markers d), inb).

(** [offset] is an [int]. *)
Definition flat_read_stringtable (inb : inbuf) (offset : Z) : outcome bytes :=
  let p := base inb + offset in
  if (limit inb <=? p) || (p <? base inb) then Die
  else string_loop (S (Z.to_nat (limit inb - p))) (limit inb) p.

Definition flat_read_property (dtbuf strbuf : inbuf) (flags : Z) : outcome (property * inbuf) :=
  '(proplen, dtbuf) ← flat_read_word dtbuf;
  '(stroff, dtbuf) ← flat_read_word dtbuf;
  name ← flat_read_stringtable strbuf (s32 stroff);
  dtbuf ← (if flag flags FTF_VARALIGN && (8 <=? proplen) then flat_realign dtbuf 8 else Done dtbuf);
  '(val, dtbuf) ← flat_read_data dtbuf (s32 proplen);
  Done (build_property name val, dtbuf).

(** A round for each entry. *)
Fixpoint reserve_loop (fuel : nat) (inb : inbuf) (reservelist : list reserve_info)
    : outcome (list reserve_info) :=
  match fuel with
  | O => Diverge
  | S fuel =>
      '(re, inb) ← flat_read_chunk inb 16;
      let address := be_val (take 8 re) in
      let size := be_val (drop 8 re) in
      if size =? 0 then Done reservelist
      else reserve_loop fuel inb (add_reserve_entry reservelist (build_reserve_entry address size))
  end.

Definition flat_read_mem_reserve (inb : inbuf) : outcome (list reserve_info) :=
  reserve_loop (S (Z.to_nat (limit inb - pos inb))) inb [].

(** The string after the path of the parent and a slash. *)
Definition nodename_from_path (ppath cpath : bytes) : outcome bytes :=
  let plen := blen ppath in
  if negb (strneq ppath cpath plen) then Die
  else
    let plen := if negb (streq ppath [47]) then plen + 1 else plen in
    defined (cstr_at (cpath ++ [0]) plen).

Definition set_name (n : node) (name : bytes) : node :=
  Node (n_deleted n) (Some name) (proplist n) (children n) (fullpath n) (basenamelen n) (phandle n) (n_labels n).

Section Unflatten.
Context (strbuf : inbuf) (flags : Z).

(** [unflatten_tree] and its loop over the tags, a round for each call and
    each tag. *)
Fixpoint unflatten_tree (fuel : nat) (dtbuf : inbuf) (parent_flatname : bytes) : outcome (node * inbuf) :=
  match fuel with
  | O => Diverge
  | S fuel =>
      let node := build_node [] [] in
      '(flatname, dtbuf) ← flat_read_string dtbuf;
      name ← (if flag flags FTF_FULLPATH then nodename_from_path parent_flatname flatname else Done flatname);
      unflatten_loop fuel dtbuf flatname (set_name node name)
  end
with unflatten_loop (fuel : nat) (dtbuf : inbuf) (flatname : bytes) (node : node) : outcome (Livetree.node * inbuf) :=
  match fuel with
  | O => Diverge
  | S fuel =>
      '(val, dtbuf) ← flat_read_word dtbuf;
      if val =? FDT_PROP then
        '(prop, dtbuf) ← flat_read_property dtbuf strbuf flags;
        unflatten_loop fuel dtbuf flatname (add_property node prop)
      else if val =? FDT_BEGIN_NODE then
        '(child, dtbuf) ← unflatten_tree fuel dtbuf flatname;
        unflatten_loop fuel dtbuf flatname (add_child node child)
      else if val =? FDT_END_NODE then Done (node, dtbuf)
      else if val =? FDT_NOP then unflatten_loop fuel dtbuf flatname node
      else Die    (* a premature FDT_END or an invalid tag *)
  end.
End Unflatten.

(** Two rounds for each word are enough. *)
Definition unflatten_fuel (inb : inbuf) : nat := S (S (Z.to_nat (limit inb - pos inb))).

(** A word of the header at [ptr]. *)
Definition header_word (k : Z) : outcome Z := d ← defined (mread mem (4 * k) 4); Done (be_val d).

Definition dt_from_mem : outcome dt_info :=
  totalsize ← header_word 1;
  off_dt ← header_word 2;
  off_str ← header_word 3;
  off_mem_rsvmap ← header_word 4;
  boot_cpuid_phys ← header_word 7;
  version ← header_word 5;
  strbuf ← (if 3 <=? version then
              size_str ← header_word 8; Done (inbuf_init off_str (off_str + size_str))
            else Done (inbuf_init off_str totalsize));
  let flags := if version <? 16 then flags_of [FTF_FULLPATH; FTF_NAMEPROPS; FTF_VARALIGN] else FTF_NOPS in
  let memresvbuf := inbuf_init off_mem_rsvmap totalsize in
  let dtbuf := inbuf_init off_dt totalsize in
  reservelist ← flat_read_mem_reserve memresvbuf;
  '(ret, dtbuf) ← flat_read_word dtbuf;
  if negb (ret =? FDT_BEGIN_NODE) then Fault
  else
    '(tree, dtbuf) ← unflatten_tree strbuf flags (unflatten_fuel dtbuf) dtbuf [];
    '(ret, dtbuf) ← flat_read_word dtbuf;
    if negb (ret =? FDT_END) then Fault
    else Done (build_dt_info DTSF_V1 reservelist tree boot_cpuid_phys).
End Reader.

(** [dt_from_blob] of a file that holds [f]. *)
Definition read_blob (junk : Z -> Z) (blob : bytes) (totalsize : Z) : outcome dt_info :=
  off_dt ← header_word blob 2;
  off_str ← header_word blob 3;
  off_mem_rsvmap ← header_word blob 4;
  version ← header_word blob 5;
  boot_cpuid_phys ← header_word blob 7;
  if totalsize <=? off_mem_rsvmap then Die
  else if totalsize <=? off_dt then Die
  else if totalsize <? off_str then Die
  else
    strbuf ← (if 3 <=? version then
                size_str ← header_word blob 8;
                let e := u32 (off_str + size_str) in
                if (e <? off_str) || (totalsize <? e) then Die
                else Done (inbuf_init off_str (off_str + size_str))
              else Done (inbuf_init off_str totalsize));
    _ ← (if 17 <=? version then
           size_dt ← header_word blob 9;
           let e := u32 (off_dt + size_dt) in
           if (e <? off_dt) || (totalsize <? e) then Die else Done tt
         else Done tt);
    let flags := if version <? 16 then flags_of [FTF_FULLPATH; FTF_NAMEPROPS; FTF_VARALIGN] else FTF_NOPS in
    let memresvbuf := inbuf_init off_mem_rsvmap totalsize in
    let dtbuf := inbuf_init off_dt totalsize in
    reservelist ← flat_read_mem_reserve blob memresvbuf;
    '(val, dtbuf) ← flat_read_word blob dtbuf;
    if negb (val =? FDT_BEGIN_NODE) then Die
    else
      '(tree, dtbuf) ← unflatten_tree junk blob strbuf flags (unflatten_fuel dtbuf) dtbuf [];
      '(val, dtbuf) ← flat_read_word blob dtbuf;
      if negb (val =? FDT_END) then Die
      else Done (build_dt_info DTSF_V1 reservelist tree boot_cpuid_phys).

(** The part that reads the file: the magic, the size, and the rest of the
    block in as many [fread]s as it takes.  A size that turns [sizeleft] negative
    makes [fread] store the whole file, more than the block. *)
Definition dt_from_blob (junk : Z -> Z) (f : bytes) : outcome dt_info :=
  match mread f 0 4, mread f 4 4 with
  | Some magic, Some size =>
      if negb (be_val magic =? FDT_MAGIC) then Die
      else
        let totalsize := be_val size in
        if totalsize <? FDT_V1_SIZE then Die
        else if (2 ^ 31 <=? totalsize - 8) && (totalsize <? blen f) then Fault
        else match mread f 0 totalsize with
             | None => Die
             | Some blob => read_blob junk blob totalsize
             end
  | _, _ => Die
  end.

(** ** Vocabulary of the proofs *)

(** The string table: the first place where the string is read, or the end. *)
Fixpoint tab_find (tab s : bytes) : option Z :=
  match tab with
  | [] => None
  | _ :: r => if bool_decide (cstring tab = Some s) then Some 0 else i ← tab_find r s; Some (i + 1)
  end.

Definition tab_insert (tab s : bytes) : Z * bytes :=
  match tab_find tab s with Some i => (i, tab) | None => (blen tab, tab ++ s ++ [0]) end.

(** A table is a sequence of C strings. *)
Definition tab_ok (tab : bytes) : Prop := tab = [] \/ exists t, tab = t ++ [0].

Definition word (v : Z) : bytes := be_bytes 4 v.
Definition pad4 (s : bytes) : bytes := s ++ zeros ((- blen s) mod 4).

(** The structure block of the versions without full paths, as a function. *)
Definition enc_prop (p : property) (tab : bytes) : bytes * bytes :=
  let '(i, tab) := tab_insert tab (p_name p) in
  (word FDT_PROP ++ word (d_len (p_val p)) ++ word i ++ pad4 (contents (p_val p)), tab).

Fixpoint enc_props (ps : list property) (tab : bytes) : bytes * bytes :=
  match ps with
  | [] => ([], tab)
  | p :: ps =>
      let '(a, tab) := enc_prop p tab in
      let '(b, tab) := enc_props ps tab in (a ++ b, tab)
  end.

Fixpoint enc_node (n : node) (tab : bytes) : bytes * bytes :=
  let '(ps, tab) := enc_props (live_properties n) tab in
  let '(cs, tab) :=
    (fix enc_children (l : list node) (tab : bytes) : bytes * bytes :=
       match l with
       | [] => ([], tab)
       | c :: l =>
           if n_deleted c then enc_children l tab
           else
             let '(a, tab) := enc_node c tab in
             let '(b, tab) := enc_children l tab in (a ++ b, tab)
       end) (children n) tab in
  (word FDT_BEGIN_NODE ++ pad4 (default [] (n_name n) ++ [0]) ++ ps ++ cs ++ word FDT_END_NODE, tab).

Fixpoint enc_children (l : list node) (tab : bytes) : bytes * bytes :=
  match l with
  | [] => ([], tab)
  | c :: l =>
      if n_deleted c then enc_children l tab
      else
        let '(a, tab) := enc_node c tab in
        let '(b, tab) := enc_children l tab in (a ++ b, tab)
  end.

Definition enc_reserve (l : list reserve_info) : bytes :=
  concat (map (fun re => be_bytes 8 (re_address re) ++ be_bytes 8 (re_size re)) l).

(** The blob of version 16 or 17: header, reservations, structure, strings. *)
Definition enc_blob (dti : dt_info) (version : Z) : bytes :=
  let '(st, tab) := enc_node (dt dti) [] in
  let st := st ++ word FDT_END in
  let rs := enc_reserve (reservelist dti) ++ zeros 16 in
  let sizes := word (boot_cpuid_phys dti) ++ word (blen tab) ++ if version =? 17 then word (blen st) else zeros 4 in
  word FDT_MAGIC ++ word (40 + blen rs + blen st + blen tab) ++ word (40 + blen rs) ++
  word (40 + blen rs + blen st) ++ word 40 ++ word version ++ word 16 ++ sizes ++ rs ++ st ++ tab.

(** What can be written and read back: names are C strings, buffers are well
    formed.  What is deleted does not matter. *)
Definition c_string (s : bytes) : bool := forallb (fun b => negb (b =? 0)) s.
Definition good_property (p : property) : bool :=
  c_string (p_name p) && (0 <=? d_len (p_val p)) && (d_len (p_val p) <=? blen (d_val (p_val p))).

Fixpoint good_node (n : node) : bool :=
  match n_name n with Some s => c_string s | None => false end &&
  forallb good_property (live_properties n) &&
  forallb (fun c => n_deleted c || good_node c) (children n).

Definition good_reserve (re : reserve_info) : bool :=
  (0 <=? re_address re) && (re_address re <? 2 ^ 64) && (0 <? re_size re) && (re_size re <? 2 ^ 64).

(** What is read back: everything live, without labels, markers and the fields
    the passes of the compiler compute. *)
Definition read_property (p : property) : property :=
  build_property (p_name p) (Data (d_len (p_val p)) (contents (p_val p)) []).

Fixpoint read_node (n : node) : node :=
  Node false (n_name n) (map read_property (live_properties n))
    ((fix read_children (l : list node) : list node :=
        match l with
        | [] => []
        | c :: l => if n_deleted c then read_children l else read_node c :: read_children l
        end) (children n)) None 0 0 [].

Definition read_info (dti : dt_info) : dt_info :=
  DtInfo DTSF_V1 (map (fun re => Reserve (re_address re) (re_size re) []) (reservelist dti))
    (boot_cpuid_phys dti) (read_node (dt dti)).

(** The bytes [s] are at [p] in [mem]. *)
Definition seg (mem : bytes) (p : Z) (s : bytes) : Prop :=
  exists pre post, mem = pre ++ s ++ post /\ blen pre = p.

Definition LIM := 2 ^ 30 - 2 ^ 13.

(** The versions with neither full paths, nor variable alignment, nor name
    properties. *)
Definition plain (vi : version_info) : Prop :=
  flag (vi_flags vi) FTF_FULLPATH = false /\ flag (vi_flags vi) FTF_VARALIGN = false /\
  flag (vi_flags vi) FTF_NAMEPROPS = false.

(** The compiler as the program configures it. *)
Definition no_options : options := Options 0 0 0 0.

Definition version_ok (version : Z) : Prop := version = 16 \/ version = 17.

(** A version as [version_table] has it. *)
Definition info (version : Z) : version_info :=
  if version =? 17 then Version 17 16 40 (flags_of [FTF_BOOTCPUID; FTF_STRTABSIZE; FTF_STRUCTSIZE; FTF_NOPS])
  else Version 16 16 36 (flags_of [FTF_BOOTCPUID; FTF_STRTABSIZE; FTF_NOPS]).

(** The ten words of the header, and how many bytes of them are written. *)
Definition enc_words (dti : dt_info) (version rs st tab : Z) : list Z :=
  [FDT_MAGIC; 40 + (rs + 16) + st + tab; 40 + (rs + 16); 40 + (rs + 16) + st; 40; version; 16;
   boot_cpuid_phys dti; tab; if version =? 17 then st else 0xffffffff].

(** The bytes of the header that are written, and those that are not. *)
Definition written_words (version : Z) : nat := if version =? 17 then 10%nat else 9%nat.

(** What a tree is after its tag. *)
Definition enc_body (n : node) (tab : bytes) : bytes := drop 4 (enc_node n tab).1.

(** Where the parts of the blob are. *)
Record blob_at (mem : bytes) (dti : dt_info) (version : Z) (st tab : bytes) : Prop := {
  at_size : header_word mem 1 = Done (blen (enc_blob dti version));
  at_dt_off : header_word mem 2 = Done (56 + blen (enc_reserve (reservelist dti)));
  at_str_off : header_word mem 3 = Done (60 + blen (enc_reserve (reservelist dti)) + blen st);
  at_rsv_off : header_word mem 4 = Done 40;
  at_version : header_word mem 5 = Done version;
  at_cpu : header_word mem 7 = Done (boot_cpuid_phys dti);
  at_strings : header_word mem 8 = Done (blen tab);
  at_struct : version = 17 -> header_word mem 9 = Done (blen st + 4);
  at_rsv : seg mem 40 (enc_reserve (reservelist dti) ++ zeros 16);
  at_dt : seg mem (56 + blen (enc_reserve (reservelist dti))) (st ++ word FDT_END);
  at_str : seg mem (60 + blen (enc_reserve (reservelist dti)) + blen st) tab }.

Definition good_info (dti : dt_info) : bool :=
  good_node (dt dti) && negb (n_deleted (dt dti)) && forallb good_reserve (reservelist dti) &&
  (0 <=? boot_cpuid_phys dti) && (boot_cpuid_phys dti <? 2 ^ 32).

(** No endless loop, what is returned satisfies [P], and an access outside the
    block or a failed assertion only if [F] holds. *)
Definition fine (F : Prop) {A} (P : A -> Prop) (o : outcome A) : Prop :=
  match o with Done a => P a | Die => True | Fault => F | Diverge => False end.

(** The record of a file that promises more than there is. *)
Definition sample_header (total : Z) : bytes :=
  word FDT_MAGIC ++ word total ++ word 56 ++ word 60 ++ word 40 ++ word 17 ++ word 16 ++ word 0 ++ word 0 ++ word 4.

Definition leaf (name : string) (ps : list property) : node :=
  Node false (Some (str name)) ps [] None 0 0 [].
Definition value (s : bytes) : data := Data (blen s) s [].
Definition sample_info : dt_info :=
  DtInfo DTSF_V1 [Reserve 0x80000000 0x1000 []] 0
    (Node false (Some []) [Property false (str "compatible") (value (str "bxxt" ++ [0])) [];
                           Property true (str "gone") (value [1]) []]
       [leaf "cpus" [Property false (str "compatible") (value (str "arm" ++ [0])) [Label false (str "c")]];
        Node true (Some (str "old")) [] [] None 0 0 [];
        leaf "chosen" [Property false (str "ible") (value []) []]] None 0 0 []).

Definition no_junk (i : Z) : Z := 170.

(** ** Trees *)

Lemma enc_node_unfold n tab :
  enc_node n tab =
    let '(ps, tab) := enc_props (live_properties n) tab in
    let '(cs, tab) := enc_children (children n) tab in
    (word FDT_BEGIN_NODE ++ pad4 (default [] (n_name n) ++ [0]) ++ ps ++ cs ++ word FDT_END_NODE, tab).
Proof.
  destruct n as [d nm ps cs fp bl ph ls]. cbn [enc_node children n_name live_properties].
  destruct (enc_props _ tab) as [a tab1]. revert tab1. 
  enough (H : forall tab1, (fix enc_children (l : list node) (tab : bytes) : bytes * bytes :=
       match l with
       | [] => ([], tab)
       | c :: l =>
           if n_deleted c then enc_children l tab
           else
             let '(a, tab) := enc_node c tab in
             let '(b, tab) := enc_children l tab in (a ++ b, tab)
       end) cs tab1 = enc_children cs tab1) by (intros; by rewrite H).
  induction cs as [|c cs IH]; intros tab1; [done|]. cbn [enc_children].
  destruct (n_deleted c); [apply IH|]. destruct (enc_node c tab1). by rewrite IH.
Qed.

Lemma read_node_unfold n :
  read_node n = Node false (n_name n) (map read_property (live_properties n))
    (map read_node (live_children n)) None 0 0 [].
Proof.
  destruct n as [d nm ps cs fp bl ph ls]. cbn [read_node]. f_equal. unfold live_children. cbn [children].
  induction cs as [|c cs IH]; [done|]. cbn [List.filter]. destruct (n_deleted c); cbn [negb map]; [done|].
  by rewrite IH.
Qed.

(** ** String tables *)

Lemma c_string_spec s : c_string s = true <-> 0 ∉ s.
Proof.
  unfold c_string. rewrite forallb_forall. split.
  - intros H Hin%list_elem_of_In. by specialize (H _ Hin).
  - intros H x Hx%list_elem_of_In. destruct (Z.eqb_spec x 0) as [->|]; [done|done].
Qed.

Lemma cstring_more m k s : cstring m = Some s -> cstring (m ++ k) = Some s.
Proof.
  revert s. induction m as [|c m IH]; intros s H; [done|]. cbn [app cstring] in *.
  destruct (c =? 0); [done|]. destruct (cstring m) as [t|] eqn:E; [|done]. by rewrite (IH t).
Qed.

Lemma cstr_at_more m k i s : cstr_at m i = Some s -> cstr_at (m ++ k) i = Some s.
Proof.
  unfold cstr_at. intros H. case_match eqn:E; [|done]. apply andb_prop in E as [E1 E2].
  rewrite blen_app. pose proof (blen_nonneg k). rewrite E1, (proj2 (Z.leb_le _ _)) by lia. cbn [andb].
  unfold blen in *. rewrite drop_app_le by lia. by apply cstring_more.
Qed.

Lemma tab_ok_some tab : tab_ok tab -> tab <> [] -> exists s, cstring tab = Some s.
Proof.
  intros [->|[t ->]] Hne; [done|]. clear Hne. induction t as [|c t IH]; [by exists []|].
  cbn [app cstring]. destruct (c =? 0); [by exists []|]. destruct IH as [s ->]. by exists (c :: s).
Qed.

Lemma tab_ok_tail c tab : tab_ok (c :: tab) -> tab_ok tab.
Proof.
  intros [E|[t E]]; [done|]. destruct t as [|x t]; [injection E as _ ->; by left|].
  injection E as _ ->. right. by exists t.
Qed.

Lemma cstr_at_app pre rest : cstr_at (pre ++ rest) (blen pre) = cstring rest.
Proof.
  unfold cstr_at. rewrite blen_app. pose proof (blen_nonneg pre). pose proof (blen_nonneg rest).
  rewrite !(proj2 (Z.leb_le _ _)) by lia. cbn [andb]. unfold blen. by rewrite Nat2Z.id, drop_app_length.
Qed.

Lemma d_val_split d : d_val d = contents d ++ drop (Z.to_nat (d_len d)) (d_val d).
Proof. unfold contents. by rewrite take_drop. Qed.

Lemma contents_blen d : wf d -> blen (contents d) = d_len d.
Proof. intros [H1 H2]. unfold contents, blen in *. rewrite length_take. lia. Qed.

Lemma find_string_ok d s rest pre :
  contents d = pre ++ rest -> tab_ok rest ->
  find_string (length rest) d s (blen pre) =
    Done (match tab_find rest s with Some j => Some (blen pre + j) | None => None end).
Proof.
  revert pre. induction rest as [|c rest IH]; intros pre Hc Hok; [done|].
  cbn [length find_string tab_find].
  destruct (tab_ok_some (c :: rest) Hok) as [t Ht]; [done|].
  assert (E : cstr_at (d_val d) (blen pre) = Some t).
  { rewrite d_val_split, Hc. apply cstr_at_more. by rewrite cstr_at_app. }
  rewrite E. cbn [defined mbind outcome_bind]. destruct (streq s t) eqn:Es.
  - apply streq_spec in Es as <-. rewrite bool_decide_true by done. do 2 f_equal. lia.
  - rewrite bool_decide_false; last first.
    { intros Heq. rewrite Ht in Heq. injection Heq as ->. by rewrite (proj2 (streq_spec s s)) in Es. }
    replace (blen pre + 1) with (blen (pre ++ [c])) by (rewrite blen_app, blen_cons, blen_nil; lia).
    rewrite IH.
    + destruct (tab_find rest s) as [j|]; cbn [mbind option_bind]; [|done].
      rewrite blen_app, blen_cons, blen_nil. do 2 f_equal. lia.
    + by rewrite <- app_assoc.
    + by eapply tab_ok_tail.
Qed.

Lemma tab_find_reads tab s i : tab_find tab s = Some i -> cstr_at tab i = Some s /\ 0 <= i < blen tab.
Proof.
  revert i. induction tab as [|c tab IH]; intros i; cbn [tab_find]; [done|].
  rewrite blen_cons. pose proof (blen_nonneg tab). case_bool_decide as Hc.
  - intros [= <-]. split; [|lia]. apply (cstr_at_app [] (c :: tab)) || idtac. unfold cstr_at.
    rewrite (proj2 (Z.leb_le _ _)) by (rewrite ?blen_cons; lia). exact Hc.
  - destruct (tab_find tab s) as [j|]; [|done]. intros [= <-]. destruct (IH j eq_refl) as [H1 H2].
    split; [|lia]. unfold cstr_at in *. rewrite blen_cons.
    rewrite !(proj2 (Z.leb_le _ _)) by lia. rewrite !(proj2 (Z.leb_le _ _)) in H1 by lia.
    replace (Z.to_nat (j + 1)) with (S (Z.to_nat j)) by lia. exact H1.
Qed.

(** What an insertion gives: a place where the string is read in the table and
    in every longer one. *)
Lemma tab_insert_ok tab s : 0 ∉ s -> tab_ok tab ->
  let '(i, tab') := tab_insert tab s in
  tab_ok tab' /\ tab `prefix_of` tab' /\ 0 <= i < blen tab' /\
  forall T, tab' `prefix_of` T -> cstr_at T i = Some s.
Proof.
  intros Hs Hok. unfold tab_insert. destruct (tab_find tab s) as [i|] eqn:E.
  - destruct (tab_find_reads _ _ _ E) as [H1 H2]. split; [done|]. split; [done|]. split; [done|].
    intros T [k ->]. by apply cstr_at_more.
  - split; [right; by exists (tab ++ s); rewrite app_assoc|]. split; [by apply prefix_app_r|].
    split; [pose proof (blen_nonneg tab); pose proof (blen_nonneg s); rewrite !blen_app; change (blen [0]) with 1; lia|].
    intros T [k ->]. apply cstr_at_more. rewrite cstr_at_app. by apply cstring_app.
Qed.

Lemma blen_pad4 s : blen (pad4 s) = blen s + (- blen s) mod 4.
Proof. unfold pad4. rewrite blen_app, blen_zeros; [done|]. apply Z.mod_pos_bound. lia. Qed.

Lemma pad4_mod s : blen (pad4 s) mod 4 = 0.
Proof. rewrite blen_pad4. zlia. Qed.

Lemma blen_word v : blen (word v) = 4.
Proof. unfold word. by rewrite blen_be_bytes. Qed.

Section Encoding.

Lemma enc_prop_facts p tab : 0 ∉ p_name p -> tab_ok tab ->
  tab_ok (enc_prop p tab).2 /\ tab `prefix_of` (enc_prop p tab).2 /\ blen (enc_prop p tab).1 mod 4 = 0 /\
  12 <= blen (enc_prop p tab).1.
Proof.
  intros Hn Hok. unfold enc_prop. pose proof (tab_insert_ok tab (p_name p) Hn Hok) as H.
  destruct (tab_insert tab (p_name p)) as [i tab']. cbn [fst snd]. destruct H as (H1 & H2 & _).
  repeat (split; [done|]). rewrite !blen_app, !blen_word.
  pose proof (pad4_mod (contents (p_val p))). pose proof (blen_nonneg (pad4 (contents (p_val p)))).
  split; [zlia|lia].
Qed.

Lemma enc_props_facts ps tab : Forall (fun p => 0 ∉ p_name p) ps -> tab_ok tab ->
  tab_ok (enc_props ps tab).2 /\ tab `prefix_of` (enc_props ps tab).2 /\ blen (enc_props ps tab).1 mod 4 = 0.
Proof.
  revert tab. induction ps as [|p ps IH]; intros tab Hn Hok; [done|]. cbn [enc_props].
  apply Forall_cons in Hn as [Hp Hn].
  pose proof (enc_prop_facts p tab Hp Hok) as Hf. destruct (enc_prop p tab) as [a tab1].
  cbn [fst snd] in Hf. destruct Hf as (Hok1 & Hpre & Hmod & _).
  pose proof (IH tab1 Hn Hok1) as Hf. destruct (enc_props ps tab1) as [b tab2]. cbn [fst snd] in *.
  destruct Hf as (Hok2 & Hpre2 & Hmod2). split; [done|]. split; [by etrans|]. rewrite blen_app. zlia.
Qed.

(** Facts of [good_node]. *)
Lemma good_node_inv n : good_node n = true ->
  exists s, n_name n = Some s /\ (0 ∉ s) /\ Forall (fun p => good_property p = true) (live_properties n) /\
    Forall (fun c => n_deleted c = true \/ good_node c = true) (children n).
Proof.
  destruct n as [d nm ps cs fp bl ph ls]. cbn [good_node n_name children]. intros H.
  apply andb_prop in H as [[H1 H2]%andb_prop H3]. destruct nm as [s|]; [|done].
  exists s. split; [done|]. apply c_string_spec in H1. split; [done|].
  split; apply Forall_forall; intros x Hx%list_elem_of_In.
  - by apply (proj1 (forallb_forall _ _) H2).
  - by apply orb_prop, (proj1 (forallb_forall _ _) H3).
Qed.

Lemma good_property_inv p : good_property p = true -> (0 ∉ p_name p) /\ wf (p_val p).
Proof.
  unfold good_property, wf. intros [[H1%c_string_spec H2]%andb_prop H3]%andb_prop. split; [done|lia].
Qed.

Lemma good_property_names ps : Forall (fun p => good_property p = true) ps -> Forall (fun p => 0 ∉ p_name p) ps.
Proof. intros H. eapply Forall_impl; [exact H|]. intros p Hp. by apply good_property_inv. Qed.

(** The encoding extends the table and is a sequence of words. *)
Definition sound_enc (r : bytes * bytes) (tab : bytes) : Prop :=
  tab_ok r.2 /\ tab `prefix_of` r.2 /\ blen r.1 mod 4 = 0.

Definition enc_fact (n : node) : Prop :=
  good_node n = true -> forall tab, tab_ok tab -> sound_enc (enc_node n tab) tab.

Lemma enc_children_step l tab :
  Forall enc_fact l -> Forall (fun c => n_deleted c = true \/ good_node c = true) l -> tab_ok tab ->
  sound_enc (enc_children l tab) tab.
Proof.
  unfold sound_enc. revert tab. induction l as [|c l IHl]; intros tab HI Hg Hok; [done|]. cbn [enc_children].
  apply Forall_cons in Hg as [Hgc Hg]. apply Forall_cons in HI as [HIc HI].
  destruct (n_deleted c) eqn:Hd; [by apply IHl|]. destruct Hgc as [|Hgc]; [done|].
  pose proof (HIc Hgc tab Hok) as Hf. unfold sound_enc in Hf. destruct (enc_node c tab) as [x tab1]. cbn [fst snd] in Hf.
  destruct Hf as (H1 & H2 & H3). pose proof (IHl tab1 HI Hg H1) as Hf.
  destruct (enc_children l tab1) as [y tab2]. cbn [fst snd] in *. destruct Hf as (H4 & H5 & H6).
  split; [done|]. split; [by etrans|]. rewrite blen_app. zlia.
Qed.

Lemma enc_facts n : enc_fact n.
Proof.
  induction n as [n IH] using node_induction. intros Hg tab Hok.
  destruct (good_node_inv n Hg) as (s & Hs & Hs0 & Hps & Hcs). rewrite enc_node_unfold.
  pose proof (enc_props_facts _ tab (good_property_names _ Hps) Hok) as Hf.
  destruct (enc_props (live_properties n) tab) as [a tab1]. cbn [fst snd] in Hf.
  destruct Hf as (Hok1 & Hpre & Hmod).
  pose proof (enc_children_step (children n) tab1 IH Hcs Hok1) as Hf. unfold sound_enc in *.
  destruct (enc_children (children n) tab1) as [b tab2].
  cbn [fst snd] in *. destruct Hf as (H4 & H5 & H6). split; [done|]. split; [by etrans|].
  rewrite !blen_app, !blen_word. pose proof (pad4_mod (default [] (n_name n) ++ [0])). zlia.
Qed.

Lemma enc_children_facts l tab : Forall (fun c => n_deleted c = true \/ good_node c = true) l -> tab_ok tab ->
  sound_enc (enc_children l tab) tab.
Proof. apply enc_children_step, Forall_forall. intros n _. apply enc_facts. Qed.
End Encoding.

(** ** Writing *)

Section Writing.
Context (junk : Z -> Z).
#[local] Instance binary : emitter data := bin_emitter junk.

Lemma appended_trans d1 d2 d3 s t : appended d1 d2 s -> appended d2 d3 t -> appended d1 d3 (s ++ t).
Proof.
  intros (H1 & H2 & H3 & H4) (H5 & H6 & H7 & H8). unfold appended.
  rewrite H6, H2, H7, H3, H8, H4, blen_app, <- app_assoc. split; [done|]. split; [done|]. split; [lia|done].
Qed.

Lemma appended_wf d1 d2 s : appended d1 d2 s -> wf d2 /\ d_len d2 = d_len d1 + blen s.
Proof. by intros (H1 & _ & H3 & _). Qed.

Lemma stringtable_insert_ok d s : wf d -> tab_ok (contents d) ->
  blen (tab_insert (contents d) s).2 < LIM ->
  exists d', stringtable_insert junk d s = Done ((tab_insert (contents d) s).1, d') /\ wf d' /\
    contents d' = (tab_insert (contents d) s).2.
Proof.
  unfold LIM. intros Hw Hok. pose proof (contents_blen d Hw) as Hl. unfold stringtable_insert, tab_insert.
  pose proof (find_string_ok d s (contents d) [] eq_refl Hok) as E.
  replace (length (contents d)) with (Z.to_nat (d_len d)) in E by (rewrite <- Hl; unfold blen; lia).
  change (blen []) with 0 in E. rewrite E. cbn [mbind outcome_bind].
  destruct (tab_find (contents d) s) as [i|]; cbn [fst snd]; intros Hb; [by exists d|].
  rewrite !blen_app in Hb. change (blen [0]) with 1 in Hb.
  destruct (append_data_ok junk d (s ++ [0]) Hw) as (d' & E' & Hw' & Hc & _).
  { rewrite blen_app. change (blen [0]) with 1. lia. }
  rewrite blen_app in E'. change (blen [0]) with 1 in E'. rewrite E'. cbn [mbind outcome_bind].
  rewrite Hl. exists d'. done.
Qed.

Lemma emit_string_ok d s : wf d -> 0 <= blen s -> d_len d + blen s + 16 < 2 ^ 30 ->
  exists d', bin_emit_string junk d (Some s) 0 = Done d' /\ appended d d' (s ++ [0]).
Proof.
  intros Hw _ Hb. unfold bin_emit_string. cbn [defined mbind outcome_bind]. rewrite Z.eqb_refl.
  assert (E0 : data_append_data junk d (s ++ [0]) (blen s) = data_append_data junk d s (blen s)).
  { unfold data_append_data, copy_in. rewrite mread_all, (mread_app_l s [0] 0 (blen s) s (mread_all s)). done. }
  rewrite E0. destruct (append_data_ok junk d s Hw) as (d1 & -> & H1); [lia|]. cbn [mbind outcome_bind].
  destruct (appended_wf _ _ _ H1) as [Hw1 Hl1]. unfold data_append_byte.
  destruct (append_data_ok junk d1 [0] Hw1) as (d2 & E & H2); [change (blen [0]) with 1; lia|].
  change (blen [0]) with 1 in E. change [u8 0] with [0]. rewrite E. exists d2. split; [done|]. by eapply appended_trans.
Qed.

(** A buffer aligned to words, after [s] and the alignment. *)
Lemma align_after d d1 s : appended d d1 s -> d_len d mod 4 = 0 -> d_len d1 + 2 ^ 12 < 2 ^ 30 ->
  exists d2, data_append_align junk d1 4 = Done d2 /\ appended d d2 (pad4 s).
Proof.
  intros H1 Hm Hb. destruct (appended_wf _ _ _ H1) as [Hw1 Hl1].
  destruct (append_align_ok junk d1 2 Hw1 Hb) as (d2 & E & H2); [lia|]. change (2 ^ 2) with 4 in E, H2.
  exists d2. split; [done|]. unfold pad4. eapply appended_trans; [done|].
  replace ((- blen s) mod 4) with ((- d_len d1) mod 4); [done|]. rewrite Hl1. zlia.
Qed.

Lemma emit_data_ok e d : wf e -> wf d -> d_len e + d_len d < 2 ^ 30 ->
  exists e', bin_emit_data junk e d = Done e' /\ appended e e' (contents d).
Proof.
  intros He Hd Hb. pose proof (contents_blen d Hd) as Hc.
  destruct (append_data_ok junk e (contents d) He) as (e' & E & Ha); [lia|]. exists e'. split; [|done].
  rewrite <- E, Hc. unfold bin_emit_data, data_append_data, copy_in. destruct Hd as [Hd1 Hd2].
  rewrite !mread_Some by lia. change (Z.to_nat 0) with 0%nat. rewrite !drop_0. unfold contents.
  by rewrite take_take, Nat.min_id.
Qed.

(** The buffer after the append [H]. *)
Ltac room H := pose proof (appended_wf _ _ _ H) as [? ?].

Lemma flatten_property_ok vi p e sb seen :
  plain vi -> good_property p = true -> wf e -> wf sb -> tab_ok (contents sb) -> d_len e mod 4 = 0 ->
  d_len e + blen (enc_prop p (contents sb)).1 < LIM -> blen (enc_prop p (contents sb)).2 < LIM ->
  exists e' sb' seen', flatten_property junk vi p (e, sb, seen) = Done (e', sb', seen') /\
    appended e e' (enc_prop p (contents sb)).1 /\ wf sb' /\ contents sb' = (enc_prop p (contents sb)).2.
Proof.
  intros (_ & Hva & _) Hg He Hsb Hok Hm. destruct (good_property_inv p Hg) as [Hn Hv].
  pose proof (contents_blen _ Hv) as Hcv. unfold enc_prop, flatten_property.
  pose proof (stringtable_insert_ok sb (p_name p) Hsb Hok) as Hins.
  destruct (tab_insert (contents sb) (p_name p)) as [i tab]. cbn [fst snd] in *. intros Hb Ht.
  destruct (Hins Ht) as (sb' & -> & Hsb' & Hc'). cbn [mbind outcome_bind]. rewrite Hva. cbn [andb].
  rewrite !blen_app, !blen_word in Hb. unfold LIM in Hb. pose proof (blen_pad4 (contents (p_val p))) as Hp.
  pose proof (blen_nonneg (contents (p_val p))) as Hnn. pose proof (Z.mod_pos_bound (- blen (contents (p_val p))) 4 eq_refl) as Hmb.
  cbn [emit_property emit_cell emit_data emit_align binary bin_emitter].
  unfold bin_emit_property, bin_emit_cell, bin_emit_align.
  destruct (append_cell_ok junk e FDT_PROP He) as (e1 & -> & Ha1); [lia|]. cbn [mbind outcome_bind]. room Ha1. rewrite blen_be_bytes in *.
  destruct (append_cell_ok junk e1 (d_len (p_val p))) as (e2 & -> & Ha2); [done|lia|]. cbn [mbind outcome_bind]. room Ha2. rewrite blen_be_bytes in *.
  destruct (append_cell_ok junk e2 i) as (e3 & -> & Ha3); [done|lia|]. cbn [mbind outcome_bind]. room Ha3. rewrite blen_be_bytes in *.
  destruct (emit_data_ok e3 (p_val p)) as (e4 & -> & Ha4); [done|done|lia|]. cbn [mbind outcome_bind]. room Ha4.
  destruct (align_after _ _ _ Ha4) as (e5 & -> & Ha5); [zlia|lia|]. cbn [mbind outcome_bind].
  eexists e5, sb', _. split; [reflexivity|]. split; [|done].
  eapply appended_trans; [exact Ha1|]. eapply appended_trans; [exact Ha2|]. by eapply appended_trans.
Qed.

Lemma flatten_properties_ok vi ps : plain vi -> Forall (fun p => good_property p = true) ps ->
  forall e sb seen, wf e -> wf sb -> tab_ok (contents sb) -> d_len e mod 4 = 0 ->
  d_len e + blen (enc_props ps (contents sb)).1 < LIM -> blen (enc_props ps (contents sb)).2 < LIM ->
  exists e' sb' seen', flatten_properties junk vi ps (e, sb, seen) = Done (e', sb', seen') /\
    appended e e' (enc_props ps (contents sb)).1 /\ wf sb' /\ contents sb' = (enc_props ps (contents sb)).2.
Proof.
  intros Hpl. induction ps as [|p ps IH]; intros Hg e sb seen He Hsb Hok Hm; cbn [enc_props flatten_properties].
  - intros _ _. exists e, sb, seen. split; [done|]. split; [|done]. unfold appended. cbn [fst].
    rewrite app_nil_r. change (blen []) with 0. repeat (split; [done|]). split; [lia|done].
  - apply Forall_cons in Hg as [Hp Hg]. destruct (good_property_inv p Hp) as [Hn Hv].
    pose proof (enc_prop_facts p (contents sb) Hn Hok) as Hf.
    pose proof (flatten_property_ok vi p e sb seen Hpl Hp He Hsb Hok Hm) as Hp'.
    destruct (enc_prop p (contents sb)) as [a tab1] eqn:Ea. cbn [fst snd] in *. destruct Hf as (Hok1 & Hpre & Hma & _).
    pose proof (enc_props_facts ps tab1 (good_property_names _ Hg) Hok1) as Hf2.
    destruct (enc_props ps tab1) as [b tab2] eqn:Eb. cbn [fst snd] in *. destruct Hf2 as (Hok2 & Hpre2 & Hmb).
    rewrite blen_app. intros Hb Ht. pose proof (blen_nonneg b). pose proof (blen_nonneg a).
    assert (blen tab1 <= blen tab2) by (destruct Hpre2 as [k ->]; rewrite blen_app; pose proof (blen_nonneg k); lia).
    destruct Hp' as (e1 & sb1 & seen1 & -> & Hx1 & Hsb1 & Hc1); [lia|lia|]. cbn [mbind outcome_bind].
    destruct (appended_wf _ _ _ Hx1) as [Hw1 Hl1]. subst tab1.
    destruct (IH Hg e1 sb1 seen1 Hw1 Hsb1 Hok1) as (e2 & sb2 & seen2 & -> & Hx2 & Hsb2 & Hc2); rewrite ?Eb; cbn [fst snd].
    + zlia.
    + lia.
    + lia.
    + exists e2, sb2, seen2. rewrite Eb in *. cbn [fst snd] in *. split; [done|].
      split; [by eapply appended_trans|done].
Qed.
End Writing.

Section WritingTrees.
Context (junk : Z -> Z).
#[local] Instance binary_tree : emitter data := bin_emitter junk.
Ltac room H := pose proof (appended_wf _ _ _ H) as [? ?].

(** The loop over the children, by itself. *)
Fixpoint flatten_children (vi : version_info) (l : list node) (e strbuf : data) : outcome (data * data) :=
  match l with
  | [] => Done (e, strbuf)
  | c :: l =>
      if n_deleted c then flatten_children vi l e strbuf
      else '(e, strbuf) ← flatten_tree junk vi c e strbuf; flatten_children vi l e strbuf
  end.

Lemma flatten_tree_unfold vi n e sb : plain vi -> n_deleted n = false ->
  flatten_tree junk vi n e sb =
    (e ← bin_emit_beginnode junk e (n_labels n);
     e ← bin_emit_string junk e (n_name n) 0;
     e ← bin_emit_align junk e 4;
     '(e, sb, _) ← flatten_properties junk vi (live_properties n) (e, sb, false);
     '(e, sb) ← flatten_children vi (children n) e sb;
     e ← bin_emit_endnode junk e (n_labels n);
     Done (e, sb)).
Proof.
  intros (Hf & _ & Hn) Hd. destruct n as [d nm ps cs fp bl ph ls]. cbn [n_deleted] in Hd. subst d.
  cbn [flatten_tree n_deleted n_labels n_name children fullpath]. rewrite Hf, Hn. cbn [andb].
  change emit_beginnode with (bin_emit_beginnode junk). change emit_string with (bin_emit_string junk).
  change emit_align with (bin_emit_align junk). change emit_endnode with (bin_emit_endnode junk).
  destruct (bin_emit_beginnode junk e ls) as [e1| | |]; cbn [mbind outcome_bind]; [|done..].
  destruct (bin_emit_string junk e1 nm 0) as [e2| | |]; cbn [mbind outcome_bind]; [|done..].
  destruct (bin_emit_align junk e2 4) as [e3| | |]; cbn [mbind outcome_bind]; [|done..].
  destruct (flatten_properties _ _ _ _) as [[[e4 sb4] seen]| | |]; cbn [mbind outcome_bind]; [|done..].
  match goal with |- (?f cs e4 sb4 ≫= _) = _ => enough (E : forall l e sb, f l e sb = flatten_children vi l e sb) by (by rewrite E) end.
  induction l as [|c l IH]; intros e5 sb5; [done|]. cbn [flatten_children].
  destruct (n_deleted c); [apply IH|]. destruct (flatten_tree junk vi c e5 sb5) as [[e6 sb6]| | |]; cbn [mbind outcome_bind]; [|done..].
  apply IH.
Qed.

(** Writing [r] after what the buffers hold. *)
Definition writes (f : data -> data -> outcome (data * data)) (enc : bytes -> bytes * bytes) : Prop :=
  forall e sb, wf e -> wf sb -> tab_ok (contents sb) -> d_len e mod 4 = 0 ->
  d_len e + blen (enc (contents sb)).1 < LIM -> blen (enc (contents sb)).2 < LIM ->
  exists e' sb', f e sb = Done (e', sb') /\ appended e e' (enc (contents sb)).1 /\ wf sb' /\
    contents sb' = (enc (contents sb)).2.

Lemma appended_nil d : wf d -> appended d d [].
Proof.
  intros. unfold appended. rewrite app_nil_r. change (blen []) with 0. repeat (split; [done|]). split; [lia|done].
Qed.

Lemma prefix_blen (a b : bytes) : a `prefix_of` b -> blen a <= blen b.
Proof. intros [k ->]. rewrite blen_app. pose proof (blen_nonneg k). lia. Qed.

Definition tree_written (vi : version_info) (n : node) : Prop :=
  good_node n = true -> n_deleted n = false -> writes (flatten_tree junk vi n) (enc_node n).

Lemma flatten_children_step vi l :
  Forall (tree_written vi) l -> Forall (fun c => n_deleted c = true \/ good_node c = true) l ->
  writes (flatten_children vi l) (enc_children l).
Proof.
  induction l as [|c l IH]; intros HI Hg e sb He Hsb Hok Hm; cbn [enc_children flatten_children].
  - intros _ _. exists e, sb. split; [done|]. split; [by apply appended_nil|done].
  - apply Forall_cons in HI as [HIc HI]. apply Forall_cons in Hg as [Hgc Hg].
    destruct (n_deleted c) eqn:Hd; [by apply IH|]. destruct Hgc as [|Hgc]; [done|].
    pose proof (enc_facts c Hgc (contents sb) Hok) as Hf. pose proof (HIc Hgc Hd e sb He Hsb Hok Hm) as Hw.
    destruct (enc_node c (contents sb)) as [a tab1]. cbn [fst snd] in *. destruct Hf as (Hok1 & _ & Hma). cbn [fst snd] in *.
    pose proof (enc_children_facts l tab1 Hg Hok1) as Hf. pose proof (IH HI Hg) as Hl. unfold writes in Hl.
    destruct (enc_children l tab1) as [b tab2] eqn:Eb. destruct Hf as (Hok2 & Hpre2 & Hmb). cbn [fst snd] in *.
    rewrite blen_app. intros Hb Ht. pose proof (blen_nonneg a). pose proof (blen_nonneg b).
    pose proof (prefix_blen _ _ Hpre2).
    destruct Hw as (e1 & sb1 & -> & Hx1 & Hsb1 & Hc1); [lia|lia|]. cbn [mbind outcome_bind]. subst tab1.
    destruct (appended_wf _ _ _ Hx1) as [Hw1 Hl1].
    destruct (Hl e1 sb1 Hw1 Hsb1 Hok1) as (e2 & sb2 & -> & Hx2 & Hsb2 & Hc2); rewrite ?Eb; cbn [fst snd]; [zlia|lia|lia|].
    rewrite Eb in *. cbn [fst snd] in *. exists e2, sb2. split; [done|]. split; [by eapply appended_trans|done].
Qed.

Lemma flatten_tree_ok vi n : plain vi -> tree_written vi n.
Proof.
  intros Hpl. induction n as [n IH] using node_induction. intros Hg Hd e sb He Hsb Hok Hm.
  destruct (good_node_inv n Hg) as (s & Hs & Hs0 & Hps & Hcs).
  rewrite flatten_tree_unfold, enc_node_unfold, Hs by done. cbn [default from_option id].
  pose proof (enc_props_facts _ (contents sb) (good_property_names _ Hps) Hok) as Hf.
  pose proof (flatten_properties_ok junk vi (live_properties n) Hpl Hps) as Hfp.
  destruct (enc_props (live_properties n) (contents sb)) as [a tab1] eqn:Ea. cbn [fst snd] in Hf. destruct Hf as (Hok1 & Hpre1 & Hma).
  pose proof (enc_children_facts (children n) tab1 Hcs Hok1) as Hf. pose proof (flatten_children_step vi _ IH Hcs) as Hfc.
  unfold writes in Hfc. destruct (enc_children (children n) tab1) as [b tab2] eqn:Eb. destruct Hf as (Hok2 & Hpre2 & Hmb).
  cbn [fst snd] in *. unfold LIM. rewrite !blen_app, !blen_word. intros Hb Ht.
  pose proof (blen_nonneg a). pose proof (blen_nonneg b). pose proof (blen_nonneg s). pose proof (prefix_blen _ _ Hpre2).
  pose proof (blen_pad4 (s ++ [0])) as Hbp. rewrite blen_app in Hbp. change (blen [0]) with 1 in Hbp.
  pose proof (Z.mod_pos_bound (- (blen s + 1)) 4 eq_refl). pose proof (pad4_mod (s ++ [0])) as Hmp.
  destruct (append_cell_ok junk e FDT_BEGIN_NODE He) as (e1 & E1 & Ha1); [lia|].
  unfold bin_emit_beginnode, bin_emit_endnode, bin_emit_cell, bin_emit_align. rewrite E1. cbn [mbind outcome_bind].
  destruct (appended_wf _ _ _ Ha1) as [Hw1 Hl1]. rewrite blen_be_bytes in Hl1.
  destruct (emit_string_ok junk e1 s Hw1) as (e2 & -> & Ha2); [done|lia|]. cbn [mbind outcome_bind].
  destruct (appended_wf _ _ _ Ha2) as [Hw2 Hl2]. rewrite blen_app in Hl2. change (blen [0]) with 1 in Hl2.
  destruct (align_after junk _ _ _ Ha2) as (e3 & -> & Ha3); [zlia|lia|]. cbn [mbind outcome_bind].
  destruct (appended_wf _ _ _ Ha3) as [Hw3 Hl3].
  destruct (Hfp e3 sb false Hw3 Hsb Hok) as (e4 & sb4 & seen & E4 & Ha4 & Hsb4 & Hc4);
    [zlia|rewrite Ea; unfold LIM; cbn [fst]; lia|rewrite Ea; unfold LIM; cbn [snd]; lia|].
  unfold binary in E4. unfold binary_tree. rewrite E4. cbn [mbind outcome_bind]. rewrite Ea in Ha4, Hc4. cbn [fst snd] in Ha4, Hc4. subst tab1.
  destruct (appended_wf _ _ _ Ha4) as [Hw4 Hl4].
  destruct (Hfc e4 sb4 Hw4 Hsb4 Hok1) as (e5 & sb5 & E5 & Ha5 & Hsb5 & Hc5); rewrite ?Eb; cbn [fst snd];
    [zlia|unfold LIM; lia|unfold LIM; lia|].
  rewrite E5. cbn [mbind outcome_bind]. rewrite Eb in Ha5, Hc5. cbn [fst snd] in Ha5, Hc5.
  destruct (appended_wf _ _ _ Ha5) as [Hw5 Hl5].
  destruct (append_cell_ok junk e5 FDT_END_NODE Hw5) as (e6 & -> & Ha6); [lia|]. cbn [mbind outcome_bind].
  exists e6, sb5. split; [done|]. split; [|done].
  repeat (eapply appended_trans; [eassumption|]). done.
Qed.
End WritingTrees.

Section WritingBlobs.
Context (junk : Z -> Z).

Lemma empty_wf : wf empty_data.
Proof. split; [done|]. cbn [empty_data d_len d_val]. change (blen []) with 0. lia. Qed.

Lemma blen_reserve_entry re : blen (be_bytes 8 (re_address re) ++ be_bytes 8 (re_size re)) = 16.
Proof. by rewrite blen_app, !blen_be_bytes. Qed.

Lemma append_entries_ok l d : wf d -> d_len d + blen (enc_reserve l) < 2 ^ 30 ->
  exists d', append_entries junk l d = Done d' /\ appended d d' (enc_reserve l).
Proof.
  revert d. induction l as [|re l IH]; intros d Hw Hb; cbn [append_entries].
  - exists d. split; [done|]. by apply appended_nil.
  - change (enc_reserve (re :: l)) with ((be_bytes 8 (re_address re) ++ be_bytes 8 (re_size re)) ++ enc_reserve l) in *.
    rewrite blen_app, blen_reserve_entry in Hb. pose proof (blen_nonneg (enc_reserve l)).
    destruct (append_re_ok junk d (re_address re) (re_size re) Hw) as (d1 & -> & H1); [lia|]. cbn [mbind outcome_bind].
    destruct (appended_wf _ _ _ H1) as [Hw1 Hl1]. rewrite blen_reserve_entry in Hl1.
    destruct (IH d1 Hw1) as (d2 & -> & H2); [lia|]. exists d2. split; [done|]. by eapply appended_trans.
Qed.

(** Only a prefix of the source is copied. *)
Lemma append_prefix d s t : data_append_data junk d (s ++ t) (blen s) = data_append_data junk d s (blen s).
Proof.
  unfold data_append_data, copy_in. by rewrite mread_all, (mread_app_l s t 0 (blen s) s (mread_all s)).
Qed.

Lemma blen_header ws : blen (header_bytes ws) = 4 * blen ws.
Proof.
  unfold header_bytes. induction ws as [|w ws IH]; [done|]. cbn [map concat].
  rewrite blen_app, blen_be_bytes, blen_cons, IH. lia.
Qed.

Lemma contents_read d : wf d -> mread (d_val d) 0 (d_len d) = Some (contents d).
Proof. intros [H1 H2]. rewrite mread_Some by lia. done. Qed.

(** Joining what is written: [m] is appended to, or merged with, the blob. *)
Lemma joined d1 d2 s : wf d1 -> wf d2 -> contents d2 = s -> d_len d1 + blen s < 2 ^ 30 ->
  exists d', data_merge junk d1 d2 = Done d' /\ wf d' /\ contents d' = contents d1 ++ s /\
    d_len d' = d_len d1 + blen s.
Proof.
  intros Hw1 Hw2 <- Hb. rewrite contents_blen in Hb by done.
  destruct (merge_ok junk d1 d2 Hw1 Hw2 Hb) as (d' & E & H1 & H2 & H3 & _).
  exists d'. rewrite contents_blen by done. done.
Qed.

(** The parts of the blob put together, from a header of [h1] bytes. *)
Lemma assemble (h1 h2 : bytes) (z : Z) (rs st tab : data) :
  blen h1 + z = 40 -> z = (- blen h1) mod 8 -> wf rs -> wf st -> wf tab ->
  40 + d_len rs + 16 + d_len st + d_len tab < LIM ->
  exists b, (blob ← data_append_data junk empty_data (h1 ++ h2) (blen h1);
             blob ← data_append_align junk blob 8;
             blob ← data_merge junk blob rs;
             blob ← data_append_zeroes junk blob 16;
             blob ← data_merge junk blob st;
             blob ← data_merge junk blob tab;
             Done blob) = Done b /\ wf b /\
    contents b = h1 ++ zeros z ++ contents rs ++ zeros 16 ++ contents st ++ contents tab.
Proof.
  unfold LIM. intros Hh Hz Hr Hs Ht Hb. destruct (Hr), (Hs), (Ht). rewrite append_prefix.
  pose proof (Z.mod_pos_bound (- blen h1) 8 eq_refl). pose proof (blen_nonneg h1).
  destruct (append_data_ok junk empty_data h1 empty_wf) as (b1 & -> & Hb1); [cbn [d_len empty_data]; lia|].
  cbn [mbind outcome_bind]. destruct (Hb1) as (Hw1 & Hc1 & Hl1 & _). cbn [d_len empty_data] in Hl1.
  destruct (append_align_ok junk b1 3 Hw1) as (b2 & E2 & Hb2); [lia|lia|]. change (2 ^ 3) with 8 in *. rewrite E2.
  cbn [mbind outcome_bind]. destruct (Hb2) as (Hw2 & Hc2 & Hl2 & _).
  replace ((- d_len b1) mod 8) with z in Hc2, Hl2 by (rewrite Hl1, Hz; f_equal; lia).
  rewrite blen_zeros in Hl2 by lia.
  destruct (joined b2 rs (contents rs)) as (b3 & -> & Hw3 & Hc3 & Hl3); [done|done|done|rewrite contents_blen by done; lia|].
  rewrite contents_blen in Hl3 by done. cbn [mbind outcome_bind].
  destruct (append_zeroes_ok junk b3 16 Hw3) as (b4 & -> & (Hw4 & Hc4 & Hl4 & _)); [lia|lia|]. change (blen (zeros 16)) with 16 in Hl4.
  cbn [mbind outcome_bind].
  destruct (joined b4 st (contents st)) as (b5 & -> & Hw5 & Hc5 & Hl5); [done|done|done|rewrite contents_blen by done; lia|].
  rewrite contents_blen in Hl5 by done. cbn [mbind outcome_bind].
  destruct (joined b5 tab (contents tab)) as (b6 & -> & Hw6 & Hc6 & Hl6); [done|done|done|rewrite contents_blen by done; lia|].
  exists b6. split; [done|]. split; [done|]. rewrite Hc6, Hc5, Hc4, Hc3, Hc2, Hc1.
  change (contents empty_data) with (@nil Z). cbn [app]. by rewrite <- !app_assoc.
Qed.
End WritingBlobs.

Lemma find_info version : version_ok version -> find_version version = Some (info version) /\ plain (info version) /\
  vi_version (info version) = version.
Proof. intros [->| ->]; vm_compute; repeat split. Qed.

Lemma make_header_ok dti version rs st tab : version_ok version ->
  0 <= rs -> 0 <= st -> 0 <= tab -> 40 + (rs + 16) + st + tab < LIM ->
  make_fdt_header (info version) rs st tab (boot_cpuid_phys dti) = Done (enc_words dti version rs st tab).
Proof.
  unfold LIM. intros Hv H1 H2 H3 H4. unfold make_fdt_header. rewrite !int_ok by lia. cbn [mbind outcome_bind].
  assert (E : ALIGN (hdr_size (info version)) 8 = Done 40) by (destruct Hv as [->| ->]; reflexivity).
  rewrite E. cbn [mbind outcome_bind]. rewrite !int_ok by lia. cbn [mbind outcome_bind].
  rewrite !int_ok by lia. cbn [mbind outcome_bind]. rewrite !int_ok by lia. cbn [mbind outcome_bind].
  unfold enc_words. destruct Hv as [->| ->]; reflexivity.
Qed.

Lemma enc_blob_parts dti version : version_ok version ->
  let '(st, tab) := enc_node (dt dti) [] in
  let ws := enc_words dti version (blen (enc_reserve (reservelist dti))) (blen st + 4) (blen tab) in
  enc_blob dti version =
    header_bytes (take (written_words version) ws) ++ zeros (40 - hdr_size (info version)) ++
    enc_reserve (reservelist dti) ++ zeros 16 ++ (st ++ word FDT_END) ++ tab.
Proof.
  intros Hv. unfold enc_blob. destruct (enc_node (dt dti) []) as [st tab]. cbv zeta.
  rewrite !blen_app, blen_word. change (blen (zeros 16)) with 16.
  destruct Hv as [->| ->]; unfold enc_words, written_words, info, header_bytes; cbn [Z.eqb Pos.eqb take map concat hdr_size];
    rewrite ?app_nil_r, <- ?app_assoc; reflexivity.
Qed.

Lemma blen_enc_blob dti version : version_ok version ->
  let '(st, tab) := enc_node (dt dti) [] in
  blen (enc_blob dti version) = 40 + (blen (enc_reserve (reservelist dti)) + 16) + (blen st + 4) + blen tab.
Proof.
  intros Hv. pose proof (enc_blob_parts dti version Hv) as E. destruct (enc_node (dt dti) []) as [st tab].
  cbv zeta in E. rewrite E, !blen_app, blen_header, blen_word. change (blen (zeros 16)) with 16.
  match goal with |- 4 * blen (take ?n ?l) + (blen (zeros ?z) + _) = _ =>
    assert (4 * blen (take n l) + blen (zeros z) = 40) by (destruct Hv as [->| ->]; reflexivity) end.
  lia.
Qed.

Lemma make_blob_ok junk dti version :
  version_ok version -> good_node (dt dti) = true -> n_deleted (dt dti) = false ->
  blen (enc_blob dti version) < LIM ->
  exists b, make_blob junk no_options dti version = Done b /\ wf b /\ contents b = enc_blob dti version.
Proof.
  intros Hv Hg Hd Hb. pose proof (blen_enc_blob dti version Hv) as Hl. pose proof (enc_blob_parts dti version Hv) as Hp.
  destruct (find_info version Hv) as (Hf & Hpl & _).
  assert (Hok0 : tab_ok (contents empty_data)) by (by left).
  pose proof (flatten_tree_ok junk (info version) (dt dti) Hpl Hg Hd empty_data empty_data empty_wf empty_wf Hok0 eq_refl) as Hw.
  change (contents empty_data) with (@nil Z) in Hw. destruct (enc_node (dt dti) []) as [st tab]. cbn [fst snd] in Hw.
  cbv zeta in Hp. cbn [d_len empty_data] in Hw.
  pose proof (blen_nonneg st). pose proof (blen_nonneg tab). pose proof (blen_nonneg (enc_reserve (reservelist dti))).
  destruct Hw as (db & sb & E & Ha & Hsb & Hcs); [lia|lia|]. destruct (appended_wf _ _ _ Ha) as [Hwd Hld].
  pose proof (contents_blen sb Hsb) as Hls. rewrite Hcs in Hls. unfold LIM in Hb.
  destruct (append_cell_ok junk db FDT_END Hwd) as (db2 & E2 & Ha2); [cbn [d_len empty_data] in Hld; lia|].
  destruct (appended_wf _ _ _ Ha2) as [Hwd2 Hld2]. rewrite blen_be_bytes in Hld2. cbn [d_len empty_data] in Hld.
  destruct (append_entries_ok junk (reservelist dti) empty_data empty_wf) as (rb & E3 & Ha3);
    [cbn [d_len empty_data]; lia|]. destruct (appended_wf _ _ _ Ha3) as [Hwr Hlr]. cbn [d_len empty_data] in Hlr.
  unfold make_blob. rewrite Hf. unfold binary_tree in E. rewrite E. cbn [mbind outcome_bind]. unfold bin_emit_cell. rewrite E2.
  cbn [mbind outcome_bind]. unfold flatten_reserve_list. rewrite E3. cbn [mbind outcome_bind reservenum no_options].
  change (Z.to_nat 0) with 0%nat. cbn [replicate append_entries mbind outcome_bind].
  replace (d_len rb) with (blen (enc_reserve (reservelist dti))) by lia.
  replace (d_len db2) with (blen st + 4) by lia. rewrite <- Hls.
  rewrite make_header_ok by (unfold LIM; lia || done). cbn [mbind outcome_bind].
  change (padding no_options _) with (Done 0). cbn [mbind outcome_bind]. change (0 <? 0) with false. cbn [mbind outcome_bind].
  set (ws := enc_words _ _ _ _ _) in *.
  assert (Hcut : header_bytes ws = header_bytes (take (written_words version) ws) ++ header_bytes (drop (written_words version) ws)).
  { unfold header_bytes. by rewrite <- List.concat_app, <- map_app, take_drop. }
  assert (Hh : blen (header_bytes (take (written_words version) ws)) = hdr_size (info version)).
  { rewrite blen_header. subst ws. destruct Hv as [->| ->]; reflexivity. }
  rewrite Hcut, <- Hh.
  destruct (assemble junk (header_bytes (take (written_words version) ws)) (header_bytes (drop (written_words version) ws)) (40 - hdr_size (info version)) rb db2 sb)
    as (b & Eb & Hwb & Hcb); [rewrite Hh; lia| |done|done|done|unfold LIM; lia|].
  { rewrite Hh. destruct Hv as [->| ->]; reflexivity. }
  exists b. split; [exact Eb|]. split; [done|]. rewrite Hcb, Hp.
  destruct Ha3 as (_ & -> & _). destruct Ha2 as (_ & -> & _). destruct Ha as (_ & -> & _). rewrite Hcs.
  change (contents empty_data) with (@nil Z). done.
Qed.

(** ** Reading *)

Lemma seg_app mem p a b : seg mem p (a ++ b) <-> seg mem p a /\ seg mem (p + blen a) b.
Proof.
  split.
  - intros (pre & post & -> & <-). split.
    + exists pre, (b ++ post). by rewrite <- app_assoc.
    + exists (pre ++ a), post. by rewrite blen_app, <- !app_assoc.
  - intros [(pre & post & E & Hp) (pre' & post' & E' & Hp')]. exists pre, post'. split; [|done].
    rewrite E in E'. assert (pre ++ a = pre').
    { apply (f_equal (take (length pre'))) in E'. rewrite take_app_length in E'.
      rewrite <- E', app_assoc, take_app_le, take_ge; [done|..];
        rewrite ?length_app; unfold blen in *; lia. }
    subst pre'. rewrite E, E', <- !app_assoc. done.
Qed.

Lemma seg_read mem p s : seg mem p s -> mread mem p (blen s) = Some s.
Proof. intros (pre & post & -> & <-). apply mread_app. Qed.

Lemma seg_bounds mem p s : seg mem p s -> 0 <= p /\ p + blen s <= blen mem.
Proof.
  intros (pre & post & -> & <-). rewrite !blen_app. pose proof (blen_nonneg pre). pose proof (blen_nonneg post). lia.
Qed.

Lemma be_val_word v : is_u32 v -> be_val (word v) = v.
Proof. intros Hv. unfold word. rewrite be_val_be_bytes. apply Z.mod_small. exact Hv. Qed.

Section Reading.
Context (mem : bytes).

Lemma read_chunk_ok b l p s : seg mem p s -> p + blen s <= l ->
  flat_read_chunk mem (Inbuf b l p) (blen s) = Done (s, Inbuf b l (p + blen s)).
Proof.
  intros Hs Hl. unfold flat_read_chunk. cbn [pos limit base]. rewrite (proj2 (Z.ltb_ge _ _)) by lia.
  by rewrite (seg_read _ _ _ Hs).
Qed.

Lemma read_word_ok b l p v : seg mem p (word v) -> is_u32 v -> (p - b) mod 4 = 0 -> p + 4 <= l ->
  flat_read_word mem (Inbuf b l p) = Done (v, Inbuf b l (p + 4)).
Proof.
  intros Hs Hv Ha Hl. unfold flat_read_word. cbn [pos base]. rewrite Ha. cbn [Z.eqb negb].
  pose proof (read_chunk_ok b l p (word v) Hs) as E. rewrite blen_word in E. rewrite E by done.
  cbn [mbind outcome_bind]. by rewrite be_val_word.
Qed.

Lemma seg_byte p c s : seg mem p (c :: s) -> byte_at mem p = Done c.
Proof.
  intros Hs. apply (seg_app _ _ [c] s) in Hs as [Hc _]. unfold byte_at.
  pose proof (seg_read _ _ _ Hc) as E. change (blen [c]) with 1 in E. by rewrite E.
Qed.

Lemma string_loop_ok s fuel lim p : seg mem p (s ++ [0]) -> 0 ∉ s -> p + blen s < lim -> (length s < fuel)%nat ->
  string_loop mem fuel lim p = Done s.
Proof.
  revert fuel p. induction s as [|c s IH]; intros fuel p Hs H0 Hl Hf; (destruct fuel as [|fuel]; [lia|]); cbn [string_loop].
  - change (blen []) with 0 in Hl. rewrite (proj2 (Z.leb_gt _ _)) by lia. by rewrite (seg_byte p 0 [] Hs).
  - rewrite blen_cons in Hl. pose proof (blen_nonneg s). rewrite (proj2 (Z.leb_gt _ _)) by lia.
    cbn [app] in Hs. rewrite (seg_byte p c _ Hs). cbn [mbind outcome_bind].
    apply not_elem_of_cons in H0 as [Hc H0]. rewrite (proj2 (Z.eqb_neq c 0)) by done.
    rewrite IH; [done| |done|lia|cbn [length] in Hf; lia].
    by apply (seg_app _ _ [c] (s ++ [0])) in Hs as [_ Hs].
Qed.

Lemma realign_ok b l p : 0 <= p - b < 2 ^ 30 -> p + (- (p - b)) mod 4 <= l ->
  flat_realign (Inbuf b l p) 4 = Done (Inbuf b l (p + (- (p - b)) mod 4)).
Proof.
  intros Hp Hl. unfold flat_realign. cbn [pos base limit].
  assert (E : s32 (p - b) = p - b) by (unfold s32, u32; rewrite Z.mod_small by lia; rewrite (proj2 (Z.ltb_lt _ _)) by lia; done).
  rewrite E. change 4 with (2 ^ 2). rewrite ALIGN_ok by lia. change (2 ^ 2) with 4. cbn [mbind outcome_bind].
  replace (b + (p - b + (- (p - b)) mod 4)) with (p + (- (p - b)) mod 4) by lia.
  rewrite (proj2 (Z.ltb_ge _ _)) by lia. done.
Qed.

(** [p] is aligned, and [n] bytes from it are in the block. *)
Definition inside (b l p n : Z) : Prop := 0 <= p - b /\ (p - b) mod 4 = 0 /\ p + n <= l /\ l - b < 2 ^ 30.

Lemma read_string_ok b l p s : seg mem p (pad4 (s ++ [0])) -> 0 ∉ s -> inside b l p (blen (pad4 (s ++ [0]))) ->
  flat_read_string mem (Inbuf b l p) = Done (s, Inbuf b l (p + blen (pad4 (s ++ [0])))).
Proof.
  intros Hs H0 (Hp & Ha & Hl & Hb). unfold flat_read_string. cbn [pos base limit].
  rewrite blen_pad4, blen_app in *. change (blen [0]) with 1 in *. pose proof (blen_nonneg s).
  pose proof (Z.mod_pos_bound (- (blen s + 1)) 4 eq_refl). apply seg_app in Hs as [Hs _].
  rewrite (string_loop_ok s) by (done || lia || (unfold blen in *; lia)). cbn [mbind outcome_bind].
  unfold at_pos. cbn [base limit].
  assert (Em : (- (p + blen s + 1 - b)) mod 4 = (- (blen s + 1)) mod 4) by zlia.
  rewrite realign_ok; rewrite ?Em; [|lia|lia]. cbn [mbind outcome_bind]. do 3 f_equal. lia.
Qed.

Lemma read_data_ok (junk : Z -> Z) b l p s : seg mem p (pad4 s) -> inside b l p (blen (pad4 s)) ->
  flat_read_data junk mem (Inbuf b l p) (blen s) = Done (Data (blen s) s [], Inbuf b l (p + blen (pad4 s))).
Proof.
  intros Hs (Hp & Ha & Hl & Hb). unfold flat_read_data. pose proof (blen_nonneg s).
  destruct (Z.eqb_spec (blen s) 0) as [Hz|Hz].
  - destruct s; [|rewrite blen_cons in Hz; pose proof (blen_nonneg s); lia]. change (blen (pad4 [])) with 0.
    rewrite Z.add_0_r. done.
  - rewrite blen_pad4 in *. pose proof (Z.mod_pos_bound (- blen s) 4 eq_refl). apply seg_app in Hs as [Hs _].
    unfold data_grow_for. rewrite (proj2 (Z.eqb_neq _ _)) by done. cbn [d_len empty_data d_val].
    rewrite int_ok by lia. cbn [mbind outcome_bind grow_loop]. rewrite Z.add_0_l, Z.ltb_irrefl. cbn [mbind outcome_bind].
    unfold xrealloc. rewrite (proj2 (Z.ltb_ge (blen s) 0)) by lia. cbn [mbind outcome_bind].
    rewrite read_chunk_ok by (done || lia). cbn [mbind outcome_bind d_val d_markers].
    assert (Ew : mwrite (Util.realloc junk [] (blen s)) 0 s = Some s).
    { pose proof (realloc_blen junk [] (blen s)). rewrite mwrite_Some by lia. f_equal.
      change (Z.to_nat 0) with 0%nat. cbn [take app]. rewrite drop_ge, app_nil_r; [done|]. unfold blen in *. lia. }
    rewrite Ew. cbn [defined mbind outcome_bind].
    assert (Em : (- (p + blen s - b)) mod 4 = (- blen s) mod 4) by zlia.
    rewrite realign_ok; rewrite ?Em; [|lia|lia]. cbn [mbind outcome_bind]. do 3 f_equal. lia.
Qed.

(** The string table as the reader sees it: the bytes [T] at [sb]. *)
Lemma read_stringtable_ok sb T i s k : seg mem sb T -> cstr_at T i = Some s -> 0 <= i < blen T ->
  flat_read_stringtable mem (Inbuf sb (sb + blen T) k) i = Done s.
Proof.
  intros HT Hc Hi. unfold flat_read_stringtable. cbn [base limit].
  rewrite (proj2 (Z.leb_gt _ _)), (proj2 (Z.ltb_ge _ _)) by lia. cbn [orb].
  unfold cstr_at in Hc. rewrite !(proj2 (Z.leb_le _ _)) in Hc by lia. cbn [andb] in Hc.
  assert (Hsp : exists r, drop (Z.to_nat i) T = s ++ 0 :: r /\ 0 ∉ s).
  { clear -Hc. revert s Hc. generalize (drop (Z.to_nat i) T). intros m. induction m as [|c m IH]; intros s; cbn [cstring]; [done|].
    destruct (Z.eqb_spec c 0) as [->|Hne]; [intros [= <-]; exists m; split; [done|apply not_elem_of_nil]|].
    destruct (cstring m) as [t|]; [|done]. intros [= <-]. destruct (IH t eq_refl) as (r & -> & Ht).
    exists r. split; [done|]. apply not_elem_of_cons. done. }
  destruct Hsp as (r & Hd & H0). rewrite <- (take_drop (Z.to_nat i) T), Hd in HT.
  apply seg_app in HT as [_ HT].
  assert (Hti : blen (take (Z.to_nat i) T) = i) by (unfold blen in *; rewrite length_take; lia).
  rewrite Hti in HT. change (s ++ 0 :: r) with (s ++ [0] ++ r) in HT. rewrite app_assoc in HT. apply seg_app in HT as [HT _].
  assert (Hlen : blen s + 1 <= blen T - i).
  { apply (f_equal blen) in Hd. rewrite blen_app, blen_cons in Hd. pose proof (blen_nonneg r).
    unfold blen in Hd at 1. rewrite length_drop in Hd. unfold blen in *. lia. }
  apply string_loop_ok; [done|done|lia|unfold blen in *; lia].
Qed.
End Reading.

Lemma enc_node_body n tab : (enc_node n tab).1 = word FDT_BEGIN_NODE ++ enc_body n tab.
Proof.
  unfold enc_body. rewrite enc_node_unfold. destruct (enc_props _ tab) as [x tab1].
  destruct (enc_children _ tab1) as [y tab2]. done.
Qed.

Lemma enc_body_blen n tab : good_node n = true -> tab_ok tab ->
  blen (enc_node n tab).1 = 4 + blen (enc_body n tab) /\ blen (enc_body n tab) mod 4 = 0.
Proof.
  intros Hg Hok. destruct (enc_facts n Hg tab Hok) as (_ & _ & Hm). rewrite enc_node_body, blen_app, blen_word in *.
  split; [done|zlia].
Qed.

(** A round of the two functions. *)
Lemma unflatten_tree_S junk mem strbuf flags fuel dtbuf parent :
  unflatten_tree junk mem strbuf flags (S fuel) dtbuf parent =
    ('(flatname, dtbuf) ← flat_read_string mem dtbuf;
     name ← (if flag flags FTF_FULLPATH then nodename_from_path parent flatname else Done flatname);
     unflatten_loop junk mem strbuf flags fuel dtbuf flatname (set_name (build_node [] []) name)).
Proof. reflexivity. Qed.

Lemma unflatten_loop_S junk mem strbuf flags fuel dtbuf flatname n :
  unflatten_loop junk mem strbuf flags (S fuel) dtbuf flatname n =
    ('(val, dtbuf) ← flat_read_word mem dtbuf;
     if val =? FDT_PROP then
       '(prop, dtbuf) ← flat_read_property junk mem dtbuf strbuf flags;
       unflatten_loop junk mem strbuf flags fuel dtbuf flatname (add_property n prop)
     else if val =? FDT_BEGIN_NODE then
       '(child, dtbuf) ← unflatten_tree junk mem strbuf flags fuel dtbuf flatname;
       unflatten_loop junk mem strbuf flags fuel dtbuf flatname (add_child n child)
     else if val =? FDT_END_NODE then Done (n, dtbuf)
     else if val =? FDT_NOP then unflatten_loop junk mem strbuf flags fuel dtbuf flatname n
     else Die).
Proof. reflexivity. Qed.

Section ReadingTrees.
Context (junk : Z -> Z) (mem : bytes) (b l sb : Z) (T : bytes).
Context (HT : seg mem sb T) (HTb : blen T < 2 ^ 31).

(** The table of the reader, wherever its pointer is. *)
Definition table_buf : inbuf := Inbuf sb (sb + blen T) sb.

Lemma inside_app p n m : inside b l p (n + m) -> 0 <= n -> 0 <= m -> n mod 4 = 0 ->
  inside b l p n /\ inside b l (p + n) m.
Proof. unfold inside. intros (H1 & H2 & H3 & H4) Hn Hm Hn4. repeat split; lia || zlia. Qed.

Lemma inside_word p n : inside b l p (4 + n) -> 0 <= n -> (p - b) mod 4 = 0 /\ p + 4 <= l /\ inside b l (p + 4) n.
Proof.
  intros H Hn. destruct (inside_app p 4 n H) as [(_ & H2 & H3 & _) Hr]; [lia|done|done|]. done.
Qed.

Lemma u32_small_range v : 0 <= v < 2 ^ 31 -> is_u32 v /\ s32 v = v.
Proof.
  intros Hv. split; [unfold is_u32; lia|]. unfold s32, u32. rewrite Z.mod_small by lia.
  by rewrite (proj2 (Z.ltb_lt _ _)) by lia.
Qed.

Lemma read_property_ok flags p pr tab :
  flag flags FTF_VARALIGN = false -> good_property pr = true -> tab_ok tab ->
  (enc_prop pr tab).2 `prefix_of` T ->
  seg mem p (enc_prop pr tab).1 -> inside b l p (blen (enc_prop pr tab).1) ->
  flat_read_word mem (Inbuf b l p) = Done (FDT_PROP, Inbuf b l (p + 4)) /\
  flat_read_property junk mem (Inbuf b l (p + 4)) table_buf flags =
    Done (read_property pr, Inbuf b l (p + blen (enc_prop pr tab).1)).
Proof.
  intros Hva Hg Hok. destruct (good_property_inv pr Hg) as [Hn Hv]. pose proof (contents_blen _ Hv) as Hc.
  unfold enc_prop. pose proof (tab_insert_ok tab (p_name pr) Hn Hok) as Hi.
  destruct (tab_insert tab (p_name pr)) as [i tab']. cbn [fst snd]. destruct Hi as (_ & _ & Hi & Hread).
  intros Hpre Hs Hin. specialize (Hread T Hpre). pose proof (prefix_blen _ _ Hpre) as HiT.
  rewrite !blen_app, !blen_word in Hin. rewrite blen_pad4 in Hin.
  pose proof (blen_nonneg (contents (p_val pr))). pose proof (Z.mod_pos_bound (- blen (contents (p_val pr))) 4 eq_refl).
  apply seg_app in Hs as [Hs1 Hs]. apply seg_app in Hs as [Hs2 Hs]. apply seg_app in Hs as [Hs3 Hs4].
  rewrite !blen_word in *. assert (Hlim : p + 12 + blen (contents (p_val pr)) <= l) by (unfold inside in Hin; lia).
  assert (HB : l - b < 2 ^ 30 /\ 0 <= p - b) by (unfold inside in Hin; lia).
  destruct (u32_small_range (d_len (p_val pr))) as [Hu1 Hu2]; [lia|]. destruct (u32_small_range i) as [Hu3 Hu4]; [lia|].
  apply inside_word in Hin as (Ha1 & Hl1 & Hin); [|lia]. apply inside_word in Hin as (Ha2 & Hl2 & Hin); [|lia].
  apply inside_word in Hin as (Ha3 & Hl3 & Hin); [|lia].
  split; [apply read_word_ok; [done|by vm_compute|done|done]|].
  unfold flat_read_property. rewrite (read_word_ok mem b l (p + 4) (d_len (p_val pr))) by done. cbn [mbind outcome_bind].
  rewrite (read_word_ok mem b l (p + 4 + 4) i) by done. cbn [mbind outcome_bind]. rewrite Hu4.
  unfold table_buf. rewrite (read_stringtable_ok mem sb T i (p_name pr)) by (done || lia). cbn [mbind outcome_bind]. rewrite Hva.
  cbn [andb mbind outcome_bind]. rewrite Hu2, <- Hc, (read_data_ok mem junk b l (p + 4 + 4 + 4) (contents (p_val pr))).
  - cbn [mbind outcome_bind]. unfold read_property. rewrite !blen_app, !blen_word, <- Hc. do 3 f_equal. lia.
  - done.
  - by rewrite blen_pad4.
Qed.

Section Loops.
Context (flags : Z) (Hfp : flag flags FTF_FULLPATH = false) (Hva : flag flags FTF_VARALIGN = false).

(** The tags of properties, read one after another. *)
Lemma read_properties_ok ps k flatname : Forall (fun p => good_property p = true) ps ->
  forall tab p n fuel, tab_ok tab -> (enc_props ps tab).2 `prefix_of` T ->
  seg mem p (enc_props ps tab).1 -> inside b l p (blen (enc_props ps tab).1) ->
  (Z.to_nat (blen (enc_props ps tab).1) + k < fuel)%nat ->
  exists fuel', (k < fuel')%nat /\
    unflatten_loop junk mem table_buf flags fuel (Inbuf b l p) flatname n =
    unflatten_loop junk mem table_buf flags fuel' (Inbuf b l (p + blen (enc_props ps tab).1)) flatname
      (with_props n (proplist n ++ map read_property ps)).
Proof.
  induction ps as [|pr ps IH]; intros Hg tab p n fuel Hok; cbn [enc_props map].
  - intros _ _ _ Hf. exists fuel. split; [cbn [fst] in Hf; lia|]. change (blen []) with 0.
    rewrite app_nil_r, Z.add_0_r. by destruct n.
  - apply Forall_cons in Hg as [Hp Hg]. destruct (good_property_inv pr Hp) as [Hn _].
    pose proof (read_property_ok flags p pr tab Hva Hp Hok) as Hrd.
    pose proof (enc_prop_facts pr tab Hn Hok) as Hf. destruct (enc_prop pr tab) as [x tab1]. cbn [fst snd] in *.
    destruct Hf as (Hok1 & _ & Hmx & Hx12).
    pose proof (enc_props_facts ps tab1 (good_property_names _ Hg) Hok1) as Hf. pose proof (IH Hg tab1) as Hl.
    destruct (enc_props ps tab1) as [y tab2]. cbn [fst snd] in *. destruct Hf as (_ & Hpre2 & _).
    intros Hpre Hs Hin Hfu. rewrite blen_app in *. pose proof (blen_nonneg x). pose proof (blen_nonneg y).
    apply seg_app in Hs as [Hs1 Hs2]. apply inside_app in Hin as [Hin1 Hin2]; [|done..].
    destruct Hrd as [Hw Hr]; [by etrans|done|done|].
    destruct fuel as [|fuel]; [lia|]. rewrite unflatten_loop_S. rewrite Hw. cbn [mbind outcome_bind].
    change (FDT_PROP =? FDT_PROP) with true. cbn iota. rewrite Hr. cbn [mbind outcome_bind].
    destruct (Hl (p + blen x) (add_property n (read_property pr)) fuel Hok1 Hpre Hs2 Hin2) as (fuel' & Hk & E); [lia|].
    exists fuel'. split; [done|]. rewrite E, Z.add_assoc. f_equal. unfold add_property, with_props. cbn [proplist n_deleted n_name children fullpath basenamelen phandle n_labels].
    by rewrite <- app_assoc.
Qed.

Definition tree_read (n : node) : Prop :=
  good_node n = true -> forall tab p fuel parent, tab_ok tab -> (enc_node n tab).2 `prefix_of` T ->
  seg mem p (enc_body n tab) -> inside b l p (blen (enc_body n tab)) ->
  (Z.to_nat (blen (enc_body n tab)) < fuel)%nat ->
  unflatten_tree junk mem table_buf flags fuel (Inbuf b l p) parent =
    Done (read_node n, Inbuf b l (p + blen (enc_body n tab))).

Lemma read_children_ok cs k flatname : Forall tree_read cs -> Forall (fun c => n_deleted c = true \/ good_node c = true) cs ->
  forall tab p n fuel, tab_ok tab -> (enc_children cs tab).2 `prefix_of` T ->
  seg mem p (enc_children cs tab).1 -> inside b l p (blen (enc_children cs tab).1) ->
  (Z.to_nat (blen (enc_children cs tab).1) + k < fuel)%nat ->
  exists fuel', (k < fuel')%nat /\
    unflatten_loop junk mem table_buf flags fuel (Inbuf b l p) flatname n =
    unflatten_loop junk mem table_buf flags fuel' (Inbuf b l (p + blen (enc_children cs tab).1)) flatname
      (with_children n (children n ++ map read_node (List.filter (fun c => negb (n_deleted c)) cs))).
Proof.
  induction cs as [|c cs IH]; intros HI Hg tab p n fuel Hok; cbn [enc_children List.filter].
  - intros _ _ _ Hf. exists fuel. split; [cbn [fst] in Hf; lia|]. change (blen []) with 0. cbn [map].
    rewrite app_nil_r, Z.add_0_r. by destruct n.
  - apply Forall_cons in HI as [HIc HI]. apply Forall_cons in Hg as [Hgc Hg].
    destruct (n_deleted c) eqn:Hd; cbn [negb map]; [by apply IH|]. destruct Hgc as [|Hgc]; [done|].
    pose proof (HIc Hgc tab) as Hrd. pose proof (enc_facts c Hgc tab Hok) as Hf.
    pose proof (enc_body_blen c tab Hgc Hok) as [Hbl Hbm]. pose proof (enc_node_body c tab) as Hbd.
    destruct (enc_node c tab) as [x tab1]. cbn [fst snd] in *. destruct Hf as (Hok1 & _ & Hmx). cbn [fst snd] in *.
    pose proof (enc_children_facts cs tab1 Hg Hok1) as Hf. pose proof (IH HI Hg tab1) as Hl.
    destruct (enc_children cs tab1) as [y tab2]. destruct Hf as (_ & Hpre2 & _). cbn [fst snd] in *.
    intros Hpre Hs Hin Hfu. rewrite blen_app in *. pose proof (blen_nonneg (enc_body c tab)). pose proof (blen_nonneg y).
    apply seg_app in Hs as [Hs1 Hs2]. apply inside_app in Hin as [Hin1 Hin2]; [|lia..].
    rewrite Hbd in Hs1. apply seg_app in Hs1 as [Hsw Hsb]. rewrite blen_word in Hsb. rewrite Hbl in Hin1.
    apply inside_word in Hin1 as (Ha & Hl4 & Hin1); [|lia].
    destruct fuel as [|fuel]; [lia|]. rewrite unflatten_loop_S.
    rewrite (read_word_ok mem b l p FDT_BEGIN_NODE) by (done || by vm_compute). cbn [mbind outcome_bind].
    change (FDT_BEGIN_NODE =? FDT_PROP) with false. change (FDT_BEGIN_NODE =? FDT_BEGIN_NODE) with true. cbn iota.
    rewrite (Hrd (p + 4) fuel flatname); [|done|by etrans|done|done|lia]. cbn [mbind outcome_bind].
    replace (p + 4 + blen (enc_body c tab)) with (p + blen x) by lia.
    destruct (Hl (p + blen x) (add_child n (read_node c)) fuel Hok1 Hpre Hs2 Hin2) as (fuel' & Hk & E); [lia|].
    exists fuel'. split; [done|]. rewrite E, Z.add_assoc. f_equal. unfold add_child, with_children.
    cbn [children n_deleted n_name proplist fullpath basenamelen phandle n_labels]. by rewrite <- app_assoc.
Qed.

Lemma read_tree_ok n : tree_read n.
Proof.
  induction n as [n IH] using node_induction. intros Hg tab p fuel parent Hok.
  destruct (good_node_inv n Hg) as (s & Hs & Hs0 & Hps & Hcs). unfold enc_body. rewrite enc_node_unfold, read_node_unfold, Hs.
  cbn [default from_option id]. pose proof (fun k => read_properties_ok (live_properties n) k s Hps tab) as Hrp.
  pose proof (enc_props_facts _ tab (good_property_names _ Hps) Hok) as Hf.
  destruct (enc_props (live_properties n) tab) as [x tab1]. cbn [fst snd] in Hf. destruct Hf as (Hok1 & _ & Hmx).
  pose proof (read_children_ok (children n) 0 s IH Hcs tab1) as Hrc.
  pose proof (enc_children_facts (children n) tab1 Hcs Hok1) as Hf.
  destruct (enc_children (children n) tab1) as [y tab2]. destruct Hf as (_ & Hpre2 & Hmy). cbn [fst snd] in *.
  change (drop 4 _) with (pad4 (s ++ [0]) ++ x ++ y ++ word FDT_END_NODE).
  intros Hpre Hsg Hin Hfu. rewrite !blen_app, blen_word in *.
  pose proof (blen_nonneg x). pose proof (blen_nonneg y). pose proof (pad4_mod (s ++ [0])) as Hmp. pose proof (blen_nonneg (pad4 (s ++ [0]))).
  apply seg_app in Hsg as [Hg1 Hg2]. apply seg_app in Hg2 as [Hg2 Hg3]. apply seg_app in Hg3 as [Hg3 Hg4].
  apply inside_app in Hin as [Hi1 Hin]; [|lia..]. apply inside_app in Hin as [Hi2 Hin]; [|lia..].
  apply inside_app in Hin as [Hi3 Hi4]; [|lia..].
  destruct fuel as [|fuel]; [lia|]. rewrite unflatten_tree_S. rewrite (read_string_ok mem b l p s) by done.
  cbn [mbind outcome_bind]. rewrite Hfp. cbn [mbind outcome_bind].
  assert (Hps4 : 1 <= blen (pad4 (s ++ [0]))).
  { rewrite blen_pad4, blen_app. change (blen [0]) with 1. pose proof (blen_nonneg s).
    pose proof (Z.mod_pos_bound (- (blen s + 1)) 4 eq_refl). lia. }
  destruct (Hrp (Z.to_nat (blen y)) (p + blen (pad4 (s ++ [0]))) (set_name (build_node [] []) s) fuel Hok) as (f1 & Hf1 & ->);
    [by etrans|done|done|lia|].
  edestruct (Hrc (p + blen (pad4 (s ++ [0])) + blen x) (with_props (set_name (build_node [] []) s)
      (proplist (set_name (build_node [] []) s) ++ map read_property (live_properties n))) f1 Hok1) as (f2 & Hf2 & ->);
    [done|done|done| |].
  { lia. }
  destruct f2 as [|f2]; [lia|]. rewrite unflatten_loop_S. destruct Hi4 as (Hp1 & Hp2 & Hp3 & Hp4).
  rewrite (read_word_ok mem b l _ FDT_END_NODE) by (done || by vm_compute). cbn [mbind outcome_bind].
  change (FDT_END_NODE =? FDT_PROP) with false. change (FDT_END_NODE =? FDT_BEGIN_NODE) with false.
  change (FDT_END_NODE =? FDT_END_NODE) with true. cbn iota. do 3 f_equal. lia.
Qed.
End Loops.
End ReadingTrees.

(** ** Reading blobs *)

Lemma be_val_8 v : 0 <= v < 2 ^ 64 -> be_val (be_bytes 8 v) = v.
Proof. intros Hv. rewrite be_val_be_bytes. apply Z.mod_small. exact Hv. Qed.

Lemma read_reserves_ok mem l b lim : Forall (fun re => good_reserve re = true) l ->
  forall p fuel acc, seg mem p (enc_reserve l ++ zeros 16) -> p + blen (enc_reserve l) + 16 <= lim ->
  (length l < fuel)%nat ->
  reserve_loop mem fuel (Inbuf b lim p) acc =
    Done (acc ++ map (fun re => Reserve (re_address re) (re_size re) []) l).
Proof.
  induction 1 as [|re l Hg Hl IH]; intros p fuel acc Hs Hlim Hf; (destruct fuel as [|fuel]; [lia|]); cbn [reserve_loop].
  - change (enc_reserve [] ++ zeros 16) with (zeros 16) in Hs. change (blen (enc_reserve [])) with 0 in Hlim.
    pose proof (read_chunk_ok mem b lim p (zeros 16) Hs) as E. change (blen (zeros 16)) with 16 in E.
    rewrite E by lia. cbn [mbind outcome_bind]. change (be_val (drop 8 (zeros 16)) =? 0) with true. cbn iota.
    cbn [map]. by rewrite app_nil_r.
  - change (enc_reserve (re :: l)) with ((be_bytes 8 (re_address re) ++ be_bytes 8 (re_size re)) ++ enc_reserve l) in *.
    rewrite <- app_assoc in Hs. rewrite blen_app, blen_reserve_entry in Hlim. pose proof (blen_nonneg (enc_reserve l)).
    apply seg_app in Hs as [Hs1 Hs2]. rewrite blen_reserve_entry in Hs2.
    pose proof (read_chunk_ok mem b lim p _ Hs1) as E. rewrite blen_reserve_entry in E. rewrite E by lia.
    cbn [mbind outcome_bind]. unfold good_reserve in Hg. apply andb_prop in Hg as [[[Hg1 Hg2]%andb_prop Hg3]%andb_prop Hg4].
    replace (take 8 (be_bytes 8 (re_address re) ++ be_bytes 8 (re_size re))) with (be_bytes 8 (re_address re))
      by (rewrite take_app_length' by (by rewrite length_be_bytes); done).
    replace (drop 8 (be_bytes 8 (re_address re) ++ be_bytes 8 (re_size re))) with (be_bytes 8 (re_size re))
      by (rewrite drop_app_length' by (by rewrite length_be_bytes); done).
    rewrite !be_val_8 by lia. rewrite (proj2 (Z.eqb_neq (re_size re) 0)) by lia.
    rewrite (IH (p + 16) fuel _ Hs2) by (cbn [length] in Hf; lia). unfold add_reserve_entry, build_reserve_entry.
    cbn [map]. by rewrite <- app_assoc.
Qed.

Lemma header_word_ok mem k v : seg mem (4 * k) (word v) -> is_u32 v -> header_word mem k = Done v.
Proof.
  intros Hs Hv. unfold header_word. pose proof (seg_read _ _ _ Hs) as E. rewrite blen_word in E. rewrite E.
  cbn [defined mbind outcome_bind]. by rewrite be_val_word.
Qed.

Lemma good_info_inv dti : good_info dti = true ->
  good_node (dt dti) = true /\ n_deleted (dt dti) = false /\
  Forall (fun re => good_reserve re = true) (reservelist dti) /\ is_u32 (boot_cpuid_phys dti).
Proof.
  unfold good_info. intros [[[[H1 H2]%andb_prop H3]%andb_prop H4]%andb_prop H5]%andb_prop.
  split; [done|]. split; [by apply negb_true_iff|]. split; [|unfold is_u32; lia].
  apply Forall_forall. intros re Hin%list_elem_of_In. by apply (proj1 (forallb_forall _ _) H3).
Qed.

Lemma blob_parts mem dti version rest st tab : version_ok version -> good_info dti = true ->
  mem = enc_blob dti version ++ rest -> blen (enc_blob dti version) < LIM -> enc_node (dt dti) [] = (st, tab) ->
  blob_at mem dti version st tab.
Proof.
  intros Hv Hg -> Hb E. pose proof (blen_enc_blob dti version Hv) as Hl. rewrite E in Hl.
  destruct (good_info_inv dti Hg) as (_ & _ & _ & Hcpu). unfold LIM in Hb.
  assert (Hs : seg (enc_blob dti version ++ rest) 0 (enc_blob dti version)) by (exists [], rest; done).
  pose proof (blen_nonneg st). pose proof (blen_nonneg tab). pose proof (blen_nonneg (enc_reserve (reservelist dti))).
  assert (Hu : forall v, 0 <= v < 2 ^ 31 -> is_u32 v) by (intros; unfold is_u32; lia).
  assert (Hver : 0 <= version < 2 ^ 31) by (destruct Hv as [->| ->]; done).
  unfold enc_blob in Hs at 2. rewrite E in Hs. cbv zeta in Hs. rewrite !blen_app, blen_word in Hs.
  change (blen (zeros 16)) with 16 in Hs.
  apply seg_app in Hs as [_ Hs]. rewrite blen_word in Hs. apply seg_app in Hs as [Hs1 Hs]. rewrite blen_word in Hs.
  apply seg_app in Hs as [Hs2 Hs]. rewrite blen_word in Hs. apply seg_app in Hs as [Hs3 Hs]. rewrite blen_word in Hs.
  apply seg_app in Hs as [Hs4 Hs]. rewrite blen_word in Hs. apply seg_app in Hs as [Hs5 Hs]. rewrite blen_word in Hs.
  apply seg_app in Hs as [_ Hs]. rewrite blen_word in Hs. rewrite <- !app_assoc in Hs.
  apply seg_app in Hs as [Hs7 Hs]. rewrite blen_word in Hs. apply seg_app in Hs as [Hs8 Hs]. rewrite blen_word in Hs.
  apply seg_app in Hs as [Hs9 Hs].
  assert (H4 : blen (if version =? 17 then word (blen st + 4) else zeros 4) = 4) by (by destruct Hv as [->| ->]).
  rewrite H4 in Hs. change (0 + 4 + 4 + 4 + 4 + 4 + 4 + 4 + 4 + 4 + 4) with 40 in Hs.
  rewrite app_assoc in Hs. apply seg_app in Hs as [Hr Hs]. rewrite blen_app in Hs. change (blen (zeros 16)) with 16 in Hs.
  rewrite app_assoc in Hs. apply seg_app in Hs as [Hd Ht]. rewrite blen_app, blen_word in Ht.
  split.
  - rewrite Hl. replace (40 + (blen (enc_reserve (reservelist dti)) + 16) + (blen st + 4) + blen tab) with
      (40 + (blen (enc_reserve (reservelist dti)) + 16) + (blen st + 4) + blen tab) by lia.
    apply header_word_ok; [exact Hs1|apply Hu; lia].
  - replace (56 + blen (enc_reserve (reservelist dti))) with (40 + (blen (enc_reserve (reservelist dti)) + 16)) by lia.
    apply header_word_ok; [exact Hs2|apply Hu; lia].
  - replace (60 + blen (enc_reserve (reservelist dti)) + blen st) with (40 + (blen (enc_reserve (reservelist dti)) + 16) + (blen st + 4)) by lia.
    apply header_word_ok; [exact Hs3|apply Hu; lia].
  - apply header_word_ok; [exact Hs4|by apply Hu].
  - apply header_word_ok; [exact Hs5|by apply Hu].
  - apply header_word_ok; [exact Hs7|done].
  - apply header_word_ok; [exact Hs8|apply Hu; lia].
  - intros ->. apply header_word_ok; [exact Hs9|apply Hu; lia].
  - exact Hr.
  - replace (56 + blen (enc_reserve (reservelist dti))) with (40 + (blen (enc_reserve (reservelist dti)) + 16)) by lia. exact Hd.
  - replace (60 + blen (enc_reserve (reservelist dti)) + blen st) with (40 + (blen (enc_reserve (reservelist dti)) + 16) + (blen st + 4)) by lia.
    exact Ht.
Qed.

(** The reservations, the tree and the end tag of a blob. *)
Lemma blob_body junk mem dti version st tab : version_ok version -> good_info dti = true ->
  blen (enc_blob dti version) < LIM -> enc_node (dt dti) [] = (st, tab) -> blob_at mem dti version st tab ->
  let off_dt := 56 + blen (enc_reserve (reservelist dti)) in
  let off_str := 60 + blen (enc_reserve (reservelist dti)) + blen st in
  let total := blen (enc_blob dti version) in
  flat_read_mem_reserve mem (inbuf_init 40 total) = Done (reservelist (read_info dti)) /\
  flat_read_word mem (inbuf_init off_dt total) = Done (FDT_BEGIN_NODE, Inbuf off_dt total (off_dt + 4)) /\
  unflatten_tree junk mem (inbuf_init off_str (off_str + blen tab)) FTF_NOPS
    (unflatten_fuel (Inbuf off_dt total (off_dt + 4))) (Inbuf off_dt total (off_dt + 4)) [] =
    Done (read_node (dt dti), Inbuf off_dt total (off_dt + blen st)) /\
  flat_read_word mem (Inbuf off_dt total (off_dt + blen st)) = Done (FDT_END, Inbuf off_dt total (off_dt + blen st + 4)).
Proof.
  intros Hv Hg Hb E [H1 H2 H3 H4 H5 H6 H7 H8 Hr Hd Ht]. destruct (good_info_inv dti Hg) as (Hgn & Hdel & Hgr & _).
  pose proof (blen_enc_blob dti version Hv) as Hl. rewrite E in Hl. cbv zeta. unfold LIM in Hb.
  pose proof (enc_body_blen (dt dti) [] Hgn (or_introl eq_refl)) as [Hb1 Hb2]. pose proof (enc_node_body (dt dti) []) as Hbody.
  rewrite E in Hb1, Hbody. cbn [fst] in Hb1, Hbody.
  pose proof (blen_nonneg st). pose proof (blen_nonneg tab). pose proof (blen_nonneg (enc_reserve (reservelist dti))).
  pose proof (blen_nonneg (enc_body (dt dti) [])). apply seg_app in Hd as [Hd1 Hd2].
  rewrite Hbody in Hd1. apply seg_app in Hd1 as [Hdw Hdb]. rewrite blen_word in Hdb.
  set (off := 56 + blen (enc_reserve (reservelist dti))) in *. unfold inbuf_init.
  split; [|split; [|split]].
  - unfold flat_read_mem_reserve. cbn [limit pos]. apply (read_reserves_ok mem (reservelist dti) 40 _ Hgr 40 _ [] Hr); [lia|].
    assert (Hll : forall l : list reserve_info, Z.of_nat (length l) <= blen (enc_reserve l)).
    { clear. induction l as [|re l IH]; [done|]. unfold enc_reserve in *. cbn [map concat length].
      rewrite blen_app, blen_reserve_entry. lia. }
    specialize (Hll (reservelist dti)). lia.
  - apply read_word_ok; [exact Hdw|by vm_compute|by rewrite Z.sub_diag|lia].
  - pose proof (read_tree_ok junk mem off (blen (enc_blob dti version)) _ tab Ht) as Hrt. unfold table_buf in Hrt.
    replace (off + blen st) with (off + 4 + blen (enc_body (dt dti) [])) by lia.
    apply (Hrt ltac:(lia) FTF_NOPS eq_refl eq_refl (dt dti) Hgn [] (off + 4)).
    + by left.
    + by rewrite E.
    + exact Hdb.
    + unfold inside. replace (off + 4 - off) with 4 by lia. repeat split; lia.
    + unfold unflatten_fuel. cbn [limit pos]. lia.
  - apply read_word_ok; [exact Hd2|by vm_compute|replace (off + blen st - off) with (4 + blen (enc_body (dt dti) [])) by lia; zlia|lia].
Qed.

Lemma from_mem_ok junk dti version rest : version_ok version -> good_info dti = true ->
  blen (enc_blob dti version) < LIM -> dt_from_mem junk (enc_blob dti version ++ rest) = Done (read_info dti).
Proof.
  intros Hv Hg Hb. destruct (enc_node (dt dti) []) as [st tab] eqn:E.
  pose proof (blob_parts _ dti version rest st tab Hv Hg eq_refl Hb E) as Hat.
  destruct (blob_body junk _ dti version st tab Hv Hg Hb E Hat) as (Hr & Hw & Ht & He).
  destruct Hat as [H1 H2 H3 H4 H5 H6 H7 _ _ _ _]. unfold dt_from_mem.
  rewrite H1, H2, H3, H4, H5, H6, H7. cbn [mbind outcome_bind].
  replace (3 <=? version) with true by (by destruct Hv as [->| ->]).
  replace (version <? 16) with false by (by destruct Hv as [->| ->]). cbn [mbind outcome_bind].
  rewrite Hr. cbn [mbind outcome_bind]. rewrite Hw. cbn [mbind outcome_bind]. change (negb (FDT_BEGIN_NODE =? FDT_BEGIN_NODE)) with false.
  cbn iota. rewrite Ht. cbn [mbind outcome_bind]. rewrite He. done.
Qed.

Lemma from_blob_ok junk dti version rest : version_ok version -> good_info dti = true ->
  blen (enc_blob dti version) < LIM -> dt_from_blob junk (enc_blob dti version ++ rest) = Done (read_info dti).
Proof.
  intros Hv Hg Hb. destruct (enc_node (dt dti) []) as [st tab] eqn:E.
  pose proof (blen_enc_blob dti version Hv) as Hl. rewrite E in Hl. unfold LIM in Hb.
  pose proof (blen_nonneg st). pose proof (blen_nonneg tab). pose proof (blen_nonneg (enc_reserve (reservelist dti))).
  assert (Hm : mread (enc_blob dti version ++ rest) 0 4 = Some (word FDT_MAGIC)).
  { unfold enc_blob. destruct (enc_node (dt dti) []) as [x y]. cbv zeta. rewrite <- app_assoc.
    apply (mread_app [] (word FDT_MAGIC)). }
  pose proof (blob_parts _ dti version rest st tab Hv Hg eq_refl Hb E) as Hat.
  pose proof (at_size _ _ _ _ _ Hat) as Hsz. unfold header_word in Hsz. change (4 * 1) with 4 in Hsz.
  unfold dt_from_blob. rewrite Hm. destruct (mread _ 4 4) as [sz|]; [|done]. cbn [defined mbind outcome_bind] in Hsz.
  injection Hsz as Hsz. change (negb (be_val (word FDT_MAGIC) =? FDT_MAGIC)) with false. cbn iota.
  rewrite Hsz. unfold FDT_V1_SIZE. rewrite (proj2 (Z.ltb_ge _ _)) by lia.
  rewrite (proj2 (Z.leb_gt _ _)) by lia. cbn [andb].
  pose proof (mread_app [] (enc_blob dti version) rest) as Em. cbn [app] in Em. change (blen []) with 0 in Em.
  rewrite Em. clear Em Hm Hsz Hat sz.
  pose proof (blob_parts _ dti version [] st tab Hv Hg eq_refl Hb E) as Hat. rewrite app_nil_r in Hat.
  destruct (blob_body junk _ dti version st tab Hv Hg Hb E Hat) as (Hr & Hw & Ht & He).
  destruct Hat as [_ H2 H3 H4 H5 H6 H7 H8 _ _ _]. unfold read_blob.
  rewrite H2, H3, H4, H5, H6, H7. cbn [mbind outcome_bind].
  rewrite !(proj2 (Z.leb_gt _ _)) by lia. rewrite (proj2 (Z.ltb_ge (blen (enc_blob dti version)) _)) by lia.
  replace (3 <=? version) with true by (by destruct Hv as [->| ->]).
  replace (version <? 16) with false by (by destruct Hv as [->| ->]).
  rewrite (u32_small (60 + blen (enc_reserve (reservelist dti)) + blen st + blen tab)) by (unfold is_u32; lia).
  rewrite (proj2 (Z.ltb_ge _ (60 + _ + _))), (proj2 (Z.ltb_ge (blen (enc_blob dti version)) _)) by lia. cbn [orb mbind outcome_bind].
  assert (Hrest : ('(val, dtbuf) ← flat_read_word (enc_blob dti version) (inbuf_init (56 + blen (enc_reserve (reservelist dti))) (blen (enc_blob dti version)));
      if negb (val =? FDT_BEGIN_NODE) then Die
      else
        '(tree, dtbuf) ← unflatten_tree junk (enc_blob dti version)
          (inbuf_init (60 + blen (enc_reserve (reservelist dti)) + blen st) (60 + blen (enc_reserve (reservelist dti)) + blen st + blen tab))
          FTF_NOPS (unflatten_fuel dtbuf) dtbuf [];
        '(val, dtbuf) ← flat_read_word (enc_blob dti version) dtbuf;
        if negb (val =? FDT_END) then Die
        else Done (build_dt_info DTSF_V1 (reservelist (read_info dti)) tree (boot_cpuid_phys dti))) = Done (read_info dti)).
  { rewrite Hw. cbn [mbind outcome_bind]. change (negb (FDT_BEGIN_NODE =? FDT_BEGIN_NODE)) with false.
    cbn iota. rewrite Ht. cbn [mbind outcome_bind]. by rewrite He. }
  destruct (Z.leb_spec 17 version) as [Hge|Hlt].
  - rewrite H8 by (destruct Hv; lia). cbn [mbind outcome_bind]. rewrite u32_small by (unfold is_u32; lia).
    rewrite (proj2 (Z.ltb_ge _ (56 + _))), (proj2 (Z.ltb_ge (blen _) _)) by lia. cbn [orb mbind outcome_bind].
    rewrite Hr. cbn [mbind outcome_bind]. exact Hrest.
  - cbn [mbind outcome_bind]. rewrite Hr. cbn [mbind outcome_bind]. exact Hrest.
Qed.

(** ** Untrusted input *)

Lemma fine_bind {F A B} (P : A -> Prop) (Q : B -> Prop) (o : outcome A) (k : A -> outcome B) :
  fine F P o -> (forall a, P a -> fine F Q (k a)) -> fine F Q (o ≫= k).
Proof. destruct o; cbn; auto. Qed.

Lemma fine_impl {F A} (P Q : A -> Prop) (o : outcome A) : fine F P o -> (forall a, P a -> Q a) -> fine F Q o.
Proof. destruct o; cbn; auto. Qed.

Section Untrusted.
Context (F : Prop) (mem : bytes).

(** A buffer inside the block, aligned at its pointer. *)
Definition inside_mem (inb : inbuf) : Prop :=
  0 <= base inb <= pos inb /\ (pos inb - base inb) mod 4 = 0 /\ limit inb <= blen mem /\ limit inb < 2 ^ 30.

(** The same buffer, further on. *)
Definition advanced (inb inb' : inbuf) : Prop :=
  inside_mem inb' /\ base inb' = base inb /\ limit inb' = limit inb /\ pos inb < pos inb' <= limit inb'.

Lemma chunk_fine inb len : 0 <= pos inb -> 0 <= len -> limit inb <= blen mem ->
  fine F (fun r => r.2 = at_pos inb (pos inb + len) /\ pos inb + len <= limit inb) (flat_read_chunk mem inb len).
Proof.
  intros Hp Hl Hm. unfold flat_read_chunk. destruct (Z.ltb_spec (limit inb) (pos inb + len)); [done|].
  rewrite mread_Some by lia. cbn. split; [done|lia].
Qed.

Lemma word_fine inb : inside_mem inb -> fine F (fun r => advanced inb r.2) (flat_read_word mem inb).
Proof.
  intros (Hb & Ha & Hm & Hs). unfold flat_read_word. rewrite Ha. cbn [Z.eqb negb].
  eapply fine_bind; [apply chunk_fine; lia|]. intros [d inb'] [E Hl]. cbn [fst snd] in *. subst inb'.
  cbn. unfold advanced, inside_mem. cbn [at_pos base limit pos]. split; [|lia].
  split; [lia|]. split; [zlia|lia].
Qed.

Lemma s32_small_nonneg x : 0 <= x < 2 ^ 31 -> s32 x = x.
Proof. intros. by apply u32_small_range. Qed.

Lemma realign_fine inb p k : 2 <= k <= 3 -> 0 <= base inb <= p -> limit inb <= blen mem -> limit inb < 2 ^ 30 -> p <= limit inb ->
  fine F (fun inb' => inside_mem inb' /\ base inb' = base inb /\ limit inb' = limit inb /\ p <= pos inb' <= limit inb')
    (flat_realign (at_pos inb p) (2 ^ k)).
Proof.
  intros Hk Hb Hm Hs Hp. unfold flat_realign. cbn [at_pos base limit pos]. rewrite s32_small_nonneg by lia.
  rewrite ALIGN_ok by lia. cbn [mbind outcome_bind].
  assert (H4 : (p - base inb + (- (p - base inb)) mod 2 ^ k) mod 4 = 0).
  { assert (k = 2 \/ k = 3) as [->| ->] by lia; [change (2 ^ 2) with 4|change (2 ^ 3) with 8]; zlia. }
  pose proof (Z.mod_pos_bound (- (p - base inb)) (2 ^ k) ltac:(apply Z.pow_pos_nonneg; lia)).
  destruct (Z.ltb_spec (limit inb) (base inb + (p - base inb + (- (p - base inb)) mod 2 ^ k))) as [|Hge]; [done|].
  unfold fine, inside_mem. cbn [at_pos base limit pos]. split; [|lia]. split; [lia|].
  split; [|lia]. rewrite <- H4. f_equal. lia.
Qed.

Lemma string_loop_fine fuel lim p : 0 <= p -> lim <= blen mem -> (Z.to_nat (lim - p) < fuel)%nat ->
  fine F (fun s => p + blen s < lim) (string_loop mem fuel lim p).
Proof.
  revert p. induction fuel as [|fuel IH]; intros p Hp Hl Hf; [lia|]. cbn [string_loop].
  destruct (Z.leb_spec lim p) as [|Hlt]; [done|]. unfold byte_at. rewrite mread_Some by lia.
  cbn [defined mbind outcome_bind]. change (Z.to_nat 1) with 1%nat.
  destruct (drop (Z.to_nat p) mem) as [|c r] eqn:E.
  { apply (f_equal length) in E. rewrite length_drop in E. cbn [length] in E. unfold blen in *. lia. }
  cbn [take head defined mbind outcome_bind]. destruct (c =? 0).
  { unfold fine. change (blen []) with 0. lia. }
  eapply fine_bind; [apply IH; lia|]. intros s Hs. cbn beta in Hs. unfold fine. cbn [mret outcome_ret]. rewrite blen_cons. lia.
Qed.

Lemma read_string_fine inb : inside_mem inb -> fine F (fun r => advanced inb r.2) (flat_read_string mem inb).
Proof.
  intros (Hb & Ha & Hm & Hs). unfold flat_read_string. eapply fine_bind; [apply string_loop_fine; lia|].
  intros s Hl. cbn beta in Hl. pose proof (blen_nonneg s). eapply fine_bind; [apply (realign_fine _ _ 2); lia|].
  intros inb' (H1 & H2 & H3 & H4). cbn. unfold advanced. split; [done|]. lia.
Qed.

Lemma read_data_fine (junk : Z -> Z) inb len : inside_mem inb -> -2 ^ 31 <= len < 2 ^ 31 -> pos inb <= limit inb ->
  fine F (fun r => inside_mem r.2 /\ base r.2 = base inb /\ limit r.2 = limit inb /\ pos inb <= pos r.2 <= limit r.2)
    (flat_read_data junk mem inb len).
Proof.
  intros Hin Hlen Hpl. pose proof Hin as (Hb & Ha & Hm & Hs). unfold flat_read_data.
  destruct (Z.eqb_spec len 0); [cbn; split; [done|lia]|].
  unfold data_grow_for. rewrite (proj2 (Z.eqb_neq _ _)) by done. cbn [d_len empty_data d_val].
  rewrite int_ok by lia. cbn [mbind outcome_bind grow_loop]. rewrite Z.add_0_l, Z.ltb_irrefl. cbn [mbind outcome_bind].
  unfold xrealloc. destruct (Z.ltb_spec len 0); [done|]. cbn [mbind outcome_bind d_val d_markers].
  pose proof (chunk_fine inb len) as Hc. unfold flat_read_chunk in *.
  destruct (Z.ltb_spec (limit inb) (pos inb + len)); [done|].
  rewrite mread_Some by lia. cbn [defined mbind outcome_bind].
  pose proof (realloc_blen junk [] len ltac:(lia)) as Hr. rewrite mwrite_Some; [cbn [defined mbind outcome_bind]|lia|].
  - eapply fine_bind; [apply (realign_fine _ _ 2); lia|]. intros inb' (H1 & H2 & H3 & H4). cbn. split; [done|]. lia.
  - rewrite Hr. unfold blen. rewrite length_take. lia.
Qed.

Lemma stringtable_fine inb off : 0 <= base inb -> limit inb <= blen mem ->
  fine F (fun _ => True) (flat_read_stringtable mem inb off).
Proof.
  intros Hb Hm. unfold flat_read_stringtable.
  destruct (Z.leb_spec (limit inb) (base inb + off)), (Z.ltb_spec (base inb + off) (base inb)); try done. cbn [orb].
  eapply fine_impl; [apply string_loop_fine; lia|done].
Qed.

Section Tags.
Context (junk : Z -> Z) (strbuf : inbuf) (Hsb : 0 <= base strbuf) (Hsl : limit strbuf <= blen mem)
  (flags : Z) (Hfp : flag flags FTF_FULLPATH = false \/ F).

Lemma property_fine inb : inside_mem inb -> fine F (fun r => advanced inb r.2) (flat_read_property junk mem inb strbuf flags).
Proof.
  intros Hin. unfold flat_read_property. eapply fine_bind; [by apply word_fine|].
  intros [len inb1] (H1 & H2 & H3 & H4). cbn [fst snd] in *. eapply fine_bind; [by apply word_fine|].
  intros [off inb2] (H5 & H6 & H7 & H8). cbn [fst snd] in *. eapply fine_bind; [by apply stringtable_fine|].
  intros name _. pose proof H5 as (Hb2 & _ & Hm2 & Hs2).
  apply (fine_bind (fun i => inside_mem i /\ base i = base inb2 /\ limit i = limit inb2 /\ pos inb2 <= pos i <= limit i)).
  { destruct (flag flags FTF_VARALIGN && (8 <=? len)); [|unfold fine; split; [done|lia]].
    replace (flat_realign inb2 8) with (flat_realign (at_pos inb2 (pos inb2)) (2 ^ 3)) by (by destruct inb2).
    apply (realign_fine _ _ 3); lia. }
  intros inb4 (H13 & H14 & H15 & H16). eapply fine_bind; [apply read_data_fine; [done|apply s32_range|lia]|].
  intros [v inb3] (H9 & H10 & H11 & H12). cbn [fst snd] in *. cbn. unfold advanced. split; [done|]. lia.
Qed.

Definition read_fine (inb : inbuf) (o : outcome (node * inbuf)) : Prop := fine F (fun r => advanced inb r.2) o.

Lemma unflatten_fine fuel :
  (forall inb parent, inside_mem inb -> (Z.to_nat (limit inb - pos inb) < fuel)%nat ->
     read_fine inb (unflatten_tree junk mem strbuf flags fuel inb parent)) /\
  (forall inb flatname n, inside_mem inb -> (Z.to_nat (limit inb - pos inb) < fuel)%nat ->
     read_fine inb (unflatten_loop junk mem strbuf flags fuel inb flatname n)).
Proof.
  unfold read_fine. induction fuel as [|fuel [IHt IHl]]; [split; intros; lia|].
  assert (Htrans : forall i1 i2 (o : outcome (node * inbuf)), advanced i1 i2 ->
    fine F (fun r => advanced i2 r.2) o -> fine F (fun r => advanced i1 r.2) o).
  { intros i1 i2 o (_ & H1 & H2 & H3) Ho. eapply fine_impl; [exact Ho|]. intros r (H4 & H5 & H6 & H7).
    unfold advanced. split; [done|]. lia. }
  assert (Hless : forall i1 i2, advanced i1 i2 -> (Z.to_nat (limit i1 - pos i1) < S fuel)%nat ->
    (Z.to_nat (limit i2 - pos i2) < fuel)%nat) by (intros i1 i2 (_ & H1 & H2 & H3) Hf; lia).
  split.
  - intros inb parent Hin Hf. rewrite unflatten_tree_S. eapply fine_bind; [by apply read_string_fine|].
    intros [s inb1] Ha. cbn [fst snd] in *. apply (fine_bind (fun _ => True)).
    { destruct (flag flags FTF_FULLPATH); [|done]. destruct Hfp as [|HF]; [done|]. unfold nodename_from_path.
      destruct (negb (strneq _ _ _)); [done|]. by destruct (cstr_at _ _). }
    intros name _. apply (Htrans _ _ _ Ha). apply IHl; [apply Ha|by eapply Hless].
  - intros inb flatname n Hin Hf. rewrite unflatten_loop_S. eapply fine_bind; [by apply word_fine|].
    intros [v inb1] Ha. cbn [fst snd] in *. pose proof (Hless _ _ Ha Hf) as Hf1. pose proof (proj1 Ha) as Hin1.
    destruct (v =? FDT_PROP); [|destruct (v =? FDT_BEGIN_NODE); [|destruct (v =? FDT_END_NODE); [done|destruct (v =? FDT_NOP); [|done]]]].
    + eapply fine_bind; [by apply property_fine|]. intros [pr inb2] Hb. cbn [fst snd] in *.
      apply (Htrans _ _ _ Ha), (Htrans _ _ _ Hb), IHl; [apply Hb|]. destruct Hb as (_ & H1 & H2 & H3). lia.
    + eapply fine_bind; [by apply IHt|]. intros [c inb2] Hb. cbn [fst snd] in *.
      apply (Htrans _ _ _ Ha), (Htrans _ _ _ Hb), IHl; [apply Hb|]. destruct Hb as (_ & H1 & H2 & H3). lia.
    + apply (Htrans _ _ _ Ha), IHl; [done|lia].
Qed.
End Tags.

Lemma reserve_fine fuel inb l : 0 <= pos inb -> limit inb <= blen mem -> (Z.to_nat (limit inb - pos inb) < fuel)%nat ->
  fine F (fun _ => True) (reserve_loop mem fuel inb l).
Proof.
  revert inb l. induction fuel as [|fuel IH]; intros inb l Hp Hm Hf; [lia|]. cbn [reserve_loop].
  eapply fine_bind; [apply chunk_fine; lia|]. intros [re inb1] [E Hl]. cbn [fst snd] in *. subst inb1.
  destruct (be_val (drop 8 re) =? 0); [done|]. apply IH; cbn [at_pos base limit pos]; lia.
Qed.
End Untrusted.

Lemma head_word mem k v : header_word mem k = Done v -> exists d, mread mem (4 * k) 4 = Some d /\ v = be_val d.
Proof. unfold header_word. destruct (mread mem (4 * k) 4) as [d|]; [|done]. intros [= <-]. by exists d. Qed.

Lemma mread_is_byte m off len d : Forall is_byte m -> mread m off len = Some d -> Forall is_byte d.
Proof.
  intros Hm. unfold mread. case_match; [|done]. intros [= <-]. by apply Forall_take, Forall_drop.
Qed.

Lemma be_val_range d : Forall is_byte d -> 0 <= be_val d < 2 ^ (8 * blen d).
Proof.
  intros H. unfold be_val. replace (blen d) with (blen (rev d)) by (unfold blen; by rewrite length_rev).
  apply le_val_range. by apply Forall_rev.
Qed.

Lemma header_word_range mem k v : Forall is_byte mem -> header_word mem k = Done v -> is_u32 v.
Proof.
  intros Hm H. destruct (head_word _ _ _ H) as (d & Hd & ->).
  pose proof (be_val_range d (mread_is_byte _ _ _ _ Hm Hd)) as Hr. by rewrite (mread_blen _ _ _ _ Hd) in Hr.
Qed.

Lemma header_fine mem k : Forall is_byte mem -> 0 <= k <= 9 -> 40 <= blen mem ->
  exists v, header_word mem k = Done v /\ is_u32 v.
Proof.
  intros Hm Hk Hl. unfold header_word. destruct (mread mem (4 * k) 4) as [d|] eqn:E.
  - exists (be_val d). split; [done|]. eapply (header_word_range mem k); [done|]. unfold header_word. by rewrite E.
  - by rewrite mread_Some in E by lia.
Qed.

(** The end of the string block, as the reader takes it. *)
Lemma strings_inside a n total : is_u32 a -> is_u32 n -> a <= u32 (a + n) -> u32 (a + n) <= total -> a + n <= total.
Proof.
  unfold is_u32, u32. intros Ha Hn Hge Hle.
  destruct (Z_lt_ge_dec (a + n) (2 ^ 32)); [rewrite Z.mod_small in * by lia; lia|].
  replace ((a + n) mod 2 ^ 32) with (a + n - 2 ^ 32) in Hge by (apply Z.mod_unique with 1; lia). lia.
Qed.

(** The body of the reader, from its pointers on. *)
Lemma body_fine F junk blob off_dt off_str str_end off_rsv cpu flags total :
  total = blen blob -> 40 <= total < 2 ^ 30 -> is_u32 off_dt -> is_u32 off_str -> is_u32 off_rsv ->
  off_dt < total -> str_end <= total -> (flag flags FTF_FULLPATH = false \/ F) ->
  fine F (fun _ => True) (
    reservelist ← flat_read_mem_reserve blob (inbuf_init off_rsv total);
    '(val, dtbuf) ← flat_read_word blob (inbuf_init off_dt total);
    if negb (val =? FDT_BEGIN_NODE) then Die
    else
      '(tree, dtbuf) ← unflatten_tree junk blob (inbuf_init off_str str_end) flags (unflatten_fuel dtbuf) dtbuf [];
      '(val, dtbuf) ← flat_read_word blob dtbuf;
      if negb (val =? FDT_END) then Die
      else Done (build_dt_info DTSF_V1 reservelist tree cpu)).
Proof.
  unfold is_u32. intros Htot Hsz Hu1 Hu2 Hu3 Hdt Hstr Hfl.
  eapply fine_bind; [apply reserve_fine; cbn [inbuf_init base limit pos]; lia|]. intros rl _.
  assert (Hin : inside_mem blob (inbuf_init off_dt total)).
  { unfold inside_mem. cbn [inbuf_init base limit pos]. rewrite Z.sub_diag. repeat split; lia. }
  eapply fine_bind; [by apply (word_fine F blob)|]. intros [v dtbuf] Ha. cbn [snd] in Ha.
  destruct (negb (v =? FDT_BEGIN_NODE)); [done|].
  eapply fine_bind; [apply (unflatten_fine F blob junk (inbuf_init off_str str_end))|].
  - cbn [inbuf_init base]. lia.
  - cbn [inbuf_init limit]. lia.
  - done.
  - apply Ha.
  - unfold unflatten_fuel. lia.
  - intros [tree dtbuf2] Hb. cbn [snd] in Hb. eapply fine_bind; [apply (word_fine F), Hb|]. intros [w dtbuf3] _.
    by destruct (negb (w =? FDT_END)).
Qed.

Lemma read_blob_fine F junk blob total version :
  Forall is_byte blob -> total = blen blob -> 40 <= total < 2 ^ 30 ->
  header_word blob 5 = Done version -> (16 <= version \/ F) -> fine F (fun _ => True) (read_blob junk blob total).
Proof.
  intros Hby Htot Hsz Hver Hv. unfold read_blob.
  destruct (header_fine blob 2 Hby) as (off_dt & -> & Hu1); [lia..|]. cbn [mbind outcome_bind].
  destruct (header_fine blob 3 Hby) as (off_str & -> & Hu2); [lia..|]. cbn [mbind outcome_bind].
  destruct (header_fine blob 4 Hby) as (off_rsv & -> & Hu3); [lia..|]. cbn [mbind outcome_bind]. rewrite Hver. cbn [mbind outcome_bind].
  destruct (header_fine blob 7 Hby) as (cpu & -> & _); [lia..|]. cbn [mbind outcome_bind].
  destruct (Z.leb_spec total off_rsv); [done|]. destruct (Z.leb_spec total off_dt); [done|].
  destruct (Z.ltb_spec total off_str); [done|].
  apply (fine_bind (fun i => exists e, i = inbuf_init off_str e /\ e <= total)).
  { destruct (3 <=? version); [|exists total; done].
    destruct (header_fine blob 8 Hby) as (size_str & -> & Hu4); [lia..|]. cbn [mbind outcome_bind].
    destruct (Z.ltb_spec (u32 (off_str + size_str)) off_str) as [|Hge]; [done|].
    destruct (Z.ltb_spec total (u32 (off_str + size_str))) as [|Hle]; [done|].
    exists (off_str + size_str). split; [done|]. by apply strings_inside. }
  intros strbuf (str_end & -> & Hend). apply (fine_bind (fun _ => True)).
  { destruct (17 <=? version); [|done]. destruct (header_fine blob 9 Hby) as (size_dt & -> & _); [lia..|]. cbn [mbind outcome_bind].
    by destruct (_ || _). }
  intros _ _. apply body_fine; [done..|]. destruct Hv as [Hv|HF]; [left|by right].
  by rewrite (proj2 (Z.ltb_ge version 16)) by lia.
Qed.

Lemma from_blob_fine F junk (f : bytes) (version total : Z) :
  Forall is_byte f -> header_word f 1 = Done total -> 40 <= total < 2 ^ 30 ->
  header_word f 5 = Done version -> (16 <= version \/ F) -> fine F (fun _ => True) (dt_from_blob junk f).
Proof.
  intros Hby Ht Hsz Hver Hv. unfold dt_from_blob. destruct (mread f 0 4) as [mg|]; [|done].
  destruct (head_word _ _ _ Ht) as (d & Hd & ->). change (4 * 1) with 4 in Hd. rewrite Hd.
  destruct (negb (be_val mg =? FDT_MAGIC)); [done|]. destruct (_ <? FDT_V1_SIZE); [done|].
  rewrite (proj2 (Z.leb_gt _ _)) by lia. cbn [andb]. destruct (mread f 0 (be_val d)) as [blob|] eqn:Eb; [|done].
  pose proof (mread_blen _ _ _ _ Eb) as Hl. eapply (read_blob_fine F junk blob _ version); [|done|done| |done].
  - by eapply mread_is_byte.
  - destruct (head_word _ _ _ Hver) as (d5 & Hd5 & ->). unfold header_word.
    assert (E5 : mread blob (4 * 5) 4 = Some d5); [|by rewrite E5].
    unfold mread in Eb. case_match eqn:Ec; [|done]. injection Eb as <-.
    change (Z.to_nat 0) with 0%nat. rewrite drop_0 in *.
    rewrite <- Hd5. apply andb_prop in Ec as [_ Ec]. rewrite !mread_Some by (rewrite ?Hl; lia). f_equal.
    rewrite List.skipn_firstn_comm, take_take. f_equal. lia.
Qed.

(** ** Properties *)

(** What is written: for a tree whose names are C strings and whose values
    are well formed, [dt_to_mem] and [dt_to_blob] in version 16 or 17 end, and
    write exactly the header, the reservations with their terminator, the
    structure block of everything that is not deleted, and the string table in
    which a name is the first place that reads as it.  No buffer operation
    overflows or leaves its allocation while the blob is below 1 GiB less 8 KiB. *)
Theorem dt_to_mem_layout junk (dti : dt_info) (version : Z) :
  version_ok version -> good_node (dt dti) = true -> n_deleted (dt dti) = false ->
  blen (enc_blob dti version) < LIM ->
  dt_to_mem junk no_options dti version = Done (enc_blob dti version, blen (enc_blob dti version)) /\
  dt_to_blob junk no_options dti version = Done (enc_blob dti version).
Proof.
  intros Hv Hg Hd Hb. destruct (make_blob_ok junk dti version Hv Hg Hd Hb) as (d & E & Hw & Hc).
  unfold dt_to_mem, dt_to_blob. rewrite E. cbn [mbind outcome_bind]. rewrite (contents_read d Hw), Hc.
  cbn [defined mbind outcome_bind]. rewrite <- (contents_blen d Hw), Hc. done.
Qed.

(** C6. Round trip: what [dt_to_mem] writes in version 16 or 17 is read back by
    [dt_from_mem] and by [dt_from_blob], whatever follows it in memory or in the
    file: the same reservations, boot processor and tree, less what is deleted,
    the labels, the markers and the fields only the compiler's passes fill. *)
Theorem dt_roundtrip junk junk' (dti : dt_info) (version : Z) (rest : bytes) :
  version_ok version -> good_info dti = true -> blen (enc_blob dti version) < LIM ->
  exists blob, dt_to_mem junk no_options dti version = Done (blob, blen blob) /\
    dt_from_mem junk' (blob ++ rest) = Done (read_info dti) /\
    dt_from_blob junk' (blob ++ rest) = Done (read_info dti).
Proof.
  intros Hv Hg Hb. destruct (good_info_inv dti Hg) as (Hgn & Hd & _ & _).
  destruct (make_blob_ok junk dti version Hv Hgn Hd Hb) as (d & E & Hw & Hc).
  exists (enc_blob dti version). split; [|split; [by apply (from_mem_ok junk' dti version)|by apply (from_blob_ok junk' dti version)]].
  unfold dt_to_mem. rewrite E. cbn [mbind outcome_bind]. rewrite (contents_read d Hw), Hc.
  cbn [defined mbind outcome_bind]. by rewrite <- (contents_blen d Hw), Hc.
Qed.

(** A size below that of the smallest header, and a file that stops before its
    version, are refused. *)
Lemma small_block_refused junk (f : bytes) (total : Z) :
  header_word f 1 = Done total -> total < FDT_V1_SIZE -> dt_from_blob junk f = Die.
Proof.
  intros Ht Hs. unfold dt_from_blob. destruct (mread f 0 4); [|done].
  destruct (head_word _ _ _ Ht) as (d & Hd & ->). change (4 * 1) with 4 in Hd. rewrite Hd.
  destruct (negb _); [done|]. by rewrite (proj2 (Z.ltb_lt _ _)) by lia.
Qed.

Lemma truncated_refused junk (f : bytes) (total : Z) :
  header_word f 1 = Done total -> 40 <= total < 2 ^ 30 ->
  (forall v, header_word f 5 <> Done v) -> dt_from_blob junk f = Die.
Proof.
  intros Ht Hs Hv. assert (Hl : blen f < 24).
  { destruct (Z_lt_ge_dec (blen f) 24) as [|Hge]; [done|]. exfalso. unfold header_word in Hv.
    rewrite mread_Some in Hv by lia. by eapply Hv. }
  unfold dt_from_blob. destruct (mread f 0 4); [|done].
  destruct (head_word _ _ _ Ht) as (d & Hd & ->). change (4 * 1) with 4 in Hd. rewrite Hd.
  destruct (negb _); [done|]. destruct (_ <? FDT_V1_SIZE); [done|].
  rewrite (proj2 (Z.leb_gt _ _)) by lia. cbn [andb]. unfold mread.
  by rewrite (proj2 (Z.leb_gt (0 + be_val d) (blen f))), andb_false_r by lia.
Qed.

(** A block of 28 to 31 bytes passes the check of the size, but the boot processor
    is a word of the header behind it. *)
Lemma short_header_fault junk (f : bytes) (total : Z) :
  mread f 0 4 = Some (be_bytes 4 FDT_MAGIC) -> header_word f 1 = Done total ->
  FDT_V1_SIZE <= total < 32 -> total <= blen f -> dt_from_blob junk f = Fault.
Proof.
  intros Hm Ht Hsz Hl. unfold dt_from_blob. rewrite Hm.
  destruct (head_word _ _ _ Ht) as (d & Hd & ->). change (4 * 1) with 4 in Hd. rewrite Hd.
  change (be_val (be_bytes 4 FDT_MAGIC) =? FDT_MAGIC) with true. cbn [negb]. unfold FDT_V1_SIZE in *.
  rewrite (proj2 (Z.ltb_ge _ _)), (proj2 (Z.leb_gt _ _)) by lia. cbn [andb].
  rewrite mread_Some by lia. change (Z.to_nat 0) with 0%nat. rewrite drop_0. unfold read_blob.
  assert (Hb : blen (take (Z.to_nat (be_val d)) f) = be_val d) by (unfold blen in *; rewrite length_take; lia).
  set (blob := take (Z.to_nat (be_val d)) f) in *.
  assert (Hw : forall k, 0 <= k <= 6 -> exists v, header_word blob k = Done v).
  { intros k Hk. unfold header_word. rewrite mread_Some by lia. by eexists. }
  destruct (Hw 2) as [? ->]; [lia|]. destruct (Hw 3) as [? E3]; [lia|].
  destruct (Hw 4) as [? E4]; [lia|]. destruct (Hw 5) as [? E5]; [lia|].
  cbn [mbind outcome_bind]. rewrite E3. cbn [mbind outcome_bind]. rewrite E4. cbn [mbind outcome_bind].
  rewrite E5. cbn [mbind outcome_bind].
  assert (header_word blob 7 = Fault) as ->; [|done]. unfold header_word, mread. rewrite Hb.
  by rewrite (proj2 (Z.leb_gt (4 * 7 + 4) (be_val d))), andb_false_r by lia.
Qed.

(** C40. Untrusted files, by the size of the block they announce.  Below 28 bytes
    [dt_from_blob] refuses the file through [die]; from 28 to 31 it reads a word of
    the header outside the block (undefined behaviour); from 40 bytes to 1 GiB it
    ends, whatever offsets, sizes, tags and strings the file holds and wherever the
    file stops, and in version 16 or later it refuses the file or returns a tree: it
    never reads outside the block and never fails an assertion. *)
Theorem dt_from_blob_safe junk (f : bytes) (total : Z) :
  Forall is_byte f -> header_word f 1 = Done total ->
  (total < FDT_V1_SIZE -> dt_from_blob junk f = Die) /\
  (FDT_V1_SIZE <= total < 32 -> total <= blen f -> mread f 0 4 = Some (be_bytes 4 FDT_MAGIC) ->
   dt_from_blob junk f = Fault) /\
  (40 <= total < 2 ^ 30 ->
   dt_from_blob junk f <> Diverge /\
   (forall version, header_word f 5 = Done version -> 16 <= version ->
    dt_from_blob junk f = Die \/ exists dti, dt_from_blob junk f = Done dti)).
Proof.
  intros Hby Ht. split_and!.
  - by apply small_block_refused.
  - intros Hsz Hl Hm. by apply (short_header_fault junk f total).
  - intros Hsz. split.
    + destruct (header_word f 5) as [version| | |] eqn:Hver.
      2-4: rewrite (truncated_refused junk f total) by (done || by rewrite Hver); done.
      pose proof (from_blob_fine True junk f version total Hby Ht Hsz Hver (or_intror I)) as H.
      by destruct (dt_from_blob junk f).
    + intros version Hver Hv.
      pose proof (from_blob_fine False junk f version total Hby Ht Hsz Hver (or_introl Hv)) as H.
      destruct (dt_from_blob junk f) as [dti| | |]; [right; by exists dti|by left|done|done].
Qed.

(** Blobs in memory are trusted: [dt_from_mem] never looks at the size it is
    given.  A block of at least a header whose reservations lie past the end of
    the block, but inside the total size the header claims, makes it read
    outside the block, where [dt_from_blob] refuses the same bytes in a file. *)
Theorem dt_from_mem_trusts junk (mem : bytes) (total rsv : Z) :
  Forall is_byte mem -> 40 <= blen mem -> header_word mem 1 = Done total -> header_word mem 4 = Done rsv ->
  blen mem - 16 < rsv -> rsv + 16 <= total ->
  dt_from_mem junk mem = Fault /\ dt_from_blob junk mem = Die.
Proof.
  intros Hby Hl Ht Hr Hlo Hhi. split.
  - unfold dt_from_mem. rewrite Ht, Hr. cbn [mbind outcome_bind].
    destruct (header_fine mem 2 Hby) as (off_dt & -> & _); [lia..|]. cbn [mbind outcome_bind].
    destruct (header_fine mem 3 Hby) as (off_str & -> & _); [lia..|]. cbn [mbind outcome_bind].
    destruct (header_fine mem 7 Hby) as (cpu & -> & _); [lia..|]. cbn [mbind outcome_bind].
    destruct (header_fine mem 5 Hby) as (version & -> & _); [lia..|]. cbn [mbind outcome_bind].
    destruct (header_fine mem 8 Hby) as (size_str & -> & _); [lia..|]. cbn [mbind outcome_bind].
    destruct (3 <=? version); cbn [mbind outcome_bind]; unfold flat_read_mem_reserve; cbn [inbuf_init limit pos reserve_loop];
      unfold flat_read_chunk; cbn [inbuf_init limit pos]; rewrite (proj2 (Z.ltb_ge total (rsv + 16))) by lia;
      unfold mread; rewrite (proj2 (Z.leb_gt (rsv + 16) (blen mem))) by lia; rewrite andb_false_r; done.
  - pose proof (header_word_range _ _ _ Hby Ht). destruct (head_word _ _ _ Ht) as (d & Hd & ->). change (4 * 1) with 4 in Hd.
    unfold dt_from_blob. destruct (mread mem 0 4) as [mg|]; [|done]. rewrite Hd.
    destruct (negb (be_val mg =? FDT_MAGIC)); [done|]. destruct (_ <? FDT_V1_SIZE); [done|].
    rewrite (proj2 (Z.ltb_ge (be_val d) (blen mem))) by lia. rewrite andb_false_r.
    unfold mread. rewrite (proj2 (Z.leb_gt (0 + be_val d) (blen mem))) by lia. by rewrite andb_false_r.
Qed.

(** A root whose name is empty makes the reader of the old versions look one
    byte past the end of the name. *)
Theorem nodename_overread flatname parent : streq parent [47] = false ->
  strneq parent flatname (blen parent) = true -> blen flatname = blen parent ->
  nodename_from_path parent flatname = Fault.
Proof.
  intros Hroot Hpre Hl. unfold nodename_from_path. rewrite Hpre. cbn [negb]. rewrite Hroot. cbn [negb].
  unfold cstr_at. rewrite blen_app, <- Hl. change (blen [0]) with 1. pose proof (blen_nonneg flatname).
  rewrite !(proj2 (Z.leb_le _ _)) by lia. cbn [andb].
  rewrite drop_ge; [done|]. rewrite length_app. cbn [length]. unfold blen in *. lia.
Qed.

(** ** A small tree *)

Lemma dt_to_mem_layout_witness :
  dt_to_mem no_junk no_options sample_info 17 = Done (enc_blob sample_info 17, blen (enc_blob sample_info 17)) /\
  dt_to_blob no_junk no_options sample_info 17 = Done (enc_blob sample_info 17).
Proof.
  apply (dt_to_mem_layout no_junk sample_info 17); [by right|reflexivity|reflexivity|].
  vm_compute. reflexivity.
Defined.

Lemma dt_roundtrip_witness :
  exists blob, dt_to_mem no_junk no_options sample_info 16 = Done (blob, blen blob) /\
    dt_from_mem no_junk (blob ++ [7]) = Done (read_info sample_info) /\
    dt_from_blob no_junk (blob ++ [7]) = Done (read_info sample_info).
Proof.
  apply (dt_roundtrip no_junk no_junk sample_info 16 [7]); [by left|reflexivity|]. vm_compute. reflexivity.
Defined.

Lemma dt_from_blob_safe_witness :
  (dt_from_blob no_junk (sample_header 48 ++ zeros 8) = Die \/
   exists dti, dt_from_blob no_junk (sample_header 48 ++ zeros 8) = Done dti) /\
  dt_from_blob no_junk (be_bytes 4 FDT_MAGIC ++ [0; 0; 0; 28] ++ zeros 20) = Fault.
Proof.
  split.
  - destruct (dt_from_blob_safe no_junk (sample_header 48 ++ zeros 8) 48) as (_ & _ & H).
    + apply is_byte_check. vm_compute. reflexivity.
    + vm_compute. reflexivity.
    + destruct H as [_ H]; [lia|]. apply (H 17); [vm_compute; reflexivity|lia].
  - destruct (dt_from_blob_safe no_junk (be_bytes 4 FDT_MAGIC ++ [0; 0; 0; 28] ++ zeros 20) 28) as (_ & H & _).
    + apply is_byte_check. vm_compute. reflexivity.
    + vm_compute. reflexivity.
    + apply H; [unfold FDT_V1_SIZE; lia|vm_compute; discriminate|reflexivity].
Defined.

Lemma dt_from_mem_trusts_witness :
  dt_from_mem no_junk (sample_header 64) = Fault /\ dt_from_blob no_junk (sample_header 64) = Die.
Proof.
  apply (dt_from_mem_trusts no_junk (sample_header 64) 64 40).
  - apply is_byte_check. vm_compute. reflexivity.
  - vm_compute. discriminate.
  - vm_compute. reflexivity.
  - vm_compute. reflexivity.
  - vm_compute. reflexivity.
  - lia.
Defined.
