(* ===== verification/Readahead.v ===== *)
(** Read-ahead buffers of libarchive (archive_read.c) and the memory client
    (archive_read_open_memory.c).

    A filter hands out windows on its data without moving
    ([__archive_read_ahead]) and moves forward ([__archive_read_consume]).  It
    pulls blocks from whatever is below it, the interface [Upstream]: a
    decompressor or the client.  The theorems show that the two buffers of a
    filter stand for one sequence of bytes, whatever the size of the blocks.

    An archive has one client object, so the code that switches between several
    is not represented; a failing [malloc] is not either. *)
From S2P Require Import Prelude Util.

Definition ARCHIVE_EOF := 1.
Definition ARCHIVE_OK := 0.
Definition ARCHIVE_RETRY := -10.
Definition ARCHIVE_WARN := -20.
Definition ARCHIVE_FAILED := -25.
Definition ARCHIVE_FATAL := -30.

(** What a filter needs of the layer below: the next block (its length, or 0 at
    the end, or an error), and an optional way of skipping bytes without
    reading them ([None]: undefined behaviour).  [rest] is what is still to
    come.  [lasting] says that the memory of a block stays as it is when further
    blocks are read; a layer that fills one buffer again and again is not. *)
Class Upstream (U : Type) := {
  fread : U -> Z * bytes * U;
  fskip : option (U -> Z -> option (Z * U));
  rest : U -> bytes;
  lasting : bool
}.
Arguments lasting U {_}.

(** ** The filter *)

(** A pointer into an object. *)
Record pointer := Ptr { obj : bytes; off : Z }.

Definition advance_ptr (p : pointer) (n : Z) : pointer := Ptr (obj p) (off p + n).

(** The copy buffer ([buffer], [next], [avail]) and the part of the last block
    that is still unread ([client_next], [client_total], [client_avail]). *)
Record archive_read_filter (U : Type) := Filter {
  data : U;
  fatal : bool;
  end_of_file : bool;
  position : Z;
  buffer : bytes;
  next : Z;
  avail : Z;
  client_next : option pointer;
  client_total : Z;
  client_avail : Z
}.
Arguments Filter {U}.
Arguments data {U}.
Arguments fatal {U}.
Arguments end_of_file {U}.
Arguments position {U}.
Arguments buffer {U}.
Arguments next {U}.
Arguments avail {U}.
Arguments client_next {U}.
Arguments client_total {U}.
Arguments client_avail {U}.

Section Filter.
Context {U : Type} `{Upstream U} (junk : Z -> Z).

(** [calloc], and the callbacks [archive_read_open1] sets. *)
Definition new_filter (s : U) : archive_read_filter U :=
  Filter s false false 0 [] 0 0 None 0 0.

Definition set_data (f : archive_read_filter U) (s : U) : archive_read_filter U :=
  Filter s (fatal f) (end_of_file f) (position f) (buffer f) (next f) (avail f)
    (client_next f) (client_total f) (client_avail f).
Definition set_fatal (f : archive_read_filter U) : archive_read_filter U :=
  Filter (data f) true (end_of_file f) (position f) (buffer f) (next f) (avail f)
    (client_next f) (client_total f) (client_avail f).
Definition set_eof (f : archive_read_filter U) : archive_read_filter U :=
  Filter (data f) (fatal f) true (position f) (buffer f) (next f) (avail f)
    (client_next f) (client_total f) (client_avail f).
Definition set_copy (f : archive_read_filter U) (b : bytes) (n a : Z) : archive_read_filter U :=
  Filter (data f) (fatal f) (end_of_file f) (position f) b n a
    (client_next f) (client_total f) (client_avail f).
Definition set_client (f : archive_read_filter U) (p : option pointer) (t a : Z)
  : archive_read_filter U :=
  Filter (data f) (fatal f) (end_of_file f) (position f) (buffer f) (next f) (avail f) p t a.
Definition set_position (f : archive_read_filter U) (n : Z) : archive_read_filter U :=
  Filter (data f) (fatal f) (end_of_file f) n (buffer f) (next f) (avail f)
    (client_next f) (client_total f) (client_avail f).

(** "Roll back" to the client buffer. *)
Definition roll_back (f : archive_read_filter U) : archive_read_filter U :=
  let f := set_client f ((λ p, advance_ptr p (- avail f)) <$> client_next f) (client_total f)
             (client_avail f + avail f) in
  set_copy f (buffer f) 0 0.

(** Move data forward in the copy buffer if the request does not fit behind it. *)
Definition move_forward (f : archive_read_filter U) (min : Z) : option (archive_read_filter U) :=
  if (0 <? next f) && (blen (buffer f) <? next f + min) then
    if 0 <? avail f then
      d ← mread (buffer f) (next f) (avail f);
      b ← mwrite (buffer f) 0 d;
      Some (set_copy f b 0 (avail f))
    else Some (set_copy f (buffer f) 0 (avail f))
  else Some f.

(** Double the size of the buffer until the request fits; [None] is the
    overflow the code watches for. *)
Fixpoint double_size (fuel : nat) (s t min : Z) : option Z :=
  match fuel with
  | O => None
  | S fuel =>
      if s <? min then
        let t := u64 (t * 2) in
        if t <=? s then None else double_size fuel t t min
      else Some s
  end.

Definition enlarged (size min : Z) : option Z :=
  double_size 65 (if size =? 0 then min else size) size min.

(** Ensure the copy buffer is big enough; the result is [None] on overflow. *)
Definition ensure (f : archive_read_filter U) (min : Z)
  : option (option (archive_read_filter U)) :=
  if blen (buffer f) <? min then
    match enlarged (blen (buffer f)) min with
    | None => Some None
    | Some s =>
        let p := Util.realloc junk [] s in
        if 0 <? avail f then
          d ← mread (buffer f) (next f) (avail f);
          p ← mwrite p 0 d;
          Some (Some (set_copy f p 0 (avail f)))
        else Some (Some (set_copy f p 0 (avail f)))
    end
  else Some (Some f).

(** Add client data to the copy buffer: no more than fits, than is asked for,
    or than there is. *)
Definition tocopy (f : archive_read_filter U) (min : Z) : Z :=
  let n := blen (buffer f) - (next f + avail f) in
  let n := if min <? n + avail f then min - avail f else n in
  if client_avail f <? n then client_avail f else n.

Definition copy_client (f : archive_read_filter U) (min : Z) : option (archive_read_filter U) :=
  let n := tocopy f min in
  p ← client_next f;
  d ← mread (obj p) (off p) n;
  b ← mwrite (buffer f) (next f + avail f) d;
  let f := set_client f (Some (advance_ptr p n)) (client_total f) (client_avail f - n) in
  Some (set_copy f b (next f) (avail f + n)).

(** The loop of [__archive_read_filter_ahead].  The result is the window (or
    NULL), and what [*avail] is set to. *)
Fixpoint ahead_loop (fuel : nat) (f : archive_read_filter U) (min : Z)
  : option (option bytes * Z * archive_read_filter U) :=
  match fuel with
  | O => None
  | S fuel =>
      if (min <=? avail f) && (0 <? avail f) then
        w ← mread (buffer f) (next f) (avail f);
        Some (Some w, avail f, f)
      else if (client_avail f + avail f <=? client_total f)
              && (min <=? client_avail f + avail f) then
        let f := roll_back f in
        match client_next f with
        | Some p => w ← mread (obj p) (off p) (client_avail f); Some (Some w, client_avail f, f)
        | None => Some (None, client_avail f, f)
        end
      else
        f ← move_forward f min;
        if client_avail f <=? 0 then
          if end_of_file f then Some (None, 0, f)
          else
            let '(bytes_read, b, s) := fread (data f) in
            let f := set_data f s in
            if bytes_read <? 0 then
              Some (None, ARCHIVE_FATAL, set_fatal (set_client f None 0 0))
            else if bytes_read =? 0 then
              Some (None, avail f, set_eof (set_client f None 0 0))
            else ahead_loop fuel (set_client f (Some (Ptr b 0)) bytes_read bytes_read) min
        else
          r ← ensure f min;
          match r with
          | None => Some (None, ARCHIVE_FATAL, set_fatal f)
          | Some f => f ← copy_client f min; ahead_loop fuel f min
          end
  end.

(** Each round takes a block or copies at least a byte of one. *)
Definition ahead_fuel (f : archive_read_filter U) : nat :=
  2 * length (rest (data f)) + Z.to_nat (client_avail f) + 2.

Definition archive_read_filter_ahead (f : archive_read_filter U) (min : Z)
  : option (option bytes * Z * archive_read_filter U) :=
  if fatal f then Some (None, ARCHIVE_FATAL, f) else ahead_loop (ahead_fuel f) f min.

(** Use up the copy buffer first, then the client buffer. *)
Definition use_copy (f : archive_read_filter U) (request : Z) : Z * archive_read_filter U :=
  if 0 <? avail f then
    let m := Z.min request (avail f) in
    (m, set_position (set_copy f (buffer f) (next f + m) (avail f - m)) (position f + m))
  else (0, f).

Definition use_client (f : archive_read_filter U) (request : Z) : Z * archive_read_filter U :=
  if 0 <? client_avail f then
    let m := Z.min request (client_avail f) in
    let p := (λ p, advance_ptr p m) <$> client_next f in
    (m, set_position (set_client f p (client_total f) (client_avail f - m)) (position f + m))
  else (0, f).

(** Ordinary reads to complete the request. *)
Fixpoint advance_loop (fuel : nat) (f : archive_read_filter U) (request total : Z)
  : option (Z * archive_read_filter U) :=
  match fuel with
  | O => None
  | S fuel =>
      let '(bytes_read, b, s) := fread (data f) in
      let f := set_data f s in
      if bytes_read <? 0 then Some (bytes_read, set_fatal f)
      else if bytes_read =? 0 then Some (total, set_eof f)
      else if request <=? bytes_read then
        let f := set_client f (Some (Ptr b request)) bytes_read (bytes_read - request) in
        Some (total + request, set_position f (position f + request))
      else
        advance_loop fuel (set_position f (position f + bytes_read)) (request - bytes_read)
          (total + bytes_read)
  end.

Definition advance_file_pointer (f : archive_read_filter U) (request : Z)
  : option (Z * archive_read_filter U) :=
  if fatal f then Some (-1, f)
  else
    let '(m, f) := use_copy f request in
    let '(n, f) := use_client f (request - m) in
    let total := m + n in
    let request := request - total in
    if request =? 0 then Some (total, f)
    else
      let read f request total := advance_loop (length (rest (data f)) + 1) f request total in
      match fskip with
      | None => read f request total
      | Some skip =>
          '(bytes_skipped, s) ← skip (data f) request;
          let f := set_data f s in
          if bytes_skipped <? 0 then Some (bytes_skipped, set_fatal f)
          else
            let f := set_position f (position f + bytes_skipped) in
            if request - bytes_skipped =? 0 then Some (total + bytes_skipped, f)
            else read f (request - bytes_skipped) (total + bytes_skipped)
      end.

Definition archive_read_filter_consume (f : archive_read_filter U) (request : Z)
  : option (Z * archive_read_filter U) :=
  if request <? 0 then Some (ARCHIVE_FATAL, f)
  else if request =? 0 then Some (0, f)
  else
    '(skipped, f) ← advance_file_pointer f request;
    if skipped =? request then Some (skipped, f) else Some (ARCHIVE_FATAL, f).

End Filter.

(** ** The memory client *)

(** The block of memory from [p] to [end]; [m_start] counts the bytes before. *)
Record read_memory_data := MemoryData { m_start : bytes; p : Z; read_size : Z }.

Definition memory_read (m : read_memory_data) : Z * bytes * read_memory_data :=
  let size := blen (m_start m) - p m in
  let size := if read_size m <? size then read_size m else size in
  (size, drop (Z.to_nat (p m)) (m_start m), MemoryData (m_start m) (p m + size) (read_size m)).

(** The skip is rounded down to whole blocks; a block size of 0 divides by
    zero. *)
Definition memory_read_skip (m : read_memory_data) (skip : Z) : option (Z * read_memory_data) :=
  let skip := if blen (m_start m) - p m <? skip then blen (m_start m) - p m else skip in
  if read_size m =? 0 then None
  else
    let skip := Z.quot skip (read_size m) * read_size m in
    Some (skip, MemoryData (m_start m) (p m + skip) (read_size m)).

Definition SEEK_SET := 0.
Definition SEEK_CUR := 1.
Definition SEEK_END := 2.

Definition memory_read_seek (m : read_memory_data) (offset whence : Z) : Z * read_memory_data :=
  let at_ q := MemoryData (m_start m) q (read_size m) in
  let finish q :=
    if q <? 0 then (ARCHIVE_FAILED, at_ 0)
    else if blen (m_start m) <? q then (ARCHIVE_FAILED, at_ (blen (m_start m)))
    else (q, at_ q) in
  if whence =? SEEK_SET then finish offset
  else if whence =? SEEK_CUR then finish (p m + offset)
  else if whence =? SEEK_END then finish (blen (m_start m) + offset)
  else (ARCHIVE_FATAL, m).

Definition archive_read_open_memory2 (buff : bytes) (read_size : Z) : read_memory_data :=
  MemoryData buff 0 read_size.
Definition archive_read_open_memory (buff : bytes) : read_memory_data :=
  archive_read_open_memory2 buff (blen buff).

(** [client_skip_proxy]: requests above a gigabyte are broken down. *)
Fixpoint skip_loop (fuel : nat) (m : read_memory_data) (request total : Z)
  : option (Z * read_memory_data) :=
  match fuel with
  | O => None
  | S fuel =>
      let ask := if 2 ^ 30 <? request then 2 ^ 30 else request in
      '(get, m) ← memory_read_skip m ask;
      if (get =? 0) || (get =? request) then Some (total + get, m)
      else if request <? get then Some (ARCHIVE_FATAL, m)
      else skip_loop fuel m (request - get) (total + get)
  end.

Definition client_skip_proxy (m : read_memory_data) (request : Z) : option (Z * read_memory_data) :=
  if request =? 0 then Some (0, m)
  else skip_loop (length (m_start m) + 1) m request 0.

#[export] Instance memory_client : Upstream read_memory_data := {
  fread := memory_read;
  fskip := Some client_skip_proxy;
  rest m := drop (Z.to_nat (p m)) (m_start m);
  lasting := true
}.

Example ahead_memory :
  (let f := new_filter (archive_read_open_memory2 (str "hello, world") 3) in
   r ← archive_read_filter_ahead (fun _ => 0) f 5;
   let '(w, a, f) := r in
   r2 ← archive_read_filter_consume f 4;
   let '(c, f) := r2 in
   r3 ← archive_read_filter_ahead (fun _ => 0) f 1;
   Some (w, a, c, (r3.1.1, r3.1.2), position f))
  = Some (Some (str "hello"), 5, 4, (Some (str "o"), 1), 4).
Proof. vm_compute. reflexivity. Qed.

(** ** What a filter stands for *)

(** The laws of an upstream: blocks are pieces of what is to come, the end is
    the end, skipping drops a piece; [clean] says that it reports no error. *)
Class UpstreamLaws (U : Type) `{Upstream U} := {
  good : U -> Prop;
  clean : U -> Prop;
  fread_law u : good u ->
    let '(r, b, u') := fread u in
    good u' /\
    (r < 0 /\ ~ clean u \/
     0 <= r <= blen b /\ rest u = take (Z.to_nat r) b ++ rest u' /\ (r = 0 -> rest u = []) /\
     (clean u -> clean u'));
  fskip_law skip u n : fskip = Some skip -> good u -> 0 < n ->
    exists r u', skip u n = Some (r, u') /\ good u' /\
    (r < 0 /\ ~ clean u \/
     0 <= r <= n /\ r <= blen (rest u) /\ rest u' = drop (Z.to_nat r) (rest u) /\
     (clean u -> clean u'))
}.

(** [n] bytes of [m] from [o]. *)
Definition sub (m : bytes) (o n : Z) : bytes := take (Z.to_nat n) (drop (Z.to_nat o) m).

Definition window {U} (f : archive_read_filter U) : bytes := sub (buffer f) (next f) (avail f).
Definition unread {U} (f : archive_read_filter U) : bytes :=
  match client_next f with Some p => sub (obj p) (off p) (client_avail f) | None => [] end.
Definition stream {U} `{Upstream U} (f : archive_read_filter U) : bytes :=
  window f ++ unread f ++ rest (data f).

(** The invariant of a filter: the windows lie inside their objects, and the
    end of the copy buffer repeats what was last taken from the block. *)
Record valid {U} `{UpstreamLaws U} (f : archive_read_filter U) : Prop := {
  v_good : good (data f);
  v_eof : end_of_file f = true -> fatal f = false -> rest (data f) = [];
  v_copy : 0 <= next f /\ 0 <= avail f /\ next f + avail f <= blen (buffer f);
  v_client :
    match client_next f with
    | None => client_avail f = 0 /\ client_total f = 0
    | Some p => 0 <= client_avail f /\ 0 <= off p /\ off p = client_total f - client_avail f /\
                client_total f <= blen (obj p)
    end;
  v_tail p k : client_next f = Some p -> 0 <= k <= avail f -> k <= off p ->
    sub (buffer f) (next f + avail f - k) k = sub (obj p) (off p - k) k
}.

(** What [__archive_read_ahead] promises: a window of at least [min] bytes at
    the front of the stream, which stays; or NULL, at the end or after an
    error. *)
Definition ahead_post {U} `{UpstreamLaws U} (f : archive_read_filter U) (min : Z)
    (r : option bytes * Z * archive_read_filter U) : Prop :=
  let '(o, a, f') := r in
  valid f' /\ position f' = position f /\ (clean (data f) -> clean (data f')) /\
  match o with
  | Some w =>
      a = blen w /\ min <= a /\ (exists t, stream f = w ++ t) /\ stream f' = stream f /\
      fatal f' = fatal f
  | None =>
      fatal f' = true /\ a = ARCHIVE_FATAL /\ (clean (data f) -> 2 ^ 62 <= min) \/
      fatal f' = fatal f /\ stream f' = stream f /\
      (min = 0 \/ 0 <= a < min /\ blen (stream f) < min)
  end.

(** What [__archive_read_consume] promises: exactly the request is dropped, or
    the stream ends before, or an error is reported. *)
Definition consume_post {U} `{UpstreamLaws U} (f : archive_read_filter U) (n : Z)
    (r : Z * archive_read_filter U) : Prop :=
  let '(x, f') := r in
  valid f' /\ (clean (data f) -> clean (data f')) /\
  (x = n /\ n <= blen (stream f) /\ stream f' = drop (Z.to_nat n) (stream f) /\
   position f' = position f + n /\ fatal f' = fatal f \/
   x = ARCHIVE_FATAL /\
   (fatal f' = true /\ ~ clean (data f) \/
    fatal f' = fatal f /\ blen (stream f) < n /\ stream f' = [])).

(** Advancing by [n], reported as [total]: done, or an error, or the end. *)
Definition advanced {U} `{UpstreamLaws U} (f : archive_read_filter U) (n total r : Z)
    (f' : archive_read_filter U) : Prop :=
  valid f' /\ (clean (data f) -> clean (data f')) /\
  (r = total /\ n <= blen (stream f) /\ stream f' = drop (Z.to_nat n) (stream f) /\
   position f' = position f + n /\ fatal f' = fatal f \/
   r < total /\ (fatal f' = true /\ ~ clean (data f) \/
     fatal f' = fatal f /\ blen (stream f) < n /\ stream f' = [])).

(** The memory client reads inside its block. *)
Definition good_memory (m : read_memory_data) : Prop :=
  0 <= p m <= blen (m_start m) /\ 0 < read_size m.

Section Run.
Context {U : Type} `{Upstream U} (junk : Z -> Z).

(** A client that looks at [min] bytes and then consumes [n], again and again;
    what it sees. *)
Fixpoint run (f : archive_read_filter U) (ops : list (Z * Z))
  : option (list (option bytes * Z)) :=
  match ops with
  | [] => Some []
  | (min, n) :: ops =>
      r ← archive_read_filter_ahead junk f min;
      c ← archive_read_filter_consume (U:=U) r.2 n;
      l ← run c.2 ops;
      Some ((take (Z.to_nat min) <$> (r.1.1 : option bytes), c.1) :: l)
  end.

End Run.

(** The same on a sequence of bytes. *)
Fixpoint run_bytes (s : bytes) (ops : list (Z * Z)) : list (option bytes * Z) :=
  match ops with
  | [] => []
  | (min, n) :: ops =>
      (if min <=? blen s then Some (take (Z.to_nat min) s) else None,
       if n <=? blen s then n else ARCHIVE_FATAL)
      :: run_bytes (if n <=? blen s then drop (Z.to_nat n) s else []) ops
  end.

(** ** Pieces of memory *)

Lemma sub_mread m o n : 0 <= o -> 0 <= n -> o + n <= blen m -> mread m o n = Some (sub m o n).
Proof. apply mread_Some. Qed.

Lemma blen_sub m o n : 0 <= o -> 0 <= n -> o + n <= blen m -> blen (sub m o n) = n.
Proof. intros. unfold sub, blen in *. rewrite length_take, length_drop. lia. Qed.

Lemma sub_0 m o : sub m o 0 = [].
Proof. done. Qed.

Lemma sub_split m o a b : 0 <= o -> 0 <= a -> 0 <= b ->
  sub m o (a + b) = sub m o a ++ sub m (o + a) b.
Proof.
  intros. unfold sub. rewrite !Z2Nat.inj_add by lia.
  rewrite <- drop_drop. generalize (drop (Z.to_nat o) m). intros l.
  rewrite <- (take_drop (Z.to_nat a) l) at 1. rewrite take_app.
  rewrite take_take, length_take.
  destruct (decide (Z.to_nat a <= length l)%nat).
  - do 2 f_equal; [lia|]. f_equal. lia.
  - rewrite !(drop_ge l) by lia. rewrite !take_nil. f_equal. f_equal. lia.
Qed.

Lemma sub_tail m o m' o' n k : 0 <= k <= n -> 0 <= o -> 0 <= o' ->
  o + n <= blen m -> o' + n <= blen m' ->
  sub m o n = sub m' o' n -> sub m (o + n - k) k = sub m' (o' + n - k) k.
Proof.
  intros Hk Ho Ho' Hm Hm' He.
  assert (n = (n - k) + k) as Hn by lia. rewrite Hn in He.
  rewrite !sub_split in He by lia. apply app_inj_1 in He.
  - destruct He as [_ He].
    by replace (o + n - k) with (o + (n - k)) by lia; replace (o' + n - k) with (o' + (n - k)) by lia.
  - pose proof (blen_sub m o (n - k)) as H1. pose proof (blen_sub m' o' (n - k)) as H2.
    unfold blen in *. lia.
Qed.

Lemma sub_mwrite m o d m' : 0 <= o -> mwrite m o d = Some m' -> sub m' o (blen d) = d.
Proof.
  intros Ho Hw. unfold mwrite in Hw. case_match eqn:E; [|done]. simplify_eq.
  apply andb_true_iff in E as [_ E]. apply Z.leb_le in E.
  unfold sub, blen in *. rewrite drop_app_length' by (rewrite length_take; lia).
  by rewrite Nat2Z.id, take_app_length.
Qed.

Lemma sub_mwrite_before m o d m' a n : 0 <= a -> 0 <= n -> a + n <= o ->
  mwrite m o d = Some m' -> sub m' a n = sub m a n.
Proof.
  intros Ha Hn Ho Hw. unfold mwrite in Hw. case_match eqn:E; [|done]. simplify_eq.
  apply andb_true_iff in E as [_ E]. apply Z.leb_le in E.
  rewrite <- (take_drop (Z.to_nat o) m) at 3. unfold sub, blen in *.
  rewrite !drop_app_le by (rewrite length_take; lia).
  by rewrite !take_app_le by (rewrite length_drop, length_take; lia).
Qed.

Lemma sub_all m : sub m 0 (blen m) = m.
Proof. unfold sub, blen. by rewrite Nat2Z.id, take_ge. Qed.

Lemma mwrite_ok m o d : 0 <= o -> o + blen d <= blen m ->
  exists m', mwrite m o d = Some m' /\ blen m' = blen m /\ sub m' o (blen d) = d /\
    (forall a n, 0 <= a -> 0 <= n -> a + n <= o -> sub m' a n = sub m a n).
Proof.
  intros Ho Hd. destruct (mwrite m o d) as [m'|] eqn:E; [|by rewrite mwrite_Some in E].
  exists m'. split; [done|]. split; [by eapply mwrite_blen|]. split; [by eapply sub_mwrite|].
  intros. by eapply sub_mwrite_before.
Qed.

(** ** The steps of the look-ahead *)

Section Steps.
Context {U : Type} `{UpstreamLaws U} (junk : Z -> Z).
Implicit Types f : archive_read_filter U.

Lemma blen_window f : valid f -> blen (window f) = avail f.
Proof. intros [_ _ (H1 & H2 & H3) _ _]. by apply blen_sub. Qed.

Lemma client_bounds f : valid f -> 0 <= client_avail f <= client_total f.
Proof. intros [_ _ _ Hc _]. destruct (client_next f); lia. Qed.

Lemma blen_unread f : valid f -> blen (unread f) = client_avail f.
Proof.
  intros [_ _ _ Hc _]. unfold unread. destruct (client_next f); [apply blen_sub; lia|].
  change (blen []) with 0. lia.
Qed.

Lemma blen_stream f : valid f ->
  blen (stream f) = avail f + client_avail f + blen (rest (data f)).
Proof.
  intros Hv. unfold stream. rewrite !blen_app, blen_window, blen_unread by done. lia.
Qed.

(** Moving the copy buffer keeps the window. *)
Lemma set_copy_ok f b n : valid f -> 0 <= n -> n + avail f <= blen b ->
  sub b n (avail f) = window f ->
  valid (set_copy f b n (avail f)) /\ stream (set_copy f b n (avail f)) = stream f.
Proof.
  intros [Hg He (H1 & H2 & H3) Hc Ht] Hn Hb Hw. split.
  - split; try done. cbn. intros p k Hp Hk Ho. rewrite <- (Ht p k) by done.
    by apply sub_tail.
  - unfold stream. f_equal. by unfold window at 1; cbn.
Qed.

Lemma move_forward_ok f min : valid f -> exists b n,
  move_forward f min = Some (set_copy f b n (avail f)) /\ 0 <= n /\ n + avail f <= blen b /\
  sub b n (avail f) = window f /\ blen b = blen (buffer f) /\ (n = 0 \/ n + min <= blen b).
Proof.
  intros [Hg He (H1 & H2 & H3) Hc Ht]. unfold move_forward.
  destruct (Z.ltb_spec 0 (next f)), (Z.ltb_spec (blen (buffer f)) (next f + min)); cbn [andb];
    try (exists (buffer f), (next f); destruct f; repeat split; cbn in *; try done; lia).
  destruct (Z.ltb_spec 0 (avail f)).
  - rewrite sub_mread by done. cbn [mbind option_bind]. fold (window f).
    assert (blen (window f) = avail f) as Hl by by apply blen_sub.
    destruct (mwrite_ok (buffer f) 0 (window f)) as (b & -> & Hb & Hw & _); [lia..|].
    cbn [mbind option_bind]. rewrite Hl in Hw. exists b, 0. repeat split; [lia..|done|done|lia].
  - exists (buffer f), 0. repeat split; try lia. unfold window.
    by replace (avail f) with 0 by lia.
Qed.

Lemma double_size_ok fuel s min : 0 < s -> 0 < min < 2 ^ 62 ->
  min <= s * 2 ^ Z.of_nat fuel ->
  exists s', double_size (Datatypes.S fuel) s s min = Some s' /\ min <= s'.
Proof.
  intros Hs Hmin. revert s Hs. induction fuel as [|fuel IH]; intros s Hs Hf.
  - exists s. cbn -[u64]. destruct (Z.ltb_spec s min); [lia|done].
  - remember (Datatypes.S fuel) as k eqn:Ek. cbn [double_size]. subst k.
    destruct (Z.ltb_spec s min); [|by eexists].
    assert (u64 (s * 2) = s * 2) as -> by (apply u64_small; unfold is_u64; lia).
    destruct (Z.leb_spec (s * 2) s); [lia|]. apply IH; [lia|].
    rewrite Nat2Z.inj_succ, Z.pow_succ_r in Hf by lia. lia.
Qed.

Lemma enlarged_ok size min : 0 <= size -> 0 < min < 2 ^ 62 ->
  exists s, enlarged size min = Some s /\ min <= s.
Proof.
  intros Hs Hm. unfold enlarged. destruct (Z.eqb_spec size 0).
  - exists min. cbn -[u64]. destruct (Z.ltb_spec min min); [lia|done].
  - apply (double_size_ok 64); [lia|done|].
    assert (2 ^ 62 <= 2 ^ Z.of_nat 64) by done.
    assert (1 * 2 ^ Z.of_nat 64 <= size * 2 ^ Z.of_nat 64); [|lia].
    apply Z.mul_le_mono_nonneg_r; lia.
Qed.

Lemma blen_realloc n : 0 <= n -> blen (Util.realloc junk [] n) = n.
Proof.
  intros. unfold Util.realloc, blen. rewrite length_app, length_take, length_map, length_seq.
  cbn [length]. lia.
Qed.

Lemma double_size_ge fuel s t min s' : double_size fuel s t min = Some s' -> min <= s'.
Proof.
  revert s t. induction fuel as [|fuel IH]; intros s t; cbn [double_size]; [done|].
  destruct (Z.ltb_spec s min); [|intros; by simplify_eq]. by destruct (_ <=? _); [|apply IH].
Qed.

(** A request from 2^62 on may be refused. *)
Lemma enlarged_any size min : 0 <= size -> 0 < min ->
  (enlarged size min = None /\ 2 ^ 62 <= min) \/ exists s, enlarged size min = Some s /\ min <= s.
Proof.
  intros Hs Hm. destruct (Z.ltb_spec min (2 ^ 62)).
  - right. by apply enlarged_ok.
  - destruct (enlarged size min) as [s|] eqn:E; [right|by left]. exists s. split; [done|].
    by eapply double_size_ge.
Qed.

Lemma ensure_ok f min : valid f -> 0 < min ->
  (next f = 0 \/ next f + min <= blen (buffer f)) ->
  (ensure junk f min = Some None /\ 2 ^ 62 <= min) \/ exists b n,
  ensure junk f min = Some (Some (set_copy f b n (avail f))) /\ 0 <= n /\ n + min <= blen b /\
  (avail f <= min -> n + avail f <= blen b /\ sub b n (avail f) = window f).
Proof.
  intros [Hg He (H1 & H2 & H3) Hc Ht] Hmin Hn. unfold ensure.
  destruct (Z.ltb_spec (blen (buffer f)) min) as [Hlt|Hlt]; last first.
  { right. exists (buffer f), (next f). destruct f; repeat split; cbn in *; try done; lia. }
  destruct (enlarged_any (blen (buffer f)) min) as [[-> Hbig]|(s & -> & Hs)]; [lia..|by left|right].
  pose proof (blen_realloc s ltac:(lia)) as Hr.
  destruct (Z.ltb_spec 0 (avail f)).
  - rewrite sub_mread by done. cbn [mbind option_bind]. fold (window f).
    assert (blen (window f) = avail f) as Hl by by apply blen_sub.
    destruct (mwrite_ok (Util.realloc junk [] s) 0 (window f)) as (b & -> & Hb & Hw & _); [lia..|].
    cbn [mbind option_bind]. rewrite Hl in Hw. exists b, 0. repeat split; [lia..|done].
  - exists (Util.realloc junk [] s), 0. repeat split; try lia. unfold window.
    by replace (avail f) with 0 by lia.
Qed.

Lemma copy_client_ok f min : valid f -> 0 < client_avail f -> 0 <= min - avail f ->
  next f + min <= blen (buffer f) -> avail f < min ->
  exists f', copy_client f min = Some f' /\ valid f' /\ stream f' = stream f /\
  data f' = data f /\ position f' = position f /\ fatal f' = fatal f /\
  0 <= client_avail f' < client_avail f.
Proof.
  intros [Hg He (H1 & H2 & H3) Hc Ht] Hca Hmin Hfit Hav. unfold copy_client.
  set (n := tocopy f min). assert (0 < n <= client_avail f /\ n <= min - avail f) as Hn.
  { unfold n, tocopy. repeat case_match; lia. }
  clearbody n.
  destruct (client_next f) as [p|] eqn:Ep; [|lia]. cbn [mbind option_bind].
  rewrite sub_mread by lia. cbn [mbind option_bind].
  assert (blen (sub (obj p) (off p) n) = n) as Hl by (apply blen_sub; lia).
  destruct (mwrite_ok (buffer f) (next f + avail f) (sub (obj p) (off p) n))
    as (b & -> & Hb & Hw & Hbefore); [lia..|]. cbn [mbind option_bind].
  rewrite Hl in Hw. eexists. split; [done|]. cbn.
  assert (sub b (next f) (avail f) = sub (buffer f) (next f) (avail f)) as Hwin by (apply Hbefore; lia).
  split_and!; try done; try lia.
  - split; cbn; try done; [lia..|]. intros q k Hq Hk Hko. simplify_eq. cbn in *.
    destruct (decide (k <= n)).
    + replace (next f + (avail f + n) - k) with ((next f + avail f) + n - k) by lia.
      by apply sub_tail; try lia.
    + set (j := k - n). replace k with (j + n) by lia.
      rewrite !sub_split by lia.
      replace (next f + (avail f + n) - (j + n)) with (next f + avail f - j) by lia.
      replace (off p + n - (j + n)) with (off p - j) by lia.
      replace (next f + avail f - j + j) with (next f + avail f) by lia.
      replace (off p - j + j) with (off p) by lia. rewrite Hw. f_equal.
      rewrite Hbefore by lia. apply Ht; [done|lia..].
  - unfold stream, window, unread. cbn. rewrite Ep, sub_split, Hwin, Hw by lia.
    rewrite <- app_assoc. f_equal. rewrite app_assoc. f_equal.
    rewrite <- sub_split by lia. f_equal. lia.
Qed.

Lemma roll_back_ok f : valid f -> client_avail f + avail f <= client_total f ->
  valid (roll_back f) /\ stream (roll_back f) = stream f /\
  (avail f = 0 -> client_next f = None -> unread f = []) /\
  (forall p, client_next (roll_back f) = Some p ->
     mread (obj p) (off p) (client_avail (roll_back f)) = Some (window f ++ unread f)) /\
  blen (window f ++ unread f) = client_avail (roll_back f).
Proof.
  intros Hv Hle. pose proof (blen_window f Hv) as Hlw. pose proof (blen_unread f Hv) as Hlu.
  destruct Hv as [Hg He (H1 & H2 & H3) Hc Ht].
  assert (forall q, client_next f = Some q ->
    sub (obj q) (off q - avail f) (client_avail f + avail f) = window f ++ unread f) as Hroll.
  { intros q Hq. rewrite Hq in Hc. rewrite Z.add_comm, sub_split by lia.
    unfold window, unread. rewrite Hq. rewrite <- (Ht q (avail f)) by (done || lia).
    f_equal; f_equal; lia. }
  unfold roll_back. split_and!.
  - split; cbn; try done; [pose proof (blen_nonneg (buffer f)); lia| |].
    + destruct (client_next f); cbn; lia.
    + intros p k _ Hk _. replace k with 0 by lia. done.
  - unfold stream. cbn. rewrite !app_assoc. f_equal. unfold window at 1, unread at 1. cbn.
    destruct (client_next f) as [q|] eqn:Hq; cbn.
    + by apply Hroll.
    + unfold window, unread. rewrite Hq. replace (avail f) with 0 by lia. done.
  - intros _ Hn. unfold unread. by rewrite Hn.
  - cbn. intros p Hp. destruct (client_next f) as [q|] eqn:Hq; [|done]. cbn in Hp. simplify_eq.
    cbn. rewrite sub_mread by lia. f_equal. by apply Hroll.
  - rewrite blen_app, Hlw, Hlu. cbn. lia.
Qed.

(** A longer look-ahead from a filter with the same stream. *)
Lemma ahead_post_trans f g min r : stream g = stream f -> position g = position f ->
  fatal g = fatal f -> (clean (data f) -> clean (data g)) -> ahead_post g min r -> ahead_post f min r.
Proof.
  intros Es Ep Ef Ec. destruct r as [[o a] f']. unfold ahead_post. rewrite Es, Ep, Ef.
  intros (Hv & Hp & Hc & Hr). split_and!; [done|done|by eauto|].
  destruct o as [w|]; [done|]. destruct Hr as [(? & ? & Hn)|?]; [left|by right].
  split_and!; [done..|]. by eauto.
Qed.

(** Both answers from what is at hand. *)
Lemma ahead_window f min : valid f -> min <= avail f ->
  exists r, (w ← mread (buffer f) (next f) (avail f); Some (Some w, avail f, f)) = Some r /\
  ahead_post f min r.
Proof.
  intros Hv Hm. pose proof (v_copy f Hv) as (H1 & H2 & H3).
  rewrite sub_mread by done. eexists. split; [done|]. unfold ahead_post. split_and!; try done.
  - symmetry. by apply blen_window.
  - by exists (unread f ++ rest (data f)).
Qed.

Lemma ahead_roll_back f min : valid f -> 0 <= min <= client_avail f + avail f ->
  client_avail f + avail f <= client_total f ->
  exists r, match client_next (roll_back f) with
  | Some p => w ← mread (obj p) (off p) (client_avail (roll_back f));
              Some (Some w, client_avail (roll_back f), roll_back f)
  | None => Some (None, client_avail (roll_back f), roll_back f)
  end = Some r /\ ahead_post f min r.
Proof.
  intros Hv Hm Hr. pose proof (v_copy f Hv) as (H1 & H2 & H3).
  destruct (roll_back_ok f Hv Hr) as (Hv' & Hs & Hnil & Hread & Hlen).
  destruct (client_next (roll_back f)) as [p|] eqn:Ep.
  - rewrite (Hread p eq_refl). eexists. split; [done|]. unfold ahead_post.
    split_and!; try done; [cbn; lia|]. exists (rest (data f)). unfold stream. by rewrite app_assoc.
  - eexists. split; [done|]. unfold ahead_post. split_and!; try done. right.
    split_and!; try done. left. pose proof (v_client _ Hv') as Hvc. rewrite Ep in Hvc.
    cbn in Hvc. lia.
Qed.

(** Nothing at hand but the copy buffer: a block is read. *)
Lemma read_block_ok f : valid f -> client_avail f = 0 -> end_of_file f = false ->
  let '(r, b, s) := fread (data f) in
  (clean (data f) -> clean s /\ 0 <= r) /\ good s /\
  (r < 0 -> valid (set_fatal (set_client (set_data f s) None 0 0))) /\
  (r = 0 -> valid (set_eof (set_client (set_data f s) None 0 0)) /\ blen (stream f) = avail f /\
            stream (set_eof (set_client (set_data f s) None 0 0)) = stream f) /\
  (0 < r -> let g := set_client (set_data f s) (Some (Ptr b 0)) r r in
            valid g /\ stream g = stream f /\ blen (rest (data f)) = r + blen (rest s)).
Proof.
  intros Hv Hc He. pose proof (blen_stream f Hv) as Hls. pose proof (blen_unread f Hv) as Hlu.
  rewrite Hc in Hlu. destruct (unread f) as [|x l] eqn:Eu; [clear Hlu|rewrite blen_cons in Hlu;
    pose proof (blen_nonneg l); lia].
  destruct Hv as [Hg Hee Hcp Hcl Ht].
  pose proof (fread_law (data f) Hg) as Hlaw. destruct (fread (data f)) as [[r b] s].
  destruct Hlaw as [Hgs Hlaw]. split; [|split; [done|]].
  { intros Hcn. destruct Hlaw as [(_ & Hn)|(Hr & _ & _ & Hcs)]; [done|]. split; [by apply Hcs|lia]. }
  split_and!.
  - intros Hr. split; cbn; try done; congruence.
  - intros ->. destruct Hlaw as [Hlaw|(_ & Hrest & Hnil & _)]; [lia|].
    specialize (Hnil eq_refl). rewrite Hnil in Hrest. change (take (Z.to_nat 0) b) with (@nil Z) in Hrest.
    cbn [app] in Hrest. split_and!.
    + split; cbn; try done.
    + rewrite Hls, Hnil, Hc. change (blen []) with 0. lia.
    + unfold stream. cbn. rewrite Eu, Hnil, <- Hrest. done.
  - intros Hr. destruct Hlaw as [Hlaw|(Hrb & Hrest & _ & _)]; [lia|]. cbn. split_and!.
    + split; cbn; try done; [congruence|lia|]. intros p k Hp Hk Hko. simplify_eq. cbn in Hko.
      by replace k with 0 by lia.
    + unfold stream. rewrite Eu, Hrest. done.
    + rewrite Hrest, blen_app. f_equal. unfold blen in *. rewrite length_take. lia.
Qed.

Lemma copy_step_ok g min : valid g -> 0 < client_avail g -> avail g < min -> 0 < min ->
  (next g = 0 \/ next g + min <= blen (buffer g)) ->
  (ensure junk g min = Some None /\ 2 ^ 62 <= min) \/ exists h f', ensure junk g min = Some (Some h) /\ copy_client h min = Some f' /\ valid f' /\
  stream f' = stream g /\ data f' = data g /\ position f' = position g /\ fatal f' = fatal g /\
  0 <= client_avail f' < client_avail g.
Proof.
  intros Hv Hc Ha Hm Hn.
  destruct (ensure_ok g min Hv Hm Hn) as [?|(b & n & He & Hn0 & Hfit & Hwin)]; [by left|right].
  destruct Hwin as [Hb Hw]; [lia|]. destruct (set_copy_ok g b n Hv Hn0 Hb Hw) as [Hv' Hs'].
  destruct (copy_client_ok (set_copy g b n (avail g)) min Hv') as (f' & Hf & Hvf & Hsf & Hd & Hp & Hft & Hca);
    [done|cbn; lia|done|done|]. cbn in *.
  exists (set_copy g b n (avail g)), f'. split_and!; try done; try lia. congruence.
Qed.

Lemma set_fatal_ok f : valid f -> valid (set_fatal f).
Proof. intros [Hg He Hc Hcl Ht]. by split. Qed.

Lemma ahead_loop_ok fuel f min : valid f -> fatal f = false -> 0 <= min ->
  2 * blen (rest (data f)) + client_avail f < Z.of_nat fuel ->
  exists r, ahead_loop junk fuel f min = Some r /\ ahead_post f min r.
Proof.
  revert f. induction fuel as [|fuel IH]; intros f Hv Hft Hmin Hfuel.
  { pose proof (blen_nonneg (rest (data f))). pose proof (client_bounds f Hv). lia. }
  pose proof (client_bounds f Hv) as Hcb. pose proof (v_copy f Hv) as (_ & Ha & _).
  cbn [ahead_loop]. destruct ((min <=? avail f) && (0 <? avail f)) eqn:E1.
  { apply ahead_window; [done|]. apply andb_true_iff in E1 as [E1 _]. lia. }
  destruct ((client_avail f + avail f <=? client_total f) && (min <=? client_avail f + avail f)) eqn:E2.
  { apply andb_true_iff in E2 as [E2 E3]. apply ahead_roll_back; [done|lia..]. }
  apply andb_false_iff in E1, E2.
  assert (0 < min /\ avail f < min) as [Hmin0 Ham] by lia.
  destruct (move_forward_ok f min Hv) as (b & n & -> & Hn & Hnb & Hw & _ & Hfit).
  cbn [mbind option_bind]. destruct (set_copy_ok f b n Hv Hn Hnb Hw) as [Hvg Hsg].
  assert (avail (set_copy f b n (avail f)) = avail f) as Hag by done.
  remember (set_copy f b n (avail f)) as g eqn:Eg.
  assert (data g = data f /\ position g = position f /\ fatal g = fatal f /\
    client_avail g = client_avail f /\ next g = n /\ buffer g = b) as (Hdg & Hpg & Hfg & Hcg & Hng & Hbg)
    by by subst g.
  assert (forall r, ahead_post g min r -> ahead_post f min r) as Hpost.
  { intros r. apply ahead_post_trans; [done..|by rewrite Hdg]. }
  destruct (Z.leb_spec (client_avail g) 0) as [Hc|Hc].
  - pose proof (blen_stream g Hvg) as Hls. destruct (end_of_file g) eqn:Ee.
    + eexists. split; [done|]. apply Hpost. unfold ahead_post. split_and!; try done. right.
      split_and!; try done. right. rewrite (v_eof g Hvg Ee ltac:(congruence)) in Hls.
      change (blen []) with 0 in Hls. lia.
    + pose proof (read_block_ok g Hvg ltac:(lia) Ee) as Hb. destruct (fread (data g)) as [[r blk] s].
      destruct Hb as (Hcl & Hgs & Hneg & Hzero & Hposi).
      destruct (Z.ltb_spec r 0) as [Hr|Hr].
      { eexists. split; [done|]. apply Hpost. unfold ahead_post. split_and!; [by apply Hneg|done|..].
        - intros Hx. apply Hcl in Hx as [_ Hx]. lia.
        - left. split_and!; [done..|]. intros Hx. apply Hcl in Hx as [_ Hx]. lia. }
      destruct (Z.eqb_spec r 0) as [Hr0|Hr0].
      { destruct (Hzero Hr0) as (Hv' & Hl & Hs'). eexists. split; [done|]. apply Hpost.
        unfold ahead_post. split_and!; [done|done|by intros ?; apply Hcl|]. right.
        split_and!; [done..|]. right. cbn. lia. }
      destruct (Hposi ltac:(lia)) as (Hv' & Hs' & Hlr).
      destruct (IH _ Hv') as (res & Hres & Hp); [cbn; congruence|done|..].
      { cbn. rewrite Hdg in Hlr. lia. }
      exists res. split; [done|]. apply Hpost. eapply ahead_post_trans, Hp; [done..|].
      intros Hx. by apply Hcl.
  - destruct (copy_step_ok g min Hvg Hc ltac:(lia) ltac:(lia))
      as [[He Hbig]|(h & f' & He & Hf' & Hv' & Hs' & Hd' & Hp' & Hft' & Hca')]; [by rewrite Hng, Hbg| |].
    { rewrite He. cbn [mbind option_bind]. eexists. split; [done|]. apply Hpost.
      split_and!; [by apply set_fatal_ok|done..|]. left. by split_and!. }
    rewrite He. cbn [mbind option_bind]. rewrite Hf'. cbn [mbind option_bind].
    destruct (IH f' Hv') as (res & Hres & Hp); [congruence|done|rewrite Hd', Hdg; lia|].
    exists res. split; [done|]. apply Hpost. eapply ahead_post_trans, Hp; [done..|by rewrite Hd'].
Qed.

Lemma ahead_fuel_ok f : valid f -> 2 * blen (rest (data f)) + client_avail f < Z.of_nat (ahead_fuel f).
Proof. intros Hv. pose proof (client_bounds f Hv). unfold ahead_fuel, blen. lia. Qed.

(** ** The steps of consuming *)

Lemma drop_stream_window f m : valid f -> 0 <= m <= avail f ->
  drop (Z.to_nat m) (stream f) =
  sub (buffer f) (next f + m) (avail f - m) ++ unread f ++ rest (data f).
Proof.
  intros Hv Hm. pose proof (v_copy f Hv) as (H1 & H2 & H3). unfold stream, window.
  replace (avail f) with (m + (avail f - m)) at 1 by lia. rewrite sub_split by lia.
  rewrite <- app_assoc. apply drop_app_length'.
  pose proof (blen_sub (buffer f) (next f) m). unfold blen in *. lia.
Qed.

Lemma use_copy_ok f n : valid f -> 0 <= n ->
  exists f', use_copy f n = (Z.min n (avail f), f') /\ valid f' /\
  stream f' = drop (Z.to_nat (Z.min n (avail f))) (stream f) /\
  position f' = position f + Z.min n (avail f) /\ fatal f' = fatal f /\ data f' = data f /\
  avail f' = avail f - Z.min n (avail f) /\ client_avail f' = client_avail f.
Proof.
  intros Hv Hn. pose proof Hv as [Hg He (H1 & H2 & H3) Hc Ht]. unfold use_copy.
  destruct (Z.ltb_spec 0 (avail f)) as [Ha|Ha]; last first.
  { exists f. replace (Z.min n (avail f)) with 0 by lia. change (Z.to_nat 0) with O.
    rewrite drop_0. split_and!; try done; lia. }
  eexists. split; [done|]. split_and!; try done; try (cbn; lia).
  - split; cbn; try done; [lia|]. intros p k Hp Hk Hko. rewrite <- (Ht p k) by (done || lia).
    f_equal. lia.
  - rewrite drop_stream_window by (done || lia). done.
Qed.

Lemma use_client_ok f n : valid f -> 0 <= n -> avail f = 0 \/ n = 0 ->
  exists f', use_client f n = (Z.min n (client_avail f), f') /\ valid f' /\
  stream f' = drop (Z.to_nat (Z.min n (client_avail f))) (stream f) /\
  position f' = position f + Z.min n (client_avail f) /\ fatal f' = fatal f /\ data f' = data f /\
  avail f' = avail f /\ client_avail f' = client_avail f - Z.min n (client_avail f).
Proof.
  intros Hv Hn Hor. pose proof (client_bounds f Hv) as Hcb. unfold use_client.
  destruct (Z.ltb_spec 0 (client_avail f)) as [Ha|Ha]; last first.
  { exists f. replace (Z.min n (client_avail f)) with 0 by lia. change (Z.to_nat 0) with O.
    rewrite drop_0. split_and!; try done; lia. }
  pose proof Hv as [Hg He (H1 & H2 & H3) Hc Ht].
  destruct (client_next f) as [p|] eqn:Ep; [|lia]. cbn [fmap option_fmap option_map].
  set (m := Z.min n (client_avail f)). assert (0 <= m <= client_avail f) as Hm by lia.
  assert (avail f = 0 \/ m = 0) as Hor' by lia. clearbody m.
  eexists. split; [done|]. split_and!; try done.
  - split; cbn; try done; [lia|]. intros q k Hq Hk Hko. simplify_eq. cbn in *.
    destruct (decide (k = 0)) as [->|]; [done|]. destruct Hor' as [Hx| ->]; [lia|].
    rewrite Z.add_0_r in *. by apply Ht.
  - unfold stream, window, unread. cbn. rewrite Ep.
    replace (client_avail f) with (m + (client_avail f - m)) at 2 by lia.
    rewrite sub_split, <- app_assoc by lia.
    assert (length (sub (obj p) (off p) m) = Z.to_nat m) as Hl
      by (pose proof (blen_sub (obj p) (off p) m); unfold blen in *; lia).
    destruct Hor' as [Hx| ->].
    + rewrite Hx. rewrite !sub_0. cbn [app]. by rewrite drop_app_length'.
    + change (Z.to_nat 0) with O. rewrite drop_0, sub_0, Z.add_0_r, Z.sub_0_r. done.
Qed.

(** Skipping by reading, from empty buffers. *)
Lemma advance_loop_ok fuel f n t : valid f -> avail f = 0 -> client_avail f = 0 -> 0 < n -> 0 <= t ->
  blen (rest (data f)) < Z.of_nat fuel ->
  exists r f', advance_loop fuel f n t = Some (r, f') /\ valid f' /\
  (clean (data f) -> clean (data f')) /\
  (r = t + n /\ n <= blen (rest (data f)) /\ stream f' = drop (Z.to_nat n) (rest (data f)) /\
   position f' = position f + n /\ fatal f' = fatal f \/
   r < t + n /\ (fatal f' = true /\ ~ clean (data f) \/
     fatal f' = fatal f /\ blen (rest (data f)) < n /\ stream f' = [])).
Proof.
  revert f n t. induction fuel as [|fuel IH]; intros f n t Hv Ha Hca Hn Ht Hfuel.
  { pose proof (blen_nonneg (rest (data f))). lia. }
  pose proof Hv as [Hg He (H1 & H2 & H3) Hc Htl].
  cbn [advance_loop]. pose proof (fread_law (data f) Hg) as Hlaw.
  destruct (fread (data f)) as [[r b] s]. destruct Hlaw as [Hgs Hlaw].
  destruct (Z.ltb_spec r 0) as [Hr|Hr].
  { destruct Hlaw as [[_ Hcl]|]; [|lia]. do 2 eexists. split; [done|]. split; [by split|].
    split; [by intros ?|]. right. split; [lia|]. by left. }
  destruct Hlaw as [|(Hrb & Hrest & Hnil & Hcs)]; [lia|].
  assert (blen (rest (data f)) = r + blen (rest s)) as Hlr.
  { rewrite Hrest, blen_app. f_equal. unfold blen in *. rewrite length_take. lia. }
  assert (forall g : archive_read_filter U, avail g = 0 -> client_avail g = 0 -> stream g = rest (data g)) as Hempty.
  { intros g Hx Hy. unfold stream, window, unread. rewrite Hx, Hy, !sub_0.
    by destruct (client_next g). }
  destruct (Z.eqb_spec r 0) as [Hr0|Hr0].
  { do 2 eexists. split; [done|]. assert (rest s = []) as Hs.
    { specialize (Hnil Hr0). rewrite Hnil in Hlr. change (blen []) with 0 in Hlr.
      destruct (rest s); [done|]. rewrite blen_cons in Hlr. pose proof (blen_nonneg l). lia. }
    split; [by split|]. split; [done|]. right. split; [lia|]. right. split; [done|].
    split; [rewrite Hlr, Hs; change (blen []) with 0; lia|].
    by rewrite Hempty. }
  destruct (Z.leb_spec n r) as [Hnr|Hnr].
  { do 2 eexists. split; [done|]. split_and!; [|done|left; split_and!; try done; [pose proof (blen_nonneg (rest s)); lia|]].
    - split; cbn; try done; [|lia|].
      + intros Hx Hy. specialize (He Hx Hy). rewrite He in Hrest. symmetry in Hrest.
        by apply app_nil in Hrest as [_ ?].
      + intros p k Hp Hk _. by replace k with 0 by lia.
    - unfold stream, window, unread. cbn. rewrite Ha, sub_0. cbn [app]. rewrite Hrest.
      replace r with (n + (r - n)) at 2 by lia.
      change (take (Z.to_nat (n + (r - n))) b) with (sub b 0 (n + (r - n))).
      rewrite sub_split, <- app_assoc by lia.
      assert (length (sub b 0 n) = Z.to_nat n) as Hl by (pose proof (blen_sub b 0 n); unfold blen in *; lia).
      by rewrite drop_app_length'. }
  destruct (IH (set_position (set_data f s) (position f + r)) (n - r) (t + r)) as (x & f' & Hx & Hv' & Hcl & Hpost);
    try (done || cbn; lia).
  { split; cbn; try done. intros Hx Hy. specialize (He Hx Hy). rewrite He in Hrest.
    symmetry in Hrest.
    by apply app_nil in Hrest as [_ ?]. }
  exists x, f'. split; [done|]. split; [done|]. cbn in Hcl, Hpost. split; [by eauto|].
  destruct Hpost as [(-> & Hl & Hs & Hp & Hft)|(Hlt & Hor)].
  - left. split_and!; [lia|lia| |lia|done]. rewrite Hs, Hrest.
    rewrite drop_app_ge by (rewrite length_take; lia). f_equal. rewrite length_take.
    unfold blen in *. lia.
  - right. split; [lia|]. destruct Hor as [[Hft Hn']|(? & ? & ?)]; [left; split; [done|by eauto]|right].
    split_and!; [done|lia|done].
Qed.

Lemma advanced_trans f g c n total r f' : 0 <= c <= blen (stream f) -> 0 <= n - c ->
  stream g = drop (Z.to_nat c) (stream f) -> position g = position f + c -> fatal g = fatal f ->
  (clean (data f) -> clean (data g)) -> advanced g (n - c) total r f' -> advanced f n total r f'.
Proof.
  intros Hc Hn Hs Hp Hf Hcl (Hv & Hcl' & Hor). split; [done|]. split; [by eauto|].
  assert (blen (stream g) = blen (stream f) - c) as Hl
    by (rewrite Hs; unfold blen in *; rewrite length_drop; lia).
  destruct Hor as [(-> & Hl' & Hs' & Hp' & Hf')|(Hlt & Hor)].
  - left. split_and!; [done|lia| |lia|congruence]. rewrite Hs', Hs, drop_drop. f_equal. lia.
  - right. split; [done|]. destruct Hor as [[Hx Hy]|(Hx & Hy & Hz)]; [left|right].
    + split; [done|]. by eauto.
    + split_and!; [congruence|lia|done].
Qed.

Lemma advanced_all f total : valid f -> advanced f 0 total total f.
Proof.
  intros Hv. split; [done|]. split; [done|]. left. pose proof (blen_nonneg (stream f)).
  change (Z.to_nat 0) with O. rewrite drop_0. split_and!; [done|lia|done|lia|done].
Qed.

Lemma stream_rest f : avail f = 0 -> client_avail f = 0 -> stream f = rest (data f).
Proof.
  intros Ha Hc. unfold stream, window, unread. rewrite Ha, Hc, !sub_0. by destruct (client_next f).
Qed.

Lemma advance_loop_total f n t total : valid f -> avail f = 0 -> client_avail f = 0 -> 0 < n -> 0 <= t ->
  total = t + n ->
  exists r f', advance_loop (length (rest (data f)) + 1) f n t = Some (r, f') /\ advanced f n total r f'.
Proof.
  intros Hv Ha Hc Hn Ht ->. unfold advanced. rewrite stream_rest by done.
  apply advance_loop_ok; try done. unfold blen. lia.
Qed.

(** The optional skip of the layer below. *)
Lemma skip_ok f skip n : valid f -> avail f = 0 -> client_avail f = 0 -> 0 < n -> fskip = Some skip ->
  exists r u, skip (data f) n = Some (r, u) /\
  (r < 0 /\ advanced f n n r (set_fatal (set_data f u)) \/
   0 <= r <= n /\ r <= blen (stream f) /\ (clean (data f) -> clean u) /\
   let g := set_position (set_data f u) (position f + r) in
   valid g /\ stream g = drop (Z.to_nat r) (stream f)).
Proof.
  intros Hv Ha Hc Hn Hsk.
  destruct (fskip_law skip (data f) n Hsk (v_good _ Hv) Hn) as (r & u & Hr & Hg & Hor).
  exists r, u. split; [done|]. destruct Hv. destruct Hor as [[Hneg Hcl]|(Hrn & Hle & Hrest & Hcl)].
  - left. split; [done|]. split; [by split|]. split; [by intros ?|]. right. split; [lia|]. by left.
  - right. rewrite (stream_rest f) by done. split_and!; try done; try lia. split.
    + split; [exact Hg| |done|done|done]. cbn. intros Hx Hy. rewrite Hrest, v_eof0 by done. apply drop_nil.
    + by rewrite stream_rest.
Qed.

Lemma use_buffers_ok f n : valid f -> 0 < n -> exists m k f1 f2,
  use_copy f n = (m, f1) /\ use_client f1 (n - m) = (k, f2) /\ valid f2 /\
  0 <= m + k <= blen (stream f) /\ m + k <= n /\ stream f2 = drop (Z.to_nat (m + k)) (stream f) /\
  position f2 = position f + (m + k) /\ fatal f2 = fatal f /\ data f2 = data f /\
  (m + k = n \/ avail f2 = 0 /\ client_avail f2 = 0).
Proof.
  intros Hv Hn. pose proof (v_copy f Hv) as (_ & Ha & _). pose proof (blen_stream f Hv) as Hls.
  pose proof (blen_nonneg (rest (data f))). pose proof (client_bounds f Hv).
  destruct (use_copy_ok f n Hv ltac:(lia)) as (f1 & E1 & Hv1 & Hs1 & Hp1 & Hf1 & Hd1 & Ha1 & Hc1).
  destruct (use_client_ok f1 (n - Z.min n (avail f)) Hv1 ltac:(lia) ltac:(lia))
    as (f2 & E2 & Hv2 & Hs2 & Hp2 & Hf2 & Hd2 & Ha2 & Hc2).
  eexists _, _, f1, f2. split; [exact E1|]. split; [exact E2|].
  split_and!; [done|lia|lia|lia| |lia|congruence|congruence|lia].
  rewrite Hs2, Hs1, drop_drop. f_equal. lia.
Qed.

Lemma advance_file_pointer_ok f n : valid f -> fatal f = false -> 0 < n ->
  exists r f', advance_file_pointer f n = Some (r, f') /\ advanced f n n r f'.
Proof.
  intros Hv Hft Hn. unfold advance_file_pointer. rewrite Hft.
  destruct (use_buffers_ok f n Hv Hn)
    as (m & k & f1 & f2 & -> & -> & Hv2 & Hmk & Hle & Hs2 & Hp2 & Hf2 & Hd2 & Hempty).
  assert (forall total r f', advanced f2 (n - (m + k)) total r f' -> advanced f n total r f') as Hadv.
  { intros total r f'. eapply advanced_trans; try done; try lia. by rewrite Hd2. }
  destruct (Z.eqb_spec (n - (m + k)) 0) as [Hz|Hz].
  { exists (m + k), f2. split; [done|]. apply Hadv. rewrite Hz. replace n with (m + k) by lia.
    by apply advanced_all. }
  destruct Hempty as [|[Ha0 Hc0]]; [lia|]. destruct fskip as [skip|] eqn:Esk.
  - destruct (skip_ok f2 skip (n - (m + k)) Hv2 Ha0 Hc0 ltac:(lia) Esk) as (r & u & -> & Hr).
    cbn [mbind option_bind]. destruct (Z.ltb_spec r 0) as [Hneg|Hneg].
    { destruct Hr as [[_ Hr]|]; [|lia]. do 2 eexists. split; [done|]. apply Hadv.
      destruct Hr as (Hx & Hy & Hor). split; [done|]. split; [done|]. right.
      destruct Hor as [(? & ?)|(? & ?)]; [lia|]. split; [lia|done]. }
    destruct Hr as [[? _]|(Hr & Hrl & Hcl & Hv3 & Hs3)]; [lia|].
    set (f3 := set_position (set_data f2 u) (position f2 + r)) in *.
    assert (forall total x f', advanced f3 (n - (m + k) - r) total x f' -> advanced f n total x f') as Hadv3.
    { intros total x f' Hx. apply Hadv. eapply (advanced_trans f2 f3 r); try done; try lia. }
    destruct (Z.eqb_spec (n - (m + k) - r) 0) as [Hz'|Hz'].
    + do 2 eexists. split; [done|]. apply Hadv3. rewrite Hz'.
      replace n with (m + k + r) by lia. by apply advanced_all.
    + destruct (advance_loop_total f3 (n - (m + k) - r) (m + k + r) n Hv3 Ha0 Hc0)
        as (x & f' & Hx & Hpost); [lia..|]. exists x, f'. split; [exact Hx|]. by apply Hadv3.
  - destruct (advance_loop_total f2 (n - (m + k)) (m + k) n Hv2 Ha0 Hc0) as (x & f' & Hx & Hpost);
      [lia..|]. exists x, f'. split; [exact Hx|]. by apply Hadv.
Qed.

Lemma consume_ok f n : valid f -> fatal f = false -> 0 <= n ->
  exists r, archive_read_filter_consume f n = Some r /\ consume_post f n r.
Proof.
  intros Hv Hft Hn. unfold archive_read_filter_consume. destruct (Z.ltb_spec n 0); [lia|].
  destruct (Z.eqb_spec n 0) as [->|Hn0].
  { eexists. split; [done|]. destruct (advanced_all f 0 Hv) as (Hv' & Hc & Hor).
    split; [done|]. split; [done|]. destruct Hor as [(_ & Hor)|[? _]]; [by left|lia]. }
  destruct (advance_file_pointer_ok f n Hv Hft ltac:(lia)) as (r & f' & -> & Hv' & Hc & Hor).
  cbn [mbind option_bind]. destruct Hor as [(-> & Hor)|(Hlt & Hor)].
  - rewrite Z.eqb_refl. eexists. split; [done|]. split; [done|]. split; [done|]. by left.
  - destruct (Z.eqb_spec r n); [lia|]. eexists. split; [done|]. split; [done|]. split; [done|].
    right. done.
Qed.

Lemma ahead_ok f min : valid f -> fatal f = false -> 0 <= min ->
  exists r, archive_read_filter_ahead junk f min = Some r /\ ahead_post f min r.
Proof.
  intros Hv Hf Hm. unfold archive_read_filter_ahead. rewrite Hf.
  apply ahead_loop_ok; try done. by apply ahead_fuel_ok.
Qed.
End Steps.

(** ** The memory client *)

Lemma memory_read_ok m : good_memory m ->
  let '(r, b, m') := memory_read m in
  good_memory m' /\ 0 <= r <= blen b /\
  drop (Z.to_nat (p m)) (m_start m) = take (Z.to_nat r) b ++ drop (Z.to_nat (p m')) (m_start m') /\
  (r = 0 -> drop (Z.to_nat (p m)) (m_start m) = []).
Proof.
  intros [Hp Hr]. unfold memory_read. cbn.
  set (r := if read_size m <? blen (m_start m) - p m then read_size m else blen (m_start m) - p m).
  assert (0 <= r <= blen (m_start m) - p m /\ (r = 0 -> blen (m_start m) = p m)) as [Hrr H0]
    by (unfold r; destruct (Z.ltb_spec (read_size m) (blen (m_start m) - p m)); lia).
  clearbody r. split_and!.
  - split; cbn; [lia|done].
  - lia.
  - unfold blen in *. rewrite length_drop. lia.
  - rewrite Z2Nat.inj_add, <- drop_drop, take_drop by lia. done.
  - intros Hz. apply drop_ge. unfold blen in *. lia.
Qed.

Lemma skip_loop_ok fuel m n t : good_memory m -> 0 < n -> 0 <= t ->
  blen (m_start m) - p m < Z.of_nat fuel ->
  exists r, skip_loop fuel m n t = Some (t + r, MemoryData (m_start m) (p m + r) (read_size m)) /\
  0 <= r <= n /\ r <= blen (m_start m) - p m.
Proof.
  revert m n t. induction fuel as [|fuel IH]; intros m n t [Hp Hr] Hn Ht Hf; [lia|].
  cbn [skip_loop]. set (ask := if 2 ^ 30 <? n then 2 ^ 30 else n).
  assert (0 < ask <= n) as Hask by (unfold ask; destruct (Z.ltb_spec (2 ^ 30) n); lia). clearbody ask.
  unfold memory_read_skip. destruct (Z.eqb_spec (read_size m) 0); [lia|]. cbn [mbind option_bind].
  set (s := if blen (m_start m) - p m <? ask then blen (m_start m) - p m else ask).
  assert (0 <= s <= ask /\ s <= blen (m_start m) - p m) as Hs
    by (unfold s; destruct (Z.ltb_spec (blen (m_start m) - p m) ask); lia). clearbody s.
  assert (0 <= Z.quot s (read_size m) * read_size m <= s) as Hg.
  { rewrite Z.quot_div_nonneg by lia. pose proof (Z.mul_div_le s (read_size m)).
    pose proof (Z.div_pos s (read_size m)). nia. }
  set (g := Z.quot s (read_size m) * read_size m) in *. clearbody g.
  destruct (Z.eqb_spec g 0), (Z.eqb_spec g n); cbn [orb]; try (exists g; split; [done|lia]).
  destruct (Z.ltb_spec n g); [lia|].
  destruct (IH (MemoryData (m_start m) (p m + g) (read_size m)) (n - g) (t + g)) as (r & Hl & Hrr);
    try (cbn; lia); [split; cbn; lia|].
  rewrite Hl. cbn in *. exists (g + r). rewrite !Z.add_assoc. split; [done|lia].
Qed.

#[export] Instance memory_client_laws : UpstreamLaws read_memory_data.
Proof.
  refine {| good := good_memory; clean := fun _ => True |}.
  - intros m Hm. pose proof (memory_read_ok m Hm) as Hr.
    change (fread m) with (memory_read m).
    destruct (memory_read m) as [[r b] m']. destruct Hr as (Hg & Hb & Hs & Hn). split; [done|].
    right. done.
  - intros skip m n [= <-] Hm Hn. destruct Hm as [Hp Hr]. cbn. unfold client_skip_proxy.
    destruct (Z.eqb_spec n 0); [lia|].
    destruct (skip_loop_ok (length (m_start m) + 1) m n 0) as (r & -> & Hrr & Hl); [by split|lia..| |].
    { unfold blen. lia. }
    do 2 eexists. split; [done|]. split; [split; cbn; lia|]. right.
    split_and!; [lia|lia| | |done].
    + unfold blen in *. rewrite length_drop. lia.
    + cbn. rewrite drop_drop. f_equal. lia.
Defined.

Lemma new_filter_valid {U} `{UpstreamLaws U} (u : U) : good u -> valid (new_filter u).
Proof. intros Hu. split; cbn; try done; change (blen []) with 0; lia. Qed.

Lemma new_filter_stream {U} `{Upstream U} (u : U) : stream (new_filter u) = rest u.
Proof. done. Qed.

(** C19. The two buffers of a filter stand for one sequence of bytes.  Whatever
    the layer below and the size of its blocks, as long as it reports no error
    a client that looks ahead and consumes in any order sees what it would see
    on the sequence itself: look-ahead shows the next bytes or NULL when there
    are fewer, consuming drops exactly the bytes asked for or reports a
    truncated file.  Every call returns: the loops that refill the buffers
    end, and no copy leaves a buffer. *)
Theorem readahead_refines {U} `{UpstreamLaws U} (junk : Z -> Z) (f : archive_read_filter U)
    (ops : list (Z * Z)) :
  valid f -> fatal f = false -> clean (data f) ->
  Forall (fun op => 0 < op.1 < 2 ^ 62 /\ 0 <= op.2) ops ->
  run junk f ops = Some (run_bytes (stream f) ops).
Proof.
  intros Hv Hf Hc Hops. revert f Hv Hf Hc.
  induction Hops as [|[min n] ops [Hmin Hn] Hops IH]; intros f Hv Hf Hc; [done|]. cbn in Hmin, Hn.
  destruct (ahead_ok junk f min Hv Hf ltac:(lia)) as ([[o a] g] & Ha & Hvg & _ & Hcg & Hpost).
  cbn [run]. rewrite Ha. cbn [mbind option_bind fst snd]. specialize (Hcg Hc).
  assert (take (Z.to_nat min) <$> o = (if min <=? blen (stream f) then Some (take (Z.to_nat min) (stream f)) else None)
    /\ stream g = stream f /\ fatal g = false) as (Ho & Hs & Hfg).
  { destruct o as [w|].
    - destruct Hpost as (-> & Hm & (t & Ht) & Hs & Hfg). rewrite Hs, Hfg, Ht, blen_app.
      split_and!; [|done|done]. pose proof (blen_nonneg t). destruct (Z.leb_spec min (blen w + blen t)); [|lia].
      cbn. f_equal. rewrite take_app_le by (unfold blen in *; lia). done.
    - destruct Hpost as [(_ & _ & Hx)|(Hfg & Hs & [?|[_ Hl]])]; [specialize (Hx Hc); lia|lia|].
      rewrite Hs, Hfg. split_and!; [|done|done]. destruct (Z.leb_spec min (blen (stream f))); [lia|done]. }
  destruct (consume_ok g n Hvg Hfg Hn) as ([c h] & Hcons & Hvh & Hch & Hpost').
  rewrite Hcons. cbn [mbind option_bind fst snd]. specialize (Hch Hcg). rewrite Hs in Hpost'.
  assert (c = (if n <=? blen (stream f) then n else ARCHIVE_FATAL) /\ fatal h = false /\
    stream h = (if n <=? blen (stream f) then drop (Z.to_nat n) (stream f) else [])) as (-> & Hfh & Hsh).
  { destruct Hpost' as [(-> & Hl & Hsh & _ & Hfh)|(-> & [[_ Hx]|(Hfh & Hl & Hsh)])]; [|done|].
    - destruct (Z.leb_spec n (blen (stream f))); [|lia]. split_and!; [done|congruence|done].
    - destruct (Z.leb_spec n (blen (stream f))); [lia|]. split_and!; [done|congruence|done]. }
  rewrite IH by done. cbn. by rewrite Ho, Hsh.
Qed.

Lemma readahead_refines_witness :
  run (fun _ => 0) (new_filter (archive_read_open_memory2 (str "hello, world") 3))
    [(5, 4); (1, 3); (6, 2); (4, 5)]
  = Some [(Some (str "hello"), 4); (Some (str "o"), 3); (None, 2); (None, ARCHIVE_FATAL)].
Proof.
  rewrite (readahead_refines (fun _ => 0)
    (new_filter (archive_read_open_memory2 (str "hello, world") 3))
    [(5, 4); (1, 3); (6, 2); (4, 5)]).
  - vm_compute. reflexivity.
  - apply new_filter_valid. by split; vm_compute.
  - done.
  - done.
  - repeat constructor; cbn; lia.
Defined.
