(* ===== verification/Window.v ===== *)
(** The memory behind a window (archive_read.c).

    A client may keep the pointer [__archive_read_ahead] returned and read
    through it after further calls.  [hold] is what it then finds: the copy
    buffer is moved, written to and, when it grows, freed, and the block of the
    layer below is gone once the next one is read, unless blocks are
    [lasting]. *)
From S2P Require Import Prelude Util Readahead.

Section Hold.
Context {U : Type} `{Upstream U}.
Implicit Types f : archive_read_filter U.

(** Where in the stream the block at hand begins. *)
Definition block_start f : option Z := (λ p, position f + avail f - off p) <$> client_next f.

(** The first [n] bytes of the window a look-ahead that ended in [f0] has
    handed out, as they are in the later state [f1]; [None]: the memory is
    freed, or filled again by the layer below.  A copy buffer is replaced by a
    larger one only. *)
Definition hold f0 f1 (n : Z) : option bytes :=
  if 0 <? avail f0 then
    if blen (buffer f1) =? blen (buffer f0) then mread (buffer f1) (next f0) n else None
  else
    p ← client_next f0;
    if lasting U || bool_decide (block_start f1 = block_start f0) then mread (obj p) (off p) n
    else None.

(** What is left is in one of the two buffers, or the next block is all of it. *)
Definition buffered f : Prop := rest (data f) = [] /\ (avail f = 0 \/ client_avail f = 0).
Definition unstarted f : Prop :=
  avail f = 0 /\ client_avail f = 0 /\ rest (fread (data f)).2 = [].

(** Everything is in memory that stays. *)
Definition settled f : Prop := lasting U = true /\ (fatal f = true \/ buffered f).
Definition in_memory f : Prop := settled f \/ lasting U = true /\ unstarted f.

End Hold.

Section Windows.
Context {U : Type} `{UpstreamLaws U} (junk : Z -> Z).
Implicit Types f : archive_read_filter U.

Lemma mread_take m o n k w : mread m o n = Some w -> 0 <= k <= n -> mread m o k = Some (take (Z.to_nat k) w).
Proof.
  unfold mread. intros Hm Hk. case_match eqn:E; [|done]. injection Hm as <-.
  replace (_ && _ && _) with true by lia. rewrite take_take. do 2 f_equal. lia.
Qed.

(** A window is at the front of the copy buffer or of the block. *)
Lemma ahead_shows f n w x f' : archive_read_filter_ahead junk f n = Some (Some w, x, f') ->
  (0 < avail f' /\ mread (buffer f') (next f') (avail f') = Some w \/
   avail f' = 0 /\ exists p, client_next f' = Some p /\ mread (obj p) (off p) (client_avail f') = Some w).
Proof.
  unfold archive_read_filter_ahead. destruct (fatal f); [done|]. generalize (ahead_fuel f). intros fuel.
  revert f. induction fuel as [|fuel IH]; intros f; [done|]. cbn [ahead_loop].
  destruct ((n <=? avail f) && (0 <? avail f)) eqn:E1.
  { apply andb_true_iff in E1 as [_ E1]. apply Z.ltb_lt in E1. intros He.
    destruct (mread (buffer f) (next f) (avail f)) as [w'|] eqn:Em; [|done]. cbn in He. simplify_eq. by left. }
  clear E1. destruct (_ && _).
  { destruct (client_next (roll_back f)) as [p|] eqn:Ep; [|done]. intros He.
    destruct (mread (obj p) (off p) (client_avail (roll_back f))) as [w'|] eqn:Em; [|done]. cbn [mbind option_bind] in He.
    injection He as <- <- <-. right. split; [done|]. by exists p. }
  destruct (move_forward f n) as [g|]; [|done]. cbn [mbind option_bind].
  destruct (client_avail g <=? 0).
  - destruct (end_of_file g); [done|]. destruct (fread (data g)) as [[r b] s].
    destruct (r <? 0); [done|]. destruct (r =? 0); [done|]. apply IH.
  - destruct (ensure junk g n) as [[h|]|]; cbn [mbind option_bind]; [|done..].
    destruct (copy_client h n) as [k|]; cbn [mbind option_bind]; [|done]. apply IH.
Qed.

(** In memory that stays, a window is still there after a look-ahead that
    succeeds; and it is there when it has just been handed out. *)
Lemma hold_kept f n w x f0 f1 k :
  archive_read_filter_ahead junk f n = Some (Some w, x, f0) -> buffer f1 = buffer f0 ->
  lasting U = true \/ block_start f1 = block_start f0 ->
  0 <= k <= blen w -> hold f0 f1 k = Some (take (Z.to_nat k) w).
Proof.
  intros Ha Hb Hor Hk. unfold hold. destruct (ahead_shows f n w x f0 Ha) as [(Hav & Hw)|(Hav & p & Hp & Hw)].
  - destruct (Z.ltb_spec 0 (avail f0)); [|lia]. rewrite Hb, Z.eqb_refl.
    apply mread_take with (n := avail f0); [done|]. rewrite <- (mread_blen _ _ _ _ Hw). lia.
  - destruct (Z.ltb_spec 0 (avail f0)); [lia|]. rewrite Hp. cbn [mbind option_bind].
    assert (lasting U || bool_decide (block_start f1 = block_start f0) = true) as ->.
    { destruct Hor as [-> | ->]; [done|]. by rewrite bool_decide_eq_true_2, orb_true_r. }
    apply mread_take with (n := client_avail f0); [done|]. rewrite <- (mread_blen _ _ _ _ Hw). lia.
Qed.

(** ** Consuming leaves the copy buffer alone *)

Lemma advance_loop_buffer fuel f n t r f' :
  advance_loop fuel f n t = Some (r, f') -> buffer f' = buffer f.
Proof.
  revert f n t. induction fuel as [|fuel IH]; intros f n t; [done|]. cbn [advance_loop].
  destruct (fread (data f)) as [[k b] s]. intros He.
  repeat (case_match; [by simplify_eq|]). by rewrite (IH _ _ _ He).
Qed.

Lemma consume_buffer f n r f' : archive_read_filter_consume f n = Some (r, f') -> buffer f' = buffer f.
Proof.
  unfold archive_read_filter_consume, advance_file_pointer. intros He.
  destruct (n <? 0); [by simplify_eq|]. destruct (n =? 0); [by simplify_eq|].
  destruct (fatal f); [cbn [mbind option_bind] in He; by destruct (-1 =? n); simplify_eq|].
  destruct (use_copy f n) as [m f1] eqn:E1. destruct (use_client f1 (n - m)) as [k f2] eqn:E2.
  assert (buffer f2 = buffer f) as <-.
  { unfold use_copy, use_client in *. repeat case_match; by simplify_eq. }
  match type of He with (x ← ?e; _) = _ => destruct e as [[r' g]|] eqn:Ee; [|done] end. cbn [mbind option_bind] in He.
  assert (buffer g = buffer f2); [|by destruct (r' =? n); simplify_eq]. clear He.
  destruct (_ =? 0); [by simplify_eq|]. destruct fskip as [skip|]; [|by eapply advance_loop_buffer].
  destruct (skip (data f2) _) as [[b s]|]; [|done]. cbn [mbind option_bind] in Ee.
  destruct (b <? 0); [by simplify_eq|]. destruct (_ =? 0); [by simplify_eq|].
  by rewrite (advance_loop_buffer _ _ _ _ _ _ Ee).
Qed.

(** A window that is consumed, all or in part, is still there. *)
Lemma hold_consumed f n w x f0 m r f1 k : valid f -> fatal f = false -> 0 <= n ->
  archive_read_filter_ahead junk f n = Some (Some w, x, f0) -> 0 < m <= blen w ->
  archive_read_filter_consume f0 m = Some (r, f1) -> 0 <= k <= blen w ->
  hold f0 f1 k = Some (take (Z.to_nat k) w).
Proof.
  intros Hv Hf Hn Ha Hm Hc Hk. pose proof (consume_buffer _ _ _ _ Hc) as Hb.
  destruct (ahead_ok junk f n Hv Hf Hn) as (r0 & He & Hp). rewrite Ha in He. injection He as <-.
  destruct Hp as (_ & _ & _ & _ & _ & _ & _ & Hf0).
  destruct (ahead_shows f n w x f0 Ha) as [(Hav & Hw)|(Hav & p & Hp & Hw)]; pose proof (mread_blen _ _ _ _ Hw) as Hl.
  - unfold hold. destruct (Z.ltb_spec 0 (avail f0)); [|lia]. rewrite Hb, Z.eqb_refl.
    apply mread_take with (n := avail f0); [done|lia].
  - eapply hold_kept; [exact Ha|done| |done]. right.
    revert Hc. unfold archive_read_filter_consume, advance_file_pointer. rewrite Hf0, Hf.
    destruct (Z.ltb_spec m 0); [lia|]. destruct (Z.eqb_spec m 0); [lia|].
    unfold use_copy. destruct (Z.ltb_spec 0 (avail f0)); [lia|]. unfold use_client.
    destruct (Z.ltb_spec 0 (client_avail f0)); [|lia]. rewrite Z.sub_0_r, Z.min_l, Z.add_0_l, Z.sub_diag by lia.
    cbn [Z.eqb mbind option_bind]. rewrite Z.eqb_refl. intros He. injection He as _ <-.
    unfold block_start. cbn. rewrite Hp. cbn. f_equal. lia.
Qed.

(** ** Everything in memory *)

Lemma copy_all f min g : avail f = 0 -> client_avail f < min -> next f + min <= blen (buffer f) ->
  copy_client f min = Some g ->
  data g = data f /\ fatal g = fatal f /\ avail g = client_avail f /\ client_avail g = 0.
Proof.
  intros Ha Hc Hn. unfold copy_client.
  assert (tocopy f min = client_avail f) as ->.
  { unfold tocopy. rewrite Ha. repeat case_match; lia. }
  destruct (client_next f) as [p|]; [|done]. cbn [mbind option_bind].
  destruct (mread _ _ _) as [d|]; [|done]. cbn [mbind option_bind].
  destruct (mwrite _ _ _) as [b|]; [|done]. cbn [mbind option_bind]. intros He. injection He as <-.
  cbn. split_and!; [done..|lia|lia].
Qed.

(** A look-ahead that succeeds moves nothing. *)
Lemma ahead_loop_buffered fuel f n o x f' : valid f -> fatal f = false -> 0 <= n -> buffered f ->
  ahead_loop junk fuel f n = Some (o, x, f') ->
  (fatal f' = true \/ buffered f') /\ (is_Some o -> n <= avail f + client_avail f /\ buffer f' = buffer f).
Proof.
  revert f. induction fuel as [|fuel IH]; intros f Hv Hf Hn [Hr Hb]; [done|]. cbn [ahead_loop].
  pose proof (client_bounds f Hv) as Hcb. pose proof (v_copy f Hv) as (_ & Hav & _).
  destruct ((n <=? avail f) && (0 <? avail f)) eqn:E1.
  { apply andb_true_iff in E1 as [E1 _]. apply Z.leb_le in E1. destruct (mread _ _ _); [|done].
    cbn [mbind option_bind]. intros He. injection He as <- <- <-. split; [by right|]. split; [lia|done]. }
  apply andb_false_iff in E1.
  destruct ((client_avail f + avail f <=? client_total f) && (n <=? client_avail f + avail f)) eqn:E2.
  { apply andb_true_iff in E2 as [E2 E3]. apply Z.leb_le in E2, E3.
    assert (buffered (roll_back f)) by (split; [done|by left]).
    destruct (client_next (roll_back f)) as [p|]; [destruct (mread (obj p) _ _); [|done]|]; cbn [mbind option_bind];
      intros He; injection He as <- <- <-; (split; [by right|]); [split; [lia|done]|by intros []]. }
  apply andb_false_iff in E2.
  destruct (move_forward_ok f n Hv) as (b & m & -> & Hm & Hmb & Hw & _ & Hfit). cbn [mbind option_bind].
  destruct (set_copy_ok f b m Hv Hm Hmb Hw) as [Hvg _].
  set (g := set_copy f b m (avail f)) in *.
  change (client_avail g) with (client_avail f). change (end_of_file g) with (end_of_file f).
  change (data g) with (data f). destruct (Z.leb_spec (client_avail f) 0) as [Hc|Hc].
  - destruct (end_of_file f).
    { intros He. injection He as <- <- <-. split; [right; split; [done|right; cbn; lia]|by intros []]. }
    pose proof (fread_law (data f) (v_good f Hv)) as Hlaw. destruct (fread (data f)) as [[r blk] s].
    destruct Hlaw as [_ Hlaw]. destruct (Z.ltb_spec r 0).
    { intros He. injection He as <- <- <-. split; [by left|by intros []]. }
    destruct Hlaw as [[? _]|(Hrb & Hrest & _)]; [lia|]. rewrite Hr in Hrest.
    symmetry in Hrest. apply app_nil in Hrest as [Ht Hrs].
    destruct (Z.eqb_spec r 0) as [->|Hr0].
    { intros He. injection He as <- <- <-. split; [right; split; [done|by right]|by intros []]. }
    apply (f_equal length) in Ht. rewrite length_take in Ht. cbn in Ht. unfold blen in Hrb. lia.
  - destruct (ensure_ok junk g n Hvg ltac:(lia) Hfit) as [[-> _]|(b' & m' & Hens & Hm' & Hfit' & _)].
    { intros He. injection He as <- <- <-. split; [by left|by intros []]. }
    destruct (copy_step_ok junk g n Hvg) as [[Hx _]|(h' & h & Hx & Eh & Hvh & _)]; [cbn; lia|cbn; lia|lia|exact Hfit|congruence|].
    rewrite Hens in Hx. injection Hx as <-. rewrite Hens. cbn [mbind option_bind].
    change (avail g) with (avail f). rewrite Eh. cbn [mbind option_bind].
    assert (avail f = 0 /\ client_avail f < n) as [Hz Hcn] by lia.
    destruct (copy_all (set_copy g b' m' (avail f)) n h Hz Hcn Hfit' Eh) as (Hd & Hfh & Hah & Hch).
    cbn in Hd, Hfh, Hah. intros He.
    destruct (IH h Hvh ltac:(congruence) Hn ltac:(split; [congruence|by right]) He) as [Hp Hs].
    split; [done|]. intros Ho. destruct (Hs Ho). lia.
Qed.

Lemma ahead_buffered f n o x f' : valid f -> 0 <= n -> fatal f = true \/ buffered f ->
  archive_read_filter_ahead junk f n = Some (o, x, f') ->
  (fatal f' = true \/ buffered f') /\ (is_Some o -> buffer f' = buffer f).
Proof.
  intros Hv Hn Hb. unfold archive_read_filter_ahead. destruct (fatal f) eqn:Ef.
  { intros He. injection He as <- <- <-. split; [by left|by intros []]. }
  intros He. destruct Hb as [|Hb]; [done|].
  destruct (ahead_loop_buffered _ _ _ _ _ _ Hv Ef Hn Hb He) as [? Hx]. split; [done|]. intros Ho. by apply Hx.
Qed.

(** The first look-ahead takes the one block. *)
Lemma ahead_unstarted f n o x f' : valid f -> fatal f = false -> 0 < n -> unstarted f ->
  archive_read_filter_ahead junk f n = Some (o, x, f') -> fatal f' = true \/ buffered f'.
Proof.
  intros Hv Hf Hn (Ha & Hc & Hr). unfold archive_read_filter_ahead, ahead_fuel. rewrite Hf.
  replace (2 * length (rest (data f)) + Z.to_nat (client_avail f) + 2)%nat
    with (S (2 * length (rest (data f)) + Z.to_nat (client_avail f) + 1)) by lia.
  generalize (2 * length (rest (data f)) + Z.to_nat (client_avail f) + 1)%nat. intros fuel. cbn [ahead_loop].
  replace ((n <=? avail f) && (0 <? avail f)) with false by lia.
  replace ((client_avail f + avail f <=? client_total f) && (n <=? client_avail f + avail f)) with false by lia.
  destruct (move_forward_ok f n Hv) as (b & m & -> & Hm & Hmb & Hw & _ & _). cbn [mbind option_bind].
  destruct (set_copy_ok f b m Hv Hm Hmb Hw) as [Hvg _]. set (g := set_copy f b m (avail f)) in *.
  change (client_avail g) with (client_avail f). replace (client_avail f <=? 0) with true by lia.
  destruct (end_of_file g) eqn:Ee.
  { intros He. injection He as <- <- <-. right. split; [by apply (v_eof g)|by left]. }
  pose proof (read_block_ok g Hvg Hc Ee) as Hb. change (data g) with (data f) in *.
  destruct (fread (data f)) as [[r blk] s]. cbn in Hr. destruct Hb as (_ & _ & _ & _ & Hpos).
  destruct (Z.ltb_spec r 0). { intros He. injection He as <- <- <-. by left. }
  destruct (Z.eqb_spec r 0). { intros He. injection He as <- <- <-. right. split; [done|by left]. }
  destruct (Hpos ltac:(lia)) as (Hvh & _). intros He.
  apply ahead_loop_buffered in He as [He _]; [done|exact Hvh|done|lia|split; [done|by left]].
Qed.

Lemma ahead_whole f n o x f' : valid f -> fatal f = false -> 0 < n -> in_memory f ->
  archive_read_filter_ahead junk f n = Some (o, x, f') -> settled f'.
Proof.
  intros Hv Hf Hn [[Hl Hb]|[Hl Hu]] He; (split; [done|]).
  - by apply ahead_buffered in He as [? _]; [|done|lia|].
  - by eapply ahead_unstarted.
Qed.

Lemma ahead_settled f n o x f' : valid f -> 0 <= n -> settled f ->
  archive_read_filter_ahead junk f n = Some (o, x, f') -> settled f'.
Proof. intros Hv Hn [Hl Hb] He. split; [done|]. by eapply ahead_buffered in He as [? _]. Qed.

Lemma advance_loop_buffered fuel f n t r f' : valid f -> buffered f ->
  advance_loop fuel f n t = Some (r, f') -> fatal f' = true \/ buffered f'.
Proof.
  revert f n t. induction fuel as [|fuel IH]; intros f n t Hv [Hr Hb]; [done|]. cbn [advance_loop].
  pose proof (fread_law (data f) (v_good f Hv)) as Hlaw. destruct (fread (data f)) as [[k blk] s].
  destruct Hlaw as [_ Hlaw]. destruct (Z.ltb_spec k 0); [intros He; injection He as <- <-; by left|].
  destruct Hlaw as [[? _]|(Hk & Hrest & _)]; [lia|]. rewrite Hr in Hrest.
  symmetry in Hrest. apply app_nil in Hrest as [Ht Hs].
  apply (f_equal length) in Ht. rewrite length_take in Ht. cbn in Ht. unfold blen in Hk.
  destruct (Z.eqb_spec k 0); [|lia]. intros He. injection He as <- <-. by right.
Qed.

Lemma consume_settled f n r f' : valid f -> settled f ->
  archive_read_filter_consume f n = Some (r, f') -> settled f'.
Proof.
  intros Hv [Hl Hor]. unfold archive_read_filter_consume, advance_file_pointer. intros He. split; [done|].
  destruct (Z.ltb_spec n 0); [by simplify_eq|]. destruct (Z.eqb_spec n 0); [by simplify_eq|].
  destruct (fatal f) eqn:Ef.
  { cbn [mbind option_bind] in He. left. by destruct (-1 =? n); simplify_eq. }
  destruct Hor as [|[Hr Hb]]; [done|].
  destruct (use_buffers_ok f n Hv ltac:(lia)) as (m & k & f1 & f2 & E1 & E2 & Hv2 & _ & Hmk & _ & _ & _ & Hd & Hor).
  rewrite E1, E2 in He.
  assert (buffered f2) as Hf2.
  { split; [by rewrite Hd|]. unfold use_copy, use_client in E1, E2.
    pose proof (client_bounds f Hv). pose proof (v_copy f Hv) as (_ & ? & _).
    repeat case_match; simplify_eq; cbn in *; lia. }
  match type of He with (x ← ?e; _) = _ => destruct e as [[r' g]|] eqn:Ee; [|done] end. cbn [mbind option_bind] in He.
  assert (fatal g = true \/ buffered g); [|by destruct (r' =? n); simplify_eq]. clear He.
  destruct (Z.eqb_spec (n - (m + k)) 0); [simplify_eq; by right|].
  destruct Hor as [|[Ha2 Hc2]]; [lia|]. destruct fskip as [skip|] eqn:Esk; [|by eapply advance_loop_buffered].
  destruct (skip_ok f2 skip (n - (m + k)) Hv2 Ha2 Hc2 ltac:(lia) Esk) as (b & s & Hsk & Hr2).
  rewrite Hsk in Ee. cbn [mbind option_bind] in Ee.
  destruct (Z.ltb_spec b 0); [simplify_eq; by left|]. destruct Hr2 as [[? _]|(_ & _ & _ & Hv3 & Hs3)]; [lia|].
  set (f3 := set_position (set_data f2 s) (position f2 + b)) in *.
  assert (buffered f3).
  { split; [|by left]. rewrite <- (stream_rest f3 Ha2 Hc2), Hs3, stream_rest, (proj1 Hf2) by done. apply drop_nil. }
  destruct (_ =? 0); [simplify_eq; by right|]. by eapply advance_loop_buffered in Ee.
Qed.

End Windows.

(** An archive that is opened in memory, as one block. *)
Lemma memory_at_once b : in_memory (new_filter (archive_read_open_memory b)).
Proof.
  right. split; [done|]. split_and!; [done..|]. cbn. unfold memory_read. cbn.
  assert ((if blen b <? blen b - 0 then blen b else blen b - 0) = blen b) as -> by (case_match; lia).
  apply drop_ge. unfold blen. lia.
Qed.
