(* ===== verification/Archiveentry.v ===== *)
(** Archive entries of libarchive (archive_entry.c): the fields the cpio
    formats store, their setters and getters.

    A multi-byte string is the bytes before its NUL; without character set
    conversion, which the program does not ask for, setting one copies it.  The
    bits of [ae_set] are the [option] of the field they guard.  Times are
    seconds; the program never sets a fraction. *)
From S2P Require Import Prelude.

(** A device number, or its two parts. *)
Record device := Device { broken_down : bool; whole : Z; dmajor : Z; dminor : Z }.

Record archive_entry := Entry {
  ae_pathname : option bytes;
  ae_symlink : option bytes;
  ae_hardlink : option bytes;
  ae_mode : Z;
  ae_size : Z;
  ae_size_set : bool;
  ae_ino : Z;
  ae_nlink : Z;
  ae_uid : Z;
  ae_gid : Z;
  ae_mtime : Z;
  ae_dev : device;
  ae_rdev : device
}.

Definition archive_entry_new : archive_entry :=
  Entry None None None 0 0 false 0 0 0 0 0 (Device false 0 0 0) (Device false 0 0 0).
Definition archive_entry_clear (e : archive_entry) : archive_entry := archive_entry_new.

Definition AE_IFMT := 0xF000.
Definition AE_IFREG := 0x8000.
Definition AE_IFLNK := 0xA000.
Definition AE_IFSOCK := 0xC000.
Definition AE_IFCHR := 0x2000.
Definition AE_IFBLK := 0x6000.
Definition AE_IFDIR := 0x4000.
Definition AE_IFIFO := 0x1000.

(** [major], [minor] and [makedev] of <sys/sysmacros.h> on Linux. *)
Definition major (d : Z) : Z := Z.lor (Z.land (Z.shiftr d 8) 0xFFF) (Z.land (Z.shiftr d 32) 0xFFFFF000).
Definition minor (d : Z) : Z := Z.lor (Z.land d 0xFF) (Z.land (Z.shiftr d 12) 0xFFFFFF00).
Definition makedev (ma mi : Z) : Z :=
  Z.lor (Z.lor (Z.shiftl (Z.land ma 0xFFF) 8) (Z.shiftl (Z.land ma 0xFFFFF000) 32))
        (Z.lor (Z.land mi 0xFF) (Z.shiftl (Z.land mi 0xFFFFFF00) 12)).

Definition dev_value (d : device) : Z :=
  if broken_down d then makedev (dmajor d) (dminor d) else whole d.
Definition dev_major (d : device) : Z := if broken_down d then dmajor d else major (whole d).
Definition dev_minor (d : device) : Z := if broken_down d then dminor d else minor (whole d).

(** ** Getters *)

Definition archive_entry_pathname (e : archive_entry) : option bytes := ae_pathname e.
Definition archive_entry_symlink (e : archive_entry) : option bytes := ae_symlink e.
Definition archive_entry_hardlink (e : archive_entry) : option bytes := ae_hardlink e.
Definition archive_entry_mode (e : archive_entry) : Z := ae_mode e.
Definition archive_entry_filetype (e : archive_entry) : Z := Z.land AE_IFMT (ae_mode e).
Definition archive_entry_perm (e : archive_entry) : Z := Z.ldiff (ae_mode e) AE_IFMT.
Definition archive_entry_size (e : archive_entry) : Z := ae_size e.
Definition archive_entry_size_is_set (e : archive_entry) : bool := ae_size_set e.
Definition archive_entry_ino64 (e : archive_entry) : Z := ae_ino e.
Definition archive_entry_nlink (e : archive_entry) : Z := ae_nlink e.
Definition archive_entry_uid (e : archive_entry) : Z := ae_uid e.
Definition archive_entry_gid (e : archive_entry) : Z := ae_gid e.
Definition archive_entry_mtime (e : archive_entry) : Z := ae_mtime e.
Definition archive_entry_dev (e : archive_entry) : Z := dev_value (ae_dev e).
Definition archive_entry_devmajor (e : archive_entry) : Z := dev_major (ae_dev e).
Definition archive_entry_devminor (e : archive_entry) : Z := dev_minor (ae_dev e).
Definition archive_entry_rdev (e : archive_entry) : Z := dev_value (ae_rdev e).
Definition archive_entry_rdevmajor (e : archive_entry) : Z := dev_major (ae_rdev e).
Definition archive_entry_rdevminor (e : archive_entry) : Z := dev_minor (ae_rdev e).

(** ** Setters *)

Definition archive_entry_set_pathname (e : archive_entry) (name : option bytes) : archive_entry :=
  Entry name (ae_symlink e) (ae_hardlink e) (ae_mode e) (ae_size e) (ae_size_set e) (ae_ino e)
    (ae_nlink e) (ae_uid e) (ae_gid e) (ae_mtime e) (ae_dev e) (ae_rdev e).
Definition archive_entry_set_symlink (e : archive_entry) (name : option bytes) : archive_entry :=
  Entry (ae_pathname e) name (ae_hardlink e) (ae_mode e) (ae_size e) (ae_size_set e) (ae_ino e)
    (ae_nlink e) (ae_uid e) (ae_gid e) (ae_mtime e) (ae_dev e) (ae_rdev e).
Definition archive_entry_copy_hardlink (e : archive_entry) (name : option bytes) : archive_entry :=
  Entry (ae_pathname e) (ae_symlink e) name (ae_mode e) (ae_size e) (ae_size_set e) (ae_ino e)
    (ae_nlink e) (ae_uid e) (ae_gid e) (ae_mtime e) (ae_dev e) (ae_rdev e).
Definition archive_entry_set_mode (e : archive_entry) (m : Z) : archive_entry :=
  Entry (ae_pathname e) (ae_symlink e) (ae_hardlink e) (u32 m) (ae_size e) (ae_size_set e) (ae_ino e)
    (ae_nlink e) (ae_uid e) (ae_gid e) (ae_mtime e) (ae_dev e) (ae_rdev e).
Definition archive_entry_set_filetype (e : archive_entry) (type : Z) : archive_entry :=
  archive_entry_set_mode e (Z.lor (Z.ldiff (ae_mode e) AE_IFMT) (Z.land AE_IFMT type)).
Definition archive_entry_set_perm (e : archive_entry) (p : Z) : archive_entry :=
  archive_entry_set_mode e (Z.lor (Z.land (ae_mode e) AE_IFMT) (Z.ldiff (u32 p) AE_IFMT)).
Definition archive_entry_set_size (e : archive_entry) (s : Z) : archive_entry :=
  Entry (ae_pathname e) (ae_symlink e) (ae_hardlink e) (ae_mode e) s true (ae_ino e)
    (ae_nlink e) (ae_uid e) (ae_gid e) (ae_mtime e) (ae_dev e) (ae_rdev e).
Definition archive_entry_set_ino (e : archive_entry) (i : Z) : archive_entry :=
  Entry (ae_pathname e) (ae_symlink e) (ae_hardlink e) (ae_mode e) (ae_size e) (ae_size_set e) i
    (ae_nlink e) (ae_uid e) (ae_gid e) (ae_mtime e) (ae_dev e) (ae_rdev e).
Definition archive_entry_set_nlink (e : archive_entry) (n : Z) : archive_entry :=
  Entry (ae_pathname e) (ae_symlink e) (ae_hardlink e) (ae_mode e) (ae_size e) (ae_size_set e) (ae_ino e)
    (u32 n) (ae_uid e) (ae_gid e) (ae_mtime e) (ae_dev e) (ae_rdev e).
Definition archive_entry_set_uid (e : archive_entry) (u : Z) : archive_entry :=
  Entry (ae_pathname e) (ae_symlink e) (ae_hardlink e) (ae_mode e) (ae_size e) (ae_size_set e) (ae_ino e)
    (ae_nlink e) u (ae_gid e) (ae_mtime e) (ae_dev e) (ae_rdev e).
Definition archive_entry_set_gid (e : archive_entry) (g : Z) : archive_entry :=
  Entry (ae_pathname e) (ae_symlink e) (ae_hardlink e) (ae_mode e) (ae_size e) (ae_size_set e) (ae_ino e)
    (ae_nlink e) (ae_uid e) g (ae_mtime e) (ae_dev e) (ae_rdev e).
Definition archive_entry_set_mtime (e : archive_entry) (t : Z) : archive_entry :=
  Entry (ae_pathname e) (ae_symlink e) (ae_hardlink e) (ae_mode e) (ae_size e) (ae_size_set e) (ae_ino e)
    (ae_nlink e) (ae_uid e) (ae_gid e) t (ae_dev e) (ae_rdev e).

Definition set_dev_field (e : archive_entry) (d : device) : archive_entry :=
  Entry (ae_pathname e) (ae_symlink e) (ae_hardlink e) (ae_mode e) (ae_size e) (ae_size_set e) (ae_ino e)
    (ae_nlink e) (ae_uid e) (ae_gid e) (ae_mtime e) d (ae_rdev e).
Definition set_rdev_field (e : archive_entry) (d : device) : archive_entry :=
  Entry (ae_pathname e) (ae_symlink e) (ae_hardlink e) (ae_mode e) (ae_size e) (ae_size_set e) (ae_ino e)
    (ae_nlink e) (ae_uid e) (ae_gid e) (ae_mtime e) (ae_dev e) d.

Definition archive_entry_set_dev (e : archive_entry) (d : Z) : archive_entry :=
  set_dev_field e (Device false d (dmajor (ae_dev e)) (dminor (ae_dev e))).
Definition archive_entry_set_devmajor (e : archive_entry) (m : Z) : archive_entry :=
  set_dev_field e (Device true (whole (ae_dev e)) m (dminor (ae_dev e))).
Definition archive_entry_set_devminor (e : archive_entry) (m : Z) : archive_entry :=
  set_dev_field e (Device true (whole (ae_dev e)) (dmajor (ae_dev e)) m).
Definition archive_entry_set_rdev (e : archive_entry) (d : Z) : archive_entry :=
  set_rdev_field e (Device false d (dmajor (ae_rdev e)) (dminor (ae_rdev e))).
Definition archive_entry_set_rdevmajor (e : archive_entry) (m : Z) : archive_entry :=
  set_rdev_field e (Device true (whole (ae_rdev e)) m (dminor (ae_rdev e))).
Definition archive_entry_set_rdevminor (e : archive_entry) (m : Z) : archive_entry :=
  set_rdev_field e (Device true (whole (ae_rdev e)) (dmajor (ae_rdev e)) m).

Definition archive_entry_copy_pathname_l (e : archive_entry) (name : bytes) (n : Z) : archive_entry :=
  archive_entry_set_pathname e (Some (before_nul (take (Z.to_nat n) name))).
Definition archive_entry_copy_symlink_l (e : archive_entry) (name : bytes) (n : Z) : archive_entry :=
  archive_entry_set_symlink e (Some (before_nul (take (Z.to_nat n) name))).

(** ** Lemmas *)

