(* ===== verification/Archivewrite.v ===== *)
(** The writing side of libarchive (archive_write.c, archive_write_open_memory.c):
    the states of an archive, its output filters, the blocks in which data
    reaches the client, and the memory client.

    The archive format is an interface ([Format]: the callbacks
    [format_write_header], ...), and so is what lies behind a filter ([Sink]:
    its [write] and [close]).  The client filter with its block buffer is the
    implementation of [Sink] the program's archives end in.  [None] is an access
    outside an object; a failing [malloc] is not modelled. *)
From S2P Require Import Prelude Util Readahead Archiveentry.

(** ** Filters *)

Class Sink (W : Type) := {
  fwrite : W -> bytes -> option (Z * W);
  fclose : W -> option (Z * W)
}.

Inductive filter_state :=
  ARCHIVE_WRITE_FILTER_STATE_NEW | ARCHIVE_WRITE_FILTER_STATE_OPEN
| ARCHIVE_WRITE_FILTER_STATE_CLOSED | ARCHIVE_WRITE_FILTER_STATE_FATAL.

#[export] Instance filter_state_eq : EqDecision filter_state.
Proof. solve_decision. Defined.

Record archive_write_filter (W : Type) := WFilter {
  f_state : filter_state;
  f_data : W;
  bytes_written : Z
}.
Arguments WFilter {W}.
Arguments f_state {W}.
Arguments f_data {W}.
Arguments bytes_written {W}.

Section Filters.
Context {W : Type} `{Sink W}.

Definition archive_write_filter_ (f : archive_write_filter W) (buff : bytes)
  : option (Z * archive_write_filter W) :=
  if negb (bool_decide (f_state f = ARCHIVE_WRITE_FILTER_STATE_OPEN)) then Some (ARCHIVE_FATAL, f)
  else if blen buff =? 0 then Some (ARCHIVE_OK, f)
  else
    '(r, w) ← fwrite (f_data f) buff;
    Some (r, WFilter (f_state f) w (bytes_written f + blen buff)).

(** Closing the chain: a filter closes the ones behind it. *)
Definition archive_write_filters_close (f : archive_write_filter W)
  : option (Z * archive_write_filter W) :=
  if bool_decide (f_state f = ARCHIVE_WRITE_FILTER_STATE_OPEN) then
    '(r, w) ← fclose (f_data f);
    let st := if r =? ARCHIVE_OK then ARCHIVE_WRITE_FILTER_STATE_CLOSED
              else ARCHIVE_WRITE_FILTER_STATE_FATAL in
    Some (if r <? ARCHIVE_OK then r else ARCHIVE_OK, WFilter st w (bytes_written f))
  else Some (ARCHIVE_OK, f).

End Filters.

(** ** The archive *)

Definition ARCHIVE_STATE_NEW := 0x1.
Definition ARCHIVE_STATE_HEADER := 0x2.
Definition ARCHIVE_STATE_DATA := 0x4.
Definition ARCHIVE_STATE_EOF := 0x10.
Definition ARCHIVE_STATE_CLOSED := 0x20.
Definition ARCHIVE_STATE_FATAL := 0x8000.
Definition ARCHIVE_STATE_ANY := 0x7FFF.

(** [D] is the format's own data. *)
Record archive_write (D W : Type) := Archive {
  state : Z;
  format_data : D;
  filter_first : archive_write_filter W
}.
Arguments Archive {D W}.
Arguments state {D W}.
Arguments format_data {D W}.
Arguments filter_first {D W}.

Section Output.
Context {D W : Type} `{Sink W}.

Definition set_state (a : archive_write D W) (s : Z) : archive_write D W :=
  Archive s (format_data a) (filter_first a).
Definition set_format_data (a : archive_write D W) (d : D) : archive_write D W :=
  Archive (state a) d (filter_first a).

(** [archive_check_magic] on a valid handle. *)
Definition archive_check_magic (a : archive_write D W) (states : Z) : bool :=
  negb (Z.land (state a) states =? 0).

Definition archive_write_output (a : archive_write D W) (buff : bytes)
  : option (Z * archive_write D W) :=
  '(r, f) ← archive_write_filter_ (filter_first a) buff;
  Some (r, Archive (state a) (format_data a) f).

(** [null_length] zeros at a time. *)
Definition null_length := 1024.

Fixpoint write_nulls (fuel : nat) (a : archive_write D W) (length : Z)
  : option (Z * archive_write D W) :=
  match fuel with
  | O => None
  | S fuel =>
      if 0 <? length then
        let to_write := if length <? null_length then length else null_length in
        '(r, a) ← archive_write_output a (zeros to_write);
        if r <? ARCHIVE_OK then Some (r, a) else write_nulls fuel a (length - to_write)
      else Some (ARCHIVE_OK, a)
  end.

Definition archive_write_nulls (a : archive_write D W) (length : Z) : option (Z * archive_write D W) :=
  write_nulls (Z.to_nat (length / null_length) + 2) a length.

End Output.

(** The callbacks of a format. *)
Class Format (D W : Type) := {
  format_write_header : archive_write D W -> archive_entry ->
    option (Z * archive_write D W * archive_entry);
  format_write_data : archive_write D W -> bytes -> option (Z * archive_write D W);
  format_finish_entry : archive_write D W -> option (Z * archive_write D W);
  format_close : archive_write D W -> option (Z * archive_write D W)
}.

Section Archive.
Context {D W : Type} `{Sink W, Format D W}.

Definition archive_write_finish_entry (a : archive_write D W) : option (Z * archive_write D W) :=
  if negb (archive_check_magic a (Z.lor ARCHIVE_STATE_HEADER ARCHIVE_STATE_DATA)) then
    Some (ARCHIVE_FATAL, set_state a ARCHIVE_STATE_FATAL)
  else
    '(ret, a) ← (if archive_check_magic a ARCHIVE_STATE_DATA then format_finish_entry a
                 else Some (ARCHIVE_OK, a));
    Some (ret, set_state a ARCHIVE_STATE_HEADER).

(** The format may change the entry. *)
Definition archive_write_header (a : archive_write D W) (e : archive_entry)
  : option (Z * archive_write D W * archive_entry) :=
  if negb (archive_check_magic a (Z.lor ARCHIVE_STATE_DATA ARCHIVE_STATE_HEADER)) then
    Some (ARCHIVE_FATAL, set_state a ARCHIVE_STATE_FATAL, e)
  else
    '(ret, a) ← archive_write_finish_entry a;
    if ret =? ARCHIVE_FATAL then Some (ARCHIVE_FATAL, set_state a ARCHIVE_STATE_FATAL, e)
    else if (ret <? ARCHIVE_OK) && negb (ret =? ARCHIVE_WARN) then Some (ret, a, e)
    else
      '(r2, a, e) ← format_write_header a e;
      if r2 =? ARCHIVE_FAILED then Some (ARCHIVE_FAILED, a, e)
      else if r2 =? ARCHIVE_FATAL then Some (ARCHIVE_FATAL, set_state a ARCHIVE_STATE_FATAL, e)
      else Some (if r2 <? ret then r2 else ret, set_state a ARCHIVE_STATE_DATA, e).

Definition archive_write_data (a : archive_write D W) (buff : bytes)
  : option (Z * archive_write D W) :=
  if negb (archive_check_magic a ARCHIVE_STATE_DATA) then
    Some (ARCHIVE_FATAL, set_state a ARCHIVE_STATE_FATAL)
  else format_write_data a (if 2 ^ 31 - 1 <? blen buff then take (Z.to_nat (2 ^ 31 - 1)) buff else buff).

Definition archive_write_close (a : archive_write D W) : option (Z * archive_write D W) :=
  if negb (archive_check_magic a (Z.lor ARCHIVE_STATE_ANY ARCHIVE_STATE_FATAL)) then
    Some (ARCHIVE_FATAL, set_state a ARCHIVE_STATE_FATAL)
  else if (state a =? ARCHIVE_STATE_NEW) || (state a =? ARCHIVE_STATE_CLOSED) then Some (ARCHIVE_OK, a)
  else
    '(r, a) ← (if state a =? ARCHIVE_STATE_DATA then format_finish_entry a else Some (ARCHIVE_OK, a));
    '(r1, a) ← format_close a;
    let r := if r1 <? r then r1 else r in
    '(r1, f) ← archive_write_filters_close (filter_first a);
    let a := Archive (state a) (format_data a) f in
    let r := if r1 <? r then r1 else r in
    Some (r, if state a =? ARCHIVE_STATE_FATAL then a else set_state a ARCHIVE_STATE_CLOSED).

End Archive.

(** ** The client filter *)

(** What the program's client does with a block of data. *)
Class Client (C : Type) := client_writer : C -> bytes -> option (Z * C).

(** The copy buffer of [next - buffer] bytes in use, and the client. *)
Record archive_none (C : Type) := None_ {
  n_buffer : bytes;
  n_buffer_size : Z;
  n_next : Z;
  n_avail : Z;
  bytes_in_last_block : Z;
  client : C
}.
Arguments None_ {C}.
Arguments n_buffer {C}.
Arguments n_buffer_size {C}.
Arguments n_next {C}.
Arguments n_avail {C}.
Arguments bytes_in_last_block {C}.
Arguments client {C}.

Section Client.
Context {C : Type} `{Client C} (junk : Z -> Z).

Definition archive_write_client_open (bytes_per_block last : Z) (c : C) : archive_none C :=
  None_ (Util.realloc junk [] bytes_per_block) bytes_per_block 0 bytes_per_block last c.

Definition set_client_state (s : archive_none C) (b : bytes) (n a : Z) (c : C) : archive_none C :=
  None_ b (n_buffer_size s) n a (bytes_in_last_block s) c.

(** Write all of [p], in as many calls as the client wants; with [check] an
    answer larger than the request is an error. *)
Fixpoint write_out (fuel : nat) (check : bool) (c : C) (p : bytes) : option (Z * C) :=
  match fuel with
  | O => None
  | S fuel =>
      if 0 <? blen p then
        '(bytes_written, c) ← client_writer c p;
        if bytes_written <=? 0 then Some (ARCHIVE_FATAL, c)
        else if check && (blen p <? bytes_written) then Some (ARCHIVE_FATAL, c)
        else write_out fuel check c (drop (Z.to_nat bytes_written) p)
      else Some (ARCHIVE_OK, c)
  end.

(** If the copy buffer isn't empty, try to fill it; if it's full, write it
    out.  The rest of the data is returned. *)
Definition fill_block (s : archive_none C) (buff : bytes)
  : option (Z * archive_none C * bytes) :=
  if n_avail s <? n_buffer_size s then
    let to_copy := if n_avail s <? blen buff then n_avail s else blen buff in
    b ← mwrite (n_buffer s) (n_next s) (take (Z.to_nat to_copy) buff);
    let rest := drop (Z.to_nat to_copy) buff in
    let s := set_client_state s b (n_next s + to_copy) (n_avail s - to_copy) (client s) in
    if n_avail s =? 0 then
      '(r, c) ← write_out (Z.to_nat (n_buffer_size s) + 1) true (client s)
                  (take (Z.to_nat (n_buffer_size s)) (n_buffer s));
      if r =? ARCHIVE_OK then
        Some (ARCHIVE_OK, set_client_state s (n_buffer s) 0 (n_buffer_size s) c, rest)
      else Some (r, set_client_state s (n_buffer s) (n_next s) (n_avail s) c, rest)
    else Some (ARCHIVE_OK, s, rest)
  else Some (ARCHIVE_OK, s, buff).

(** Write out full blocks directly to client. *)
Fixpoint full_blocks (fuel : nat) (s : archive_none C) (buff : bytes)
  : option (Z * archive_none C * bytes) :=
  match fuel with
  | O => None
  | S fuel =>
      if n_buffer_size s <=? blen buff then
        '(bytes_written, c) ← client_writer (client s) (take (Z.to_nat (n_buffer_size s)) buff);
        let s := set_client_state s (n_buffer s) (n_next s) (n_avail s) c in
        if bytes_written <=? 0 then Some (ARCHIVE_FATAL, s, buff)
        else full_blocks fuel s (drop (Z.to_nat bytes_written) buff)
      else Some (ARCHIVE_OK, s, buff)
  end.

Definition archive_write_client_write (s : archive_none C) (buff : bytes)
  : option (Z * archive_none C) :=
  if n_buffer_size s =? 0 then
    '(r, c) ← write_out (length buff + 1) false (client s) buff;
    Some (r, set_client_state s (n_buffer s) (n_next s) (n_avail s) c)
  else
    '(r, s, buff) ← fill_block s buff;
    if negb (r =? ARCHIVE_OK) then Some (r, s)
    else
      '(r, s, buff) ← full_blocks (length buff + 1) s buff;
      if negb (r =? ARCHIVE_OK) then Some (r, s)
      else if 0 <? blen buff then
        b ← mwrite (n_buffer s) (n_next s) buff;
        Some (ARCHIVE_OK,
              set_client_state s b (n_next s + blen buff) (n_avail s - blen buff) (client s))
      else Some (ARCHIVE_OK, s).

(** If there's pending data, pad and write the last block. *)
Definition archive_write_client_close (s : archive_none C) : option (Z * archive_none C) :=
  if n_next s =? 0 then Some (ARCHIVE_OK, s)
  else
    let block_length := n_buffer_size s - n_avail s in
    let last := bytes_in_last_block s in
    let target := if last <=? 0 then n_buffer_size s
                  else last * ((block_length + last - 1) / last) in
    let target := if n_buffer_size s <? target then n_buffer_size s else target in
    b ← (if block_length <? target then mwrite (n_buffer s) (n_next s) (zeros (target - block_length))
         else Some (n_buffer s));
    let block_length := if block_length <? target then target else block_length in
    block ← mread b 0 block_length;
    '(bytes_written, c) ← client_writer (client s) block;
    Some (if bytes_written <=? 0 then ARCHIVE_FATAL else ARCHIVE_OK,
          set_client_state s b (n_next s) (n_avail s) c).

#[export] Instance client_sink : Sink (archive_none C) := {
  fwrite := archive_write_client_write;
  fclose := archive_write_client_close
}.

End Client.

(** ** The memory client *)

(** [*client_size] follows [used]. *)
Record write_memory_data := WriteMemory { used : Z; size : Z; buff : bytes }.

Definition memory_write_open (b : bytes) : write_memory_data := WriteMemory 0 (blen b) b.

Definition memory_write (m : write_memory_data) (d : bytes) : option (Z * write_memory_data) :=
  if size m <? used m + blen d then Some (ARCHIVE_FATAL, m)
  else
    b ← mwrite (buff m) (used m) d;
    Some (blen d, WriteMemory (used m + blen d) (size m) b).

#[export] Instance memory_writer : Client write_memory_data := memory_write.

(** [archive_write_open_memory]: blocks of 10240 bytes, the last one not padded. *)
Definition archive_write_open_memory (junk : Z -> Z) (b : bytes) {D} (d : D)
  : archive_write D (archive_none write_memory_data) :=
  Archive ARCHIVE_STATE_HEADER d
    (WFilter ARCHIVE_WRITE_FILTER_STATE_OPEN
       (archive_write_client_open junk 10240 1 (memory_write_open b)) 0).

(** ** What a sink promises *)

(** [accepted] is the data taken so far, [delivered] what has reached the end
    of the chain; a call either takes its data or fails for good, and
    closing delivers what was taken. *)
Class SinkLaws (W : Type) `{Sink W} := {
  sink_ok : W -> Prop;
  accepted : W -> bytes;
  delivered : W -> bytes;
  fwrite_law w d : sink_ok w -> d <> [] ->
    exists r w', fwrite w d = Some (r, w') /\ sink_ok w' /\
    (r = ARCHIVE_OK /\ accepted w' = accepted w ++ d \/ r = ARCHIVE_FATAL);
  fclose_law w : sink_ok w ->
    exists r w', fclose w = Some (r, w') /\
    (r = ARCHIVE_OK /\ delivered w' = accepted w \/ r < ARCHIVE_OK)
}.

(** What the memory client has received. *)
Definition received (m : write_memory_data) : bytes := take (Z.to_nat (used m)) (buff m).

Definition memory_ok (m : write_memory_data) : Prop :=
  0 <= used m <= size m /\ size m = blen (buff m).

Definition client_ok (s : archive_none write_memory_data) : Prop :=
  memory_ok (client s) /\ 0 < n_buffer_size s /\ n_buffer_size s = blen (n_buffer s) /\
  0 <= n_next s /\ 0 <= n_avail s /\ n_next s + n_avail s = n_buffer_size s /\
  bytes_in_last_block s = 1.

(** What a client filter has taken: what reached the client, and its block. *)
Definition taken (s : archive_none write_memory_data) : bytes :=
  received (client s) ++ take (Z.to_nat (n_next s)) (n_buffer s).

(** The outcome of writing [d] to memory [m] that becomes [m']. *)
Definition memory_post (m : write_memory_data) (d : bytes) (r : Z) (m' : write_memory_data) : Prop :=
  memory_ok m' /\ size m' = size m /\
  (r = blen d /\ received m' = received m ++ d \/
   r = ARCHIVE_FATAL /\ received m' = received m /\ size m < blen (received m) + blen d).

(** Write each piece, then close; the first error ends it. *)
Fixpoint write_all {C} `{Client C} (s : archive_none C) (ds : list bytes)
  : option (Z * archive_none C) :=
  match ds with
  | [] => archive_write_client_close s
  | d :: ds =>
      '(r, s) ← archive_write_client_write s d;
      if r =? ARCHIVE_OK then write_all s ds else Some (r, s)
  end.

Lemma received_blen m : memory_ok m -> blen (received m) = used m.
Proof. intros [H1 H2]. unfold received, blen in *. rewrite length_take. lia. Qed.

Lemma memory_write_ok m d : memory_ok m ->
  exists r m', memory_write m d = Some (r, m') /\ memory_post m d r m'.
Proof.
  intros Hm. pose proof (received_blen m Hm) as Hl. destruct Hm as [H1 H2].
  unfold memory_write, memory_post. destruct (Z.ltb_spec (size m) (used m + blen d)).
  - do 2 eexists. split; [done|]. split; [done|]. split; [done|]. right. split_and!; [done..|lia].
  - pose proof (blen_nonneg d). destruct (mwrite_ok (buff m) (used m) d) as (b & Hb & Hbl & Hs & Hbefore); [lia..|].
    rewrite Hb. cbn [mbind option_bind]. do 2 eexists. split; [done|]. split; [split; cbn; lia|].
    split; [done|]. left. split; [done|]. unfold received. cbn.
    pose proof (sub_split b 0 (used m) (blen d)) as Hsp. rewrite Z.add_0_l, Hs in Hsp.
    rewrite (Hbefore 0 (used m)) in Hsp by lia. unfold sub in Hsp. change (Z.to_nat 0) with O in Hsp.
    rewrite !drop_0 in Hsp. by apply Hsp; lia.
Qed.

Lemma write_out_ok fuel c m p : memory_ok m -> (0 < length p)%nat -> (1 < fuel)%nat ->
  exists r m', write_out fuel c m p = Some (r, m') /\ memory_ok m' /\ size m' = size m /\
  (r = ARCHIVE_OK /\ received m' = received m ++ p \/
   r = ARCHIVE_FATAL /\ received m' = received m /\ size m < blen (received m) + blen p).
Proof.
  intros Hm Hp Hf. destruct fuel as [|[|fuel]]; [lia..|]. remember (S fuel) as k. cbn [write_out]. subst k.
  assert (0 < blen p) as Hbl by (unfold blen; lia). destruct (Z.ltb_spec 0 (blen p)); [|lia].
  change (client_writer m p) with (memory_write m p).
  destruct (memory_write_ok m p Hm) as (r & m' & -> & Hm' & Hs & Hor). cbn [mbind option_bind].
  destruct Hor as [(-> & Hr)|(-> & Hr & Hlt)].
  - destruct (Z.leb_spec (blen p) 0); [lia|]. rewrite (Z.ltb_irrefl (blen p)), andb_false_r.
    cbn [write_out]. rewrite drop_ge by (unfold blen; lia). change (0 <? blen []) with false.
    do 2 eexists. split; [done|]. split; [done|]. split; [done|]. by left.
  - do 2 eexists. split; [done|]. split; [done|]. split; [done|]. by right.
Qed.

Lemma full_blocks_ok fuel s d : memory_ok (client s) -> 0 < n_buffer_size s ->
  (length d < fuel)%nat ->
  exists r m' d', full_blocks fuel s d = Some (r, set_client_state s (n_buffer s) (n_next s) (n_avail s) m', d') /\
  memory_ok m' /\ size m' = size (client s) /\ (d = [] -> d' = [] /\ received m' = received (client s)) /\
  (r = ARCHIVE_OK /\ blen d' < n_buffer_size s /\ received m' ++ d' = received (client s) ++ d \/
   r = ARCHIVE_FATAL /\ size m' < blen (received (client s)) + blen d).
Proof.
  revert s d. induction fuel as [|fuel IH]; intros s d Hm Hs Hf; [lia|]. cbn [full_blocks].
  destruct (Z.leb_spec (n_buffer_size s) (blen d)) as [Hle|Hlt]; last first.
  { exists ARCHIVE_OK, (client s), d. split; [by destruct s|]. split; [done|]. split; [done|].
    split; [by intros ->|]. by left. }
  assert (d <> []) as Hne by (intros ->; unfold blen in *; cbn in *; lia).
  set (b := take (Z.to_nat (n_buffer_size s)) d).
  assert (blen b = n_buffer_size s) as Hb by (unfold b, blen in *; rewrite length_take; lia).
  change (client_writer (client s) b) with (memory_write (client s) b).
  destruct (memory_write_ok (client s) b Hm) as (r & m' & -> & Hm' & Hsz & Hor). cbn [mbind option_bind].
  destruct Hor as [(-> & Hr)|(-> & Hr & Hlt)].
  - destruct (Z.leb_spec (blen b) 0); [lia|]. rewrite Hb.
    destruct (IH (set_client_state s (n_buffer s) (n_next s) (n_avail s) m')
      (drop (Z.to_nat (n_buffer_size s)) d)) as (r & m2 & d' & He & Hm2 & Hs2 & _ & Hor2); [done|done| |].
    { rewrite length_drop. unfold blen in *. lia. }
    exists r, m2, d'. cbn in He, Hs2, Hor2. split; [exact He|]. split; [done|]. split; [congruence|]. split; [done|].
    assert (received m' ++ drop (Z.to_nat (n_buffer_size s)) d = received (client s) ++ d) as Hcat
      by (rewrite Hr, <- app_assoc; f_equal; apply take_drop).
    destruct Hor2 as [(-> & Hl & Hr2)|(-> & Hl)]; [left|right].
    + split_and!; [done..|]. by rewrite Hr2.
    + split; [done|]. rewrite <- blen_app, <- Hcat, blen_app. lia.
  - exists ARCHIVE_FATAL, m', d. split; [done|]. split; [done|]. split; [done|]. split; [done|]. right. split; [done|].
    assert (blen b <= blen d) by (unfold b, blen; rewrite length_take; lia). lia.
Qed.

(** Filling the block and flushing it when full. *)
Lemma fill_block_ok s d : client_ok s -> 
  exists r s' d', fill_block s d = Some (r, s', d') /\ size (client s') = size (client s) /\ client_ok s' /\
  (r = ARCHIVE_OK /\ taken s' ++ d' = taken s ++ d /\
     (d' = [] \/ n_next s' = 0) \/
   r = ARCHIVE_FATAL /\ size (client s) < blen (taken s) + blen d).
Proof.
  intros (Hm & Hs & Hb & Hn & Ha & Hna & Hlast). unfold fill_block.
  destruct (Z.ltb_spec (n_avail s) (n_buffer_size s)) as [Hlt|Hge]; last first.
  { exists ARCHIVE_OK, s, d. split; [done|]. split; [done|]. split; [by split_and!|]. left.
    split_and!; try done. right. lia. }
  set (k := if n_avail s <? blen d then n_avail s else blen d).
  assert (0 <= k <= blen d /\ k <= n_avail s /\ (k = n_avail s \/ k = blen d)) as (Hk1 & Hk2 & Hk3).
  { pose proof (blen_nonneg d). unfold k. destruct (Z.ltb_spec (n_avail s) (blen d)); lia. }
  clearbody k. set (x := take (Z.to_nat k) d).
  assert (blen x = k) as Hx by (unfold x, blen in *; rewrite length_take; lia).
  destruct (mwrite_ok (n_buffer s) (n_next s) x) as (b & -> & Hbl & Hsub & Hbefore); [lia..|].
  cbn [mbind option_bind].
  assert (take (Z.to_nat (n_next s + k)) b = take (Z.to_nat (n_next s)) (n_buffer s) ++ x) as Hblock.
  { pose proof (sub_split b 0 (n_next s) k) as Hsp. rewrite Hx in Hsub. rewrite Z.add_0_l in Hsp.
    rewrite Hsub, (Hbefore 0 (n_next s)) in Hsp by lia. by apply Hsp; lia. }
  cbn [n_avail set_client_state]. destruct (Z.eqb_spec (n_avail s - k) 0) as [Hz|Hz].
  - cbn [n_buffer_size n_buffer client n_next n_avail set_client_state].
    assert (n_next s + k = n_buffer_size s) as Hfull by lia.
    assert (blen (take (Z.to_nat (n_buffer_size s)) b) = n_buffer_size s) as Hpl
      by (unfold blen in *; rewrite length_take; lia).
    destruct (write_out_ok (Z.to_nat (n_buffer_size s) + 1) true (client s)
      (take (Z.to_nat (n_buffer_size s)) b) Hm) as (r & m' & -> & Hm' & Hsz & Hor);
      [unfold blen in *; lia|lia|]. cbn [mbind option_bind].
    rewrite <- Hfull, Hblock in Hor at 1. rewrite Hpl in Hor.
    destruct Hor as [(-> & Hr)|(-> & Hr & Hlt')].
    + do 3 eexists. split; [done|]. split; [done|]. split; [by split_and!; cbn; try lia|].
      left. split_and!; try done.
      * unfold taken. cbn. rewrite Hr, app_nil_r, <- !app_assoc. unfold x. by rewrite take_drop.
      * by right.
    + do 3 eexists. split; [done|]. split; [done|]. split; [by split_and!; cbn; try lia|].
      right. split; [done|]. unfold taken. rewrite blen_app.
      assert (blen (take (Z.to_nat (n_next s)) (n_buffer s)) = n_next s)
        by (unfold blen in *; rewrite length_take; lia). lia.
  - assert (k = blen d) as Hkd by lia. do 3 eexists. split; [done|]. split; [done|].
    split; [by split_and!; cbn; try lia|]. left. split_and!; try done.
    + unfold taken. cbn. rewrite Hblock, <- !app_assoc. unfold x. by rewrite take_drop.
    + left. apply drop_ge. unfold blen in *. lia.
Qed.

Lemma archive_write_client_write_ok s d : client_ok s -> d <> [] ->
  exists r s', archive_write_client_write s d = Some (r, s') /\
  size (client s') = size (client s) /\ client_ok s' /\
  (r = ARCHIVE_OK /\ taken s' = taken s ++ d \/
   r = ARCHIVE_FATAL /\ size (client s) < blen (taken s) + blen d).
Proof.
  intros Hs Hd. unfold archive_write_client_write.
  destruct (Z.eqb_spec (n_buffer_size s) 0) as [Hz|_]; [destruct Hs as (_ & ? & _); lia|].
  destruct (fill_block_ok s d Hs) as (r & s1 & d1 & -> & Hsz & Hs1 & Hor). cbn [mbind option_bind].
  destruct Hor as [(-> & Ht & Hcase)|(-> & Hlt)]; cbn [Z.eqb negb]; last first.
  { do 2 eexists. split; [done|]. split; [done|]. split; [done|]. by right. }
  assert (blen (taken s) + blen d = blen (taken s1) + blen d1) as Hlen by (rewrite <- !blen_app; by rewrite Ht).
  pose proof Hs1 as (Hm1 & Hp1 & Hb1 & Hn1 & Ha1 & Hna1 & Hl1).
  destruct (full_blocks_ok (length d1 + 1) s1 d1 Hm1 Hp1 ltac:(lia))
    as (r & m' & d2 & -> & Hm' & Hsz2 & Hempty & Hor). cbn [mbind option_bind].
  set (s2 := set_client_state s1 (n_buffer s1) (n_next s1) (n_avail s1) m').
  destruct Hor as [(-> & Hl2 & Hcat)|(-> & Hlt)]; cbn [Z.eqb negb]; last first.
  { do 2 eexists. split; [done|]. cbn. split; [congruence|]. split; [by split_and!|].
    right. split; [done|]. rewrite Hlen. unfold taken. rewrite blen_app.
    pose proof (blen_nonneg (take (Z.to_nat (n_next s1)) (n_buffer s1))). lia. }
  assert (client_ok s2) as Hs2 by (by split_and!).
  assert (taken s2 ++ d2 = taken s1 ++ d1) as Ht2.
  { destruct Hcase as [->|Hnx].
    - destruct (Hempty eq_refl) as [-> Hr]. unfold taken. cbn. by rewrite Hr.
    - unfold taken. cbn. rewrite Hnx. change (take (Z.to_nat 0) (n_buffer s1)) with (@nil Z).
      by rewrite !app_nil_r. }
  assert (taken s2 ++ d2 = taken s ++ d) as Htot by congruence.
  destruct (Z.ltb_spec 0 (blen d2)) as [Hpos|Hzero]; last first.
  { do 2 eexists. split; [done|]. split; [cbn; congruence|]. split; [done|]. left. split; [done|].
    destruct d2; [by rewrite app_nil_r in Htot|]. rewrite blen_cons in Hzero.
    pose proof (blen_nonneg d2). lia. }
  assert (n_next s1 = 0) as Hnx by (destruct Hcase as [->|]; [by destruct (Hempty eq_refl) as [-> _]|done]).
  destruct (mwrite_ok (n_buffer s2) (n_next s2) d2) as (b & -> & Hbl & Hsub & _); [cbn; lia..|].
  cbn [mbind option_bind]. do 2 eexists. split; [done|]. split; [cbn; congruence|].
  cbn in Hbl, Hsub. split; [|left; split; [done|]].
  - by split_and!; cbn; try lia.
  - rewrite <- Htot. unfold taken. cbn [client n_next n_buffer set_client_state s2]. rewrite Hnx in *.
    rewrite Z.add_0_l. unfold sub in Hsub. change (Z.to_nat 0) with O in *. rewrite drop_0 in Hsub.
    rewrite Hsub. by rewrite take_0, app_nil_r.
Qed.

Lemma archive_write_client_close_ok s : client_ok s ->
  exists r s', archive_write_client_close s = Some (r, s') /\ size (client s') = size (client s) /\
  memory_ok (client s') /\
  (r = ARCHIVE_OK /\ received (client s') = taken s \/
   r = ARCHIVE_FATAL /\ size (client s) < blen (taken s)).
Proof.
  intros (Hm & Hs & Hb & Hn & Ha & Hna & Hl). unfold archive_write_client_close.
  destruct (Z.eqb_spec (n_next s) 0) as [Hz|Hz].
  { do 2 eexists. split; [done|]. split; [done|]. split; [done|]. left. split; [done|]. unfold taken. rewrite Hz.
    change (take (Z.to_nat 0) (n_buffer s)) with (@nil Z). by rewrite app_nil_r. }
  rewrite Hl. change (1 <=? 0) with false. cbn iota.
  replace (n_buffer_size s - n_avail s) with (n_next s) by lia.
  replace (1 * ((n_next s + 1 - 1) / 1)) with (n_next s) by (rewrite Z.div_1_r; lia).
  destruct (Z.ltb_spec (n_buffer_size s) (n_next s)); [lia|].
  rewrite !Z.ltb_irrefl. cbn [mbind option_bind]. rewrite mread_Some by lia. cbn [mbind option_bind].
  change (Z.to_nat 0) with O. rewrite drop_0.
  set (block := take (Z.to_nat (n_next s)) (n_buffer s)).
  assert (blen block = n_next s) as Hbl by (unfold block, blen in *; rewrite length_take; lia).
  change (client_writer (client s) block) with (memory_write (client s) block).
  destruct (memory_write_ok (client s) block Hm) as (r & m' & -> & Hm' & Hsz & Hor).
  cbn [mbind option_bind]. do 2 eexists. split; [done|]. split; [done|]. split; [done|].
  destruct Hor as [(-> & Hr)|(-> & Hr & Hlt)].
  - left. destruct (Z.leb_spec (blen block) 0); [lia|]. by split.
  - right. split; [done|]. unfold taken. fold block. rewrite blen_app. lia.
Qed.

#[export] Instance client_sink_laws : SinkLaws (archive_none write_memory_data).
Proof.
  refine {| sink_ok := client_ok; accepted := taken; delivered := fun s => received (client s) |}.
  - intros s d Hs Hd. destruct (archive_write_client_write_ok s d Hs Hd) as (r & s' & H & _ & Hs' & Hor).
    exists r, s'. split; [exact H|]. split; [done|]. destruct Hor as [(-> & ?)|(-> & _)]; [by left|by right].
  - intros s Hs. destruct (archive_write_client_close_ok s Hs) as (r & s' & H & _ & _ & Hor).
    exists r, s'. split; [exact H|]. destruct Hor as [(-> & ?)|(-> & _)]; [by left|by right].
Defined.

Lemma client_open_ok junk n b : 0 < n ->
  client_ok (archive_write_client_open junk n 1 (memory_write_open b)) /\
  taken (archive_write_client_open junk n 1 (memory_write_open b)) = [].
Proof.
  intros Hn. pose proof (blen_nonneg b). pose proof (blen_realloc junk n ltac:(lia)).
  split; [|done]. split_and!; cbn; try lia. split; cbn; lia.
Qed.

(** C16. The blocks in which data reaches the client do not show.  For every
    sequence of writes of any sizes and every block size, if the memory the
    client was given holds the data then every call succeeds and after closing
    the memory holds exactly the concatenation; if it does not, some call
    reports a fatal error.  Nothing is ever written outside the block buffer
    or the client's memory. *)
Theorem client_output_refines (junk : Z -> Z) (n : Z) (b : bytes) (ds : list bytes) :
  0 < n -> Forall (fun d => d <> []) ds ->
  exists r s, write_all (archive_write_client_open junk n 1 (memory_write_open b)) ds = Some (r, s) /\
  if blen (concat ds) <=? blen b
  then r = ARCHIVE_OK /\ received (client s) = concat ds
  else r = ARCHIVE_FATAL.
Proof.
  intros Hn Hds. destruct (client_open_ok junk n b Hn) as [Ho Ht].
  assert (size (client (archive_write_client_open junk n 1 (memory_write_open b))) = blen b) as Hsz by done.
  revert Ho Ht Hsz. generalize (archive_write_client_open junk n 1 (memory_write_open b)).
  change ds with ([] ++ ds) at 2 3. change (@nil Z) with (concat (@nil bytes)) at 1.
  generalize (@nil bytes) as pre.
  induction Hds as [|d ds Hd Hds IH]; intros pre s Ho Ht Hsz.
  - cbn [write_all]. destruct (archive_write_client_close_ok s Ho) as (r & s' & He & Hs' & Hm & Hor).
    exists r, s'. split; [exact He|]. rewrite app_nil_r, <- Ht.
    destruct Hor as [(-> & Hr)|(-> & Hlt)].
    + pose proof (received_blen _ Hm) as Hrl. destruct Hm as [Hu _]. rewrite Hr in Hrl.
      destruct (Z.leb_spec (blen (taken s)) (blen b)); [done|lia].
    + destruct (Z.leb_spec (blen (taken s)) (blen b)); [lia|done].
  - cbn [write_all]. destruct (archive_write_client_write_ok s d Ho Hd) as (r & s' & He & Hs' & Ho' & Hor).
    rewrite He. cbn [mbind option_bind]. destruct Hor as [(-> & Ht')|(-> & Hlt)].
    + rewrite Z.eqb_refl. rewrite cons_middle, app_assoc. apply IH; [done| |congruence].
      rewrite Ht', Ht, List.concat_app. cbn. by rewrite app_nil_r.
    + change (ARCHIVE_FATAL =? ARCHIVE_OK) with false. cbn iota. do 2 eexists. split; [done|].
      rewrite List.concat_app, blen_app, <- Ht. cbn [concat]. rewrite blen_app.
      pose proof (blen_nonneg (concat ds)). destruct (Z.leb_spec (blen (taken s) + (blen d + blen (concat ds))) (blen b)); [lia|done].
Qed.

Lemma client_output_refines_witness :
  exists r s, write_all (archive_write_client_open (fun _ => 7) 4 1 (memory_write_open (zeros 12)))
    [str "hello"; str ", "; str "world"] = Some (r, s) /\
  r = ARCHIVE_OK /\ received (client s) = str "hello, world".
Proof.
  apply (client_output_refines (fun _ => 7) 4 (zeros 12) [str "hello"; str ", "; str "world"]).
  - lia.
  - repeat constructor; discriminate.
Defined.
