(* ===== verification/Raw.v ===== *)
(** The "raw" format of libarchive (archive_read_support_format_raw.c,
    archive_write_set_format_raw.c), copying an entry to a descriptor
    (archive_read_data_into_fd.c), and the two functions of boot.c made of them:
    decompressing a kernel to a file and compressing it back.

    A filter is an [Upstream] or a [Sink] as elsewhere; the functions of boot.c
    choose among three by the kind of compression.  Without compression the
    filter is the memory client of Readahead.v or Archivewrite.v. *)
From S2P Require Import Prelude Posix Util Readahead Archiveentry Archivewrite Boot.

(** ** Reading *)

Record raw_info := RawInfo { i_offset : Z; i_unconsumed : Z; i_end_of_file : bool }.

Record raw_read (U : Type) := RawReader {
  r_state : Z;
  r_filter : archive_read_filter U;
  r_info : raw_info
}.
Arguments RawReader {U}.
Arguments r_state {U}.
Arguments r_filter {U}.
Arguments r_info {U}.

Section Read.
Context {U : Type} `{Upstream U} (junk : Z -> Z).

Definition set_rstate (a : raw_read U) (s : Z) : raw_read U := RawReader s (r_filter a) (r_info a).

Definition archive_read_format_raw_bid (a : raw_read U) (best_bid : Z) : option (Z * raw_read U) :=
  if best_bid <? 1 then
    '(p, _, f) ← archive_read_filter_ahead junk (r_filter a) 1;
    let a := RawReader (r_state a) f (r_info a) in
    Some (match p with Some _ => 1 | None => -1 end, a)
  else Some (-1, a).

(** No filter of the program's raw archives sets a field of the entry that is
    looked at. *)
Definition archive_read_format_raw_read_header (a : raw_read U) (e : archive_entry)
  : option (Z * raw_read U * archive_entry) :=
  if i_end_of_file (r_info a) then Some (ARCHIVE_EOF, a, e)
  else
    let e := archive_entry_set_pathname e (Some (str "data")) in
    let e := archive_entry_set_filetype e AE_IFREG in
    let e := archive_entry_set_perm e 420 in
    Some (ARCHIVE_OK, a, e).

(** Consume the bytes we read last time. *)
Definition raw_consume (a : raw_read U) : option (raw_read U) :=
  let i := r_info a in
  if negb (i_unconsumed i =? 0) then
    '(_, f) ← archive_read_filter_consume (r_filter a) (i_unconsumed i);
    Some (RawReader (r_state a) f (RawInfo (i_offset i) 0 (i_end_of_file i)))
  else Some a.

(** A block of data and its offset; at the second end of file the offset is not
    set. *)
Definition archive_read_format_raw_read_data (a : raw_read U)
  : option (Z * bytes * option Z * raw_read U) :=
  a ← raw_consume a;
  let i := r_info a in
  if i_end_of_file i then Some (ARCHIVE_EOF, [], None, a)
  else
    '(b, avail, f) ← archive_read_filter_ahead junk (r_filter a) 1;
    if 0 <? avail then
      b ← b;
      b ← mread b 0 avail;
      Some (ARCHIVE_OK, b, Some (i_offset i),
            RawReader (r_state a) f (RawInfo (i_offset i + avail) avail false))
    else if 0 =? avail then
      Some (ARCHIVE_EOF, [], Some (i_offset i),
            RawReader (r_state a) f (RawInfo (i_offset i) (i_unconsumed i) true))
    else Some (s32 avail, [], Some (i_offset i), RawReader (r_state a) f i).

Definition archive_read_format_raw_read_data_skip (a : raw_read U) : option (Z * raw_read U) :=
  a ← raw_consume a;
  let i := r_info a in
  Some (ARCHIVE_OK, RawReader (r_state a) (r_filter a) (RawInfo (i_offset i) (i_unconsumed i) true)).

(** The functions of archive_read.c, for an archive whose one format is raw. *)
Definition check_magic (a : raw_read U) (states : Z) : bool := negb (Z.land (r_state a) states =? 0).

Definition archive_read_open1 (f : archive_read_filter U) : option (Z * raw_read U) :=
  let a := RawReader ARCHIVE_STATE_NEW f (RawInfo 0 0 false) in
  '(bid, a) ← archive_read_format_raw_bid a (-1);
  if bid <? 1 then Some (ARCHIVE_FATAL, set_rstate a ARCHIVE_STATE_FATAL)
  else Some (ARCHIVE_OK, set_rstate a ARCHIVE_STATE_HEADER).

Definition archive_read_data_skip (a : raw_read U) : option (Z * raw_read U) :=
  if negb (check_magic a ARCHIVE_STATE_DATA) then
    Some (ARCHIVE_FATAL, set_rstate a ARCHIVE_STATE_FATAL)
  else
    '(r, a) ← archive_read_format_raw_read_data_skip a;
    let r := if r =? ARCHIVE_EOF then ARCHIVE_OK else r in
    Some (r, set_rstate a ARCHIVE_STATE_HEADER).

Definition archive_read_next_header (a : raw_read U) (e : archive_entry)
  : option (Z * raw_read U * archive_entry) :=
  if negb (check_magic a (Z.lor ARCHIVE_STATE_HEADER ARCHIVE_STATE_DATA)) then
    Some (ARCHIVE_FATAL, set_rstate a ARCHIVE_STATE_FATAL, e)
  else
    let e := archive_entry_clear e in
    '(r1, a) ← (if r_state a =? ARCHIVE_STATE_DATA then archive_read_data_skip a
                else Some (ARCHIVE_OK, a));
    if (r1 =? ARCHIVE_EOF) || (r1 =? ARCHIVE_FATAL) then
      Some (ARCHIVE_FATAL, set_rstate a ARCHIVE_STATE_FATAL, e)
    else
      '(r2, a, e) ← archive_read_format_raw_read_header a e;
      let a := if r2 =? ARCHIVE_EOF then set_rstate a ARCHIVE_STATE_EOF
               else if (r2 =? ARCHIVE_OK) || (r2 =? ARCHIVE_WARN) then set_rstate a ARCHIVE_STATE_DATA
               else if r2 =? ARCHIVE_FATAL then set_rstate a ARCHIVE_STATE_FATAL
               else a in
      Some (if (r2 <? r1) || (r2 =? ARCHIVE_EOF) then r2 else r1, a, e).

Definition archive_read_data_block (a : raw_read U) : option (Z * bytes * option Z * raw_read U) :=
  if negb (check_magic a ARCHIVE_STATE_DATA) then
    Some (ARCHIVE_FATAL, [], None, set_rstate a ARCHIVE_STATE_FATAL)
  else archive_read_format_raw_read_data a.

End Read.

(** ** Copying to a descriptor *)

Definition MAX_WRITE := 1024 * 1024.

(** Zeros from [actual_offset] to [target_offset]. *)
Fixpoint write_zeros (fuel : nat) (fd nulls_size target_offset actual_offset : Z) : M Z :=
  match fuel with
  | O => lift None
  | S fuel =>
      if actual_offset <? target_offset then
        let to_write := if target_offset <? actual_offset + nulls_size
                        then target_offset - actual_offset else nulls_size in
        bytes_written ← write fd (zeros to_write);
        if bytes_written <? 0 then mret ARCHIVE_FATAL
        else write_zeros fuel fd nulls_size target_offset (actual_offset + bytes_written)
      else mret ARCHIVE_OK
  end.

Definition pad_to_offset (fd : Z) (can_lseek : bool) (nulls_size target_offset actual_offset : Z) : M Z :=
  if can_lseek then
    actual_offset ← lseek_cur fd (target_offset - actual_offset);
    mret (if negb (actual_offset =? target_offset) then ARCHIVE_FATAL else ARCHIVE_OK)
  else write_zeros (Z.to_nat (target_offset - actual_offset) + 1) fd nulls_size target_offset actual_offset.

(** All of a block, at most [MAX_WRITE] bytes at a time; [false] is a write
    error. *)
Fixpoint write_block (fuel : nat) (fd : Z) (p : bytes) (actual_offset : Z) : M (bool * Z) :=
  match fuel with
  | O => lift None
  | S fuel =>
      if 0 <? blen p then
        let bytes_to_write := if MAX_WRITE <? blen p then MAX_WRITE else blen p in
        bytes_written ← write fd (take (Z.to_nat bytes_to_write) p);
        if bytes_written <? 0 then mret (false, actual_offset)
        else write_block fuel fd (drop (Z.to_nat bytes_written) p) (actual_offset + bytes_written)
      else mret (true, actual_offset)
  end.

Section IntoFd.
Context {U : Type} `{Upstream U} (junk : Z -> Z).

Definition nulls_size := 16384.

(** The loop over the blocks ends with its result and the two offsets, of which
    [target_offset] starts indeterminate. *)
Fixpoint into_fd_loop (fuel : nat) (a : raw_read U) (fd : Z) (can_lseek : bool)
    (target_offset : option Z) (actual_offset : Z) : M (Z * option Z * Z * raw_read U) :=
  match fuel with
  | O => lift None
  | S fuel =>
      '(r, b, o, a) ← lift (archive_read_data_block junk a);
      let target_offset := match o with Some o => Some o | None => target_offset end in
      if negb (r =? ARCHIVE_OK) then mret (r, target_offset, actual_offset, a)
      else
        t ← lift target_offset;
        r ← (if actual_offset <? t then pad_to_offset fd can_lseek nulls_size t actual_offset
             else mret ARCHIVE_OK);
        if negb (r =? ARCHIVE_OK) then mret (r, target_offset, actual_offset, a)
        else
          let actual_offset := if actual_offset <? t then t else actual_offset in
          '(ok, actual_offset) ← write_block (length b + 1) fd b actual_offset;
          if negb ok then mret (ARCHIVE_FATAL, target_offset, actual_offset, a)
          else into_fd_loop fuel a fd can_lseek target_offset actual_offset
  end.

Definition archive_read_data_into_fd (a : raw_read U) (fd : Z) : M Z :=
  if negb (check_magic a ARCHIVE_STATE_DATA) then mret ARCHIVE_FATAL
  else
    can_lseek ← fstat_reg fd;
    '(r, target_offset, actual_offset, a) ←
      into_fd_loop (length (stream (r_filter a)) + 2) a fd can_lseek None 0;
    r ← (if r =? ARCHIVE_EOF then
           t ← lift target_offset;
           if actual_offset <? t then
             r2 ← pad_to_offset fd can_lseek nulls_size t actual_offset;
             mret (if negb (r2 =? ARCHIVE_OK) then r2 else r)
           else mret r
         else mret r);
    mret (if negb (r =? ARCHIVE_EOF) then r else ARCHIVE_OK).

End IntoFd.

(** ** Writing *)

(** How many entries were written. *)
Definition raw_new : Z := 0.

Section Write.
Context {W : Type} `{Sink W}.

Definition archive_write_raw_header (a : archive_write Z W) (e : archive_entry)
  : option (Z * archive_write Z W * archive_entry) :=
  if negb (archive_entry_filetype e =? AE_IFREG) then Some (ARCHIVE_FATAL, a, e)
  else if 0 <? format_data a then Some (ARCHIVE_FATAL, a, e)
  else Some (ARCHIVE_OK, set_format_data a (format_data a + 1), e).

Definition archive_write_raw_data (a : archive_write Z W) (buff : bytes)
  : option (Z * archive_write Z W) :=
  '(ret, a) ← archive_write_output a buff;
  Some (if 0 <=? ret then blen buff else ret, a).

(** Nothing is done at the end of an entry or of the archive. *)
#[export] Instance raw_format : Format Z W := {
  format_write_header := archive_write_raw_header;
  format_write_data := archive_write_raw_data;
  format_finish_entry a := Some (ARCHIVE_OK, a);
  format_close a := Some (ARCHIVE_OK, a)
}.

End Write.

(** ** The functions of boot.c *)

(** Opening a chain of output filters over a block of memory. *)
Class OutputChain (W : Type) `{Sink W} := {
  chain_open : bytes -> option (Z * W);
  chain_memory : W -> write_memory_data
}.

(** A pipeline of input filters: how many filters it has, and so the type of the
    data of the last one, depends on what is read. *)
Record pipeline := Pipe {
  p_data : Type;
  p_upstream : Upstream p_data;
  p_filter : archive_read_filter p_data
}.

(** The pipeline [choose_filters] builds over a block of memory, or its failure. *)
Abbreviation input_chain := (bytes -> option (option pipeline)).

(** The last step of the bidding: verify the filter by asking it for some data. *)
Definition verify_filter {U} `{Upstream U} (junk : Z -> Z) (f : archive_read_filter U)
  : option (option pipeline) :=
  '(_, avail, f) ← archive_read_filter_ahead junk f 1;
  Some (if avail <? 0 then None else Some (Pipe U _ f)).

(** The chains without a filter. *)
Definition none_output (junk : Z -> Z) : OutputChain (archive_none write_memory_data) := {|
  chain_open b := Some (ARCHIVE_OK, archive_write_client_open junk 10240 1 (memory_write_open b));
  chain_memory s := client s
|}.
Definition none_input (junk : Z -> Z) : input_chain :=
  fun b => verify_filter junk (new_filter (archive_read_open_memory b)).

Section Kernel.
Context (junk : Z -> Z).

(** The one entry is copied to the file; without a pipeline the archive is in
    the state of a fatal error, in which the calls fail. *)
Definition decompress_into (chain : input_chain) (k : bytes) (fd : Z) : M Z :=
  pl ← lift (chain k);
  match pl with
  | None => mret ARCHIVE_FATAL
  | Some (Pipe U up f) =>
      '(_, a) ← lift (archive_read_open1 junk f);
      '(_, a, _) ← lift (archive_read_next_header a archive_entry_new);
      archive_read_data_into_fd junk a fd
  end.

(** What the filters leave in the buffer of the size of the file, and how much;
    no result is looked at.  When the chain cannot be opened the other calls do
    nothing. *)
Definition compress_into {W} {SW : Sink W} {chain : OutputChain W} (data : bytes) (size : Z) (buffer : bytes)
  : option write_memory_data :=
  '(r, s) ← chain_open buffer;
  if negb (r =? ARCHIVE_OK) then Some (chain_memory s)
  else
    let a := Archive ARCHIVE_STATE_HEADER raw_new (WFilter ARCHIVE_WRITE_FILTER_STATE_OPEN s 0) in
    let e := archive_entry_new in
    let e := archive_entry_set_filetype e AE_IFREG in
    let e := archive_entry_set_size e size in
    '(_, a, _) ← archive_write_header a e;
    data ← mread data 0 size;
    '(_, a) ← archive_write_data a data;
    '(_, a) ← archive_write_close a;
    Some (chain_memory (f_data (filter_first a))).

Context (gzip_input lzma_input : input_chain) {GW LW : Type}.
Context `{SG : Sink GW, CG : !OutputChain GW, SL : Sink LW, CL : !OutputChain LW}.

(** The file is opened without [O_TRUNC]. *)
Definition bxxt_boot_decompress_to_file (ptr : bytes) (compression : Z) (file : path) : M Z :=
  df ← lift (bxxt_file_new file (Z.lor O_WRONLY O_CREAT) MODE_0644);
  '(r, df) ← bxxt_file_open df;
  if negb (r =? 0) then
    _ ← bxxt_file_close (Some df);
    mret BXXT_FAILED
  else
    r ← (if compression =? KERNEL_COMPRESSION_GZIP then decompress_into gzip_input ptr (f_fd df)
         else if compression =? KERNEL_COMPRESSION_LZMA then decompress_into lzma_input ptr (f_fd df)
         else decompress_into (none_input junk) ptr (f_fd df));
    _ ← bxxt_file_close (Some df);
    mret r.

(** The two counts are converted to [int]; their difference must be one. *)
Definition bxxt_boot_compress_from_file (file : path) (compression : Z) : M (option bxxt_buffer) :=
  sf ← lift (bxxt_file_new_mm file O_RDONLY MODE_0644);
  '(r, sf) ← bxxt_file_open sf;
  if negb (r =? 0) then
    _ ← bxxt_file_close (Some sf);
    mret None
  else
    let buffer := bxxt_buffer_create (f_size sf) in
    p ← lift (match f_ptr sf with MMapped m => Some m | _ => None end);
    m ← lift (if compression =? KERNEL_COMPRESSION_GZIP then compress_into (W := GW) p (f_size sf) (ptr buffer)
              else if compression =? KERNEL_COMPRESSION_LZMA then compress_into (W := LW) p (f_size sf) (ptr buffer)
              else compress_into (chain := none_output junk) p (f_size sf) (ptr buffer));
    let d := s32 (used m) - s32 (Util.size buffer) in
    buffer ← lift (if (- 2 ^ 31 <=? d) && (d <? 2 ^ 31)
                   then bxxt_buffer_resize junk (Buffer (Util.size buffer) (buff m)) d else None);
    _ ← bxxt_file_close (Some sf);
    mret (Some buffer).

End Kernel.

(** ** Vocabulary of the proofs *)

(** A world in which [fd] writes at [pos] to the file [p] that holds [F]. *)
Definition put (w : world) (fd : Z) (p : path) (fl pos : Z) (F : bytes) : world :=
  World (<[p := Regular F]> (w_fs w)) (<[fd := OFile p fl pos]> (w_fds w)) (w_permit w) (w_limit w).

(** What of [d] can be written at [pos]. *)
Definition room (w : world) (pos : Z) (d : bytes) : bytes := take (Z.to_nat (w_limit w - pos)) d.

(** A reader that will deliver [s] from offset [pos]. *)
Record delivers {U} `{UpstreamLaws U} (a : raw_read U) (pos : Z) (s : bytes) : Prop := {
  dl_state : r_state a = ARCHIVE_STATE_DATA;
  dl_valid : valid (r_filter a);
  dl_fatal : fatal (r_filter a) = false;
  dl_clean : clean (data (r_filter a));
  dl_offset : i_offset (r_info a) = pos;
  dl_unconsumed : 0 <= i_unconsumed (r_info a) <= blen (stream (r_filter a));
  dl_end : i_end_of_file (r_info a) = false;
  dl_stream : s = drop (Z.to_nat (i_unconsumed (r_info a))) (stream (r_filter a))
}.

(** ** Writing to a file *)

Lemma overwrite_app F pos a b :
  0 <= pos -> overwrite (overwrite F pos a) (pos + blen a) b = overwrite F pos (a ++ b).
Proof.
  intros Hp. unfold overwrite. set (G := F ++ zeros (pos - blen F)).
  assert (Z.to_nat pos <= length G)%nat as HG.
  { unfold G, blen, zeros. rewrite length_app, length_replicate. lia. }
  set (n := Z.to_nat pos) in *.
  set (H := take n G ++ a ++ drop (n + length a) G).
  assert (Z.to_nat (pos + blen a) = n + length a)%nat as -> by (unfold blen, n; lia).
  assert (length H >= n + length a)%nat as Hl.
  { unfold H. rewrite !length_app, length_take. lia. }
  assert (zeros (pos + blen a - blen H) = []) as Hz0.
  { unfold zeros. assert (Z.to_nat (pos + blen a - blen H) = O) as ->; [unfold blen, n in *; lia|done]. }
  rewrite Hz0, app_nil_r, length_app, <- !app_assoc.
  assert (length (take n G ++ a) = n + length a)%nat as Hta by (rewrite length_app, length_take; lia).
  unfold H. rewrite (app_assoc _ a), (take_app_length' (take n G ++ a)) by done. rewrite <- app_assoc. do 3 f_equal.
  rewrite <- drop_drop, drop_app_length' by done. rewrite drop_drop. f_equal. lia.
Qed.

Lemma overwrite_nil F pos : 0 <= pos <= blen F -> overwrite F pos [] = F.
Proof.
  intros Hp. unfold overwrite. assert (zeros (pos - blen F) = []) as ->.
  { unfold zeros. by replace (Z.to_nat _) with O by lia. }
  rewrite app_nil_r. cbn [app length]. rewrite Nat.add_0_r. apply take_drop.
Qed.

Lemma blen_overwrite F pos d : 0 <= pos -> pos + blen d <= blen (overwrite F pos d).
Proof. intros Hp. destruct (overwrite_spec F pos d Hp) as (_ & -> & _). lia. Qed.

Section Writing.
Context (w : world) (fd : Z) (p : path) (fl : Z) (Hfl : access_mode fl <> O_RDONLY).

Lemma write_put d pos F : 0 <= pos <= w_limit w ->
  (d <> [] -> pos < w_limit w) ->
  write fd d (put w fd p fl pos F) =
    Some (blen (room w pos d), put w fd p fl (pos + blen (room w pos d)) (overwrite F pos (room w pos d))).
Proof.
  intros Hp Hd. unfold write, put. cbn [w_fds w_fs w_limit w_permit]. rewrite lookup_insert_eq.
  cbn [of_path of_flags of_pos]. rewrite lookup_insert_eq.
  replace (access_mode fl =? O_RDONLY) with false by lia.
  assert (take (Z.to_nat (Z.min (blen d) (w_limit w - pos))) d = room w pos d) as Ht.
  { unfold room. destruct (Z.min_spec (blen d) (w_limit w - pos)) as [[H1 ->]|[H1 ->]]; [|done].
    rewrite !take_ge; [done|unfold blen in *; lia..]. }
  replace ((Z.min (blen d) (w_limit w - pos) <=? 0) && negb (blen d =? 0)) with false.
  2: { symmetry. destruct d as [|x d]; [by rewrite andb_false_r|].
       rewrite blen_cons. pose proof (blen_nonneg d). specialize (Hd ltac:(done)).
       apply andb_false_iff. left. lia. }
  by rewrite Ht, !insert_insert_eq.
Qed.

Lemma write_full d F : d <> [] -> 0 <= w_limit w ->
  write fd d (put w fd p fl (w_limit w) F) = Some (-1, put w fd p fl (w_limit w) F).
Proof.
  intros Hd Hl. unfold write, put. cbn [w_fds w_fs w_limit w_permit]. rewrite lookup_insert_eq.
  cbn [of_path of_flags of_pos]. rewrite lookup_insert_eq.
  replace (access_mode fl =? O_RDONLY) with false by lia.
  assert (0 < blen d) by (destruct d; [done|]; rewrite blen_cons; pose proof (blen_nonneg d); lia).
  replace ((Z.min (blen d) (w_limit w - w_limit w) <=? 0) && negb (blen d =? 0)) with true; [done|].
  symmetry. apply andb_true_iff. split; [lia|]. apply negb_true_iff. lia.
Qed.

Lemma blen_room pos d : pos <= w_limit w -> blen (room w pos d) = Z.min (blen d) (w_limit w - pos).
Proof. intros Hp. unfold room, blen. rewrite length_take. lia. Qed.

Lemma room_app pos a b : 0 <= pos -> pos + blen a <= w_limit w ->
  room w pos (a ++ b) = a ++ room w (pos + blen a) b.
Proof.
  intros Hp Ha. unfold room. rewrite take_app, (take_ge a) by (unfold blen in *; lia).
  do 2 f_equal. unfold blen in *. lia.
Qed.

Lemma room_short pos a b : 0 <= pos <= w_limit w -> w_limit w < pos + blen a -> room w pos (a ++ b) = room w pos a.
Proof. intros Hp Ha. unfold room. apply take_app_le. unfold blen in *. lia. Qed.

Lemma room_all pos d : pos + blen d <= w_limit w -> room w pos d = d.
Proof. intros Hd. unfold room. apply take_ge. unfold blen in *. lia. Qed.

(** The inner loop writes what there is room for. *)
Lemma write_block_ok fuel d pos F : (length d < fuel)%nat -> 0 <= pos <= w_limit w -> pos <= blen F ->
  write_block fuel fd d pos (put w fd p fl pos F) =
    Some ((blen d <=? w_limit w - pos, pos + blen (room w pos d)),
          put w fd p fl (pos + blen (room w pos d)) (overwrite F pos (room w pos d))).
Proof.
  revert d pos F. induction fuel as [|fuel IH]; intros d pos F Hf Hp HF; [lia|].
  cbn [write_block]. destruct (Z.ltb_spec 0 (blen d)) as [Hd|Hd].
  - set (n := if MAX_WRITE <? blen d then MAX_WRITE else blen d).
    assert (0 < n <= blen d) as Hn by (unfold n, MAX_WRITE; destruct (Z.ltb_spec (1024 * 1024) (blen d)); lia).
    clearbody n. destruct (decide (pos = w_limit w)) as [Hpl|Hpl].
    + assert (room w pos d = []) as Hr by (unfold room; by replace (Z.to_nat _) with O by lia).
      rewrite Hr. rewrite overwrite_nil by lia. change (blen []) with 0. rewrite Z.add_0_r.
      rewrite (M_bind_ok _ _ _ (-1) (put w fd p fl pos F)).
      * change (-1 <? 0) with true. cbn iota. replace (blen d <=? w_limit w - pos) with false by lia. done.
      * rewrite Hpl. apply write_full; [|lia]. intros E. apply (f_equal length) in E.
        rewrite length_take in E. unfold blen in *. cbn in E. lia.
    + set (c := take (Z.to_nat n) d).
      assert (blen c = n) as Hc by (unfold c, blen in *; rewrite length_take; lia).
      rewrite (M_bind_ok _ _ _ _ _ (write_put c pos F Hp ltac:(lia))).
      pose proof (blen_room pos c ltac:(lia)) as Hrc. set (r := room w pos c) in *.
      replace (blen r <? 0) with false by lia.
      assert (d = r ++ drop (Z.to_nat (blen r)) d) as Hsplit.
      { rewrite <- (take_drop (Z.to_nat (blen r)) d) at 1. f_equal. rewrite Hrc, Hc.
        unfold r, room, c. rewrite take_take. f_equal. lia. }
      set (d' := drop (Z.to_nat (blen r)) d) in *.
      assert (blen d = blen r + blen d') as Hld by (rewrite <- blen_app; by f_equal).
      rewrite IH; [| |lia|apply blen_overwrite; lia].
      * rewrite overwrite_app by lia.
        assert (room w pos d = r ++ room w (pos + blen r) d') as ->.
        { rewrite Hsplit at 1. apply room_app; lia. }
        rewrite blen_app, <- !Z.add_assoc. do 3 f_equal. lia.
      * unfold blen in *. unfold d'. rewrite length_drop. lia.
  - assert (d = []) as -> by (destruct d; [done|]; rewrite blen_cons in Hd; pose proof (blen_nonneg d); lia).
    assert (room w pos [] = []) as -> by apply take_nil.
    rewrite overwrite_nil by lia. change (blen []) with 0. rewrite Z.add_0_r.
    by replace (0 <=? w_limit w - pos) with true by lia.
Qed.

End Writing.

(** ** Reading blocks *)

Section Blocks.
Context {U : Type} `{UpstreamLaws U} (junk : Z -> Z).

Lemma raw_consume_ok (a : raw_read U) pos s : delivers a pos s ->
  exists a', raw_consume a = Some a' /\ delivers a' pos s /\ i_unconsumed (r_info a') = 0.
Proof.
  intros [Hst Hv Hf Hc Ho Hu He Hs]. unfold raw_consume.
  destruct (Z.eqb_spec (i_unconsumed (r_info a)) 0) as [Hz|Hz]; cbn [negb].
  { exists a. split; [done|]. by split. }
  destruct (consume_ok (r_filter a) (i_unconsumed (r_info a)) Hv Hf ltac:(lia))
    as ([x f] & -> & Hv' & Hc' & Hpost).
  cbn [mbind option_bind]. eexists. split; [done|]. split; [|done].
  destruct Hpost as [(_ & _ & Hs' & _ & Hf')|(_ & [[_ Hx]|(_ & Hx & _)])]; [|by destruct (Hx Hc)|lia].
  split; cbn; try done; [congruence|by eauto|pose proof (blen_nonneg (stream f)); lia|].
  by rewrite Hs', <- Hs.
Qed.

Lemma data_block_ok (a : raw_read U) pos s : delivers a pos s ->
  exists r b a', archive_read_data_block junk a = Some (r, b, Some pos, a') /\
  (r = ARCHIVE_OK /\ b <> [] /\ (exists t, s = b ++ t /\ delivers a' (pos + blen b) t) \/
   r = ARCHIVE_EOF /\ s = []).
Proof.
  intros Hd. unfold archive_read_data_block, check_magic. rewrite (dl_state _ _ _ Hd).
  change (negb (negb _)) with false. cbn iota. unfold archive_read_format_raw_read_data.
  destruct (raw_consume_ok a pos s Hd) as (a' & -> & [Hst Hv Hf Hc Ho Hu He Hs] & Hz).
  cbn [mbind option_bind]. rewrite He, Ho.
  destruct (ahead_ok junk (r_filter a') 1 Hv Hf ltac:(lia)) as ([[o n] f] & -> & Hv' & _ & Hc' & Hpost).
  cbn [mbind option_bind]. specialize (Hc' Hc). rewrite Hz in Hs. change (Z.to_nat 0) with O in Hs.
  rewrite drop_0 in Hs. subst s.
  destruct o as [b|].
  - destruct Hpost as (-> & Hn & (t & Ht) & Hs' & Hf'). replace (0 <? blen b) with true by lia.
    cbn [mbind option_bind]. rewrite mread_all. cbn [mbind option_bind].
    do 3 eexists. split; [done|]. left. split; [done|]. split; [by intros ->|].
    exists t. split; [done|]. split; cbn; try done; [congruence|..].
    + rewrite Hs', Ht, blen_app. pose proof (blen_nonneg t). lia.
    + rewrite Hs', Ht. by rewrite drop_app_length' by (unfold blen; lia).
  - destruct Hpost as [(_ & _ & Hx)|(_ & Hs' & [?|[Hn Hl]])]; [specialize (Hx Hc); lia|lia|].
    replace (0 <? n) with false by lia. replace (0 =? n) with true by lia.
    do 3 eexists. split; [done|]. right. split; [done|].
    destruct (stream (r_filter a')) as [|x l]; [done|]. rewrite blen_cons in Hl.
    pose proof (blen_nonneg l). lia.
Qed.

(** The archive is opened and its one header read. *)
Lemma raw_open_ok (f : archive_read_filter U) :
  valid f -> fatal f = false -> clean (data f) -> stream f <> [] ->
  exists a, archive_read_open1 junk f = Some (ARCHIVE_OK, a) /\
  forall e, exists a' e', archive_read_next_header a e = Some (ARCHIVE_OK, a', e') /\ delivers a' 0 (stream f).
Proof.
  intros Hv Hf Hc Hs. unfold archive_read_open1, archive_read_format_raw_bid.
  change (-1 <? 1) with true. cbn iota. cbn [r_filter].
  destruct (ahead_ok junk f 1 Hv Hf ltac:(lia)) as ([[o n] g] & -> & Hv' & _ & Hc' & Hpost).
  cbn [mbind option_bind]. specialize (Hc' Hc). destruct o as [b|].
  - destruct Hpost as (_ & _ & _ & Hs' & Hf'). change (1 <? 1) with false. cbn iota.
    eexists. split; [done|]. intros e. unfold archive_read_next_header, check_magic.
    cbn [r_state set_rstate r_filter r_info].
    change (negb (negb (Z.land ARCHIVE_STATE_HEADER (Z.lor ARCHIVE_STATE_HEADER ARCHIVE_STATE_DATA) =? 0)))
      with false.
    change (ARCHIVE_STATE_HEADER =? ARCHIVE_STATE_DATA) with false. cbn iota. cbn [mbind option_bind].
    change ((ARCHIVE_OK =? ARCHIVE_EOF) || (ARCHIVE_OK =? ARCHIVE_FATAL)) with false. cbn iota.
    unfold archive_read_format_raw_read_header. cbn [r_info i_end_of_file mbind option_bind].
    do 2 eexists. split; [done|]. split; cbn; try done; [congruence|pose proof (blen_nonneg (stream g)); lia].
  - destruct Hpost as [(_ & _ & Hx)|(_ & Hs' & [?|[_ Hl]])]; [specialize (Hx Hc); lia|lia|].
    exfalso. destruct (stream f) as [|x l]; [done|]. rewrite blen_cons in Hl. pose proof (blen_nonneg l). lia.
Qed.

Lemma open_empty (f : archive_read_filter U) :
  valid f -> fatal f = false -> clean (data f) -> stream f = [] ->
  exists a, archive_read_open1 junk f = Some (ARCHIVE_FATAL, a) /\ r_state a = ARCHIVE_STATE_FATAL.
Proof.
  intros Hv Hf Hc Hs. unfold archive_read_open1, archive_read_format_raw_bid.
  change (-1 <? 1) with true. cbn iota. cbn [r_filter].
  destruct (ahead_ok junk f 1 Hv Hf ltac:(lia)) as ([[o n] g] & -> & Hv' & _ & Hc' & Hpost).
  cbn [mbind option_bind]. destruct o as [b|]; [|by eexists].
  exfalso. destruct Hpost as (-> & Hn & (t & Ht) & _). rewrite Hs in Ht. symmetry in Ht.
  apply app_nil in Ht as [-> _]. change (blen []) with 0 in Hn. lia.
Qed.

Context (w : world) (fd : Z) (p : path) (fl : Z) (Hfl : access_mode fl <> O_RDONLY).

Lemma into_fd_loop_ok fuel (a : raw_read U) lk tgt pos s F : delivers a pos s -> (length s < fuel)%nat ->
  0 <= pos <= w_limit w -> pos <= blen F ->
  exists tgt' n a', into_fd_loop junk fuel a fd lk tgt pos (put w fd p fl pos F) =
    Some ((if blen s <=? w_limit w - pos then ARCHIVE_EOF else ARCHIVE_FATAL, tgt', n, a'),
          put w fd p fl (pos + blen (room w pos s)) (overwrite F pos (room w pos s))) /\
  (blen s <= w_limit w - pos -> tgt' = Some n).
Proof.
  revert a tgt pos s F. induction fuel as [|fuel IH]; intros a tgt pos s F Hd Hf Hp HF; [lia|].
  cbn [into_fd_loop]. destruct (data_block_ok a pos s Hd) as (r & b & a' & Hb & Hor).
  rewrite (M_lift_ok _ _ _ _ Hb). destruct Hor as [(-> & Hbn & (t & -> & Hd'))|(-> & ->)].
  - change (negb (ARCHIVE_OK =? ARCHIVE_OK)) with false. cbn iota.
    rewrite (M_lift_ok (Some pos) _ _ _ eq_refl). replace (pos <? pos) with false by lia.
    rewrite (M_bind_ok (mret ARCHIVE_OK) _ _ _ _ eq_refl).
    change (negb (ARCHIVE_OK =? ARCHIVE_OK)) with false. cbn iota.
    rewrite (M_bind_ok _ _ _ _ _ (write_block_ok w fd p fl Hfl (length b + 1) b pos F ltac:(lia) Hp HF)).
    pose proof (blen_nonneg t). rewrite blen_app.
    destruct (Z.leb_spec (blen b) (w_limit w - pos)) as [Hl|Hl]; cbn [negb].
    + rewrite (room_all w pos b) by lia.
      destruct (IH a' (Some pos) (pos + blen b) t (overwrite F pos b) Hd')
        as (tgt' & n & a'' & -> & Ht).
      * assert (0 < length b)%nat by (destruct b; [done|cbn; lia]). rewrite length_app in Hf. lia.
      * pose proof (blen_nonneg b). lia.
      * apply blen_overwrite. lia.
      * rewrite room_app, blen_app, overwrite_app by lia.
        replace (blen t <=? w_limit w - (pos + blen b)) with (blen b + blen t <=? w_limit w - pos)
          by (destruct (Z.leb_spec (blen b + blen t) (w_limit w - pos)),
                (Z.leb_spec (blen t) (w_limit w - (pos + blen b))); lia).
        rewrite <- Z.add_assoc. do 3 eexists. split; [done|]. intros. apply Ht. lia.
    + rewrite room_short by lia.
      replace (blen b + blen t <=? w_limit w - pos) with false by lia.
      do 3 eexists. split; [done|]. lia.
  - change (negb (ARCHIVE_EOF =? ARCHIVE_OK)) with true. cbn iota.
    assert (room w pos [] = []) as -> by apply take_nil. rewrite overwrite_nil by lia.
    change (blen []) with 0. rewrite Z.add_0_r. replace (0 <=? w_limit w - pos) with true by lia.
    by do 3 eexists.
Qed.

Lemma data_into_fd_ok (a : raw_read U) s F : delivers a 0 s -> 0 <= w_limit w ->
  archive_read_data_into_fd junk a fd (put w fd p fl 0 F) =
    Some (if blen s <=? w_limit w then ARCHIVE_OK else ARCHIVE_FATAL,
          put w fd p fl (blen (room w 0 s)) (overwrite F 0 (room w 0 s))).
Proof.
  intros Hd Hl. unfold archive_read_data_into_fd, check_magic. rewrite (dl_state _ _ _ Hd).
  change (negb (negb _)) with false. cbn iota.
  erewrite (M_bind_ok (fstat_reg fd)) by done. pose proof (blen_nonneg F).
  assert (length s < length (stream (r_filter a)) + 2)%nat as Hf.
  { rewrite (dl_stream _ _ _ Hd), length_drop. lia. }
  destruct (into_fd_loop_ok _ a
    (match o ← w_fds (put w fd p fl 0 F) !! fd; w_fs (put w fd p fl 0 F) !! of_path o with
     | Some (Regular _) => true | _ => false end) None 0 s F Hd Hf ltac:(lia) ltac:(lia))
    as (tgt & n & a' & He & Ht).
  rewrite (M_bind_ok _ _ _ _ _ He). rewrite Z.sub_0_r, Z.add_0_l in *.
  destruct (Z.leb_spec (blen s) (w_limit w)) as [Hs|Hs]; [|done].
  change (ARCHIVE_EOF =? ARCHIVE_EOF) with true. cbn iota. rewrite (Ht Hs).
  unfold mbind, M_bind, lift. cbn [mbind option_bind]. by replace (n <? n) with false by lia.
Qed.

End Blocks.

(** ** Decompressing and compressing a kernel *)

(** The pipeline reads [s] without an error. *)
Definition pipe_reads (pl : pipeline) (s : bytes) : Prop :=
  match pl with
  | Pipe U up f =>
      exists L : UpstreamLaws U, valid f /\ fatal f = false /\ clean (data f) /\ stream f = s
  end.

(** The chain reads [s] from [k]. *)
Definition decodes (chain : input_chain) (k s : bytes) : Prop :=
  exists pl, chain k = Some (Some pl) /\ pipe_reads pl s.

(** What the chain makes of [d] in a buffer, and whether it reported an error. *)
Definition encoded {W} {SW : Sink W} {chain : OutputChain W} (buffer d : bytes)
  : option (bool * write_memory_data) :=
  '(r, s) ← chain_open (W := W) buffer;
  if negb (r =? ARCHIVE_OK) then Some (false, chain_memory s)
  else
    '(r1, s) ← fwrite s d;
    '(r2, s) ← fclose s;
    Some ((r1 =? ARCHIVE_OK) && (r2 =? ARCHIVE_OK), chain_memory s).

(** Decompressing gives back [d] when it was compressed. *)
Definition inverse_chains (input : input_chain) (W : Type) {SW : Sink W} {chain : OutputChain W} (d : bytes) : Prop :=
  forall n m, n < 2 ^ 61 -> encoded (W := W) (zeros n) d = Some (true, m) -> decodes input (received m) d.

(** What a file holds before it is written to. *)
Definition old_contents (w : world) (p : path) : bytes :=
  match w_fs w !! p with Some (Regular d) => d | _ => [] end.

Definition C_FLAGS : Z := Z.lor O_WRONLY O_CREAT.

Lemma decompress_into_ok chain junk (w : world) fd p fl k s F :
  access_mode fl <> O_RDONLY -> decodes chain k s -> s <> [] -> 0 <= w_limit w ->
  decompress_into junk chain k fd (put w fd p fl 0 F) =
    Some (if blen s <=? w_limit w then ARCHIVE_OK else ARCHIVE_FATAL,
          put w fd p fl (blen (room w 0 s)) (overwrite F 0 (room w 0 s))).
Proof.
  intros Hfl ([U up f] & Hk & L & Hv & Hf & Hc & Hs) Hn Hl. unfold decompress_into.
  rewrite (M_lift_ok _ _ _ _ Hk). subst s.
  destruct (raw_open_ok junk f Hv Hf Hc Hn) as (a & Ho & Hh).
  rewrite (M_lift_ok _ _ _ _ Ho). destruct (Hh archive_entry_new) as (a' & e' & He & Hd).
  rewrite (M_lift_ok _ _ _ _ He). by apply data_into_fd_ok.
Qed.

(** An empty stream has no entry, and nothing is written. *)
Lemma decompress_into_empty chain junk (w : world) fd k :
  decodes chain k [] -> decompress_into junk chain k fd w = Some (ARCHIVE_FATAL, w).
Proof.
  intros ([U up f] & Hk & L & Hv & Hf & Hc & Hs). unfold decompress_into.
  rewrite (M_lift_ok _ _ _ _ Hk).
  destruct (open_empty junk f Hv Hf Hc Hs) as (a & Ho & Hst).
  rewrite (M_lift_ok _ _ _ _ Ho). unfold archive_read_next_header, check_magic. rewrite Hst.
  change (negb (negb _)) with true. cbn iota. by rewrite (M_lift_ok _ _ _ _ eq_refl).
Qed.

(** The file is opened for writing, created if need be, and not truncated. *)
Lemma open_creat w name :
  w_permit w name C_FLAGS = true -> w_fs w !! name <> Some Directory ->
  let fd := alloc_fd (w_fds w) in
  bxxt_file_open (File name C_FLAGS MODE_0644 false 0 0 MNull) w =
    Some ((0, File name C_FLAGS MODE_0644 false (blen (old_contents w name)) fd MNull),
          put w fd name C_FLAGS 0 (old_contents w name)).
Proof.
  intros Hp Hd fd. destruct (alloc_fd_free (w_fds w)) as [_ Hpos].
  assert (open name C_FLAGS MODE_0644 w = Some (fd, put w fd name C_FLAGS 0 (old_contents w name))) as Ho.
  { unfold open, put, old_contents. rewrite Hp. cbn [negb].
    destruct (w_fs w !! name) as [[d|]|] eqn:E; [|done|].
    - change (has_flag C_FLAGS O_TRUNC) with false. cbn [andb]. by rewrite (insert_id _ _ _ E).
    - by change (has_flag C_FLAGS O_CREAT) with true. }
  unfold bxxt_file_open. cbn [f_name o_flags f_mode f_mm f_size f_ptr]. rewrite (M_bind_ok _ _ _ _ _ Ho).
  replace (fd =? -1) with false by (unfold fd; lia).
  erewrite (M_bind_ok (fstat_size fd)).
  2: { unfold fstat_size, put. cbn [w_fds w_fs]. rewrite lookup_insert_eq. cbn [mbind option_bind of_path].
       by rewrite lookup_insert_eq. }
  done.
Qed.

Lemma close_put w name fl pos F sz :
  w_fds w !! 0 <> None ->
  bxxt_file_close (Some (File name fl MODE_0644 false sz (alloc_fd (w_fds w)) MNull))
      (put w (alloc_fd (w_fds w)) name fl pos F) =
    Some (tt, World (<[name := Regular F]> (w_fs w)) (w_fds w) (w_permit w) (w_limit w)).
Proof.
  intros H0. destruct (alloc_fd_free (w_fds w)) as [Hfree Hpos].
  set (fd := alloc_fd (w_fds w)) in *.
  assert (fd <> 0) by (intros E; rewrite E in Hfree; done).
  unfold bxxt_file_close, bxxt_file_close_no_free. cbn [f_fd].
  replace (negb (fd =? 0) && negb (fd =? -1)) with true by lia.
  unfold mbind, M_bind, close, put. cbn [w_fds w_fs w_permit w_limit].
  by rewrite lookup_insert_eq, delete_insert_id by done.
Qed.

(** The header of the one entry is not written. *)
Lemma raw_header_ok {W} {SW : Sink W} (s : W) n size :
  archive_write_header (Archive ARCHIVE_STATE_HEADER raw_new (WFilter ARCHIVE_WRITE_FILTER_STATE_OPEN s n))
      (archive_entry_set_size (archive_entry_set_filetype archive_entry_new AE_IFREG) size) =
    Some (ARCHIVE_OK, Archive ARCHIVE_STATE_DATA 1 (WFilter ARCHIVE_WRITE_FILTER_STATE_OPEN s n),
      archive_entry_set_size (archive_entry_set_filetype archive_entry_new AE_IFREG) size).
Proof. reflexivity. Qed.

(** The archive calls come down to one write and the close of the chain. *)
Lemma compress_into_ok {W} {SW : Sink W} {chain : OutputChain W} d k buffer b m :
  d <> [] -> blen d < 2 ^ 31 -> encoded buffer d = Some (b, m) ->
  compress_into (W := W) (d ++ k) (blen d) buffer = Some m.
Proof.
  intros Hd Hl. unfold encoded, compress_into.
  destruct (chain_open buffer) as [[r s0]|]; [|done]. cbn [mbind option_bind].
  destruct (negb (r =? ARCHIVE_OK)); [by intros [= _ <-]|].
  destruct (fwrite s0 d) as [[r1 s1]|] eqn:E1; [|done]. cbn [mbind option_bind].
  destruct (fclose s1) as [[r2 s2]|] eqn:E2; [|done]. cbn [mbind option_bind]. intros [= _ <-].
  rewrite raw_header_ok. cbn [mbind option_bind].
  pose proof (mread_app [] d k) as Hr. change (blen []) with 0 in Hr. cbn [app] in Hr. rewrite Hr.
  cbn [mbind option_bind].
  unfold archive_write_data, archive_check_magic. cbn [state set_state].
  change (negb (negb (Z.land ARCHIVE_STATE_DATA ARCHIVE_STATE_DATA =? 0))) with false. cbn iota.
  replace (2 ^ 31 - 1 <? blen d) with false by lia.
  cbn [format_write_data raw_format]. unfold archive_write_raw_data, archive_write_output, archive_write_filter_.
  cbn [filter_first set_state set_format_data f_state f_data].
  rewrite bool_decide_true by done. cbn [negb].
  assert (0 < blen d) by (destruct d; [done|]; rewrite blen_cons; pose proof (blen_nonneg d); lia).
  replace (blen d =? 0) with false by lia. rewrite E1. cbn [mbind option_bind].
  unfold archive_write_close, archive_check_magic. cbn [state set_state].
  change (negb (negb (Z.land ARCHIVE_STATE_DATA (Z.lor ARCHIVE_STATE_ANY ARCHIVE_STATE_FATAL) =? 0)))
    with false. cbn iota.
  change ((ARCHIVE_STATE_DATA =? ARCHIVE_STATE_NEW) || (ARCHIVE_STATE_DATA =? ARCHIVE_STATE_CLOSED)) with false.
  cbn iota. rewrite Z.eqb_refl. cbn [format_finish_entry format_close raw_format mbind option_bind].
  unfold archive_write_filters_close. cbn [filter_first f_state f_data].
  rewrite bool_decide_true by done. rewrite E2. by cbn [mbind option_bind].
Qed.

(** *** Chains *)

(** A chain of output filters over [n] bytes of memory stays inside it. *)
Class OutputChainLaws (W : Type) {SW : Sink W} {chain : OutputChain W} := {
  encoded_law (n : Z) (d : bytes) : 0 <= n -> d <> [] ->
    exists b m, encoded (W := W) (zeros n) d = Some (b, m) /\ memory_ok m /\ Archivewrite.size m = n
}.

(** A pipeline is verified without a change of what it reads. *)
Lemma verify_ok {U} `{UpstreamLaws U} junk (f : archive_read_filter U) :
  valid f -> fatal f = false -> clean (data f) ->
  exists pl, verify_filter junk f = Some (Some pl) /\ pipe_reads pl (stream f).
Proof.
  intros Hv Hf Hc. unfold verify_filter.
  destruct (ahead_ok junk f 1 Hv Hf ltac:(lia)) as ([[o n] g] & -> & Hv' & _ & Hc' & Hpost).
  cbn [mbind option_bind]. specialize (Hc' Hc). destruct o as [b|].
  - destruct Hpost as (-> & Hn & _ & Hs & Hf'). replace (blen b <? 0) with false by lia.
    eexists. split; [done|]. eexists. split_and!; [exact Hv'|congruence|done|done].
  - destruct Hpost as [(_ & _ & Hx)|(Hf' & Hs & [?|[Hn _]])]; [specialize (Hx Hc); lia|lia|].
    replace (n <? 0) with false by lia. eexists. split; [done|].
    eexists. split_and!; [exact Hv'|congruence|done|done].
Qed.

Lemma memory_valid k : k <> [] -> valid (new_filter (archive_read_open_memory k)).
Proof.
  intros Hk. assert (0 < blen k) by (destruct k; [done|]; rewrite blen_cons; pose proof (blen_nonneg k); lia).
  apply new_filter_valid. split; cbn; lia.
Qed.

Lemma none_decodes junk k : k <> [] -> decodes (none_input junk) k k.
Proof.
  intros Hk. unfold decodes, none_input.
  destruct (verify_ok junk (new_filter (archive_read_open_memory k)) (memory_valid k Hk)) as (pl & Hv & Hr);
    [done|done|]. by exists pl.
Qed.

Lemma none_encoded junk n d : 0 <= n -> d <> [] ->
  exists m, encoded (chain := none_output junk) (zeros n) d = Some (blen d <=? n, m) /\
  memory_ok m /\ Archivewrite.size m = n /\ (blen d <= n -> received m = d).
Proof.
  intros Hn Hd. unfold encoded. cbn [chain_open none_output mbind option_bind].
  change (negb (ARCHIVE_OK =? ARCHIVE_OK)) with false. cbn iota.
  destruct (client_open_ok junk 10240 (zeros n) ltac:(lia)) as [Ho Ht].
  set (s := archive_write_client_open junk 10240 1 (memory_write_open (zeros n))) in *.
  assert (Archivewrite.size (client s) = n) as Hs by (cbn; rewrite blen_zeros; lia).
  cbn [fwrite client_sink].
  destruct (archive_write_client_write_ok s d Ho Hd) as (r1 & s1 & -> & Hs1 & Ho1 & Hor1).
  cbn [mbind option_bind fclose client_sink].
  destruct (archive_write_client_close_ok s1 Ho1) as (r2 & s2 & -> & Hs2 & Hm2 & Hor2).
  cbn [mbind option_bind chain_memory none_output]. exists (client s2). pose proof (received_blen _ Hm2) as Hrl.
  rewrite Ht in Hor1. change (blen []) with 0 in Hor1. cbn [app] in Hor1. destruct Hm2 as [Hu Hb].
  destruct Hor1 as [(-> & Ht1)|(-> & Hlt1)].
  - rewrite Ht1 in Hor2. destruct Hor2 as [(-> & Hr)|(-> & Hlt2)].
    + rewrite Hr in Hrl. replace (blen d <=? n) with true by lia.
      split; [done|]. split; [done|]. split; [congruence|done].
    + replace (blen d <=? n) with false by lia. split; [done|]. split; [done|]. split; [congruence|lia].
  - replace (blen d <=? n) with false by lia. split; [done|]. split; [done|]. split; [congruence|lia].
Qed.

Lemma none_output_laws junk : OutputChainLaws (archive_none write_memory_data) (chain := none_output junk).
Proof.
  split. intros n d Hn Hd. destruct (none_encoded junk n d Hn Hd) as (m & He & Hm & Hs & _). by eauto.
Qed.

Lemma none_received junk n d m : d <> [] -> encoded (chain := none_output junk) (zeros n) d = Some (true, m) ->
  received m = d.
Proof.
  intros Hd He. assert (exists n', 0 <= n' /\ zeros n = zeros n') as (n' & Hn' & Hz).
  { destruct (decide (0 <= n)); [by exists n|]. exists 0. split; [lia|]. unfold zeros.
    by replace (Z.to_nat n) with O by lia. }
  rewrite Hz in He. destruct (none_encoded junk n' d Hn' Hd) as (m' & He' & _ & _ & Hr).
  rewrite He in He'. injection He' as Hb <-. symmetry in Hb. apply Z.leb_le in Hb. by apply Hr.
Qed.

Lemma none_inverse junk d : d <> [] ->
  inverse_chains (none_input junk) (archive_none write_memory_data) (chain := none_output junk) d.
Proof.
  intros Hd n m _ He. rewrite (none_received junk n d m Hd He). by apply none_decodes.
Qed.

(** *** The three kinds of compression *)

Section Spec.
Context (junk : Z -> Z).
Context (gzip_input lzma_input : input_chain) {GW LW : Type}.
Context `{SG : Sink GW, CG : !OutputChain GW, !OutputChainLaws GW}.
Context `{SL : Sink LW, CL : !OutputChain LW, !OutputChainLaws LW}.

Definition kernel_decodes (compression : Z) (k s : bytes) : Prop :=
  if compression =? KERNEL_COMPRESSION_GZIP then decodes gzip_input k s
  else if compression =? KERNEL_COMPRESSION_LZMA then decodes lzma_input k s
  else decodes (none_input junk) k s.

Definition kernel_encoded (compression : Z) (buffer d : bytes) : option (bool * write_memory_data) :=
  if compression =? KERNEL_COMPRESSION_GZIP then encoded (W := GW) buffer d
  else if compression =? KERNEL_COMPRESSION_LZMA then encoded (W := LW) buffer d
  else encoded (chain := none_output junk) buffer d.

Abbreviation decompress_to_file := (bxxt_boot_decompress_to_file junk gzip_input lzma_input).
Abbreviation compress_from_file := (bxxt_boot_compress_from_file (GW := GW) (LW := LW) junk).

Lemma kernel_encoded_ok compression n d : 0 <= n -> d <> [] ->
  exists b m, kernel_encoded compression (zeros n) d = Some (b, m) /\ memory_ok m /\ Archivewrite.size m = n.
Proof.
  intros Hn Hd. unfold kernel_encoded. repeat case_match; [by apply encoded_law..|].
  by apply (encoded_law (OutputChainLaws := none_output_laws junk)).
Qed.

Lemma decompress_runs w ptr compression file s :
  blen file < PATH_MAX -> w_permit w file C_FLAGS = true -> w_fs w !! file <> Some Directory ->
  w_fds w !! 0 <> None -> 0 <= w_limit w -> s <> [] -> kernel_decodes compression ptr s ->
  decompress_to_file ptr compression file w =
    Some (if blen s <=? w_limit w then ARCHIVE_OK else ARCHIVE_FATAL,
      World (<[file := Regular (overwrite (old_contents w file) 0 (room w 0 s))]> (w_fs w)) (w_fds w)
        (w_permit w) (w_limit w)).
Proof.
  intros Hn Hp Hd Hz Hl Hs Hk. unfold bxxt_boot_decompress_to_file. fold C_FLAGS.
  assert (bxxt_file_new file C_FLAGS MODE_0644 = Some (File file C_FLAGS MODE_0644 false 0 0 MNull)) as Hnew.
  { unfold bxxt_file_new. by replace (blen file <? PATH_MAX) with true by lia. }
  rewrite (M_lift_ok _ _ _ _ Hnew), (M_bind_ok _ _ _ _ _ (open_creat w file Hp Hd)).
  change (negb (0 =? 0)) with false. cbn iota. cbn [f_fd].
  assert (access_mode C_FLAGS <> O_RDONLY) as Hfl by done.
  set (fd := alloc_fd (w_fds w)) in *.
  erewrite M_bind_ok.
  2: { unfold kernel_decodes in Hk. repeat case_match; by apply decompress_into_ok. }
  by rewrite (M_bind_ok _ _ _ _ _ (close_put w file _ _ _ _ Hz)).
Qed.

Lemma compress_runs w file compression d b m :
  blen file < PATH_MAX -> w_permit w file O_RDONLY = true -> w_fs w !! file = Some (Regular d) ->
  w_fds w !! 0 <> None -> d <> [] -> blen d < 2 ^ 31 ->
  kernel_encoded compression (zeros (blen d)) d = Some (b, m) ->
  compress_from_file file compression w = Some (Some (Buffer (used m) (received m)), w).
Proof.
  intros Hn Hp Hf Hz Hd Hl Hk. unfold bxxt_boot_compress_from_file.
  assert (bxxt_file_new_mm file O_RDONLY MODE_0644 = Some (File file O_RDONLY MODE_0644 true 0 0 MNull)) as Hnew.
  { unfold bxxt_file_new_mm, bxxt_file_new. by replace (blen file <? PATH_MAX) with true by lia. }
  rewrite (M_lift_ok _ _ _ _ Hnew).
  destruct (open_mm w (File file O_RDONLY MODE_0644 true 0 0 MNull) d) as (fd & Hfd & Hpos & Ho); [done..|].
  rewrite (M_bind_ok _ _ _ _ _ Ho). change (negb (0 =? 0)) with false. cbn iota.
  cbn [f_ptr f_size f_name o_flags f_mode]. rewrite (M_lift_ok (Some _) _ _ _ eq_refl).
  unfold bxxt_buffer_create, bxxt_malloc. cbn [ptr Util.size]. unfold map_pages.
  erewrite M_lift_ok.
  2: { unfold kernel_encoded in Hk. repeat case_match; by eapply compress_into_ok. }
  destruct (kernel_encoded_ok compression (blen d) d (blen_nonneg d) Hd) as (b' & m' & Hk' & Hm & Hs).
  rewrite Hk in Hk'. injection Hk' as <- <-. destruct Hm as [Hu Hb].
  rewrite !s32_small by lia.
  replace ((-2 ^ 31 <=? used m - blen d) && (used m - blen d <? 2 ^ 31)) with true by lia.
  rewrite (M_lift_ok _ _ _ (Buffer (used m) (received m))).
  2: { rewrite <- Hs. apply (resize_shrink junk (Buffer (Archivewrite.size m) (buff m))); [split; cbn; lia|cbn; lia]. }
  unfold bxxt_file_close, bxxt_file_close_no_free. cbn [f_fd].
  replace (negb (fd =? 0) && negb (fd =? -1)) with true by lia.
  unfold mbind, M_bind. by rewrite close_restores.
Qed.
End Spec.

(** ** Theorems *)

(** C7. Compressing a kernel and decompressing the result.  For every kind of
    compression and every file, neither empty nor too large, on which the filters
    are inverse to each other: compressing always returns a buffer, and never
    an error.  If the filters had room for their output in a buffer of the size
    of the file, which they always have without compression, decompressing that
    buffer puts the contents of the file over those of the destination, as far as
    the medium has room, and reports whether it had.  The destination is not
    truncated: what it held behind the new contents stays. *)
Theorem kernel_roundtrip (junk : Z -> Z) (gzip_input lzma_input : input_chain) {GW LW}
    `{SG : Sink GW, CG : !OutputChain GW, !OutputChainLaws GW}
    `{SL : Sink LW, CL : !OutputChain LW, !OutputChainLaws LW}
    (w : world) (file : path) (compression : Z) (d : bytes) :
  inverse_chains gzip_input GW d -> inverse_chains lzma_input LW d ->
  blen file < PATH_MAX -> w_permit w file O_RDONLY = true -> w_fs w !! file = Some (Regular d) ->
  w_fds w !! 0 <> None -> d <> [] -> blen d < 2 ^ 31 ->
  exists b m,
  kernel_encoded (GW := GW) (LW := LW) junk compression (zeros (blen d)) d = Some (b, m) /\
  bxxt_boot_compress_from_file (GW := GW) (LW := LW) junk file compression w =
    Some (Some (Buffer (used m) (received m)), w) /\
  (compression <> KERNEL_COMPRESSION_GZIP -> compression <> KERNEL_COMPRESSION_LZMA ->
     b = true /\ received m = d) /\
  (b = true -> forall w' dst,
     blen dst < PATH_MAX -> w_permit w' dst C_FLAGS = true -> w_fs w' !! dst <> Some Directory ->
     w_fds w' !! 0 <> None -> 0 <= w_limit w' ->
     bxxt_boot_decompress_to_file junk gzip_input lzma_input (received m) compression dst w' =
       Some (if blen d <=? w_limit w' then ARCHIVE_OK else ARCHIVE_FATAL,
         let new := take (Z.to_nat (w_limit w')) d in
         World (<[dst := Regular (new ++ drop (length new) (old_contents w' dst))]> (w_fs w')) (w_fds w')
           (w_permit w') (w_limit w'))).
Proof.
  intros Hig Hil Hn Hp Hf Hz Hd Hl.
  destruct (kernel_encoded_ok junk (GW := GW) (LW := LW) compression (blen d) d (blen_nonneg d) Hd)
    as (b & m & Hk & Hm & Hs).
  exists b, m. split; [exact Hk|]. split; [by eapply compress_runs|]. split.
  - intros Hg Hlz. unfold kernel_encoded in Hk. rewrite !(proj2 (Z.eqb_neq _ _)) in Hk by done.
    destruct (none_encoded junk (blen d) d (blen_nonneg d) Hd) as (m' & Hk' & _ & _ & Hr).
    rewrite Hk in Hk'. rewrite Z.leb_refl in Hk'. injection Hk' as -> <-. split; [done|]. apply Hr. lia.
  - intros -> w' dst Hn' Hp' Hd' Hz' Hl'. rewrite (decompress_runs junk gzip_input lzma_input w' _ compression dst d) by
      (done || (unfold kernel_decodes, kernel_encoded in *; repeat case_match;
        [eapply Hig|eapply Hil|eapply none_inverse]; try done; lia)).
    do 2 f_equal. unfold room. rewrite Z.sub_0_r. set (new := take _ d).
    assert (overwrite (old_contents w' dst) 0 new = new ++ drop (length new) (old_contents w' dst)) as ->; [|done].
    unfold overwrite. assert (zeros (0 - blen (old_contents w' dst)) = []) as ->.
    { unfold zeros. pose proof (blen_nonneg (old_contents w' dst)). by replace (Z.to_nat _) with O by lia. }
    by rewrite app_nil_r.
Qed.

(** A short kernel over a longer file. *)
Definition sample_disk : world :=
  World (<[str "in" := Regular (str "KERNEL")]> {[ str "out" := Regular (str "an older kernel") ]})
    {[ 0 := OFile (str "tty") O_RDWR 0 ]} (fun _ _ => true) (2 ^ 20).

Lemma kernel_roundtrip_witness :
  exists k,
  bxxt_boot_compress_from_file (CG := none_output (fun _ => 7)) (CL := none_output (fun _ => 7)) (fun _ => 7)
    (str "in") 0 sample_disk = Some (Some k, sample_disk) /\
  bxxt_boot_decompress_to_file (fun _ => 7) (none_input (fun _ => 7)) (none_input (fun _ => 7))
    (ptr k) 0 (str "out") sample_disk =
    Some (ARCHIVE_OK, World (<[str "out" := Regular (str "KERNELer kernel")]> (w_fs sample_disk))
      (w_fds sample_disk) (w_permit sample_disk) (w_limit sample_disk)).
Proof.
  destruct (kernel_roundtrip (fun _ => 7) (none_input (fun _ => 7)) (none_input (fun _ => 7)) (CG := none_output (fun _ => 7)) (CL := none_output (fun _ => 7))
    (OutputChainLaws0 := none_output_laws (fun _ => 7)) (OutputChainLaws1 := none_output_laws (fun _ => 7))
    sample_disk (str "in") 0 (str "KERNEL")) as (b & m & _ & Hc & Hb & Hd).
  - by apply none_inverse.
  - by apply none_inverse.
  - reflexivity.
  - reflexivity.
  - vm_compute. reflexivity.
  - vm_compute. discriminate.
  - discriminate.
  - reflexivity.
  - exists (Buffer (used m) (received m)). split; [exact Hc|]. cbn [ptr].
    rewrite (Hd (proj1 (Hb ltac:(discriminate) ltac:(discriminate))));
      [vm_compute; reflexivity|reflexivity|reflexivity|vm_compute; discriminate..].
Defined.
