(* ===== verification/Gzip.v ===== *)
(** The gzip filters of libarchive (archive_write_add_filter_gzip.c,
    archive_read_support_filter_gzip.c) and the bidding that puts them in front of
    a block of memory ([choose_filters] of archive_read.c).

    The compression library zlib is an interface, two classes of operations with
    laws that state what its manual promises: [deflate] takes input and fills an
    output buffer until one of the two is used up, and [inflate] undoes it,
    whatever the pieces either sees.  [None] is an access outside an object. *)
From S2P Require Boot.
From S2P Require Import Prelude Posix Util Readahead Archiveentry Archivewrite Raw.

Definition Z_OK := 0.
Definition Z_STREAM_END := 1.

(** ** zlib *)

(** A call returns its result, how much input it took, the output and the new
    state; the flag is [Z_FINISH].  [deflate_left] bounds the output to come
    ([deflateBound]). *)
Class Deflate (DS : Type) := {
  deflateInit2 : Z -> Z * DS;
  deflate : DS -> bytes -> Z -> bool -> Z * Z * bytes * DS;
  deflateEnd : DS -> Z;
  deflate_left : DS -> bytes -> nat;
  crc32 : Z -> bytes -> Z
}.

(** [inflate_all] is what the state makes of all of its input: the output, and
    the rest of the input behind the end of the stream unless there is an error
    or the input ends. *)
Class Inflate (IS : Type) := {
  inflateInit2 : Z * IS;
  inflate : IS -> bytes -> Z -> Z * Z * bytes * IS;
  inflateEnd : IS -> Z;
  inflate_all : IS -> bytes -> bytes * option bytes
}.

(** ** Writing *)

(** The buffer [compressed], of which [avail_out] bytes are free at the end. *)
Record gzip_writer (DS W : Type) := GzipWriter {
  compression_level : Z;
  timestamp : Z;
  w_stream : DS;
  next_in : bytes;
  avail_out : Z;
  total_in : Z;
  compressed : bytes;
  compressed_buffer_size : Z;
  w_crc : Z;
  next_filter : archive_write_filter W
}.
Arguments GzipWriter {DS W}.
Arguments compression_level {DS W}.
Arguments timestamp {DS W}.
Arguments w_stream {DS W}.
Arguments next_in {DS W}.
Arguments avail_out {DS W}.
Arguments total_in {DS W}.
Arguments compressed {DS W}.
Arguments compressed_buffer_size {DS W}.
Arguments w_crc {DS W}.
Arguments next_filter {DS W}.

Section Write.
Context {DS W : Type} `{Deflate DS, Sink W} (junk : Z -> Z).

(** The result of [archive_compressor_gzip_options] and the two options. *)
Definition archive_compressor_gzip_options (level ts : Z) (key : bytes) (value : option bytes) : Z * Z * Z :=
  if bool_decide (key = str "compression-level") then
    match value with
    | Some [c] => if (48 <=? c) && (c <=? 57) then (ARCHIVE_OK, c - 48, ts) else (ARCHIVE_WARN, level, ts)
    | _ => (ARCHIVE_WARN, level, ts)
    end
  else if bool_decide (key = str "timestamp") then
    (ARCHIVE_OK, level, match value with None => -1 | Some _ => 1 end)
  else (ARCHIVE_WARN, level, ts).

Definition gzip_header (level ts now : Z) : bytes :=
  [0x1f; 0x8b; 0x08; 0] ++ (if 0 <=? ts then le_bytes 4 now else zeros 4) ++
  [if level =? 9 then 2 else if level =? 1 then 4 else 0; 3].

(** The size of the buffer for blocks of [bpb] bytes. *)
Definition buffer_size (bpb : Z) : Z :=
  if 65536 <? bpb then bpb else if negb (bpb =? 0) then 65536 - 65536 mod bpb else 65536.

Definition archive_compressor_gzip_open (level ts now bpb : Z) (f : archive_write_filter W)
  : option (Z * gzip_writer DS W) :=
  let bs := buffer_size bpb in
  b ← mwrite (Util.realloc junk [] bs) 0 (gzip_header level ts now);
  let '(ret, s) := deflateInit2 level in
  Some (if ret =? Z_OK then ARCHIVE_OK else ARCHIVE_FATAL,
        GzipWriter level ts s [] (bs - 10) 0 b bs (crc32 0 []) f).

Definition set_next (g : gzip_writer DS W) (f : archive_write_filter W) : gzip_writer DS W :=
  GzipWriter (compression_level g) (timestamp g) (w_stream g) (next_in g) (avail_out g) (total_in g)
    (compressed g) (compressed_buffer_size g) (w_crc g) f.
Definition set_avail_out (g : gzip_writer DS W) (n : Z) : gzip_writer DS W :=
  GzipWriter (compression_level g) (timestamp g) (w_stream g) (next_in g) n (total_in g)
    (compressed g) (compressed_buffer_size g) (w_crc g) (next_filter g).

(** A full buffer is handed on. *)
Definition flush_full (g : gzip_writer DS W) : option (Z * gzip_writer DS W) :=
  if avail_out g =? 0 then
    '(ret, f) ← archive_write_filter_ (next_filter g) (compressed g);
    if negb (ret =? ARCHIVE_OK) then Some (ARCHIVE_FATAL, set_next g f)
    else Some (ARCHIVE_OK, set_avail_out (set_next g f) (compressed_buffer_size g))
  else Some (ARCHIVE_OK, g).

(** One call of the library. *)
Definition call_deflate (g : gzip_writer DS W) (finishing : bool) : option (Z * gzip_writer DS W) :=
  let '(ret, n, o, s) := deflate (w_stream g) (next_in g) (avail_out g) finishing in
  b ← mwrite (compressed g) (compressed_buffer_size g - avail_out g) o;
  Some (ret, GzipWriter (compression_level g) (timestamp g) s (drop (Z.to_nat n) (next_in g))
               (avail_out g - blen o) (total_in g) b (compressed_buffer_size g) (w_crc g) (next_filter g)).

Fixpoint drive_loop (fuel : nat) (g : gzip_writer DS W) (finishing : bool) : option (Z * gzip_writer DS W) :=
  match fuel with
  | O => None
  | S fuel =>
      '(ret, g) ← flush_full g;
      if negb (ret =? ARCHIVE_OK) then Some (ret, g)
      else if negb finishing && (blen (next_in g) =? 0) then Some (ARCHIVE_OK, g)
      else
        '(ret, g) ← call_deflate g finishing;
        if ret =? Z_OK then
          if negb finishing && (blen (next_in g) =? 0) then Some (ARCHIVE_OK, g)
          else drive_loop fuel g finishing
        else if ret =? Z_STREAM_END then Some (ARCHIVE_OK, g)
        else Some (ARCHIVE_FATAL, g)
  end.

(** Each round but the last fills the buffer. *)
Definition drive_compressor (g : gzip_writer DS W) (finishing : bool) : option (Z * gzip_writer DS W) :=
  drive_loop (deflate_left (w_stream g) (next_in g) + 1) g finishing.

(** [avail_in] is an [unsigned int]. *)
Definition archive_compressor_gzip_write (g : gzip_writer DS W) (buff : bytes)
  : option (Z * gzip_writer DS W) :=
  let n := u32 (blen buff) in
  drive_compressor
    (GzipWriter (compression_level g) (timestamp g) (w_stream g) (take (Z.to_nat n) buff) (avail_out g)
       (total_in g + blen buff) (compressed g) (compressed_buffer_size g)
       (crc32 (w_crc g) (take (Z.to_nat n) buff)) (next_filter g)) false.

Definition gzip_trailer (g : gzip_writer DS W) : bytes := le_bytes 4 (w_crc g) ++ le_bytes 4 (total_in g).

Definition archive_compressor_gzip_close (g : gzip_writer DS W) : option (Z * gzip_writer DS W) :=
  '(ret, g) ← drive_compressor g true;
  '(ret, g) ← (if ret =? ARCHIVE_OK then
                 b ← mread (compressed g) 0 (compressed_buffer_size g - avail_out g);
                 '(ret, f) ← archive_write_filter_ (next_filter g) b;
                 Some (ret, set_next g f)
               else Some (ret, g));
  '(ret, g) ← (if ret =? ARCHIVE_OK then
                 '(ret, f) ← archive_write_filter_ (next_filter g) (gzip_trailer g);
                 Some (ret, set_next g f)
               else Some (ret, g));
  Some (if deflateEnd (w_stream g) =? Z_OK then ret else ARCHIVE_FATAL, g).

(** Closing goes on with the next filter, whatever this one says. *)
Definition gzip_close_chain (g : gzip_writer DS W) : option (Z * gzip_writer DS W) :=
  '(r1, g) ← archive_compressor_gzip_close g;
  '(r2, f) ← archive_write_filters_close (next_filter g);
  Some (if r2 <? r1 then r2 else r1, set_next g f).

#[export] Instance gzip_sink : Sink (gzip_writer DS W) := {
  fwrite := archive_compressor_gzip_write;
  fclose := gzip_close_chain
}.

End Write.

(** The chain of the program: compression level 9 and no time stamp for
    kernels, over blocks of 10240 bytes into memory. *)
Definition gzip_level (compression_level_option : bytes) : Z * Z :=
  let '(_, l, t) := archive_compressor_gzip_options (-1) 0 (str "compression-level")
                      (Some compression_level_option) in
  let '(_, l, t) := archive_compressor_gzip_options l t (str "timestamp") None in
  (l, t).

(** ** Reading *)

Record gzip_reader (IS U : Type) := GzipReader {
  upstream : archive_read_filter U;
  in_stream : bool;
  r_stream : IS;
  total_out : Z;
  mtime : Z;
  g_name : option bytes;
  eof : bool
}.
Arguments GzipReader {IS U}.
Arguments upstream {IS U}.
Arguments in_stream {IS U}.
Arguments r_stream {IS U}.
Arguments total_out {IS U}.
Arguments mtime {IS U}.
Arguments g_name {IS U}.
Arguments eof {IS U}.

Definition out_block_size := 64 * 1024.

(** What is found out about a header: its length, or 0, and the fields that were
    read before that was decided. *)
Record header := Header { h_len : Z; h_mtime : option Z; h_name : option bytes }.

Section Peek.
Context {U : Type} `{Upstream U} (junk : Z -> Z).

(** To the end of a string: the window it ends in, [avail] and [len]; [None]
    stands for NULL. *)
Fixpoint skip_string (fuel : nat) (f : archive_read_filter U) (p : bytes) (avail len : Z)
  : option (option (bytes * Z * Z) * archive_read_filter U) :=
  match fuel with
  | O => None
  | S fuel =>
      let len := len + 1 in
      '(p, avail, f) ← (if avail <? len then archive_read_filter_ahead junk f len
                        else Some (Some p, avail, f));
      match p with
      | None => Some (None, f)
      | Some p =>
          b ← mread p (len - 1) 1;
          if bool_decide (b = [0]) then Some (Some (p, avail, len), f)
          else skip_string fuel f p avail len
      end
  end.

Definition has (flags bit : Z) : bool := negb (Z.land flags bit =? 0).

(** The optional fields, one after the other; each may end the search. *)
Definition peek_extra (flags : Z) (f : archive_read_filter U) (p : bytes) (avail len : Z)
  : option (option (bytes * Z * Z) * archive_read_filter U) :=
  if has flags 4 then
    '(p, avail, f) ← archive_read_filter_ahead junk f (len + 2);
    match p with
    | None => Some (None, f)
    | Some p =>
        b ← mread p len 2;
        Some (Some (p, avail, len + le_val b + 2), f)
    end
  else Some (Some (p, avail, len), f).

Definition peek_string (flags bit : Z) (f : archive_read_filter U) (p : bytes) (avail len : Z)
  : option (option (bytes * Z * Z) * archive_read_filter U) :=
  if has flags bit then skip_string (length (stream f) + 2) f p avail len
  else Some (Some (p, avail, len), f).

Definition peek_crc (flags : Z) (f : archive_read_filter U) (len : Z)
  : option (option Z * archive_read_filter U) :=
  if has flags 2 then
    '(p, _, f) ← archive_read_filter_ahead junk f (len + 2);
    Some (match p with None => None | Some _ => Some (len + 2) end, f)
  else Some (Some len, f).

Definition peek_at_header (f : archive_read_filter U) : option (header * archive_read_filter U) :=
  let len := 10 in
  '(p, avail, f) ← archive_read_filter_ahead junk f len;
  match p with
  | None => Some (Header 0 None None, f)
  | Some p =>
      if avail =? 0 then Some (Header 0 None None, f)
      else
        magic ← mread p 0 3;
        flags ← mread p 3 1;
        let flags := le_val flags in
        if negb (bool_decide (magic = [0x1f; 0x8b; 0x08])) then Some (Header 0 None None, f)
        else if has flags 0xE0 then Some (Header 0 None None, f)
        else
          t ← mread p 4 4;
          let t := Some (le_val t) in
          '(x, f) ← peek_extra flags f p avail len;
          match x with
          | None => Some (Header 0 t None, f)
          | Some (p, avail, len) =>
              let file_start := len in
              '(x, f) ← peek_string flags 8 f p avail len;
              match x with
              | None => Some (Header 0 t None, f)
              | Some (p, avail, len) =>
                  name ← (if has flags 8 then
                            s ← mread p file_start (len - file_start); Some (Some (before_nul s))
                          else Some None);
                  '(x, f) ← peek_string flags 16 f p avail len;
                  match x with
                  | None => Some (Header 0 t name, f)
                  | Some (p, avail, len) =>
                      '(x, f) ← peek_crc flags f len;
                      Some (Header (default 0 x) t name, f)
                  end
              end
          end
  end.

(** The number of bits that were checked. *)
Definition gzip_bidder_bid (f : archive_read_filter U) : option (Z * archive_read_filter U) :=
  '(h, f) ← peek_at_header f;
  Some (if negb (h_len h =? 0) then 24 + 3 else 0, f).

End Peek.

Section Read.
Context {IS U : Type} `{Inflate IS, Upstream U} (junk : Z -> Z).

Definition gzip_bidder_init (f : archive_read_filter U) : gzip_reader IS U :=
  GzipReader f false (snd inflateInit2) 0 0 None false.

Definition set_upstream (g : gzip_reader IS U) (f : archive_read_filter U) : gzip_reader IS U :=
  GzipReader f (in_stream g) (r_stream g) (total_out g) (mtime g) (g_name g) (eof g).
Definition set_stream (g : gzip_reader IS U) (b : bool) (s : IS) : gzip_reader IS U :=
  GzipReader (upstream g) b s (total_out g) (mtime g) (g_name g) (eof g).
Definition set_at_eof (g : gzip_reader IS U) : gzip_reader IS U :=
  GzipReader (upstream g) (in_stream g) (r_stream g) (total_out g) (mtime g) (g_name g) true.

Definition gzip_read_header (g : gzip_reader IS U) (e : archive_entry) : Z * archive_entry :=
  let e := if negb (mtime g =? 0) then archive_entry_set_mtime e (mtime g) else e in
  (ARCHIVE_OK, match g_name g with Some n => archive_entry_set_pathname e (Some n) | None => e end).

Definition consume_header (g : gzip_reader IS U) : option (Z * gzip_reader IS U) :=
  '(h, f) ← peek_at_header junk (upstream g);
  let g := GzipReader f (in_stream g) (r_stream g) (total_out g)
             (default (mtime g) (h_mtime h))
             (match h_name h with Some n => Some n | None => g_name g end) (eof g) in
  if h_len h =? 0 then Some (ARCHIVE_EOF, g)
  else
    '(_, f) ← archive_read_filter_consume (upstream g) (h_len h);
    '(_, _, f) ← archive_read_filter_ahead junk f 1;
    let '(ret, s) := inflateInit2 in
    let g := set_upstream g f in
    if ret =? Z_OK then Some (ARCHIVE_OK, set_stream g true s)
    else Some (ARCHIVE_FATAL, set_stream g (in_stream g) s).

(** The length and the checksum of the trailer are not looked at. *)
Definition consume_trailer (g : gzip_reader IS U) : option (Z * gzip_reader IS U) :=
  let g := set_stream g false (r_stream g) in
  if negb (inflateEnd (r_stream g) =? Z_OK) then Some (ARCHIVE_FATAL, g)
  else
    '(p, avail, f) ← archive_read_filter_ahead junk (upstream g) 8;
    let g := set_upstream g f in
    match p with
    | None => Some (ARCHIVE_FATAL, g)
    | Some _ =>
        if avail =? 0 then Some (ARCHIVE_FATAL, g)
        else
          '(_, f) ← archive_read_filter_consume f 8;
          Some (ARCHIVE_OK, set_upstream g f)
    end.

(** One call of the library on what is there: the result, and what it adds to
    the block. *)
Definition inflate_some (g : gzip_reader IS U) (room : Z) : option (Z * bytes * gzip_reader IS U) :=
  '(p, avail_in, f) ← archive_read_filter_ahead junk (upstream g) 1;
  let g := set_upstream g f in
  match p with
  | None => Some (ARCHIVE_FATAL, [], g)
  | Some p =>
      let avail_in := if 2 ^ 32 - 1 <? avail_in then 2 ^ 32 - 1 else avail_in in
      b ← mread p 0 avail_in;
      let '(ret, n, o, s) := inflate (r_stream g) b room in
      let g := set_stream g (in_stream g) s in
      if (ret =? Z_OK) || (ret =? Z_STREAM_END) then
        '(_, f) ← archive_read_filter_consume (upstream g) n;
        let g := set_upstream g f in
        if ret =? Z_OK then Some (ARCHIVE_OK, o, g)
        else '(ret, g) ← consume_trailer g; Some (ret, o, g)
      else Some (ARCHIVE_FATAL, [], g)
  end.

(** Fill the output block. *)
Fixpoint fill_loop (fuel : nat) (g : gzip_reader IS U) (out : bytes) : option (Z * bytes * gzip_reader IS U) :=
  match fuel with
  | O => None
  | S fuel =>
      if (0 <? out_block_size - blen out) && negb (eof g) then
        '(ret, g) ← (if in_stream g then Some (ARCHIVE_OK, g) else consume_header g);
        if ret =? ARCHIVE_EOF then Some (blen out, out, set_at_eof g)
        else if ret <? ARCHIVE_OK then Some (ret, [], g)
        else
          '(ret, o, g) ← inflate_some g (out_block_size - blen out);
          if ret <? ARCHIVE_OK then Some (ret, [], g)
          else fill_loop fuel g (out ++ o)
      else Some (blen out, out, g)
  end.

(** Each round takes input or fills part of the block. *)
Definition gzip_filter_read (g : gzip_reader IS U) : option (Z * bytes * gzip_reader IS U) :=
  '(r, b, g) ← fill_loop (length (stream (upstream g)) + Z.to_nat out_block_size + 2) g [];
  Some (r, b, if r <? 0 then g
              else GzipReader (upstream g) (in_stream g) (r_stream g) (total_out g + r) (mtime g)
                     (g_name g) (eof g)).

Definition gzip_filter_close (g : gzip_reader IS U) : Z :=
  if in_stream g then if inflateEnd (r_stream g) =? Z_OK then ARCHIVE_OK else ARCHIVE_FATAL
  else ARCHIVE_OK.

End Read.

(** ** What the reader stands for *)

(** A header on a sequence of bytes: its length, or 0. *)
Fixpoint nul_end (x : bytes) (n : Z) : option Z :=
  match x with
  | [] => None
  | b :: x => if b =? 0 then Some (n + 1) else nul_end x (n + 1)
  end.

Definition spec_string (flags bit : Z) (x : bytes) (len : Z) : option Z :=
  if has flags bit then nul_end (drop (Z.to_nat len) x) len else Some len.

Definition spec_extra (flags : Z) (x : bytes) (len : Z) : option Z :=
  if has flags 4 then
    if blen x <? len + 2 then None else Some (len + le_val (sub x len 2) + 2)
  else Some len.

Definition spec_crc (flags : Z) (x : bytes) (len : Z) : option Z :=
  if has flags 2 then if blen x <? len + 2 then None else Some (len + 2) else Some len.

Definition header_len (x : bytes) : Z :=
  if (blen x <? 10) || negb (bool_decide (sub x 0 3 = [0x1f; 0x8b; 0x08])) then 0
  else
    let flags := le_val (sub x 3 1) in
    if has flags 0xE0 then 0
    else
      default 0
        (len ← spec_extra flags x 10;
         len ← spec_string flags 8 x len;
         len ← spec_string flags 16 x len;
         spec_crc flags x len).

Section Members.
Context {IS : Type} `{Inflate IS}.

(** The contents of the members of a file from a state inside of one or before
    the first, and whether all is well. *)
Fixpoint members (fuel : nat) (st : option IS) (x : bytes) : bytes * bool :=
  match fuel with
  | O => ([], false)
  | S fuel =>
      match st with
      | None =>
          if header_len x =? 0 then ([], true)
          else members fuel (Some (snd inflateInit2)) (drop (Z.to_nat (header_len x)) x)
      | Some s =>
          match inflate_all s x with
          | (y, Some t) =>
              if blen t <? 8 then (y, false)
              else let '(z, ok) := members fuel None (drop 8 t) in (y ++ z, ok)
          | (y, None) => (y, false)
          end
      end
  end.

Definition gunzip (st : option IS) (x : bytes) : bytes * bool := members (2 * length x + 2) st x.

(** A file is unpacked as long as it has a gzip header, fewer than [n] times. *)
Inductive peels : nat -> bytes -> bytes -> Prop :=
| peels_plain n x : header_len x = 0 -> peels (S n) x x
| peels_member n x y s : header_len x <> 0 -> gunzip None x = (y, true) -> blen y < 2 ^ 61 ->
    peels n y s -> peels (S n) x s.

End Members.

(** The reader as a layer below a filter.  It only leaves the option when a
    window lies outside its object, which [gzip_reader_laws] rules out. *)
Section Layer.
Context {IS U : Type} `{Inflate IS, Upstream U} (junk : Z -> Z).

Definition gzip_state (g : gzip_reader IS U) : option IS := if in_stream g then Some (r_stream g) else None.

Definition gzip_upstream : Upstream (gzip_reader IS U) := {|
  fread g := default (ARCHIVE_FATAL, [], g) (gzip_filter_read junk g);
  fskip := None;
  rest g := if eof g then [] else fst (gunzip (gzip_state g) (stream (upstream g)));
  lasting := false
|}.

End Layer.

(** ** Bidding *)

Definition MAX_NUMBER_FILTERS := 25%nat.

Section Choose.
Context {IS : Type} `{Inflate IS} (junk : Z -> Z).

(** The one bidder is gzip.  Each round may put another filter in front. *)
Fixpoint choose_filters (n : nat) (U : Type) (up : Upstream U) (f : archive_read_filter U)
  : option (option pipeline) :=
  match n with
  | O => Some None
  | S n =>
      '(bid, f) ← gzip_bidder_bid junk f;
      if bid <=? 0 then verify_filter junk f
      else choose_filters n (gzip_reader IS U) (gzip_upstream junk) (new_filter (gzip_bidder_init f))
  end.

Definition gzip_input : input_chain :=
  fun b => choose_filters MAX_NUMBER_FILTERS _ _ (new_filter (archive_read_open_memory b)).

End Choose.

(** The chain of filters for a compressed kernel. *)
Section Chains.
Context {DS : Type} `{Deflate DS} (junk : Z -> Z).

Definition gzip_output : OutputChain (gzip_writer DS (archive_none write_memory_data)) := {|
  chain_open b :=
    let '(level, ts) := gzip_level (str "9") in
    let c := archive_write_client_open junk 10240 1 (memory_write_open b) in
    archive_compressor_gzip_open junk level ts 0 10240 (WFilter ARCHIVE_WRITE_FILTER_STATE_OPEN c 0);
  chain_memory g := client (f_data (next_filter g))
|}.

End Chains.

(** ** Looking at a header *)

(** A filter that can be read without an error. *)
Record readable {U} `{UpstreamLaws U} (f : archive_read_filter U) : Prop := {
  rd_valid : valid f;
  rd_fatal : fatal f = false;
  rd_clean : clean (data f);
  rd_short : blen (stream f) < 2 ^ 61;
  rd_bytes : Forall is_byte (stream f)
}.

(** The same stream, in other buffers. *)
Definition keeps {U} `{UpstreamLaws U} (f f' : archive_read_filter U) : Prop :=
  readable f' /\ stream f' = stream f.

(** A window at the front of the stream. *)
Definition front (x p : bytes) (avail : Z) : Prop := avail = blen p /\ exists t, x = p ++ t.

Lemma keeps_trans {U} `{UpstreamLaws U} (f g h : archive_read_filter U) :
  keeps f g -> keeps g h -> keeps f h.
Proof. intros [_ H1] [Hr H2]. split; [done|congruence]. Qed.

Lemma keeps_refl {U} `{UpstreamLaws U} (f : archive_read_filter U) : readable f -> keeps f f.
Proof. by split. Qed.

Lemma front_mread x p avail o n : front x p avail -> 0 <= o -> 0 <= n -> o + n <= avail ->
  mread p o n = Some (sub x o n) /\ blen (sub x o n) = n /\ o + n <= blen x.
Proof.
  intros [-> [t ->]] Ho Hn Hl. rewrite blen_app. pose proof (blen_nonneg t).
  assert (sub (p ++ t) o n = sub p o n) as ->.
  { unfold sub, blen in *. rewrite drop_app_le by lia. by rewrite take_app_le by (rewrite length_drop; lia). }
  split; [by apply sub_mread|]. split; [by apply blen_sub|lia].
Qed.

Section Peeking.
Context {U : Type} `{UpstreamLaws U} (junk : Z -> Z).

Lemma ahead_keeps (f : archive_read_filter U) n : readable f -> 0 < n < 2 ^ 62 ->
  exists o a f', archive_read_filter_ahead junk f n = Some (o, a, f') /\ keeps f f' /\
  match o with
  | Some p => front (stream f) p a /\ n <= a
  | None => 0 <= a /\ blen (stream f) < n
  end.
Proof.
  intros [Hv Hf Hc Hs Hby] Hn.
  destruct (ahead_ok junk f n Hv Hf ltac:(lia)) as ([[o a] g] & He & Hv' & _ & Hc' & Hpost).
  exists o, a, g. split; [done|]. specialize (Hc' Hc). destruct o as [p|].
  - destruct Hpost as (-> & Hm & Ht & Hs' & Hf'). split; [|done].
    split; [|done]. split; [done|congruence|done|congruence|by rewrite Hs'].
  - destruct Hpost as [(_ & _ & Hx)|(Hf' & Hs' & [?|[Ha Hl]])]; [specialize (Hx Hc); lia|lia|].
    split; [|lia]. split; [|done]. split; [done|congruence|done|congruence|by rewrite Hs'].
Qed.

Lemma consume_keeps (f : archive_read_filter U) n : readable f -> 0 <= n <= blen (stream f) ->
  exists f', archive_read_filter_consume f n = Some (n, f') /\ readable f' /\
  stream f' = drop (Z.to_nat n) (stream f).
Proof.
  intros [Hv Hf Hc Hs Hby] Hn.
  destruct (consume_ok f n Hv Hf ltac:(lia)) as ([x g] & He & Hv' & Hc' & Hpost).
  destruct Hpost as [(-> & _ & Hs' & _ & Hf')|(_ & [[_ Hx]|(_ & Hl & _)])]; [|by destruct (Hx Hc)|lia].
  exists g. split; [done|]. split; [|done]. split; [done|congruence|by eauto|..]; rewrite Hs'.
  - unfold blen in *. rewrite length_drop. lia.
  - by apply Forall_drop.
Qed.

(** Consuming more than there is empties the stream. *)
Lemma consume_beyond (f : archive_read_filter U) n : readable f -> 0 <= n ->
  exists x f', archive_read_filter_consume f n = Some (x, f') /\ readable f' /\
  stream f' = drop (Z.to_nat n) (stream f).
Proof.
  intros Hr Hn. destruct (decide (n <= blen (stream f))) as [Hl|Hl].
  { destruct (consume_keeps f n Hr ltac:(lia)) as (g & ? & ?). by exists n, g. }
  destruct Hr as [Hv Hf Hc Hs Hby].
  destruct (consume_ok f n Hv Hf Hn) as ([x g] & He & Hv' & Hc' & Hpost).
  destruct Hpost as [(_ & ? & _)|(_ & [[_ Hx]|(Hf' & _ & Hs')])]; [lia|by destruct (Hx Hc)|].
  exists x, g. split; [done|]. rewrite Hs'. split.
  - split; [done|congruence|by eauto|..]; rewrite Hs'; [change (blen []) with 0; lia|constructor].
  - symmetry. apply drop_ge. unfold blen in *. lia.
Qed.

Lemma nul_end_step x n : 0 <= n < blen x ->
  nul_end (drop (Z.to_nat n) x) n =
    if bool_decide (sub x n 1 = [0]) then Some (n + 1) else nul_end (drop (Z.to_nat (n + 1)) x) (n + 1).
Proof.
  intros Hn. unfold sub. replace (Z.to_nat (n + 1)) with (Z.to_nat n + 1)%nat by lia. rewrite <- drop_drop.
  assert (length (drop (Z.to_nat n) x) <> 0)%nat as Hl by (unfold blen in *; rewrite length_drop; lia).
  destruct (drop (Z.to_nat n) x) as [|b y]; [done|]. cbn [nul_end]. change (Z.to_nat 1) with 1%nat.
  cbn [take drop]. rewrite drop_0.
  destruct (Z.eqb_spec b 0) as [->|Hb]; [by rewrite bool_decide_true|].
  rewrite bool_decide_false; [done|]. congruence.
Qed.

(** What a step of the search promises; [full] that the window covers the
    field. *)
Definition peek_post (f : archive_read_filter U) (spec : option Z) (full : bool)
    (r : option (option (bytes * Z * Z) * archive_read_filter U)) : Prop :=
  exists o f', r = Some (o, f') /\ keeps f f' /\
  match o with
  | Some (p, avail, len) => spec = Some len /\ front (stream f) p avail /\ 10 <= len /\
      (full = true -> len <= avail)
  | None => spec = None
  end.

Lemma skip_string_ok fuel f p avail len : readable f -> front (stream f) p avail -> 10 <= len ->
  len < 2 ^ 61 + 1 -> (Z.to_nat (blen (stream f) - len) < fuel)%nat ->
  peek_post f (nul_end (drop (Z.to_nat len) (stream f)) len) true (skip_string junk fuel f p avail len).
Proof.
  revert f p avail len. induction fuel as [|fuel IH]; intros f p avail len Hr Hp Hl Hb Hf; [lia|].
  cbn [skip_string].
  assert (exists o a f', (if avail <? len + 1 then archive_read_filter_ahead junk f (len + 1)
      else Some (Some p, avail, f)) = Some (o, a, f') /\ keeps f f' /\
    match o with Some q => front (stream f) q a /\ len + 1 <= a | None => blen (stream f) < len + 1 end)
    as (o & a & f' & -> & Hk & Ho).
  { destruct (Z.ltb_spec avail (len + 1)).
    - destruct (ahead_keeps f (len + 1) Hr ltac:(lia)) as (o & a & f' & He & Hk & Ho).
      exists o, a, f'. split; [done|]. split; [done|]. destruct o; [done|lia].
    - exists (Some p), avail, f. split; [done|]. split; [by apply keeps_refl|done]. }
  cbn [mbind option_bind]. destruct o as [q|].
  - destruct Ho as [Hq Ha]. replace (len + 1 - 1) with len by lia.
    destruct (front_mread _ _ _ len 1 Hq) as (-> & _ & Hx); [lia..|]. cbn [mbind option_bind].
    rewrite nul_end_step by lia. case_bool_decide as Hz.
    + exists (Some (q, a, len + 1)), f'. split; [done|]. split; [done|]. split_and!; [done|done|lia|lia].
    + destruct Hk as [Hr' Hs']. destruct (IH f' q a (len + 1) Hr') as (o & g & He & Hk' & Ho).
      * by rewrite Hs'.
      * lia.
      * pose proof (rd_short _ Hr). lia.
      * rewrite Hs'. lia.
      * rewrite Hs' in Ho. exists o, g. split; [done|].
        split; [by eapply keeps_trans|done].
  - exists None, f'. split; [done|]. split; [done|].
    rewrite drop_ge by (unfold blen in *; lia). done.
Qed.

Lemma peek_string_ok flags bit f p avail len : readable f -> front (stream f) p avail -> 10 <= len ->
  len < 2 ^ 61 + 1 ->
  peek_post f (spec_string flags bit (stream f) len) (has flags bit) (peek_string junk flags bit f p avail len).
Proof.
  intros Hr Hp Hl Hb. unfold peek_string, spec_string. destruct (has flags bit).
  - apply skip_string_ok; try done. unfold blen. lia.
  - exists (Some (p, avail, len)), f. split; [done|]. by split; [apply keeps_refl|split_and!].
Qed.

Lemma peek_extra_ok flags f p avail : readable f -> front (stream f) p avail ->
  peek_post f (spec_extra flags (stream f) 10) false (peek_extra junk flags f p avail 10).
Proof.
  intros Hr Hp. pose proof (rd_bytes _ Hr) as Hb. unfold peek_extra, spec_extra. destruct (has flags 4).
  - destruct (ahead_keeps f (10 + 2) Hr ltac:(lia)) as (o & a & f' & -> & Hk & Ho).
    cbn [mbind option_bind]. destruct o as [q|].
    + destruct Ho as [Hq Ha]. destruct (front_mread _ _ _ 10 2 Hq) as (-> & H2 & Hx); [lia..|].
      cbn [mbind option_bind]. replace (blen (stream f) <? 10 + 2) with false by lia.
      eexists _, f'. split; [done|]. split; [done|]. split_and!; [done|done| |done].
      assert (0 <= le_val (sub (stream f) 10 2)); [|lia].
      apply le_val_range. unfold sub. by apply Forall_take, Forall_drop.
    + exists None, f'. split; [done|]. split; [done|]. by replace (blen (stream f) <? 10 + 2) with true by lia.
  - exists (Some (p, avail, 10)), f. split; [done|]. split; [by apply keeps_refl|]. split_and!; [done|done|lia|done].
Qed.

Lemma nul_end_range x n r : nul_end x n = Some r -> n < r <= n + blen x.
Proof.
  revert n. induction x as [|b x IH]; intros n; [done|]. cbn [nul_end]. rewrite blen_cons.
  pose proof (blen_nonneg x). case_match; [intros [= <-]; lia|]. intros Hr. apply IH in Hr. lia.
Qed.

Lemma spec_string_range flags bit x len r : spec_string flags bit x len = Some r -> 0 <= len ->
  len <= r /\ (r = len \/ r <= blen x).
Proof.
  unfold spec_string. case_match; [|intros [= ->]; lia]. intros Hr Hl. apply nul_end_range in Hr.
  unfold blen in *. rewrite length_drop in Hr. lia.
Qed.

Lemma spec_extra_range flags x r : Forall is_byte x -> spec_extra flags x 10 = Some r -> 10 <= r < 2 ^ 17.
Proof.
  intros Hb. unfold spec_extra. repeat case_match; try done; intros [= <-]; [|lia].
  assert (0 <= le_val (sub x 10 2) < 2 ^ 16); [|lia].
  assert (blen (sub x 10 2) = 2) as Hl by (apply blen_sub; lia).
  pose proof (le_val_range (sub x 10 2)) as Hr. rewrite Hl in Hr. apply Hr.
  unfold sub. by apply Forall_take, Forall_drop.
Qed.

Lemma peek_crc_ok flags f len : readable f -> 10 <= len < 2 ^ 61 + 1 ->
  exists o f', peek_crc junk flags f len = Some (o, f') /\ keeps f f' /\ o = spec_crc flags (stream f) len.
Proof.
  intros Hr Hl. unfold peek_crc, spec_crc. destruct (has flags 2).
  - destruct (ahead_keeps f (len + 2) Hr ltac:(lia)) as (o & a & f' & -> & Hk & Ho).
    cbn [mbind option_bind]. do 2 eexists. split; [done|]. split; [done|]. destruct o as [q|].
    + destruct Ho as [Hq Ha]. destruct (front_mread _ _ _ len 2 Hq) as (_ & _ & Hx); [lia..|].
      by replace (blen (stream f) <? len + 2) with false by lia.
    + by replace (blen (stream f) <? len + 2) with true by lia.
  - do 2 eexists. split; [done|]. split; [by apply keeps_refl|done].
Qed.

Lemma peek_at_header_ok f : readable f ->
  exists h f', peek_at_header junk f = Some (h, f') /\ keeps f f' /\ h_len h = header_len (stream f).
Proof.
  intros Hr. unfold peek_at_header, header_len. pose proof (rd_short _ Hr) as Hshort.
  destruct (ahead_keeps f 10 Hr ltac:(lia)) as (o & a & f1 & -> & Hk1 & Ho). cbn [mbind option_bind].
  destruct o as [p|]; last first.
  { replace (blen (stream f) <? 10) with true by lia. by do 2 eexists. }
  destruct Ho as [Hp Ha]. replace (a =? 0) with false by lia.
  destruct (front_mread _ _ _ 0 3 Hp) as (-> & _ & _); [lia..|].
  destruct (front_mread _ _ _ 3 1 Hp) as (-> & _ & _); [lia..|]. cbn [mbind option_bind].
  destruct (front_mread _ _ _ 4 4 Hp) as (E4 & _ & _); [lia..|].
  destruct (front_mread _ _ _ 0 10 Hp) as (_ & _ & Hx); [lia..|].
  replace (blen (stream f) <? 10) with false by lia. cbn [orb].
  case_bool_decide; cbn [negb]; [|by do 2 eexists].
  set (flags := le_val (sub (stream f) 3 1)). destruct (has flags 0xE0); [by do 2 eexists|].
  rewrite E4. cbn [mbind option_bind]. clear E4. generalize (Some (le_val (sub (stream f) 4 4))) as t. intros t.
  destruct Hk1 as [Hr1 Hs1]. rewrite <- Hs1 in *.
  destruct (peek_extra_ok flags f1 p a Hr1 Hp) as (o & f2 & -> & [Hr2 Hs2] & Ho).
  cbn [mbind option_bind]. destruct o as [[[p2 a2] l2]|]; last first.
  { rewrite Ho. do 2 eexists. split; [done|]. split; [|done]. split; [done|congruence]. }
  destruct Ho as (He2 & Hp2 & Hl2 & _). rewrite He2. cbn [mbind option_bind].
  pose proof (spec_extra_range _ _ _ (rd_bytes _ Hr1) He2) as Hb2.
  rewrite <- Hs2 in Hp2.
  destruct (peek_string_ok flags 8 f2 p2 a2 l2 Hr2 Hp2 Hl2 ltac:(lia)) as (o & f3 & -> & [Hr3 Hs3] & Ho).
  rewrite Hs2 in Ho. cbn [mbind option_bind]. destruct o as [[[p3 a3] l3]|]; last first.
  { rewrite Ho. do 2 eexists. split; [done|]. split; [|done]. split; [done|congruence]. }
  destruct Ho as (He3 & Hp3 & Hl3 & Hw3). rewrite He3. cbn [mbind option_bind].
  destruct (spec_string_range _ _ _ _ _ He3 ltac:(lia)) as [Hb3 Hc3].
  assert (exists name, (if has flags 8 then s ← mread p3 l2 (l3 - l2); Some (Some (before_nul s)) else Some None)
    = Some name) as [name ->].
  { unfold spec_string in He3. destruct (has flags 8); [|by eexists]. apply nul_end_range in He3.
    specialize (Hw3 eq_refl). destruct (front_mread _ _ _ l2 (l3 - l2) Hp3) as (-> & _ & _); [lia..|].
    by eexists. }
  cbn [mbind option_bind]. rewrite <- Hs2, <- Hs3 in Hp3.
  destruct (peek_string_ok flags 16 f3 p3 a3 l3 Hr3 Hp3 Hl3) as (o & f4 & -> & [Hr4 Hs4] & Ho).
  { destruct Hc3 as [->|?]; lia. }
  rewrite Hs3, Hs2 in Ho. cbn [mbind option_bind]. destruct o as [[[p4 a4] l4]|]; last first.
  { rewrite Ho. do 2 eexists. split; [done|]. split; [|done]. split; [done|congruence]. }
  destruct Ho as (He4 & Hp4 & Hl4 & _). rewrite He4. cbn [mbind option_bind].
  destruct (spec_string_range _ _ _ _ _ He4 ltac:(lia)) as [Hb4 Hc4].
  destruct (peek_crc_ok flags f4 l4 Hr4) as (o & f5 & -> & [Hr5 Hs5] & Ho).
  { destruct Hc3 as [->|?], Hc4 as [->|?]; lia. }
  cbn [mbind option_bind]. do 2 eexists. split; [done|]. split; [split; [done|congruence]|].
  cbn [h_len]. rewrite Ho. do 2 f_equal. congruence.
Qed.

Lemma header_len_range x : Forall is_byte x -> 0 <= header_len x.
Proof.
  intros Hb. unfold header_len. repeat case_match; try done.
  destruct (spec_extra _ x 10) as [l|] eqn:E; [|done]. cbn [mbind option_bind].
  apply spec_extra_range in E; [|done].
  destruct (spec_string _ 8 x l) as [l1|] eqn:E1; [|done]. cbn [mbind option_bind].
  apply spec_string_range in E1; [|lia].
  destruct (spec_string _ 16 x l1) as [l2|] eqn:E2; [|done]. cbn [mbind option_bind].
  apply spec_string_range in E2; [|lia].
  unfold spec_crc. repeat case_match; cbn [default]; try done; unfold id; lia.
Qed.

Lemma gzip_bidder_bid_ok f : readable f ->
  exists f', gzip_bidder_bid junk f = Some (if header_len (stream f) =? 0 then 0 else 27, f') /\ keeps f f'.
Proof.
  intros Hr. unfold gzip_bidder_bid. destruct (peek_at_header_ok f Hr) as (h & f' & -> & Hk & Hh).
  cbn [mbind option_bind]. exists f'. split; [|done]. rewrite Hh. by destruct (header_len (stream f) =? 0).
Qed.

End Peeking.

(** ** What zlib promises *)

(** Inflating in pieces: a call takes part of its input, adds to the output,
    and leaves the rest for later; or it reaches the end; or it reports an
    error, which only happens when the stream is in error. *)
Class InflateLaws (IS : Type) `{Inflate IS} := {
  i_ok : IS -> Prop;
  inflateInit2_law : fst inflateInit2 = Z_OK /\ i_ok (snd inflateInit2);
  inflateEnd_law s : i_ok s -> inflateEnd s = Z_OK;
  inflate_law s inp z room : i_ok s -> inp <> [] -> 0 < room ->
    let '(ret, n, o, s') := inflate s inp room in
    let '(y, e) := inflate_all s (inp ++ z) in
    0 <= n <= blen inp /\ blen o <= room /\ i_ok s' /\
    (ret = Z_OK /\ (0 < n \/ o <> []) /\
       (exists y', y = o ++ y' /\ inflate_all s' (drop (Z.to_nat n) inp ++ z) = (y', e)) \/
     ret = Z_STREAM_END /\ y = o /\ e = Some (drop (Z.to_nat n) inp ++ z) \/
     ret <> Z_OK /\ ret <> Z_STREAM_END /\ e = None);
  inflate_bytes s x : Forall is_byte x -> Forall is_byte (fst (inflate_all s x));
  inflate_tail s x y t : inflate_all s x = (y, Some t) -> exists h, x = h ++ t
}.

(** ** Members *)

Section Members.
Context {IS : Type} `{InflateLaws IS}.

Definition weight (st : option IS) (x : bytes) : nat :=
  2 * length x + match st with Some _ => 2 | None => 1 end.

Lemma header_len_long x : header_len x <> 0 -> (10 <= length x)%nat.
Proof.
  unfold header_len, blen. intros Hx. destruct (Z.ltb_spec (Z.of_nat (length x)) 10); [done|lia].
Qed.

Lemma header_len_min x : Forall is_byte x -> header_len x <> 0 -> 10 <= header_len x.
Proof.
  intros Hb. unfold header_len. repeat case_match; try done.
  destruct (spec_extra _ x 10) as [l|] eqn:E; [|done]. cbn [mbind option_bind].
  apply spec_extra_range in E; [|done].
  destruct (spec_string _ 8 x l) as [l1|] eqn:E1; [|done]. cbn [mbind option_bind].
  apply spec_string_range in E1; [|lia].
  destruct (spec_string _ 16 x l1) as [l2|] eqn:E2; [|done]. cbn [mbind option_bind].
  apply spec_string_range in E2; [|lia].
  unfold spec_crc. repeat case_match; cbn [default]; try done; unfold id; lia.
Qed.

Lemma members_fuel n m st x : Forall is_byte x -> (weight st x <= n)%nat -> (weight st x <= m)%nat ->
  members n st x = members m st x.
Proof.
  revert m st x. induction n as [|n IH]; intros m st x Hb Hn Hm; [unfold weight in Hn; destruct st; lia|].
  destruct m as [|m]; [unfold weight in Hm; destruct st; lia|]. cbn [members]. destruct st as [s|].
  - destruct (inflate_all s x) as [y [t|]] eqn:E; [|done].
    destruct (Z.ltb_spec (blen t) 8) as [|Ht]; [done|].
    destruct (inflate_tail s x y t E) as [h ->].
    rewrite (IH m None (drop 8 t)); [done|..].
    + apply Forall_drop. by apply Forall_app in Hb as [_ ?].
    + unfold weight, blen in *. rewrite length_app in *. rewrite length_drop. lia.
    + unfold weight, blen in *. rewrite length_app in *. rewrite length_drop. lia.
  - destruct (Z.eqb_spec (header_len x) 0) as [|Hx]; [done|].
    pose proof (header_len_long x Hx). pose proof (header_len_min x Hb Hx).
    apply IH; [by apply Forall_drop|unfold weight in *; rewrite length_drop; lia..].
Qed.

Lemma gunzip_none x : Forall is_byte x ->
  gunzip (IS := IS) None x =
    if header_len x =? 0 then ([], true)
    else gunzip (Some (snd inflateInit2)) (drop (Z.to_nat (header_len x)) x).
Proof.
  intros Hb. unfold gunzip. replace (2 * length x + 2)%nat with (S (2 * length x + 1)) by lia. cbn [members].
  destruct (Z.eqb_spec (header_len x) 0) as [|Hx]; [done|].
  pose proof (header_len_long x Hx). pose proof (header_len_min x Hb Hx).
  apply members_fuel; [by apply Forall_drop|unfold weight; rewrite ?length_drop; lia..].
Qed.

Lemma gunzip_some s x : Forall is_byte x ->
  gunzip (Some s) x =
    match inflate_all s x with
    | (y, Some t) =>
        if blen t <? 8 then (y, false)
        else let '(z, ok) := gunzip None (drop 8 t) in (y ++ z, ok)
    | (y, None) => (y, false)
    end.
Proof.
  intros Hb. unfold gunzip at 1. replace (2 * length x + 2)%nat with (S (2 * length x + 1)) by lia. cbn [members].
  destruct (inflate_all s x) as [y [t|]] eqn:E; [|done].
  destruct (Z.ltb_spec (blen t) 8) as [|Ht]; [done|].
  destruct (inflate_tail s x y t E) as [h ->]. apply Forall_app in Hb as [_ Hb].
  rewrite length_app in *. unfold blen in *.
  unfold gunzip. rewrite (members_fuel (2 * (length h + length t) + 1) (2 * length (drop 8 t) + 2) None (drop 8 t));
    [done|by apply Forall_drop|unfold weight; rewrite ?length_drop; lia..].
Qed.

Lemma gunzip_bytes st x : Forall is_byte x -> Forall is_byte (fst (gunzip st x)).
Proof.
  unfold gunzip. generalize (2 * length x + 2)%nat as n. intros n. revert st x.
  induction n as [|n IH]; intros st x Hb; [constructor|]. cbn [members]. destruct st as [s|].
  - pose proof (inflate_bytes s x Hb) as Hy. destruct (inflate_all s x) as [y [t|]] eqn:E; [|done].
    destruct (Z.ltb_spec (blen t) 8); [done|].
    destruct (inflate_tail s x y t E) as [h ->]. apply Forall_app in Hb as [_ Hb].
    specialize (IH None (drop 8 t) (Forall_drop _ _ _ Hb)). destruct (members n None (drop 8 t)).
    by apply Forall_app.
  - case_match; [constructor|]. by apply IH, Forall_drop.
Qed.

End Members.

(** ** Reading *)

Section Reading.
Context {IS U : Type} `{InflateLaws IS, UpstreamLaws U} (junk : Z -> Z).
Implicit Types g : gzip_reader IS U.

Record gz_good g : Prop := {
  gg_upstream : readable (upstream g);
  gg_stream : in_stream g = true -> i_ok (r_stream g)
}.

(** What is left of the input, what the reader will make of it, and whether all
    of it is well. *)
Definition input_of g : bytes := stream (upstream g).
Definition content g : bytes := if eof g then [] else fst (gunzip (gzip_state g) (input_of g)).
Definition is_well g : bool := eof g || snd (gunzip (gzip_state g) (input_of g)).

Lemma consume_header_ok g : gz_good g -> in_stream g = false -> eof g = false ->
  exists ret g', consume_header junk g = Some (ret, g') /\ gz_good g' /\ eof g' = false /\
  (ret = ARCHIVE_EOF /\ in_stream g' = false /\ content g = [] /\ is_well g = true \/
   ret = ARCHIVE_OK /\ in_stream g' = true /\ content g = content g' /\ is_well g = is_well g' /\
   blen (input_of g') <= blen (input_of g)).
Proof.
  intros [Hr Hi] Hs He. pose proof (rd_bytes _ Hr) as Hb. unfold consume_header.
  destruct (peek_at_header_ok junk (upstream g) Hr) as (h & f & -> & [Hr1 Hs1] & Hh). cbn [mbind option_bind].
  assert (gzip_state g = None) as Hst by (unfold gzip_state; by rewrite Hs).
  unfold content, is_well, input_of. rewrite He, Hs, Hst, gunzip_none by done. cbn [orb]. rewrite Hh.
  destruct (Z.eqb_spec (header_len (stream (upstream g))) 0) as [Hz|Hz].
  { do 2 eexists. split; [done|]. cbn [in_stream eof upstream]. split; [by split|].
    split; [done|]. by left. }
  cbn [upstream]. pose proof (header_len_range _ Hb) as Hpos.
  destruct (consume_beyond f _ Hr1 Hpos) as (x & f2 & -> & Hr2 & Hs2).
  cbn [mbind option_bind].
  destruct (ahead_keeps junk f2 1 Hr2 ltac:(lia)) as (o & a & f3 & -> & [Hr3 Hs3] & _). cbn [mbind option_bind].
  destruct inflateInit2_law as [Hret Hok]. destruct inflateInit2 as [ret s]. cbn [fst snd] in *. subst ret.
  change (Z_OK =? Z_OK) with true. cbn iota. do 2 eexists. split; [done|].
  cbn [set_stream set_upstream upstream in_stream r_stream eof]. split; [by split|]. split; [done|].
  right. split; [done|]. split; [done|]. rewrite Hs3, Hs2, Hs1. cbn [orb].
  split; [done|]. split; [done|]. unfold blen. rewrite length_drop. lia.
Qed.

Lemma consume_trailer_ok g : gz_good g -> in_stream g = true ->
  exists ret g', consume_trailer junk g = Some (ret, g') /\ gz_good g' /\ in_stream g' = false /\ eof g' = eof g /\
  (ret = ARCHIVE_OK /\ 8 <= blen (input_of g) /\ input_of g' = drop 8 (input_of g) \/
   ret = ARCHIVE_FATAL /\ blen (input_of g) < 8).
Proof.
  intros [Hr Hi] Hs. unfold consume_trailer, input_of.
  cbn [set_stream r_stream upstream]. rewrite inflateEnd_law by auto. change (negb (Z_OK =? Z_OK)) with false.
  cbn iota. destruct (ahead_keeps junk (upstream g) 8 Hr ltac:(lia)) as (o & a & f & -> & [Hr1 Hs1] & Ho).
  cbn [mbind option_bind]. destruct o as [p|].
  - destruct Ho as [Hp Ha]. replace (a =? 0) with false by lia.
    destruct (front_mread _ _ _ 0 8 Hp) as (_ & _ & Hl); [lia..|].
    destruct (consume_keeps f 8 Hr1) as (f2 & -> & Hr2 & Hs2); [rewrite Hs1; lia|]. cbn [mbind option_bind].
    do 2 eexists. split; [done|]. split; [by split|]. split; [done|]. split; [done|]. left.
    split; [done|]. split; [lia|]. cbn. rewrite Hs2, Hs1. done.
  - do 2 eexists. split; [done|]. split; [by split|]. split; [done|]. split; [done|]. right. split; [done|lia].
Qed.

(** A call of the library takes input or makes output, and what the reader will
    make of the rest follows it. *)
Lemma inflate_some_ok g room : gz_good g -> in_stream g = true -> eof g = false -> 0 < room ->
  exists ret o g', inflate_some junk g room = Some (ret, o, g') /\ gz_good g' /\
  (ret = ARCHIVE_OK /\ eof g' = false /\ blen o <= room /\ content g = o ++ content g' /\
     is_well g = is_well g' /\ blen (input_of g') < blen (input_of g) + blen o \/
   ret = ARCHIVE_FATAL /\ is_well g = false).
Proof.
  intros Hg Hs He Hroom. pose proof Hg as [Hr Hi]. pose proof (rd_bytes _ Hr) as Hb. unfold inflate_some.
  destruct (ahead_keeps junk (upstream g) 1 Hr ltac:(lia)) as (op & a & f & -> & [Hr1 Hs1] & Ho).
  cbn [mbind option_bind].
  assert (gunzip (gzip_state g) (input_of g) = gunzip (Some (r_stream g)) (input_of g)) as Hgz
    by (unfold gzip_state; by rewrite Hs).
  unfold content, is_well. rewrite He, Hgz, gunzip_some by done. cbn [orb].
  destruct op as [p|]; last first.
  { do 3 eexists. split; [done|]. split; [by split|]. right. split; [done|].
    assert (input_of g = []) as ->.
    { unfold input_of. destruct (stream (upstream g)) as [|b l]; [done|]. rewrite blen_cons in Ho.
      pose proof (blen_nonneg l). lia. }
    destruct (inflate_all (r_stream g) []) as [y [t|]] eqn:E; [|done].
    destruct (inflate_tail _ _ _ _ E) as [h Hh]. symmetry in Hh. apply app_nil in Hh as [_ ->]. done. }
  destruct Ho as [Hp Ha].
  set (n := if 2 ^ 32 - 1 <? a then 2 ^ 32 - 1 else a).
  assert (0 < n <= a) as Hn by (unfold n; destruct (Z.ltb_spec (2 ^ 32 - 1) a); lia).
  clearbody n. destruct (front_mread _ _ _ 0 n Hp) as (-> & Hl & Hx); [lia..|]. cbn [mbind option_bind].
  set (inp := sub (stream (upstream g)) 0 n) in *.
  assert (input_of g = inp ++ drop (Z.to_nat n) (input_of g)) as Hsplit.
  { unfold inp, input_of, sub. rewrite drop_0. by rewrite take_drop. }
  set (z := drop (Z.to_nat n) (input_of g)) in *.
  assert (inp <> []) as Hne by (intros E; rewrite E in Hl; change (blen []) with 0 in Hl; lia).
  pose proof (inflate_law (r_stream g) inp z room (Hi Hs) Hne Hroom) as Hlaw. cbn [set_upstream r_stream].
  destruct (inflate (r_stream g) inp room) as [[[ret k] o] s] eqn:Ei. rewrite Hsplit.
  destruct (inflate_all (r_stream g) (inp ++ z)) as [y e] eqn:Ea.
  destruct Hlaw as (Hk & Hob & Hok & Hor).
  assert (forall g2, gz_good g2 -> upstream g2 = f -> exists f2,
    archive_read_filter_consume f k = Some (k, f2) /\ readable f2 /\
    stream f2 = drop (Z.to_nat k) inp ++ z) as Hcons.
  { intros g2 _ _. destruct (consume_keeps f k Hr1) as (f2 & Hc & Hr2 & Hs2).
    - rewrite Hs1. unfold input_of in Hsplit. rewrite Hsplit, blen_app. pose proof (blen_nonneg z). lia.
    - exists f2. split; [done|]. split; [done|]. rewrite Hs2, Hs1. unfold input_of in Hsplit. rewrite Hsplit.
      apply drop_app_le. unfold blen in *. lia. }
  destruct (Hcons (set_upstream g f)) as (f2 & Hc & Hr2 & Hs2); [by split|done|]. clear Hcons.
  destruct Hor as [(-> & Hprog & y' & -> & Hrest)|[(-> & -> & ->)|(Hn1 & Hn2 & ->)]].
  - change ((Z_OK =? Z_OK) || (Z_OK =? Z_STREAM_END)) with true. cbn iota.
    cbn [set_stream set_upstream upstream in_stream r_stream total_out mtime g_name eof]. rewrite Hc.
    cbn [mbind option_bind]. change (Z_OK =? Z_OK) with true. cbn iota. do 3 eexists. split; [done|].
    unfold input_of, gzip_state.
    cbn [set_stream set_upstream upstream in_stream r_stream total_out mtime g_name eof].
    split; [by split|]. left. split; [done|]. split; [done|]. split; [done|]. rewrite He, Hs, Hs2.
    rewrite (gunzip_some s) by (rewrite <- Hs2; apply (rd_bytes _ Hr2)). rewrite Hrest.
    assert (blen (drop (Z.to_nat k) inp ++ z) < blen (inp ++ z) + blen o) as Hlt.
    { rewrite !blen_app. unfold blen in *. rewrite length_drop.
      destruct Hprog as [|Ho]; [lia|]. destruct o; [done|cbn; lia]. }
    destruct e as [t|]; [|done]. destruct (blen t <? 8); [done|].
    destruct (gunzip None (drop 8 t)) as [zz ok]. cbn [fst snd orb]. by rewrite <- app_assoc.
  - change ((Z_STREAM_END =? Z_OK) || (Z_STREAM_END =? Z_STREAM_END)) with true. cbn iota.
    cbn [set_stream set_upstream upstream in_stream r_stream total_out mtime g_name eof]. rewrite Hc.
    cbn [mbind option_bind]. change (Z_STREAM_END =? Z_OK) with false. cbn iota.
    destruct (consume_trailer_ok (set_upstream (set_stream (set_upstream g f) (in_stream g) s) f2))
      as (ret & g' & Ht & Hg' & Hin' & Heof' & Hor); [by split|done|].
    cbn [set_stream set_upstream upstream in_stream r_stream total_out mtime g_name eof] in Ht, Heof'.
    rewrite Ht. cbn [mbind option_bind]. exists ret, o, g'. split; [done|]. split; [done|].
    unfold input_of in Hor. cbn [set_stream set_upstream upstream] in Hor. rewrite Hs2 in Hor.
    destruct Hor as [(-> & H8 & Hin)|(-> & H8)].
    + left. split; [done|]. rewrite Heof'. split; [done|]. split; [done|]. unfold gzip_state. rewrite Hin', He.
      fold (input_of g') in Hin. rewrite Hin. replace (blen (drop (Z.to_nat k) inp ++ z) <? 8) with false by lia.
      destruct (gunzip None (drop 8 (drop (Z.to_nat k) inp ++ z))) as [zz ok]. cbn [fst snd orb].
      split; [done|]. split; [done|]. rewrite blen_app. pose proof (blen_nonneg o). pose proof (blen_nonneg z).
      unfold blen in *. rewrite length_drop, length_app, length_drop in *. lia.
    + right. split; [done|]. by replace (blen (drop (Z.to_nat k) inp ++ z) <? 8) with true by lia.
  - replace ((ret =? Z_OK) || (ret =? Z_STREAM_END)) with false.
    2: { symmetry. apply orb_false_iff. split; by apply Z.eqb_neq. }
    do 3 eexists. split; [done|]. split; [split; [done|by cbn]|]. by right.
Qed.

(** Filling the block. *)
Lemma fill_loop_ok fuel g out : gz_good g -> blen out <= out_block_size ->
  blen (input_of g) + (out_block_size - blen out) < Z.of_nat fuel ->
  exists r b g', fill_loop junk fuel g out = Some (r, b, g') /\ gz_good g' /\
  (r = blen b /\ (exists o, b = out ++ o /\ content g = o ++ content g') /\ is_well g = is_well g' /\
     (b = [] -> content g' = []) \/
   r < 0 /\ is_well g = false).
Proof.
  revert g out. induction fuel as [|fuel IH]; intros g out Hg Hout Hf.
  { pose proof (blen_nonneg (input_of g)). lia. }
  cbn [fill_loop]. destruct (Z.ltb_spec 0 (out_block_size - blen out)) as [Hroom|Hroom]; cbn [andb]; last first.
  { do 3 eexists. split; [done|]. split; [done|]. left. split; [done|].
    split; [exists []; by rewrite app_nil_r|]. split; [done|]. intros ->.
    change (blen []) with 0 in Hroom. unfold out_block_size in Hroom. lia. }
  destruct (eof g) eqn:He; cbn [negb].
  { do 3 eexists. split; [done|]. split; [done|]. left. split; [done|].
    split; [exists []; by rewrite app_nil_r|]. split; [done|]. intros _. unfold content. by rewrite He. }
  assert (forall g1, gz_good g1 -> in_stream g1 = true -> eof g1 = false -> content g = content g1 ->
    is_well g = is_well g1 -> blen (input_of g1) <= blen (input_of g) ->
    exists r b g', ('(ret, o, g) ← inflate_some junk g1 (out_block_size - blen out);
      if ret <? ARCHIVE_OK then Some (ret, [], g) else fill_loop junk fuel g (out ++ o)) = Some (r, b, g') /\
    gz_good g' /\
    (r = blen b /\ (exists o, b = out ++ o /\ content g = o ++ content g') /\ is_well g = is_well g' /\
       (b = [] -> content g' = []) \/ r < 0 /\ is_well g = false)) as Hstep.
  { intros g1 Hg1 Hs1 He1 Hc1 Hw1 Hl1.
    destruct (inflate_some_ok g1 (out_block_size - blen out) Hg1 Hs1 He1 Hroom)
      as (ret & o & g2 & -> & Hg2 & Hor). cbn [mbind option_bind].
    destruct Hor as [(-> & He2 & Hob & Hc2 & Hw2 & Hl2)|(-> & Hw2)].
    - change (ARCHIVE_OK <? ARCHIVE_OK) with false. cbn iota.
      destruct (IH g2 (out ++ o) Hg2) as (r & b & g3 & -> & Hg3 & Hor).
      + rewrite blen_app. lia.
      + rewrite blen_app. lia.
      + exists r, b, g3. split; [done|]. split; [done|].
        destruct Hor as [(-> & (o' & -> & Hc3) & Hw3 & Hb3)|(Hneg & Hw3)].
        * left. split; [done|]. split; [|split; [congruence|done]]. exists (o ++ o').
          rewrite app_assoc. split; [done|]. rewrite Hc1, Hc2, Hc3. by rewrite app_assoc.
        * right. split; [done|congruence].
    - change (ARCHIVE_FATAL <? ARCHIVE_OK) with true. cbn iota. do 3 eexists. split; [done|].
      split; [done|]. right. split; [done|congruence]. }
  destruct (in_stream g) eqn:Hs; cbn [mbind option_bind].
  - change (ARCHIVE_OK =? ARCHIVE_EOF) with false. change (ARCHIVE_OK <? ARCHIVE_OK) with false. cbn iota.
    by apply Hstep.
  - destruct (consume_header_ok g Hg Hs He) as (ret & g1 & -> & Hg1 & He1 & Hor). cbn [mbind option_bind].
    destruct Hor as [(-> & Hs1 & Hc & Hw)|(-> & Hs1 & Hc & Hw & Hl)].
    + change (ARCHIVE_EOF =? ARCHIVE_EOF) with true. cbn iota. do 3 eexists. split; [done|].
      split; [destruct Hg1; by split|]. left. split; [done|]. unfold is_well, content in *. rewrite He in *.
      cbn [set_at_eof eof orb] in *. split; [exists []; by rewrite app_nil_r|]. split; [done|done].
    + change (ARCHIVE_OK =? ARCHIVE_EOF) with false. change (ARCHIVE_OK <? ARCHIVE_OK) with false. cbn iota.
      by apply Hstep.
Qed.

Lemma gzip_filter_read_ok g : gz_good g ->
  exists r b g', gzip_filter_read junk g = Some (r, b, g') /\ gz_good g' /\
  (r = blen b /\ content g = b ++ content g' /\ is_well g = is_well g' /\ (b = [] -> content g' = []) \/
   r < 0 /\ is_well g = false).
Proof.
  intros Hg. unfold gzip_filter_read.
  destruct (fill_loop_ok (length (stream (upstream g)) + Z.to_nat out_block_size + 2) g [] Hg)
    as (r & b & g1 & -> & Hg1 & Hor).
  - unfold out_block_size, blen. cbn. lia.
  - unfold out_block_size, input_of, blen. cbn [length]. lia.
  - cbn [mbind option_bind]. do 3 eexists. split; [done|].
    destruct Hor as [(-> & (o & -> & Hc) & Hw & Hb)|(Hr & Hw)].
    + pose proof (blen_nonneg ([] ++ o)). replace (blen ([] ++ o) <? 0) with false by lia.
      split; [destruct Hg1; by split|]. left. cbn [app] in *. by split_and!.
    + replace (r <? 0) with true by lia. split; [done|]. by right.
Qed.

End Reading.

(** The reader is a layer like any other: blocks are pieces of the contents, the
    end is the end, and an error is only reported when the file is in error. *)
Definition gzip_reader_laws {IS U} `{InflateLaws IS, UpstreamLaws U} (junk : Z -> Z) :
  @UpstreamLaws (gzip_reader IS U) (gzip_upstream junk).
Proof.
  refine (@Build_UpstreamLaws _ (gzip_upstream junk) gz_good (fun g => is_well g = true) _ _).
  - intros g Hg. cbn [fread gzip_upstream rest]. unfold default.
    destruct (gzip_filter_read_ok junk g Hg) as (r & b & g' & -> & Hg' & Hor). cbn iota beta.
    split; [done|]. destruct Hor as [(-> & Hc & Hw & Hb)|(Hr & Hw)].
    + right. pose proof (blen_nonneg b). split; [lia|].
      split; [rewrite take_ge by (unfold blen; lia); exact Hc|]. split; [|by rewrite Hw].
      intros Hz. assert (b = []) as -> by (destruct b; [done|]; rewrite blen_cons in Hz; pose proof (blen_nonneg b); lia).
      exact (eq_trans Hc (Hb eq_refl)).
    + left. split; [done|]. by rewrite Hw.
  - discriminate.
Defined.

Section Choosing.
Context {IS : Type} `{InflateLaws IS} (junk : Z -> Z).

(** Building the pipeline follows the peeling of the contents. *)
Lemma choose_filters_ok n U (up : Upstream U) (L : UpstreamLaws U) (f : archive_read_filter U) s :
  readable f -> peels (IS := IS) n (stream f) s ->
  exists pl, choose_filters (IS := IS) junk n U up f = Some (Some pl) /\ pipe_reads pl s.
Proof.
  intros Hr Hp. remember (stream f) as x eqn:Hx. revert U up L f Hr Hx.
  induction Hp as [n x Hz|n x y s Hz Hg Hl Hp IH]; intros U up L f Hr ->.
  - cbn [choose_filters]. destruct (gzip_bidder_bid_ok junk f Hr) as (f' & -> & [[Hv Hf Hc _ _] Hs']).
    cbn [mbind option_bind]. rewrite Hz. change (0 <=? 0) with true. cbn iota. rewrite <- Hs'. by apply verify_ok.
  - cbn [choose_filters]. destruct (gzip_bidder_bid_ok junk f Hr) as (f' & -> & [Hr' Hs']).
    cbn [mbind option_bind]. replace (header_len (stream f) =? 0) with false by lia.
    change (27 <=? 0) with false. cbn iota.
    apply (IH _ (gzip_upstream junk) (gzip_reader_laws junk)).
    + assert (stream (H := gzip_upstream junk) (new_filter (gzip_bidder_init (IS := IS) f')) = y) as Hy.
      { change (fst (gunzip (IS := IS) None (stream f')) = y). by rewrite Hs', Hg. }
      split.
      * apply new_filter_valid. split; [exact Hr'|done].
      * done.
      * change (snd (gunzip (IS := IS) None (stream f')) = true). by rewrite Hs', Hg.
      * by rewrite Hy.
      * rewrite Hy. pose proof (gunzip_bytes (IS := IS) None _ (rd_bytes _ Hr)) as Hb. by rewrite Hg in Hb.
    + change (y = fst (gunzip (IS := IS) None (stream f'))). by rewrite Hs', Hg.
Qed.

Lemma gzip_decodes k s : k <> [] -> Forall is_byte k -> blen k < 2 ^ 61 ->
  peels (IS := IS) MAX_NUMBER_FILTERS k s -> decodes (gzip_input (IS := IS) junk) k s.
Proof.
  intros Hk Hb Hl Hp. unfold decodes, gzip_input.
  apply (choose_filters_ok _ _ _ _ (new_filter (archive_read_open_memory k))).
  - split; [by apply memory_valid|done|done|by rewrite new_filter_stream|by rewrite new_filter_stream].
  - by rewrite new_filter_stream.
Qed.

End Choosing.

(** ** Writing *)

(** Deflating in pieces: a call takes input and makes output until it has taken
    all of the input or filled the room; with [Z_FINISH] it goes on until the
    stream is complete. *)
Class DeflateLaws (DS : Type) `{Deflate DS} := {
  z_ok : DS -> Prop;
  z_in : DS -> bytes;
  z_out : DS -> bytes;
  z_done : DS -> Prop;
  deflateInit2_law l : 0 <= l <= 9 ->
    let '(ret, s) := deflateInit2 l in ret = Z_OK /\ z_ok s /\ ~ z_done s /\ z_in s = [] /\ z_out s = [];
  deflate_law s inp room fin : z_ok s -> ~ z_done s -> 0 < room -> (fin = false -> inp <> []) ->
    let '(ret, n, o, s') := deflate s inp room fin in
    z_ok s' /\ 0 <= n <= blen inp /\ blen o <= room /\
    z_in s' = z_in s ++ take (Z.to_nat n) inp /\ z_out s' = z_out s ++ o /\
    (deflate_left s' (drop (Z.to_nat n) inp) + length o <= deflate_left s inp)%nat /\
    (ret = Z_OK /\ ~ z_done s' /\ (n = blen inp /\ fin = false \/ blen o = room) \/
     ret = Z_STREAM_END /\ fin = true /\ n = blen inp /\ z_done s');
  deflateEnd_law s : z_done s -> deflateEnd s = Z_OK
}.

Section Writing.
Context {DS : Type} `{DeflateLaws DS} (junk : Z -> Z).
Abbreviation writer := (gzip_writer DS (archive_none write_memory_data)).
Implicit Types g : writer.

(** The client the compressed data goes to, and its memory. *)
Definition client_of g : archive_none write_memory_data := f_data (next_filter g).

Record gw_safe g : Prop := {
  gw_stream : z_ok (w_stream g);
  gw_avail : 0 <= avail_out g <= compressed_buffer_size g;
  gw_size : 0 < compressed_buffer_size g;
  gw_buffer : compressed_buffer_size g = blen (compressed g);
  gw_open : f_state (next_filter g) = ARCHIVE_WRITE_FILTER_STATE_OPEN;
  gw_client : client_ok (client_of g)
}.

(** All output so far. *)
Definition output_of g : bytes :=
  taken (client_of g) ++ take (Z.to_nat (compressed_buffer_size g - avail_out g)) (compressed g).

(** What the functions leave alone. *)
Definition same_setup g g' : Prop :=
  total_in g' = total_in g /\ w_crc g' = w_crc g /\
  Archivewrite.size (client (client_of g')) = Archivewrite.size (client (client_of g)).

Lemma same_setup_trans g1 g2 g3 : same_setup g1 g2 -> same_setup g2 g3 -> same_setup g1 g3.
Proof. intros (?&?&?) (?&?&?). split_and!; congruence. Qed.

(** Handing data on. *)
Lemma next_write_ok g d : gw_safe g ->
  exists r f, archive_write_filter_ (next_filter g) d = Some (r, f) /\ gw_safe (set_next g f) /\
  same_setup g (set_next g f) /\
  (r = ARCHIVE_OK /\ taken (f_data f) = taken (client_of g) ++ d \/ r = ARCHIVE_FATAL).
Proof.
  intros [Hz Ha Hs Hb Ho Hc]. unfold archive_write_filter_. rewrite Ho, bool_decide_true by done. cbn [negb].
  destruct (Z.eqb_spec (blen d) 0) as [Hd|Hd].
  { do 2 eexists. split; [done|]. split; [by split|]. split; [done|]. left. split; [done|].
    destruct d; [by rewrite app_nil_r|]. rewrite blen_cons in Hd. pose proof (blen_nonneg d). lia. }
  fold (client_of g).
  destruct (archive_write_client_write_ok (client_of g) d Hc) as (r & c & He & Hsz & Hc' & Hor);
    [by intros ->|].
  cbn [fwrite client_sink]. rewrite He. cbn [mbind option_bind].
  do 2 eexists. split; [done|]. split; [by split|]. split; [by split_and!|]. cbn [f_data].
  destruct Hor as [?|[-> _]]; [by left|by right].
Qed.

Lemma flush_full_ok g : gw_safe g ->
  exists r g', flush_full g = Some (r, g') /\ gw_safe g' /\ same_setup g g' /\
  w_stream g' = w_stream g /\ next_in g' = next_in g /\
  (r = ARCHIVE_OK /\ 0 < avail_out g' /\ output_of g' = output_of g \/ r = ARCHIVE_FATAL).
Proof.
  intros Hg. unfold flush_full. destruct (Z.eqb_spec (avail_out g) 0) as [Hz|Hz]; last first.
  { do 2 eexists. split; [done|]. split; [done|]. split; [done|]. split; [done|]. split; [done|].
    left. destruct (gw_avail _ Hg). split_and!; [done|lia|done]. }
  destruct (next_write_ok g (compressed g) Hg) as (r & f & -> & Hg' & Hs & Hor). cbn [mbind option_bind].
  destruct Hor as [(-> & Ht)| ->].
  - change (negb (ARCHIVE_OK =? ARCHIVE_OK)) with false. cbn iota. do 2 eexists. split; [done|].
    destruct Hg as [Hgz Hga Hgs Hgb Hgo Hgc], Hg'. split; [split; try done; cbn; lia|]. split; [done|].
    split; [done|]. split; [done|]. left. split; [done|]. split; [exact Hgs|].
    unfold output_of. cbn [set_avail_out set_next client_of next_filter compressed compressed_buffer_size avail_out].
    unfold client_of. cbn [next_filter set_avail_out set_next]. rewrite Ht, Hz, Z.sub_0_r, Z.sub_diag.
    change (Z.to_nat 0) with O. cbn [take]. rewrite app_nil_r, take_ge by (rewrite Hgb; unfold blen; lia). done.
  - change (negb (ARCHIVE_FATAL =? ARCHIVE_OK)) with true. cbn iota. do 2 eexists. split; [done|].
    split; [done|]. split; [done|]. split; [done|]. split; [done|]. by right.
Qed.

(** A write into the buffer extends its used part. *)
Lemma mwrite_extends m off d : 0 <= off -> off + blen d <= blen m ->
  exists m', mwrite m off d = Some m' /\ blen m' = blen m /\
  take (Z.to_nat (off + blen d)) m' = take (Z.to_nat off) m ++ d.
Proof.
  intros Ho Hl. pose proof (blen_nonneg d). destruct (mwrite_ok m off d) as (m' & He & Hb & Hs & Hbefore); [lia..|].
  exists m'. split; [done|]. split; [done|].
  pose proof (sub_split m' 0 off (blen d)) as Hsp. rewrite Z.add_0_l, Hs in Hsp.
  rewrite (Hbefore 0 off) in Hsp by lia. unfold sub in Hsp. change (Z.to_nat 0) with O in Hsp.
  rewrite !drop_0 in Hsp. by apply Hsp; lia.
Qed.

Lemma call_deflate_ok g fin : gw_safe g -> ~ z_done (w_stream g) -> 0 < avail_out g -> (fin = false -> next_in g <> []) ->
  exists r g' n o, call_deflate g fin = Some (r, g') /\ gw_safe g' /\ same_setup g g' /\
  0 <= n <= blen (next_in g) /\ next_in g' = drop (Z.to_nat n) (next_in g) /\
  z_in (w_stream g') = z_in (w_stream g) ++ take (Z.to_nat n) (next_in g) /\
  z_out (w_stream g') = z_out (w_stream g) ++ o /\ output_of g' = output_of g ++ o /\
  (deflate_left (w_stream g') (next_in g') + length o <= deflate_left (w_stream g) (next_in g))%nat /\
  (r = Z_OK /\ ~ z_done (w_stream g') /\ (next_in g' = [] /\ fin = false \/ (0 < length o)%nat) \/
   r = Z_STREAM_END /\ fin = true /\ next_in g' = [] /\ z_done (w_stream g')).
Proof.
  intros Hg Hnd Ha Hi. pose proof Hg as [Hgz Hga Hgs Hgb Hgo Hgc]. unfold call_deflate.
  pose proof (deflate_law (w_stream g) (next_in g) (avail_out g) fin Hgz Hnd Ha Hi) as Hlaw.
  destruct (deflate (w_stream g) (next_in g) (avail_out g) fin) as [[[r n] o] s].
  destruct Hlaw as (Hz & Hn & Ho & Hin & Hout & Hleft & Hor).
  destruct (mwrite_extends (compressed g) (compressed_buffer_size g - avail_out g) o) as (b & -> & Hb & Ht); [lia..|].
  cbn [mbind option_bind]. pose proof (blen_nonneg o). eexists r, _, n, o. split; [done|].
  cbn [w_stream next_in]. split; [split; try done; cbn; lia|]. split; [done|]. split; [done|]. split; [done|].
  split; [done|]. split; [done|]. split.
  { unfold output_of. cbn [client_of next_filter compressed compressed_buffer_size avail_out].
    replace (compressed_buffer_size g - (avail_out g - blen o))
      with (compressed_buffer_size g - avail_out g + blen o) by lia.
    rewrite Ht. by rewrite app_assoc. }
  split; [done|]. destruct Hor as [(-> & Hnd' & Hor)|(-> & Hf & -> & Hd)].
  - left. split; [done|]. split; [done|]. destruct Hor as [(-> & Hf)|Ho']; [left|right].
    + split; [|done]. apply drop_ge. unfold blen. lia.
    + unfold blen in *. lia.
  - right. split_and!; try done. apply drop_ge. unfold blen. lia.
Qed.

(** The loop takes all of the input, and completes the stream when finishing. *)
Lemma drive_loop_ok fuel g fin : gw_safe g -> ~ z_done (w_stream g) -> (deflate_left (w_stream g) (next_in g) < fuel)%nat ->
  exists r g', drive_loop fuel g fin = Some (r, g') /\ gw_safe g' /\ same_setup g g' /\
  (z_done (w_stream g') -> fin = true) /\
  (r = ARCHIVE_OK /\ z_in (w_stream g') = z_in (w_stream g) ++ next_in g /\
     (forall p, output_of g = p ++ z_out (w_stream g) -> output_of g' = p ++ z_out (w_stream g')) /\
     next_in g' = [] /\ (fin = true -> z_done (w_stream g')) \/
   r = ARCHIVE_FATAL).
Proof.
  revert g. induction fuel as [|fuel IH]; intros g Hg Hnd Hf; [lia|]. cbn [drive_loop].
  destruct (flush_full_ok g Hg) as (r & g1 & -> & Hg1 & Hs1 & Hst1 & Hin1 & Hor). cbn [mbind option_bind].
  destruct Hor as [(-> & Ha1 & Ho1)| ->]; last first.
  { change (negb (ARCHIVE_FATAL =? ARCHIVE_OK)) with true. cbn iota. do 2 eexists. split; [done|].
    split; [done|]. split; [done|]. split; [by rewrite Hst1|]. by right. }
  change (negb (ARCHIVE_OK =? ARCHIVE_OK)) with false. cbn iota.
  assert (forall l : bytes, (blen l =? 0) = true <-> l = []) as Hnil.
  { intros [|x l]; [done|]. rewrite blen_cons. pose proof (blen_nonneg l). split; [lia|done]. }
  destruct (negb fin && (blen (next_in g1) =? 0)) eqn:E.
  { apply andb_true_iff in E as [E1 E2]. apply Hnil in E2. destruct fin; [done|].
    do 2 eexists. split; [done|]. split; [done|]. split; [done|]. split; [by rewrite Hst1|]. left. split; [done|].
    rewrite <- Hin1, E2, Hst1, app_nil_r. split; [done|]. split; [|done]. intros p Hp. by rewrite Ho1. }
  destruct (call_deflate_ok g1 fin Hg1 ltac:(by rewrite Hst1) Ha1) as (r & g2 & n & o & -> & Hg2 & Hs2 & Hn & Hin2 & Hzi & Hzo & Ho2 & Hleft & Hor).
  { intros -> Hx. cbn [negb andb] in E. apply Hnil in Hx. congruence. }
  cbn [mbind option_bind]. rewrite Hst1, Hin1 in *.
  assert (forall p, output_of g = p ++ z_out (w_stream g) -> output_of g2 = p ++ z_out (w_stream g2)) as Hlink.
  { intros p Hp. rewrite Ho2, Ho1, Hp, Hzo. by rewrite app_assoc. }
  assert (next_in g2 = [] -> z_in (w_stream g2) = z_in (w_stream g) ++ next_in g) as Hall.
  { intros Hx. rewrite Hzi. f_equal. rewrite <- (take_drop (Z.to_nat n) (next_in g)) at 2.
    by rewrite <- Hin2, Hx, app_nil_r. }
  destruct Hor as [(-> & Hnd2 & Hor)|(-> & -> & Hx & Hd)].
  - change (Z_OK =? Z_OK) with true. cbn iota.
    destruct (negb fin && (blen (next_in g2) =? 0)) eqn:E2.
    + apply andb_true_iff in E2 as [E3 E2]. apply Hnil in E2. destruct fin; [done|].
      do 2 eexists. split; [done|]. split; [done|]. split; [by eapply same_setup_trans|]. split; [done|]. left.
      split_and!; [done|by apply Hall|done|done|done].
    + destruct Hor as [(Hx & ->)|Hpos].
      { cbn [negb andb] in E2. apply Hnil in Hx. congruence. }
      destruct (IH g2 Hg2 Hnd2) as (r & g3 & -> & Hg3 & Hs3 & Hd3' & Hor); [lia|].
      do 2 eexists. split; [done|]. split; [done|].
      split; [eapply same_setup_trans; [done|by eapply same_setup_trans]|]. split; [done|].
      destruct Hor as [(-> & Hz3 & Hl3 & Hn3 & Hd3)| ->]; [left|by right].
      split; [done|]. split; [|split; [by eauto|done]].
      rewrite Hz3, Hzi, <- app_assoc. f_equal. by rewrite Hin2, take_drop.
  - change (Z_STREAM_END =? Z_OK) with false. change (Z_STREAM_END =? Z_STREAM_END) with true. cbn iota.
    do 2 eexists. split; [done|]. split; [done|]. split; [by eapply same_setup_trans|]. split; [done|]. left.
    split_and!; [done|by apply Hall|done|done|done].
Qed.

Lemma drive_compressor_ok g fin : gw_safe g -> ~ z_done (w_stream g) ->
  exists r g', drive_compressor g fin = Some (r, g') /\ gw_safe g' /\ same_setup g g' /\
  (z_done (w_stream g') -> fin = true) /\
  (r = ARCHIVE_OK /\ z_in (w_stream g') = z_in (w_stream g) ++ next_in g /\
     (forall p, output_of g = p ++ z_out (w_stream g) -> output_of g' = p ++ z_out (w_stream g')) /\
     next_in g' = [] /\ (fin = true -> z_done (w_stream g')) \/
   r = ARCHIVE_FATAL).
Proof. intros Hg Hnd. apply drive_loop_ok; [done|done|lia]. Qed.

End Writing.

(** ** A compressed file *)

(** The header of the program's gzip files: deflated as well as possible, no
    time stamp. *)
Definition kernel_header : bytes := [0x1f; 0x8b; 0x08; 0; 0; 0; 0; 0; 2; 3].

Example kernel_header_written : let '(level, ts) := gzip_level (str "9") in gzip_header level ts 0 = kernel_header.
Proof. reflexivity. Qed.

Lemma kernel_header_len x : header_len (kernel_header ++ x) = 10.
Proof.
  unfold header_len. rewrite blen_app. change (blen kernel_header) with 10. pose proof (blen_nonneg x).
  replace (10 + blen x <? 10) with false by lia.
  assert (forall o n, 0 <= o -> 0 <= n -> o + n <= 10 -> sub (kernel_header ++ x) o n = sub kernel_header o n) as Hsub.
  { intros o n Ho Hn Hl. unfold sub. rewrite drop_app_le by (cbn; lia).
    apply take_app_le. rewrite length_drop. cbn. lia. }
  rewrite !Hsub by lia. rewrite bool_decide_true by done. done.
Qed.

Section Encoding.
Context {DS : Type} `{DeflateLaws DS} (junk : Z -> Z).
Abbreviation writer := (gzip_writer DS (archive_none write_memory_data)).
Implicit Types g : writer.

Lemma gzip_open_ok n : 0 <= n ->
  exists g, chain_open (OutputChain := gzip_output junk) (zeros n) = Some (ARCHIVE_OK, g) /\ gw_safe g /\
  ~ z_done (w_stream g) /\ Archivewrite.size (client (client_of g)) = n /\
  z_in (w_stream g) = [] /\ output_of g = kernel_header ++ z_out (w_stream g) /\
  total_in g = 0 /\ w_crc g = crc32 0 [].
Proof.
  intros Hn. cbn [chain_open gzip_output]. change (gzip_level (str "9")) with (9, -1). cbn iota.
  destruct (client_open_ok junk 10240 (zeros n) ltac:(lia)) as [Hc Ht].
  set (c := archive_write_client_open junk 10240 1 (memory_write_open (zeros n))) in *.
  unfold archive_compressor_gzip_open. change (buffer_size 10240) with 61440.
  assert (blen (Util.realloc junk [] 61440) = 61440) as Hb.
  { destruct (Util.realloc_grow junk [] 61440) as (t & Hl & He); [lia|].
    change (blen [] + 61440) with 61440 in He. by rewrite He. }
  change (gzip_header 9 (-1) 0) with kernel_header.
  destruct (mwrite_extends (Util.realloc junk [] 61440) 0 kernel_header) as (b & -> & Hbl & Htk);
    [lia|by rewrite Hb|]. cbn [mbind option_bind].
  pose proof (deflateInit2_law 9 ltac:(lia)) as Hlaw. destruct (deflateInit2 9) as [r s].
  destruct Hlaw as (-> & Hz & Hnd & Hzi & Hzo). change (Z_OK =? Z_OK) with true. cbn iota.
  eexists. split; [done|]. split.
  { split; [exact Hz|cbn; lia|cbn; lia|cbn; by rewrite Hbl, Hb|reflexivity|exact Hc]. }
  split; [exact Hnd|]. split; [cbn; rewrite blen_zeros; lia|]. split; [exact Hzi|].
  split; [|split; reflexivity].
  unfold output_of, client_of. cbn [next_filter f_data compressed compressed_buffer_size avail_out w_stream].
  rewrite Ht, Hzo, app_nil_r. cbn [app]. replace (61440 - (61440 - 10)) with (0 + blen kernel_header) by done.
  rewrite Htk. done.
Qed.

Lemma gzip_write_ok g d : gw_safe g -> ~ z_done (w_stream g) ->
  exists r g', archive_compressor_gzip_write g d = Some (r, g') /\ gw_safe g' /\ ~ z_done (w_stream g') /\
  Archivewrite.size (client (client_of g')) = Archivewrite.size (client (client_of g)) /\
  total_in g' = total_in g + blen d /\
  (blen d < 2 ^ 32 -> w_crc g' = crc32 (w_crc g) d) /\
  (r = ARCHIVE_OK /\ next_in g' = [] /\ (blen d < 2 ^ 32 -> z_in (w_stream g') = z_in (w_stream g) ++ d) /\
     (forall p, output_of g = p ++ z_out (w_stream g) -> output_of g' = p ++ z_out (w_stream g')) \/
   r = ARCHIVE_FATAL).
Proof.
  intros Hg Hnd. unfold archive_compressor_gzip_write.
  assert (blen d < 2 ^ 32 -> take (Z.to_nat (u32 (blen d))) d = d) as Hall.
  { intros Hl. rewrite u32_small by (pose proof (blen_nonneg d); unfold is_u32; lia).
    apply take_ge. unfold blen. lia. }
  set (d' := take _ d) in *.
  set (g0 := GzipWriter _ _ _ d' _ _ _ _ _ _).
  destruct (drive_compressor_ok g0 false) as (r & g' & -> & Hg' & (Ht & Hcr & Hs) & Hd' & Hor);
    [destruct Hg; by split|done|].
  exists r, g'. split; [done|]. split; [done|]. split; [by intros Hx; specialize (Hd' Hx)|].
  split; [exact Hs|]. split; [exact Ht|]. split; [intros Hl; by rewrite Hcr, <- (Hall Hl) at 1|].
  destruct Hor as [(-> & Hzi & Hl & Hn & _)|]; [left|by right]. split; [done|]. split; [done|].
  split; [|exact Hl]. intros Hlt. rewrite Hzi. cbn [g0 w_stream next_in]. by rewrite Hall.
Qed.

Lemma gzip_close_ok g : gw_safe g -> ~ z_done (w_stream g) ->
  exists r g', gzip_close_chain g = Some (r, g') /\
  memory_ok (client (client_of g')) /\
  Archivewrite.size (client (client_of g')) = Archivewrite.size (client (client_of g)) /\
  (r = ARCHIVE_OK -> forall p, output_of g = p ++ z_out (w_stream g) ->
     exists s, z_done s /\ z_in s = z_in (w_stream g) ++ next_in g /\
     received (client (client_of g')) = p ++ z_out s ++ gzip_trailer g).
Proof.
  intros Hg Hnd. unfold gzip_close_chain.
  assert (exists r g1, archive_compressor_gzip_close g = Some (r, g1) /\ gw_safe g1 /\ same_setup g g1 /\
    (r = ARCHIVE_OK \/ r = ARCHIVE_FATAL) /\
    (r = ARCHIVE_OK -> forall p, output_of g = p ++ z_out (w_stream g) ->
     exists s, z_done s /\ z_in s = z_in (w_stream g) ++ next_in g /\
     taken (client_of g1) = p ++ z_out s ++ gzip_trailer g)) as (r & g1 & -> & Hg1 & Hs1 & Hr & Hr1).
  { unfold archive_compressor_gzip_close.
    destruct (drive_compressor_ok g true Hg Hnd) as (r & g1 & -> & Hg1 & Hs1 & _ & Hor). cbn [mbind option_bind].
    destruct Hor as [(-> & Hzi & Hlink & Hn1 & Hd1)| ->]; last first.
    { change (ARCHIVE_FATAL =? ARCHIVE_OK) with false. cbn iota. cbn [mbind option_bind].
      do 2 eexists. split; [done|]. split; [done|]. split; [done|]. split; [by case_match; right|]. by case_match. }
    change (ARCHIVE_OK =? ARCHIVE_OK) with true. cbn iota.
    destruct Hg1 as [Hgz Hga Hgs Hgb Hgo Hgc] eqn:Eg. rewrite sub_mread by lia. cbn [mbind option_bind].
    destruct (next_write_ok g1 (sub (compressed g1) 0 (compressed_buffer_size g1 - avail_out g1)))
      as (r2 & f2 & -> & Hg2 & Hs2 & Hor2); [by split|]. cbn [mbind option_bind].
    destruct Hor2 as [(-> & Ht2)| ->]; last first.
    { change (ARCHIVE_FATAL =? ARCHIVE_OK) with false. cbn iota. cbn [mbind option_bind].
      do 2 eexists. split; [done|]. split; [done|]. split; [by eapply same_setup_trans|]. split; [case_match; by right|]. by case_match. }
    change (ARCHIVE_OK =? ARCHIVE_OK) with true. cbn iota.
    destruct (next_write_ok (set_next g1 f2) (gzip_trailer (set_next g1 f2)) Hg2) as (r3 & f3 & -> & Hg3 & Hs3 & Hor3).
    cbn [mbind option_bind]. do 2 eexists. split; [done|]. split; [done|].
    split; [eapply same_setup_trans; [done|by eapply same_setup_trans]|].
    cbn [w_stream set_next]. rewrite deflateEnd_law by auto. change (Z_OK =? Z_OK) with true. cbn iota.
    split; [destruct Hor3 as [[-> _]| ->]; [by left|by right]|].
    intros ->. destruct Hor3 as [(_ & Ht3)|?]; [|done]. intros p Hp. exists (w_stream g1).
    split; [by apply Hd1|]. split; [done|]. unfold client_of at 1. cbn [next_filter set_next].
    rewrite Ht3. unfold client_of. cbn [next_filter set_next]. rewrite Ht2.
    specialize (Hlink p Hp). unfold output_of in Hlink. unfold sub. change (Z.to_nat 0) with O.
    rewrite drop_0, Hlink, <- app_assoc. do 2 f_equal. unfold gzip_trailer.
    destruct Hs1 as (Hs1 & Hs1' & _). cbn [w_crc total_in set_next]. by rewrite Hs1, Hs1'. }
  cbn [mbind option_bind]. unfold archive_write_filters_close. rewrite (gw_open _ Hg1), bool_decide_true by done.
  fold (client_of g1). cbn [fclose client_sink].
  destruct (archive_write_client_close_ok (client_of g1) (gw_client _ Hg1)) as (r2 & c & -> & Hsz & Hm & Hor).
  cbn [mbind option_bind]. do 2 eexists. split; [done|].
  unfold client_of at 1 2 4. cbn [set_next next_filter f_data].
  split; [done|]. destruct Hs1 as (_ & _ & Hs1). split; [congruence|].
  intros He p Hp. destruct Hr as [-> | ->]; last first.
  { destruct Hor as [(-> & _)|(-> & _)]; discriminate He. }
  destruct (Hr1 eq_refl p Hp) as (s & Hd & Hzi & Ht). exists s. split; [done|]. split; [done|].
  destruct Hor as [(-> & Hrc)|(-> & _)]; [by rewrite Hrc|discriminate He].
Qed.

(** What the chain leaves in memory: header, stream and trailer. *)
Lemma gzip_encoded n d : 0 <= n ->
  exists b m, encoded (chain := gzip_output junk) (zeros n) d = Some (b, m) /\ memory_ok m /\
  Archivewrite.size m = n /\
  (b = true -> blen d < 2 ^ 32 -> exists s, z_done s /\ z_in s = d /\
     received m = kernel_header ++ z_out s ++ le_bytes 4 (crc32 (crc32 0 []) d) ++ le_bytes 4 (blen d)).
Proof.
  intros Hn. destruct (gzip_open_ok n Hn) as (g & Ho & Hg & Hnd & Hsz & Hzi & Hout & Ht & Hcr).
  unfold encoded. rewrite Ho. cbn [mbind option_bind].
  change (negb (ARCHIVE_OK =? ARCHIVE_OK)) with false. cbn iota.
  destruct (gzip_write_ok g d Hg Hnd) as (r1 & g1 & He1 & Hg1 & Hnd1 & Hsz1 & Ht1 & Hcr1 & Hor1).
  cbn [fwrite gzip_sink]. rewrite He1. cbn [mbind option_bind].
  destruct (gzip_close_ok g1 Hg1 Hnd1) as (r2 & g2 & He2 & Hm2 & Hsz2 & Hr2).
  cbn [fclose gzip_sink]. rewrite He2. cbn [mbind option_bind chain_memory gzip_output].
  fold (client_of g2). do 2 eexists. split; [done|]. split; [done|]. split; [congruence|].
  intros [E1 E2]%andb_true_iff Hl. apply Z.eqb_eq in E1, E2. subst r2.
  destruct Hor1 as [(_ & Hni & Hz1 & Hlink)|Hx]; [|subst r1; discriminate E1].
  destruct (Hr2 eq_refl kernel_header (Hlink _ Hout)) as (s & Hd & Hzs & Hrec).
  exists s. split; [done|]. split; [rewrite Hzs, Hni, app_nil_r, Hz1, Hzi by done; done|].
  rewrite Hrec. unfold gzip_trailer. rewrite Hcr1, Ht1, Hcr, Ht by done. done.
Qed.

End Encoding.

(** ** Round trip *)

(** The two halves of the library fit together: what was deflated inflates to
    the input, and the stream ends where it ends. *)
Class ZlibLaws (DS IS : Type) `{DeflateLaws DS, InflateLaws IS} := {
  inflate_deflate s t : z_done s -> inflate_all (snd inflateInit2) (z_out s ++ t) = (z_in s, Some t);
  deflate_bytes s : z_done s -> Forall is_byte (z_in s) -> Forall is_byte (z_out s)
}.

Section Roundtrip.
Context {DS IS : Type} `{ZlibLaws DS IS} (junk : Z -> Z).

(** One member, and nothing after it. *)
Lemma gunzip_member s t : z_done s -> Forall is_byte (z_in s) -> blen t = 8 -> Forall is_byte t ->
  gunzip (IS := IS) None (kernel_header ++ z_out s ++ t) = (z_in s, true).
Proof.
  intros Hd Hb Ht Hbt. pose proof (deflate_bytes s Hd Hb) as Hbo.
  assert (Forall is_byte (kernel_header ++ z_out s ++ t)) as Hall.
  { rewrite !Forall_app. split; [|done]. apply is_byte_check. by vm_compute. }
  rewrite gunzip_none by done. rewrite kernel_header_len. change (10 =? 0) with false. cbn iota.
  rewrite drop_app_length' by done. rewrite gunzip_some by (by rewrite Forall_app).
  rewrite inflate_deflate by done. rewrite Ht. change (8 <? 8) with false. cbn iota.
  rewrite drop_ge by (unfold blen in Ht; lia). rewrite gunzip_none by constructor.
  change (header_len [] =? 0) with true. cbn iota. by rewrite app_nil_r.
Qed.

Lemma gzip_output_laws : OutputChainLaws (gzip_writer DS (archive_none write_memory_data)) (chain := gzip_output junk).
Proof.
  split. intros n d Hn _. destruct (gzip_encoded junk n d Hn) as (b & m & He & Hm & Hs & _). by eauto.
Qed.

(** What was written without an error is read as the member, further unpacked. *)
Lemma gzip_encoded_decodes n d m s : 0 <= n < 2 ^ 61 -> Forall is_byte d -> blen d < 2 ^ 32 ->
  encoded (chain := gzip_output (DS := DS) junk) (zeros n) d = Some (true, m) ->
  peels (IS := IS) 24 d s -> decodes (gzip_input (IS := IS) junk) (received m) s.
Proof.
  intros Hn Hb Hl He Hp. destruct (gzip_encoded junk n d ltac:(lia)) as (b & m' & He' & Hm & Hs & Hrec).
  rewrite He in He'. injection He' as <- <-. destruct (Hrec eq_refl Hl) as (st & Hd & Hzi & Hr).
  assert (blen (received m) <= n) as Hlen.
  { rewrite received_blen by done. destruct Hm. lia. }
  subst d. rewrite Hr in *. apply gzip_decodes; [done| |lia|].
  - rewrite !Forall_app. split; [apply is_byte_check; by vm_compute|].
    split; [by apply deflate_bytes|]. auto with words.
  - apply (peels_member _ _ (z_in st)); [by rewrite kernel_header_len| |lia|done].
    apply gunzip_member; [done|done| |rewrite Forall_app; auto with words].
    rewrite blen_app. unfold blen. by rewrite !length_le_bytes.
Qed.

Lemma gzip_inverse d : Forall is_byte d -> blen d < 2 ^ 32 -> header_len d = 0 ->
  inverse_chains (gzip_input (IS := IS) junk) (gzip_writer DS (archive_none write_memory_data))
    (chain := gzip_output junk) d.
Proof.
  intros Hb Hl Hh n m Hn He.
  assert (zeros n = zeros (Z.max 0 n)) as Hz by (unfold zeros; f_equal; lia). rewrite Hz in He.
  apply (gzip_encoded_decodes (Z.max 0 n) d m d); [lia|exact Hb|exact Hl|exact He|]. by apply peels_plain.
Qed.

End Roundtrip.

(** ** A library that satisfies the laws *)

(** Each byte is stored behind a 1, and the end is a 0. *)
Record toy_deflate := ToyDeflate { d_in : bytes; d_out : bytes; d_pending : bytes; d_done : bool }.

Fixpoint toy_encode (x : bytes) : bytes := match x with [] => [] | b :: x => 1 :: b :: toy_encode x end.

Definition toy_deflate_call (s : toy_deflate) (inp : bytes) (room : Z) (fin : bool)
  : Z * Z * bytes * toy_deflate :=
  let all := d_pending s ++ toy_encode inp in
  if fin && (blen all <? room) then
    (Z_STREAM_END, blen inp, all ++ [0], ToyDeflate (d_in s ++ inp) (d_out s ++ all ++ [0]) [] true)
  else
    let o := take (Z.to_nat room) all in
    (Z_OK, blen inp, o, ToyDeflate (d_in s ++ inp) (d_out s ++ o) (drop (Z.to_nat room) all) false).

#[local] Instance toy_deflate_ops : Deflate toy_deflate := {
  deflateInit2 _ := (Z_OK, ToyDeflate [] [] [] false);
  deflate := toy_deflate_call;
  deflateEnd s := if d_done s then Z_OK else -3;
  deflate_left s inp := if d_done s then O else (length (d_pending s) + 2 * length inp + 1)%nat;
  crc32 c d := foldl (fun c b => (c + b) mod 2 ^ 32) c d
}.

Fixpoint toy_all (half : bool) (x : bytes) : bytes * option bytes :=
  match x with
  | [] => ([], None)
  | c :: x =>
      if half then let '(y, e) := toy_all false x in (c :: y, e)
      else if c =? 0 then ([], Some x)
      else if c =? 1 then toy_all true x
      else ([], None)
  end.

Fixpoint toy_run (half : bool) (x : bytes) (room : Z) : Z * Z * bytes * bool :=
  match x with
  | [] => (Z_OK, 0, [], half)
  | c :: x =>
      if half then
        if room =? 0 then (Z_OK, 0, [], half)
        else let '(r, n, o, h) := toy_run false x (room - 1) in (r, n + 1, c :: o, h)
      else if c =? 0 then (Z_STREAM_END, 1, [], false)
      else if c =? 1 then let '(r, n, o, h) := toy_run true x room in (r, n + 1, o, h)
      else (-3, 0, [], false)
  end.

#[local] Instance toy_inflate_ops : Inflate bool := {
  inflateInit2 := (Z_OK, false);
  inflate := toy_run;
  inflateEnd _ := Z_OK;
  inflate_all := toy_all
}.

Definition toy_ok (s : toy_deflate) : Prop :=
  d_out s ++ d_pending s = toy_encode (d_in s) ++ (if d_done s then [0] else []) /\
  (d_done s = true -> d_pending s = []).

Lemma toy_encode_app x y : toy_encode (x ++ y) = toy_encode x ++ toy_encode y.
Proof. induction x as [|b x IH]; cbn; congruence. Qed.

Lemma length_toy_encode x : length (toy_encode x) = (2 * length x)%nat.
Proof. induction x as [|b x IH]; cbn; lia. Qed.

#[local] Instance toy_deflate_laws : DeflateLaws toy_deflate.
Proof.
  refine {| z_ok := toy_ok; z_in := d_in; z_out := d_out; z_done s := toy_ok s /\ d_done s = true |}.
  - intros l _. cbn. split_and!; try done. by intros [_ ?].
  - intros s inp room fin [Hs Hp] Hnd Hr Hf. cbn [deflate toy_deflate_ops]. unfold toy_deflate_call.
    assert (d_done s = false) as Hd.
    { destruct (d_done s) eqn:E; [|done]. exfalso. apply Hnd. split; [|reflexivity]. split; [by rewrite E|intros _; by apply Hp]. }
    rewrite Hd in Hs. rewrite app_nil_r in Hs.
    set (all := d_pending s ++ toy_encode inp).
    assert (d_out s ++ all = toy_encode (d_in s ++ inp)) as Hall.
    { unfold all. by rewrite app_assoc, Hs, toy_encode_app. }
    assert (length all = length (d_pending s) + 2 * length inp)%nat as Hl.
    { unfold all. by rewrite length_app, length_toy_encode. }
    assert (take (Z.to_nat (blen inp)) inp = inp) as Hti by (apply take_ge; unfold blen; lia).
    assert (drop (Z.to_nat (blen inp)) inp = []) as Hdi by (apply drop_ge; unfold blen; lia).
    pose proof (blen_nonneg inp).
    destruct (fin && (blen all <? room)) eqn:E.
    + apply andb_true_iff in E as [-> E]. cbn [d_in d_out d_done d_pending deflate_left toy_deflate_ops]. rewrite Hti, ?Hdi, Hd.
      assert (toy_ok (ToyDeflate (d_in s ++ inp) (d_out s ++ all ++ [0]) [] true)) as Hok.
      { split; [|done]. cbn. by rewrite app_nil_r, app_assoc, Hall. }
      split_and!; try done; try lia.
      * rewrite blen_app. change (blen [0]) with 1. lia.
      * rewrite length_app. cbn. lia.
      * by right.
    + cbn [d_in d_out d_done d_pending deflate_left toy_deflate_ops]. rewrite Hti, ?Hdi, Hd.
      assert (toy_ok (ToyDeflate (d_in s ++ inp) (d_out s ++ take (Z.to_nat room) all) (drop (Z.to_nat room) all) false)) as Hok.
      { split; [|done]. cbn. by rewrite <- app_assoc, take_drop, Hall, app_nil_r. }
      assert (blen (take (Z.to_nat room) all) = Z.min room (blen all)) as Hlt
        by (unfold blen; rewrite length_take; lia).
      split_and!; try done; try lia.
      * cbn [d_pending length]. rewrite length_drop, length_take. lia.
      * left. split; [done|]. split; [by intros [_ ?]|]. destruct fin; [right|by left].
        cbn [andb] in E. lia.
  - intros s [_ Hd]. cbn. by rewrite Hd.
Defined.

Lemma toy_run_ok half inp z room : 0 <= room ->
  let '(r, n, o, h) := toy_run half inp room in
  let '(y, e) := toy_all half (inp ++ z) in
  0 <= n <= blen inp /\ blen o <= room /\
  (r = Z_OK /\ (exists y', y = o ++ y' /\ toy_all h (drop (Z.to_nat n) inp ++ z) = (y', e)) \/
   r = Z_STREAM_END /\ y = o /\ e = Some (drop (Z.to_nat n) inp ++ z) \/
   r <> Z_OK /\ r <> Z_STREAM_END /\ e = None).
Proof.
  revert half room. induction inp as [|c inp IH]; intros half room Hr; cbn [toy_run].
  { cbn [app]. destruct (toy_all half z) as [y e] eqn:E. change (blen []) with 0.
    split; [lia|]. split; [lia|]. left. split; [done|]. by exists y. }
  cbn [app toy_all]. pose proof (blen_nonneg inp). rewrite blen_cons. destruct half.
  - destruct (Z.eqb_spec room 0) as [->|Hr0].
    + destruct (toy_all false (inp ++ z)) as [y e] eqn:E. change (blen []) with 0. split; [lia|]. split; [lia|].
      left. split; [done|]. exists (c :: y). split; [done|]. change (Z.to_nat 0) with O. cbn. by rewrite E.
    + specialize (IH false (room - 1) ltac:(lia)). destruct (toy_run false inp (room - 1)) as [[[r n] o] h].
      destruct (toy_all false (inp ++ z)) as [y e]. destruct IH as (Hn & Ho & Hor). rewrite blen_cons.
      split; [lia|]. split; [lia|]. replace (Z.to_nat (n + 1)) with (S (Z.to_nat n)) by lia. cbn [drop].
      destruct Hor as [(-> & y' & -> & Hy)|[(-> & -> & ->)|Hor]]; [left|right; left|by right; right].
      * split; [done|]. by exists y'.
      * done.
  - destruct (Z.eqb_spec c 0) as [->|Hc0].
    + change (blen []) with 0. split; [lia|]. split; [lia|]. right. left. by split_and!.
    + destruct (Z.eqb_spec c 1) as [->|Hc1].
      * specialize (IH true room Hr). destruct (toy_run true inp room) as [[[r n] o] h].
        destruct (toy_all true (inp ++ z)) as [y e]. destruct IH as (Hn & Ho & Hor).
        split; [lia|]. split; [lia|]. replace (Z.to_nat (n + 1)) with (S (Z.to_nat n)) by lia. cbn [drop].
        destruct Hor as [(-> & y' & -> & Hy)|[(-> & -> & ->)|Hor]]; [left|right; left|by right; right].
        -- split; [done|]. by exists y'.
        -- done.
      * change (blen []) with 0. split; [lia|]. split; [lia|]. right. right. by split_and!.
Qed.

(** Something is taken or made. *)
Lemma toy_run_progress half inp room : inp <> [] -> 0 < room ->
  let '(r, n, o, h) := toy_run half inp room in r = Z_OK -> 0 < n.
Proof.
  intros Hi Hr. destruct inp as [|c inp]; [done|]. cbn [toy_run]. destruct half.
  - replace (room =? 0) with false by lia. pose proof (toy_run_ok false inp [] (room - 1) ltac:(lia)) as Ho.
    destruct (toy_run false inp (room - 1)) as [[[r n] o] h]. destruct (toy_all false (inp ++ [])). lia.
  - destruct (c =? 0); [lia|]. destruct (c =? 1); [|done].
    pose proof (toy_run_ok true inp [] room ltac:(lia)) as Ho.
    destruct (toy_run true inp room) as [[[r n] o] h]. destruct (toy_all true (inp ++ [])). lia.
Qed.

#[local] Instance toy_inflate_laws : InflateLaws bool.
Proof.
  refine {| i_ok _ := True |}.
  - done.
  - done.
  - intros s inp z room _ Hi Hr. cbn [inflate inflate_all toy_inflate_ops].
    pose proof (toy_run_ok s inp z room ltac:(lia)) as Ho. pose proof (toy_run_progress s inp room Hi Hr) as Hp.
    destruct (toy_run s inp room) as [[[r n] o] h]. destruct (toy_all s (inp ++ z)) as [y e].
    destruct Ho as (Hn & Hb & Hor). split_and!; try done; try lia.
    destruct Hor as [(-> & Hy)|Hor]; [left|by right]. split; [done|]. split; [left; by apply Hp|done].
  - intros s x. cbn. revert s. induction x as [|c x IH]; intros s Hb; [constructor|]. cbn [toy_all].
    apply Forall_cons in Hb as [Hc Hb]. destruct s.
    + specialize (IH false Hb). destruct (toy_all false x). by constructor.
    + destruct (c =? 0); [constructor|]. destruct (c =? 1); [by apply IH|constructor].
  - intros s x y t. cbn. revert s y. induction x as [|c x IH]; intros s y; [done|]. cbn [toy_all]. destruct s.
    + destruct (toy_all false x) as [y' e] eqn:E. intros [= <- ->]. destruct (IH _ _ E) as [h ->]. by exists (c :: h).
    + destruct (c =? 0); [intros [= <- <-]; by exists [c]|]. destruct (c =? 1); [|done].
      intros E. destruct (IH _ _ E) as [h ->]. by exists (c :: h).
Defined.

#[local] Instance toy_laws : ZlibLaws toy_deflate bool.
Proof.
  assert (forall x t, toy_all false (toy_encode x ++ 0 :: t) = (x, Some t)) as Ha.
  { intros x t. induction x as [|b x IH]; [done|]. cbn. by rewrite IH. }
  split.
  - intros s t [[Hs Hp] Hd]. cbn in *. rewrite Hp, Hd, app_nil_r in Hs by done. rewrite Hs, <- app_assoc. apply Ha.
  - intros s [[Hs Hp] Hd] Hb. cbn in *. rewrite Hp, Hd, app_nil_r in Hs by done. rewrite Hs, Forall_app.
    split; [|by repeat constructor]. clear Hs. induction Hb; cbn; [constructor|].
    constructor; [by split|]. by constructor.
Qed.

(** ** Theorems *)

(** C9. Unpacking a kernel image from a gzip file.  Whatever pieces the file and
    the library's output arrive in, and however many members there are, the
    program finds the filters that the contents ask for, one for every gzip file
    inside a gzip file, ignores what follows the last member, and puts the
    innermost contents over those of the destination, as far as the medium has
    room for them.  Nothing is compared with the checksums of the members. *)
Theorem gzip_decompress {IS} `{InflateLaws IS} (junk : Z -> Z) (lzma_input : input_chain)
    (w : world) (k s : bytes) (file : path) :
  Forall is_byte k -> blen k < 2 ^ 61 -> peels (IS := IS) MAX_NUMBER_FILTERS k s -> k <> [] -> s <> [] ->
  blen file < PATH_MAX -> w_permit w file C_FLAGS = true -> w_fs w !! file <> Some Directory ->
  w_fds w !! 0 <> None -> 0 <= w_limit w ->
  bxxt_boot_decompress_to_file junk (gzip_input (IS := IS) junk) lzma_input k Boot.KERNEL_COMPRESSION_GZIP file w =
    Some (if blen s <=? w_limit w then ARCHIVE_OK else ARCHIVE_FATAL,
      World (<[file := Regular (overwrite (old_contents w file) 0 (room w 0 s))]> (w_fs w)) (w_fds w)
        (w_permit w) (w_limit w)).
Proof.
  intros Hb Hl Hp Hk Hs Hn Hw Hd Hz Hm. apply decompress_runs; [exact Hn|exact Hw|exact Hd|exact Hz|exact Hm|exact Hs|].
  unfold kernel_decodes. rewrite Z.eqb_refl. by apply gzip_decodes.
Qed.

(** C8. Compressing a kernel with gzip, and what becomes of the result.  In a
    buffer of any size the program never writes outside the buffer and leaves
    there at most as many bytes as it has.  When nothing is reported, which is
    never so in less than 18 bytes, the bytes are one gzip member: the ten bytes
    of the header, a stream that inflates to the kernel wherever it stands, and
    the checksum and length of the kernel.  Decompressing them gives back the
    kernel, or, when the kernel looks like a gzip file, its contents. *)
Theorem gzip_roundtrip {DS IS} `{ZlibLaws DS IS} (junk : Z -> Z) (n : Z) (d : bytes) :
  0 <= n < 2 ^ 61 -> Forall is_byte d -> d <> [] -> blen d < 2 ^ 31 ->
  exists b m,
  encoded (chain := gzip_output (DS := DS) junk) (zeros n) d = Some (b, m) /\
  compress_into (chain := gzip_output (DS := DS) junk) d (blen d) (zeros n) = Some m /\
  blen (buff m) = n /\ 0 <= used m <= n /\ (n < 18 -> b = false) /\
  (b = true ->
    (exists z, received m = kernel_header ++ z ++ le_bytes 4 (crc32 (crc32 0 []) d) ++ le_bytes 4 (blen d) /\
       forall t, inflate_all (IS := IS) (snd inflateInit2) (z ++ t) = (d, Some t)) /\
    forall s lzma_input w file, peels (IS := IS) 24 d s -> s <> [] ->
      blen file < PATH_MAX -> w_permit w file C_FLAGS = true -> w_fs w !! file <> Some Directory ->
      w_fds w !! 0 <> None -> blen s <= w_limit w ->
      bxxt_boot_decompress_to_file junk (gzip_input (IS := IS) junk) lzma_input (received m)
        Boot.KERNEL_COMPRESSION_GZIP file w =
      Some (ARCHIVE_OK,
        World (<[file := Regular (overwrite (old_contents w file) 0 s)]> (w_fs w)) (w_fds w)
          (w_permit w) (w_limit w))).
Proof.
  intros Hn Hb Hd Hl. destruct (gzip_encoded (DS := DS) junk n d ltac:(lia)) as (b & m & He & Hm & Hs & Hrec).
  exists b, m. split; [exact He|]. split.
  { pose proof (compress_into_ok d [] _ _ _ Hd Hl He) as Hc. by rewrite app_nil_r in Hc. }
  pose proof (received_blen m Hm) as Hrl. pose proof Hm as [Hu Hbl]. split; [congruence|]. split; [lia|].
  assert (b = true -> exists s, z_done s /\ z_in s = d /\
     received m = kernel_header ++ z_out s ++ le_bytes 4 (crc32 (crc32 0 []) d) ++ le_bytes 4 (blen d)) as Hz
    by (intros E; apply Hrec; [done|lia]).
  split.
  - intros Hn18. destruct b; [|reflexivity]. destruct (Hz eq_refl) as (s & _ & _ & Hr).
    rewrite Hr, !blen_app in Hrl. pose proof (blen_nonneg (z_out s)).
    change (blen kernel_header) with 10 in Hrl. unfold blen at 2 3 in Hrl. rewrite !length_le_bytes in Hrl. lia.
  - intros Eb. split.
    + destruct (Hz Eb) as (s & Hdn & Hi & Hr). exists (z_out s). split; [exact Hr|].
      intros t. rewrite inflate_deflate by exact Hdn. by rewrite Hi.
    + subst b. intros s lzma_input w file Hp Hs0 Hf1 Hf2 Hf3 Hf4 Hf5. pose proof (blen_nonneg s).
      rewrite (decompress_runs junk (gzip_input (IS := IS) junk) lzma_input w (received m) Boot.KERNEL_COMPRESSION_GZIP file s); [|exact Hf1|exact Hf2|exact Hf3|exact Hf4|lia|exact Hs0|].
      * rewrite room_all by lia. by replace (blen s <=? w_limit w) with true by lia.
      * unfold kernel_decodes. rewrite Z.eqb_refl.
        apply (gzip_encoded_decodes (DS := DS) junk n d); [exact Hn|exact Hb|lia|exact He|exact Hp].
Qed.

(** A gzip file of two members, with something behind it. *)
Definition toy_member (d : bytes) : bytes :=
  kernel_header ++ toy_encode d ++ [0] ++ le_bytes 4 (crc32 (crc32 0 []) d) ++ le_bytes 4 (blen d).
Definition two_members : bytes := toy_member (str "KER") ++ toy_member (str "NEL") ++ str "padding".

Lemma gzip_decompress_witness :
  bxxt_boot_decompress_to_file (fun _ => 7) (gzip_input (IS := bool) (fun _ => 7)) (none_input (fun _ => 7))
    two_members Boot.KERNEL_COMPRESSION_GZIP (str "out") sample_disk =
  Some (ARCHIVE_OK, World (<[str "out" := Regular (str "KERNELer kernel")]> (w_fs sample_disk))
      (w_fds sample_disk) (w_permit sample_disk) (w_limit sample_disk)).
Proof.
  rewrite (gzip_decompress (IS := bool) (fun _ => 7) (none_input (fun _ => 7)) sample_disk two_members (str "KERNEL")).
  - vm_compute. reflexivity.
  - apply is_byte_check. vm_compute. reflexivity.
  - vm_compute. reflexivity.
  - apply (peels_member _ _ (str "KERNEL")); [vm_compute; discriminate|vm_compute; reflexivity|vm_compute; reflexivity|].
    apply peels_plain. vm_compute. reflexivity.
  - vm_compute. discriminate.
  - vm_compute. discriminate.
  - vm_compute. reflexivity.
  - reflexivity.
  - vm_compute. discriminate.
  - vm_compute. discriminate.
  - vm_compute. discriminate.
Defined.

(** The sample fits in 100 bytes. *)
Lemma realloc_const c n : Util.realloc (fun _ => c) [] n = replicate (Z.to_nat n) c.
Proof.
  unfold Util.realloc. rewrite take_nil. cbn [app length]. rewrite Nat.sub_0_r. generalize 0%nat as k.
  induction (Z.to_nat n) as [|m IH]; intros k; cbn; [done|]. by rewrite IH.
Qed.

Lemma sample_written :
  option_map fst (encoded (chain := gzip_output (DS := toy_deflate) (fun _ => 7)) (zeros 100) (str "KERNEL")) = Some true.
Proof.
  unfold encoded. cbn [chain_open gzip_output]. unfold archive_compressor_gzip_open. rewrite realloc_const.
  vm_compute. reflexivity.
Qed.

Lemma gzip_roundtrip_witness :
  exists k,
  compress_into (chain := gzip_output (DS := toy_deflate) (fun _ => 7)) (str "KERNEL") 6 (zeros 100) = Some k /\
  bxxt_boot_decompress_to_file (fun _ => 7) (gzip_input (IS := bool) (fun _ => 7)) (none_input (fun _ => 7))
    (received k) Boot.KERNEL_COMPRESSION_GZIP (str "out") sample_disk =
  Some (ARCHIVE_OK, World (<[str "out" := Regular (str "KERNELer kernel")]> (w_fs sample_disk))
      (w_fds sample_disk) (w_permit sample_disk) (w_limit sample_disk)).
Proof.
  destruct (gzip_roundtrip (DS := toy_deflate) (IS := bool) (fun _ => 7) 100 (str "KERNEL")) as (b & m & He & Hc & _ & _ & _ & Hd).
  - lia.
  - apply is_byte_check. vm_compute. reflexivity.
  - vm_compute. discriminate.
  - vm_compute. reflexivity.
  - exists m. split; [exact Hc|].
    pose proof sample_written as E. rewrite He in E. assert (b = true) as Hb by (cbn [option_map fst] in E; by injection E).
    rewrite (proj2 (Hd Hb) (str "KERNEL")).
    + vm_compute. reflexivity.
    + apply peels_plain. vm_compute. reflexivity.
    + vm_compute. discriminate.
    + vm_compute. reflexivity.
    + reflexivity.
    + vm_compute. discriminate.
    + vm_compute. discriminate.
    + vm_compute. discriminate.
Defined.
