(* ===== verification/Newc.v ===== *)
(** Writing SVR4 cpio archives (archive_write_set_format_cpio_newc.c): the
    110-byte hexadecimal header of an entry, its name and body padded to four
    bytes, and the trailer.

    The format is an implementation of the interface [Format] over any output
    chain ([Sink]).  Names are not converted between character sets: the
    program sets no locale and no option. *)
From S2P Require Import Prelude Readahead Archiveentry Archivewrite.

(** Difference between [n] and the next multiple of 4. *)
Definition PAD4 (n : Z) : Z := Z.land 3 (1 + Z.lnot n).

Record newc := Newc_ { entry_bytes_remaining : Z; padding : Z }.
Definition newc_new : newc := Newc_ 0 0.

Definition hex_chars : bytes := str "0123456789abcdef".

(** The digits are produced from the last to the first; the value left over is
    returned. *)
Fixpoint format_hex_recursive (v : Z) (s : nat) : Z * bytes :=
  match s with
  | O => (v, [])
  | S s =>
      let '(v, p) := format_hex_recursive v s in
      (Z.shiftr v 4, nth (Z.to_nat (Z.land v 0xF)) hex_chars 0 :: p)
  end.

(** A value that does not fit is replaced by the largest one. *)
Definition format_hex (v : Z) (digits : nat) : Z * bytes :=
  let max := Z.shiftl 1 (4 * Z.of_nat digits) - 1 in
  if (0 <=? v) && (v <=? max) then (0, (format_hex_recursive v digits).2)
  else (-1, (format_hex_recursive max digits).2).

Definition c_magic_offset := 0.
Definition c_magic_size := 6%nat.
Definition c_ino_offset := 6.
Definition c_ino_size := 8%nat.
Definition c_mode_offset := 14.
Definition c_mode_size := 8%nat.
Definition c_uid_offset := 22.
Definition c_uid_size := 8%nat.
Definition c_gid_offset := 30.
Definition c_gid_size := 8%nat.
Definition c_nlink_offset := 38.
Definition c_nlink_size := 8%nat.
Definition c_mtime_offset := 46.
Definition c_mtime_size := 8%nat.
Definition c_filesize_offset := 54.
Definition c_filesize_size := 8%nat.
Definition c_devmajor_offset := 62.
Definition c_devmajor_size := 8%nat.
Definition c_devminor_offset := 70.
Definition c_devminor_size := 8%nat.
Definition c_rdevmajor_offset := 78.
Definition c_rdevmajor_size := 8%nat.
Definition c_rdevminor_offset := 86.
Definition c_rdevminor_size := 8%nat.
Definition c_namesize_offset := 94.
Definition c_namesize_size := 8%nat.
Definition c_checksum_offset := 102.
Definition c_checksum_size := 8%nat.
Definition c_header_size := 110.

(** [format_hex(v, h + offset, size)], the result of the call and the header. *)
Definition put_hex (h : bytes) (offset : Z) (size : nat) (v : Z) : option (Z * bytes) :=
  let '(r, d) := format_hex v size in
  h ← mwrite h offset d; Some (r, h).

Definition is_device (e : archive_entry) : bool :=
  (archive_entry_filetype e =? AE_IFBLK) || (archive_entry_filetype e =? AE_IFCHR).

(** Every field of the header but the size of the body. *)
Definition fill_header (e : archive_entry) (pathlength : Z) : option bytes :=
  let h := zeros c_header_size in
  '(_, h) ← put_hex h c_magic_offset c_magic_size 0x070701;
  '(_, h) ← put_hex h c_devmajor_offset c_devmajor_size (archive_entry_devmajor e);
  '(_, h) ← put_hex h c_devminor_offset c_devminor_size (archive_entry_devminor e);
  '(_, h) ← put_hex h c_ino_offset c_ino_size (Z.land (archive_entry_ino64 e) 0xFFFFFFFF);
  '(_, h) ← put_hex h c_mode_offset c_mode_size (archive_entry_mode e);
  '(_, h) ← put_hex h c_uid_offset c_uid_size (archive_entry_uid e);
  '(_, h) ← put_hex h c_gid_offset c_gid_size (archive_entry_gid e);
  '(_, h) ← put_hex h c_nlink_offset c_nlink_size (archive_entry_nlink e);
  '(_, h) ← put_hex h c_rdevmajor_offset c_rdevmajor_size
              (if is_device e then archive_entry_rdevmajor e else 0);
  '(_, h) ← put_hex h c_rdevminor_offset c_rdevminor_size
              (if is_device e then archive_entry_rdevminor e else 0);
  '(_, h) ← put_hex h c_mtime_offset c_mtime_size (archive_entry_mtime e);
  '(_, h) ← put_hex h c_namesize_offset c_namesize_size pathlength;
  '(_, h) ← put_hex h c_checksum_offset c_checksum_size 0;
  Some h.

(** The target of a symbolic link, when there is one to write. *)
Definition link_target (e : archive_entry) : bytes :=
  match archive_entry_symlink e with Some p => p | None => [] end.

Section Writer.
Context {W : Type} `{Sink W}.

(** Output the pieces one after the other; the first failure ends it. *)
Fixpoint output_all (a : archive_write newc W) (ds : list bytes)
  : option (bool * archive_write newc W) :=
  match ds with
  | [] => Some (true, a)
  | d :: ds =>
      '(ret, a) ← archive_write_output a d;
      if ret =? ARCHIVE_OK then output_all a ds else Some (false, a)
  end.

(** The symlink and its padding: two outputs, the second of which may be empty. *)
Definition write_symlink (a : archive_write newc W) (p : bytes)
  : option (bool * archive_write newc W) :=
  match p with
  | [] => Some (true, a)
  | _ => output_all a [p; zeros (PAD4 (blen p))]
  end.

Definition write_header (a : archive_write newc W) (e : archive_entry)
  : option (Z * archive_write newc W * archive_entry) :=
  let path := archive_entry_pathname e in
  let len := match path with Some s => blen s | None => 0 end in
  let pathlength := s32 len + 1 in
  h ← fill_header e pathlength;
  let ret_final := if 0xFFFFFFFF <? archive_entry_ino64 e then ARCHIVE_WARN else ARCHIVE_OK in
  (* Non-regular files don't store bodies. *)
  let e := if archive_entry_filetype e =? AE_IFREG then e else archive_entry_set_size e 0 in
  let p := link_target e in
  '(ret, h) ← put_hex h c_filesize_offset c_filesize_size
                (if 0 <? blen p then blen p else archive_entry_size e);
  if negb (ret =? 0) then Some (ARCHIVE_FAILED, a, e)
  else
    name ← path;
    name ← mread (name ++ [0]) 0 pathlength;
    let pad := PAD4 (pathlength + c_header_size) in
    '(ok, a) ← output_all a ([h; name] ++ (if pad =? 0 then [] else [zeros pad]));
    if negb ok then Some (ARCHIVE_FATAL, a, e)
    else
      let a := set_format_data a (Newc_ (archive_entry_size e) (PAD4 (archive_entry_size e))) in
      '(ok, a) ← write_symlink a p;
      Some (if ok : bool then ret_final else ARCHIVE_FATAL, a, e).

Definition archive_write_newc_header (a : archive_write newc W) (e : archive_entry)
  : option (Z * archive_write newc W * archive_entry) :=
  let no_hardlink := bool_decide (archive_entry_hardlink e = None) in
  if (archive_entry_filetype e =? 0) && no_hardlink then Some (ARCHIVE_FAILED, a, e)
  else
    match archive_entry_pathname e with
    | None | Some [] => Some (ARCHIVE_FAILED, a, e)
    | Some _ =>
        if no_hardlink && (negb (archive_entry_size_is_set e) || (archive_entry_size e <? 0))
        then Some (ARCHIVE_FAILED, a, e)
        else write_header a e
    end.

Definition archive_write_newc_data (a : archive_write newc W) (buff : bytes)
  : option (Z * archive_write newc W) :=
  let c := format_data a in
  let s := if entry_bytes_remaining c <? blen buff then entry_bytes_remaining c else blen buff in
  '(ret, a) ← archive_write_output a (take (Z.to_nat s) buff);
  let a := set_format_data a (Newc_ (entry_bytes_remaining c - s) (padding c)) in
  Some (if 0 <=? ret then s else ret, a).

Definition archive_write_newc_finish_entry (a : archive_write newc W)
  : option (Z * archive_write newc W) :=
  let c := format_data a in
  archive_write_nulls a (entry_bytes_remaining c + padding c).

Definition trailer_name : bytes := str "TRAILER!!!".

Definition archive_write_newc_close (a : archive_write newc W) : option (Z * archive_write newc W) :=
  let trailer := archive_entry_new in
  let trailer := archive_entry_set_nlink trailer 1 in
  let trailer := archive_entry_set_size trailer 0 in
  let trailer := archive_entry_set_pathname trailer (Some trailer_name) in
  '(er, a, _) ← write_header a trailer;
  Some (er, a).

#[export] Instance newc_format : Format newc W := {
  format_write_header := archive_write_newc_header;
  format_write_data := archive_write_newc_data;
  format_finish_entry := archive_write_newc_finish_entry;
  format_close := archive_write_newc_close
}.

End Writer.

Example format_hex_ex : (format_hex 0x1a2b 8).2 = str "00001a2b".
Proof. vm_compute. reflexivity. Qed.

(** ** The archive as a sequence of bytes *)

(** [n] hexadecimal digits of [v]. *)
Definition hex (n : nat) (v : Z) : bytes := (format_hex_recursive v n).2.

(** What is stored as the body of an entry: the target of a link, or the data
    of a regular file. *)
Definition content (e : archive_entry) (body : bytes) : bytes :=
  match link_target e with [] => body | p => p end.

Definition header_fields (e : archive_entry) (size : Z) (namesize : Z) : list bytes :=
  [hex 6 0x070701; hex 8 (archive_entry_ino64 e); hex 8 (archive_entry_mode e);
   hex 8 (archive_entry_uid e); hex 8 (archive_entry_gid e); hex 8 (archive_entry_nlink e);
   hex 8 (archive_entry_mtime e); hex 8 size;
   hex 8 (archive_entry_devmajor e); hex 8 (archive_entry_devminor e);
   hex 8 (if is_device e then archive_entry_rdevmajor e else 0);
   hex 8 (if is_device e then archive_entry_rdevminor e else 0);
   hex 8 namesize; hex 8 0].

Definition padded (d : bytes) : bytes := d ++ zeros (PAD4 (blen d)).

(** The name is padded so that header and name together fill words. *)
Definition entry_bytes (e : archive_entry) (path body : bytes) : bytes :=
  concat (header_fields e (blen (content e body)) (blen path + 1)) ++
  path ++ [0] ++ zeros (PAD4 (blen path + 1 + c_header_size)) ++ padded (content e body).

Definition trailer : archive_entry :=
  archive_entry_set_pathname
    (archive_entry_set_size (archive_entry_set_nlink archive_entry_new 1) 0) (Some trailer_name).

(** A 32-bit field of the header. *)
Definition fits (v : Z) : Prop := 0 <= v < 2 ^ 32.

(** Entries the format can represent: a name, values of 32 bits, a body as
    long as the size says, a target exactly for symbolic links, and no
    further hard link. *)
Record storable (e : archive_entry) (path body : bytes) : Prop := {
  st_path : archive_entry_pathname e = Some path;
  st_name : path <> [] /\ ~ In 0 path /\ blen path < 2 ^ 31 - 1;
  st_type : archive_entry_filetype e <> 0;
  st_size : archive_entry_size_is_set e = true /\ archive_entry_hardlink e = None;
  st_body : if archive_entry_filetype e =? AE_IFREG
            then archive_entry_size e = blen body else body = [] /\ 0 <= archive_entry_size e;
  st_link : if archive_entry_filetype e =? AE_IFLNK
            then exists p, archive_entry_symlink e = Some p /\ p <> [] /\ ~ In 0 p /\
                           blen p <= 1024 * 1024
            else archive_entry_symlink e = None;
  st_fits : fits (archive_entry_ino64 e) /\ fits (archive_entry_mode e) /\
            fits (archive_entry_uid e) /\ fits (archive_entry_gid e) /\
            0 <= archive_entry_nlink e <= 1 /\ fits (archive_entry_mtime e) /\
            fits (blen body);
  st_dev : fits (archive_entry_devmajor e) /\ fits (archive_entry_devminor e) /\
           fits (archive_entry_rdevmajor e) /\ fits (archive_entry_rdevminor e)
}.

(** An item to store: the entry, its name, and its body in pieces. *)
Definition item : Type := archive_entry * bytes * list bytes.

Definition archive_bytes (items : list item) : bytes :=
  concat (map (fun '(e, path, ds) => entry_bytes e path (concat ds)) items) ++
  entry_bytes trailer trailer_name [].

(** ** Hexadecimal numbers *)

Lemma length_hex_rec n v : length (format_hex_recursive v n).2 = n.
Proof.
  induction n as [|n IH]; [done|]. cbn. destruct (format_hex_recursive v n) as [x d].
  cbn in *. by rewrite IH.
Qed.

Lemma length_hex n v : length (hex n v) = n.
Proof. apply length_hex_rec. Qed.

Lemma hex_rest n v : 0 <= v -> (format_hex_recursive v n).1 = v / 16 ^ Z.of_nat n.
Proof.
  intros Hv. induction n as [|n IH]; [by rewrite Z.div_1_r|]. cbn.
  destruct (format_hex_recursive v n) as [x d]. cbn in *. subst x.
  rewrite Z.shiftr_div_pow2 by lia. change (2 ^ 4) with 16.
  rewrite Z.div_div by (try apply Z.pow_pos_nonneg; lia).
  by rewrite Nat2Z.inj_succ, Z.pow_succ_r, Z.mul_comm by lia.
Qed.

(** Digits from the most significant one. *)
Lemma hex_S n v : 0 <= v ->
  hex (S n) v = nth (Z.to_nat ((v / 16 ^ Z.of_nat n) mod 16)) hex_chars 0 :: hex n v.
Proof.
  intros Hv. pose proof (hex_rest n v Hv) as Hr. unfold hex. cbn.
  destruct (format_hex_recursive v n) as [x d]. cbn in *. subst x.
  by rewrite (Z.land_ones _ 4).
Qed.

Lemma format_hex_ok v n : 0 <= v < 16 ^ Z.of_nat n -> format_hex v n = (0, hex n v).
Proof.
  intros Hv. unfold format_hex, hex.
  assert (Z.shiftl 1 (4 * Z.of_nat n) = 16 ^ Z.of_nat n) as ->.
  { rewrite Z.shiftl_1_l, Z.pow_mul_r by lia. done. }
  by replace ((0 <=? v) && (v <=? 16 ^ Z.of_nat n - 1)) with true by lia.
Qed.

(** ** The header *)

Lemma mwrite_header_field (fs : list bytes) i (e d : bytes) off :
  fs !! i = Some e -> blen e = blen d -> off = blen (concat (take i fs)) ->
  mwrite (concat fs) off d = Some (concat (<[i := d]> fs)).
Proof.
  intros Hi Hl ->.
  assert (concat fs = concat (take i fs) ++ e ++ concat (drop (S i) fs)) as E.
  { rewrite <- (take_drop_middle fs i e Hi) at 1. by rewrite List.concat_app. }
  rewrite E, (insert_take_drop fs i d) by (by apply lookup_lt_Some in Hi).
  rewrite List.concat_app. cbn [concat]. by apply mwrite_app.
Qed.

Lemma put_field (fs : list bytes) i off n v :
  (exists e, fs !! i = Some e /\ length e = n) -> off = blen (concat (take i fs)) ->
  0 <= v < 16 ^ Z.of_nat n ->
  put_hex (concat fs) off n v = Some (0, concat (<[i := hex n v]> fs)).
Proof.
  intros (e & Hi & Hl) Ho Hv. unfold put_hex. rewrite format_hex_ok by done.
  rewrite (mwrite_header_field fs i e (hex n v)); [done|done| |done].
  unfold blen. by rewrite Hl, length_hex.
Qed.

Ltac field_length :=
  cbn [take concat app]; unfold blen; rewrite ?length_app, ?length_hex;
  reflexivity.

Definition empty_fields : list bytes := zeros 6 :: replicate 13 (zeros 8).

Lemma empty_header : zeros c_header_size = concat empty_fields.
Proof. reflexivity. Qed.

Lemma land_fits v : fits v -> Z.land v 0xFFFFFFFF = v.
Proof.
  intros Hv. change 0xFFFFFFFF with (Z.ones 32). rewrite Z.land_ones by lia. by apply Z.mod_small.
Qed.

(** Every number of the header fits its field. *)
Definition fields_fit (e : archive_entry) : Prop :=
  fits (archive_entry_ino64 e) /\ fits (archive_entry_mode e) /\ fits (archive_entry_uid e) /\
  fits (archive_entry_gid e) /\ fits (archive_entry_nlink e) /\ fits (archive_entry_mtime e) /\
  fits (archive_entry_devmajor e) /\ fits (archive_entry_devminor e) /\
  fits (archive_entry_rdevmajor e) /\ fits (archive_entry_rdevminor e).

(** Replacing one field of a header whose fields have their sizes. *)
Ltac put i :=
  rewrite (put_field _ i); [cbn [mbind option_bind list_insert insert]
    |eexists; split; [reflexivity|first [apply length_hex|reflexivity]]|field_length|try done].

Lemma fill_header_ok e n : fields_fit e -> fits n ->
  fill_header e n = Some (concat (<[7%nat := zeros 8]> (header_fields e 0 n))).
Proof.
  intros (? & ? & ? & ? & ? & ? & ? & ? & ? & ?) ?. unfold fill_header. rewrite empty_header.
  rewrite land_fits by done. unfold empty_fields. cbn [replicate].
  put 0%nat. put 8%nat. put 9%nat. put 1%nat. put 2%nat. put 3%nat. put 4%nat. put 5%nat.
  put 10%nat; [|by destruct (is_device e)]. put 11%nat; [|by destruct (is_device e)].
  put 6%nat. put 12%nat. put 13%nat. reflexivity.
Qed.

Lemma fill_size_ok e m n : fits m ->
  put_hex (concat (<[7%nat := zeros 8]> (header_fields e 0 n))) c_filesize_offset c_filesize_size m
  = Some (0, concat (header_fields e m n)).
Proof.
  intros Hm. unfold header_fields. cbn [list_insert insert]. put 7%nat. reflexivity.
Qed.

Lemma blen_newc_header e m n : blen (concat (header_fields e m n)) = c_header_size.
Proof. unfold header_fields. symmetry. field_length. Qed.

Lemma PAD4_spec n : PAD4 n = (- n) mod 4.
Proof.
  unfold PAD4. replace (1 + Z.lnot n) with (- n) by (unfold Z.lnot; lia).
  rewrite Z.land_comm. by apply (Z.land_ones _ 2).
Qed.

Lemma PAD4_range n : 0 <= PAD4 n < 4.
Proof. rewrite PAD4_spec. by apply Z.mod_pos_bound. Qed.

(** ** Output *)

Section Writing.
Context {W : Type} `{SinkLaws W}.
Implicit Types a : archive_write newc W.

(** What has been written, and a chain that is open. *)
Definition emitted a : bytes := accepted (f_data (filter_first a)).
Definition ready a : Prop :=
  f_state (filter_first a) = ARCHIVE_WRITE_FILTER_STATE_OPEN /\ sink_ok (f_data (filter_first a)).

(** The outcome of a call that writes [d]: done, or failed for good; either
    way the chain stays open and the state is not touched. *)
Definition outcome a (d : bytes) (ok : bool) (a' : archive_write newc W) : Prop :=
  ready a' /\ state a' = state a /\ (ok = true -> emitted a' = emitted a ++ d).

(** Results of output calls. *)
Definition ok_or_fatal (r : Z) : Prop := r = ARCHIVE_OK \/ r = ARCHIVE_FATAL.
Definition is_ok (r : Z) : bool := r =? ARCHIVE_OK.

Lemma outcome_nil a b : ready a -> outcome a [] b a.
Proof. intros Hr. split_and!; [done|done|by rewrite app_nil_r]. Qed.

Lemma outcome_trans a d a1 d1 b a2 : outcome a d true a1 -> outcome a1 d1 b a2 -> outcome a (d ++ d1) b a2.
Proof.
  intros (H1 & H2 & H3) (H4 & H5 & H6). split_and!; [done|congruence|].
  intros Hb. by rewrite H6, H3, app_assoc.
Qed.

Lemma outcome_fail a d a1 d1 : outcome a d false a1 -> outcome a d1 false a1.
Proof. intros (H1 & H2 & _). by split_and!. Qed.

Lemma archive_write_output_ok a d : ready a ->
  exists r a', archive_write_output a d = Some (r, a') /\ ok_or_fatal r /\
  outcome a d (is_ok r) a' /\ format_data a' = format_data a.
Proof.
  intros [Hs Hok]. unfold archive_write_output, archive_write_filter_. rewrite Hs.
  rewrite bool_decide_eq_true_2 by done. cbn [negb]. destruct (Z.eqb_spec (blen d) 0) as [Hz|Hz].
  - cbn [mbind option_bind]. do 2 eexists. split; [done|]. split; [by left|].
    destruct d; [|unfold blen in Hz; cbn in Hz; lia]. split; [|by destruct a].
    split_and!; [by split|done|by rewrite app_nil_r].
  - destruct (fwrite_law (f_data (filter_first a)) d Hok) as (r & w & -> & Hok' & Hor); [by intros ->|].
    cbn [mbind option_bind]. do 2 eexists. split; [done|].
    destruct Hor as [(-> & Hacc)| ->]; (split; [by (left + right)|]); split; try done;
      by split_and!.
Qed.

Lemma output_all_ok a ds : ready a ->
  exists b a', output_all a ds = Some (b, a') /\ outcome a (concat ds) b a' /\
  format_data a' = format_data a.
Proof.
  revert a. induction ds as [|d ds IH]; intros a Ha; cbn [output_all].
  - do 2 eexists. split; [done|]. split; [by apply outcome_nil|done].
  - destruct (archive_write_output_ok a d Ha) as (r & a1 & -> & Hr & Ho & Hf). cbn [mbind option_bind].
    fold (is_ok r). destruct (is_ok r).
    + destruct (IH a1) as (b & a2 & -> & Ho2 & Hf2); [apply Ho|].
      do 2 eexists. split; [done|]. split; [by eapply outcome_trans|congruence].
    + do 2 eexists. split; [done|]. split; [by eapply outcome_fail|done].
Qed.

Lemma zeros_app n m : 0 <= n -> 0 <= m -> zeros n ++ zeros m = zeros (n + m).
Proof. intros. unfold zeros. rewrite <- replicate_add. f_equal. lia. Qed.

Lemma write_nulls_ok fuel a n : ready a -> 0 <= n -> (n + 1023) / 1024 < Z.of_nat fuel ->
  exists r a', write_nulls fuel a n = Some (r, a') /\ ok_or_fatal r /\
  outcome a (zeros n) (is_ok r) a' /\ format_data a' = format_data a.
Proof.
  revert a n. induction fuel as [|fuel IH]; intros a n Ha Hn Hf.
  { pose proof (Z.div_pos (n + 1023) 1024). lia. }
  cbn [write_nulls]. destruct (Z.ltb_spec 0 n) as [Hp|Hz]; last first.
  { replace n with 0 by lia. do 2 eexists. split; [done|]. split; [by left|].
    split; [by apply outcome_nil|done]. }
  set (k := if n <? null_length then n else null_length).
  assert (0 < k <= n /\ (k = n \/ k = null_length)) as [Hk Hkk]
    by (unfold k, null_length; destruct (Z.ltb_spec n 1024); lia). clearbody k.
  destruct (archive_write_output_ok a (zeros k) Ha) as (r & a1 & -> & Hr & Ho & Hf1).
  cbn [mbind option_bind]. destruct Hr as [-> | ->].
  - rewrite Z.ltb_irrefl. destruct (IH a1 (n - k)) as (r & a2 & -> & Hr2 & Ho2 & Hf2); [apply Ho|lia| |].
    { unfold null_length in *. destruct Hkk as [->| ->]; zlia. }
    do 2 eexists. split; [done|]. split; [done|]. split; [|congruence].
    replace n with (k + (n - k)) by lia. rewrite <- zeros_app by lia. by eapply outcome_trans.
  - change (ARCHIVE_FATAL <? ARCHIVE_OK) with true. cbn iota. do 2 eexists. split; [done|].
    split; [by right|]. split; [by eapply outcome_fail|done].
Qed.

Lemma archive_write_nulls_ok a n : ready a -> 0 <= n ->
  exists r a', archive_write_nulls a n = Some (r, a') /\ ok_or_fatal r /\
  outcome a (zeros n) (is_ok r) a' /\ format_data a' = format_data a.
Proof. intros Ha Hn. apply write_nulls_ok; [done..|]. unfold null_length. zlia. Qed.

(** The entry as the writer leaves it: only regular files keep their size. *)
Definition sized (e : archive_entry) : archive_entry :=
  if archive_entry_filetype e =? AE_IFREG then e else archive_entry_set_size e 0.

Definition body_size (e : archive_entry) : Z :=
  if 0 <? blen (link_target e) then blen (link_target e) else archive_entry_size (sized e).

Lemma link_target_sized e : link_target (sized e) = link_target e.
Proof. unfold sized. by destruct (_ =? _). Qed.

(** Nothing is written for an empty target. *)
Definition link_bytes (p : bytes) : bytes := match p with [] => [] | _ => padded p end.

(** Header, name and target as they are written. *)
Definition head_bytes (e : archive_entry) (path : bytes) : bytes :=
  concat (header_fields e (body_size e) (blen path + 1)) ++
  path ++ [0] ++ zeros (PAD4 (blen path + 1 + c_header_size)) ++
  link_bytes (link_target e).

Lemma write_symlink_ok a p : ready a ->
  exists b a', write_symlink a p = Some (b, a') /\ outcome a (link_bytes p) b a' /\
  format_data a' = format_data a.
Proof.
  intros Ha. destruct p as [|c p].
  - exists true, a. split; [done|]. split; [by apply outcome_nil|done].
  - destruct (output_all_ok a [c :: p; zeros (PAD4 (blen (c :: p)))] Ha) as (b & a' & He & Ho & Hf).
    exists b, a'. split; [exact He|]. split; [|done]. cbn [concat] in Ho. by rewrite app_nil_r in Ho.
Qed.

(** The data of the format once the header of [e] is written. *)
Definition entry_data (e : archive_entry) : newc :=
  Newc_ (archive_entry_size (sized e)) (PAD4 (archive_entry_size (sized e))).

Lemma write_header_ok a e path : ready a -> fields_fit e ->
  archive_entry_pathname e = Some path -> blen path < 2 ^ 31 - 1 -> fits (body_size e) ->
  exists r a', write_header a e = Some (r, a', sized e) /\ ok_or_fatal r /\
  outcome a (head_bytes e path) (is_ok r) a' /\ (r = ARCHIVE_OK -> format_data a' = entry_data e).
Proof.
  intros Ha Hfit Hpath Hlen Hm. pose proof (blen_nonneg path) as Hp. unfold write_header.
  rewrite Hpath. assert (s32 (blen path) = blen path) as ->.
  { unfold s32. rewrite u32_small by (unfold is_u32; lia).
    destruct (Z.ltb_spec (blen path) (2 ^ 31)); [done|lia]. }
  rewrite fill_header_ok by (try done; unfold fits; lia). cbn [mbind option_bind].
  fold (sized e). rewrite link_target_sized. fold (body_size e).
  rewrite fill_size_ok by done. cbn [mbind option_bind Z.eqb negb].
  assert (mread (path ++ [0]) 0 (blen path + 1) = Some (path ++ [0])) as ->.
  { replace (blen path + 1) with (blen (path ++ [0])) by (by rewrite blen_app). apply mread_all. }
  cbn [mbind option_bind].
  set (h := concat (header_fields e (body_size e) (blen path + 1))).
  set (n := PAD4 (blen path + 1 + c_header_size)).
  set (pad := if n =? 0 then [] else [zeros n]).
  assert (concat pad = zeros n) as Hpad.
  { unfold pad. destruct (Z.eqb_spec n 0) as [Hz|_]; [by rewrite Hz|]. cbn. by rewrite app_nil_r. }
  destruct (output_all_ok a ([h; path ++ [0]] ++ pad) Ha) as (b & a1 & -> & Ho & Hf).
  rewrite List.concat_app, Hpad in Ho. cbn [concat] in Ho. rewrite app_nil_r in Ho.
  cbn [mbind option_bind]. destruct b; cbn [negb]; last first.
  { do 2 eexists. split; [done|]. split; [by right|]. split; [by eapply outcome_fail|done]. }
  destruct (write_symlink_ok (set_format_data a1 (entry_data e)) (link_target e)) as (b & a2 & Hw & Ho2 & Hf2).
  { apply Ho. }
  fold (entry_data e). rewrite Hw. cbn [mbind option_bind].
  assert (outcome a (head_bytes e path) b a2) as Hall.
  { pose proof (outcome_trans _ _ _ _ _ _ Ho Ho2) as Hx. by rewrite <- !app_assoc in Hx. }
  destruct Hfit as ([_ Hi] & _). destruct (Z.ltb_spec 0xFFFFFFFF (archive_entry_ino64 e)); [lia|].
  destruct b; (do 2 eexists; split; [done|]; split; [by (left + right)|]; split; [done|]); done.
Qed.

(** Writing the items of an archive and closing it, as a client does; [false]
    when a call reports less than success. *)
Fixpoint write_chunks a (ds : list bytes) : option (bool * archive_write newc W) :=
  match ds with
  | [] => Some (true, a)
  | d :: ds =>
      '(r, a) ← archive_write_data a d;
      if r =? blen d then write_chunks a ds else Some (false, a)
  end.

Fixpoint write_items a (items : list item) : option (bool * archive_write newc W) :=
  match items with
  | [] => '(r, a) ← archive_write_close a; Some (r =? ARCHIVE_OK, a)
  | (e, _, ds) :: items =>
      '(r, a, _) ← archive_write_header a e;
      if r =? ARCHIVE_OK then
        '(ok, a) ← write_chunks a ds;
        if ok : bool then write_items a items else Some (false, a)
      else Some (false, a)
  end.

(** What finishing the current entry will write. *)
Definition pending a : bytes :=
  if state a =? ARCHIVE_STATE_DATA
  then zeros (entry_bytes_remaining (format_data a) + padding (format_data a)) else [].

(** An archive between two calls. *)
Definition open_archive a : Prop :=
  ready a /\ (state a = ARCHIVE_STATE_HEADER \/ state a = ARCHIVE_STATE_DATA) /\
  0 <= entry_bytes_remaining (format_data a) /\ 0 <= padding (format_data a).

Lemma finish_entry_ok a : open_archive a ->
  exists r a', (if state a =? ARCHIVE_STATE_DATA then format_finish_entry a
                else Some (ARCHIVE_OK, a)) = Some (r, a') /\ ok_or_fatal r /\
  outcome a (pending a) (is_ok r) a'.
Proof.
  intros (Hr & Hs & H1 & H2). unfold pending. destruct (Z.eqb_spec (state a) ARCHIVE_STATE_DATA) as [E|E].
  - destruct (archive_write_nulls_ok a (entry_bytes_remaining (format_data a) + padding (format_data a)))
      as (r & a' & Hn & Hrr & Ho & _); [done|lia|]. by exists r, a'.
  - do 2 eexists. split; [done|]. split; [by left|by apply outcome_nil].
Qed.

Lemma archive_write_finish_entry_ok a : open_archive a ->
  exists r a', archive_write_finish_entry a = Some (r, a') /\ ok_or_fatal r /\ ready a' /\
  state a' = ARCHIVE_STATE_HEADER /\ (is_ok r = true -> emitted a' = emitted a ++ pending a).
Proof.
  intros Ha. unfold archive_write_finish_entry, archive_check_magic.
  destruct (finish_entry_ok a Ha) as (r & a' & Hf & Hr & Ho). destruct Ha as (_ & Hs & _).
  assert ((Z.land (state a) (Z.lor ARCHIVE_STATE_HEADER ARCHIVE_STATE_DATA) =? 0) = false) as ->
    by (by destruct Hs as [-> | ->]).
  assert ((if negb (Z.land (state a) ARCHIVE_STATE_DATA =? 0) then format_finish_entry a else Some (ARCHIVE_OK, a))
    = Some (r, a')) as -> by (rewrite <- Hf; by destruct Hs as [-> | ->]).
  cbn [negb mbind option_bind]. do 2 eexists. split; [done|]. destruct Ho as (? & ? & ?). by split_and!.
Qed.

Lemma storable_fields e path body : storable e path body -> fields_fit e.
Proof.
  intros [_ _ _ _ _ _ (? & ? & ? & ? & ? & ? & ?) (? & ? & ? & ?)].
  assert (fits (archive_entry_nlink e)) by (unfold fits; lia).
  by split_and!.
Qed.

Lemma storable_size e path body : storable e path body ->
  archive_entry_size (sized e) = (if archive_entry_filetype e =? AE_IFREG then blen body else 0) /\
  body_size e = blen (content e body) /\ fits (body_size e) /\
  0 <= archive_entry_size e /\
  ((archive_entry_filetype e =? AE_IFREG) = true -> link_target e = []) /\
  ((archive_entry_filetype e =? AE_IFREG) = false -> body = []).
Proof.
  intros [_ _ _ _ Hb Hl Hf _]. pose proof (blen_nonneg body).
  assert ((archive_entry_filetype e =? AE_IFREG) = true -> link_target e = []) as Hreg.
  { intros E. apply Z.eqb_eq in E. rewrite E in Hl. unfold link_target. cbn in Hl. by rewrite Hl. }
  unfold body_size, content, sized in *.
  destruct (archive_entry_filetype e =? AE_IFREG) eqn:E.
  - rewrite (Hreg eq_refl), Hb. cbn. split_and!; try done; apply Hf.
  - destruct Hb as [-> Hb]. split; [done|].
    assert (fits (blen (link_target e))) as Hlt.
    { unfold link_target, fits. destruct (archive_entry_filetype e =? AE_IFLNK).
      - destruct Hl as (p & -> & _ & _ & Hp). pose proof (blen_nonneg p). lia.
      - rewrite Hl. done. }
    destruct (link_target e) as [|c p] eqn:Ep.
    + cbn. split_and!; done.
    + rewrite blen_cons in *. pose proof (blen_nonneg p). destruct (Z.ltb_spec 0 (1 + blen p)); [|lia].
      by split_and!.
Qed.

(** Header, data and padding make up the entry. *)
Lemma entry_bytes_parts e path body : storable e path body ->
  head_bytes e path ++ body ++ zeros (PAD4 (archive_entry_size (sized e))) = entry_bytes e path body.
Proof.
  intros Hs. destruct (storable_size e path body Hs) as (Hsz & Hbs & _ & _ & Hreg & Hother).
  unfold head_bytes, entry_bytes. rewrite Hbs, <- !app_assoc. do 5 f_equal.
  rewrite Hsz. unfold content, padded. destruct (archive_entry_filetype e =? AE_IFREG) eqn:E.
  - by rewrite (Hreg eq_refl).
  - rewrite (Hother eq_refl). destruct (link_target e); [done|]. cbn [link_bytes].
    change (zeros (PAD4 0)) with (@nil Z). by rewrite !app_nil_r.
Qed.

Lemma archive_write_newc_header_ok a e path body : ready a -> storable e path body ->
  exists r a', archive_write_newc_header a e = Some (r, a', sized e) /\ ok_or_fatal r /\
  outcome a (head_bytes e path) (is_ok r) a' /\ (r = ARCHIVE_OK -> format_data a' = entry_data e).
Proof.
  intros Ha Hs. destruct (storable_size e path body Hs) as (_ & _ & Hfit & Hsz & _).
  pose proof (storable_fields e path body Hs) as Hff.
  destruct Hs as [Hp (Hn & _ & Hl) Ht (Hss & Hh) _ _ _ _]. unfold archive_write_newc_header.
  rewrite Hh, bool_decide_eq_true_2, Hp, Hss by done.
  destruct (Z.eqb_spec (archive_entry_filetype e) 0); [done|]. cbn [andb negb orb].
  destruct path; [done|]. destruct (Z.ltb_spec (archive_entry_size e) 0); [lia|].
  by apply write_header_ok.
Qed.

(** An archive with [n] bytes of the entry still to come. *)
Definition in_entry a (n pad : Z) : Prop :=
  ready a /\ state a = ARCHIVE_STATE_DATA /\ format_data a = Newc_ n pad.

Lemma archive_write_header_ok a e path body : open_archive a -> storable e path body ->
  exists r a' e', archive_write_header a e = Some (r, a', e') /\
  (r = ARCHIVE_OK -> emitted a' = emitted a ++ pending a ++ head_bytes e path /\
     in_entry a' (archive_entry_size (sized e)) (PAD4 (archive_entry_size (sized e))) /\ e' = sized e).
Proof.
  intros Ha Hst. unfold archive_write_header.
  destruct (archive_write_finish_entry_ok a Ha) as (r & a1 & -> & Hr & Hrd & Hs1 & He1).
  destruct Ha as (_ & Hs & _). unfold archive_check_magic.
  assert ((Z.land (state a) (Z.lor ARCHIVE_STATE_DATA ARCHIVE_STATE_HEADER) =? 0) = false) as ->
    by (by destruct Hs as [-> | ->]).
  cbn [negb mbind option_bind]. destruct Hr as [-> | ->]; last first.
  { change (ARCHIVE_FATAL =? ARCHIVE_FATAL) with true. cbn iota. by do 3 eexists. }
  cbn [Z.eqb Z.ltb andb ARCHIVE_OK ARCHIVE_FATAL Z.compare].
  change (format_write_header a1 e) with (archive_write_newc_header a1 e).
  destruct (archive_write_newc_header_ok a1 e path body Hrd Hst) as (r & a2 & -> & Hr & (Hr2 & _ & He2) & Hf).
  cbn [mbind option_bind]. destruct Hr as [-> | ->]; last first.
  { cbn. by do 3 eexists. }
  cbn -[emitted head_bytes]. do 3 eexists. split; [done|]. intros _.
  split; [|split; [split_and!; [done|done|by apply Hf]|done]].
  change (emitted (set_state a2 ARCHIVE_STATE_DATA)) with (emitted a2).
  by rewrite He2, He1, <- app_assoc.
Qed.

Lemma archive_write_data_ok a n pad d : in_entry a n pad -> blen d <= n -> blen d < 2 ^ 31 ->
  exists r a', archive_write_data a d = Some (r, a') /\
  (r = blen d -> emitted a' = emitted a ++ d /\ in_entry a' (n - blen d) pad).
Proof.
  intros (Hr & Hs & Hf) Hn Hl. unfold archive_write_data, archive_check_magic. rewrite Hs.
  cbn [negb Z.land Z.eqb ARCHIVE_STATE_DATA Pos.land].
  destruct (Z.ltb_spec (2 ^ 31 - 1) (blen d)); [lia|].
  change (format_write_data a d) with (archive_write_newc_data a d). unfold archive_write_newc_data. rewrite Hf.
  cbn [entry_bytes_remaining padding]. destruct (Z.ltb_spec n (blen d)); [lia|].
  rewrite take_ge by (unfold blen; lia).
  destruct (archive_write_output_ok a d Hr) as (r & a1 & -> & Hrr & (Hr1 & Hs1 & He1) & _).
  cbn [mbind option_bind]. do 2 eexists. split; [done|]. destruct Hrr as [-> | ->].
  - intros _. split; [by apply He1|]. split_and!; [exact Hr1|cbn; congruence|done].
  - intros Hx. cbn in Hx. pose proof (blen_nonneg d). unfold ARCHIVE_FATAL in Hx. lia.
Qed.

Lemma write_chunks_ok a n pad ds : in_entry a n pad -> blen (concat ds) <= n ->
  Forall (fun d => blen d < 2 ^ 31) ds ->
  exists b a', write_chunks a ds = Some (b, a') /\
  (b = true -> emitted a' = emitted a ++ concat ds /\ in_entry a' (n - blen (concat ds)) pad).
Proof.
  intros Ha Hn Hds. revert a n Ha Hn. induction Hds as [|d ds Hd Hds IH]; intros a n Ha Hn; cbn [write_chunks].
  - do 2 eexists. split; [done|]. intros _. cbn. rewrite app_nil_r. split; [done|].
    change (blen []) with 0. by rewrite Z.sub_0_r.
  - cbn [concat] in *. rewrite blen_app in *. pose proof (blen_nonneg d). pose proof (blen_nonneg (concat ds)).
    destruct (archive_write_data_ok a n pad d Ha ltac:(lia) Hd) as (r & a1 & -> & Hr).
    cbn [mbind option_bind]. destruct (Z.eqb_spec r (blen d)) as [Hx|Hx]; [|do 2 eexists; by split].
    destruct (Hr Hx) as [He1 Ha1]. destruct (IH a1 (n - blen d) Ha1 ltac:(lia)) as (b & a2 & -> & Hb).
    do 2 eexists. split; [done|]. intros ->. destruct Hb as [He2 Ha2]; [done|].
    rewrite He2, He1, <- app_assoc. split; [done|].
    by replace (n - (blen d + blen (concat ds))) with (n - blen d - blen (concat ds)) by lia.
Qed.

Lemma trailer_head : fields_fit trailer /\ head_bytes trailer trailer_name = entry_bytes trailer trailer_name [].
Proof. split; [by vm_compute|]. unfold head_bytes, entry_bytes. reflexivity. Qed.

Lemma archive_write_close_ok a : open_archive a ->
  exists r a', archive_write_close a = Some (r, a') /\
  (r = ARCHIVE_OK -> delivered (f_data (filter_first a')) =
     emitted a ++ pending a ++ entry_bytes trailer trailer_name []).
Proof.
  intros Ha. unfold archive_write_close, archive_check_magic.
  destruct (finish_entry_ok a Ha) as (r1 & a1 & Hfin & Hr1 & (Hrd1 & _ & He1)). destruct Ha as (_ & Hs & _).
  assert ((Z.land (state a) (Z.lor ARCHIVE_STATE_ANY ARCHIVE_STATE_FATAL) =? 0) = false) as ->
    by (by destruct Hs as [-> | ->]).
  assert ((state a =? ARCHIVE_STATE_NEW) || (state a =? ARCHIVE_STATE_CLOSED) = false) as ->
    by (by destruct Hs as [-> | ->]).
  cbn [negb]. rewrite Hfin. cbn [mbind option_bind].
  destruct trailer_head as [Hfit Hhead].
  destruct (write_header_ok a1 trailer trailer_name Hrd1 Hfit) as (r2 & a2 & Hw & Hr2 & ((Hst & Hok) & _ & He2) & _);
    [done..|].
  change (format_close a1) with ('(er, a, _) ← write_header a1 trailer; Some (er, a)).
  rewrite Hw. cbn [mbind option_bind]. rewrite Hhead in He2.
  unfold archive_write_filters_close. rewrite bool_decide_eq_true_2 by done.
  destruct (fclose_law (f_data (filter_first a2)) Hok) as (r3 & w & -> & Hor). cbn [mbind option_bind].
  do 2 eexists. split; [done|]. intros Hz.
  assert (r1 = ARCHIVE_OK /\ r2 = ARCHIVE_OK /\ r3 >= ARCHIVE_OK) as (-> & -> & Hr3).
  { clear -Hz Hr1 Hr2. revert Hz. unfold ok_or_fatal, ARCHIVE_OK, ARCHIVE_FATAL in *.
    destruct (Z.ltb_spec r2 r1), (Z.ltb_spec r3 0); bit_cases; lia. }
  destruct Hor as [(-> & Hd)|]; [|lia].
  unfold emitted in He1, He2. specialize (He1 eq_refl). specialize (He2 eq_refl).
  destruct (_ =? ARCHIVE_STATE_FATAL); cbn [filter_first f_data set_state];
    by rewrite Hd, He2, He1, <- app_assoc.
Qed.

Lemma entry_pending a e path ds : storable e path (concat ds) ->
  in_entry a (archive_entry_size (sized e) - blen (concat ds)) (PAD4 (archive_entry_size (sized e))) ->
  open_archive a /\ pending a = zeros (PAD4 (archive_entry_size (sized e))).
Proof.
  intros Hs (Hr & Hst & Hf). destruct (storable_size e path _ Hs) as (Hsz & _ & _ & _ & _ & Hother).
  assert (archive_entry_size (sized e) = blen (concat ds)) as E.
  { rewrite Hsz. destruct (_ =? _); [done|]. by rewrite Hother. }
  pose proof (PAD4_range (archive_entry_size (sized e))). unfold open_archive, pending.
  rewrite Hf, Hst. cbn [entry_bytes_remaining padding]. rewrite E, Z.sub_diag, Z.add_0_l in *.
  split; [|done]. split_and!; [done|by right|lia|lia].
Qed.

(** An archive that is written in pieces has the bytes of its items. *)
Lemma write_every_item_ok a items : open_archive a ->
  Forall (fun '(e, path, ds) => storable e path (concat ds) /\ Forall (fun d => blen d < 2 ^ 31) ds) items ->
  exists b a', write_items a items = Some (b, a') /\
  (b = true -> delivered (f_data (filter_first a')) = emitted a ++ pending a ++ archive_bytes items).
Proof.
  intros Ha Hitems. revert a Ha. induction Hitems as [|[[e path] ds] items [Hst Hds] Hitems IH]; intros a Ha.
  - cbn [write_items]. destruct (archive_write_close_ok a Ha) as (r & a' & -> & Hr). cbn [mbind option_bind].
    do 2 eexists. split; [done|]. intros Hz. apply Hr. by apply Z.eqb_eq.
  - cbn [write_items]. destruct (archive_write_header_ok a e path (concat ds) Ha Hst) as (r & a1 & e' & -> & Hr).
    cbn [mbind option_bind]. destruct (Z.eqb_spec r ARCHIVE_OK) as [Hz|Hz]; [|do 2 eexists; by split].
    destruct (Hr Hz) as (He1 & Hin & _). destruct (storable_size e path _ Hst) as (Hsz & _ & _ & _ & _ & Hother).
    destruct (write_chunks_ok a1 _ _ ds Hin) as (b & a2 & -> & Hb); [|done|].
    { rewrite Hsz. destruct (_ =? _); [lia|]. rewrite Hother by done. done. }
    cbn [mbind option_bind]. destruct b; [|do 2 eexists; by split]. destruct Hb as [He2 Hin2]; [done|].
    destruct (entry_pending a2 e path ds Hst Hin2) as [Hopen Hpend].
    destruct (IH a2 Hopen) as (b & a3 & -> & Hb). do 2 eexists. split; [done|]. intros Hx.
    rewrite (Hb Hx), He2, He1, Hpend. unfold archive_bytes. cbn [map concat].
    rewrite <- (entry_bytes_parts e path (concat ds) Hst). by rewrite <- !app_assoc.
Qed.
End Writing.
