(* ===== verification/Cpioread.v ===== *)
(** Reading cpio archives (archive_read_support_format_cpio.c) and the states of
    an archive that is read (archive_read.c).

    All five header formats are modelled: SVR4 ("newc"), POSIX octal, afio large
    and the two binary ones.  The archive reads from a filter over any
    [Upstream].  [None] is an access outside an object; the one read through a
    pointer that may be stale, of the name, is [name_found].  [archive_format]
    only records what [header_odc] asks for: whether the format is afio large. *)
From S2P Require Import Prelude Stdio Readahead Window Archiveentry Archivewrite.

(** Conversion to [int64_t]. *)
Definition s64 (x : Z) : Z := let y := u64 x in if y <? 2 ^ 63 then y else y - 2 ^ 64.

Record links_entry := LinksEntry { links : Z; l_dev : Z; l_ino : Z; l_name : bytes }.

(** The function pointer [read_header]. *)
Inductive header_reader := Header_odc | Header_newc | Header_bin_be | Header_bin_le.

Record cpio := Cpio {
  read_header : option header_reader;
  links_head : list links_entry;
  c_bytes_remaining : Z;
  c_bytes_unconsumed : Z;
  c_entry_offset : Z;
  c_entry_padding : Z
}.

Definition cpio_new : cpio := Cpio None [] 0 0 0 0.

Record archive_read (U : Type) := Reader {
  r_state : Z;
  afio_large : bool;
  r_filter : archive_read_filter U;
  r_cpio : cpio
}.
Arguments Reader {U}.
Arguments r_state {U}.
Arguments afio_large {U}.
Arguments r_filter {U}.
Arguments r_cpio {U}.

(** ** Numbers in headers *)

Definition octal_digit (c : Z) : option Z := if (48 <=? c) && (c <=? 55) then Some (c - 48) else None.

Fixpoint atol_loop (digit : Z -> option Z) (bits : Z) (p : bytes) (l : Z) : Z :=
  match p with
  | [] => l
  | c :: p =>
      match digit c with
      | Some d => atol_loop digit bits p (s64 (Z.lor (Z.shiftl l bits) d))
      | None => l
      end
  end.

(** A field of a header: [char_cnt] digits at [offset], read up to the first
    character that is none. *)
Definition atol16 (h : bytes) (offset : Z) (char_cnt : Z) : option Z :=
  p ← mread h offset char_cnt; Some (atol_loop hex_digit 4 p 0).
Definition atol8 (h : bytes) (offset : Z) (char_cnt : Z) : option Z :=
  p ← mread h offset char_cnt; Some (atol_loop octal_digit 3 p 0).

Definition byte_of (h : bytes) (i : Z) : option Z := p ← mread h i 1; head p.

(** Two bytes, in either order. *)
Definition le2 (h : bytes) (o : Z) : option Z :=
  a ← byte_of h o; b ← byte_of h (o + 1); Some (a + b * 256).
Definition be2 (h : bytes) (o : Z) : option Z :=
  a ← byte_of h o; b ← byte_of h (o + 1); Some (a * 256 + b).

(** Mixed-endian: the high half comes first.  [p[0] << 16] is an [int]. *)
Definition le4 (h : bytes) (o : Z) : option Z :=
  p0 ← byte_of h o; p1 ← byte_of h (o + 1); p2 ← byte_of h (o + 2); p3 ← byte_of h (o + 3);
  Some (Z.shiftl p0 16 + Z.shiftl p1 24 + p2 + Z.shiftl p3 8).
Definition be4 (h : bytes) (o : Z) : option Z :=
  p0 ← byte_of h o; p1 ← byte_of h (o + 1); p2 ← byte_of h (o + 2); p3 ← byte_of h (o + 3);
  Some (Z.shiftl p0 24 + Z.shiftl p1 16 + Z.shiftl p2 8 + p3).

Definition all_chars (p : Z -> bool) (h : bytes) (offset len : Z) : option bool :=
  w ← mread h offset len; Some (forallb p w).
Definition is_hex (h : bytes) (offset len : Z) : option bool := all_chars Stdio.is_hex h offset len.
Definition is_octal (h : bytes) (offset len : Z) : option bool :=
  all_chars (fun c => bool_decide (is_Some (octal_digit c))) h offset len.

(** [memcmp(s, h + offset, len)] with a literal. *)
Definition matches (s : bytes) (h : bytes) (offset : Z) : option bool :=
  w ← mread h offset (blen s); Some (bool_decide (w = s)).

Definition newc_header_size := 110.
Definition odc_header_size := 76.
Definition afiol_header_size := 116.
Definition bin_header_size := 26.
Definition afiol_ino_m_offset := 30.
Definition afiol_mtime_n_offset := 85.
Definition afiol_xsize_s_offset := 98.
Definition afiol_filesize_c_offset := 115.
Definition afiol_dev_offset := 6.
Definition afiol_mode_offset := 31.
Definition afiol_namesize_offset := 86.
Definition afiol_filesize_offset := 99.
Definition afiol_filesize_size := 16.

(** [o] is where the candidate header starts in the window, of which [len] bytes
    are left. *)
Definition is_afio_large (w : bytes) (o len : Z) : option bool :=
  if len <? afiol_header_size then Some false
  else
    m ← byte_of w (o + afiol_ino_m_offset);
    n ← byte_of w (o + afiol_mtime_n_offset);
    s ← byte_of w (o + afiol_xsize_s_offset);
    c ← byte_of w (o + afiol_filesize_c_offset);
    if negb ((m =? 109) && (n =? 110) && (s =? 115) && (c =? 58)) then Some false
    else
      h1 ← is_hex w (o + afiol_dev_offset) (afiol_ino_m_offset - afiol_dev_offset);
      h2 ← is_hex w (o + afiol_mode_offset) (afiol_mtime_n_offset - afiol_mode_offset);
      h3 ← is_hex w (o + afiol_namesize_offset) (afiol_xsize_s_offset - afiol_namesize_offset);
      h4 ← is_hex w (o + afiol_filesize_offset) afiol_filesize_size;
      Some (h1 && h2 && h3 && h4).

(** ** Finding the next header *)

(** Is there a header at [o] of the window?  For the octal formats, also
    whether it is an afio large one. *)
Definition newc_at (w : bytes) (o : Z) : option bool :=
  m ← matches (str "07070") w o;
  c ← byte_of w (o + 5);
  if m && ((c =? 49) || (c =? 50)) then is_hex w o newc_header_size else Some false.

Definition odc_at (w : bytes) (o : Z) : option (option bool) :=
  m ← matches (str "070707") w o;
  i ← (if m : bool then is_octal w o odc_header_size else Some false);
  if i : bool then Some (Some false)
  else
    m ← matches (str "070727") w o;
    i ← (if m : bool then is_afio_large w o (blen w - o) else Some false);
    Some (if i : bool then Some true else None).

(** The slow search, from [o]: it stops at a header or where no header fits any
    more.  Where it looks next depends on the sixth character. *)
Definition newc_step (c : Z) : Z := if (c =? 49) || (c =? 50) then 2 else if c =? 48 then 1 else 6.
Definition odc_step (c : Z) : Z := if c =? 55 then 2 else if c =? 48 then 1 else 6.

Fixpoint newc_scan (fuel : nat) (w : bytes) (o : Z) : option (bool * Z) :=
  match fuel with
  | O => None
  | S fuel =>
      if o + newc_header_size <=? blen w then
        found ← newc_at w o;
        c ← byte_of w (o + 5);
        if found : bool then Some (true, o) else newc_scan fuel w (o + newc_step c)
      else Some (false, o)
  end.

Fixpoint odc_scan (fuel : nat) (w : bytes) (o : Z) : option (option bool * Z) :=
  match fuel with
  | O => None
  | S fuel =>
      if o + odc_header_size <=? blen w then
        found ← odc_at w o;
        c ← byte_of w (o + 5);
        match found with
        | Some large => Some (Some large, o)
        | None => odc_scan fuel w (o + odc_step c)
        end
      else Some (None, o)
  end.

Section Reader.
Context {U : Type} `{Upstream U} (junk : Z -> Z).

Definition set_filter (a : archive_read U) (f : archive_read_filter U) : archive_read U :=
  Reader (r_state a) (afio_large a) f (r_cpio a).
Definition set_cpio (a : archive_read U) (c : cpio) : archive_read U :=
  Reader (r_state a) (afio_large a) (r_filter a) c.
Definition set_rstate (a : archive_read U) (s : Z) : archive_read U :=
  Reader s (afio_large a) (r_filter a) (r_cpio a).
Definition set_afio (a : archive_read U) (b : bool) : archive_read U :=
  Reader (r_state a) b (r_filter a) (r_cpio a).

Definition archive_read_ahead (a : archive_read U) (min : Z)
  : option (option bytes * Z * archive_read U) :=
  r ← archive_read_filter_ahead junk (r_filter a) min;
  Some (r.1, set_filter a r.2).

Definition archive_read_consume (a : archive_read U) (request : Z) : option (Z * archive_read U) :=
  r ← archive_read_filter_consume (r_filter a) request;
  Some (r.1, set_filter a r.2).

(** The typical case first, then the slow search, block after block. *)
Fixpoint find_newc_loop (fuel : nat) (a : archive_read U) (skipped : Z)
  : option (Z * archive_read U) :=
  match fuel with
  | O => None
  | S fuel =>
      '(h, _, a) ← archive_read_ahead a newc_header_size;
      match h with
      | None => Some (ARCHIVE_FATAL, a)
      | Some w =>
          typical ← newc_at w 0;
          if typical : bool then Some (ARCHIVE_OK, a)
          else
            '(found, skip) ← newc_scan (length w) w 0;
            '(_, a) ← archive_read_consume a skip;
            if found : bool then
              Some (if 0 <? skipped + skip then ARCHIVE_WARN else ARCHIVE_OK, a)
            else find_newc_loop fuel a (skipped + skip)
      end
  end.

Definition find_newc_header (a : archive_read U) : option (Z * archive_read U) :=
  find_newc_loop (length (buffer (r_filter a)) + length (rest (data (r_filter a)))
                  + Z.to_nat (client_avail (r_filter a)) + 2) a 0.

Fixpoint find_odc_loop (fuel : nat) (a : archive_read U) (skipped : Z)
  : option (Z * archive_read U) :=
  match fuel with
  | O => None
  | S fuel =>
      '(h, _, a) ← archive_read_ahead a odc_header_size;
      match h with
      | None => Some (ARCHIVE_FATAL, a)
      | Some w =>
          typical ← odc_at w 0;
          match typical with
          | Some large => Some (ARCHIVE_OK, if large : bool then set_afio a true else a)
          | None =>
              '(found, skip) ← odc_scan (length w) w 0;
              '(_, a) ← archive_read_consume a skip;
              match found with
              | Some large =>
                  Some (if 0 <? skipped + skip then ARCHIVE_WARN else ARCHIVE_OK,
                        if large : bool then set_afio a true else a)
              | None => find_odc_loop fuel a (skipped + skip)
              end
          end
      end
  end.

Definition find_odc_header (a : archive_read U) : option (Z * archive_read U) :=
  find_odc_loop (length (buffer (r_filter a)) + length (rest (data (r_filter a)))
                 + Z.to_nat (client_avail (r_filter a)) + 2) a 0.

End Reader.

(** ** The headers *)

(** What a header function returns: the result, the length of the name and of
    its padding, and the entry. *)
Record header_result (U : Type) := HeaderResult {
  h_ret : Z;
  namelength : Z;
  name_pad : Z;
  h_entry : archive_entry;
  h_archive : archive_read U
}.
Arguments HeaderResult {U}.
Arguments h_ret {U}.
Arguments namelength {U}.
Arguments name_pad {U}.
Arguments h_entry {U}.
Arguments h_archive {U}.

Definition set_body (c : cpio) (remaining padding : Z) : cpio :=
  Cpio (read_header c) (links_head c) remaining (c_bytes_unconsumed c) (c_entry_offset c) padding.

Section Headers.
Context {U : Type} `{Upstream U} (junk : Z -> Z).

(** The offsets and sizes are those of the [#define]s [newc_dev..._offset]. *)
Definition parse_newc (h : bytes) (e : archive_entry) : option (archive_entry * Z * Z) :=
  x ← atol16 h 62 8; let e := archive_entry_set_devmajor e x in
  x ← atol16 h 70 8; let e := archive_entry_set_devminor e x in
  x ← atol16 h 6 8; let e := archive_entry_set_ino e x in
  x ← atol16 h 14 8; let e := archive_entry_set_mode e x in
  x ← atol16 h 22 8; let e := archive_entry_set_uid e x in
  x ← atol16 h 30 8; let e := archive_entry_set_gid e x in
  x ← atol16 h 38 8; let e := archive_entry_set_nlink e x in
  x ← atol16 h 78 8; let e := archive_entry_set_rdevmajor e x in
  x ← atol16 h 86 8; let e := archive_entry_set_rdevminor e x in
  x ← atol16 h 46 8; let e := archive_entry_set_mtime e x in
  n ← atol16 h 94 8;
  size ← atol16 h 54 8;
  Some (archive_entry_set_size e size, n, size).

Definition header_newc (a : archive_read U) (e : archive_entry) : option (header_result U) :=
  '(r, a) ← find_newc_header junk a;
  if r <? ARCHIVE_WARN then Some (HeaderResult r 0 0 e a)
  else
    '(h, _, a) ← archive_read_ahead junk a newc_header_size;
    match h with
    | None => Some (HeaderResult ARCHIVE_FATAL 0 0 e a)
    | Some h =>
        '(e, n, size) ← parse_newc h e;
        let pad := Z.land (2 - n) 3 in
        if 2 ^ 64 - 1 - n <? pad then Some (HeaderResult ARCHIVE_FATAL n pad e a)
        else
          let a := set_cpio a (set_body (r_cpio a) size (Z.land 3 (- size))) in
          '(_, a) ← archive_read_consume a newc_header_size;
          Some (HeaderResult r n pad e a)
    end.

Definition parse_afiol (h : bytes) (e : archive_entry) : option (archive_entry * Z * Z) :=
  x ← atol16 h 6 8; let e := archive_entry_set_dev e x in
  x ← atol16 h 14 16; let e := archive_entry_set_ino e x in
  x ← atol8 h 31 6; let e := archive_entry_set_mode e x in
  x ← atol16 h 37 8; let e := archive_entry_set_uid e x in
  x ← atol16 h 45 8; let e := archive_entry_set_gid e x in
  x ← atol16 h 53 8; let e := archive_entry_set_nlink e x in
  x ← atol16 h 61 8; let e := archive_entry_set_rdev e x in
  x ← atol16 h 69 16; let e := archive_entry_set_mtime e x in
  n ← atol16 h 86 4;
  size ← atol16 h 99 16;
  Some (archive_entry_set_size e size, n, size).

Definition header_afiol (a : archive_read U) (e : archive_entry) : option (header_result U) :=
  let a := set_afio a true in
  '(h, _, a) ← archive_read_ahead junk a afiol_header_size;
  match h with
  | None => Some (HeaderResult ARCHIVE_FATAL 0 0 e a)
  | Some h =>
      '(e, n, size) ← parse_afiol h e;
      let a := set_cpio a (set_body (r_cpio a) size 0) in
      '(_, a) ← archive_read_consume a afiol_header_size;
      Some (HeaderResult ARCHIVE_OK n 0 e a)
  end.

Definition parse_odc (h : bytes) (e : archive_entry) : option (archive_entry * Z * Z) :=
  x ← atol8 h 6 6; let e := archive_entry_set_dev e x in
  x ← atol8 h 12 6; let e := archive_entry_set_ino e x in
  x ← atol8 h 18 6; let e := archive_entry_set_mode e x in
  x ← atol8 h 24 6; let e := archive_entry_set_uid e x in
  x ← atol8 h 30 6; let e := archive_entry_set_gid e x in
  x ← atol8 h 36 6; let e := archive_entry_set_nlink e x in
  x ← atol8 h 42 6; let e := archive_entry_set_rdev e x in
  x ← atol8 h 48 11; let e := archive_entry_set_mtime e x in
  n ← atol8 h 59 6;
  size ← atol8 h 65 11;
  Some (archive_entry_set_size e size, n, size).

Definition header_odc (a : archive_read U) (e : archive_entry) : option (header_result U) :=
  let a := set_afio a false in
  '(r, a) ← find_odc_header junk a;
  if r <? ARCHIVE_WARN then Some (HeaderResult r 0 0 e a)
  else if afio_large a then
    x ← header_afiol a e;
    Some (if h_ret x =? ARCHIVE_OK
          then HeaderResult r (namelength x) (name_pad x) (h_entry x) (h_archive x) else x)
  else
    '(h, _, a) ← archive_read_ahead junk a odc_header_size;
    match h with
    | None => Some (HeaderResult ARCHIVE_FATAL 0 0 e a)
    | Some h =>
        '(e, n, size) ← parse_odc h e;
        let a := set_cpio a (set_body (r_cpio a) size 0) in
        '(_, a) ← archive_read_consume a odc_header_size;
        Some (HeaderResult r n 0 e a)
    end.

(** The binary headers differ in the order of the bytes. *)
Definition parse_bin (two four : bytes -> Z -> option Z) (h : bytes) (e : archive_entry)
  : option (archive_entry * Z * Z) :=
  x ← two h 2; let e := archive_entry_set_dev e x in
  x ← two h 4; let e := archive_entry_set_ino e x in
  x ← two h 6; let e := archive_entry_set_mode e x in
  x ← two h 8; let e := archive_entry_set_uid e x in
  x ← two h 10; let e := archive_entry_set_gid e x in
  x ← two h 12; let e := archive_entry_set_nlink e x in
  x ← two h 14; let e := archive_entry_set_rdev e x in
  x ← four h 16; let e := archive_entry_set_mtime e x in
  n ← two h 20;
  size ← four h 22;
  Some (archive_entry_set_size e size, n, size).

Definition header_bin (two four : bytes -> Z -> option Z) (a : archive_read U) (e : archive_entry)
  : option (header_result U) :=
  let a := set_afio a false in
  '(h, _, a) ← archive_read_ahead junk a bin_header_size;
  match h with
  | None => Some (HeaderResult ARCHIVE_FATAL 0 0 e a)
  | Some h =>
      '(e, n, size) ← parse_bin two four h e;
      let a := set_cpio a (set_body (r_cpio a) size (Z.land size 1)) in
      '(_, a) ← archive_read_consume a bin_header_size;
      Some (HeaderResult ARCHIVE_OK n (Z.land n 1) e a)
  end.

Definition header_bin_le (a : archive_read U) (e : archive_entry) := header_bin le2 le4 a e.
Definition header_bin_be (a : archive_read U) (e : archive_entry) := header_bin be2 be4 a e.

Definition call_read_header (k : header_reader) (a : archive_read U) (e : archive_entry)
  : option (header_result U) :=
  match k with
  | Header_odc => header_odc a e
  | Header_newc => header_newc a e
  | Header_bin_be => header_bin_be a e
  | Header_bin_le => header_bin_le a e
  end.

End Headers.

(** ** Hard links *)

Fixpoint find_link (dev ino : Z) (ls : list links_entry) : option links_entry :=
  match ls with
  | [] => None
  | le :: ls => if (l_dev le =? dev) && (l_ino le =? ino) then Some le else find_link dev ino ls
  end.

(** One link of the entry is accounted for; it is removed with the last one. *)
Fixpoint count_link (dev ino : Z) (ls : list links_entry) : list links_entry :=
  match ls with
  | [] => []
  | le :: ls =>
      if (l_dev le =? dev) && (l_ino le =? ino) then
        let n := u32 (links le - 1) in
        if n <=? 0 then ls else LinksEntry n (l_dev le) (l_ino le) (l_name le) :: ls
      else le :: count_link dev ino ls
  end.

(** [strdup] of a missing name is undefined. *)
Definition record_hardlink (c : cpio) (e : archive_entry) : option (Z * cpio * archive_entry) :=
  let set_links l :=
    Cpio (read_header c) l (c_bytes_remaining c) (c_bytes_unconsumed c) (c_entry_offset c)
      (c_entry_padding c) in
  if archive_entry_nlink e <=? 1 then Some (ARCHIVE_OK, c, e)
  else
    let dev := archive_entry_dev e in
    let ino := archive_entry_ino64 e in
    match find_link dev ino (links_head c) with
    | Some le =>
        Some (ARCHIVE_OK, set_links (count_link dev ino (links_head c)),
              archive_entry_copy_hardlink e (Some (l_name le)))
    | None =>
        name ← archive_entry_pathname e;
        Some (ARCHIVE_OK,
              set_links (LinksEntry (u32 (archive_entry_nlink e - 1)) dev ino name :: links_head c), e)
    end.

(** ** The operations of the format *)

(** Where an operation has returned, or what it knows of an entry when the name
    is compared: the result so far, the length of the name, the filter as it was
    when [h] was set, and the archive and entry of now. *)
Record named_entry (U : Type) := NamedEntry {
  n_ret : Z;
  n_length : Z;
  n_window : archive_read_filter U;
  n_archive : archive_read U;
  n_entry : archive_entry
}.

Arguments NamedEntry {U}.
Arguments n_ret {U}.
Arguments n_length {U}.
Arguments n_window {U}.
Arguments n_archive {U}.
Arguments n_entry {U}.

Inductive naming (U : Type) :=
  | Done (r : Z) (a : archive_read U) (e : archive_entry)
  | Named (x : named_entry U).
Arguments Done {U}.
Arguments Named {U}.

Section Format.
Context {U : Type} `{Upstream U} (junk : Z -> Z).

Definition set_reader (c : cpio) (k : header_reader) : cpio :=
  Cpio (Some k) (links_head c) (c_bytes_remaining c) (c_bytes_unconsumed c) (c_entry_offset c)
    (c_entry_padding c).
Definition set_offset (c : cpio) (o : Z) : cpio :=
  Cpio (read_header c) (links_head c) (c_bytes_remaining c) (c_bytes_unconsumed c) o (c_entry_padding c).
Definition set_remaining (c : cpio) (n : Z) : cpio :=
  Cpio (read_header c) (links_head c) n (c_bytes_unconsumed c) (c_entry_offset c) (c_entry_padding c).
Definition set_unconsumed (c : cpio) (n : Z) : cpio :=
  Cpio (read_header c) (links_head c) (c_bytes_remaining c) n (c_entry_offset c) (c_entry_padding c).
Definition set_padding (c : cpio) (n : Z) : cpio :=
  Cpio (read_header c) (links_head c) (c_bytes_remaining c) (c_bytes_unconsumed c) (c_entry_offset c) n.

Definition archive_read_format_cpio_bid (a : archive_read U) : option (Z * archive_read U) :=
  '(p, _, a) ← archive_read_ahead junk a 6;
  match p with
  | None => Some (-1, a)
  | Some p =>
      let choose k bid := Some (bid, set_cpio a (set_reader (r_cpio a) k)) in
      let s := take 6 p in
      be ← be2 p 0;
      le ← le2 p 0;
      if bool_decide (s = str "070707") then choose Header_odc 48
      else if bool_decide (s = str "070727") then choose Header_odc 48
      else if bool_decide (s = str "070701") then choose Header_newc 48
      else if bool_decide (s = str "070702") then choose Header_newc 48
      else if be =? 0x71C7 then choose Header_bin_be 16
      else if le =? 0x71C7 then choose Header_bin_le 16
      else Some (ARCHIVE_WARN, a)
  end.

(** If this is a symlink, read the link contents. *)
Definition read_symlink (a : archive_read U) (e : archive_entry)
  : option (bool * archive_read U * archive_entry) :=
  if archive_entry_filetype e =? AE_IFLNK then
    let n := c_bytes_remaining (r_cpio a) in
    if 1024 * 1024 <? n then Some (false, a, e)
    else
      '(hl, _, a) ← archive_read_ahead junk a (u64 n);
      match hl with
      | None => Some (false, a, e)
      | Some hl =>
          let e := archive_entry_copy_symlink_l e hl n in
          '(_, a) ← archive_read_consume a n;
          Some (true, set_cpio a (set_remaining (r_cpio a) 0), e)
      end
  else Some (true, a, e).

(** The header, the name and the target of a link: [archive_read_format_cpio_read_header]
    up to the comparison of the name with the trailer. *)
Definition read_name (a : archive_read U) (e : archive_entry) : option (naming U) :=
  k ← read_header (r_cpio a);
  x ← call_read_header junk k a e;
  let a := h_archive x in
  let e := h_entry x in
  let r := h_ret x in
  if r <? ARCHIVE_WARN then Some (Done r a e)
  else
    let n := namelength x + name_pad x in
    '(h, _, a) ← archive_read_ahead junk a n;
    match h with
    | None => Some (Done ARCHIVE_FATAL a e)
    | Some h =>
        let window := r_filter a in
        let e := archive_entry_copy_pathname_l e h (namelength x) in
        let a := set_cpio a (set_offset (r_cpio a) 0) in
        '(_, a) ← archive_read_consume a n;
        '(ok, a, e) ← read_symlink a e;
        if negb ok then Some (Done ARCHIVE_FATAL a e)
        else Some (Named (NamedEntry r (namelength x) window a e))
    end.

(** The bytes that are behind [h] by then: arbitrary ones, if the memory is not
    the window's any more.  The name is [lost] if they need not be its own. *)
Definition lost (x : named_entry U) : bool :=
  let now := hold (n_window x) (r_filter (n_archive x)) 11 in
  (n_length x =? 11) &&
  negb (bool_decide (is_Some now) && bool_decide (now = hold (n_window x) (n_window x) 11)).

Definition name_found (x : named_entry U) : bytes :=
  match hold (n_window x) (r_filter (n_archive x)) 11 with
  | Some b => b
  | None => map (fun i => junk (position (r_filter (n_archive x)) + Z.of_nat i)) (seq 0 11)
  end.

Definition is_trailer (x : named_entry U) : bool :=
  (n_length x =? 11) && bool_decide (name_found x = str "TRAILER!!!" ++ [0]).

Definition archive_read_format_cpio_read_header (a : archive_read U) (e : archive_entry)
  : option (Z * archive_read U * archive_entry) :=
  t ← read_name a e;
  match t with
  | Done r a e => Some (r, a, e)
  | Named x =>
      if is_trailer x then Some (ARCHIVE_EOF, n_archive x, n_entry x)
      else
        '(ok, c, e) ← record_hardlink (r_cpio (n_archive x)) (n_entry x);
        Some (if ok =? ARCHIVE_OK then n_ret x else ARCHIVE_FATAL, set_cpio (n_archive x) c, e)
  end.

(** A block of the body: the bytes and their offset. *)
Definition archive_read_format_cpio_read_data (a : archive_read U)
  : option (Z * bytes * Z * archive_read U) :=
  a ← (if negb (c_bytes_unconsumed (r_cpio a) =? 0) then
         '(_, a) ← archive_read_consume a (c_bytes_unconsumed (r_cpio a));
         Some (set_cpio a (set_unconsumed (r_cpio a) 0))
       else Some a);
  let c := r_cpio a in
  if 0 <? c_bytes_remaining c then
    '(b, bytes_read, a) ← archive_read_ahead junk a 1;
    if bytes_read <=? 0 then Some (ARCHIVE_FATAL, [], 0, a)
    else
      b ← b;
      let n := if c_bytes_remaining c <? bytes_read then c_bytes_remaining c else bytes_read in
      b ← mread b 0 n;
      Some (ARCHIVE_OK, b, c_entry_offset c,
        set_cpio a (Cpio (read_header c) (links_head c) (c_bytes_remaining c - n) n
                      (c_entry_offset c + n) (c_entry_padding c)))
  else
    '(x, a) ← archive_read_consume a (c_entry_padding c);
    if negb (c_entry_padding c =? x) then Some (ARCHIVE_FATAL, [], 0, a)
    else Some (ARCHIVE_EOF, [], c_entry_offset c, set_cpio a (set_padding (r_cpio a) 0)).

Definition archive_read_format_cpio_skip (a : archive_read U) : option (Z * archive_read U) :=
  let c := r_cpio a in
  let to_skip := c_bytes_remaining c + c_entry_padding c + c_bytes_unconsumed c in
  '(x, a) ← archive_read_consume a to_skip;
  if negb (to_skip =? x) then Some (ARCHIVE_FATAL, a)
  else Some (ARCHIVE_OK,
    set_cpio a (Cpio (read_header c) (links_head c) 0 0 (c_entry_offset c) 0)).

(** ** The archive *)

Definition check_magic (a : archive_read U) (states : Z) : bool :=
  negb (Z.land (r_state a) states =? 0).

(** [archive_read_open1] with the one registered format, after the filters. *)
Definition archive_read_open1 (f : archive_read_filter U) : option (Z * archive_read U) :=
  let a := Reader ARCHIVE_STATE_NEW false f cpio_new in
  '(bid, a) ← archive_read_format_cpio_bid a;
  if bid <? 1 then Some (ARCHIVE_FATAL, set_rstate a ARCHIVE_STATE_FATAL)
  else Some (ARCHIVE_OK, set_rstate a ARCHIVE_STATE_HEADER).

Definition archive_read_data_skip (a : archive_read U) : option (Z * archive_read U) :=
  if negb (check_magic a ARCHIVE_STATE_DATA) then
    Some (ARCHIVE_FATAL, set_rstate a ARCHIVE_STATE_FATAL)
  else
    '(r, a) ← archive_read_format_cpio_skip a;
    let r := if r =? ARCHIVE_EOF then ARCHIVE_OK else r in
    Some (r, set_rstate a ARCHIVE_STATE_HEADER).

(** The state after the header of an entry was read with result [r2]. *)
Definition header_state (r2 old : Z) : Z :=
  if r2 =? ARCHIVE_EOF then ARCHIVE_STATE_EOF
  else if (r2 =? ARCHIVE_OK) || (r2 =? ARCHIVE_WARN) then ARCHIVE_STATE_DATA
  else if r2 =? ARCHIVE_FATAL then ARCHIVE_STATE_FATAL
  else old.

(** The entry of the archive is passed in: a call in a wrong state leaves it as
    it is. *)
Definition archive_read_next_header (a : archive_read U) (e : archive_entry)
  : option (Z * archive_read U * archive_entry) :=
  if negb (check_magic a (Z.lor ARCHIVE_STATE_HEADER ARCHIVE_STATE_DATA)) then
    Some (ARCHIVE_FATAL, set_rstate a ARCHIVE_STATE_FATAL, e)
  else
    let e := archive_entry_clear e in
    '(r1, a) ← (if r_state a =? ARCHIVE_STATE_DATA then archive_read_data_skip a
                else Some (ARCHIVE_OK, a));
    if (r1 =? ARCHIVE_EOF) || (r1 =? ARCHIVE_FATAL) then
      Some (ARCHIVE_FATAL, set_rstate a ARCHIVE_STATE_FATAL, e)
    else
      '(r2, a, e) ← archive_read_format_cpio_read_header a e;
      Some (if (r2 <? r1) || (r2 =? ARCHIVE_EOF) then r2 else r1,
            set_rstate a (header_state r2 (r_state a)), e).

Definition archive_read_data_block (a : archive_read U)
  : option (Z * bytes * Z * archive_read U) :=
  if negb (check_magic a ARCHIVE_STATE_DATA) then
    Some (ARCHIVE_FATAL, [], 0, set_rstate a ARCHIVE_STATE_FATAL)
  else archive_read_format_cpio_read_data a.

End Format.
