(* ===== verification/Cpioarchive.v ===== *)
(** SVR4 cpio archives written and read back: the writer of Newc.v and the
    reader of Cpioread.v agree on the bytes in between.

    A client of the reader opens the archive, and takes the header and the
    blocks of the body of each entry until the end is reported. *)
From S2P Require Import Prelude Stdio Readahead Window Archiveentry Archivewrite Newc Cpioread.

(** ** A client of the reader *)

Section Client.
Context {U : Type} `{Upstream U} (junk : Z -> Z).

(** The blocks of a body, which must follow each other from offset [pos]. *)
Fixpoint read_body (fuel : nat) (a : archive_read U) (pos : Z)
  : option (bool * bytes * archive_read U) :=
  match fuel with
  | O => None
  | S fuel =>
      '(r, b, offset, a) ← archive_read_data_block junk a;
      if r =? ARCHIVE_EOF then Some (offset =? pos, [], a)
      else if negb ((r =? ARCHIVE_OK) && (offset =? pos)) then Some (false, [], a)
      else
        '(ok, bs, a) ← read_body fuel a (pos + blen b);
        Some (ok, b ++ bs, a)
  end.

(** All entries with their bodies, up to the first result that is not OK. *)
Fixpoint read_entries (fuel : nat) (a : archive_read U) (e : archive_entry)
  : option (Z * list (archive_entry * bytes)) :=
  match fuel with
  | O => None
  | S fuel =>
      '(r, a, e) ← archive_read_next_header junk a e;
      if negb (r =? ARCHIVE_OK) then Some (r, [])
      else
        '(ok, b, a) ← read_body (length (stream (r_filter a)) + 2) a 0;
        if negb ok then Some (ARCHIVE_FAILED, [])
        else
          '(r, l) ← read_entries fuel a e;
          Some (r, (e, b) :: l)
  end.

Definition read_archive (f : archive_read_filter U) : option (Z * list (archive_entry * bytes)) :=
  '(r, a) ← archive_read_open1 junk f;
  if r =? ARCHIVE_OK then read_entries (length (stream f) + 1) a archive_entry_new
  else Some (r, []).

End Client.

(** The entry the reader makes of a stored one: device numbers in two parts,
    the length of the target as the size of a link. *)
Definition decoded (e : archive_entry) (body : bytes) : archive_entry :=
  Entry (archive_entry_pathname e) (archive_entry_symlink e) None (archive_entry_mode e)
    (blen (content e body)) true (archive_entry_ino64 e) (archive_entry_nlink e)
    (archive_entry_uid e) (archive_entry_gid e) (archive_entry_mtime e)
    (Device true 0 (archive_entry_devmajor e) (archive_entry_devminor e))
    (Device true 0 (if is_device e then archive_entry_rdevmajor e else 0)
                   (if is_device e then archive_entry_rdevminor e else 0)).

(** The entries whose name is compared with the trailer after more of the
    archive has been read. *)
Definition ten_byte_link (e : archive_entry) (path : bytes) : Prop :=
  archive_entry_filetype e = AE_IFLNK /\ blen path = 10.

Definition sample : list item :=
  let base := archive_entry_set_nlink archive_entry_new 1 in
  let dir := archive_entry_set_size (archive_entry_set_mode
               (archive_entry_set_pathname base (Some (str "sbin"))) 0x41ED) 4096 in
  let file := archive_entry_set_size (archive_entry_set_mode
               (archive_entry_set_pathname base (Some (str "init.rc"))) 0x81E8) 12 in
  let link := archive_entry_set_symlink (archive_entry_set_size (archive_entry_set_mode
               (archive_entry_set_pathname base (Some (str "charger"))) 0xA1FF) 13)
               (Some (str "/sbin/healthd")) in
  [(dir, str "sbin", []); (file, str "init.rc", [str "hello, "; str "world"]);
   (link, str "charger", [])].

Example read_back :
  (let a := archive_write_open_memory (fun _ => 7) (zeros 1000) newc_new in
   '(ok, a) ← write_items a sample;
   let out := received (client (f_data (filter_first a))) in
   r ← read_archive (fun _ => 9) (new_filter (archive_read_open_memory2 out 7));
   Some (ok, r))
  = Some (true, (ARCHIVE_EOF, map (fun '(e, _, ds) => (decoded e (concat ds), concat ds)) sample)).
Proof. vm_compute. reflexivity. Qed.

(** ** Fields of a header *)

Lemma nth_hex_digit d : 0 <= d < 16 -> hex_digit (nth (Z.to_nat d) hex_chars 0) = Some d.
Proof.
  intros Hd. assert (Hall : forallb (fun i => bool_decide (hex_digit (nth i hex_chars 0) = Some (Z.of_nat i))) (seq 0 16) = true)
    by (vm_compute; reflexivity).
  rewrite forallb_forall in Hall. specialize (Hall (Z.to_nat d)).
  rewrite Z2Nat.id in Hall by lia. apply bool_decide_eq_true in Hall; [done|].
  apply in_seq. lia.
Qed.

Lemma atol_hex n v l : 0 <= v -> 0 <= l -> (l + 1) * 16 ^ Z.of_nat n <= 2 ^ 63 ->
  atol_loop hex_digit 4 (hex n v) l = l * 16 ^ Z.of_nat n + v mod 16 ^ Z.of_nat n.
Proof.
  intros Hv. revert l. induction n as [|n IH]; intros l Hl Hb.
  - cbn. rewrite Z.mod_1_r. lia.
  - rewrite hex_S by done. cbn [atol_loop]. 
    set (d := (v / 16 ^ Z.of_nat n) mod 16). assert (0 <= d < 16) as Hd by (apply Z.mod_pos_bound; lia).
    rewrite nth_hex_digit by done. rewrite Nat2Z.inj_succ, Z.pow_succ_r in * by lia.
    assert (0 < 16 ^ Z.of_nat n) as Hp by (apply Z.pow_pos_nonneg; lia).
    assert (s64 (Z.lor (Z.shiftl l 4) d) = l * 16 + d) as ->.
    { rewrite Z.lor_comm, <- (lor_add d l 4) by lia. change (2 ^ 4) with 16.
      unfold s64. rewrite u64_small by (unfold is_u64; nia).
      destruct (Z.ltb_spec (d + 16 * l) (2 ^ 63)); [lia|nia]. }
    rewrite IH by nia. unfold d.
    assert (v mod (16 * 16 ^ Z.of_nat n) = v mod 16 ^ Z.of_nat n + 16 ^ Z.of_nat n * ((v / 16 ^ Z.of_nat n) mod 16)) as ->.
    { rewrite Z.mul_comm. apply Z.rem_mul_r; lia. }
    lia.
Qed.

Lemma atol_hex8 v : fits v -> atol_loop hex_digit 4 (hex 8 v) 0 = v.
Proof. intros Hv. rewrite atol_hex by (try apply Hv; done). apply Z.mod_small, Hv. Qed.

Lemma hex_is_hex n v : 0 <= v -> forallb Stdio.is_hex (hex n v) = true.
Proof.
  intros Hv. induction n as [|n IH]; [done|]. rewrite hex_S by done. cbn [forallb]. rewrite IH, andb_true_r.
  unfold Stdio.is_hex. apply bool_decide_eq_true. rewrite nth_hex_digit; [by eexists|].
  apply Z.mod_pos_bound. lia.
Qed.

(** A field of the bytes a header begins with. *)
Lemma mread_field (fs : list bytes) i (d t : bytes) off n :
  fs !! i = Some d -> off = blen (concat (take i fs)) -> n = blen d ->
  mread (concat fs ++ t) off n = Some d.
Proof.
  intros Hi -> ->.
  assert (concat fs = concat (take i fs) ++ d ++ concat (drop (S i) fs)) as E.
  { rewrite <- (take_drop_middle fs i d Hi) at 1. by rewrite List.concat_app. }
  rewrite E, <- !app_assoc. apply mread_app.
Qed.

Lemma atol16_field e m n t i off v :
  header_fields e m n !! i = Some (hex 8 v) ->
  off = blen (concat (take i (header_fields e m n))) -> fits v ->
  atol16 (concat (header_fields e m n) ++ t) off 8 = Some v.
Proof.
  intros Hi Ho Hv. unfold atol16. rewrite (mread_field _ i (hex 8 v)); [|done|done|].
  - cbn [mbind option_bind]. by rewrite atol_hex8.
  - unfold blen. by rewrite length_hex.
Qed.

(** Reading the fields of a stored header. *)
Ltac field i o :=
  rewrite (atol16_field _ _ _ _ i o _ eq_refl); [cbn [mbind option_bind]
    |unfold header_fields; field_length|try done].

Lemma parse_newc_ok e m n t : fields_fit e -> fits m -> fits n ->
  parse_newc (concat (header_fields e m n) ++ t) archive_entry_new =
  Some (Entry None None None (archive_entry_mode e) m true (archive_entry_ino64 e)
    (archive_entry_nlink e) (archive_entry_uid e) (archive_entry_gid e) (archive_entry_mtime e)
    (Device true 0 (archive_entry_devmajor e) (archive_entry_devminor e))
    (Device true 0 (if is_device e then archive_entry_rdevmajor e else 0)
                   (if is_device e then archive_entry_rdevminor e else 0)), n, m).
Proof.
  intros (? & ? & ? & ? & ? & ? & ? & ? & ? & ?) ? ?. unfold parse_newc.
  field 8%nat 62. field 9%nat 70. field 1%nat 6. field 2%nat 14. field 3%nat 22. field 4%nat 30.
  field 5%nat 38. field 10%nat 78; [|by destruct (is_device e)].
  field 11%nat 86; [|by destruct (is_device e)]. field 6%nat 46. field 12%nat 94. field 7%nat 54.
  unfold archive_entry_set_mode, archive_entry_set_nlink. by rewrite !u32_small.
Qed.

Lemma newc_at_ok e m n t : fields_fit e -> 0 <= m -> 0 <= n ->
  newc_at (concat (header_fields e m n) ++ t) 0 = Some true.
Proof.
  intros (? & ? & ? & ? & ? & ? & ? & ? & ? & ?) ? ?.
  assert (forallb Stdio.is_hex (concat (header_fields e m n)) = true) as Hall.
  { unfold header_fields. cbn [concat]. unfold fits in *.
    rewrite !forallb_app, !hex_is_hex by (try destruct (is_device e); lia). reflexivity. }
  unfold newc_at, is_hex, all_chars.
  assert (mread (concat (header_fields e m n) ++ t) 0 newc_header_size = Some (concat (header_fields e m n))) as ->.
  { change newc_header_size with c_header_size. rewrite <- (blen_newc_header e m n).
    apply (mread_app [] _ t). }
  cbn [mbind option_bind]. rewrite Hall.
  unfold matches, byte_of, header_fields. cbn [concat].
  change (hex 6 460545) with (str "07070" ++ [49]). rewrite <- !app_assoc.
  match goal with |- context [str "07070" ++ [49] ++ ?T] => set (tl := T) end.
  assert (mread (str "07070" ++ [49] ++ tl) 0 (blen (str "07070")) = Some (str "07070")) as ->
    by exact (mread_app [] (str "07070") ([49] ++ tl)).
  assert (mread (str "07070" ++ [49] ++ tl) (0 + 5) 1 = Some [49]) as ->
    by exact (mread_app (str "07070") [49] tl).
  reflexivity.
Qed.

(** ** Reading from a stream *)

Section Reading.
Context {U : Type} `{UpstreamLaws U} (junk : Z -> Z) (steady : bool).
Implicit Types a : archive_read U.

(** An archive whose filter stands for [s] and reports no error; a [steady] one
    has everything in memory that stays. *)
Definition reads a (s : bytes) : Prop :=
  valid (r_filter a) /\ fatal (r_filter a) = false /\ clean (data (r_filter a)) /\
  stream (r_filter a) = s /\ (steady = true -> settled (r_filter a)).

(** The same, up to the first look-ahead. *)
Definition unread_yet a (s : bytes) : Prop :=
  valid (r_filter a) /\ fatal (r_filter a) = false /\ clean (data (r_filter a)) /\
  stream (r_filter a) = s /\ (steady = true -> in_memory (r_filter a)).

(** Only the filter differs. *)
Definition same a a' : Prop := set_filter a' (r_filter a) = a.

Lemma same_fields a a' : same a a' ->
  r_state a' = r_state a /\ r_cpio a' = r_cpio a /\ afio_large a' = afio_large a.
Proof. unfold same, set_filter. intros <-. by destruct a'. Qed.

Lemma same_intro a a' :
  r_state a' = r_state a -> r_cpio a' = r_cpio a -> afio_large a' = afio_large a -> same a a'.
Proof. unfold same, set_filter. destruct a, a'. cbn. by intros -> -> ->. Qed.

Lemma same_archive_trans a b c : same a b -> same b c -> same a c.
Proof.
  intros (E1 & E2 & E3)%same_fields (F1 & F2 & F3)%same_fields. apply same_intro; congruence.
Qed.

Lemma same_cpio a b c : same a b -> same (set_cpio a c) (set_cpio b c).
Proof. intros (E1 & E2 & E3)%same_fields. by apply same_intro. Qed.

Lemma ahead_reads a s n : reads a s -> 0 <= n < 2 ^ 62 ->
  exists o x a', archive_read_ahead junk a n = Some (o, x, a') /\ reads a' s /\ same a a' /\
  match o with
  | Some w => n <= blen w /\ x = blen w /\ exists t, s = w ++ t
  | None => n = 0 \/ x < n /\ blen s < n
  end.
Proof.
  intros Hr Hn. destruct Hr as (Hv & Hf & Hc & Hs & Hw). unfold archive_read_ahead.
  destruct (ahead_ok junk (r_filter a) n Hv Hf ltac:(lia)) as ([[o x] f] & He & Hv' & _ & Hc' & Hpost).
  assert (steady = true -> settled f) as Hst by (intros Hx; by eapply ahead_settled, He; [done|lia|apply Hw]).
  rewrite He. cbn [mbind option_bind fst snd]. exists o, x, (set_filter a f). split; [done|].
  specialize (Hc' Hc). rewrite Hs in Hpost.
  assert (same a (set_filter a f)) as Hsame by by destruct a.
  destruct o as [w|].
  - destruct Hpost as (-> & Hl & Ht & Hs' & Hf'). split; [|done]. split_and!; cbn; [done|congruence..|done].
  - destruct Hpost as [(_ & _ & Hx)|(Hf' & Hs' & Hor)]; [specialize (Hx Hc); lia|].
    split; [split_and!; cbn; [done|congruence..|done]|]. split; [done|]. destruct Hor as [?|[? ?]]; [by left|right]. lia.
Qed.

(** The first look-ahead. *)
Lemma ahead_first a s n : unread_yet a s -> 0 < n < 2 ^ 62 -> n <= blen s ->
  exists w a', archive_read_ahead junk a n = Some (Some w, blen w, a') /\ reads a' s /\ same a a' /\
  n <= blen w /\ exists t, s = w ++ t.
Proof.
  intros (Hv & Hf & Hc & Hs & Hw) Hn Hl. unfold archive_read_ahead.
  destruct (ahead_ok junk (r_filter a) n Hv Hf ltac:(lia)) as ([[o x] f] & He & Hv' & _ & Hc' & Hpost).
  assert (steady = true -> settled f) as Hst by (intros Hx; by eapply ahead_whole, He; [| |lia|apply Hw]).
  specialize (Hc' Hc). rewrite Hs in Hpost. destruct o as [w|]; last first.
  { destruct Hpost as [(_ & _ & Hx)|(_ & _ & [?|?])]; [specialize (Hx Hc); lia|lia..]. }
  destruct Hpost as (-> & Hlw & Ht & Hs' & Hf'). rewrite He. exists w, (set_filter a f).
  split; [done|]. split; [split_and!; cbn; [done|congruence..|done]|]. split; [by destruct a|done].
Qed.

(** Looking at no more than there is. *)
Lemma ahead_some a s n : reads a s -> 0 < n < 2 ^ 62 -> n <= blen s ->
  exists w a', archive_read_ahead junk a n = Some (Some w, blen w, a') /\ reads a' s /\ same a a' /\
  n <= blen w /\ exists t, s = w ++ t.
Proof.
  intros Hr Hn Hl. destruct (ahead_reads a s n Hr ltac:(lia)) as (o & x & a' & -> & Hr' & Hsame & Ho).
  destruct o as [w|]; [|lia]. destruct Ho as (Hw & -> & Ht). by exists w, a'.
Qed.

Lemma consume_reads a s n : reads a s -> 0 <= n <= blen s ->
  exists a', archive_read_consume a n = Some (n, a') /\ reads a' (drop (Z.to_nat n) s) /\ same a a'.
Proof.
  intros (Hv & Hf & Hc & Hs & Hw) Hn. unfold archive_read_consume.
  destruct (consume_ok (r_filter a) n Hv Hf ltac:(lia)) as ([x f] & He & Hv' & Hc' & Hpost).
  assert (steady = true -> settled f) as Hst by (intros Hx; by eapply consume_settled, He; [|apply Hw]).
  rewrite He. cbn [mbind option_bind fst snd]. exists (set_filter a f). rewrite Hs in Hpost.
  destruct Hpost as [(-> & _ & Hs' & _ & Hf')|(-> & [[_ Hx]|(_ & Hl & _)])]; [|done|lia].
  split; [done|]. split; [|by destruct a]. split_and!; cbn; [done|congruence|by apply Hc'|done|done].
Qed.

(** Consuming the first of two parts. *)
Lemma consume_app a d s n : reads a (d ++ s) -> n = blen d ->
  exists a', archive_read_consume a n = Some (n, a') /\ reads a' s /\ same a a'.
Proof.
  intros Hr ->. destruct (consume_reads a _ (blen d) Hr) as (a' & He & Hr' & Hs).
  { rewrite blen_app. pose proof (blen_nonneg d). pose proof (blen_nonneg s). lia. }
  exists a'. split; [done|]. split; [|done]. unfold blen in Hr'. by rewrite Nat2Z.id, drop_app_length in Hr'.
Qed.

Lemma reads_set a c s : reads a s <-> reads (set_cpio a c) s.
Proof. done. Qed.

(** Two prefixes of the same bytes: the longer one starts with the shorter. *)
Lemma prefix_split (d w s t : bytes) : d ++ s = w ++ t -> blen d <= blen w -> exists k, w = d ++ k.
Proof.
  intros He Hl. exists (drop (length d) w).
  rewrite <- (take_drop (length d) w) at 1. f_equal.
  assert (take (length d) (d ++ s) = take (length d) (w ++ t)) as E by by rewrite He.
  rewrite take_app_length in E. rewrite take_app_le in E by (unfold blen in Hl; lia). done.
Qed.

Lemma find_newc_ok a e m n s : fields_fit e -> fits m -> fits n ->
  reads a (concat (header_fields e m n) ++ s) ->
  exists a', find_newc_header junk a = Some (ARCHIVE_OK, a') /\
  reads a' (concat (header_fields e m n) ++ s) /\ same a a'.
Proof.
  intros He Hm Hn Hr. unfold find_newc_header.
  replace (_ + 2)%nat with (S (length (buffer (r_filter a)) + length (rest (data (r_filter a)))
    + Z.to_nat (client_avail (r_filter a)) + 1)) by lia.
  cbn [find_newc_loop].
  destruct (ahead_some a _ newc_header_size Hr) as (w & a1 & -> & Hr1 & Hs1 & Hw & t & Ht); [done| |].
  { rewrite blen_app, blen_newc_header. pose proof (blen_nonneg s). unfold newc_header_size, c_header_size. lia. }
  cbn [mbind option_bind].
  destruct (prefix_split _ _ _ _ Ht) as (k & ->); [by rewrite blen_newc_header|].
  rewrite newc_at_ok by (unfold fits in *; (done || lia)). cbn [mbind option_bind]. by exists a1.
Qed.

(** The cpio data after a header with a body of [m] bytes. *)
Definition after_header (c : cpio) (m : Z) : cpio := set_body c m (Z.land 3 (- m)).

Lemma header_newc_ok a e m n s : fields_fit e -> fits m -> fits n ->
  reads a (concat (header_fields e m n) ++ s) ->
  exists e' a', header_newc junk a archive_entry_new =
    Some (HeaderResult ARCHIVE_OK n (Z.land (2 - n) 3) e' a') /\
  parse_newc (concat (header_fields e m n)) archive_entry_new = Some (e', n, m) /\
  reads a' s /\ same (set_cpio a (after_header (r_cpio a) m)) a'.
Proof.
  intros He Hm Hn Hr. unfold header_newc.
  destruct (find_newc_ok a e m n s He Hm Hn Hr) as (a1 & -> & Hr1 & Hs1). cbn [mbind option_bind].
  change (ARCHIVE_OK <? ARCHIVE_WARN) with false. cbn iota.
  destruct (ahead_some a1 _ newc_header_size Hr1) as (w & a2 & -> & Hr2 & Hs2 & Hw & t & Ht); [done| |].
  { rewrite blen_app, blen_newc_header. pose proof (blen_nonneg s). unfold newc_header_size, c_header_size. lia. }
  cbn [mbind option_bind].
  destruct (prefix_split _ _ _ _ Ht) as (k & ->); [by rewrite blen_newc_header|].
  rewrite parse_newc_ok by done. cbn [mbind option_bind].
  pose proof (parse_newc_ok e m n [] He Hm Hn) as Hp. rewrite app_nil_r in Hp.
  assert (0 <= Z.land (2 - n) 3 < 4) as Hpad.
  { rewrite (Z.land_ones _ 2) by lia. by apply Z.mod_pos_bound. }
  destruct (Z.ltb_spec (2 ^ 64 - 1 - n) (Z.land (2 - n) 3)) as [Hbad|_]; [unfold fits in Hn; lia|].
  set (a3 := set_cpio a2 (set_body (r_cpio a2) m (Z.land 3 (- m)))).
  destruct (consume_app a3 _ s newc_header_size Hr2) as (a4 & -> & Hr4 & Hs4); [by rewrite blen_newc_header|].
  cbn [mbind option_bind]. do 2 eexists. split; [done|]. split; [exact Hp|]. split; [done|].
  eapply same_archive_trans, Hs4. unfold a3, after_header.
  assert (same a a2) as Hs by by eapply same_archive_trans. destruct (same_fields _ _ Hs) as (_ & -> & _).
  by apply same_cpio.
Qed.

Lemma name_pad_ok n : Z.land (2 - n) 3 = PAD4 (n + c_header_size).
Proof.
  rewrite PAD4_spec. rewrite (Z.land_ones _ 2) by lia. unfold c_header_size.
  replace (2 - n) with (- (n + 110) + 28 * 4) by lia. by apply Z.mod_add.
Qed.

(** The name of an entry, with its padding. *)
Definition name_bytes (path : bytes) : bytes :=
  path ++ [0] ++ zeros (PAD4 (blen path + 1 + c_header_size)).

Lemma blen_name path : blen (name_bytes path) = blen path + 1 + Z.land (2 - (blen path + 1)) 3.
Proof.
  pose proof (PAD4_range (blen path + 1 + c_header_size)). unfold name_bytes.
  rewrite !blen_app, blen_zeros, name_pad_ok by lia. change (blen [0]) with 1. lia.
Qed.

Lemma take_name path k : take (Z.to_nat (blen path + 1)) (name_bytes path ++ k) = path ++ [0].
Proof.
  unfold name_bytes. rewrite !app_assoc, <- app_assoc.
  apply take_app_length'. rewrite length_app. unfold blen. cbn [length]. lia.
Qed.

(** Reading the name after the header.  Its bytes are still there in a filter
    that has not changed, or not moved its copy buffer and is [steady]. *)
Definition kept_by (f g : archive_read_filter U) : Prop := f = g \/ steady = true /\ buffer f = buffer g.

Lemma read_name_ok a path s : reads a (name_bytes path ++ s) -> blen path < 2 ^ 32 ->
  exists h a1, archive_read_ahead junk a (blen (name_bytes path)) = Some (Some h, blen h, a1) /\
  same a a1 /\ take (Z.to_nat (blen path + 1)) h = path ++ [0] /\
  (forall c, exists a2, archive_read_consume (set_cpio a1 c) (blen (name_bytes path))
     = Some (blen (name_bytes path), a2) /\ reads a2 s /\ same (set_cpio a c) a2 /\
     forall f, kept_by f (r_filter a2) -> hold (r_filter a1) f (blen path + 1) = Some (path ++ [0])).
Proof.
  intros Hr Hl. pose proof (blen_name path) as Hbn. pose proof (blen_nonneg path).
  assert (0 <= Z.land (2 - (blen path + 1)) 3 < 4) as Hpad
    by (rewrite name_pad_ok; apply PAD4_range).
  destruct (ahead_some a _ (blen (name_bytes path)) Hr) as (h & a1 & Ha & Hr1 & Hs1 & Hh & t & Ht); [lia| |].
  { rewrite blen_app. pose proof (blen_nonneg s). lia. }
  exists h, a1. split; [exact Ha|]. split; [done|].
  destruct (prefix_split _ _ _ _ Ht Hh) as (k & ->). split; [apply take_name|].
  intros c. destruct (consume_app (set_cpio a1 c) _ s _ Hr1 eq_refl) as (a2 & Hcons & Hr2 & Hs2).
  exists a2. split; [exact Hcons|]. split; [done|]. split; [eapply same_archive_trans, Hs2; by apply same_cpio|].
  intros f Hk. rewrite <- (take_name path k). unfold archive_read_ahead in Ha.
  destruct (archive_read_filter_ahead junk (r_filter a) _) as [[[o x] g]|] eqn:Eg; [|done].
  cbn [mbind option_bind fst snd] in Ha. injection Ha as -> -> <-. cbn [r_filter set_filter] in *.
  unfold archive_read_consume in Hcons. cbn [r_filter set_filter set_cpio] in Hcons.
  destruct (archive_read_filter_consume g _) as [[y g2]|] eqn:Eg2; [|done].
  cbn [mbind option_bind fst snd] in Hcons. injection Hcons as -> <-. cbn [r_filter set_filter set_cpio] in Hk.
  assert (blen path + 1 <= blen (name_bytes path ++ k)) as Hle by lia.
  destruct Hr as (Hv & Hf & _). destruct Hk as [->|[Hst Hbuf]].
  - eapply hold_consumed; [exact Hv|exact Hf| |exact Eg| |exact Eg2|]; lia.
  - eapply hold_kept; [exact Eg| |left; apply Hr1, Hst|lia]. by rewrite Hbuf, (consume_buffer _ _ _ _ Eg2).
Qed.

Lemma archive_consume_buffer a n x a' : archive_read_consume a n = Some (x, a') ->
  buffer (r_filter a') = buffer (r_filter a).
Proof.
  unfold archive_read_consume. destruct (archive_read_filter_consume (r_filter a) n) as [[y f]|] eqn:E; [|done].
  intros He. injection He as _ <-. by apply consume_buffer in E.
Qed.

Lemma archive_ahead_buffer a s w n x a' : reads a s -> steady = true ->
  archive_read_ahead junk a n = Some (Some w, x, a') -> 0 <= n -> buffer (r_filter a') = buffer (r_filter a).
Proof.
  intros (Hv & _ & _ & _ & Hst) Hs. unfold archive_read_ahead.
  destruct (archive_read_filter_ahead junk (r_filter a) n) as [[[o y] f]|] eqn:E; [|done].
  intros He Hn. injection He as -> _ <-. eapply ahead_buffered in E as [_ E]; [by apply E|done..|by apply Hst].
Qed.

(** The target of a symbolic link. *)
Lemma read_symlink_ok a e p s : reads a (p ++ s) -> archive_entry_filetype e = AE_IFLNK ->
  c_bytes_remaining (r_cpio a) = blen p -> p <> [] -> ~ In 0 p -> blen p <= 1024 * 1024 ->
  exists a', read_symlink junk a e = Some (true, a', archive_entry_set_symlink e (Some p)) /\
  reads a' s /\ same (set_cpio a (set_remaining (r_cpio a) 0)) a' /\
  (steady = true -> kept_by (r_filter a') (r_filter a)).
Proof.
  intros Hr He Hc Hp Hnul Hl. unfold read_symlink. rewrite He, Z.eqb_refl, Hc.
  assert (0 < blen p) as Hpos by (destruct p; [done|]; rewrite blen_cons; pose proof (blen_nonneg p); lia).
  destruct (Z.ltb_spec (1024 * 1024) (blen p)); [lia|].
  rewrite u64_small by (unfold is_u64; lia).
  destruct (ahead_some a _ (blen p) Hr) as (h & a1 & Ha & Hr1 & Hs1 & Hh & t & Ht); [lia| |].
  { rewrite blen_app. pose proof (blen_nonneg s). lia. }
  rewrite Ha. cbn [mbind option_bind]. destruct (prefix_split _ _ _ _ Ht Hh) as (k & ->).
  destruct (consume_app a1 _ s _ Hr1 eq_refl) as (a2 & Hcons & Hr2 & Hs2). rewrite Hcons. cbn [mbind option_bind].
  exists (set_cpio a2 (set_remaining (r_cpio a2) 0)). split; [|split; [done|split]].
  - unfold archive_entry_copy_symlink_l. unfold blen. rewrite Nat2Z.id, take_app_length.
    by rewrite before_nul_all.
  - assert (same a a2) as Hs by by eapply same_archive_trans. destruct (same_fields _ _ Hs) as (_ & -> & _).
    by apply same_cpio.
  - intros Hst. right. split; [done|]. cbn [r_filter set_cpio].
    by rewrite (archive_consume_buffer _ _ _ _ Hcons), (archive_ahead_buffer _ _ _ _ _ _ Hr Hst Ha) by lia.
Qed.

(** The name of an entry is compared as it was read. *)
Definition recognised (e : archive_entry) (path : bytes) : Prop :=
  steady = true \/ ~ ten_byte_link e path.

(** The entry with its name, before the target is read. *)
Definition named (e : archive_entry) (path : bytes) (m : Z) : archive_entry :=
  Entry (Some path) None None (archive_entry_mode e) m true (archive_entry_ino64 e)
    (archive_entry_nlink e) (archive_entry_uid e) (archive_entry_gid e) (archive_entry_mtime e)
    (Device true 0 (archive_entry_devmajor e) (archive_entry_devminor e))
    (Device true 0 (if is_device e then archive_entry_rdevmajor e else 0)
                   (if is_device e then archive_entry_rdevminor e else 0)).

(** Everything up to the target: what remains of the operation. *)
Lemma read_header_start a e path m s :
  read_header (r_cpio a) = Some Header_newc -> fields_fit e -> fits m -> blen path < 2 ^ 31 - 1 ->
  ~ In 0 path -> reads a (concat (header_fields e m (blen path + 1)) ++ name_bytes path ++ s) ->
  exists window a1, reads a1 s /\ same (set_cpio a (set_offset (after_header (r_cpio a) m) 0)) a1 /\
  (forall f, kept_by f (r_filter a1) -> hold window f (blen path + 1) = Some (path ++ [0])) /\
  read_name junk a archive_entry_new =
    '(ok, a, e) ← read_symlink junk a1 (named e path m);
    if negb ok then Some (Done ARCHIVE_FATAL a e)
    else Some (Named (NamedEntry ARCHIVE_OK (blen path + 1) window a e)).
Proof.
  intros Hk He Hm Hl Hnul Hr. pose proof (blen_nonneg path). unfold read_name.
  rewrite Hk. cbn [mbind option_bind call_read_header].
  destruct (header_newc_ok a e m (blen path + 1) _ He Hm ltac:(unfold fits; lia) Hr)
    as (e1 & a1 & -> & Hp & Hr1 & Hs1).
  pose proof (parse_newc_ok e m (blen path + 1) [] He Hm ltac:(unfold fits; lia)) as Hp'.
  rewrite app_nil_r, Hp in Hp'. injection Hp' as ->.
  cbn [mbind option_bind h_ret h_archive h_entry namelength name_pad].
  change (ARCHIVE_OK <? ARCHIVE_WARN) with false. cbn iota.
  rewrite <- blen_name.
  destruct (read_name_ok a1 path s Hr1 ltac:(lia)) as (h & a2 & -> & Hs2 & Hh & Hcons).
  cbn [mbind option_bind].
  destruct (Hcons (set_offset (r_cpio a2) 0)) as (a3 & -> & Hr3 & Hs3 & Hkeep). cbn [mbind option_bind].
  exists (r_filter a2), a3. split; [done|]. split; [|split; [exact Hkeep|]].
  - assert (same (set_cpio a (after_header (r_cpio a) m)) a2) as Hs by by eapply same_archive_trans.
    destruct (same_fields _ _ Hs) as (_ & E & _). rewrite E in Hs3.
    eapply same_archive_trans, Hs3. apply (same_cpio _ _ _ Hs1).
  - unfold archive_entry_copy_pathname_l. rewrite Hh, before_nul_app by done. reflexivity.
Qed.

(** What the archive holds of an entry once its header is read. *)
Definition rest_bytes (e : archive_entry) (body : bytes) : bytes :=
  (if archive_entry_filetype e =? AE_IFLNK then [] else body) ++
  zeros (PAD4 (blen (content e body))).

Definition entry_cpio (c : cpio) (e : archive_entry) (body : bytes) : cpio :=
  Cpio (read_header c) (links_head c) (if archive_entry_filetype e =? AE_IFLNK then 0 else blen body)
    (c_bytes_unconsumed c) 0 (PAD4 (blen (content e body))).

Lemma PAD4_opp n : Z.land 3 (- n) = PAD4 n.
Proof. unfold PAD4. f_equal. unfold Z.lnot. lia. Qed.

Lemma storable_content e path body : storable e path body ->
  if archive_entry_filetype e =? AE_IFLNK
  then body = [] /\ archive_entry_symlink e = Some (content e body) /\ content e body <> [] /\
       ~ In 0 (content e body) /\ blen (content e body) <= 1024 * 1024
  else content e body = body /\ archive_entry_symlink e = None.
Proof.
  intros Hs. destruct (storable_size e path body Hs) as (_ & _ & _ & _ & _ & Hother).
  destruct Hs as [_ _ _ _ _ Hl _ _]. unfold content, link_target in *.
  destruct (Z.eqb_spec (archive_entry_filetype e) AE_IFLNK) as [E|E].
  - destruct Hl as (p & -> & Hp & H0' & Hlen). rewrite E in Hother. destruct p; [done|].
    split; [by apply Hother|]. by split_and!.
  - by rewrite Hl.
Qed.

Lemma named_filetype e path m : archive_entry_filetype (named e path m) = archive_entry_filetype e.
Proof. done. Qed.

Lemma record_hardlink_one c e : 0 <= archive_entry_nlink e <= 1 ->
  record_hardlink c e = Some (ARCHIVE_OK, c, e).
Proof.
  intros He. unfold record_hardlink. destruct (Z.leb_spec (archive_entry_nlink e) 1); [done|lia].
Qed.

(** The test for the trailer looks at the name, if it is still there. *)
Lemma trailer_test window path r a e :
  (blen path = 10 -> hold window (r_filter a) (blen path + 1) = Some (path ++ [0])) ->
  is_trailer junk (NamedEntry r (blen path + 1) window a e) = bool_decide (path = trailer_name).
Proof.
  intros Hh. unfold is_trailer, name_found. cbn [n_length n_window n_archive].
  destruct (Z.eqb_spec (blen path + 1) 11) as [E|E]; cbn [andb].
  - rewrite E in Hh. rewrite Hh by lia. apply bool_decide_ext. split; [apply app_inj_2|]; [done|by intros ->].
  - symmetry. apply bool_decide_eq_false. intros ->. by apply E.
Qed.

Lemma read_header_ok a e path body s :
  read_header (r_cpio a) = Some Header_newc -> storable e path body -> path <> trailer_name ->
  recognised e path -> reads a (entry_bytes e path body ++ s) ->
  exists a', archive_read_format_cpio_read_header junk a archive_entry_new
    = Some (ARCHIVE_OK, a', decoded e body) /\
  reads a' (rest_bytes e body ++ s) /\ same (set_cpio a (entry_cpio (r_cpio a) e body)) a'.
Proof.
  intros Hk Hst Hnt Hrec Hr. pose proof (storable_content e path body Hst) as Hcont.
  pose proof (storable_fields e path body Hst) as Hff.
  destruct (storable_size e path body Hst) as (_ & Hbs & Hfit & _). rewrite Hbs in Hfit.
  destruct Hst as [Hp (Hn & Hnul & Hl) _ _ _ _ (_ & _ & _ & _ & Hnl & _) _].
  unfold entry_bytes, padded in Hr. rewrite <- !app_assoc in Hr.
  destruct (read_header_start a e path (blen (content e body)) (content e body ++ zeros (PAD4 (blen (content e body))) ++ s)
    Hk Hff Hfit ltac:(lia) Hnul) as (w & a1 & Hr1 & Hs1 & Hheld & Hname).
  { unfold name_bytes. by rewrite <- !app_assoc. }
  unfold archive_read_format_cpio_read_header. rewrite Hname.
  destruct (same_fields _ _ Hs1) as (_ & Hc1 & _). cbn in Hc1. unfold rest_bytes, entry_cpio, decoded.
  unfold recognised, ten_byte_link in Hrec.
  destruct (archive_entry_filetype e =? AE_IFLNK) eqn:E.
  - apply Z.eqb_eq in E. destruct Hcont as (-> & Hsym & Hne & Hc0 & Hlen).
    destruct (read_symlink_ok a1 (named e path (blen (content e []))) _ _ Hr1 E) as (a2 & -> & Hr2 & Hs2 & Hk2);
      [by rewrite Hc1|done..|].
    cbn [mbind option_bind negb]. rewrite trailer_test, bool_decide_eq_false_2; [|done|]; last first.
    { intros Ht. apply Hheld. destruct Hrec as [Hx|Hx]; [by apply Hk2|]. by destruct Hx. }
    cbn [n_archive n_entry n_ret]. rewrite record_hardlink_one by done. cbn [mbind option_bind].
    destruct (same_fields _ _ Hs2) as (_ & Hc2 & _). exists (set_cpio a2 (r_cpio a2)).
    split; [|split; [done|]].
    + unfold named, archive_entry_set_symlink. by rewrite <- Hp, Hsym.
    + assert (set_cpio a2 (r_cpio a2) = a2) as -> by by destruct a2.
      eapply same_archive_trans, Hs2. apply same_cpio with (c := set_remaining (r_cpio a1) 0) in Hs1.
      rewrite Hc1, <- PAD4_opp in *. exact Hs1.
  - destruct Hcont as [Hc Hsym]. rewrite Hc in *. unfold read_symlink.
    rewrite named_filetype, E. cbn [mbind option_bind negb].
    rewrite trailer_test, bool_decide_eq_false_2; [|done|intros _; apply Hheld; by left].
    cbn [n_archive n_entry n_ret].
    rewrite record_hardlink_one by done. cbn [mbind option_bind]. exists (set_cpio a1 (r_cpio a1)).
    assert (set_cpio a1 (r_cpio a1) = a1) as -> by by destruct a1.
    split; [|split].
    + unfold named. by rewrite <- Hp, Hsym.
    + by rewrite <- app_assoc.
    + rewrite <- PAD4_opp. exact Hs1.
Qed.

Lemma read_trailer_ok a s :
  read_header (r_cpio a) = Some Header_newc -> reads a (entry_bytes trailer trailer_name [] ++ s) ->
  exists a' e', archive_read_format_cpio_read_header junk a archive_entry_new = Some (ARCHIVE_EOF, a', e').
Proof.
  intros Hk Hr. destruct trailer_head as [Hff _]. unfold entry_bytes in Hr. rewrite <- !app_assoc in Hr.
  destruct (read_header_start a trailer trailer_name 0 s Hk Hff) as (w & a1 & Hr1 & _ & Hheld & Hname);
    [done|done| |exact Hr|].
  { vm_compute. intros Hx. repeat destruct Hx as [Hx|Hx]; done. }
  unfold archive_read_format_cpio_read_header. rewrite Hname.
  unfold read_symlink. rewrite named_filetype.
  change (archive_entry_filetype trailer =? AE_IFLNK) with false. cbn [mbind option_bind negb].
  rewrite trailer_test, bool_decide_eq_true_2; [by do 2 eexists|done|intros _; apply Hheld; by left].
Qed.

(** ** Bodies *)

(** [d] has been handed out and is not consumed yet, [b] is still to come. *)
Definition in_body a (d b : bytes) (pos pad : Z) (s : bytes) : Prop :=
  reads a (d ++ b ++ zeros pad ++ s) /\ r_state a = ARCHIVE_STATE_DATA /\
  read_header (r_cpio a) = Some Header_newc /\ c_bytes_unconsumed (r_cpio a) = blen d /\
  c_bytes_remaining (r_cpio a) = blen b /\ c_entry_offset (r_cpio a) = pos /\
  c_entry_padding (r_cpio a) = pad /\ 0 <= pad.

(** Between two entries. *)
Definition at_entry a (s : bytes) : Prop :=
  reads a s /\ read_header (r_cpio a) = Some Header_newc /\
  (r_state a = ARCHIVE_STATE_HEADER \/ r_state a = ARCHIVE_STATE_DATA) /\
  c_bytes_remaining (r_cpio a) = 0 /\ c_entry_padding (r_cpio a) = 0 /\
  c_bytes_unconsumed (r_cpio a) = 0.

Lemma blen_0 {A} (l : list A) : blen l = 0 -> l = [].
Proof. destruct l; [done|]. rewrite blen_cons. pose proof (blen_nonneg l). lia. Qed.

(** What was handed out is dropped first. *)
Lemma drop_unconsumed a d b pos pad s : in_body a d b pos pad s ->
  exists a', (if negb (c_bytes_unconsumed (r_cpio a) =? 0) then
       '(_, a) ← archive_read_consume a (c_bytes_unconsumed (r_cpio a));
       Some (set_cpio a (set_unconsumed (r_cpio a) 0))
     else Some a) = Some a' /\ in_body a' [] b pos pad s.
Proof.
  intros (Hr & Hst & Hk & Hu & Hrem & Hpos & Hpad & Hp). rewrite Hu.
  destruct (Z.eqb_spec (blen d) 0) as [E|E]; cbn [negb].
  - apply blen_0 in E as ->. exists a. split; [done|]. by split_and!.
  - destruct (consume_app a _ _ _ Hr eq_refl) as (a1 & -> & Hr1 & Hs1). cbn [mbind option_bind].
    destruct (same_fields _ _ Hs1) as (E1 & E2 & E3). eexists. split; [done|].
    split_and!; cbn; try done; congruence.
Qed.

Lemma read_data_block_ok a d b pos pad s : in_body a d b pos pad s ->
  (b = [] /\ exists a', archive_read_data_block junk a = Some (ARCHIVE_EOF, [], pos, a') /\ at_entry a' s) \/
  (exists b1 b2 a', b = b1 ++ b2 /\ b1 <> [] /\
    archive_read_data_block junk a = Some (ARCHIVE_OK, b1, pos, a') /\
    in_body a' b1 b2 (pos + blen b1) pad s).
Proof.
  intros Hb. unfold archive_read_data_block, check_magic.
  pose proof Hb as (_ & Hst & _). rewrite Hst. cbn [negb Z.land Z.eqb ARCHIVE_STATE_DATA Pos.land].
  unfold archive_read_format_cpio_read_data.
  destruct (drop_unconsumed a d b pos pad s Hb) as (a1 & -> & Hb1). cbn [mbind option_bind].
  destruct Hb1 as (Hr1 & Hst1 & Hk1 & Hu1 & Hrem1 & Hpos1 & Hpad1 & Hp). cbn [app] in Hr1.
  rewrite Hrem1. destruct (Z.ltb_spec 0 (blen b)) as [Hpb|Hpb].
  - right. destruct (ahead_some a1 _ 1 Hr1) as (w & a2 & -> & Hr2 & Hs2 & Hw & t & Ht); [lia| |].
    { rewrite blen_app. pose proof (blen_nonneg (zeros pad ++ s)). lia. }
    cbn [mbind option_bind]. destruct (Z.leb_spec (blen w) 0); [lia|].
    set (n := if blen b <? blen w then blen b else blen w).
    assert (1 <= n <= blen b /\ n <= blen w) as [Hn1 Hn2]
      by (unfold n; destruct (Z.ltb_spec (blen b) (blen w)); lia). clearbody n.
    rewrite mread_Some by lia. cbn [mbind option_bind]. change (Z.to_nat 0) with O. rewrite drop_0.
    assert (take (Z.to_nat n) w = take (Z.to_nat n) b) as Htk.
    { apply (f_equal (take (Z.to_nat n))) in Ht. unfold blen in *. by rewrite !take_app_le in Ht by lia. }
    rewrite Htk. destruct (same_fields _ _ Hs2) as (E1 & E2 & E3).
    assert (blen (take (Z.to_nat n) b) = n) as Hlen by (unfold blen in *; rewrite length_take; lia).
    exists (take (Z.to_nat n) b), (drop (Z.to_nat n) b). eexists. split; [by rewrite take_drop|].
    split; [intros Hx; rewrite Hx in Hlen; change (blen []) with 0 in Hlen; lia|]. split; [by rewrite Hpos1|].
    split_and!; cbn; try done; try congruence; try lia.
    + assert (take (Z.to_nat n) b ++ drop (Z.to_nat n) b ++ zeros pad ++ s = b ++ zeros pad ++ s) as ->
        by by rewrite (app_assoc (take _ _)), take_drop. done.
    + unfold blen in *. rewrite length_drop. lia.
  - left. pose proof (blen_nonneg b). assert (b = []) as -> by (apply blen_0; lia). split; [done|].
    rewrite Hpad1. cbn [app] in Hr1.
    destruct (consume_app a1 (zeros pad) s pad Hr1) as (a2 & -> & Hr2 & Hs2); [by rewrite blen_zeros|].
    cbn [mbind option_bind]. rewrite Z.eqb_refl. cbn [negb]. rewrite Hpos1. eexists. split; [done|].
    destruct (same_fields _ _ Hs2) as (E1 & E2 & E3).
    split_and!; cbn; rewrite ?E1, ?E2, ?Hrem1, ?Hu1; try done. by right.
Qed.

Lemma read_body_ok fuel a d b pos pad s : in_body a d b pos pad s -> blen b + 1 < Z.of_nat fuel ->
  exists a', read_body junk fuel a pos = Some (true, b, a') /\ at_entry a' s.
Proof.
  revert a d b pos. induction fuel as [|fuel IH]; intros a d b pos Hb Hf; [pose proof (blen_nonneg b); lia|].
  cbn [read_body]. destruct (read_data_block_ok a d b pos pad s Hb) as [(-> & a' & -> & Ha)|(b1 & b2 & a' & -> & Hne & -> & Hb')];
    cbn [mbind option_bind].
  - rewrite !Z.eqb_refl. by exists a'.
  - change (ARCHIVE_OK =? ARCHIVE_EOF) with false. cbn iota. rewrite !Z.eqb_refl. cbn [andb negb].
    destruct (IH a' b1 b2 (pos + blen b1) Hb') as (a2 & -> & Ha2).
    { rewrite blen_app in Hf. destruct b1; [done|]. rewrite blen_cons in Hf. pose proof (blen_nonneg b1). lia. }
    cbn [mbind option_bind]. by exists a2.
Qed.

(** ** Entries *)

Lemma next_header_skip a s : at_entry a s ->
  exists a', (if r_state a =? ARCHIVE_STATE_DATA then archive_read_data_skip a
              else Some (ARCHIVE_OK, a)) = Some (ARCHIVE_OK, a') /\
  at_entry a' s /\ r_state a' = ARCHIVE_STATE_HEADER.
Proof.
  intros (Hr & Hk & Hst & Hrem & Hpad & Hu). destruct Hst as [Hst|Hst]; rewrite Hst.
  - exists a. split; [done|]. split; [|done]. split_and!; try done. by left.
  - unfold archive_read_data_skip, check_magic, archive_read_format_cpio_skip. rewrite Hst, Hrem, Hpad, Hu.
    cbv zeta. change (0 + 0 + 0) with 0.
    change (negb (negb (Z.land ARCHIVE_STATE_DATA ARCHIVE_STATE_DATA =? 0))) with false. cbn iota.
    destruct (consume_reads a s 0 Hr) as (a1 & -> & Hr1 & Hs1); [pose proof (blen_nonneg s); lia|].
    change (drop (Z.to_nat 0) s) with s in Hr1. cbn [mbind option_bind Z.eqb negb].
    destruct (same_fields _ _ Hs1) as (E1 & E2 & E3). eexists. split; [done|]. split; [|done].
    split_and!; cbn; try done. by left.
Qed.

Lemma next_header_ok a e0 e path body s : at_entry a (entry_bytes e path body ++ s) ->
  storable e path body -> path <> trailer_name -> recognised e path ->
  exists a', archive_read_next_header junk a e0 = Some (ARCHIVE_OK, a', decoded e body) /\
  in_body a' [] body 0 (PAD4 (blen (content e body))) s.
Proof.
  intros Ha Hst Hnt Hrec. unfold archive_read_next_header, check_magic.
  assert ((Z.land (r_state a) (Z.lor ARCHIVE_STATE_HEADER ARCHIVE_STATE_DATA) =? 0) = false) as ->
    by (by destruct Ha as (_ & _ & [-> | ->] & _)).
  cbn [negb]. destruct (next_header_skip a _ Ha) as (a1 & -> & (Hr1 & Hk1 & _ & _ & _ & Hu1) & Hst1).
  cbn [mbind option_bind]. change ((ARCHIVE_OK =? ARCHIVE_EOF) || (ARCHIVE_OK =? ARCHIVE_FATAL)) with false.
  cbn iota. change (archive_entry_clear e0) with archive_entry_new.
  destruct (read_header_ok a1 e path body s Hk1 Hst Hnt Hrec Hr1) as (a2 & -> & Hr2 & Hs2).
  cbn [mbind option_bind]. eexists. split; [done|].
  destruct (same_fields _ _ Hs2) as (E1 & E2 & E3). cbn in E1, E2.
  pose proof (storable_content e path body Hst) as Hc. unfold rest_bytes in Hr2.
  pose proof (PAD4_range (blen (content e body))).
  assert (c_bytes_remaining (entry_cpio (r_cpio a1) e body) = blen body /\
    reads a2 (body ++ zeros (PAD4 (blen (content e body))) ++ s)) as [Hrem Hr3].
  { unfold entry_cpio. cbn. destruct (_ =? AE_IFLNK).
    - destruct Hc as (-> & _). split; [done|]. by rewrite <- app_assoc in Hr2.
    - split; [done|]. by rewrite <- app_assoc in Hr2. }
  split_and!; cbn [set_rstate r_state r_cpio r_filter]; try done; rewrite ?E2; try done. lia.
Qed.

Lemma next_header_eof a e0 s : at_entry a (entry_bytes trailer trailer_name [] ++ s) ->
  exists a' e', archive_read_next_header junk a e0 = Some (ARCHIVE_EOF, a', e').
Proof.
  intros Ha. unfold archive_read_next_header, check_magic.
  assert ((Z.land (r_state a) (Z.lor ARCHIVE_STATE_HEADER ARCHIVE_STATE_DATA) =? 0) = false) as ->
    by (by destruct Ha as (_ & _ & [-> | ->] & _)).
  cbn [negb]. destruct (next_header_skip a _ Ha) as (a1 & -> & (Hr1 & Hk1 & _) & _).
  cbn [mbind option_bind]. change ((ARCHIVE_OK =? ARCHIVE_EOF) || (ARCHIVE_OK =? ARCHIVE_FATAL)) with false.
  cbn iota. change (archive_entry_clear e0) with archive_entry_new.
  destruct (read_trailer_ok a1 s Hk1 Hr1) as (a2 & e2 & ->).
  cbn [mbind option_bind]. change ((ARCHIVE_EOF <? ARCHIVE_OK) || (ARCHIVE_EOF =? ARCHIVE_EOF)) with true.
  cbn iota. by do 2 eexists.
Qed.

(** ** Archives *)

Lemma blen_entry e path body : 110 <= blen (entry_bytes e path body).
Proof.
  unfold entry_bytes. rewrite blen_app, blen_newc_header.
  pose proof (blen_nonneg (path ++ [0] ++ zeros (PAD4 (blen path + 1 + c_header_size)) ++ padded (content e body))).
  unfold c_header_size in *. lia.
Qed.

(** The items the reader finds in an archive of [items]. *)
Definition found (items : list item) : list (archive_entry * bytes) :=
  map (fun '(e, _, ds) => (decoded e (concat ds), concat ds)) items.

(** What an archive can hold and the reader finds again: the trailer ends it. *)
Definition archivable (i : item) : Prop :=
  let '(e, path, ds) := i in storable e path (concat ds) /\ path <> trailer_name.

(** None of the names is taken for another one. *)
Definition recognisable (i : item) : Prop := archivable i /\ recognised i.1.1 i.1.2.

Lemma read_entries_ok fuel a e0 items tl : Forall recognisable items ->
  at_entry a (archive_bytes items ++ tl) -> (length items < fuel)%nat ->
  read_entries junk fuel a e0 = Some (ARCHIVE_EOF, found items).
Proof.
  intros Hi. revert fuel a e0. induction Hi as [|[[e path] ds] items [[Hst Hnt] Hrec] _ IH]; intros fuel a e0 Ha Hf.
  - destruct fuel as [|fuel]; [cbn in Hf; lia|]. cbn [read_entries].
    destruct (next_header_eof a e0 tl Ha) as (a' & e' & ->). reflexivity.
  - destruct fuel as [|fuel]; [cbn in Hf; lia|]. cbn [read_entries].
    unfold archive_bytes in Ha. cbn [map concat] in Ha. rewrite <- !app_assoc in Ha.
    destruct (next_header_ok a e0 e path (concat ds) _ Ha Hst Hnt Hrec) as (a1 & -> & Hb).
    cbn [mbind option_bind]. change (negb (ARCHIVE_OK =? ARCHIVE_OK)) with false. cbn iota.
    destruct (read_body_ok (length (stream (r_filter a1)) + 2) a1 _ _ _ _ _ Hb) as (a2 & -> & Ha2).
    { destruct Hb as ((_ & _ & _ & -> & _) & _). cbn [app]. rewrite length_app. unfold blen. lia. }
    cbn [mbind option_bind negb]. rewrite app_assoc in Ha2.
    change (concat (map (fun '(e, path, ds) => entry_bytes e path (concat ds)) items) ++
      entry_bytes trailer trailer_name []) with (archive_bytes items) in Ha2.
    rewrite (IH fuel a2 _ Ha2) by (cbn in Hf; lia). reflexivity.
Qed.

(** Each item takes some of the archive. *)
Lemma items_length items : (length items <= length (archive_bytes items))%nat.
Proof.
  unfold archive_bytes. rewrite length_app.
  enough (length items <= length (concat (map (fun '(e, path, ds) => entry_bytes e path (concat ds)) items)))%nat by lia.
  induction items as [|[[e path] ds] items IH]; [done|]. cbn [map concat length]. rewrite length_app.
  pose proof (blen_entry e path (concat ds)) as He. unfold blen in He. lia.
Qed.

Lemma archive_magic items : exists t, archive_bytes items = str "070701" ++ t.
Proof.
  destruct items as [|[[e path] ds] items]; unfold archive_bytes, entry_bytes, header_fields; cbn [map concat app];
    change (hex 6 460545) with (str "070701"); rewrite <- ?app_assoc; by eexists.
Qed.

Lemma bid_ok a t : unread_yet a (str "070701" ++ t) ->
  exists a', archive_read_format_cpio_bid junk a = Some (48, a') /\ reads a' (str "070701" ++ t) /\
  same (set_cpio a (set_reader (r_cpio a) Header_newc)) a'.
Proof.
  intros Hr. unfold archive_read_format_cpio_bid.
  destruct (ahead_first a _ 6 Hr) as (w & a1 & -> & Hr1 & Hs1 & Hw & t' & Ht); [lia| |].
  { rewrite blen_app. pose proof (blen_nonneg t). change (blen (str "070701")) with 6. lia. }
  cbn [mbind option_bind]. destruct (prefix_split _ _ _ _ Ht Hw) as (k & ->).
  assert (mread (str "070701" ++ k) 0 1 = Some [48]) as E0 by exact (mread_app [] [48] (str "70701" ++ k)).
  assert (mread (str "070701" ++ k) (0 + 1) 1 = Some [55]) as E1 by exact (mread_app [48] [55] (str "0701" ++ k)).
  unfold be2, le2, byte_of. rewrite E0, E1. cbn [mbind option_bind head].
  exists (set_cpio a1 (set_reader (r_cpio a1) Header_newc)). split; [done|]. split; [done|].
  destruct (same_fields _ _ Hs1) as (_ & -> & _). by apply same_cpio.
Qed.

Lemma open_at (f : archive_read_filter U) t :
  valid f -> clean (data f) -> fatal f = false -> (steady = true -> in_memory f) ->
  stream f = str "070701" ++ t ->
  exists a, archive_read_open1 junk f = Some (ARCHIVE_OK, a) /\ at_entry a (str "070701" ++ t).
Proof.
  intros Hv Hc Hf Hmem Hs. unfold archive_read_open1.
  destruct (bid_ok (Reader ARCHIVE_STATE_NEW false f cpio_new) t) as (a & -> & Hr & Hsame); [by split_and!|].
  cbn [mbind option_bind]. change (48 <? 1) with false. cbn iota.
  destruct (same_fields _ _ Hsame) as (_ & Hcp & _). cbn in Hcp.
  eexists. split; [done|]. split_and!; cbn [set_rstate r_state r_cpio r_filter]; rewrite ?Hcp; try done. by left.
Qed.

Lemma open_ok (f : archive_read_filter U) items tl :
  valid f -> clean (data f) -> fatal f = false -> (steady = true -> in_memory f) ->
  stream f = archive_bytes items ++ tl ->
  exists a, archive_read_open1 junk f = Some (ARCHIVE_OK, a) /\ at_entry a (archive_bytes items ++ tl).
Proof.
  intros Hv Hc Hf Hmem Hs. destruct (archive_magic items) as [t Ht]. rewrite Ht, <- app_assoc in *. by apply open_at.
Qed.

Lemma read_archive_ok (f : archive_read_filter U) items tl : Forall recognisable items ->
  valid f -> clean (data f) -> fatal f = false -> (steady = true -> in_memory f) -> stream f = archive_bytes items ++ tl ->
  read_archive junk f = Some (ARCHIVE_EOF, found items).
Proof.
  intros Hi Hv Hc Hf Hmem Hs. unfold read_archive. destruct (open_ok f items tl Hv Hc Hf Hmem Hs) as (a & -> & Ha).
  cbn [mbind option_bind]. rewrite Z.eqb_refl. apply read_entries_ok with (tl := tl); [done..|].
  rewrite Hs, length_app. pose proof (items_length items). lia.
Qed.
End Reading.

(** What is in memory can be read whatever the names; otherwise no link may have
    one of ten bytes. *)
Definition readable_names {U} `{Upstream U} (f : archive_read_filter U) (items : list item) : Prop :=
  in_memory f \/ Forall (fun i => ~ ten_byte_link i.1.1 i.1.2) items.

Lemma readable_names_steady {U} `{Upstream U} (f : archive_read_filter U) items :
  Forall archivable items -> readable_names f items ->
  exists steady, (steady = true -> in_memory f) /\ Forall (recognisable steady) items.
Proof.
  intros Hi [Hm|Hn]; [exists true|exists false]; (split; [done|]).
  - eapply Forall_impl; [exact Hi|]. intros i ?. split; [done|by left].
  - rewrite Forall_forall in Hi, Hn. apply Forall_forall. intros i Hin. split; [by apply Hi|right; by apply Hn].
Qed.

(** C15. An archive that is written can be read back.  Let the items be ones
    the format can represent, none of them named TRAILER!!!, their bodies
    written in pieces of any size below 2 GB, to any sink that keeps its laws.
    Every call is defined; and if all of them and the close report success,
    then from any layer that delivers the bytes the sink was given, in blocks
    of any size and with anything after them, the reader returns exactly the
    items: every entry with the fields it was stored with, every body in
    blocks that follow each other, then end of archive.  The condition is that
    the archive lies in memory as one block that stays there, or that no
    symbolic link has a name of ten bytes: the reader compares such a name with
    TRAILER!!! only after it has read the target, through a pointer to memory
    that may be used for something else by then ([stale_name_ends]). *)
Theorem cpio_roundtrip {W U} `{SinkLaws W} `{UpstreamLaws U} (junk : Z -> Z)
  (a : archive_write newc W) (items : list item) :
  open_archive a -> emitted a = [] -> state a = ARCHIVE_STATE_HEADER ->
  Forall (fun i => archivable i /\ Forall (fun d => blen d < 2 ^ 31) i.2) items ->
  exists b a', write_items a items = Some (b, a') /\
  (b = true -> forall (f : archive_read_filter U) tl,
     valid f -> clean (data f) -> fatal f = false ->
     readable_names f items -> stream f = delivered (f_data (filter_first a')) ++ tl ->
     read_archive junk f = Some (ARCHIVE_EOF, found items)).
Proof.
  intros Ho He Hst Hi. destruct (write_every_item_ok a items Ho) as (b & a' & Hw & Hb).
  { eapply Forall_impl; [exact Hi|]. intros [[e path] ds] [[? _] ?]. by split. }
  exists b, a'. split; [exact Hw|]. intros ->. rewrite (Hb eq_refl), He. unfold pending. rewrite Hst.
  change (ARCHIVE_STATE_HEADER =? ARCHIVE_STATE_DATA) with false. cbn iota. cbn [app].
  intros f tl Hv Hc Hf Hn Hs. destruct (readable_names_steady f items) as (steady & Hm & Hrec); [|done|].
  { eapply Forall_impl; [exact Hi|]. by intros i [? _]. }
  by apply read_archive_ok with (steady := steady) (tl := tl).
Qed.

(** The link bugreports in front of the files: in one block it is read back;
    in blocks of seven bytes the copy buffer grows while the target is read,
    and if the freed memory happens to hold TRAILER!!!, the archive ends
    there. *)
Definition ten_byte_sample : list item :=
  let link := archive_entry_set_symlink (archive_entry_set_size (archive_entry_set_mode
               (archive_entry_set_pathname (archive_entry_set_nlink archive_entry_new 1)
                  (Some (str "bugreports"))) 0xA1FF) 250) (Some (concat (repeat (str "/data/data") 25))) in
  (link, str "bugreports", []) :: sample.

Definition ten_byte_archive : bytes := archive_bytes ten_byte_sample.

Definition trailer_junk (pos i : Z) : Z := nth (Z.to_nat (i - pos)) (str "TRAILER!!!" ++ [0]) 0.

Lemma stale_name_ends :
  read_archive (fun _ => 9) (new_filter (archive_read_open_memory ten_byte_archive))
    = Some (ARCHIVE_EOF, found ten_byte_sample) /\
  exists junk, read_archive junk (new_filter (archive_read_open_memory2 ten_byte_archive 7))
    = Some (ARCHIVE_EOF, []).
Proof. split; [vm_compute; reflexivity|]. exists (trailer_junk 374). vm_compute. reflexivity. Qed.

Lemma sample_archivable : Forall (fun i => archivable i /\ Forall (fun d => blen d < 2 ^ 31) i.2) sample.
Proof.
  assert (forall p : bytes, forallb (fun c => negb (c =? 0)) p = true -> ~ In 0 p) as Hnul.
  { intros p Hp Hin. rewrite forallb_forall in Hp. by specialize (Hp 0 Hin). }
  repeat (constructor; [split; [split; [|done]|]|]); try done.
  all: try (repeat constructor; done).
  all: constructor; try done; try (split_and!; try done; apply Hnul; reflexivity).
  cbn. eexists. split_and!; try done. apply Hnul. reflexivity.
Qed.

Lemma cpio_roundtrip_witness :
  let a := archive_write_open_memory (fun _ => 7) (zeros 1000) newc_new in
  exists a', write_items a sample = Some (true, a') /\
  read_archive (fun _ => 9) (new_filter (archive_read_open_memory2
    (delivered (f_data (filter_first a')) ++ zeros 512) 7))
  = Some (ARCHIVE_EOF, found sample).
Proof.
  cbv zeta. destruct (cpio_roundtrip (U := read_memory_data) (fun _ => 9)
    (archive_write_open_memory (fun _ => 7) (zeros 1000) newc_new) sample) as (b & a' & Hw & Hb).
  - split_and!; [split; [done|by apply (client_open_ok _ 10240)]|by left|done..].
  - done.
  - done.
  - apply sample_archivable.
  - assert (b = true) as ->.
    { assert (fmap fst (write_items (archive_write_open_memory (fun _ => 7) (zeros 1000) newc_new) sample) = Some true) as Ht
        by (vm_compute; reflexivity). rewrite Hw in Ht. by injection Ht. }
    exists a'. split; [exact Hw|]. apply (Hb eq_refl _ (zeros 512)).
    + apply new_filter_valid. split; cbn -[delivered]; [|lia]. split; [lia|apply blen_nonneg].
    + done.
    + done.
    + right. repeat constructor; intros [Hx Hy]; vm_compute in Hx, Hy; done.
    + done.
Defined.
