(* ===== verification/Cpiosafety.v ===== *)
(** Untrusted cpio archives: what the reader does on any bytes whatsoever.

    Every operation of the reader is defined from every state a client can
    reach (it leaves no object, but for the comparison of a name with that of the
    trailer, and its searches end), each entry takes at least a header from what
    is left of the stream, and each byte handed out is a byte of the archive. *)
From S2P Require Import Prelude Stdio Readahead Window Archiveentry Archivewrite Cpioread Cpioarchive.

(** ** Numbers *)

Lemma mread_inside h off len : 0 <= off -> 0 <= len -> off + len <= blen h -> is_Some (mread h off len).
Proof. intros. rewrite mread_Some by lia. by eexists. Qed.

Lemma mread_of_bytes h off len d : mread h off len = Some d -> Forall is_byte h -> Forall is_byte d.
Proof.
  unfold mread. intros E Hh. case_match; [|done]. simplify_eq. by apply Forall_take, Forall_drop.
Qed.

Lemma byte_of_in h i : Forall is_byte h -> 0 <= i < blen h -> exists c, byte_of h i = Some c /\ is_byte c.
Proof.
  intros Hb Hi. unfold byte_of. destruct (mread_inside h i 1) as [d Hd]; [lia..|]. rewrite Hd.
  pose proof (mread_of_bytes _ _ _ _ Hd Hb) as Hd'. unfold mread in Hd.
  case_match; [|done]. simplify_eq. cbn [mbind option_bind].
  rewrite (drop_S _ (h !!! Z.to_nat i) (Z.to_nat i)) in *.
  2,3: apply list_lookup_lookup_total_lt; unfold blen in *; lia.
  cbn in Hd' |- *. eexists. split; [done|]. by inversion Hd'.
Qed.

Lemma two_in (f : bytes -> Z -> option Z) h o : f = le2 \/ f = be2 ->
  Forall is_byte h -> 0 <= o -> o + 2 <= blen h -> exists v, f h o = Some v /\ 0 <= v.
Proof.
  intros Hf Hb Ho Hl. unfold le2, be2 in Hf.
  destruct (byte_of_in h o Hb) as (a & Ea & ?); [lia|].
  destruct (byte_of_in h (o + 1) Hb) as (b & Eb & ?); [lia|]. unfold is_byte in *.
  destruct Hf as [-> | ->]; cbv beta; rewrite Ea, Eb; cbn [mbind option_bind]; eexists; (split; [done|lia]).
Qed.

Lemma four_in (f : bytes -> Z -> option Z) h o : f = le4 \/ f = be4 ->
  Forall is_byte h -> 0 <= o -> o + 4 <= blen h -> is_Some (f h o).
Proof.
  intros Hf Hb Ho Hl. unfold le4, be4 in Hf.
  destruct (byte_of_in h o Hb) as (a & Ea & _); [lia|].
  destruct (byte_of_in h (o + 1) Hb) as (b & Eb & _); [lia|].
  destruct (byte_of_in h (o + 2) Hb) as (c & Ec & _); [lia|].
  destruct (byte_of_in h (o + 3) Hb) as (d & Ed & _); [lia|].
  destruct Hf as [-> | ->]; cbv beta; rewrite Ea, Eb, Ec, Ed; by eexists.
Qed.

Lemma s64_small x : 0 <= x < 2 ^ 63 -> s64 x = x.
Proof.
  intros Hx. unfold s64. rewrite u64_small by (unfold is_u64; lia).
  destruct (Z.ltb_spec x (2 ^ 63)); lia.
Qed.

(** Few digits cannot reach the sign. *)
Lemma atol_nonneg digit bits p l : 0 < bits -> (forall c d, digit c = Some d -> 0 <= d < 2 ^ bits) ->
  0 <= l -> (l + 1) * 2 ^ (bits * blen p) <= 2 ^ 63 -> 0 <= atol_loop digit bits p l.
Proof.
  intros Hb Hd. revert l. induction p as [|c p IH]; intros l Hl Hs; [done|].
  cbn [atol_loop]. destruct (digit c) as [d|] eqn:E; [|done]. apply Hd in E.
  rewrite blen_cons, Z.mul_add_distr_l, Z.mul_1_r, Z.pow_add_r in Hs by (pose proof (blen_nonneg p); nia).
  assert (0 < 2 ^ (bits * blen p)) by (apply Z.pow_pos_nonneg; pose proof (blen_nonneg p); nia).
  rewrite Z.lor_comm, <- (lor_add d l bits) by lia.
  rewrite s64_small by nia. apply IH; nia.
Qed.

Lemma octal_digit_range c d : octal_digit c = Some d -> 0 <= d < 2 ^ 3.
Proof. unfold octal_digit. intros E. case_match eqn:Ec; [|done]. simplify_eq. apply andb_true_iff in Ec. lia. Qed.

Lemma hex_digit_range c d : hex_digit c = Some d -> 0 <= d < 2 ^ 4.
Proof.
  unfold hex_digit. intros E.
  repeat (let Ec := fresh in case_match eqn:Ec; [apply andb_true_iff in Ec; simplify_eq; lia|]). done.
Qed.

Lemma atol16_in h o n : 0 <= o -> 0 <= n -> o + n <= blen h ->
  exists v, atol16 h o n = Some v /\ (n <= 8 -> 0 <= v).
Proof.
  intros. unfold atol16. destruct (mread_inside h o n) as [d Hd]; [lia..|]. rewrite Hd. cbn [mbind option_bind].
  eexists. split; [done|]. intros Hn. apply atol_nonneg; [done|apply hex_digit_range|done|].
  assert (blen d = n) as ->.
  { unfold mread in Hd. case_match; [|done]. simplify_eq. unfold blen in *. rewrite length_take, length_drop. lia. }
  assert (2 ^ (4 * n) <= 2 ^ (4 * 8)) by (apply Z.pow_le_mono_r; lia). lia.
Qed.

Lemma atol8_in h o n : 0 <= o -> 0 <= n -> o + n <= blen h ->
  exists v, atol8 h o n = Some v /\ (n <= 8 -> 0 <= v).
Proof.
  intros. unfold atol8. destruct (mread_inside h o n) as [d Hd]; [lia..|]. rewrite Hd. cbn [mbind option_bind].
  eexists. split; [done|]. intros Hn. apply atol_nonneg; [done|apply octal_digit_range|done|].
  assert (blen d = n) as ->.
  { unfold mread in Hd. case_match; [|done]. simplify_eq. unfold blen in *. rewrite length_take, length_drop. lia. }
  assert (2 ^ (3 * n) <= 2 ^ (3 * 8)) by (apply Z.pow_le_mono_r; lia). lia.
Qed.

Ltac fields lem :=
  repeat match goal with
  | |- context [_ ← ?f ?h ?o ?n; _] =>
      let v := fresh "v" in let E := fresh "E" in let H := fresh "Hv" in
      destruct (lem h o n) as (v & E & H); [lia..|]; rewrite E; cbn [mbind option_bind]; clear E
  end.

(** ** The filter *)

Section Safety.
Context {U : Type} `{UpstreamLaws U} (junk : Z -> Z) (steady : bool).
Implicit Types (f : archive_read_filter U) (a : archive_read U).

(** A filter that stands for bytes, or has failed; a [steady] one has them all
    in memory that stays. *)
Definition filter_ok f : Prop :=
  valid f /\ (fatal f = false -> Forall is_byte (stream f)) /\ (steady = true -> settled f).

(** The same, up to the first look-ahead. *)
Definition filter_new f : Prop :=
  valid f /\ (fatal f = false -> Forall is_byte (stream f)) /\ (steady = true -> in_memory f).

(** What is left to read. *)
Definition left f : Z := if fatal f then 0 else blen (stream f).

Lemma left_nonneg f : 0 <= left f.
Proof. unfold left. destruct (fatal f); [done|apply blen_nonneg]. Qed.

Lemma left_stream f : fatal f = false -> left f = blen (stream f).
Proof. unfold left. by intros ->. Qed.

(** A look-ahead that shows a window shows bytes of the stream. *)
Lemma ahead_new f n : filter_new f -> 0 <= n -> 0 < n \/ (steady = true -> settled f) -> exists o x f',
  archive_read_filter_ahead junk f n = Some (o, x, f') /\ filter_ok f' /\ left f' <= left f /\
  match o with
  | Some w => n <= blen w /\ x = blen w /\ blen w <= left f' /\ left f' = left f /\ Forall is_byte w
  | None => 0 < n -> x < n
  end.
Proof.
  intros (Hv & Hb & Hm) Hn Hor. destruct (fatal f) eqn:Ef.
  { unfold archive_read_filter_ahead. rewrite Ef. do 3 eexists. split; [done|].
    split; [split_and!; [done|by rewrite Ef|]|]; [|split; [done|unfold ARCHIVE_FATAL; lia]].
    intros Hs. destruct (Hm Hs) as [[Hl _]|[Hl _]]; (split; [done|by left]). }
  destruct (ahead_ok junk f n Hv Ef Hn) as ([[o x] f'] & He & Hv' & _ & _ & Hpost).
  assert (steady = true -> settled f') as Hst.
  { intros Hs. destruct Hor as [Hpos|Hse]; [by eapply ahead_whole, He; [| | |apply Hm]
      |by eapply ahead_settled, He; [| |apply Hse]]. }
  exists o, x, f'. split; [done|]. specialize (Hb eq_refl). rewrite (left_stream f Ef).
  destruct o as [w|].
  - destruct Hpost as (-> & Hnw & (t & Ht) & Hs & Hf'). rewrite Ef in Hf'.
    rewrite (left_stream f' Hf'), Hs, Ht, blen_app. pose proof (blen_nonneg t).
    rewrite Ht in Hb. apply Forall_app in Hb as [Hbw Hbt].
    split; [split_and!; [done|intros _; rewrite Hs, Ht; by apply Forall_app|done]|].
    split_and!; try done; try lia.
  - destruct Hpost as [(Hf' & -> & _)|(Hf' & Hs & Hor')].
    + unfold left. rewrite Hf'. split; [split_and!; [done|by rewrite Hf'|done]|].
      split; [apply blen_nonneg|unfold ARCHIVE_FATAL; lia].
    + rewrite Ef in Hf'. rewrite (left_stream f' Hf'), Hs.
      split; [split_and!; [done|by rewrite Hs|done]|]. split; [done|]. lia.
Qed.

Lemma filter_ok_new f : filter_ok f -> filter_new f.
Proof. intros (? & ? & Hs). split_and!; [done..|]. intros ?. left. by apply Hs. Qed.

(** Consuming drops what it says, or nothing is left, or it was not started. *)
Lemma consume_any f n : filter_ok f -> exists x f',
  archive_read_filter_consume f n = Some (x, f') /\ filter_ok f' /\ left f' <= left f /\
  (0 <= n /\ x = n /\ left f' = left f - n \/ x = ARCHIVE_FATAL /\ (left f' = 0 \/ n < 0)).
Proof.
  intros Hok. pose proof Hok as (Hv & Hb & Hst). destruct (Z.ltb_spec n 0) as [Hneg|Hn].
  { unfold archive_read_filter_consume. destruct (Z.ltb_spec n 0); [|lia]. do 2 eexists. split; [done|].
    split; [done|]. split; [done|]. right. split; [done|by right]. }
  destruct (fatal f) eqn:Ef.
  { unfold archive_read_filter_consume, advance_file_pointer. rewrite Ef.
    destruct (Z.ltb_spec n 0); [lia|]. assert (left f = 0) as Hl by (unfold left; by rewrite Ef).
    destruct (Z.eqb_spec n 0) as [->|].
    - do 2 eexists. split; [done|]. split; [done|]. split; [done|]. left. split_and!; [done..|lia].
    - cbn [mbind option_bind]. destruct (Z.eqb_spec (-1) n); [lia|]. do 2 eexists. split; [done|].
      split; [done|]. split; [done|]. right. split; [done|by left]. }
  destruct (consume_ok f n Hv Ef Hn) as ([x f'] & He & Hv' & _ & Hpost).
  assert (steady = true -> settled f') as Hst' by (intros Hx; by eapply consume_settled, He; [|apply Hst]).
  rewrite He. exists x, f'. split; [done|].
  specialize (Hb eq_refl). rewrite (left_stream f Ef). pose proof (blen_nonneg (stream f)).
  destruct Hpost as [(-> & Hl & Hs & _ & Hf')|(-> & [[Hf' _]|(Hf' & Hl & Hs)])].
  - rewrite Ef in Hf'. rewrite (left_stream f' Hf'), Hs.
    assert (blen (drop (Z.to_nat n) (stream f)) = blen (stream f) - n) as -> by (unfold blen in *; rewrite length_drop; lia).
    split; [split_and!; [done|intros _; rewrite Hs; by apply Forall_drop|done]|]. split; [lia|]. left. by split_and!.
  - assert (left f' = 0) as Hl by (unfold left; by rewrite Hf').
    split; [split_and!; [done|by rewrite Hf'|done]|]. split; [lia|]. right. split; [done|by left].
  - rewrite Ef in Hf'. rewrite (left_stream f' Hf'), Hs.
    split; [split_and!; [done|intros _; by rewrite Hs|done]|]. split; [done|]. right. split; [done|by left].
Qed.

(** The same for an archive, of which only the filter changes. *)
Definition reader_ok a : Prop := filter_ok (r_filter a).
Definition rest_of a : Z := left (r_filter a).

(** The state and the data of the format do not change. *)
Definition kept a a' : Prop := r_state a' = r_state a /\ r_cpio a' = r_cpio a.

Lemma kept_trans a b c : kept a b -> kept b c -> kept a c.
Proof. intros [? ?] [? ?]. split; congruence. Qed.

Lemma archive_ahead_new a n : filter_new (r_filter a) -> 0 <= n ->
  0 < n \/ (steady = true -> settled (r_filter a)) -> exists o x a',
  archive_read_ahead junk a n = Some (o, x, a') /\ reader_ok a' /\ rest_of a' <= rest_of a /\ kept a a' /\
  match o with
  | Some w => n <= blen w /\ x = blen w /\ blen w <= rest_of a' /\ rest_of a' = rest_of a /\ Forall is_byte w
  | None => 0 < n -> x < n
  end.
Proof.
  intros Ha Hn Hor. unfold archive_read_ahead.
  destruct (ahead_new (r_filter a) n Ha Hn Hor) as (o & x & f' & -> & Hf & Hl & Ho).
  cbn [mbind option_bind fst snd]. exists o, x, (set_filter a f'). by destruct a.
Qed.

Lemma archive_ahead_any a n : reader_ok a -> 0 <= n -> exists o x a',
  archive_read_ahead junk a n = Some (o, x, a') /\ reader_ok a' /\ rest_of a' <= rest_of a /\ kept a a' /\
  match o with
  | Some w => n <= blen w /\ x = blen w /\ blen w <= rest_of a' /\ rest_of a' = rest_of a /\ Forall is_byte w
  | None => 0 < n -> x < n
  end.
Proof. intros Ha Hn. apply archive_ahead_new; [by apply filter_ok_new|done|right; apply Ha]. Qed.

Lemma archive_consume_any a n : reader_ok a -> exists x a',
  archive_read_consume a n = Some (x, a') /\ reader_ok a' /\ rest_of a' <= rest_of a /\ kept a a' /\
  (0 <= n /\ x = n /\ rest_of a' = rest_of a - n \/ x = ARCHIVE_FATAL /\ (rest_of a' = 0 \/ n < 0)).
Proof.
  intros Ha. unfold archive_read_consume.
  destruct (consume_any (r_filter a) n Ha) as (x & f' & -> & Hf & Hl & Hor).
  cbn [mbind option_bind fst snd]. exists x, (set_filter a f'). by destruct a.
Qed.

Lemma rest_nonneg a : 0 <= rest_of a.
Proof. apply left_nonneg. Qed.

(** Consuming part of a window that was just shown. *)
Lemma consume_window a n : reader_ok a -> 0 <= n <= rest_of a -> exists x a',
  archive_read_consume a n = Some (x, a') /\ reader_ok a' /\ rest_of a' <= rest_of a - n /\ kept a a'.
Proof.
  intros Ha Hn. destruct (archive_consume_any a n Ha) as (x & a' & He & Ha' & Hl & Hs & Hor).
  exists x, a'. split; [exact He|]. split_and!; [done| |done]. lia.
Qed.

(** ** Looking for a header *)

Lemma all_chars_in p h o n : 0 <= o -> 0 <= n -> o + n <= blen h -> is_Some (all_chars p h o n).
Proof. intros. unfold all_chars. destruct (mread_inside h o n) as [d ->]; [lia..|]. by eexists. Qed.

Lemma matches_in s h o : 0 <= o -> o + blen s <= blen h -> is_Some (matches s h o).
Proof.
  intros. unfold matches. pose proof (blen_nonneg s). destruct (mread_inside h o (blen s)) as [d ->]; [lia..|].
  by eexists.
Qed.

Lemma newc_at_in w o : Forall is_byte w -> 0 <= o -> o + newc_header_size <= blen w -> is_Some (newc_at w o).
Proof.
  unfold newc_header_size. intros Hw Ho Hl. unfold newc_at.
  destruct (matches_in (str "07070") w o) as [m ->]; [done|change (blen (str "07070")) with 5; lia|].
  destruct (byte_of_in w (o + 5) Hw) as (c & -> & _); [lia|]. cbn [mbind option_bind].
  destruct (_ && _); [|by eexists]. apply all_chars_in; unfold newc_header_size; lia.
Qed.

Lemma is_afio_large_in w o : Forall is_byte w -> 0 <= o -> is_Some (is_afio_large w o (blen w - o)).
Proof.
  intros Hw Ho. unfold is_afio_large, afiol_header_size. destruct (Z.ltb_spec (blen w - o) 116); [by eexists|].
  unfold afiol_ino_m_offset, afiol_mtime_n_offset, afiol_xsize_s_offset, afiol_filesize_c_offset,
    afiol_dev_offset, afiol_mode_offset, afiol_namesize_offset, afiol_filesize_offset, afiol_filesize_size.
  destruct (byte_of_in w (o + 30) Hw) as (? & -> & _); [lia|].
  destruct (byte_of_in w (o + 85) Hw) as (? & -> & _); [lia|].
  destruct (byte_of_in w (o + 98) Hw) as (? & -> & _); [lia|].
  destruct (byte_of_in w (o + 115) Hw) as (? & -> & _); [lia|]. cbn [mbind option_bind].
  destruct (negb _); [by eexists|]. unfold is_hex.
  destruct (all_chars_in Stdio.is_hex w (o + 6) (30 - 6)) as [? ->]; [lia..|].
  destruct (all_chars_in Stdio.is_hex w (o + 31) (85 - 31)) as [? ->]; [lia..|].
  destruct (all_chars_in Stdio.is_hex w (o + 86) (98 - 86)) as [? ->]; [lia..|].
  destruct (all_chars_in Stdio.is_hex w (o + 99) 16) as [? ->]; [lia..|]. by eexists.
Qed.

Lemma odc_at_in w o : Forall is_byte w -> 0 <= o -> o + odc_header_size <= blen w -> is_Some (odc_at w o).
Proof.
  unfold odc_header_size. intros Hw Ho Hl. unfold odc_at.
  destruct (matches_in (str "070707") w o) as [m ->]; [done|change (blen (str "070707")) with 6; lia|].
  cbn [mbind option_bind].
  assert (is_Some (if m : bool then is_octal w o odc_header_size else Some false)) as [i ->].
  { destruct m; [|by eexists]. apply all_chars_in; unfold odc_header_size; lia. }
  cbn [mbind option_bind]. destruct i; [by eexists|].
  destruct (matches_in (str "070727") w o) as [m' ->]; [done|change (blen (str "070727")) with 6; lia|].
  cbn [mbind option_bind].
  assert (is_Some (if m' : bool then is_afio_large w o (blen w - o) else Some false)) as [i ->].
  { destruct m'; [|by eexists]. by apply is_afio_large_in. }
  by eexists.
Qed.

Lemma newc_step_range c : 1 <= newc_step c <= 6.
Proof. unfold newc_step. repeat case_match; lia. Qed.
Lemma odc_step_range c : 1 <= odc_step c <= 6.
Proof. unfold odc_step. repeat case_match; lia. Qed.

(** A search ends inside the window, and beyond its start unless it found a
    header there. *)
Lemma newc_scan_in fuel w o : Forall is_byte w -> 0 <= o <= blen w ->
  Z.max 0 (blen w - 109 - o) < Z.of_nat fuel ->
  exists b s, newc_scan fuel w o = Some (b, s) /\ o <= s <= blen w /\
  (o + newc_header_size <= blen w -> b = true \/ o < s).
Proof.
  intros Hw. revert o. induction fuel as [|fuel IH]; intros o Ho Hf; [lia|]. cbn [newc_scan].
  unfold newc_header_size in *. destruct (Z.leb_spec (o + 110) (blen w)) as [Hl|Hl].
  - destruct (newc_at_in w o Hw) as [b ->]; [lia|done|].
    destruct (byte_of_in w (o + 5) Hw) as (c & -> & _); [lia|]. cbn [mbind option_bind].
    destruct b.
    + do 2 eexists. split; [done|]. split; [lia|by left].
    + pose proof (newc_step_range c). destruct (IH (o + newc_step c)) as (b & s & -> & Hs & _); [lia..|].
      exists b, s. split; [done|]. split; [lia|]. right. lia.
  - do 2 eexists. split; [done|]. split; lia.
Qed.

Lemma odc_scan_in fuel w o : Forall is_byte w -> 0 <= o <= blen w ->
  Z.max 0 (blen w - 75 - o) < Z.of_nat fuel ->
  exists b s, odc_scan fuel w o = Some (b, s) /\ o <= s <= blen w /\
  (o + odc_header_size <= blen w -> b <> None \/ o < s).
Proof.
  intros Hw. revert o. induction fuel as [|fuel IH]; intros o Ho Hf; [lia|]. cbn [odc_scan].
  unfold odc_header_size in *. destruct (Z.leb_spec (o + 76) (blen w)) as [Hl|Hl].
  - destruct (odc_at_in w o Hw) as [b ->]; [lia|done|].
    destruct (byte_of_in w (o + 5) Hw) as (c & -> & _); [lia|]. cbn [mbind option_bind].
    destruct b as [b|].
    + do 2 eexists. split; [done|]. split; [lia|by left].
    + pose proof (odc_step_range c). destruct (IH (o + odc_step c)) as (b & s & -> & Hs & _); [lia..|].
      exists b, s. split; [done|]. split; [lia|]. right. lia.
  - do 2 eexists. split; [done|]. split; lia.
Qed.

(** The result of a search: it ends, having consumed what it skipped. *)
Definition found_post a (r : Z) a' : Prop :=
  reader_ok a' /\ rest_of a' <= rest_of a /\ kept a a' /\
  (r = ARCHIVE_OK \/ r = ARCHIVE_WARN \/ r = ARCHIVE_FATAL).

Lemma found_post_trans a b r c : reader_ok b -> rest_of b <= rest_of a -> kept a b ->
  found_post b r c -> found_post a r c.
Proof.
  intros _ Hl Hk (H1 & H2 & H3 & H4). split_and!; [done|lia|by eapply kept_trans|done].
Qed.

Lemma find_newc_loop_any fuel a skipped : reader_ok a -> rest_of a < Z.of_nat fuel ->
  exists r a', find_newc_loop junk fuel a skipped = Some (r, a') /\ found_post a r a'.
Proof.
  revert a skipped. induction fuel as [|fuel IH]; intros a skipped Ha Hf; [pose proof (rest_nonneg a); lia|].
  cbn [find_newc_loop].
  destruct (archive_ahead_any a newc_header_size Ha) as (o & x & a1 & -> & Ha1 & Hl1 & Hk1 & Ho); [done|].
  cbn [mbind option_bind]. destruct o as [w|]; last first.
  { do 2 eexists. split; [done|]. split_and!; try done. tauto. }
  destruct Ho as (Hw & _ & Hwl & Hl & Hb). pose proof Hw as Hw'. unfold newc_header_size in Hw'.
  destruct (newc_at_in w 0 Hb) as [t ->]; [done|done|]. cbn [mbind option_bind]. destruct t.
  { do 2 eexists. split; [done|]. split_and!; try done. tauto. }
  destruct (newc_scan_in (length w) w 0 Hb) as (b & s & -> & Hs & Hp); [lia|unfold blen in *; lia|].
  cbn [mbind option_bind]. destruct (consume_window a1 s Ha1) as (x2 & a2 & -> & Ha2 & Hl2 & Hk2); [lia|].
  cbn [mbind option_bind]. pose proof (kept_trans _ _ _ Hk1 Hk2). destruct b.
  { do 2 eexists. split; [done|]. split_and!; [done|lia|done|]. destruct (_ <? _); tauto. }
  destruct Hp as [?|Hp]; [done..|].
  destruct (IH a2 (skipped + s) Ha2) as (r & a' & He & Hpost); [lia|]. exists r, a'. split; [exact He|].
  eapply found_post_trans, Hpost; [done|lia|done].
Qed.

Lemma set_afio_kept a b : reader_ok a -> reader_ok (set_afio a b) /\ rest_of (set_afio a b) = rest_of a /\ kept a (set_afio a b).
Proof. done. Qed.

Lemma find_odc_loop_any fuel a skipped : reader_ok a -> rest_of a < Z.of_nat fuel ->
  exists r a', find_odc_loop junk fuel a skipped = Some (r, a') /\ found_post a r a'.
Proof.
  revert a skipped. induction fuel as [|fuel IH]; intros a skipped Ha Hf; [pose proof (rest_nonneg a); lia|].
  cbn [find_odc_loop].
  destruct (archive_ahead_any a odc_header_size Ha) as (o & x & a1 & -> & Ha1 & Hl1 & Hk1 & Ho); [done|].
  cbn [mbind option_bind]. destruct o as [w|]; last first.
  { do 2 eexists. split; [done|]. split_and!; try done. tauto. }
  destruct Ho as (Hw & _ & Hwl & Hl & Hb). pose proof Hw as Hw'. unfold odc_header_size in Hw'.
  destruct (odc_at_in w 0 Hb) as [t ->]; [done|done|]. cbn [mbind option_bind]. destruct t as [t|].
  { do 2 eexists. split; [done|]. destruct t; (split_and!; try done; tauto). }
  destruct (odc_scan_in (length w) w 0 Hb) as (b & s & -> & Hs & Hp); [lia|unfold blen in *; lia|].
  cbn [mbind option_bind]. destruct (consume_window a1 s Ha1) as (x2 & a2 & -> & Ha2 & Hl2 & Hk2); [lia|].
  cbn [mbind option_bind]. pose proof (kept_trans _ _ _ Hk1 Hk2) as Hk. destruct b as [b|].
  { do 2 eexists. split; [done|]. destruct b; (split_and!; [done|change (rest_of a2 <= rest_of a); lia|done|]); destruct (_ <? _); tauto. }
  destruct Hp as [?|Hp]; [done..|].
  destruct (IH a2 (skipped + s) Ha2) as (r & a' & He & Hpost); [lia|]. exists r, a'. split; [exact He|].
  eapply found_post_trans, Hpost; [done|lia|done].
Qed.

Lemma search_fuel a : reader_ok a ->
  rest_of a < Z.of_nat (length (buffer (r_filter a)) + length (rest (data (r_filter a)))
    + Z.to_nat (client_avail (r_filter a)) + 2).
Proof.
  intros [Hv _]. unfold rest_of, left. pose proof (client_bounds _ Hv). pose proof (v_copy _ Hv) as (? & ? & ?).
  pose proof (blen_nonneg (rest (data (r_filter a)))).
  destruct (fatal _); [lia|]. rewrite blen_stream by done. unfold blen in *. lia.
Qed.

(** ** Headers *)

Lemma parse_newc_in h e : newc_header_size <= blen h ->
  exists e' n size, parse_newc h e = Some (e', n, size) /\ 0 <= n.
Proof. unfold newc_header_size. intros Hl. unfold parse_newc. fields atol16_in. do 3 eexists. split; [done|]. auto with lia. Qed.

Lemma parse_odc_in h e : odc_header_size <= blen h ->
  exists e' n size, parse_odc h e = Some (e', n, size) /\ 0 <= n.
Proof. unfold odc_header_size. intros Hl. unfold parse_odc. fields atol8_in. do 3 eexists. split; [done|]. auto with lia. Qed.

Lemma parse_afiol_in h e : afiol_header_size <= blen h ->
  exists e' n size, parse_afiol h e = Some (e', n, size) /\ 0 <= n.
Proof.
  unfold afiol_header_size. intros Hl. unfold parse_afiol.
  fields atol16_in. fields atol8_in. fields atol16_in. do 3 eexists. split; [done|]. auto with lia.
Qed.

Lemma parse_bin_in two four h e : two = le2 /\ four = le4 \/ two = be2 /\ four = be4 ->
  Forall is_byte h -> bin_header_size <= blen h ->
  exists e' n size, parse_bin two four h e = Some (e', n, size) /\ 0 <= n.
Proof.
  unfold bin_header_size. intros Hor Hb Hl. unfold parse_bin.
  assert (two = le2 \/ two = be2) as Ht by tauto. assert (four = le4 \/ four = be4) as Hf by tauto.
  destruct (two_in two h 2 Ht Hb) as (? & -> & _); [lia..|].
  destruct (two_in two h 4 Ht Hb) as (? & -> & _); [lia..|].
  destruct (two_in two h 6 Ht Hb) as (? & -> & _); [lia..|].
  destruct (two_in two h 8 Ht Hb) as (? & -> & _); [lia..|].
  destruct (two_in two h 10 Ht Hb) as (? & -> & _); [lia..|].
  destruct (two_in two h 12 Ht Hb) as (? & -> & _); [lia..|].
  destruct (two_in two h 14 Ht Hb) as (? & -> & _); [lia..|].
  destruct (four_in four h 16 Hf Hb) as [? ->]; [lia..|].
  destruct (two_in two h 20 Ht Hb) as (n & -> & Hn); [lia..|].
  destruct (four_in four h 22 Hf Hb) as [? ->]; [lia..|]. by do 3 eexists.
Qed.

(** What reading a header may change of the archive. *)
Definition kept_body a a' : Prop :=
  r_state a' = r_state a /\ read_header (r_cpio a') = read_header (r_cpio a) /\
  c_bytes_unconsumed (r_cpio a') = c_bytes_unconsumed (r_cpio a).

Lemma kept_kept_body a a' : kept a a' -> kept_body a a'.
Proof. intros [? E]. by split_and!; rewrite ?E. Qed.

Lemma kept_body_trans a b c : kept_body a b -> kept_body b c -> kept_body a c.
Proof. intros (? & ? & ?) (? & ? & ?). split_and!; congruence. Qed.

Lemma set_body_kept a m p : kept_body a (set_cpio a (set_body (r_cpio a) m p)).
Proof. done. Qed.

(** A header takes at least its 26 bytes; otherwise an error is reported. *)
Definition header_post a (x : header_result U) : Prop :=
  reader_ok (h_archive x) /\ rest_of (h_archive x) <= rest_of a /\ kept_body a (h_archive x) /\
  0 <= namelength x /\ 0 <= name_pad x /\
  (h_ret x = ARCHIVE_FATAL \/
   (h_ret x = ARCHIVE_OK \/ h_ret x = ARCHIVE_WARN) /\ rest_of (h_archive x) + bin_header_size <= rest_of a).

Lemma header_post_fatal a a' n p e : reader_ok a' -> rest_of a' <= rest_of a -> kept_body a a' ->
  0 <= n -> 0 <= p -> header_post a (HeaderResult ARCHIVE_FATAL n p e a').
Proof. intros. split_and!; try done. by left. Qed.

(** The body and the consumption that end a header. *)
Lemma header_end a a1 size n m p r pad e : reader_ok a1 -> rest_of a1 <= rest_of a -> kept_body a a1 ->
  bin_header_size <= size <= rest_of a1 -> 0 <= n -> 0 <= pad ->
  r = ARCHIVE_OK \/ r = ARCHIVE_WARN ->
  exists x a2, archive_read_consume (set_cpio a1 (set_body (r_cpio a1) m p)) size = Some (x, a2) /\
  header_post a (HeaderResult r n pad e a2).
Proof.
  intros Ha1 Hl Hk Hs Hn Hp Hr.
  destruct (consume_window (set_cpio a1 (set_body (r_cpio a1) m p)) size Ha1) as (x & a2 & He & Ha2 & Hl2 & Hk2).
  { change (rest_of (set_cpio a1 (set_body (r_cpio a1) m p))) with (rest_of a1). unfold bin_header_size in Hs. lia. }
  change (rest_of (set_cpio a1 (set_body (r_cpio a1) m p))) with (rest_of a1) in Hl2.
  exists x, a2. split; [exact He|]. unfold bin_header_size in *.
  split_and!; cbn [h_ret h_archive h_entry namelength name_pad]; try done; try lia.
  - eapply kept_body_trans, kept_kept_body, Hk2. by eapply kept_body_trans.
  - right. split; [done|]. unfold bin_header_size. lia.
Qed.

Lemma header_newc_any a e : reader_ok a -> exists x, header_newc junk a e = Some x /\ header_post a x.
Proof.
  intros Ha. unfold header_newc, find_newc_header.
  destruct (find_newc_loop_any _ a 0 Ha (search_fuel a Ha)) as (r & a1 & -> & Ha1 & Hl1 & Hk1 & Hr).
  cbn [mbind option_bind]. apply kept_kept_body in Hk1. destruct (Z.ltb_spec r ARCHIVE_WARN) as [Hw|Hw].
  { eexists. split; [done|]. destruct Hr as [-> |[-> | ->]]; [unfold ARCHIVE_OK, ARCHIVE_WARN in *; lia..|].
    by apply header_post_fatal. }
  assert (r = ARCHIVE_OK \/ r = ARCHIVE_WARN) as Hok by (unfold ARCHIVE_OK, ARCHIVE_WARN, ARCHIVE_FATAL in *; lia).
  destruct (archive_ahead_any a1 newc_header_size Ha1) as (o & x & a2 & -> & Ha2 & Hl2 & Hk2 & Ho); [done|].
  apply kept_kept_body in Hk2. pose proof (kept_body_trans _ _ _ Hk1 Hk2) as Hk.
  cbn [mbind option_bind]. destruct o as [h|]; last first.
  { eexists. split; [done|]. apply header_post_fatal; (done || lia). }
  destruct Ho as (Hh & _ & Hhl & Hl & _).
  destruct (parse_newc_in h e Hh) as (e' & n & size & -> & Hn). cbn [mbind option_bind].
  assert (0 <= Z.land (2 - n) 3) by (rewrite (Z.land_ones _ 2) by lia; apply Z.mod_pos_bound; lia).
  destruct (_ <? _).
  { eexists. split; [done|]. apply header_post_fatal; (done || lia). }
  destruct (header_end a a2 newc_header_size n size (Z.land 3 (- size)) r (Z.land (2 - n) 3) e')
    as (y & a3 & -> & Hp); [done|lia|done|unfold newc_header_size, bin_header_size in *; lia|done..|].
  cbn [mbind option_bind]. by eexists.
Qed.

Lemma header_afiol_any a e : reader_ok a -> exists x, header_afiol junk a e = Some x /\ header_post a x.
Proof.
  intros Ha. unfold header_afiol.
  destruct (archive_ahead_any (set_afio a true) afiol_header_size Ha) as (o & x & a2 & -> & Ha2 & Hl2 & Hk2 & Ho); [done|].
  apply kept_kept_body in Hk2. change (rest_of (set_afio a true)) with (rest_of a) in *.
  cbn [mbind option_bind]. destruct o as [h|]; last first.
  { eexists. split; [done|]. by apply header_post_fatal. }
  destruct Ho as (Hh & _ & Hhl & Hl & _).
  destruct (parse_afiol_in h e Hh) as (e' & n & size & -> & Hn). cbn [mbind option_bind].
  destruct (header_end a a2 afiol_header_size n size 0 ARCHIVE_OK 0 e')
    as (y & a3 & -> & Hp); [done|lia|done|unfold afiol_header_size, bin_header_size in *; lia|done..|by left|].
  cbn [mbind option_bind]. by eexists.
Qed.

Lemma header_odc_any a e : reader_ok a -> exists x, header_odc junk a e = Some x /\ header_post a x.
Proof.
  intros Ha. unfold header_odc, find_odc_header.
  destruct (find_odc_loop_any _ (set_afio a false) 0 Ha (search_fuel (set_afio a false) Ha)) as (r & a1 & -> & Ha1 & Hl1 & Hk1 & Hr).
  change (rest_of (set_afio a false)) with (rest_of a) in Hl1.
  cbn [mbind option_bind]. apply kept_kept_body in Hk1. change (kept_body a a1) in Hk1.
  destruct (Z.ltb_spec r ARCHIVE_WARN) as [Hw|Hw].
  { eexists. split; [done|]. destruct Hr as [-> |[-> | ->]]; [unfold ARCHIVE_OK, ARCHIVE_WARN in *; lia..|].
    by apply header_post_fatal. }
  assert (r = ARCHIVE_OK \/ r = ARCHIVE_WARN) as Hok by (unfold ARCHIVE_OK, ARCHIVE_WARN, ARCHIVE_FATAL in *; lia).
  destruct (afio_large a1).
  { destruct (header_afiol_any a1 e Ha1) as (x & -> & Hx1 & Hx2 & Hx3 & Hx4 & Hx5 & Hx6). cbn [mbind option_bind].
    pose proof (kept_body_trans _ _ _ Hk1 Hx3). eexists. split; [done|].
    destruct (Z.eqb_spec (h_ret x) ARCHIVE_OK) as [E|E].
    - destruct Hx6 as [Hx6|[_ Hx6]]; [rewrite E in Hx6; done|].
      split_and!; cbn [h_ret h_archive h_entry namelength name_pad]; try done; try lia.
    - split_and!; try done; lia. }
  destruct (archive_ahead_any a1 odc_header_size Ha1) as (o & x & a2 & -> & Ha2 & Hl2 & Hk2 & Ho); [done|].
  apply kept_kept_body in Hk2. pose proof (kept_body_trans _ _ _ Hk1 Hk2) as Hk.
  cbn [mbind option_bind]. destruct o as [h|]; last first.
  { eexists. split; [done|]. apply header_post_fatal; (done || lia). }
  destruct Ho as (Hh & _ & Hhl & Hl & _).
  destruct (parse_odc_in h e Hh) as (e' & n & size & -> & Hn). cbn [mbind option_bind].
  destruct (header_end a a2 odc_header_size n size 0 r 0 e')
    as (y & a3 & -> & Hp); [done|lia|done|unfold odc_header_size, bin_header_size in *; lia|done..|].
  cbn [mbind option_bind]. by eexists.
Qed.

Lemma header_bin_any two four a e : two = le2 /\ four = le4 \/ two = be2 /\ four = be4 ->
  reader_ok a -> exists x, header_bin junk two four a e = Some x /\ header_post a x.
Proof.
  intros Hor Ha. unfold header_bin.
  destruct (archive_ahead_any (set_afio a false) bin_header_size Ha) as (o & x & a2 & -> & Ha2 & Hl2 & Hk2 & Ho); [done|].
  apply kept_kept_body in Hk2. change (rest_of (set_afio a false)) with (rest_of a) in *.
  cbn [mbind option_bind]. destruct o as [h|]; last first.
  { eexists. split; [done|]. by apply header_post_fatal. }
  destruct Ho as (Hh & _ & Hhl & Hl & Hb).
  destruct (parse_bin_in two four h e Hor Hb Hh) as (e' & n & size & -> & Hn). cbn [mbind option_bind].
  assert (0 <= Z.land n 1) by (rewrite (Z.land_ones _ 1) by lia; apply Z.mod_pos_bound; lia).
  destruct (header_end a a2 bin_header_size n size (Z.land size 1) ARCHIVE_OK (Z.land n 1) e')
    as (y & a3 & -> & Hp); [done|lia|done|lia|done..|by left|].
  cbn [mbind option_bind]. by eexists.
Qed.

Lemma call_read_header_any k a e : reader_ok a ->
  exists x, call_read_header junk k a e = Some x /\ header_post a x.
Proof.
  intros Ha. destruct k; cbn [call_read_header];
    [by apply header_odc_any|by apply header_newc_any|apply header_bin_any; [tauto|done]..].
Qed.

(** ** The operations of the format *)

Lemma read_symlink_any a e : reader_ok a -> exists b a' e',
  read_symlink junk a e = Some (b, a', e') /\ reader_ok a' /\ rest_of a' <= rest_of a /\
  kept_body a a' /\ archive_entry_pathname e' = archive_entry_pathname e.
Proof.
  intros Ha. unfold read_symlink. destruct (_ =? _); [|by do 3 eexists].
  destruct (1024 * 1024 <? _); [by do 3 eexists|].
  destruct (archive_ahead_any a (u64 (c_bytes_remaining (r_cpio a))) Ha) as (o & x & a1 & -> & Ha1 & Hl1 & Hk1 & _).
  { apply u64_range. }
  apply kept_kept_body in Hk1. cbn [mbind option_bind]. destruct o as [h|]; [|by do 3 eexists].
  destruct (archive_consume_any a1 (c_bytes_remaining (r_cpio a)) Ha1) as (y & a2 & -> & Ha2 & Hl2 & Hk2 & _).
  apply kept_kept_body in Hk2. cbn [mbind option_bind]. do 3 eexists. split; [done|].
  split_and!; [done|change (rest_of a2 <= rest_of a); lia| |done].
  apply (kept_body_trans _ a2); [|done]. by eapply kept_body_trans.
Qed.

(** Only a link moves the filter, and one in memory does not move the copy
    buffer. *)
Lemma read_symlink_keeps a e a' e' : reader_ok a -> read_symlink junk a e = Some (true, a', e') ->
  archive_entry_filetype e' = archive_entry_filetype e /\
  (archive_entry_filetype e <> AE_IFLNK -> r_filter a' = r_filter a) /\
  (steady = true -> buffer (r_filter a') = buffer (r_filter a)).
Proof.
  intros (Hv & _ & Hst). unfold read_symlink. destruct (Z.eqb_spec (archive_entry_filetype e) AE_IFLNK) as [E|E].
  - destruct (1024 * 1024 <? _); [done|]. unfold archive_read_ahead.
    destruct (archive_read_filter_ahead junk (r_filter a) _) as [[[o x] f]|] eqn:Ea; [|done].
    cbn [mbind option_bind fst snd]. destruct o as [w|]; [|done].
    destruct (archive_read_consume _ _) as [[y a2]|] eqn:Ec; [|done]. cbn [mbind option_bind].
    intros He. injection He as <- <-. split; [done|]. split; [done|]. intros Hs. cbn [r_filter set_cpio].
    rewrite (archive_consume_buffer _ _ _ _ Ec). cbn [r_filter set_filter].
    eapply ahead_buffered in Ea as [_ Ea]; [by apply Ea|done|apply u64_range|by apply Hst].
  - intros He. by injection He as <- <-.
Qed.

Lemma record_hardlink_any c e : is_Some (archive_entry_pathname e) -> exists c' e',
  record_hardlink c e = Some (ARCHIVE_OK, c', e') /\ read_header c' = read_header c /\
  c_bytes_unconsumed c' = c_bytes_unconsumed c.
Proof.
  intros [p Hp]. unfold record_hardlink. destruct (_ <=? 1); [by do 2 eexists|].
  destruct (find_link _ _ _); [by do 2 eexists|]. rewrite Hp. by do 2 eexists.
Qed.

(** An entry takes a header's worth of the stream. *)
Definition entry_post a (r : Z) a' : Prop :=
  reader_ok a' /\ rest_of a' <= rest_of a /\ kept_body a a' /\
  (r = ARCHIVE_FATAL \/
   (r = ARCHIVE_OK \/ r = ARCHIVE_WARN \/ r = ARCHIVE_EOF) /\ rest_of a' + bin_header_size <= rest_of a).

Lemma entry_fatal a a' : reader_ok a' -> rest_of a' <= rest_of a -> kept_body a a' ->
  entry_post a ARCHIVE_FATAL a'.
Proof. intros. split_and!; try done. by left. Qed.

(** The name is compared; it is lost only if a link has moved the filter. *)
Definition named_post a (x : named_entry U) : Prop :=
  reader_ok (n_archive x) /\ rest_of (n_archive x) + bin_header_size <= rest_of a /\
  kept_body a (n_archive x) /\ (n_ret x = ARCHIVE_OK \/ n_ret x = ARCHIVE_WARN) /\
  is_Some (archive_entry_pathname (n_entry x)) /\
  (lost x = true -> n_length x = 11 /\ archive_entry_filetype (n_entry x) = AE_IFLNK /\ steady = false).

Lemma not_lost r n w a e k : n = 11 -> hold w (r_filter a) 11 = Some k -> hold w w 11 = Some k ->
  lost (NamedEntry r n w a e) = false.
Proof.
  intros -> Hh Hw. unfold lost. cbn [n_length n_window n_archive]. rewrite Hh, Hw.
  by rewrite !bool_decide_eq_true_2.
Qed.

Lemma lost_spec r n pad (h : bytes) x y a a1 a2 a3 e e' : reader_ok a -> 0 <= n -> 0 <= pad ->
  archive_read_ahead junk a (n + pad) = Some (Some h, x, a1) -> reader_ok a1 ->
  archive_read_consume (set_cpio a1 (set_offset (r_cpio a1) 0)) (n + pad) = Some (y, a2) -> reader_ok a2 ->
  read_symlink junk a2 e = Some (true, a3, e') ->
  lost (NamedEntry r n (r_filter a1) a3 e') = true ->
  n = 11 /\ archive_entry_filetype e' = AE_IFLNK /\ steady = false.
Proof.
  intros Ha Hn Hp Hah Ha1 Hc Ha2 Hs Hlost.
  assert (n = 11) as -> by (unfold lost in Hlost; cbn in Hlost; destruct (Z.eqb_spec n 11); [done|done]).
  destruct (read_symlink_keeps _ _ _ _ Ha2 Hs) as (-> & Hsame & Hbuf). split; [done|].
  unfold archive_read_ahead in Hah.
  destruct (archive_read_filter_ahead junk (r_filter a) (11 + pad)) as [[[o z] g]|] eqn:Eg; [|done].
  cbn [mbind option_bind fst snd] in Hah. injection Hah as -> -> <-. cbn [r_filter set_filter set_cpio] in *.
  unfold archive_read_consume in Hc. cbn [r_filter set_filter set_cpio] in Hc.
  destruct (archive_read_filter_consume g (11 + pad)) as [[z' g2]|] eqn:Eg2; [|done].
  cbn [mbind option_bind fst snd] in Hc. injection Hc as -> <-. cbn [r_filter set_filter set_cpio] in *.
  destruct Ha as (Hv & _). assert (fatal (r_filter a) = false) as Hf.
  { unfold archive_read_filter_ahead in Eg. by destruct (fatal (r_filter a)). }
  assert (11 + pad <= blen h) as Hle.
  { destruct (ahead_ok junk (r_filter a) (11 + pad) Hv Hf ltac:(lia)) as (q & Hq & Hpost). rewrite Eg in Hq.
    injection Hq as <-. destruct Hpost as (_ & _ & _ & -> & Hpost & _). lia. }
  assert (hold g g 11 = Some (take (Z.to_nat 11) h)) as Hnow by (eapply hold_kept; [exact Eg|done|by right|lia]).
  split.
  - destruct (decide (archive_entry_filetype e = AE_IFLNK)) as [|E]; [done|exfalso].
    rewrite (not_lost _ _ _ _ _ (take (Z.to_nat 11) h)) in Hlost; [done..| |exact Hnow]. rewrite (Hsame E).
    eapply hold_consumed; [exact Hv|exact Hf| |exact Eg| |exact Eg2|]; lia.
  - destruct steady eqn:Est; [exfalso|done].
    rewrite (not_lost _ _ _ _ _ (take (Z.to_nat 11) h)) in Hlost; [done..| |exact Hnow].
    eapply hold_kept; [exact Eg|by rewrite Hbuf, (consume_buffer _ _ _ _ Eg2)| |lia].
    left. destruct Ha1 as (_ & _ & Hl). by apply Hl.
Qed.

Lemma read_name_any a e : reader_ok a -> is_Some (read_header (r_cpio a)) -> exists t,
  read_name junk a e = Some t /\
  match t with
  | Done r a' _ => r = ARCHIVE_FATAL /\ entry_post a r a'
  | Named x => named_post a x
  end.
Proof.
  intros Ha [k Hk]. unfold read_name. rewrite Hk. cbn [mbind option_bind].
  destruct (call_read_header_any k a e Ha) as (x & -> & Hx1 & Hx2 & Hx3 & Hn & Hp & Hr). cbn [mbind option_bind].
  destruct (Z.ltb_spec (h_ret x) ARCHIVE_WARN) as [Hw|Hw].
  { eexists. split; [done|]. destruct Hr as [-> |[[E|E] _]]; [split; [done|by apply entry_fatal]|rewrite E in Hw; done..]. }
  destruct Hr as [E|[Hok Hl]]; [rewrite E in Hw; done|].
  destruct (archive_ahead_any (h_archive x) (namelength x + name_pad x) Hx1) as (o & y & a1 & Hah & Ha1 & Hl1 & Hk1 & _); [lia|].
  rewrite Hah. apply kept_kept_body in Hk1. pose proof (kept_body_trans _ _ _ Hx3 Hk1) as Hkept.
  cbn [mbind option_bind]. destruct o as [h|]; last first.
  { eexists. split; [done|]. split; [done|]. apply entry_fatal; (done || lia). }
  destruct (archive_consume_any (set_cpio a1 (set_offset (r_cpio a1) 0)) (namelength x + name_pad x) Ha1)
    as (z & a2 & Hc & Ha2 & Hl2 & Hk2 & _).
  change (rest_of (set_cpio a1 (set_offset (r_cpio a1) 0))) with (rest_of a1) in Hl2.
  apply kept_kept_body in Hk2. change (kept_body a1 a2) in Hk2.
  pose proof (kept_body_trans _ _ _ Hkept Hk2) as Hkept2. rewrite Hc. cbn [mbind option_bind].
  set (e1 := archive_entry_copy_pathname_l (h_entry x) h (namelength x)).
  destruct (read_symlink_any a2 e1 Ha2) as (b & a3 & e2 & Hs & Ha3 & Hl3 & Hk3 & Hpath).
  pose proof (kept_body_trans _ _ _ Hkept2 Hk3) as Hkept3. rewrite Hs. cbn [mbind option_bind].
  destruct b; cbn [negb]; eexists; (split; [done|]); last first.
  { split; [done|]. apply entry_fatal; (done || lia). }
  split_and!; cbn [n_archive n_ret n_entry n_length]; [done|lia|done|done|rewrite Hpath; by eexists|].
  intros Hlost. eapply (lost_spec _ _ (name_pad x)); [exact Hx1|done|done|exact Hah|exact Ha1|exact Hc|exact Ha2|exact Hs|exact Hlost].
Qed.

Lemma read_header_any a e : reader_ok a -> is_Some (read_header (r_cpio a)) -> exists r a' e',
  archive_read_format_cpio_read_header junk a e = Some (r, a', e') /\ entry_post a r a'.
Proof.
  intros Ha Hk. unfold archive_read_format_cpio_read_header.
  destruct (read_name_any a e Ha Hk) as (t & -> & Ht). cbn [mbind option_bind].
  destruct t as [r a' e'|x]; [by do 3 eexists; split; [|apply Ht]|]. destruct Ht as (Ha' & Hl & Hkb & Hr & Hp & _).
  unfold bin_header_size in *. destruct (is_trailer junk x).
  { do 3 eexists. split; [done|]. split_and!; [done|lia|done|]. right. split; [tauto|done]. }
  destruct (record_hardlink_any (r_cpio (n_archive x)) (n_entry x) Hp) as (c & e3 & -> & Hc1 & Hc2).
  cbn [mbind option_bind]. rewrite Z.eqb_refl. do 3 eexists. split; [done|].
  split_and!; [done|change (rest_of (n_archive x) <= rest_of a); lia| |].
  - apply (kept_body_trans _ (n_archive x)); [done|]. by split_and!.
  - right. change (rest_of (set_cpio (n_archive x) c)) with (rest_of (n_archive x)). split; [tauto|done].
Qed.

(** Skipping and reading bodies keep the state and the kind of header. *)
Definition kept_kind a a' : Prop :=
  r_state a' = r_state a /\ read_header (r_cpio a') = read_header (r_cpio a).

Lemma skip_any a : reader_ok a -> exists r a',
  archive_read_format_cpio_skip a = Some (r, a') /\ reader_ok a' /\ rest_of a' <= rest_of a /\ kept_kind a a' /\
  (r = ARCHIVE_OK /\ c_bytes_unconsumed (r_cpio a') = 0 \/ r = ARCHIVE_FATAL).
Proof.
  intros Ha. unfold archive_read_format_cpio_skip.
  match goal with |- context [archive_read_consume a ?n] => set (n0 := n) end.
  destruct (archive_consume_any a n0 Ha) as (x & a1 & -> & Ha1 & Hl1 & [Hk1 Hk2] & _). cbn [mbind option_bind].
  destruct (negb _).
  - do 2 eexists. split; [done|]. split_and!; [done..| |by right]. split; congruence.
  - do 2 eexists. split; [done|]. split_and!; [done..| |by left]. by split.
Qed.

(** [u] bytes were handed out and are dropped first. *)
Lemma read_data_any a : reader_ok a -> exists r b o a',
  archive_read_format_cpio_read_data junk a = Some (r, b, o, a') /\ reader_ok a' /\ kept_kind a a' /\
  rest_of a' <= rest_of a /\
  let u := c_bytes_unconsumed (r_cpio a) in let u' := c_bytes_unconsumed (r_cpio a') in
  (r = ARCHIVE_FATAL \/
   (0 <= u <= rest_of a -> rest_of a' <= rest_of a - u) /\
   (r = ARCHIVE_EOF /\ b = [] /\ u' = 0 \/
    r = ARCHIVE_OK /\ 1 <= blen b /\ u' = blen b /\ blen b <= rest_of a')).
Proof.
  intros Ha. unfold archive_read_format_cpio_read_data.
  assert (exists a1, (if negb (c_bytes_unconsumed (r_cpio a) =? 0) then
       '(_, a) ← archive_read_consume a (c_bytes_unconsumed (r_cpio a));
       Some (set_cpio a (set_unconsumed (r_cpio a) 0))
     else Some a) = Some a1 /\ reader_ok a1 /\ kept_kind a a1 /\ rest_of a1 <= rest_of a /\
     c_bytes_unconsumed (r_cpio a1) = 0 /\
     (0 <= c_bytes_unconsumed (r_cpio a) <= rest_of a -> rest_of a1 <= rest_of a - c_bytes_unconsumed (r_cpio a)))
    as (a1 & -> & Ha1 & Hk1 & Hl1 & Hu1 & Hl1').
  { destruct (Z.eqb_spec (c_bytes_unconsumed (r_cpio a)) 0) as [E|E]; cbn [negb].
    - exists a. rewrite E. split_and!; try done. lia.
    - destruct (archive_consume_any a (c_bytes_unconsumed (r_cpio a)) Ha) as (x & a1 & -> & Ha1 & Hl1 & [Hk1 Hk2] & Hor).
      cbn [mbind option_bind]. eexists. split; [done|]. split_and!; [done| |done|done|].
      + split; [done|]. cbn. by rewrite Hk2.
      + change (rest_of (set_cpio a1 (set_unconsumed (r_cpio a1) 0))) with (rest_of a1). lia. }
  cbn [mbind option_bind]. destruct (0 <? c_bytes_remaining (r_cpio a1)) eqn:Er.
  - destruct (archive_ahead_any a1 1 Ha1) as (o & x & a2 & -> & Ha2 & Hl2 & [Hk2 Hk2'] & Ho); [done|].
    cbn [mbind option_bind]. destruct (Z.leb_spec x 0) as [Hx|Hx].
    { do 4 eexists. split; [done|]. split_and!; [done| |lia|by left]. destruct Hk1. split; congruence. }
    destruct o as [w|]; [|specialize (Ho ltac:(lia)); lia]. destruct Ho as (Hw & -> & Hwl & Hl & _).
    cbn [mbind option_bind]. apply Z.ltb_lt in Er.
    set (n := if c_bytes_remaining (r_cpio a1) <? blen w then c_bytes_remaining (r_cpio a1) else blen w).
    assert (1 <= n <= blen w) as Hn by (unfold n; destruct (Z.ltb_spec (c_bytes_remaining (r_cpio a1)) (blen w)); lia).
    clearbody n. rewrite mread_Some by lia. cbn [mbind option_bind]. change (Z.to_nat 0) with O. rewrite drop_0.
    assert (blen (take (Z.to_nat n) w) = n) as Hb by (unfold blen in *; rewrite length_take; lia).
    do 4 eexists. split; [done|]. rewrite Hb. split_and!; [done| |change (rest_of a2 <= rest_of a); lia|].
    + destruct Hk1. split; cbn; congruence.
    + right. match goal with |- context [rest_of (set_cpio a2 ?c)] => change (rest_of (set_cpio a2 c)) with (rest_of a2) end.
      split; [lia|]. right. split_and!; [done|lia|done|lia].
  - destruct (archive_consume_any a1 (c_entry_padding (r_cpio a1)) Ha1) as (x & a2 & -> & Ha2 & Hl2 & [Hk2 Hk2'] & _).
    cbn [mbind option_bind]. destruct Hk1 as [Hk1 Hk1']. destruct (negb _).
    + do 4 eexists. split; [done|]. split_and!; [done| |lia|by left]. split; congruence.
    + do 4 eexists. split; [done|].
      split_and!; [done| |change (rest_of a2 <= rest_of a); lia|].
      * split; cbn; congruence.
      * right. split; [change (rest_of (set_cpio a2 (set_padding (r_cpio a2) 0))) with (rest_of a2); lia|].
        left. split_and!; [done..|]. cbn. by rewrite Hk2'.
Qed.

(** ** A client that calls in any order *)

Inductive reader_call := Next_header | Data_block | Data_skip.

Definition make_call a (e : archive_entry) (c : reader_call) : option (Z * archive_read U * archive_entry) :=
  match c with
  | Next_header => archive_read_next_header junk a e
  | Data_block => '(r, _, _, a) ← archive_read_data_block junk a; Some (r, a, e)
  | Data_skip => '(r, a) ← archive_read_data_skip a; Some (r, a, e)
  end.

(** The entry whose name a call compares with the trailer, if it gets there. *)
Definition compared a (e : archive_entry) (c : reader_call) : option (named_entry U) :=
  match c with
  | Next_header =>
      if check_magic a (Z.lor ARCHIVE_STATE_HEADER ARCHIVE_STATE_DATA) then
        '(r, a) ← (if r_state a =? ARCHIVE_STATE_DATA then archive_read_data_skip a
                   else Some (ARCHIVE_OK, a));
        if (r =? ARCHIVE_EOF) || (r =? ARCHIVE_FATAL) then None
        else
          t ← read_name junk a (archive_entry_clear e);
          match t with Named x => Some x | Done _ _ _ => None end
      else None
  | Data_block | Data_skip => None
  end.

(** The results of a sequence of calls, and the names they compare. *)
Fixpoint make_calls a (e : archive_entry) (cs : list reader_call)
  : option (list (Z * option (named_entry U))) :=
  match cs with
  | [] => Some []
  | c :: cs =>
      '(r, a', e') ← make_call a e c;
      rs ← make_calls a' e' cs;
      Some ((r, compared a e c) :: rs)
  end.

(** What holds between calls: a format was chosen, unless the archive failed. *)
Definition archive_ok a : Prop :=
  reader_ok a /\ (is_Some (read_header (r_cpio a)) \/ r_state a = ARCHIVE_STATE_FATAL).

Lemma check_magic_fatal a s : r_state a = ARCHIVE_STATE_FATAL ->
  s = ARCHIVE_STATE_DATA \/ s = Z.lor ARCHIVE_STATE_HEADER ARCHIVE_STATE_DATA -> check_magic a s = false.
Proof. unfold check_magic. by intros -> [-> | ->]. Qed.

Lemma fatal_ok a : reader_ok a -> archive_ok (set_rstate a ARCHIVE_STATE_FATAL).
Proof. intros Ha. split; [done|by right]. Qed.

Lemma data_skip_any a : archive_ok a -> exists r a',
  archive_read_data_skip a = Some (r, a') /\ archive_ok a' /\ rest_of a' <= rest_of a /\
  (r = ARCHIVE_FATAL \/ r = ARCHIVE_OK /\ read_header (r_cpio a') = read_header (r_cpio a) /\
     c_bytes_unconsumed (r_cpio a') = 0).
Proof.
  intros [Ha Hf]. unfold archive_read_data_skip.
  destruct (check_magic a ARCHIVE_STATE_DATA) eqn:Em; cbn [negb]; last first.
  { do 2 eexists. split; [done|]. split; [by apply fatal_ok|]. split; [done|by left]. }
  destruct Hf as [Hf|Hf]; [|rewrite check_magic_fatal in Em; (done || by left)].
  destruct (skip_any a Ha) as (r & a1 & -> & Ha1 & Hl1 & [Hk1 Hk2] & Hor). cbn [mbind option_bind].
  do 2 eexists. split; [done|]. split; [split; [done|left; cbn; congruence]|]. split; [done|].
  destruct Hor as [[-> ?]| ->]; [right|left; done]. by split_and!.
Qed.

(** What a header that was read leaves behind. *)
Definition header_read a a' : Prop :=
  r_state a' = ARCHIVE_STATE_DATA /\ is_Some (read_header (r_cpio a')) /\
  rest_of a' + bin_header_size <= rest_of a /\
  (r_state a = ARCHIVE_STATE_DATA \/ c_bytes_unconsumed (r_cpio a) = 0 -> c_bytes_unconsumed (r_cpio a') = 0).

Lemma next_header_any a e : archive_ok a -> exists r a' e',
  archive_read_next_header junk a e = Some (r, a', e') /\ archive_ok a' /\ rest_of a' <= rest_of a /\
  (r = ARCHIVE_EOF \/ r = ARCHIVE_FATAL /\ r_state a' = ARCHIVE_STATE_FATAL \/
   (r = ARCHIVE_OK \/ r = ARCHIVE_WARN) /\ header_read a a').
Proof.
  intros Hok. pose proof Hok as [Ha Hf]. unfold archive_read_next_header.
  destruct (check_magic a (Z.lor ARCHIVE_STATE_HEADER ARCHIVE_STATE_DATA)) eqn:Em; cbn [negb]; last first.
  { do 3 eexists. split; [done|]. split; [by apply fatal_ok|]. split; [done|]. right. by left. }
  destruct Hf as [Hf|Hf]; [|rewrite check_magic_fatal in Em; (done || by right)].
  assert (exists r1 a1, (if r_state a =? ARCHIVE_STATE_DATA then archive_read_data_skip a
    else Some (ARCHIVE_OK, a)) = Some (r1, a1) /\ archive_ok a1 /\ rest_of a1 <= rest_of a /\
    (r1 = ARCHIVE_FATAL \/ r1 = ARCHIVE_OK /\ is_Some (read_header (r_cpio a1)) /\
      (r_state a = ARCHIVE_STATE_DATA \/ c_bytes_unconsumed (r_cpio a) = 0 -> c_bytes_unconsumed (r_cpio a1) = 0)))
    as (r1 & a1 & -> & Ha1 & Hl1 & Hor).
  { destruct (Z.eqb_spec (r_state a) ARCHIVE_STATE_DATA) as [E|E]; last first.
    { exists ARCHIVE_OK, a. do 3 (split; [done|]). right. split_and!; [done..|]. by intros [?|?]. }
    destruct (data_skip_any a Hok) as (r1 & a1 & -> & Ha1 & Hl1 & Hor). do 2 eexists.
    do 3 (split; [done|]). destruct Hor as [?|(? & E' & ?)]; [by left|right]. split_and!; [done|by rewrite E'|done]. }
  cbn [mbind option_bind]. destruct Hor as [-> |(-> & Hh & Hu)].
  { change ((ARCHIVE_FATAL =? ARCHIVE_EOF) || (ARCHIVE_FATAL =? ARCHIVE_FATAL)) with true. cbn iota.
    do 3 eexists. split; [done|]. split; [apply fatal_ok, Ha1|]. split; [done|]. right. by left. }
  change ((ARCHIVE_OK =? ARCHIVE_EOF) || (ARCHIVE_OK =? ARCHIVE_FATAL)) with false. cbn iota.
  destruct Ha1 as [Ha1 _].
  destruct (read_header_any a1 (archive_entry_clear e) Ha1 Hh) as (r2 & a2 & e2 & -> & Ha2 & Hl2 & (Hk1 & Hk2 & Hk3) & Hr2).
  cbn [mbind option_bind]. do 3 eexists. split; [done|].
  split; [split; [done|left; cbn; by rewrite Hk2]|]. split; [change (rest_of a2 <= rest_of a); lia|].
  destruct Hr2 as [-> |[Hor Hl3]]; [right; by left|].
  assert (rest_of (set_rstate a2 (header_state r2 (r_state a2))) + bin_header_size <= rest_of a)
    by (change (rest_of a2 + bin_header_size <= rest_of a); lia).
  assert (r2 = ARCHIVE_OK \/ r2 = ARCHIVE_WARN -> header_read a (set_rstate a2 (header_state r2 (r_state a2)))) as Hread.
  { intros Hx. split_and!; [by destruct Hx as [-> | ->]|cbn; by rewrite Hk2|done|].
    intros E. cbn. rewrite Hk3. by apply Hu. }
  destruct Hor as [-> |[-> | ->]]; [right; right; split; [by left|apply Hread; by left]
    |right; right; split; [by right|apply Hread; by right]|by left].
Qed.

Lemma data_block_any a : archive_ok a -> exists r b o a',
  archive_read_data_block junk a = Some (r, b, o, a') /\ archive_ok a' /\ rest_of a' <= rest_of a.
Proof.
  intros [Ha Hf]. unfold archive_read_data_block.
  destruct (check_magic a ARCHIVE_STATE_DATA) eqn:Em; cbn [negb]; last first.
  { do 4 eexists. split; [done|]. split; [by apply fatal_ok|done]. }
  destruct Hf as [Hf|Hf]; [|rewrite check_magic_fatal in Em; (done || by left)].
  destruct (read_data_any a Ha) as (r & b & o & a1 & -> & Ha1 & [Hk1 Hk2] & Hl1 & _).
  do 4 eexists. split; [done|]. split; [|done]. split; [done|left]. by rewrite Hk2.
Qed.

Lemma compared_any a e c x : archive_ok a -> compared a e c = Some x -> lost x = true ->
  n_length x = 11 /\ archive_entry_filetype (n_entry x) = AE_IFLNK /\ steady = false.
Proof.
  intros Hok. destruct c; cbn [compared]; [|done..].
  destruct (check_magic a (Z.lor ARCHIVE_STATE_HEADER ARCHIVE_STATE_DATA)) eqn:Em; [|done].
  pose proof Hok as [Ha Hf]. destruct Hf as [Hf|Hf]; [|rewrite check_magic_fatal in Em; (done || by right)].
  assert (exists r1 a1, (if r_state a =? ARCHIVE_STATE_DATA then archive_read_data_skip a
    else Some (ARCHIVE_OK, a)) = Some (r1, a1) /\ reader_ok a1 /\
    (r1 = ARCHIVE_FATAL \/ is_Some (read_header (r_cpio a1)))) as (r1 & a1 & -> & Ha1 & Hh).
  { destruct (r_state a =? ARCHIVE_STATE_DATA); [|by exists ARCHIVE_OK, a; split_and!; [| |right]].
    destruct (data_skip_any a Hok) as (r1 & a1 & -> & [Ha1 _] & _ & Hor). exists r1, a1. split_and!; [done..|].
    destruct Hor as [?|(_ & E & _)]; [by left|right; by rewrite E]. }
  cbn [mbind option_bind]. destruct ((r1 =? ARCHIVE_EOF) || (r1 =? ARCHIVE_FATAL)) eqn:E; [done|].
  destruct Hh as [->|Hh]; [done|].
  destruct (read_name_any a1 (archive_entry_clear e) Ha1 Hh) as (t & -> & Ht). cbn [mbind option_bind].
  destruct t as [|y]; [done|]. intros Hx. injection Hx as ->. apply Ht.
Qed.

Lemma make_calls_any a e cs : archive_ok a -> exists rs,
  make_calls a e cs = Some rs /\ length rs = length cs /\
  Forall (fun res => forall x, res.2 = Some x -> lost x = true ->
    n_length x = 11 /\ archive_entry_filetype (n_entry x) = AE_IFLNK /\ steady = false) rs.
Proof.
  revert a e. induction cs as [|c cs IH]; intros a e Ha; [by exists []|]. cbn [make_calls].
  assert (exists r a' e', make_call a e c = Some (r, a', e') /\ archive_ok a') as (r & a' & e' & -> & Ha').
  { destruct c; cbn [make_call].
    - destruct (next_header_any a e Ha) as (r & a' & e' & -> & Ha' & _). by do 3 eexists.
    - destruct (data_block_any a Ha) as (r & b & o & a' & -> & Ha' & _). by do 3 eexists.
    - destruct (data_skip_any a Ha) as (r & a' & -> & Ha' & _). by do 3 eexists. }
  cbn [mbind option_bind]. destruct (IH a' e' Ha') as (rs & -> & Hl & Hrs). cbn [mbind option_bind].
  eexists. split; [done|]. split; [cbn; by rewrite Hl|]. constructor; [|done]. cbn. intros x. by apply compared_any.
Qed.

Lemma open_any f : filter_new f -> exists r a,
  archive_read_open1 junk f = Some (r, a) /\ archive_ok a /\ rest_of a <= left f /\
  (r = ARCHIVE_OK /\ is_Some (read_header (r_cpio a)) /\ c_bytes_unconsumed (r_cpio a) = 0 /\
     r_state a = ARCHIVE_STATE_HEADER \/ r = ARCHIVE_FATAL /\ r_state a = ARCHIVE_STATE_FATAL).
Proof.
  intros Hf. unfold archive_read_open1, archive_read_format_cpio_bid.
  destruct (archive_ahead_new (Reader ARCHIVE_STATE_NEW false f cpio_new) 6 Hf) as (o & x & a1 & -> & Ha1 & Hl1 & [Hk1 Hk2] & Ho);
    [done|by left|]. change (rest_of (Reader ARCHIVE_STATE_NEW false f cpio_new)) with (left f) in Hl1.
  cbn in Hk2. cbn [mbind option_bind]. destruct o as [p|]; last first.
  { cbn [mbind option_bind]. change (-1 <? 1) with true. cbn iota. do 2 eexists. split; [done|].
    split; [by apply fatal_ok|]. split; [done|by right]. }
  destruct Ho as (Hp & _ & _ & _ & Hb).
  destruct (two_in be2 p 0) as (be & -> & _); [tauto|done|lia|lia|].
  destruct (two_in le2 p 0) as (le & -> & _); [tauto|done|lia|lia|]. cbn [mbind option_bind].
  assert (forall k bid, (1 <= bid)%Z -> exists r a,
    ('(bid, a) ← Some (bid, set_cpio a1 (set_reader (r_cpio a1) k));
     if bid <? 1 then Some (ARCHIVE_FATAL, set_rstate a ARCHIVE_STATE_FATAL)
     else Some (ARCHIVE_OK, set_rstate a ARCHIVE_STATE_HEADER)) = Some (r, a) /\ archive_ok a /\
    rest_of a <= left f /\ (r = ARCHIVE_OK /\ is_Some (read_header (r_cpio a)) /\
      c_bytes_unconsumed (r_cpio a) = 0 /\ r_state a = ARCHIVE_STATE_HEADER \/
      r = ARCHIVE_FATAL /\ r_state a = ARCHIVE_STATE_FATAL)) as Hchoose.
  { intros k bid Hbid. cbn [mbind option_bind]. destruct (Z.ltb_spec bid 1); [lia|]. do 2 eexists. split; [done|].
    split; [split; [done|left; by eexists]|]. split; [done|]. left. split_and!; [done|by eexists|cbn; by rewrite Hk2|done]. }
  repeat (case_match; [by apply Hchoose|]).
  cbn [mbind option_bind]. change (ARCHIVE_WARN <? 1) with true. cbn iota. do 2 eexists. split; [done|].
  split; [by apply fatal_ok|]. split; [done|by right].
Qed.

(** ** The client that reads everything *)

Lemma read_body_any fuel a pos : archive_ok a -> r_state a = ARCHIVE_STATE_DATA ->
  is_Some (read_header (r_cpio a)) -> 0 <= c_bytes_unconsumed (r_cpio a) <= rest_of a ->
  rest_of a - c_bytes_unconsumed (r_cpio a) < Z.of_nat fuel ->
  exists ok b a', read_body junk fuel a pos = Some (ok, b, a') /\
  (ok = true -> archive_ok a' /\ r_state a' = ARCHIVE_STATE_DATA /\ c_bytes_unconsumed (r_cpio a') = 0 /\
     rest_of a' + blen b <= rest_of a - c_bytes_unconsumed (r_cpio a)).
Proof.
  revert a pos. induction fuel as [|fuel IH]; intros a pos Hok Hst Hh Hu Hf; [lia|]. cbn [read_body].
  unfold archive_read_data_block, check_magic. rewrite Hst.
  change (negb (negb (Z.land ARCHIVE_STATE_DATA ARCHIVE_STATE_DATA =? 0))) with false. cbn iota.
  destruct Hok as [Ha _]. destruct (read_data_any a Ha) as (r & b & o & a1 & -> & Ha1 & [Hk1 Hk2] & Hl1 & Hr).
  cbn [mbind option_bind]. destruct Hr as [-> |(Hl & [(-> & -> & Hu1)|(-> & Hb & Hu1 & Hl2)])].
  - change (ARCHIVE_FATAL =? ARCHIVE_EOF) with false. change (ARCHIVE_FATAL =? ARCHIVE_OK) with false.
    cbn [andb negb]. by do 3 eexists.
  - rewrite Z.eqb_refl. do 3 eexists. split; [done|]. intros _. change (blen []) with 0. specialize (Hl Hu).
    split_and!; [split; [done|left; by rewrite Hk2]|congruence|done|lia].
  - change (ARCHIVE_OK =? ARCHIVE_EOF) with false. rewrite Z.eqb_refl. cbn [andb]. cbn iota.
    specialize (Hl Hu). destruct (o =? pos); cbn [negb]; [|by do 3 eexists].
    destruct (IH a1 (pos + blen b)) as (ok & bs & a2 & -> & Hpost);
      [split; [done|left; by rewrite Hk2]|congruence|by rewrite Hk2|lia|lia|].
    cbn [mbind option_bind]. do 3 eexists. split; [done|]. intros Hx. destruct (Hpost Hx) as (? & ? & ? & ?).
    split_and!; [done..|]. rewrite blen_app. lia.
Qed.

(** The stream an entry and its body account for. *)
Definition cost (l : list (archive_entry * bytes)) : Z :=
  bin_header_size * Z.of_nat (length l) + blen (concat (map snd l)).

Lemma cost_cons e b l : cost ((e, b) :: l) = bin_header_size + blen b + cost l.
Proof. unfold cost. cbn [map concat snd length]. rewrite blen_app, Nat2Z.inj_succ. lia. Qed.

Lemma rest_le_stream a : rest_of a <= blen (stream (r_filter a)).
Proof. unfold rest_of, left. destruct (fatal _); [apply blen_nonneg|done]. Qed.

Lemma read_entries_any fuel a e : archive_ok a -> c_bytes_unconsumed (r_cpio a) = 0 ->
  rest_of a < Z.of_nat fuel ->
  exists r l, read_entries junk fuel a e = Some (r, l) /\ r <> ARCHIVE_OK /\ cost l <= rest_of a.
Proof.
  revert a e. induction fuel as [|fuel IH]; intros a e Hok Hu Hf; [pose proof (rest_nonneg a); lia|].
  cbn [read_entries]. destruct (next_header_any a e Hok) as (r & a1 & e1 & -> & Hok1 & Hl1 & Hr).
  pose proof (rest_nonneg a). cbn [mbind option_bind]. destruct (Z.eqb_spec r ARCHIVE_OK) as [E|E]; cbn [negb]; [|by exists r, []].
  destruct Hr as [->|[[-> _]|[_ (Hst1 & Hh1 & Hl2 & Hu1)]]]; [done..|].
  specialize (Hu1 (or_intror Hu)). unfold bin_header_size in Hl2.
  pose proof (rest_le_stream a1). pose proof (rest_nonneg a1).
  destruct (read_body_any (length (stream (r_filter a1)) + 2) a1 0) as (ok & b & a2 & -> & Hb);
    [done|done|done|lia|unfold blen in *; lia|]. cbn [mbind option_bind].
  destruct ok; cbn [negb]; [|exists ARCHIVE_FAILED, []; by split_and!].
  destruct Hb as (Hok2 & Hst2 & Hu2 & Hl3); [done|]. pose proof (blen_nonneg b).
  destruct (IH a2 e1) as (r' & l & -> & Hr' & Hc); [done|done|lia|]. cbn [mbind option_bind].
  exists r', ((e1, b) :: l). split; [done|]. split; [done|]. rewrite cost_cons. unfold bin_header_size. lia.
Qed.

Lemma read_archive_any f : filter_new f -> exists r l,
  read_archive junk f = Some (r, l) /\ r <> ARCHIVE_OK /\ cost l <= left f.
Proof.
  intros Hf. unfold read_archive. destruct (open_any f Hf) as (r & a & -> & Hok & Hl & Hr).
  cbn [mbind option_bind]. destruct (Z.eqb_spec r ARCHIVE_OK) as [E|E]; last first.
  { exists r, []. split; [done|]. split; [done|apply left_nonneg]. }
  destruct Hr as [(_ & _ & Hu & _)|[-> _]]; [|done].
  destruct (read_entries_any (length (stream f) + 1) a archive_entry_new Hok Hu) as (r' & l & -> & Hr' & Hc).
  { unfold left, blen in Hl. destruct (fatal f); lia. }
  exists r', l. split; [done|]. split; [done|lia].
Qed.
End Safety.

(** C17. What any archive can make the reader do.  For every stream of bytes,
    however it was made and in whatever blocks the layer below delivers it,
    with or without errors on the way, and for every sequence of calls of
    next_header, data_block and data_skip in any order, in particular also
    after end of archive or an error: opening and each call return a result.
    No look-ahead, copy or move leaves a buffer, no field is taken from outside
    a header, and the search for a header ends.  One read can see memory that
    is not the reader's any more, and only this one: the comparison of a name
    with TRAILER!!!, for a symbolic link with a name of ten bytes and when the
    archive does not lie in memory as one block; for all other names, and for
    all archives in memory, the bytes compared are those of the name. *)
Theorem reader_safe {U} `{UpstreamLaws U} (junk : Z -> Z) (f : archive_read_filter U)
  (e : archive_entry) (calls : list reader_call) :
  valid f -> fatal f = false -> Forall is_byte (stream f) ->
  exists r a rs, archive_read_open1 junk f = Some (r, a) /\
  make_calls junk a e calls = Some rs /\ length rs = length calls /\
  Forall (fun res => forall x, res.2 = Some x -> lost x = true ->
    n_length x = 11 /\ archive_entry_filetype (n_entry x) = AE_IFLNK /\ ~ in_memory f) rs.
Proof.
  intros Hv Hf Hb. destruct (open_any junk false f) as (r & a & Ho & Ha & _); [by split|].
  destruct (make_calls_any junk false a e calls Ha) as (rs & Hrs & Hl & Hlost). exists r, a, rs.
  split_and!; [done..|]. apply Forall_forall. intros res Hin x Hx Hlx. rewrite Forall_forall in Hlost.
  destruct (Hlost res Hin x Hx Hlx) as (? & ? & _). split_and!; [done..|]. intros Hm.
  destruct (open_any junk true f) as (r' & a' & Ho' & Ha' & _); [by split|]. rewrite Ho in Ho'. injection Ho' as <- <-.
  destruct (make_calls_any junk true a e calls Ha') as (rs' & Hrs' & _ & Hlost'). rewrite Hrs in Hrs'.
  injection Hrs' as <-. rewrite Forall_forall in Hlost'. by destruct (Hlost' res Hin x Hx Hlx) as (_ & _ & ?).
Qed.

(** A link whose length is read as -1, in the format of large afio archives. *)
Definition hostile : bytes :=
  str "070727" ++ str "00000000" ++ str "0000000000000000" ++ str "m" ++ str "120777" ++
  str "000000000000000000000001" ++ str "00000000" ++ str "0000000000000000" ++ str "n" ++
  str "0002" ++ str "0000" ++ str "0000" ++ str "s" ++ str "ffffffffffffffff" ++ str ":" ++
  str "a" ++ [0] ++ zeros 100.

Lemma reader_safe_witness :
  let f := new_filter (archive_read_open_memory2 hostile 10) in
  exists r a rs, archive_read_open1 (fun _ => 0) f = Some (r, a) /\
  make_calls (fun _ => 0) a archive_entry_new
    [Data_block; Next_header; Data_skip; Next_header; Data_block] = Some rs /\ length rs = 5%nat /\
  Forall (fun res => forall x, res.2 = Some x -> lost x = true ->
    n_length x = 11 /\ archive_entry_filetype (n_entry x) = AE_IFLNK /\ ~ in_memory f) rs.
Proof.
  apply (reader_safe (fun _ => 0) (new_filter (archive_read_open_memory2 hostile 10)) archive_entry_new
    [Data_block; Next_header; Data_skip; Next_header; Data_block]).
  - apply new_filter_valid. split; vm_compute; by split.
  - done.
  - apply is_byte_check. vm_compute. reflexivity.
Defined.

(** C18. Reading an archive to its end always comes to an end.  A client that
    takes every header and every body gets to a result other than success,
    whatever the bytes: end of archive, a warning or an error.  The fuel of the
    client is the length of the stream, so it makes no more calls than there
    are bytes; and what it has got by then, the headers of the entries and all
    bodies together, is no longer than the archive. *)
Theorem reader_ends {U} `{UpstreamLaws U} (junk : Z -> Z) (f : archive_read_filter U) :
  valid f -> fatal f = false -> Forall is_byte (stream f) ->
  exists r l, read_archive junk f = Some (r, l) /\ r <> ARCHIVE_OK /\
  bin_header_size * Z.of_nat (length l) + blen (concat (map snd l)) <= blen (stream f).
Proof.
  intros Hv Hf Hb. destruct (read_archive_any junk false f) as (r & l & He & Hr & Hc); [by split|].
  exists r, l. split; [exact He|]. split; [done|]. by rewrite (left_stream f Hf) in Hc.
Qed.

Lemma reader_ends_witness :
  exists r l, read_archive (fun _ => 0) (new_filter (archive_read_open_memory2 hostile 10)) = Some (r, l) /\
  r <> ARCHIVE_OK /\
  bin_header_size * Z.of_nat (length l) + blen (concat (map snd l)) <=
  blen (stream (new_filter (archive_read_open_memory2 hostile 10))).
Proof.
  apply (reader_ends (fun _ => 0) (new_filter (archive_read_open_memory2 hostile 10))).
  - apply new_filter_valid. split; vm_compute; by split.
  - done.
  - apply is_byte_check. vm_compute. reflexivity.
Defined.
