(* ===== verification/Cpio.v ===== *)
(** Packing a directory into a cpio archive and unpacking one (cpio.c).

    The file system, as far as packing asks it, is a record of its answers.
    Behind the archives are interfaces: the chain of output filters that ends in
    memory ([Chain]: the gzip filter and the memory client), the input pipeline
    ([pipeline]: the filters chosen for a block of memory), and the disk writer
    ([Disk]).  What the calls report is not looked at where the code does not
    look at it.  [None] is an access outside an object; where a path does not
    fit its buffer while unpacking, the outcome [Overflow] says so. *)
From S2P Require Import Prelude Util Stdio Readahead Archiveentry Archivewrite Newc Cpioread Cpioarchive Cpiosafety.

Abbreviation path := (list Z).

(** ** The file system *)

Record file_stat := FileStat { st_mode : Z; st_size : Z }.

(** A directory entry: its name, and whether [d_type] is [DT_DIR]. *)
Record dirent := Dirent { d_name : path; d_dir : bool }.

Record filesystem := Filesystem {
  realpath : path -> option path;
  opendir : path -> option (list dirent);
  lstat : path -> option file_stat;
  readlink : path -> option bytes;
  contents : path -> option bytes
}.

Definition S_IFMT := 0xF000.
Definition S_IFREG := 0x8000.
Definition S_IFDIR := 0x4000.
Definition S_IFLNK := 0xA000.

(** ** Walking a tree *)

(** [snprintf] into [char path[PATH_MAX]]. *)
Definition join_path (name d : path) : path := take (Z.to_nat (PATH_MAX - 1)) (name ++ str "/" ++ d).

Definition is_dot (d : path) : bool := bool_decide (d = str ".") || bool_decide (d = str "..").

Section Walk.
Context (fs : filesystem) {A : Type} (fn : path -> A -> A).

(** Entries of a directory in the order [readdir] gives them, each directory
    after what it holds. *)
Definition walk_entries (walk : path -> A -> option A) (name : path) : list dirent -> A -> option A :=
  fix go des arg :=
    match des with
    | [] => Some arg
    | de :: des =>
        let p := join_path name (d_name de) in
        if d_dir de then
          if is_dot (d_name de) then go des arg
          else arg ← walk p arg; go des (fn p arg)
        else go des (fn p arg)
    end.

(** [fuel] bounds the depth. *)
Fixpoint bxxt_tree_walk (fuel : nat) (name : path) (arg : A) : option A :=
  match fuel with
  | O => None
  | S fuel =>
      match opendir fs name with
      | None => Some arg
      | Some des => walk_entries (bxxt_tree_walk fuel) name des arg
      end
  end.

End Walk.

(** The order of [strcmp]: bytes as [unsigned char], a prefix first. *)
Fixpoint strcmp_le (a b : bytes) : bool :=
  match a, b with
  | [], _ => true
  | _ :: _, [] => false
  | x :: a, y :: b => if x =? y then strcmp_le a b else x <? y
  end.

Definition compare (a b : bytes) : Prop := strcmp_le a b = true.
#[export] Instance compare_dec a b : Decision (compare a b).
Proof. unfold compare. apply _. Defined.

Definition bxxt_cpio_walk_entries (p : path) (wde : list path) : list path := wde ++ [p].

(** ** The state of packing *)

(** The chain of filters over a block of memory. *)
Class Chain (W : Type) := {
  chain_open : bytes -> W;
  chain_memory : W -> write_memory_data
}.

Record bxxt_cpio (W : Type) := BxxtCpio {
  cp_path : path;
  archive_size_gussed : Z;
  cp_w : archive_write newc W;
  inode : Z
}.
Arguments BxxtCpio {W}.
Arguments cp_path {W}.
Arguments archive_size_gussed {W}.
Arguments cp_w {W}.
Arguments inode {W}.

Section Pack.
Context {W : Type} `{Sink W, Chain W} (fs : filesystem).

Definition set_w (cp : bxxt_cpio W) (a : archive_write newc W) : bxxt_cpio W :=
  BxxtCpio (cp_path cp) (archive_size_gussed cp) a (inode cp).

Definition bxxt_cpio_archive_new : bxxt_cpio W :=
  BxxtCpio [] 0
    (Archive ARCHIVE_STATE_NEW newc_new (WFilter ARCHIVE_WRITE_FILTER_STATE_NEW (chain_open []) 0))
    300000.

Definition archive_write_open_chain (cp : bxxt_cpio W) (b : bytes) : bxxt_cpio W :=
  set_w cp (Archive ARCHIVE_STATE_HEADER (format_data (cp_w cp))
              (WFilter ARCHIVE_WRITE_FILTER_STATE_OPEN (chain_open b) 0)).

(** The sum is a [uint32_t]. *)
Definition bxxt_cpio_archive_guess_buffer_size (p : path) (gussed : Z) : Z :=
  let st := match lstat fs p with Some st => st_size st | None => 0 end in
  u32 (u32 (gussed + st) + PATH_MAX).

(** The target of a link in [char link[PATH_MAX]], which must end in a zero. *)
Definition link_of (p : path) : option bytes :=
  let t := match readlink fs p with Some t => t | None => [] end in
  if blen t <? PATH_MAX then Some (before_nul t) else None.

(** The entry of a file, up to its number. *)
Definition entry_of (d_name a_name : path) (st : file_stat) : option archive_entry :=
  let e := archive_entry_new in
  let e := archive_entry_set_pathname e (Some a_name) in
  let e := archive_entry_set_size e (st_size st) in
  let e := archive_entry_set_perm e (st_mode st) in
  let e := archive_entry_set_uid e 0 in
  let e := archive_entry_set_gid e 0 in
  let fmt := Z.land (st_mode st) S_IFMT in
  e ← (if fmt =? S_IFREG then Some (archive_entry_set_filetype e AE_IFREG)
       else if fmt =? S_IFDIR then Some (archive_entry_set_filetype e AE_IFDIR)
       else if fmt =? S_IFLNK then
         link ← link_of d_name;
         Some (archive_entry_set_symlink (archive_entry_set_filetype e AE_IFLNK) (Some link))
       else Some e);
  let e := archive_entry_set_mtime e 0 in
  let e := archive_entry_set_nlink e 1 in
  let e := archive_entry_set_rdev e 0 in
  Some (archive_entry_set_dev e 0).

(** [read] in blocks of 4096 bytes; what [archive_write_data] reports is not
    looked at. *)
Fixpoint copy_file (fuel : nat) (a : archive_write newc W) (data : bytes) : option (archive_write newc W) :=
  match fuel with
  | O => None
  | S fuel =>
      if blen data =? 0 then Some a
      else
        '(_, a) ← archive_write_data a (take 4096 data);
        copy_file fuel a (drop 4096 data)
  end.

Definition bxxt_cpio_archive_write (cp : bxxt_cpio W) (d_name a_name : path)
  : option (Z * bxxt_cpio W) :=
  match lstat fs d_name with
  | None => Some (ARCHIVE_FAILED, cp)
  | Some st =>
      e ← entry_of d_name a_name st;
      let e := archive_entry_set_ino e (inode cp) in
      '(_, a, e) ← archive_write_header (cp_w cp) e;
      let cp := BxxtCpio (cp_path cp) (archive_size_gussed cp) a (u32 (inode cp + 1)) in
      if 0 <? archive_entry_size e then
        let data := match contents fs d_name with Some d => d | None => [] end in
        a ← copy_file (length data + 1) (cp_w cp) data;
        Some (ARCHIVE_OK, set_w cp a)
      else Some (ARCHIVE_OK, cp)
  end.

(** [path + strlen(cp->path) + 1] must lie in the string or at its end. *)
Definition bxxt_cpio_archive_add_file (p : path) (cp : bxxt_cpio W) : option (bxxt_cpio W) :=
  if blen (cp_path cp) + 1 <=? blen p then
    '(_, cp) ← bxxt_cpio_archive_write cp p (drop (length (cp_path cp) + 1) p);
    Some cp
  else None.

Fixpoint add_files (ps : list path) (cp : bxxt_cpio W) : option (bxxt_cpio W) :=
  match ps with
  | [] => Some cp
  | p :: ps => cp ← bxxt_cpio_archive_add_file p cp; add_files ps cp
  end.

(** [depth] bounds the walk; what closing the archive reports is not looked
    at. *)
Definition bxxt_cpio_archive_out (junk : Z -> Z) (depth : nat) (p : path)
  : option (Z * option bxxt_buffer) :=
  match realpath fs p with
  | None => Some (ARCHIVE_FAILED, None)
  | Some rpath =>
      if PATH_MAX <=? blen rpath then None
      else
        gussed ← bxxt_tree_walk fs bxxt_cpio_archive_guess_buffer_size depth rpath 0;
        let cp := bxxt_cpio_archive_new in
        let cp := BxxtCpio rpath gussed (cp_w cp) (inode cp) in
        let bb := bxxt_buffer_create (archive_size_gussed cp) in
        let cp := archive_write_open_chain cp (ptr bb) in
        wde ← bxxt_tree_walk fs bxxt_cpio_walk_entries depth rpath [];
        cp ← add_files (merge_sort compare wde) cp;
        '(_, a) ← archive_write_close (cp_w cp);
        let m := chain_memory (f_data (filter_first a)) in
        let bb := Buffer (Util.size bb) (buff m) in
        bb ← bxxt_buffer_resize junk bb (s32 (used m - Util.size bb));
        Some (ARCHIVE_OK, Some bb)
  end.

End Pack.

(** ** Unpacking *)

(** The disk writer: the results of the first and the last call are ignored. *)
Class Disk (D : Type) := {
  disk_header : D -> archive_entry -> D;
  disk_block : D -> bytes -> Z -> Z * D;
  disk_finish : D -> D
}.

Class Pipeline (U : Type) := pipeline : bytes -> archive_read_filter U.

(** Unpacking returns, or writes past the end of [fpath]. *)
Inductive unpacking (A D : Type) := Returned (x : A) (d : D) | Overflow (d : D).
Arguments Returned {A D}.
Arguments Overflow {A D}.

Section Unpack.
Context {U D : Type} `{Upstream U, Pipeline U, Disk D} (junk : Z -> Z) (fs : filesystem).

Fixpoint extract_body (fuel : nat) (a : archive_read U) (d : D) : option (archive_read U * D) :=
  match fuel with
  | O => None
  | S fuel =>
      '(r, b, offset, a) ← archive_read_data_block junk a;
      if (r =? ARCHIVE_EOF) || (r <? ARCHIVE_OK) then Some (a, d)
      else
        let '(r, d) := disk_block d b offset in
        if r <? ARCHIVE_OK then Some (a, d) else extract_body fuel a d
  end.

(** [sprintf] into [char fpath[PATH_MAX]]. *)
Definition bxxt_cpio_archive_read_entry (rpath : path) (a : archive_read U) (e : archive_entry) (d : D)
  : option (unpacking (Z * archive_read U * archive_entry) D) :=
  match archive_entry_pathname e with
  | None => Some (Returned (ARCHIVE_FAILED, a, e) d)
  | Some name =>
      let fpath := rpath ++ str "/" ++ name in
      if PATH_MAX <=? blen fpath then Some (Overflow d)
      else
        let e := archive_entry_set_pathname e (Some fpath) in
        let d := disk_header d e in
        '(a, d) ← extract_body (length (stream (r_filter a)) + 2) a d;
        Some (Returned (ARCHIVE_OK, a, e) (disk_finish d))
  end.

Fixpoint archive_in_loop (fuel : nat) (rpath : path) (a : archive_read U) (e : archive_entry) (d : D)
  : option (unpacking Z D) :=
  match fuel with
  | O => None
  | S fuel =>
      '(r, a, e) ← archive_read_next_header junk a e;
      if r =? ARCHIVE_EOF then Some (Returned ARCHIVE_OK d)
      else
        x ← bxxt_cpio_archive_read_entry rpath a e d;
        match x with
        | Overflow d => Some (Overflow d)
        | Returned (r, a, e) d =>
            if negb (r =? ARCHIVE_OK) then Some (Returned ARCHIVE_OK d)
            else archive_in_loop fuel rpath a e d
        end
  end.

(** Each round takes a header or makes the path longer. *)
Definition bxxt_cpio_archive_in (bb : bxxt_buffer) (p : path) (d : D) : option (unpacking Z D) :=
  match realpath fs p with
  | None => Some (Returned ARCHIVE_FAILED d)
  | Some rpath =>
      if PATH_MAX <=? blen rpath then None
      else
        b ← mread (ptr bb) 0 (Util.size bb);
        '(_, a) ← archive_read_open1 junk (pipeline b);
        archive_in_loop (length (stream (r_filter a)) + Z.to_nat PATH_MAX + 2) rpath a
          archive_entry_new d
  end.

End Unpack.
