(* ===== verification/Cpiounpack.v ===== *)
(** Unpacking archives: what [bxxt_cpio_archive_in] does with any bytes, with an
    archive that overflows its path buffer, and with a good one. *)
From S2P Require Import Prelude Util Stdio Readahead Window Archiveentry Archivewrite Newc Cpioread Cpioarchive Cpiosafety Cpio.

(** ** Unpacking any archive *)

Section AnyArchive.
Context {U D : Type} `{UpstreamLaws U, Pipeline U, Disk D} (junk : Z -> Z) (steady : bool) (fs : filesystem).
Implicit Types (a : archive_read U) (d : D).

(** Between two entries. *)
Definition client_ok_at a : Prop :=
  archive_ok steady a /\ (r_state a = ARCHIVE_STATE_HEADER -> c_bytes_unconsumed (r_cpio a) = 0) /\
  (r_state a = ARCHIVE_STATE_HEADER \/ r_state a = ARCHIVE_STATE_DATA \/ r_state a = ARCHIVE_STATE_FATAL).

Lemma extract_body_any fuel a d : archive_ok steady a -> r_state a = ARCHIVE_STATE_DATA ->
  0 <= c_bytes_unconsumed (r_cpio a) <= rest_of a ->
  rest_of a - c_bytes_unconsumed (r_cpio a) < Z.of_nat fuel ->
  exists a' d', extract_body junk fuel a d = Some (a', d') /\ archive_ok steady a' /\ rest_of a' <= rest_of a /\
  r_state a' = ARCHIVE_STATE_DATA.
Proof.
  revert a d. induction fuel as [|fuel IH]; intros a d Hok Hst Hu Hf; [lia|]. cbn [extract_body].
  unfold archive_read_data_block, check_magic. rewrite Hst.
  change (negb (negb (Z.land ARCHIVE_STATE_DATA ARCHIVE_STATE_DATA =? 0))) with false. cbn iota.
  pose proof Hok as [Ha Hh]. rewrite Hst in Hh. destruct Hh as [Hh|?]; [|done].
  destruct (read_data_any junk steady a Ha) as (r & b & o & a1 & -> & Ha1 & [Hk1 Hk2] & Hl1 & Hr).
  assert (archive_ok steady a1) as Hok1 by (split; [done|left; by rewrite Hk2]).
  assert (r_state a1 = ARCHIVE_STATE_DATA) as Hst1 by congruence.
  cbn [mbind option_bind]. destruct ((r =? ARCHIVE_EOF) || (r <? ARCHIVE_OK)) eqn:E; [by exists a1, d|].
  destruct Hr as [-> |(Hl & [(-> & _ & _)|(-> & Hb & Hu1 & Hl2)])]; [done|done|].
  specialize (Hl Hu). destruct (disk_block d b o) as [r2 d2]. destruct (r2 <? ARCHIVE_OK); [by exists a1, d2|].
  destruct (IH a1 d2) as (a3 & d3 & -> & Ha3 & Hl3 & Hst3); [done..|lia|lia|]. exists a3, d3. split_and!; [done..|lia|done].
Qed.

(** A call in the final state changes nothing. *)
Lemma fatal_next_header a e : r_state a = ARCHIVE_STATE_FATAL ->
  archive_read_next_header junk a e = Some (ARCHIVE_FATAL, set_rstate a ARCHIVE_STATE_FATAL, e).
Proof. intros Hs. unfold archive_read_next_header. rewrite check_magic_fatal by (done || by right). done. Qed.

Lemma fatal_extract fuel a d : r_state a = ARCHIVE_STATE_FATAL ->
  extract_body junk (S fuel) a d = Some (set_rstate a ARCHIVE_STATE_FATAL, d).
Proof.
  intros Hs. cbn [extract_body]. unfold archive_read_data_block. by rewrite check_magic_fatal by (done || by left).
Qed.

Definition path_len (e : archive_entry) : Z :=
  match archive_entry_pathname e with Some p => blen p | None => 0 end.

Lemma path_len_nonneg e : 0 <= path_len e.
Proof. unfold path_len. destruct (archive_entry_pathname e); [apply blen_nonneg|done]. Qed.

(** After a fatal error the loop goes round with an ever longer path. *)
Lemma archive_in_fatal fuel rpath a e d : r_state a = ARCHIVE_STATE_FATAL ->
  PATH_MAX - path_len e < Z.of_nat fuel -> path_len e <= PATH_MAX ->
  exists x, archive_in_loop junk fuel rpath a e d = Some x /\
  (archive_entry_pathname e <> None -> exists d', x = Overflow d').
Proof.
  revert a e d. induction fuel as [|fuel IH]; intros a e d Hs Hf Hp; [lia|]. cbn [archive_in_loop].
  rewrite (fatal_next_header a e Hs). cbn [mbind option_bind].
  change (ARCHIVE_FATAL =? ARCHIVE_EOF) with false. cbn iota.
  unfold bxxt_cpio_archive_read_entry, path_len in *. destruct (archive_entry_pathname e) as [name|] eqn:Ee; last first.
  { cbn [mbind option_bind]. change (negb (ARCHIVE_FAILED =? ARCHIVE_OK)) with true. cbn iota. by eexists. }
  destruct (Z.leb_spec PATH_MAX (blen (rpath ++ str "/" ++ name))) as [Hl|Hl].
  { cbn [mbind option_bind]. eexists. split; [done|]. intros _. by eexists. }
  replace (length (stream (r_filter (set_rstate a ARCHIVE_STATE_FATAL))) + 2)%nat
    with (S (length (stream (r_filter a)) + 1)) by (cbn [set_rstate r_filter]; lia).
  rewrite fatal_extract by done. cbn [mbind option_bind].
  change (negb (ARCHIVE_OK =? ARCHIVE_OK)) with false. cbn iota.
  rewrite !blen_app in Hl. pose proof (blen_nonneg rpath). change (blen (str "/")) with 1 in Hl.
  set (e' := archive_entry_set_pathname e (Some (rpath ++ str "/" ++ name))).
  assert (match archive_entry_pathname e' with Some p => blen p | None => 0 end = blen rpath + (1 + blen name))
    as He' by by (unfold e'; cbn [archive_entry_pathname archive_entry_set_pathname ae_pathname]; rewrite !blen_app).
  edestruct (IH (set_rstate (set_rstate a ARCHIVE_STATE_FATAL) ARCHIVE_STATE_FATAL) e') as (x & Hx & Hov);
    [done|rewrite He'; lia..|].
  exists x. split; [exact Hx|]. intros _. by apply Hov.
Qed.

Lemma archive_in_any fuel rpath a e d : client_ok_at a ->
  rest_of a + PATH_MAX + 1 < Z.of_nat fuel -> path_len e <= PATH_MAX ->
  exists x, archive_in_loop junk fuel rpath a e d = Some x.
Proof.
  revert a e d. induction fuel as [|fuel IH]; intros a e d (Hok & Hh & Hst) Hf Hp; [pose proof (rest_nonneg a); unfold PATH_MAX in *; lia|].
  destruct (decide (r_state a = ARCHIVE_STATE_FATAL)) as [Hs|Hs].
  { destruct (archive_in_fatal (S fuel) rpath a e d Hs) as (x & Hx & _); [|done|by exists x].
    pose proof (rest_nonneg a). pose proof (path_len_nonneg e). lia. }
  cbn [archive_in_loop]. destruct (next_header_any junk steady a e Hok) as (r & a1 & e1 & -> & Hok1 & Hl1 & Hr).
  cbn [mbind option_bind]. destruct Hr as [-> |Hr].
  { rewrite Z.eqb_refl. by eexists. }
  assert ((r =? ARCHIVE_EOF) = false) as -> by (by destruct Hr as [[-> _]|[[-> | ->] _]]).
  unfold bxxt_cpio_archive_read_entry. destruct (archive_entry_pathname e1) as [name|] eqn:Ee; last first.
  { cbn [mbind option_bind]. change (negb (ARCHIVE_FAILED =? ARCHIVE_OK)) with true. cbn iota. by eexists. }
  destruct (Z.leb_spec PATH_MAX (blen (rpath ++ str "/" ++ name))) as [Hl|Hl].
  { cbn [mbind option_bind]. by eexists. }
  set (e' := archive_entry_set_pathname e1 (Some (rpath ++ str "/" ++ name))).
  destruct Hr as [[_ Hs1]|[_ (Hs1 & _ & Hl2 & Hu1)]].
  - replace (length (stream (r_filter a1)) + 2)%nat with (S (length (stream (r_filter a1)) + 1)) by lia.
    rewrite fatal_extract by done. cbn [mbind option_bind].
    change (negb (ARCHIVE_OK =? ARCHIVE_OK)) with false. cbn iota.
    edestruct (archive_in_fatal fuel rpath (set_rstate a1 ARCHIVE_STATE_FATAL) e') as (x & Hx & _);
      [done| |change (blen (rpath ++ str "/" ++ name) <= PATH_MAX); lia|exists x; exact Hx].
    pose proof (rest_nonneg a). pose proof (path_len_nonneg e'). lia.
  - assert (c_bytes_unconsumed (r_cpio a1) = 0) as Hz.
    { apply Hu1. destruct Hst as [?|[?|?]]; [right; by apply Hh|by left|done]. }
    pose proof (rest_nonneg a1). pose proof (rest_le_stream a1). unfold bin_header_size in Hl2.
    destruct (extract_body_any (length (stream (r_filter a1)) + 2) a1 (disk_header d e'))
      as (a2 & d2 & -> & Hok2 & Hl3 & Hs2); [done|done|lia|unfold blen in *; lia|].
    cbn [mbind option_bind]. change (negb (ARCHIVE_OK =? ARCHIVE_OK)) with false. cbn iota.
    apply IH; [|lia|change (blen (rpath ++ str "/" ++ name) <= PATH_MAX); lia]. split; [done|]. split; [by rewrite Hs2|]. right. by left.
Qed.

Lemma archive_in_result fuel rpath a e d r d' :
  archive_in_loop junk fuel rpath a e d = Some (Returned r d') -> r = ARCHIVE_OK.
Proof.
  revert a e d. induction fuel as [|fuel IH]; intros a e d; [done|]. cbn [archive_in_loop].
  destruct (archive_read_next_header junk a e) as [[[r1 a1] e1]|]; [|done]. cbn [mbind option_bind].
  destruct (r1 =? ARCHIVE_EOF); [intros; by simplify_eq|].
  destruct (bxxt_cpio_archive_read_entry junk rpath a1 e1 d) as [[[[r2 a2] e2] d2|d2]|]; [|done..].
  cbn [mbind option_bind]. destruct (negb _); [intros; by simplify_eq|apply IH].
Qed.

(** ** Archives that overflow the path buffer *)

Lemma long_name_step fuel rpath a e0 d e path body s :
  at_entry steady a (entry_bytes e path body ++ s) -> storable e path body -> path <> trailer_name -> recognised steady e path ->
  PATH_MAX <= blen rpath + 1 + blen path ->
  archive_in_loop junk (S fuel) rpath a e0 d = Some (Overflow d).
Proof.
  intros Ha Hst Hnt Hrec Hl. cbn [archive_in_loop].
  destruct (next_header_ok junk steady a e0 e path body s Ha Hst Hnt Hrec) as (a1 & -> & _). cbn [mbind option_bind].
  change (ARCHIVE_OK =? ARCHIVE_EOF) with false. cbn iota.
  unfold bxxt_cpio_archive_read_entry. destruct Hst as [Hp _ _ _ _ _ _ _].
  change (archive_entry_pathname (decoded e body)) with (archive_entry_pathname e). rewrite Hp.
  rewrite !blen_app. change (blen (str "/")) with 1.
  destruct (Z.leb_spec PATH_MAX (blen rpath + (1 + blen path))); [done|lia].
Qed.

(** A link whose target is cut short: the header is refused after the path has
    been set, and the entry keeps it. *)
Lemma cut_link_header a e0 e path t : at_entry steady a
    (concat (header_fields e (blen (content e [])) (blen path + 1)) ++ name_bytes path ++ t) ->
  storable e path [] -> archive_entry_filetype e = AE_IFLNK -> blen t < blen (content e []) ->
  exists a' e', archive_read_next_header junk a e0 = Some (ARCHIVE_FATAL, a', e') /\
  r_state a' = ARCHIVE_STATE_FATAL /\ archive_entry_pathname e' = Some path.
Proof.
  intros Ha Hst Hl Ht. pose proof (storable_content e path [] Hst) as Hcont. rewrite Hl, Z.eqb_refl in Hcont.
  destruct Hcont as (_ & _ & _ & _ & Hlen). pose proof (storable_fields e path [] Hst) as Hff.
  destruct Hst as [Hp (Hn & Hnul & Hpl) _ _ _ _ _ _]. unfold archive_read_next_header, check_magic.
  assert ((Z.land (r_state a) (Z.lor ARCHIVE_STATE_HEADER ARCHIVE_STATE_DATA) =? 0) = false) as ->
    by (by destruct Ha as (_ & _ & [-> | ->] & _)).
  cbn [negb]. destruct (next_header_skip steady a _ Ha) as (a1 & -> & (Hr1 & Hk1 & _) & _).
  cbn [mbind option_bind]. change ((ARCHIVE_OK =? ARCHIVE_EOF) || (ARCHIVE_OK =? ARCHIVE_FATAL)) with false.
  cbn iota. change (archive_entry_clear e0) with archive_entry_new. pose proof (blen_nonneg (content e [])).
  destruct (read_header_start junk steady a1 e path (blen (content e [])) t Hk1 Hff ltac:(unfold fits; lia) Hpl Hnul Hr1)
    as (wd & a2 & Hr2 & Hs2 & _ & Hname).
  unfold archive_read_format_cpio_read_header. rewrite Hname.
  destruct (same_fields _ _ Hs2) as (_ & Hc2 & _). cbn in Hc2.
  unfold read_symlink. rewrite named_filetype, Hl, Z.eqb_refl, Hc2.
  cbn [c_bytes_remaining set_offset after_header set_body].
  destruct (Z.ltb_spec (1024 * 1024) (blen (content e []))); [lia|]. rewrite u64_small by (unfold is_u64; lia).
  pose proof (blen_nonneg t).
  destruct (ahead_reads junk steady a2 t (blen (content e [])) Hr2) as (o & x & a3 & -> & _ & _ & Ho); [lia|].
  destruct o as [w|]; [destruct Ho as (Hw & _ & k & ->); rewrite blen_app in Ht; pose proof (blen_nonneg k); lia|].
  cbn. by do 2 eexists.
Qed.

Lemma cut_link_step fuel rpath a e0 d e path t : at_entry steady a
    (concat (header_fields e (blen (content e [])) (blen path + 1)) ++ name_bytes path ++ t) ->
  storable e path [] -> archive_entry_filetype e = AE_IFLNK -> blen t < blen (content e []) ->
  PATH_MAX + 1 < Z.of_nat fuel ->
  exists d', archive_in_loop junk fuel rpath a e0 d = Some (Overflow d').
Proof.
  intros Ha Hst Hl Ht Hf. destruct fuel as [|fuel]; [unfold PATH_MAX in *; lia|]. cbn [archive_in_loop].
  destruct (cut_link_header a e0 e path t Ha Hst Hl Ht) as (a1 & e1 & -> & Hs1 & He1).
  cbn [mbind option_bind]. change (ARCHIVE_FATAL =? ARCHIVE_EOF) with false. cbn iota.
  unfold bxxt_cpio_archive_read_entry. rewrite He1.
  destruct (Z.leb_spec PATH_MAX (blen (rpath ++ str "/" ++ path))) as [Hlong|Hshort].
  { cbn [mbind option_bind]. by eexists. }
  set (e' := archive_entry_set_pathname e1 (Some (rpath ++ str "/" ++ path))).
  replace (length (stream (r_filter a1)) + 2)%nat with (S (length (stream (r_filter a1)) + 1)) by lia.
  rewrite fatal_extract by done. cbn [mbind option_bind].
  change (negb (ARCHIVE_OK =? ARCHIVE_OK)) with false. cbn iota.
  edestruct (archive_in_fatal fuel rpath (set_rstate a1 ARCHIVE_STATE_FATAL) e') as (x & Hx & Hov);
    [done|pose proof (path_len_nonneg e'); lia|change (blen (rpath ++ str "/" ++ path) <= PATH_MAX); lia|].
  destruct Hov as [d' ->]; [done|]. exists d'. exact Hx.
Qed.
End AnyArchive.

(** ** Unpacking a good archive *)

(** What a disk with enough room promises: a header begins a file, blocks that
    follow each other are appended to it. *)
Class DiskLaws (D : Type) `{Disk D} := {
  stored : D -> list (archive_entry * bytes);
  disk_header_law d e : stored (disk_header d e) = stored d ++ [(e, [])];
  disk_block_law d l e c b : stored d = l ++ [(e, c)] ->
    exists r d', disk_block d b (blen c) = (r, d') /\ ARCHIVE_OK <= r /\ stored d' = l ++ [(e, c ++ b)];
  disk_finish_law d : stored (disk_finish d) = stored d
}.

(** A disk that keeps a list of files; the result of a block is its size. *)
#[export] Instance list_disk : Disk (list (archive_entry * bytes)) := {
  disk_header d e := d ++ [(e, [])];
  disk_block d b off :=
    match last d with
    | Some (e, c) => if off =? blen c then (blen b, removelast d ++ [(e, c ++ b)]) else (ARCHIVE_FAILED, d)
    | None => (ARCHIVE_FAILED, d)
    end;
  disk_finish d := d
}.

#[export] Instance list_disk_laws : DiskLaws (list (archive_entry * bytes)).
Proof.
  refine {| stored := fun d => d |}; [done| |done].
  intros d l e c b ->. cbn. rewrite last_snoc, Z.eqb_refl, removelast_last.
  do 2 eexists. split; [done|]. split; [apply blen_nonneg|done].
Defined.

(** The file an entry of an archive becomes under [rpath]. *)
Definition placed (rpath : path) (x : archive_entry * bytes) : archive_entry * bytes :=
  (archive_entry_set_pathname x.1 ((λ name, rpath ++ str "/" ++ name) <$> archive_entry_pathname x.1), x.2).

Section GoodArchive.
Context {U D : Type} `{UpstreamLaws U, Pipeline U, DiskLaws D} (junk : Z -> Z) (steady : bool) (fs : filesystem).
Implicit Types (a : archive_read U) (d : D).

Lemma extract_body_ok fuel a dat b pos pad s d l e c : in_body steady a dat b pos pad s -> blen b + 1 < Z.of_nat fuel ->
  stored d = l ++ [(e, c)] -> blen c = pos ->
  exists a' d', extract_body junk fuel a d = Some (a', d') /\ at_entry steady a' s /\ stored d' = l ++ [(e, c ++ b)].
Proof.
  revert a dat b pos d c. induction fuel as [|fuel IH]; intros a dat b pos d c Hb Hf Hd Hc; [pose proof (blen_nonneg b); lia|].
  cbn [extract_body].
  destruct (read_data_block_ok junk steady a dat b pos pad s Hb) as [(-> & a' & -> & Ha)|(b1 & b2 & a' & -> & Hne & -> & Hb')];
    cbn [mbind option_bind].
  - change ((ARCHIVE_EOF =? ARCHIVE_EOF) || (ARCHIVE_EOF <? ARCHIVE_OK)) with true. cbn iota.
    exists a', d. rewrite app_nil_r. by split_and!.
  - change ((ARCHIVE_OK =? ARCHIVE_EOF) || (ARCHIVE_OK <? ARCHIVE_OK)) with false. cbn iota.
    destruct (disk_block_law d l e c b1 Hd) as (r & d2 & Hbl & Hr & Hd2). rewrite <- Hc, Hbl.
    destruct (Z.ltb_spec r ARCHIVE_OK); [lia|].
    destruct (IH a' b1 b2 (pos + blen b1) d2 (c ++ b1)) as (a3 & d3 & -> & Ha3 & Hd3);
      [done| |done|rewrite blen_app; lia|].
    { rewrite blen_app in Hf. destruct b1; [done|]. rewrite blen_cons in Hf. pose proof (blen_nonneg b1). lia. }
    exists a3, d3. rewrite app_assoc. by split_and!.
Qed.

(** Items whose paths fit below [rpath]. *)
Definition fits_below (rpath : path) (i : item) : Prop :=
  recognisable steady i /\ blen rpath + 1 + blen i.1.2 < PATH_MAX.

Lemma archive_in_loop_ok fuel rpath a e0 d items tl : Forall (fits_below rpath) items ->
  at_entry steady a (archive_bytes items ++ tl) -> (length items < fuel)%nat ->
  exists d', archive_in_loop junk fuel rpath a e0 d = Some (Returned ARCHIVE_OK d') /\
  stored d' = stored d ++ map (placed rpath) (found items).
Proof.
  intros Hi. revert fuel a e0 d. induction Hi as [|[[e path] ds] items [[[Hst Hnt] Hrec] Hl] _ IH]; intros fuel a e0 d Ha Hf.
  - destruct fuel as [|fuel]; [cbn in Hf; lia|]. cbn [archive_in_loop].
    destruct (next_header_eof junk steady a e0 tl Ha) as (a' & e' & ->). cbn [mbind option_bind]. rewrite Z.eqb_refl.
    exists d. split; [done|]. cbn. by rewrite app_nil_r.
  - destruct fuel as [|fuel]; [cbn in Hf; lia|]. cbn [archive_in_loop]. cbn [fst snd] in Hl.
    unfold archive_bytes in Ha. cbn [map concat] in Ha. rewrite <- !app_assoc in Ha.
    destruct (next_header_ok junk steady a e0 e path (concat ds) _ Ha Hst Hnt Hrec) as (a1 & -> & Hb).
    cbn [mbind option_bind]. change (ARCHIVE_OK =? ARCHIVE_EOF) with false. cbn iota.
    unfold bxxt_cpio_archive_read_entry. destruct Hst as [Hp _ _ _ _ _ _ _].
    change (archive_entry_pathname (decoded e (concat ds))) with (archive_entry_pathname e). rewrite Hp.
    destruct (Z.leb_spec PATH_MAX (blen (rpath ++ str "/" ++ path))) as [Hx|_].
    { rewrite !blen_app in Hx. change (blen (str "/")) with 1 in Hx. lia. }
    set (e1 := archive_entry_set_pathname (decoded e (concat ds)) (Some (rpath ++ str "/" ++ path))).
    destruct (extract_body_ok (length (stream (r_filter a1)) + 2) a1 _ _ _ _ _ (disk_header d e1) (stored d) e1 [] Hb)
      as (a2 & d2 & -> & Ha2 & Hd2); [|apply disk_header_law|done|].
    { destruct Hb as ((_ & _ & _ & -> & _) & _). cbn [app]. rewrite length_app. unfold blen. lia. }
    cbn [mbind option_bind]. change (negb (ARCHIVE_OK =? ARCHIVE_OK)) with false. cbn iota.
    rewrite app_assoc in Ha2.
    change (concat (map (fun '(e, path, ds) => entry_bytes e path (concat ds)) items) ++
      entry_bytes trailer trailer_name []) with (archive_bytes items) in Ha2.
    destruct (IH fuel a2 e1 (disk_finish d2) Ha2) as (d3 & -> & Hd3); [cbn in Hf; lia|].
    exists d3. split; [done|]. rewrite Hd3, disk_finish_law, Hd2. rewrite <- app_assoc. cbn [app].
    do 2 f_equal. unfold placed. cbn [found map fst snd]. f_equal.
    by change (archive_entry_pathname (decoded e (concat ds))) with (archive_entry_pathname e); rewrite Hp.
Qed.
End GoodArchive.
