(* ===== verification/Cpiopack.v ===== *)
(** Packing directories: the walk and the order of names, the calls packing
    makes, and the round trip through an archive back onto a disk. *)
From S2P Require Import Prelude Util Stdio Readahead Window Archiveentry Archivewrite Newc Cpioread Cpioarchive Cpiosafety Cpio Cpiounpack.

(** ** Walking *)

(** Walking with any function is folding it over the paths in order. *)
Lemma walk_entries_fold {A} (fn : path -> A -> A) walk walkl name des :
  (forall p arg, walk p arg = (ps ← walkl p []; Some (foldl (fun x p => fn p x) arg ps))) ->
  (forall p l, walkl p l = (ps ← walkl p []; Some (l ++ ps))) ->
  forall arg l, walk_entries fn walk name des (foldl (fun x p => fn p x) arg l) =
    (ps ← walk_entries bxxt_cpio_walk_entries walkl name des l; Some (foldl (fun x p => fn p x) arg ps)).
Proof.
  intros Hw Hl. induction des as [|[n b] des IH]; intros arg l; [done|]. cbn [walk_entries d_dir d_name].
  assert (forall p, fn p (foldl (fun x p => fn p x) arg l) = foldl (fun x p => fn p x) arg (bxxt_cpio_walk_entries p l))
    as Hsnoc by (intros p; unfold bxxt_cpio_walk_entries; by rewrite foldl_app).
  destruct b; [|rewrite Hsnoc; apply IH]. destruct (is_dot n); [apply IH|].
  rewrite Hw, (Hl _ l). destruct (walkl (join_path name n) []) as [ps|]; [|done]. cbn [mbind option_bind].
  rewrite <- foldl_app.
  assert (fn (join_path name n) (foldl (fun x p => fn p x) arg (l ++ ps)) =
    foldl (fun x p => fn p x) arg (bxxt_cpio_walk_entries (join_path name n) (l ++ ps))) as ->
    by (unfold bxxt_cpio_walk_entries; by rewrite (foldl_app _ _ [_])).
  apply IH.
Qed.

Lemma tree_walk_fold fs {A} (fn : path -> A -> A) fuel name :
  (forall arg, bxxt_tree_walk fs fn fuel name arg =
    (ps ← bxxt_tree_walk fs bxxt_cpio_walk_entries fuel name []; Some (foldl (fun x p => fn p x) arg ps))) /\
  (forall l, bxxt_tree_walk fs bxxt_cpio_walk_entries fuel name l =
    (ps ← bxxt_tree_walk fs bxxt_cpio_walk_entries fuel name []; Some (l ++ ps))).
Proof.
  assert (forall (l ps : list path), foldl (fun x p => bxxt_cpio_walk_entries p x) l ps = l ++ ps) as Happ.
  { intros l ps. revert l. induction ps as [|p ps IH]; intros l; [by rewrite app_nil_r|].
    cbn [foldl]. rewrite IH. unfold bxxt_cpio_walk_entries. by rewrite <- app_assoc. }
  revert name. induction fuel as [|fuel IH]; intros name; [done|]. cbn [bxxt_tree_walk].
  destruct (opendir fs name) as [des|]; [|split; [done|intros l; cbn; by rewrite app_nil_r]].
  assert (forall p l, bxxt_tree_walk fs bxxt_cpio_walk_entries fuel p l =
    (ps ← bxxt_tree_walk fs bxxt_cpio_walk_entries fuel p []; Some (l ++ ps))) as Hl by (intros p; apply IH).
  split.
  - intros arg. apply (walk_entries_fold fn _ _ name des (fun p => proj1 (IH p)) Hl arg []).
  - intros l.
    pose proof (walk_entries_fold bxxt_cpio_walk_entries
      (bxxt_tree_walk fs bxxt_cpio_walk_entries fuel) (bxxt_tree_walk fs bxxt_cpio_walk_entries fuel) name des) as Hx.
    assert (forall p arg, bxxt_tree_walk fs bxxt_cpio_walk_entries fuel p arg =
      (ps ← bxxt_tree_walk fs bxxt_cpio_walk_entries fuel p [];
       Some (foldl (fun x p => bxxt_cpio_walk_entries p x) arg ps))) as Hw.
    { intros p arg. rewrite Hl. destruct (bxxt_tree_walk _ _ fuel p []); [|done]. cbn. by rewrite Happ. }
    specialize (Hx Hw Hl l []). cbn [foldl] in Hx. rewrite Hx.
    destruct (walk_entries _ _ _ _ []); [|done]. cbn. by rewrite Happ.
Qed.

(** ** The order of names *)

#[export] Instance compare_trans : Transitive compare.
Proof.
  intros a b c. unfold compare. revert b c. induction a as [|x a IH]; intros [|y b] [|z c]; cbn; try done.
  destruct (Z.eqb_spec x y), (Z.eqb_spec y z), (Z.eqb_spec x z); subst; try done; try lia. apply IH.
Qed.

#[export] Instance compare_total : Total compare.
Proof.
  intros a b. unfold compare. revert b. induction a as [|x a IH]; intros [|y b]; cbn; [by left..|by right|].
  destruct (Z.eqb_spec x y), (Z.eqb_spec y x); subst; try done.
  destruct (Z.ltb_spec x y); [by left|right]. apply Z.ltb_lt. lia.
Qed.

#[export] Instance compare_antisymm : AntiSymm (=) compare.
Proof.
  intros a b. unfold compare. revert b. induction a as [|x a IH]; intros [|y b]; cbn; try done.
  destruct (Z.eqb_spec x y), (Z.eqb_spec y x); subst; try done; intros; [f_equal; by apply IH|lia..].
Qed.

Lemma sort_permutation (l k : list path) : l ≡ₚ k -> merge_sort compare l = merge_sort compare k.
Proof.
  intros Hp. apply (Sorted_unique compare); [apply (Sorted_merge_sort compare)..|].
  by rewrite !(merge_sort_Permutation compare).
Qed.

(** ** The order of directory entries *)

(** What one entry adds to a listing. *)
Definition entry_paths (walk : path -> list path -> option (list path)) (name : path) (de : dirent)
  : option (list path) :=
  let p := join_path name (d_name de) in
  if d_dir de then if is_dot (d_name de) then Some [] else ps ← walk p []; Some (ps ++ [p])
  else Some [p].

(** A walk that only adds to its argument. *)
Definition adds (walk : path -> list path -> option (list path)) : Prop :=
  forall p l, walk p l = (ps ← walk p []; Some (l ++ ps)).

Lemma walk_entries_cons walk name de des l : adds walk ->
  walk_entries bxxt_cpio_walk_entries walk name (de :: des) l =
  (x ← entry_paths walk name de; walk_entries bxxt_cpio_walk_entries walk name des (l ++ x)).
Proof.
  intros Hw. cbn [walk_entries]. unfold entry_paths. destruct (d_dir de); [|done].
  destruct (is_dot (d_name de)); [by cbn; rewrite app_nil_r|].
  rewrite Hw. destruct (walk _ []) as [ps|]; [|done]. cbn [mbind option_bind].
  unfold bxxt_cpio_walk_entries. by rewrite app_assoc.
Qed.

Abbreviation perm := (option_Forall2 (≡ₚ)).

Lemma perm_some (l k : list path) : l ≡ₚ k -> perm (Some l) (Some k).
Proof. by constructor. Qed.

(** The listing is a permutation of what is there in any other order. *)
Lemma walk_entries_perm walk1 walk2 name des1 des2 : adds walk1 -> adds walk2 ->
  (forall p, perm (walk1 p []) (walk2 p [])) -> des1 ≡ₚ des2 -> forall l1 l2, l1 ≡ₚ l2 ->
  perm (walk_entries bxxt_cpio_walk_entries walk1 name des1 l1)
       (walk_entries bxxt_cpio_walk_entries walk2 name des2 l2).
Proof.
  intros H1 H2 Hw Hdes.
  assert (forall de, perm (entry_paths walk1 name de) (entry_paths walk2 name de)) as Hx.
  { intros de. unfold entry_paths. destruct (d_dir de); [|by apply perm_some].
    destruct (is_dot _); [by apply perm_some|].
    destruct (Hw (join_path name (d_name de))) as [? ? Hp|]; [|constructor]. cbn. apply perm_some. by rewrite Hp. }
  assert (forall des l1 l2, l1 ≡ₚ l2 -> perm (walk_entries bxxt_cpio_walk_entries walk1 name des l1)
    (walk_entries bxxt_cpio_walk_entries walk2 name des l2)) as Hsame.
  { induction des as [|de des IH]; intros l1 l2 Hl; [by apply perm_some|].
    rewrite !walk_entries_cons by done. destruct (Hx de) as [x y Hp|]; [|constructor]. cbn [mbind option_bind].
    apply IH. by rewrite Hl, Hp. }
  assert (forall de de' des l1 l2, l1 ≡ₚ l2 ->
    perm (walk_entries bxxt_cpio_walk_entries walk2 name (de :: de' :: des) l1)
         (walk_entries bxxt_cpio_walk_entries walk2 name (de' :: de :: des) l2)) as Hswap.
  { intros de de' des l1 l2 Hl. rewrite !walk_entries_cons by done.
    destruct (entry_paths walk2 name de) as [x|] eqn:E, (entry_paths walk2 name de') as [y|] eqn:E';
      cbn [mbind option_bind]; rewrite ?walk_entries_cons, ?E, ?E' by done; try constructor.
    cbn [mbind option_bind].
    assert (perm (walk_entries bxxt_cpio_walk_entries walk1 name des (l2 ++ y ++ x))
      (walk_entries bxxt_cpio_walk_entries walk2 name des ((l1 ++ x) ++ y))) as Ha.
    { apply Hsame. rewrite Hl, <- app_assoc. f_equiv. apply Permutation_app_comm. }
    assert (perm (walk_entries bxxt_cpio_walk_entries walk1 name des (l2 ++ y ++ x))
      (walk_entries bxxt_cpio_walk_entries walk2 name des ((l2 ++ y) ++ x))) as Hb.
    { apply Hsame. by rewrite <- app_assoc. }
    etrans; [symmetry; exact Ha|exact Hb]. }
  assert (forall des des', des ≡ₚ des' -> forall l1 l2, l1 ≡ₚ l2 ->
    perm (walk_entries bxxt_cpio_walk_entries walk2 name des l1)
         (walk_entries bxxt_cpio_walk_entries walk2 name des' l2)) as Hperm.
  { induction 1 as [|de des des' _ IH|de de' des|des des' des'' _ IH _ IH']; intros l1 l2 Hl.
    - by apply perm_some.
    - rewrite !walk_entries_cons by done. destruct (entry_paths walk2 name de) as [x|]; [|constructor].
      cbn [mbind option_bind]. apply IH. by rewrite Hl.
    - by apply Hswap.
    - etrans; [by apply IH|by apply IH']. }
  intros l1 l2 Hl. etrans; [by apply (Hsame des1 l1 l1)|by apply Hperm].
Qed.

(** The same files, listed in another order. *)
Definition relisted (fs : filesystem) (od : path -> option (list dirent)) : filesystem :=
  Filesystem (realpath fs) od (lstat fs) (readlink fs) (contents fs).

Lemma tree_walk_perm fs od fuel name : (forall p, option_Forall2 (≡ₚ) (opendir fs p) (od p)) ->
  perm (bxxt_tree_walk fs bxxt_cpio_walk_entries fuel name [])
       (bxxt_tree_walk (relisted fs od) bxxt_cpio_walk_entries fuel name []).
Proof.
  intros Hod. revert name. induction fuel as [|fuel IH]; intros name; [constructor|]. cbn [bxxt_tree_walk].
  cbn [opendir relisted]. destruct (Hod name) as [d1 d2 Hd|]; [|by apply perm_some].
  apply walk_entries_perm; [| |exact IH|done|done]; intros p l; apply (tree_walk_fold _ bxxt_cpio_walk_entries).
Qed.

Section Guess.
Context (fs : filesystem).

Lemma u32_add a b : u32 (u32 a + b) = u32 (a + b).
Proof. unfold u32. by rewrite Zplus_mod_idemp_l. Qed.

Lemma guess_step p g : bxxt_cpio_archive_guess_buffer_size fs p g =
  u32 (g + (match lstat fs p with Some st => st_size st | None => 0 end + PATH_MAX)).
Proof. unfold bxxt_cpio_archive_guess_buffer_size. by rewrite u32_add, Z.add_assoc. Qed.

Lemma guess_swap p q g : bxxt_cpio_archive_guess_buffer_size fs p (bxxt_cpio_archive_guess_buffer_size fs q g) =
  bxxt_cpio_archive_guess_buffer_size fs q (bxxt_cpio_archive_guess_buffer_size fs p g).
Proof. rewrite !guess_step, !u32_add. f_equal. lia. Qed.

Definition guess_all : Z -> list path -> Z :=
  foldl (fun g p => bxxt_cpio_archive_guess_buffer_size fs p g).

Lemma guess_perm ps qs g : ps ≡ₚ qs -> guess_all g ps = guess_all g qs.
Proof.
  intros Hp. revert g. induction Hp as [|p ps qs _ IH|p q ps|ps qs rs _ IH _ IH']; intros g; cbn; [done|apply IH| |].
  - by rewrite guess_swap.
  - by rewrite IH.
Qed.
End Guess.

(** C12. The archive of a directory does not depend on the order in which the
    file system lists it.  If every directory lists the same entries in another
    order, at whatever depth, packing gives the same result, byte for byte, and
    the same guess of its size: the names are sorted before anything is
    written. *)
Theorem cpio_order_irrelevant {W} `{Sink W, Chain W} (fs : filesystem) (od : path -> option (list dirent))
  (junk : Z -> Z) (depth : nat) (p : path) :
  (forall q, option_Forall2 (≡ₚ) (opendir fs q) (od q)) ->
  bxxt_cpio_archive_out (W := W) (relisted fs od) junk depth p = bxxt_cpio_archive_out fs junk depth p.
Proof.
  intros Hod. unfold bxxt_cpio_archive_out. cbn [realpath relisted].
  destruct (realpath fs p) as [rpath|]; [|done]. destruct (PATH_MAX <=? blen rpath); [done|].
  rewrite !(proj1 (tree_walk_fold _ (bxxt_cpio_archive_guess_buffer_size _) _ _)).
  change (bxxt_cpio_archive_guess_buffer_size (relisted fs od)) with (bxxt_cpio_archive_guess_buffer_size fs).
  destruct (tree_walk_perm fs od depth rpath Hod) as [ps qs Hp|]; [|done]. cbn [mbind option_bind].
  change (foldl (fun x q => bxxt_cpio_archive_guess_buffer_size fs q x) 0) with (guess_all fs 0).
  by rewrite (guess_perm fs ps qs 0 Hp), (sort_permutation ps qs Hp).
Qed.

(** ** Packing *)

(** A file of the tree with a name the archive can hold, and what it becomes
    below [dest]: path, mode, target and contents. *)
Record file := FileOf { path_of : path; mode_of : Z; target_of : option bytes; data_of : bytes }.

Definition relative (root p : path) : path := drop (length root + 1) p.

Definition file_at (fs : filesystem) (root dest p : path) : option file :=
  st ← lstat fs p;
  let path := dest ++ str "/" ++ relative root p in
  let fmt := Z.land (st_mode st) S_IFMT in
  if fmt =? S_IFREG then d ← contents fs p; Some (FileOf path (st_mode st) None d)
  else if fmt =? S_IFDIR then Some (FileOf path (st_mode st) None [])
  else if fmt =? S_IFLNK then t ← readlink fs p; Some (FileOf path (st_mode st) (Some t) [])
  else None.

(** What the disk holds of a file. *)
Definition summary (x : archive_entry * bytes) : option file :=
  path ← archive_entry_pathname x.1;
  Some (FileOf path (archive_entry_mode x.1) (archive_entry_symlink x.1) x.2).

(** A file that can be packed: it lies below the root, its name fits, and it
    is a regular file, a directory or a link. *)
Record packable (fs : filesystem) (root p : path) : Prop := {
  pk_path : p = root ++ str "/" ++ relative root p;
  pk_name : relative root p <> [] /\ ~ In 0 (relative root p) /\ blen p < PATH_MAX /\
            relative root p <> trailer_name;
  pk_file : exists st, lstat fs p = Some st /\ is_u32 (st_mode st) /\ 0 <= st_size st /\
    let fmt := Z.land (st_mode st) S_IFMT in
    (fmt = S_IFREG /\ (exists d, contents fs p = Some d /\ st_size st = blen d /\ fits (blen d)) \/
     fmt = S_IFDIR \/
     fmt = S_IFLNK /\ exists t, readlink fs p = Some t /\ t <> [] /\ ~ In 0 t /\ blen t < PATH_MAX)
}.

(** The blocks in which a file is written. *)
Fixpoint chunks (fuel : nat) (data : bytes) : list bytes :=
  match fuel with
  | O => []
  | S fuel => if blen data =? 0 then [] else take 4096 data :: chunks fuel (drop 4096 data)
  end.

(** The calls packing makes for a file. *)
Definition item_of (fs : filesystem) (root : path) (ino : Z) (p : path) : option item :=
  st ← lstat fs p;
  e ← entry_of fs p (relative root p) st;
  let e := archive_entry_set_ino e ino in
  let data := match contents fs p with Some d => d | None => [] end in
  Some (e, relative root p, if archive_entry_filetype e =? AE_IFREG then chunks (length data + 1) data else []).

Fixpoint items_of (fs : filesystem) (root : path) (ino : Z) (ps : list path) : option (list item) :=
  match ps with
  | [] => Some []
  | p :: ps =>
      i ← item_of fs root ino p;
      l ← items_of fs root (u32 (ino + 1)) ps;
      Some (i :: l)
  end.

Lemma concat_chunks fuel data : blen data < Z.of_nat fuel -> concat (chunks fuel data) = data.
Proof.
  revert data. induction fuel as [|fuel IH]; intros data Hf; [pose proof (blen_nonneg data); lia|]. cbn [chunks].
  destruct (Z.eqb_spec (blen data) 0) as [E|E]; [by apply blen_0 in E as ->|]. cbn [concat].
  rewrite IH, take_drop; [done|]. destruct data as [|c data]; [done|].
  rewrite blen_cons in Hf. unfold blen in *. rewrite length_drop. cbn [length]. lia.
Qed.

Lemma chunks_small fuel data : Forall (fun d => blen d < 2 ^ 31) (chunks fuel data).
Proof.
  revert data. induction fuel as [|fuel IH]; intros data; [constructor|]. cbn [chunks].
  destruct (_ =? _); constructor; [|apply IH]. unfold blen. rewrite length_take. lia.
Qed.

(** *** Modes *)

Lemma format_bits n : Z.testbit AE_IFMT n = true -> n < 32.
Proof.
  intros Hn. destruct (Z.ltb_spec n 32); [done|]. rewrite Z.bits_above_log2 in Hn; [done..|].
  change (Z.log2 AE_IFMT) with 15. lia.
Qed.

Lemma filetype_set x t : t = Z.land AE_IFMT t -> Z.land AE_IFMT (u32 (Z.lor (Z.ldiff x AE_IFMT) (Z.land AE_IFMT t))) = t.
Proof.
  intros Ht. rewrite Ht at 2. apply Z.bits_inj'. intros n Hn. rewrite !Z.land_spec, u32_testbit by done.
  destruct (Z.testbit AE_IFMT n) eqn:E; [|done]. pose proof (format_bits n E). destruct (Z.ltb_spec n 32); [|lia].
  by rewrite Z.lor_spec, Z.ldiff_spec, Z.land_spec, E, andb_false_r.
Qed.

(** Permissions and type make up the mode. *)
Lemma mode_set m : is_u32 m ->
  u32 (Z.lor (Z.ldiff (u32 (Z.lor (Z.land 0 AE_IFMT) (Z.ldiff (u32 m) AE_IFMT))) AE_IFMT)
             (Z.land AE_IFMT (Z.land m S_IFMT))) = m.
Proof.
  intros Hm. rewrite (u32_small m Hm). apply Z.bits_inj'. intros n Hn.
  change S_IFMT with AE_IFMT. rewrite u32_testbit, Z.lor_spec, Z.ldiff_spec, u32_testbit, Z.lor_spec, Z.ldiff_spec, !Z.land_spec by done.
  rewrite Z.bits_0. destruct (Z.ltb_spec n 32) as [Hl|Hl].
  - destruct (Z.testbit AE_IFMT n), (Z.testbit m n); done.
  - symmetry. rewrite <- (u32_small m Hm), u32_testbit by done. destruct (Z.ltb_spec n 32); [lia|done].
Qed.

(** *** Entries *)

Definition packed_entry (rel : path) (link : option bytes) (mode size ino : Z) : archive_entry :=
  Entry (Some rel) link None mode size true ino 1 0 0 0 (Device false 0 0 0) (Device false 0 0 0).

Definition link_at (fs : filesystem) (p : path) (mode : Z) : option bytes :=
  if Z.land mode S_IFMT =? S_IFLNK then readlink fs p else None.

Lemma packed_filetype rel link m size ino :
  archive_entry_filetype (packed_entry rel link m size ino) = Z.land m S_IFMT.
Proof. apply Z.land_comm. Qed.

(** The setters one after the other, with a link or without. *)
Definition typed (rel : path) (size m t : Z) : archive_entry :=
  archive_entry_set_filetype (archive_entry_set_gid (archive_entry_set_uid (archive_entry_set_perm
    (archive_entry_set_size (archive_entry_set_pathname archive_entry_new (Some rel)) size) m) 0) 0) t.

Definition finished (e : archive_entry) (ino : Z) : archive_entry :=
  archive_entry_set_ino (archive_entry_set_dev (archive_entry_set_rdev (archive_entry_set_nlink
    (archive_entry_set_mtime e 0) 1) 0) 0) ino.

Lemma typed_ok rel size m : is_u32 m -> typed rel size m (Z.land m S_IFMT) =
  Entry (Some rel) None None m size true 0 0 0 0 0 (Device false 0 0 0) (Device false 0 0 0).
Proof.
  intros Hm. pose proof (mode_set m Hm) as E. unfold typed.
  cbv [archive_entry_set_filetype archive_entry_set_gid archive_entry_set_uid archive_entry_set_perm
    archive_entry_set_size archive_entry_set_pathname archive_entry_set_mode archive_entry_new
    ae_pathname ae_symlink ae_hardlink ae_mode ae_size ae_size_set ae_ino ae_nlink ae_uid ae_gid ae_mtime ae_dev ae_rdev].
  by rewrite E.
Qed.

Lemma finished_ok rel link m size ino :
  finished (Entry (Some rel) link None m size true 0 0 0 0 0 (Device false 0 0 0) (Device false 0 0 0)) ino =
  packed_entry rel link m size ino.
Proof. reflexivity. Qed.

Lemma entry_of_ok fs root p ino : packable fs root p -> exists st e, lstat fs p = Some st /\
  entry_of fs p (relative root p) st = Some e /\
  archive_entry_set_ino e ino = packed_entry (relative root p) (link_at fs p (st_mode st)) (st_mode st) (st_size st) ino.
Proof.
  intros [_ _ (st & Hst & Hm & _ & Hk)]. exists st.
  pose proof (typed_ok (relative root p) (st_size st) (st_mode st) Hm) as Ht. unfold entry_of, link_at. cbv zeta.
  destruct Hk as [[E _]|[E|(E & t & Hr & _ & Hnul & Hl)]]; rewrite E in *.
  - change (S_IFREG =? S_IFREG) with true. cbn [mbind option_bind]. eexists. split; [done|]. split; [reflexivity|].
    change S_IFREG with AE_IFREG in Ht. fold (typed (relative root p) (st_size st) (st_mode st) AE_IFREG).
    rewrite Ht. apply finished_ok.
  - change (S_IFDIR =? S_IFREG) with false. change (S_IFDIR =? S_IFDIR) with true. cbn [mbind option_bind].
    eexists. split; [done|]. split; [reflexivity|].
    change S_IFDIR with AE_IFDIR in Ht. fold (typed (relative root p) (st_size st) (st_mode st) AE_IFDIR).
    rewrite Ht. apply finished_ok.
  - change (S_IFLNK =? S_IFREG) with false. change (S_IFLNK =? S_IFDIR) with false. rewrite Z.eqb_refl. cbn iota.
    unfold link_of. rewrite Hr. destruct (Z.ltb_spec (blen t) PATH_MAX); [|lia]. rewrite before_nul_all by done.
    cbn [mbind option_bind]. eexists. split; [done|]. split; [reflexivity|].
    change S_IFLNK with AE_IFLNK in Ht. fold (typed (relative root p) (st_size st) (st_mode st) AE_IFLNK).
    rewrite Ht. apply finished_ok.
Qed.

(** What the size of a packed entry is once its header is written. *)
Lemma sized_packed rel link m size ino : archive_entry_size (sized (packed_entry rel link m size ino)) =
  if Z.land m S_IFMT =? S_IFREG then size else 0.
Proof. unfold sized. rewrite packed_filetype. change AE_IFREG with S_IFREG. by destruct (_ =? _). Qed.

Lemma item_ok fs root dest p ino : packable fs root p -> fits ino -> exists e ds f,
  item_of fs root ino p = Some (e, relative root p, ds) /\
  storable e (relative root p) (concat ds) /\ Forall (fun d => blen d < 2 ^ 31) ds /\
  file_at fs root dest p = Some f /\ summary (placed dest (decoded e (concat ds), concat ds)) = Some f.
Proof.
  intros Hp Hi. destruct (entry_of_ok fs root p ino Hp) as (st & e & Hst & He & Hino).
  destruct Hp as [_ (Hn & Hnul & Hlen & _) (st' & Hst' & Hm & Hsz & Hk)]. rewrite Hst in Hst'. injection Hst' as <-.
  assert (blen (relative root p) <= blen p) as Hrel by (unfold relative, blen; rewrite length_drop; lia).
  unfold item_of, file_at. rewrite Hst. cbn [mbind option_bind]. rewrite He. cbn [mbind option_bind]. rewrite Hino.
  change (AE_IFREG) with S_IFREG. rewrite packed_filetype.
  set (ds := if Z.land (st_mode st) S_IFMT =? S_IFREG then _ else []). exists (packed_entry (relative root p)
    (link_at fs p (st_mode st)) (st_mode st) (st_size st) ino), ds.
  assert (Forall (fun d => blen d < 2 ^ 31) ds) as Hds by (unfold ds; destruct (_ =? _); [apply chunks_small|done]).
  assert (relative root p <> [] /\ ~ In 0 (relative root p) /\ blen (relative root p) < 2 ^ 31 - 1) as Hname
    by (unfold PATH_MAX in Hlen; split_and!; [done..|lia]).
  assert (0 <= Z.land (st_mode st) S_IFMT) by (apply Z.land_nonneg; by right).
  assert (fits (st_mode st)) by exact Hm.
  set (e1 := packed_entry _ _ _ _ _).
  assert (forall body, (if Z.land (st_mode st) S_IFMT =? S_IFREG then st_size st = blen body else body = [] /\ 0 <= st_size st) ->
    (if Z.land (st_mode st) S_IFMT =? S_IFLNK then exists t, link_at fs p (st_mode st) = Some t /\ t <> [] /\ ~ In 0 t /\ blen t <= 1024 * 1024
     else link_at fs p (st_mode st) = None) -> Z.land (st_mode st) S_IFMT <> 0 -> fits (blen body) ->
    storable e1 (relative root p) body) as Hstore.
  { intros body Hb Hl Ht Hf. unfold e1.
    split; rewrite ?packed_filetype; [done|exact Hname|exact Ht|done|exact Hb|exact Hl| |by vm_compute].
    split_and!; first [done|exact Hi|unfold fits; cbn; lia]. }
  destruct Hk as [[E (d & Hd & Hsd & Hfd)]|[E|(E & t & Ht & Htn & Htnul & Htl)]].
  - assert (concat ds = d) as Hc.
    { unfold ds. rewrite E, Z.eqb_refl, Hd. apply concat_chunks. unfold blen. lia. }
    rewrite E, Z.eqb_refl, Hd. cbn [mbind option_bind]. eexists. split; [done|]. rewrite Hc.
    split_and!; [|done|done|].
    + apply Hstore; unfold link_at; rewrite ?E; done.
    + unfold summary. cbn. unfold link_at. by rewrite E.
  - assert (concat ds = []) as Hc by (unfold ds; by rewrite E).
    rewrite E. change (S_IFDIR =? S_IFREG) with false. rewrite Z.eqb_refl. cbn [mbind option_bind]. eexists.
    split; [done|]. rewrite Hc. split_and!; [|done|done|].
    + apply Hstore; unfold link_at; rewrite ?E; done.
    + unfold summary. cbn. unfold link_at. by rewrite E.
  - assert (concat ds = []) as Hc by (unfold ds; by rewrite E).
    rewrite E. change (S_IFLNK =? S_IFREG) with false. change (S_IFLNK =? S_IFDIR) with false.
    rewrite Z.eqb_refl, Ht. cbn [mbind option_bind]. eexists. split; [done|]. rewrite Hc. split_and!; [|done|done|].
    + apply Hstore; unfold link_at; rewrite ?E; try done. rewrite Z.eqb_refl. exists t.
      unfold PATH_MAX in Htl. split_and!; try done. lia.
    + unfold summary. cbn. unfold link_at. by rewrite E, Z.eqb_refl, Ht.
Qed.

(** A symbolic link whose name in the archive has ten bytes. *)
Definition ten_byte_symlink (fs : filesystem) (root p : path) : Prop :=
  exists st, lstat fs p = Some st /\ Z.land (st_mode st) S_IFMT = S_IFLNK /\ blen (relative root p) = 10.

Lemma items_of_ten_byte fs root ps ino items : Forall (packable fs root) ps ->
  Forall (fun p => ~ ten_byte_symlink fs root p) ps -> items_of fs root ino ps = Some items ->
  Forall (fun i => ~ ten_byte_link i.1.1 i.1.2) items.
Proof.
  intros Hps. revert ino items. induction Hps as [|p ps Hp Hps IH]; intros ino items Hten Hi.
  { injection Hi as <-. constructor. }
  inversion Hten as [|? ? Hn Hten']; subst. cbn [items_of] in Hi. unfold item_of in Hi.
  destruct (entry_of_ok fs root p ino Hp) as (st & e & Hst & He & Hino). rewrite Hst in Hi. cbn [mbind option_bind] in Hi.
  rewrite He in Hi. cbn [mbind option_bind] in Hi. rewrite Hino in Hi.
  destruct (items_of fs root (u32 (ino + 1)) ps) as [items'|] eqn:Ei; [|done]. injection Hi as <-.
  constructor; [|by eapply IH]. cbn [fst snd]. intros [Hl Hlen]. apply Hn. exists st.
  by rewrite packed_filetype in Hl.
Qed.

(** *** The calls of packing *)

Section Packing.
Context {W : Type} `{SinkLaws W, !Chain W} (fs : filesystem) (root : path).
Implicit Types (a : archive_write newc W) (cp : bxxt_cpio W).

Lemma copy_chunks fuel a a' data : blen data < Z.of_nat fuel ->
  write_chunks a (chunks fuel data) = Some (true, a') -> copy_file fuel a data = Some a'.
Proof.
  revert a data. induction fuel as [|fuel IH]; intros a data Hf; [pose proof (blen_nonneg data); lia|].
  cbn [chunks copy_file]. destruct (Z.eqb_spec (blen data) 0) as [E|E]; [by intros [= ->]|]. cbn [write_chunks].
  destruct (archive_write_data a (take 4096 data)) as [[r a1]|]; [|done]. cbn [mbind option_bind].
  destruct (r =? blen (take 4096 data)); [|done]. apply IH.
  destruct data as [|c data]; [done|]. rewrite blen_cons in Hf. unfold blen in *. rewrite length_drop. cbn [length]. lia.
Qed.

Lemma items_of_ok dest ps ino : Forall (packable fs root) ps -> 0 <= ino -> ino + Z.of_nat (length ps) < 2 ^ 32 ->
  exists items, items_of fs root ino ps = Some items /\
  Forall (fun i => archivable i /\ Forall (fun d => blen d < 2 ^ 31) i.2) items /\
  map (fun i => i.1.2) items = map (relative root) ps /\
  map (fun x => summary (placed dest x)) (found items) = map (file_at fs root dest) ps.
Proof.
  intros Hps. revert ino. induction Hps as [|p ps Hp Hps IH]; intros ino Hi Hl; [by exists []|].
  cbn [length] in Hl. rewrite Nat2Z.inj_succ in Hl.
  destruct (item_ok fs root dest p ino Hp) as (e & ds & f & He & Hst & Hds & Hf & Hsum); [unfold fits; lia|].
  cbn [items_of]. rewrite He, u32_small by (unfold is_u32; lia). cbn [mbind option_bind].
  destruct (IH (ino + 1)) as (items & -> & Hall & Hrel & Hfound); [lia..|]. cbn [mbind option_bind].
  eexists. split; [done|]. split; [constructor; [split; [split; [done|apply Hp]|done]|done]|].
  split; [cbn [map fst snd]; by rewrite Hrel|].
  cbn [found map]. rewrite Hsum, Hf. f_equal. exact Hfound.
Qed.

(** One file: packing makes the calls of its item. *)
Lemma archive_write_ok cp p i a1 e1 a2 ino : packable fs root p -> fits ino -> item_of fs root ino p = Some i ->
  cp_path cp = root -> inode cp = ino -> open_archive (cp_w cp) ->
  archive_write_header (cp_w cp) i.1.1 = Some (ARCHIVE_OK, a1, e1) -> write_chunks a1 i.2 = Some (true, a2) ->
  bxxt_cpio_archive_add_file fs p cp = Some (BxxtCpio root (archive_size_gussed cp) a2 (u32 (ino + 1))) /\
  open_archive a2.
Proof.
  intros Hp Hi Hitem Hpath Hino Ho Hh Hw.
  destruct (item_ok fs root [] p ino Hp Hi) as (e & ds & _ & He & Hst & Hds & _). rewrite Hitem in He. injection He as ->.
  cbn [fst snd] in *.
  destruct (archive_write_header_ok (cp_w cp) e _ (concat ds) Ho Hst) as (r & a1' & e1' & Hh' & Hr).
  rewrite Hh in Hh'. injection Hh' as <- <- <-. destruct (Hr eq_refl) as (_ & Hin & ->).
  destruct (storable_size e _ _ Hst) as (Hsz & _ & _ & _ & _ & Hother).
  destruct (write_chunks_ok a1 _ _ ds Hin) as (b & a2' & Hw' & Hb); [|done|].
  { rewrite Hsz. destruct (_ =? _); [lia|]. by rewrite Hother. }
  rewrite Hw in Hw'. injection Hw' as <- <-. destruct (Hb eq_refl) as [_ Hin2].
  split; [|by destruct (entry_pending a2 e _ ds Hst Hin2)].
  unfold bxxt_cpio_archive_add_file, bxxt_cpio_archive_write. rewrite Hpath.
  assert ((blen root + 1 <=? blen p) = true) as ->.
  { destruct Hp as [Hp _ _]. rewrite Hp, !blen_app. change (blen (str "/")) with 1.
    pose proof (blen_nonneg (relative root p)). lia. }
  destruct (entry_of_ok fs root p ino Hp) as (st & e0 & Hlst & He0 & Hset).
  unfold item_of in Hitem. rewrite Hlst in *. cbn [mbind option_bind] in Hitem.
  fold (relative root p). rewrite He0 in *. cbn [mbind option_bind] in *. injection Hitem as <- Hds'.
  rewrite Hino, Hh. cbn [mbind option_bind cp_w archive_size_gussed inode set_w cp_path].
  assert (concat ds = match contents fs p with Some d => d | None => [] end \/ ds = []) as Hdata.
  { rewrite <- Hds'. destruct (_ =? _); [left|by right]. apply concat_chunks. unfold blen. lia. }
  rewrite Hset, sized_packed in *. rewrite packed_filetype in Hds', Hother, Hsz.
  change AE_IFREG with S_IFREG in *.
  destruct (Z.land (st_mode st) S_IFMT =? S_IFREG) eqn:E.
  - destruct (Z.ltb_spec 0 (st_size st)) as [Hpos|Hpos].
    + rewrite (copy_chunks _ a1 a2); [done|unfold blen; lia|by rewrite Hds'].
    + assert (ds = []) as Hnil.
      { rewrite Hsz in Hpos. pose proof (blen_nonneg (concat ds)).
        assert (concat ds = []) as Hc by (apply blen_0; lia).
        destruct Hdata as [Hd|?]; [|done]. rewrite Hc in Hd. rewrite <- Hds', <- Hd. done. }
      rewrite Hnil in Hw. injection Hw as ->. done.
  - rewrite <- Hds' in Hw. injection Hw as ->. done.
Qed.

Lemma add_files_ok ps cp items ino a' : Forall (packable fs root) ps ->
  0 <= ino -> ino + Z.of_nat (length ps) < 2 ^ 32 -> items_of fs root ino ps = Some items ->
  cp_path cp = root -> inode cp = ino -> open_archive (cp_w cp) ->
  write_items (cp_w cp) items = Some (true, a') ->
  exists cp', add_files fs ps cp = Some cp' /\ archive_write_close (cp_w cp') = Some (ARCHIVE_OK, a').
Proof.
  intros Hps. revert cp items ino. induction Hps as [|p ps Hp Hps IH]; intros cp items ino Hi Hl Hit Hpath Hino Ho Hw.
  - cbn in Hit. injection Hit as <-. cbn [write_items] in Hw.
    destruct (archive_write_close (cp_w cp)) as [[r a]|] eqn:E; [|done]. cbn [mbind option_bind] in Hw.
    injection Hw as Hr <-. apply Z.eqb_eq in Hr as ->. by exists cp.
  - cbn [length] in Hl. rewrite Nat2Z.inj_succ in Hl. cbn [items_of] in Hit.
    destruct (item_of fs root ino p) as [[[e rel] ds]|] eqn:Ei; [|done]. cbn [mbind option_bind] in Hit.
    destruct (items_of fs root (u32 (ino + 1)) ps) as [items'|] eqn:Eis; [|done]. injection Hit as <-.
    cbn [write_items] in Hw.
    destruct (archive_write_header (cp_w cp) e) as [[[r a1] e1]|] eqn:Eh; [|done]. cbn [mbind option_bind] in Hw.
    destruct (Z.eqb_spec r ARCHIVE_OK) as [->|]; [|done].
    destruct (write_chunks a1 ds) as [[b a2]|] eqn:Ec; [|done]. cbn [mbind option_bind] in Hw. destruct b; [|done].
    destruct (archive_write_ok cp p (e, rel, ds) a1 e1 a2 ino) as [Hadd Ho2]; [done|unfold fits; lia|done..|].
    rewrite u32_small in Eis by (unfold is_u32; lia).
    destruct (IH (BxxtCpio root (archive_size_gussed cp) a2 (u32 (ino + 1))) items' (ino + 1)) as (cp' & Hcp & Hclose);
      [lia|lia|done|done|cbn; apply u32_small; unfold is_u32; lia|done|done|].
    exists cp'. cbn [add_files]. rewrite Hadd. by split.
Qed.
End Packing.

(** ** The whole of packing and unpacking *)

(** What the program's output archive is when it has been opened on [b]. *)
Definition opened {W} `{Chain W} (b : bytes) : archive_write newc W :=
  Archive ARCHIVE_STATE_HEADER newc_new (WFilter ARCHIVE_WRITE_FILTER_STATE_OPEN (chain_open b) 0).

(** All calls for the files [ps], in the order of their names, succeed and end
    in [a]. *)
Definition packs {W} `{Sink W, !Chain W} (fs : filesystem) (root : path) (ps : list path)
    (a : archive_write newc W) : Prop :=
  exists items, items_of fs root 300000 (merge_sort compare ps) = Some items /\
  write_items (opened (zeros (guess_all fs 0 ps))) items = Some (true, a).

(** The memory of the client, of the guessed size, is intact. *)
Definition memory_of {W} `{Chain W} (a : archive_write newc W) : write_memory_data :=
  chain_memory (f_data (filter_first a)).
Definition memory_fits (m : write_memory_data) (g : Z) : Prop :=
  memory_ok m /\ Archivewrite.size m = g /\ g < 2 ^ 31.

Lemma shrink junk (m : write_memory_data) g : memory_fits m g ->
  bxxt_buffer_resize junk (Buffer g (buff m)) (s32 (used m - g)) = Some (Buffer (used m) (received m)).
Proof.
  intros ([Hu Hs] & Hg & Hl). unfold bxxt_buffer_resize. cbn [Util.size ptr].
  assert (s32 (used m - g) = used m - g) as ->.
  { unfold s32, u32. destruct (Z.eqb_spec (used m) g) as [->|].
    - by rewrite Z.sub_diag.
    - replace ((used m - g) mod 2 ^ 32) with (used m - g + 2 ^ 32)
        by (rewrite <- (Z.mod_add _ 1), Z.mul_1_l by done; rewrite Z.mod_small; lia).
      destruct (Z.ltb_spec (used m - g + 2 ^ 32) (2 ^ 31)); lia. }
  replace (g + (used m - g)) with (used m) by lia. rewrite u64_small by (unfold is_u64; lia).
  destruct (Z.ltb_spec 0 (used m - g)); [lia|].
  unfold memset0. cbn [Z.eqb mbind option_bind]. unfold realloc, received.
  replace (Z.to_nat (used m) - length (buff m))%nat with O by (unfold blen in Hs; lia).
  cbn [seq map]. by rewrite app_nil_r.
Qed.

Lemma archive_out_ok {W} `{SinkLaws W, !Chain W} fs junk depth p root ps (a : archive_write newc W) :
  realpath fs p = Some root -> blen root < PATH_MAX ->
  bxxt_tree_walk fs bxxt_cpio_walk_entries depth root [] = Some ps ->
  Forall (packable fs root) ps -> 300000 + Z.of_nat (length ps) < 2 ^ 32 ->
  sink_ok (chain_open (W := W) (zeros (guess_all fs 0 ps))) ->
  packs fs root ps a -> memory_fits (memory_of a) (guess_all fs 0 ps) ->
  bxxt_cpio_archive_out (W := W) fs junk depth p =
    Some (ARCHIVE_OK, Some (Buffer (used (memory_of a)) (received (memory_of a)))).
Proof.
  intros Hp Hl Hw Hps Hn Hsink (items & Hit & Hwrite) Hm. unfold bxxt_cpio_archive_out. rewrite Hp.
  destruct (Z.leb_spec PATH_MAX (blen root)); [lia|].
  rewrite (proj1 (tree_walk_fold _ (bxxt_cpio_archive_guess_buffer_size fs) _ _)), Hw. cbn [mbind option_bind].
  change (foldl (fun x q => bxxt_cpio_archive_guess_buffer_size fs q x) 0 ps) with (guess_all fs 0 ps).
  cbn [archive_size_gussed cp_w inode]. set (g := guess_all fs 0 ps) in *.
  set (cp := archive_write_open_chain _ _).
  assert (Forall (packable fs root) (merge_sort compare ps)) as Hps'
    by (by rewrite (merge_sort_Permutation compare)).
  assert (length (merge_sort compare ps) = length ps) as Hlen by (by rewrite (merge_sort_Permutation compare)).
  assert (open_archive (cp_w cp)) as Ho by (split_and!; [split; [done|exact Hsink]|by left|done|done]).
  destruct (add_files_ok fs root (merge_sort compare ps) cp items 300000 a)
    as (cp' & -> & Hclose); [done|done|rewrite Hlen; lia|done|done|done|exact Ho|exact Hwrite|].
  cbn [mbind option_bind]. rewrite Hclose. cbn [mbind option_bind Util.size bxxt_buffer_create].
  change (chain_memory (f_data (filter_first a))) with (memory_of a). by rewrite (shrink junk _ g Hm).
Qed.

Lemma archive_in_ok {U D} `{UpstreamLaws U, Pipeline U, DiskLaws D} (junk : Z -> Z) fs p root b items tl d :
  realpath fs p = Some root -> blen root < PATH_MAX ->
  Forall (fun i => archivable i /\ blen root + 1 + blen i.1.2 < PATH_MAX) items ->
  valid (pipeline b) -> clean (data (pipeline b)) -> fatal (pipeline b) = false ->
  readable_names (pipeline b) items -> stream (pipeline b) = archive_bytes items ++ tl ->
  exists d', bxxt_cpio_archive_in junk fs (Buffer (blen b) b) p d = Some (Returned ARCHIVE_OK d') /\
  stored d' = stored d ++ map (placed root) (found items).
Proof.
  intros Hp Hl Hi Hv Hc Hf Hn Hs. unfold bxxt_cpio_archive_in. rewrite Hp.
  destruct (readable_names_steady (pipeline b) items) as (steady & Hm & Hrec); [|done|].
  { eapply Forall_impl; [exact Hi|]. by intros i [? _]. }
  destruct (Z.leb_spec PATH_MAX (blen root)); [lia|]. cbn [ptr Util.size]. rewrite mread_all. cbn [mbind option_bind].
  destruct (open_ok junk steady (pipeline b) items tl Hv Hc Hf Hm Hs) as (a & -> & Ha). cbn [mbind option_bind].
  apply (archive_in_loop_ok junk steady) with (tl := tl).
  { rewrite Forall_forall in Hi, Hrec |- *. intros i Hin. split; [by apply Hrec|by apply Hi]. }
  { exact Ha. }
  destruct Ha as ((_ & _ & _ & -> & _) & _). rewrite length_app. pose proof (items_length items). lia.
Qed.

(** C10. A directory that is packed and unpacked again comes back.  For every
    tree of regular files, directories and symbolic links below a root, listed
    in any order, with names and targets below PATH_MAX: if no call fails while
    packing and the memory keeps to the guessed size, packing returns exactly
    what the chain of filters has delivered; and unpacking that, through any
    pipeline that recovers what was written and delivers it in any blocks,
    places on the disk every file of the tree in the order of the names, with
    its mode, the target of a link and its contents, below the new root.  The
    condition is that the pipeline shows the buffer itself, as one block, or
    that no symbolic link has a name of ten bytes: the reader may take such a
    link for the end of the archive ([stale_name_ends]). *)
Theorem pack_unpack {W U D} `{SinkLaws W, !Chain W, UpstreamLaws U, !Pipeline U, DiskLaws D}
  (fs fs' : filesystem) (junk : Z -> Z) (depth : nat) (p root p' root' : path) (ps : list path)
  (a : archive_write newc W) :
  realpath fs p = Some root -> blen root < PATH_MAX ->
  realpath fs' p' = Some root' -> blen root' < PATH_MAX ->
  bxxt_tree_walk fs bxxt_cpio_walk_entries depth root [] = Some ps ->
  Forall (packable fs root) ps -> Forall (fun q => blen root' + 1 + blen (relative root q) < PATH_MAX) ps ->
  300000 + Z.of_nat (length ps) < 2 ^ 32 ->
  sink_ok (chain_open (W := W) (zeros (guess_all fs 0 ps))) ->
  accepted (chain_open (W := W) (zeros (guess_all fs 0 ps))) = [] ->
  packs fs root ps a -> memory_fits (memory_of a) (guess_all fs 0 ps) ->
  exists bb, bxxt_cpio_archive_out (W := W) fs junk depth p = Some (ARCHIVE_OK, Some bb) /\
  ptr bb = received (memory_of a) /\
  forall (d : D) tl,
    valid (pipeline (ptr bb)) -> clean (data (pipeline (ptr bb))) -> fatal (pipeline (ptr bb)) = false ->
    in_memory (pipeline (ptr bb)) \/ Forall (fun q => ~ ten_byte_symlink fs root q) ps ->
    stream (pipeline (ptr bb)) = delivered (f_data (filter_first a)) ++ tl ->
    exists d', bxxt_cpio_archive_in junk fs' bb p' d = Some (Returned ARCHIVE_OK d') /\
    map summary (stored d') = map summary (stored d) ++ map (file_at fs root root') (merge_sort compare ps).
Proof.
  intros Hp Hl Hp' Hl' Hw Hps Hfit Hn Hsink Hacc Hpk Hm. eexists.
  split; [by eapply archive_out_ok|]. split; [done|]. cbn [ptr]. intros d tl Hv Hc Hf Hten Hs.
  destruct Hpk as (items & Hit & Hwrite).
  assert (Forall (packable fs root) (merge_sort compare ps)) as Hps' by (by rewrite (merge_sort_Permutation compare)).
  assert (Forall (fun q => blen root' + 1 + blen (relative root q) < PATH_MAX) (merge_sort compare ps)) as Hfit'
    by (by rewrite (merge_sort_Permutation compare)).
  destruct (items_of_ok fs root root' (merge_sort compare ps) 300000 Hps') as (items' & Hit' & Hall & Hrel & Hfound);
    [done|by rewrite (merge_sort_Permutation compare)|].
  rewrite Hit in Hit'. injection Hit' as <-.
  destruct (write_every_item_ok (opened (zeros (guess_all fs 0 ps))) items) as (b & a' & Hw' & Hb).
  { split_and!; [split; [done|exact Hsink]|by left|done|done]. }
  { eapply Forall_impl; [exact Hall|]. intros [[e rel] ds] [[? _] ?]. by split. }
  rewrite Hwrite in Hw'. injection Hw' as <- <-. rewrite (Hb eq_refl) in Hs.
  assert (emitted (opened (W := W) (zeros (guess_all fs 0 ps))) = []) as He by exact Hacc.
  rewrite He in Hs. unfold pending in Hs. change (state (opened _) =? ARCHIVE_STATE_DATA) with false in Hs.
  cbn iota in Hs. cbn [app] in Hs.
  assert (blen (received (memory_of a)) = used (memory_of a)) as Hlen by (apply received_blen, Hm).
  rewrite <- Hlen.
  assert (readable_names (pipeline (received (memory_of a))) items) as Hnames.
  { destruct Hten as [Hm'|Hten]; [by left|right]. eapply (items_of_ten_byte fs root); [exact Hps'| |exact Hit].
    by rewrite (merge_sort_Permutation compare). }
  assert (Forall (fun i => archivable i /\ blen root' + 1 + blen i.1.2 < PATH_MAX) items) as Hok.
  { apply Forall_forall. intros i Hi. rewrite Forall_forall in Hall. split; [by apply Hall|].
    rewrite Forall_forall in Hfit'.
    assert (i.1.2 ∈ map (relative root) (merge_sort compare ps)) as Hx by (rewrite <- Hrel; apply list_elem_of_fmap; by exists i).
    apply list_elem_of_fmap in Hx as (q & -> & Hq). by apply Hfit'. }
  destruct (archive_in_ok junk fs' p' root' (received (memory_of a)) items tl d Hp' Hl' Hok Hv Hc Hf Hnames Hs)
    as (d' & Hin & Hd').
  exists d'. split; [exact Hin|]. rewrite Hd', map_app. f_equal. rewrite map_map. exact Hfound.
Qed.

(** A small tree: two files and a link in a directory. *)
Record sample_file := SampleFile { sf_mode : Z; sf_size : Z; sf_data : bytes; sf_list : list dirent }.

Definition sample_tree (p : path) : option sample_file :=
  if bool_decide (p = str "/src") then
    Some (SampleFile 0x41ED 4096 [] [Dirent (str ".") true; Dirent (str "init.rc") false; Dirent (str "sbin") true])
  else if bool_decide (p = str "/src/sbin") then
    Some (SampleFile 0x41E8 60 [] [Dirent (str "..") true; Dirent (str "init") false])
  else if bool_decide (p = str "/src/init.rc") then Some (SampleFile 0x81E8 12 (str "hello, world") [])
  else if bool_decide (p = str "/src/sbin/init") then Some (SampleFile 0xA1FF 7 (str "/init.0") [])
  else None.

Definition sample_fs : filesystem := Filesystem
  (fun p => Some p)
  (fun p => f ← sample_tree p; if Z.land (sf_mode f) S_IFMT =? S_IFDIR then Some (sf_list f) else None)
  (fun p => f ← sample_tree p; Some (FileStat (sf_mode f) (sf_size f)))
  (fun p => f ← sample_tree p; if Z.land (sf_mode f) S_IFMT =? S_IFLNK then Some (sf_data f) else None)
  (fun p => f ← sample_tree p; if Z.land (sf_mode f) S_IFMT =? S_IFREG then Some (sf_data f) else None).

Definition sample_paths : list path := [str "/src/init.rc"; str "/src/sbin/init"; str "/src/sbin"].

(** Archives straight in memory, and read from there in blocks of seven. *)
#[local] Instance plain_chain : Chain (archive_none write_memory_data) := {
  chain_open b := archive_write_client_open (fun _ => 7) 512 1 (memory_write_open b);
  chain_memory s := client s
}.
#[local] Instance plain_pipeline : Pipeline read_memory_data :=
  fun b => new_filter (archive_read_open_memory2 b 7).

Lemma plain_pipeline_ok b : valid (pipeline (U := read_memory_data) b) /\
  stream (pipeline (U := read_memory_data) b) = b.
Proof.
  split; [|done]. apply new_filter_valid. split; [|done]. split; [done|apply blen_nonneg].
Qed.

Lemma no_zero s : forallb (fun c => negb (c =? 0)) s = true -> ~ In 0 s.
Proof. intros Hs Hin. rewrite forallb_forall in Hs. by specialize (Hs 0 Hin). Qed.

Lemma sample_packable : Forall (packable sample_fs (str "/src")) sample_paths.
Proof.
  repeat apply Forall_cons_2; [..|apply Forall_nil_2];
    (split; [done|split_and!; [done|by apply no_zero|done|done]|eexists; split; [vm_compute; reflexivity|]]);
    (split; [by vm_compute|]; split; [done|]).
  - left. split; [done|]. eexists. split; [vm_compute; reflexivity|done].
  - right. right. split; [done|]. eexists. split; [vm_compute; reflexivity|].
    split_and!; [done|by apply no_zero|done].
  - right. by left.
Qed.

(** Packing it succeeds, and the memory keeps its size. *)
Lemma sample_packs : exists a : archive_write newc (archive_none write_memory_data),
  packs sample_fs (str "/src") sample_paths a /\ memory_fits (memory_of a) (guess_all sample_fs 0 sample_paths).
Proof.
  unfold packs.
  destruct (items_of sample_fs (str "/src") 300000 (merge_sort compare sample_paths)) as [items|] eqn:Ei;
    [|vm_compute in Ei; discriminate].
  destruct (write_items (opened (zeros (guess_all sample_fs 0 sample_paths))) items) as [[b a]|] eqn:Ew.
  - assert (('(b, a) ← (items ← items_of sample_fs (str "/src") 300000 (merge_sort compare sample_paths);
        write_items (opened (zeros (guess_all sample_fs 0 sample_paths))) items);
      let m := memory_of a in
      Some (b, (0 <=? used m) && (used m <=? Archivewrite.size m) && (Archivewrite.size m =? blen (buff m))
               && (Archivewrite.size m =? guess_all sample_fs 0 sample_paths))) = Some (true, true)) as Hc
      by (vm_compute; reflexivity).
    rewrite Ei in Hc. cbn [mbind option_bind] in Hc. rewrite Ew in Hc. cbn [mbind option_bind] in Hc.
    injection Hc as -> Hm. rewrite !andb_true_iff in Hm. destruct Hm as [[[H1 H2] H3] H4].
    apply Z.leb_le in H1, H2. apply Z.eqb_eq in H3, H4.
    exists a. split; [by exists items|]. split; [by split|]. split; [done|by vm_compute].
  - exfalso. assert ((items ← items_of sample_fs (str "/src") 300000 (merge_sort compare sample_paths);
        write_items (opened (zeros (guess_all sample_fs 0 sample_paths))) items) <> None) as Hc
      by (vm_compute; discriminate).
    rewrite Ei in Hc. cbn [mbind option_bind] in Hc. by rewrite Ew in Hc.
Qed.

Lemma pack_unpack_witness :
  exists bb, bxxt_cpio_archive_out (W := archive_none write_memory_data) sample_fs (fun _ => 9) 5 (str "/src")
    = Some (ARCHIVE_OK, Some bb) /\
  exists d', bxxt_cpio_archive_in (U := read_memory_data) (fun _ => 9) sample_fs bb (str "/new") []
    = Some (Returned ARCHIVE_OK d') /\
  map summary d' =
    [Some (FileOf (str "/new/init.rc") 0x81E8 None (str "hello, world"));
     Some (FileOf (str "/new/sbin") 0x41E8 None []);
     Some (FileOf (str "/new/sbin/init") 0xA1FF (Some (str "/init.0")) [])].
Proof.
  destruct sample_packs as (a & Hpk & Hm).
  destruct (pack_unpack (U := read_memory_data) (D := list (archive_entry * bytes)) sample_fs sample_fs (fun _ => 9) 5 (str "/src") (str "/src") (str "/new") (str "/new")
    sample_paths a) as (bb & Hout & Hptr & Hin).
  - reflexivity.
  - reflexivity.
  - reflexivity.
  - reflexivity.
  - vm_compute. reflexivity.
  - apply sample_packable.
  - repeat apply Forall_cons_2; [reflexivity..|apply Forall_nil_2].
  - reflexivity.
  - by apply (client_open_ok _ 512).
  - apply (client_open_ok _ 512). reflexivity.
  - exact Hpk.
  - exact Hm.
  - exists bb. split; [exact Hout|]. destruct (plain_pipeline_ok (ptr bb)) as [Hv Hs].
    destruct (Hin [] [] Hv I eq_refl) as (d' & Hd & Hsum).
    { right. repeat apply Forall_cons_2; [..|apply Forall_nil_2]; intros (st & _ & _ & Hx); vm_compute in Hx; discriminate. }
    { rewrite Hs, Hptr, app_nil_r. reflexivity. }
    exists d'. split; [exact Hd|]. cbn [stored list_disk_laws map app] in Hsum. rewrite Hsum. vm_compute. reflexivity.
Defined.

Lemma cpio_order_irrelevant_witness :
  bxxt_cpio_archive_out (W := archive_none write_memory_data)
    (relisted sample_fs (fun p => reverse <$> opendir sample_fs p)) (fun _ => 9) 5 (str "/src") =
  bxxt_cpio_archive_out (W := archive_none write_memory_data) sample_fs (fun _ => 9) 5 (str "/src").
Proof.
  apply (cpio_order_irrelevant sample_fs). intros q. destruct (opendir sample_fs q); constructor.
  symmetry. apply reverse_Permutation.
Defined.

(** C14. Unpacking an archive of any bytes comes to an end.  Whatever the buffer
    holds, and whatever the disk answers, the loop over the headers ends in one
    of two ways: it returns, or a path runs past the end of its buffer.  It
    never goes round for ever: after a fatal error either there is no path, or
    the path grows with each round. *)
Theorem unpack_ends {U D} `{UpstreamLaws U, !Pipeline U, Disk D} (junk : Z -> Z) (fs : filesystem)
  (bb : bxxt_buffer) (p root : path) (d : D) :
  realpath fs p = Some root -> blen root < PATH_MAX -> Util.size bb = blen (ptr bb) ->
  valid (pipeline (ptr bb)) -> fatal (pipeline (ptr bb)) = false ->
  Forall is_byte (stream (pipeline (ptr bb))) ->
  (exists d', bxxt_cpio_archive_in junk fs bb p d = Some (Returned ARCHIVE_OK d')) \/
  (exists d', bxxt_cpio_archive_in junk fs bb p d = Some (Overflow d')).
Proof.
  intros Hp Hl Hs Hv Hf Hb. unfold bxxt_cpio_archive_in. rewrite Hp, Hs, mread_all.
  destruct (Z.leb_spec PATH_MAX (blen root)); [lia|]. cbn [mbind option_bind].
  destruct (open_any junk false (pipeline (ptr bb))) as (r & a & -> & Hok & Hrest & Hr); [by split|].
  cbn [mbind option_bind].
  destruct (archive_in_any junk false (length (stream (r_filter a)) + Z.to_nat PATH_MAX + 2) root a archive_entry_new d) as (x & Hx).
  - split; [done|]. destruct Hr as [(_ & _ & Hu & Hst)|[_ Hst]]; rewrite Hst; [split; [done|by left]|].
    split; [done|right; by right].
  - pose proof (rest_le_stream a). unfold blen, PATH_MAX in *. lia.
  - by vm_compute.
  - rewrite Hx. destruct x as [r' d'|d']; [left|right]; exists d'; [|done].
    by rewrite (archive_in_result junk _ _ _ _ _ _ _ Hx).
Qed.

Lemma unpack_ends_witness :
  (exists d', bxxt_cpio_archive_in (U := read_memory_data) (fun _ => 9) sample_fs (Buffer (blen hostile) hostile) (str "/new") []
    = Some (Returned ARCHIVE_OK d')) \/
  (exists d', bxxt_cpio_archive_in (U := read_memory_data) (fun _ => 9) sample_fs (Buffer (blen hostile) hostile) (str "/new") []
    = Some (Overflow (d' : list (archive_entry * bytes)))).
Proof.
  destruct (plain_pipeline_ok hostile) as [Hv Hs].
  apply (unpack_ends (U := read_memory_data) (fun _ => 9) sample_fs (Buffer (blen hostile) hostile) (str "/new") (str "/new") []).
  - done.
  - done.
  - done.
  - exact Hv.
  - done.
  - cbn [ptr]. rewrite Hs. apply is_byte_check. vm_compute. reflexivity.
Defined.

(** C13. Two kinds of archive write past the end of the path buffer.  A name
    that does not fit behind the root overflows it at once, before the disk is
    touched (unless it is the name of ten bytes of a link, and the archive is
    not in memory as one block: such a name may be taken for the trailer).  And
    a symbolic link whose target is cut short does so as well, however short its
    name: the header is refused only after its path has been set, so each
    further round of the loop, in which every call fails, puts the root in front
    of it once more. *)
Theorem unpack_overflows {U D} `{UpstreamLaws U, !Pipeline U, Disk D} (junk : Z -> Z) (fs : filesystem)
  (b : bytes) (p root : path) (d : D) (e : archive_entry) (path body s : bytes) :
  realpath fs p = Some root -> blen root < PATH_MAX ->
  valid (pipeline b) -> clean (data (pipeline b)) -> fatal (pipeline b) = false ->
  storable e path body -> path <> trailer_name ->
  (PATH_MAX <= blen root + 1 + blen path /\ (in_memory (pipeline b) \/ ~ ten_byte_link e path) /\
   stream (pipeline b) = entry_bytes e path body ++ s \/
   archive_entry_filetype e = AE_IFLNK /\ blen s < blen (content e []) /\
   stream (pipeline b) = concat (header_fields e (blen (content e [])) (blen path + 1)) ++ name_bytes path ++ s) ->
  exists d', bxxt_cpio_archive_in junk fs (Buffer (blen b) b) p d = Some (Overflow d').
Proof.
  intros Hp Hl Hv Hc Hf Hst Hnt Hor. unfold bxxt_cpio_archive_in. rewrite Hp. cbn [ptr Util.size]. rewrite mread_all.
  destruct (Z.leb_spec PATH_MAX (blen root)); [lia|]. cbn [mbind option_bind].
  assert (exists t, stream (pipeline b) = str "070701" ++ t) as [t Ht].
  { destruct Hor as [(_ & _ & ->)|(_ & _ & ->)]; unfold entry_bytes, header_fields; cbn [concat];
      change (hex 6 460545) with (str "070701"); rewrite <- ?app_assoc; by eexists. }
  assert (exists steady, (steady = true -> in_memory (pipeline b)) /\
    (PATH_MAX <= blen root + 1 + blen path /\ recognised steady e path /\
       stream (pipeline b) = entry_bytes e path body ++ s \/
     archive_entry_filetype e = AE_IFLNK /\ blen s < blen (content e []) /\ stream (pipeline b) =
       concat (header_fields e (blen (content e [])) (blen path + 1)) ++ name_bytes path ++ s))
    as (steady & Hm & Hor').
  { destruct Hor as [(? & [Hm|Hn] & ?)|Hor]; [exists true|exists false|exists false];
      (split; [done|]); [left..|by right]; (split_and!; [done| |done]); [by left|by right]. }
  clear Hor.
  destruct (open_at junk steady (pipeline b) t Hv Hc Hf Hm Ht) as (a & -> & Ha). cbn [mbind option_bind]. rewrite <- Ht in Ha.
  replace (length (stream (r_filter a)) + Z.to_nat PATH_MAX + 2)%nat
    with (S (length (stream (r_filter a)) + Z.to_nat PATH_MAX + 1)) by lia.
  destruct Hor' as [(Hlong & Hrec & Hs)|(Hlnk & Hcut & Hs)]; rewrite Hs in Ha.
  - exists d. by eapply long_name_step.
  - assert (body = []) as -> by (pose proof (storable_content e path body Hst) as Hx; rewrite Hlnk in Hx; apply Hx).
    eapply cut_link_step; [exact Ha|done..|unfold PATH_MAX; lia].
Qed.

(** A link to /sbin/healthd of which three bytes are left. *)
Definition cut_link : bytes :=
  let e := (nth 2 sample (archive_entry_new, [], [])).1.1 in
  concat (header_fields e 13 8) ++ name_bytes (str "charger") ++ str "/sb".

Lemma unpack_overflows_witness :
  exists d', bxxt_cpio_archive_in (U := read_memory_data) (fun _ => 9) sample_fs
    (Buffer (blen cut_link) cut_link) (str "/new") [] = Some (Overflow (d' : list (archive_entry * bytes))).
Proof.
  destruct (plain_pipeline_ok cut_link) as [Hv Hs].
  apply (unpack_overflows (U := read_memory_data) (fun _ => 9) sample_fs cut_link (str "/new") (str "/new") []
    (nth 2 sample (archive_entry_new, [], [])).1.1 (str "charger") [] (str "/sb")).
  - reflexivity.
  - reflexivity.
  - exact Hv.
  - exact I.
  - reflexivity.
  - pose proof sample_archivable as Hx. unfold sample in Hx. rewrite !Forall_cons in Hx.
    destruct Hx as (_ & _ & [[Hst _] _] & _). exact Hst.
  - discriminate.
  - right. split; [reflexivity|]. split; [reflexivity|]. rewrite Hs. reflexivity.
Defined.
