(* ===== verification/Property.v ===== *)
(** Read-only system properties (prop.c): finding the mapping that holds a
    property in [/proc/<pid>/maps], writing the property's value and serial
    through the mapped file, and restarting the system server. *)
From S2P Require Import Prelude Stdio Posix Util Boot.

(** ** The system *)

(** The files and descriptors of the process, its number, the contents of the
    files of [/proc] (by path), the entries of [/proc] in the order [readdir]
    gives them ([None]: the directory does not open), and the signals sent. *)
Record sys := Sys {
  s_world : world;
  s_pid : Z;
  s_procfs : gmap path bytes;
  s_dir : option (list bytes);
  s_kills : list (Z * Z)
}.

(** [None] is undefined behaviour. *)
Definition P (A : Type) : Type := sys -> option (A * sys).
#[export] Instance P_ret : MRet P := fun A a s => Some (a, s).
#[export] Instance P_bind : MBind P := fun A B f m s =>
  match m s with Some (a, s) => f a s | None => None end.
Definition on_files {A} (m : M A) : P A := fun s =>
  match m (s_world s) with
  | Some (a, w) => Some (a, Sys w (s_pid s) (s_procfs s) (s_dir s) (s_kills s))
  | None => None
  end.
Definition plift {A} (o : option A) : P A := fun s => a ← o; Some (a, s).
Definition pgets {A} (f : sys -> A) : P A := fun s => Some (f s, s).
Definition kill (pid sig : Z) : P Z := fun s =>
  Some (0, Sys (s_world s) (s_pid s) (s_procfs s) (s_dir s) (s_kills s ++ [(pid, sig)])).
Definition SIGTERM := 15.

(** What the Android C library and the hardware answer: the address of a
    property's record (0 when there is none), and the 32-bit word at an
    address ([None] is a fault). *)
Class Bionic := {
  system_property_find : sys -> bytes -> Z;
  load_u32 : sys -> Z -> option Z
}.

(** ** [fscanf] *)

(** As [scan] of Stdio, with the input that is left: a literal that does not
    match stays in the stream. *)
Fixpoint scan_stream (ds : list directive) (s : bytes) (acc : list sval) : list sval * bytes :=
  match ds with
  | [] => (acc, s)
  | DSpace :: ds => scan_stream ds (skip_space s) acc
  | DLit c :: ds =>
      match s with
      | b :: s' => if b =? c then scan_stream ds s' acc else (acc, s)
      | [] => (acc, s)
      end
  | DHex w :: ds =>
      match scan_hex s with
      | Some (v, s') => scan_stream ds s' (acc ++ [SInt (v mod 2 ^ w)])
      | None => (acc, skip_space s)
      end
  | DSet neg set :: ds =>
      let '(w, s') := span (in_set neg set) s in
      match w with
      | [] => (acc, s)
      | _ => scan_stream ds s' (acc ++ [SStr w])
      end
  | DWord :: ds =>
      let '(w, s') := span (fun c => negb (isspace c)) (skip_space s) in
      match w with
      | [] => (acc, s')
      | _ => scan_stream ds s' (acc ++ [SStr w])
      end
  end.

Definition fscanf (s fmt : bytes) : option (list sval * bytes) :=
  ds ← parse_format (S (length fmt)) fmt; Some (scan_stream ds s []).

(** ** Mappings *)

Record bxxt_mapinfo := MapInfo { bm_file : path; bm_start : Z; bm_end : Z }.

(** 0 when the address is inside; the end of a mapping counts as inside. *)
Definition bxxt_scan_maps_by_offset_callback (offset : Z) (bm : bxxt_mapinfo) : Z :=
  if (bm_start bm <=? offset) && (offset <=? bm_end bm) then 0 else 1.

Definition maps_format : bytes := str "%lx-%lx %[^" ++ [10] ++ str "]s".

(** The text from [p_name] on, which the loop moves back to the last blank. *)
Definition last_word (name : bytes) : bytes :=
  rev (fst (span (fun c => negb (c =? 32)) (rev name))).

(** The [while] loop; the text after the addresses goes to [name[PATH_MAX]]. *)
Fixpoint scan_loop (fuel : nat) (m : bytes) (bm : bxxt_mapinfo) (callback : bxxt_mapinfo -> Z)
    : option (Z * bxxt_mapinfo) :=
  match fuel with
  | O => None
  | S fuel =>
      '(vs, m) ← fscanf m maps_format;
      match vs with
      | [SInt a; SInt b; SStr name] =>
          if blen name <? PATH_MAX then
            let bm := MapInfo (last_word name) a b in
            if callback bm =? 0 then Some (0, bm) else scan_loop fuel m bm callback
          else None
      | [SInt a; SInt b] => Some (1, MapInfo (bm_file bm) a b)
      | [SInt a] => Some (1, MapInfo (bm_file bm) a (bm_end bm))
      | _ => Some (1, bm)
      end
  end.

Definition maps_name (pid : Z) : path := str "/proc/" ++ fmt_d pid ++ str "/maps".

(** A file that does not open gives 0, the result for a mapping found. *)
Definition bxxt_scan_maps_by_callback (pid : Z) (callback : bxxt_mapinfo -> Z)
    : P (Z * bxxt_mapinfo) :=
  self ← pgets s_pid;
  let name := maps_name (if pid =? 0 then self else pid) in
  let bm := MapInfo [] 0 0 in
  m ← pgets (fun s => s_procfs s !! name);
  match m with
  | None => mret (0, bm)
  | Some m => plift (scan_loop (S (length m)) m bm callback)
  end.

(** ** Properties *)

Definition PROP_VALUE_MAX := 92.

(** [struct _prinfo]: the serial, the value, then the name. *)
Definition off_serial := 0.
Definition off_value := 4.
Definition off_prop_name := 96.

(** The length of the value in the top byte, the rest of the serial kept. *)
Definition new_serial (serial : Z) (value : bytes) : Z :=
  u32 (Z.lor (u64 (Z.shiftl (blen value) 24)) (Z.shiftr (u32 (Z.shiftl serial 8)) 8)).

Section Bionic.
Context `{Bionic}.

Definition bxxt_prop_set (name value : bytes) : P Z :=
  addr ← pgets (fun s => system_property_find s name);
  '(r, bm) ← bxxt_scan_maps_by_callback 0 (bxxt_scan_maps_by_offset_callback addr);
  if negb (r =? 0) then mret 1
  else
    let offset := u64 (addr - bm_start bm) in
    if PROP_VALUE_MAX <? blen value then mret 1
    else
      fd ← on_files (open (bm_file bm) (Z.lor O_RDWR O_EXCL) 292);
      if fd =? -1 then mret 1
      else
        word ← pgets (fun s => load_u32 s addr);
        word ← plift word;
        let serial := new_serial word value in
        _ ← on_files (lseek_set fd (u64 (offset + off_serial)));
        _ ← on_files (write fd (le_bytes 4 serial));
        _ ← on_files (lseek_set fd (u64 (offset + off_value)));
        r ← on_files (write fd (value ++ [0]));
        _ ← on_files (close fd);
        mret (if 0 <? r then 0 else 1).

(** ** Processes *)

(** [strcmp] on two objects: it reads up to the first difference or NUL. *)
Fixpoint strcmp_mem (a b : bytes) : option Z :=
  match a, b with
  | x :: a, y :: b =>
      if x <? y then Some (-1) else if y <? x then Some 1
      else if x =? 0 then Some 0 else strcmp_mem a b
  | _, _ => None
  end.

Fixpoint dec_value (acc : Z) (s : bytes) : Z :=
  match s with
  | c :: s => if (48 <=? c) && (c <=? 57) then dec_value (acc * 10 + (c - 48)) s else acc
  | [] => acc
  end.

(** [atol], as a [pid_t]; numbers past a [long] do not name entries. *)
Definition atol (s : bytes) : Z :=
  let '(neg, s) := skip_sign (skip_space s) in
  let v := dec_value 0 s in s32 (if neg : bool then - v else v).

Definition cmdline_name (d_name : bytes) : path := str "/proc/" ++ d_name ++ str "/cmdline".

(** The contents of [tmp[PATH_MAX]] after [memset] and [fread]. *)
Definition read_tmp (data : bytes) : bytes :=
  take (Z.to_nat PATH_MAX) (data ++ zeros PATH_MAX).

Fixpoint walk_proc (name : bytes) (des : list bytes) (procfs : gmap path bytes) : option Z :=
  match des with
  | [] => Some (-1)
  | d :: des =>
      let p := cmdline_name d in
      if blen p <? PATH_MAX then
        match procfs !! p with
        | None => walk_proc name des procfs
        | Some data =>
            c ← strcmp_mem (name ++ [0]) (read_tmp data);
            if c =? 0 then Some (atol d) else walk_proc name des procfs
        end
      else None
  end.

Definition bxxt_get_pid_by_cmdline (name : bytes) : P Z :=
  d ← pgets s_dir;
  match d with
  | None => mret (-1)
  | Some des => procfs ← pgets s_procfs; plift (walk_proc name des procfs)
  end.

Definition bxxt_do_setdebuggable (value : bytes) : P Z :=
  r ← bxxt_prop_set (str "ro.debuggable") value;
  if negb (r =? 0) then mret 1
  else
    pid ← bxxt_get_pid_by_cmdline (str "system_server");
    if pid <=? 0 then mret 1
    else
      _ ← kill pid SIGTERM;
      mret 0.

(** [argv] with the name of the command. *)
Definition setdebuggable_main (argv : list bytes) : P Z :=
  value ← plift (argv !! 1%nat); bxxt_do_setdebuggable value.
Definition setprop_main (argv : list bytes) : P Z :=
  name ← plift (argv !! 1%nat); value ← plift (argv !! 2%nat); bxxt_prop_set name value.
End Bionic.

(** ** Vocabulary of the proofs *)

(** A line of [/proc/<pid>/maps]: the addresses, permissions, offset, device
    and inode up to the blank before the file, and the file. *)
Record vma := Vma { v_start : Z; v_end : Z; v_mid : bytes; v_file : path }.

Definition maps_line (v : vma) : bytes :=
  fmt_0x 8 (v_start v) ++ str "-" ++ fmt_0x 8 (v_end v) ++ str " " ++ v_mid v ++ v_file v ++ [10].
Definition maps_text (vs : list vma) : bytes := concat (map maps_line vs).

Definition wf_vma (v : vma) : Prop :=
  is_u64 (v_start v) /\ is_u64 (v_end v) /\
  (exists c m, v_mid v = c :: m ++ [32] /\ isspace c = false) /\
  (10 ∉ v_mid v) /\ (10 ∉ v_file v) /\ (32 ∉ v_file v) /\ blen (v_mid v ++ v_file v) < PATH_MAX.

Definition holds_addr (addr : Z) (v : vma) : bool := (v_start v <=? addr) && (addr <=? v_end v).
Definition info_of (v : vma) : bxxt_mapinfo := MapInfo (v_file v) (v_start v) (v_end v).

(** The mapping the program takes for an address: the first that holds it. *)
Definition first_holder (addr : Z) (vs : list vma) : option vma :=
  List.find (holds_addr addr) vs.

(** A property's record at an offset of a file: its serial, value and name. *)
Definition prop_record (f : bytes) (off : Z) : option (Z * bytes * bytes) :=
  w ← mread f (off + off_serial) 4;
  value ← cstr_at f (off + off_value);
  name ← cstr_at f (off + off_prop_name);
  Some (le_val w, value, name).

(** ** Scanning the mappings *)

Lemma span_false p s r :
  Forall (fun c => p c = true) s -> match r with [] => True | c :: _ => p c = false end ->
  span p (s ++ r) = (s, r).
Proof.
  intros Hs Hr. destruct r as [|c r]; [rewrite app_nil_r; by apply span_end|by apply span_all].
Qed.

Lemma last_word_app m file : 32 ∉ file -> last_word (m ++ 32 :: file) = file.
Proof.
  intros Hf. unfold last_word. rewrite rev_app_distr. cbn [rev]. rewrite <- app_assoc. cbn [app].
  rewrite span_all; [cbn [fst]; apply rev_involutive| |done].
  apply Forall_rev, Forall_forall. intros c Hc.
  destruct (Z.eqb_spec c 32) as [->|]; [done|done].
Qed.

Lemma scan_maps_line v sep rest :
  wf_vma v -> sep = [] \/ sep = [10] ->
  fscanf (sep ++ maps_line v ++ rest) maps_format =
    Some ([SInt (v_start v); SInt (v_end v); SStr (v_mid v ++ v_file v)], [10] ++ rest).
Proof.
  intros (Hs & He & (c & m & Hm & Hc) & Hm10 & Hf10 & Hf32 & Hl) Hsep.
  unfold fscanf, maps_format.
  change (parse_format _ _) with
    (Some [DHex 64; DLit 45; DHex 64; DSpace; DSet true [10]; DLit 115]).
  cbn [mbind option_bind scan_stream].
  unfold maps_line. rewrite <- !app_assoc.
  assert (forall x, scan_hex (sep ++ x) = scan_hex x) as Hskip.
  { intros x. destruct Hsep as [-> | ->]; done. }
  rewrite Hskip. change (str "-" ++ ?x) with (45 :: x).
  rewrite scan_hex_fmt_0x by done. cbn iota. rewrite Z.eqb_refl.
  change (str " " ++ ?x) with (32 :: x).
  rewrite scan_hex_fmt_0x by done.
  cbn [app]. change (skip_space (32 :: ?x)) with (skip_space x).
  rewrite Hm at 1. rewrite <- !app_comm_cons. cbn [skip_space]. rewrite Hc.
  rewrite app_comm_cons, <- Hm, app_assoc. change ([10] ++ rest) with (10 :: rest).
  rewrite span_all; [| |done].
  - destruct (v_mid v ++ v_file v) eqn:E; [by rewrite Hm in E|]. cbn [app].
    by rewrite !Z.mod_small by done.
  - apply Forall_app_2; apply Forall_forall; intros x Hx; unfold in_set;
      rewrite bool_decide_false; try done; intros ->%list_elem_of_singleton; done.
Qed.

Lemma scan_maps_end sep : sep = [] \/ sep = [10] -> fscanf sep maps_format = Some ([], []).
Proof. by intros [-> | ->]. Qed.

(** The loop returns the first mapping that holds the address. *)
Lemma scan_loop_spec addr vs fuel sep bm :
  Forall wf_vma vs -> (length vs < fuel)%nat -> sep = [] \/ sep = [10] ->
  exists bm', scan_loop fuel (sep ++ maps_text vs) bm (bxxt_scan_maps_by_offset_callback addr) =
    Some (match first_holder addr vs with Some v => (0, info_of v) | None => (1, bm') end).
Proof.
  intros Hvs. revert fuel sep bm. induction Hvs as [|v vs Hv Hvs IH]; intros fuel sep bm Hf Hsep.
  - destruct fuel as [|fuel]; [cbn in Hf; lia|]. unfold maps_text. cbn [map concat scan_loop].
    rewrite app_nil_r, scan_maps_end by done. cbn. by eexists.
  - destruct fuel as [|fuel]; [cbn in Hf; lia|]. cbn [length] in Hf.
    unfold maps_text. cbn [map concat scan_loop]. fold (maps_text vs).
    rewrite scan_maps_line by done. cbn [mbind option_bind].
    pose proof Hv as (_ & _ & (c & m & Hm & _) & _ & _ & Hf32 & Hl).
    apply Z.ltb_lt in Hl. rewrite Hl.
    assert (last_word (v_mid v ++ v_file v) = v_file v) as ->.
    { rewrite Hm. change (c :: m ++ [32]) with ((c :: m) ++ [32]). rewrite <- app_assoc.
      by apply last_word_app. }
    fold (info_of v). unfold first_holder. cbn [find].
    replace (bxxt_scan_maps_by_offset_callback addr (info_of v) =? 0) with (holds_addr addr v)
      by (unfold bxxt_scan_maps_by_offset_callback, holds_addr; cbn [info_of bm_start bm_end];
          by destruct (_ && _)).
    destruct (holds_addr addr v); [by exists bm|].
    apply IH; [lia|by right].
Qed.

Lemma blen_maps_text vs : (length vs <= length (maps_text vs))%nat.
Proof.
  induction vs as [|v vs IH]; [done|]. unfold maps_text in *. cbn [map concat length].
  rewrite length_app. assert (0 < length (maps_line v))%nat; [|lia].
  unfold maps_line. rewrite !length_app. cbn [length]. lia.
Qed.

(** ** Writing the record *)

(** A write through a descriptor. *)
Lemma write_fd w fd name fl pos f d :
  w_fds w !! fd = Some (OFile name fl pos) -> access_mode fl <> O_RDONLY ->
  w_fs w !! name = Some (Regular f) -> pos + blen d <= w_limit w ->
  write fd d w = Some (blen d, World (<[name := Regular (overwrite f pos d)]> (w_fs w))
    (<[fd := OFile name fl (pos + blen d)]> (w_fds w)) (w_permit w) (w_limit w)).
Proof.
  intros Hfd Ha Hf Hl. unfold write. rewrite Hfd. cbn [of_path of_flags of_pos]. rewrite Hf.
  replace (access_mode fl =? O_RDONLY) with false by lia.
  rewrite Z.min_l by lia.
  replace ((blen d <=? 0) && negb (blen d =? 0)) with false by (pose proof (blen_nonneg d); lia).
  rewrite take_ge by (unfold blen; lia). done.
Qed.

Lemma lseek_fd w fd name fl pos off :
  w_fds w !! fd = Some (OFile name fl pos) -> 0 <= off < 2 ^ 63 ->
  lseek_set fd off w =
    Some (off, World (w_fs w) (<[fd := OFile name fl off]> (w_fds w)) (w_permit w) (w_limit w)).
Proof.
  intros Hfd Ho. unfold lseek_set. rewrite Hfd. cbn [of_path of_flags].
  by replace ((off <? 0) || (2 ^ 63 <=? off)) with false by lia.
Qed.

Lemma P_bind_ok {A B} (m : P A) (k : A -> P B) s a s' :
  m s = Some (a, s') -> (m ≫= k) s = k a s'.
Proof. intros H. unfold mbind, P_bind. by rewrite H. Qed.

Lemma on_files_bind {A B} (m : M A) (k : A -> P B) s a w :
  m (s_world s) = Some (a, w) ->
  (on_files m ≫= k) s = k a (Sys w (s_pid s) (s_procfs s) (s_dir s) (s_kills s)).
Proof. intros H. apply P_bind_ok. unfold on_files. by rewrite H. Qed.

Lemma pgets_bind {A B} (g : sys -> A) (k : A -> P B) s : (pgets g ≫= k) s = k (g s) s.
Proof. done. Qed.
Lemma plift_bind {A B} (a : A) (k : A -> P B) s : (plift (Some a) ≫= k) s = k a s.
Proof. done. Qed.

(** The bytes of the record after the two writes. *)
Definition updated (f : bytes) (off serial : Z) (value : bytes) : bytes :=
  overwrite (overwrite f (off + off_serial) (le_bytes 4 serial)) (off + off_value) (value ++ [0]).

(** An overwrite inside a file. *)
Lemma overwrite_inside f pos d :
  0 <= pos -> pos + blen d <= blen f ->
  overwrite f pos d = take (Z.to_nat pos) f ++ d ++ drop (Z.to_nat pos + length d) f.
Proof.
  intros Hp Hd. pose proof (blen_nonneg d). unfold overwrite, zeros.
  replace (Z.to_nat (pos - blen f)) with 0%nat by lia. cbn [replicate]. by rewrite app_nil_r.
Qed.

Lemma overwrite_next f pos d e :
  0 <= pos -> pos + blen d + blen e <= blen f ->
  overwrite (overwrite f pos d) (pos + blen d) e = overwrite f pos (d ++ e).
Proof.
  intros Hp Hd. pose proof (blen_nonneg d). pose proof (blen_nonneg e).
  assert (length (take (Z.to_nat pos) f) = Z.to_nat pos) as Ht
    by (unfold blen in *; rewrite length_take; lia).
  rewrite (overwrite_inside f pos d), (overwrite_inside f pos (d ++ e)) by (rewrite ?blen_app; lia).
  rewrite overwrite_inside.
  - rewrite (app_assoc _ d). rewrite take_app_length', drop_app_ge.
    + rewrite <- !app_assoc. do 3 f_equal. rewrite drop_drop. f_equal.
      rewrite !length_app, Ht. unfold blen in *. lia.
    + rewrite length_app, Ht. unfold blen in *. lia.
    + rewrite length_app, Ht. unfold blen in *. lia.
  - lia.
  - rewrite !blen_app. unfold blen in *. rewrite length_drop, Ht. lia.
Qed.

Lemma updated_once f off serial value :
  0 <= off -> off + 5 + blen value <= blen f ->
  updated f off serial value = overwrite f off (le_bytes 4 serial ++ value ++ [0]).
Proof.
  intros Ho Hl. unfold updated, off_serial, off_value. rewrite Z.add_0_r.
  change (off + 4) with (off + blen (le_bytes 4 serial)). apply overwrite_next; [done|].
  rewrite blen_le_bytes, blen_app, blen_cons, blen_nil. lia.
Qed.

Lemma cstr_at_split f off s :
  cstr_at f off = Some s <->
  0 <= off /\ (0 ∉ s) /\ exists a r, f = a ++ s ++ 0 :: r /\ blen a = off.
Proof.
  unfold cstr_at. split.
  - destruct (_ && _) eqn:E; [|done]. apply andb_true_iff in E as [H0 H1]. intros H.
    assert (forall m t, cstring m = Some t -> (0 ∉ t) /\ exists r, m = t ++ 0 :: r) as Hc.
    { clear. induction m as [|b m IH]; intros t; cbn [cstring]; [done|].
      destruct (Z.eqb_spec b 0) as [->|Hb].
      - intros [= <-]. split; [by apply not_elem_of_nil|]. by exists m.
      - destruct (cstring m) as [u|]; cbn [mbind option_bind]; [|done]. intros [= <-].
        destruct (IH u eq_refl) as (Hu & r & ->). split; [|by exists r].
        rewrite not_elem_of_cons. split; [lia|done]. }
    destruct (Hc _ _ H) as (Hs & r & Hr). split; [lia|]. split; [done|].
    exists (take (Z.to_nat off) f), r. rewrite <- Hr, take_drop. split; [done|].
    unfold blen in *. rewrite length_take. lia.
  - intros (Ho & Hs & a & r & -> & <-).
    replace ((0 <=? blen a) && (blen a <=? blen (a ++ s ++ 0 :: r))) with true
      by (rewrite !blen_app; pose proof (blen_nonneg s); pose proof (blen_nonneg (0 :: r));
          pose proof (blen_nonneg a); lia).
    unfold blen. rewrite Nat2Z.id, drop_app_length. by apply cstring_app.
Qed.

(** The new serial: the length in the top byte, the rest unchanged. *)
Lemma new_serial_spec serial value :
  is_u32 serial -> blen value < 256 ->
  is_u32 (new_serial serial value) /\
  new_serial serial value / 2 ^ 24 = blen value /\
  new_serial serial value mod 2 ^ 24 = serial mod 2 ^ 24.
Proof.
  intros Hs Hv. pose proof (blen_nonneg value) as Hv0.
  assert (new_serial serial value = serial mod 2 ^ 24 + 2 ^ 24 * blen value) as ->.
  { unfold new_serial, u64. rewrite (Z.mod_small (Z.shiftl _ _)).
    2: { rewrite Z.shiftl_mul_pow2 by lia. change (2 ^ 24) with 16777216. pow2. lia. }
    rewrite (lor_add (serial mod 2 ^ 24) (blen value) 24) by (try apply Z.mod_pos_bound; lia).
    rewrite Z.lor_comm.
    replace (Z.shiftr (u32 (Z.shiftl serial 8)) 8) with (serial mod 2 ^ 24).
    2: { apply Z.bits_inj'. intros n Hn.
         rewrite Z.shiftr_spec, u32_testbit, shiftl_testbit by lia.
         replace (n + 8 <? 8) with false by lia. replace (n + 8 - 8) with n by lia.
         destruct (Z.ltb_spec (n + 8) 32).
         - by rewrite Z.mod_pow2_bits_low by lia.
         - by rewrite Z.mod_pow2_bits_high by lia. }
    apply u32_small. rewrite <- lor_add by (try apply Z.mod_pos_bound; lia).
    unfold is_u32. change (2 ^ 24) with 16777216. pow2. zlia. }
  unfold is_u32. change (2 ^ 24) with 16777216. pow2.
  split; [zlia|]. split; zlia.
Qed.

(** What the program reads in the file after its writes. *)
Lemma updated_record f off serial old nm s' value :
  prop_record f off = Some (serial, old, nm) -> 0 <= off ->
  is_u32 s' -> (0 ∉ value) -> blen value <= PROP_VALUE_MAX ->
  let f' := updated f off s' value in
  prop_record f' off = Some (s', value, if blen value =? PROP_VALUE_MAX then [] else nm) /\
  blen f' = blen f /\
  (forall i, i < off \/ off + 5 + blen value <= i -> mread f' i 1 = mread f i 1).
Proof.
  intros Hr Ho Hs Hv Hl f'. pose proof (blen_nonneg value) as Hv0.
  unfold prop_record in Hr.
  destruct (mread f (off + off_serial) 4) as [w|] eqn:Ew; [|done].
  destruct (cstr_at f (off + off_value)) as [o|] eqn:Eo; [|done].
  destruct (cstr_at f (off + off_prop_name)) as [n|] eqn:En; [|done].
  cbn [mbind option_bind] in Hr. injection Hr as <- -> ->.
  apply cstr_at_split in En as (_ & Hnm & a & r & Hf & Ha).
  unfold off_prop_name, PROP_VALUE_MAX in *.
  pose proof (blen_nonneg nm). pose proof (blen_nonneg r).
  assert (blen f = off + 96 + blen nm + 1 + blen r) as Hlen
    by (rewrite Hf, !blen_app, blen_cons; lia).
  set (d := le_bytes 4 s' ++ value ++ [0]).
  assert (blen d = 5 + blen value) as Hd
    by (unfold d; rewrite !blen_app, blen_le_bytes, blen_cons, blen_nil; lia).
  assert (f' = take (Z.to_nat off) f ++ d ++ drop (Z.to_nat off + length d) f) as Hf'.
  { unfold f'. rewrite updated_once by lia. apply overwrite_inside; lia. }
  assert (blen (take (Z.to_nat off) f) = off) as Ht by (unfold blen in *; rewrite length_take; lia).
  assert (blen f' = blen f) as Hb.
  { rewrite Hf', !blen_app, Ht. unfold blen in *. rewrite length_drop. lia. }
  split; [|split; [done|]].
  - unfold prop_record, off_serial, off_value, off_prop_name. rewrite Z.add_0_r.
    assert (mread f' off 4 = Some (le_bytes 4 s')) as ->.
    { rewrite Hf'. unfold d. rewrite <- !app_assoc.
      pose proof (mread_app (take (Z.to_nat off) f) (le_bytes 4 s')
        (value ++ [0] ++ drop (Z.to_nat off + length d) f)) as Hm.
      by rewrite Ht in Hm. }
    assert (cstr_at f' (off + 4) = Some value) as ->.
    { apply cstr_at_split. split; [lia|]. split; [done|].
      exists (take (Z.to_nat off) f ++ le_bytes 4 s'), (drop (Z.to_nat off + length d) f).
      split; [rewrite Hf'; unfold d; by rewrite <- !app_assoc|].
      rewrite blen_app, Ht, blen_le_bytes. lia. }
    assert (cstr_at f' (off + 96) = Some (if blen value =? 92 then [] else nm)) as ->.
    { apply cstr_at_split. split; [lia|]. destruct (Z.eqb_spec (blen value) 92) as [E|E].
      - split; [by apply not_elem_of_nil|].
        exists (take (Z.to_nat off) f ++ le_bytes 4 s' ++ value), (drop (Z.to_nat off + length d) f).
        split; [rewrite Hf'; unfold d; by rewrite <- !app_assoc|].
        rewrite !blen_app, Ht, blen_le_bytes. lia.
      - split; [done|].
        exists (take (Z.to_nat off) f ++ d ++ drop (Z.to_nat off + length d) a), r.
        assert (drop (Z.to_nat off + length d) f = drop (Z.to_nat off + length d) a ++ nm ++ 0 :: r) as Hdr.
        { rewrite Hf, drop_app_le; [done|]. unfold blen in *. lia. }
        split; [by rewrite Hf', Hdr, <- !app_assoc|].
        rewrite !blen_app, Ht. unfold blen in *. rewrite length_drop. lia. }
    cbn [mbind option_bind]. do 3 f_equal.
    rewrite le_val_le_bytes. apply Z.mod_small. exact Hs.
  - intros i Hi. assert (0 <= i /\ i < blen f \/ (i < 0 \/ blen f <= i)) as [Hin|Hout] by lia.
    + assert (is_Some (mread f i 1)) as [x Hx] by (rewrite mread_Some by lia; by eexists).
      rewrite Hx. unfold f'. rewrite updated_once by lia.
      destruct (overwrite_spec f off d Ho) as (_ & _ & Hsame).
      apply (Hsame i x); [rewrite Hd; lia|done].
    + unfold mread. rewrite Hb.
      by replace ((0 <=? i) && (0 <=? 1) && (i + 1 <=? blen f)) with false by lia.
Qed.

(** ** Setting a property *)

Definition set_file (s : sys) (name : path) (d : bytes) : sys :=
  let w := s_world s in
  Sys (World (<[name := Regular d]> (w_fs w)) (w_fds w) (w_permit w) (w_limit w))
    (s_pid s) (s_procfs s) (s_dir s) (s_kills s).

(** A property whose record is at offset [off] of the file of the first mapping
    [v] that holds its address: the mapping starts at the beginning of the
    file, and its memory is the file's. *)
Record mapped_property `{Bionic} (s : sys) (name : bytes) (vs : list vma) (v : vma) (f : bytes)
    (off serial : Z) (old nm : bytes) : Prop := {
  mp_maps : s_procfs s !! maps_name (s_pid s) = Some (maps_text vs);
  mp_wf : Forall wf_vma vs;
  mp_first : first_holder (system_property_find s name) vs = Some v;
  mp_off : system_property_find s name = v_start v + off;
  mp_file : w_fs (s_world s) !! v_file v = Some (Regular f);
  mp_permit : w_permit (s_world s) (v_file v) (Z.lor O_RDWR O_EXCL) = true;
  mp_record : prop_record f off = Some (serial, old, nm);
  mp_serial : is_u32 serial;
  mp_memory : forall s', w_fs (s_world s') !! v_file v = Some (Regular f) ->
    load_u32 s' (system_property_find s name) = Some serial;
  mp_room : blen f <= w_limit (s_world s)
}.

Section Setting.
Context `{Bionic}.

Lemma scan_maps_runs s addr vs v :
  s_procfs s !! maps_name (s_pid s) = Some (maps_text vs) -> Forall wf_vma vs ->
  first_holder addr vs = Some v ->
  bxxt_scan_maps_by_callback 0 (bxxt_scan_maps_by_offset_callback addr) s = Some ((0, info_of v), s).
Proof.
  intros Hm Hvs Hv. unfold bxxt_scan_maps_by_callback.
  rewrite pgets_bind. cbn [Z.eqb]. cbv zeta. rewrite pgets_bind, Hm.
  destruct (scan_loop_spec addr vs (S (length (maps_text vs))) [] (MapInfo [] 0 0) Hvs) as [bm' Hs].
  { pose proof (blen_maps_text vs). lia. }
  { by left. }
  rewrite app_nil_l, Hv in Hs. unfold plift. by rewrite Hs.
Qed.

Lemma record_room f off serial old nm :
  prop_record f off = Some (serial, old, nm) -> 0 <= off -> off + 97 <= blen f.
Proof.
  intros Hr Ho. unfold prop_record in Hr.
  destruct (mread f (off + off_serial) 4) as [w|]; [|done].
  destruct (cstr_at f (off + off_value)) as [o|]; [|done].
  destruct (cstr_at f (off + off_prop_name)) as [n|] eqn:En; [|done].
  apply cstr_at_split in En as (_ & _ & a & r & -> & Ha). unfold off_prop_name in Ha.
  rewrite !blen_app, blen_cons. pose proof (blen_nonneg n). pose proof (blen_nonneg r). lia.
Qed.

Lemma prop_set_runs s name vs v f off serial old nm value :
  mapped_property s name vs v f off serial old nm ->
  blen value <= PROP_VALUE_MAX -> blen f < 2 ^ 63 ->
  bxxt_prop_set name value s =
    Some (0, set_file s (v_file v) (updated f off (new_serial serial value) value)) /\ 0 <= off.
Proof.
  intros [Hm Hwf Hv Ho Hf Hp Hr Hs Hmem Hl] Hval Hsz.
  set (addr := system_property_find s name) in *.
  assert (holds_addr addr v = true) as Hin by (by apply List.find_some in Hv as [_ Hv]).
  assert (0 <= off) as Hoff by (unfold holds_addr in Hin; lia).
  split; [|done]. pose proof (record_room _ _ _ _ _ Hr Hoff) as Hroom.
  pose proof (blen_nonneg value) as Hval0. unfold PROP_VALUE_MAX in *.
  unfold bxxt_prop_set.
  rewrite pgets_bind. fold addr.
  rewrite (P_bind_ok _ _ s _ s (scan_maps_runs s addr vs v Hm Hwf Hv)).
  cbn [Z.eqb negb bm_start bm_file info_of].
  replace (u64 (addr - v_start v)) with off by (rewrite u64_small; unfold is_u64; lia).
  unfold PROP_VALUE_MAX. replace (92 <? blen value) with false by lia.
  destruct (alloc_fd_free (w_fds (s_world s))) as [Hfree Hpos].
  set (fd := alloc_fd (w_fds (s_world s))) in *.
  erewrite on_files_bind by (unfold open; rewrite Hp, Hf; cbn [negb]; fold fd; reflexivity).
  replace (fd =? -1) with false by lia.
  rewrite pgets_bind, Hmem, plift_bind by exact Hf.
  set (ser := new_serial serial value). unfold off_serial, off_value. rewrite Z.add_0_r.
  rewrite !(u64_small off), !(u64_small (off + 4)) by (unfold is_u64; lia).
  erewrite on_files_bind.
  2: { apply (lseek_fd _ fd (v_file v) (Z.lor O_RDWR O_EXCL) 0).
       - cbn [s_world w_fds]. apply lookup_insert_eq.
       - lia. }
  erewrite on_files_bind.
  2: { apply (write_fd _ fd (v_file v) (Z.lor O_RDWR O_EXCL) off f).
       - cbn [s_world w_fds]. apply lookup_insert_eq.
       - done.
       - exact Hf.
       - rewrite blen_le_bytes. cbn [s_world w_limit]. lia. }
  rewrite blen_le_bytes.
  erewrite on_files_bind.
  2: { apply (lseek_fd _ fd (v_file v) (Z.lor O_RDWR O_EXCL) (off + 4)).
       - cbn [s_world w_fds]. apply lookup_insert_eq.
       - lia. }
  erewrite on_files_bind.
  2: { apply (write_fd _ fd (v_file v) (Z.lor O_RDWR O_EXCL) (off + 4)).
       - cbn [s_world w_fds]. apply lookup_insert_eq.
       - done.
       - cbn [s_world w_fs]. apply lookup_insert_eq.
       - rewrite blen_app, blen_cons, blen_nil. cbn [s_world w_limit]. lia. }
  cbn [s_world s_pid s_procfs s_dir s_kills w_fs w_fds w_permit w_limit].
  erewrite on_files_bind by (unfold close; cbn [s_world w_fds]; rewrite lookup_insert_eq; reflexivity).
  cbn [s_world s_pid s_procfs s_dir s_kills w_fs w_fds w_permit w_limit].
  rewrite !insert_insert_eq, delete_insert_id by done.
  assert ((0 <? blen (value ++ [0])) = true) as ->.
  { apply Z.ltb_lt. rewrite blen_app. change (blen [0]) with 1. lia. }
  unfold set_file, updated, off_serial, off_value. by rewrite Z.add_0_r.
Qed.

(** A value that is too long: the files are not touched. *)
Lemma prop_set_refused s name vs v f off serial old nm value :
  mapped_property s name vs v f off serial old nm -> PROP_VALUE_MAX < blen value ->
  bxxt_prop_set name value s = Some (1, s).
Proof.
  intros [Hm Hwf Hv Ho Hf Hp Hr Hs Hmem Hl] Hval. unfold bxxt_prop_set. rewrite pgets_bind.
  rewrite (P_bind_ok _ _ s _ s (scan_maps_runs s _ vs v Hm Hwf Hv)).
  cbn [Z.eqb negb]. apply Z.ltb_lt in Hval as ->. done.
Qed.

(** ** The system server *)

(** Names without NUL compare as strings. *)
Lemma strcmp_mem_spec a b r : (0 ∉ a) -> (0 ∉ b) ->
  exists c, strcmp_mem (a ++ [0]) (b ++ 0 :: r) = Some c /\ (c = 0 <-> a = b).
Proof.
  intros Ha Hb. revert b Hb. induction a as [|x a IH]; intros b Hb.
  - destruct b as [|y b]; [by exists 0|]. cbn [app strcmp_mem].
    apply not_elem_of_cons in Hb as [Hy _].
    destruct (Z.ltb_spec 0 y); [by exists (-1)|].
    destruct (Z.ltb_spec y 0); [by exists 1|lia].
  - apply not_elem_of_cons in Ha as [Hx Ha]. destruct b as [|y b]; cbn [app strcmp_mem].
    + destruct (Z.ltb_spec x 0); [by exists (-1)|].
      destruct (Z.ltb_spec 0 x); [by exists 1|lia].
    + apply not_elem_of_cons in Hb as [Hy Hb].
      destruct (Z.ltb_spec x y); [exists (-1); split; [done|]; split; [done|intros [=]; lia]|].
      destruct (Z.ltb_spec y x); [exists 1; split; [done|]; split; [done|intros [=]; lia]|].
      replace (x =? 0) with false by lia. destruct (IH Ha b Hb) as (c & -> & Hc).
      exists c. split; [done|]. rewrite Hc. split; [intros ->; f_equal; lia|by intros [=]].
Qed.

(** An entry of [/proc]: a short name, and a command line, when it can be
    read, whose first argument ends inside the buffer. *)
Definition proc_entry (procfs : gmap path bytes) (d : bytes) (arg : option bytes) : Prop :=
  blen (cmdline_name d) < PATH_MAX /\
  match arg with
  | None => procfs !! cmdline_name d = None
  | Some a => (0 ∉ a) /\ blen a < PATH_MAX /\
      exists rest, procfs !! cmdline_name d = Some (a ++ rest) /\
        match rest with [] => True | c :: _ => c = 0 end
  end.

Lemma read_tmp_arg a rest :
  blen a < PATH_MAX -> match rest with [] => True | c :: _ => c = 0 end ->
  exists r, read_tmp (a ++ rest) = a ++ 0 :: r.
Proof.
  intros Ha Hr. unfold read_tmp. rewrite <- app_assoc.
  assert (exists r, rest ++ zeros PATH_MAX = 0 :: r) as [r ->].
  { destruct rest as [|c rest]; [by exists (zeros (PATH_MAX - 1))|]. subst c. by eexists. }
  rewrite take_app_ge by (unfold blen, PATH_MAX in *; lia).
  destruct (Z.to_nat PATH_MAX - length a)%nat as [|n] eqn:E; [unfold blen, PATH_MAX in *; lia|].
  by exists (take n r).
Qed.

(** The first entry whose command line starts with the name. *)
Lemma walk_proc_spec name procfs des args :
  Forall2 (proc_entry procfs) des args -> (0 ∉ name) ->
  walk_proc name des procfs =
    Some (match List.find (fun '(_, a) => bool_decide (a = Some name)) (zip des args) with
          | Some (d, _) => atol d | None => -1 end).
Proof.
  intros Hd Hn. induction Hd as [|d arg des args [Hl He] Hd IH]; [done|].
  cbn [walk_proc zip zip_with List.find].
  apply Z.ltb_lt in Hl as ->. destruct arg as [a|].
  - destruct He as (Ha & Hal & rest & -> & Hrest).
    destruct (read_tmp_arg a rest Hal Hrest) as [r ->].
    destruct (strcmp_mem_spec name a r Hn Ha) as (c & -> & Hc). cbn [mbind option_bind].
    destruct (Z.eqb_spec c 0) as [E|E].
    + apply Hc in E as ->. by rewrite bool_decide_true.
    + rewrite bool_decide_false; [exact IH|]. intros [= ->]. by apply E, Hc.
  - rewrite He, bool_decide_false by done. exact IH.
Qed.

Lemma setdebuggable_runs s vs v f off serial old nm value des args d a :
  mapped_property s (str "ro.debuggable") vs v f off serial old nm ->
  blen value <= PROP_VALUE_MAX -> blen f < 2 ^ 63 ->
  s_dir s = Some des -> Forall2 (proc_entry (s_procfs s)) des args ->
  List.find (fun '(_, a) => bool_decide (a = Some (str "system_server"))) (zip des args) = Some (d, a) ->
  0 < atol d ->
  let s' := set_file s (v_file v) (updated f off (new_serial serial value) value) in
  bxxt_do_setdebuggable value s =
    Some (0, Sys (s_world s') (s_pid s) (s_procfs s) (s_dir s) (s_kills s ++ [(atol d, SIGTERM)])).
Proof.
  intros Hm Hval Hsz Hdir Hargs Hfind Hpid s'. unfold bxxt_do_setdebuggable.
  destruct (prop_set_runs s _ vs v f off serial old nm value Hm Hval Hsz) as [Hset _].
  rewrite (P_bind_ok _ _ s _ _ Hset). cbn [Z.eqb negb]. fold s'.
  rewrite (P_bind_ok _ _ s' (atol d) s').
  - replace (atol d <=? 0) with false by lia. done.
  - unfold bxxt_get_pid_by_cmdline.
    rewrite pgets_bind. change (s_dir s') with (s_dir s). rewrite Hdir, pgets_bind.
    change (s_procfs s') with (s_procfs s).
    unfold plift. rewrite (walk_proc_spec _ _ des args Hargs), Hfind; [done|].
    apply (bool_decide_unpack _). vm_compute. exact I.
Qed.
End Setting.
