(* ===== verification/Bxxt.v ===== *)
(** The command line (bxxt.c), and the options of [boot] (boot.c): the
    commands are those of Pack, Sepol, Property and Patch. *)
From S2P Require Import Prelude Stdio Posix Util Ebitmap Hashtab Avtab Policydb.
From S2P Require Import Boot Pack Patch Property.
From S2P Require Sepol.

(** [getopt]: the options found in an argument vector, with their arguments
    ([]: none), and [realpath]: the contents of the buffer after the call,
    from the name and the contents before. *)
Class Arguments := {
  getopt : bytes -> list bytes -> list (Z * bytes);
  realpath : world -> path -> path -> path
}.

(** ** [boot] *)

(** The two static flags and the two arrays of [PATH_MAX] bytes, which start
    uninitialised ([None]). *)
Record boot_opts := BootOpts {
  skip_unknown_data : bool;
  force_no_compat_check : bool;
  i_path : option path;
  o_path : option path
}.

Section Commands.
Context `{Arguments} `{Toolchain} `{Sepol.PolicyImage} `{CharSign} `{Bionic}.
Context (junk : Z -> Z) (sjunk : bytes) (djunk : avtab_datum).

(** [strcpy] and [realpath] into an array. *)
Definition path_option (optarg : bytes) : M path := fun w =>
  if blen optarg <? PATH_MAX then Some (realpath w optarg optarg, w) else None.

Definition boot_option (opt : Z) (optarg : bytes) (b : boot_opts) : M boot_opts :=
  if opt =? 101 then                                                  (* e *)
    mret (BootOpts (bool_decide (optarg = str "skip-unknown-data"))
            (force_no_compat_check b) (i_path b) (o_path b))
  else if opt =? 110 then                                             (* n *)
    mret (BootOpts (skip_unknown_data b) true (i_path b) (o_path b))
  else if opt =? 105 then                                             (* i *)
    p ← path_option optarg;
    mret (BootOpts (skip_unknown_data b) (force_no_compat_check b) (Some p) (o_path b))
  else if opt =? 111 then                                             (* o *)
    p ← path_option optarg;
    mret (BootOpts (skip_unknown_data b) (force_no_compat_check b) (i_path b) (Some p))
  else mret b.

Fixpoint boot_options (opts : list (Z * bytes)) (b : boot_opts) : M boot_opts :=
  match opts with
  | [] => mret b
  | (opt, optarg) :: opts => b ← boot_option opt optarg b; boot_options opts b
  end.

(** The first command of a process finds both flags false. *)
Definition boot_main (argv : list bytes) : M Z :=
  b ← boot_options (getopt (str "i:o:e:n") argv) (BootOpts false false None None);
  i ← lift (i_path b);
  st ← stat i;
  o ← lift (o_path b);
  if is_dir st then bxxt_boot_pack_all junk sjunk (skip_unknown_data b) i o
  else bxxt_boot_unpack_all sjunk (force_no_compat_check b) i o.

(** ** [sepol] *)

Definition sepol_option_of (o : Z * bytes) : Sepol.sepol_option :=
  let '(opt, optarg) := o in
  if opt =? 105 then Sepol.OptI optarg
  else if opt =? 111 then Sepol.OptO optarg
  else if opt =? 115 then Sepol.OptS optarg
  else if opt =? 108 then Sepol.OptL
  else Sepol.OptOther.

Definition sepol_command (argv : list bytes) : M Z :=
  Sepol.sepol_main djunk (map sepol_option_of (getopt (str "s:i:o:l") argv)).

(** ** [main] *)

(** [argv] starts with the name of the program.  The mask of new files is not
    part of the model of files, the banner of [boot] is not modelled. *)
Definition main (argv : list bytes) : P Z :=
  let argc := blen argv in
  let command := default [] (argv !! 1%nat) in
  let named (s : string) := bool_decide (command = str s) in
  let rest := drop 1 argv in
  if (2 <? argc) && named "boot"%string then on_files (boot_main rest)
  else if (2 <? argc) && named "sepol"%string then on_files (sepol_command rest)
  else if (argc =? 3) && named "setdebuggable"%string then setdebuggable_main rest
  else if (argc =? 4) && named "setprop"%string then setprop_main rest
  else if (2 <? argc) && named "patch"%string then on_files (patch_main (drop 1 rest))
  else mret 1.

(** ** Vocabulary of the proofs *)

(** What a set property looks like: its record in [f'], read back, has the
    value, its length in the top byte of the serial, and the other bits of the
    serial; the name is unchanged, except after a value of [PROP_VALUE_MAX]
    bytes, whose NUL falls on it; the rest of the file is unchanged. *)
Definition set_in_file (f : bytes) (off serial : Z) (nm value f' : bytes) : Prop :=
  (exists serial',
     prop_record f' off =
       Some (serial', value, if blen value =? PROP_VALUE_MAX then [] else nm) /\
     serial' / 2 ^ 24 = blen value /\ serial' mod 2 ^ 24 = serial mod 2 ^ 24) /\
  blen f' = blen f /\
  (forall i, i < off \/ off + 5 + blen value <= i -> mread f' i 1 = mread f i 1).

Lemma mapped_property_set s name vs v f off serial old nm value :
  mapped_property s name vs v f off serial old nm -> 0 <= off -> (0 ∉ value) ->
  blen value <= PROP_VALUE_MAX ->
  set_in_file f off serial nm value (updated f off (new_serial serial value) value).
Proof.
  intros Hm Hoff Hz Hv.
  destruct (new_serial_spec serial value (mp_serial _ _ _ _ _ _ _ _ _ Hm)) as (Hu & Hq & Hr).
  { unfold PROP_VALUE_MAX in Hv. lia. }
  destruct (updated_record f off serial old nm (new_serial serial value) value
    (mp_record _ _ _ _ _ _ _ _ _ Hm) Hoff Hu Hz Hv) as (Hrec & Hb & Hsame).
  split; [|done]. by exists (new_serial serial value).
Qed.

(** ** Properties *)

(** C20. [bxxt setprop name value] on a property whose record is in a mapped
    file (the first mapping that holds its address starts with the file): the
    command succeeds and changes only the record.  Read back, the serial has
    the length of the value in its top byte and its other bits as before, the
    value is the new one, and the name is unchanged, except after a value of
    [PROP_VALUE_MAX] bytes, which the length check lets pass: its NUL falls on
    the name, and the property is left without one.  A longer value is refused
    and nothing changes. *)
Theorem setprop_spec s name value vs v f off serial old nm
    (Hm : mapped_property s name vs v f off serial old nm)
    (Hz : (0 ∉ value)) (Hs : blen f < 2 ^ 63) :
  if blen value <=? PROP_VALUE_MAX then
    exists f', main [str "bxxt"; str "setprop"; name; value] s = Some (0, set_file s (v_file v) f') /\
      set_in_file f off serial nm value f'
  else main [str "bxxt"; str "setprop"; name; value] s = Some (1, s).
Proof.
  destruct (Z.leb_spec (blen value) PROP_VALUE_MAX) as [Hv|Hv].
  - destruct (prop_set_runs s name vs v f off serial old nm value Hm Hv Hs) as [Hrun Hoff].
    eexists. split; [exact Hrun|]. by eapply mapped_property_set.
  - by apply (prop_set_refused s name vs v f off serial old nm value).
Qed.

(** [bxxt setdebuggable value] sets the property [ro.debuggable] in the
    same way, and then sends [SIGTERM] to one process: the first entry of
    [/proc] whose command line starts with the argument [system_server]; no
    other part of the system changes. *)
Theorem setdebuggable_spec s value vs v f off serial old nm des args d a
    (Hm : mapped_property s (str "ro.debuggable") vs v f off serial old nm)
    (Hz : (0 ∉ value)) (Hv : blen value <= PROP_VALUE_MAX) (Hs : blen f < 2 ^ 63)
    (Hdir : s_dir s = Some des) (Hargs : Forall2 (proc_entry (s_procfs s)) des args)
    (Hfind : List.find (fun '(_, a) => bool_decide (a = Some (str "system_server"))) (zip des args) =
       Some (d, a))
    (Hpid : 0 < atol d) :
  exists f',
    main [str "bxxt"; str "setdebuggable"; value] s =
      Some (0, Sys (s_world (set_file s (v_file v) f')) (s_pid s) (s_procfs s) (s_dir s)
                 (s_kills s ++ [(atol d, SIGTERM)])) /\
    set_in_file f off serial nm value f'.
Proof.
  destruct (prop_set_runs s _ vs v f off serial old nm value Hm Hv Hs) as [_ Hoff].
  eexists. split; [|by eapply mapped_property_set].
  exact (setdebuggable_runs s vs v f off serial old nm value des args d a Hm Hv Hs Hdir Hargs Hfind Hpid).
Qed.
End Commands.

(** ** Witnesses *)

(** A property area with one property, mapped after another file. *)
Definition sample_area : bytes :=
  zeros 16 ++ le_bytes 4 (2 ^ 24 + 5) ++ str "0" ++ zeros 91 ++ str "ro.debuggable" ++ [0].
Definition sample_maps : list vma :=
  [ Vma 0x7f0000000000 0x7f0000000fff (str "r-xp 00000000 fc:00 77       ") (str "/system/lib64/libc.so");
    Vma 0x7f0000001000 0x7f0000002000 (str "rw-s 00000000 00:0f 301      ") (str "/dev/prop") ].
Definition sample_sys : sys :=
  Sys (World {[ str "/dev/prop" := Regular sample_area ]} ∅ (fun _ _ => true) (2 ^ 31)) 4242
    (<[str "/proc/4242/maps" := maps_text sample_maps]>
     (<[str "/proc/612/cmdline" := str "system_server" ++ [0]]>
     {[ str "/proc/1/cmdline" := str "/init" ++ [0] ++ str "second_stage" ]}))
    (Some [str "."; str "1"; str "612"]) [].

#[local] Instance sample_args : Arguments :=
  {| getopt := fun _ _ => []; realpath := fun _ _ b => b |}.
#[local] Instance sample_images : Sepol.PolicyImage :=
  {| Sepol.policydb_init := Sepol.sample_policy;
     Sepol.policydb_from_image := fun _ p => (-1, p);
     Sepol.policydb_to_image := fun _ => None |}.
#[local] Existing Instance sample_tools.
#[local] Instance sample_sign : CharSign := true.

(** The word at an address of the second mapping, read from its file. *)
#[local] Instance sample_bionic : Bionic :=
  {| system_property_find := fun _ name =>
       if bool_decide (name = str "ro.debuggable") then 0x7f0000001000 + 16 else 0;
     load_u32 := fun s addr =>
       match w_fs (s_world s) !! str "/dev/prop" with
       | Some (Regular f) => w ← mread f (addr - 0x7f0000001000) 4; Some (le_val w)
       | _ => None
       end |}.

Lemma sample_mapped :
  mapped_property sample_sys (str "ro.debuggable") sample_maps
    (Vma 0x7f0000001000 0x7f0000002000 (str "rw-s 00000000 00:0f 301      ") (str "/dev/prop"))
    sample_area 16 (2 ^ 24 + 5) (str "0") (str "ro.debuggable").
Proof.
  assert (Forall wf_vma sample_maps) as Hwf.
  { repeat (apply Forall_cons; split); [..|by apply Forall_nil].
    - split; [unfold is_u64; cbn [v_start]; lia|]. split; [unfold is_u64; cbn [v_end]; lia|].
      split; [|repeat split; apply (bool_decide_unpack _); vm_compute; exact I].
      exists 114, (str "-xp 00000000 fc:00 77      "). done.
    - split; [unfold is_u64; cbn [v_start]; lia|]. split; [unfold is_u64; cbn [v_end]; lia|].
      split; [|repeat split; apply (bool_decide_unpack _); vm_compute; exact I].
      exists 114, (str "w-s 00000000 00:0f 301     "). done. }
  split; try done.
  intros s' Hs'. cbn [load_u32 sample_bionic]. cbn [v_file] in Hs'. rewrite Hs'. by vm_compute.
Qed.

Lemma setprop_spec_witness :
  exists f', main (fun _ => 0) [] (AvtabDatum 0 None) [str "bxxt"; str "setprop"; str "ro.debuggable"; str "1"]
      sample_sys = Some (0, set_file sample_sys (str "/dev/prop") f') /\
    set_in_file sample_area 16 (2 ^ 24 + 5) (str "ro.debuggable") (str "1") f'.
Proof.
  apply (setprop_spec (fun _ => 0) [] (AvtabDatum 0 None) sample_sys (str "ro.debuggable") (str "1")
    sample_maps _ sample_area 16 (2 ^ 24 + 5) (str "0") (str "ro.debuggable") sample_mapped).
  - apply (bool_decide_unpack _). vm_compute. exact I.
  - vm_compute. reflexivity.
Defined.

Lemma setdebuggable_spec_witness :
  exists f', main (fun _ => 0) [] (AvtabDatum 0 None) [str "bxxt"; str "setdebuggable"; str "1"] sample_sys =
      Some (0, Sys (s_world (set_file sample_sys (str "/dev/prop") f')) 4242
                 (s_procfs sample_sys) (s_dir sample_sys) [(612, SIGTERM)]) /\
    set_in_file sample_area 16 (2 ^ 24 + 5) (str "ro.debuggable") (str "1") f'.
Proof.
  apply (setdebuggable_spec (fun _ => 0) [] (AvtabDatum 0 None) sample_sys (str "1")
    sample_maps _ sample_area 16 (2 ^ 24 + 5) (str "0") (str "ro.debuggable")
    [str "."; str "1"; str "612"] [None; Some (str "/init"); Some (str "system_server")]
    (str "612") (Some (str "system_server")) sample_mapped).
  - apply (bool_decide_unpack _). vm_compute. exact I.
  - vm_compute. discriminate.
  - vm_compute. reflexivity.
  - reflexivity.
  - constructor; [split; vm_compute; reflexivity|].
    constructor.
    { split; [vm_compute; reflexivity|].
      split; [apply (bool_decide_unpack _); vm_compute; exact I|].
      split; [vm_compute; reflexivity|]. exists (0 :: str "second_stage"). split; vm_compute; reflexivity. }
    constructor; [|constructor].
    split; [vm_compute; reflexivity|].
    split; [apply (bool_decide_unpack _); vm_compute; exact I|].
    split; [vm_compute; reflexivity|]. exists [0]. split; vm_compute; reflexivity.
  - vm_compute. reflexivity.
  - vm_compute. reflexivity.
Defined.
