(* ===== verification/Dtlex.v ===== *)
(** The scanner of device tree sources: the escapes of strings (util.c,
    data.c), the stack of source files (srcpos.c) and the scanner itself
    (dtc-lexer.c) with the tables flex generated for it.

    The input of a file is its contents: what flex does to move blocks of a
    file through its buffer is not modelled.  Positions in the text serve only
    messages and are left out; the messages themselves are the flag
    [treesource_error].  Nothing closes a file or runs out of memory. *)
From S2P Require Import Prelude Stdio Dtdata Livetree.
From S2P Require Hashtab.

Abbreviation path := (list Z).

(** ** Numbers *)

Definition digit_of (c : Z) : option Z :=
  if (48 <=? c) && (c <=? 57) then Some (c - 48)
  else if (97 <=? c) && (c <=? 122) then Some (c - 87)
  else if (65 <=? c) && (c <=? 90) then Some (c - 55)
  else None.

(** The digits of a base, and what follows. *)
Fixpoint num_digits (base : Z) (s : bytes) : list Z * bytes :=
  match s with
  | c :: s' =>
      match digit_of c with
      | Some d => if d <? base then let '(ds, r) := num_digits base s' in (d :: ds, r) else ([], s)
      | None => ([], s)
      end
  | [] => ([], [])
  end.

Definition num_value (base : Z) (ds : list Z) : Z := fold_left (fun v d => v * base + d) ds 0.

(** The base and the digits after a prefix; [base] 0 looks at the prefix. *)
Definition num_prefix (base : Z) (s : bytes) : Z * bytes :=
  let hex := negb (bool_decide (skip_0x s = s)) in
  if (base =? 16) || (base =? 0) && hex then (16, skip_0x s)
  else if base =? 0 then (match s with c :: _ => if c =? 48 then 8 else 10 | [] => 10 end, s)
  else (base, s).

(** [strtol] and [strtoull]: the sign, the magnitude and the rest; [None] when
    there is no digit. *)
Definition strto (base : Z) (s : bytes) : option (bool * Z * bytes) :=
  let '(neg, s) := skip_sign (skip_space s) in
  let '(base, s) := num_prefix base s in
  let '(ds, rest) := num_digits base s in
  match ds with [] => None | _ => Some (neg, num_value base ds, rest) end.

(** ** Escapes (util.c, data.c) *)

(** The characters of a C string that [strncpy] copies. *)
Definition cut (s : bytes) : bytes := fst (span (fun c => negb (c =? 0)) s).

(** The character, and the memory after its encoding.  [endx > x] is asserted
    for an octal digit, and ends the program for a hexadecimal one. *)
Definition get_num_char (base : Z) (n : nat) (s : bytes) (missing : outcome (Z * bytes)) : outcome (Z * bytes) :=
  let x := take n (cut s) in
  match strto base x with
  | None => missing
  | Some (neg, v, rest) => Done (u8 (if neg : bool then - v else v), drop (length x - length rest) s)
  end.
Definition get_oct_char (s : bytes) : outcome (Z * bytes) := get_num_char 8 3 s Fault.
Definition get_hex_char (s : bytes) : outcome (Z * bytes) := get_num_char 16 2 s Die.

(** From the character after the backslash. *)
Definition get_escape_char (s : bytes) : outcome (Z * bytes) :=
  match s with
  | [] => Fault
  | c :: r =>
      if c =? 97 then Done (7, r)
      else if c =? 98 then Done (8, r)
      else if c =? 116 then Done (9, r)
      else if c =? 110 then Done (10, r)
      else if c =? 118 then Done (11, r)
      else if c =? 102 then Done (12, r)
      else if c =? 114 then Done (13, r)
      else if (48 <=? c) && (c <=? 55) then get_oct_char s
      else if c =? 120 then get_hex_char r
      else Done (c, r)
  end.

(** The loop over the first [len] characters of the memory [s]; an escape may
    read past them.  Each round takes a character. *)
Fixpoint unescape (fuel : nat) (s : bytes) (len : Z) : outcome bytes :=
  match fuel with
  | O => Diverge
  | S fuel =>
      if len <=? 0 then Done []
      else
        match s with
        | [] => Fault
        | c :: r =>
            '(c, r') ← (if c =? 92 then get_escape_char r else Done (c, r));
            q ← unescape fuel r' (len - (blen s - blen r'));
            Done (c :: q)
        end
  end.

Section Scanner.
Context (junk : Z -> Z).

Definition data_copy_escape_string (s : bytes) (len : Z) : outcome data :=
  n ← int (len + 1);
  d ← data_grow_for junk empty_data n;
  q ← unescape (S (length s)) s len;
  v ← defined (mwrite (d_val d) 0 (q ++ [0]));
  Done (Data (blen q + 1) v []).

(** [data_copy_file]: the contents from the current position of a file, at
    most [maxlen] bytes of them, in chunks; [maxlen] is a [size_t]. *)
Fixpoint copy_chunks (fuel : nat) (f : bytes) (d : data) (maxlen : Z) : outcome data :=
  match fuel with
  | O => Diverge
  | S fuel =>
      if d_len d <? maxlen then
        let chunksize := if maxlen =? 2 ^ 64 - 1 then 4096 else maxlen - d_len d in
        d ← data_grow_for junk d (s32 chunksize);
        let got := take (Z.to_nat chunksize) f in
        v ← defined (mwrite (d_val d) (d_len d) got);
        n ← int (d_len d + blen got);
        let d := Data n v (d_markers d) in
        if blen got <? chunksize then Done d
        else copy_chunks fuel (drop (Z.to_nat chunksize) f) d maxlen
      else Done d
  end.
Definition data_copy_file (f : bytes) (maxlen : Z) : outcome data :=
  copy_chunks (S (S (length f))) f empty_data maxlen.

(** ** Source files (srcpos.c) *)

(** The directories searched after that of the file that includes, the files
    that can be opened, and the standard input. *)
Record sources := Sources {
  search_path : list path;
  file_of : path -> option bytes;
  stdin_text : bytes
}.

Definition join_path (p name : path) : path :=
  match last p with
  | Some c => if c =? 47 then p ++ name else p ++ [47] ++ name
  | None => p ++ [47] ++ name
  end.

(** The part before the last slash. *)
Definition get_dirname (p : path) : option path :=
  if bool_decide (47 ∈ p)
  then Some (rev (drop 1 (snd (span (fun c => negb (c =? 47)) (rev p)))))
  else None.

Definition try_open (src : sources) (dirname : option path) (fname : path) : option (bytes * path) :=
  let fullname :=
    match dirname with
    | Some d => match fname with
                | c :: _ => if c =? 47 then fname else join_path d fname
                | [] => join_path d fname
                end
    | None => fname
    end in
  f ← file_of src fullname; Some (f, fullname).

(** The stack of open files, the current one first: what is left of it,
    whether it is at the beginning of a line, and its directory. *)
Record srcfile := Srcfile { sf_rest : bytes; sf_bol : bool; sf_dir : option path }.

Definition fopen_any_on_path (src : sources) (files : list srcfile) (fname : path) : option (bytes * path) :=
  let cur_dir := match files with f :: _ => sf_dir f | [] => None end in
  match try_open src cur_dir fname with
  | Some r => Some r
  | None =>
      fold_left (fun r d => match r with Some _ => r | None => try_open src (Some d) fname end)
        (search_path src) None
  end.

Definition srcfile_relative_open (src : sources) (files : list srcfile) (fname : path) : outcome (bytes * path) :=
  if streq fname (str "-") then Done (stdin_text src, str "<stdin>")
  else match fopen_any_on_path src files fname with Some r => Done r | None => Die end.

Definition MAX_SRCFILE_DEPTH := 100.

(** ** Values of tokens *)

Inductive yystype :=
  | VNone
  | VPropnodename (s : bytes)
  | VLabelref (s : bytes)
  | VByte (b : Z)
  | VData (d : data)
  | VArray (d : data) (bits : Z)
  | VProp (p : property)
  | VProplist (l : list property)
  | VNode (n : node)
  | VNodelist (l : list node)
  | VRe (l : list reserve_info)
  | VInteger (v : Z)
  | VFlags (v : Z).

(** The state of the scanner that outlives a call: the start condition, the
    open files, the value of the last token, whether an error was reported,
    and the number of files pushed so far. *)
Record lexer := Lexer {
  yy_start : Z;
  files : list srcfile;
  yylval : yystype;
  treesource_error : bool;
  srcfile_depth : Z
}.

Definition set_yylval (L : lexer) (v : yystype) : lexer :=
  Lexer (yy_start L) (files L) v (treesource_error L) (srcfile_depth L).
Definition set_files (L : lexer) (fs : list srcfile) : lexer :=
  Lexer (yy_start L) fs (yylval L) (treesource_error L) (srcfile_depth L).
Definition lexical_error (L : lexer) : lexer :=
  Lexer (yy_start L) (files L) (yylval L) true (srcfile_depth L).

(** Start conditions. *)
Definition INITIAL := 0.
Definition BYTESTRING := 1.
Definition PROPNODENAME := 2.
Definition V1 := 3.
Definition BEGIN (L : lexer) (condition : Z) : lexer :=
  Lexer (1 + 2 * condition) (files L) (yylval L) (treesource_error L) (srcfile_depth L).

(** The count goes up with every file and never down. *)
Definition srcfile_push (src : sources) (L : lexer) (fname : path) : outcome lexer :=
  if MAX_SRCFILE_DEPTH <=? srcfile_depth L then Die
  else
    '(f, name) ← srcfile_relative_open src (files L) fname;
    Done (Lexer (yy_start L) (Srcfile f true (get_dirname name) :: files L) (yylval L)
            (treesource_error L) (srcfile_depth L + 1)).

Definition push_input_file (src : sources) (L : lexer) (filename : path) : outcome lexer :=
  srcfile_push src L filename.

(** ** Tables *)

Definition yy_accept : list Z :=
  [ 0; 0; 0; 0; 0; 0; 0; 0; 0; 32; 30; 19; 19; 30; 30; 30; 30; 30; 30; 30; 30; 30; 30; 30; 30;
    30; 30; 16; 17; 17; 30; 17; 11; 11; 19; 27; 0; 3; 0; 28; 13; 0; 0; 12; 0; 0; 0; 0; 0; 0; 0;
    0; 22; 24; 26; 25; 23; 0; 10; 29; 0; 0; 0; 15; 15; 17; 17; 17; 11; 11; 11; 0; 13; 0; 12; 0;
    0; 0; 21; 0; 0; 0; 0; 0; 0; 0; 0; 0; 17; 11; 11; 11; 0; 14; 20; 0; 0; 0; 0; 0; 0; 0; 0; 0;
    0; 17; 0; 0; 0; 0; 0; 0; 0; 0; 0; 0; 17; 7; 0; 0; 0; 0; 0; 0; 0; 2; 0; 0; 0; 0; 0; 0; 0; 0;
    0; 4; 18; 0; 0; 5; 2; 0; 0; 0; 0; 0; 0; 0; 0; 0; 0; 0; 0; 1; 0; 0; 0; 0; 6; 9; 0; 0; 0; 0;
    8; 0 ].

Definition yy_ec : list Z :=
  [ 0; 1; 1; 1; 1; 1; 1; 1; 1; 2; 3; 4; 4; 4; 1; 1; 1; 1; 1; 1; 1; 1; 1; 1; 1; 1; 1; 1; 1; 1;
    1; 1; 2; 5; 6; 7; 1; 1; 8; 9; 1; 1; 10; 11; 11; 12; 11; 13; 14; 15; 16; 16; 16; 16; 16; 16;
    16; 16; 17; 1; 18; 19; 20; 11; 11; 21; 21; 21; 21; 21; 21; 22; 22; 22; 22; 22; 23; 22; 22;
    22; 22; 22; 22; 22; 22; 24; 22; 22; 25; 22; 22; 1; 26; 27; 1; 22; 1; 21; 28; 29; 30; 31;
    21; 32; 22; 33; 22; 22; 34; 35; 36; 37; 38; 22; 39; 40; 41; 42; 43; 22; 25; 44; 22; 45; 46;
    47; 1; 1; 1; 1; 1; 1; 1; 1; 1; 1; 1; 1; 1; 1; 1; 1; 1; 1; 1; 1; 1; 1; 1; 1; 1; 1; 1; 1; 1;
    1; 1; 1; 1; 1; 1; 1; 1; 1; 1; 1; 1; 1; 1; 1; 1; 1; 1; 1; 1; 1; 1; 1; 1; 1; 1; 1; 1; 1; 1;
    1; 1; 1; 1; 1; 1; 1; 1; 1; 1; 1; 1; 1; 1; 1; 1; 1; 1; 1; 1; 1; 1; 1; 1; 1; 1; 1; 1; 1; 1;
    1; 1; 1; 1; 1; 1; 1; 1; 1; 1; 1; 1; 1; 1; 1; 1; 1; 1; 1; 1; 1; 1; 1; 1; 1; 1; 1; 1; 1; 1;
    1; 1; 1; 1; 1; 1; 1; 1; 1; 1; 1 ].

Definition yy_meta : list Z :=
  [ 0; 1; 1; 1; 1; 1; 1; 2; 3; 1; 2; 2; 2; 4; 5; 5; 5; 6; 1; 1; 1; 7; 8; 8; 8; 8; 1; 1; 7; 7;
    7; 7; 8; 8; 8; 8; 8; 8; 8; 8; 8; 8; 8; 8; 8; 3; 1; 4 ].

Definition yy_base : list Z :=
  [ 0; 0; 393; 35; 392; 66; 391; 38; 107; 397; 401; 55; 113; 377; 112; 111; 111; 114; 42; 376;
    106; 377; 347; 126; 120; 0; 147; 401; 0; 124; 0; 137; 158; 170; 163; 401; 153; 401; 389;
    401; 0; 378; 120; 401; 131; 380; 386; 355; 139; 351; 355; 351; 401; 401; 401; 401; 401;
    367; 401; 401; 185; 350; 346; 401; 364; 0; 185; 347; 189; 356; 355; 0; 0; 330; 180; 366;
    141; 372; 361; 332; 338; 331; 341; 334; 326; 205; 331; 337; 329; 401; 341; 167; 316; 401;
    349; 348; 320; 328; 346; 180; 318; 324; 209; 324; 320; 322; 342; 338; 309; 306; 315; 305;
    315; 312; 192; 342; 341; 401; 293; 306; 282; 268; 252; 255; 203; 285; 282; 272; 268; 252;
    233; 232; 239; 208; 107; 401; 401; 238; 211; 401; 211; 212; 208; 228; 203; 215; 207; 233;
    222; 212; 211; 203; 227; 401; 237; 225; 204; 185; 401; 401; 149; 128; 88; 42; 401; 401;
    253; 259; 267; 271; 275; 281; 288; 292; 300; 308; 312; 318; 326; 334 ].

Definition yy_def : list Z :=
  [ 0; 165; 1; 1; 3; 165; 5; 1; 1; 165; 165; 165; 165; 165; 166; 167; 168; 165; 165; 165; 165;
    169; 165; 165; 165; 170; 169; 165; 171; 172; 171; 171; 165; 165; 165; 165; 166; 165; 166;
    165; 173; 165; 168; 165; 168; 174; 175; 165; 165; 165; 165; 165; 165; 165; 165; 165; 165;
    169; 165; 165; 165; 165; 165; 165; 169; 171; 172; 171; 165; 165; 165; 176; 173; 177; 168;
    174; 174; 175; 165; 165; 165; 165; 165; 165; 165; 165; 165; 165; 171; 165; 165; 176; 177;
    165; 165; 165; 165; 165; 165; 165; 165; 165; 165; 165; 165; 171; 165; 165; 165; 165; 165;
    165; 165; 165; 178; 165; 171; 165; 165; 165; 165; 165; 165; 165; 178; 165; 178; 165; 165;
    165; 165; 165; 165; 165; 165; 165; 165; 165; 165; 165; 165; 165; 165; 165; 165; 165; 165;
    165; 179; 165; 165; 165; 179; 165; 179; 165; 165; 165; 165; 165; 165; 165; 165; 165; 165;
    0; 165; 165; 165; 165; 165; 165; 165; 165; 165; 165; 165; 165; 165; 165 ].

Definition yy_nxt : list Z :=
  [ 0; 10; 11; 12; 11; 13; 14; 10; 15; 16; 10; 10; 10; 17; 10; 10; 10; 10; 18; 19; 20; 21; 21;
    21; 21; 21; 10; 10; 21; 21; 21; 21; 21; 21; 21; 21; 21; 21; 21; 21; 21; 21; 21; 21; 21; 10;
    22; 10; 24; 25; 25; 25; 32; 33; 33; 164; 26; 34; 34; 34; 52; 53; 27; 26; 26; 26; 26; 10;
    11; 12; 11; 13; 14; 28; 15; 16; 28; 28; 28; 24; 28; 28; 28; 10; 18; 19; 20; 29; 29; 29; 29;
    29; 30; 10; 29; 29; 29; 29; 29; 29; 29; 29; 29; 29; 29; 29; 29; 29; 29; 29; 29; 10; 22; 10;
    23; 34; 34; 34; 37; 39; 43; 32; 33; 33; 45; 55; 56; 46; 60; 43; 45; 65; 163; 46; 65; 65;
    65; 44; 38; 60; 74; 58; 47; 141; 48; 142; 44; 49; 47; 50; 48; 76; 51; 62; 94; 50; 41; 44;
    51; 37; 61; 64; 64; 64; 58; 34; 34; 34; 64; 162; 80; 67; 68; 68; 68; 64; 64; 64; 64; 38;
    81; 69; 70; 71; 68; 68; 68; 60; 161; 43; 69; 70; 65; 69; 70; 65; 65; 65; 125; 85; 85; 85;
    58; 68; 68; 68; 44; 102; 110; 125; 133; 102; 69; 70; 111; 114; 160; 159; 126; 85; 85; 85;
    140; 140; 140; 140; 140; 140; 153; 126; 147; 147; 147; 153; 148; 147; 147; 147; 158; 148;
    165; 157; 156; 155; 151; 150; 149; 146; 154; 145; 144; 143; 139; 154; 36; 36; 36; 36; 36;
    36; 36; 36; 40; 138; 137; 136; 40; 40; 42; 42; 42; 42; 42; 42; 42; 42; 57; 57; 57; 57; 63;
    135; 63; 65; 134; 165; 65; 133; 65; 65; 66; 132; 131; 66; 66; 66; 66; 72; 130; 72; 72; 75;
    75; 75; 75; 75; 75; 75; 75; 77; 77; 77; 77; 77; 77; 77; 77; 91; 129; 91; 92; 128; 92; 92;
    127; 92; 92; 124; 124; 124; 124; 124; 124; 124; 124; 152; 152; 152; 152; 152; 152; 152;
    152; 60; 60; 123; 122; 121; 120; 119; 118; 117; 45; 116; 111; 115; 113; 112; 109; 108; 107;
    46; 106; 93; 89; 105; 104; 103; 101; 100; 99; 98; 97; 96; 95; 78; 76; 93; 90; 89; 88; 58;
    87; 86; 58; 84; 83; 82; 79; 78; 76; 73; 165; 59; 58; 54; 35; 165; 31; 23; 23; 9; 165; 165;
    165; 165; 165; 165; 165; 165; 165; 165; 165; 165; 165; 165; 165; 165; 165; 165; 165; 165;
    165; 165; 165; 165; 165; 165; 165; 165; 165; 165; 165; 165; 165; 165; 165; 165; 165; 165;
    165; 165; 165; 165; 165; 165; 165; 165; 165 ].

Definition yy_chk : list Z :=
  [ 0; 1; 1; 1; 1; 1; 1; 1; 1; 1; 1; 1; 1; 1; 1; 1; 1; 1; 1; 1; 1; 1; 1; 1; 1; 1; 1; 1; 1; 1;
    1; 1; 1; 1; 1; 1; 1; 1; 1; 1; 1; 1; 1; 1; 1; 1; 1; 1; 3; 3; 3; 3; 7; 7; 7; 163; 3; 11; 11;
    11; 18; 18; 3; 3; 3; 3; 3; 5; 5; 5; 5; 5; 5; 5; 5; 5; 5; 5; 5; 5; 5; 5; 5; 5; 5; 5; 5; 5;
    5; 5; 5; 5; 5; 5; 5; 5; 5; 5; 5; 5; 5; 5; 5; 5; 5; 5; 5; 5; 5; 5; 5; 5; 5; 5; 8; 12; 12;
    12; 14; 15; 16; 8; 8; 8; 17; 20; 20; 17; 23; 42; 24; 29; 162; 24; 29; 29; 29; 16; 14; 31;
    44; 29; 17; 134; 17; 134; 42; 17; 24; 17; 24; 76; 17; 24; 76; 24; 15; 44; 24; 36; 23; 26;
    26; 26; 26; 34; 34; 34; 26; 161; 48; 31; 32; 32; 32; 26; 26; 26; 26; 36; 48; 32; 32; 32;
    33; 33; 33; 60; 160; 74; 91; 91; 66; 33; 33; 66; 66; 66; 114; 60; 60; 60; 66; 68; 68; 68;
    74; 85; 99; 124; 133; 102; 68; 68; 99; 102; 157; 156; 114; 85; 85; 85; 133; 133; 133; 140;
    140; 140; 148; 124; 143; 143; 143; 152; 143; 147; 147; 147; 155; 147; 154; 151; 150; 149;
    146; 145; 144; 142; 148; 141; 138; 137; 132; 152; 166; 166; 166; 166; 166; 166; 166; 166;
    167; 131; 130; 129; 167; 167; 168; 168; 168; 168; 168; 168; 168; 168; 169; 169; 169; 169;
    170; 128; 170; 171; 127; 126; 171; 125; 171; 171; 172; 123; 122; 172; 172; 172; 172; 173;
    121; 173; 173; 174; 174; 174; 174; 174; 174; 174; 174; 175; 175; 175; 175; 175; 175; 175;
    175; 176; 120; 176; 177; 119; 177; 177; 118; 177; 177; 178; 178; 178; 178; 178; 178; 178;
    178; 179; 179; 179; 179; 179; 179; 179; 179; 116; 115; 113; 112; 111; 110; 109; 108; 107;
    106; 105; 104; 103; 101; 100; 98; 97; 96; 95; 94; 92; 90; 88; 87; 86; 84; 83; 82; 81; 80;
    79; 78; 77; 75; 73; 70; 69; 67; 64; 62; 61; 57; 51; 50; 49; 47; 46; 45; 41; 38; 22; 21; 19;
    13; 9; 6; 4; 2; 165; 165; 165; 165; 165; 165; 165; 165; 165; 165; 165; 165; 165; 165; 165;
    165; 165; 165; 165; 165; 165; 165; 165; 165; 165; 165; 165; 165; 165; 165; 165; 165; 165;
    165; 165; 165; 165; 165; 165; 165; 165; 165; 165; 165; 165; 165; 165; 165 ].

Definition entry (t : list Z) (i : Z) : Z := t !!! Z.to_nat i.

(** The chain of default states. *)
Fixpoint yy_default (fuel : nat) (st c : Z) : Z * Z :=
  match fuel with
  | O => (st, c)
  | S fuel =>
      if entry yy_chk (entry yy_base st + c) =? st then (st, c)
      else
        let st := entry yy_def st in
        yy_default fuel st (if 166 <=? st then entry yy_meta c else c)
  end.

Definition yy_next (st c : Z) : Z :=
  let '(st, c) := yy_default 8 st c in entry yy_nxt (entry yy_base st + c).

(** The class of a character: a NUL of the text is in class 1, class 0 is the
    end of the buffer. *)
Definition yy_class (b : Z) : Z := if b =? 0 then 1 else entry yy_ec b.

Definition YY_JAMSTATE := 165.

(** The action of the longest match, and how much it takes. *)
Fixpoint yy_match (st : Z) (s : bytes) (n : nat) (last : option (Z * nat)) : option (Z * nat) :=
  let last := if entry yy_accept st =? 0 then last else Some (entry yy_accept st, n) in
  match s with
  | [] => last
  | b :: s =>
      let st := yy_next st (yy_class b) in
      if st =? YY_JAMSTATE then last else yy_match st s (S n) last
  end.

(** ** Tokens *)

Definition DT_V1 := 258.
Definition DT_PLUGIN := 259.
Definition DT_MEMRESERVE := 260.
Definition DT_LSHIFT := 261.
Definition DT_RSHIFT := 262.
Definition DT_LE := 263.
Definition DT_GE := 264.
Definition DT_EQ := 265.
Definition DT_NE := 266.
Definition DT_AND := 267.
Definition DT_OR := 268.
Definition DT_BITS := 269.
Definition DT_DEL_PROP := 270.
Definition DT_DEL_NODE := 271.
Definition DT_PROPNODENAME := 272.
Definition DT_LITERAL := 273.
Definition DT_CHAR_LITERAL := 274.
Definition DT_BYTE := 275.
Definition DT_STRING := 276.
Definition DT_LABEL := 277.
Definition DT_REF := 278.
Definition DT_INCBIN := 279.

(** ** Actions *)

(** The text from the first character that satisfies [p] on. *)
Definition from_first (p : Z -> bool) (s : bytes) : bytes := snd (span (fun c => negb (p c)) s).

(** [yytext + 1] with [yyleng - 2] characters, before the NUL. *)
Definition quoted (text : bytes) : outcome data :=
  data_copy_escape_string (drop 1 text ++ [0]) (blen text - 2).

(** [#include]: the name between the first quote and the last character. *)
Definition include_name (text : bytes) : path :=
  cut (removelast (drop 1 (from_first (fun c => c =? 34) text))).

(** The line directive: the name between the first and the last quote. *)
Definition line_directive (L : lexer) (text : bytes) : outcome lexer :=
  let fnstart := from_first (fun c => c =? 34) text in
  let n := blen (from_first (fun c => c =? 34) (rev fnstart)) in
  if 2 <=? n then
    fn ← data_copy_escape_string (drop 1 fnstart ++ [0]) (n - 2);
    s ← defined (mread (d_val fn) 0 (d_len fn - 1));
    Done (if bool_decide (0 ∈ s) then lexical_error L else L)
  else Fault.

(** [strtoull(yytext, &e, 0)]. *)
Definition literal (L : lexer) (text : bytes) : outcome lexer :=
  match strto 0 text with
  | None => Fault
  | Some (neg, v, e) =>
      let L := set_yylval L (VInteger (if 2 ^ 64 <=? v then 2 ^ 64 - 1 else if neg : bool then u64 (- v) else v)) in
      let bad := match snd (span (fun c => (c =? 85) || (c =? 76)) e) with [] => false | _ => true end in
      let L := if bad then lexical_error L else L in
      Done (if 2 ^ 64 <=? v then lexical_error L else L)
  end.

Definition char_literal (L : lexer) (text : bytes) : outcome lexer :=
  d ← quoted text;
  if d_len d =? 1 then Done (set_yylval (lexical_error L) (VInteger 0))
  else
    c ← defined (mread (d_val d) 0 1);
    let L := set_yylval L (VInteger (le_val c)) in
    Done (if 2 <? d_len d then lexical_error L else L).

Context `{Hashtab.CharSign} (src : sources).

(** [None]: no token yet.  [text] is not empty. *)
Definition lex_action (act : Z) (text : bytes) (L : lexer) : outcome (option Z * lexer) :=
  if act =? 1 then L ← push_input_file src L (include_name text); Done (None, L)
  else if act =? 2 then L ← line_directive L text; Done (None, L)
  else if act =? 3 then d ← quoted text; Done (Some DT_STRING, set_yylval L (VData d))
  else if act =? 4 then Done (Some DT_V1, BEGIN L V1)
  else if act =? 5 then Done (Some DT_PLUGIN, L)
  else if act =? 6 then Done (Some DT_MEMRESERVE, BEGIN L V1)
  else if act =? 7 then Done (Some DT_BITS, BEGIN L V1)
  else if act =? 8 then Done (Some DT_DEL_PROP, BEGIN L PROPNODENAME)
  else if act =? 9 then Done (Some DT_DEL_NODE, BEGIN L PROPNODENAME)
  else if act =? 10 then Done (Some DT_LABEL, set_yylval L (VLabelref (removelast text)))
  else if act =? 11 then L ← literal L text; Done (Some DT_LITERAL, L)
  else if act =? 12 then L ← char_literal L text; Done (Some DT_CHAR_LITERAL, L)
  else if act =? 13 then Done (Some DT_REF, set_yylval L (VLabelref (drop 1 text)))
  else if act =? 14 then Done (Some DT_REF, set_yylval L (VLabelref (drop 2 (removelast text))))
  else if act =? 15 then
    Done (Some DT_BYTE, set_yylval L (VByte (match strto 16 text with Some (_, v, _) => u8 v | None => 0 end)))
  else if act =? 16 then Done (Some 93, BEGIN L V1)
  else if act =? 17 then
    let name := match text with c :: t => if c =? 92 then t else text | [] => [] end in
    Done (Some DT_PROPNODENAME, BEGIN (set_yylval L (VPropnodename name)) V1)
  else if act =? 18 then Done (Some DT_INCBIN, L)
  else if (19 <=? act) && (act <=? 21) then Done (None, L)
  else if act =? 22 then Done (Some DT_LSHIFT, L)
  else if act =? 23 then Done (Some DT_RSHIFT, L)
  else if act =? 24 then Done (Some DT_LE, L)
  else if act =? 25 then Done (Some DT_GE, L)
  else if act =? 26 then Done (Some DT_EQ, L)
  else if act =? 27 then Done (Some DT_NE, L)
  else if act =? 28 then Done (Some DT_AND, L)
  else if act =? 29 then Done (Some DT_OR, L)
  else if act =? 30 then
    match text with
    | [] => Fault
    | c :: _ =>
        let L := if c =? 91 then BEGIN L BYTESTRING
                 else if (c =? 123) || (c =? 59) then BEGIN L PROPNODENAME else L in
        Done (Some (Hashtab.char_value c), L)
    end
  else if act =? 31 then Done (None, L)
  else Die.

(** The loop of [yylex]: a round takes text, opens a file or closes one.  The
    token at the end of the last file is 0. *)
Fixpoint yylex (fuel : nat) (L : lexer) : outcome (Z * lexer) :=
  match fuel with
  | O => Diverge
  | S fuel =>
      match files L with
      | [] => Fault
      | f :: fs =>
          match sf_rest f with
          | [] =>
              match fs with
              | [] => Done (0, set_files L [])
              | _ => yylex fuel (set_files L fs)
              end
          | _ =>
              match yy_match (yy_start L + (if sf_bol f then 1 else 0)) (sf_rest f) 0 None with
              | None => Fault
              | Some (act, n) =>
                  let text := take n (sf_rest f) in
                  let bol := match last text with Some c => c =? 10 | None => sf_bol f end in
                  let L := set_files L (Srcfile (drop n (sf_rest f)) bol (sf_dir f) :: fs) in
                  '(tok, L) ← lex_action act text L;
                  match tok with
                  | Some tok => Done (tok, L)
                  | None => yylex fuel L
                  end
              end
          end
      end
  end.
End Scanner.
