(* ===== verification/Dtparse.v ===== *)
(** The parser of device tree sources: the tables bison generated
    (dtc-parser.c), its automaton and the actions of the grammar, and
    [dt_from_source] (treesource.c).

    A node an action finds by a reference is changed where it is: the search
    gives its place, the indices of the children on the way to it.  Memory runs
    out only where the parser says so itself, at [YYMAXDEPTH]. *)
From S2P Require Import Prelude Stdio Dtdata Livetree Dtlex.
From S2P Require Hashtab.

(** ** Places in a tree *)

Abbreviation place := (list nat).

Fixpoint node_at (t : node) (ix : place) : option node :=
  match ix with
  | [] => Some t
  | i :: ix => c ← children t !! i; node_at c ix
  end.

Fixpoint update_at (f : node -> option node) (t : node) (ix : place) : option node :=
  match ix with
  | [] => f t
  | i :: ix => c ← children t !! i; c ← update_at f c ix; Some (with_children t (<[i := c]> (children t)))
  end.

(** The searches of livetree.c, giving places. *)
Fixpoint child_place (f : bytes -> bool) (i : nat) (l : list node) : option (option nat) :=
  match l with
  | [] => Some None
  | c :: l =>
      if n_deleted c then child_place f (S i) l
      else cn ← n_name c; if f cn then Some (Some i) else child_place f (S i) l
  end.

Fixpoint path_place (fuel : nat) (tree : node) (path : bytes) : option (option place) :=
  match fuel with
  | O => None
  | S fuel =>
      match path with
      | [] => Some (if n_deleted tree then None else Some [])
      | _ =>
          let '(comp, rest) := split_slash (skip_slashes path) in
          r ← child_place (fun cn => bool_decide (cn = comp)) 0 (children tree);
          match r with
          | None => Some None
          | Some i =>
              match rest with
              | None => Some (Some [i])
              | Some rest =>
                  c ← children tree !! i;
                  r ← path_place fuel c rest;
                  Some (match r with Some ix => Some (i :: ix) | None => None end)
              end
          end
      end
  end.

Fixpoint label_place (tree : node) (name : bytes) : option place :=
  if existsb (fun l => streq (l_label l) name) (live_labels (n_labels tree)) then Some []
  else
    (fix first (i : nat) (l : list node) : option place :=
       match l with
       | [] => None
       | c :: l =>
           if n_deleted c then first (S i) l
           else match label_place c name with Some ix => Some (i :: ix) | None => first (S i) l end
       end) 0%nat (children tree).

(** The outer [None] is a failed assertion or a child without a name. *)
Definition ref_place (tree : node) (ref : bytes) : option (option place) :=
  if streq ref [47] then Some (Some [])
  else match ref with
       | c :: _ => if c =? 47 then path_place (S (length ref)) tree ref else Some (label_place tree ref)
       | [] => None
       end.

(** ** livetree.c: what only the parser uses *)

Definition guess_boot_cpuid (tree : node) : outcome Z :=
  cpus ← defined (get_node_by_path tree (str "/cpus"));
  match cpus with
  | None => Done 0
  | Some cpus =>
      match children cpus with
      | [] => Done 0
      | bootcpu :: _ =>
          match get_property bootcpu (str "reg") with
          | None => Done 0
          | Some reg => if d_len (p_val reg) =? 4 then defined (propval_cell reg) else Done 0
          end
      end
  end.

Definition DTSF_PLUGIN := 2.

(** ** Values *)

Definition as_name (v : yystype) : outcome bytes := match v with VPropnodename s => Done s | _ => Fault end.
Definition as_ref (v : yystype) : outcome bytes := match v with VLabelref s => Done s | _ => Fault end.
Definition as_byte (v : yystype) : outcome Z := match v with VByte b => Done b | _ => Fault end.
Definition as_data (v : yystype) : outcome data := match v with VData d => Done d | _ => Fault end.
Definition as_array (v : yystype) : outcome (data * Z) := match v with VArray d b => Done (d, b) | _ => Fault end.
Definition as_prop (v : yystype) : outcome property := match v with VProp p => Done p | _ => Fault end.
Definition as_proplist (v : yystype) : outcome (list property) := match v with VProplist l => Done l | _ => Fault end.
Definition as_node (v : yystype) : outcome node := match v with VNode n => Done n | _ => Fault end.
Definition as_nodelist (v : yystype) : outcome (list node) := match v with VNodelist l => Done l | _ => Fault end.
Definition as_re (v : yystype) : outcome (list reserve_info) := match v with VRe l => Done l | _ => Fault end.
Definition as_integer (v : yystype) : outcome Z := match v with VInteger x => Done x | _ => Fault end.
Definition as_flags (v : yystype) : outcome Z := match v with VFlags x => Done x | _ => Fault end.

Definition bool_int (b : bool) : yystype := VInteger (if b then 1 else 0).

(** The binary operators on [uint64_t], by rule; a shift by 64 or more is
    undefined, a division by zero is reported ([None]) and gives 0. *)
Definition binary (rule a b : Z) : outcome (option yystype) :=
  let ok v := Done (Some v) in
  let div q := if b =? 0 then Done None else ok (VInteger q) in
  if rule =? 46 then ok (bool_int (negb (a =? 0) || negb (b =? 0)))
  else if rule =? 48 then ok (bool_int (negb (a =? 0) && negb (b =? 0)))
  else if rule =? 50 then ok (VInteger (Z.lor a b))
  else if rule =? 52 then ok (VInteger (Z.lxor a b))
  else if rule =? 54 then ok (VInteger (Z.land a b))
  else if rule =? 56 then ok (bool_int (a =? b))
  else if rule =? 57 then ok (bool_int (negb (a =? b)))
  else if rule =? 59 then ok (bool_int (a <? b))
  else if rule =? 60 then ok (bool_int (b <? a))
  else if rule =? 61 then ok (bool_int (a <=? b))
  else if rule =? 62 then ok (bool_int (b <=? a))
  else if rule =? 63 then if b <? 64 then ok (VInteger (u64 (Z.shiftl a b))) else Fault
  else if rule =? 64 then if b <? 64 then ok (VInteger (Z.shiftr a b)) else Fault
  else if rule =? 66 then ok (VInteger (u64 (a + b)))
  else if rule =? 67 then ok (VInteger (u64 (a - b)))
  else if rule =? 69 then ok (VInteger (u64 (a * b)))
  else if rule =? 70 then div (a / b)
  else if rule =? 71 then div (a mod b)
  else Fault.

Definition is_binary (rule : Z) : bool :=
  bool_decide (rule ∈ [46; 48; 50; 52; 54; 56; 57; 59; 60; 61; 62; 63; 64; 66; 67; 69; 70; 71]).

(** ** Actions *)

(** What an action may change beside its value: whether an error was reported,
    the number of orphan fragments so far, and the result. *)
Record effects := Effects { e_error : bool; e_orphans : Z; e_output : option dt_info }.
Definition ERROR (e : effects) : effects := Effects true (e_orphans e) (e_output e).

Section Actions.
Context (junk : Z -> Z) (src : sources).

Definition add_orphan_node (dt new_node : node) (ref : bytes) (e : effects) : outcome (node * effects) :=
  let d := data_add_marker empty_data REF_PHANDLE ref in
  d ← data_append_integer junk d 0xffffffff 32;
  let p := build_property (str "target") d in
  let name := str "fragment@" ++ fmt_d (e_orphans e) in
  new_node ← defined (name_node new_node (str "__overlay__"));
  n ← defined (name_node (build_node [p] [new_node]) name);
  Done (add_child dt n, Effects (e_error e) (u32 (e_orphans e + 1)) (e_output e)).

Definition label_node (n : node) (name : bytes) : node :=
  Node (n_deleted n) (n_name n) (proplist n) (children n) (fullpath n) (basenamelen n) (phandle n)
    (add_label (n_labels n) name).
Definition label_property (p : property) (name : bytes) : property :=
  Property (p_deleted p) (p_name p) (p_val p) (add_label (p_labels p) name).

(** An element of an array: out of range if the bits above the element are
    neither all zero nor all one. *)
Definition out_of_range (v bits : Z) : bool :=
  (bits <? 64) &&
  let mask := Z.shiftl 1 bits - 1 in (mask <? v) && negb (Z.lor v mask =? 2 ^ 64 - 1).

(** The change of the tree at a reference, or the error that it is unknown. *)
Definition at_ref (tree : node) (ref : bytes) (f : node -> option node) (e : effects)
    (unknown : outcome (node * effects)) : outcome (yystype * effects) :=
  r ← defined (ref_place tree ref);
  match r with
  | Some ix => t ← defined (update_at f tree ix); Done (VNode t, e)
  | None => '(t, e) ← unknown; Done (VNode t, e)
  end.

(** [fs] are the open files, [vs] the values of the right-hand side, [below] the
    stack under them;
    the outer result is [None] for [YYERROR].  Rules without an action take
    the value of their first symbol. *)
Definition reduce (fs : list srcfile) (rule : Z) (vs below : list yystype) (e : effects) : outcome (option (yystype * effects)) :=
  let ret v := Done (Some (v, e)) in
  let keep (m : outcome (yystype * effects)) := r ← m; Done (Some r) in
  if is_binary rule then
    match vs with
    | [a; _; b] =>
        a ← as_integer a; b ← as_integer b; r ← binary rule a b;
        Done (Some (match r with Some v => (v, e) | None => (VInteger 0, ERROR e) end))
    | _ => Fault
    end
  else
    match rule, vs with
    | 2, [f; re; n] =>
        f ← as_flags f; re ← as_re re; n ← as_node n; cpu ← guess_boot_cpuid n;
        Done (Some (VNone, Effects (e_error e) (e_orphans e) (Some (build_dt_info f re n cpu))))
    | 3, _ => ret (VFlags DTSF_V1)
    | 4, _ => ret (VFlags (Z.lor DTSF_V1 DTSF_PLUGIN))
    | 6, [a; b] =>
        a ← as_flags a; b ← as_flags b;
        Done (Some (VFlags a, if b =? a then e else ERROR e))
    | 7, _ => ret (VRe [])
    | 8, [a; b] => a ← as_re a; b ← as_re b; ret (VRe (a ++ b))
    | 9, [_; a; b; _] =>
        a ← as_integer a; b ← as_integer b; ret (VRe [build_reserve_entry a b])
    | 10, [l; re] =>
        l ← as_ref l; re ← as_re re;
        match re with
        | r :: rs => ret (VRe (Reserve (re_address r) (re_size r) (add_label (re_labels r) l) :: rs))
        | [] => Fault
        end
    | 11, [_; n] => n ← as_node n; n ← defined (name_node n []); ret (VNode n)
    | 12, [old; _; new] =>
        old ← as_node old; new ← as_node new; n ← defined (merge_nodes new old); ret (VNode n)
    | 13, [t; l; r; n] =>
        t ← as_node t; l ← as_ref l; r ← as_ref r; n ← as_node n;
        keep (at_ref t r (fun target => merge_nodes n (label_node target l)) e (Done (t, ERROR e)))
    | 14, [t; r; n] =>
        t ← as_node t; r ← as_ref r; n ← as_node n;
        keep (at_ref t r (merge_nodes n) e
          (f ← defined (below !! 1%nat); f ← as_flags f;
           if Z.land f DTSF_PLUGIN =? 0 then Done (t, ERROR e) else add_orphan_node t n r e))
    | 15, [t; _; r; _] =>
        t ← as_node t; r ← as_ref r;
        keep (at_ref t r (fun target => Some (delete_node target)) e (Done (t, ERROR e)))
    | 16, _ => n ← defined (name_node (build_node [] []) []); ret (VNode n)
    | 17, [_; ps; ns; _; _] => ps ← as_proplist ps; ns ← as_nodelist ns; ret (VNode (build_node ps ns))
    | 18, _ => ret (VProplist [])
    | 19, [ps; p] => ps ← as_proplist ps; p ← as_prop p; ret (VProplist (chain_property p ps))
    | 20, [name; _; d; _] => name ← as_name name; d ← as_data d; ret (VProp (build_property name d))
    | 21, [name; _] => name ← as_name name; ret (VProp (build_property name empty_data))
    | 22, [_; name; _] => name ← as_name name; ret (VProp (build_property_delete name))
    | 23, [l; p] => l ← as_ref l; p ← as_prop p; ret (VProp (label_property p l))
    | 24, [a; b] => a ← as_data a; b ← as_data b; d ← data_merge junk a b; ret (VData d)
    | 25, [a; b; _] => a ← as_data a; '(b, _) ← as_array b; d ← data_merge junk a b; ret (VData d)
    | 26, [a; _; b; _] => a ← as_data a; b ← as_data b; d ← data_merge junk a b; ret (VData d)
    | 27, [d; r] => d ← as_data d; r ← as_ref r; ret (VData (data_add_marker d REF_PATH r))
    | 28, [d; _; _; name; _; off; _; len; _] =>
        d ← as_data d; name ← as_data name; off ← as_integer off; len ← as_integer len;
        '(f, _) ← srcfile_relative_open src fs (cut (d_val name));
        if 2 ^ 63 <=? off then Die
        else
          x ← data_copy_file junk (drop (Z.to_nat off) f) len;
          d ← data_merge junk d x; ret (VData d)
    | 29, [d; _; _; name; _] =>
        d ← as_data d; name ← as_data name;
        '(f, _) ← srcfile_relative_open src fs (cut (d_val name));
        x ← data_copy_file junk f (2 ^ 64 - 1);
        d ← data_merge junk d x; ret (VData d)
    | 30, [d; l] => d ← as_data d; l ← as_ref l; ret (VData (data_add_marker d LABEL l))
    | 31, _ => ret (VData empty_data)
    | 32, [d; _] => d ← as_data d; ret (VData d)
    | 33, [d; l] => d ← as_data d; l ← as_ref l; ret (VData (data_add_marker d LABEL l))
    | 34, [_; b; _] =>
        b ← as_integer b;
        let known := (b =? 8) || (b =? 16) || (b =? 32) || (b =? 64) in
        Done (Some (VArray empty_data (if known then b else 32), if known then e else ERROR e))
    | 35, _ => ret (VArray empty_data 32)
    | 36, [a; v] =>
        '(d, bits) ← as_array a; v ← as_integer v;
        d ← data_append_integer junk d v bits;
        Done (Some (VArray d bits, if out_of_range v bits then ERROR e else e))
    | 37, [a; r] =>
        '(d, bits) ← as_array a; r ← as_ref r;
        let val := Z.shiftr (2 ^ 64 - 1) (64 - bits) in
        let d := if bits =? 32 then data_add_marker d REF_PHANDLE r else d in
        d ← data_append_integer junk d val bits;
        Done (Some (VArray d bits, if bits =? 32 then e else ERROR e))
    | 38, [a; l] => '(d, bits) ← as_array a; l ← as_ref l; ret (VArray (data_add_marker d LABEL l) bits)
    | 41, [_; v; _] => v ← as_integer v; ret (VInteger v)
    | 44, [c; _; a; _; b] =>
        c ← as_integer c; a ← as_integer a; b ← as_integer b; ret (VInteger (if c =? 0 then b else a))
    | 74, [_; v] => v ← as_integer v; ret (VInteger (u64 (- v)))
    | 75, [_; v] => v ← as_integer v; ret (VInteger (2 ^ 64 - 1 - v))
    | 76, [_; v] => v ← as_integer v; ret (bool_int (v =? 0))
    | 77, _ => ret (VData empty_data)
    | 78, [d; b] => d ← as_data d; b ← as_byte b; d ← data_append_byte junk d b; ret (VData d)
    | 79, [d; l] => d ← as_data d; l ← as_ref l; ret (VData (data_add_marker d LABEL l))
    | 80, _ => ret (VNodelist [])
    | 81, [n; ns] => n ← as_node n; ns ← as_nodelist ns; ret (VNodelist (chain_node n ns))
    | 82, _ => Done None
    | 83, [name; n] => name ← as_name name; n ← as_node n; n ← defined (name_node n name); ret (VNode n)
    | 84, [_; name; _] => name ← as_name name; n ← defined (name_node build_node_delete name); ret (VNode n)
    | 85, [l; n] => l ← as_ref l; n ← as_node n; ret (VNode (label_node n l))
    | _, v :: _ => ret v
    | _, [] => ret VNone
    end.
End Actions.

(** ** Tables *)

Definition yytranslate : list Z :=
  [ 0; 2; 2; 2; 2; 2; 2; 2; 2; 2; 2; 2; 2; 2; 2; 2; 2; 2; 2; 2; 2; 2; 2; 2; 2; 2; 2; 2; 2; 2;
    2; 2; 2; 47; 2; 2; 2; 45; 41; 2; 33; 35; 44; 42; 34; 43; 2; 26; 2; 2; 2; 2; 2; 2; 2; 2; 2;
    2; 38; 25; 36; 29; 30; 37; 2; 2; 2; 2; 2; 2; 2; 2; 2; 2; 2; 2; 2; 2; 2; 2; 2; 2; 2; 2; 2;
    2; 2; 2; 2; 2; 2; 31; 2; 32; 40; 2; 2; 2; 2; 2; 2; 2; 2; 2; 2; 2; 2; 2; 2; 2; 2; 2; 2; 2;
    2; 2; 2; 2; 2; 2; 2; 2; 2; 27; 39; 28; 46; 2; 2; 2; 2; 2; 2; 2; 2; 2; 2; 2; 2; 2; 2; 2; 2;
    2; 2; 2; 2; 2; 2; 2; 2; 2; 2; 2; 2; 2; 2; 2; 2; 2; 2; 2; 2; 2; 2; 2; 2; 2; 2; 2; 2; 2; 2;
    2; 2; 2; 2; 2; 2; 2; 2; 2; 2; 2; 2; 2; 2; 2; 2; 2; 2; 2; 2; 2; 2; 2; 2; 2; 2; 2; 2; 2; 2;
    2; 2; 2; 2; 2; 2; 2; 2; 2; 2; 2; 2; 2; 2; 2; 2; 2; 2; 2; 2; 2; 2; 2; 2; 2; 2; 2; 2; 2; 2;
    2; 2; 2; 2; 2; 2; 2; 2; 2; 2; 2; 2; 2; 2; 2; 2; 2; 2; 2; 2; 2; 2; 2; 1; 2; 3; 4; 5; 6; 7;
    8; 9; 10; 11; 12; 13; 14; 15; 16; 17; 18; 19; 20; 21; 22; 23; 24 ].

Definition yyr1 : list Z :=
  [ 0; 48; 49; 50; 50; 51; 51; 52; 52; 53; 53; 54; 54; 54; 54; 54; 54; 55; 56; 56; 57; 57; 57;
    57; 58; 58; 58; 58; 58; 58; 58; 59; 59; 59; 60; 60; 60; 60; 60; 61; 61; 61; 62; 63; 63; 64;
    64; 65; 65; 66; 66; 67; 67; 68; 68; 69; 69; 69; 70; 70; 70; 70; 70; 71; 71; 71; 72; 72; 72;
    73; 73; 73; 73; 74; 74; 74; 74; 75; 75; 75; 76; 76; 76; 77; 77; 77 ].

Definition yyr2 : list Z :=
  [ 0; 2; 3; 2; 4; 1; 2; 0; 2; 4; 2; 2; 3; 4; 3; 4; 0; 5; 0; 2; 4; 2; 3; 2; 2; 3; 4; 2; 9; 5;
    2; 0; 2; 2; 3; 1; 2; 2; 2; 1; 1; 3; 1; 1; 5; 1; 3; 1; 3; 1; 3; 1; 3; 1; 3; 1; 3; 3; 1; 3;
    3; 3; 3; 3; 3; 1; 3; 3; 1; 3; 3; 3; 1; 1; 2; 2; 2; 0; 2; 2; 0; 2; 2; 2; 3; 2 ].

Definition yydefact : list Z :=
  [ 0; 0; 0; 5; 7; 3; 1; 6; 0; 0; 16; 7; 0; 39; 40; 0; 0; 10; 0; 2; 8; 4; 0; 0; 0; 73; 0; 42;
    43; 45; 47; 49; 51; 53; 55; 58; 65; 68; 72; 0; 18; 11; 0; 0; 0; 0; 74; 75; 76; 41; 0; 0; 0;
    0; 0; 0; 0; 0; 0; 0; 0; 0; 0; 0; 0; 0; 0; 0; 0; 9; 80; 0; 0; 14; 12; 46; 0; 48; 50; 52; 54;
    56; 57; 61; 62; 60; 59; 63; 64; 66; 67; 70; 69; 71; 0; 0; 0; 0; 19; 0; 80; 15; 13; 0; 0; 0;
    21; 31; 83; 23; 85; 0; 82; 81; 44; 22; 84; 0; 0; 17; 30; 20; 32; 0; 24; 33; 27; 0; 77; 35;
    0; 0; 0; 0; 38; 37; 25; 36; 34; 0; 78; 79; 26; 0; 29; 0; 0; 0; 28 ].

Definition yydefgoto : list Z :=
  [ -1; 2; 3; 4; 10; 11; 19; 41; 70; 98; 117; 118; 130; 25; 26; 27; 28; 29; 30; 31; 32; 33; 34;
    35; 36; 37; 38; 133; 99; 100 ].

Definition yypact : list Z :=
  [ 14; 27; 61; 14; 8; 18; -44; -44; 37; 8; 40; 8; 64; -44; -44; -12; 37; -44; 50; 52; -44;
    -44; -12; -12; -12; -44; 51; -44; -4; 78; 53; 54; 55; 17; 2; 30; 38; -3; -44; 66; -44; -44;
    70; 72; 50; 50; -44; -44; -44; -44; -12; -12; -12; -12; -12; -12; -12; -12; -12; -12; -12;
    -12; -12; -12; -12; -12; -12; -12; -12; -44; 3; 73; 50; -44; -44; 78; 59; 53; 54; 55; 17;
    2; 2; 30; 30; 30; 30; 38; 38; -3; -3; -44; -44; -44; 82; 83; 44; 3; -44; 74; 3; -44; -44;
    -12; 76; 79; -44; -44; -44; -44; -44; 80; -44; -44; -44; -44; -44; -10; 36; -44; -44; -44;
    -44; 85; -44; -44; -44; 75; -44; -44; 21; 71; 88; -6; -44; -44; -44; -44; -44; 11; -44;
    -44; -44; 37; -44; 77; 37; 81; -44 ].

Definition yypgoto : list Z :=
  [ -44; -44; -44; 103; 99; 104; -44; -43; -44; -21; -44; -44; -44; -8; 63; 9; -44; 65; 67; 68;
    69; 62; 26; 4; 22; 23; -19; -44; 20; 28 ].

Definition yytable : list Z :=
  [ 16; 73; 74; 46; 47; 48; 13; 14; 39; 50; 58; 59; 120; 8; 140; 121; 141; 1; 94; 95; 96; 15;
    12; 66; 122; 97; 142; 56; 57; 102; 9; 22; 60; 51; 23; 24; 62; 63; 61; 13; 14; 67; 68; 134;
    135; 143; 144; 91; 92; 93; 123; 136; 5; 108; 15; 13; 14; 124; 125; 126; 127; 6; 83; 84; 85;
    86; 18; 128; 42; 106; 15; 40; 129; 107; 43; 44; 109; 40; 45; 112; 64; 65; 81; 82; 87; 88;
    49; 89; 90; 21; 52; 69; 53; 71; 54; 72; 55; 103; 101; 104; 105; 115; 111; 131; 116; 119; 7;
    138; 132; 139; 20; 146; 114; 17; 76; 75; 148; 80; 0; 77; 113; 78; 137; 79; 0; 110; 0; 0; 0;
    0; 0; 0; 0; 0; 0; 145; 0; 0; 147 ].

Definition yycheck : list Z :=
  [ 8; 44; 45; 22; 23; 24; 18; 19; 16; 13; 8; 9; 22; 5; 20; 25; 22; 3; 15; 16; 17; 33; 4; 26;
    34; 22; 32; 10; 11; 72; 22; 43; 30; 37; 46; 47; 6; 7; 36; 18; 19; 44; 45; 22; 23; 34; 35;
    66; 67; 68; 14; 30; 25; 96; 33; 18; 19; 21; 22; 23; 24; 0; 58; 59; 60; 61; 26; 31; 16; 25;
    33; 27; 36; 29; 22; 23; 97; 27; 26; 100; 42; 43; 56; 57; 62; 63; 35; 64; 65; 25; 12; 25;
    39; 23; 40; 23; 41; 38; 25; 17; 17; 25; 28; 18; 25; 25; 3; 36; 33; 21; 11; 34; 103; 9; 51;
    50; 35; 55; -1; 52; 100; 53; 130; 54; -1; 97; -1; -1; -1; -1; -1; -1; -1; -1; -1; 143; -1;
    -1; 146 ].

Definition YYFINAL := 6.
Definition YYLAST := 138.
Definition YYNTOKENS := 48.
Definition YYMAXUTOK := 279.
Definition YYUNDEFTOK := 2.
Definition YYPACT_NINF := -44.
Definition YYTABLE_NINF := -1.
Definition YYTERROR := 1.
Definition YYMAXDEPTH := 10000.

Definition YYTRANSLATE (c : Z) : Z := if c <=? YYMAXUTOK then entry yytranslate c else YYUNDEFTOK.

(** ** The automaton *)

Inductive move := Shift (state : Z) | Reduce (rule : Z) | Accept | Error | NeedToken.

(** [yydefault]. *)
Definition default_move (state : Z) : move :=
  let n := entry yydefact state in if n =? 0 then Error else Reduce n.

(** The decision of [yybackup]; [token] is the look-ahead, when there is one. *)
Definition next_move (state : Z) (token : option Z) : move :=
  let n := entry yypact state in
  if n =? YYPACT_NINF then default_move state
  else
    match token with
    | None => NeedToken
    | Some token =>
        let n := n + token in
        if (n <? 0) || (YYLAST <? n) || negb (entry yycheck n =? token) then default_move state
        else
          let n := entry yytable n in
          if n <=? 0 then if (n =? 0) || (n =? YYTABLE_NINF) then Error else Reduce (- n)
          else if n =? YYFINAL then Accept
          else Shift n
    end.

(** The state after a reduction by [rule] on top of [state]. *)
Definition goto_state (rule state : Z) : Z :=
  let n := entry yyr1 rule - YYNTOKENS in
  let s := entry yypgoto n + state in
  if (0 <=? s) && (s <=? YYLAST) && (entry yycheck s =? state) then entry yytable s
  else entry yydefgoto n.

(** The state that shifts the error token, if [state] does. *)
Definition error_shift (state : Z) : option Z :=
  let n := entry yypact state in
  if n =? YYPACT_NINF then None
  else
    let n := n + YYTERROR in
    if (0 <=? n) && (n <=? YYLAST) && (entry yycheck n =? YYTERROR) && (0 <? entry yytable n)
    then Some (entry yytable n) else None.

(** The stack of states and values, the top first; the bottom state has no
    value.  [yychar] is [None] when it is empty. *)
Record parser := Parser {
  stack : list (Z * yystype);
  yychar : option Z;
  scanner : lexer;
  next_orphan_fragment : Z;
  parser_output : option dt_info
}.

Definition yystate (p : parser) : outcome Z := match stack p with (s, _) :: _ => Done s | [] => Fault end.

Definition report (p : parser) : parser :=
  Parser (stack p) (yychar p) (lexical_error (scanner p)) (next_orphan_fragment p) (parser_output p).

(** [yynewstate]: the stack holds fewer than [YYMAXDEPTH] states; the result
    of the parser is 2 when it is full. *)
Definition push (p : parser) (s : Z) (v : yystype) (below : list (Z * yystype)) : parser + (Z * parser) :=
  let p' := Parser ((s, v) :: below) (yychar p) (scanner p) (next_orphan_fragment p) (parser_output p) in
  if YYMAXDEPTH <=? blen ((s, v) :: below) then inr (2, report p') else inl p'.

(** [yyerrlab1]: states are popped until one shifts the error token. *)
Fixpoint yyerrlab1 (p : parser) (st : list (Z * yystype)) : parser + (Z * parser) :=
  match st with
  | [] => inr (1, p)
  | (s, v) :: below =>
      match error_shift s with
      | Some s' => push p s' (yylval (scanner p)) ((s, v) :: below)
      | None => yyerrlab1 p below
      end
  end.

Section Parser.
Context (junk : Z -> Z) (src : sources) `{Hashtab.CharSign}.

Definition do_reduce (p : parser) (rule : Z) : outcome (parser + (Z * parser)) :=
  let n := Z.to_nat (entry yyr2 rule) in
  let vs := rev (map snd (take n (stack p))) in
  let below := drop n (stack p) in
  let e := Effects (treesource_error (scanner p)) (next_orphan_fragment p) (parser_output p) in
  r ← reduce junk src (files (scanner p)) rule vs (map snd below) e;
  match r with
  | None => Done (yyerrlab1 (report p) below)
  | Some (v, e) =>
      let L := scanner p in
      let L := Lexer (yy_start L) (files L) (yylval L) (e_error e) (srcfile_depth L) in
      let p := Parser (stack p) (yychar p) L (e_orphans e) (e_output e) in
      match below with
      | [] => Fault
      | (s, _) :: _ => Done (push p (goto_state rule s) v below)
      end
  end.

(** One round of [yybackup]; the token is read when it is needed. *)
Definition yystep (fuel : nat) (p : parser) : outcome (parser + (Z * parser)) :=
  state ← yystate p;
  let translated c := if c <=? 0 then 0 else YYTRANSLATE c in
  match next_move state (match yychar p with Some c => Some (translated c) | None => None end) with
  | NeedToken =>
      '(c, L) ← yylex junk src fuel (scanner p);
      let c := if c <=? 0 then 0 else c in
      Done (inl (Parser (stack p) (Some c) L (next_orphan_fragment p) (parser_output p)))
  | Error => Done (yyerrlab1 (report p) (stack p))
  | Accept => Done (inr (0, p))
  | Shift s =>
      let c := match yychar p with Some 0 => Some 0 | _ => None end in
      let p := Parser (stack p) c (scanner p) (next_orphan_fragment p) (parser_output p) in
      Done (push p s (yylval (scanner p)) (stack p))
  | Reduce rule => do_reduce p rule
  end.

Fixpoint yyrun (fuel : nat) (p : parser) : outcome (Z * parser) :=
  match fuel with
  | O => Diverge
  | S n =>
      r ← yystep fuel p;
      match r with
      | inl p => yyrun n p
      | inr r => Done r
      end
  end.

Definition yyparse (fuel : nat) (L : lexer) (orphans : Z) : outcome (Z * parser) :=
  yyrun fuel (Parser [(0, VNone)] None L orphans None).

(** What outlives a call of the parser. *)
Record compiler := Compiler { c_lexer : lexer; c_orphans : Z }.

(** Before the first call. *)
Definition compiler_start : compiler := Compiler (Lexer (1 + 2 * INITIAL) [] VNone false 0) 0.

Definition dt_from_source (fuel : nat) (c : compiler) (fname : path) : outcome (option dt_info * compiler) :=
  let L := c_lexer c in
  let L := Lexer (yy_start L) (files L) (yylval L) false (srcfile_depth L) in
  L ← srcfile_push src L fname;
  '(r, p) ← yyparse fuel L (c_orphans c);
  if negb (r =? 0) then Die
  else if treesource_error (scanner p) then Die
  else Done (parser_output p, Compiler (scanner p) (next_orphan_fragment p)).
End Parser.
