(* ===== verification/Treesource.v ===== *)
(** Writing device tree sources (libdtc/treesource.c): [dt_to_source] and the
    choice of a form for each value.  The text written to the file is the
    result; a failed assertion or a read outside a value is [Fault]. *)
From S2P Require Import Prelude Stdio Dtdata Livetree.

Definition write_prefix (level : nat) : bytes := replicate level 9.

(** [isprint] of the C locale. *)
Definition isprint (c : Z) : bool := (32 <=? c) && (c <=? 126).

Definition isstring (c : Z) : bool := isprint c || (c =? 0) || (7 <=? c) && (c <=? 13).

Definition is_label (m : marker) : bool := match m_type m with LABEL => true | _ => false end.
Definition label_text (m : marker) : bytes := m_ref m ++ str ": ".

(** The loops over markers: [reached m] says whether the position of [m] has
    been reached, [asserted m] is the assertion on a label. *)
Fixpoint pass_markers (reached asserted : marker -> bool) (ms : list marker) : outcome (bytes * list marker) :=
  match ms with
  | [] => Done ([], [])
  | m :: rest =>
      if reached m then
        if is_label m then
          if asserted m then
            '(t, ms) ← pass_markers reached asserted rest; Done (label_text m ++ t, ms)
          else Fault
        else pass_markers reached asserted rest
      else Done ([], ms)
  end.

(** The labels at the end of a value. *)
Fixpoint trailing_labels (len : Z) (ms : list marker) : outcome bytes :=
  match ms with
  | [] => Done []
  | m :: rest =>
      if is_label m then
        if m_offset m =? len then t ← trailing_labels len rest; Done (str " " ++ m_ref m ++ str ":" ++ t) else Fault
      else trailing_labels len rest
  end.

(** The text of one character of a string. *)
Definition string_char (c : Z) : bytes :=
  if c =? 7 then str "\a"
  else if c =? 8 then str "\b"
  else if c =? 9 then str "\t"
  else if c =? 10 then str "\n"
  else if c =? 11 then str "\v"
  else if c =? 12 then str "\f"
  else if c =? 13 then str "\r"
  else if c =? 92 then str "\\"
  else if c =? 34 then [92; 34]
  else if isprint c then [c]
  else str "\x" ++ fmt_0x 2 c.

(** The loop from index [i] on. *)
Fixpoint string_chars (i : Z) (s : bytes) (ms : list marker) : outcome (bytes * list marker) :=
  match s with
  | [] => Done ([], ms)
  | c :: s =>
      if c =? 0 then
        '(l, ms) ← pass_markers (fun m => m_offset m <=? i + 1) (fun m => m_offset m =? i + 1) ms;
        '(t, ms) ← string_chars (i + 1) s ms;
        Done ([34; 44; 32] ++ l ++ [34] ++ t, ms)
      else
        '(t, ms) ← string_chars (i + 1) s ms;
        Done (string_char c ++ t, ms)
  end.

Definition write_propval_string (val : data) : outcome bytes :=
  last ← defined (mread (d_val val) (d_len val - 1) 1);
  if bool_decide (last = [0]) then
    '(l, ms) ← pass_markers (fun m => m_offset m =? 0) (fun _ => true) (d_markers val);
    s ← defined (mread (d_val val) 0 (d_len val - 1));
    '(t, ms) ← string_chars 0 s ms;
    e ← trailing_labels (d_len val) ms;
    Done (l ++ [34] ++ t ++ [34] ++ e)
  else Fault.

(** [for (;;)] over the cells at [cp]; [propend] is the end of the value. *)
Fixpoint cells_loop (fuel : nat) (v : bytes) (cp propend : Z) (ms : list marker) : outcome (bytes * list marker) :=
  match fuel with
  | O => Diverge
  | S fuel =>
      '(l, ms) ← pass_markers (fun m => m_offset m <=? cp) (fun m => m_offset m =? cp) ms;
      c ← defined (mread v cp 4);
      let t := l ++ str "0x" ++ fmt_x (be_val c) in
      if propend <=? cp + 4 then Done (t, ms)
      else '(r, ms) ← cells_loop fuel v (cp + 4) propend ms; Done (t ++ str " " ++ r, ms)
  end.

Definition write_propval_cells (val : data) : outcome bytes :=
  '(t, ms) ← cells_loop (S (Z.to_nat (d_len val))) (d_val val) 0 (d_len val) (d_markers val);
  e ← trailing_labels (d_len val) ms;
  Done (str "<" ++ t ++ e ++ str ">").

Fixpoint bytes_loop (fuel : nat) (v : bytes) (bp propend : Z) (ms : list marker) : outcome (bytes * list marker) :=
  match fuel with
  | O => Diverge
  | S fuel =>
      '(l, ms) ← pass_markers (fun m => m_offset m =? bp) (fun _ => true) ms;
      c ← defined (mread v bp 1);
      let t := l ++ fmt_0x 2 (le_val c) in
      if propend <=? bp + 1 then Done (t, ms)
      else '(r, ms) ← bytes_loop fuel v (bp + 1) propend ms; Done (t ++ str " " ++ r, ms)
  end.

Definition write_propval_bytes (val : data) : outcome bytes :=
  '(t, ms) ← bytes_loop (S (Z.to_nat (d_len val))) (d_val val) 0 (d_len val) (d_markers val);
  e ← trailing_labels (d_len val) ms;
  Done (str "[" ++ t ++ e ++ str "]").

(** Whether a label stands where a string, or a cell, begins. *)
Fixpoint count_labels (v : bytes) (ms : list marker) : outcome (Z * Z) :=
  match ms with
  | [] => Done (0, 0)
  | m :: ms =>
      if is_label m then
        s ← (if 0 <? m_offset m
             then c ← defined (mread v (m_offset m - 1) 1); Done (negb (bool_decide (c = [0])))
             else Done false);
        '(ns, nc) ← count_labels v ms;
        Done ((if s : bool then ns + 1 else ns), (if m_offset m mod 4 =? 0 then nc else nc + 1))
      else count_labels v ms
  end.

Definition count (p : Z -> bool) (s : bytes) : Z := blen (List.filter p s).

Definition write_propval (prop : property) : outcome bytes :=
  let val := p_val prop in
  if d_len val =? 0 then Done (str ";" ++ [10])
  else
    s ← defined (mread (d_val val) 0 (d_len val));
    let nnotstring := count (fun c => negb (isstring c)) s in
    let nnul := count (fun c => c =? 0) s in
    '(nnotstringlbl, nnotcelllbl) ← count_labels (d_val val) (d_markers val);
    let ends := bool_decide (last s = Some 0) in
    t ← (if ends && (nnotstring =? 0) && (nnul <? d_len val - nnul) && (nnotstringlbl =? 0)
         then write_propval_string val
         else if (d_len val mod 4 =? 0) && (nnotcelllbl =? 0) then write_propval_cells val
         else write_propval_bytes val);
    Done (str " = " ++ t ++ str ";" ++ [10]).

Definition labels_text (ls : list label) : bytes :=
  concat (map (fun l => l_label l ++ str ": ") (live_labels ls)).

Fixpoint write_properties (level : nat) (ps : list property) : outcome bytes :=
  match ps with
  | [] => Done []
  | p :: ps =>
      v ← write_propval p;
      r ← write_properties level ps;
      Done (write_prefix (S level) ++ labels_text (p_labels p) ++ p_name p ++ v ++ r)
  end.

Fixpoint write_tree_source_node (tree : node) (level : nat) : outcome bytes :=
  let name := match n_name tree with Some (c :: s) => (c :: s) ++ str " {" | _ => str "/ {" end in
  ps ← write_properties level (live_properties tree);
  cs ← (fix write_children (l : list node) : outcome bytes :=
          match l with
          | [] => Done []
          | c :: l =>
              if n_deleted c then write_children l
              else
                t ← write_tree_source_node c (S level);
                r ← write_children l;
                Done ([10] ++ t ++ r)
          end) (children tree);
  Done (write_prefix level ++ labels_text (n_labels tree) ++ name ++ [10] ++ ps ++ cs ++
        write_prefix level ++ str "};" ++ [10]).

Definition reserve_text (re : reserve_info) : bytes :=
  labels_text (re_labels re) ++ str "/memreserve/" ++ [9] ++ str "0x" ++ fmt_0x 16 (re_address re) ++
  str " 0x" ++ fmt_0x 16 (re_size re) ++ str ";" ++ [10].

Definition dt_to_source (dti : dt_info) : outcome bytes :=
  t ← write_tree_source_node (dt dti) 0;
  Done (str "/dts-v1/;" ++ [10; 10] ++ concat (map reserve_text (reservelist dti)) ++ t).
