(* ===== verification/Dtscan.v ===== *)
(** What the scanner of Dtlex makes of the texts that Treesource writes: the
    tables of flex, walked through with sets of states, and the tokens of
    white space, names, numbers, bytes, strings and punctuation. *)
From S2P Require Import Prelude Stdio Dtdata Livetree Dtlex Treesource.
From S2P Require Hashtab.

(** ** Running the automaton *)

Fixpoint yy_walk (st : Z) (s : bytes) : Z :=
  match s with [] => st | b :: s => yy_walk (yy_next st (yy_class b)) s end.

(** No character of [s] stops the automaton. *)
Fixpoint alive (st : Z) (s : bytes) : bool :=
  match s with
  | [] => true
  | b :: s => let st := yy_next st (yy_class b) in negb (st =? YY_JAMSTATE) && alive st s
  end.

(** The text ends, or its first character stops the automaton. *)
Definition stops_at (st : Z) (rest : bytes) : Prop :=
  match rest with [] => True | b :: _ => yy_next st (yy_class b) = YY_JAMSTATE end.

Lemma yy_walk_app st a b : yy_walk st (a ++ b) = yy_walk (yy_walk st a) b.
Proof. revert st. induction a as [|c a IH]; intros st; [done|]. apply IH. Qed.

Lemma alive_app st a b : alive st (a ++ b) = alive st a && alive (yy_walk st a) b.
Proof.
  revert st. induction a as [|c a IH]; intros st; [done|]. cbn [alive app yy_walk].
  by rewrite IH, andb_assoc.
Qed.

(** The longest match of a text after which the automaton stops. *)
Lemma match_run s st rest n lst :
  alive st s = true -> entry yy_accept (yy_walk st s) <> 0 -> stops_at (yy_walk st s) rest ->
  yy_match st (s ++ rest) n lst = Some (entry yy_accept (yy_walk st s), (n + length s)%nat).
Proof.
  revert st n lst. induction s as [|c s IH]; intros st n lst Ha Hacc Hs.
  - cbn [app yy_walk length] in *. destruct rest as [|b rest]; cbn [yy_match].
    + apply Z.eqb_neq in Hacc as ->. by rewrite Nat.add_0_r.
    + cbn [stops_at] in Hs. rewrite Hs. apply Z.eqb_neq in Hacc as ->. by rewrite Nat.add_0_r.
  - cbn [alive] in Ha. apply andb_true_iff in Ha as [Hc Ha]. cbn [yy_walk] in *.
    cbn [app yy_match]. destruct (yy_next st (yy_class c) =? YY_JAMSTATE); [done|].
    rewrite IH by done. cbn [length]. do 2 f_equal. lia.
Qed.

(** A set of states closed under a set of characters. *)
Definition closed (S : list Z) (cs : bytes) : bool :=
  forallb (fun st => forallb (fun c => bool_decide (yy_next st (yy_class c) ∈ S)) cs) S &&
  negb (bool_decide (YY_JAMSTATE ∈ S)).

Definition enters (st : Z) (S : list Z) (cs : bytes) : bool :=
  forallb (fun c => bool_decide (yy_next st (yy_class c) ∈ S)) cs.

Lemma enters_ok st S cs c : enters st S cs = true -> c ∈ cs -> yy_next st (yy_class c) ∈ S.
Proof.
  intros He Hc. unfold enters in He. rewrite forallb_forall in He.
  apply list_elem_of_In in Hc. specialize (He c Hc). by apply bool_decide_eq_true in He.
Qed.

Lemma closed_run S cs s st :
  closed S cs = true -> st ∈ S -> Forall (fun c => c ∈ cs) s ->
  alive st s = true /\ yy_walk st s ∈ S.
Proof.
  intros Hcl Hst Hs. apply andb_true_iff in Hcl as [Hcl Hj]. apply negb_true_iff in Hj.
  apply bool_decide_eq_false in Hj. rewrite forallb_forall in Hcl.
  revert st Hst. induction Hs as [|c s Hc Hs IH]; intros st Hst; [done|].
  assert (yy_next st (yy_class c) ∈ S) as Hn.
  { apply (enters_ok st S cs); [|done]. apply Hcl. by apply list_elem_of_In. }
  destruct (IH _ Hn) as [Ha Hw]. split; [|done]. cbn [alive]. rewrite Ha, andb_true_r.
  apply negb_true_iff, Z.eqb_neq. intros E. apply Hj. by rewrite <- E.
Qed.

(** A nonempty text that enters the set with its first character. *)
Lemma enter_run S cs c s st :
  closed S cs = true -> enters st S cs = true -> Forall (fun c => c ∈ cs) (c :: s) ->
  alive st (c :: s) = true /\ yy_walk st (c :: s) ∈ S.
Proof.
  intros Hcl He Hs. apply Forall_cons in Hs as [Hc Hs].
  pose proof (enters_ok _ _ _ _ He Hc) as Hn.
  destruct (closed_run S cs s _ Hcl Hn Hs) as [Ha Hw]. split; [|done].
  cbn [alive]. rewrite Ha, andb_true_r. apply negb_true_iff, Z.eqb_neq. intros E.
  apply andb_true_iff in Hcl as [_ Hj]. apply negb_true_iff, bool_decide_eq_false in Hj.
  apply Hj. by rewrite <- E.
Qed.

(** Every state of a set has an action, and stops at certain characters. *)
Definition accepts (S : list Z) (act : Z) : bool := forallb (fun st => entry yy_accept st =? act) S.
Definition stop_set (S : list Z) (cs : bytes) : bool :=
  forallb (fun st => forallb (fun c => yy_next st (yy_class c) =? YY_JAMSTATE) cs) S.

Lemma accepts_ok S act st : accepts S act = true -> st ∈ S -> entry yy_accept st = act.
Proof.
  intros Ha Hst. unfold accepts in Ha. rewrite forallb_forall in Ha.
  apply Z.eqb_eq, Ha. by apply list_elem_of_In.
Qed.

(** The first character is none of the text, or one of [cs]. *)
Definition head_in (cs : bytes) (rest : bytes) : Prop := match rest with [] => True | c :: _ => c ∈ cs end.

Lemma stop_set_ok S cs st rest : stop_set S cs = true -> st ∈ S -> head_in cs rest -> stops_at st rest.
Proof.
  intros Hs Hst Hh. destruct rest as [|c rest]; [done|]. cbn in *.
  unfold stop_set in Hs. rewrite forallb_forall in Hs.
  apply list_elem_of_In in Hst. specialize (Hs _ Hst). rewrite forallb_forall in Hs.
  apply list_elem_of_In in Hh. by apply Z.eqb_eq, Hs.
Qed.

(** The match of a text of one set of characters. *)
Lemma match_set S cs act ends c s st rest lst :
  closed S cs = true -> enters st S cs = true -> accepts S act = true -> stop_set S ends = true ->
  act <> 0 -> Forall (fun c => c ∈ cs) (c :: s) -> head_in ends rest ->
  yy_match st ((c :: s) ++ rest) 0 lst = Some (act, length (c :: s)).
Proof.
  intros Hcl He Ha Hst Hact Hs Hr. destruct (enter_run S cs c s st Hcl He Hs) as [Hal Hw].
  rewrite match_run; [by rewrite (accepts_ok S act)|done| |].
  - by rewrite (accepts_ok S act).
  - by apply (stop_set_ok S ends).
Qed.

(** The same for a text the tables can be run on, the rest being arbitrary or
    beginning with certain characters. *)
Definition matches (st : Z) (s : bytes) (act : Z) (ends : bytes) : bool :=
  alive st s && (entry yy_accept (yy_walk st s) =? act) && stop_set [yy_walk st s] ends.

Lemma match_text st s act ends rest lst :
  matches st s act ends = true -> act <> 0 -> head_in ends rest ->
  yy_match st (s ++ rest) 0 lst = Some (act, length s).
Proof.
  intros Hm Hact Hr. apply andb_true_iff in Hm as [Hm He]. apply andb_true_iff in Hm as [Ha Hacc].
  apply Z.eqb_eq in Hacc. rewrite match_run; [by rewrite Hacc|done|by rewrite Hacc|].
  apply (stop_set_ok [yy_walk st s] ends); [done| |done]. by left.
Qed.

(** ** Sets of characters *)

Definition byte_list : bytes := Eval vm_compute in map Z.of_nat (seq 0 256).

Lemma byte_list_ok c : is_byte c <-> c ∈ byte_list.
Proof.
  assert (byte_list = map Z.of_nat (seq 0 256)) as -> by by vm_compute.
  unfold is_byte. rewrite list_elem_of_In, in_map_iff. split.
  - intros Hc. exists (Z.to_nat c). split; [lia|]. apply in_seq. lia.
  - intros (n & <- & Hn). apply in_seq in Hn. lia.
Qed.

Definition spaces : bytes := [9; 10; 11; 12; 13; 32].
Definition non_spaces : bytes := Eval vm_compute in List.filter (fun c => negb (isspace c)) byte_list.

Lemma forallb_elem (f : Z -> bool) l c : forallb f l = true -> c ∈ l -> f c = true.
Proof. rewrite forallb_forall, list_elem_of_In. auto. Qed.

Lemma subset_elem (a b : bytes) c :
  forallb (fun c => bool_decide (c ∈ b)) a = true -> c ∈ a -> c ∈ b.
Proof. intros Ha Hc. apply (forallb_elem _ _ _ Ha) in Hc. by apply bool_decide_eq_true in Hc. Qed.

Lemma non_space_ok c : c ∈ non_spaces -> isspace c = false.
Proof.
  intros Hc. apply negb_true_iff. revert Hc. apply (forallb_elem (fun c => negb (isspace c))).
  by vm_compute.
Qed.

(** The characters of the names of properties and nodes. *)
Definition name_chars : bytes := Eval vm_compute in
  str "abcdefghijklmnopqrstuvwxyzABCDEFGHIJKLMNOPQRSTUVWXYZ0123456789,._+*#?@-".
Definition hex_chars : bytes := Eval vm_compute in str "0123456789abcdef".

(** ** Scanner states *)

(** A scanner in start state [st] before [rest], in one file. *)
Definition scan_at (dir : option path) (depth : Z) (st : Z) (bol : bool) (rest : bytes) (v : yystype) : lexer :=
  Lexer st [Srcfile rest bol dir] v false depth.

(** The start states of the four conditions. *)
Definition S_INITIAL := 1.
Definition S_BYTESTRING := 3.
Definition S_PROPNODENAME := 5.
Definition S_V1 := 7.
Definition starts : list Z := [S_INITIAL; S_BYTESTRING; S_PROPNODENAME; S_V1].
Definition bol_state (st : Z) (bol : bool) : Z := st + (if bol then 1 else 0).

Section Tokens.
Context (junk : Z -> Z) (src : sources) `{Hashtab.CharSign} (dir : option path) (depth : Z).
Abbreviation lx := (scan_at dir depth).

(** A call of [yylex] from [L] gives the token [tok] and leaves [L']. *)
Definition lexes (L : lexer) (tok : Z) (L' : lexer) : Prop :=
  forall fuel, (3 <= fuel)%nat -> yylex junk src fuel L = Done (tok, L').

Definition ends_bol (text : bytes) (bol : bool) : bool :=
  match last text with Some c => c =? 10 | None => bol end.

(** One round on a text. *)
Lemma yylex_round fuel st bol text rest v act :
  text <> [] -> yy_match (bol_state st bol) (text ++ rest) 0 None = Some (act, length text) ->
  yylex junk src (S fuel) (lx st bol (text ++ rest) v) =
    ('(tok, L) ← lex_action junk src act text (lx st (ends_bol text bol) rest v);
     match tok with Some tok => Done (tok, L) | None => yylex junk src fuel L end).
Proof.
  intros Hne Hm. unfold scan_at. cbn [yylex files sf_rest sf_bol sf_dir yy_start].
  destruct (text ++ rest) as [|x xs] eqn:E; [by destruct text|]. rewrite <- E in Hm |- *.
  unfold bol_state in Hm. rewrite Hm. rewrite take_app_length, drop_app_length.
  reflexivity.
Qed.

(** White space before a token. *)
Lemma yylex_space fuel st bol w rest v :
  st ∈ starts -> w <> [] -> Forall (fun c => c ∈ spaces) w -> head_in non_spaces rest ->
  yylex junk src (S fuel) (lx st bol (w ++ rest) v) =
  yylex junk src fuel (lx st (ends_bol w bol) rest v).
Proof.
  intros Hst Hne Hw Hr. destruct w as [|c w]; [done|]. clear Hne.
  rewrite (yylex_round _ _ _ _ _ _ 19); [reflexivity|done|].
  assert (enters (bol_state st bol) [11; 12; 34] spaces = true) as He.
  { unfold starts in Hst. repeat (apply elem_of_cons in Hst as [->|Hst]; [by destruct bol; vm_compute|]).
    by apply not_elem_of_nil in Hst. }
  apply (match_set [11; 12; 34] spaces 19 non_spaces); [by vm_compute|done|by vm_compute|by vm_compute|done|done|done].
Qed.

(** A token after white space: what is shown of it may depend on whether the
    line begins there. *)
Lemma lexes_token st bol w text rest v act tok L :
  st ∈ starts -> Forall (fun c => c ∈ spaces) w -> text <> [] -> head_in non_spaces text ->
  (forall bol', bol' = ends_bol w bol ->
     yy_match (bol_state st bol') (text ++ rest) 0 None = Some (act, length text)) ->
  (forall bol', lex_action junk src act text (lx st (ends_bol text bol') rest v) = Done (Some tok, L)) ->
  lexes (lx st bol (w ++ text ++ rest) v) tok L.
Proof.
  intros Hst Hw Hne Hh Hm Ha fuel Hf. destruct fuel as [|[|fuel]]; [lia|lia|].
  assert (forall fuel bol', bol' = ends_bol w bol ->
    yylex junk src (S fuel) (lx st bol' (text ++ rest) v) = Done (tok, L)) as Htok.
  { intros n b ->. rewrite (yylex_round _ _ _ _ _ _ act); [|done|by apply Hm].
    by rewrite Ha. }
  destruct w as [|c w].
  - by apply Htok.
  - rewrite yylex_space; [by apply Htok|done|done|done|].
    destruct text as [|t text]; [done|]. exact Hh.
Qed.
End Tokens.

(** ** Single tokens *)

Lemma starts_cases (P : Z -> bool -> bool) :
  forallb (fun st => P st false && P st true) starts = true ->
  forall st bol, st ∈ starts -> P st bol = true.
Proof.
  intros HP st bol Hst. rewrite forallb_forall in HP. apply list_elem_of_In in Hst.
  specialize (HP _ Hst). apply andb_true_iff in HP as [H0 H1]. by destruct bol.
Qed.

(** The condition after a character. *)
Definition after_char (c st : Z) : Z :=
  if c =? 91 then S_BYTESTRING else if (c =? 123) || (c =? 59) then S_PROPNODENAME else st.

(** A text that is a token of its own in every condition, or in one. *)
Definition matches_from (sts : list Z) (s : bytes) (act : Z) (ends : bytes) : bool :=
  forallb (fun st => matches (bol_state st false) s act ends && matches (bol_state st true) s act ends) sts.

Lemma matches_from_ok sts s act ends st bol :
  matches_from sts s act ends = true -> st ∈ sts -> matches (bol_state st bol) s act ends = true.
Proof.
  intros Hm Hst. unfold matches_from in Hm. rewrite forallb_forall in Hm.
  apply list_elem_of_In in Hst. specialize (Hm _ Hst). apply andb_true_iff in Hm as [H0 H1].
  by destruct bol.
Qed.

Lemma ends_bol_irrel text b b' : text <> [] -> ends_bol text b = ends_bol text b'.
Proof.
  intros Hne. unfold ends_bol. destruct (last text) eqn:E; [done|].
  by apply last_None in E.
Qed.

Section Single.
Context (junk : Z -> Z) (src : sources) `{Hashtab.CharSign} (dir : option path) (depth : Z).
Abbreviation lx := (scan_at dir depth).
Abbreviation lexes := (lexes junk src).

(** A fixed text. *)
Lemma lexes_text sts st bol w text rest v act ends tok L :
  matches_from sts text act ends = true -> act <> 0 -> st ∈ sts -> st ∈ starts ->
  Forall (fun c => c ∈ spaces) w -> text <> [] -> head_in non_spaces text -> head_in ends rest ->
  (forall bol', lex_action junk src act text (lx st (ends_bol text bol') rest v) = Done (Some tok, L)) ->
  lexes (lx st bol (w ++ text ++ rest) v) tok L.
Proof.
  intros Hm Hact Hin Hst Hw Hne Hh Hr Ha. eapply (lexes_token junk src dir depth); [exact Hst|exact Hw|exact Hne|exact Hh| |exact Ha].
  intros bol' _. eapply match_text; [|done|done]. by apply (matches_from_ok sts).
Qed.

Lemma lexes_char sts st bol w c rest v ends :
  matches_from sts [c] 30 ends = true -> st ∈ sts -> st ∈ starts ->
  Forall (fun c => c ∈ spaces) w -> c ∈ non_spaces -> 0 <= c < 128 -> head_in ends rest ->
  lexes (lx st bol (w ++ [c] ++ rest) v) c (lx (after_char c st) false rest v).
Proof.
  intros Hm Hin Hst Hw Hc Hr Hends.
  apply (lexes_text sts st bol w [c] rest v 30 ends); [exact Hm|discriminate|exact Hin|exact Hst|exact Hw|discriminate|exact Hc|exact Hends|].
  intros bol'. change (lex_action junk src 30 [c] ?L) with
    (Done (A:=option Z * lexer) (Some (Hashtab.char_value c),
       if c =? 91 then BEGIN L BYTESTRING else if (c =? 123) || (c =? 59) then BEGIN L PROPNODENAME else L)).
  assert (Hashtab.char_value c = c) as Hv.
  { unfold Hashtab.char_value. replace (127 <? c) with false by lia. by rewrite andb_false_r. }
  rewrite Hv. do 2 f_equal. unfold after_char, ends_bol, scan_at, BEGIN. cbn [last].
  assert ((c =? 10) = false) as ->.
  { apply Z.eqb_neq. intros ->. by apply non_space_ok in Hc. }
  destruct (c =? 91); [done|]. by destruct ((c =? 123) || (c =? 59)).
Qed.

Lemma lexes_name bol w name rest v :
  Forall (fun c => c ∈ spaces) w -> ends_bol w bol = false -> name <> [] ->
  Forall (fun c => c ∈ name_chars) name -> head_in [32; 59] rest ->
  exists bol', lexes (lx S_PROPNODENAME bol (w ++ name ++ rest) v) DT_PROPNODENAME
    (lx S_V1 bol' rest (VPropnodename name)).
Proof.
  intros Hw Hbol Hne Hn Hr. destruct name as [|c name]; [done|].
  assert (head_in non_spaces (c :: name)) as Hh.
  { apply Forall_cons in Hn as [Hc _]. cbn [head_in].
    by apply (subset_elem name_chars). }
  assert (c <> 92).
  { intros ->. apply Forall_cons in Hn as [Hc _]. revert Hc. apply (bool_decide_unpack (_ ∉ _)). by vm_compute. }
  exists (ends_bol (c :: name) false).
  eapply (lexes_token junk src dir depth); [by apply (bool_decide_unpack _)|exact Hw|discriminate|exact Hh| |].
  - intros bol' ->. rewrite Hbol. change (bol_state S_PROPNODENAME false) with 5.
    apply (match_set [28; 29; 65; 66] name_chars 17 [32; 59]); [by vm_compute|by vm_compute|by vm_compute|by vm_compute|done|done|done].
  - intros bol'. change (lex_action junk src 17 ?x ?L) with
      (Done (A:=option Z * lexer) (Some DT_PROPNODENAME,
         BEGIN (set_yylval L (VPropnodename (match x with c :: t => if c =? 92 then t else x | [] => [] end))) V1)).
    cbn iota. apply Z.eqb_neq in H0 as ->. by rewrite (ends_bol_irrel _ bol' false).
Qed.
End Single.

(** ** Numbers *)

Lemma num_digits_hex ds :
  Forall is_digit_char ds -> exists vs, num_digits 16 ds = (vs, []) /\
    (forall a, fold_left (fun v d => v * 16 + d) vs a = hex_value a ds) /\ (ds <> [] -> vs <> []).
Proof.
  induction 1 as [|c ds Hc Hds (vs & E & Hv & Hne)]; [by exists []|].
  cbn [num_digits]. unfold digit_of, is_digit_char in *.
  assert (exists d, 0 <= d < 16 /\
    (if (48 <=? c) && (c <=? 57) then Some (c - 48)
     else if (97 <=? c) && (c <=? 122) then Some (c - 87)
     else if (65 <=? c) && (c <=? 90) then Some (c - 55) else None) = Some d /\ hex_digit c = Some d) as (d & Hd & -> & Hh).
  { unfold hex_digit. destruct Hc as [Hc|Hc].
    - replace ((48 <=? c) && (c <=? 57)) with true by lia. exists (c - 48). split; [lia|done].
    - replace ((48 <=? c) && (c <=? 57)) with false by lia.
      replace ((97 <=? c) && (c <=? 122)) with true by lia.
      replace ((97 <=? c) && (c <=? 102)) with true by lia. exists (c - 87). split; [lia|done]. }
  replace (d <? 16) with true by lia. rewrite E. exists (d :: vs). split; [done|]. split; [|done].
  intros a. cbn [fold_left hex_value]. rewrite Hh. apply Hv.
Qed.

Lemma strto_hex ds n :
  Forall is_digit_char ds -> ds <> [] -> hex_value 0 ds = n ->
  strto 0 (str "0x" ++ ds) = Some (false, n, []).
Proof.
  intros Hds Hne Hv. destruct (num_digits_hex ds Hds) as (vs & E & Hvs & Hvne).
  unfold strto. change (str "0x" ++ ds) with (48 :: 120 :: ds).
  change (skip_sign (skip_space (48 :: 120 :: ds))) with (false, 48 :: 120 :: ds). cbn iota.
  assert (num_prefix 0 (48 :: 120 :: ds) = (16, ds)) as ->.
  { unfold num_prefix. destruct ds as [|d ds]; [done|]. apply Forall_cons in Hds as [Hd _].
    cbn [skip_0x]. rewrite (is_hex_digit_char d Hd). cbn [Z.eqb Pos.eqb andb orb].
    rewrite bool_decide_false; [done|]. intros E'. apply (f_equal length) in E'. cbn in E'. lia. }
  rewrite E. destruct vs as [|x vs]; [by exfalso; apply Hvne|].
  do 3 f_equal. unfold num_value. by rewrite Hvs.
Qed.

Lemma is_digit_char_hex c : is_digit_char c -> c ∈ hex_chars.
Proof.
  unfold is_digit_char. intros Hc.
  assert (is_byte c) as Hb by (unfold is_byte; lia). apply byte_list_ok in Hb.
  assert (forallb (fun c => negb ((48 <=? c) && (c <=? 57) || (97 <=? c) && (c <=? 102)) ||
    bool_decide (c ∈ hex_chars)) byte_list = true) as Hall by by vm_compute.
  apply (forallb_elem _ _ _ Hall) in Hb. apply orb_true_iff in Hb as [Hb|Hb].
  - lia.
  - by apply bool_decide_eq_true in Hb.
Qed.

(** A printed number: digits with the value. *)
Definition digits_of (n : Z) (ds : bytes) : Prop :=
  Forall is_digit_char ds /\ ds <> [] /\ hex_value 0 ds = n.

Lemma fmt_x_digits n : is_u64 n -> digits_of n (fmt_x n).
Proof. intros Hn. destruct (fmt_x_spec n Hn) as (d & ds & -> & Hd & Hv). by split. Qed.

Lemma fmt_0x_digits w n : is_u64 n -> digits_of n (fmt_0x w n).
Proof.
  intros Hn. unfold fmt_0x, zero_pad. fold (fmt_x n). destruct (fmt_x_digits n Hn) as (Hd & Hne & Hv).
  set (k := Z.to_nat _). clearbody k. split; [|split].
  - apply Forall_app_2; [|done]. apply Forall_replicate. unfold is_digit_char. lia.
  - destruct k; [done|by cbn].
  - induction k as [|k IH]; [done|exact IH].
Qed.

Section Numbers.
Context (junk : Z -> Z) (src : sources) `{Hashtab.CharSign} (dir : option path) (depth : Z).
Abbreviation lx := (scan_at dir depth).
Abbreviation lexes := (lexes junk src).

Lemma lexes_literal bol w ds n rest v :
  Forall (fun c => c ∈ spaces) w -> digits_of n ds -> is_u64 n -> head_in [32; 59; 62] rest ->
  exists bol', lexes (lx S_V1 bol (w ++ (str "0x" ++ ds) ++ rest) v) DT_LITERAL
    (lx S_V1 bol' rest (VInteger n)).
Proof.
  intros Hw (Hds & Hne & Hv) Hn Hr. exists (ends_bol (str "0x" ++ ds) false).
  eapply (lexes_token junk src dir depth _ _ _ _ _ _ 11);
    [by apply (bool_decide_unpack _)|exact Hw|discriminate|by apply (bool_decide_unpack (48 ∈ non_spaces))| |].
  - intros bol' _.
    assert (bol_state S_V1 bol' ∈ [7; 8]) as Hst by (destruct bol'; [right; left|left]).
    set (st := bol_state S_V1 bol') in *. clearbody st.
    assert (alive st (str "0x") = true /\ yy_walk st (str "0x") = 71) as [Ha1 Hw1].
    { apply elem_of_cons in Hst as [->|Hst]; [by vm_compute|]. apply elem_of_cons in Hst as [->|Hst]; [by vm_compute|].
      by apply not_elem_of_nil in Hst. }
    destruct ds as [|d ds]; [done|].
    destruct (enter_run [91] hex_chars d ds 71) as [Ha2 Hw2]; [by vm_compute|by vm_compute| |].
    { eapply Forall_impl; [exact Hds|]. intros x. apply is_digit_char_hex. }
    apply list_elem_of_singleton in Hw2.
    rewrite match_run.
    + by rewrite yy_walk_app, Hw1, Hw2.
    + by rewrite alive_app, Ha1, Hw1, Ha2.
    + by rewrite yy_walk_app, Hw1, Hw2.
    + rewrite yy_walk_app, Hw1, Hw2. apply (stop_set_ok [91] [32; 59; 62]); [by vm_compute|by left|done].
  - intros bol'.
    change (lex_action junk src 11 ?x ?M) with (L ← literal M x; Done (A:=option Z * lexer) (Some DT_LITERAL, L)).
    unfold literal. rewrite (strto_hex ds n) by done. cbn [span snd].
    unfold is_u64 in Hn. replace (2 ^ 64 <=? n) with false by lia.
    cbn [mbind outcome_bind]. by rewrite (ends_bol_irrel _ bol' false).
Qed.

(** Two hexadecimal digits. *)
Lemma byte_text c : is_byte c ->
  matches_from [S_BYTESTRING] (fmt_0x 2 c) 15 [32; 93] = true /\
  strto 16 (fmt_0x 2 c) = Some (false, c, []) /\ fmt_0x 2 c <> [] /\ head_in non_spaces (fmt_0x 2 c).
Proof.
  intros Hc. apply byte_list_ok in Hc.
  assert (forallb (fun c => matches_from [S_BYTESTRING] (fmt_0x 2 c) 15 [32; 93] &&
    bool_decide (strto 16 (fmt_0x 2 c) = Some (false, c, [])) &&
    match fmt_0x 2 c with x :: _ => bool_decide (x ∈ non_spaces) | [] => false end) byte_list = true) as Hall
    by by vm_compute.
  apply (forallb_elem _ _ _ Hall) in Hc. apply andb_true_iff in Hc as [Hc Hh].
  apply andb_true_iff in Hc as [Hm Hs]. apply bool_decide_eq_true in Hs.
  split; [exact Hm|]. split; [exact Hs|]. destruct (fmt_0x 2 c) as [|x t]; [discriminate Hh|].
  split; [discriminate|]. by apply bool_decide_eq_true in Hh.
Qed.

Lemma lexes_byte bol w c rest v :
  Forall (fun c => c ∈ spaces) w -> is_byte c -> head_in [32; 93] rest ->
  exists bol', lexes (lx S_BYTESTRING bol (w ++ fmt_0x 2 c ++ rest) v) DT_BYTE
    (lx S_BYTESTRING bol' rest (VByte c)).
Proof.
  intros Hw Hc Hr. destruct (byte_text c Hc) as (Hm & Hs & Hne & Hh).
  exists (ends_bol (fmt_0x 2 c) false).
  eapply (lexes_text junk src dir depth [S_BYTESTRING]); [exact Hm|discriminate|by left|
    by apply (bool_decide_unpack _)|exact Hw|exact Hne|exact Hh|exact Hr|].
  intros bol'.
  change (lex_action junk src 15 ?x ?L) with
    (Done (A:=option Z * lexer) (Some DT_BYTE,
       set_yylval L (VByte (match strto 16 x with Some (_, v, _) => u8 v | None => 0 end)))).
  rewrite Hs. unfold u8. rewrite Z.mod_small by exact Hc. by rewrite (ends_bol_irrel _ bol' false).
Qed.
End Numbers.

(** ** Strings *)

Definition string_text (part : bytes) : bytes := concat (map string_char part).

(** What a string can hold: the characters that are printed as themselves or
    by a letter after a backslash. *)
Definition plain_char (c : Z) : Prop := isstring c = true /\ c <> 0.

Lemma string_char_cases c : plain_char c ->
  (string_char c = [c] /\ c <> 92 /\ c <> 34 /\ 32 <= c <= 126) \/
  (exists x, string_char c = [92; x] /\ 32 <= x <= 126 /\ forall r, get_escape_char (x :: r) = Done (c, r)).
Proof.
  intros [Hs H0]. unfold isstring, isprint in Hs. unfold string_char.
  repeat match goal with |- context [if c =? ?k then _ else _] =>
    destruct (Z.eqb_spec c k) as [->|?]; [right; eexists; split; [cbv; reflexivity|split; [lia|reflexivity]]|] end.
  left. unfold isprint. replace ((32 <=? c) && (c <=? 126)) with true by lia. split; [done|]. lia.
Qed.

Lemma string_text_len part : Forall plain_char part -> blen part <= blen (string_text part).
Proof.
  induction 1 as [|c part Hc Hp IH]; [done|]. unfold string_text in *. cbn [map concat].
  rewrite blen_app, blen_cons.
  destruct (string_char_cases c Hc) as [(-> & _)|(x & -> & _)]; rewrite ?blen_cons, blen_nil; lia.
Qed.

Lemma unescape_text part rest fuel :
  Forall plain_char part -> (length part < fuel)%nat ->
  unescape fuel (string_text part ++ rest) (blen (string_text part)) = Done part.
Proof.
  intros Hp. revert fuel. induction Hp as [|c part Hc Hp IH]; intros fuel Hf.
  - destruct fuel; [cbn in Hf; lia|]. done.
  - destruct fuel as [|fuel]; [cbn in Hf; lia|]. cbn [length] in Hf.
    unfold string_text in *. cbn [map concat]. fold (string_text part) in *.
    pose proof (blen_nonneg (string_text part)) as Hn. rewrite <- app_assoc, blen_app.
    specialize (IH fuel ltac:(lia)).
    destruct (string_char_cases c Hc) as [(-> & H92 & _)|(x & -> & _ & Hx)].
    + change (blen [c]) with 1. cbn [app unescape].
      replace (1 + blen (string_text part) <=? 0) with false by lia.
      replace (c =? 92) with false by lia. cbn [mbind outcome_bind].
      rewrite blen_cons.
      replace (1 + blen (string_text part) - (1 + blen (string_text part ++ rest) - blen (string_text part ++ rest)))
        with (blen (string_text part)) by lia.
      by rewrite IH.
    + change (blen [92; x]) with 2. cbn [app unescape].
      replace (2 + blen (string_text part) <=? 0) with false by lia.
      change (92 =? 92) with true. cbn iota. rewrite Hx. cbn [mbind outcome_bind].
      rewrite !blen_cons.
      replace (2 + blen (string_text part) - (1 + (1 + blen (string_text part ++ rest)) - blen (string_text part ++ rest)))
        with (blen (string_text part)) by lia.
      by rewrite IH.
Qed.

(** Inside a string the automaton stays in one state. *)
Lemma string_walk part st :
  Forall plain_char part -> st = 14 \/ st = 36 ->
  alive st (string_text part) = true /\ (yy_walk st (string_text part) = 14 \/ yy_walk st (string_text part) = 36).
Proof.
  intros Hp. revert st. induction Hp as [|c part Hc Hp IH]; intros st Hst; [done|].
  unfold string_text in *. cbn [map concat]. rewrite alive_app, yy_walk_app.
  assert (alive st (string_char c) = true /\ yy_walk st (string_char c) = 36) as [Ha Hw].
  { assert (is_byte c) as Hb.
    { destruct Hc as [Hs _]. unfold isstring, isprint in Hs. unfold is_byte. lia. }
    apply byte_list_ok in Hb.
    assert (forallb (fun c => negb (isstring c && negb (c =? 0)) ||
      alive 14 (string_char c) && alive 36 (string_char c) &&
      (yy_walk 14 (string_char c) =? 36) && (yy_walk 36 (string_char c) =? 36)) byte_list = true) as Hall
      by by vm_compute.
    apply (forallb_elem _ _ _ Hall) in Hb. destruct Hc as [Hs H0]. rewrite Hs in Hb.
    apply Z.eqb_neq in H0. rewrite H0 in Hb. cbn [negb andb orb] in Hb.
    apply andb_true_iff in Hb as [Hb H4]. apply andb_true_iff in Hb as [Hb H3].
    apply andb_true_iff in Hb as [H1 H2]. apply Z.eqb_eq in H3, H4.
    destruct Hst as [-> | ->]; by split. }
  rewrite Ha, Hw. apply IH. by right.
Qed.

Section Strings.
Context (junk : Z -> Z) (src : sources) `{Hashtab.CharSign} (dir : option path) (depth : Z).
Abbreviation lx := (scan_at dir depth).
Abbreviation lexes := (lexes junk src).

Lemma copy_escape_ok part rest :
  Forall plain_char part -> blen (string_text part) + 1 < 2 ^ 30 ->
  exists d, data_copy_escape_string junk (string_text part ++ rest) (blen (string_text part)) = Done d /\
    wf d /\ contents d = part ++ [0] /\ d_len d = blen part + 1 /\ d_markers d = [].
Proof.
  intros Hp Hl. pose proof (string_text_len part Hp) as Hlen. pose proof (blen_nonneg part) as Hp0.
  unfold data_copy_escape_string. rewrite int_ok by lia. cbn [mbind outcome_bind].
  destruct (grow_for_ok junk empty_data (blen (string_text part) + 1)) as (d & -> & H1 & _ & _ & H4 & _);
    [by split|lia|cbn [d_len empty_data]; lia|].
  cbn [mbind outcome_bind d_len empty_data] in *.
  rewrite unescape_text; [|done|rewrite length_app; unfold blen in Hlen; lia].
  cbn [mbind outcome_bind].
  assert (blen (part ++ [0]) = blen part + 1) as Hb by (rewrite blen_app; reflexivity).
  rewrite mwrite_Some by lia. cbn [defined mbind outcome_bind].
  eexists. split; [reflexivity|]. unfold wf, contents. cbn [d_len d_val d_markers].
  change (Z.to_nat 0) with 0%nat. rewrite take_0, app_nil_l, blen_app, Hb.
  split; [pose proof (blen_nonneg (drop (0 + length (part ++ [0])) (d_val d))); lia|].
  split; [|done]. rewrite take_app_length'; [done|]. unfold blen in *. lia.
Qed.

Lemma lexes_string bol w part rest v :
  Forall (fun c => c ∈ spaces) w -> Forall plain_char part -> blen (string_text part) + 1 < 2 ^ 30 ->
  head_in byte_list rest ->
  exists bol' d, lexes (lx S_V1 bol (w ++ ([34] ++ string_text part ++ [34]) ++ rest) v) DT_STRING
      (lx S_V1 bol' rest (VData d)) /\
    wf d /\ contents d = part ++ [0] /\ d_len d = blen part + 1 /\ d_markers d = [].
Proof.
  intros Hw Hp Hl Hr. set (text := [34] ++ string_text part ++ [34]).
  destruct (copy_escape_ok part ([34] ++ [0]) Hp Hl) as (d & Hd & Hwf & Hc & Hn & Hm).
  exists (ends_bol text false), d. split; [|done].
  eapply (lexes_token junk src dir depth _ _ _ _ _ _ 3);
    [by apply (bool_decide_unpack _)|exact Hw|discriminate|by apply (bool_decide_unpack (34 ∈ non_spaces))| |].
  - intros bol' _.
    assert (alive (bol_state S_V1 bol') [34] = true /\ yy_walk (bol_state S_V1 bol') [34] = 14) as [Ha1 Hw1]
      by (destruct bol'; by vm_compute).
    destruct (string_walk part 14 Hp) as [Ha2 Hw2]; [by left|].
    assert (alive (yy_walk 14 (string_text part)) [34] = true /\
      yy_walk (yy_walk 14 (string_text part)) [34] = 37) as [Ha3 Hw3]
      by (destruct Hw2 as [-> | ->]; by vm_compute).
    assert (yy_walk (bol_state S_V1 bol') text = 37) as Hwalk
      by (unfold text; by rewrite !yy_walk_app, Hw1).
    rewrite match_run; rewrite ?Hwalk; [reflexivity| |discriminate|].
    + unfold text. by rewrite !alive_app, Ha1, Hw1, Ha2, Ha3.
    + apply (stop_set_ok [37] byte_list); [by vm_compute|by left|exact Hr].
  - intros bol'.
    change (lex_action junk src 3 ?x ?M) with
      (d ← quoted junk x; Done (A:=option Z * lexer) (Some DT_STRING, set_yylval M (VData d))).
    unfold quoted. change (drop 1 text ++ [0]) with ((string_text part ++ [34]) ++ [0]).
    rewrite <- app_assoc.
    replace (blen text - 2) with (blen (string_text part)).
    2: { unfold text. rewrite !blen_app. change (blen [34]) with 1. lia. }
    rewrite Hd. cbn [mbind outcome_bind]. by rewrite (ends_bol_irrel _ bol' false).
Qed.

(** ** Keywords and the end *)

Lemma lexes_dts_v1 st bol rest v :
  st ∈ starts -> head_in byte_list rest ->
  exists bol', lexes (lx st bol (str "/dts-v1/" ++ rest) v) DT_V1 (lx S_V1 bol' rest v).
Proof.
  intros Hst Hr. exists (ends_bol (str "/dts-v1/") false).
  apply (lexes_text junk src dir depth starts st bol [] (str "/dts-v1/") rest v 4 byte_list);
    [by vm_compute|discriminate|exact Hst|exact Hst|apply Forall_nil_2|discriminate|
     by apply (bool_decide_unpack (47 ∈ non_spaces))|exact Hr|reflexivity].
Qed.

Lemma lexes_memreserve bol w rest v :
  Forall (fun c => c ∈ spaces) w -> head_in byte_list rest ->
  exists bol', lexes (lx S_PROPNODENAME bol (w ++ str "/memreserve/" ++ rest) v) DT_MEMRESERVE
    (lx S_V1 bol' rest v).
Proof.
  intros Hw Hr. exists (ends_bol (str "/memreserve/") false).
  apply (lexes_text junk src dir depth starts S_PROPNODENAME bol w (str "/memreserve/") rest v 6 byte_list);
    [by vm_compute|discriminate|by apply (bool_decide_unpack _)|by apply (bool_decide_unpack _)|exact Hw|discriminate|
     by apply (bool_decide_unpack (47 ∈ non_spaces))|exact Hr|reflexivity].
Qed.

Lemma lexes_bracket bol w rest v :
  Forall (fun c => c ∈ spaces) w -> head_in byte_list rest ->
  exists bol', lexes (lx S_BYTESTRING bol (w ++ str "]" ++ rest) v) 93 (lx S_V1 bol' rest v).
Proof.
  intros Hw Hr. exists (ends_bol (str "]") false).
  apply (lexes_text junk src dir depth [S_BYTESTRING] S_BYTESTRING bol w (str "]") rest v 16 byte_list);
    [by vm_compute|discriminate|by left|by apply (bool_decide_unpack _)|exact Hw|discriminate|
     by apply (bool_decide_unpack (93 ∈ non_spaces))|exact Hr|reflexivity].
Qed.

Lemma lexes_end st bol w v :
  st ∈ starts -> Forall (fun c => c ∈ spaces) w ->
  lexes (lx st bol w v) 0 (Lexer st [] v false depth).
Proof.
  intros Hst Hw fuel Hf. destruct fuel as [|[|fuel]]; [lia|lia|].
  destruct w as [|c w]; [done|].
  pose proof (yylex_space junk src dir depth (S fuel) st bol (c :: w) [] v Hst) as Hs.
  rewrite app_nil_r in Hs. rewrite Hs; [done|discriminate|exact Hw|exact I].
Qed.
End Strings.
