(* ===== verification/Dtsource.v ===== *)
(** The text of a tree as Treesource writes it, and its tokens: what the scanner
    of Dtlex makes of each form of a value, of properties, nodes and whole
    sources. *)
From S2P Require Import Prelude Stdio Dtdata Livetree Flattree Dtlex Dtparse Treesource Dtscan.
From S2P Require Hashtab.

(** ** Tokens *)

(** A token and what is known of its value. *)
Inductive stok :=
  | TString (part : bytes)
  | TLiteral (n : Z)
  | TByte (b : Z)
  | TName (s : bytes)
  | TCode (c : Z).

Definition tok_code (t : stok) : Z :=
  match t with
  | TString _ => DT_STRING
  | TLiteral _ => DT_LITERAL
  | TByte _ => DT_BYTE
  | TName _ => DT_PROPNODENAME
  | TCode c => c
  end.

(** A buffer that holds exactly [s], without markers. *)
Definition holds (d : data) (s : bytes) : Prop :=
  wf d /\ contents d = s /\ d_len d = blen s /\ d_markers d = [].

Definition tok_value (t : stok) (v : yystype) : Prop :=
  match t with
  | TString part => exists d, v = VData d /\ holds d (part ++ [0])
  | TLiteral n => v = VInteger n
  | TByte b => v = VByte b
  | TName s => v = VPropnodename s
  | TCode _ => True
  end.

(** ** The text of a value *)

Fixpoint sep_texts (sep : bytes) (ts : list bytes) : bytes :=
  match ts with
  | [] => []
  | [t] => t
  | t :: ts => t ++ sep ++ sep_texts sep ts
  end.

Definition cell_text (n : Z) : bytes := str "0x" ++ fmt_x n.
Definition cells_text (cells : list Z) : bytes := sep_texts (str " ") (map cell_text cells).
Definition hex_text (bs : bytes) : bytes := sep_texts (str " ") (map (fmt_0x 2) bs).
Definition quoted_text (part : bytes) : bytes := [34] ++ string_text part ++ [34].
Definition strings_text (parts : list bytes) : bytes := sep_texts [44; 32] (map quoted_text parts).

(** The tokens of strings with commas between. *)
Fixpoint string_toks (parts : list bytes) : list stok :=
  match parts with
  | [] => []
  | [p] => [TString p]
  | p :: ps => TString p :: TCode 44 :: string_toks ps
  end.

Fixpoint split_nul (s : bytes) : list bytes :=
  match s with
  | [] => [[]]
  | c :: s =>
      if c =? 0 then [] :: split_nul s
      else match split_nul s with p :: ps => (c :: p) :: ps | [] => [[c]] end
  end.

(** Cells, the high end of each first. *)
Fixpoint cells_of (s : bytes) : list Z :=
  match s with
  | a :: b :: c :: d :: s => be_val [a; b; c; d] :: cells_of s
  | _ => []
  end.

(** A value that is written as strings. *)
Definition stringish (s : bytes) : bool :=
  bool_decide (last s = Some 0) && (count (fun c => negb (isstring c)) s =? 0) &&
  (count (fun c => c =? 0) s <? blen s - count (fun c => c =? 0) s).

Definition value_toks (s : bytes) : list stok :=
  match s with
  | [] => []
  | _ =>
      TCode 61 ::
      if stringish s then string_toks (split_nul (removelast s))
      else if blen s mod 4 =? 0 then TCode 60 :: map TLiteral (cells_of s) ++ [TCode 62]
      else TCode 91 :: map TByte s ++ [TCode 93]
  end.

Definition value_text (s : bytes) : bytes :=
  match s with
  | [] => []
  | _ =>
      str " = " ++
      if stringish s then strings_text (split_nul (removelast s))
      else if blen s mod 4 =? 0 then [60] ++ cells_text (cells_of s) ++ [62]
      else [91] ++ hex_text s ++ [93]
  end.

Lemma split_nul_ne s : split_nul s <> [].
Proof. destruct s as [|c s]; cbn; [done|]. destruct (c =? 0); [done|]. by destruct (split_nul s). Qed.

Lemma split_nul_join s : concat (map (fun p => p ++ [0]) (split_nul s)) = s ++ [0].
Proof.
  induction s as [|c s IH]; [done|]. cbn [split_nul]. destruct (Z.eqb_spec c 0) as [->|Hc].
  - cbn [map concat app]. by rewrite IH.
  - destruct (split_nul s) as [|p ps] eqn:E; [by apply split_nul_ne in E|].
    cbn [map concat app] in *. by rewrite IH.
Qed.

Lemma split_nul_parts s : Forall (fun c => isstring c = true) s -> Forall (Forall plain_char) (split_nul s).
Proof.
  induction 1 as [|c s Hc Hs IH]; [by repeat constructor|]. cbn [split_nul].
  destruct (Z.eqb_spec c 0) as [->|Hne]; [by constructor|].
  destruct (split_nul s) as [|p ps]; [by repeat constructor|].
  apply Forall_cons in IH as [Hp Hps]. constructor; [|done]. by constructor.
Qed.

Lemma split_nul_len s p : p ∈ split_nul s -> blen p <= blen s.
Proof.
  revert p. induction s as [|c s IH]; intros p Hp.
  - cbn in Hp. apply list_elem_of_singleton in Hp as ->. done.
  - cbn [split_nul] in Hp. rewrite blen_cons. destruct (c =? 0).
    + apply elem_of_cons in Hp as [->|Hp]; [pose proof (blen_nonneg s); rewrite blen_nil; lia|].
      specialize (IH _ Hp). lia.
    + destruct (split_nul s) as [|q ps] eqn:E.
      * apply list_elem_of_singleton in Hp as ->. pose proof (blen_nonneg s). rewrite blen_cons, blen_nil. lia.
      * apply elem_of_cons in Hp as [->|Hp].
        -- rewrite blen_cons. specialize (IH q ltac:(by left)). lia.
        -- specialize (IH p ltac:(by right)). lia.
Qed.

Lemma string_text_short p : Forall plain_char p -> blen (string_text p) <= 2 * blen p.
Proof.
  induction 1 as [|c p Hc Hp IH]; [done|]. unfold string_text in *. cbn [map concat].
  rewrite blen_app, blen_cons.
  destruct (string_char_cases c Hc) as [(-> & _)|(x & -> & _)]; rewrite ?blen_cons, blen_nil; lia.
Qed.

Lemma quotes_outside ts :
  ts <> [] -> [34] ++ sep_texts [34; 44; 32; 34] (map string_text ts) ++ [34] = strings_text ts.
Proof.
  induction ts as [|t ts IH]; [done|]. intros _. destruct ts as [|u ts]; [done|].
  specialize (IH ltac:(done)). unfold strings_text in *.
  change (sep_texts [44; 32] (map quoted_text (t :: u :: ts))) with
    (quoted_text t ++ [44; 32] ++ sep_texts [44; 32] (map quoted_text (u :: ts))).
  rewrite <- IH. change (sep_texts [34; 44; 32; 34] (map string_text (t :: u :: ts))) with
    (string_text t ++ [34; 44; 32; 34] ++ sep_texts [34; 44; 32; 34] (map string_text (u :: ts))).
  unfold quoted_text. by rewrite <- !app_assoc.
Qed.

Lemma string_chars_ok s i :
  string_chars i s [] = Done (sep_texts [34; 44; 32; 34] (map string_text (split_nul s)), []).
Proof.
  revert i. induction s as [|c s IH]; intros i; [done|]. cbn [string_chars split_nul].
  destruct (Z.eqb_spec c 0) as [->|Hc]; cbn [mbind outcome_bind pass_markers]; rewrite IH; cbn [mbind outcome_bind].
  - destruct (split_nul s) as [|p ps] eqn:E; [by apply split_nul_ne in E|]. done.
  - destruct (split_nul s) as [|p ps] eqn:E; [by apply split_nul_ne in E|].
    destruct ps as [|q ps]; cbn [map sep_texts].
    + done.
    + change (string_text (c :: p)) with (string_char c ++ string_text p). by rewrite <- app_assoc.
Qed.

Lemma mread_sub f off n s : contents f = s -> wf f -> 0 <= off -> 0 <= n -> off + n <= blen s ->
  mread (d_val f) off n = Some (take (Z.to_nat n) (drop (Z.to_nat off) s)).
Proof.
  intros Hc [Hl Hv] Ho Hn Hb. unfold contents in Hc. subst s.
  assert (off + n <= d_len f) by (unfold blen in Hb; rewrite length_take in Hb; lia).
  rewrite mread_Some by lia. f_equal. rewrite !take_drop_commute, take_take.
  f_equal. f_equal. lia.
Qed.

Lemma cells_loop_ok d s : contents d = s -> wf d -> blen s = d_len d ->
  forall (k : nat) cp fuel, 0 <= cp -> cp + 4 * Z.of_nat (S k) = blen s -> (k < fuel)%nat ->
  cells_loop fuel (d_val d) cp (d_len d) [] =
    Done (cells_text (cells_of (drop (Z.to_nat cp) s)), []).
Proof.
  intros Hc Hw Hl k. induction k as [|k IH]; intros cp fuel Hcp He Hf; destruct fuel as [|fuel]; try lia.
  all: cbn [cells_loop pass_markers mbind outcome_bind].
  all: rewrite (mread_sub d cp 4 s) by (done || lia); cbn [defined mbind outcome_bind].
  all: destruct (drop (Z.to_nat cp) s) as [|a [|b [|c [|e r]]]] eqn:E;
    apply (f_equal length) in E as El; rewrite length_drop in El; unfold blen in *; cbn [length] in El; try lia.
  all: change (take (Z.to_nat 4) (a :: b :: c :: e :: r)) with [a; b; c; e].
  - replace (d_len d <=? cp + 4) with true by lia. destruct r; [done|cbn [length] in El; lia].
  - replace (d_len d <=? cp + 4) with false by lia.
    rewrite (IH (cp + 4) fuel) by lia. cbn [mbind outcome_bind].
    replace (Z.to_nat (cp + 4)) with (Z.to_nat cp + 4)%nat by lia.
    rewrite <- drop_drop, E. change (drop 4 (a :: b :: c :: e :: r)) with r.
    cbn [cells_of]. destruct (cells_of r) as [|x xs] eqn:Ex; [|by rewrite <- !app_assoc].
    exfalso. destruct r as [|? [|? [|? [|? ?]]]]; cbn [length cells_of] in *; (done || lia).
Qed.

Lemma bytes_loop_ok d s : contents d = s -> wf d -> blen s = d_len d ->
  forall (k : nat) bp fuel, 0 <= bp -> bp + Z.of_nat (S k) = blen s -> (k < fuel)%nat ->
  bytes_loop fuel (d_val d) bp (d_len d) [] = Done (hex_text (drop (Z.to_nat bp) s), []).
Proof.
  intros Hc Hw Hl k. induction k as [|k IH]; intros bp fuel Hbp He Hf; destruct fuel as [|fuel]; try lia.
  all: cbn [bytes_loop pass_markers mbind outcome_bind].
  all: rewrite (mread_sub d bp 1 s) by (done || lia); cbn [defined mbind outcome_bind].
  all: destruct (drop (Z.to_nat bp) s) as [|a r] eqn:E;
    apply (f_equal length) in E as El; rewrite length_drop in El; unfold blen in *; cbn [length] in El; try lia.
  all: change (take (Z.to_nat 1) (a :: r)) with [a]; change (le_val [a]) with (a + 256 * 0);
    rewrite Z.mul_0_r, Z.add_0_r.
  - replace (d_len d <=? bp + 1) with true by lia. destruct r; [done|cbn [length] in El; lia].
  - replace (d_len d <=? bp + 1) with false by lia.
    rewrite (IH (bp + 1) fuel) by lia. cbn [mbind outcome_bind].
    replace (Z.to_nat (bp + 1)) with (Z.to_nat bp + 1)%nat by lia.
    rewrite <- drop_drop, E. change (drop 1 (a :: r)) with r.
    destruct r as [|x r]; [cbn [length] in El; lia|]. by rewrite <- !app_assoc.
Qed.

Lemma write_propval_ok p : wf (p_val p) -> d_markers (p_val p) = [] ->
  write_propval p = Done (value_text (contents (p_val p)) ++ [59; 10]).
Proof.
  intros Hw Hm. set (d := p_val p) in *. unfold write_propval. fold d.
  pose proof (contents_blen d Hw) as Hl. set (s := contents d) in *.
  assert (contents d = s) as Hs by done.
  destruct (Z.eqb_spec (d_len d) 0) as [Hz|Hz].
  { destruct s as [|c s']; [done|]. rewrite blen_cons in Hl. pose proof (blen_nonneg s'). lia. }
  rewrite (contents_read d Hw), Hm. cbn [defined mbind outcome_bind count_labels]. fold s.
  destruct s as [|c0 s0] eqn:Es; [rewrite blen_nil in Hl; lia|]. rewrite <- Es in *. clear c0 s0 Es.
  assert (s <> []) as Hne by (intros ->; rewrite blen_nil in Hl; lia).
  assert (forall t, match s with [] => [] | _ => str " = " ++ t end = str " = " ++ t) as Hmatch
    by (intros; by destruct s).
  unfold value_text. rewrite Hmatch.
  rewrite <- Hl. rewrite andb_true_r. fold (stringish s).
  destruct (stringish s) eqn:Hstr.
  - unfold write_propval_string. rewrite Hm.
    apply andb_true_iff in Hstr as [Hstr _]. apply andb_true_iff in Hstr as [Hlast _].
    apply bool_decide_eq_true, last_Some in Hlast as [s1 Hs1].
    assert (blen s = blen s1 + 1) as Hl1 by (rewrite Hs1, blen_app; done).
    pose proof (blen_nonneg s1).
    rewrite (mread_sub d (d_len d - 1) 1 s) by (done || lia).
    rewrite (mread_sub d 0 (d_len d - 1) s) by (done || lia).
    change (Z.to_nat 0) with 0%nat. rewrite drop_0.
    replace (Z.to_nat (d_len d - 1)) with (length s1) by (unfold blen in *; lia).
    rewrite Hs1, drop_app_length, take_app_length, removelast_last.
    cbn [defined mbind outcome_bind]. rewrite bool_decide_true by done.
    cbn [pass_markers mbind outcome_bind]. rewrite string_chars_ok.
    cbn [mbind outcome_bind trailing_labels]. rewrite app_nil_r, app_nil_l.
    rewrite quotes_outside by apply split_nul_ne. by rewrite <- !app_assoc.
  - rewrite andb_true_r. destruct (Z.eqb_spec (blen s mod 4) 0) as [H4|H4].
    + unfold write_propval_cells. rewrite Hm.
      assert (exists k, blen s = 4 * Z.of_nat (S k)) as [k Hk].
      { exists (Z.to_nat (blen s / 4) - 1)%nat. pose proof (blen_nonneg s).
        assert (1 <= blen s / 4) by (apply Z.div_le_lower_bound; [lia|]; zlia). zlia. }
      rewrite (cells_loop_ok d s) with (k := k) by (done || lia).
      cbn [mbind outcome_bind trailing_labels]. change (Z.to_nat 0) with 0%nat. rewrite drop_0.
      by rewrite <- !app_assoc.
    + unfold write_propval_bytes. rewrite Hm.
      rewrite (bytes_loop_ok d s) with (k := (length s - 1)%nat);
        [|done|done|done|lia|destruct s; [done|unfold blen in *; cbn [length] in *; lia]|unfold blen in *; lia].
      cbn [mbind outcome_bind trailing_labels]. change (Z.to_nat 0) with 0%nat. rewrite drop_0.
      by rewrite <- !app_assoc.
Qed.

Lemma count_zero f (s : bytes) : count f s = 0 -> Forall (fun c => f c = false) s.
Proof.
  unfold count. induction s as [|c s IH]; [constructor|]. cbn [List.filter].
  destruct (f c) eqn:E.
  - rewrite blen_cons. pose proof (blen_nonneg (List.filter f s)). lia.
  - intros Hc. constructor; [done|by apply IH].
Qed.

Lemma stringish_split s : stringish s = true ->
  exists s1, s = s1 ++ [0] /\ removelast s = s1 /\ Forall (fun c => isstring c = true) s1.
Proof.
  intros Hs. apply andb_true_iff in Hs as [Hs _]. apply andb_true_iff in Hs as [Hl Hc].
  apply bool_decide_eq_true, last_Some in Hl as [s1 ->]. exists s1.
  split; [done|]. split; [apply removelast_last|].
  apply Z.eqb_eq, count_zero, Forall_app in Hc as [Hc _].
  eapply Forall_impl; [exact Hc|]. intros c Hb. by apply negb_false_iff in Hb.
Qed.

Lemma cells_of_u32 s : Forall is_byte s -> Forall is_u32 (cells_of s).
Proof.
  remember (length s) as n eqn:Hn. revert s Hn.
  induction (lt_wf n) as [n _ IH]. intros s -> Hs.
  destruct s as [|a [|b [|c [|d s]]]]; try apply Forall_nil_2.
  cbn [cells_of]. rewrite !Forall_cons in Hs. destruct Hs as (Ha & Hb & Hc & Hd & Hs).
  constructor.
  - unfold is_u32, be_val. cbn [rev app]. unfold is_byte in *. cbn [le_val]. pow2. lia.
  - eapply (IH (length s)); [cbn [length]; lia|done|done].
Qed.

Lemma cells_of_ne s : s <> [] -> blen s mod 4 = 0 -> cells_of s <> [].
Proof.
  intros Hne H4. destruct s as [|a [|b [|c [|d s]]]]; try done; by cbn in H4.
Qed.

(** ** Scanning *)

Section Source.
Context (junk : Z -> Z) (src : sources) `{Hashtab.CharSign} (dir : option path) (depth : Z).
Abbreviation lx := (scan_at dir depth).
Abbreviation lexes := (lexes junk src).

(** Calls of [yylex] give these tokens. *)
Inductive tokens : lexer -> list stok -> lexer -> Prop :=
  | tokens_nil L : tokens L [] L
  | tokens_cons L t L1 ts L2 :
      lexes L (tok_code t) L1 -> tok_value t (yylval L1) -> tokens L1 ts L2 -> tokens L (t :: ts) L2.

Lemma tokens_app L a L1 b L2 : tokens L a L1 -> tokens L1 b L2 -> tokens L (a ++ b) L2.
Proof. induction 1; intros; [done|]. cbn [app]. econstructor; eauto. Qed.

(** ** The three forms of a value *)

Lemma space_one : Forall (fun c => c ∈ spaces) (str " ").
Proof. by apply (bool_decide_unpack _). Qed.

Lemma scan_cells cells : cells <> [] -> Forall is_u32 cells ->
  forall bol w rest v, Forall (fun c => c ∈ spaces) w ->
  exists bol' v', tokens (lx S_V1 bol (w ++ cells_text cells ++ [62] ++ 59 :: rest) v)
    (map TLiteral cells ++ [TCode 62]) (lx S_V1 bol' (59 :: rest) v').
Proof.
  intros Hne Hc. induction Hc as [|n cells Hn Hc IH]; [done|]. clear Hne. intros bol w rest v Hw.
  assert (is_u64 n) as Hn64 by (unfold is_u32, is_u64 in *; lia).
  destruct cells as [|m cells].
  - destruct (lexes_literal junk src dir depth bol w (fmt_x n) n ([62] ++ 59 :: rest) v Hw
      (fmt_x_digits n Hn64) Hn64) as [bol1 L1]; [by apply (bool_decide_unpack (62 ∈ [32; 59; 62]))|].
    exists false, (VInteger n). cbn [map app].
    eapply tokens_cons; [exact L1|reflexivity|]. eapply tokens_cons; [|exact I|apply tokens_nil].
    apply (lexes_char junk src dir depth [S_V1] S_V1 bol1 [] 62 (59 :: rest) _ [59]);
      [by vm_compute|by left|by apply (bool_decide_unpack _)|apply Forall_nil_2|by apply (bool_decide_unpack _)|lia|by left].
  - assert (cells_text (n :: m :: cells) = cell_text n ++ str " " ++ cells_text (m :: cells)) as E by done.
    rewrite E. unfold cell_text.
    destruct (lexes_literal junk src dir depth bol w (fmt_x n) n (str " " ++ cells_text (m :: cells) ++ [62] ++ 59 :: rest)
      v Hw (fmt_x_digits n Hn64) Hn64) as [bol1 L1]; [by apply (bool_decide_unpack (32 ∈ [32; 59; 62]))|].
    destruct (IH ltac:(done) bol1 (str " ") rest (VInteger n) space_one) as (bol2 & v2 & T).
    exists bol2, v2. cbn [map app]. refine (tokens_cons _ _ _ _ _ _ _ T); [|reflexivity].
    rewrite <- !app_assoc in *. exact L1.
Qed.

Lemma scan_hex_bytes bs : bs <> [] -> Forall is_byte bs ->
  forall bol w rest v, Forall (fun c => c ∈ spaces) w -> head_in byte_list rest ->
  exists bol' v', tokens (lx S_BYTESTRING bol (w ++ hex_text bs ++ str "]" ++ rest) v)
    (map TByte bs ++ [TCode 93]) (lx S_V1 bol' rest v').
Proof.
  intros Hne Hb. induction Hb as [|b bs Hb Hbs IH]; [done|]. clear Hne. intros bol w rest v Hw Hr.
  destruct bs as [|c bs].
  - destruct (lexes_byte junk src dir depth bol w b (str "]" ++ rest) v Hw Hb) as [bol1 L1];
      [by apply (bool_decide_unpack (93 ∈ [32; 93]))|].
    destruct (lexes_bracket junk src dir depth bol1 [] rest (VByte b) (Forall_nil_2 _) Hr) as [bol2 L2].
    exists bol2, (VByte b). cbn [map app].
    eapply tokens_cons; [exact L1|reflexivity|]. eapply tokens_cons; [exact L2|exact I|apply tokens_nil].
  - assert (hex_text (b :: c :: bs) = fmt_0x 2 b ++ str " " ++ hex_text (c :: bs)) as -> by done.
    destruct (lexes_byte junk src dir depth bol w b (str " " ++ hex_text (c :: bs) ++ str "]" ++ rest) v Hw Hb) as [bol1 L1];
      [by apply (bool_decide_unpack (32 ∈ [32; 93]))|].
    destruct (IH ltac:(done) bol1 (str " ") rest (VByte b) space_one Hr) as (bol2 & v2 & T).
    exists bol2, v2. cbn [map app]. refine (tokens_cons _ _ _ _ _ _ _ T); [|reflexivity].
    rewrite <- !app_assoc in *. exact L1.
Qed.

Definition good_part (p : bytes) : Prop := Forall plain_char p /\ blen (string_text p) + 1 < 2 ^ 30.

Lemma scan_strings parts : parts <> [] -> Forall good_part parts ->
  forall bol w rest v, Forall (fun c => c ∈ spaces) w -> head_in byte_list rest ->
  exists bol' v', tokens (lx S_V1 bol (w ++ strings_text parts ++ rest) v) (string_toks parts)
    (lx S_V1 bol' rest v').
Proof.
  intros Hne Hp. induction Hp as [|p parts [Hp Hl] Hps IH]; [done|]. clear Hne. intros bol w rest v Hw Hr.
  destruct parts as [|q parts].
  - destruct (lexes_string junk src dir depth bol w p rest v Hw Hp Hl Hr)
      as (bol1 & d & L1 & Hd).
    exists bol1, (VData d). eapply tokens_cons; [exact L1| |apply tokens_nil].
    exists d. split; [done|]. unfold holds. rewrite blen_app. exact Hd.
  - set (more := strings_text (q :: parts)) in *.
    assert (strings_text (p :: q :: parts) = quoted_text p ++ [44; 32] ++ more) as -> by done.
    destruct (lexes_string junk src dir depth bol w p ([44; 32] ++ more ++ rest) v Hw Hp Hl) as (bol1 & d & L1 & Hd);
      [by apply (bool_decide_unpack (44 ∈ byte_list))|].
    destruct (IH ltac:(done) false (str " ") rest (VData d) space_one Hr) as (bol2 & v2 & T).
    exists bol2, v2. refine (tokens_cons _ _ (lx S_V1 bol1 ([44; 32] ++ more ++ rest) (VData d)) _ _ _ _
      (tokens_cons _ (TCode 44) _ _ _ _ I T)).
    + rewrite <- !app_assoc. exact L1.
    + exists d. split; [done|]. unfold holds. rewrite blen_app. exact Hd.
    + apply (lexes_char junk src dir depth [S_V1] S_V1 bol1 [] 44 (str " " ++ more ++ rest) _ [32]);
        [by vm_compute|by left|by apply (bool_decide_unpack _)|apply Forall_nil_2|by apply (bool_decide_unpack _)|lia|by left].
Qed.

(** ** Scanning a value *)

Lemma scan_value s : Forall is_byte s -> blen s < 2 ^ 28 ->
  forall bol rest v, head_in byte_list rest ->
  exists bol' v', tokens (lx S_V1 bol (value_text s ++ [59] ++ rest) v)
    (value_toks s ++ [TCode 59]) (lx S_PROPNODENAME bol' rest v').
Proof.
  intros Hb Hl bol rest v Hr. destruct (decide (s = [])) as [->|Hne].
  { exists false, v. cbn [value_text value_toks app]. eapply tokens_cons; [|exact I|apply tokens_nil].
    apply (lexes_char junk src dir depth [S_V1] S_V1 bol [] 59 rest _ byte_list);
      [by vm_compute|by left|by apply (bool_decide_unpack _)|apply Forall_nil_2|by apply (bool_decide_unpack _)|lia|
       exact Hr]. }
  assert (forall bol v, tokens (lx S_V1 bol ([59] ++ rest) v) [TCode 59] (lx S_PROPNODENAME false rest v)) as Hsemi.
  { intros b u. eapply tokens_cons; [|exact I|apply tokens_nil].
    apply (lexes_char junk src dir depth [S_V1] S_V1 b [] 59 rest _ byte_list);
      [by vm_compute|by left|by apply (bool_decide_unpack _)|apply Forall_nil_2|by apply (bool_decide_unpack _)|lia|
       exact Hr]. }
  assert (head_in byte_list ([59] ++ rest)) as Hsr by by apply (bool_decide_unpack (59 ∈ byte_list)).
  assert (forall text, lexes (lx S_V1 bol (str " = " ++ text) v) 61 (lx S_V1 false (str " " ++ text) v)) as Heq.
  { intros text. apply (lexes_char junk src dir depth [S_V1] S_V1 bol (str " ") 61 (str " " ++ text) _ [32]);
      [by vm_compute|by left|by apply (bool_decide_unpack _)|apply space_one|by apply (bool_decide_unpack _)|lia|by left]. }
  unfold value_text, value_toks. destruct s as [|c0 s0] eqn:Es; [done|]. rewrite <- Es in *. clear c0 s0 Es.
  destruct (stringish s) eqn:Hstr.
  - destruct (stringish_split s Hstr) as (s1 & E & -> & Hs1).
    destruct (scan_strings (split_nul s1) (split_nul_ne s1)) with (bol := false) (w := str " ") (rest := [59] ++ rest) (v := v)
      as (bol1 & v1 & T).
    + apply Forall_forall. intros p Hp. pose proof (split_nul_parts s1 Hs1) as Hparts.
      rewrite Forall_forall in Hparts. specialize (Hparts p Hp). split; [done|].
      pose proof (string_text_short p Hparts). pose proof (split_nul_len s1 p Hp).
      assert (blen s = blen s1 + 1) by (rewrite E, blen_app; done). lia.
    + apply space_one.
    + done.
    + exists false, v1. eapply tokens_app; [|apply Hsemi].
      refine (tokens_cons _ (TCode 61) _ _ _ _ I T). rewrite <- app_assoc. apply Heq.
  - destruct (Z.eqb_spec (blen s mod 4) 0) as [H4|H4].
    + destruct (scan_cells (cells_of s) (cells_of_ne s Hne H4) (cells_of_u32 s Hb)) with
        (bol := false) (w := @nil Z) (rest := rest) (v := v) as (bol1 & v1 & T); [apply Forall_nil_2|].
      exists false, v1. eapply tokens_app; [|apply Hsemi].
      refine (tokens_cons _ (TCode 61) _ _ _ _ I (tokens_cons _ (TCode 60) _ _ _ _ I T)).
      * rewrite <- app_assoc. apply Heq.
      * rewrite <- !app_assoc.
        apply (lexes_char junk src dir depth [S_V1] S_V1 false (str " ") 60 _ _ [48]);
          [by vm_compute|by left|by apply (bool_decide_unpack _)|apply space_one|by apply (bool_decide_unpack _)|lia|].
        pose proof (cells_of_ne s Hne H4). destruct (cells_of s) as [|x [|y xs]]; [done|by left|by left].
    + destruct (scan_hex_bytes s Hne Hb) with
        (bol := false) (w := @nil Z) (rest := [59] ++ rest) (v := v) as (bol1 & v1 & T); [apply Forall_nil_2|done|].
      exists false, v1. eapply tokens_app; [|apply Hsemi].
      refine (tokens_cons _ (TCode 61) _ _ _ _ I (tokens_cons _ (TCode 91) _ _ _ _ I T)).
      * rewrite <- app_assoc. apply Heq.
      * rewrite <- !app_assoc.
        apply (lexes_char junk src dir depth [S_V1] S_V1 false (str " ") 91 _ _ byte_list);
          [by vm_compute|by left|by apply (bool_decide_unpack _)|apply space_one|by apply (bool_decide_unpack _)|lia|].
        destruct s as [|x xs]; [done|]. apply Forall_cons in Hb as [Hx _].
        destruct (byte_text x Hx) as (_ & _ & Hxn & _).
        assert (exists y t, fmt_0x 2 x = y :: t /\ y ∈ byte_list) as (y & t & Ey & Hy).
        { destruct (fmt_0x_digits 2 x) as (Hd & Hn0 & _); [unfold is_byte, is_u64 in *; lia|].
          destruct (fmt_0x 2 x) as [|y t]; [done|]. exists y, t. split; [done|].
          apply Forall_cons in Hd as [Hd _]. apply byte_list_ok. unfold is_digit_char, is_byte in *. lia. }
        unfold hex_text. destruct xs; cbn [map sep_texts]; by rewrite Ey.
Qed.

End Source.

(** ** Trees that can be written and read back *)

Definition good_name (s : bytes) : bool :=
  negb (bool_decide (s = [])) && forallb (fun c => bool_decide (c ∈ name_chars)) s.

(** What is read from a blob has neither labels nor markers. *)
Definition source_property (p : property) : bool :=
  good_name (p_name p) && bool_decide (p_labels p = []) && bool_decide (d_markers (p_val p) = []) &&
  (0 <=? d_len (p_val p)) && (d_len (p_val p) <=? blen (d_val (p_val p))) && (d_len (p_val p) <? 2 ^ 28) &&
  forallb (fun c => (0 <=? c) && (c <? 256)) (contents (p_val p)).

Fixpoint source_node (n : node) : bool :=
  bool_decide (n_labels n = []) && match n_name n with Some _ => true | None => false end &&
  forallb source_property (live_properties n) &&
  forallb (fun c => n_deleted c || (good_name (default [] (n_name c)) && source_node c)) (children n).

Lemma good_name_spec s : good_name s = true -> s <> [] /\ Forall (fun c => c ∈ name_chars) s.
Proof.
  intros Hs. apply andb_true_iff in Hs as [Hne Hc]. apply negb_true_iff, bool_decide_eq_false in Hne.
  split; [done|]. apply Forall_forall. intros c Hin. apply (forallb_elem _ _ _ Hc) in Hin.
  by apply bool_decide_eq_true in Hin.
Qed.

Record property_ok (p : property) : Prop := {
  po_name : p_name p <> [] /\ Forall (fun c => c ∈ name_chars) (p_name p);
  po_labels : p_labels p = [];
  po_markers : d_markers (p_val p) = [];
  po_wf : wf (p_val p);
  po_len : blen (contents (p_val p)) < 2 ^ 28;
  po_bytes : Forall is_byte (contents (p_val p))
}.

Lemma source_property_ok p : source_property p = true -> property_ok p.
Proof.
  unfold source_property. rewrite !andb_true_iff. intros ((((((Hn & Hl) & Hm) & H1) & H2) & H3) & Hb).
  apply bool_decide_eq_true in Hl, Hm.
  assert (wf (p_val p)) as Hw by (unfold wf; lia).
  split; [by apply good_name_spec|done|done|done| |].
  - rewrite (contents_blen _ Hw). lia.
  - by apply is_byte_check.
Qed.

Record node_ok (n : node) : Prop := {
  no_labels : n_labels n = [];
  no_name : is_Some (n_name n);
  no_props : Forall property_ok (live_properties n);
  no_children : Forall (fun c => n_deleted c = false /\ source_node c = true /\
    exists s, n_name c = Some s /\ s <> [] /\ Forall (fun c => c ∈ name_chars) s) (live_children n)
}.

Lemma source_node_ok n : source_node n = true -> node_ok n.
Proof.
  destruct n as [d nm ps cs fp bl ph ls]. cbn [source_node n_labels n_name children].
  rewrite !andb_true_iff. intros (((Hl & Hn) & Hp) & Hc). apply bool_decide_eq_true in Hl.
  split; cbn [n_labels n_name].
  - done.
  - by destruct nm.
  - apply Forall_forall. intros p Hin. apply source_property_ok.
    rewrite forallb_forall in Hp. apply Hp. by apply list_elem_of_In.
  - apply Forall_forall. intros c Hin. unfold live_children in Hin. cbn [children] in Hin.
    apply list_elem_of_In, filter_In in Hin as [Hin Hd]. apply negb_true_iff in Hd.
    rewrite forallb_forall in Hc. specialize (Hc c Hin). rewrite Hd in Hc. cbn [orb] in Hc.
    apply andb_true_iff in Hc as [Hgn Hs]. split; [done|]. split; [done|].
    apply good_name_spec in Hgn as [Hne Hchars].
    destruct (n_name c) as [s|]; [|done]. by exists s.
Qed.

(** ** Texts and tokens of a tree *)

Definition property_toks (p : property) : list stok :=
  TName (p_name p) :: value_toks (contents (p_val p)) ++ [TCode 59].

Fixpoint node_toks (n : node) : list stok :=
  TCode 123 :: concat (map property_toks (live_properties n)) ++
  (fix children_toks (l : list node) : list stok :=
     match l with
     | [] => []
     | c :: l =>
         if n_deleted c then children_toks l
         else TName (default [] (n_name c)) :: node_toks c ++ children_toks l
     end) (children n) ++ [TCode 125; TCode 59].

Definition child_toks (c : node) : list stok := TName (default [] (n_name c)) :: node_toks c.

Lemma node_toks_unfold n :
  node_toks n = TCode 123 :: concat (map property_toks (live_properties n)) ++
    concat (map child_toks (live_children n)) ++ [TCode 125; TCode 59].
Proof.
  destruct n as [d nm ps cs fp bl ph ls]. cbn [node_toks]. do 3 f_equal.
  unfold live_children. cbn [children].
  induction cs as [|c cs IH]; [done|]. cbn [List.filter]. destruct (n_deleted c); cbn [negb map concat]; [done|].
  unfold child_toks at 1. cbn [app]. by rewrite IH.
Qed.

Definition property_text (level : nat) (p : property) : bytes :=
  write_prefix (S level) ++ p_name p ++ value_text (contents (p_val p)) ++ [59].

Lemma write_properties_ok level ps : Forall property_ok ps ->
  write_properties level ps = Done (concat (map (fun p => property_text level p ++ [10]) ps)).
Proof.
  induction 1 as [|p ps Hp Hps IH]; [done|]. cbn [write_properties map concat].
  rewrite (write_propval_ok p (po_wf _ Hp) (po_markers _ Hp)). cbn [mbind outcome_bind].
  rewrite IH. cbn [mbind outcome_bind]. rewrite (po_labels _ Hp). f_equal.
  unfold property_text. change (labels_text []) with (@nil Z). by rewrite <- ?app_assoc.
Qed.

Lemma write_node_unfold n level :
  write_tree_source_node n level =
    (let name := match n_name n with Some (c :: s) => (c :: s) ++ str " {" | _ => str "/ {" end in
     ps ← write_properties level (live_properties n);
     cs ← foldr (fun c r => t ← write_tree_source_node c (S level); r ← r; Done ([10] ++ t ++ r)) (Done [])
            (live_children n);
     Done (write_prefix level ++ labels_text (n_labels n) ++ name ++ [10] ++ ps ++ cs ++
           write_prefix level ++ str "};" ++ [10])).
Proof.
  destruct n as [d nm ps cs fp bl ph ls]. cbn [write_tree_source_node n_name children n_labels].
  destruct (write_properties _ _) as [x| | |]; try done. cbn [mbind outcome_bind].
  assert (forall l, (fix write_children (l : list node) : outcome bytes :=
          match l with
          | [] => Done []
          | c :: l =>
              if n_deleted c then write_children l
              else
                t ← write_tree_source_node c (S level);
                r ← write_children l;
                Done ([10] ++ t ++ r)
          end) l = foldr (fun c r => t ← write_tree_source_node c (S level); r ← r; Done ([10] ++ t ++ r)) (Done [])
            (List.filter (fun x => negb (n_deleted x)) l)) as Hf.
  { induction l as [|c l IH]; [done|]. cbn [List.filter]. destruct (n_deleted c); cbn [negb foldr]; [done|].
    by rewrite IH. }
  rewrite Hf. done.
Qed.

(** Line ends move from the end of each text to the beginning of the next. *)
Lemma shift_newlines {A} (f : A -> bytes) l :
  [10] ++ concat (map (fun x => f x ++ [10]) l) = concat (map (fun x => [10] ++ f x) l) ++ [10].
Proof.
  induction l as [|x l IH]; [done|]. cbn [map concat]. rewrite <- !app_assoc, <- IH. done.
Qed.

(** ** Whole sources *)

Definition source_reserve (r : reserve_info) : bool :=
  bool_decide (re_labels r = []) && (0 <=? re_address r) && (re_address r <? 2 ^ 64) &&
  (0 <=? re_size r) && (re_size r <? 2 ^ 64).

(** What can be written and read back: no labels, names the scanner takes, the
    root without a name. *)
Definition source_info (d : dt_info) : bool :=
  source_node (dt d) && bool_decide (n_name (dt d) = Some []) && forallb source_reserve (reservelist d).

Definition reserve_toks (r : reserve_info) : list stok :=
  [TCode DT_MEMRESERVE; TLiteral (re_address r); TLiteral (re_size r); TCode 59].

Definition source_toks (d : dt_info) : list stok :=
  TCode DT_V1 :: TCode 59 :: concat (map reserve_toks (reservelist d)) ++ TCode 47 :: node_toks (dt d).

Record reserve_ok (r : reserve_info) : Prop := {
  ro_labels : re_labels r = [];
  ro_address : is_u64 (re_address r);
  ro_size : is_u64 (re_size r)
}.

Lemma source_reserve_ok r : source_reserve r = true -> reserve_ok r.
Proof.
  unfold source_reserve. rewrite !andb_true_iff. intros ((((Hl & H1) & H2) & H3) & H4).
  apply bool_decide_eq_true in Hl. split; [exact Hl|unfold is_u64; lia|unfold is_u64; lia].
Qed.

Record source_info_ok (d : dt_info) : Prop := {
  si_node : source_node (dt d) = true;
  si_root : n_name (dt d) = Some [];
  si_reserves : Forall reserve_ok (reservelist d)
}.

Lemma source_info_spec d : source_info d = true -> source_info_ok d.
Proof.
  unfold source_info. rewrite !andb_true_iff. intros ((Hn & Hr) & Hf). apply bool_decide_eq_true in Hr.
  split; [exact Hn|exact Hr|]. apply Forall_forall. intros r Hin. apply source_reserve_ok.
  rewrite forallb_forall in Hf. apply Hf. by apply list_elem_of_In.
Qed.

Section Scanning.
Context (junk : Z -> Z) (src : sources) `{Hashtab.CharSign} (dir : option path) (depth : Z).
Abbreviation lx := (scan_at dir depth).
Abbreviation tokens := (tokens junk src).

Lemma head_in_app cs a b : head_in cs a -> head_in cs b -> head_in cs (a ++ b).
Proof. by destruct a. Qed.

Lemma head_spaces w : Forall (fun c => c ∈ spaces) w -> head_in byte_list w.
Proof.
  destruct w; [done|]. intros Hw. apply Forall_cons in Hw as [Hc _]. by apply (subset_elem spaces).
Qed.

(** A text scanned from condition [st] to [st'], up to white space at its end,
    whatever is around it. *)
Definition passes (st : Z) (text : bytes) (toks : list stok) (st' : Z) : Prop :=
  head_in byte_list text /\
  forall bol w rest v, Forall (fun c => c ∈ spaces) w -> head_in byte_list rest ->
  exists bol' w' v', Forall (fun c => c ∈ spaces) w' /\
    tokens (lx st bol (w ++ text ++ rest) v) toks (lx st' bol' (w' ++ rest) v').

Lemma passes_app st a ta st1 b tb st2 :
  passes st a ta st1 -> passes st1 b tb st2 -> passes st (a ++ b) (ta ++ tb) st2.
Proof.
  intros [Ha1 Ha] [Hb1 Hb]. split; [by apply head_in_app|]. intros bol w rest v Hw Hr.
  destruct (Ha bol w (b ++ rest) v Hw) as (bol1 & w1 & v1 & Hw1 & T1); [by apply head_in_app|].
  destruct (Hb bol1 w1 rest v1 Hw1 Hr) as (bol2 & w2 & v2 & Hw2 & T2).
  exists bol2, w2, v2. split; [done|]. rewrite <- app_assoc. by eapply tokens_app.
Qed.

Lemma passes_space st w : Forall (fun c => c ∈ spaces) w -> passes st w [] st.
Proof.
  intros Hw. split; [by apply head_spaces|]. intros bol w0 rest v Hw0 Hr.
  exists bol, (w0 ++ w), v. split; [by apply Forall_app_2|]. rewrite <- app_assoc. apply tokens_nil.
Qed.

Lemma passes_list {A} st (f : A -> bytes) (g : A -> list stok) l :
  Forall (fun x => passes st (f x) (g x) st) l -> passes st (concat (map f l)) (concat (map g l)) st.
Proof.
  induction 1 as [|x l Hx Hl IH]; [apply (passes_space st []), Forall_nil_2|]. by apply (passes_app _ _ _ st).
Qed.

(** A single character, before anything in [ends]. *)
Lemma passes_char sts st c :
  matches_from sts [c] 30 byte_list = true -> st ∈ sts -> st ∈ starts -> c ∈ non_spaces -> 0 <= c < 128 ->
  passes st [c] [TCode c] (after_char c st).
Proof.
  intros Hm Hst Hs Hc Hr. split; [by apply (subset_elem non_spaces)|]. intros bol w rest v Hw Hb.
  exists false, [], v. split; [apply Forall_nil_2|].
  refine (tokens_cons _ _ _ (TCode c) _ _ _ _ I (tokens_nil _ _ _)).
  eapply (lexes_char junk src dir depth sts); [exact Hm|exact Hst|exact Hs|exact Hw|exact Hc|exact Hr|].
  exact Hb.
Qed.

Lemma ends_bol_tab w bol level : ends_bol (w ++ write_prefix (S level)) bol = false.
Proof.
  unfold ends_bol, write_prefix. rewrite replicate_S_end, app_assoc, last_snoc. done.
Qed.

Lemma prefix_spaces level : Forall (fun c => c ∈ spaces) (write_prefix level).
Proof. apply Forall_replicate. by left. Qed.

(** A name at the beginning of an indented line, and what follows it. *)
Lemma passes_named level name b tb st :
  name <> [] -> Forall (fun c => c ∈ name_chars) name -> head_in [32; 59] b -> b <> [] -> 
  (forall bol rest v, head_in byte_list rest -> exists bol' w' v', Forall (fun c => c ∈ spaces) w' /\
    tokens (lx S_V1 bol (b ++ rest) v) tb (lx st bol' (w' ++ rest) v')) ->
  passes S_PROPNODENAME (write_prefix (S level) ++ name ++ b) (TName name :: tb) st.
Proof.
  intros Hne Hn Hh Hb Hr. split; [by apply (bool_decide_unpack (9 ∈ byte_list))|].
  intros bol w rest v Hw Hrest.
  destruct (lexes_name junk src dir depth bol (w ++ write_prefix (S level)) name (b ++ rest) v) as [bol1 L1].
  - apply Forall_app_2; [exact Hw|apply prefix_spaces].
  - apply ends_bol_tab.
  - exact Hne.
  - exact Hn.
  - by destruct b.
  - destruct (Hr bol1 rest (VPropnodename name) Hrest) as (bol2 & w2 & v2 & Hw2 & T).
    exists bol2, w2, v2. split; [exact Hw2|]. refine (tokens_cons _ _ _ _ _ _ _ _ _ T); [|reflexivity].
    rewrite <- !app_assoc in *. exact L1.
Qed.

Lemma scan_property level p : property_ok p ->
  passes S_PROPNODENAME (property_text level p) (property_toks p) S_PROPNODENAME.
Proof.
  intros Hp. destruct (po_name _ Hp) as [Hne Hn]. apply passes_named; [exact Hne|exact Hn| | |].
  - destruct (contents (p_val p)); [right; left|left].
  - destruct (contents (p_val p)); discriminate.
  - intros bol rest v Hr.
    destruct (scan_value junk src dir depth (contents (p_val p)) (po_bytes _ Hp) (po_len _ Hp))
      with (bol := bol) (rest := rest) (v := v) as (bol2 & v2 & T); [exact Hr|].
    exists bol2, [], v2. split; [apply Forall_nil_2|]. rewrite <- app_assoc. exact T.
Qed.

Definition head_text (n : node) : bytes := match n_name n with Some (c :: s) => c :: s | _ => [47] end.

(** The text of a node after its name. *)
Lemma scan_node n : source_node n = true -> forall level, exists text,
  write_tree_source_node n level = Done (write_prefix level ++ head_text n ++ [32] ++ text ++ [10]) /\
  forall st, st ∈ [S_PROPNODENAME; S_V1] -> passes st text (node_toks n) S_PROPNODENAME.
Proof.
  induction n as [n IH] using node_induction. intros Hn level.
  pose proof (source_node_ok n Hn) as Hok.
  assert (exists cs, foldr (fun c r => t ← write_tree_source_node c (S level); r ← r; Done ([10] ++ t ++ r)) (Done [])
            (live_children n) = Done cs /\
    passes S_PROPNODENAME cs (concat (map child_toks (live_children n))) S_PROPNODENAME) as (cs & Hcs & Hpass).
  { pose proof (no_children _ Hok) as Hc. 
    assert (Forall (fun c => source_node c = true -> forall level, exists text,
      write_tree_source_node c level = Done (write_prefix level ++ head_text c ++ [32] ++ text ++ [10]) /\
      forall st, st ∈ [S_PROPNODENAME; S_V1] -> passes st text (node_toks c) S_PROPNODENAME) (live_children n)) as IHl.
    { rewrite Forall_forall in *. intros c Hin. apply IH. unfold live_children in Hin.
      apply list_elem_of_In, filter_In in Hin as [Hin _]. by apply list_elem_of_In. }
    clear IH. induction Hc as [|c l (Hd & Hs & s & Hnm & Hne & Hch) Hl IHc].
    - exists []. split; [done|]. apply passes_space, Forall_nil_2.
    - apply Forall_cons in IHl as [IHn IHl]. destruct (IHc IHl) as (cs & Hcs & Hpass).
      destruct (IHn Hs (S level)) as (text & Ht & Hp). cbn [foldr]. rewrite Ht, Hcs. cbn [mbind outcome_bind].
      eexists. split; [reflexivity|]. cbn [map concat]. unfold child_toks at 1. 
      assert (head_text c = s) as -> by (unfold head_text; rewrite Hnm; by destruct s).
      rewrite Hnm. cbn [default].
      apply (passes_app _ [10] [] S_PROPNODENAME); [apply passes_space; by apply (bool_decide_unpack _)|].
      apply (passes_app _ _ (TName s :: node_toks c) S_PROPNODENAME); [|exact Hpass].
      destruct (Hp S_V1 ltac:(right; left)) as [Hh Hps].
      apply passes_named; [exact Hne|exact Hch|left|discriminate|].
      intros bol rest v Hr. 
      destruct (Hps bol [32] ([10] ++ rest) v) as (bol1 & w1 & v1 & Hw1 & T).
      + by apply (bool_decide_unpack _).
      + by apply (bool_decide_unpack (10 ∈ byte_list)).
      + exists bol1, (w1 ++ [10]), v1. split.
        * apply Forall_app_2; [exact Hw1|by apply (bool_decide_unpack _)].
        * rewrite <- !app_assoc. exact T. }
  rewrite write_node_unfold, (write_properties_ok level) by apply (no_props _ Hok).
  cbn zeta. cbn [mbind outcome_bind]. rewrite Hcs. cbn [mbind outcome_bind].
  set (ps := concat (map (fun p => property_text level p ++ [10]) (live_properties n))).
  exists ([123] ++ [10] ++ ps ++ cs ++ write_prefix level ++ [125] ++ [59]). split.
  - rewrite (no_labels _ Hok). change (labels_text []) with (@nil Z). 
    assert (match n_name n with Some (c :: s) => (c :: s) ++ str " {" | _ => str "/ {" end = head_text n ++ [32; 123]) as ->
      by (unfold head_text; destruct (n_name n) as [[|c s]|]; done).
    change (str "};" ++ [10]) with ([125] ++ [59] ++ [10]). rewrite app_nil_l, <- !app_assoc. done.
  - intros st Hst. rewrite node_toks_unfold.
    assert (forall c, c ∈ [123; 125; 59] -> forall st, st ∈ [S_PROPNODENAME; S_V1] ->
      passes st [c] [TCode c] (after_char c st)) as Hc.
    { intros c Hc st' Hst'. apply (passes_char [S_PROPNODENAME; S_V1]); [|exact Hst'| | |].
      - revert Hc. apply (forallb_elem (fun c => matches_from [S_PROPNODENAME; S_V1] [c] 30 byte_list)). by vm_compute.
      - by apply (subset_elem [S_PROPNODENAME; S_V1]).
      - by apply (subset_elem [123; 125; 59]).
      - rewrite !elem_of_cons in Hc. destruct Hc as [->|[->|[->|Hc]]]; [lia|lia|lia|by apply not_elem_of_nil in Hc]. }
    apply (passes_app _ [123] [TCode 123] S_PROPNODENAME); [by apply (Hc 123); [left|]|].
    apply (passes_app _ [10] [] S_PROPNODENAME); [apply passes_space; by apply (bool_decide_unpack _)|].
    apply (passes_app _ ps _ S_PROPNODENAME).
    { apply (passes_list S_PROPNODENAME). pose proof (no_props _ Hok) as Hp. eapply Forall_impl; [exact Hp|].
      intros p Hp'. rewrite <- (app_nil_r (property_toks p)).
      apply (passes_app _ _ _ S_PROPNODENAME); [by apply scan_property|].
      apply passes_space; by apply (bool_decide_unpack _). }
    apply (passes_app _ cs _ S_PROPNODENAME); [exact Hpass|].
    apply (passes_app _ _ [] S_PROPNODENAME); [apply passes_space, prefix_spaces|].
    apply (passes_app _ _ [TCode 125] S_PROPNODENAME); [by apply (Hc 125); [right; left|left]|].
    by apply (Hc 59); [right; right; left|left].
Qed.

Lemma scan_reserve r : reserve_ok r -> passes S_PROPNODENAME (reserve_text r) (reserve_toks r) S_PROPNODENAME.
Proof.
  intros [Hl Ha Hs]. unfold reserve_text. rewrite Hl. change (labels_text []) with (@nil Z). rewrite app_nil_l.
  split; [by apply (bool_decide_unpack (47 ∈ byte_list))|]. intros bol w rest v Hw Hr.
  destruct (lexes_memreserve junk src dir depth bol w
    ([9] ++ (str "0x" ++ fmt_0x 16 (re_address r)) ++ str " " ++ (str "0x" ++ fmt_0x 16 (re_size r)) ++ [59] ++ [10] ++ rest)
    v Hw) as [bol1 L1]; [by apply (bool_decide_unpack (9 ∈ byte_list))|].
  destruct (lexes_literal junk src dir depth bol1 [9] (fmt_0x 16 (re_address r)) (re_address r)
    (str " " ++ (str "0x" ++ fmt_0x 16 (re_size r)) ++ [59] ++ [10] ++ rest) v) as [bol2 L2];
    [by apply (bool_decide_unpack _)|by apply fmt_0x_digits|exact Ha|by apply (bool_decide_unpack (32 ∈ [32; 59; 62]))|].
  destruct (lexes_literal junk src dir depth bol2 (str " ") (fmt_0x 16 (re_size r)) (re_size r)
    ([59] ++ [10] ++ rest) (VInteger (re_address r))) as [bol3 L3];
    [apply space_one|by apply fmt_0x_digits|exact Hs|by apply (bool_decide_unpack (59 ∈ [32; 59; 62]))|].
  exists false, [10], (VInteger (re_size r)). split; [by apply (bool_decide_unpack _)|].
  refine (tokens_cons _ _ _ (TCode DT_MEMRESERVE) _ _ _ _ I _);
    [|refine (tokens_cons _ _ _ (TLiteral _) _ _ _ L2 eq_refl (tokens_cons _ _ _ (TLiteral _) _ _ _ L3 eq_refl
        (tokens_cons _ _ _ (TCode 59) _ _ _ _ I (tokens_nil _ _ _))))].
  - change (str " 0x") with (str " " ++ str "0x"). rewrite <- !app_assoc in *. exact L1.
  - apply (lexes_char junk src dir depth [S_V1] S_V1 bol3 [] 59 ([10] ++ rest) _ byte_list);
      [by vm_compute|by left|by apply (bool_decide_unpack _)|apply Forall_nil_2|by apply (bool_decide_unpack _)|lia|
       by apply (bool_decide_unpack (10 ∈ byte_list))].
Qed.

(** The scanner on what [dt_to_source] writes, in whatever condition it begins. *)
Lemma scan_source d : source_info_ok d -> exists text, dt_to_source d = Done text /\
  forall st bol v, st ∈ starts -> exists L v', tokens (lx st bol text v) (source_toks d) L /\
    lexes junk src L 0 (Lexer S_PROPNODENAME [] v' false depth).
Proof.
  intros [Hn Hroot Hre]. destruct (scan_node (dt d) Hn 0) as (text & Ht & Hp).
  destruct (Hp S_PROPNODENAME ltac:(left)) as [Hhead _].
  unfold dt_to_source. rewrite Ht. cbn [mbind outcome_bind]. eexists. split; [reflexivity|].
  intros st bol v Hst. unfold head_text. rewrite Hroot. change (write_prefix 0) with (@nil Z). rewrite app_nil_l.
  set (res := concat (map reserve_text (reservelist d))).
  assert (passes S_V1 ([59] ++ [10; 10] ++ res ++ [47] ++ [32] ++ text ++ [10])
    (TCode 59 :: concat (map reserve_toks (reservelist d)) ++ TCode 47 :: node_toks (dt d)) S_PROPNODENAME) as [Hh Hpass].
  { apply (passes_app _ [59] [TCode 59] S_PROPNODENAME).
    { apply (passes_char [S_V1] S_V1 59);
        [by vm_compute|by left|by apply (bool_decide_unpack _)|by apply (bool_decide_unpack _)|lia]. }
    apply (passes_app _ [10; 10] [] S_PROPNODENAME); [apply passes_space; by apply (bool_decide_unpack _)|].
    apply (passes_app _ res _ S_PROPNODENAME).
    { apply (passes_list S_PROPNODENAME). eapply Forall_impl; [exact Hre|]. apply scan_reserve. }
    rewrite <- (app_nil_r (node_toks (dt d))).
    assert (passes S_PROPNODENAME ([32] ++ text ++ [10]) ([] ++ node_toks (dt d) ++ []) S_PROPNODENAME) as [Hsl Hslash].
    { apply (passes_app _ [32] [] S_PROPNODENAME); [apply passes_space; by apply (bool_decide_unpack _)|].
      apply (passes_app _ text _ S_PROPNODENAME); [by apply Hp; left|].
      apply passes_space; by apply (bool_decide_unpack _). }
    split; [by apply (bool_decide_unpack (47 ∈ byte_list))|]. intros bol1 w rest v1 Hw Hr.
    destruct (Hslash false [] rest v1 (Forall_nil_2 _) Hr) as (bol2 & w2 & v2 & Hw2 & T).
    exists bol2, w2, v2. split; [exact Hw2|]. refine (tokens_cons _ _ _ (TCode 47) _ _ _ _ I T).
    rewrite <- !app_assoc. rewrite app_nil_l.
    apply (lexes_char junk src dir depth [S_PROPNODENAME] S_PROPNODENAME bol1 w 47 ([32] ++ text ++ [10] ++ rest) _ [32]);
      [by vm_compute|by left|by apply (bool_decide_unpack _)|exact Hw|by apply (bool_decide_unpack _)|lia|by left]. }
  destruct (lexes_dts_v1 junk src dir depth st bol ([59] ++ [10; 10] ++ res ++ [47] ++ [32] ++ text ++ [10]) v Hst)
    as [bol1 L1]; [exact Hh|].
  destruct (Hpass bol1 [] [] v (Forall_nil_2 _) I) as (bol2 & w2 & v2 & Hw2 & T).
  exists (lx S_PROPNODENAME bol2 w2 v2), v2. rewrite !app_nil_r in T. split.
  - refine (tokens_cons _ _ _ (TCode DT_V1) _ _ _ L1 I T).
  - apply (lexes_end junk src dir depth); [by apply (bool_decide_unpack _)|exact Hw2].
Qed.
End Scanning.
