(* ===== verification/Dtgrammar.v ===== *)
(** The run of the parser of Dtparse on the tokens of a written tree: what each
    construct of the grammar leaves on the stack, and [dt_from_source] of what
    [dt_to_source] wrote. *)
From S2P Require Import Prelude Stdio Dtdata Livetree Flattree Dtlex Dtparse Treesource Dtscan Dtsource.
From S2P Require Hashtab.

(** The symbol of the grammar a token is. *)
Definition symbol (t : stok) : Z := if tok_code t <=? 0 then 0 else YYTRANSLATE (tok_code t).

Section Run.
Context (junk : Z -> Z) (src : sources) `{Hashtab.CharSign} (o : Z) (Lfin : lexer) (Post : option dt_info -> Prop).
Abbreviation tokens := (tokens junk src).
Abbreviation vstack := (list (Z * yystype)).

(** The tokens ahead, the first of which may have been read. *)
Definition reads (ch : option Z) (L : lexer) (toks : list stok) : Prop :=
  match ch with
  | None => tokens L toks Lfin
  | Some c =>
      match toks with
      | t :: ts => c = tok_code t /\ tok_value t (yylval L) /\ tokens L ts Lfin
      | [] => False
      end
  end.

(** The run ends, accepting, with a result that satisfies [Post]. *)
Definition ends (out : option dt_info) (stk : vstack) (ch : option Z) (L : lexer) : Prop :=
  exists k p, (forall n, (3 <= n)%nat -> yyrun junk src (k + n) (Parser stk ch L o out) = Done (0, p)) /\
    scanner p = Lfin /\ next_orphan_fragment p = o /\ Post (parser_output p).

(** With this stack, whatever has been read of these tokens. *)
Definition parses (out : option dt_info) (stk : vstack) (toks : list stok) : Prop :=
  forall ch L, reads ch L toks -> ends out stk ch L.

Lemma ends_step out stk ch L out' stk' ch' L' :
  (forall n, (3 <= n)%nat -> yystep junk src n (Parser stk ch L o out) = Done (inl (Parser stk' ch' L' o out'))) ->
  ends out' stk' ch' L' -> ends out stk ch L.
Proof.
  intros Hs (k & p & Hk & Hp). exists (S k), p. split; [|exact Hp]. intros n Hn.
  cbn [Nat.add yyrun]. rewrite Hs by lia. by apply Hk.
Qed.

Lemma next_move_none s c : next_move s None = NeedToken \/ next_move s None = next_move s c.
Proof. unfold next_move. destruct (_ =? YYPACT_NINF); [by right|by left]. Qed.

(** The look-ahead is read when the state needs it. *)
Lemma ends_ahead out s v stk t toks :
  0 <= tok_code t ->
  (forall ch L, reads ch L (t :: toks) ->
     match ch with Some _ => True | None => next_move s None = next_move s (Some (symbol t)) end ->
     ends out ((s, v) :: stk) ch L) ->
  parses out ((s, v) :: stk) (t :: toks).
Proof.
  intros Ht Hk [c|] L Hr; [by apply Hk|].
  destruct (next_move_none s (Some (symbol t))) as [Hn|Hn]; [|by apply Hk].
  inversion Hr as [|? ? L1 ? ? Hl Hv Hts]; subst.
  apply (ends_step _ _ _ _ out ((s, v) :: stk) (Some (tok_code t)) L1).
  - intros n Hf. unfold yystep. cbn [yystate stack mbind outcome_bind yychar]. rewrite Hn.
    cbn [scanner]. rewrite (Hl n Hf). cbn [mbind outcome_bind next_orphan_fragment parser_output].
    destruct (Z.leb_spec (tok_code t) 0); [|done]. by replace (tok_code t) with 0 by lia.
  - by apply Hk.
Qed.

Lemma push_ok p s v below : blen below + 1 < YYMAXDEPTH ->
  push p s v below = inl (Parser ((s, v) :: below) (yychar p) (scanner p) (next_orphan_fragment p) (parser_output p)).
Proof.
  intros Hd. unfold push. rewrite blen_cons. destruct (Z.leb_spec YYMAXDEPTH (1 + blen below)); [lia|done].
Qed.

Lemma parses_shift s' out s v stk t toks :
  next_move s (Some (symbol t)) = Shift s' -> 0 < tok_code t -> blen stk + 2 < YYMAXDEPTH ->
  (forall v', tok_value t v' -> parses out ((s', v') :: (s, v) :: stk) toks) ->
  parses out ((s, v) :: stk) (t :: toks).
Proof.
  intros Hm Ht Hd Hk. apply ends_ahead; [lia|]. intros ch L Hr Hch. destruct ch as [c|].
  - destruct Hr as (-> & Hv & Hts).
    apply (ends_step _ _ _ _ out ((s', yylval L) :: (s, v) :: stk) None L).
    + intros n Hn. unfold yystep. cbn [yystate stack mbind outcome_bind yychar]. fold (symbol t). rewrite Hm.
      rewrite push_ok by (rewrite blen_cons; lia). cbn [yychar scanner next_orphan_fragment parser_output].
      destruct (tok_code t) eqn:E; [lia|done|done].
    + apply (Hk _ Hv). exact Hts.
  - rewrite Hm in Hch. unfold next_move, default_move in Hch.
    destruct (_ =? YYPACT_NINF); [|done]. by destruct (_ =? 0).
Qed.

(** A reduction that reports nothing. *)
Lemma parses_reduce s' rule args s0 v0 s v' out out' below t toks :
  next_move s (Some (symbol t)) = Reduce rule -> 0 <= tok_code t ->
  fst <$> head (args ++ (s0, v0) :: below) = Some s ->
  length args = Z.to_nat (entry yyr2 rule) ->
  (forall fs err, reduce junk src fs rule (rev (map snd args)) (map snd ((s0, v0) :: below)) (Effects err o out) =
     Done (Some (v', Effects err o out'))) ->
  blen below + 2 < YYMAXDEPTH -> goto_state rule s0 = s' ->
  parses out' ((s', v') :: (s0, v0) :: below) (t :: toks) ->
  parses out (args ++ (s0, v0) :: below) (t :: toks).
Proof.
  intros Hm Ht Hs Hl Hr Hd <- Hk.
  destruct (args ++ (s0, v0) :: below) as [|[s1 v1] stk] eqn:E; [done|].
  cbn in Hs. injection Hs as ->. apply ends_ahead; [done|]. intros ch L Hch Hns.
  apply (ends_step _ _ _ _ out' ((goto_state rule s0, v') :: (s0, v0) :: below) ch L); [|by apply Hk].
  intros n Hn. unfold yystep. cbn [yystate stack mbind outcome_bind yychar].
  assert (next_move s (match ch with Some c => Some (if c <=? 0 then 0 else YYTRANSLATE c) | None => None end) =
    Reduce rule) as ->.
  { destruct ch as [c|]; [|by rewrite Hns]. by destruct Hch as (-> & _). }
  unfold do_reduce. cbn [stack scanner next_orphan_fragment parser_output].
  rewrite <- E, <- Hl, take_app_length, drop_app_length, Hr. cbn [mbind outcome_bind].
  rewrite push_ok by (rewrite blen_cons; lia). destruct L. reflexivity.
Qed.

(** The end of the source, read with the last token. *)
Lemma parses_accept out s v stk :
  next_move s (Some 0) = Accept -> Post out -> parses out ((s, v) :: stk) [TCode 0].
Proof.
  intros Hm Hp. apply ends_ahead; [done|]. intros ch L Hr Hch. destruct ch as [c|].
  - destruct Hr as (-> & _ & Hts). inversion Hts; subst.
    exists 1%nat, (Parser ((s, v) :: stk) (Some 0) Lfin o out). split; [|done]. intros n Hn.
    cbn [Nat.add yyrun]. unfold yystep. cbn [yystate stack mbind outcome_bind yychar tok_code].
    change (0 <=? 0) with true. cbn iota. by rewrite Hm.
  - change (symbol (TCode 0)) with 0 in Hch. rewrite Hm in Hch. unfold next_move, default_move in Hch.
    destruct (_ =? YYPACT_NINF); [|done]. by destruct (_ =? 0).
Qed.
End Run.

(** ** Values *)

Ltac shift_to s := apply (parses_shift _ _ _ _ _ s); [vm_compute; reflexivity|cbn [tok_code]; (done || lia)|unfold YYMAXDEPTH in *; rewrite ?blen_cons, ?blen_nil; lia|].

Section Grammar.
Context (junk : Z -> Z) (src : sources) `{Hashtab.CharSign} (o : Z) (Lfin : lexer) (Post : option dt_info -> Prop).
Abbreviation parses := (parses junk src o Lfin Post).
Abbreviation vstack := (list (Z * yystype)).

(** A reduction in which nothing but the value is computed. *)
Lemma reduces s' rule args s0 v0 s v' out below t toks :
  next_move s (Some (symbol t)) = Reduce rule -> 0 <= tok_code t ->
  fst <$> head (args ++ (s0, v0) :: below) = Some s ->
  length args = Z.to_nat (entry yyr2 rule) ->
  (forall fs vs e, reduce junk src fs rule (rev (map snd args)) vs e = Done (Some (v', e))) ->
  blen below + 2 < YYMAXDEPTH -> goto_state rule s0 = s' ->
  parses out ((s', v') :: (s0, v0) :: below) (t :: toks) ->
  parses out (args ++ (s0, v0) :: below) (t :: toks).
Proof. intros Hm Ht Hs Hl Hr Hd Hg. eapply parses_reduce; [exact Hm|exact Ht|exact Hs|exact Hl| |exact Hd|exact Hg]. intros. apply Hr. Qed.

Lemma parses_literal s s' out v stk n t toks :
  s ∈ [8; 16; 130] -> goto_state 39 s = s' -> 0 <= tok_code t -> blen stk + 2 < YYMAXDEPTH ->
  parses out ((s', VInteger n) :: (s, v) :: stk) (t :: toks) ->
  parses out ((s, v) :: stk) (TLiteral n :: t :: toks).
Proof.
  intros Hs Hg Ht Hd Hk. apply (parses_shift _ _ _ _ _ 13).
  - repeat (apply elem_of_cons in Hs as [->|Hs]; [vm_compute; reflexivity|]). by apply not_elem_of_nil in Hs.
  - done.
  - lia.
  - intros v' Hv. cbn in Hv. subst v'.
    apply (reduces s' 39 [(13, VInteger n)] s v 13 (VInteger n)); (done || lia).
Qed.

(** What a buffer holds after appending [s]. *)
Definition extends (d d' : data) (s : bytes) : Prop := wf d' /\ contents d' = contents d ++ s.

Lemma d_len_contents d : wf d -> d_len d = blen (contents d).
Proof. intros. by rewrite contents_blen. Qed.

Lemma reduce_36 fs d n vs e d' : is_u32 n -> data_append_cell junk d n = Done d' ->
  reduce junk src fs 36 [VArray d 32; VInteger n] vs e = Done (Some (VArray d' 32, e)).
Proof.
  intros Hn E. unfold reduce. change (is_binary 36) with false. cbn iota.
  cbn [as_array as_integer mbind outcome_bind]. unfold data_append_cell in E. rewrite E. cbn [mbind outcome_bind].
  unfold out_of_range. change (Z.shiftl 1 32 - 1) with (2 ^ 32 - 1).
  unfold is_u32 in Hn. replace (2 ^ 32 - 1 <? n) with false by lia. by rewrite andb_false_r.
Qed.

Lemma parses_cells cells : Forall is_u32 cells -> forall out d v0 below toks,
  wf d -> blen (contents d) + 4 * blen cells + 8 < 2 ^ 30 -> blen below + 4 < YYMAXDEPTH ->
  (forall d', extends d d' (concat (map (be_bytes 4) cells)) -> 
     parses out ((130, VArray d' 32) :: (118, v0) :: below) (TCode 62 :: toks)) ->
  parses out ((130, VArray d 32) :: (118, v0) :: below) (map TLiteral cells ++ TCode 62 :: toks).
Proof.
  induction 1 as [|n cells Hn Hc IH]; intros out d v0 below toks Hw Hl Hd Hk.
  { apply Hk. split; [done|]. by rewrite app_nil_r. }
  cbn [map app]. rewrite blen_cons in Hl. pose proof (blen_nonneg cells).
  assert (exists t ts, map TLiteral cells ++ TCode 62 :: toks = t :: ts /\ 0 <= tok_code t /\ 
    next_move 137 (Some (symbol t)) = Reduce 36) as (t & ts & E & Ht & Hm).
  { destruct cells; cbn [map app]; eexists; eexists; (split; [reflexivity|split; [done|vm_compute; reflexivity]]). }
  destruct (append_cell_ok junk d n Hw) as (d' & Ed & Ha); [rewrite d_len_contents by done; lia|].
  destruct Ha as (Hw' & Hc' & _ & _).
  rewrite E. apply (parses_literal 130 137);
    [by apply (bool_decide_unpack _)|reflexivity|done|rewrite ?blen_cons; lia|].
  apply (reduces 130 36 [(137, VInteger n); (130, VArray d 32)] 118 v0 137 (VArray d' 32));
    [exact Hm|exact Ht|reflexivity|reflexivity|intros; by apply reduce_36|lia|reflexivity|].
  rewrite <- E. apply IH; [done| |lia|].
  - rewrite Hc', blen_app, blen_be_bytes. lia.
  - intros d2 [Hw2 Hc2]. apply Hk. split; [done|]. rewrite Hc2, Hc', <- app_assoc. done.
Qed.

Lemma reduce_78 fs d b vs e d' : is_byte b -> data_append_data junk d [b] 1 = Done d' ->
  reduce junk src fs 78 [VData d; VByte b] vs e = Done (Some (VData d', e)).
Proof.
  intros Hb E. unfold reduce. change (is_binary 78) with false. cbn iota.
  cbn [as_data as_byte mbind outcome_bind]. unfold data_append_byte, u8.
  rewrite (Z.mod_small b) by exact Hb. by rewrite E.
Qed.

Lemma parses_bytes bs : Forall is_byte bs -> forall out d v0 below toks,
  wf d -> blen (contents d) + blen bs < 2 ^ 30 -> blen below + 4 < YYMAXDEPTH ->
  (forall d', extends d d' bs -> 
     parses out ((133, VData d') :: (128, v0) :: below) (TCode 93 :: toks)) ->
  parses out ((133, VData d) :: (128, v0) :: below) (map TByte bs ++ TCode 93 :: toks).
Proof.
  induction 1 as [|b bs Hb Hbs IH]; intros out d v0 below toks Hw Hl Hd Hk.
  { apply Hk. split; [done|]. by rewrite app_nil_r. }
  cbn [map app]. rewrite blen_cons in Hl. pose proof (blen_nonneg bs).
  assert (exists t ts, map TByte bs ++ TCode 93 :: toks = t :: ts /\ 0 <= tok_code t /\ 
    next_move 140 (Some (symbol t)) = Reduce 78) as (t & ts & E & Ht & Hm).
  { destruct bs; cbn [map app]; eexists; eexists; (split; [reflexivity|split; [done|vm_compute; reflexivity]]). }
  destruct (append_data_ok junk d [b] Hw) as (d' & Ed & Hw' & Hc' & _); [rewrite d_len_contents by done; change (blen [b]) with 1; lia|].
  rewrite E. shift_to 140. intros v' Hv. cbn in Hv. subst v'.
  apply (reduces 133 78 [(140, VByte b); (133, VData d)] 128 v0 140 (VData d'));
    [exact Hm|exact Ht|reflexivity|reflexivity|intros; by apply reduce_78|lia|reflexivity|].
  rewrite <- E. apply IH; [done| |lia|].
  - rewrite Hc', blen_app. change (blen [b]) with 1. lia.
  - intros d2 [Hw2 Hc2]. apply Hk. split; [done|]. rewrite Hc2, Hc', <- app_assoc. done.
Qed.
End Grammar.

(** ** Whole values and properties *)

Section Properties.
Context (junk : Z -> Z) (src : sources) `{Hashtab.CharSign} (o : Z) (Lfin : lexer) (Post : option dt_info -> Prop).
Abbreviation parses := (parses junk src o Lfin Post).

Lemma reduce_merge fs rule vs below e d ds d' x y :
  (rule, vs) ∈ [(24, [VData d; VData ds]); (25, [VData d; VArray ds 32; x]); (26, [VData d; x; VData ds; y])] ->
  data_merge junk d ds = Done d' ->
  reduce junk src fs rule vs below e = Done (Some (VData d', e)).
Proof.
  intros Hin E. rewrite !elem_of_cons in Hin.
  destruct Hin as [[= -> ->]|[[= -> ->]|[[= -> ->]|Hin]]]; [| | |by apply not_elem_of_nil in Hin];
    unfold reduce; (match goal with |- context [is_binary ?r] => change (is_binary r) with false end); cbn iota;
    cbn [as_data as_array mbind outcome_bind]; rewrite E; done.
Qed.

Lemma merge_extends d ds : wf d -> wf ds -> blen (contents d) + blen (contents ds) < 2 ^ 30 ->
  exists d', data_merge junk d ds = Done d' /\ extends d d' (contents ds).
Proof.
  intros Hw Hs Hl. destruct (merge_ok junk d ds Hw Hs) as (d' & E & Hw' & Hc & _).
  { rewrite !d_len_contents by done. lia. }
  by exists d'.
Qed.

Lemma parses_strings parts : parts <> [] -> forall out d v0 below toks,
  wf d -> blen (contents d ++ concat (map (fun p => p ++ [0]) parts)) < 2 ^ 30 -> blen below + 4 < YYMAXDEPTH ->
  (forall d', extends d d' (concat (map (fun p => p ++ [0]) parts)) ->
     parses out ((117, VData d') :: (107, v0) :: below) (TCode 59 :: toks)) ->
  parses out ((118, VData d) :: (107, v0) :: below) (string_toks parts ++ TCode 59 :: toks).
Proof.
  induction parts as [|p parts IH]; [done|]. intros _ out d v0 below toks Hw Hl Hd Hk.
  cbn [map concat] in Hl, Hk. rewrite !blen_app in Hl. pose proof (blen_nonneg (concat (map (fun p => p ++ [0]) parts))).
  assert (forall ds t ts, holds ds (p ++ [0]) -> t = TCode 44 \/ t = TCode 59 ->
    (forall d', extends d d' (p ++ [0]) -> parses out ((117, VData d') :: (107, v0) :: below) (t :: ts)) ->
    parses out ((124, VData ds) :: (118, VData d) :: (107, v0) :: below) (t :: ts)) as Hstr.
  { intros ds t ts (Hws & Hcs & _ & _) Ht Hn.
    destruct (merge_extends d ds Hw Hws) as (d' & E & He); [rewrite Hcs, blen_app; lia|]. rewrite Hcs in He.
    apply (reduces junk src o Lfin Post 117 24 [(124, VData ds); (118, VData d)] 107 v0 124 (VData d'));
      [by destruct Ht as [->| ->]; vm_compute|by destruct Ht as [->| ->]|reflexivity|reflexivity| |lia|reflexivity|by apply Hn].
    intros. eapply (reduce_merge fs 24 _ _ _ d ds d' VNone VNone); [by left|exact E]. }
  destruct parts as [|q parts].
  - cbn [string_toks app]. shift_to 124. intros v' (ds & -> & Hds). apply Hstr; [done|by right|].
    intros d' He. apply Hk. cbn [map concat]. by rewrite app_nil_r.
  - change (string_toks (p :: q :: parts)) with (TString p :: TCode 44 :: string_toks (q :: parts)).
    cbn [app]. shift_to 124. intros v' (ds & -> & Hds). apply Hstr; [done|by left|].
    intros d1 [Hw1 Hc1]. shift_to 122. intros v1 _.
    destruct (string_toks (q :: parts) ++ TCode 59 :: toks) as [|t ts] eqn:E.
    { by destruct parts. }
    assert (t = TString q) as -> by (by destruct parts; injection E as <-).
    apply (reduces junk src o Lfin Post 118 32 [(122, v1); (117, VData d1)] 107 v0 122 (VData d1));
      [by vm_compute|done|reflexivity|reflexivity|reflexivity|lia|reflexivity|].
    rewrite <- E. apply IH; [done|done| |lia|].
    + rewrite blen_app, Hc1, !blen_app. lia.
    + intros d2 [Hw2 Hc2]. apply Hk. split; [done|]. by rewrite Hc2, Hc1, <- app_assoc.
Qed.

Lemma be_bytes_be_val s : Forall is_byte s -> be_bytes (length s) (be_val s) = s.
Proof.
  intros Hs. unfold be_bytes, be_val. rewrite <- (length_rev s), le_bytes_le_val by (by apply Forall_rev).
  apply rev_involutive.
Qed.

Lemma cells_join s : Forall is_byte s -> blen s mod 4 = 0 ->
  concat (map (be_bytes 4) (cells_of s)) = s /\ 4 * blen (cells_of s) = blen s.
Proof.
  remember (length s) as n eqn:Hn. revert s Hn.
  induction (lt_wf n) as [n _ IH]. intros s -> Hs H4.
  destruct s as [|a [|b [|c [|d s]]]]; [done|by cbn in H4..|].
  cbn [cells_of map concat]. rewrite !blen_cons in *. rewrite !Forall_cons in Hs. destruct Hs as (Ha & Hb & Hc & Hd & Hs).
  destruct (IH (length s) ltac:(cbn [length]; lia) s eq_refl Hs) as [E1 E2].
  { replace (1 + (1 + (1 + (1 + blen s)))) with (blen s + 1 * 4) in H4 by lia. by rewrite Z_mod_plus_full in H4. }
  split; [|lia]. rewrite E1. pose proof (be_bytes_be_val [a; b; c; d] ltac:(repeat (apply Forall_cons_2; [assumption|]); apply Forall_nil_2)) as E.
  change (length [a; b; c; d]) with 4%nat in E. by rewrite E.
Qed.

Definition same_value (d : data) (s : bytes) : Prop := wf d /\ contents d = s.

Lemma extends_empty d s : extends empty_data d s -> same_value d s.
Proof. intros [Hw Hc]. split; [exact Hw|]. rewrite Hc. done. Qed.

Lemma parses_value s : s <> [] -> Forall is_byte s -> blen s < 2 ^ 28 -> forall out v0 below toks,
  blen below + 6 < YYMAXDEPTH ->
  (forall d, same_value d s -> parses out ((117, VData d) :: (107, v0) :: below) (TCode 59 :: toks)) ->
  parses out ((107, v0) :: below) (tail (value_toks s) ++ TCode 59 :: toks).
Proof.
  intros Hne Hb Hl out v0 below toks Hd Hk.
  assert (wf empty_data) as Hwe by done.
  assert (forall t ts, next_move 107 (Some (symbol t)) = Reduce 31 -> 0 <= tok_code t ->
    parses out ((118, VData empty_data) :: (107, v0) :: below) (t :: ts) ->
    parses out ((107, v0) :: below) (t :: ts)) as Hprefix.
  { intros t ts Hm Ht Hp. apply (reduces junk src o Lfin Post 118 31 [] 107 v0 107 (VData empty_data));
      [exact Hm|exact Ht|reflexivity|reflexivity|reflexivity|lia|reflexivity|exact Hp]. }
  assert (tail (value_toks s) = if stringish s then string_toks (split_nul (removelast s))
      else if blen s mod 4 =? 0 then TCode 60 :: map TLiteral (cells_of s) ++ [TCode 62]
      else TCode 91 :: map TByte s ++ [TCode 93]) as -> by (by destruct s).
  destruct (stringish s) eqn:Hstr.
  - destruct (stringish_split s Hstr) as (s1 & E & -> & Hs1).
    pose proof (split_nul_join s1) as Hj. rewrite <- E in Hj.
    destruct (split_nul s1) as [|p ps] eqn:Es; [by apply split_nul_ne in Es|].
    assert (exists ts, string_toks (p :: ps) ++ TCode 59 :: toks = TString p :: ts) as [ts Et]
      by (destruct ps; by eexists).
    rewrite Et. apply Hprefix; [by vm_compute|done|]. rewrite <- Et.
    apply parses_strings; [done|done|rewrite Hj; change (contents empty_data) with (@nil Z); rewrite app_nil_l; lia|lia|]. rewrite Hj.
    intros d He. by apply Hk, extends_empty.
  - destruct (Z.eqb_spec (blen s mod 4) 0) as [H4|H4].
    + destruct (cells_join s Hb H4) as [Hj Hjl].
      cbn [app]. apply Hprefix; [by vm_compute|done|]. shift_to 129. intros v1 _.
      assert (exists t ts, (map TLiteral (cells_of s) ++ [TCode 62]) ++ TCode 59 :: toks = t :: ts /\
        0 <= tok_code t /\ next_move 129 (Some (symbol t)) = Reduce 35) as (t & ts & Et & Ht & Hm).
      { destruct (cells_of s); cbn [map app]; eexists; eexists; (split; [reflexivity|split; [done|by vm_compute]]). }
      rewrite Et. 
      apply (reduces junk src o Lfin Post 130 35 [(129, v1)] 118 (VData empty_data) 129 (VArray empty_data 32));
        [exact Hm|exact Ht|reflexivity|reflexivity|reflexivity|rewrite blen_cons; lia|reflexivity|].
      rewrite <- Et, <- app_assoc. apply parses_cells; [by apply cells_of_u32|done| |rewrite blen_cons; lia|].
      { change (contents empty_data) with (@nil Z). rewrite blen_nil. lia. }
      rewrite Hj. intros d He. apply extends_empty in He as [Hw Hc].
      destruct (merge_extends empty_data d Hwe Hw) as (d' & E & He');
        [rewrite Hc; change (contents empty_data) with (@nil Z); rewrite blen_nil; lia|].
      rewrite Hc in He'. cbn [app]. shift_to 136. intros v2 _.
      apply (reduces junk src o Lfin Post 117 25 [(136, v2); (130, VArray d 32); (118, VData empty_data)] 107 v0 136 (VData d'));
        [by vm_compute|done|reflexivity|reflexivity| |lia|reflexivity|by apply Hk, extends_empty].
      intros. eapply (reduce_merge fs 25 _ _ _ empty_data d d' v2 VNone); [by right; left|exact E].
    + cbn [app]. apply Hprefix; [by vm_compute|done|]. shift_to 128. intros v1 _.
      assert (exists t ts, (map TByte s ++ [TCode 93]) ++ TCode 59 :: toks = t :: ts /\
        0 <= tok_code t /\ next_move 128 (Some (symbol t)) = Reduce 77) as (t & ts & Et & Ht & Hm).
      { destruct s; cbn [map app]; eexists; eexists; (split; [reflexivity|split; [done|by vm_compute]]). }
      rewrite Et. 
      apply (reduces junk src o Lfin Post 133 77 [] 128 v1 128 (VData empty_data));
        [exact Hm|exact Ht|reflexivity|reflexivity|reflexivity|rewrite !blen_cons; lia|reflexivity|].
      rewrite <- Et, <- app_assoc. apply parses_bytes; [done|done| |rewrite !blen_cons; lia|].
      { change (contents empty_data) with (@nil Z). rewrite blen_nil. lia. }
      intros d He. apply extends_empty in He as [Hw Hc].
      destruct (merge_extends empty_data d Hwe Hw) as (d' & E & He');
        [rewrite Hc; change (contents empty_data) with (@nil Z); rewrite blen_nil; lia|].
      rewrite Hc in He'. cbn [app]. shift_to 142. intros v2 _.
      apply (reduces junk src o Lfin Post 117 26 [(142, v2); (133, VData d); (128, v1); (118, VData empty_data)] 107 v0 142 (VData d'));
        [by vm_compute|done|reflexivity|reflexivity| |lia|reflexivity|by apply Hk, extends_empty].
      intros. eapply (reduce_merge fs 26 _ _ _ empty_data d d' v1 v2); [by right; right; left|exact E].
Qed.
End Properties.

(** ** Nodes *)

(** How much of the stack the text of a node takes: the name, the equals sign
    and the parts of a value; a child finds those before it on the stack. *)
Fixpoint parser_need (n : node) : Z :=
  Z.max 9 (2 + (fix kids (l : list node) : Z :=
    match l with
    | [] => 3
    | c :: l => if n_deleted c then kids l else Z.max (1 + parser_need c) (1 + kids l)
    end) (children n)).

Definition kids_need (l : list node) : Z := foldr (fun c k => Z.max (1 + parser_need c) (1 + k)) 3 l.

Lemma parser_need_unfold n : parser_need n = Z.max 9 (2 + kids_need (live_children n)).
Proof.
  destruct n as [d nm ps cs fp bl ph ls]. cbn [parser_need]. do 2 f_equal. unfold live_children. cbn [children].
  induction cs as [|c cs IH]; [done|]. cbn [List.filter]. destruct (n_deleted c); cbn [negb kids_need foldr]; [done|].
  rewrite IH. done.
Qed.

Lemma kids_need_ge l : 3 <= kids_need l.
Proof. unfold kids_need. induction l as [|c l IH]; cbn [foldr]; lia. Qed.

(** Nothing in the tree is deleted or labelled. *)
Fixpoint fresh (n : node) : bool :=
  negb (n_deleted n) && bool_decide (n_labels n = []) && forallb fresh (children n).

Lemma fresh_live n : fresh n = true ->
  n_deleted n = false /\ n_labels n = [] /\ forallb fresh (children n) = true.
Proof.
  destruct n as [d nm ps cs fp bl ph ls]. cbn [fresh n_deleted n_labels children].
  rewrite !andb_true_iff, negb_true_iff, bool_decide_eq_true. tauto.
Qed.

(** The node built from the text of [n], before it gets its name. *)
Record built (n' n : node) : Prop := {
  bu_live : n_deleted n' = false;
  bu_name : n_name n' = None;
  bu_labels : n_labels n' = [];
  bu_props : map read_property (live_properties n') = map read_property (live_properties n);
  bu_children : map read_node (live_children n') = map read_node (live_children n);
  bu_fresh : forallb fresh (children n') = true
}.

Lemma built_named n' n s : built n' n -> n_name n = Some s ->
  exists m, name_node n' s = Some m /\ fresh m = true /\ read_node m = read_node n.
Proof.
  intros [Hl Hn Hls Hp Hc Hf] Hs. unfold name_node. rewrite Hn. eexists. split; [reflexivity|].
  split; [cbn [fresh n_deleted n_labels children]; by rewrite Hl, Hls, bool_decide_true|].
  rewrite !read_node_unfold. cbn [n_name]. rewrite Hs, <- Hp, <- Hc. by destruct n'.
Qed.

(** A fact of the tables for each state of a list. *)
Ltac each_state Hs :=
  repeat (apply elem_of_cons in Hs as [->|Hs]; [by vm_compute|]); by apply not_elem_of_nil in Hs.

Section Nodes.
Context (junk : Z -> Z) (src : sources) `{Hashtab.CharSign} (o : Z) (Lfin : lexer) (Post : option dt_info -> Prop).
Abbreviation parses := (parses junk src o Lfin Post).

Definition same_property (p' p : property) : Prop := p_deleted p' = false /\ read_property p' = read_property p.

Lemma same_property_built p d : property_ok p -> same_value d (contents (p_val p)) ->
  same_property (build_property (p_name p) d) p.
Proof.
  intros Hp [Hw Hc]. split; [done|]. unfold read_property. cbn [p_name p_val build_property].
  rewrite Hc. by rewrite (d_len_contents d Hw), (d_len_contents (p_val p) (po_wf _ Hp)), Hc.
Qed.

Lemma parses_property p : property_ok p -> forall out ps v0 below t toks,
  0 <= tok_code t -> blen below + 9 < YYMAXDEPTH ->
  (forall p', same_property p' p -> parses out ((70, VProplist (p' :: ps)) :: (40, v0) :: below) (t :: toks)) ->
  parses out ((70, VProplist ps) :: (40, v0) :: below) (property_toks p ++ t :: toks).
Proof.
  intros Hp out ps v0 below t toks Ht Hd Hk. unfold property_toks. rewrite <- app_comm_cons, <- app_assoc.
  change ([TCode 59] ++ t :: toks) with (TCode 59 :: t :: toks).
  shift_to 96. intros v1 Hv. cbn in Hv. subst v1.
  assert (forall p', same_property p' p ->
    parses out ((98, VProp p') :: (70, VProplist ps) :: (40, v0) :: below) (t :: toks)) as Hdef.
  { intros p' Hsame.
    apply (reduces junk src o Lfin Post 70 19 [(98, VProp p'); (70, VProplist ps)] 40 v0 98 (VProplist (p' :: ps)));
      [reflexivity|exact Ht|reflexivity|reflexivity|reflexivity|lia|reflexivity|by apply Hk]. }
  set (s := contents (p_val p)) in *. destruct (decide (s = [])) as [Hs|Hs].
  - rewrite Hs. cbn [value_toks app]. shift_to 106. intros v1 _.
    apply (reduces junk src o Lfin Post 98 21 [(106, v1); (96, VPropnodename (p_name p))] 70 (VProplist ps) 106
      (VProp (build_property (p_name p) empty_data)));
      [reflexivity|exact Ht|reflexivity|reflexivity|reflexivity|rewrite blen_cons; lia|reflexivity|].
    apply Hdef, same_property_built; [done|]. by split.
  - assert (value_toks s = TCode 61 :: tail (value_toks s)) as -> by (by destruct s).
    rewrite <- app_comm_cons. shift_to 107. intros v1 _.
    apply parses_value; [done|by apply (po_bytes _ Hp)|by apply (po_len _ Hp)|rewrite !blen_cons; lia|].
    intros d Hsame. shift_to 121. intros v2 _.
    apply (reduces junk src o Lfin Post 98 20 [(121, v2); (117, VData d); (107, v1); (96, VPropnodename (p_name p))]
      70 (VProplist ps) 121 (VProp (build_property (p_name p) d)));
      [reflexivity|exact Ht|reflexivity|reflexivity|reflexivity|rewrite blen_cons; lia|reflexivity|].
    by apply Hdef, same_property_built.
Qed.

Lemma parses_properties l : Forall property_ok l -> forall out ps v0 below t toks,
  0 <= tok_code t -> blen below + 9 < YYMAXDEPTH ->
  (forall ps', Forall2 same_property ps' l ->
     parses out ((70, VProplist (rev ps' ++ ps)) :: (40, v0) :: below) (t :: toks)) ->
  parses out ((70, VProplist ps) :: (40, v0) :: below) (concat (map property_toks l) ++ t :: toks).
Proof.
  induction 1 as [|p l Hp Hl IH]; intros out ps v0 below t toks Ht Hd Hk; [by apply (Hk [])|].
  cbn [map concat]. rewrite <- app_assoc.
  assert (exists t1 ts, concat (map property_toks l) ++ t :: toks = t1 :: ts /\ 0 <= tok_code t1) as (t1 & ts & E & Ht1).
  { destruct l as [|q l]; [by exists t, toks|]. cbn [map concat property_toks app]. by eexists; eexists. }
  rewrite E. apply parses_property; [done|done|done|]. intros p' Hsame. rewrite <- E.
  apply IH; [done|done|]. intros ps' Hps'.
  specialize (Hk (p' :: ps') ltac:(by constructor)). cbn [rev] in Hk. by rewrite <- app_assoc in Hk.
Qed.

Lemma same_properties_read ps' ps : Forall2 same_property ps' ps ->
  map read_property (List.filter (fun p => negb (p_deleted p)) ps') = map read_property ps.
Proof. induction 1 as [|p' p ps' ps [Hd Hr] _ IH]; [done|]. cbn [List.filter]. rewrite Hd. cbn. by rewrite Hr, IH. Qed.

(** The state in which a child, or the end of the children, is expected, and
    the states after them. *)
Definition after_nodes (s : Z) : Z := if s =? 70 then 99 else 113.
Definition after_node (s : Z) : Z := if s =? 96 then 108 else 41.

Definition node_parses (n : node) : Prop := forall out s v below t toks,
  s ∈ [96; 18] -> 0 <= tok_code t -> blen below + 1 + parser_need n < YYMAXDEPTH ->
  (forall n', built n' n -> parses out ((after_node s, VNode n') :: (s, v) :: below) (t :: toks)) ->
  parses out ((s, v) :: below) (node_toks n ++ t :: toks).

Lemma parses_children l :
  Forall (fun c => n_deleted c = false /\ source_node c = true /\
    exists s, n_name c = Some s /\ s <> [] /\ Forall (fun c => c ∈ name_chars) s) l ->
  Forall node_parses l -> forall out s v below toks,
  s ∈ [70; 100] -> blen below + 1 + kids_need l < YYMAXDEPTH ->
  (forall ns, map read_node (List.filter (fun c => negb (n_deleted c)) ns) = map read_node l -> forallb fresh ns = true ->
     parses out ((after_nodes s, VNodelist ns) :: (s, v) :: below) (TCode 125 :: toks)) ->
  parses out ((s, v) :: below) (concat (map child_toks l) ++ TCode 125 :: toks).
Proof.
  induction l as [|c l IH]; intros Hok Hnp out s v below toks Hs Hd Hk.
  - cbn [map concat app]. cbn [kids_need foldr] in Hd.
    apply (reduces junk src o Lfin Post (after_nodes s) 80 [] s v s (VNodelist []));
      [|done|reflexivity|reflexivity|reflexivity|lia| |by apply Hk];
      each_state Hs.
  - apply Forall_cons in Hok as [(Hdel & _ & nm & Hnm & _) Hok]. apply Forall_cons in Hnp as [Hc Hnp].
    unfold kids_need in Hd. cbn [foldr] in Hd. fold (kids_need l) in Hd. pose proof (kids_need_ge l).
    cbn [map concat]. unfold child_toks at 1. rewrite Hnm. cbn [default]. rewrite <- app_assoc.
    rewrite <- app_comm_cons.
    apply (parses_shift _ _ _ _ _ 96).
    { each_state Hs. }
    { done. }
    { assert (9 <= parser_need c) by (rewrite parser_need_unfold; lia). lia. }
    intros v1 Hv. cbn in Hv. subst v1.
    assert (exists t ts, concat (map child_toks l) ++ TCode 125 :: toks = t :: ts /\ 0 <= tok_code t) as (t & ts & E & Ht).
    { destruct l as [|q l]; [by eexists; eexists|]. by eexists; eexists. }
    rewrite E. apply Hc; [by left|done|rewrite blen_cons; lia|].
    intros n' Hb. destruct (built_named n' c nm Hb Hnm) as (m & Em & Hm & Hr).
    apply (reduces junk src o Lfin Post 100 83 [(108, VNode n'); (96, VPropnodename nm)] s v 108 (VNode m)).
    { reflexivity. } { done. } { reflexivity. } { reflexivity. }
    { intros. unfold reduce. change (is_binary 83) with false. cbn iota.
      cbn [map snd rev app as_name as_node mbind outcome_bind]. by rewrite Em. }
    { assert (9 <= parser_need c) by (rewrite parser_need_unfold; lia). lia. }
    { each_state Hs. }
    rewrite <- E. apply IH; [done|done|by right; left|rewrite blen_cons; lia|].
    intros ns Hns Hfr.
    apply (reduces junk src o Lfin Post (after_nodes s) 81 [(113, VNodelist ns); (100, VNode m)] s v 113 (VNodelist (m :: ns)));
      [by vm_compute|done|reflexivity|reflexivity|reflexivity|lia| |].
    { each_state Hs. }
    destruct (fresh_live m Hm) as [Hd' _].
    apply Hk; [cbn [List.filter]; rewrite Hd'; cbn [negb map]; by rewrite Hr, Hns|].
    cbn [forallb]. by rewrite Hm, Hfr.
Qed.

Lemma source_children n : source_node n = true -> Forall (fun c => source_node c = true) (live_children n).
Proof.
  intros Hn. eapply Forall_impl; [apply (no_children _ (source_node_ok n Hn))|]. by intros c (_ & Hc & _).
Qed.

Lemma parses_node n : source_node n = true -> node_parses n.
Proof.
  induction n as [n IH] using node_induction. intros Hn out s v below t toks Hs Ht Hd Hk.
  pose proof (source_node_ok n Hn) as Hok. rewrite parser_need_unfold in Hd.
  pose proof (kids_need_ge (live_children n)).
  assert (Forall node_parses (live_children n)) as IHl.
  { pose proof (source_children n Hn) as Hc. rewrite Forall_forall in *. intros c Hin. apply IH; [|by apply Hc].
    unfold live_children in Hin. apply list_elem_of_In, filter_In in Hin as [Hin _]. by apply list_elem_of_In. }
  rewrite node_toks_unfold. rewrite <- app_comm_cons, <- !app_assoc. cbn [app].
  apply (parses_shift _ _ _ _ _ 40); [each_state Hs|done|lia|]. intros v1 _.
  assert (exists t1 ts, concat (map property_toks (live_properties n)) ++ concat (map child_toks (live_children n)) ++
    TCode 125 :: TCode 59 :: t :: toks = t1 :: ts /\ 0 <= tok_code t1) as (t1 & ts & E & Ht1).
  { destruct (live_properties n) as [|p ps]; [|by eexists; eexists].
    destruct (live_children n) as [|c cs]; by eexists; eexists. }
  rewrite E.
  apply (reduces junk src o Lfin Post 70 18 [] 40 v1 40 (VProplist []));
    [reflexivity|exact Ht1|reflexivity|reflexivity|reflexivity|rewrite blen_cons; lia|reflexivity|].
  rewrite <- E.
  destruct (concat (map child_toks (live_children n)) ++ TCode 125 :: TCode 59 :: t :: toks) as [|t2 ts2] eqn:E2.
  { by destruct (concat _). }
  assert (0 <= tok_code t2) as Ht2.
  { destruct (live_children n) as [|c cs]; cbn in E2; by injection E2 as <- _. }
  apply parses_properties; [apply (no_props _ Hok)|exact Ht2|rewrite blen_cons; lia|].
  intros ps Hps. rewrite <- E2, app_nil_r.
  apply parses_children; [apply (no_children _ Hok)|exact IHl|by left|rewrite !blen_cons; lia|].
  intros ns Hns Hfr. change (after_nodes 70) with 99.
  apply (parses_shift _ _ _ _ _ 111); [by vm_compute|done|rewrite !blen_cons; lia|]. intros v2 _.
  apply (parses_shift _ _ _ _ _ 119); [by vm_compute|done|rewrite !blen_cons; lia|]. intros v3 _.
  apply (reduces junk src o Lfin Post (after_node s) 17
    [(119, v3); (111, v2); (99, VNodelist ns); (70, VProplist (rev ps)); (40, v1)] s v 119 (VNode (build_node (rev ps) ns)));
    [reflexivity|exact Ht|reflexivity|reflexivity|reflexivity|lia|each_state Hs|].
  apply Hk. split; [done|done|done| |exact Hns|exact Hfr].
  unfold live_properties at 1. cbn [build_node proplist]. unfold reverse_properties. rewrite rev_involutive.
  by apply same_properties_read.
Qed.

Lemma parses_reserves l : Forall reserve_ok l -> forall out s v below toks,
  s ∈ [4; 11] -> blen below + blen l + 6 < YYMAXDEPTH ->
  (parses out ((if s =? 4 then 10 else 20, VRe (map (fun r => Reserve (re_address r) (re_size r) []) l)) :: (s, v) :: below)
     (TCode 47 :: toks)) ->
  parses out ((s, v) :: below) (concat (map reserve_toks l) ++ TCode 47 :: toks).
Proof.
  induction 1 as [|r l Hr Hl IH]; intros out s v below toks Hs Hd Hk.
  - cbn [map concat app]. rewrite blen_nil in Hd.
    apply (reduces junk src o Lfin Post (if s =? 4 then 10 else 20) 7 [] s v s (VRe []));
      [each_state Hs|done|reflexivity|reflexivity|reflexivity|lia|each_state Hs|exact Hk].
  - rewrite blen_cons in Hd. pose proof (blen_nonneg l). cbn [map concat reserve_toks app].
    apply (parses_shift _ _ _ _ _ 8); [each_state Hs|done|lia|]. intros v1 _.
    apply (parses_literal junk src o Lfin Post 8 16); [by apply (bool_decide_unpack _)|reflexivity|done|rewrite blen_cons; lia|].
    apply (parses_literal junk src o Lfin Post 16 39); [by apply (bool_decide_unpack _)|reflexivity|done|rewrite !blen_cons; lia|].
    shift_to 69. intros v2 _.
    assert (exists t ts, concat (map reserve_toks l) ++ TCode 47 :: toks = t :: ts /\ 0 <= tok_code t) as (t & ts & E & Ht).
    { destruct l as [|q l]; by eexists; eexists. }
    rewrite E.
    apply (reduces junk src o Lfin Post 11 9 [(69, v2); (39, VInteger (re_size r)); (16, VInteger (re_address r)); (8, v1)]
      s v 69 (VRe [build_reserve_entry (re_address r) (re_size r)]));
      [reflexivity|exact Ht|reflexivity|reflexivity|reflexivity|lia|each_state Hs|].
    rewrite <- E. apply IH; [by right; left|rewrite blen_cons; lia|]. change (11 =? 4) with false. cbn iota.
    apply (reduces junk src o Lfin Post (if s =? 4 then 10 else 20) 8
      [(20, VRe (map (fun r => Reserve (re_address r) (re_size r) []) l)); (11, VRe [build_reserve_entry (re_address r) (re_size r)])]
      s v 20 (VRe (map (fun r => Reserve (re_address r) (re_size r) []) (r :: l))));
      [by vm_compute|done|reflexivity|reflexivity|reflexivity|lia|each_state Hs|exact Hk].
Qed.

(** The whole source. *)
Lemma parses_source d : source_info_ok d ->
  parser_need (dt d) + 5 < YYMAXDEPTH -> blen (reservelist d) + 7 < YYMAXDEPTH ->
  (forall tree cpu, read_node tree = read_node (dt d) -> fresh tree = true -> guess_boot_cpuid tree = Done cpu ->
     Post (Some (build_dt_info DTSF_V1 (reservelist (read_info d)) tree cpu))) ->
  (forall tree, read_node tree = read_node (dt d) -> fresh tree = true -> exists cpu, guess_boot_cpuid tree = Done cpu) ->
  parses None [(0, VNone)] (source_toks d ++ [TCode 0]).
Proof.
  intros [Hn Hroot Hre] Hneed Hlen Hpost Hcpu. unfold source_toks. cbn [app].
  shift_to 1. intros v1 _. shift_to 5. intros v2 _.
  rewrite <- app_assoc, <- app_comm_cons.
  assert (exists t ts, concat (map reserve_toks (reservelist d)) ++ TCode 47 :: node_toks (dt d) ++ [TCode 0] = t :: ts /\
    0 <= tok_code t /\ next_move 5 (Some (symbol t)) = Reduce 3 /\ next_move 3 (Some (symbol t)) = Reduce 5)
    as (t & ts & E & Ht & Hm1 & Hm).
  { destruct (reservelist d) as [|q l]; (eexists; eexists; split; [reflexivity|split; [done|split; by vm_compute]]). }
  rewrite E.
  apply (reduces junk src o Lfin Post 3 3 [(5, v2); (1, v1)] 0 VNone 5 (VFlags DTSF_V1));
    [exact Hm1|exact Ht|reflexivity|reflexivity|reflexivity|done|reflexivity|].
  apply (reduces junk src o Lfin Post 4 5 [(3, VFlags DTSF_V1)] 0 VNone 3 (VFlags DTSF_V1));
    [exact Hm|exact Ht|reflexivity|reflexivity|reflexivity|done|reflexivity|].
  rewrite <- E. apply parses_reserves; [exact Hre|by left|change (blen [(0, VNone)]) with 1; lia|].
  change (4 =? 4) with true. cbn iota. set (re := VRe _).
  shift_to 18. intros v3 _.
  apply (parses_node (dt d) Hn); [by right; left|done|unfold YYMAXDEPTH in *; rewrite !blen_cons, blen_nil; lia|].
  intros n' Hb. change (after_node 18) with 41.
  destruct (built_named n' (dt d) [] Hb Hroot) as (m & Em & Hfr & Hr). destruct (Hcpu m Hr Hfr) as [cpu Hg].
  apply (reduces junk src o Lfin Post 19 11 [(41, VNode n'); (18, v3)] 10 re 41 (VNode m));
    [reflexivity|done|reflexivity|reflexivity| |unfold YYMAXDEPTH; rewrite !blen_cons, blen_nil; lia|reflexivity|].
  { intros. unfold reduce. change (is_binary 11) with false. cbn iota. 
    cbn [map snd rev app as_node mbind outcome_bind]. by rewrite Em. }
  apply (parses_reduce junk src o Lfin Post 2 2 [(19, VNode m); (10, re); (4, VFlags DTSF_V1)] 0 VNone 19 VNone None
    (Some (build_dt_info DTSF_V1 (reservelist (read_info d)) m cpu)));
    [reflexivity|done|reflexivity|reflexivity| |done|reflexivity|].
  { intros. unfold reduce. change (is_binary 2) with false. cbn iota. unfold re.
    cbn [map snd rev app as_node as_re as_flags mbind outcome_bind]. rewrite Hg. done. }
  apply parses_accept; [reflexivity|]. by apply Hpost.
Qed.
End Nodes.

(** ** The boot processor *)

Lemma live_children_read n : live_children (read_node n) = map read_node (live_children n).
Proof.
  rewrite read_node_unfold. unfold live_children at 1. cbn [children].
  induction (live_children n) as [|c l IH]; [done|]. cbn [map List.filter]. rewrite read_node_unfold at 1.
  cbn [n_deleted negb]. by rewrite IH.
Qed.

Lemma live_properties_read n : live_properties (read_node n) = map read_property (live_properties n).
Proof.
  rewrite read_node_unfold. unfold live_properties at 1. cbn [proplist].
  induction (live_properties n) as [|p l IH]; [done|]. cbn [map List.filter read_property build_property p_deleted negb].
  by rewrite IH.
Qed.

Lemma fresh_children n : fresh n = true -> live_children n = children n.
Proof.
  intros Hf. apply fresh_live in Hf as (_ & _ & Hf). unfold live_children.
  induction (children n) as [|c l IH]; [done|]. cbn [forallb] in Hf. apply andb_true_iff in Hf as [Hc Hl].
  apply fresh_live in Hc as [Hc _]. cbn [List.filter]. rewrite Hc. cbn [negb]. by rewrite IH.
Qed.

Lemma find_child_read f l : find_child f (map read_node l) =
  match find_child f l with Some c => Some (read_node <$> c) | None => None end.
Proof.
  induction l as [|c l IH]; [done|]. cbn [map find_child]. rewrite read_node_unfold at 1. cbn [n_name].
  destruct (n_name c) as [cn|]; [|done]. cbn [mbind option_bind]. by destruct (f cn).
Qed.

Lemma get_property_read n name : get_property (read_node n) name = read_property <$> get_property n name.
Proof.
  unfold get_property. rewrite live_properties_read.
  induction (live_properties n) as [|p l IH]; [done|]. cbn [map List.find read_property build_property p_name].
  by destruct (streq _ _).
Qed.

Lemma propval_cell_read p : propval_cell (read_property p) = propval_cell p.
Proof.
  unfold propval_cell, read_property, contents. cbn [build_property p_val d_len d_val].
  destruct (Z.eqb_spec (d_len (p_val p)) 4) as [->|]; [|done]. 
  unfold mread. change (Z.to_nat 4) with 4%nat. change (Z.to_nat 0) with 0%nat. rewrite !drop_0, take_take.
  assert (blen (take 4 (d_val (p_val p))) = Z.min 4 (blen (d_val (p_val p)))) as ->.
  { unfold blen. rewrite length_take. lia. }
  destruct (Z.leb_spec (0 + 4) (blen (d_val (p_val p)))).
  - by replace (0 + 4 <=? Z.min 4 (blen (d_val (p_val p)))) with true by lia.
  - by replace (0 + 4 <=? Z.min 4 (blen (d_val (p_val p)))) with false by lia.
Qed.

Lemma find_child_fresh f l c : find_child f l = Some (Some c) -> forallb fresh l = true -> fresh c = true.
Proof.
  induction l as [|x l IH]; [done|]. cbn [find_child forallb]. intros E [Hx Hl]%andb_true_iff.
  destruct (n_name x) as [cn|]; [|done]. cbn [mbind option_bind] in E. destruct (f cn); [by injection E as <-|by apply IH].
Qed.

Lemma cpus_path t :
  get_node_by_path t (str "/cpus") = find_child (fun cn => bool_decide (cn = str "cpus")) (live_children t).
Proof.
  transitivity (match find_child (fun cn => bool_decide (cn = str "cpus")) (live_children t) with
                | Some c => Some c | None => None end).
  - unfold get_node_by_path. change (S (length (str "/cpus"))) with 6%nat. cbn [Livetree.search_path].
    change (split_slash (skip_slashes (str "/cpus"))) with (str "cpus", @None bytes).
    change (str "/cpus") with (47 :: str "cpus"). cbn iota beta.
    by destruct (find_child _ _) as [[c|]|].
  - by destruct (find_child _ _).
Qed.

Lemma children_read n : children (read_node n) = map read_node (live_children n).
Proof. by rewrite read_node_unfold. Qed.

(** The guess depends on what can be read of the tree. *)
Lemma guess_read t : fresh t = true -> guess_boot_cpuid (read_node t) = guess_boot_cpuid t.
Proof.
  intros Hf. unfold guess_boot_cpuid. rewrite !cpus_path, live_children_read, find_child_read.
  destruct (find_child _ (live_children t)) as [[cpus|]|] eqn:E; [|done|done].
  cbn [fmap option_fmap option_map defined mbind outcome_bind].
  rewrite (fresh_children t Hf) in E. apply find_child_fresh in E; [|apply (fresh_live t Hf)].
  rewrite children_read, (fresh_children cpus E).
  destruct (children cpus) as [|b l]; [done|]. cbn [map]. rewrite get_property_read.
  destruct (get_property b (str "reg")) as [reg|]; [|done]. cbn [fmap option_fmap option_map].
  by rewrite propval_cell_read.
Qed.

Lemma find_child_source f l : Forall (fun c => source_node c = true) l ->
  exists c, find_child f l = Some c /\ match c with Some c => source_node c = true | None => True end.
Proof.
  induction 1 as [|c l Hc Hl (r & IH & Hr)]; [by exists None|]. cbn [find_child].
  destruct (no_name _ (source_node_ok c Hc)) as [s ->]. cbn [mbind option_bind].
  destruct (f s); [by exists (Some c)|by exists r].
Qed.

Lemma guess_source n : source_node n = true -> exists cpu, guess_boot_cpuid (read_node n) = Done cpu.
Proof.
  intros Hn. unfold guess_boot_cpuid. rewrite cpus_path, live_children_read, find_child_read.
  destruct (find_child_source (fun cn => bool_decide (cn = str "cpus")) (live_children n)) as (c & -> & Hc);
    [by apply source_children|]. cbn [defined mbind outcome_bind].
  destruct c as [cpus|]; cbn [fmap option_fmap option_map]; [|by exists 0].
  rewrite children_read. pose proof (source_children cpus Hc) as Hcs.
  destruct (live_children cpus) as [|b l]; [by exists 0|]. cbn [map]. apply Forall_cons in Hcs as [Hb _].
  rewrite get_property_read. destruct (get_property b (str "reg")) as [reg|] eqn:E; [|by exists 0].
  cbn [fmap option_fmap option_map]. 
  assert (property_ok reg) as Hreg.
  { pose proof (no_props _ (source_node_ok b Hb)) as Hp. rewrite Forall_forall in Hp. apply Hp.
    apply List.find_some in E as [Hin _]. by apply list_elem_of_In. }
  change (d_len (p_val (read_property reg))) with (d_len (p_val reg)). rewrite propval_cell_read.
  destruct (Z.eqb_spec (d_len (p_val reg)) 4) as [E4|]; [|by exists 0].
  unfold propval_cell. rewrite E4. change (4 =? 4) with true. cbn iota.
  destruct (po_wf _ Hreg) as [_ Hv]. rewrite mread_Some by lia. by eexists.
Qed.

(** ** Reading back *)

(** The scanner between two calls. *)
Definition resting (c : compiler) : Prop :=
  files (c_lexer c) = [] /\ yy_start (c_lexer c) ∈ starts.

(** What a source gives back: everything that is live, and the boot processor
    guessed from the tree. *)
Record rebuilt (d' d : dt_info) : Prop := {
  rb_flags : dtsflags d' = DTSF_V1;
  rb_reserves : reservelist d' = reservelist (read_info d);
  rb_tree : read_node (dt d') = read_node (dt d);
  rb_fresh : fresh (dt d') = true;
  rb_cpuid : guess_boot_cpuid (read_node (dt d)) = Done (boot_cpuid_phys d')
}.

Lemma source_read_back junk src (CS : Hashtab.CharSign) (d : dt_info) (c : compiler) (fname : path) text :
  source_info d = true -> parser_need (dt d) + 5 < YYMAXDEPTH -> blen (reservelist d) + 7 < YYMAXDEPTH ->
  resting c -> srcfile_depth (c_lexer c) < MAX_SRCFILE_DEPTH ->
  streq fname (str "-") = false -> dt_to_source d = Done text -> file_of src fname = Some text ->
  exists fuel0 d' c', (forall fuel, (fuel0 <= fuel)%nat -> dt_from_source junk src fuel c fname = Done (Some d', c')) /\
    rebuilt d' d /\ resting c' /\ srcfile_depth (c_lexer c') = srcfile_depth (c_lexer c) + 1.
Proof.
  intros Hsrc Hneed Hlen [Hfiles Hst] Hdepth Hname Htext Hfile. apply source_info_spec in Hsrc.
  destruct (scan_source junk src (get_dirname fname) (srcfile_depth (c_lexer c) + 1) d Hsrc) as (text' & Ht & Hscan).
  rewrite Htext in Ht. injection Ht as <-.
  destruct (Hscan (yy_start (c_lexer c)) true (yylval (c_lexer c)) Hst) as (L & v' & Htoks & Hend).
  set (Lfin := Lexer S_PROPNODENAME [] v' false (srcfile_depth (c_lexer c) + 1)) in *.
  assert (tokens junk src (scan_at (get_dirname fname) (srcfile_depth (c_lexer c) + 1) (yy_start (c_lexer c)) true text
    (yylval (c_lexer c))) (source_toks d ++ [TCode 0]) Lfin) as Hall.
  { eapply tokens_app; [exact Htoks|]. refine (tokens_cons _ _ _ (TCode 0) _ _ _ Hend I (tokens_nil _ _ _)). }
  set (Post := fun out => exists d', out = Some d' /\ rebuilt d' d).
  assert (forall tree, read_node tree = read_node (dt d) -> fresh tree = true -> 
    guess_boot_cpuid tree = guess_boot_cpuid (read_node (dt d))) as Hguess.
  { intros tree Hr Hf. by rewrite <- Hr, guess_read. }
  destruct (parses_source junk src (c_orphans c) Lfin Post d Hsrc Hneed Hlen) with (ch := @None Z) (L := 
    scan_at (get_dirname fname) (srcfile_depth (c_lexer c) + 1) (yy_start (c_lexer c)) true text (yylval (c_lexer c)))
    as (k & p & Hk & Hp1 & Hp2 & d' & Hp3 & Hd').
  - intros tree cpu Hr Hf Hg. eexists. split; [reflexivity|]. split; [done|done|done|done|]. by rewrite <- (Hguess tree Hr Hf).
  - intros tree Hr Hf. rewrite (Hguess tree Hr Hf). apply guess_source, Hsrc.
  - exact Hall.
  - exists (k + 3)%nat, d', (Compiler Lfin (c_orphans c)). split; [|split; [exact Hd'|split; [split|]]].
    + intros fuel Hf. unfold dt_from_source. cbn [yy_start files yylval srcfile_depth].
      unfold srcfile_push. cbn [yy_start files yylval treesource_error srcfile_depth].
      replace (MAX_SRCFILE_DEPTH <=? srcfile_depth (c_lexer c)) with false by lia.
      unfold srcfile_relative_open. rewrite Hname. unfold fopen_any_on_path. rewrite Hfiles.
      unfold try_open. rewrite Hfile. cbn [mbind outcome_bind option_bind].
      replace fuel with (k + (fuel - k))%nat by lia. unfold yyparse.
      change (Lexer (yy_start (c_lexer c)) [Srcfile text true (get_dirname fname)] (yylval (c_lexer c)) false
        (srcfile_depth (c_lexer c) + 1)) with (scan_at (get_dirname fname) (srcfile_depth (c_lexer c) + 1)
        (yy_start (c_lexer c)) true text (yylval (c_lexer c))).
      rewrite Hk by lia. cbn [mbind outcome_bind]. change (negb (0 =? 0)) with false. cbn iota.
      rewrite Hp1, Hp2, Hp3. done.
    + done.
    + by apply (bool_decide_unpack (S_PROPNODENAME ∈ starts)).
    + done.
Qed.
