(* ===== verification/Dttyped.v ===== *)
(** Types of the values of the parser of Dtparse: on every stack the states
    follow the automaton and each value has the type of the symbol of its state,
    so that no action meets a value of another type.  A node carries no full
    path: only the checks of the compiler, which the program never runs, compute
    them. *)
From S2P Require Import Prelude Stdio Dtdata Livetree Flattree Dtlex Dtparse Dtscan.
From S2P Require Hashtab.

(** ** The automaton *)

(** The symbol that leads to a state, the right-hand sides of the rules, and the
    states from which a state is entered (the states that [tables_ok] below finds to be enough). *)
Definition yystos : list Z :=
  [ 0; 3; 49; 50; 51; 25; 0; 51; 5; 22; 52; 53; 4; 18; 19; 33; 61; 53; 26; 54; 52; 25; 43; 46;
    47; 61; 62; 63; 64; 65; 66; 67; 68; 69; 70; 71; 72; 73; 74; 61; 27; 55; 16; 22; 23; 26; 74;
    74; 74; 35; 13; 37; 12; 39; 40; 41; 10; 11; 8; 9; 30; 36; 6; 7; 42; 43; 26; 44; 45; 25; 56;
    23; 23; 55; 55; 65; 62; 66; 67; 68; 69; 70; 70; 71; 71; 71; 71; 72; 72; 73; 73; 74; 74; 74;
    15; 16; 17; 22; 57; 76; 77; 25; 55; 38; 17; 17; 25; 29; 55; 57; 77; 28; 57; 76; 63; 25; 25;
    58; 59; 25; 22; 25; 34; 14; 21; 22; 23; 24; 31; 36; 60; 18; 33; 75; 22; 23; 30; 61; 36; 21;
    20; 22; 32; 34; 35; 61; 34; 61; 35 ].

Definition rhs : list (list Z) :=
  [ []; [49; 0]; [51; 52; 54]; [3; 25]; [3; 25; 4; 25]; [50]; [50; 51]; []; [53; 52];
    [5; 61; 61; 25]; [22; 53]; [26; 55]; [54; 26; 55]; [54; 22; 23; 55]; [54; 23; 55];
    [54; 16; 23; 25]; []; [27; 56; 76; 28; 25]; []; [56; 57]; [17; 29; 58; 25]; [17; 25];
    [15; 17; 25]; [22; 57]; [59; 21]; [59; 60; 30]; [59; 31; 75; 32]; [59; 23];
    [59; 24; 33; 21; 34; 61; 34; 61; 35]; [59; 24; 33; 21; 35]; [58; 22]; []; [58; 34];
    [59; 22]; [14; 18; 36]; [36]; [60; 61]; [60; 23]; [60; 22]; [18]; [19]; [33; 62; 35]; [63];
    [64]; [64; 37; 62; 38; 63]; [65]; [64; 13; 65]; [66]; [65; 12; 66]; [67]; [66; 39; 67];
    [68]; [67; 40; 68]; [69]; [68; 41; 69]; [70]; [69; 10; 70]; [69; 11; 70]; [71];
    [70; 36; 71]; [70; 30; 71]; [70; 8; 71]; [70; 9; 71]; [71; 6; 72]; [71; 7; 72]; [72];
    [72; 42; 73]; [72; 43; 73]; [73]; [73; 44; 74]; [73; 26; 74]; [73; 45; 74]; [74]; [61];
    [43; 74]; [46; 74]; [47; 74]; []; [75; 20]; [75; 22]; []; [77; 76]; [77; 57]; [17; 55];
    [16; 17; 25]; [22; 77] ].

Definition preds : list (list Z) :=
  [ []; [0; 3]; [0]; [0; 3]; [0]; [1]; []; [3]; [4; 9; 11]; [4; 9; 11]; [4]; [4; 11]; [5];
    [8; 15; 16; 22; 23; 24; 50; 51; 52; 53; 54; 55; 56; 57; 58; 59; 60; 61; 62; 63; 64; 65; 66; 67; 68; 103; 130; 143; 146];
    [8; 15; 16; 22; 23; 24; 50; 51; 52; 53; 54; 55; 56; 57; 58; 59; 60; 61; 62; 63; 64; 65; 66; 67; 68; 103; 130; 143; 146];
    [8; 15; 16; 22; 23; 24; 50; 51; 52; 53; 54; 55; 56; 57; 58; 59; 60; 61; 62; 63; 64; 65; 66; 67; 68; 103; 130; 143; 146];
    [8]; [9]; [10]; [10]; [11]; [12];
    [15; 22; 23; 24; 50; 51; 52; 53; 54; 55; 56; 57; 58; 59; 60; 61; 62; 63; 64; 65; 66; 67; 68; 103];
    [15; 22; 23; 24; 50; 51; 52; 53; 54; 55; 56; 57; 58; 59; 60; 61; 62; 63; 64; 65; 66; 67; 68; 103];
    [15; 22; 23; 24; 50; 51; 52; 53; 54; 55; 56; 57; 58; 59; 60; 61; 62; 63; 64; 65; 66; 67; 68; 103];
    [15; 22; 23; 24; 50; 51; 52; 53; 54; 55; 56; 57; 58; 59; 60; 61; 62; 63; 64; 65; 66; 67; 68; 103];
    [15]; [15; 51]; [15; 51; 103]; [15; 51; 103]; [15; 50; 51; 103]; [15; 50; 51; 52; 103];
    [15; 50; 51; 52; 53; 103]; [15; 50; 51; 52; 53; 54; 103];
    [15; 50; 51; 52; 53; 54; 55; 103]; [15; 50; 51; 52; 53; 54; 55; 56; 57; 103];
    [15; 50; 51; 52; 53; 54; 55; 56; 57; 58; 59; 60; 61; 103];
    [15; 50; 51; 52; 53; 54; 55; 56; 57; 58; 59; 60; 61; 62; 63; 103];
    [15; 50; 51; 52; 53; 54; 55; 56; 57; 58; 59; 60; 61; 62; 63; 64; 65; 103]; [16];
    [18; 44; 45; 72; 96]; [18]; [19]; [19]; [19]; [19]; [22]; [23]; [24]; [26]; [28]; [28];
    [29; 75]; [30; 77]; [31; 78]; [32; 79]; [33; 80]; [33; 80]; [34; 81; 82]; [34; 81; 82];
    [34; 81; 82]; [34; 81; 82]; [35; 83; 84; 85; 86]; [35; 83; 84; 85; 86]; [36; 87; 88];
    [36; 87; 88]; [37; 89; 90]; [37; 89; 90]; [37; 89; 90]; [39]; [40]; [42]; [43]; [44]; [45];
    [50]; [51]; [52]; [53]; [54]; [55]; [56]; [57]; [58]; [59]; [60]; [61]; [62]; [63]; [64];
    [65]; [66]; [67]; [68]; [70; 97; 100]; [70; 97; 100]; [70; 97; 100]; [70; 97; 100]; [70];
    [70]; [70; 100]; [71]; [72]; [76]; [94]; [95]; [96]; [96]; [96]; [97]; [97]; [99]; [100];
    [100]; [103]; [104]; [105]; [107]; [107]; [111]; [117]; [117]; [117]; [118]; [118]; [118];
    [118]; [118]; [118]; [118]; [118]; [123]; [127]; [128]; [130]; [130]; [130]; [130]; [131];
    [132]; [133]; [133]; [133]; [139]; [139]; [143]; [145]; [146]; [147] ].

Definition states : list Z := Eval vm_compute in map Z.of_nat (seq 0 149).
Definition symbols_of_tokens : list Z := Eval vm_compute in map Z.of_nat (seq 0 48).

Definition preds_of (s : Z) : list Z := preds !!! Z.to_nat s.
Definition rhs_of (rule : Z) : list Z := rhs !!! Z.to_nat rule.
Definition elem (x : Z) (l : list Z) : bool := existsb (Z.eqb x) l.

(** Popping symbols, the last of a right-hand side first, from a stack with
    state [s] on top always succeeds, and leaves a state that satisfies [goal]. *)
Fixpoint pops (goal : Z -> bool) (s : Z) (l : list Z) : bool :=
  match l with
  | [] => goal s
  | x :: l => negb (s =? 0) && (entry yystos s =? x) && forallb (fun q => pops goal q l) (preds_of s)
  end.

Definition enters_state (x s0 s : Z) : bool := elem s0 (preds_of s) && (entry yystos s =? x).

Definition move_ok (s t : Z) : bool :=
  match next_move s (Some t) with
  | Shift s' => enters_state t s s'
  | Reduce rule =>
      (1 <=? rule) && (rule <=? 85) && (blen (rhs_of rule) =? entry yyr2 rule) &&
      pops (fun s0 => enters_state (entry yyr1 rule) s0 (goto_state rule s0)) s (rev (rhs_of rule))
  | _ => true
  end.

Definition state_ok (s : Z) : bool :=
  (negb (s =? 0) && bool_decide (preds_of s = [])) ||
  forallb (move_ok s) symbols_of_tokens &&
  match error_shift s with Some s' => enters_state YYTERROR s s' | None => true end.

(** The tables describe an automaton: every shift, every reduction and every
    shift of the error token leads along its edges. *)
Lemma tables_ok : forallb state_ok states = true.
Proof. vm_compute. reflexivity. Qed.

(** ** Types *)

Fixpoint pathless (n : node) : bool :=
  bool_decide (fullpath n = None) && forallb pathless (children n).

Definition typed_as (x : Z) (v : yystype) : bool :=
  if x =? 17 then match v with VPropnodename _ => true | _ => false end
  else if x =? 20 then match v with VByte _ => true | _ => false end
  else if (x =? 22) || (x =? 23) then match v with VLabelref _ => true | _ => false end
  else if (x =? 50) || (x =? 51) then match v with VFlags _ => true | _ => false end
  else if x =? 52 then match v with VRe _ => true | _ => false end
  else if x =? 53 then match v with VRe (_ :: _) => true | _ => false end
  else if (x =? 54) || (x =? 77) then match v with VNode n => pathless n | _ => false end
  else if x =? 55 then match v with VNode n => pathless n && bool_decide (n_name n = None) | _ => false end
  else if x =? 56 then match v with VProplist _ => true | _ => false end
  else if x =? 57 then match v with VProp _ => true | _ => false end
  else if (x =? 21) || (x =? 58) || (x =? 59) || (x =? 75) then match v with VData _ => true | _ => false end
  else if x =? 60 then match v with VArray _ _ => true | _ => false end
  else if (x =? 18) || (x =? 19) || (61 <=? x) && (x <=? 74) then match v with VInteger _ => true | _ => false end
  else if x =? 76 then match v with VNodelist l => forallb pathless l | _ => false end
  else true.

(** A stack over the bottom state. *)
Inductive typed_stack : list (Z * yystype) -> Prop :=
  | bottom v : typed_stack [(0, v)]
  | above s v s0 v0 st :
      s0 ∈ preds_of s -> typed_as (entry yystos s) v = true -> typed_stack ((s0, v0) :: st) ->
      typed_stack ((s, v) :: (s0, v0) :: st).

Lemma elem_spec x l : elem x l = true <-> x ∈ l.
Proof.
  unfold elem. rewrite existsb_exists. split.
  - intros (y & Hy & ->%Z.eqb_eq). by apply list_elem_of_In.
  - intros Hx. exists x. split; [by apply list_elem_of_In|apply Z.eqb_refl].
Qed.

Lemma pops_stack goal l : forall st s, typed_stack st -> fst <$> head st = Some s -> pops goal s l = true ->
  exists args s0 v0 below, st = args ++ (s0, v0) :: below /\ length args = length l /\
    Forall2 (fun x a => typed_as x (snd a) = true) l args /\ goal s0 = true /\ typed_stack ((s0, v0) :: below).
Proof.
  induction l as [|x l IH]; intros st s Hst Hs Hp.
  - destruct Hst as [v|s1 v s0 v0 st Hin Hv Hst]; cbn in Hs; injection Hs as <-.
    + exists [], 0, v, []. split; [done|]. split; [done|]. split; [constructor|]. split; [exact Hp|constructor].
    + exists [], s1, v, ((s0, v0) :: st). split; [done|]. split; [done|]. split; [constructor|].
      split; [exact Hp|by constructor].
  - cbn [pops] in Hp. apply andb_true_iff in Hp as [Hp Hall]. apply andb_true_iff in Hp as [H0 Hx].
    destruct Hst as [v|s1 v s0 v0 st Hin Hv Hst]; cbn in Hs; injection Hs as <-; [done|].
    rewrite forallb_forall in Hall. apply list_elem_of_In in Hin.
    destruct (IH ((s0, v0) :: st) s0 Hst eq_refl (Hall _ Hin)) as (args & s2 & v2 & below & E & Hl & HF & Hg & Hb).
    exists ((s1, v) :: args), s2, v2, below. rewrite E. split; [done|]. split; [cbn; lia|]. split; [|done].
    constructor; [|done]. cbn [snd]. apply Z.eqb_eq in Hx. by rewrite <- Hx.
Qed.

Lemma preds_state s s0 : s0 ∈ preds_of s -> 0 < s < 149.
Proof.
  intros Hin. unfold preds_of in Hin. destruct (decide (0 < s < 149)) as [|Hn]; [done|]. exfalso.
  assert (preds !!! Z.to_nat s = []) as E; [|rewrite E in Hin; by apply not_elem_of_nil in Hin].
  destruct (Z.leb_spec s 0).
  - by replace (Z.to_nat s) with 0%nat by lia.
  - rewrite list_lookup_total_alt, lookup_ge_None_2; [done|].
    change (length preds) with 149%nat. lia.
Qed.

Lemma states_spec s : s ∈ states <-> 0 <= s < 149.
Proof.
  change states with (map Z.of_nat (seq 0 149)). rewrite list_elem_of_fmap. split.
  - intros (n & -> & Hn). apply elem_of_seq in Hn. lia.
  - intros Hs. exists (Z.to_nat s). split; [lia|]. apply elem_of_seq. lia.
Qed.

Lemma typed_top st s v r : typed_stack st -> st = (s, v) :: r ->
  forallb (move_ok s) symbols_of_tokens = true /\
  match error_shift s with Some s' => enters_state YYTERROR s s' = true | None => True end.
Proof.
  intros Hst E.
  assert (0 <= s < 149 /\ (negb (s =? 0) && bool_decide (preds_of s = []) = false)) as [Hs Hp].
  { destruct Hst as [w|s1 w s0 v0 st Hin Hw Hst]; injection E as <- <- <-; [split; [lia|done]|].
    pose proof (preds_state _ _ Hin). split; [lia|]. rewrite bool_decide_false; [by rewrite andb_false_r|].
    intros Hn. rewrite Hn in Hin. by apply not_elem_of_nil in Hin. }
  pose proof tables_ok as Ht. rewrite forallb_forall in Ht.
  specialize (Ht s). rewrite <- list_elem_of_In, states_spec in Ht. specialize (Ht Hs).
  unfold state_ok in Ht. rewrite Hp in Ht. cbn [orb] in Ht. apply andb_true_iff in Ht as [H1 H2].
  split; [done|]. by destruct (error_shift s).
Qed.

Lemma enter_stack x s0 s v v0 st : enters_state x s0 s = true -> typed_as x v = true ->
  typed_stack ((s0, v0) :: st) -> typed_stack ((s, v) :: (s0, v0) :: st).
Proof.
  intros He Hv Hst. apply andb_true_iff in He as [Hp Hx]. apply Z.eqb_eq in Hx.
  constructor; [by apply elem_spec|by rewrite Hx|done].
Qed.

(** ** Tokens *)

Definition token_symbol (c : Z) : Z := if c <=? 0 then 0 else YYTRANSLATE c.

Lemma token_symbol_range c : token_symbol c ∈ symbols_of_tokens.
Proof.
  unfold token_symbol. destruct (Z.leb_spec c 0); [by apply (bool_decide_unpack (0 ∈ symbols_of_tokens))|].
  unfold YYTRANSLATE. destruct (Z.leb_spec c YYMAXUTOK) as [Hc|Hc];
    [|by apply (bool_decide_unpack (YYUNDEFTOK ∈ symbols_of_tokens))].
  unfold entry. assert (yytranslate !!! Z.to_nat c ∈ yytranslate) as Hin.
  { apply list_elem_of_lookup_total_2. change (length yytranslate) with 280%nat. unfold YYMAXUTOK in Hc. lia. }
  revert Hin. generalize (yytranslate !!! Z.to_nat c). intros x.
  apply (subset_elem yytranslate symbols_of_tokens). by vm_compute.
Qed.

(** A character that is a token has no value. *)
Lemma char_untyped c v : -128 <= c < 256 -> typed_as (token_symbol c) v = true.
Proof.
  intros Hc.
  assert (token_symbol c ∈ 0 :: List.map token_symbol (map Z.of_nat (seq 0 256))) as Hin.
  { destruct (Z.ltb_spec c 0).
    - unfold token_symbol. replace (c <=? 0) with true by lia. by left.
    - right. apply list_elem_of_In, in_map, list_elem_of_In, list_elem_of_fmap. exists (Z.to_nat c).
      split; [lia|]. apply elem_of_seq. lia. }
  revert Hin. generalize (token_symbol c). intros x Hin.
  assert (negb (elem x [17; 18; 19; 20; 21; 22; 23]) && (x <? 50) = true) as Hx.
  { revert Hin. apply (forallb_elem (fun x => negb (elem x [17; 18; 19; 20; 21; 22; 23]) && (x <? 50))). by vm_compute. }
  apply andb_true_iff in Hx as [Hn Hlt]. apply negb_true_iff in Hn. cbn [elem existsb] in Hn.
  unfold typed_as. unfold elem in Hn. cbn [existsb] in Hn. rewrite !orb_false_iff in Hn. destruct Hn as (-> & -> & -> & -> & -> & -> & -> & _).
  repeat (match goal with |- context [x =? ?k] => replace (x =? k) with false by lia end).
  replace (61 <=? x) with false by lia. done.
Qed.

Section Lexer.
Context (junk : Z -> Z) (src : sources) `{Hashtab.CharSign}.

(** Every file holds bytes. *)
Definition byte_sources : Prop :=
  (forall f s, file_of src f = Some s -> Forall is_byte s) /\ Forall is_byte (stdin_text src).
Definition byte_files (L : lexer) : Prop := Forall (fun f => Forall is_byte (sf_rest f)) (files L).

Lemma relative_open_bytes fs fname f name : byte_sources ->
  srcfile_relative_open src fs fname = Done (f, name) -> Forall is_byte f.
Proof.
  intros [Hf Hs]. unfold srcfile_relative_open. destruct (streq _ _); [by intros [= <- _]|].
  unfold fopen_any_on_path.
  assert (forall d f name, try_open src d fname = Some (f, name) -> Forall is_byte f) as Htry.
  { intros d g nm. unfold try_open. destruct (file_of src _) as [g'|] eqn:E; [|done]. intros [= <- _]. by eapply Hf. }
  destruct (try_open src _ fname) as [[g nm]|] eqn:E; [intros [= <- _]; by eapply Htry|].
  assert (forall r, (forall g nm, r = Some (g, nm) -> Forall is_byte g) -> forall g nm,
    fold_left (fun r d => match r with Some _ => r | None => try_open src (Some d) fname end) (search_path src) r = Some (g, nm) ->
    Forall is_byte g) as Hfold.
  { induction (search_path src) as [|d l IH]; intros r Hr g nm; [apply Hr|]. cbn [fold_left]. apply IH.
    destruct r; [done|]. apply Htry. }
  destruct (fold_left _ _ _) as [[g nm]|] eqn:E2; [|done]. intros [= <- _]. by eapply (Hfold None).
Qed.
End Lexer.

Lemma bind_done {A B} (m : outcome A) (k : A -> outcome B) y :
  (m ≫= k) = Done y -> exists x, m = Done x /\ k x = Done y.
Proof. destruct m as [x| | |]; try done. intros E. by exists x. Qed.

(** The computation that gave a result, step by step. *)
Ltac steps_of E :=
  repeat match type of E with
  | (_ ≫= _) = Done _ => apply bind_done in E as (? & ? & E)
  | (let '(_, _) := ?p in _) = Done _ => destruct p
  end.

(** The actions that give a constant token, up to the next one that does not. *)
Ltac plain_actions :=
  repeat match goal with
  | |- (if ?act =? ?k then _ else _) = _ -> _ =>
      destruct (act =? k);
      [first
        [intros [= <- <-]; split; [assumption|vm_compute; reflexivity]
        |let E := fresh in intros E; steps_of E; injection E as <- <-; split; [assumption|vm_compute; reflexivity]
        |idtac]|]
  end.

Section LexerTypes.
Context (junk : Z -> Z) (src : sources) `{Hashtab.CharSign}.

Lemma literal_typed L text L' : literal L text = Done L' ->
  files L' = files L /\ exists x, yylval L' = VInteger x.
Proof.
  unfold literal. destruct (strto 0 text) as [[[neg v] e]|]; [|done]. intros [= <-].
  destruct (2 ^ 64 <=? v), (snd (span _ e)); (split; [done|by eexists]).
Qed.

Lemma char_literal_typed L text L' : char_literal junk L text = Done L' ->
  files L' = files L /\ exists x, yylval L' = VInteger x.
Proof.
  unfold char_literal. intros E. steps_of E. destruct (d_len x =? 1).
  - injection E as <-. split; [done|by eexists].
  - steps_of E. injection E as <-. destruct (2 <? d_len x); (split; [done|by eexists]).
Qed.

Lemma lex_typed act text L tok L' : byte_sources src -> byte_files L -> Forall is_byte text ->
  lex_action junk src act text L = Done (tok, L') ->
  byte_files L' /\ match tok with Some c => typed_as (token_symbol c) (yylval L') = true | None => True end.
Proof.
  intros Hsrc HL Ht. unfold lex_action.
  destruct (act =? 1).
  { intros E. steps_of E. injection E as <- <-. split; [|done]. unfold push_input_file, srcfile_push in *.
    case_match; [done|]. match goal with H : _ = Done x |- _ => rename H into E end. steps_of E. injection E as <-.
    constructor; [|done]. by eapply relative_open_bytes. }
  destruct (act =? 2).
  { intros E. steps_of E. injection E as <- <-. split; [|done]. unfold line_directive in *.
    case_match; [|done]. match goal with H : _ = Done x |- _ => rename H into E end. steps_of E. injection E as <-.
    by case_match. }
  assert (forall L1 L2 c x, files L1 = files L -> yylval L1 = VInteger x -> c = DT_LITERAL \/ c = DT_CHAR_LITERAL ->
    Done (A:=option Z * lexer) (Some c, L1) = Done (tok, L2) -> byte_files L2 /\
    match tok with Some c => typed_as (token_symbol c) (yylval L2) = true | None => True end) as Hint.
  { intros L1 L2 c x Hf Hv Hc [= <- <-]. split; [unfold byte_files; by rewrite Hf|]. rewrite Hv.
    by destruct Hc as [->| ->]; vm_compute. }
  plain_actions.
  { intros E. apply bind_done in E as (L1 & E1 & E). apply literal_typed in E1 as (Hf & x & Hv).
    apply (Hint L1 L' DT_LITERAL x Hf Hv); [by left|exact E]. }
  { intros E. apply bind_done in E as (L1 & E1 & E). apply char_literal_typed in E1 as (Hf & x & Hv).
    apply (Hint L1 L' DT_CHAR_LITERAL x Hf Hv); [by right|exact E]. }
  destruct ((19 <=? act) && (act <=? 21)); [by intros [= <- <-]|].
  plain_actions.
  { destruct text as [|c text]; [done|]. apply Forall_cons in Ht as [Hc _]. intros [= <- <-]. split.
    - destruct (c =? 91); [exact HL|]. by destruct ((c =? 123) || (c =? 59)).
    - apply char_untyped. unfold Hashtab.char_value, is_byte in *. case_match; lia. }
  destruct (act =? 31); [by intros [= <- <-]|done].
Qed.

Lemma yylex_typed fuel : byte_sources src -> forall L c L', byte_files L -> yylex junk src fuel L = Done (c, L') ->
  byte_files L' /\ typed_as (token_symbol c) (yylval L') = true.
Proof.
  intros Hsrc. induction fuel as [|fuel IH]; intros L c L' HL; [done|]. cbn [yylex].
  unfold byte_files in HL. destruct (files L) as [|f fs] eqn:Ef; [done|]. apply Forall_cons in HL as [Hf Hfs].
  destruct (sf_rest f) as [|x xs] eqn:Er.
  - destruct fs as [|g fs].
    + intros [= <- <-]. split; [apply Forall_nil_2|by vm_compute].
    + intros E. eapply IH; [|exact E]. exact Hfs.
  - rewrite <- Er in *. destruct (yy_match _ _ _ _) as [[act n]|]; [|done]. intros E.
    apply bind_done in E as ([tok L1] & E1 & E). apply lex_typed in E1 as [HL1 Ht]; [|done| |by apply Forall_take].
    + destruct tok as [tok|]; [|by eapply IH]. by injection E as <- <-.
    + constructor; [by apply Forall_drop|exact Hfs].
Qed.
End LexerTypes.

(** ** Nodes without paths *)

Abbreviation pathless_all := (forallb pathless).

Lemma pathless_inv n : pathless n = true <-> fullpath n = None /\ pathless_all (children n) = true.
Proof.
  destruct n as [d nm ps cs fp bl ph ls]. cbn [pathless fullpath children].
  rewrite andb_true_iff, bool_decide_eq_true. done.
Qed.

Lemma pathless_insert l i c : pathless_all l = true -> pathless c = true -> pathless_all (<[i := c]> l) = true.
Proof.
  intros Hl Hc. revert i. induction l as [|x l IH]; intros i; [done|]. cbn [forallb] in *.
  apply andb_true_iff in Hl as [Hx Hl]. destruct i as [|i]; cbn [insert list_insert forallb];
    [by rewrite Hc, Hl|by rewrite Hx, IH].
Qed.

Lemma pathless_lookup l i c : pathless_all l = true -> l !! i = Some c -> pathless c = true.
Proof.
  intros Hl E. rewrite forallb_forall in Hl. apply Hl, list_elem_of_In. by eapply list_elem_of_lookup_2.
Qed.

Lemma delete_pathless n : pathless n = true -> pathless (delete_node n) = true.
Proof.
  induction n as [n IH] using node_induction. intros Hn. apply pathless_inv in Hn as [Hf Hc]. apply pathless_inv.
  destruct n as [d nm ps cs fp bl ph ls]. cbn [delete_node fullpath children] in *. split; [done|].
  induction cs as [|c cs IHc]; [done|]. cbn [map forallb] in *. apply Forall_cons in IH as [H1 IH].
  apply andb_true_iff in Hc as [Hx Hc]. rewrite (IHc IH Hc), andb_true_r. destruct (n_deleted c); [done|by apply H1].
Qed.

Lemma delete_by_name_pathless n name m : pathless n = true -> delete_node_by_name n name = Some m -> pathless m = true.
Proof.
  intros Hn. apply pathless_inv in Hn as [Hf Hc]. unfold delete_node_by_name.
  destruct (delete_first_node name (children n)) as [cs|] eqn:E; [|done]. intros [= <-]. apply pathless_inv.
  split; [by destruct n|]. unfold with_children. cbn [children]. revert cs E.
  induction (children n) as [|c l IH]; intros cs E; [by injection E as <-|]. cbn [delete_first_node forallb] in *.
  apply andb_true_iff in Hc as [Hx Hc]. destruct (same_name (n_name c) name) as [[]|]; [| |done]; cbn [mbind option_bind] in E.
  - injection E as <-. cbn [forallb]. by rewrite delete_pathless, Hc.
  - destruct (delete_first_node name l) as [r|] eqn:Er; [|done]. injection E as <-. cbn [forallb].
    by rewrite Hx, (IH Hc r eq_refl).
Qed.

Lemma merge_property_pathless ps n : pathless n = true -> pathless (fold_left merge_property ps n) = true.
Proof.
  revert n. induction ps as [|p ps IH]; intros n Hn; [done|]. cbn [fold_left]. apply IH.
  unfold merge_property. destruct (p_deleted p); [by destruct n|]. destruct (collide_property p (proplist n)); by destruct n.
Qed.

Lemma collide_pathless merge name l r :
  (forall d d', pathless d = true -> merge d = Some d' -> pathless d' = true) -> pathless_all l = true ->
  collide_child merge name l = Some (Some r) -> pathless_all r = true.
Proof.
  intros Hm. revert r. induction l as [|c l IH]; intros r Hl; [done|]. cbn [collide_child forallb] in *.
  apply andb_true_iff in Hl as [Hc Hl]. destruct (same_name (n_name c) name) as [[]|]; [| |done]; cbn [mbind option_bind].
  - destruct (merge c) as [c'|] eqn:E; [|done]. intros [= <-]. cbn [forallb]. by rewrite (Hm _ _ Hc E), Hl.
  - destruct (collide_child merge name l) as [[l'|]|]; [|done|done]. intros [= <-]. cbn [forallb].
    by rewrite Hc, (IH l' Hl eq_refl).
Qed.

Lemma merge_pathless new : pathless new = true -> forall old m, pathless old = true ->
  merge_nodes new old = Some m -> pathless m = true.
Proof.
  induction new as [new IH] using node_induction. intros Hn old m Ho. apply pathless_inv in Hn as [_ Hc].
  rewrite merge_nodes_unfold.
  assert (pathless (fold_left merge_property (proplist new) (undelete old (add_labels (n_labels old) (n_labels new)))) = true)
    as Hu by (apply merge_property_pathless; by destruct old).
  revert Hu. generalize (fold_left merge_property (proplist new) (undelete old (add_labels (n_labels old) (n_labels new)))).
  induction (children new) as [|c l IHl]; intros t Ht; [by intros [= <-]|]. cbn [merge_children forallb] in *.
  apply Forall_cons in IH as [H1 IH]. apply andb_true_iff in Hc as [Hx Hc]. destruct (n_deleted c).
  - destruct (delete_node_by_name t (n_name c)) as [t'|] eqn:E; [|done]. cbn [mbind option_bind].
    apply (IHl IH Hc). by eapply delete_by_name_pathless.
  - destruct (collide_child _ _ _) as [[cs|]|] eqn:E; cbn [mbind option_bind]; [| |done]; apply (IHl IH Hc).
    + apply pathless_inv in Ht as [Hf Hcs]. apply pathless_inv. split; [by destruct t|].
      eapply (collide_pathless (merge_nodes c)); [by apply H1|exact Hcs|exact E].
    + apply pathless_inv in Ht as [Hf Hcs]. apply pathless_inv. split; [by destruct t|].
      unfold add_child, with_children. cbn [children]. rewrite forallb_app, Hcs. cbn. by rewrite Hx.
Qed.

Lemma update_pathless f t ix t' : (forall a b, pathless a = true -> f a = Some b -> pathless b = true) ->
  pathless t = true -> update_at f t ix = Some t' -> pathless t' = true.
Proof.
  intros Hf. revert t t'. induction ix as [|i ix IH]; intros t t' Ht; cbn [update_at]; [by apply Hf|].
  pose proof Ht as Ht2. apply pathless_inv in Ht2 as [Hp Hc].
  destruct (children t !! i) as [c|] eqn:E; [|done]. cbn [mbind option_bind].
  destruct (update_at f c ix) as [c'|] eqn:Eu; [|done]. intros [= <-]. apply pathless_inv. split; [by destruct t|].
  apply pathless_insert; [done|]. eapply IH; [|exact Eu]. by eapply pathless_lookup.
Qed.

Lemma named_pathless n name m : pathless n = true -> name_node n name = Some m -> pathless m = true.
Proof. unfold name_node. intros Hn. destruct (n_name n); [done|]. intros [= <-]. by destruct n. Qed.

Lemma orphan_pathless junk dt new ref e r e' : pathless dt = true -> pathless new = true ->
  add_orphan_node junk dt new ref e = Done (r, e') -> pathless r = true /\ e_output e' = e_output e.
Proof.
  intros Hd Hn. unfold add_orphan_node. intros E. steps_of E. injection E as <- <-. split; [|done].
  unfold defined in *. repeat case_match; try done. simplify_eq.
  apply pathless_inv in Hd as [Hf Hc]. apply pathless_inv. split; [by destruct dt|].
  unfold add_child, with_children. cbn [children]. rewrite forallb_app, Hc. cbn [forallb andb]. rewrite andb_true_r.
  match goal with H : name_node (build_node _ _) _ = Some _ |- _ => eapply named_pathless; [|exact H] end.
  cbn [pathless build_node fullpath children forallb]. rewrite bool_decide_true by done.
  match goal with H : name_node new _ = Some _ |- _ => by rewrite (named_pathless _ _ _ Hn H) end.
Qed.

Lemma at_ref_pathless tree ref f e (unknown : outcome (node * effects)) v e' :
  pathless tree = true -> (forall a b, pathless a = true -> f a = Some b -> pathless b = true) ->
  (forall r e', unknown = Done (r, e') -> pathless r = true /\ e_output e' = e_output e) ->
  at_ref tree ref f e unknown = Done (v, e') ->
  typed_as 54 v = true /\ e_output e' = e_output e.
Proof.
  intros Ht Hf Hu. unfold at_ref. intros E. steps_of E. destruct x as [ix|].
  - steps_of E. injection E as <- <-. split; [|done]. cbn. unfold defined in *. repeat case_match; try done. simplify_eq.
    by eapply update_pathless.
  - apply bind_done in E as ([r e2] & E1 & E). injection E as <- <-. by apply Hu in E1.
Qed.

(** ** Actions *)

Definition typed_values (xs : list Z) (vs : list yystype) : Prop := Forall2 (fun x v => typed_as x v = true) xs vs.

(** The values of a right-hand side, each with the constructor of its type. *)
Ltac typed_constructors :=
  repeat match goal with
  | H : Forall2 _ (_ :: _) _ |- _ => let Hx := fresh "Hx" in apply Forall2_cons_inv_l in H as (? & ? & Hx & H & ->)
  | H : Forall2 _ [] _ |- _ => apply Forall2_nil_inv_l in H as ->
  end;
  repeat match goal with
  | H : typed_as ?k ?v = true |- _ =>
      let r := eval vm_compute in (typed_as k VNone) in
      lazymatch r with
      | true => clear H
      | false => is_var v; destruct v; try discriminate H
      end
  end.

Section Reductions.
Context (junk : Z -> Z) (src : sources).

Definition typed_output (e' e : effects) : Prop :=
  e_output e' = e_output e \/ exists d, e_output e' = Some d /\ pathless (dt d) = true.

Lemma binary_typed rule a b r : binary rule a b = Done (Some r) -> exists x, r = VInteger x.
Proof.
  unfold binary, bool_int. intros E.
  repeat match type of E with (if ?c then _ else _) = _ => destruct c end; try done; injection E as <-; by eexists.
Qed.

Definition binary_rules : list Z := [46; 48; 50; 52; 54; 56; 57; 59; 60; 61; 62; 63; 64; 66; 67; 69; 70; 71].

Lemma reduce_binary_typed fs rule vs below e v e' : rule ∈ binary_rules ->
  reduce junk src fs rule vs below e = Done (Some (v, e')) ->
  typed_as (entry yyr1 rule) v = true /\ typed_output e' e.
Proof.
  intros Hr E. unfold reduce in E. assert (is_binary rule = true) as Hb by (by apply bool_decide_eq_true).
  rewrite Hb in E. destruct vs as [|a [|b [|c [|? ?]]]]; try done. steps_of E.
  injection E as E1. assert (exists z, v = VInteger z) as [z ->].
  { destruct x1 as [y|]; injection E1 as <- <-; [|by eexists].
    match goal with H : binary _ _ _ = _ |- _ => by apply binary_typed in H end. }
  split.
  - revert Hr. generalize z. clear. intros z Hr.
    repeat (apply elem_of_cons in Hr as [->|Hr]; [vm_compute; reflexivity|]). by apply not_elem_of_nil in Hr.
  - left. by destruct x1; injection E1 as _ <-.
Qed.

(** One rule: the values of its right-hand side, the steps of its action, and
    what is left when the result has its type at sight. *)
Ltac typed_rule Hv E :=
  match type of Hv with Forall2 _ ?r _ => let r' := eval vm_compute in r in change r with r' in Hv end;
  typed_constructors; unfold reduce in E;
  match type of E with context [is_binary ?k] => change (is_binary k) with false in E end;
  cbn iota in E;
  cbn [as_name as_ref as_byte as_data as_array as_prop as_proplist as_node as_nodelist as_re as_integer
    as_flags mbind outcome_bind] in E;
  steps_of E; try (injection E as <- <-);
  try (split; [vm_compute; reflexivity|left; (reflexivity || (case_match; reflexivity))]).

Lemma reduce_data_typed fs rule vs below e v e' :
  rule ∈ [1; 3; 4; 5; 6; 7; 8; 9; 18; 19; 20; 21; 22; 23; 24; 25; 26; 27; 28; 29; 30; 31; 32; 33; 34; 35; 36; 37; 38;
    39; 40; 41; 42; 43; 44; 45; 47; 49; 51; 53; 55; 58; 65; 68; 72; 73; 74; 75; 76; 77; 78; 79; 80; 82] ->
  typed_values (rhs_of rule) vs ->
  reduce junk src fs rule vs below e = Done (Some (v, e')) ->
  typed_as (entry yyr1 rule) v = true /\ typed_output e' e.
Proof.
  intros Hr Hv E. unfold typed_values in Hv.
  repeat (apply elem_of_cons in Hr as [->|Hr]; [typed_rule Hv E|]);
    [|done|by apply not_elem_of_nil in Hr].
  case_match; [done|]. steps_of E. injection E as <- <-. split; [vm_compute; reflexivity|by left].
Qed.

Lemma defined_done {A} (o : option A) x : defined o = Done x -> o = Some x.
Proof. destruct o; [|done]. by intros [= ->]. Qed.

Lemma typed_54 x n : x = 54 \/ x = 77 -> typed_as x (VNode n) = pathless n.
Proof. by intros [->| ->]. Qed.

Lemma typed_55 n : typed_as 55 (VNode n) = true -> pathless n = true /\ n_name n = None.
Proof. intros E. change (pathless n && bool_decide (n_name n = None) = true) in E. apply andb_true_iff in E as [Hp Hn]. by apply bool_decide_eq_true in Hn. Qed.

Lemma label_pathless n l : pathless n = true -> pathless (label_node n l) = true.
Proof. by destruct n. Qed.

Lemma build_pathless ps ns : pathless_all ns = true -> typed_as 55 (VNode (build_node ps ns)) = true.
Proof. intros Hn. change (pathless_all ns && true = true). by rewrite Hn. Qed.

Lemma reduce_node_typed fs rule vs below e v e' :
  rule ∈ [2; 10; 11; 12; 13; 14; 15; 16; 17; 81; 83; 84; 85] ->
  typed_values (rhs_of rule) vs ->
  reduce junk src fs rule vs below e = Done (Some (v, e')) ->
  typed_as (entry yyr1 rule) v = true /\ typed_output e' e.
Proof.
  intros Hr Hv E. unfold typed_values in Hv.
  repeat (apply elem_of_cons in Hr as [->|Hr];
    [typed_rule Hv E;
     repeat match goal with
     | H : typed_as 55 (VNode _) = true |- _ => apply typed_55 in H as [? ?]
     | H : typed_as ?k (VNode _) = true |- _ => rewrite (typed_54 k) in H by auto
     | H : defined _ = Done _ |- _ => apply defined_done in H
     end|]);
    [..|by apply not_elem_of_nil in Hr].
  - split; [vm_compute; reflexivity|]. right. by eexists.
  - destruct l as [|r l]; [done|]. injection E as <- <-. split; [vm_compute; reflexivity|by left].
  - split; [|by left]. change (pathless x0 = true). eapply named_pathless; [|exact H]. assumption.
  - split; [|by left]. change (pathless x = true). eapply merge_pathless; [| |exact H]; assumption.
  - injection E as ->. eapply at_ref_pathless in H as [? ?]; [split; [done|by left]|done| |].
    + intros a b Ha Hm. eapply merge_pathless; [| |exact Hm]; [assumption|by apply label_pathless].
    + intros r e2 [= <- <-]. done.
  - injection E as ->. eapply at_ref_pathless in H as [? ?]; [split; [done|by left]|done| |].
    + intros a b Ha Hm. eapply merge_pathless; [| |exact Hm]; assumption.
    + intros r e2 Eo. steps_of Eo. case_match; [by injection Eo as <- <-|eapply orphan_pathless; [| |exact Eo]; assumption].
  - injection E as ->. eapply at_ref_pathless in H as [? ?]; [split; [done|by left]|done| |].
    + intros a b Ha [= <-]. by apply delete_pathless.
    + intros r e2 [= <- <-]. done.
  - split; [|by left]. change (pathless x = true). by eapply named_pathless; [|exact H].
  - split; [|by left]. by apply build_pathless.
  - split; [|by left]. change (pathless n && pathless_all l = true). by rewrite Hx.
  - split; [|by left]. change (pathless x = true). eapply named_pathless; [|exact H]. assumption.
  - split; [|by left]. change (pathless x1 = true). by eapply named_pathless; [|exact H].
  - split; [|by left]. change (pathless (label_node n s) = true). by apply label_pathless.
Qed.

(** Every action gives a value of the type of its rule. *)
Lemma reduce_typed fs rule vs below e v e' : 1 <= rule <= 85 -> typed_values (rhs_of rule) vs ->
  reduce junk src fs rule vs below e = Done (Some (v, e')) ->
  typed_as (entry yyr1 rule) v = true /\ typed_output e' e.
Proof.
  intros Hr Hv E.
  assert (rule ∈ binary_rules ++ [2; 10; 11; 12; 13; 14; 15; 16; 17; 81; 83; 84; 85] ++
    [1; 3; 4; 5; 6; 7; 8; 9; 18; 19; 20; 21; 22; 23; 24; 25; 26; 27; 28; 29; 30; 31; 32; 33; 34; 35; 36; 37; 38;
    39; 40; 41; 42; 43; 44; 45; 47; 49; 51; 53; 55; 58; 65; 68; 72; 73; 74; 75; 76; 77; 78; 79; 80; 82]) as Hin.
  { assert (rule ∈ map Z.of_nat (seq 1 85)) as Hs.
    { apply list_elem_of_fmap. exists (Z.to_nat rule). split; [lia|]. apply elem_of_seq. lia. }
    revert Hs. apply subset_elem. by vm_compute. }
  apply elem_of_app in Hin as [Hin|Hin]; [by eapply reduce_binary_typed|].
  apply elem_of_app in Hin as [Hin|Hin]; [by eapply reduce_node_typed|by eapply reduce_data_typed].
Qed.
End Reductions.

(** ** The parser *)

Section TypedParser.
Context (junk : Z -> Z) (src : sources) `{Hashtab.CharSign}.

Definition output_typed (out : option dt_info) : Prop :=
  match out with Some d => pathless (dt d) = true | None => True end.

Record well_typed (p : parser) : Prop := {
  wt_stack : typed_stack (stack p);
  wt_token : match yychar p with Some c => typed_as (token_symbol c) (yylval (scanner p)) = true | None => True end;
  wt_files : byte_files (scanner p);
  wt_output : output_typed (parser_output p)
}.

Definition typed_result (r : parser + (Z * parser)) : Prop :=
  match r with inl p => well_typed p | inr (_, p) => output_typed (parser_output p) end.

(** The actions that do more than look at their values: they copy data, look up
    references, merge trees, shift, or guess the boot processor. *)
Definition working_rules : list Z := [2; 12; 13; 14; 15; 24; 25; 26; 28; 29; 36; 37; 63; 64; 78].

Lemma reduce_safe fs rule vs below e : 1 <= rule <= 85 -> rule ∉ working_rules -> typed_values (rhs_of rule) vs ->
  reduce junk src fs rule vs below e <> Fault.
Proof.
  intros Hr Hw Hv.
  assert (rule ∈ List.filter (fun r => negb (elem r working_rules)) (map Z.of_nat (seq 1 85))) as Hin.
  { apply list_elem_of_In, filter_In. split.
    - apply in_map_iff. exists (Z.to_nat rule). split; [lia|]. apply in_seq. lia.
    - apply negb_true_iff. destruct (elem rule working_rules) eqn:E; [|done]. by apply elem_spec in E. }
  clear Hr Hw. match type of Hin with _ ∈ ?l => let l' := eval vm_compute in l in change l with l' in Hin end.
  unfold typed_values in Hv.
  repeat (apply elem_of_cons in Hin as [->|Hin];
    [match type of Hv with Forall2 _ ?r _ => let r' := eval vm_compute in r in change r with r' in Hv end;
     typed_constructors; unfold reduce;
     match goal with |- context [is_binary ?k] => let b := eval vm_compute in (is_binary k) in change (is_binary k) with b end;
     cbn iota; cbn [as_name as_ref as_byte as_data as_array as_prop as_proplist as_node as_nodelist as_re as_integer
       as_flags mbind outcome_bind];
     try discriminate|]);
    [..|by apply not_elem_of_nil in Hin].
  - by destruct l.
  - apply typed_55 in Hx0 as [_ Hn]. unfold name_node. by rewrite Hn.
  - unfold binary. cbn. by destruct (_ =? 0).
  - unfold binary. cbn. by destruct (_ =? 0).
  - apply typed_55 in Hx0 as [_ Hn]. unfold name_node. by rewrite Hn.
Qed.

Lemma push_typed p s0 v0 st s v x : well_typed p -> typed_stack ((s0, v0) :: st) -> enters_state x s0 s = true ->
  typed_as x v = true -> typed_result (push p s v ((s0, v0) :: st)).
Proof.
  intros [_ Ht Hf Ho] Hst He Hv. unfold push. destruct (YYMAXDEPTH <=? _); [exact Ho|].
  split; [by eapply enter_stack|exact Ht|exact Hf|exact Ho].
Qed.

Lemma with_token_typed p c : well_typed p ->
  match c with Some c => typed_as (token_symbol c) (yylval (scanner p)) = true | None => True end ->
  well_typed (Parser (stack p) c (scanner p) (next_orphan_fragment p) (parser_output p)).
Proof. intros [Hs _ Hf Ho] Hc. by split. Qed.

Lemma report_typed p : well_typed p -> well_typed (report p).
Proof. intros [Hs Ht Hf Ho]. by split. Qed.

Lemma recover_typed p st : well_typed p -> typed_stack st -> typed_result (yyerrlab1 p st).
Proof.
  intros Hp Hst. induction Hst as [v|s v s0 v0 st Hin Hv Hst IH]; cbn [yyerrlab1].
  - destruct (typed_top [(0, v)] 0 v [] ltac:(constructor) eq_refl) as [_ He].
    destruct (error_shift 0) as [s'|]; [|by destruct Hp]. eapply push_typed; [done|constructor|exact He|done].
  - assert (typed_stack ((s, v) :: (s0, v0) :: st)) as Hfull by (by constructor).
    destruct (typed_top _ _ _ _ Hfull eq_refl) as [_ He].
    destruct (error_shift s) as [s'|]; [|done]. by eapply push_typed.
Qed.

(** What the tables say of a move from the state on top of the stack. *)
Lemma typed_move st s v r ch : typed_stack st -> st = (s, v) :: r -> (forall t, ch = Some t -> t ∈ symbols_of_tokens) ->
  match next_move s ch with
  | Shift s' => exists t, ch = Some t /\ enters_state t s s' = true
  | Reduce rule => 1 <= rule <= 85 /\ blen (rhs_of rule) = entry yyr2 rule /\
      pops (fun s0 => enters_state (entry yyr1 rule) s0 (goto_state rule s0)) s (rev (rhs_of rule)) = true
  | _ => True
  end.
Proof.
  intros Hst Hr Hch. destruct (typed_top st s v r Hst Hr) as [Hm _]. rewrite forallb_forall in Hm.
  assert (forall t, t ∈ symbols_of_tokens -> move_ok s t = true) as Hok by (intros t Ht; by apply Hm, list_elem_of_In).
  destruct ch as [t|].
  - specialize (Hok t (Hch t eq_refl)). unfold move_ok in Hok. destruct (next_move s (Some t)); try done.
    + by exists t.
    + rewrite !andb_true_iff in Hok. destruct Hok as (((H1 & H2) & H3) & H4). split; [lia|]. split; [lia|done].
  - specialize (Hok 0 ltac:(by apply (bool_decide_unpack (0 ∈ symbols_of_tokens)))). unfold move_ok, next_move in *.
    destruct (_ =? YYPACT_NINF); [|done]. unfold default_move in *. destruct (_ =? 0); [done|].
    rewrite !andb_true_iff in Hok. destruct Hok as (((H1 & H2) & H3) & H4). split; [lia|]. split; [lia|done].
Qed.

Lemma Forall2_rev {A B} (P : A -> B -> Prop) l k : Forall2 P l k -> Forall2 P (rev l) (rev k).
Proof. induction 1 as [|x y l k Hx _ IH]; [constructor|]. cbn [rev]. apply Forall2_app; [done|by repeat constructor]. Qed.

(** A reduction pops the values of its right-hand side. *)
Lemma typed_reduction p s v st rule : well_typed p -> stack p = (s, v) :: st ->
  1 <= rule <= 85 -> blen (rhs_of rule) = entry yyr2 rule ->
  pops (fun s0 => enters_state (entry yyr1 rule) s0 (goto_state rule s0)) s (rev (rhs_of rule)) = true ->
  exists args s0 v0 below, stack p = args ++ (s0, v0) :: below /\ length args = Z.to_nat (entry yyr2 rule) /\
    typed_values (rhs_of rule) (rev (map snd args)) /\ enters_state (entry yyr1 rule) s0 (goto_state rule s0) = true /\
    typed_stack ((s0, v0) :: below).
Proof.
  intros Hp E Hr Hl Hpop.
  pose proof (pops_stack _ _ (stack p) s (wt_stack p Hp) ltac:(by rewrite E) Hpop)
    as (args & s0 & v0 & below & Es & Hla & HF & Hg & Hb).
  exists args, s0, v0, below. split; [done|]. split; [rewrite Hla, length_rev; unfold blen in Hl; lia|].
  split; [|done]. unfold typed_values. rewrite <- (rev_involutive (rhs_of rule)). apply Forall2_rev.
  clear -HF. induction HF; cbn [map]; by constructor.
Qed.

Lemma reduction_typed p s v st rule r : well_typed p -> stack p = (s, v) :: st ->
  1 <= rule <= 85 -> blen (rhs_of rule) = entry yyr2 rule ->
  pops (fun s0 => enters_state (entry yyr1 rule) s0 (goto_state rule s0)) s (rev (rhs_of rule)) = true ->
  do_reduce junk src p rule = Done r -> typed_result r.
Proof.
  intros Hp E Hr Hl Hpop Hd.
  destruct (typed_reduction p s v st rule Hp E Hr Hl Hpop) as (args & s0 & v0 & below & Es & Hn & Hv & Hg & Hb).
  unfold do_reduce in Hd. rewrite Es, <- Hn, take_app_length, drop_app_length in Hd.
  apply bind_done in Hd as (res & Er & Hd). destruct res as [[w e]|].
  - apply reduce_typed in Er as [Hw Ho]; [|done|done]. injection Hd as <-.
    eapply push_typed; [|exact Hb|exact Hg|exact Hw]. destruct Hp as [Hs Ht Hf Hop]. split; [by rewrite Es in Hs|exact Ht|exact Hf|].
    cbn [parser_output]. destruct Ho as [->|(d & -> & Hd)]; [exact Hop|exact Hd].
  - injection Hd as <-. exact (recover_typed (report p) ((s0, v0) :: below) (report_typed p Hp) Hb).
Qed.

Definition look_ahead (p : parser) : option Z :=
  match yychar p with Some c => Some (token_symbol c) | None => None end.

Lemma look_ahead_symbol p t : look_ahead p = Some t -> t ∈ symbols_of_tokens.
Proof. unfold look_ahead. destruct (yychar p); [|done]. intros [= <-]. apply token_symbol_range. Qed.

Lemma yystep_typed fuel p r : byte_sources src -> well_typed p -> yystep junk src fuel p = Done r -> typed_result r.
Proof.
  intros Hsrc Hp E. unfold yystep in E. destruct (stack p) as [|[s v] st] eqn:Es; [by unfold yystate in E; rewrite Es in E|].
  unfold yystate in E. rewrite Es in E. cbn [mbind outcome_bind] in E. change (match yychar p with
    Some c => Some (if c <=? 0 then 0 else YYTRANSLATE c) | None => None end) with (look_ahead p) in E.
  pose proof (typed_move (stack p) s v st (look_ahead p) (wt_stack p Hp) Es (look_ahead_symbol p)) as Hm.
  destruct (next_move s (look_ahead p)) as [s'|rule| | |].
  - destruct Hm as (t & Ht & Hent). injection E as <-.
    pose proof (wt_stack p Hp) as Hs. rewrite Es in Hs. pose proof (wt_token p Hp) as Hw. unfold look_ahead in Ht.
    assert (well_typed (Parser (stack p) (match yychar p with Some 0 => Some 0 | _ => None end) (scanner p)
      (next_orphan_fragment p) (parser_output p))) as Hq.
    { apply with_token_typed; [done|]. by destruct (yychar p) as [[| |]|]. }
    rewrite Es in Hq. apply (push_typed _ s v st _ _ t Hq Hs Hent).
    destruct (yychar p); [|done]. by injection Ht as <-.
  - destruct Hm as (H1 & H2 & H3). by eapply reduction_typed.
  - injection E as <-. apply Hp.
  - injection E as <-. pose proof (recover_typed (report p) (stack p) (report_typed p Hp) (wt_stack p Hp)) as Hrec.
    by rewrite Es in Hrec.
  - apply bind_done in E as ([c L] & El & E). injection E as <-.
    apply yylex_typed in El as [HL Ht]; [|done|apply Hp]. destruct Hp as [Hs _ _ Ho]. split; [by rewrite Es in Hs|..|done|done].
    cbn [yychar scanner]. destruct (Z.leb_spec c 0); [|done]. 
    unfold token_symbol in *. by replace (c <=? 0) with true in Ht by lia.
Qed.

Lemma start_typed L o : byte_files L -> well_typed (Parser [(0, VNone)] None L o None).
Proof. intros HL. split; [constructor|done|exact HL|done]. Qed.

Lemma yyrun_typed fuel : byte_sources src -> forall p r q, well_typed p -> yyrun junk src fuel p = Done (r, q) ->
  output_typed (parser_output q).
Proof.
  intros Hsrc. induction fuel as [|n IH]; intros p r q Hp; [done|]. cbn [yyrun]. intros E.
  apply bind_done in E as (res & Es & E). apply yystep_typed in Es; [|done|done].
  destruct res as [p'|[r' q']]; [by eapply IH|]. by injection E as <- <-.
Qed.

(** No tree that was parsed carries a path. *)
Lemma parsed_pathless fuel c fname d c' : byte_sources src -> byte_files (c_lexer c) ->
  dt_from_source junk src fuel c fname = Done (Some d, c') -> pathless (dt d) = true.
Proof.
  intros Hsrc Hc E. unfold dt_from_source in E. apply bind_done in E as (L & EL & E).
  apply bind_done in E as ([r q] & Eq & E). destruct (negb (r =? 0)); [done|]. destruct (treesource_error _); [done|].
  injection E as Eo <-. apply yyrun_typed in Eq; [by rewrite Eo in Eq|done|]. apply start_typed.
  unfold srcfile_push in EL. destruct (MAX_SRCFILE_DEPTH <=? _); [done|].
  apply bind_done in EL as ([f name] & Ef & EL). injection EL as <-. constructor; [|exact Hc].
  by eapply relative_open_bytes.
Qed.

(** A round of the automaton. *)
Definition round (p q : parser) : Prop := exists fuel, yystep junk src fuel p = Done (inl q).

Lemma rounds_typed p q : byte_sources src -> rtc round p q -> well_typed p -> well_typed q.
Proof.
  intros Hsrc. induction 1 as [p|p q r [fuel E] _ IH]; intros Hp; [done|]. apply IH.
  by apply yystep_typed in E.
Qed.

Lemma round_safe p s v st rule : well_typed p -> stack p = (s, v) :: st ->
  next_move s (look_ahead p) = Reduce rule -> rule ∉ working_rules -> forall fuel, yystep junk src fuel p <> Fault.
Proof.
  intros Hp Es Hm Hw fuel. pose proof (typed_move (stack p) s v st (look_ahead p) (wt_stack p Hp) Es (look_ahead_symbol p)) as Ht.
  rewrite Hm in Ht. destruct Ht as (H1 & H2 & H3).
  unfold yystep, yystate. rewrite Es. cbn [mbind outcome_bind]. change (match yychar p with
    Some c => Some (if c <=? 0 then 0 else YYTRANSLATE c) | None => None end) with (look_ahead p). rewrite Hm.
  destruct (typed_reduction p s v st rule Hp Es H1 H2 H3) as (args & s0 & v0 & below & E & Hn & Hv & _).
  unfold do_reduce. rewrite E, <- Hn, take_app_length, drop_app_length.
  match goal with |- (?m ≫= _) <> _ => pose proof (reduce_safe (files (scanner p)) rule (rev (map snd args))
    (map snd ((s0, v0) :: below)) (Effects (treesource_error (scanner p)) (next_orphan_fragment p) (parser_output p))
    H1 Hw Hv) as Hs; destruct m as [[[w e]|]| | |] end; done.
Qed.

(** ** Properties *)

(** C11. Type soundness of the parser: from the start, on any source files of
    bytes, every state the automaton reaches is well typed.  The states on the
    stack follow the edges of the automaton, each value has the type of the
    symbol of its state, the value of the look-ahead has the type of its token,
    and no node carries a path; so no reduction, of the rules that only look at
    their values, ever meets a value of the wrong type or too short a stack. *)
Theorem parser_types L o p : byte_sources src -> byte_files L ->
  rtc round (Parser [(0, VNone)] None L o None) p ->
  well_typed p /\
  forall s v st rule, stack p = (s, v) :: st -> next_move s (look_ahead p) = Reduce rule -> rule ∉ working_rules ->
    forall fuel, yystep junk src fuel p <> Fault.
Proof.
  intros Hsrc HL Hr. assert (well_typed p) as Hp by (by eapply rounds_typed; [|exact Hr|apply start_typed]).
  split; [done|]. intros s v st rule. by apply round_safe.
Qed.
End TypedParser.

(** ** A small source *)

Definition sample_source : bytes := str "/dts-v1/; / { a = <1>; };".
Definition one_source : sources := Sources [] (fun p => if bool_decide (p = str "a.dts") then Some sample_source else None) [].
#[local] Instance signed_char : Hashtab.CharSign := true.

Lemma parser_types_witness :
  let L := Lexer 1 [Srcfile sample_source true None] VNone false 1 in
  well_typed (Parser [(1, VNone); (0, VNone)] None (Lexer 7 [Srcfile (drop 8 sample_source) false None] VNone false 1) 0 None) /\
  byte_files L.
Proof.
  intros L. assert (byte_files L) as HL by (constructor; [by apply is_byte_check|constructor]).
  split; [|exact HL].
  apply (parser_types no_junk one_source L 0).
  - split; [|constructor]. intros f s. cbn. case_bool_decide; [|done]. intros [= <-]. by apply is_byte_check.
  - exact HL.
  - eapply rtc_l; [exists 3%nat; vm_compute; reflexivity|]. eapply rtc_l; [exists 3%nat; vm_compute; reflexivity|].
    apply rtc_refl.
Defined.
