(* ===== verification/Dtcc.v ===== *)
(** The device tree compiler of the program (dtcc.c): a blob is written as a
    source, and a source compiled into a blob, each with the labels of its
    nodes collected in /__symbols__ ([generate_label_tree] of
    libdtc/livetree.c).

    Between two calls there remain the scanner, the number of orphan fragments
    and the counter of [get_node_phandle]. *)
From S2P Require Import Prelude Util PolicyFile Boot Dtdata Livetree Flattree Dtlex Dtparse Treesource Dtscan Dtsource Dtgrammar Dttyped.
From S2P Require Hashtab.

(** ** The labels of a tree *)

Definition PHANDLE_LEGACY := 1.
Definition PHANDLE_EPAPR := 2.
Definition phandle_format := PHANDLE_EPAPR.

Fixpoint any_label_tree (n : node) : bool :=
  match n_labels n with _ :: _ => true | [] => false end ||
  (fix any (l : list node) : bool :=
     match l with
     | [] => false
     | c :: l => if n_deleted c then any l else any_label_tree c || any l
     end) (children n).

Definition build_and_name_child_node (parent : node) (name : bytes) : option node :=
  n ← name_node (build_node [] []) name; Some (add_child parent n).

(** The tree, and the place of the node among its children. *)
Definition build_root_node (dt : node) (name : bytes) : option (node * nat) :=
  an ← child_place (fun cn => streq cn name) 0 (children dt);
  match an with
  | Some i => Some (dt, i)
  | None => dt' ← build_and_name_child_node dt name; Some (dt', length (children dt))
  end.

Definition set_phandle (n : node) (ph : Z) : node :=
  Node (n_deleted n) (n_name n) (proplist n) (children n) (fullpath n) (basenamelen n) ph (n_labels n).

(** Every phandle that is in use belongs to a node. *)
Fixpoint node_count (n : node) : nat :=
  S ((fix count (l : list node) : nat := match l with [] => O | c :: l => (node_count c + count l)%nat end) (children n)).

Section Dtcc.
Context (junk : Z -> Z).

(** [while (get_node_by_phandle(root, phandle)) phandle++]. *)
Fixpoint free_phandle (fuel : nat) (root : node) (ph : Z) : outcome Z :=
  match fuel with
  | O => Diverge
  | S fuel =>
      r ← defined (get_node_by_phandle root ph);
      match r with Some _ => free_phandle fuel root (u32 (ph + 1)) | None => Done ph end
  end.

Definition add_phandle (format : Z) (name : bytes) (ph : Z) (n : node) : outcome node :=
  match get_property n name with
  | Some _ => Done n
  | None =>
      if Z.land phandle_format format =? 0 then Done n
      else d ← data_append_cell junk empty_data ph; Done (add_property n (build_property name d))
  end.

(** The static variable is an argument and a result. *)
Definition get_node_phandle (root : node) (ix : place) (ph : Z) : outcome (node * Z) :=
  n ← defined (node_at root ix);
  if negb (phandle n =? 0) && negb (phandle n =? 2 ^ 32 - 1) then Done (root, ph)
  else
    ph ← free_phandle (S (node_count root)) root ph;
    n ← add_phandle PHANDLE_LEGACY (str "linux,phandle") ph (set_phandle n ph);
    n ← add_phandle PHANDLE_EPAPR (str "phandle") ph n;
    root ← defined (update_at (fun _ => Some n) root ix);
    Done (root, ph).

(** The labels of one node; [strlen] of a path that was never computed faults. *)
Fixpoint add_symbols (an : place) (path : option bytes) (ls : list label) (dt : node) : outcome node :=
  match ls with
  | [] => Done dt
  | l :: ls =>
      a ← defined (node_at dt an);
      dt ← (match get_property a (l_label l) with
            | Some _ => Done dt
            | None =>
                path ← defined path;
                d ← data_copy_mem junk (path ++ [0]) (blen path + 1);
                defined (update_at (fun a => Some (add_property a (build_property (l_label l) d))) dt an)
            end);
      add_symbols an path ls dt
  end.

(** [n] is the node at [ix] of the tree before anything was added; what is
    added changes neither the children nor the labels. *)
Fixpoint generate_label_tree_internal (an : place) (allocph : bool) (n : node) (ix : place) (st : node * Z)
    : outcome (node * Z) :=
  st ← (match n_labels n with
        | [] => Done st
        | _ =>
            dt ← add_symbols an (fullpath n) (live_labels (n_labels n)) (fst st);
            if allocph then get_node_phandle dt ix (snd st) else Done (dt, snd st)
        end);
  (fix each (i : nat) (l : list node) (st : node * Z) : outcome (node * Z) :=
     match l with
     | [] => Done st
     | c :: l =>
         if n_deleted c then each (S i) l st
         else st ← generate_label_tree_internal an allocph c (ix ++ [i]) st; each (S i) l st
     end) 0%nat (children n) st.

Definition generate_label_tree (dti : dt_info) (name : bytes) (allocph : bool) (ph : Z) : outcome (dt_info * Z) :=
  if any_label_tree (dt dti) then
    '(t, an) ← defined (build_root_node (dt dti) name);
    '(t, ph) ← generate_label_tree_internal [an] allocph t [] (t, ph);
    Done (DtInfo (dtsflags dti) (reservelist dti) (boot_cpuid_phys dti) t, ph)
  else Done (dti, ph).

(** ** dtcc.c *)

Definition symbols : bytes := str "__symbols__".

(** [out] says whether the file could be opened for writing; with the status,
    the text that is in the file when the program has ended. *)
Definition bxxt_dtcc_dtb_to_source (out : bool) (p : bytes) (n : Z) (ph : Z) : outcome (Z * option bytes * Z) :=
  if negb out then Done (BXXT_FAILED, None, ph)
  else
    dtb ← defined (bxxt_buffer_create_from_data p n);
    dti ← dt_from_mem junk (ptr dtb);
    '(dti, ph) ← generate_label_tree dti symbols true ph;
    text ← dt_to_source dti;
    Done (BXXT_SUCCESS, Some text, ph).

Context (src : sources) `{Hashtab.CharSign}.

(** A parser that accepts without a result leaves a NULL pointer. *)
Definition bxxt_dtcc_dtb_from_source (fuel : nat) (c : compiler) (fname : path) (ph : Z)
    : outcome (bxxt_buffer * compiler * Z) :=
  '(dti, c) ← dt_from_source junk src fuel c fname;
  dti ← defined dti;
  '(dti, ph) ← generate_label_tree dti symbols true ph;
  '(p, n) ← dt_to_mem junk no_options dti DEFAULT_FDT_VERSION;
  data ← defined (bxxt_buffer_create_from_data p n);
  Done (data, c, ph).
End Dtcc.

(** ** Trees without labels *)

Lemma any_label_tree_unfold n :
  any_label_tree n = match n_labels n with _ :: _ => true | [] => false end || existsb any_label_tree (live_children n).
Proof.
  destruct n as [d nm ps cs fp bl ph ls]. cbn [any_label_tree n_labels]. f_equal. unfold live_children. cbn [children].
  induction cs as [|c cs IH]; [done|]. cbn [List.filter]. destruct (n_deleted c); cbn [negb existsb]; [done|]. by rewrite IH.
Qed.

Lemma fresh_no_labels n : fresh n = true -> any_label_tree n = false.
Proof.
  induction n as [n IH] using node_induction. intros Hf. rewrite any_label_tree_unfold, (fresh_children n Hf).
  apply fresh_live in Hf as (_ & -> & Hf). cbn [orb].
  induction (children n) as [|c l IHl]; [done|]. apply Forall_cons in IH as [Hc IH]. cbn [existsb forallb] in *.
  apply andb_true_iff in Hf as [H1 H2]. by rewrite (Hc H1), (IHl IH H2).
Qed.

Lemma fresh_read n : fresh (read_node n) = true.
Proof.
  induction n as [n IH] using node_induction. rewrite read_node_unfold. cbn [fresh n_deleted n_labels children negb].
  rewrite bool_decide_true by done. cbn [andb]. apply forallb_forall. intros c Hc.
  apply in_map_iff in Hc as (x & <- & Hx). rewrite Forall_forall in IH. apply IH.
  unfold live_children in Hx. apply filter_In in Hx as [Hx _]. by apply list_elem_of_In.
Qed.

Lemma generate_fresh junk d name alloc ph : fresh (dt d) = true ->
  generate_label_tree junk d name alloc ph = Done (d, ph).
Proof. intros Hf. unfold generate_label_tree. by rewrite fresh_no_labels. Qed.

(** ** What is read of a tree is enough to write it *)

Lemma good_property_read p : good_property (read_property p) = good_property p.
Proof.
  unfold good_property, read_property, contents. cbn [build_property p_name p_val d_len d_val].
  destruct (Z.leb_spec 0 (d_len (p_val p))) as [H0|H0]; [|by rewrite !andb_false_r].
  f_equal. unfold blen. rewrite length_take.
  destruct (Z.leb_spec (d_len (p_val p)) (Z.of_nat (length (d_val (p_val p))))) as [H1|H1].
  - apply Z.leb_le. lia.
  - apply Z.leb_gt. lia.
Qed.

Lemma good_node_unfold n : good_node n =
  match n_name n with Some s => c_string s | None => false end &&
  forallb good_property (live_properties n) && forallb good_node (live_children n).
Proof.
  destruct n as [d nm ps cs fp bl ph ls]. cbn [good_node n_name children]. f_equal.
  unfold live_children. cbn [children].
  induction cs as [|c cs IH]; [done|]. cbn [List.filter forallb]. rewrite IH.
  destruct (n_deleted c); cbn [negb orb andb forallb]; done.
Qed.

Lemma good_node_read n : good_node (read_node n) = good_node n.
Proof.
  induction n as [n IH] using node_induction.
  rewrite (good_node_unfold (read_node n)), (good_node_unfold n), live_children_read, live_properties_read.
  rewrite (f_equal n_name (read_node_unfold n)). cbn [n_name]. f_equal; [f_equal|].
  - induction (live_properties n) as [|p l IHl]; [done|]. cbn [map forallb]. by rewrite good_property_read, IHl.
  - assert (Forall (fun c => good_node (read_node c) = good_node c) (live_children n)) as Hl.
    { rewrite Forall_forall in *. intros c Hc. apply IH. unfold live_children in Hc.
      apply list_elem_of_In, filter_In in Hc as [Hc _]. by apply list_elem_of_In. }
    clear IH. induction Hl as [|c l Hc Hl IHl]; [done|]. cbn [map forallb]. by rewrite Hc, IHl.
Qed.

Lemma enc_props_read ps tab : enc_props (map read_property ps) tab = enc_props ps tab.
Proof.
  revert tab. induction ps as [|p ps IH]; intros tab; [done|]. cbn [map enc_props].
  assert (enc_prop (read_property p) tab = enc_prop p tab) as ->.
  { unfold enc_prop, read_property, contents. cbn [build_property p_name p_val d_len d_val].
    rewrite take_take, Nat.min_id. done. }
  destruct (enc_prop p tab) as [a t]. by rewrite IH.
Qed.

Lemma enc_node_read n tab : enc_node (read_node n) tab = enc_node n tab.
Proof.
  revert tab. induction n as [n IH] using node_induction. intros tab.
  rewrite !enc_node_unfold, live_properties_read, children_read, enc_props_read.
  rewrite (f_equal n_name (read_node_unfold n)). cbn [n_name].
  destruct (enc_props (live_properties n) tab) as [ps tab1].
  assert (forall tab, enc_children (map read_node (live_children n)) tab = enc_children (children n) tab) as ->; [|done].
  unfold live_children. induction (children n) as [|c l IHl]; intros t; [done|].
  apply Forall_cons in IH as [Hc IH]. cbn [List.filter enc_children]. destruct (n_deleted c); cbn [negb map enc_children];
    [by apply IHl|].
  rewrite (read_node_unfold c) at 1. cbn [n_deleted]. rewrite Hc. destruct (enc_node c t) as [a t1].
  by rewrite (IHl IH).
Qed.

Definition with_cpuid (dti : dt_info) (cpu : Z) : dt_info :=
  DtInfo (dtsflags dti) (reservelist dti) cpu (dt dti).

Lemma enc_reserve_read l : enc_reserve (map (fun re => Reserve (re_address re) (re_size re) []) l) = enc_reserve l.
Proof. unfold enc_reserve. by rewrite map_map. Qed.

(** A tree that reads as [info] does is written as it is. *)
Lemma enc_blob_same d' info version :
  read_node (dt d') = read_node (dt info) -> enc_reserve (reservelist d') = enc_reserve (reservelist info) ->
  enc_blob d' version = enc_blob (with_cpuid info (boot_cpuid_phys d')) version.
Proof.
  intros Ht Hr. unfold enc_blob. cbn [with_cpuid dt reservelist boot_cpuid_phys].
  rewrite <- (enc_node_read (dt d')), Ht, enc_node_read. destruct (enc_node (dt info) []) as [st tab]. by rewrite Hr.
Qed.

Lemma blen_with_cpuid info cpu version : version_ok version ->
  blen (enc_blob (with_cpuid info cpu) version) = blen (enc_blob info version).
Proof.
  intros Hv. pose proof (blen_enc_blob info version Hv) as H1. pose proof (blen_enc_blob (with_cpuid info cpu) version Hv) as H2.
  cbn [with_cpuid dt reservelist] in H2. destruct (enc_node (dt info) []) as [st tab]. by rewrite H1, H2.
Qed.

Lemma read_read n : read_node (read_node n) = read_node n.
Proof.
  induction n as [n IH] using node_induction. rewrite (read_node_unfold (read_node n)), live_children_read, live_properties_read.
  rewrite (f_equal n_name (read_node_unfold n)). cbn [n_name]. rewrite (read_node_unfold n). f_equal.
  - rewrite map_map. apply map_ext. intros p. unfold read_property, contents. cbn [build_property p_name p_val d_len d_val].
    by rewrite take_take, Nat.min_id.
  - rewrite map_map. apply map_ext_in. intros c Hc. rewrite Forall_forall in IH. apply IH.
    unfold live_children in Hc. apply filter_In in Hc as [Hc _]. by apply list_elem_of_In.
Qed.

Lemma to_mem_ok junk d : good_node (dt d) = true -> n_deleted (dt d) = false -> blen (enc_blob d DEFAULT_FDT_VERSION) < LIM ->
  dt_to_mem junk no_options d DEFAULT_FDT_VERSION =
    Done (enc_blob d DEFAULT_FDT_VERSION, blen (enc_blob d DEFAULT_FDT_VERSION)).
Proof.
  intros Hg Hd Hb. destruct (make_blob_ok junk d DEFAULT_FDT_VERSION (or_intror eq_refl) Hg Hd Hb) as (b & E & Hw & Hc).
  unfold dt_to_mem. rewrite E. cbn [mbind outcome_bind]. rewrite (contents_read b Hw), Hc.
  cbn [defined mbind outcome_bind]. by rewrite <- (contents_blen b Hw), Hc.
Qed.

(** ** Labels without paths *)

(** No path was computed, and no label is deleted, in what is not deleted. *)
Fixpoint unpathed (n : node) : bool :=
  bool_decide (fullpath n = None) && forallb (fun l => negb (l_deleted l)) (n_labels n) &&
  forallb (fun c => n_deleted c || unpathed c) (children n).

Lemma unpathed_inv n : unpathed n = true ->
  fullpath n = None /\ live_labels (n_labels n) = n_labels n /\
  Forall (fun c => n_deleted c = true \/ unpathed c = true) (children n).
Proof.
  destruct n as [d nm ps cs fp bl ph ls]. cbn [unpathed fullpath n_labels children].
  rewrite !andb_true_iff. intros ((Hf & Hl) & Hc). apply bool_decide_eq_true in Hf. split; [done|]. split.
  - unfold live_labels. induction ls as [|l ls IH]; [done|]. cbn [forallb List.filter] in *.
    apply andb_true_iff in Hl as [H1 H2]. by rewrite H1, (IH H2).
  - apply Forall_forall. intros c Hin. rewrite forallb_forall in Hc. apply list_elem_of_In in Hin.
    by apply orb_true_iff, Hc.
Qed.

Lemma get_subnode_place dt name l : get_subnode dt name = Some None -> l = children dt ->
  forall i, child_place (fun cn => streq cn name) i l = Some None.
Proof.
  unfold get_subnode, live_children. intros Hs ->. induction (children dt) as [|c l IH]; intros i; [done|].
  cbn [List.filter child_place] in *. destruct (n_deleted c); cbn [negb find_child] in Hs; [by apply IH|].
  destruct (n_name c) as [cn|]; [|done]. cbn [mbind option_bind] in *. destruct (streq cn name); [done|by apply IH].
Qed.

Section Labels.
Context (junk : Z -> Z) (an : place) (allocph : bool).
Abbreviation visit := (generate_label_tree_internal junk an allocph).

(** The children of a node from index [i] on. *)
Fixpoint visit_children (i : nat) (l : list node) (ix : place) (st : node * Z) : outcome (node * Z) :=
  match l with
  | [] => Done st
  | c :: l =>
      if n_deleted c then visit_children (S i) l ix st
      else st ← visit c (ix ++ [i]) st; visit_children (S i) l ix st
  end.

Lemma visit_unfold n ix st :
  visit n ix st =
    (st ← (match n_labels n with
           | [] => Done st
           | _ =>
               dt ← add_symbols junk an (fullpath n) (live_labels (n_labels n)) (fst st);
               if allocph then get_node_phandle junk dt ix (snd st) else Done (dt, snd st)
           end);
     visit_children 0 (children n) ix st).
Proof.
  destruct n as [d nm ps cs fp bl ph ls]. cbn [generate_label_tree_internal n_labels fullpath children].
  match goal with |- mbind _ ?m = mbind _ ?m => destruct m as [st'| | |]; try done end. cbn [mbind outcome_bind].
  generalize 0%nat st'. clear st'. induction cs as [|c cs IH]; intros i st'; [done|]. cbn [visit_children].
  destruct (n_deleted c); [apply IH|]. destruct (visit c _ st') as [st2| | |]; try done. apply IH.
Qed.

(** The walk does nothing up to the first label, and faults there. *)
Lemma visit_labels a dt ph : node_at dt an = Some a -> live_properties a = [] ->
  forall n ix, unpathed n = true -> visit n ix (dt, ph) = if any_label_tree n then Fault else Done (dt, ph).
Proof.
  intros Ha Hp n. induction n as [n IH] using node_induction. intros ix Hu.
  apply unpathed_inv in Hu as (Hf & Hl & Hc). rewrite visit_unfold, any_label_tree_unfold, Hl, Hf. cbn [fst snd].
  destruct (n_labels n) as [|l ls].
  - cbn [orb mbind outcome_bind]. generalize 0%nat. unfold live_children.
    induction (children n) as [|c cs IHc]; intros i; [done|].
    apply Forall_cons in IH as [IHn IH]. apply Forall_cons in Hc as [Hc1 Hc]. cbn [visit_children List.filter].
    destruct (n_deleted c) eqn:Hd; cbn [negb existsb]; [by apply IHc|].
    destruct Hc1 as [Hc1|Hc1]; [done|]. rewrite (IHn _ Hc1).
    destruct (any_label_tree c); [done|]. cbn [mbind outcome_bind orb]. by apply IHc.
  - cbn [orb add_symbols]. rewrite Ha. cbn [defined mbind outcome_bind].
    unfold get_property. rewrite Hp. done.
Qed.
End Labels.

Lemma labels_fault junk d allocph ph :
  unpathed (dt d) = true -> get_subnode (dt d) symbols = Some None -> any_label_tree (dt d) = true ->
  generate_label_tree junk d symbols allocph ph = Fault.
Proof.
  intros Hu Hs Ha. unfold generate_label_tree. rewrite Ha. unfold build_root_node.
  rewrite (get_subnode_place _ _ _ Hs eq_refl). cbn [mbind option_bind].
  set (a := Node false (Some symbols) [] [] None 0 0 []).
  change (build_and_name_child_node (dt d) symbols) with (Some (add_child (dt d) a)).
  cbn [defined mbind outcome_bind option_bind].
  rewrite (visit_labels junk [length (children (dt d))] allocph a).
  - assert (any_label_tree (add_child (dt d) a) = true) as ->; [|done].
    rewrite any_label_tree_unfold in *. cbn [add_child with_children n_labels].
    change (live_children (add_child (dt d) a)) with (List.filter (fun x => negb (n_deleted x)) (children (dt d) ++ [a])).
    rewrite List.filter_app, existsb_app. fold (live_children (dt d)).
    apply orb_true_iff in Ha as [->| ->]; [done|]. by rewrite orb_true_r.
  - unfold add_child, with_children. cbn [node_at children].
    rewrite lookup_app_r, Nat.sub_diag by lia. done.
  - done.
  - clear Ha Hs. destruct (dt d) as [dl nm ps cs fp bl ph' ls].
    unfold add_child, with_children. cbn [unpathed fullpath n_labels children].
    rewrite forallb_app. cbn [forallb]. cbn [unpathed fullpath n_labels children] in Hu.
    apply andb_true_iff in Hu as [-> ->]. done.
Qed.

(** No label is deleted, in what is not deleted: only /delete-node/ of the root
    leaves one. *)
Fixpoint labels_live (n : node) : bool :=
  forallb (fun l => negb (l_deleted l)) (n_labels n) && forallb (fun c => n_deleted c || labels_live c) (children n).

Lemma unpathed_parts n : pathless n = true -> labels_live n = true -> unpathed n = true.
Proof.
  induction n as [n IH] using node_induction. destruct n as [d nm ps cs fp bl ph ls].
  cbn [pathless labels_live unpathed fullpath n_labels children] in *.
  intros [-> Hc]%andb_true_iff [-> Hl]%andb_true_iff. cbn [andb].
  induction cs as [|c cs IHc]; [done|]. apply Forall_cons in IH as [H1 IH]. cbn [forallb] in *.
  apply andb_true_iff in Hc as [Hc1 Hc]. apply andb_true_iff in Hl as [Hl1 Hl]. rewrite (IHc IH Hc Hl), andb_true_r.
  destruct (n_deleted c); [done|]. cbn [orb] in *. by apply H1.
Qed.

(** ** Properties *)

(** C5. Decompiling and compiling: a blob of version 17 below 1 GiB less 8 KiB,
    written as a source and compiled again, whatever start condition the
    scanner was left in, comes back byte for byte but for the boot processor,
    which the source does not hold and which is guessed from the tree.  The tree
    must have names the scanner takes, values below 256 MiB, and a shape within
    the parser's stack; the source must be among the first hundred of the
    process. *)
Theorem dtcc_roundtrip junk junk' (info : dt_info) (ph : Z) :
  good_info info = true -> source_info (read_info info) = true -> blen (enc_blob info 17) < LIM ->
  parser_need (dt (read_info info)) + 5 < YYMAXDEPTH -> blen (reservelist info) + 7 < YYMAXDEPTH ->
  let blob := enc_blob info 17 in
  exists text cpu, bxxt_dtcc_dtb_to_source junk true blob (blen blob) ph = Done (BXXT_SUCCESS, Some text, ph) /\
    guess_boot_cpuid (read_node (dt info)) = Done cpu /\
    forall src (CS : Hashtab.CharSign) (c : compiler) (fname : path) (ph' : Z),
      resting c -> srcfile_depth (c_lexer c) < MAX_SRCFILE_DEPTH -> streq fname (str "-") = false ->
      file_of src fname = Some text ->
      let blob' := enc_blob (with_cpuid info cpu) 17 in
      exists fuel0 c', resting c' /\ srcfile_depth (c_lexer c') = srcfile_depth (c_lexer c) + 1 /\
        forall fuel, (fuel0 <= fuel)%nat ->
          bxxt_dtcc_dtb_from_source junk' src fuel c fname ph' = Done (Buffer (blen blob') blob', c', ph').
Proof.
  intros Hg Hsrc Hb Hneed Hlen blob.
  destruct (good_info_inv info Hg) as (Hgn & Hdel & _ & _).
  pose proof (source_info_spec _ Hsrc) as Hok.
  destruct (scan_source junk (Sources [] (fun _ => None) []) (H := false) None 0 (read_info info) Hok) as (text & Ht & _).
  destruct (guess_source (dt (read_info info)) (si_node _ Hok)) as [cpu Hcpu].
  change (dt (read_info info)) with (read_node (dt info)) in Hcpu. rewrite read_read in Hcpu.
  exists text, cpu. split; [|split; [exact Hcpu|]].
  - unfold bxxt_dtcc_dtb_to_source. cbn [negb]. rewrite create_from_data. cbn [defined mbind outcome_bind ptr].
    pose proof (from_mem_ok junk info 17 [] (or_intror eq_refl) Hg Hb) as Hf. rewrite app_nil_r in Hf.
    fold blob in Hf. rewrite Hf. cbn [mbind outcome_bind].
    rewrite (generate_fresh junk (read_info info)) by apply fresh_read. cbn [mbind outcome_bind]. by rewrite Ht.
  - intros src CS c fname ph' Hrest Hdepth Hname Hfile blob'.
    destruct (source_read_back junk' src CS (read_info info) c fname text) as (fuel0 & d' & c' & Hrun & Hd' & Hc' & Hdep);
      try done.
    { cbn [read_info reservelist]. unfold blen. rewrite length_map. exact Hlen. }
    exists fuel0, c'. split; [done|]. split; [done|]. intros fuel Hf.
    unfold bxxt_dtcc_dtb_from_source. rewrite (Hrun fuel Hf). cbn [defined mbind outcome_bind].
    destruct Hd' as [_ Hre Htree Hfr Hguess].
    change (dt (read_info info)) with (read_node (dt info)) in Htree, Hguess. rewrite !read_read in Htree, Hguess.
    rewrite Hcpu in Hguess. injection Hguess as ->.
    rewrite (generate_fresh junk' d') by exact Hfr. cbn [mbind outcome_bind].
    assert (enc_blob d' 17 = blob') as Hblob.
    { apply enc_blob_same; [exact Htree|]. rewrite Hre. cbn [read_info reservelist]. by rewrite !enc_reserve_read. }
    rewrite to_mem_ok; [|by rewrite <- good_node_read, Htree, good_node_read|apply (fresh_live _ Hfr)|].
    + change DEFAULT_FDT_VERSION with 17. rewrite Hblob. cbn [mbind outcome_bind]. by rewrite create_from_data.
    + change DEFAULT_FDT_VERSION with 17. rewrite Hblob. unfold blob'. rewrite blen_with_cpuid by (by right). exact Hb.
Qed.

(** What the compiler cannot take, whatever the source files hold.  The count
    of files that were opened never goes down, so once a hundred have been
    opened every call dies.  And a label on any node ends the program:
    the paths [generate_label_tree] would write under /__symbols__ are computed
    only by the checks, which the program never runs, so [strlen] is called on
    NULL, unless the source has a /__symbols__ of its own. *)
Theorem dtcc_refuses junk src (CS : Hashtab.CharSign) fuel (c : compiler) (fname : path) (ph : Z) :
  (MAX_SRCFILE_DEPTH <= srcfile_depth (c_lexer c) -> bxxt_dtcc_dtb_from_source junk src fuel c fname ph = Die) /\
  (forall d c', byte_sources src -> byte_files (c_lexer c) ->
    dt_from_source junk src fuel c fname = Done (Some d, c') ->
    labels_live (dt d) = true -> any_label_tree (dt d) = true -> get_subnode (dt d) symbols = Some None ->
    bxxt_dtcc_dtb_from_source junk src fuel c fname ph = Fault).
Proof.
  split.
  - intros Hd. unfold bxxt_dtcc_dtb_from_source, dt_from_source, srcfile_push. cbn [srcfile_depth].
    by replace (MAX_SRCFILE_DEPTH <=? srcfile_depth (c_lexer c)) with true by lia.
  - intros d c' Hsrc Hc E Hl Ha Hs. unfold bxxt_dtcc_dtb_from_source. rewrite E. cbn [defined mbind outcome_bind].
    rewrite labels_fault; [done| |done|done]. apply unpathed_parts; [|done]. by eapply parsed_pathless.
Qed.

(** ** Small sources *)

#[local] Instance sample_sign : Hashtab.CharSign := true.
Definition sources_of (text : bytes) : sources := Sources [] (fun p => if bool_decide (p = str "a.dts") then Some text else None) [].

Lemma dtcc_roundtrip_witness :
  exists text cpu, bxxt_dtcc_dtb_to_source no_junk true (enc_blob sample_info 17) (blen (enc_blob sample_info 17)) 1 =
      Done (BXXT_SUCCESS, Some text, 1) /\
    let blob' := enc_blob (with_cpuid sample_info cpu) 17 in
    exists fuel0 c', forall fuel, (fuel0 <= fuel)%nat ->
      bxxt_dtcc_dtb_from_source no_junk (sources_of text) fuel compiler_start (str "a.dts") 1 =
        Done (Buffer (blen blob') blob', c', 1).
Proof.
  destruct (dtcc_roundtrip no_junk no_junk sample_info 1) as (text & cpu & Ht & Hcpu & Hback).
  - reflexivity.
  - vm_compute. reflexivity.
  - vm_compute. reflexivity.
  - vm_compute. reflexivity.
  - vm_compute. reflexivity.
  - exists text, cpu. split; [exact Ht|].
    destruct (Hback (sources_of text) sample_sign compiler_start (str "a.dts") 1) as (fuel0 & c' & _ & _ & Hrun).
    + split; [reflexivity|by apply (bool_decide_unpack _)].
    + vm_compute. reflexivity.
    + vm_compute. reflexivity.
    + reflexivity.
    + exists fuel0, c'. exact Hrun.
Defined.

Definition labelled_source : bytes := str "/dts-v1/; / { cpu: a { }; };".

Lemma dtcc_refuses_witness :
  bxxt_dtcc_dtb_from_source no_junk (sources_of labelled_source) 100 compiler_start (str "a.dts") 1 = Fault.
Proof.
  destruct (dt_from_source no_junk (sources_of labelled_source) 100 compiler_start (str "a.dts")) as [[[d|] c']| | |] eqn:E;
    vm_compute in E; try discriminate E.
  eapply (dtcc_refuses no_junk (sources_of labelled_source) sample_sign 100 compiler_start (str "a.dts") 1).
  - split; [|constructor]. intros f s. cbn. case_bool_decide; [|done]. intros [= <-]. by apply is_byte_check.
  - constructor.
  - vm_compute. reflexivity.
  - reflexivity.
  - reflexivity.
  - reflexivity.
Defined.
